(* ===== verification/_CoqProject ===== *)
-Q . S2P
Prelude.v
Uint256.v
Primitives.v
Chain.v
Consensus.v
Pow.v
VersionBits.v
Script.v
HashBuffer.v
Sha256.v
Sha1.v
Ripemd160.v
Hash.v
Serialize.v
Merkle.v
Standard.v
Coins.v
Utxo.v
SigHash.v
Interpreter.v
TxVerify.v
Pos.v
Rewards.v
Block.v
ChainState.v
Compressor.v
BlockStore.v
UndoStore.v
CoinsDB.v
Replay.v
BlockTree.v
FlushState.v
Accept.v
