(* ===== verification/Prelude.v ===== *)
(** * Metrix: a verification development of the node's consensus core

    Metrix (the repository's src/, a descendant of Bitcoin Core and Qtum) is a
    full node: it receives blocks and transactions, decides which are valid,
    and keeps the set of unspent outputs of the best chain.  This library
    models the part of the node that every participant has to agree on, as
    executable functions translated from the C++ sources, and proves what
    makes that part correct.

    ** Parts and files

    The files are layered; each requires the ones it uses.

    - [Prelude] (this file): machine-width integers, the outcome monad,
      counted loops, arrays, positional notation, the shared tactics and
      hint databases.
    - [Uint256]: arith_uint256.{h,cpp}, 256-bit integers as eight 32-bit
      limbs, with the compact form used in block headers.
    - [Primitives], [Consensus]: primitives/transaction.h, primitives/block.h,
      amount.h, consensus/params.h, consensus/consensus.{h,cpp}: the data.
    - [Chain]: chain.{h,cpp}: block index entries are shared objects linked
      by pointers, so they live in a store indexed by pointers; the skip
      list, median times, work, the active chain, locators and forks.
    - [Pow]: pow.cpp: the next difficulty and the proof-of-work check.
    - [VersionBits]: versionbits.cpp: the memoised states of deployments.
    - [HashBuffer], [Sha256], [Sha1], [Ripemd160], [Hash]: crypto/*.cpp and
      hash.{h,cpp}: the buffered hash objects, the compression functions,
      SipHash and MurmurHash3.
    - [Serialize]: serialize.h and the wire formats of transactions, headers
      and blocks.
    - [Script], [Standard]: script/script.{h,cpp}, script/standard.{h,cpp}:
      scripts, numbers, instruction decoding, templates and destinations.
    - [SigHash], [Interpreter]: script/interpreter.{h,cpp}: what signatures
      commit to, the checkers, and the stack machine.
    - [Merkle]: consensus/merkle.cpp, merkleblock.{h,cpp}: merkle roots and
      partial merkle trees.
    - [Coins], [Utxo]: coins.{h,cpp}, undo.h and the functions of
      validation.cpp that apply and undo the transactions of a block.
    - [TxVerify]: consensus/tx_check.cpp, consensus/tx_verify.cpp,
      consensus/validation.h: the checks of a transaction.
    - [Pos] (pos.cpp, VerifySignature of script/sign.cpp, the lookup of spent
      coins in validation.cpp): the stake kernel, [CheckProofOfStake], the
      kernel cache, recovered block signers, and the cache and outputs of
      shared rewards.
    - [Rewards] (validation.cpp): coin age, the subsidies of stakers,
      governors and the budget, and [CheckReward].
    - [Block] (validation.cpp, checkpoints.cpp): [CheckBlock], header proofs,
      block signatures, the witness commitment, the contextual checks of
      headers and blocks and the checkpoints.
    - [ChainState] (validation.cpp): the block manager's index, failed and
      waiting blocks, the candidates for the tip and the active chain as one
      state, with the operations that add headers, connect received blocks,
      search the best chain, and mark and reset failures.
    - [Compressor] (compressor.{h,cpp}, undo.h, coins.h): coins and undo
      records in their stored form.
    - [BlockStore] (validation.cpp, flatfile.{h,cpp}): the block and undo
      files as byte strings, with positions, preallocation, reading, writing
      and pruning; [UndoStore]: undo data in these files.
    - [CoinsDB] (txdb.cpp, dbwrapper.{h,cpp}): the coins view over a
      key-value store that is written in batches; [Replay] (validation.cpp):
      the recovery from a write that was interrupted.
    - [BlockTree] (chain.h, txdb.cpp, validation.cpp): the block index on
      disk, and the start-up that rebuilds the tree from it.
    - [FlushState] (validation.cpp): [FlushStateToDisk] over the node as a
      whole, with what is on the disk after each of its writes.
    - [Accept] (validation.cpp): [AcceptBlockHeader] and
      [ProcessNewBlockHeaders], which join the checks of [Block] with the
      tree of [ChainState].

    ** How the code is represented

    A C++ integer of width [w] is a [Z]; every operation that can leave the
    range is wrapped explicitly ([u32], [s64], ...).  Byte strings are lists
    of [Z].  Code that can abort (a failed assertion, a thrown exception, a
    null or out-of-range access) returns an [outcome]; [Fail] is the abort,
    and [NoFuel] says that a loop bound of the model was too small.  Loops
    that are not structural take fuel computed from the input: a difference
    of heights for walks along [pprev], the length of the input for readers,
    the number of transactions for trees, the number of files or of database
    keys for searches on disk, fixed bit widths for numeric loops.
    The theorems state results as [Ok], so they also show that the fuel is
    enough.  Objects that the code mutates through pointers are explicit
    stores, caches thread their state, and virtual classes are type classes:
    [CCoinsView] with its contracts [CCoinsViewReads] and [CCoinsViewLaws],
    the signature checkers with [CheckerTotal], the threshold conditions with
    [ThresholdLaws], the vectorised hash back ends with [DispatchLaws] and
    the key-value store with [LevelDBLaws] and [LevelDBIteratorLaws].  Clients are proved
    against these interfaces, and the implementations discharge them.

    ** What the theorems show

    - Data: 256-bit arithmetic is arithmetic modulo 2^256, the compact form
      round-trips, serialization and deserialization are inverse, the hash
      objects compute the standards' functions, script numbers, pushes and
      standard scripts round-trip.
    - Block index: the skip list finds the same ancestor as walking back,
      the active chain is the list of ancestors of its tip, forks and common
      ancestors are the last ones, locators reach the genesis block.
    - Difficulty and deployments: targets stay positive and below the limit
      and follow the block spacing; cached deployment states are the states
      BIP9 defines.
    - Scripts: verification always returns, keeps the machine's limits, and
      all its flags but the one for senders are soft forks.
    - State: stacked caches refine one set of unspent coins, and
      disconnecting a block restores the coins that connecting it changed.
    - Validity: the transaction checks decide the stated rules and conserve
      value.
    - Staking: a stake is accepted exactly when its kernel is mature, signed
      for and within the weighted target; the kernel cache and the cache of
      reward scripts never change a result; a stake found among the spent
      coins was spent above the fork.
    - Rewards: the subsidy is the coin age times the rate modulo 2^64, exact
      below that, and keeps the supply under the cap, and [CheckReward]
      decides the stated rule; where the rule is weaker than intended, that
      is a theorem too.
    - Blocks: [CheckBlock] and the contextual header check decide stated rules on
      every input, witnesses do not change the verdict of [CheckBlock], and the
      commitment a block assembler adds is accepted.
    - Headers: [AcceptBlockHeader] decides the stated rules and keeps the tree
      well formed, and lists of headers only make it grow.
    - Block tree: every sequence of allowed operations keeps the tree
      consistent and none gets stuck; the search returns the best candidate without failed or
      missing blocks; received blocks connect everything that waited for
      them; resetting failures clears the whole branch.
    - Storage: coins, undo data and blocks are read back as they were
      written, disconnecting a block with its stored undo data restores the
      coins, pruning never removes a recent block, and a restart gives back
      the same tree, which can be written and loaded again; loading it
      terminates.
    - Crashes: a flush that stops between two batches leaves old and new
      coins and the names of both tips, and [ReplayBlocks] completes it
      unless the flush crossed a reorganisation, where it fails (a theorem
      too).  Amounts and input counts that the stored form cannot hold are
      stated.
    - The node: whenever it stops during [FlushStateToDisk], a start loads the
      tree, finds the block files and recovers the coins of before or after;
      the coins on disk have to stand at an ancestor of the tip, and with
      pruning at most 288 blocks below it.

    ** Parameters

    Elliptic curve operations (secp256k1: verification, key recovery and the
    low-S test) and what contracts store (the contract virtual machine is a
    submodule) are arguments of the definitions that use them, and so are the
    vectorised SHA-256 routines, the key-value store (a type class with the
    documented laws of atomic batches and ordered iteration), the free space
    of the disk and which files can be opened.  The byte that the search for
    contract calls reads before an empty script is an argument of the rewards
    ([stray]); elsewhere a read outside of a script is a failure.

    ** Limits of the representation

    - The candidates for the tip are a plain set, and the best one is found by
      the order of the code's comparator.  The code keeps a [std::set] ordered
      by fields of the entries; the operations of the model change these
      fields only for entries that are not in the set or are taken out first.
    - Sets of pointers are visited in the order of the model's pointers.
    - Data written to a block file count as being on the disk at once; the
      flush of the file is not a step of its own.
    - Exceptions of the database (std::runtime_error in FlushStateToDisk) and
      requests to shut down are not modelled.
    - The data of a pruned block arriving a second time are not covered by the
      invariant of the block tree.

    ** Not modelled

    - Networking, message processing, the wallet, RPC, the graphical
      interface, logging and the rest of start-up: input and output over
      sockets and windows, driven by threads and locks.
    - The contract virtual machine and what only runs it (qtum/qtumstate.cpp,
      qtum/qtumDGP.cpp, the execution part of ConnectBlock): its engine is
      not part of the sources.
    - Third-party code kept in the tree: leveldb, secp256k1, univalue,
      cryptopp, libff.
    - The memory pool and block assembly: local policy over containers with
      several indexes; consensus does not depend on them.
    - The rest of validation.cpp: the activation loop around
      [FindMostWorkChain], [InvalidateBlock] and the address indexes; the
      memory accounting of the coins cache; cursors over the coins database
      and the upgrade of old databases.
    - Ciphers, random numbers, time and utilities. *)

From Stdlib Require Import ZArith List Lia Bool.
Import ListNotations.
Local Open Scope Z_scope.

(** ** Machine-width integers

    A C++ unsigned integer of width [w] is a [Z] in [0, 2^w); every
    operation that may leave the range is wrapped explicitly.  Signed
    integers are [Z] in [-2^(w-1), 2^(w-1)). *)

Definition wrap (w z : Z) : Z := z mod 2 ^ w.

Definition swrap (w z : Z) : Z := (z + 2 ^ (w - 1)) mod 2 ^ w - 2 ^ (w - 1).

Abbreviation u8 := (wrap 8).
Abbreviation u16 := (wrap 16).
Abbreviation u32 := (wrap 32).
Abbreviation u64 := (wrap 64).
Abbreviation s32 := (swrap 32).
Abbreviation s64 := (swrap 64).

Definition in_u (w z : Z) : Prop := 0 <= z < 2 ^ w.

Definition in_s (w z : Z) : Prop := - 2 ^ (w - 1) <= z < 2 ^ (w - 1).

Lemma wrap_range w z : 0 <= w -> in_u w (wrap w z).
Proof. intros; apply Z.mod_pos_bound; lia. Qed.

Lemma wrap_small w z : in_u w z -> wrap w z = z.
Proof. intros; apply Z.mod_small; assumption. Qed.

Lemma wrap_wrap w z : wrap w (wrap w z) = wrap w z.
Proof. apply Zmod_mod. Qed.

Lemma swrap_small w z : 0 < w -> in_s w z -> swrap w z = z.
Proof.
  unfold swrap, in_s; intros Hw Hz.
  assert (2 ^ w = 2 * 2 ^ (w - 1)) by (rewrite <- Z.pow_succ_r by lia; f_equal; lia).
  rewrite Z.mod_small; lia.
Qed.

Lemma swrap_range w z : 0 < w -> in_s w (swrap w z).
Proof.
  unfold swrap, in_s; intros Hw.
  assert (2 ^ w = 2 * 2 ^ (w - 1)) by (rewrite <- Z.pow_succ_r by lia; f_equal; lia).
  pose proof (Z.mod_pos_bound (z + 2 ^ (w - 1)) (2 ^ w)); lia.
Qed.

Lemma land_ones_wrap w z : 0 <= w -> Z.land z (Z.ones w) = wrap w z.
Proof. intros; apply Z.land_ones; assumption. Qed.

(** [n & 0xffffffff] is truncation to 32 bits. *)
Lemma land_mask32 z : Z.land z 4294967295 = wrap 32 z.
Proof. apply (land_ones_wrap 32); lia. Qed.

Lemma lnot_u32 x : in_u 32 x -> wrap 32 (Z.lnot x) = 2 ^ 32 - 1 - x.
Proof.
  unfold in_u, wrap, Z.lnot; intros.
  replace (Z.pred (- x)) with ((2 ^ 32 - 1 - x) + (-1) * 2 ^ 32) by lia.
  rewrite Z_mod_plus_full. apply Z.mod_small; lia.
Qed.

(** ** Automation *)

(** Turns boolean integer tests of the context and the goal into
    propositions [lia] understands. *)
Ltac bool_to_prop :=
  repeat
    (rewrite ?Z.ltb_lt, ?Z.ltb_ge, ?Z.leb_le, ?Z.leb_gt, ?Z.eqb_eq, ?Z.eqb_neq,
       ?Z.gtb_lt, ?Z.geb_leb, ?andb_true_iff, ?andb_false_iff, ?orb_true_iff,
       ?orb_false_iff, ?negb_true_iff, ?negb_false_iff,
       ?Nat.ltb_lt, ?Nat.ltb_ge, ?Nat.leb_le, ?Nat.leb_gt, ?Nat.eqb_eq, ?Nat.eqb_neq in *).

(** Splits the tests of conditionals, keeping what each branch knows. *)
Ltac case_ifs :=
  repeat match goal with
    | |- context [if ?b then _ else _] => destruct b eqn:?
    | H : context [if ?b then _ else _] |- _ => destruct b eqn:?
    end.

Ltac split_ifs := case_ifs; bool_to_prop.

(** Evaluates the integer tests of the goal that the context decides. *)
Ltac decide_tests :=
  repeat match goal with
    | |- context [?a <? ?b] =>
        first [replace (a <? b) with true by (symmetry; apply Z.ltb_lt; lia)
              |replace (a <? b) with false by (symmetry; apply Z.ltb_ge; lia)]
    | |- context [?a <=? ?b] =>
        first [replace (a <=? b) with true by (symmetry; apply Z.leb_le; lia)
              |replace (a <=? b) with false by (symmetry; apply Z.leb_gt; lia)]
    | |- context [?a =? ?b] =>
        first [replace (a =? b) with true by (symmetry; apply Z.eqb_eq; lia)
              |replace (a =? b) with false by (symmetry; apply Z.eqb_neq; lia)]
    | |- context [(?a =? ?b)%nat] =>
        first [replace (a =? b)%nat with true by (symmetry; apply Nat.eqb_eq; lia)
              |replace (a =? b)%nat with false by (symmetry; apply Nat.eqb_neq; lia)]
    end; cbn [andb orb negb].

(** Splits the first match of the goal or of a hypothesis on a
    non-boolean scrutinee. *)
Ltac case_match_goal :=
  match goal with
  | |- context [match ?x with _ => _ end] => destruct x eqn:?
  end.

(** Introduces the division and remainder equations before [lia]. *)
Ltac zdiv_lia := Z.div_mod_to_equations; lia.

(** Injects an equation between constructors and substitutes. *)
Ltac inverts H := inversion H; subst; clear H.

(** Range side conditions are collected in [width], array lengths in [array]. *)
Create HintDb width.
Create Rewrite HintDb array.

(** ** Counted loops

    [for (i = lo; i < lo + n; i++) s = body(i, s)]. *)

Definition for_range {S : Type} (lo n : nat) (body : nat -> S -> S) (s : S) : S :=
  fold_left (fun s i => body i s) (seq lo n) s.

Lemma for_range_succ {S} lo n (body : nat -> S -> S) s :
  for_range lo (Datatypes.S n) body s = body (lo + n)%nat (for_range lo n body s).
Proof.
  unfold for_range. rewrite seq_S, fold_left_app. reflexivity.
Qed.

(** The invariant rule of counted loops. *)
Lemma for_range_inv {S} (P : nat -> S -> Prop) lo n body s :
  P 0%nat s ->
  (forall i s, (i < n)%nat -> P i s -> P (Datatypes.S i) (body (lo + i)%nat s)) ->
  P n (for_range lo n body s).
Proof.
  intros H0 Hstep.
  enough (forall m, (m <= n)%nat -> P m (for_range lo m body s)) by auto.
  induction m as [|m IH]; intros Hm; [exact H0|].
  rewrite for_range_succ. apply Hstep; [lia|]. apply IH; lia.
Qed.

(** Testing one bit with a mask *)
Lemma land_bit (x : Z) (i : nat) : negb (Z.land x (Z.shiftl 1 (Z.of_nat i)) =? 0) = Z.testbit x (Z.of_nat i).
Proof.
  rewrite Z.shiftl_1_l. destruct (Z.testbit x (Z.of_nat i)) eqn:E.
  - destruct (Z.eqb_spec (Z.land x (2 ^ Z.of_nat i)) 0) as [E0|]; [|reflexivity].
    apply (f_equal (fun y => Z.testbit y (Z.of_nat i))) in E0.
    rewrite Z.land_spec, E, Z.pow2_bits_true, Z.bits_0 in E0 by lia. discriminate.
  - destruct (Z.eqb_spec (Z.land x (2 ^ Z.of_nat i)) 0) as [|Hne]; [reflexivity|]. destruct Hne.
    apply Z.bits_inj'; intros k Hk. rewrite Z.land_spec, Z.bits_0, Z.pow2_bits_eqb by lia.
    destruct (Z.eqb_spec (Z.of_nat i) k) as [<-|]; [rewrite E; reflexivity|]. rewrite andb_false_r; reflexivity.
Qed.

(** ** Outcomes of fallible code

    [Ok] is a normal return, [Fail] an abort of the C++ code (a failed
    [assert], a thrown exception or a null dereference) and [NoFuel] a
    loop bound of the model that was too small; the theorems show where
    the last two cannot happen. *)

Inductive outcome (A : Type) : Type :=
| Ok (a : A)
| Fail
| NoFuel.

Arguments Ok {A} a.
Arguments Fail {A}.
Arguments NoFuel {A}.

Definition obind {A B} (m : outcome A) (k : A -> outcome B) : outcome B :=
  match m with
  | Ok a => k a
  | Fail => Fail
  | NoFuel => NoFuel
  end.

Definition of_option {A} (o : option A) : outcome A :=
  match o with Some a => Ok a | None => Fail end.

Declare Scope outcome_scope.
Delimit Scope outcome_scope with outcome.

Notation "x <-! m ; k" := (obind m (fun x => k))
  (at level 60, m at next level, right associativity) : outcome_scope.
(** Two results of the same computation are equal. *)
Ltac same_outcome :=
  repeat match goal with
  | H : ?x = Ok ?a, H' : ?x = Ok ?b |- _ =>
      first [ constr_eq a b; clear H' | rewrite H in H'; injection H' as H'; subst ]
  end.

Lemma obind_Ok {A B} (m : outcome A) (k : A -> outcome B) b :
  obind m k = Ok b <-> exists a, m = Ok a /\ k a = Ok b.
Proof.
  split; [|intros (a & -> & H); exact H].
  destruct m; simpl; try discriminate. eauto.
Qed.

(** ** Array cells

    [upd l i x] is [l[i] = x]; the models only use it under the bounds
    check the source relies on. *)

Fixpoint upd {A} (l : list A) (i : nat) (x : A) : list A :=
  match l, i with
  | [], _ => []
  | _ :: l', O => x :: l'
  | y :: l', S i' => y :: upd l' i' x
  end.

Lemma length_upd {A} (l : list A) i x : length (upd l i x) = length l.
Proof. revert i; induction l as [|y l IH]; intros [|i]; simpl; auto. Qed.

Lemma nth_upd_eq {A} (l : list A) i x d :
  (i < length l)%nat -> nth i (upd l i x) d = x.
Proof.
  revert i; induction l as [|y l IH]; intros [|i] Hi; simpl in *; try lia; auto.
  apply IH; lia.
Qed.

Lemma nth_upd_ne {A} (l : list A) i j x d : i <> j -> nth j (upd l i x) d = nth j l d.
Proof.
  revert i j; induction l as [|y l IH]; intros [|i] [|j] Hij; simpl; auto; try lia.
Qed.

Lemma Forall_upd {A} (P : A -> Prop) l i x : Forall P l -> P x -> Forall P (upd l i x).
Proof.
  intros Hl Hx; revert i; induction Hl as [|y l Hy Hl IH]; intros [|i]; simpl; auto.
Qed.

Lemma Forall_nth_default {A} (P : A -> Prop) l i d : Forall P l -> P d -> P (nth i l d).
Proof.
  intros Hl Hd; revert i; induction Hl; intros [|i]; simpl; auto.
Qed.

Lemma Forall_firstn {A} (P : A -> Prop) n l : Forall P l -> Forall P (firstn n l).
Proof. intros H; revert n; induction H; intros [|n]; simpl; auto. Qed.

Lemma Forall_skipn {A} (P : A -> Prop) n l : Forall P l -> Forall P (skipn n l).
Proof. intros H; revert n; induction H; intros [|n]; simpl; auto. Qed.

#[export] Hint Rewrite @length_upd : array.

(** ** Positional notation *)

(** One digit of a carry chain in base [B]. *)
Lemma digit_step B M n x :
  0 < B -> 0 < M ->
  n mod B + B * ((n / B + x) mod M) = (n + B * x) mod (B * M).
Proof.
  intros HB HM.
  replace (B * x) with (x * B) by lia.
  rewrite (Z.rem_mul_r (n + x * B)) by lia.
  rewrite Z_mod_plus_full, Z.div_add by lia. reflexivity.
Qed.

(** The same digit when two numbers are still to be added. *)
Lemma digit_step2 B M n x y :
  0 < B -> 0 < M ->
  n mod B + B * ((n / B + x + y) mod M) = (n + B * x + B * y) mod (B * M).
Proof. intros. rewrite <- Z.add_assoc, digit_step by assumption. f_equal; ring. Qed.

Lemma Zpow2_pos w : 0 <= w -> 0 < 2 ^ w.
Proof. intros; apply Z.pow_pos_nonneg; lia. Qed.

Lemma in_u_testbit w z n : 0 <= w -> in_u w z -> w <= n -> Z.testbit z n = false.
Proof.
  intros Hw [H0 H1] Hn.
  destruct (Z.eq_dec z 0) as [->|Hz]; [apply Z.testbit_0_l|].
  apply Z.bits_above_log2; [lia|].
  apply Z.log2_lt_pow2; [lia|].
  apply Z.lt_le_trans with (2 ^ w); [lia|]. apply Z.pow_le_mono_r; lia.
Qed.

(** A value whose bits at and above [w] are clear fits in [w] bits. *)
Lemma testbit_in_u w z :
  0 <= w -> 0 <= z -> (forall n, w <= n -> Z.testbit z n = false) -> in_u w z.
Proof.
  intros Hw Hz H. split; [assumption|].
  destruct (Z.eq_dec z 0) as [->|Hz0]; [apply Zpow2_pos; lia|].
  apply Z.log2_lt_pow2; [lia|].
  destruct (Z.lt_ge_cases (Z.log2 z) w) as [|Hge]; [assumption|].
  specialize (H _ Hge). rewrite Z.bit_log2 in H by lia. discriminate.
Qed.

Lemma lor_in_u w a b : 0 <= w -> in_u w a -> in_u w b -> in_u w (Z.lor a b).
Proof.
  intros Hw Ha Hb. apply testbit_in_u; [lia| |].
  - apply Z.lor_nonneg; split; [apply Ha|apply Hb].
  - intros n Hn. rewrite Z.lor_spec, (in_u_testbit w a), (in_u_testbit w b) by assumption.
    reflexivity.
Qed.

Lemma land_in_u w a b : 0 <= w -> in_u w a -> in_u w b -> in_u w (Z.land a b).
Proof.
  intros Hw Ha Hb. apply testbit_in_u; [lia| |].
  - apply Z.land_nonneg; left; apply Ha.
  - intros n Hn. rewrite Z.land_spec, (in_u_testbit w a) by assumption. reflexivity.
Qed.

Lemma lxor_in_u w a b : 0 <= w -> in_u w a -> in_u w b -> in_u w (Z.lxor a b).
Proof.
  intros Hw Ha Hb. apply testbit_in_u; [lia| |].
  - apply Z.lxor_nonneg; split; intros; [apply Hb|apply Ha].
  - intros n Hn. rewrite Z.lxor_spec, (in_u_testbit w a), (in_u_testbit w b) by assumption.
    reflexivity.
Qed.

Lemma shiftr_in_u w a n : 0 <= n -> in_u w a -> in_u w (Z.shiftr a n).
Proof.
  intros Hn [Ha0 Ha]. rewrite Z.shiftr_div_pow2 by assumption.
  pose proof (Zpow2_pos n Hn).
  split; [apply Z.div_pos; lia|].
  apply Z.le_lt_trans with a; [|assumption].
  apply Z.div_le_upper_bound; nia.
Qed.

Lemma land_le_r a b : 0 <= b -> Z.land a b <= b.
Proof.
  intros Hb.
  assert (H : Z.land a b + Z.ldiff b a = b).
  { rewrite <- Z.add_lor_land.
    replace (Z.land (Z.land a b) (Z.ldiff b a)) with 0.
    - rewrite Z.add_0_r. apply Z.bits_inj'; intros n Hn.
      rewrite Z.lor_spec, Z.land_spec, Z.ldiff_spec. destruct (Z.testbit a n), (Z.testbit b n); reflexivity.
    - symmetry. apply Z.bits_inj'; intros n Hn.
      rewrite !Z.land_spec, Z.ldiff_spec, Z.testbit_0_l.
      destruct (Z.testbit a n), (Z.testbit b n); reflexivity. }
  assert (0 <= Z.ldiff b a) by (apply Z.ldiff_nonneg; auto). lia.
Qed.

(** Disjoint bit fields: a low part below [2^n] or-ed with a high part
    shifted past it is their sum. *)
Lemma lor_shiftl_add n lo hi :
  0 <= n -> in_u n lo -> 0 <= hi -> Z.lor lo (Z.shiftl hi n) = lo + hi * 2 ^ n.
Proof.
  intros Hn Hlo Hhi.
  rewrite <- (Z.shiftl_mul_pow2 hi n) by assumption.
  rewrite <- Z.add_lor_land.
  assert (Z.land lo (Z.shiftl hi n) = 0) as ->; [|lia].
  apply Z.bits_inj'; intros m Hm. rewrite Z.land_spec, Z.testbit_0_l.
  destruct (Z.lt_ge_cases m n).
  - rewrite Z.shiftl_spec_low, andb_false_r by assumption. reflexivity.
  - rewrite (in_u_testbit n lo) by assumption. reflexivity.
Qed.

(** A [w]-bit field placed at bit [m] has no bit outside it. *)
Lemma field_bit_out w x m n :
  0 <= w -> in_u w x -> 0 <= n -> n < m \/ m + w <= n -> Z.testbit (Z.shiftl x m) n = false.
Proof.
  intros Hw Hx Hn Hout. rewrite Z.shiftl_spec by assumption. destruct Hout.
  - apply Z.testbit_neg_r; lia.
  - apply (in_u_testbit w); auto; lia.
Qed.

#[export] Hint Resolve lor_in_u land_in_u lxor_in_u shiftr_in_u wrap_range Zpow2_pos : width.

(** ** Signed values and single bits *)

Lemma swrap_mod w x : 0 < w -> (swrap w x) mod 2 ^ w = x mod 2 ^ w.
Proof.
  intros Hw. unfold swrap. rewrite Zminus_mod_idemp_l.
  replace (x + 2 ^ (w - 1) - 2 ^ (w - 1)) with x by lia. reflexivity.
Qed.

Lemma in_s_shiftr w x :
  0 < w -> in_s w x <-> Z.shiftr x (w - 1) = 0 \/ Z.shiftr x (w - 1) = -1.
Proof.
  intros Hw. unfold in_s. rewrite Z.shiftr_div_pow2 by lia.
  assert (0 < 2 ^ (w - 1)) by (apply Z.pow_pos_nonneg; lia).
  pose proof (Z.div_mod x (2 ^ (w - 1)) ltac:(lia)). pose proof (Z.mod_pos_bound x (2 ^ (w - 1)) ltac:(lia)).
  split; intros Hx; [|nia]. assert (-1 <= x / 2 ^ (w - 1)) by (apply Z.div_le_lower_bound; lia).
  assert (x / 2 ^ (w - 1) < 1) by (apply Z.div_lt_upper_bound; lia). lia.
Qed.

Lemma lor_in_s w a b : 0 < w -> in_s w a -> in_s w b -> in_s w (Z.lor a b).
Proof.
  intros Hw. rewrite !in_s_shiftr, Z.shiftr_lor by assumption.
  intros [-> | ->] [-> | ->]; [left|right..]; reflexivity.
Qed.

(** [x & ~(1 << k)] in 64 bits, for the top bit of [x]. *)
Lemma clear_bit64 x k :
  0 <= k < 64 -> 2 ^ k <= x < 2 ^ (k + 1) -> Z.land x (u64 (Z.lnot (2 ^ k))) = x - 2 ^ k.
Proof.
  intros Hk Hx. rewrite Z.pow_add_r in Hx by lia. change (2 ^ 1) with 2 in Hx.
  replace (x - 2 ^ k) with (x mod 2 ^ k)
    by (replace x with ((x - 2 ^ k) + 1 * 2 ^ k) at 1 by lia; rewrite Z_mod_plus_full; apply Z.mod_small; lia).
  apply Z.bits_inj'; intros i Hi. unfold wrap. rewrite Z.land_spec.
  assert (Hhigh : k < i -> Z.testbit x i = false).
  { intros Hki. apply (in_u_testbit (k + 1)); [lia| |lia]. unfold in_u. rewrite Z.pow_add_r by lia. lia. }
  destruct (Z.lt_trichotomy i k) as [Hlt|[->|Hgt]].
  - rewrite !Z.mod_pow2_bits_low, Z.lnot_spec, Z.pow2_bits_false by lia. apply andb_true_r.
  - rewrite Z.mod_pow2_bits_low, Z.lnot_spec, Z.pow2_bits_true, Z.mod_pow2_bits_high by lia. apply andb_false_r.
  - rewrite Hhigh by lia. cbn [andb]. rewrite Z.mod_pow2_bits_high by lia. reflexivity.
Qed.
