(* ===== verification/Uint256.v ===== *)
(** * Uint256: the 256-bit unsigned integers of src/src/arith_uint256.{h,cpp}

    [base_uint<256>] is an array [pn] of [WIDTH = 8] little-endian 32-bit
    limbs.  Every operation is translated limb by limb, with the 64-bit
    carries of the source; [val] is the number an array denotes, and the
    theorems show that each operation computes the corresponding
    operation on [Z] modulo 2^256. *)

From Stdlib Require Import ZArith List Lia Bool Btauto.
From S2P Require Import Prelude.
Import ListNotations.
Local Open Scope Z_scope.

Module arith_uint256.

(** ** The representation *)

Definition WIDTH : nat := 8.

Definition base_uint := list Z.

(** The value an array of limbs denotes. *)
Fixpoint val (pn : base_uint) : Z :=
  match pn with
  | [] => 0
  | x :: l => x + 2 ^ 32 * val l
  end.

(** The class invariant: [WIDTH] limbs of 32 bits. *)
Definition wf (a : base_uint) : Prop := length a = WIDTH /\ Forall (in_u 32) a.

(** ** Constructors and assignment *)

(** [base_uint()] *)
Definition zero : base_uint := repeat 0 WIDTH.

(** [base_uint(uint64_t b)] and [operator=(uint64_t b)] *)
Definition of_uint64 (b : Z) : base_uint :=
  u32 b :: u32 (Z.shiftr b 32) :: repeat 0 (WIDTH - 2).

(** ** Bitwise operators *)

Definition bnot (a : base_uint) : base_uint := map (fun x => u32 (Z.lnot x)) a.

Fixpoint zip_limbs (f : Z -> Z -> Z) (a b : base_uint) : base_uint :=
  match a, b with
  | x :: a', y :: b' => f x y :: zip_limbs f a' b'
  | _, _ => []
  end.

Definition bxor (a b : base_uint) : base_uint := zip_limbs Z.lxor a b.

Definition band (a b : base_uint) : base_uint := zip_limbs Z.land a b.

Definition bor (a b : base_uint) : base_uint := zip_limbs Z.lor a b.

(** ** Addition, increment, negation, subtraction *)

(** The loop of [operator+=]: [carry] and [n] are 64-bit. *)
Fixpoint add_loop (carry : Z) (a b : base_uint) : base_uint :=
  match a, b with
  | x :: a', y :: b' =>
      let n := u64 (carry + x + y) in
      Z.land n 0xffffffff :: add_loop (Z.shiftr n 32) a' b'
  | _, _ => []
  end.

Definition add (a b : base_uint) : base_uint := add_loop 0 a b.

(** Prefix [operator++]: [while (i < WIDTH && ++pn[i] == 0) i++]. *)
Fixpoint inc (a : base_uint) : base_uint :=
  match a with
  | [] => []
  | x :: a' => let x' := u32 (x + 1) in if x' =? 0 then x' :: inc a' else x' :: a'
  end.

(** Prefix [operator--]: goes on while the decremented limb is all ones. *)
Fixpoint dec (a : base_uint) : base_uint :=
  match a with
  | [] => []
  | x :: a' =>
      let x' := u32 (x - 1) in
      if x' =? 0xffffffff then x' :: dec a' else x' :: a'
  end.

(** Unary [operator-]: complement and increment. *)
Definition neg (a : base_uint) : base_uint := inc (map (fun x => u32 (Z.lnot x)) a).

(** [operator-=]: [*this += -b]. *)
Definition sub (a b : base_uint) : base_uint := add a (neg b).

(** [operator+=(uint64_t)] and [operator-=(uint64_t)]. *)
Definition add64 (a : base_uint) (b64 : Z) : base_uint := add a (of_uint64 b64).

Definition sub64 (a : base_uint) (b64 : Z) : base_uint := add a (neg (of_uint64 b64)).

(** ** Multiplication *)

(** The loop of [operator*=(uint32_t b32)]. *)
Fixpoint mul32_loop (carry b32 : Z) (a : base_uint) : base_uint :=
  match a with
  | [] => []
  | x :: a' =>
      let n := u64 (carry + u64 (b32 * x)) in
      Z.land n 0xffffffff :: mul32_loop (Z.shiftr n 32) b32 a'
  end.

Definition mul32 (a : base_uint) (b32 : Z) : base_uint := mul32_loop 0 b32 a.

(** The inner loop of [operator*=]: [a] is the accumulator from limb [j]
    on, so that the loop ends with [i + j = WIDTH]. *)
Fixpoint mul_row (carry pj : Z) (a b : base_uint) : base_uint :=
  match a, b with
  | x :: a', y :: b' =>
      let n := u64 (carry + x + u64 (pj * y)) in
      Z.land n 0xffffffff :: mul_row (Z.shiftr n 32) pj a' b'
  | a, [] => a
  | [], _ => []
  end.

(** The outer loop: row [j] is the last one that changes limb [j]. *)
Fixpoint mul_loop (pn a b : base_uint) : base_uint :=
  match pn with
  | [] => a
  | pj :: pn' =>
      match mul_row 0 pj a b with
      | [] => []
      | x :: a' => x :: mul_loop pn' a' b
      end
  end.

Definition mul (pn b : base_uint) : base_uint := mul_loop pn zero b.

(** ** Shifts *)

(** [pn[j] |= x] *)
Definition or_at (pn : base_uint) (j : nat) (x : Z) : base_uint :=
  upd pn j (Z.lor (nth j pn 0) x).

Definition shl_step (a : base_uint) (k shift : Z) (i : nat) (pn : base_uint) : base_uint :=
  let i' := Z.of_nat i in
  let pn :=
    if (i' + k + 1 <? Z.of_nat WIDTH) && negb (shift =? 0) then
      or_at pn (Z.to_nat (i' + k + 1)) (Z.shiftr (nth i a 0) (32 - shift))
    else pn in
  if i' + k <? Z.of_nat WIDTH then
    or_at pn (Z.to_nat (i' + k)) (u32 (Z.shiftl (nth i a 0) shift))
  else pn.

(** [operator<<=(unsigned int shift)] *)
Definition shl (a : base_uint) (shift : Z) : base_uint :=
  for_range 0 WIDTH (shl_step a (shift / 32) (shift mod 32)) zero.

Definition shr_step (a : base_uint) (k shift : Z) (i : nat) (pn : base_uint) : base_uint :=
  let i' := Z.of_nat i in
  let pn :=
    if (0 <=? i' - k - 1) && negb (shift =? 0) then
      or_at pn (Z.to_nat (i' - k - 1)) (u32 (Z.shiftl (nth i a 0) (32 - shift)))
    else pn in
  if 0 <=? i' - k then
    or_at pn (Z.to_nat (i' - k)) (Z.shiftr (nth i a 0) shift)
  else pn.

(** [operator>>=(unsigned int shift)] *)
Definition shr (a : base_uint) (shift : Z) : base_uint :=
  for_range 0 WIDTH (shr_step a (shift / 32) (shift mod 32)) zero.

(** ** Comparisons *)

(** The loop of [CompareTo], from limb [n - 1] down to limb 0. *)
Fixpoint CompareTo_loop (n : nat) (a b : base_uint) : Z :=
  match n with
  | O => 0
  | S i =>
      if nth i a 0 <? nth i b 0 then -1
      else if nth i b 0 <? nth i a 0 then 1
      else CompareTo_loop i a b
  end.

Definition CompareTo (a b : base_uint) : Z := CompareTo_loop WIDTH a b.

(** [operator==] compares the arrays byte by byte ([memcmp]). *)
Fixpoint eqb (a b : base_uint) : bool :=
  match a, b with
  | [], [] => true
  | x :: a', y :: b' => (x =? y) && eqb a' b'
  | _, _ => false
  end.

Definition gtb (a b : base_uint) : bool := 0 <? CompareTo a b.

Definition ltb (a b : base_uint) : bool := CompareTo a b <? 0.

Definition geb (a b : base_uint) : bool := 0 <=? CompareTo a b.

Definition leb (a b : base_uint) : bool := CompareTo a b <=? 0.

(** [EqualTo(uint64_t b)] *)
Definition EqualTo (a : base_uint) (b : Z) : bool :=
  if existsb (fun x => negb (x =? 0)) (skipn 2 a) then false
  else if negb (nth 1 a 0 =? Z.shiftr b 32) then false
  else if negb (nth 0 a 0 =? Z.land b 0xffffffff) then false
  else true.

(** ** Bit length *)

(** [for (nbits = 31; nbits > 0; nbits--)] of [bits()]. *)
Fixpoint bits_limb (x : Z) (pos : Z) (nbits : nat) : Z :=
  match nbits with
  | O => 32 * pos + 1
  | S n =>
      if negb (Z.land x (Z.shiftl 1 (Z.of_nat nbits)) =? 0)
      then 32 * pos + Z.of_nat nbits + 1
      else bits_limb x pos n
  end.

Fixpoint bits_loop (n : nat) (a : base_uint) : Z :=
  match n with
  | O => 0
  | S pos =>
      if negb (nth pos a 0 =? 0) then bits_limb (nth pos a 0) (Z.of_nat pos) 31
      else bits_loop pos a
  end.

Definition bits (a : base_uint) : Z := bits_loop WIDTH a.

Definition GetLow64 (a : base_uint) : Z :=
  Z.lor (nth 0 a 0) (u64 (Z.shiftl (nth 1 a 0) 32)).

(** ** Division *)

(** The restoring loop of [operator/=]: [n] is [shift + 1]. *)
Fixpoint div_loop (n : nat) (quo num div : base_uint) : base_uint * base_uint :=
  match n with
  | O => (quo, num)
  | S shift =>
      let sh := Z.of_nat shift in
      let '(quo, num) :=
        if geb num div then
          (or_at quo (Z.to_nat (sh / 32)) (u32 (Z.shiftl 1 (Z.land sh 31))), sub num div)
        else (quo, num) in
      div_loop shift quo num (shr div 1)
  end.

(** [operator/=]; [None] is the exception [uint_error("Division by zero")]. *)
Definition div (a b : base_uint) : option base_uint :=
  let num_bits := bits a in
  let div_bits := bits b in
  if div_bits =? 0 then None
  else if num_bits <? div_bits then Some (of_uint64 0)
  else
    let shift := num_bits - div_bits in
    Some (fst (div_loop (Z.to_nat (shift + 1)) (of_uint64 0) a (shl b shift))).

(** ** The compact encoding of targets *)

(** [SetCompact]: the value, [*pfNegative] and [*pfOverflow]. *)
Definition SetCompact (nCompact : Z) : base_uint * bool * bool :=
  let nSize := Z.shiftr nCompact 24 in
  let nWord := Z.land nCompact 0x007fffff in
  let '(v, nWord) :=
    if nSize <=? 3 then
      let nWord := Z.shiftr nWord (8 * (3 - nSize)) in (of_uint64 nWord, nWord)
    else (shl (of_uint64 nWord) (8 * (nSize - 3)), nWord) in
  let fNegative := negb (nWord =? 0) && negb (Z.land nCompact 0x00800000 =? 0) in
  let fOverflow :=
    negb (nWord =? 0) &&
    ((34 <? nSize) || ((0xff <? nWord) && (33 <? nSize)) || ((0xffff <? nWord) && (32 <? nSize))) in
  (v, fNegative, fOverflow).

(** [GetCompact]; [None] is a failed [assert]. *)
Definition GetCompact (a : base_uint) (fNegative : bool) : option Z :=
  let nSize := (bits a + 7) / 8 in
  let nCompact :=
    if nSize <=? 3 then u32 (u64 (Z.shiftl (GetLow64 a) (8 * (3 - nSize))))
    else u32 (GetLow64 (shr a (8 * (nSize - 3)))) in
  let '(nCompact, nSize) :=
    if negb (Z.land nCompact 0x00800000 =? 0)
    then (Z.shiftr nCompact 8, nSize + 1) else (nCompact, nSize) in
  if negb (Z.land nCompact (u32 (Z.lnot 0x007fffff)) =? 0) then None
  else if negb (nSize <? 256) then None
  else
    let nCompact := Z.lor nCompact (u32 (Z.shiftl nSize 24)) in
    Some (Z.lor nCompact
            (if fNegative && negb (Z.land nCompact 0x007fffff =? 0) then 0x00800000 else 0)).

(** ** Conversion to and from the opaque 32-byte blob [uint256] *)

Definition WriteLE32 (x : Z) : list Z :=
  [u8 x; u8 (Z.shiftr x 8); u8 (Z.shiftr x 16); u8 (Z.shiftr x 24)].

Definition ReadLE32 (p : list Z) : Z :=
  Z.lor (Z.lor (Z.lor (nth 0 p 0) (Z.shiftl (nth 1 p 0) 8)) (Z.shiftl (nth 2 p 0) 16))
        (Z.shiftl (nth 3 p 0) 24).

Definition ArithToUint256 (a : base_uint) : list Z := flat_map WriteLE32 a.

Fixpoint read_limbs (n : nat) (p : list Z) : base_uint :=
  match n with
  | O => []
  | S n' => ReadLE32 p :: read_limbs n' (skipn 4 p)
  end.

Definition UintToArith256 (p : list Z) : base_uint := read_limbs WIDTH p.

(** ** The value of an array *)

Lemma val_range a :
  Forall (in_u 32) a -> 0 <= val a < 2 ^ (32 * Z.of_nat (length a)).
Proof.
  induction 1 as [|x l Hx Hl IH]; [simpl; lia|].
  cbn [val length]. rewrite Nat2Z.inj_succ.
  replace (32 * Z.succ (Z.of_nat (length l))) with (32 + 32 * Z.of_nat (length l)) by lia.
  rewrite Z.pow_add_r by lia. unfold in_u in Hx.
  set (M := 2 ^ (32 * Z.of_nat (length l))) in *. lia.
Qed.

Lemma val_wf a : wf a -> 0 <= val a < 2 ^ 256.
Proof. intros [Hl Ha]. pose proof (val_range a Ha) as H. rewrite Hl in H. exact H. Qed.

Lemma val_repeat0 n : val (repeat 0 n) = 0.
Proof. induction n; cbn [repeat val]; lia. Qed.

Lemma val_app a b : val (a ++ b) = val a + 2 ^ (32 * Z.of_nat (length a)) * val b.
Proof.
  induction a as [|x a IH].
  - change (val ([] ++ b)) with (val b). cbn [val length]. lia.
  - cbn [app val length]. rewrite IH, Nat2Z.inj_succ.
    replace (32 * Z.succ (Z.of_nat (length a))) with (32 + 32 * Z.of_nat (length a)) by lia.
    rewrite Z.pow_add_r by lia. ring.
Qed.

Lemma repeat0_limbs n : Forall (in_u 32) (repeat 0 n).
Proof. induction n; simpl; constructor; auto. unfold in_u; lia. Qed.

Lemma zero_wf : wf zero.
Proof. split; [reflexivity|apply repeat0_limbs]. Qed.

Lemma zero_val : val zero = 0.
Proof. reflexivity. Qed.

Lemma of_uint64_wf b : wf (of_uint64 b).
Proof.
  split; [reflexivity|].
  repeat constructor; try (apply (wrap_range 32); lia); unfold in_u; lia.
Qed.

Lemma of_uint64_val b : in_u 64 b -> val (of_uint64 b) = b.
Proof.
  intros Hb. unfold of_uint64. cbn [val]. rewrite val_repeat0.
  rewrite Z.shiftr_div_pow2 by lia. unfold wrap.
  rewrite (Z.mod_small (b / 2 ^ 32)) by (unfold in_u in Hb; zdiv_lia).
  unfold in_u in Hb; zdiv_lia.
Qed.

(** ** Carry chains *)

Local Ltac carry_shape :=
  rewrite land_mask32, Z.shiftr_div_pow2 by lia.

Lemma len_pow_succ (l : base_uint) :
  2 ^ (32 * Z.of_nat (S (length l))) = 2 ^ 32 * 2 ^ (32 * Z.of_nat (length l)).
Proof. rewrite <- Z.pow_add_r by lia. f_equal; lia. Qed.

Lemma add_loop_spec c a b :
  Forall (in_u 32) a -> Forall (in_u 32) b -> length a = length b -> 0 <= c <= 1 ->
  length (add_loop c a b) = length a /\ Forall (in_u 32) (add_loop c a b) /\
  val (add_loop c a b) = (c + val a + val b) mod 2 ^ (32 * Z.of_nat (length a)).
Proof.
  intros Ha; revert c b; induction Ha as [|x a Hx Ha IH]; intros c b Hb Hl Hc.
  - destruct b; [|discriminate]. cbn. rewrite ?Z.mod_1_r. repeat split; auto.
  - destruct b as [|y b]; [discriminate|]. inverts Hb. injection Hl as Hl.
    unfold in_u in *. cbn [add_loop]. rewrite (wrap_small 64) by (unfold in_u; lia).
    carry_shape.
    destruct (IH ((c + x + y) / 2 ^ 32) b) as (L & F & V); auto; [zdiv_lia|].
    cbn [length val]. rewrite L, V. split; [reflexivity|]. split.
    + constructor; auto. apply (wrap_range 32); lia.
    + unfold wrap. rewrite len_pow_succ, digit_step2 by (try apply Zpow2_pos; lia). f_equal; ring.
Qed.

Lemma mul32_loop_spec c b32 a :
  Forall (in_u 32) a -> in_u 32 b32 -> in_u 32 c ->
  length (mul32_loop c b32 a) = length a /\ Forall (in_u 32) (mul32_loop c b32 a) /\
  val (mul32_loop c b32 a) = (c + b32 * val a) mod 2 ^ (32 * Z.of_nat (length a)).
Proof.
  intros Ha Hb; revert c; induction Ha as [|x a Hx Ha IH]; intros c Hc.
  - cbn. rewrite ?Z.mod_1_r. repeat split; auto.
  - unfold in_u in *. cbn [mul32_loop].
    rewrite (wrap_small 64 (b32 * x)) by (unfold in_u; nia).
    rewrite (wrap_small 64) by (unfold in_u; nia). carry_shape.
    destruct (IH ((c + b32 * x) / 2 ^ 32)) as (L & F & V).
    { split; [apply Z.div_pos; nia|apply Z.div_lt_upper_bound; nia]. }
    cbn [length val]. rewrite L, V. split; [reflexivity|]. split.
    + constructor; auto. apply (wrap_range 32); lia.
    + unfold wrap. rewrite len_pow_succ, digit_step by (try apply Zpow2_pos; lia). f_equal; ring.
Qed.

Lemma mul_row_spec c pj a b :
  Forall (in_u 32) a -> Forall (in_u 32) b -> in_u 32 pj -> in_u 32 c ->
  (length a <= length b)%nat ->
  length (mul_row c pj a b) = length a /\ Forall (in_u 32) (mul_row c pj a b) /\
  val (mul_row c pj a b) = (c + val a + pj * val b) mod 2 ^ (32 * Z.of_nat (length a)).
Proof.
  intros Ha; revert c b; induction Ha as [|x a Hx Ha IH]; intros c b Hb Hp Hc Hl.
  - destruct b; cbn; rewrite ?Z.mod_1_r; repeat split; auto.
  - destruct b as [|y b]; [simpl in Hl; lia|]. inverts Hb. simpl in Hl.
    unfold in_u in *. cbn [mul_row].
    rewrite (wrap_small 64 (pj * y)) by (unfold in_u; nia).
    rewrite (wrap_small 64) by (unfold in_u; nia). carry_shape.
    destruct (IH ((c + x + pj * y) / 2 ^ 32) b) as (L & F & V); auto; [|lia|].
    { split; [apply Z.div_pos; nia|apply Z.div_lt_upper_bound; nia]. }
    cbn [length val]. rewrite L, V. split; [reflexivity|]. split.
    + constructor; auto. apply (wrap_range 32); lia.
    + unfold wrap. rewrite len_pow_succ, digit_step2 by (try apply Zpow2_pos; lia). f_equal; ring.
Qed.

Lemma mul_loop_spec pn a b :
  Forall (in_u 32) pn -> Forall (in_u 32) a -> Forall (in_u 32) b ->
  length pn = length a -> (length a <= length b)%nat ->
  length (mul_loop pn a b) = length a /\ Forall (in_u 32) (mul_loop pn a b) /\
  val (mul_loop pn a b) = (val a + val pn * val b) mod 2 ^ (32 * Z.of_nat (length a)).
Proof.
  intros Hp; revert a; induction Hp as [|p pn Hp1 Hp IH]; intros a Ha Hb Hl Hlb.
  - destruct a; [|discriminate]. cbn. rewrite ?Z.mod_1_r. repeat split; auto.
  - destruct a as [|a0 a]; [discriminate|].
    destruct (mul_row_spec 0 p (a0 :: a) b) as (L & F & V); auto; [unfold in_u; lia|].
    cbn [mul_loop]. destruct (mul_row 0 p (a0 :: a) b) as [|x r] eqn:E; [discriminate|].
    inverts F. simpl in L. injection L as L. simpl in Hl, Hlb. injection Hl as Hl.
    destruct (IH r) as (L' & F' & V'); auto; [lia|lia|].
    cbn [length val] in *. rewrite L', V', L in *. split; [reflexivity|]. split; [auto|].
    rewrite len_pow_succ in *.
    set (M := 2 ^ (32 * Z.of_nat (length a))) in *.
    assert (HM : 0 < M) by (apply Zpow2_pos; lia).
    replace x with ((x + 2 ^ 32 * val r) mod 2 ^ 32) at 1.
    2:{ rewrite Z.mul_comm, Z_mod_plus_full. apply Z.mod_small. assumption. }
    replace (val r) with ((x + 2 ^ 32 * val r) / 2 ^ 32) at 2.
    2:{ rewrite Z.mul_comm, Z.div_add by lia. rewrite Z.div_small by assumption. lia. }
    rewrite digit_step by lia. rewrite V.
    rewrite Zplus_mod_idemp_l. f_equal. ring.
Qed.

Lemma inc_spec a :
  Forall (in_u 32) a ->
  length (inc a) = length a /\ Forall (in_u 32) (inc a) /\
  val (inc a) = (val a + 1) mod 2 ^ (32 * Z.of_nat (length a)).
Proof.
  induction 1 as [|x a Hx Ha IH].
  - cbn. rewrite ?Z.mod_1_r. auto.
  - pose proof (val_range a Ha) as Hr. destruct IH as (L & F & V).
    unfold in_u in Hx. cbn [inc].
    assert (HM : 0 < 2 ^ (32 * Z.of_nat (length a))) by (apply Zpow2_pos; lia).
    destruct (Z.eq_dec x (2 ^ 32 - 1)) as [->|Hne].
    + change (u32 (2 ^ 32 - 1 + 1)) with 0. cbn [Z.eqb length val].
      rewrite L, V. split; [reflexivity|]. split; [constructor; auto; unfold in_u; lia|].
      rewrite len_pow_succ.
      replace (2 ^ 32 - 1 + 2 ^ 32 * val a + 1) with (2 ^ 32 * (val a + 1)) by lia.
      rewrite Z.mul_mod_distr_l by lia. lia.
    + rewrite (wrap_small 32) by (unfold in_u; lia).
      destruct (Z.eqb_spec (x + 1) 0); [lia|]. cbn [length val].
      split; [reflexivity|]. split; [constructor; auto; unfold in_u; lia|].
      rewrite len_pow_succ, Z.mod_small; [lia|]. nia.
Qed.

Lemma dec_spec a :
  Forall (in_u 32) a ->
  length (dec a) = length a /\ Forall (in_u 32) (dec a) /\
  val (dec a) = (val a - 1) mod 2 ^ (32 * Z.of_nat (length a)).
Proof.
  induction 1 as [|x a Hx Ha IH].
  - cbn. rewrite ?Z.mod_1_r. auto.
  - pose proof (val_range a Ha) as Hr. destruct IH as (L & F & V).
    unfold in_u in Hx. cbn [dec].
    assert (HM : 0 < 2 ^ (32 * Z.of_nat (length a))) by (apply Zpow2_pos; lia).
    destruct (Z.eq_dec x 0) as [->|Hne].
    + change (u32 (0 - 1)) with (2 ^ 32 - 1). change (2 ^ 32 - 1 =? 0xffffffff) with true.
      cbn [length val]. rewrite L, V.
      split; [reflexivity|]. split; [constructor; auto; unfold in_u; lia|].
      rewrite len_pow_succ.
      replace (0 + 2 ^ 32 * val a - 1) with ((2 ^ 32 - 1) + 2 ^ 32 * (val a - 1)) by lia.
      rewrite <- digit_step by lia.
      rewrite (Z.mod_small (2 ^ 32 - 1)), (Z.div_small (2 ^ 32 - 1)) by lia.
      rewrite Z.add_0_l. reflexivity.
    + rewrite (wrap_small 32) by (unfold in_u; lia).
      destruct (Z.eqb_spec (x - 1) 0xffffffff); [lia|]. cbn [length val].
      split; [reflexivity|]. split; [constructor; auto; unfold in_u; lia|].
      rewrite len_pow_succ, Z.mod_small; [lia|]. nia.
Qed.

Lemma bnot_spec a :
  Forall (in_u 32) a ->
  length (bnot a) = length a /\ Forall (in_u 32) (bnot a) /\
  val (bnot a) = 2 ^ (32 * Z.of_nat (length a)) - 1 - val a.
Proof.
  induction 1 as [|x a Hx Ha IH]; [cbn; auto|].
  destruct IH as (L & F & V). unfold bnot in *. cbn [map length val].
  rewrite L, V, lnot_u32 by assumption. split; [reflexivity|].
  split; [constructor; auto; unfold in_u in *; lia|].
  rewrite len_pow_succ. lia.
Qed.

Lemma neg_spec a :
  Forall (in_u 32) a ->
  length (neg a) = length a /\ Forall (in_u 32) (neg a) /\
  val (neg a) = (- val a) mod 2 ^ (32 * Z.of_nat (length a)).
Proof.
  intros Ha. unfold neg. fold (bnot a).
  destruct (bnot_spec a Ha) as (L & F & V), (inc_spec (bnot a) F) as (L' & F' & V').
  rewrite L', V', L, V. repeat split; auto.
  replace (2 ^ _ - 1 - val a + 1) with (- val a + 1 * 2 ^ (32 * Z.of_nat (length a))) by lia.
  apply Z_mod_plus_full.
Qed.

(** ** Bits of the value *)

Lemma val_testbit a n :
  Forall (in_u 32) a -> 0 <= n ->
  Z.testbit (val a) n = Z.testbit (nth (Z.to_nat (n / 32)) a 0) (n mod 32).
Proof.
  intros Ha; revert n; induction Ha as [|x l Hx Hl IH]; intros n Hn.
  - cbn [val]. rewrite Z.testbit_0_l. destruct (Z.to_nat (n / 32)); cbn [nth];
      rewrite Z.testbit_0_l; reflexivity.
  - cbn [val]. pose proof (val_range l Hl) as Hr.
    rewrite (Z.mul_comm (2 ^ 32)), <- lor_shiftl_add by (auto; lia).
    rewrite Z.lor_spec, Z.shiftl_spec by lia.
    destruct (Z.lt_ge_cases n 32) as [Hlt|Hge].
    + rewrite (Z.testbit_neg_r _ (n - 32)) by lia.
      rewrite Z.div_small, Z.mod_small by lia. cbn. apply orb_false_r.
    + rewrite (in_u_testbit 32 x) by (auto; lia). rewrite IH by lia.
      replace (n mod 32) with ((n - 32) mod 32) by (zdiv_lia).
      replace (Z.to_nat (n / 32)) with (S (Z.to_nat ((n - 32) / 32))) by (zdiv_lia).
      reflexivity.
Qed.

Lemma limb_nth a i : Forall (in_u 32) a -> in_u 32 (nth i a 0).
Proof. intros; apply Forall_nth_default; [assumption|unfold in_u; lia]. Qed.

#[local] Hint Resolve limb_nth : width.

(** ** Shifts

    The loops or one limb's two halves at a time into the result, so the
    value after [i] rounds is the shifted value of the first [i] limbs. *)

Lemma length_or_at pn j x : length (or_at pn j x) = length pn.
Proof. apply length_upd. Qed.

Lemma or_at_limbs pn j x :
  Forall (in_u 32) pn -> in_u 32 x -> Forall (in_u 32) (or_at pn j x).
Proof.
  intros Hp Hx. apply Forall_upd; [assumption|].
  apply lor_in_u; auto with width. lia.
Qed.

Lemma or_at_val pn j x :
  Forall (in_u 32) pn -> in_u 32 x -> (j < length pn)%nat ->
  val (or_at pn j x) = Z.lor (val pn) (Z.shiftl x (32 * Z.of_nat j)).
Proof.
  intros Hp Hx Hj. apply Z.bits_inj'; intros n Hn.
  rewrite Z.lor_spec, Z.shiftl_spec by assumption.
  rewrite !val_testbit by auto using or_at_limbs. unfold or_at.
  destruct (Nat.eq_dec (Z.to_nat (n / 32)) j) as [E|E].
  - rewrite E, nth_upd_eq, Z.lor_spec by assumption. do 2 f_equal. zdiv_lia.
  - rewrite nth_upd_ne by auto.
    destruct (Z.lt_ge_cases n (32 * Z.of_nat j)).
    + rewrite (Z.testbit_neg_r x) by lia. symmetry; apply orb_false_r.
    + rewrite (in_u_testbit 32 x) by (auto; zdiv_lia). symmetry; apply orb_false_r.
Qed.

Lemma val_firstn_succ a i :
  Forall (in_u 32) a -> (i < length a)%nat ->
  val (firstn (S i) a) = Z.lor (val (firstn i a)) (Z.shiftl (nth i a 0) (32 * Z.of_nat i)).
Proof.
  intros Ha Hi.
  assert (Hf : Forall (in_u 32) (firstn i a)) by (apply Forall_firstn; assumption).
  replace (firstn (S i) a) with (firstn i a ++ [nth i a 0]).
  - rewrite val_app, length_firstn, Nat.min_l by lia. cbn [val].
    pose proof (val_range _ Hf) as Hr. rewrite length_firstn, Nat.min_l in Hr by lia.
    rewrite lor_shiftl_add; [lia|lia|exact Hr|apply limb_nth; assumption].
  - revert Hi; clear; revert i; induction a as [|x a IH]; intros [|i] Hi; simpl in *;
      try lia; auto. f_equal. apply IH; lia.
Qed.

(** The bits a limb contributes to a shifted value. *)
Lemma limb_shiftl_split x j sh n :
  in_u 32 x -> 0 <= j -> 0 <= sh < 32 -> 0 <= n ->
  Z.testbit (Z.shiftl x (32 * j + sh)) n =
  ((negb (sh =? 0) && Z.testbit (Z.shiftl (Z.shiftr x (32 - sh)) (32 * (j + 1))) n)
   || Z.testbit (Z.shiftl (u32 (Z.shiftl x sh)) (32 * j)) n)%bool.
Proof.
  intros Hx Hj Hsh Hn. unfold wrap. rewrite !Z.shiftl_spec by assumption.
  destruct (Z.lt_ge_cases n (32 * j)).
  { rewrite !Z.testbit_neg_r by lia. rewrite andb_false_r. reflexivity. }
  destruct (Z.lt_ge_cases n (32 * (j + 1))).
  { rewrite (Z.testbit_neg_r _ (n - 32 * (j + 1))), andb_false_r by lia. cbn [orb].
    rewrite Z.mod_pow2_bits_low, Z.shiftl_spec by lia. f_equal; lia. }
  rewrite Z.mod_pow2_bits_high, orb_false_r by lia. rewrite Z.shiftr_spec by lia.
  destruct (Z.eqb_spec sh 0); cbn [negb andb].
  - apply (in_u_testbit 32); [lia|assumption|lia].
  - f_equal; lia.
Qed.

Lemma shl_step_spec a k sh i pn :
  0 <= k -> 0 <= sh < 32 -> Forall (in_u 32) a -> wf pn ->
  wf (shl_step a k sh i pn) /\
  val (shl_step a k sh i pn) =
    Z.lor (val pn) ((Z.shiftl (nth i a 0) (32 * (Z.of_nat i + k) + sh)) mod 2 ^ 256).
Proof.
  intros Hk Hsh Ha [L F]. pose proof (limb_nth a i Ha) as Hai.
  assert (Hhi : in_u 32 (Z.shiftr (nth i a 0) (32 - sh))) by (apply shiftr_in_u; [lia|auto]).
  assert (Hlo : in_u 32 (u32 (Z.shiftl (nth i a 0) sh))) by (apply (wrap_range 32); lia).
  unfold shl_step, wf, WIDTH in *; cbv zeta. change (Z.of_nat 8) with 8.
  set (j := Z.of_nat i + k) in *.
  assert (Hbits : forall n, 0 <= n ->
    Z.testbit ((Z.shiftl (nth i a 0) (32 * j + sh)) mod 2 ^ 256) n =
    ((n <? 256) && Z.testbit (Z.shiftl (nth i a 0) (32 * j + sh)) n)%bool).
  { intros n Hn. destruct (Z.ltb_spec n 256).
    - apply Z.mod_pow2_bits_low; lia.
    - apply Z.mod_pow2_bits_high; lia. }
  split.
  { split_ifs; rewrite ?length_or_at; auto using or_at_limbs. }
  apply Z.bits_inj'; intros n Hn.
  rewrite Z.lor_spec, Hbits, limb_shiftl_split by (auto; lia).
  destruct (Z.ltb_spec (j + 1) 8), (Z.ltb_spec j 8); try lia; cbn [andb];
    destruct (Z.eqb_spec sh 0); cbn [negb andb];
    rewrite ?or_at_val by (rewrite ?length_or_at; auto using or_at_limbs; lia);
    rewrite ?Z.lor_spec, ?Z2Nat.id by lia;
    destruct (Z.ltb_spec n 256);
    try (rewrite (field_bit_out 32 _ (32 * (j + 1)) n) by (auto; lia));
    try (rewrite (field_bit_out 32 _ (32 * j) n) by (auto; lia)); btauto.
Qed.

Lemma shl_spec a s :
  wf a -> 0 <= s -> wf (shl a s) /\ val (shl a s) = (val a * 2 ^ s) mod 2 ^ 256.
Proof.
  intros [L F] Hs. unfold shl.
  set (k := s / 32). set (sh := s mod 32).
  assert (Hk : 0 <= k) by (apply Z.div_pos; lia).
  assert (Hsh : 0 <= sh < 32) by (apply Z.mod_pos_bound; lia).
  assert (Hs' : s = 32 * k + sh) by (apply Z.div_mod; lia).
  pose proof (for_range_inv
    (fun i pn => wf pn /\ val pn = (Z.shiftl (val (firstn i a)) s) mod 2 ^ 256)
    0 WIDTH (shl_step a k sh) zero) as H.
  cbv beta in H. rewrite (firstn_all2 (n := WIDTH) a) in H by (rewrite L; lia).
  rewrite <- Z.shiftl_mul_pow2 by assumption. apply H; clear H.
  - split; [apply zero_wf|]. cbn [firstn val]. rewrite Z.shiftl_0_l. reflexivity.
  - intros i pn Hi [Hw Hv]. cbn [Nat.add].
    destruct (shl_step_spec a k sh i pn) as [Hw' Hv']; auto.
    split; [assumption|]. rewrite Hv', Hv, val_firstn_succ by (auto; lia).
    apply Z.bits_inj'; intros n Hn. rewrite Z.lor_spec.
    destruct (Z.lt_ge_cases n 256).
    + rewrite !Z.mod_pow2_bits_low, Z.shiftl_lor, Z.lor_spec, Z.shiftl_shiftl by lia.
      do 3 f_equal. lia.
    + rewrite !Z.mod_pow2_bits_high by lia. reflexivity.
Qed.

Lemma limb_shiftr_split x j sh n :
  in_u 32 x -> 0 <= sh < 32 -> 0 <= n ->
  Z.testbit x (n + sh - 32 * j) =
  ((negb (sh =? 0) && (0 <=? j - 1) &&
      Z.testbit (Z.shiftl (u32 (Z.shiftl x (32 - sh))) (32 * (j - 1))) n)
   || ((0 <=? j) && Z.testbit (Z.shiftl (Z.shiftr x sh) (32 * j)) n))%bool.
Proof.
  intros Hx Hsh Hn. unfold wrap. rewrite !Z.shiftl_spec by assumption.
  destruct (Z.lt_ge_cases n (32 * j)).
  - rewrite (Z.testbit_neg_r (Z.shiftr _ _)), andb_false_r, orb_false_r by lia.
    destruct (Z.lt_ge_cases n (32 * (j - 1))).
    { rewrite !Z.testbit_neg_r, andb_false_r by lia. reflexivity. }
    rewrite Z.mod_pow2_bits_low, Z.shiftl_spec by lia.
    destruct (Z.eqb_spec sh 0); cbn [negb andb]; [apply Z.testbit_neg_r; lia|].
    destruct (Z.leb_spec 0 (j - 1)); cbn [andb]; [f_equal; lia|].
    apply (in_u_testbit 32); auto; lia.
  - rewrite Z.mod_pow2_bits_high, andb_false_r by lia. cbn [orb].
    rewrite Z.shiftr_spec by lia.
    destruct (Z.leb_spec 0 j); cbn [andb]; [f_equal; lia|].
    apply (in_u_testbit 32); auto; lia.
Qed.

Lemma shr_step_spec a k sh i pn :
  0 <= k -> 0 <= sh < 32 -> Forall (in_u 32) a -> (i < WIDTH)%nat -> wf pn ->
  wf (shr_step a k sh i pn) /\
  val (shr_step a k sh i pn) =
    Z.lor (val pn) (Z.shiftr (Z.shiftl (nth i a 0) (32 * Z.of_nat i)) (32 * k + sh)).
Proof.
  intros Hk Hsh Ha Hi [L F]. pose proof (limb_nth a i Ha) as Hai.
  assert (Hlo : in_u 32 (Z.shiftr (nth i a 0) sh)) by (apply shiftr_in_u; [lia|auto]).
  assert (Hhi : in_u 32 (u32 (Z.shiftl (nth i a 0) (32 - sh)))) by (apply (wrap_range 32); lia).
  unfold shr_step, wf, WIDTH in *; cbv zeta.
  set (j := Z.of_nat i - k) in *.
  split.
  { split_ifs; rewrite ?length_or_at; auto using or_at_limbs. }
  apply Z.bits_inj'; intros n Hn.
  rewrite Z.lor_spec, Z.shiftr_spec, Z.shiftl_spec by lia.
  replace (n + (32 * k + sh) - 32 * Z.of_nat i) with (n + sh - 32 * j) by (unfold j; lia).
  rewrite limb_shiftr_split by (auto; lia).
  destruct (Z.leb_spec 0 (j - 1)), (Z.leb_spec 0 j); try lia; cbn [andb];
    destruct (Z.eqb_spec sh 0); cbn [negb andb];
    rewrite ?or_at_val by (rewrite ?length_or_at; auto using or_at_limbs; lia);
    rewrite ?Z.lor_spec, ?Z2Nat.id by lia; btauto.
Qed.

Lemma shr_spec a s :
  wf a -> 0 <= s -> wf (shr a s) /\ val (shr a s) = val a / 2 ^ s.
Proof.
  intros [L F] Hs. unfold shr.
  set (k := s / 32). set (sh := s mod 32).
  assert (Hk : 0 <= k) by (apply Z.div_pos; lia).
  assert (Hsh : 0 <= sh < 32) by (apply Z.mod_pos_bound; lia).
  assert (Hs' : s = 32 * k + sh) by (apply Z.div_mod; lia).
  pose proof (for_range_inv
    (fun i pn => wf pn /\ val pn = Z.shiftr (val (firstn i a)) s)
    0 WIDTH (shr_step a k sh) zero) as H.
  cbv beta in H. rewrite (firstn_all2 (n := WIDTH) a) in H by (rewrite L; lia).
  rewrite <- Z.shiftr_div_pow2 by assumption. apply H; clear H.
  - split; [apply zero_wf|]. cbn [firstn val]. rewrite Z.shiftr_0_l. reflexivity.
  - intros i pn Hi [Hw Hv]. cbn [Nat.add].
    destruct (shr_step_spec a k sh i pn) as [Hw' Hv']; auto.
    split; [assumption|]. rewrite Hv', Hv, val_firstn_succ by (auto; lia).
    rewrite Z.shiftr_lor, Hs'. reflexivity.
Qed.

(** ** Comparisons *)

Lemma val_firstn_add a i :
  Forall (in_u 32) a -> (i < length a)%nat ->
  val (firstn (S i) a) = val (firstn i a) + 2 ^ (32 * Z.of_nat i) * nth i a 0 /\
  0 <= val (firstn i a) < 2 ^ (32 * Z.of_nat i).
Proof.
  intros Ha Hi.
  assert (Hf : Forall (in_u 32) (firstn i a)) by (apply Forall_firstn; assumption).
  pose proof (val_range _ Hf) as Hr. rewrite length_firstn, Nat.min_l in Hr by lia.
  split; [|assumption].
  rewrite val_firstn_succ, lor_shiftl_add by (auto; try apply limb_nth; auto; lia). lia.
Qed.

Lemma CompareTo_loop_spec n a b :
  Forall (in_u 32) a -> Forall (in_u 32) b -> (n <= length a)%nat -> (n <= length b)%nat ->
  CompareTo_loop n a b = Z.sgn (val (firstn n a) - val (firstn n b)).
Proof.
  intros Ha Hb. induction n as [|i IH]; intros Hna Hnb; [reflexivity|].
  destruct (val_firstn_add a i) as [Ea Ra]; [auto|lia|].
  destruct (val_firstn_add b i) as [Eb Rb]; [auto|lia|].
  cbn [CompareTo_loop]. rewrite IH by lia. rewrite Ea, Eb.
  set (M := 2 ^ (32 * Z.of_nat i)) in *. set (x := nth i a 0). set (y := nth i b 0).
  destruct (Z.ltb_spec x y); [symmetry; apply Z.sgn_neg; nia|].
  destruct (Z.ltb_spec y x); [symmetry; apply Z.sgn_pos; nia|].
  f_equal. nia.
Qed.

Lemma CompareTo_spec a b : wf a -> wf b -> CompareTo a b = Z.sgn (val a - val b).
Proof.
  intros [La Ha] [Lb Hb]. unfold CompareTo. rewrite CompareTo_loop_spec by (auto; lia).
  rewrite !firstn_all2 by lia. reflexivity.
Qed.

Lemma eqb_eq a b : eqb a b = true <-> a = b.
Proof.
  revert b; induction a as [|x a IH]; intros [|y b]; cbn [eqb]; try (split; congruence).
  rewrite andb_true_iff, Z.eqb_eq, IH. split; [intros [-> ->]; reflexivity|].
  intros E; injection E; auto.
Qed.

Lemma val_inj a b :
  Forall (in_u 32) a -> Forall (in_u 32) b -> length a = length b -> val a = val b -> a = b.
Proof.
  intros Ha; revert b; induction Ha as [|x a Hx Ha IH]; intros [|y b] Hb Hl E; try discriminate.
  - reflexivity.
  - inverts Hb. injection Hl as Hl. cbn [val] in E. unfold in_u in *.
    assert (val a = val b) by lia. f_equal; [lia|auto].
Qed.

Section compare_tests.
Context (a b : base_uint) (Ha : wf a) (Hb : wf b).

Lemma gtb_spec : gtb a b = (val b <? val a).
Proof.
  unfold gtb. rewrite CompareTo_spec by assumption.
  destruct (Z.ltb_spec (val b) (val a)); [rewrite Z.sgn_pos by lia; reflexivity|].
  apply Z.ltb_ge. destruct (Z.sgn_spec (val a - val b)) as [|[|]]; lia.
Qed.

Lemma ltb_spec : ltb a b = (val a <? val b).
Proof.
  unfold ltb. rewrite CompareTo_spec by assumption.
  destruct (Z.ltb_spec (val a) (val b)); [rewrite Z.sgn_neg by lia; reflexivity|].
  apply Z.ltb_ge. destruct (Z.sgn_spec (val a - val b)) as [|[|]]; lia.
Qed.

Lemma geb_spec : geb a b = (val b <=? val a).
Proof.
  unfold geb. rewrite CompareTo_spec by assumption.
  destruct (Z.leb_spec (val b) (val a)); [|rewrite Z.sgn_neg by lia; reflexivity].
  apply Z.leb_le. destruct (Z.sgn_spec (val a - val b)) as [|[|]]; lia.
Qed.

Lemma leb_spec : leb a b = (val a <=? val b).
Proof.
  unfold leb. rewrite CompareTo_spec by assumption.
  destruct (Z.leb_spec (val a) (val b)); [|rewrite Z.sgn_pos by lia; reflexivity].
  apply Z.leb_le. destruct (Z.sgn_spec (val a - val b)) as [|[|]]; lia.
Qed.
End compare_tests.

(** ** Bit length *)

Lemma land_shifted_bit x n : 0 <= n -> (Z.land x (Z.shiftl 1 n) =? 0) = negb (Z.testbit x n).
Proof.
  intros Hn. rewrite Z.shiftl_1_l.
  destruct (Z.testbit x n) eqn:E; cbn [negb].
  - apply Z.eqb_neq. intros H. apply (f_equal (fun z => Z.testbit z n)) in H.
    rewrite Z.land_spec, E, Z.pow2_bits_true, Z.testbit_0_l in H by lia. discriminate.
  - apply Z.eqb_eq. apply Z.bits_inj'; intros m Hm.
    rewrite Z.land_spec, Z.testbit_0_l, Z.pow2_bits_eqb by lia.
    destruct (Z.eqb_spec n m) as [->|]; [rewrite E|]; btauto.
Qed.

Lemma log2_unique_bit x n : in_u (n + 1) x -> 0 <= n -> Z.testbit x n = true -> Z.log2 x = n.
Proof.
  intros Hx Hn E. apply Z.log2_unique; [assumption|]. split; [|apply Hx].
  destruct (Z.lt_ge_cases x (2 ^ n)); [|assumption].
  rewrite (in_u_testbit n) in E; [discriminate|lia|split; [apply Hx|assumption]|lia].
Qed.

Lemma in_u_clear x n : 0 <= n -> in_u (n + 1) x -> Z.testbit x n = false -> in_u n x.
Proof.
  intros Hn Hx E. apply testbit_in_u; [assumption|apply Hx|].
  intros m Hm. destruct (Z.eq_dec m n) as [->|]; [assumption|].
  apply (in_u_testbit (n + 1)); auto; lia.
Qed.

Lemma bits_limb_spec x pos n :
  x <> 0 -> in_u (Z.of_nat n + 1) x -> bits_limb x pos n = 32 * pos + Z.log2 x + 1.
Proof.
  intros Hx. induction n as [|n IH]; intros Hr; cbn [bits_limb].
  - cbn in Hr. unfold in_u in Hr. replace x with 1 by lia. cbn. lia.
  - rewrite land_shifted_bit, negb_involutive by lia.
    destruct (Z.testbit x (Z.of_nat (S n))) eqn:E.
    + rewrite (log2_unique_bit x (Z.of_nat (S n))) by (auto; lia). reflexivity.
    + apply IH. replace (Z.of_nat n + 1) with (Z.of_nat (S n)) by lia.
      apply in_u_clear; auto; lia.
Qed.

Lemma log2_high_digit v x m : 0 <= m -> 0 <= v < 2 ^ m -> 0 < x -> Z.log2 (v + 2 ^ m * x) = m + Z.log2 x.
Proof.
  intros Hm Hv Hx. destruct (Z.log2_spec x Hx) as [Hl Hh].
  pose proof (Z.log2_nonneg x).
  apply Z.log2_unique; [lia|]. rewrite Z.pow_succ_r in Hh by lia.
  rewrite <- Z.add_succ_r, !Z.pow_add_r, Z.pow_succ_r by lia. nia.
Qed.

(** [bits()]: zero, or the position of the highest bit plus one. *)
Definition bit_length (z : Z) : Z := if z =? 0 then 0 else Z.log2 z + 1.

Lemma bits_loop_spec n a :
  Forall (in_u 32) a -> (n <= length a)%nat -> bits_loop n a = bit_length (val (firstn n a)).
Proof.
  intros Ha. induction n as [|i IH]; intros Hn; [reflexivity|].
  destruct (val_firstn_add a i) as [E R]; [auto|lia|].
  cbn [bits_loop]. rewrite IH by lia. rewrite E. unfold bit_length.
  pose proof (limb_nth a i Ha) as Hx. set (x := nth i a 0) in *.
  destruct (Z.eqb_spec x 0) as [->|Hx0]; cbn [negb].
  - rewrite Z.mul_0_r, Z.add_0_r. reflexivity.
  - unfold in_u in Hx. rewrite bits_limb_spec by (auto; unfold in_u; lia).
    rewrite log2_high_digit by lia.
    destruct (Z.eqb_spec (val (firstn i a) + 2 ^ (32 * Z.of_nat i) * x) 0); [nia|]. lia.
Qed.

Lemma bits_spec a : wf a -> bits a = bit_length (val a).
Proof.
  intros [L F]. unfold bits. rewrite bits_loop_spec by (auto; lia).
  rewrite firstn_all2 by lia. reflexivity.
Qed.

Lemma bit_length_bounds z : 0 <= z -> z < 2 ^ bit_length z /\ (0 < z -> 2 ^ (bit_length z - 1) <= z).
Proof.
  intros Hz. unfold bit_length. destruct (Z.eqb_spec z 0) as [->|]; [lia|].
  destruct (Z.log2_spec z) as [H1 H2]; [lia|].
  replace (Z.log2 z + 1 - 1) with (Z.log2 z) by lia. auto.
Qed.

Lemma bit_length_nonneg z : 0 <= bit_length z.
Proof. unfold bit_length. pose proof (Z.log2_nonneg z). destruct (z =? 0); lia. Qed.

Lemma bit_length_le z m : 0 <= m -> 0 <= z < 2 ^ m -> bit_length z <= m.
Proof.
  intros Hm Hz. unfold bit_length. destruct (Z.eqb_spec z 0); [lia|].
  assert (Z.log2 z < m) by (apply Z.log2_lt_pow2; lia). lia.
Qed.

(** ** The operators as operations modulo 2^256 *)

Lemma add_spec a b : wf a -> wf b -> wf (add a b) /\ val (add a b) = (val a + val b) mod 2 ^ 256.
Proof.
  intros [La Ha] [Lb Hb]. destruct (add_loop_spec 0 a b) as (L & F & V); auto; [congruence|lia|].
  unfold add, wf. rewrite L, V, La. auto.
Qed.

Lemma neg_wf_spec a : wf a -> wf (neg a) /\ val (neg a) = (- val a) mod 2 ^ 256.
Proof.
  intros [La Ha]. destruct (neg_spec a Ha) as (L & F & V).
  unfold wf. rewrite L, V, La. auto.
Qed.

Lemma sub_spec a b : wf a -> wf b -> wf (sub a b) /\ val (sub a b) = (val a - val b) mod 2 ^ 256.
Proof.
  intros Ha Hb. destruct (neg_wf_spec b Hb) as [Hn Vn], (add_spec a (neg b) Ha Hn) as [Hs Vs].
  unfold sub. split; [assumption|]. rewrite Vs, Vn, Zplus_mod_idemp_r. f_equal.
Qed.

Lemma mul_spec a b : wf a -> wf b -> wf (mul a b) /\ val (mul a b) = (val a * val b) mod 2 ^ 256.
Proof.
  intros [La Ha] [Lb Hb]. unfold mul.
  destruct (mul_loop_spec a zero b) as (L & F & V); auto.
  - apply repeat0_limbs.
  - rewrite Lb. apply Nat.le_refl.
  - unfold wf. rewrite L, V, zero_val. auto.
Qed.

Lemma mul32_spec a b32 :
  wf a -> in_u 32 b32 -> wf (mul32 a b32) /\ val (mul32 a b32) = (val a * b32) mod 2 ^ 256.
Proof.
  intros [La Ha] Hb. destruct (mul32_loop_spec 0 b32 a) as (L & F & V); auto; [unfold in_u; lia|].
  unfold mul32, wf. rewrite L, V, La. rewrite Z.add_0_l, Z.mul_comm. auto.
Qed.

Lemma inc_wf_spec a : wf a -> wf (inc a) /\ val (inc a) = (val a + 1) mod 2 ^ 256.
Proof.
  intros [La Ha]. destruct (inc_spec a Ha) as (L & F & V). unfold wf. rewrite L, V, La. auto.
Qed.

Lemma dec_wf_spec a : wf a -> wf (dec a) /\ val (dec a) = (val a - 1) mod 2 ^ 256.
Proof.
  intros [La Ha]. destruct (dec_spec a Ha) as (L & F & V). unfold wf. rewrite L, V, La. auto.
Qed.

Lemma bnot_wf_spec a : wf a -> wf (bnot a) /\ val (bnot a) = 2 ^ 256 - 1 - val a.
Proof.
  intros [La Ha]. destruct (bnot_spec a Ha) as (L & F & V). unfold wf. rewrite L, V, La. auto.
Qed.

Lemma existsb_nonzero l :
  Forall (in_u 32) l -> existsb (fun x => negb (x =? 0)) l = negb (val l =? 0).
Proof.
  induction 1 as [|x l Hx Hl IH]; [reflexivity|].
  cbn [existsb val]. rewrite IH. pose proof (val_range l Hl) as Hr. unfold in_u in Hx.
  destruct (Z.eqb_spec x 0), (Z.eqb_spec (val l) 0), (Z.eqb_spec (x + 2 ^ 32 * val l) 0);
    simpl; try reflexivity; lia.
Qed.

Lemma EqualTo_spec a b : wf a -> in_u 64 b -> EqualTo a b = (val a =? b).
Proof.
  intros [La Ha] Hb. unfold EqualTo.
  destruct a as [|a0 [|a1 l]]; try discriminate La. cbn [skipn nth val].
  inverts Ha. inverts H2. rewrite existsb_nonzero, land_mask32, Z.shiftr_div_pow2 by (assumption || lia).
  pose proof (val_range l H4) as Hr. unfold in_u, wrap in *.
  pose proof (Z.div_mod b (2 ^ 32) ltac:(lia)). pose proof (Z.mod_pos_bound b (2 ^ 32) ltac:(lia)).
  destruct (Z.eqb_spec (val l) 0), (Z.eqb_spec a1 (b / 2 ^ 32)), (Z.eqb_spec a0 (b mod 2 ^ 32)),
    (Z.eqb_spec (a0 + 2 ^ 32 * (a1 + 2 ^ 32 * val l)) b); cbn [negb]; try reflexivity; exfalso; nia.
Qed.

Lemma GetLow64_spec a : wf a -> GetLow64 a = val a mod 2 ^ 64.
Proof.
  intros [L F]. unfold GetLow64.
  destruct a as [|x0 [|x1 r]]; [discriminate|discriminate|]. inverts F. inverts H2.
  cbn [nth val]. unfold in_u in *.
  rewrite (wrap_small 64) by (rewrite Z.shiftl_mul_pow2 by lia; unfold in_u; lia).
  rewrite lor_shiftl_add by (unfold in_u; lia).
  replace (x0 + 2 ^ 32 * (x1 + 2 ^ 32 * val r)) with ((x0 + x1 * 2 ^ 32) + val r * 2 ^ 64) by ring.
  rewrite Z_mod_plus_full. symmetry; apply Z.mod_small. lia.
Qed.

(** ** Division *)

Lemma set_bit_spec quo sh :
  wf quo -> 0 <= sh < 256 -> (2 ^ (sh + 1) | val quo) ->
  let quo' := or_at quo (Z.to_nat (sh / 32)) (u32 (Z.shiftl 1 (Z.land sh 31))) in
  wf quo' /\ val quo' = val quo + 2 ^ sh.
Proof.
  intros [L F] Hsh [q Hq]; cbv zeta. unfold WIDTH in *.
  change 31 with (Z.ones 5). rewrite Z.land_ones by lia. change (2 ^ 5) with 32.
  pose proof (Z.mod_pos_bound sh 32). rewrite Z.shiftl_1_l.
  assert (2 ^ (sh mod 32) < 2 ^ 32) by (apply Z.pow_lt_mono_r; lia).
  assert (0 < 2 ^ (sh mod 32)) by (apply Zpow2_pos; lia).
  rewrite (wrap_small 32) by (unfold in_u; lia).
  split; [split; [rewrite length_or_at; assumption|apply or_at_limbs; [assumption|unfold in_u; lia]]|].
  rewrite or_at_val by (auto; unfold in_u; try zdiv_lia).
  rewrite Z2Nat.id by (apply Z.div_pos; lia).
  rewrite (Z.shiftl_mul_pow2 (2 ^ _)) by zdiv_lia.
  rewrite <- Z.pow_add_r by zdiv_lia.
  replace (sh mod 32 + 32 * (sh / 32)) with sh by zdiv_lia.
  rewrite Hq, Z.lor_comm, <- Z.shiftl_mul_pow2 by lia.
  rewrite lor_shiftl_add.
  - rewrite Z.shiftl_mul_pow2 by lia. ring.
  - lia.
  - split; [apply Z.lt_le_incl, Zpow2_pos; lia|apply Z.pow_lt_mono_r; lia].
  - pose proof (val_range quo F). assert (0 < 2 ^ (sh + 1)) by (apply Zpow2_pos; lia). nia.
Qed.

Lemma div_loop_spec n quo num div A B :
  wf quo -> wf num -> wf div -> 0 < B -> (n <= 256)%nat ->
  ((0 < n)%nat -> 2 * val div = B * 2 ^ Z.of_nat n) ->
  val num < B * 2 ^ Z.of_nat n -> (2 ^ Z.of_nat n | val quo) ->
  A = val quo * B + val num ->
  let '(q, r) := div_loop n quo num div in
  wf q /\ wf r /\ val q = A / B /\ val r = A mod B.
Proof.
  revert quo num div. induction n as [|sh IH]; intros quo num div Wq Wn Wd HB Hn Hd Hlt Hdvd HA.
  - cbn [div_loop]. change (2 ^ Z.of_nat 0) with 1 in Hlt. pose proof (val_wf num Wn).
    repeat split; try apply Wq; try apply Wn.
    + subst A. rewrite Z.div_add_l, Z.div_small by lia. lia.
    + subst A. rewrite Z.add_comm, Z_mod_plus_full, Z.mod_small by lia. reflexivity.
  - cbn [div_loop]. rewrite Nat2Z.inj_succ, Z.pow_succ_r in * by lia.
    set (P := 2 ^ Z.of_nat sh) in *. specialize (Hd ltac:(lia)).
    assert (HP : 0 < P) by (apply Zpow2_pos; lia).
    assert (Ed : val div = B * P) by lia.
    destruct (shr_spec div 1 Wd ltac:(lia)) as [Wd' Vd'].
    pose proof (val_wf num Wn). pose proof (val_wf quo Wq). pose proof (val_wf div Wd).
    assert (Hd' : (0 < sh)%nat -> 2 * val (shr div 1) = B * P).
    { intros Hs. rewrite Vd', Ed. change (2 ^ 1) with 2. unfold P.
      replace (Z.of_nat sh) with (Z.succ (Z.of_nat (sh - 1))) by lia.
      rewrite Z.pow_succ_r, Z.mul_assoc, (Z.mul_comm B 2), <- Z.mul_assoc by lia.
      rewrite (Z.mul_comm 2 (B * _)), Z.div_mul by lia. ring. }
    assert (Hdiv2 : (P | val quo)) by (apply Z.divide_trans with (2 := Hdvd); exists 2; lia).
    rewrite geb_spec by assumption. destruct (Z.leb_spec (val div) (val num)).
    + destruct (set_bit_spec quo (Z.of_nat sh)) as [Wq' Vq']; auto; [lia| |].
      { replace (Z.of_nat sh + 1) with (Z.succ (Z.of_nat sh)) by lia.
        rewrite Z.pow_succ_r by lia. exact Hdvd. }
      destruct (sub_spec num div Wn Wd) as [Ws Vs].
      rewrite Z.mod_small in Vs by lia.
      apply IH; auto; [lia|lia|rewrite Vq'|rewrite Vq', Vs].
      * apply Z.divide_add_r; [assumption|apply Z.divide_refl].
      * nia.
    + apply IH; auto; lia.
Qed.

(** [operator/=] throws exactly on a zero divisor, and otherwise computes
    the floor quotient. *)
Lemma div_spec a b :
  wf a -> wf b ->
  match div a b with
  | None => val b = 0
  | Some q => val b <> 0 /\ wf q /\ val q = val a / val b
  end.
Proof.
  intros Wa Wb. unfold div. rewrite !bits_spec by assumption.
  pose proof (val_wf a Wa) as Ra. pose proof (val_wf b Wb) as Rb.
  pose proof (bit_length_bounds (val a)) as [Ha1 Ha2]; [lia|].
  pose proof (bit_length_bounds (val b)) as [Hb1 Hb2]; [lia|].
  pose proof (bit_length_nonneg (val b)) as Hbn.
  destruct (Z.eqb_spec (bit_length (val b)) 0) as [Eb|Eb].
  { rewrite Eb in Hb1. cbn in Hb1. lia. }
  assert (Hb0 : 0 < val b).
  { destruct (Z.eq_dec (val b) 0) as [E|]; [|lia]. rewrite E in Eb. elim Eb. reflexivity. }
  specialize (Hb2 Hb0).
  destruct (Z.ltb_spec (bit_length (val a)) (bit_length (val b))) as [Hlt|Hge].
  - split; [lia|]. split; [apply of_uint64_wf|]. rewrite of_uint64_val by (unfold in_u; lia).
    symmetry. apply Z.div_small. split; [lia|].
    apply Z.lt_le_trans with (1 := Ha1), Z.le_trans with (2 := Hb2).
    apply Z.pow_le_mono_r; lia.
  - set (shift := bit_length (val a) - bit_length (val b)) in *.
    assert (Hla : bit_length (val a) <= 256) by (apply bit_length_le; lia).
    destruct (shl_spec b shift Wb ltac:(lia)) as [Wd Vd].
    assert (Hfit : val b * 2 ^ shift < 2 ^ 256).
    { apply Z.lt_le_trans with (2 ^ bit_length (val b) * 2 ^ shift).
      - apply Z.mul_lt_mono_pos_r; [apply Zpow2_pos; lia|assumption].
      - rewrite <- Z.pow_add_r by lia. apply Z.pow_le_mono_r; lia. }
    assert (0 < 2 ^ shift) by (apply Zpow2_pos; lia).
    rewrite Z.mod_small in Vd by nia.
    pose proof (div_loop_spec (Z.to_nat (shift + 1)) (of_uint64 0) a (shl b shift) (val a) (val b)) as H0.
    rewrite Z2Nat.id in H0 by lia.
    rewrite Z.pow_add_r, of_uint64_val in H0 by (unfold in_u; lia).
    destruct (div_loop _ _ _ _) as [q r]. cbn [fst].
    destruct H0 as (Wq & _ & Vq & _); auto using of_uint64_wf; try lia.
    + apply Z.lt_le_trans with (1 := Ha1).
      replace (bit_length (val a)) with ((bit_length (val b) - 1) + (shift + 1)) by lia.
      rewrite Z.pow_add_r, (Z.pow_add_r 2 shift 1) by lia.
      apply Z.mul_le_mono_nonneg_r; [lia|assumption].
    + exists 0; lia.
    + split; [lia|auto].
Qed.

(** ** The compact encoding

    A compact number is a base-256 exponent [e] (its top 8 bits), a sign
    bit and a 23-bit mantissa [m]; it denotes [m * 256^(e-3)]. *)

Definition compact_exp (c : Z) : Z := c / 2 ^ 24.

Definition compact_mant (c : Z) : Z := c mod 2 ^ 23.

Definition compact_value (c : Z) : Z :=
  if compact_exp c <=? 3 then compact_mant c / 256 ^ (3 - compact_exp c)
  else compact_mant c * 256 ^ (compact_exp c - 3).

Lemma pow256 n : 0 <= n -> 256 ^ n = 2 ^ (8 * n).
Proof. intros. change 256 with (2 ^ 8). rewrite <- Z.pow_mul_r by lia. reflexivity. Qed.

Lemma compact_parts c :
  in_u 32 c ->
  Z.shiftr c 24 = compact_exp c /\ Z.land c 0x007fffff = compact_mant c /\
  0 <= compact_exp c < 256 /\ 0 <= compact_mant c < 2 ^ 23.
Proof.
  intros Hc. unfold compact_exp, compact_mant, in_u in *.
  rewrite Z.shiftr_div_pow2 by lia. change 0x007fffff with (Z.ones 23).
  rewrite Z.land_ones by lia. repeat split; zdiv_lia.
Qed.

(** The value [SetCompact] leaves in the object, and its overflow flag:
    set exactly when the denoted number does not fit in 256 bits. *)
Lemma SetCompact_spec c :
  in_u 32 c ->
  let '(t, fNegative, fOverflow) := SetCompact c in
  wf t /\ val t = compact_value c mod 2 ^ 256 /\
  fOverflow = (2 ^ 256 <=? compact_value c) /\
  fNegative = negb (compact_value c =? 0) && Z.testbit c 23.
Proof.
  intros Hc. destruct (compact_parts c Hc) as (E1 & E2 & He & Hm).
  unfold SetCompact, compact_value. rewrite E1, E2.
  set (e := compact_exp c) in *. set (m := compact_mant c) in *.
  change 0x00800000 with (Z.shiftl 1 23). rewrite land_shifted_bit, negb_involutive by lia.
  destruct (Z.leb_spec e 3) as [Hle|Hgt].
  - rewrite Z.shiftr_div_pow2, pow256 by lia.
    assert (0 < 2 ^ (8 * (3 - e))) by (apply Zpow2_pos; lia).
    assert (Hr : 0 <= m / 2 ^ (8 * (3 - e)) < 2 ^ 23).
    { split; [apply Z.div_pos; lia|apply Z.div_lt_upper_bound; nia]. }
    split; [apply of_uint64_wf|]. rewrite of_uint64_val by (unfold in_u; lia).
    rewrite Z.mod_small by lia. split; [reflexivity|]. split; [|reflexivity].
    decide_tests. rewrite !andb_false_r. reflexivity.
  - rewrite pow256 by lia. set (k := 8 * (e - 3)) in *.
    destruct (shl_spec (of_uint64 m) k) as [W V]; [apply of_uint64_wf|lia|].
    split; [assumption|]. rewrite V, of_uint64_val by (unfold in_u; lia).
    split; [reflexivity|].
    assert (Hk : 0 < 2 ^ k) by (apply Zpow2_pos; lia).
    split.
    + destruct (Z.eqb_spec m 0) as [->|Hm0]; [reflexivity|]. cbn [negb andb].
      destruct (Z.le_gt_cases e 32) as [H32|H32].
      { assert (2 ^ k <= 2 ^ 232) by (apply Z.pow_le_mono_r; lia).
        decide_tests. rewrite !andb_false_r. symmetry. apply Z.leb_gt. nia. }
      destruct (Z.le_gt_cases 35 e) as [H35|H35].
      { assert (2 ^ 256 <= 2 ^ k) by (apply Z.pow_le_mono_r; lia).
        decide_tests. reflexivity. }
      destruct (Z.eq_dec e 33) as [E|E];
        [assert (Ek : k = 240) by (unfold k; lia)|assert (Ek : k = 248) by (unfold k; lia)];
        rewrite Ek; clearbody k; subst k; decide_tests;
        rewrite ?andb_false_r, ?andb_true_r, ?orb_false_r;
        repeat match goal with |- context [?x <? m] => destruct (Z.ltb_spec x m) end;
        cbn [orb]; symmetry; first [apply Z.leb_le; lia|apply Z.leb_gt; lia].
    + f_equal. f_equal. destruct (Z.eqb_spec m 0), (Z.eqb_spec (m * 2 ^ k) 0); nia.
Qed.

(** The exponent and mantissa [GetCompact] chooses for a value. *)
Definition byte_length (v : Z) : Z := (bit_length v + 7) / 8.

Definition raw_mant (v : Z) : Z :=
  let n := byte_length v in
  if n <=? 3 then v * 256 ^ (3 - n) else v / 256 ^ (n - 3).

Definition norm_exp (v : Z) : Z :=
  if 2 ^ 23 <=? raw_mant v then byte_length v + 1 else byte_length v.

Definition norm_mant (v : Z) : Z :=
  if 2 ^ 23 <=? raw_mant v then raw_mant v / 256 else raw_mant v.

Lemma byte_length_bounds v :
  0 <= v < 2 ^ 256 ->
  0 <= byte_length v <= 32 /\ v < 256 ^ byte_length v /\
  (0 < v -> 1 <= byte_length v /\ 256 ^ (byte_length v - 1) <= v).
Proof.
  intros Hv. unfold byte_length.
  pose proof (bit_length_bounds v) as [H1 H2]; [lia|].
  pose proof (bit_length_nonneg v). pose proof (bit_length_le v 256 ltac:(lia) Hv).
  assert (Hpos : 0 < v -> 1 <= bit_length v).
  { intros. unfold bit_length. pose proof (Z.log2_nonneg v).
    destruct (Z.eqb_spec v 0); lia. }
  split; [zdiv_lia|]. split.
  - rewrite pow256 by zdiv_lia. apply Z.lt_le_trans with (1 := H1).
    apply Z.pow_le_mono_r; zdiv_lia.
  - intros Hv0. specialize (H2 Hv0). specialize (Hpos Hv0). split; [zdiv_lia|].
    rewrite pow256 by zdiv_lia. apply Z.le_trans with (2 := H2).
    apply Z.pow_le_mono_r; zdiv_lia.
Qed.

Lemma raw_mant_bounds v :
  0 <= v < 2 ^ 256 -> 0 <= raw_mant v < 2 ^ 24 /\ (0 < v -> 2 ^ 16 <= raw_mant v).
Proof.
  intros Hv. destruct (byte_length_bounds v Hv) as (Hn & Hlt & Hge). unfold raw_mant.
  set (n := byte_length v) in *. destruct (Z.leb_spec n 3).
  - assert (E : 256 ^ n * 256 ^ (3 - n) = 2 ^ 24)
      by (rewrite <- Z.pow_add_r by lia; replace (n + (3 - n)) with 3 by lia; reflexivity).
    assert (0 < 256 ^ (3 - n)) by (apply Z.pow_pos_nonneg; lia).
    split; [nia|]. intros Hv0. destruct (Hge Hv0) as [Hn1 Hge'].
    assert (256 ^ (n - 1) * 256 ^ (3 - n) = 2 ^ 16)
      by (rewrite <- Z.pow_add_r by lia; replace (n - 1 + (3 - n)) with 2 by lia; reflexivity).
    nia.
  - assert (E : 256 ^ n = 2 ^ 24 * 256 ^ (n - 3))
      by (change (2 ^ 24) with (256 ^ 3); rewrite <- Z.pow_add_r by lia; f_equal; lia).
    assert (0 < 256 ^ (n - 3)) by (apply Z.pow_pos_nonneg; lia).
    split.
    + split; [apply Z.div_pos; lia|]. apply Z.div_lt_upper_bound; nia.
    + intros Hv0. destruct (Hge Hv0) as [Hn1 Hge'].
      assert (256 ^ (n - 1) = 2 ^ 16 * 256 ^ (n - 3))
        by (change (2 ^ 16) with (256 ^ 2); rewrite <- Z.pow_add_r by lia; f_equal; lia).
      apply Z.div_le_lower_bound; nia.
Qed.

Lemma norm_bounds v :
  0 <= v < 2 ^ 256 ->
  0 <= norm_mant v < 2 ^ 23 /\ 0 <= norm_exp v <= 33 /\ (0 < v -> 2 ^ 15 <= norm_mant v).
Proof.
  intros Hv. destruct (byte_length_bounds v Hv) as (Hn & _).
  destruct (raw_mant_bounds v Hv) as [Hr Hp]. unfold norm_mant, norm_exp.
  destruct (Z.leb_spec (2 ^ 23) (raw_mant v)); repeat split; try lia; try zdiv_lia.
Qed.

Lemma GetCompact_spec a :
  wf a -> GetCompact a false = Some (norm_mant (val a) + norm_exp (val a) * 2 ^ 24).
Proof.
  intros Wa. pose proof (val_wf a Wa) as Hv.
  destruct (byte_length_bounds _ Hv) as (Hn & Hlt & _).
  destruct (raw_mant_bounds _ Hv) as [Hr _]. destruct (norm_bounds _ Hv) as (Hm & He & _).
  unfold GetCompact. rewrite bits_spec by assumption. fold (byte_length (val a)).
  set (v := val a) in *. set (n := byte_length v) in *.
  assert (Eraw : (if n <=? 3 then u32 (u64 (Z.shiftl (GetLow64 a) (8 * (3 - n))))
                  else u32 (GetLow64 (shr a (8 * (n - 3))))) = raw_mant v).
  { unfold raw_mant in *. fold n in Hr |- *. destruct (Z.leb_spec n 3).
    - rewrite GetLow64_spec by assumption. fold v.
      assert (v < 2 ^ 24).
      { apply Z.lt_le_trans with (1 := Hlt). rewrite pow256 by lia.
        apply Z.pow_le_mono_r; lia. }
      rewrite Z.mod_small, Z.shiftl_mul_pow2, <- pow256 by lia.
      rewrite (wrap_small 64), (wrap_small 32) by (unfold in_u; lia). reflexivity.
    - destruct (shr_spec a (8 * (n - 3)) Wa ltac:(lia)) as [W V].
      rewrite GetLow64_spec, V, <- pow256 by (auto; lia). fold v.
      rewrite Z.mod_small, (wrap_small 32) by (unfold in_u; lia). reflexivity. }
  rewrite Eraw. clear Eraw.
  assert (Ebit : negb (Z.land (raw_mant v) 0x00800000 =? 0) = (2 ^ 23 <=? raw_mant v)).
  { change 0x00800000 with (Z.shiftl 1 23). rewrite land_shifted_bit, negb_involutive by lia.
    destruct (Z.leb_spec (2 ^ 23) (raw_mant v)).
    - apply Z.testbit_true; [lia|]. replace (raw_mant v / 2 ^ 23) with 1 by zdiv_lia. reflexivity.
    - apply (in_u_testbit 23); unfold in_u; lia. }
  rewrite Ebit.
  assert (Eif : (if 2 ^ 23 <=? raw_mant v then (Z.shiftr (raw_mant v) 8, n + 1) else (raw_mant v, n))
                = (norm_mant v, norm_exp v)).
  { unfold norm_mant, norm_exp. fold n. rewrite Z.shiftr_div_pow2 by lia.
    destruct (2 ^ 23 <=? raw_mant v); reflexivity. }
  rewrite Eif.
  assert (Eas : Z.land (norm_mant v) (u32 (Z.lnot 0x007fffff)) = 0).
  { change (u32 (Z.lnot 0x007fffff)) with (Z.shiftl (Z.ones 9) 23).
    apply Z.bits_inj'; intros i Hi. rewrite Z.land_spec, Z.testbit_0_l.
    destruct (Z.lt_ge_cases i 23).
    - rewrite Z.shiftl_spec_low, andb_false_r by lia. reflexivity.
    - rewrite (in_u_testbit 23) by (unfold in_u; lia). reflexivity. }
  rewrite Eas. cbn [Z.eqb negb]. decide_tests.
  rewrite (wrap_small 32) by (rewrite Z.shiftl_mul_pow2 by lia; unfold in_u; lia).
  rewrite Z.lor_0_r, lor_shiftl_add by (unfold in_u; lia). reflexivity.
Qed.

(** What is left of a value after encoding: its low bytes cleared. *)
Definition compact_trunc (v : Z) : Z :=
  let k := Z.max 0 (norm_exp v - 3) in v / 256 ^ k * 256 ^ k.

Definition compact_encode (v : Z) : Z := norm_mant v + norm_exp v * 2 ^ 24.

Lemma compact_encode_parts v :
  0 <= v < 2 ^ 256 ->
  in_u 32 (compact_encode v) /\ compact_exp (compact_encode v) = norm_exp v /\
  compact_mant (compact_encode v) = norm_mant v /\ Z.testbit (compact_encode v) 23 = false.
Proof.
  intros Hv. destruct (norm_bounds v Hv) as (Hm & He & _).
  unfold compact_encode, compact_exp, compact_mant, in_u.
  repeat split; try lia; try zdiv_lia.
  rewrite <- lor_shiftl_add by (unfold in_u; lia).
  rewrite Z.lor_spec, Z.shiftl_spec_low, orb_false_r by lia.
  apply (in_u_testbit 23); unfold in_u; lia.
Qed.

Lemma compact_encode_value v : 0 <= v < 2 ^ 256 -> compact_value (compact_encode v) = compact_trunc v.
Proof.
  intros Hv. destruct (compact_encode_parts v Hv) as (_ & Ee & Em & _).
  destruct (byte_length_bounds v Hv) as (Hn & _).
  unfold compact_value, compact_trunc. rewrite Ee, Em.
  unfold norm_exp, norm_mant, raw_mant. set (n := byte_length v) in *.
  assert (Hp : forall k, 0 <= k -> 0 < 256 ^ k) by (intros; apply Z.pow_pos_nonneg; lia).
  destruct (Z.leb_spec n 3);
    match goal with |- context [2 ^ 23 <=? ?r] => destruct (Z.leb_spec (2 ^ 23) r) end.
  - destruct (Z.leb_spec (n + 1) 3).
    + rewrite Z.max_l by lia. rewrite Z.pow_0_r, Z.div_1_r, Z.mul_1_r.
      replace (3 - n) with (1 + (3 - (n + 1))) by lia.
      rewrite Z.pow_add_r by lia. change (256 ^ 1) with 256.
      rewrite Z.div_div by (try apply Hp; lia).
      apply Z.div_mul. pose proof (Hp (3 - (n + 1))). nia.
    + assert (n = 3) as E by lia. rewrite E. cbn. rewrite Z.mul_1_r. reflexivity.
  - decide_tests. rewrite Z.max_l by lia. rewrite Z.pow_0_r, Z.div_1_r, Z.mul_1_r.
    apply Z.div_mul. pose proof (Hp (3 - n)). lia.
  - decide_tests. rewrite Z.max_r by lia. rewrite Z.div_div by (try apply Hp; lia).
    replace (256 ^ (n - 3) * 256) with (256 ^ (n + 1 - 3)); [reflexivity|].
    replace (n + 1 - 3) with ((n - 3) + 1) by lia. rewrite Z.pow_add_r by lia. reflexivity.
  - decide_tests. rewrite Z.max_r by lia. reflexivity.
Qed.

Lemma compact_trunc_bounds v :
  0 <= v < 2 ^ 256 -> 0 <= compact_trunc v <= v /\ (v - compact_trunc v) * 2 ^ 15 <= v.
Proof.
  intros Hv. destruct (norm_bounds v Hv) as (Hm & He & Hlow).
  destruct (compact_encode_parts v Hv) as (_ & Ee & Em & _).
  pose proof (compact_encode_value v Hv) as Hval.
  unfold compact_trunc in *. set (k := Z.max 0 (norm_exp v - 3)) in *.
  assert (Hk : 0 < 256 ^ k) by (apply Z.pow_pos_nonneg; lia).
  pose proof (Z.div_mod v (256 ^ k) ltac:(lia)). pose proof (Z.mod_pos_bound v (256 ^ k) Hk).
  assert (0 <= v / 256 ^ k) by (apply Z.div_pos; lia).
  split; [nia|]. destruct (Z.eq_dec v 0) as [->|]; [rewrite Z.div_0_l by lia; lia|].
  destruct (Z.le_gt_cases (norm_exp v) 3).
  - replace k with 0 by lia. rewrite Z.pow_0_r, Z.div_1_r. lia.
  - unfold compact_value in Hval. rewrite Ee, Em in Hval. replace (norm_exp v - 3) with k in Hval by lia.
    destruct (Z.leb_spec (norm_exp v) 3); [lia|]. nia.
Qed.

(** ** Bytes *)

Lemma read_write_LE32 x rest : in_u 32 x -> ReadLE32 (WriteLE32 x ++ rest) = x.
Proof.
  intros Hx. unfold ReadLE32, WriteLE32, wrap. cbn [app nth].
  rewrite !Z.shiftr_div_pow2 by lia.
  assert (H8 : forall y, in_u 8 (y mod 2 ^ 8)) by (intros; apply (wrap_range 8); lia).
  rewrite (lor_shiftl_add 8) by (auto; try apply H8; lia).
  rewrite (lor_shiftl_add 16) by (try apply H8; unfold in_u; zdiv_lia).
  rewrite (lor_shiftl_add 24) by (try apply H8; unfold in_u; zdiv_lia).
  unfold in_u in Hx. zdiv_lia.
Qed.

Lemma read_limbs_write a rest :
  Forall (in_u 32) a -> read_limbs (length a) (flat_map WriteLE32 a ++ rest) = a.
Proof.
  induction 1 as [|x a Hx Ha IH]; [reflexivity|].
  cbn [flat_map length read_limbs]. rewrite <- app_assoc, read_write_LE32 by assumption.
  f_equal. exact IH.
Qed.

(** ** Canonical compact numbers *)

(** What [GetCompact] can produce: no sign, a mantissa with its top two
    bytes in use, a value of at most 256 bits. *)
Definition canonical (c : Z) : Prop :=
  in_u 32 c /\ Z.testbit c 23 = false /\ 2 ^ 15 <= compact_mant c /\
  compact_value c < 2 ^ 256 /\ 1 <= compact_exp c /\
  (compact_exp c < 3 -> compact_mant c mod 256 ^ (3 - compact_exp c) = 0).

Lemma byte_length_unique v n :
  1 <= n -> 256 ^ (n - 1) <= v < 256 ^ n -> v < 2 ^ 256 -> byte_length v = n.
Proof.
  intros Hn Hv H256.
  assert (0 < 256 ^ (n - 1)) by (apply Z.pow_pos_nonneg; lia).
  destruct (byte_length_bounds v) as (Hb & Hlt & Hge); [lia|].
  destruct Hge as [H1 Hge]; [lia|]. set (m := byte_length v) in *.
  assert (~ m < n).
  { intros Hc. assert (256 ^ m <= 256 ^ (n - 1)) by (apply Z.pow_le_mono_r; lia). lia. }
  assert (~ n < m).
  { intros Hc. assert (256 ^ n <= 256 ^ (m - 1)) by (apply Z.pow_le_mono_r; lia). lia. }
  lia.
Qed.

(** The two shapes of a canonical value around the exponent. *)
Lemma canonical_value_scaled c :
  canonical c ->
  let e := compact_exp c in let m := compact_mant c in let v := compact_value c in
  (e <= 3 -> v * 256 ^ (3 - e) = m) /\ (3 < e -> v = m * 256 ^ (e - 3)).
Proof.
  intros (Hc & Hs & Hm & Hv & He & Hz). cbv zeta. unfold compact_value.
  set (e := compact_exp c) in *. set (m := compact_mant c) in *.
  destruct (Z.leb_spec e 3); split; intros; try lia.
  assert (0 < 256 ^ (3 - e)) by (apply Z.pow_pos_nonneg; lia).
  destruct (Z.eq_dec e 3) as [E|E].
  - rewrite E. rewrite Z.pow_0_r, Z.div_1_r. lia.
  - specialize (Hz ltac:(lia)). pose proof (Z.div_mod m (256 ^ (3 - e))). lia.
Qed.

(** Its byte length: the exponent, or one less when the top byte of the
    mantissa is clear. *)
Lemma canonical_byte_length c :
  canonical c ->
  byte_length (compact_value c) =
    if 2 ^ 16 <=? compact_mant c then compact_exp c else compact_exp c - 1.
Proof.
  intros Hcan. pose proof (canonical_value_scaled c Hcan) as Hsc. cbv zeta in Hsc.
  destruct Hcan as (Hc & Hs & Hm & Hv & He & Hz).
  destruct (compact_parts c Hc) as (_ & _ & He' & Hm').
  set (e := compact_exp c) in *. set (m := compact_mant c) in *.
  set (v := compact_value c) in *. destruct Hsc as [Hlo Hhi].
  assert (Hp : forall k, 0 <= k -> 0 < 256 ^ k) by (intros; apply Z.pow_pos_nonneg; lia).
  assert (Hsplit : forall j, 0 <= j <= e -> (e <= 3 -> 256 ^ j * 256 ^ (3 - e) = 256 ^ (j + 3 - e)) /\
                             (3 < e -> e - 3 <= j -> 256 ^ (j - (e - 3)) * 256 ^ (e - 3) = 256 ^ j)).
  { intros j Hj; split; intros; rewrite <- Z.pow_add_r by lia; f_equal; lia. }
  assert (He2 : m < 2 ^ 16 -> 2 <= e).
  { intros. destruct (Z.eq_dec e 1) as [E|]; [|lia]. specialize (Hz ltac:(lia)).
    rewrite E in Hz. change (256 ^ (3 - 1)) with 65536 in Hz. rewrite Z.mod_small in Hz by lia. lia. }
  set (n := if 2 ^ 16 <=? m then e else e - 1).
  assert (Hn : 1 <= n <= e /\ e - 1 <= n) by (unfold n; destruct (Z.leb_spec (2 ^ 16) m); lia).
  apply byte_length_unique; [lia| |assumption].
  destruct (Z.le_gt_cases e 3) as [H3|H3].
  - specialize (Hlo H3). pose proof (Hp (3 - e) ltac:(lia)).
    destruct (Hsplit n ltac:(lia)) as [E1 _], (Hsplit (n - 1) ltac:(lia)) as [E2 _].
    specialize (E1 H3). specialize (E2 H3). unfold n in *. clear Hsplit.
    destruct (Z.leb_spec (2 ^ 16) m).
    + replace (e + 3 - e) with 3 in E1 by lia. replace (e - 1 + 3 - e) with 2 in E2 by lia. nia.
    + replace (e - 1 + 3 - e) with 2 in E1 by lia. replace (e - 1 - 1 + 3 - e) with 1 in E2 by lia. nia.
  - specialize (Hhi H3). pose proof (Hp (e - 3) ltac:(lia)).
    destruct (Hsplit n ltac:(lia)) as [_ E1], (Hsplit (n - 1) ltac:(lia)) as [_ E2].
    specialize (E1 H3 ltac:(lia)). specialize (E2 H3 ltac:(lia)). unfold n in *. clear Hsplit.
    destruct (Z.leb_spec (2 ^ 16) m).
    + replace (e - (e - 3)) with 3 in E1 by lia. replace (e - 1 - (e - 3)) with 2 in E2 by lia. nia.
    + replace (e - 1 - (e - 3)) with 2 in E1 by lia. replace (e - 1 - 1 - (e - 3)) with 1 in E2 by lia. nia.
Qed.

Lemma canonical_norm c :
  canonical c ->
  norm_exp (compact_value c) = compact_exp c /\ norm_mant (compact_value c) = compact_mant c.
Proof.
  intros Hcan. pose proof (canonical_value_scaled c Hcan) as Hsc. cbv zeta in Hsc.
  pose proof (canonical_byte_length c Hcan) as Hn.
  destruct Hcan as (Hc & Hs & Hm & Hv & He & Hz).
  destruct (compact_parts c Hc) as (_ & _ & He' & Hm').
  set (e := compact_exp c) in *. set (m := compact_mant c) in *.
  set (v := compact_value c) in *. destruct Hsc as [Hlo Hhi].
  assert (Hp : forall k, 0 <= k -> 0 < 256 ^ k) by (intros; apply Z.pow_pos_nonneg; lia).
  unfold norm_exp, norm_mant, raw_mant. rewrite Hn.
  destruct (Z.leb_spec (2 ^ 16) m) as [Hbig|Hsmall].
  - assert (Hr : (if e <=? 3 then v * 256 ^ (3 - e) else v / 256 ^ (e - 3)) = m).
    { destruct (Z.leb_spec e 3); [apply Hlo; lia|]. rewrite Hhi by lia.
      apply Z.div_mul. pose proof (Hp (e - 3)). lia. }
    rewrite Hr. decide_tests. auto.
  - assert (Hr : (if e - 1 <=? 3 then v * 256 ^ (3 - (e - 1)) else v / 256 ^ (e - 1 - 3)) = m * 256).
    { destruct (Z.leb_spec (e - 1) 3).
      - destruct (Z.le_gt_cases e 3).
        + rewrite <- Hlo by lia. replace (3 - (e - 1)) with ((3 - e) + 1) by lia.
          rewrite Z.pow_add_r by lia. ring.
        + rewrite Hhi by lia. replace e with 4 by lia. cbn. lia.
      - rewrite Hhi by lia. replace (e - 3) with (1 + (e - 1 - 3)) by lia.
        rewrite Z.pow_add_r by lia. change (256 ^ 1) with 256.
        rewrite Z.mul_assoc, Z.div_mul; [reflexivity|]. pose proof (Hp (e - 1 - 3)). lia. }
    rewrite Hr. decide_tests. rewrite Z.div_mul by lia. split; [lia|reflexivity].
Qed.

Lemma canonical_recompose c :
  canonical c -> compact_mant c + compact_exp c * 2 ^ 24 = c.
Proof.
  intros (Hc & Hs & _). unfold compact_mant, compact_exp.
  apply Z.testbit_false in Hs; [|lia]. unfold in_u in Hc. zdiv_lia.
Qed.

(** ** The decoded encoding is monotone *)

Lemma compact_trunc_window v :
  0 <= v < 2 ^ 256 ->
  let k := Z.max 0 (norm_exp v - 3) in
  v < 2 ^ 23 * 256 ^ k /\ (0 < k -> 2 ^ 15 * 256 ^ k <= v).
Proof.
  intros Hv k. destruct (norm_bounds v Hv) as (Hm & He & Hlow).
  destruct (compact_encode_parts v Hv) as (_ & Ee & Em & _).
  pose proof (compact_encode_value v Hv) as Hval. unfold compact_value in Hval. rewrite Ee, Em in Hval.
  unfold compact_trunc in Hval. fold k in Hval.
  assert (Hk : 0 < 256 ^ k) by (apply Z.pow_pos_nonneg; lia).
  pose proof (Z.div_mod v (256 ^ k) ltac:(lia)) as Hdm. pose proof (Z.mod_pos_bound v (256 ^ k) Hk) as Hmb.
  destruct (Z.leb_spec (norm_exp v) 3) as [Hle|Hgt].
  - replace k with 0 in * by lia. change (256 ^ 0) with 1 in *. rewrite Z.div_1_r, Z.mul_1_r in Hval.
    assert (norm_mant v / 256 ^ (3 - norm_exp v) <= norm_mant v).
    { apply Z.div_le_upper_bound; [apply Z.pow_pos_nonneg; lia|].
      pose proof (Z.pow_pos_nonneg 256 (3 - norm_exp v) ltac:(lia) ltac:(lia)). nia. }
    lia.
  - replace (norm_exp v - 3) with k in Hval by lia.
    assert (v / 256 ^ k = norm_mant v) as Hq by nia.
    split; [nia|]. intros _. assert (0 < v) by (destruct (Z.eq_dec v 0) as [->|]; [exfalso|lia]; vm_compute in Hgt; congruence).
    specialize (Hlow ltac:(lia)). nia.
Qed.

Lemma compact_trunc_mono v w :
  0 <= v -> v <= w -> w < 2 ^ 256 -> compact_trunc v <= compact_trunc w.
Proof.
  intros Hv Hvw Hw. destruct (compact_trunc_window v) as [Hv1 Hv2]; [lia|].
  destruct (compact_trunc_window w) as [Hw1 Hw2]; [lia|].
  pose proof (compact_trunc_bounds v ltac:(lia)) as [[_ Hv3] _].
  unfold compact_trunc in *. set (k := Z.max 0 (norm_exp v - 3)) in *. set (l := Z.max 0 (norm_exp w - 3)) in *.
  assert (Hp : forall n, 0 <= n -> 0 < 256 ^ n) by (intros; apply Z.pow_pos_nonneg; lia).
  pose proof (Hp k ltac:(lia)). pose proof (Hp l ltac:(lia)).
  assert (Hstep : forall n m, 0 <= n -> n < m -> 256 * 256 ^ n <= 256 ^ m).
  { intros n m Hn Hm. rewrite <- Z.pow_succ_r by lia. apply Z.pow_le_mono_r; lia. }
  destruct (Z.lt_trichotomy k l) as [Hlt|[Heq|Hgt]].
  - pose proof (Hstep k l ltac:(lia) Hlt). specialize (Hw2 ltac:(lia)).
    assert (2 ^ 15 <= w / 256 ^ l) by (apply Z.div_le_lower_bound; lia). nia.
  - rewrite Heq. apply Z.mul_le_mono_nonneg_r; [lia|]. apply Z.div_le_mono; lia.
  - pose proof (Hstep l k ltac:(lia) Hgt). specialize (Hv2 ltac:(lia)). lia.
Qed.

(** ** Blobs as little-endian numbers *)

Fixpoint le_val (p : list Z) : Z :=
  match p with
  | [] => 0
  | x :: p => x + 2 ^ 8 * le_val p
  end.

Lemma ReadLE32_val a b c d p :
  in_u 8 a -> in_u 8 b -> in_u 8 c -> in_u 8 d ->
  in_u 32 (ReadLE32 (a :: b :: c :: d :: p)) /\
  ReadLE32 (a :: b :: c :: d :: p) = a + 2 ^ 8 * b + 2 ^ 16 * c + 2 ^ 24 * d.
Proof.
  unfold in_u. intros Ha Hb Hc Hd. unfold ReadLE32. cbn [nth].
  rewrite (lor_shiftl_add 8), (lor_shiftl_add 16), (lor_shiftl_add 24) by (unfold in_u; lia). lia.
Qed.

Lemma read_limbs_spec n p :
  Forall (in_u 8) p -> length p = (4 * n)%nat ->
  length (read_limbs n p) = n /\ Forall (in_u 32) (read_limbs n p) /\ val (read_limbs n p) = le_val p.
Proof.
  revert p; induction n as [|n IH]; intros p Hp Hl.
  - destruct p; [|discriminate]. repeat split. constructor.
  - destruct p as [|a [|b [|c [|d p]]]]; try (simpl in Hl; lia).
    rewrite !Forall_cons_iff in Hp. destruct Hp as (? & ? & ? & ? & ?).
    destruct (IH p) as (L & F & V); [assumption|simpl in Hl; lia|].
    destruct (ReadLE32_val a b c d p) as [Hr Hv]; try assumption.
    cbn [read_limbs skipn length val le_val]. rewrite L, V.
    split; [reflexivity|]. split; [constructor; assumption|]. rewrite Hv.
    change (2 ^ 32) with (2 ^ 8 * (2 ^ 8 * (2 ^ 8 * 2 ^ 8))). lia.
Qed.

Lemma UintToArith256_spec p :
  Forall (in_u 8) p -> length p = 32%nat ->
  wf (UintToArith256 p) /\ val (UintToArith256 p) = le_val p.
Proof.
  intros Hp Hl. destruct (read_limbs_spec WIDTH p Hp Hl) as (L & F & V). split; [split|]; assumption.
Qed.

(** ** Correctness of the operators *)

(** The ring operators of [base_uint<256>] (unary minus, [+=], [-=],
    [*=], [++], [--]) keep the representation invariant and compute the
    corresponding operation of [Z] modulo 2^256; no 64-bit carry of
    their loops overflows. *)
Theorem ring_operators_refine_Z a b :
  wf a -> wf b ->
  (wf (add a b) /\ val (add a b) = (val a + val b) mod 2 ^ 256) /\
  (wf (sub a b) /\ val (sub a b) = (val a - val b) mod 2 ^ 256) /\
  (wf (mul a b) /\ val (mul a b) = (val a * val b) mod 2 ^ 256) /\
  (wf (neg a) /\ val (neg a) = (- val a) mod 2 ^ 256) /\
  (wf (inc a) /\ val (inc a) = (val a + 1) mod 2 ^ 256) /\
  (wf (dec a) /\ val (dec a) = (val a - 1) mod 2 ^ 256).
Proof.
  auto 12 using add_spec, sub_spec, mul_spec, neg_wf_spec, inc_wf_spec, dec_wf_spec.
Qed.

Lemma ring_operators_witness :
  val (mul (bnot zero) (bnot zero)) = (val (bnot zero) * val (bnot zero)) mod 2 ^ 256.
Proof.
  apply (ring_operators_refine_Z (bnot zero) (bnot zero)); apply (bnot_wf_spec zero zero_wf).
Defined.

(** [operator/=] throws exactly when the divisor is zero and
    otherwise leaves the floor quotient of the two values. *)
Theorem division_is_floor_or_throws a b :
  wf a -> wf b ->
  match div a b with
  | None => val b = 0
  | Some q => val b <> 0 /\ wf q /\ val q = val a / val b
  end.
Proof. apply div_spec. Qed.

Lemma division_witness :
  match div (of_uint64 1000003) (of_uint64 17) with
  | None => val (of_uint64 17) = 0
  | Some q => val (of_uint64 17) <> 0 /\ wf q /\ val q = val (of_uint64 1000003) / val (of_uint64 17)
  end.
Proof. apply (division_is_floor_or_throws (of_uint64 1000003) (of_uint64 17)); apply of_uint64_wf. Defined.

(** The shifts multiply by a power of two modulo 2^256 and divide by
    it, for every shift count; [CompareTo] is the sign of the
    difference; [bits] is the bit length. *)
Theorem shifts_comparison_and_bits a b s :
  wf a -> wf b -> 0 <= s ->
  (wf (shl a s) /\ val (shl a s) = (val a * 2 ^ s) mod 2 ^ 256) /\
  (wf (shr a s) /\ val (shr a s) = val a / 2 ^ s) /\
  CompareTo a b = Z.sgn (val a - val b) /\
  val a < 2 ^ bits a /\ (0 < val a -> 2 ^ (bits a - 1) <= val a).
Proof.
  intros Ha Hb Hs. rewrite bits_spec by assumption. pose proof (val_wf a Ha).
  pose proof (bit_length_bounds (val a)).
  auto 12 using shl_spec, shr_spec, CompareTo_spec with zarith.
Qed.

Lemma shifts_comparison_and_bits_witness :
  val (shr (of_uint64 1000) 3) = 125 /\ 0 <= 3.
Proof.
  split; [|lia].
  destruct (shifts_comparison_and_bits (of_uint64 1000) zero 3) as (_ & [_ ->] & _);
    [apply of_uint64_wf|apply zero_wf|lia|reflexivity].
Defined.

(** [SetCompact] stores the number a compact encoding denotes, reduced
    modulo 2^256; it reports overflow exactly when that number does not
    fit in 256 bits, and a negative number exactly when the sign bit is
    set on a non-zero value. *)
Theorem SetCompact_decodes c :
  in_u 32 c ->
  let '(t, fNegative, fOverflow) := SetCompact c in
  wf t /\ val t = compact_value c mod 2 ^ 256 /\
  fOverflow = (2 ^ 256 <=? compact_value c) /\
  fNegative = negb (compact_value c =? 0) && Z.testbit c 23.
Proof. apply SetCompact_spec. Qed.

Lemma SetCompact_decodes_witness :
  let '(t, fNegative, fOverflow) := SetCompact 0x23000100 in
  wf t /\ val t = compact_value 0x23000100 mod 2 ^ 256 /\
  fOverflow = (2 ^ 256 <=? compact_value 0x23000100) /\
  fNegative = negb (compact_value 0x23000100 =? 0) && Z.testbit 0x23000100 23.
Proof. apply (SetCompact_decodes 0x23000100). unfold in_u; lia. Defined.

(** [GetCompact] never fails its assertions; decoding what it returns
    gives a target that is not negative, does not overflow, is not above
    the original value, and misses it by a relative error of at most
    2^-15. *)
Theorem GetCompact_total_and_tight a :
  wf a ->
  exists c t, GetCompact a false = Some c /\ in_u 32 c /\ SetCompact c = (t, false, false) /\
    wf t /\ val t <= val a /\ (val a - val t) * 2 ^ 15 <= val a.
Proof.
  intros Wa. pose proof (val_wf a Wa) as Hv.
  destruct (compact_encode_parts _ Hv) as (Hc & _ & _ & Hs).
  destruct (compact_trunc_bounds _ Hv) as [Hb1 Hb2].
  pose proof (SetCompact_spec _ Hc) as HS. rewrite compact_encode_value in HS by assumption.
  destruct (SetCompact (compact_encode (val a))) as [[t fn] fo] eqn:E.
  destruct HS as (Wt & Vt & Ho & Hn). rewrite Hs, andb_false_r in Hn.
  rewrite Z.mod_small in Vt by lia.
  exists (compact_encode (val a)), t. rewrite E, Ho, Hn, Vt, GetCompact_spec by assumption.
  decide_tests. destruct Hb1. split; [reflexivity|]. auto 10.
Qed.

Lemma GetCompact_total_and_tight_witness :
  exists c t, GetCompact (bnot zero) false = Some c /\ in_u 32 c /\ SetCompact c = (t, false, false) /\
    wf t /\ val t <= val (bnot zero) /\ (val (bnot zero) - val t) * 2 ^ 15 <= val (bnot zero).
Proof. apply (GetCompact_total_and_tight (bnot zero)). apply (bnot_wf_spec zero zero_wf). Defined.

(** Every canonical compact number survives decoding and encoding
    again: [GetCompact] inverts [SetCompact]. *)
Theorem compact_round_trip c :
  canonical c -> GetCompact (fst (fst (SetCompact c))) false = Some c.
Proof.
  intros Hcan. destruct (canonical_norm c Hcan) as [Ee Em].
  pose proof (canonical_recompose c Hcan) as Er.
  destruct Hcan as (Hc & _ & Hm & Hv & _).
  pose proof (SetCompact_spec c Hc) as HS.
  destruct (SetCompact c) as [[t fn] fo]. cbn [fst]. destruct HS as (Wt & Vt & _).
  assert (0 <= compact_value c).
  { unfold compact_value. destruct (compact_parts c Hc) as (_ & _ & ? & ?).
    destruct (Z.leb_spec (compact_exp c) 3); [apply Z.div_pos|apply Z.mul_nonneg_nonneg];
      try lia; try (apply Z.pow_pos_nonneg; lia). }
  rewrite Z.mod_small in Vt by lia.
  rewrite GetCompact_spec, Vt, Ee, Em, Er by assumption. reflexivity.
Qed.

Lemma compact_round_trip_witness :
  GetCompact (fst (fst (SetCompact 0x1d00ffff))) false = Some 0x1d00ffff.
Proof.
  apply (compact_round_trip 0x1d00ffff).
  repeat split; vm_compute; congruence.
Defined.

End arith_uint256.
