(* ===== verification/Primitives.v ===== *)
(** * Primitives: the data of src/src/primitives and src/src/amount.h

    Transactions, outputs, outpoints and block headers, as records with
    the source's fields.  A [uint256] (src/src/uint256.h) is its array of
    32 bytes, a script is its byte string. *)

From stdpp Require Import base decidable list gmap.
From Stdlib Require Import ZArith List Lia Bool.
From S2P Require Import Prelude.
Import ListNotations.
Local Open Scope Z_scope.

(** ** Bytes and hashes *)

Definition bytes := list Z.

Definition bytes_ok (b : bytes) : Prop := Forall (in_u 8) b.

Fixpoint bytes_eqb (a b : bytes) : bool :=
  match a, b with
  | [], [] => true
  | x :: a', y :: b' => (x =? y) && bytes_eqb a' b'
  | _, _ => false
  end.

Definition uint256 := bytes.

(** [uint256()] and [uint160()] *)
Definition uint256_null : uint256 := repeat 0 32.

Definition uint160_null : bytes := repeat 0 20.

(** [base_blob::IsNull] *)
Definition blob_IsNull (b : bytes) : bool := forallb (fun x => x =? 0) b.

(** ** Amounts *)

Definition COIN : Z := 100000000.

Definition MAX_MONEY : Z := 30000000000 * COIN.

Definition MoneyRange (nValue : Z) : bool := (0 <=? nValue) && (nValue <=? MAX_MONEY).

(** ** Transactions *)

Definition CScript := bytes.

Record COutPoint := mkOutPoint { op_hash : uint256; op_n : Z }.

Definition NULL_INDEX : Z := 0xffffffff.

Definition outpoint_null : COutPoint := mkOutPoint uint256_null NULL_INDEX.

Definition outpoint_IsNull (o : COutPoint) : bool :=
  blob_IsNull (op_hash o) && (op_n o =? NULL_INDEX).

Definition outpoint_eqb (a b : COutPoint) : bool :=
  bytes_eqb (op_hash a) (op_hash b) && (op_n a =? op_n b).

Definition SEQUENCE_FINAL : Z := 0xffffffff.
Definition SEQUENCE_LOCKTIME_DISABLE_FLAG : Z := Z.shiftl 1 31.
Definition SEQUENCE_LOCKTIME_TYPE_FLAG : Z := Z.shiftl 1 22.
Definition SEQUENCE_LOCKTIME_MASK : Z := 0x0000ffff.
Definition SEQUENCE_LOCKTIME_GRANULARITY : Z := 9.

Record CTxIn := mkTxIn {
  prevout : COutPoint;
  scriptSig : CScript;
  nSequence : Z;
  scriptWitness : list bytes
}.

Record CTxOut := mkTxOut { nValue : Z; scriptPubKey : CScript }.

(** [CTxOut::SetNull], [IsNull], [SetEmpty], [IsEmpty] *)
Definition txout_null : CTxOut := mkTxOut (-1) [].

Definition txout_IsNull (o : CTxOut) : bool := nValue o =? -1.

Definition txout_SetEmpty : CTxOut := mkTxOut 0 [].

Definition txout_IsEmpty (o : CTxOut) : bool :=
  (nValue o =? 0) && match scriptPubKey o with [] => true | _ => false end.

Record CTransaction := mkTransaction {
  nVersion : Z;
  vin : list CTxIn;
  vout : list CTxOut;
  nLockTime : Z
}.

Definition tx_IsNull (tx : CTransaction) : bool :=
  match vin tx, vout tx with [], [] => true | _, _ => false end.

Definition IsCoinBase (tx : CTransaction) : bool :=
  match vin tx with
  | [i] => outpoint_IsNull (prevout i) && (1 <=? Z.of_nat (length (vout tx)))
  | _ => false
  end.

Definition IsCoinStake (tx : CTransaction) : bool :=
  match vin tx, vout tx with
  | i :: _, o0 :: _ :: _ => negb (outpoint_IsNull (prevout i)) && txout_IsEmpty o0
  | _, _ => false
  end.

Definition IsNormalTx (tx : CTransaction) : bool := negb (IsCoinBase tx) && negb (IsCoinStake tx).

(** [HasWitness]: some input's witness stack is not empty. *)
Definition HasWitness (tx : CTransaction) : bool :=
  existsb (fun i => match scriptWitness i with [] => false | _ => true end) (vin tx).

(** ** Block headers *)

Record CBlockHeader := mkHeader {
  hdr_nVersion : Z;
  hashPrevBlock : uint256;
  hashMerkleRoot : uint256;
  hdr_nTime : Z;
  hdr_nBits : Z;
  nNonce : Z;
  hashStateRoot : uint256;
  hashUTXORoot : uint256;
  hdr_prevoutStake : COutPoint;
  vchBlockSig : bytes
}.

(** [CBlockHeader::SetNull], [IsNull], [IsProofOfStake], [IsProofOfWork], [StakeTime] *)
Definition header_null : CBlockHeader :=
  mkHeader 0 uint256_null uint256_null 0 0 0 uint256_null uint256_null outpoint_null [].

Definition header_IsNull (h : CBlockHeader) : bool := hdr_nBits h =? 0.

Definition header_IsProofOfStake (h : CBlockHeader) : bool :=
  negb (outpoint_IsNull (hdr_prevoutStake h)).

Definition header_IsProofOfWork (h : CBlockHeader) : bool := negb (header_IsProofOfStake h).

Definition StakeTime (h : CBlockHeader) : Z :=
  if header_IsProofOfStake h then hdr_nTime h else 0.

Record CBlock := mkBlock { blk_header : CBlockHeader; vtx : list CTransaction }.

(** ** Decidable equality *)

Lemma bytes_eqb_eq a b : bytes_eqb a b = true <-> a = b.
Proof.
  revert b; induction a as [|x a IH]; intros [|y b]; simpl; try (split; congruence).
  rewrite andb_true_iff, Z.eqb_eq, IH. split; [intros [-> ->]; done|]. by intros [= -> ->].
Qed.

#[export] Instance COutPoint_eq_dec : EqDecision COutPoint.
Proof. solve_decision. Defined.

#[export] Instance COutPoint_countable : Countable COutPoint.
Proof.
  refine (inj_countable' (fun o => (op_hash o, op_n o)) (fun p => mkOutPoint p.1 p.2) _).
  by intros [].
Defined.

#[export] Instance CTxOut_eq_dec : EqDecision CTxOut.
Proof. solve_decision. Defined.

#[export] Instance CTxIn_eq_dec : EqDecision CTxIn.
Proof. solve_decision. Defined.

#[export] Instance CTransaction_eq_dec : EqDecision CTransaction.
Proof. solve_decision. Defined.

Lemma outpoint_eqb_eq a b : outpoint_eqb a b = true <-> a = b.
Proof.
  destruct a, b; unfold outpoint_eqb; simpl. rewrite andb_true_iff, bytes_eqb_eq, Z.eqb_eq.
  split; [intros [-> ->]; done|]. by intros [= -> ->].
Qed.

(** A transaction is never a coinbase and a coinstake at once. *)
Lemma coinbase_not_coinstake tx : IsCoinBase tx = true -> IsCoinStake tx = false.
Proof.
  unfold IsCoinBase, IsCoinStake. destruct (vin tx) as [|i [|? ?]]; try done.
  intros [H _]%andb_true_iff. rewrite H. by destruct (vout tx) as [|? [|? ?]].
Qed.
