(* ===== verification/Chain.v ===== *)
(** * Chain: the block index and the active chain of src/src/chain.{h,cpp}

    Block index entries are shared mutable objects linked by the pointers
    [pprev] and [pskip]; they live in a store indexed by pointers.  The
    skip list ([GetSkipHeight], [BuildSkip], [GetAncestor]) is shown
    equivalent to walking [pprev], and the active chain ([CChain]) is
    shown to stay the list of ancestors of its tip. *)

From Stdlib Require Import ZArith List Lia Bool.
From stdpp Require Import base decidable list gmap sorting.
From S2P Require Import Prelude Uint256 Primitives.
Local Open Scope Z_scope.
Local Open Scope outcome_scope.

(** ** Block index entries *)

Abbreviation ptr := positive.

Record CBlockIndex := mkBlockIndex {
  phashBlock : option uint256;
  pprev : option ptr;
  pnext : option ptr;
  pskip : option ptr;
  nHeight : Z;
  nFile : Z;
  nDataPos : Z;
  nUndoPos : Z;
  nChainWork : arith_uint256.base_uint;
  nTx : Z;
  nChainTx : Z;
  nStatus : Z;
  idx_nVersion : Z;
  idx_hashMerkleRoot : uint256;
  nTime : Z;
  nBits : Z;
  idx_nNonce : Z;
  idx_hashStateRoot : uint256;
  idx_hashUTXORoot : uint256;
  idx_vchBlockSig : bytes;
  nStakeModifier : uint256;
  prevoutStake : COutPoint;
  hashProof : uint256;
  nMoneySupply : Z;
  nSequenceId : Z;
  nTimeMax : Z
}.

Abbreviation BlockMap := (gmap ptr CBlockIndex).

(** [p->field], which fails on a dangling pointer. *)
Definition deref (st : gmap ptr CBlockIndex) (p : ptr) : outcome CBlockIndex := of_option (st !! p).

(** [CBlockIndex::SetNull] *)
Definition blockindex_null : CBlockIndex := {|
  phashBlock := None; pprev := None; pnext := None; pskip := None; nHeight := 0;
  nFile := 0; nDataPos := 0; nUndoPos := 0; nChainWork := arith_uint256.zero;
  nTx := 0; nChainTx := 0; nStatus := 0; idx_nVersion := 0; idx_hashMerkleRoot := uint256_null;
  nTime := 0; nBits := 0; idx_nNonce := 0; idx_hashStateRoot := uint256_null;
  idx_hashUTXORoot := uint256_null; idx_vchBlockSig := []; nStakeModifier := uint256_null;
  prevoutStake := outpoint_null; hashProof := uint256_null; nMoneySupply := 0;
  nSequenceId := 0; nTimeMax := 0 |}.

(** The constructor [CBlockIndex(const CBlockHeader&)]. *)
Definition CBlockIndex_of_header (block : CBlockHeader) : CBlockIndex := {|
  phashBlock := None; pprev := None; pnext := None; pskip := None; nHeight := 0;
  nFile := 0; nDataPos := 0; nUndoPos := 0; nChainWork := arith_uint256.zero;
  nTx := 0; nChainTx := 0; nStatus := 0; idx_nVersion := hdr_nVersion block;
  idx_hashMerkleRoot := hashMerkleRoot block;
  nTime := hdr_nTime block; nBits := hdr_nBits block; idx_nNonce := nNonce block;
  idx_hashStateRoot := hashStateRoot block; idx_hashUTXORoot := hashUTXORoot block;
  idx_vchBlockSig := vchBlockSig block; nStakeModifier := uint256_null;
  prevoutStake := hdr_prevoutStake block; hashProof := uint256_null; nMoneySupply := 0;
  nSequenceId := 0; nTimeMax := 0 |}.

Definition set_pskip (b : CBlockIndex) (s : option ptr) : CBlockIndex :=
  mkBlockIndex (phashBlock b) (pprev b) (pnext b) s (nHeight b) (nFile b) (nDataPos b) (nUndoPos b)
    (nChainWork b) (nTx b) (nChainTx b) (nStatus b) (idx_nVersion b) (idx_hashMerkleRoot b)
    (nTime b) (nBits b) (idx_nNonce b) (idx_hashStateRoot b) (idx_hashUTXORoot b)
    (idx_vchBlockSig b) (nStakeModifier b) (prevoutStake b) (hashProof b)
    (nMoneySupply b) (nSequenceId b) (nTimeMax b).

Definition set_nStatus (b : CBlockIndex) (s : Z) : CBlockIndex :=
  mkBlockIndex (phashBlock b) (pprev b) (pnext b) (pskip b) (nHeight b) (nFile b) (nDataPos b)
    (nUndoPos b) (nChainWork b) (nTx b) (nChainTx b) s (idx_nVersion b) (idx_hashMerkleRoot b)
    (nTime b) (nBits b) (idx_nNonce b) (idx_hashStateRoot b) (idx_hashUTXORoot b)
    (idx_vchBlockSig b) (nStakeModifier b) (prevoutStake b) (hashProof b)
    (nMoneySupply b) (nSequenceId b) (nTimeMax b).

Definition GetBlockHash (b : CBlockIndex) : outcome uint256 := of_option (phashBlock b).

Definition HaveTxsDownloaded (b : CBlockIndex) : bool := negb (nChainTx b =? 0).

(** [CBlockIndex::GetBlockHeader] *)
Definition GetBlockHeader (st : gmap ptr CBlockIndex) (b : CBlockIndex) : outcome CBlockHeader :=
  prev <-! match pprev b with
           | Some p => bp <-! deref st p; GetBlockHash bp
           | None => Ok (hashPrevBlock header_null)
           end;
  Ok {| hdr_nVersion := idx_nVersion b; hashPrevBlock := prev; hashMerkleRoot := idx_hashMerkleRoot b;
        hdr_nTime := nTime b; hdr_nBits := nBits b; nNonce := idx_nNonce b;
        hashStateRoot := idx_hashStateRoot b; hashUTXORoot := idx_hashUTXORoot b;
        hdr_prevoutStake := prevoutStake b; vchBlockSig := idx_vchBlockSig b |}.

Definition GetBlockTime (b : CBlockIndex) : Z := nTime b.

Definition GetBlockTimeMax (b : CBlockIndex) : Z := nTimeMax b.

Definition IsProofOfStake (b : CBlockIndex) : bool := negb (outpoint_IsNull (prevoutStake b)).

Definition IsProofOfWork (b : CBlockIndex) : bool := negb (IsProofOfStake b).

(** *** Validity levels *)

Definition BLOCK_VALID_TREE : Z := 2.
Definition BLOCK_VALID_TRANSACTIONS : Z := 3.
Definition BLOCK_VALID_CHAIN : Z := 4.
Definition BLOCK_VALID_SCRIPTS : Z := 5.
Definition BLOCK_VALID_MASK : Z := Z.lor (Z.lor (Z.lor (Z.lor 1 2) 3) 4) 5.
Definition BLOCK_HAVE_DATA : Z := 8.
Definition BLOCK_HAVE_UNDO : Z := 16.
Definition BLOCK_FAILED_VALID : Z := 32.
Definition BLOCK_FAILED_CHILD : Z := 64.
Definition BLOCK_FAILED_MASK : Z := Z.lor BLOCK_FAILED_VALID BLOCK_FAILED_CHILD.

Record FlatFilePos := { pos_nFile : Z; nPos : Z }.

Definition FlatFilePos_null : FlatFilePos := {| pos_nFile := -1; nPos := 0 |}.

Definition GetBlockPos (b : CBlockIndex) : FlatFilePos :=
  if negb (Z.land (nStatus b) BLOCK_HAVE_DATA =? 0)
  then {| pos_nFile := nFile b; nPos := nDataPos b |} else FlatFilePos_null.

Definition GetUndoPos (b : CBlockIndex) : FlatFilePos :=
  if negb (Z.land (nStatus b) BLOCK_HAVE_UNDO =? 0)
  then {| pos_nFile := nFile b; nPos := nUndoPos b |} else FlatFilePos_null.

Definition IsValid (b : CBlockIndex) (nUpTo : Z) : outcome bool :=
  if negb (Z.land nUpTo (u32 (Z.lnot BLOCK_VALID_MASK)) =? 0) then Fail
  else if negb (Z.land (nStatus b) BLOCK_FAILED_MASK =? 0) then Ok false
  else Ok (nUpTo <=? Z.land (nStatus b) BLOCK_VALID_MASK).

(** The new entry and whether the validity was changed. *)
Definition RaiseValidity (b : CBlockIndex) (nUpTo : Z) : outcome (CBlockIndex * bool) :=
  if negb (Z.land nUpTo (u32 (Z.lnot BLOCK_VALID_MASK)) =? 0) then Fail
  else if negb (Z.land (nStatus b) BLOCK_FAILED_MASK =? 0) then Ok (b, false)
  else if Z.land (nStatus b) BLOCK_VALID_MASK <? nUpTo then
    Ok (set_nStatus b (Z.lor (Z.land (nStatus b) (u32 (Z.lnot BLOCK_VALID_MASK))) nUpTo), true)
  else Ok (b, false).

(** ** The skip list *)

Definition InvertLowestOne (n : Z) : Z := Z.land n (n - 1).

Definition GetSkipHeight (height : Z) : Z :=
  if height <? 2 then 0
  else if negb (Z.land height 1 =? 0)
  then InvertLowestOne (InvertLowestOne (height - 1)) + 1
  else InvertLowestOne height.

(** The loop of [GetAncestor]; the height walked from decreases at every
    round, so the difference of the heights is enough fuel. *)
Fixpoint GetAncestor_loop (fuel : nat) (st : gmap ptr CBlockIndex)
    (pindexWalk : ptr) (heightWalk height : Z) : outcome ptr :=
  if heightWalk <=? height then Ok pindexWalk
  else
    match fuel with
    | O => NoFuel
    | S fuel =>
        let heightSkip := GetSkipHeight heightWalk in
        let heightSkipPrev := GetSkipHeight (heightWalk - 1) in
        b <-! deref st pindexWalk;
        match pskip b with
        | Some skip =>
            if (heightSkip =? height) ||
               ((height <? heightSkip) &&
                negb ((heightSkipPrev <? heightSkip - 2) && (height <=? heightSkipPrev)))
            then GetAncestor_loop fuel st skip heightSkip height
            else p <-! of_option (pprev b); GetAncestor_loop fuel st p (heightWalk - 1) height
        | None => p <-! of_option (pprev b); GetAncestor_loop fuel st p (heightWalk - 1) height
        end
    end.

(** [CBlockIndex::GetAncestor]: [None] is the null pointer. *)
Definition GetAncestor (st : gmap ptr CBlockIndex) (this : ptr) (height : Z) : outcome (option ptr) :=
  b <-! deref st this;
  if (nHeight b <? height) || (height <? 0) then Ok None
  else
    p <-! GetAncestor_loop (Z.to_nat (nHeight b - height)) st this (nHeight b) height;
    Ok (Some p).

(** [CBlockIndex::BuildSkip] *)
Definition BuildSkip (st : gmap ptr CBlockIndex) (this : ptr) : outcome (gmap ptr CBlockIndex) :=
  b <-! deref st this;
  match pprev b with
  | None => Ok st
  | Some prev =>
      s <-! GetAncestor st prev (GetSkipHeight (nHeight b));
      Ok (<[this := set_pskip b s]> st)
  end.

(** ** Median time past *)

Definition nMedianTimeSpan : nat := 11.

(** The timestamps of the block and up to [n - 1] predecessors. *)
Fixpoint past_times (n : nat) (st : gmap ptr CBlockIndex) (pindex : option ptr) : outcome (list Z) :=
  match n, pindex with
  | S n, Some p =>
      b <-! deref st p;
      l <-! past_times n st (pprev b);
      Ok (l ++ [GetBlockTime b])
  | _, _ => Ok []
  end.

Definition GetMedianTimePast (st : gmap ptr CBlockIndex) (this : ptr) : outcome Z :=
  l <-! past_times nMedianTimeSpan st (Some this);
  let sorted := merge_sort Z.le l in
  of_option (sorted !! (length sorted / 2)%nat).

(** ** Work *)

Import arith_uint256.

(** [GetBlockProof]; the division cannot throw. *)
Definition GetBlockProof (block : CBlockIndex) : outcome base_uint :=
  let '(bnTarget, fNegative, fOverflow) := SetCompact (nBits block) in
  if fNegative || fOverflow || EqualTo bnTarget 0 then Ok (of_uint64 0)
  else
    q <-! of_option (div (bnot bnTarget) (add bnTarget (of_uint64 1)));
    Ok (add q (of_uint64 1)).

(** [GetBlockProofEquivalentTime] *)
Definition GetBlockProofEquivalentTime (to from tip : CBlockIndex) (nPowTargetSpacing : Z) : outcome Z :=
  let '(r, sign) :=
    if gtb (nChainWork to) (nChainWork from)
    then (sub (nChainWork to) (nChainWork from), 1)
    else (sub (nChainWork from) (nChainWork to), -1) in
  proof <-! GetBlockProof tip;
  r <-! of_option (div (mul r (of_uint64 (u64 nPowTargetSpacing))) proof);
  if 63 <? bits r then Ok (sign * (2 ^ 63 - 1)) else Ok (s64 (u64 (sign * GetLow64 r))).

(** ** Common ancestors *)

Fixpoint LastCommonAncestor_loop (fuel : nat) (st : gmap ptr CBlockIndex) (pa pb : option ptr)
    : outcome (option ptr) :=
  match pa, pb with
  | Some a, Some b =>
      if decide (a = b) then Ok (Some a)
      else match fuel with
           | O => NoFuel
           | S fuel =>
               ba <-! deref st a; bb <-! deref st b;
               LastCommonAncestor_loop fuel st (pprev ba) (pprev bb)
           end
  | _, _ => if decide (pa = pb) then Ok pa else Fail
  end.

(** [LastCommonAncestor]; the final [assert(pa == pb)] is the [Fail] of
    the loop. *)
Definition LastCommonAncestor (st : gmap ptr CBlockIndex) (pa pb : ptr) : outcome (option ptr) :=
  ba <-! deref st pa;
  bb <-! deref st pb;
  pa' <-! (if nHeight bb <? nHeight ba then GetAncestor st pa (nHeight bb) else Ok (Some pa));
  pb' <-! (if negb (nHeight bb <? nHeight ba) && (nHeight ba <? nHeight bb)
           then GetAncestor st pb (nHeight ba) else Ok (Some pb));
  LastCommonAncestor_loop (Z.to_nat (Z.min (nHeight ba) (nHeight bb) + 1)) st pa' pb'.

(** ** The active chain *)

(** [vChain]: entries above a shorter old chain are null until filled. *)
Abbreviation CChain := (list (option ptr)).

Definition Genesis (c : CChain) : option ptr := match c with p :: _ => p | [] => None end.

Definition Tip (c : CChain) : option ptr := match last c with Some p => p | None => None end.

Definition chain_at (c : CChain) (h : Z) : option ptr :=
  if (h <? 0) || (Z.of_nat (length c) <=? h) then None
  else match c !! Z.to_nat h with Some p => p | None => None end.

Definition Height (c : CChain) : Z := Z.of_nat (length c) - 1.

Definition Contains (st : gmap ptr CBlockIndex) (c : CChain) (p : ptr) : outcome bool :=
  b <-! deref st p;
  Ok (bool_decide (chain_at c (nHeight b) = Some p)).

Definition Next (st : gmap ptr CBlockIndex) (c : CChain) (p : ptr) : outcome (option ptr) :=
  inside <-! Contains st c p;
  if inside then b <-! deref st p; Ok (chain_at c (nHeight b + 1)) else Ok None.

(** [vChain.resize(n)] *)
Definition vresize (c : CChain) (n : nat) : CChain := take n c ++ replicate (n - length c) None.

Fixpoint SetTip_loop (fuel : nat) (st : gmap ptr CBlockIndex) (c : CChain) (pindex : option ptr)
    : outcome CChain :=
  match pindex with
  | None => Ok c
  | Some p =>
      b <-! deref st p;
      match c !! Z.to_nat (nHeight b) with
      | None => Fail
      | Some cur =>
          if decide (cur = Some p) then Ok c
          else match fuel with
               | O => NoFuel
               | S fuel => SetTip_loop fuel st (<[Z.to_nat (nHeight b) := Some p]> c) (pprev b)
               end
      end
  end.

(** [CChain::SetTip] *)
Definition SetTip (st : gmap ptr CBlockIndex) (c : CChain) (pindex : option ptr) : outcome CChain :=
  match pindex with
  | None => Ok []
  | Some p =>
      b <-! deref st p;
      let n := Z.to_nat (nHeight b + 1) in
      SetTip_loop n st (vresize c n) (Some p)
  end.

(** [CChain::FindFork] *)
Fixpoint FindFork_loop (fuel : nat) (st : gmap ptr CBlockIndex) (c : CChain) (pindex : option ptr)
    : outcome (option ptr) :=
  match pindex with
  | None => Ok None
  | Some p =>
      inside <-! Contains st c p;
      if inside : bool then Ok (Some p)
      else match fuel with
           | O => NoFuel
           | S fuel => b <-! deref st p; FindFork_loop fuel st c (pprev b)
           end
  end.

Definition FindFork (st : gmap ptr CBlockIndex) (c : CChain) (pindex : option ptr)
    : outcome (option ptr) :=
  match pindex with
  | None => Ok None
  | Some p =>
      b <-! deref st p;
      start <-! (if Height c <? nHeight b then GetAncestor st p (Height c) else Ok (Some p));
      FindFork_loop (Z.to_nat (nHeight b + 1)) st c start
  end.

(** [CChain::GetLocator]: [nHave] is [vHave.size()] after the push. *)
Fixpoint GetLocator_loop (fuel : nat) (st : gmap ptr CBlockIndex) (c : CChain) (pindex : option ptr)
    (nStep nHave : Z) : outcome (list uint256) :=
  match pindex with
  | None => Ok []
  | Some p =>
      b <-! deref st p;
      hash <-! GetBlockHash b;
      if nHeight b =? 0 then Ok [hash]
      else match fuel with
           | O => NoFuel
           | S fuel =>
               let h := Z.max (nHeight b - nStep) 0 in
               inside <-! Contains st c p;
               next <-! (if inside : bool then Ok (chain_at c h) else GetAncestor st p h);
               let nHave := nHave + 1 in
               let nStep := if 10 <? nHave then s32 (nStep * 2) else nStep in
               rest <-! GetLocator_loop fuel st c next nStep nHave;
               Ok (hash :: rest)
           end
  end.

Definition GetLocator (st : gmap ptr CBlockIndex) (c : CChain) (pindex : option ptr)
    : outcome (list uint256) :=
  let start := match pindex with Some p => Some p | None => Tip c end in
  match start with
  | None => Ok []
  | Some p => b <-! deref st p; GetLocator_loop (Z.to_nat (nHeight b)) st c start 1 0
  end.

(** [std::lower_bound]: halves the [count] elements from [first] on; [comp]
    is the comparison of the element at an index with the value. *)
Fixpoint lower_bound_loop (fuel : nat) (comp : nat -> outcome bool) (first count : nat) : outcome nat :=
  match count, fuel with
  | O, _ => Ok first
  | S _, O => NoFuel
  | S _, S fuel =>
      let step := (count / 2)%nat in
      less <-! comp (first + step)%nat;
      if less : bool then lower_bound_loop fuel comp (first + step + 1) (count - (step + 1))
      else lower_bound_loop fuel comp first step
  end.

(** The comparison of the entry at an index with the time and height asked for. *)
Definition entry_before (st : gmap ptr CBlockIndex) (c : CChain) (time height : Z) (i : nat) : outcome bool :=
  e <-! of_option (c !! i);
  pBlock <-! of_option e;
  b <-! deref st pBlock;
  Ok ((GetBlockTimeMax b <? time) || (nHeight b <? height)).

(** [CChain::FindEarliestAtLeast] *)
Definition FindEarliestAtLeast (st : gmap ptr CBlockIndex) (c : CChain) (time height : Z)
    : outcome (option ptr) :=
  lower <-! lower_bound_loop (length c) (entry_before st c time height) 0 (length c);
  if (lower =? length c)%nat then Ok None else of_option (c !! lower).

(** ** Well-formed block maps *)

(** The [n]-th predecessor along [pprev]. *)
Fixpoint walk (st : gmap ptr CBlockIndex) (n : nat) (p : ptr) : option ptr :=
  match n with
  | O => Some p
  | S n =>
      match st !! p with
      | Some b => match pprev b with Some q => walk st n q | None => None end
      | None => None
      end
  end.

(** The tree invariant of the block map: heights count the distance to a
    genesis block, and a skip pointer, where set, leads to the ancestor
    at the skip height. *)
Record wf_block (st : gmap ptr CBlockIndex) (p : ptr) (b : CBlockIndex) : Prop := {
  wf_height : 0 <= nHeight b;
  wf_hash : is_Some (phashBlock b);
  wf_pprev :
    match pprev b with
    | None => nHeight b = 0
    | Some q => exists bq, st !! q = Some bq /\ nHeight bq = nHeight b - 1
    end;
  wf_pskip :
    match pskip b with
    | None => True
    | Some s => 0 < nHeight b /\ walk st (Z.to_nat (nHeight b - GetSkipHeight (nHeight b))) p = Some s
    end
}.

Definition wf_store (st : gmap ptr CBlockIndex) : Prop :=
  forall p b, st !! p = Some b -> wf_block st p b.

Lemma walk_add st n m p :
  walk st (n + m) p = match walk st n p with Some q => walk st m q | None => None end.
Proof.
  revert p; induction n as [|n IH]; intros p; simpl; [done|].
  destruct (st !! p) as [b|]; [|done]. by destruct (pprev b).
Qed.

Lemma walk_height st p b n :
  wf_store st -> st !! p = Some b -> Z.of_nat n <= nHeight b ->
  exists q bq, walk st n p = Some q /\ st !! q = Some bq /\ nHeight bq = nHeight b - Z.of_nat n.
Proof.
  intros Hwf. revert p b; induction n as [|n IH]; intros p b Hp Hn.
  - exists p, b. split_and!; [done|done|lia].
  - simpl. rewrite Hp. destruct (Hwf _ _ Hp) as [H0 _ Hprev _].
    destruct (pprev b) as [q|]; [|lia]. destruct Hprev as (bq & Hq & Hh).
    destruct (IH q bq Hq) as (r & br & ? & ? & ?); [lia|].
    exists r, br. split_and!; [done|done|lia].
Qed.

Lemma walk_inv st p b n q :
  wf_store st -> st !! p = Some b -> walk st n p = Some q ->
  Z.of_nat n <= nHeight b /\ exists bq, st !! q = Some bq /\ nHeight bq = nHeight b - Z.of_nat n.
Proof.
  intros Hwf. revert p b; induction n as [|n IH]; intros p b Hp Hw; simpl in Hw.
  - simplify_eq. destruct (Hwf _ _ Hp). split; [lia|]. exists b. split; [done|lia].
  - rewrite Hp in Hw. destruct (Hwf _ _ Hp) as [H0 _ Hprev _].
    destruct (pprev b) as [r|]; [|done]. destruct Hprev as (br & Hr & Hh).
    destruct (IH r br Hr Hw) as (Hle & bq & Hq & Hhq). split; [lia|].
    exists bq. split; [done|lia].
Qed.

(** ** Skip heights *)

Lemma InvertLowestOne_bounds n : 0 <= n -> 0 <= InvertLowestOne n <= Z.max 0 (n - 1).
Proof.
  intros Hn. unfold InvertLowestOne. split; [apply Z.land_nonneg; lia|].
  destruct (Z.eq_dec n 0) as [->|]; [done|].
  pose proof (land_le_r n (n - 1)). lia.
Qed.

Lemma GetSkipHeight_bounds h : 1 <= h -> 0 <= GetSkipHeight h < h.
Proof.
  intros Hh. unfold GetSkipHeight. destruct (Z.ltb_spec h 2); [lia|].
  destruct (Z.eqb_spec (Z.land h 1) 0); simpl.
  - pose proof (InvertLowestOne_bounds h). lia.
  - pose proof (InvertLowestOne_bounds (h - 1)).
    pose proof (InvertLowestOne_bounds (InvertLowestOne (h - 1))).
    assert (h <> 2) by (intros ->; done). lia.
Qed.

(** One round of [GetAncestor] stays on the path of ancestors. *)
Lemma GetAncestor_loop_spec fuel st p b height :
  wf_store st -> st !! p = Some b -> 0 <= height <= nHeight b ->
  nHeight b - height <= Z.of_nat fuel ->
  exists q, GetAncestor_loop fuel st p (nHeight b) height = Ok q /\
            walk st (Z.to_nat (nHeight b - height)) p = Some q.
Proof.
  intros Hwf. revert p b; induction fuel as [|fuel IH]; intros p b Hp Hh Hf.
  { exists p. simpl. destruct (Z.leb_spec (nHeight b) height); [|lia].
    replace (Z.to_nat (nHeight b - height)) with O by lia. done. }
  cbn [GetAncestor_loop]. destruct (Z.leb_spec (nHeight b) height).
  { exists p. replace (Z.to_nat (nHeight b - height)) with O by lia. done. }
  unfold deref. rewrite Hp. cbn [of_option obind].
  destruct (Hwf _ _ Hp) as [H0 Hhash Hprev Hskip].
  assert (Hback : exists q,
    (r <-! of_option (pprev b); GetAncestor_loop fuel st r (nHeight b - 1) height) = Ok q /\
    walk st (Z.to_nat (nHeight b - height)) p = Some q).
  { destruct (pprev b) as [r|] eqn:Er; [|lia]. destruct Hprev as (br & Hr & Hhr).
    destruct (IH r br Hr) as (q & Hq & Hw); [lia|lia|]. exists q. cbn. rewrite <- Hhr.
    split; [done|].
    replace (Z.to_nat (nHeight b - height)) with (S (Z.to_nat (nHeight br - height))) by lia.
    simpl. by rewrite Hp, Er. }
  destruct (pskip b) as [s|]; [|exact Hback].
  match goal with |- context [if ?c then _ else _] => destruct c eqn:Ec end; [|exact Hback].
  destruct Hskip as [Hpos Hw].
  pose proof (GetSkipHeight_bounds (nHeight b)) as Hbd.
  assert (Hge : height <= GetSkipHeight (nHeight b)) by (bool_to_prop; lia).
  destruct (walk_inv _ _ _ _ _ Hwf Hp Hw) as (_ & bs & Hs & Hhs).
  rewrite Z2Nat.id in Hhs by lia. replace (nHeight b - (nHeight b - _)) with (GetSkipHeight (nHeight b)) in Hhs by lia.
  destruct (IH s bs Hs) as (q & Hq & Hwq); [lia|lia|].
  exists q. rewrite <- Hhs. split; [done|].
  replace (Z.to_nat (nHeight b - height))
    with (Z.to_nat (nHeight b - GetSkipHeight (nHeight b)) + Z.to_nat (nHeight bs - height))%nat by lia.
  by rewrite walk_add, Hw.
Qed.

Lemma GetAncestor_spec st p b height :
  wf_store st -> st !! p = Some b ->
  GetAncestor st p height =
    Ok (if (nHeight b <? height) || (height <? 0) then None
        else walk st (Z.to_nat (nHeight b - height)) p).
Proof.
  intros Hwf Hp. unfold GetAncestor, deref. rewrite Hp. cbn [of_option obind].
  destruct (Z.ltb_spec (nHeight b) height), (Z.ltb_spec height 0); try done.
  destruct (GetAncestor_loop_spec (Z.to_nat (nHeight b - height)) st p b height) as (q & Hq & Hw);
    [done|done|lia|lia|].
  cbn [orb]. by rewrite Hq, Hw.
Qed.

(** ** [BuildSkip] keeps the map well formed *)

Lemma walk_set_pskip st p b s n q :
  st !! p = Some b -> walk (<[p := set_pskip b s]> st) n q = walk st n q.
Proof.
  intros Hp. revert q; induction n as [|n IH]; intros q; simpl; [done|].
  destruct (decide (p = q)) as [->|Hne].
  - rewrite lookup_insert_eq, Hp. simpl. by destruct (pprev b).
  - rewrite lookup_insert_ne by done. destruct (st !! q) as [bq|]; [|done]. by destruct (pprev bq).
Qed.

Lemma wf_store_set_pskip st p b s :
  wf_store st -> st !! p = Some b ->
  match s with
  | None => True
  | Some r => 0 < nHeight b /\ walk st (Z.to_nat (nHeight b - GetSkipHeight (nHeight b))) p = Some r
  end ->
  wf_store (<[p := set_pskip b s]> st).
Proof.
  intros Hwf Hp Hs q bq Hq.
  assert (Hlk : forall r br, st !! r = Some br ->
    exists br', <[p := set_pskip b s]> st !! r = Some br' /\ nHeight br' = nHeight br).
  { intros r br Hr. destruct (decide (p = r)) as [->|].
    - rewrite Hp in Hr. simplify_eq. rewrite lookup_insert_eq. eauto.
    - rewrite lookup_insert_ne by done. eauto. }
  assert (Horig : exists bo, st !! q = Some bo /\ nHeight bq = nHeight bo /\ phashBlock bq = phashBlock bo /\ pprev bq = pprev bo /\
                    (pskip bq = pskip bo \/ (q = p /\ pskip bq = s))).
  { destruct (decide (p = q)) as [->|].
    - rewrite lookup_insert_eq in Hq. simplify_eq. exists b. simpl. split_and!; auto.
    - rewrite lookup_insert_ne in Hq by done. eauto 10. }
  destruct Horig as (bo & Ho & Eh & Ehash & Ep & Es). destruct (Hwf _ _ Ho) as [H0 Hhash Hprev Hskip].
  split.
  - lia.
  - by rewrite Ehash.
  - rewrite Ep. destruct (pprev bo) as [r|]; [|lia]. destruct Hprev as (br & Hr & Hh).
    destruct (Hlk r br Hr) as (br' & Hr' & Hh'). exists br'. split; [done|lia].
  - rewrite Eh. destruct Es as [-> | [-> ->]].
    + destruct (pskip bo); [|done]. by rewrite walk_set_pskip.
    + rewrite Hp in Ho. simplify_eq. destruct s; [|done]. by rewrite walk_set_pskip.
Qed.

(** [BuildSkip] writes at most the skip pointer, and writes the right one. *)
Lemma BuildSkip_eq st p b :
  wf_store st -> st !! p = Some b ->
  BuildSkip st p = Ok st \/
  exists s, BuildSkip st p = Ok (<[p := set_pskip b s]> st) /\
    match s with
    | None => True
    | Some r => 0 < nHeight b /\ walk st (Z.to_nat (nHeight b - GetSkipHeight (nHeight b))) p = Some r
    end.
Proof.
  intros Hwf Hp. destruct (Hwf _ _ Hp) as [H0 _ Hprev _].
  unfold BuildSkip, deref. rewrite Hp. cbn [of_option obind].
  destruct (pprev b) as [q|] eqn:Eq; [right|by left].
  destruct Hprev as (bq & Hq & Hh). destruct (Hwf _ _ Hq) as [H0q _ _ _].
  pose proof (GetSkipHeight_bounds (nHeight b)).
  rewrite (GetAncestor_spec _ _ _ _ Hwf Hq).
  destruct (Z.ltb_spec (nHeight bq) (GetSkipHeight (nHeight b))),
    (Z.ltb_spec (GetSkipHeight (nHeight b)) 0); try lia. cbn [orb obind].
  eexists. split; [done|]. destruct (walk st _ q) as [r|] eqn:Hw; [|done].
  split; [lia|]. rewrite <- Hw.
  replace (Z.to_nat (nHeight b - GetSkipHeight (nHeight b)))
    with (S (Z.to_nat (nHeight bq - GetSkipHeight (nHeight b)))) by lia.
  simpl. by rewrite Hp, Eq.
Qed.

Lemma GetAncestor_ext st st' :
  wf_store st -> wf_store st' -> (forall n q, walk st' n q = walk st n q) ->
  (forall q, option_map nHeight (st' !! q) = option_map nHeight (st !! q)) ->
  forall q h, GetAncestor st' q h = GetAncestor st q h.
Proof.
  intros Hwf Hwf' Hw Hd q h. specialize (Hd q).
  destruct (st !! q) as [bq|] eqn:Eq, (st' !! q) as [bq'|] eqn:Eq'; simplify_eq/=.
  - by rewrite (GetAncestor_spec _ _ _ _ Hwf Eq), (GetAncestor_spec _ _ _ _ Hwf' Eq'), Hw, Hd.
  - unfold GetAncestor, deref. by rewrite Eq, Eq'.
Qed.

(** ** The active chain is the list of its tip's ancestors *)

Definition chain_of (st : gmap ptr CBlockIndex) (c : CChain) (p : ptr) (b : CBlockIndex) : Prop :=
  st !! p = Some b /\ length c = Z.to_nat (nHeight b + 1) /\
  forall n q, walk st n p = Some q -> c !! (Z.to_nat (nHeight b) - n)%nat = Some (Some q).

Definition wf_chain (st : gmap ptr CBlockIndex) (c : CChain) : Prop :=
  c = [] \/ exists p b, chain_of st c p b.

Lemma wf_chain_below st c h q bq k r :
  wf_store st -> wf_chain st c -> c !! h = Some (Some q) ->
  st !! q = Some bq -> Z.to_nat (nHeight bq) = h -> walk st k q = Some r ->
  c !! (h - k)%nat = Some (Some r).
Proof.
  intros Hwf [->|(p & b & Hp & Hl & Hc)] Hlk Hq Hh Hw; [done|].
  destruct (Hwf _ _ Hp) as [H0 _ _ _]. destruct (Hwf _ _ Hq) as [H0q _ _ _].
  assert (h < length c)%nat by (eapply lookup_lt_Some; done).
  destruct (walk_height st p b (Z.to_nat (nHeight b) - h)) as (q' & bq' & Hw' & Hq' & Hh'); auto; [lia|].
  pose proof (Hc _ _ Hw') as Hlk'. replace (_ - (_ - h))%nat with h in Hlk' by lia.
  rewrite Hlk in Hlk'. simplify_eq.
  destruct (walk_inv _ _ _ _ _ Hwf Hq Hw) as [Hk _].
  pose proof (walk_add st (Z.to_nat (nHeight b) - Z.to_nat (nHeight bq)) k p) as Hadd.
  rewrite Hw', Hw in Hadd. specialize (Hc _ _ Hadd).
  by replace (Z.to_nat (nHeight bq) - k)%nat
    with (Z.to_nat (nHeight b) - (Z.to_nat (nHeight b) - Z.to_nat (nHeight bq) + k))%nat by lia.
Qed.

Lemma lookup_vresize c n i x :
  (i < n)%nat -> c !! i = Some (Some x) <-> vresize c n !! i = Some (Some x).
Proof.
  intros Hi. unfold vresize. split; intros H.
  - apply lookup_app_Some. left. by apply lookup_take_Some.
  - apply lookup_app_Some in H as [H|[_ H]].
    + by apply lookup_take_Some in H as [H _].
    + by apply lookup_replicate in H as [? _].
Qed.

Lemma length_vresize c n : length (vresize c n) = n.
Proof. unfold vresize. rewrite length_app, length_take, length_replicate. lia. Qed.

Lemma SetTip_loop_spec st c0 p b fuel n c :
  let len := Z.to_nat (nHeight b + 1) in let h := Z.to_nat (nHeight b) in
  wf_store st -> wf_chain st c0 -> st !! p = Some b ->
  length c = len -> (n + fuel = len)%nat ->
  (forall m q, (m < n)%nat -> walk st m p = Some q -> c !! (h - m)%nat = Some (Some q)) ->
  (forall i, (i + n <= h)%nat -> c !! i = vresize c0 len !! i) ->
  exists c', SetTip_loop fuel st c (walk st n p) = Ok c' /\ chain_of st c' p b.
Proof.
  intros len h Hwf Hc0 Hp. destruct (Hwf _ _ Hp) as [H0 _ _ _].
  revert n c; induction fuel as [|fuel IH]; intros n c Hl Hn Hup Hlow.
  - destruct (walk st n p) as [q|] eqn:Hw.
    { destruct (walk_inv _ _ _ _ _ Hwf Hp Hw). lia. }
    exists c. split; [done|]. split_and!; [done|done|]. intros m q Hm.
    destruct (walk_inv _ _ _ _ _ Hwf Hp Hm). apply Hup; [lia|done].
  - destruct (walk_height st p b n) as (q & bq & Hw & Hq & Hh); [done|done|lia|].
    rewrite Hw. cbn [SetTip_loop]. unfold deref. rewrite Hq. cbn [of_option obind].
    destruct (c !! Z.to_nat (nHeight bq)) as [cur|] eqn:Hcur.
    2:{ apply lookup_ge_None in Hcur. lia. }
    destruct (decide (cur = Some q)) as [->|Hne].
    + exists c. split; [done|]. split_and!; [done|done|]. intros m r Hm.
      destruct (Nat.lt_ge_cases m n) as [|Hge]; [by apply Hup|].
      destruct (walk_inv _ _ _ _ _ Hwf Hp Hm) as [Hmh _].
      replace m with (n + (m - n))%nat in Hm by lia. rewrite walk_add, Hw in Hm.
      rewrite Hlow in Hcur by lia. apply lookup_vresize in Hcur; [|lia].
      pose proof (wf_chain_below _ _ _ _ _ _ _ Hwf Hc0 Hcur Hq eq_refl Hm) as Hlk.
      replace (Z.to_nat (nHeight b) - m)%nat with (Z.to_nat (nHeight bq) - (m - n))%nat by lia.
      rewrite Hlow by lia. rewrite <- lookup_vresize by lia. exact Hlk.
    + destruct (IH (S n) (<[Z.to_nat (nHeight bq) := Some q]> c)) as (c' & Hc' & Hof).
      * by rewrite length_insert.
      * lia.
      * intros m r Hm Hwr. destruct (decide (m = n)) as [->|].
        -- rewrite Hw in Hwr. simplify_eq.
           replace (h - n)%nat with (Z.to_nat (nHeight bq)) by lia.
           apply list_lookup_insert_eq. lia.
        -- rewrite list_lookup_insert_ne by lia. apply Hup; [lia|done].
      * intros i Hi. rewrite list_lookup_insert_ne by lia. apply Hlow; lia.
      * exists c'. split; [|done]. rewrite <- Hc'. f_equal.
        replace (S n) with (n + 1)%nat by lia. rewrite walk_add, Hw. simpl. rewrite Hq.
        by destruct (pprev bq).
Qed.

Lemma SetTip_spec st c p b :
  wf_store st -> wf_chain st c -> st !! p = Some b ->
  exists c', SetTip st c (Some p) = Ok c' /\ chain_of st c' p b.
Proof.
  intros Hwf Hc Hp. destruct (Hwf _ _ Hp) as [H0 _ _ _].
  unfold SetTip, deref. rewrite Hp. cbn [of_option obind].
  apply (SetTip_loop_spec st c p b _ 0); auto.
  - apply length_vresize.
  - intros m q Hm. lia.
Qed.

Lemma chain_of_at st c p b h :
  wf_store st -> chain_of st c p b -> 0 <= h <= nHeight b ->
  chain_at c h = walk st (Z.to_nat (nHeight b - h)) p.
Proof.
  intros Hwf (Hp & Hl & Hc) Hh. unfold chain_at.
  destruct (walk_height st p b (Z.to_nat (nHeight b - h))) as (q & bq & Hw & _); [done|done|lia|].
  pose proof (Hc _ _ Hw) as Hlk. replace (_ - _)%nat with (Z.to_nat h) in Hlk by lia.
  destruct (Z.ltb_spec h 0), (Z.leb_spec (Z.of_nat (length c)) h); try lia. simpl.
  by rewrite Hlk, Hw.
Qed.

Lemma chain_of_Tip st c p b : wf_store st -> chain_of st c p b -> Tip c = Some p.
Proof.
  intros Hwf (Hp & Hl & Hc). destruct (Hwf _ _ Hp) as [H0 _ _ _].
  unfold Tip. rewrite last_lookup, Hl.
  replace (Nat.pred _) with (Z.to_nat (nHeight b) - 0)%nat by lia. by rewrite (Hc O p).
Qed.

Lemma Contains_spec st c p b :
  st !! p = Some b -> Contains st c p = Ok (bool_decide (chain_at c (nHeight b) = Some p)).
Proof. intros Hp. unfold Contains, deref. by rewrite Hp. Qed.

Lemma chain_at_above c h : Height c < h -> chain_at c h = None.
Proof.
  unfold Height, chain_at. intros Hh.
  destruct (Z.ltb_spec h 0), (Z.leb_spec (Z.of_nat (length c)) h); (done || lia).
Qed.

(** ** Ancestors *)

Definition ancestor (st : gmap ptr CBlockIndex) (q p : ptr) : Prop := exists n, walk st n p = Some q.

Lemma walk_step st n p b :
  st !! p = Some b ->
  walk st (S n) p = match pprev b with Some q => walk st n q | None => None end.
Proof. intros Hp. simpl. by rewrite Hp. Qed.

Lemma FindFork_loop_spec st c fuel p b :
  wf_store st -> st !! p = Some b -> nHeight b < Z.of_nat fuel ->
  exists f, FindFork_loop fuel st c (Some p) = Ok f /\
    match f with
    | Some q => exists n, walk st n p = Some q /\ Contains st c q = Ok true /\
                  forall m r, (m < n)%nat -> walk st m p = Some r -> Contains st c r = Ok false
    | None => forall m r, walk st m p = Some r -> Contains st c r = Ok false
    end.
Proof.
  intros Hwf. revert p b; induction fuel as [|fuel IH]; intros p b Hp Hf.
  { destruct (Hwf _ _ Hp). lia. }
  cbn [FindFork_loop]. rewrite (Contains_spec _ _ _ _ Hp). cbn [obind].
  destruct (bool_decide _) eqn:Ein.
  { exists (Some p). split; [done|]. exists O. split_and!; [done| |lia].
    rewrite (Contains_spec _ _ _ _ Hp). by rewrite Ein. }
  assert (Hout : Contains st c p = Ok false) by (rewrite (Contains_spec _ _ _ _ Hp), Ein; done).
  unfold deref. rewrite Hp. cbn [of_option obind]. destruct (Hwf _ _ Hp) as [H0 _ Hprev _].
  destruct (pprev b) as [q|] eqn:Eq.
  - destruct Hprev as (bq & Hq & Hh). destruct (IH q bq Hq) as (f & Hr & Hspec); [lia|].
    exists f. split; [done|]. destruct f as [f|].
    + destruct Hspec as (n & Hw & Hin & Hbefore). exists (S n). split_and!; [|done|].
      * by rewrite (walk_step _ _ _ _ Hp), Eq.
      * intros [|m] r Hm Hwm; [by simplify_eq/=|]. rewrite (walk_step _ _ _ _ Hp), Eq in Hwm.
        apply (Hbefore m); [lia|done].
    + intros [|m] r Hwm; [by simplify_eq/=|]. rewrite (walk_step _ _ _ _ Hp), Eq in Hwm. eauto.
  - exists None. split; [by destruct fuel|]. intros [|m] r Hwm; [by simplify_eq/=|].
    by rewrite (walk_step _ _ _ _ Hp), Eq in Hwm.
Qed.

(** Two ancestors at the same distance from blocks of the same height. *)
Lemma LastCommonAncestor_loop_spec st fuel a ba b bb :
  wf_store st -> st !! a = Some ba -> st !! b = Some bb -> nHeight ba = nHeight bb ->
  nHeight ba < Z.of_nat fuel ->
  exists f, LastCommonAncestor_loop fuel st (Some a) (Some b) = Ok f /\
    match f with
    | Some q => exists n, walk st n a = Some q /\ walk st n b = Some q /\
                  forall m, (m < n)%nat -> walk st m a <> walk st m b
    | None => forall m r, walk st m a = Some r -> walk st m b <> Some r
    end.
Proof.
  intros Hwf. revert a ba b bb; induction fuel as [|fuel IH]; intros a ba b bb Ha Hb Hh Hf.
  { destruct (Hwf _ _ Ha). lia. }
  cbn [LastCommonAncestor_loop]. destruct (decide (a = b)) as [->|Hne].
  { exists (Some b). split; [done|]. exists O. split_and!; [done|done|lia]. }
  unfold deref. rewrite Ha, Hb. cbn [of_option obind].
  destruct (Hwf _ _ Ha) as [_ _ Hpa _]. destruct (Hwf _ _ Hb) as [H0 _ Hpb _].
  destruct (pprev ba) as [a'|] eqn:Ea, (pprev bb) as [b'|] eqn:Eb.
  - destruct Hpa as (ba' & Ha' & Hha), Hpb as (bb' & Hb' & Hhb).
    destruct (IH a' ba' b' bb' Ha' Hb') as (f & Hr & Hspec); [lia|lia|].
    exists f. split; [done|]. destruct f as [f|].
    + destruct Hspec as (n & Hwa & Hwb & Hbefore). exists (S n).
      rewrite (walk_step _ _ _ _ Ha), (walk_step _ _ _ _ Hb), Ea, Eb. split_and!; [done|done|].
      intros [|m] Hm; [by intros ?; simplify_eq/=|].
      rewrite (walk_step _ _ _ _ Ha), (walk_step _ _ _ _ Hb), Ea, Eb. apply Hbefore. lia.
    + intros [|m] r; [by intros ??; simplify_eq/=|].
      rewrite (walk_step _ _ _ _ Ha), (walk_step _ _ _ _ Hb), Ea, Eb. apply Hspec.
  - destruct Hpa as (ba' & Ha' & Hha). destruct (Hwf _ _ Ha'). lia.
  - destruct Hpb as (bb' & Hb' & Hhb). destruct (Hwf _ _ Hb'). lia.
  - exists None. split; [by destruct fuel|]. intros [|m] r; [by intros ??; simplify_eq/=|].
    by rewrite (walk_step _ _ _ _ Ha), Ea.
Qed.

(** The ancestor of [p] that is also the one of its own ancestor. *)
Lemma ancestor_trans st p q r : ancestor st q p -> ancestor st r q -> ancestor st r p.
Proof. intros [n Hn] [m Hm]. exists (n + m)%nat. by rewrite walk_add, Hn. Qed.

Lemma ancestor_below st p b q bq r br :
  wf_store st -> st !! p = Some b -> st !! q = Some bq -> st !! r = Some br ->
  ancestor st q p -> ancestor st r p -> nHeight br <= nHeight bq -> ancestor st r q.
Proof.
  intros Hwf Hp Hq Hr [n Hn] [m Hm] Hle.
  destruct (walk_inv _ _ _ _ _ Hwf Hp Hn) as (_ & bq' & Hq' & Hhq).
  destruct (walk_inv _ _ _ _ _ Hwf Hp Hm) as (_ & br' & Hr' & Hhr). simplify_eq.
  exists (m - n)%nat. replace m with (n + (m - n))%nat in Hm by lia. by rewrite walk_add, Hn in Hm.
Qed.

Lemma GetAncestor_ancestor st p b h :
  wf_store st -> st !! p = Some b -> 0 <= h <= nHeight b ->
  exists q bq, GetAncestor st p h = Ok (Some q) /\ st !! q = Some bq /\ nHeight bq = h /\
    ancestor st q p.
Proof.
  intros Hwf Hp Hh.
  destruct (walk_height st p b (Z.to_nat (nHeight b - h))) as (q & bq & Hw & Hq & Hhq);
    [done|done|lia|].
  exists q, bq. rewrite (GetAncestor_spec _ _ _ _ Hwf Hp), Hw.
  destruct (Z.ltb_spec (nHeight b) h), (Z.ltb_spec h 0); try lia.
  split_and!; [done|done|lia|by eexists].
Qed.

Lemma LastCommonAncestor_level st a ba b bb :
  wf_store st -> st !! a = Some ba -> st !! b = Some bb ->
  let h := Z.min (nHeight ba) (nHeight bb) in
  exists a' ba' b' bb',
    st !! a' = Some ba' /\ nHeight ba' = h /\ ancestor st a' a /\
    st !! b' = Some bb' /\ nHeight bb' = h /\ ancestor st b' b /\
    LastCommonAncestor st a b = LastCommonAncestor_loop (Z.to_nat (h + 1)) st (Some a') (Some b').
Proof.
  intros Hwf Ha Hb h. destruct (Hwf _ _ Ha) as [H0a _ _ _], (Hwf _ _ Hb) as [H0b _ _ _].
  destruct (GetAncestor_ancestor st a ba h) as (a' & ba' & Ea & Ha' & Hha & Haa); [done|done|lia|].
  destruct (GetAncestor_ancestor st b bb h) as (b' & bb' & Eb & Hb' & Hhb & Hbb); [done|done|lia|].
  unfold LastCommonAncestor, deref. rewrite Ha, Hb. cbn [of_option obind].
  destruct (Z.ltb_spec (nHeight bb) (nHeight ba)); cbn [negb andb].
  - exists a', ba', b, bb. replace (nHeight bb) with h at 2 by lia. rewrite Ea. cbn [obind].
    split_and!; try done; [lia|]. by exists O.
  - cbn [obind]. destruct (Z.ltb_spec (nHeight ba) (nHeight bb)).
    + exists a, ba, b', bb'. replace (nHeight ba) with h at 2 by lia. rewrite Eb. cbn [obind].
      split_and!; try done; [lia|]. by exists O.
    + exists a, ba, b, bb. cbn [obind]. split_and!; try done; try lia; by exists O.
Qed.

(** A common ancestor is below both blocks. *)
Lemma ancestor_height st p b q :
  wf_store st -> st !! p = Some b -> ancestor st q p ->
  exists bq, st !! q = Some bq /\ nHeight bq <= nHeight b.
Proof.
  intros Hwf Hp [n Hn]. destruct (walk_inv _ _ _ _ _ Hwf Hp Hn) as (? & bq & ? & ?).
  exists bq. split; [done|lia].
Qed.

(** On one path the distance is given by the heights. *)
Lemma ancestor_distance st p b q bq :
  wf_store st -> st !! p = Some b -> st !! q = Some bq -> ancestor st q p ->
  walk st (Z.to_nat (nHeight b - nHeight bq)) p = Some q.
Proof.
  intros Hwf Hp Hq [n Hn]. destruct (walk_inv _ _ _ _ _ Hwf Hp Hn) as (? & bq' & ? & ?).
  simplify_eq. by replace (Z.to_nat (nHeight b - nHeight bq)) with n by lia.
Qed.

(** Common ancestors of two blocks are found at one distance from their
    ancestors at the smaller height. *)
Lemma common_ancestor_level st a ba b bb a' ba' b' bb' r :
  wf_store st -> st !! a = Some ba -> st !! b = Some bb ->
  st !! a' = Some ba' -> nHeight ba' = Z.min (nHeight ba) (nHeight bb) -> ancestor st a' a ->
  st !! b' = Some bb' -> nHeight bb' = Z.min (nHeight ba) (nHeight bb) -> ancestor st b' b ->
  ancestor st r a -> ancestor st r b ->
  exists m, walk st m a' = Some r /\ walk st m b' = Some r.
Proof.
  intros Hwf Ha Hb Ha' Hha Haa Hb' Hhb Hbb Hra Hrb.
  destruct (ancestor_height _ _ _ _ Hwf Ha Hra) as (br & Hr & Hla).
  destruct (ancestor_height _ _ _ _ Hwf Hb Hrb) as (br' & Hr' & Hlb). simplify_eq.
  exists (Z.to_nat (nHeight ba' - nHeight br)). split; [|rewrite Hha, <- Hhb].
  - apply ancestor_distance; try done. eapply (ancestor_below _ a ba); try done. lia.
  - apply ancestor_distance; try done. eapply (ancestor_below _ b bb); try done. lia.
Qed.

Lemma chain_of_GetAncestor st c p b h :
  wf_store st -> chain_of st c p b -> GetAncestor st p h = Ok (chain_at c h).
Proof.
  intros Hwf Hof. pose proof Hof as (Hp & Hl & _). destruct (Hwf _ _ Hp) as [H0 _ _ _].
  rewrite (GetAncestor_spec _ _ _ _ Hwf Hp).
  destruct (Z.ltb_spec (nHeight b) h), (Z.ltb_spec h 0); cbn [orb]; try lia.
  - by rewrite chain_at_above by (unfold Height; lia).
  - unfold chain_at. by destruct (Z.ltb_spec h 0); [|lia].
  - by rewrite (chain_of_at _ _ _ _ _ Hwf Hof).
Qed.

Lemma FindFork_spec st c p b :
  wf_store st -> st !! p = Some b ->
  exists f, FindFork st c (Some p) = Ok f /\
    match f with
    | Some q => exists n, walk st n p = Some q /\ Contains st c q = Ok true /\
                  forall m r, (m < n)%nat -> walk st m p = Some r -> Contains st c r = Ok false
    | None => forall m r, walk st m p = Some r -> Contains st c r = Ok false
    end.
Proof.
  intros Hwf Hp. destruct (Hwf _ _ Hp) as [H0 _ _ _].
  unfold FindFork, deref. rewrite Hp. cbn [of_option obind].
  destruct (Z.ltb_spec (Height c) (nHeight b)); cbn [obind];
    [|apply FindFork_loop_spec with b; [done|done|lia]].
  assert (Hhigh : forall m r, walk st m p = Some r -> Height c < nHeight b - Z.of_nat m ->
    Contains st c r = Ok false).
  { intros m r Hm Hlt. destruct (walk_inv _ _ _ _ _ Hwf Hp Hm) as (_ & br & Hr & Hhr).
    rewrite (Contains_spec _ _ _ _ Hr), chain_at_above by lia. done. }
  assert (Hc : -1 <= Height c) by (unfold Height; lia).
  destruct (Z.eq_dec (Height c) (-1)) as [Em|Hne].
  { rewrite (GetAncestor_spec _ _ _ _ Hwf Hp), Em. exists None. rewrite orb_true_r. split.
    - cbn [obind]. by destruct (Z.to_nat (nHeight b + 1)).
    - intros m r Hm. destruct (walk_inv _ _ _ _ _ Hwf Hp Hm). apply (Hhigh m); [done|lia]. }
  destruct (GetAncestor_ancestor st p b (Height c)) as (q & bq & -> & Hq & Hhq & Ha); [done|done|lia|].
  pose proof (ancestor_distance _ _ _ _ _ Hwf Hp Hq Ha) as Hd. set (k := Z.to_nat (nHeight b - nHeight bq)) in *.
  destruct (FindFork_loop_spec st c (Z.to_nat (nHeight b + 1)) q bq) as (f & Hf & Hspec); [done|done|lia|].
  assert (Hsplit : forall m r, walk st m p = Some r -> (m < k)%nat \/ (k <= m)%nat /\ walk st (m - k) q = Some r).
  { intros m r Hm. destruct (Nat.lt_ge_cases m k); [by left|right].
    replace m with (k + (m - k))%nat in Hm by lia. by rewrite walk_add, Hd in Hm. }
  cbn [obind]. exists f. split; [done|]. destruct f as [f|].
  - destruct Hspec as (n & Hn & Hin & Hbefore). exists (k + n)%nat. rewrite walk_add, Hd. split_and!; [done|done|].
    intros m r Hmn Hm. destruct (Hsplit m r Hm) as [|[? Hq']]; [apply (Hhigh m); [done|lia]|].
    apply (Hbefore (m - k)%nat); [lia|done].
  - intros m r Hm. destruct (Hsplit m r Hm) as [|[? Hq']]; [apply (Hhigh m); [done|lia]|eauto].
Qed.

(** ** Work arithmetic *)

Lemma compact_value_nonneg c : in_u 32 c -> 0 <= compact_value c.
Proof.
  intros Hc. destruct (compact_parts c Hc) as (_ & _ & He & Hm). unfold compact_value.
  destruct (Z.leb_spec (compact_exp c) 3).
  - apply Z.div_pos; [lia|apply Z.pow_pos_nonneg; lia].
  - apply Z.mul_nonneg_nonneg; [lia|apply Z.pow_nonneg; lia].
Qed.

Lemma compact_value_lt_max c :
  in_u 32 c -> compact_value c < 2 ^ 256 -> compact_value c < 2 ^ 256 - 1.
Proof.
  intros Hc Hlt. destruct (compact_parts c Hc) as (_ & _ & He & Hm).
  unfold compact_value in *. destruct (Z.leb_spec (compact_exp c) 3).
  - assert (0 < 256 ^ (3 - compact_exp c)) by (apply Z.pow_pos_nonneg; lia).
    assert (compact_mant c / 256 ^ (3 - compact_exp c) <= compact_mant c) by (apply Z.div_le_upper_bound; nia).
    lia.
  - replace (compact_exp c - 3) with (Z.succ (compact_exp c - 4)) in * by lia.
    rewrite Z.pow_succ_r in * by lia. lia.
Qed.

(** The work of a block: its target inverted. *)
Definition block_work (b : CBlockIndex) : Z :=
  let v := compact_value (nBits b) in
  if (v =? 0) || Z.testbit (nBits b) 23 || (2 ^ 256 <=? v) then 0 else 2 ^ 256 / (v + 1).

Lemma no_work : exists w, Ok (of_uint64 0) = Ok w /\ wf w /\ val w = 0.
Proof. exists (of_uint64 0). split_and!; [done|apply of_uint64_wf|done]. Qed.

Lemma GetBlockProof_spec b :
  in_u 32 (nBits b) ->
  exists w, GetBlockProof b = Ok w /\ wf w /\ val w = block_work b.
Proof.
  intros Hb. unfold GetBlockProof, block_work. pose proof (SetCompact_spec _ Hb) as Hs.
  destruct (SetCompact (nBits b)) as [[t neg] ovf]. destruct Hs as (Wt & Vt & -> & ->).
  rewrite (EqualTo_spec t 0 Wt) by (split; lia). pose proof (val_wf t Wt) as Rt.
  pose proof (compact_value_lt_max _ Hb) as Hmax. set (v := compact_value (nBits b)) in *.
  pose proof (compact_value_nonneg _ Hb : 0 <= v).
  destruct (Z.leb_spec (2 ^ 256) v); [rewrite !orb_true_r; exact no_work|].
  rewrite Z.mod_small in Vt by lia. rewrite Vt. rewrite !orb_false_r.
  destruct (Z.eqb_spec v 0); [rewrite orb_true_r; exact no_work|].
  cbn [negb andb]. rewrite orb_false_r.
  destruct (Z.testbit (nBits b) 23); [exact no_work|]. cbn [orb].
  destruct (bnot_wf_spec t Wt) as [Wn Vn].
  destruct (add_spec t (of_uint64 1) Wt (of_uint64_wf 1)) as [Wa Va].
  rewrite of_uint64_val, Z.mod_small in Va by (unfold in_u; lia).
  pose proof (div_spec _ _ Wn Wa) as Hd. destruct (div _ _) as [q|]; [|lia]. destruct Hd as (_ & Wq & Vq).
  cbn [of_option obind]. destruct (add_spec q (of_uint64 1) Wq (of_uint64_wf 1)) as [Wr Vr].
  eexists. split; [done|]. split; [done|]. rewrite Vr, Vq, Va, Vn, Vt, of_uint64_val by (unfold in_u; lia).
  replace (2 ^ 256) with ((2 ^ 256 - 1 - v) + 1 * (v + 1)) at 3 by lia. rewrite Z.div_add by lia.
  apply Z.mod_small. assert ((2 ^ 256 - 1 - v) / (v + 1) < 2 ^ 256 - 1) by (apply Z.div_lt_upper_bound; nia).
  pose proof (Z.div_pos (2 ^ 256 - 1 - v) (v + 1)). lia.
Qed.

(** ** Searching by time *)

Lemma lower_bound_loop_spec comp n fuel first count :
  (forall i, (i < n)%nat -> exists v, comp i = Ok v) ->
  (forall i j, (i < j)%nat -> (j < n)%nat -> comp j = Ok true -> comp i = Ok true) ->
  (count <= fuel)%nat -> (first + count <= n)%nat ->
  (forall i, (i < first)%nat -> comp i = Ok true) ->
  (forall i, (first + count <= i)%nat -> (i < n)%nat -> comp i = Ok false) ->
  exists k, lower_bound_loop fuel comp first count = Ok k /\ (k <= n)%nat /\
    (forall i, (i < k)%nat -> comp i = Ok true) /\
    (forall i, (k <= i)%nat -> (i < n)%nat -> comp i = Ok false).
Proof.
  intros Htot Hmono. revert first count; induction fuel as [|fuel IH]; intros first count Hf Hn Hlo Hhi.
  { destruct count; [|lia]. exists first. split_and!; [done|lia|done|].
    intros i Hi. apply Hhi. lia. }
  destruct count as [|count].
  { exists first. split_and!; [done|lia|done|]. intros i Hi. apply Hhi. lia. }
  cbn [lower_bound_loop]. set (step := (S count / 2)%nat).
  assert (step < S count)%nat by (apply Nat.div_lt; lia).
  destruct (Htot (first + step)%nat) as [v Hv]; [lia|]. rewrite Hv. cbn [obind]. destruct v.
  - apply IH; [lia|lia| |].
    + intros i Hi. destruct (decide (i = first + step)%nat) as [->|]; [done|].
      apply (Hmono _ (first + step)%nat); [lia|lia|done].
    + intros i Hi. apply Hhi. lia.
  - apply IH; [lia|lia|done|]. intros i Hi Hin.
    destruct (decide (i = first + step)%nat) as [->|]; [done|].
    destruct (Htot i Hin) as [[] Hi']; [|done].
    rewrite (Hmono (first + step)%nat i) in Hv; [done|lia|lia|done].
Qed.

(** [nTimeMax] is the running maximum of the timestamps along [pprev]. *)
Definition timemax_ok (st : gmap ptr CBlockIndex) : Prop :=
  forall p b q bq, st !! p = Some b -> pprev b = Some q -> st !! q = Some bq ->
    nTimeMax b = Z.max (nTimeMax bq) (nTime b).

Lemma timemax_mono st p b n q bq :
  wf_store st -> timemax_ok st -> st !! p = Some b -> walk st n p = Some q -> st !! q = Some bq ->
  nTimeMax bq <= nTimeMax b.
Proof.
  intros Hwf Ht. revert p b; induction n as [|n IH]; intros p b Hp Hw Hq.
  { simplify_eq/=. lia. }
  rewrite (walk_step _ _ _ _ Hp) in Hw. destruct (Hwf _ _ Hp) as [_ _ Hprev _].
  destruct (pprev b) as [r|] eqn:Er; [|done]. destruct Hprev as (br & Hr & _).
  pose proof (Ht _ _ _ _ Hp Er Hr). pose proof (IH _ _ Hr Hw Hq). lia.
Qed.

(** The entry of the chain at an index. *)
Lemma chain_of_entry st c p b i :
  wf_store st -> chain_of st c p b -> (i < length c)%nat ->
  exists q bq, c !! i = Some (Some q) /\ st !! q = Some bq /\ nHeight bq = Z.of_nat i /\
    walk st (Z.to_nat (nHeight b) - i) p = Some q.
Proof.
  intros Hwf (Hp & Hl & Hc) Hi. destruct (Hwf _ _ Hp) as [H0 _ _ _].
  destruct (walk_height st p b (Z.to_nat (nHeight b) - i)) as (q & bq & Hw & Hq & Hh); [done|done|lia|].
  exists q, bq. pose proof (Hc _ _ Hw) as Hlk. replace (_ - (_ - i))%nat with i in Hlk by lia.
  split_and!; [done|done|lia|done].
Qed.

(** The block has the time and the height asked for. *)
Definition reached (st : gmap ptr CBlockIndex) (time height : Z) (q : ptr) : bool :=
  match st !! q with
  | Some bq => (time <=? nTimeMax bq) && (height <=? nHeight bq)
  | None => false
  end.

Lemma entry_before_spec st c p b time height i q :
  wf_store st -> chain_of st c p b -> c !! i = Some (Some q) ->
  entry_before st c time height i = Ok (negb (reached st time height q)).
Proof.
  intros Hwf Hof Hi. destruct (chain_of_entry _ _ _ _ i Hwf Hof) as (q' & bq & Hi' & Hq & _).
  { by eapply lookup_lt_Some. }
  simplify_eq. unfold entry_before, reached, deref. rewrite Hi. cbn [of_option obind].
  rewrite Hq. cbn [of_option obind]. unfold GetBlockTimeMax. by rewrite negb_andb, <- !Z.ltb_antisym.
Qed.

Lemma entry_before_mono st c p b time height i j :
  wf_store st -> timemax_ok st -> chain_of st c p b -> (i < j)%nat -> (j < length c)%nat ->
  entry_before st c time height j = Ok true -> entry_before st c time height i = Ok true.
Proof.
  intros Hwf Ht Hof Hij Hj.
  destruct (chain_of_entry _ _ _ _ i Hwf Hof) as (q & bq & Hl & Hq & Hh & Hw); [lia|].
  destruct (chain_of_entry _ _ _ _ j Hwf Hof Hj) as (q' & bq' & Hl' & Hq' & Hh' & Hw').
  rewrite (entry_before_spec _ _ _ _ _ _ _ _ Hwf Hof Hl), (entry_before_spec _ _ _ _ _ _ _ _ Hwf Hof Hl').
  unfold reached. rewrite Hq, Hq'.
  destruct Hof as (Hp & Hlen & _). destruct (Hwf _ _ Hp) as [H0 _ _ _].
  assert (Hw2 : walk st (j - i) q' = Some q).
  { replace (Z.to_nat (nHeight b) - i)%nat with (Z.to_nat (nHeight b) - j + (j - i))%nat in Hw by lia.
    by rewrite walk_add, Hw' in Hw. }
  pose proof (timemax_mono _ _ _ _ _ _ Hwf Ht Hq' Hw2 Hq).
  destruct (Z.leb_spec time (nTimeMax bq)), (Z.leb_spec height (nHeight bq)),
    (Z.leb_spec time (nTimeMax bq')), (Z.leb_spec height (nHeight bq')); simpl; congruence || lia.
Qed.

(** ** Median time *)

Lemma past_times_spec st n p b :
  wf_store st -> st !! p = Some b -> exists l, past_times (S n) st (Some p) = Ok (l ++ [GetBlockTime b]).
Proof.
  intros Hwf. revert p b; induction n as [|n IH]; intros p b Hp; cbn [past_times]; unfold deref;
    rewrite Hp; cbn [of_option obind].
  - exists []. by destruct (pprev b).
  - destruct (Hwf _ _ Hp) as [_ _ Hprev _]. destruct (pprev b) as [q|]; [|by exists []].
    destruct Hprev as (bq & Hq & _). destruct (IH q bq Hq) as [l Hl].
    cbn [past_times] in Hl. unfold deref in Hl. rewrite Hl. cbn [obind]. by eexists.
Qed.

Lemma GetMedianTimePast_total st p b :
  wf_store st -> st !! p = Some b -> exists m, GetMedianTimePast st p = Ok m.
Proof.
  intros Hwf Hp. unfold GetMedianTimePast. destruct (past_times_spec st 10 p b Hwf Hp) as [l Hl].
  unfold nMedianTimeSpan. rewrite Hl. cbn [obind].
  destruct (lookup_lt_is_Some_2 (merge_sort Z.le (l ++ [GetBlockTime b]))
    (length (merge_sort Z.le (l ++ [GetBlockTime b])) / 2)) as [m Hm].
  - apply Nat.div_lt; [|lia]. rewrite merge_sort_Permutation, length_app. simpl. lia.
  - rewrite Hm. by exists m.
Qed.

(** ** Locators *)

Inductive descends (st : gmap ptr CBlockIndex) : list ptr -> Prop :=
| descends_genesis q bq : st !! q = Some bq -> nHeight bq = 0 -> descends st [q]
| descends_step q bq r br l :
    st !! q = Some bq -> st !! r = Some br -> nHeight br < nHeight bq -> ancestor st r q ->
    descends st (r :: l) -> descends st (q :: r :: l).

Definition has_hash (st : gmap ptr CBlockIndex) (h : uint256) (q : ptr) : Prop :=
  exists b, st !! q = Some b /\ phashBlock b = Some h.

(** The successor of [p] in a locator is its ancestor, whichever way it is found. *)
Lemma locator_next st c p b h :
  wf_store st -> wf_chain st c -> st !! p = Some b -> 0 <= h < nHeight b ->
  exists q bq,
    (inside <-! Contains st c p; if inside : bool then Ok (chain_at c h) else GetAncestor st p h) = Ok (Some q) /\
    st !! q = Some bq /\ nHeight bq = h /\ ancestor st q p.
Proof.
  intros Hwf Hc Hp Hh.
  destruct (GetAncestor_ancestor st p b h) as (q & bq & Hq & Hlk & Hhq & Ha); [done|done|lia|].
  exists q, bq. rewrite (Contains_spec _ _ _ _ Hp). cbn [obind].
  split_and!; try done. destruct (bool_decide _) eqn:Ein; [|done].
  apply bool_decide_eq_true in Ein. unfold chain_at in Ein.
  destruct ((nHeight b <? 0) || (Z.of_nat (length c) <=? nHeight b)) eqn:Er; [done|]. bool_to_prop.
  destruct (c !! Z.to_nat (nHeight b)) as [e|] eqn:Ee; [subst e|done].
  pose proof (ancestor_distance _ _ _ _ _ Hwf Hp Hlk Ha) as Hd.
  pose proof (wf_chain_below _ _ _ _ _ _ _ Hwf Hc Ee Hp eq_refl Hd) as Hb.
  replace (Z.to_nat (nHeight b) - _)%nat with (Z.to_nat h) in Hb by lia. unfold chain_at. rewrite Hb.
  by destruct (Z.ltb_spec h 0), (Z.leb_spec (Z.of_nat (length c)) h); try lia.
Qed.

(** [j] counts the single steps left, [m] the doublings that are enough. *)
Lemma GetLocator_loop_spec st c fuel p b s k (j m : nat) :
  wf_store st -> wf_chain st c -> st !! p = Some b -> nHeight b <= Z.of_nat fuel ->
  (((0 < j)%nat /\ k = 10 - Z.of_nat j /\ s = 1) \/ (j = O /\ 10 <= k)) ->
  1 <= s -> nHeight b + s < 2 ^ 31 -> nHeight b <= s * (2 ^ Z.of_nat m - 1) ->
  exists l ps, GetLocator_loop fuel st c (Some p) s k = Ok l /\ Forall2 (has_hash st) l (p :: ps) /\
    descends st (p :: ps) /\ (length l <= j + m + 1)%nat.
Proof.
  intros Hwf Hc. revert p b s k j m; induction fuel as [|fuel IH]; intros p b s k j m Hp Hf Hj Hs Hb Hm;
    destruct (Hwf _ _ Hp) as [H0 [hash Hhash] _ _]; cbn [GetLocator_loop]; unfold deref, GetBlockHash;
    rewrite Hp; cbn [of_option obind]; rewrite Hhash; cbn [of_option obind].
  all: destruct (Z.eqb_spec (nHeight b) 0) as [Ez|Hnz]; [|try lia].
  1,2: exists [hash], []; split_and!; [done|constructor; [by exists b|constructor]|by econstructor|simpl; lia].
  set (h := Z.max (nHeight b - s) 0).
  destruct (locator_next st c p b h) as (q & bq & Hq & Hlk & Hh & Ha); [done|done|done|lia|].
  set (s' := if 10 <? k + 1 then s32 (s * 2) else s).
  assert (Hnext : exists j' m', (((0 < j')%nat /\ k + 1 = 10 - Z.of_nat j' /\ s' = 1) \/ (j' = O /\ 10 <= k + 1)) /\
            (nHeight bq = 0 \/ (1 <= s' /\ nHeight bq + s' < 2 ^ 31 /\ nHeight bq <= s' * (2 ^ Z.of_nat m' - 1))) /\
            (j' + m' + 1 < j + m + 1)%nat).
  { unfold s'. destruct Hj as [(Hj & -> & ->)|[-> Hk]].
    - exists (j - 1)%nat, m. destruct (Z.ltb_spec 10 (10 - Z.of_nat j + 1)); [lia|]. split_and!; [|right|]; lia.
    - destruct (Z.ltb_spec 10 (k + 1)); [|lia]. destruct m as [|m]; [simpl in Hm; lia|].
      exists O, m. split; [right; lia|]. split; [|lia]. destruct (Z.le_gt_cases (nHeight b) s); [left; lia|right].
      rewrite (swrap_small 32) by (unfold in_s; lia).
      rewrite Nat2Z.inj_succ, Z.pow_succ_r in Hm by lia. split_and!; [lia|lia|]. nia. }
  destruct Hnext as (j' & m' & Hj' & Hok & Hlt).
  assert (Hrec : exists l ps, GetLocator_loop fuel st c (Some q) s' (k + 1) = Ok l /\
            Forall2 (has_hash st) l (q :: ps) /\ descends st (q :: ps) /\ (length l <= j' + m' + 1)%nat).
  { destruct Hok as [Hz|(Hs' & Hb' & Hm')]; [|apply (IH q bq); [done|lia|done..]].
    destruct (Hwf _ _ Hlk) as [_ [hq Hhq] _ _].
    destruct fuel; cbn [GetLocator_loop]; unfold deref, GetBlockHash; rewrite Hlk; cbn [of_option obind];
      rewrite Hhq; cbn [of_option obind]; rewrite Hz; exists [hq], []; split_and!; try done;
      try (constructor; [by exists bq|constructor]); try (by econstructor); simpl; lia. }
  destruct Hrec as (l & ps & Hr & Hl & Hd & Hlen). destruct (Contains st c p) as [ins| |]; try done.
  cbn [obind] in Hq |- *. rewrite Hq. cbn [obind]. fold s'. rewrite Hr. cbn [obind].
  exists (hash :: l), (q :: ps). split_and!; [done| | |simpl; lia].
  - constructor; [by exists b|done].
  - econstructor; try done. lia.
Qed.

(** * Properties *)

(** A small block tree for the examples: 1 <- 2 <- 3 <- 4 and the fork
    2 <- 5 <- 6. *)
Definition example_index (tag height : Z) (prev skip : option ptr) (time : Z) : CBlockIndex :=
  mkBlockIndex (Some (repeat tag 32)) prev None skip height 0 8 8 (of_uint64 0) 1 1 0x1d
    0x20000000 (repeat tag 32) time 0x1d00ffff 0 uint256_null uint256_null [] uint256_null
    outpoint_null uint256_null 0 0 time.

Definition example_store : gmap ptr CBlockIndex :=
  <[1%positive := example_index 1 0 None None 100]>
  (<[2%positive := example_index 2 1 (Some 1%positive) None 110]>
  (<[3%positive := example_index 3 2 (Some 2%positive) (Some 1%positive) 120]>
  (<[4%positive := example_index 4 3 (Some 3%positive) (Some 2%positive) 130]>
  (<[5%positive := example_index 5 2 (Some 2%positive) None 125]>
  (<[6%positive := example_index 6 3 (Some 5%positive) None 140]> ∅))))).

Lemma example_store_wf : wf_store example_store.
Proof.
  intros p b H. unfold example_store in H.
  repeat (apply lookup_insert_Some in H as [[<- <-]|[_ H]];
    [split; [vm_compute; congruence|by eexists|try reflexivity; eexists; split; vm_compute; reflexivity
            |try exact I; vm_compute; split; reflexivity]|]).
  by rewrite lookup_empty in H.
Qed.

Lemma example_store_timemax : timemax_ok example_store.
Proof.
  intros p b q bq H Hprev Hq. unfold example_store in H.
  repeat (apply lookup_insert_Some in H as [[<- <-]|[_ H]];
    [simplify_eq/=; vm_compute in Hq; simplify_eq/=; reflexivity|]).
  by rewrite lookup_empty in H.
Qed.

(** C19: looking an ancestor up through the skip list gives the block that
    walking [pprev] gives, null exactly when the height is negative or
    above the block, and the lookup always terminates. *)
Theorem GetAncestor_equals_pprev_walk st p b height :
  wf_store st -> st !! p = Some b ->
  GetAncestor st p height =
    Ok (if (nHeight b <? height) || (height <? 0) then None
        else walk st (Z.to_nat (nHeight b - height)) p).
Proof. apply GetAncestor_spec. Qed.

Lemma GetAncestor_equals_pprev_walk_witness :
  GetAncestor example_store 4%positive 1 = Ok (Some 2%positive) /\
  GetAncestor example_store 6%positive 4 = Ok None.
Proof.
  split; (erewrite GetAncestor_equals_pprev_walk; [|exact example_store_wf|reflexivity]); reflexivity.
Defined.

(** [BuildSkip] on a block of a well-formed map terminates, keeps the
    map well formed and changes no ancestor. *)
Theorem BuildSkip_preserves_block_tree st p b :
  wf_store st -> st !! p = Some b ->
  exists st', BuildSkip st p = Ok st' /\ wf_store st' /\
    (forall n q, walk st' n q = walk st n q) /\
    (forall q h, GetAncestor st' q h = GetAncestor st q h).
Proof.
  intros Hwf Hp. destruct (BuildSkip_eq st p b Hwf Hp) as [Hb|(s & Hb & Hs)].
  { exists st. split_and!; done. }
  exists (<[p := set_pskip b s]> st).
  assert (wf_store (<[p:=set_pskip b s]> st)) by by apply wf_store_set_pskip.
  split_and!; [done|done|intros; by apply walk_set_pskip|].
  apply GetAncestor_ext; [done|done|intros; by apply walk_set_pskip|]. intros q.
  destruct (decide (p = q)) as [->|]; [by rewrite lookup_insert_eq, Hp|by rewrite lookup_insert_ne].
Qed.

Lemma BuildSkip_preserves_block_tree_witness :
  exists st', BuildSkip example_store 6%positive = Ok st' /\ wf_store st' /\
    GetAncestor st' 6%positive 1 = Ok (Some 2%positive).
Proof.
  destruct (BuildSkip_preserves_block_tree example_store 6%positive
    (example_index 6 3 (Some 5%positive) None 140) example_store_wf eq_refl) as (st' & H & Hwf & _ & Ha).
  exists st'. rewrite Ha. split_and!; [exact H|exact Hwf|reflexivity].
Defined.

(** [SetTip] on a block of the map terminates and makes the chain the
    ancestors of the new tip, whatever (well-formed) chain was active
    before, so also across a reorganisation: its tip is the block, its
    height the block's, and the entry at each height is the tip's
    ancestor there. *)
Theorem SetTip_activates_ancestors st c p b :
  wf_store st -> wf_chain st c -> st !! p = Some b ->
  exists c', SetTip st c (Some p) = Ok c' /\ wf_chain st c' /\
    Tip c' = Some p /\ Height c' = nHeight b /\
    (forall h, GetAncestor st p h = Ok (chain_at c' h)) /\
    (forall q, is_Some (st !! q) -> Contains st c' q = Ok true <-> ancestor st q p).
Proof.
  intros Hwf Hc Hp. destruct (SetTip_spec st c p b Hwf Hc Hp) as (c' & Hset & Hof).
  assert (Hat := fun h => chain_of_GetAncestor _ _ _ _ h Hwf Hof).
  exists c'. split_and!; [done|right; by exists p, b|by eapply chain_of_Tip| |done|].
  - destruct Hof as (_ & Hl & _). destruct (Hwf _ _ Hp) as [H0 _ _ _]. unfold Height. lia.
  - intros q [bq Hq]. rewrite (Contains_spec _ _ _ _ Hq).
    split; [intros [= Hin%bool_decide_eq_true]|intros Ha; f_equal; apply bool_decide_eq_true].
    + pose proof (Hat (nHeight bq)) as Hg. rewrite Hin, (GetAncestor_spec _ _ _ _ Hwf Hp) in Hg.
      destruct (_ || _); simplify_eq. by eexists.
    + pose proof (ancestor_distance _ _ _ _ _ Hwf Hp Hq Ha) as Hd.
      destruct (ancestor_height _ _ _ _ Hwf Hp Ha) as (bq' & Hq' & Hle). simplify_eq.
      destruct (Hwf _ _ Hq) as [H0 _ _ _]. pose proof (Hat (nHeight bq)) as Hg.
      rewrite (GetAncestor_spec _ _ _ _ Hwf Hp), Hd in Hg.
      by destruct (Z.ltb_spec (nHeight b) (nHeight bq)), (Z.ltb_spec (nHeight bq) 0); try lia; simplify_eq/=.
Qed.

Lemma SetTip_activates_ancestors_witness :
  exists c1 c2, SetTip example_store [] (Some 4%positive) = Ok c1 /\
    SetTip example_store c1 (Some 6%positive) = Ok c2 /\
    c2 = [Some 1%positive; Some 2%positive; Some 5%positive; Some 6%positive] /\ Tip c2 = Some 6%positive.
Proof.
  destruct (SetTip_activates_ancestors example_store [] 4%positive
    (example_index 4 3 (Some 3%positive) (Some 2%positive) 130)
    example_store_wf (or_introl eq_refl) eq_refl) as (c1 & H1 & Hw1 & _).
  destruct (SetTip_activates_ancestors example_store c1 6%positive
    (example_index 6 3 (Some 5%positive) None 140) example_store_wf Hw1 eq_refl) as (c2 & H2 & _ & Ht & _).
  exists c1, c2. split_and!; [exact H1|exact H2| |exact Ht].
  vm_compute in H1. injection H1 as <-. vm_compute in H2. by injection H2 as <-.
Defined.

(** [FindFork] terminates with the last block of the argument's
    branch that is in the active chain: null when no ancestor is in the
    chain, and otherwise an ancestor in the chain such that every ancestor
    in the chain is also an ancestor of it. *)
Theorem FindFork_is_last_common_block st c p b :
  wf_store st -> st !! p = Some b ->
  exists f, FindFork st c (Some p) = Ok f /\
    match f with
    | Some q => ancestor st q p /\ Contains st c q = Ok true /\
        forall r, ancestor st r p -> Contains st c r = Ok true -> ancestor st r q
    | None => forall r, ancestor st r p -> Contains st c r = Ok false
    end.
Proof.
  intros Hwf Hp. destruct (FindFork_spec st c p b Hwf Hp) as (f & Hf & Hspec). exists f.
  split; [done|]. destruct f as [q|]; [|intros r [n Hn]; eauto].
  destruct Hspec as (n & Hn & Hin & Hbefore). split_and!; [by exists n|done|].
  intros r [m Hm] Hr. destruct (Nat.lt_ge_cases m n) as [Hlt|Hge].
  - by rewrite (Hbefore m r Hlt Hm) in Hr.
  - exists (m - n)%nat. replace m with (n + (m - n))%nat in Hm by lia. by rewrite walk_add, Hn in Hm.
Qed.

Lemma FindFork_is_last_common_block_witness :
  FindFork example_store [Some 1%positive; Some 2%positive; Some 3%positive; Some 4%positive]
    (Some 6%positive) = Ok (Some 2%positive).
Proof.
  destruct (FindFork_is_last_common_block example_store
    [Some 1%positive; Some 2%positive; Some 3%positive; Some 4%positive] 6%positive
    (example_index 6 3 (Some 5%positive) None 140) example_store_wf eq_refl) as (f & Hf & _).
  rewrite Hf. vm_compute in Hf. injection Hf as <-. reflexivity.
Defined.

(** [LastCommonAncestor] terminates, never trips its assertion, and
    returns the common ancestor that has every common ancestor among its
    own ancestors; null when there is none. *)
Theorem LastCommonAncestor_is_greatest st a ba b bb :
  wf_store st -> st !! a = Some ba -> st !! b = Some bb ->
  exists f, LastCommonAncestor st a b = Ok f /\
    match f with
    | Some q => ancestor st q a /\ ancestor st q b /\
        forall r, ancestor st r a -> ancestor st r b -> ancestor st r q
    | None => forall r, ancestor st r a -> ~ ancestor st r b
    end.
Proof.
  intros Hwf Ha Hb.
  destruct (LastCommonAncestor_level st a ba b bb Hwf Ha Hb)
    as (a' & ba' & b' & bb' & Ha' & Hha & Haa & Hb' & Hhb & Hbb & ->).
  destruct (Hwf _ _ Ha') as [H0 _ _ _].
  set (fuel := Z.to_nat (Z.min (nHeight ba) (nHeight bb) + 1)).
  destruct (LastCommonAncestor_loop_spec st fuel a' ba' b' bb' Hwf Ha' Hb') as (f & Hf & Hspec);
    [lia|lia|]. exists f. split; [done|].
  destruct f as [q|].
  - destruct Hspec as (n & Hwa & Hwb & Hbefore).
    split_and!; [eapply ancestor_trans; [done|by exists n]..|]. intros r Hra Hrb.
    destruct (common_ancestor_level st a ba b bb a' ba' b' bb' r) as (m & Hma & Hmb); try done.
    destruct (Nat.lt_ge_cases m n) as [Hlt|Hge]; [by destruct (Hbefore m Hlt); rewrite Hma, Hmb|].
    exists (m - n)%nat. replace m with (n + (m - n))%nat in Hma by lia. by rewrite walk_add, Hwa in Hma.
  - intros r Hra Hrb.
    destruct (common_ancestor_level st a ba b bb a' ba' b' bb' r) as (m & Hma & Hmb); try done.
    by apply (Hspec m r).
Qed.

Lemma LastCommonAncestor_is_greatest_witness :
  LastCommonAncestor example_store 4%positive 5%positive = Ok (Some 2%positive) /\
  ancestor example_store 2%positive 5%positive.
Proof.
  destruct (LastCommonAncestor_is_greatest example_store 4%positive
    (example_index 4 3 (Some 3%positive) (Some 2%positive) 130) 5%positive
    (example_index 5 2 (Some 2%positive) None 125) example_store_wf eq_refl eq_refl) as (f & Hf & Hs).
  rewrite Hf. vm_compute in Hf. injection Hf as <-. destruct Hs as (_ & Hs & _). split; [reflexivity|exact Hs].
Defined.

(** The locator of a block is computed without failure, lists the
    block first and a genesis block last, goes down through proper
    ancestors only, and has at most 11 more entries than the logarithm
    of the height. *)
Theorem GetLocator_reaches_genesis st c p b :
  wf_store st -> wf_chain st c -> st !! p = Some b -> nHeight b < 2 ^ 31 - 1 ->
  exists l ps, GetLocator st c (Some p) = Ok l /\ Forall2 (has_hash st) l (p :: ps) /\
    descends st (p :: ps) /\ Z.of_nat (length l) <= 11 + Z.log2_up (nHeight b + 1).
Proof.
  intros Hwf Hc Hp Hh. destruct (Hwf _ _ Hp) as [H0 _ _ _].
  pose proof (Z.log2_up_nonneg (nHeight b + 1)).
  destruct (GetLocator_loop_spec st c (Z.to_nat (nHeight b)) p b 1 0 10 (Z.to_nat (Z.log2_up (nHeight b + 1))))
    as (l & ps & Hl & Hf & Hd & Hlen); [done|done|done|lia|lia|lia|lia| |].
  - rewrite Z2Nat.id by lia. destruct (Z.eq_dec (nHeight b) 0) as [->|]; [done|].
    pose proof (Z.log2_up_spec (nHeight b + 1) ltac:(lia)). lia.
  - exists l, ps. unfold GetLocator, deref. rewrite Hp. cbn [of_option obind].
    split_and!; [done|done|done|lia].
Qed.

Lemma GetLocator_reaches_genesis_witness :
  exists l, GetLocator example_store [] (Some 6%positive) = Ok l /\ length l = 4%nat /\
    Z.of_nat (length l) <= 11 + Z.log2_up 4.
Proof.
  destruct (GetLocator_reaches_genesis example_store [] 6%positive
    (example_index 6 3 (Some 5%positive) None 140) example_store_wf (or_introl eq_refl) eq_refl ltac:(by vm_compute))
    as (l & ps & Hl & _ & _ & Hlen).
  exists l. split_and!; [exact Hl| |exact Hlen]. vm_compute in Hl. by injection Hl as <-.
Defined.

(** [FindEarliestAtLeast] returns the lowest block of the active chain
    that has both the time and the height asked for, and null when no
    block has them. *)
Theorem FindEarliestAtLeast_is_earliest st c p b time height :
  wf_store st -> timemax_ok st -> chain_of st c p b ->
  exists r, FindEarliestAtLeast st c time height = Ok r /\
    match r with
    | Some q => exists k, c !! k = Some (Some q) /\ reached st time height q = true /\
        forall i q', (i < k)%nat -> c !! i = Some (Some q') -> reached st time height q' = false
    | None => forall i q', c !! i = Some (Some q') -> reached st time height q' = false
    end.
Proof.
  intros Hwf Ht Hof. unfold FindEarliestAtLeast.
  assert (Hcomp := fun i q => entry_before_spec st c p b time height i q Hwf Hof).
  destruct (lower_bound_loop_spec (entry_before st c time height) (length c) (length c) 0 (length c))
    as (k & Hk & Hkl & Hlo & Hhi); try lia.
  - intros i Hi. destruct (chain_of_entry _ _ _ _ i Hwf Hof Hi) as (q & bq & Hl & _).
    rewrite (Hcomp _ _ Hl). eauto.
  - intros i j. by eapply entry_before_mono.
  - rewrite Hk. cbn [obind]. destruct (Nat.eqb_spec k (length c)) as [->|Hne].
    + exists None. split; [done|]. intros i q' Hi. pose proof (Hcomp _ _ Hi) as Hc.
      rewrite (Hlo i) in Hc by (by eapply lookup_lt_Some). by destruct (reached st time height q').
    + destruct (chain_of_entry _ _ _ _ k Hwf Hof) as (q & bq & Hl & Hq & _); [lia|]. rewrite Hl.
      exists (Some q). split; [done|]. exists k. split_and!; [done| |].
      * pose proof (Hcomp _ _ Hl) as Hc. rewrite (Hhi k) in Hc by lia. by destruct (reached st time height q).
      * intros i q' Hi Hi'. pose proof (Hcomp _ _ Hi') as Hc. rewrite (Hlo i Hi) in Hc.
        by destruct (reached st time height q').
Qed.

Lemma example_chain_of :
  chain_of example_store [Some 1%positive; Some 2%positive; Some 3%positive; Some 4%positive] 4%positive
    (example_index 4 3 (Some 3%positive) (Some 2%positive) 130).
Proof.
  split_and!; [reflexivity|reflexivity|]. intros n q Hn.
  destruct n as [|[|[|[|[]]]]]; vm_compute in Hn; simplify_eq; reflexivity.
Qed.

Lemma FindEarliestAtLeast_is_earliest_witness :
  exists r, FindEarliestAtLeast example_store
      [Some 1%positive; Some 2%positive; Some 3%positive; Some 4%positive] 105 2 = Ok r /\ r = Some 3%positive.
Proof.
  destruct (FindEarliestAtLeast_is_earliest _ _ _ _ 105 2 example_store_wf example_store_timemax example_chain_of)
    as (r & Hr & _).
  exists r. split; [exact Hr|]. vm_compute in Hr. by injection Hr as <-.
Defined.

(** The work of a block is computed without a division by zero and is
    floor(2^256 / (target + 1)), zero for a negative, zero or overflowing
    target. *)
Theorem GetBlockProof_is_inverse_target b :
  in_u 32 (nBits b) ->
  exists w, GetBlockProof b = Ok w /\ wf w /\ val w = block_work b.
Proof. apply GetBlockProof_spec. Qed.

Lemma GetBlockProof_is_inverse_target_witness :
  exists w, GetBlockProof (example_index 1 0 None None 100) = Ok w /\ val w = 0x100010001.
Proof.
  destruct (GetBlockProof_is_inverse_target (example_index 1 0 None None 100)) as (w & Hw & _ & Hv).
  - vm_compute; split; congruence.
  - exists w. split; [exact Hw|]. rewrite Hv. by vm_compute.
Defined.
