(* ===== verification/Consensus.v ===== *)
(** * Consensus: the consensus parameters of src/src/consensus

    The [Params] of consensus/params.h, the limits of consensus/consensus.h
    and the block-size parameters that governance rewrites at run time
    (consensus/consensus.cpp). *)

From Stdlib Require Import ZArith List Lia Bool.
From S2P Require Import Prelude Primitives.
Local Open Scope Z_scope.
Local Open Scope outcome_scope.

(** ** consensus/params.h *)

Inductive DeploymentPos :=
| DEPLOYMENT_TESTDUMMY
| DEPLOYMENT_MIP3_DGP_UPGRADE
| DEPLOYMENT_MIP4_FORK_SPAN
| DEPLOYMENT_MIP5_DGP_UPGRADE
| DEPLOYMENT_MIP6_REM_LEGACY_DGP.

Record BIP9Deployment := {
  bit : Z;
  nStartTime : Z;
  nTimeout : Z;
  nStartHeight : Z
}.

Definition NO_TIMEOUT : Z := 2 ^ 63 - 1.
Definition ALWAYS_ACTIVE : Z := -1.

Record Params := {
  hashGenesisBlock : uint256;
  nSubsidyHalvingInterval : Z;
  BIP16Exception : uint256;
  BIP34Height : Z;
  BIP34Hash : uint256;
  BIP65Height : Z;
  BIP66Height : Z;
  CSVHeight : Z;
  SegwitHeight : Z;
  MinBIP9WarningHeight : Z;
  QIP5Height : Z;
  QIP6Height : Z;
  QIP7Height : Z;
  QIP9Height : Z;
  minMIP1Height : Z;
  MIP1Height : Z;
  minMIP2Height : Z;
  MIP2Height : Z;
  MIP3StartHeight : Z;
  MIP3Height : Z;
  MIP4StartHeight : Z;
  MIP4Height : Z;
  MIP5StartHeight : Z;
  MIP5Height : Z;
  MIP6StartHeight : Z;
  MIP6Height : Z;
  nRuleChangeActivationThreshold : Z;
  nMinerConfirmationWindow : Z;
  vDeployments : DeploymentPos -> BIP9Deployment;
  powLimit : uint256;
  posLimit : uint256;
  QIP9PosLimit : uint256;
  fPowAllowMinDifficultyBlocks : bool;
  fPowNoRetargeting : bool;
  fPoSNoRetargeting : bool;
  nPowTargetSpacing : Z;
  nPowTargetTimespan : Z;
  nPowTargetTimespanV2 : Z;
  nPowTargetTimespanV3 : Z;
  nMinimumChainWork : uint256;
  defaultAssumeValid : uint256;
  nLastPOWBlock : Z;
  nFirstMPoSBlock : Z;
  nMPoSRewardRecipients : Z;
  nFixUTXOCacheHFHeight : Z;
  nEnableHeaderSignatureHeight : Z;
  nCheckpointSpan : Z
}.

(** Division by a zero spacing traps. *)
Definition DifficultyAdjustmentInterval (params : Params) (height : Z) : outcome Z :=
  let targetSpacing := if QIP9Height params <=? height
                       then nPowTargetTimespanV2 params else nPowTargetTimespan params in
  if nPowTargetSpacing params =? 0 then Fail
  else Ok (Z.quot targetSpacing (nPowTargetSpacing params)).

(** ** consensus/consensus.h *)

Definition COINBASE_MATURITY : Z := 960.
Definition MAX_TRANSACTION_BASE_SIZE : Z := 1000000.
Definition WITNESS_SCALE_FACTOR : Z := 4.
Definition MIN_TRANSACTION_WEIGHT : Z := WITNESS_SCALE_FACTOR * 60.
Definition MIN_SERIALIZABLE_TRANSACTION_WEIGHT : Z := WITNESS_SCALE_FACTOR * 10.
Definition LOCKTIME_VERIFY_SEQUENCE : Z := 1.
Definition LOCKTIME_MEDIAN_TIME_PAST : Z := 2.

(** ** consensus/consensus.cpp: the limits that governance changes *)

Record BlockSizeParams := {
  dgpMaxBlockSerSize : Z;
  dgpMaxBlockWeight : Z;
  dgpMaxBlockSize : Z;
  dgpMaxBlockSigOps : Z;
  dgpMaxProtoMsgLength : Z;
  dgpMaxTxSigOps : Z
}.

Definition blockSizeParams_init : BlockSizeParams := {|
  dgpMaxBlockSerSize := 8000000; dgpMaxBlockWeight := 8000000; dgpMaxBlockSize := 2000000;
  dgpMaxBlockSigOps := 80000; dgpMaxProtoMsgLength := 8000000; dgpMaxTxSigOps := 16000 |}.

Definition updateBlockSizeParams (g : BlockSizeParams) (newBlockSize : Z) : BlockSizeParams :=
  let newSizeForParams := u32 (WITNESS_SCALE_FACTOR * newBlockSize) in
  let sigops := newSizeForParams / 100 in
  {| dgpMaxBlockSerSize := newSizeForParams; dgpMaxBlockWeight := newSizeForParams;
     dgpMaxBlockSize := dgpMaxBlockSize g; dgpMaxBlockSigOps := sigops;
     dgpMaxProtoMsgLength := newSizeForParams; dgpMaxTxSigOps := u32 (Z.quot sigops 5) |}.
