(* ===== verification/Pow.v ===== *)
(** * Pow: difficulty adjustment and proof-of-work checks of src/src/pow.cpp

    [mul_exp] computes a Taylor series on 256-bit integers until its term
    is zero; the retargeting rules turn the spacing of two blocks into a
    new compact target.  The loop is shown to end, the new target to be
    positive and within the limit, and to move in the direction of the
    spacing. *)

From Stdlib Require Import ZArith List Lia Bool.
From stdpp Require Import base decidable list gmap.
From S2P Require Import Prelude Uint256 Primitives Chain Consensus.
Import arith_uint256.
Local Open Scope Z_scope.
Local Open Scope outcome_scope.

(** [while (a > 0)] of [mul_exp]: the product with [abs_p] takes the
    32-bit operator, the quotients the 256-bit one. *)
Fixpoint mul_exp_loop (fuel : nat) (a result : base_uint) (abs_p q n : Z) (isNegative : bool)
    : outcome base_uint :=
  if gtb a (of_uint64 0) then
    match fuel with
    | O => NoFuel
    | S fuel =>
        let n := u64 (n + 1) in
        t <-! of_option (div (mul32 a (u32 abs_p)) (of_uint64 (u64 q)));
        a <-! of_option (div t (of_uint64 n));
        let result := if isNegative && (n mod 2 =? 1) then sub result a else add result a in
        mul_exp_loop fuel a result abs_p q n isNegative
    end
  else Ok result.

(** Rounds after which the terms halve, and then 256 halvings. *)
Definition mul_exp_fuel (abs_p q : Z) : nat := Z.to_nat (2 * (u32 abs_p / u64 q + 1) + 257).

Definition mul_exp (a : base_uint) (p q : Z) : outcome base_uint :=
  let isNegative := p <? 0 in
  let abs_p := u64 (if 0 <=? p then p else s64 (- p)) in
  mul_exp_loop (mul_exp_fuel abs_p q) a a abs_p q 0 isNegative.

(** The loop of [GetLastBlockIndex]; it goes down one height at a time. *)
Fixpoint GetLastBlockIndex_loop (fuel : nat) (st : gmap ptr CBlockIndex) (p : ptr) (fProofOfStake : bool)
    : outcome ptr :=
  b <-! deref st p;
  match pprev b with
  | Some q =>
      if negb (Bool.eqb (IsProofOfStake b) fProofOfStake)
      then match fuel with
           | O => NoFuel
           | S fuel => GetLastBlockIndex_loop fuel st q fProofOfStake
           end
      else Ok p
  | None => Ok p
  end.

Definition GetLastBlockIndex (st : gmap ptr CBlockIndex) (pindex : option ptr) (fProofOfStake : bool)
    : outcome (option ptr) :=
  match pindex with
  | None => Ok None
  | Some p =>
      b <-! deref st p;
      r <-! GetLastBlockIndex_loop (Z.to_nat (nHeight b)) st p fProofOfStake;
      Ok (Some r)
  end.

Definition GetLimit (height : Z) (params : Params) (fProofOfStake : bool) : base_uint :=
  if fProofOfStake then
    if height <? QIP9Height params then UintToArith256 (posLimit params)
    else UintToArith256 (QIP9PosLimit params)
  else UintToArith256 (powLimit params).

(** The change of [bnNew] for an actual spacing, before the final clamp. *)
Definition retarget (params : Params) (height nInterval nActualSpacing : Z) (bnNew : base_uint)
    : outcome base_uint :=
  let nTargetSpacing := nPowTargetSpacing params in
  if height <? QIP9Height params then
    let nActualSpacing := if nActualSpacing <? 0 then nTargetSpacing else nActualSpacing in
    let nActualSpacing := if s64 (nTargetSpacing * 10) <? nActualSpacing
                          then s64 (nTargetSpacing * 10) else nActualSpacing in
    let bnNew := mul32 bnNew (u32 (s64 (s64 (s64 ((nInterval - 1) * nTargetSpacing) + nActualSpacing)
                                        + nActualSpacing))) in
    of_option (div bnNew (of_uint64 (u64 (s64 ((nInterval + 1) * nTargetSpacing)))))
  else
    let nActualSpacing := if nActualSpacing <? 0 then nTargetSpacing else nActualSpacing in
    let nActualSpacing := if s64 (nTargetSpacing * 20) <? nActualSpacing
                          then s64 (nTargetSpacing * 20) else nActualSpacing in
    mul_exp bnNew (Z.quot (s64 (2 * (nActualSpacing - nTargetSpacing))) 16)
      (Z.quot (s64 ((nInterval + 1) * nTargetSpacing)) 16).

Definition CalculateNextWorkRequired (b : CBlockIndex) (nFirstBlockTime : Z) (params : Params)
    (fProofOfStake : bool) : outcome Z :=
  if (if fProofOfStake then fPoSNoRetargeting params else fPowNoRetargeting params)
  then Ok (nBits b)
  else
    let nActualSpacing := GetBlockTime b - nFirstBlockTime in
    let bnTargetLimit := GetLimit (nHeight b + 1) params fProofOfStake in
    let bnNew := fst (fst (SetCompact (nBits b))) in
    nInterval <-! DifficultyAdjustmentInterval params (nHeight b + 1);
    bnNew <-! retarget params (nHeight b + 1) nInterval nActualSpacing bnNew;
    let bnNew := if leb bnNew (of_uint64 0) || gtb bnNew bnTargetLimit then bnTargetLimit else bnNew in
    of_option (GetCompact bnNew false).

(** The search for the last block that was not mined under the
    minimum-difficulty rule. *)
Fixpoint last_non_min_difficulty (fuel : nat) (st : gmap ptr CBlockIndex) (params : Params)
    (nTargetLimit : Z) (p : ptr) : outcome Z :=
  b <-! deref st p;
  match pprev b with
  | None => Ok (nBits b)
  | Some q =>
      interval <-! DifficultyAdjustmentInterval params (nHeight b);
      if interval =? 0 then Fail
      else if negb (Z.rem (nHeight b) interval =? 0) && (nBits b =? nTargetLimit)
      then match fuel with
           | O => NoFuel
           | S fuel => last_non_min_difficulty fuel st params nTargetLimit q
           end
      else Ok (nBits b)
  end.

Definition GetNextWorkRequired (st : gmap ptr CBlockIndex) (pindexLast : option ptr)
    (pblock : CBlockHeader) (params : Params) (fProofOfStake : bool) : outcome Z :=
  height <-! match pindexLast with Some p => b <-! deref st p; Ok (nHeight b + 1) | None => Ok 0 end;
  nTargetLimit <-! of_option (GetCompact (GetLimit height params fProofOfStake) false);
  match pindexLast with
  | None => Ok nTargetLimit
  | Some last =>
      prev <-! GetLastBlockIndex st (Some last) fProofOfStake;
      pindexPrev <-! of_option prev;
      bPrev <-! deref st pindexPrev;
      match pprev bPrev with
      | None => Ok nTargetLimit
      | Some pp =>
          prevPrev <-! GetLastBlockIndex st (Some pp) fProofOfStake;
          pindexPrevPrev <-! of_option prevPrev;
          bPrevPrev <-! deref st pindexPrevPrev;
          match pprev bPrevPrev with
          | None => Ok nTargetLimit
          | Some _ =>
              bLast <-! deref st last;
              if fPowAllowMinDifficultyBlocks params then
                if GetBlockTime bLast + s64 (nPowTargetSpacing params * 2) <? hdr_nTime pblock
                then Ok nTargetLimit
                else last_non_min_difficulty (Z.to_nat (nHeight bLast)) st params nTargetLimit last
              else CalculateNextWorkRequired bPrev (GetBlockTime bPrevPrev) params fProofOfStake
          end
      end
  end.

Definition CheckProofOfWork (hash : uint256) (bits : Z) (params : Params) : bool :=
  let '(bnTarget, fNegative, fOverflow) := SetCompact bits in
  if fNegative || EqualTo bnTarget 0 || fOverflow || gtb bnTarget (UintToArith256 (powLimit params))
  then false
  else negb (gtb (UintToArith256 hash) bnTarget).

(** ** [mul_exp] *)

Lemma gtb_zero a : wf a -> gtb a (of_uint64 0) = (0 <? val a).
Proof. intros Wa. by rewrite gtb_spec, of_uint64_val by (done || apply of_uint64_wf || (unfold in_u; lia)). Qed.

(** One term of the series. *)
Lemma mul_exp_term a P q n :
  wf a -> in_u 32 P -> 0 < q < 2 ^ 64 -> 0 < n < 2 ^ 64 ->
  exists t a', div (mul32 a P) (of_uint64 q) = Some t /\ div t (of_uint64 n) = Some a' /\ wf a' /\
    val a' = (val a * P) mod 2 ^ 256 / q / n.
Proof.
  intros Wa HP Hq Hn. destruct (mul32_spec a P Wa HP) as [Wm Vm].
  pose proof (div_spec _ _ Wm (of_uint64_wf q)) as Hd. rewrite of_uint64_val in Hd by (unfold in_u; lia).
  destruct (div (mul32 a P) _) as [t|]; [|lia]. destruct Hd as (_ & Wt & Vt).
  pose proof (div_spec _ _ Wt (of_uint64_wf n)) as Hd. rewrite of_uint64_val in Hd by (unfold in_u; lia).
  destruct (div t _) as [a'|] eqn:Ea; [|lia]. destruct Hd as (_ & Wa' & Va').
  exists t, a'. split_and!; [done|done|done|]. by rewrite Va', Vt, Vm.
Qed.

Lemma mul_exp_term_le v P q n K :
  0 <= v -> 0 <= P <= K * q -> 0 < q -> 0 < n ->
  (v * P) mod 2 ^ 256 / q / n * n <= v * K.
Proof.
  intros Hv HP Hq Hn. assert ((v * P) mod 2 ^ 256 <= v * P) by (apply Z.mod_le; nia).
  assert ((v * P) mod 2 ^ 256 / q <= v * K) by (apply Z.div_le_upper_bound; nia).
  pose proof (Z.mul_div_le ((v * P) mod 2 ^ 256 / q) n Hn). lia.
Qed.

Section mul_exp.
Context (abs_p q : Z) (neg : bool) (Hq : 0 < u64 q).

Lemma mul_exp_step fuel a result n :
  wf a -> wf result -> 0 <= n < 2 ^ 64 - 1 -> 0 < val a ->
  exists a', wf a' /\ val a' = (val a * u32 abs_p) mod 2 ^ 256 / u64 q / (n + 1) /\
    mul_exp_loop (S fuel) a result abs_p q n neg =
    mul_exp_loop fuel a' (if neg && ((n + 1) mod 2 =? 1) then sub result a' else add result a') abs_p q (n + 1) neg.
Proof.
  intros Wa Wr Hn Ha.
  destruct (mul_exp_term a (u32 abs_p) (u64 q) (n + 1)) as (t & a' & Ht & Ha' & Wa' & Va');
    [done|apply wrap_range; lia|pose proof (wrap_range 64 q); unfold in_u in *; lia|lia|].
  exists a'. split_and!; [done|done|]. cbn [mul_exp_loop]. rewrite gtb_zero by done.
  destruct (Z.ltb_spec 0 (val a)); [|lia]. rewrite (wrap_small 64 (n + 1)) by (unfold in_u; lia).
  rewrite Ht. cbn [of_option obind]. by rewrite Ha'.
Qed.

Lemma mul_exp_stop fuel a result n :
  wf a -> val a = 0 -> mul_exp_loop fuel a result abs_p q n neg = Ok result.
Proof. intros Wa Ha. destruct fuel; cbn [mul_exp_loop]; by rewrite gtb_zero, Ha. Qed.

Lemma mul_exp_result_wf (c : bool) r a : wf r -> wf a -> wf (if c then sub r a else add r a).
Proof. intros Wr Wa. destruct c; [by apply sub_spec|by apply add_spec]. Qed.

Lemma mul_exp_halving K j fuel a result n :
  0 <= u32 abs_p <= K * u64 q -> 0 <= n -> 2 * K <= n + 1 -> n + Z.of_nat fuel < 2 ^ 64 ->
  wf a -> wf result -> val a < 2 ^ Z.of_nat j -> (j <= fuel)%nat ->
  exists r, mul_exp_loop fuel a result abs_p q n neg = Ok r /\ wf r.
Proof.
  intros HP. revert fuel a result n; induction j as [|j IH]; intros fuel a result n Hn HK Hf Wa Wr Ha Hj.
  { pose proof (val_wf a Wa). exists result. rewrite mul_exp_stop by (done || (simpl in Ha; lia)). done. }
  destruct fuel as [|fuel]; [lia|]. pose proof (val_wf a Wa) as Ra.
  destruct (Z.eq_dec (val a) 0) as [Hz|Hnz]; [exists result; by rewrite mul_exp_stop|].
  destruct (mul_exp_step fuel a result n) as (a' & Wa' & Va' & ->); [done|done|lia|lia|].
  apply IH; [lia|lia|lia|done|by apply mul_exp_result_wf| |lia].
  pose proof (mul_exp_term_le (val a) (u32 abs_p) (u64 q) (n + 1) K) as Hle.
  rewrite Nat2Z.inj_succ, Z.pow_succ_r in Ha by lia. rewrite <- Va' in Hle.
  specialize (Hle ltac:(lia) HP Hq ltac:(lia)). pose proof (val_wf a' Wa'). nia.
Qed.

Lemma mul_exp_total K m fuel a result n :
  0 <= u32 abs_p <= K * u64 q -> 0 <= n -> 2 * K <= n + 1 + Z.of_nat m -> n + Z.of_nat fuel < 2 ^ 64 ->
  wf a -> wf result -> (m + 256 <= fuel)%nat ->
  exists r, mul_exp_loop fuel a result abs_p q n neg = Ok r /\ wf r.
Proof.
  intros HP. revert fuel a result n; induction m as [|m IH]; intros fuel a result n Hn HK Hf Wa Wr Hm.
  { apply (mul_exp_halving K 256); [done|done|lia|done|done|done|apply (val_wf a Wa)|lia]. }
  destruct fuel as [|fuel]; [lia|]. pose proof (val_wf a Wa) as Ra.
  destruct (Z.eq_dec (val a) 0) as [Hz|Hnz]; [exists result; by rewrite mul_exp_stop|].
  destruct (mul_exp_step fuel a result n) as (a' & Wa' & Va' & ->); [done|done|lia|lia|].
  apply IH; [lia|lia|lia|done|by apply mul_exp_result_wf|lia].
Qed.
End mul_exp.

Lemma mul_exp_terminates a p q :
  wf a -> 0 < u64 q -> exists r, mul_exp a p q = Ok r /\ wf r.
Proof.
  intros Wa Hq. unfold mul_exp. set (abs_p := u64 _).
  pose proof (wrap_range 32 abs_p ltac:(lia)) as HP. unfold in_u in HP.
  pose proof (Z.mul_succ_div_gt (u32 abs_p) (u64 q) Hq) as Hgt.
  pose proof (Z.div_pos (u32 abs_p) (u64 q) ltac:(lia) Hq).
  assert (u32 abs_p / u64 q <= u32 abs_p) by (apply Z.div_le_upper_bound; nia).
  unfold mul_exp_fuel.
  apply (mul_exp_total abs_p q (p <? 0) Hq (u32 abs_p / u64 q + 1) (Z.to_nat (2 * (u32 abs_p / u64 q + 1))));
    [nia|lia|lia|lia|done|done|lia].
Qed.

(** The partial sums when the ratio of the series is at most one. *)
Section mul_exp_bounds.
Context (abs_p q : Z) (Hq : 0 < u64 q) (Hratio : u32 abs_p <= u64 q).

Lemma mul_exp_term_shrinks a n :
  wf a -> 0 <= n -> (val a * u32 abs_p) mod 2 ^ 256 / u64 q / (n + 1) * (n + 1) <= val a.
Proof.
  intros Wa Hn. pose proof (wrap_range 32 abs_p ltac:(lia)). unfold in_u in *.
  pose proof (val_wf a Wa). pose proof (mul_exp_term_le (val a) (u32 abs_p) (u64 q) (n + 1) 1). lia.
Qed.

Lemma mul_exp_growth fuel a result n r :
  wf a -> wf result -> 1 <= n -> n + Z.of_nat fuel < 2 ^ 64 ->
  val result + val a < 2 ^ 256 ->
  mul_exp_loop fuel a result abs_p q n false = Ok r -> val result <= val r <= val result + val a.
Proof.
  revert a result n; induction fuel as [|fuel IH]; intros a result n Wa Wr Hn Hf Hov Hr;
    pose proof (val_wf a Wa) as Ra; pose proof (val_wf result Wr) as Rr;
    (destruct (Z.eq_dec (val a) 0) as [Hz|Hnz];
     [rewrite mul_exp_stop in Hr by done; simplify_eq; lia|]).
  { cbn [mul_exp_loop] in Hr. rewrite gtb_zero in Hr by done.
    by destruct (Z.ltb_spec 0 (val a)); [|lia]. }
  destruct (mul_exp_step abs_p q false Hq fuel a result n) as (a' & Wa' & Va' & Hstep); [done|done|lia|lia|].
  rewrite Hstep in Hr. cbn [andb] in Hr. pose proof (mul_exp_term_shrinks a n Wa ltac:(lia)) as Hs.
  rewrite <- Va' in Hs. pose proof (val_wf a' Wa') as Ra'. assert (val a' * 2 <= val a) by nia.
  destruct (add_spec result a' Wr Wa') as [Ws Vs]. rewrite Z.mod_small in Vs by lia.
  apply IH in Hr; [lia|done|done|lia|lia|lia].
Qed.

Lemma mul_exp_alternates fuel a result n r :
  wf a -> wf result -> 0 <= n -> n + Z.of_nat fuel < 2 ^ 64 ->
  mul_exp_loop fuel a result abs_p q n true = Ok r ->
  (n mod 2 = 0 -> val a <= val result -> val result - val a <= val r <= val result) /\
  (n mod 2 = 1 -> val result + val a < 2 ^ 256 -> val result <= val r <= val result + val a).
Proof.
  revert a result n; induction fuel as [|fuel IH]; intros a result n Wa Wr Hn Hf Hr;
    pose proof (val_wf a Wa) as Ra; pose proof (val_wf result Wr) as Rr;
    (destruct (Z.eq_dec (val a) 0) as [Hz|Hnz];
     [rewrite mul_exp_stop in Hr by done; simplify_eq; lia|]).
  { cbn [mul_exp_loop] in Hr. rewrite gtb_zero in Hr by done.
    by destruct (Z.ltb_spec 0 (val a)); [|lia]. }
  destruct (mul_exp_step abs_p q true Hq fuel a result n) as (a' & Wa' & Va' & Hstep); [done|done|lia|lia|].
  rewrite Hstep in Hr. cbn [andb] in Hr. pose proof (mul_exp_term_shrinks a n Wa Hn) as Hs.
  rewrite <- Va' in Hs. pose proof (val_wf a' Wa') as Ra'. assert (val a' <= val a) by nia.
  destruct (Z.eqb_spec ((n + 1) mod 2) 1) as [Ho|He].
  - destruct (sub_spec result a' Wr Wa') as [Ws Vs].
    apply IH in Hr as [_ Hr]; [|done|done|lia|lia]. split; intros Hpar Hle; [|zdiv_lia].
    rewrite Z.mod_small in Vs by lia. specialize (Hr Ho). lia.
  - destruct (add_spec result a' Wr Wa') as [Ws Vs].
    apply IH in Hr as [Hr _]; [|done|done|lia|lia]. split; intros Hpar Hle; [zdiv_lia|].
    rewrite Z.mod_small in Vs by lia. specialize (Hr ltac:(zdiv_lia)). lia.
Qed.
End mul_exp_bounds.

Lemma mul_exp_up a p q r :
  wf a -> 0 <= p <= q -> q < 2 ^ 32 -> 0 < q -> 3 * val a < 2 ^ 256 ->
  mul_exp a p q = Ok r -> val a <= val r <= 3 * val a.
Proof.
  intros Wa Hp Hqs Hq H3 Hr. pose proof (val_wf a Wa) as Ra. unfold mul_exp in Hr.
  destruct (Z.ltb_spec p 0); [lia|]. destruct (Z.leb_spec 0 p); [|lia].
  rewrite (wrap_small 64 p) in Hr by (unfold in_u; lia).
  assert (Hu : u32 p = p /\ u64 q = q) by (split; apply wrap_small; unfold in_u; lia). destruct Hu as [Hu1 Hu2].
  assert (Hfuel : Z.of_nat (mul_exp_fuel p q) < 2 ^ 40).
  { unfold mul_exp_fuel. rewrite Hu1, Hu2. assert (p / q <= 1) by (apply Z.div_le_upper_bound; lia).
    pose proof (Z.div_pos p q). lia. }
  destruct (Z.eq_dec (val a) 0) as [Hz|Hnz]; [rewrite mul_exp_stop in Hr by done; simplify_eq; lia|].
  destruct (mul_exp_fuel p q) as [|fuel] eqn:Ef; [unfold mul_exp_fuel in Ef; rewrite Hu1, Hu2 in Ef;
    pose proof (Z.div_pos p q); lia|].
  destruct (mul_exp_step p q false ltac:(lia) fuel a a 0) as (a' & Wa' & Va' & Hstep); [done|done|lia|lia|].
  rewrite Hstep in Hr. cbn [andb] in Hr.
  pose proof (mul_exp_term_shrinks p q ltac:(lia) ltac:(lia) a 0 Wa ltac:(lia)) as Hs. rewrite <- Va' in Hs.
  pose proof (val_wf a' Wa'). destruct (add_spec a a' Wa Wa') as [Ws Vs]. rewrite Z.mod_small in Vs by lia.
  apply mul_exp_growth in Hr; [lia|lia|lia|done|done|lia|lia|lia].
Qed.

Lemma mul_exp_down a p q r :
  wf a -> - q < p < 0 -> q < 2 ^ 32 -> 0 < val a ->
  mul_exp a p q = Ok r -> 0 < val r <= val a.
Proof.
  intros Wa Hp Hqs Ha Hr. pose proof (val_wf a Wa) as Ra. unfold mul_exp in Hr.
  destruct (Z.ltb_spec p 0); [|lia]. destruct (Z.leb_spec 0 p); [lia|].
  rewrite (swrap_small 64) in Hr by (unfold in_s; lia). rewrite (wrap_small 64) in Hr by (unfold in_u; lia).
  assert (Hu : u32 (- p) = - p /\ u64 q = q) by (split; apply wrap_small; unfold in_u; lia).
  destruct Hu as [Hu1 Hu2].
  assert (Hdiv : 0 <= - p / q <= 1) by (split; [apply Z.div_pos; lia|apply Z.div_le_upper_bound; lia]).
  assert (Hfuel : Z.of_nat (mul_exp_fuel (- p) q) < 2 ^ 40) by (unfold mul_exp_fuel; rewrite Hu1, Hu2; lia).
  destruct (mul_exp_fuel (- p) q) as [|fuel] eqn:Ef; [unfold mul_exp_fuel in Ef; rewrite Hu1, Hu2 in Ef; lia|].
  destruct (mul_exp_step (- p) q true ltac:(lia) fuel a a 0) as (a' & Wa' & Va' & Hstep); [done|done|lia|lia|].
  rewrite Hstep in Hr. cbn [andb] in Hr. change ((0 + 1) mod 2 =? 1) with true in Hr. cbn in Hr.
  assert (val a' < val a).
  { rewrite Va', Hu1, Hu2. change (0 + 1) with 1. rewrite Z.div_1_r.
    assert ((val a * - p) mod 2 ^ 256 <= val a * - p) by (apply Z.mod_le; nia).
    apply Z.div_lt_upper_bound; nia. }
  pose proof (val_wf a' Wa'). destruct (sub_spec a a' Wa Wa') as [Ws Vs]. rewrite Z.mod_small in Vs by lia.
  apply mul_exp_alternates in Hr as [_ Hr]; [|lia|lia|done|done|lia|lia].
  specialize (Hr eq_refl ltac:(lia)). lia.
Qed.

(** ** Retargeting *)

(** What the parameter sets of chainparams.cpp satisfy. *)
Record pow_params_ok (params : Params) : Prop := {
  spacing_ok : 16 <= nPowTargetSpacing params < 2 ^ 16;
  timespan_ok : 0 <= nPowTargetTimespan params < 2 ^ 24;
  timespan2_ok : 0 <= nPowTargetTimespanV2 params < 2 ^ 24;
  powLimit_ok : bytes_ok (powLimit params) /\ length (powLimit params) = 32%nat /\ 0 < le_val (powLimit params);
  posLimit_ok : bytes_ok (posLimit params) /\ length (posLimit params) = 32%nat /\ 0 < le_val (posLimit params);
  QIP9PosLimit_ok :
    bytes_ok (QIP9PosLimit params) /\ length (QIP9PosLimit params) = 32%nat /\ 0 < le_val (QIP9PosLimit params)
}.

Lemma GetLimit_spec params h pos :
  pow_params_ok params -> wf (GetLimit h params pos) /\ 0 < val (GetLimit h params pos).
Proof.
  intros [_ _ _ (? & ? & ?) (? & ? & ?) (? & ? & ?)]. unfold GetLimit.
  destruct pos; [destruct (h <? QIP9Height params)|];
    destruct (UintToArith256_spec (posLimit params)); try done;
    destruct (UintToArith256_spec (QIP9PosLimit params)); try done;
    destruct (UintToArith256_spec (powLimit params)); try done; split; try done; lia.
Qed.

Lemma interval_spec params h :
  pow_params_ok params ->
  exists I, DifficultyAdjustmentInterval params h = Ok I /\
    0 <= I /\ I * nPowTargetSpacing params < 2 ^ 24 /\
    (QIP9Height params <= h -> I = nPowTargetTimespanV2 params / nPowTargetSpacing params).
Proof.
  intros [Hs Ht Ht2 _ _ _]. unfold DifficultyAdjustmentInterval.
  destruct (Z.eqb_spec (nPowTargetSpacing params) 0); [lia|]. eexists. split; [done|].
  destruct (Z.leb_spec (QIP9Height params) h); rewrite Z.quot_div_nonneg by lia.
  - pose proof (Z.mul_div_le (nPowTargetTimespanV2 params) (nPowTargetSpacing params)).
    pose proof (Z.div_pos (nPowTargetTimespanV2 params) (nPowTargetSpacing params)). split_and!; [lia|lia|done].
  - pose proof (Z.mul_div_le (nPowTargetTimespan params) (nPowTargetSpacing params)).
    pose proof (Z.div_pos (nPowTargetTimespan params) (nPowTargetSpacing params)). split_and!; lia.
Qed.

Lemma SetCompact_wf c : in_u 32 c -> wf (fst (fst (SetCompact c))).
Proof. intros Hc. pose proof (SetCompact_spec c Hc) as H. by destruct (SetCompact c) as [[t n] o], H. Qed.

Lemma retarget_total params h I A t :
  pow_params_ok params -> 0 <= I -> I * nPowTargetSpacing params < 2 ^ 24 -> in_s 33 A -> wf t ->
  exists r, retarget params h I A t = Ok r /\ wf r.
Proof.
  intros [Hs _ _ _ _ _] HI HIT HA Wt. set (T := nPowTargetSpacing params) in *.
  assert (Hq : s64 ((I + 1) * T) = (I + 1) * T) by (apply swrap_small; unfold in_s; lia).
  assert (Hq64 : u64 ((I + 1) * T) = (I + 1) * T) by (apply wrap_small; unfold in_u; lia).
  unfold retarget. fold T. destruct (h <? QIP9Height params).
  - rewrite Hq, Hq64. set (m := mul32 _ _).
    assert (wf m) as Wm by (apply mul32_spec; [done|apply wrap_range; lia]).
    pose proof (div_spec m (of_uint64 ((I + 1) * T)) Wm (of_uint64_wf _)) as Hd.
    rewrite of_uint64_val in Hd by (unfold in_u; lia).
    destruct (div m _) as [r|]; [|nia]. exists r. by destruct Hd as (_ & ? & _).
  - rewrite Hq. apply mul_exp_terminates; [done|].
    rewrite wrap_small by (unfold in_u; split; [apply Z.quot_pos; nia|rewrite Z.quot_div_nonneg by nia; zdiv_lia]).
    rewrite Z.quot_div_nonneg by nia. apply Z.div_str_pos. nia.
Qed.

Lemma clamp_spec x limit :
  wf x -> wf limit -> 0 < val limit ->
  let y := if leb x (of_uint64 0) || gtb x limit then limit else x in
  wf y /\ 0 < val y <= val limit /\ (0 < val x <= val limit -> y = x) /\ (y = x \/ y = limit).
Proof.
  intros Wx Wl Hl. cbv zeta. rewrite leb_spec, gtb_spec, of_uint64_val by (done || apply of_uint64_wf || (unfold in_u; lia)).
  pose proof (val_wf x Wx). destruct (Z.leb_spec (val x) 0), (Z.ltb_spec (val limit) (val x)); cbn [orb];
    split_and!; try done; try lia; auto.
Qed.

(** The result of [CalculateNextWorkRequired] is the encoding of a target
    in (0, limit]. *)
Lemma CalculateNextWorkRequired_spec b first params pos :
  pow_params_ok params -> in_u 32 (nBits b) -> in_u 32 (nTime b) -> in_u 32 first ->
  (if pos : bool then fPoSNoRetargeting params else fPowNoRetargeting params) = false ->
  exists I x y,
    DifficultyAdjustmentInterval params (nHeight b + 1) = Ok I /\
    retarget params (nHeight b + 1) I (nTime b - first) (fst (fst (SetCompact (nBits b)))) = Ok x /\
    CalculateNextWorkRequired b first params pos = Ok (compact_encode (val y)) /\
    wf x /\ wf y /\ 0 < val y <= val (GetLimit (nHeight b + 1) params pos) /\
    (0 < val x <= val (GetLimit (nHeight b + 1) params pos) -> y = x) /\
    (y = x \/ y = GetLimit (nHeight b + 1) params pos).
Proof.
  intros Hok Hb Ht Hf Hret. destruct (interval_spec params (nHeight b + 1) Hok) as (I & HI & HI0 & HIT & _).
  destruct (GetLimit_spec params (nHeight b + 1) pos Hok) as [Wl Hl].
  destruct (retarget_total params (nHeight b + 1) I (nTime b - first) (fst (fst (SetCompact (nBits b)))))
    as (x & Hx & Wx); [done|done|done|unfold in_s, in_u in *; lia|by apply SetCompact_wf|].
  destruct (clamp_spec x _ Wx Wl Hl) as (Wy & Hy & Hyx & Hor).
  eexists I, x, _. split_and!; [done|done| |done|exact Wy|exact (proj1 Hy)|exact (proj2 Hy)|exact Hyx|exact Hor].
  unfold CalculateNextWorkRequired. rewrite Hret. unfold GetBlockTime. rewrite HI. cbn [obind]. rewrite Hx. cbn [obind].
  by rewrite (GetCompact_spec _ Wy).
Qed.

(** The series at zero, and the adjusted spacing after QIP9. *)
Lemma mul_exp_zero a q r :
  wf a -> 0 < q < 2 ^ 32 -> mul_exp a 0 q = Ok r -> val r = val a.
Proof.
  intros Wa Hq Hr. unfold mul_exp in Hr. cbn [Z.ltb Z.leb Z.compare] in Hr. change (u64 0) with 0 in Hr.
  destruct (Z.eq_dec (val a) 0) as [Hz|Hnz]; [rewrite mul_exp_stop in Hr by done; by simplify_eq|].
  assert (Hu : u64 q = q) by (apply wrap_small; unfold in_u; lia).
  assert (Hf : mul_exp_fuel 0 q = S 258) by (unfold mul_exp_fuel; rewrite Hu; by rewrite Z.div_0_l by lia).
  rewrite Hf in Hr. pose proof (val_wf a Wa).
  destruct (mul_exp_step 0 q false ltac:(lia) 258 a a 0) as (a' & Wa' & Va' & Hstep); [done|done|lia|lia|].
  rewrite Hstep in Hr. cbn [andb] in Hr. change (u32 0) with 0 in Va'. rewrite Z.mul_0_r, Hu in Va'.
  rewrite Z.mod_0_l, !Z.div_0_l in Va' by lia. rewrite mul_exp_stop in Hr by done. injection Hr as <-.
  destruct (add_spec a a' Wa Wa') as [_ ->]. rewrite Va', Z.add_0_r. apply Z.mod_small. lia.
Qed.

Section after_QIP9.
Context (params : Params) (h I A : Z) (t x : base_uint).
Context (Hok : pow_params_ok params) (Hh : QIP9Height params <= h)
  (HI : 37 <= I) (HIT : I * nPowTargetSpacing params < 2 ^ 24)
  (Wt : wf t) (Ht : 0 < val t) (H3 : 3 * val t < 2 ^ 256)
  (Hx : retarget params h I A t = Ok x).

Lemma retarget_QIP9_mul_exp :
  exists A', 0 <= A' <= 20 * nPowTargetSpacing params /\
    (A <= nPowTargetSpacing params -> A' <= nPowTargetSpacing params) /\
    (nPowTargetSpacing params <= A -> nPowTargetSpacing params <= A') /\
    mul_exp t (Z.quot (2 * (A' - nPowTargetSpacing params)) 16)
      ((I + 1) * nPowTargetSpacing params / 16) = Ok x.
Proof.
  destruct Hok as [Hs _ _ _ _ _]. unfold retarget in Hx. set (T := nPowTargetSpacing params) in *.
  destruct (Z.ltb_spec h (QIP9Height params)); [lia|].
  rewrite (swrap_small 64 (T * 20)) in Hx by (unfold in_s; lia).
  set (A1 := if A <? 0 then T else A) in *. set (A2 := if T * 20 <? A1 then T * 20 else A1) in *.
  assert (HA2 : 0 <= A2 <= 20 * T /\ (A <= T -> A2 <= T) /\ (T <= A -> T <= A2)).
  { unfold A2, A1. destruct (Z.ltb_spec A 0).
    - destruct (Z.ltb_spec (T * 20) T); lia.
    - destruct (Z.ltb_spec (T * 20) A); lia. }
  exists A2. split_and!; [lia|lia|lia|lia|].
  rewrite (swrap_small 64 (2 * _)), (swrap_small 64 ((I + 1) * T)) in Hx by (unfold in_s; nia).
  by rewrite (Z.quot_div_nonneg ((I + 1) * T)) in Hx by nia.
Qed.

Lemma retarget_fast : A <= nPowTargetSpacing params -> 0 < val x <= val t.
Proof.
  intros Hfast. destruct retarget_QIP9_mul_exp as (A' & HA' & Hlo & _ & Hm). destruct Hok as [Hs _ _ _ _ _].
  set (T := nPowTargetSpacing params) in *. specialize (Hlo Hfast).
  assert (Hq : 2 * T / 16 < (I + 1) * T / 16 < 2 ^ 32).
  { split; [|apply Z.div_lt_upper_bound; nia].
    apply Z.lt_le_trans with (2 * T / 16 + 1); [lia|]. rewrite <- Z.div_add by lia. apply Z.div_le_mono; nia. }
  assert (0 <= 2 * T / 16) by (apply Z.div_pos; lia).
  replace (2 * (A' - T)) with (- (2 * (T - A'))) in Hm by lia.
  rewrite Z.quot_opp_l, Z.quot_div_nonneg in Hm by lia.
  assert (0 <= 2 * (T - A') / 16 <= 2 * T / 16) by (split; [apply Z.div_pos; lia|apply Z.div_le_mono; lia]).
  destruct (Z.eq_dec (2 * (T - A') / 16) 0) as [Ez|].
  - rewrite Ez in Hm. change (- 0) with 0 in Hm. apply mul_exp_zero in Hm; [lia|done|lia].
  - eapply mul_exp_down; [done| | |done|exact Hm]; lia.
Qed.

Lemma retarget_slow : nPowTargetSpacing params <= A -> val t <= val x.
Proof.
  intros Hslow. destruct retarget_QIP9_mul_exp as (A' & HA' & _ & Hhi & Hm). destruct Hok as [Hs _ _ _ _ _].
  set (T := nPowTargetSpacing params) in *. specialize (Hhi Hslow).
  rewrite Z.quot_div_nonneg in Hm by lia.
  assert (0 <= 2 * (A' - T) / 16 <= (I + 1) * T / 16)
    by (split; [apply Z.div_pos; lia|apply Z.div_le_mono; nia]).
  assert (0 < (I + 1) * T / 16 < 2 ^ 32) by (split; [apply Z.div_str_pos; nia|apply Z.div_lt_upper_bound; nia]).
  apply mul_exp_up in Hm; try done; lia.
Qed.
End after_QIP9.

Lemma decode_encode v :
  0 <= v < 2 ^ 256 ->
  exists t, SetCompact (compact_encode v) = (t, false, false) /\ wf t /\ val t = compact_trunc v.
Proof.
  intros Hv. destruct (compact_encode_parts v Hv) as (Hc & _ & _ & Hs).
  pose proof (SetCompact_spec _ Hc) as HS. rewrite (compact_encode_value v Hv), Hs, andb_false_r in HS.
  destruct (compact_trunc_bounds v Hv) as [Hb _].
  destruct (SetCompact (compact_encode v)) as [[t n] o]. destruct HS as (Wt & Vt & -> & ->).
  rewrite Z.mod_small in Vt by lia. destruct (Z.leb_spec (2 ^ 256) (compact_trunc v)); [lia|].
  by exists t.
Qed.

Lemma compact_trunc_pos v : 0 < v < 2 ^ 256 -> 0 < compact_trunc v <= v.
Proof. intros Hv. destruct (compact_trunc_bounds v) as [? ?]; lia. Qed.

(** ** The blocks [GetNextWorkRequired] looks at *)

(** The nearest entry of the kind on the way back from [p], or the root *)
Record last_of_kind (st : gmap ptr CBlockIndex) (pos : bool) (p q : ptr) (bq : CBlockIndex) : Prop := {
  lk_entry : st !! q = Some bq;
  lk_ancestor : ancestor st q p;
  lk_kind : pprev bq = None \/ IsProofOfStake bq = pos;
  lk_nearest : forall x bx, ancestor st x p -> st !! x = Some bx -> nHeight bq < nHeight bx -> IsProofOfStake bx <> pos
}.

Lemma ancestor_self_or_parent st p b x : st !! p = Some b -> ancestor st x p -> x = p \/ exists q, pprev b = Some q /\ ancestor st x q.
Proof.
  intros Hp [[|n] Hn]; [left; by injection Hn|right]. rewrite (walk_step _ _ _ _ Hp) in Hn. destruct (pprev b) as [q|]; [|done]. exists q. split; [done|by exists n].
Qed.

Lemma last_of_kind_self st pos p b : wf_store st -> st !! p = Some b -> pprev b = None \/ IsProofOfStake b = pos -> last_of_kind st pos p p b.
Proof.
  intros Hwf Hp Hk. split; [done|by exists O|done|]. intros x bx Hx Hbx Hlt. destruct (ancestor_height _ _ _ _ Hwf Hp Hx) as (bx' & Hbx' & Hle). simplify_eq. lia.
Qed.

Lemma last_of_kind_step st pos p b r q bq :
  st !! p = Some b -> pprev b = Some r -> IsProofOfStake b <> pos -> last_of_kind st pos r q bq -> last_of_kind st pos p q bq.
Proof.
  intros Hp Hr Hk [He Ha Hkd Hn]. split; [done| |done|].
  - eapply ancestor_trans; [|exact Ha]. exists 1%nat. by rewrite (walk_step _ _ _ _ Hp), Hr.
  - intros x bx [->|(r' & Hr' & Hx)]%(ancestor_self_or_parent st p b x Hp) Hbx Hlt; [by simplify_eq|]. simplify_eq. by apply (Hn x).
Qed.

Lemma GetLastBlockIndex_spec st p b pos :
  wf_store st -> st !! p = Some b -> exists q bq, GetLastBlockIndex st (Some p) pos = Ok (Some q) /\ last_of_kind st pos p q bq.
Proof.
  intros Hwf Hp. unfold GetLastBlockIndex, deref. rewrite Hp. cbn [of_option obind].
  assert (Hloop : forall fuel p b, st !! p = Some b -> nHeight b <= Z.of_nat fuel ->
    exists q bq, GetLastBlockIndex_loop fuel st p pos = Ok q /\ last_of_kind st pos p q bq).
  { clear p b Hp. induction fuel as [|fuel IH]; intros p b Hp Hf; destruct (Hwf _ _ Hp) as [H0 _ Hprev _];
      cbn [GetLastBlockIndex_loop]; unfold deref; rewrite Hp; cbn [of_option obind].
    all: destruct (pprev b) as [q|] eqn:Eq; [|exists p, b; split; [done|]; apply last_of_kind_self; auto].
    all: destruct (Bool.eqb_spec (IsProofOfStake b) pos) as [E|E]; cbn [negb]; [exists p, b; split; [done|]; apply last_of_kind_self; auto|].
    all: destruct Hprev as (bq & Hq & Hh); destruct (Hwf _ _ Hq) as [H0q _ _ _].
    { lia. }
    destruct (IH q bq Hq) as (r & br & Hr & Hk); [lia|]. exists r, br. split; [done|]. by eapply last_of_kind_step. }
  destruct (Hwf _ _ Hp) as [H0 _ _ _].
  destruct (Hloop (Z.to_nat (nHeight b)) p b Hp) as (q & bq & -> & Hk); [lia|]. by exists q, bq.
Qed.

Definition store_widths (st : gmap ptr CBlockIndex) : Prop :=
  forall p b, st !! p = Some b -> in_u 32 (nBits b) /\ in_u 32 (nTime b).

Lemma limit_encodes params h pos :
  pow_params_ok params ->
  exists t, of_option (GetCompact (GetLimit h params pos) false) =
      Ok (compact_encode (val (GetLimit h params pos))) /\
    SetCompact (compact_encode (val (GetLimit h params pos))) = (t, false, false) /\
    0 < val t <= val (GetLimit h params pos).
Proof.
  intros Hok. destruct (GetLimit_spec params h pos Hok) as [Wl Hl].
  pose proof (val_wf _ Wl). destruct (decode_encode (val (GetLimit h params pos))) as (t & Ht & _ & Vt); [lia|].
  exists t. rewrite (GetCompact_spec _ Wl), Vt. split_and!; [done|done|apply compact_trunc_pos; lia..].
Qed.

(** The encoding of a target, decoded *)
Lemma encodes_target y limit :
  wf y -> 0 < val y <= limit -> exists t, SetCompact (compact_encode (val y)) = (t, false, false) /\ 0 < val t <= limit.
Proof.
  intros Wy Hy. pose proof (val_wf y Wy). destruct (decode_encode (val y)) as (t & Ht & _ & Vt); [lia|].
  pose proof (compact_trunc_pos (val y) ltac:(lia)). exists t. split; [done|lia].
Qed.

(** Two blocks of the kind do not come before the new one. *)
Definition young (st : gmap ptr CBlockIndex) (pos : bool) (bq : CBlockIndex) : Prop :=
  pprev bq = None \/ exists pp r br, pprev bq = Some pp /\ last_of_kind st pos pp r br /\ pprev br = None.

(** The target that is asked for after [p], the last block of whose kind is
    [bq]: the limit of the new height at first, then that of [bq] moved by the
    spacing to the block [br] of the kind before it and cut to the limit of
    the height after [bq], or as it is where there is no retargeting *)
Record next_target (st : gmap ptr CBlockIndex) (params : Params) (pos : bool) (b bq : CBlockIndex) (c : Z) : Prop := {
  nt_young : young st pos bq -> c = compact_encode (val (GetLimit (nHeight b + 1) params pos));
  nt_fixed : ~ young st pos bq -> (if pos then fPoSNoRetargeting params else fPowNoRetargeting params) = true -> c = nBits bq;
  nt_moved : ~ young st pos bq -> (if pos then fPoSNoRetargeting params else fPowNoRetargeting params) = false ->
    exists pp r br I x, pprev bq = Some pp /\ last_of_kind st pos pp r br /\ DifficultyAdjustmentInterval params (nHeight bq + 1) = Ok I /\
      retarget params (nHeight bq + 1) I (nTime bq - nTime br) (fst (fst (SetCompact (nBits bq)))) = Ok x /\
      let limit := val (GetLimit (nHeight bq + 1) params pos) in
      c = compact_encode (if (0 <? val x) && (val x <=? limit) then val x else limit)
}.

Lemma clamped x y limit : wf x -> 0 < val limit -> (0 < val x <= val limit -> y = x) -> (y = x \/ y = limit) -> 0 < val y <= val limit ->
  val y = if (0 <? val x) && (val x <=? val limit) then val x else val limit.
Proof.
  intros Wx Hl Hin Hor Hy. destruct (Z.ltb_spec 0 (val x)), (Z.leb_spec (val x) (val limit)); cbn [andb]; [by rewrite Hin|..]; destruct Hor as [->| ->]; (done || lia).
Qed.

Lemma last_of_kind_det st pos p b q bq q' bq' :
  wf_store st -> st !! p = Some b -> last_of_kind st pos p q bq -> last_of_kind st pos p q' bq' -> q = q' /\ bq = bq'.
Proof.
  intros Hwf Hp [He Ha Hk Hn] [He' Ha' Hk' Hn'].
  assert (Hroot : forall x bx y by_, last_of_kind st pos p x bx -> last_of_kind st pos p y by_ -> nHeight bx < nHeight by_ -> False).
  { intros x bx y by_ [Ex Ax Kx Nx] [Ey Ay Ky Ny] Hlt. destruct Ky as [E|E]; [|by apply (Nx y by_ Ay Ey Hlt)].
    pose proof (wf_pprev _ _ _ (Hwf _ _ Ey)) as Hh. rewrite E in Hh. pose proof (wf_height _ _ _ (Hwf _ _ Ex)). lia. }
  assert (Eh : nHeight bq = nHeight bq').
  { destruct (Z.lt_trichotomy (nHeight bq) (nHeight bq')) as [Hlt|[E|Hlt]]; [|done|]; exfalso.
    - eapply (Hroot q bq q' bq'); [by split|by split|done].
    - eapply (Hroot q' bq' q bq); [by split|by split|done]. }
  pose proof (ancestor_distance _ _ _ _ _ Hwf Hp He Ha) as W. pose proof (ancestor_distance _ _ _ _ _ Hwf Hp He' Ha') as W'. rewrite Eh in W. simplify_eq. done.
Qed.

Lemma GetNextWorkRequired_spec st p b pblock params pos :
  wf_store st -> store_widths st -> pow_params_ok params -> fPowAllowMinDifficultyBlocks params = false -> st !! p = Some b ->
  exists c q bq, GetNextWorkRequired st (Some p) pblock params pos = Ok c /\ last_of_kind st pos p q bq /\ next_target st params pos b bq c.
Proof.
  intros Hwf Hwid Hok Hmin Hp. unfold GetNextWorkRequired, deref. rewrite Hp. cbn [of_option obind].
  destruct (limit_encodes params (nHeight b + 1) pos Hok) as (t & -> & Ht & Hb). cbn [obind].
  destruct (GetLastBlockIndex_spec st p b pos Hwf Hp) as (q & bq & -> & Hk). pose proof (lk_entry _ _ _ _ _ Hk) as Hq.
  cbn [obind of_option]. rewrite Hq. cbn [obind of_option]. pose proof (wf_pprev _ _ _ (Hwf _ _ Hq)) as Hprev.
  destruct (pprev bq) as [pp|] eqn:Epp.
  2: { eexists _, q, bq. split_and!; [done|done|]. assert (young st pos bq) by by left. by split. }
  destruct Hprev as (bpp & Hpp & _). destruct (GetLastBlockIndex_spec st pp bpp pos Hwf Hpp) as (r & br & -> & Hkr).
  pose proof (lk_entry _ _ _ _ _ Hkr) as Hr. cbn [obind of_option]. rewrite Hr. cbn [obind of_option]. destruct (pprev br) eqn:Ebr.
  2: { eexists _, q, bq. split_and!; [done|done|]. assert (young st pos bq) by (right; by exists pp, r, br). by split. }
  assert (Hold : ~ young st pos bq).
  { intros [E|(pp' & r' & br' & E & Hkr' & En)]; [congruence|]. rewrite Epp in E. injection E as <-.
    destruct (last_of_kind_det st pos pp bpp r br r' br' Hwf Hpp Hkr Hkr') as [_ <-]. congruence. }
  cbn [obind of_option]. rewrite Hmin. destruct (Hwid _ _ Hq) as [Hbq Htq]. destruct (Hwid _ _ Hr) as [_ Htr].
  destruct (if pos then fPoSNoRetargeting params else fPowNoRetargeting params) eqn:Hret.
  - unfold CalculateNextWorkRequired. rewrite Hret. eexists _, q, bq. split_and!; [done|done|]. split; [done|done|]. congruence.
  - destruct (CalculateNextWorkRequired_spec bq (GetBlockTime br) params pos) as (I & x & y & HI & Hx & -> & Wx & _ & Hy & Hin & Hor); [done..|].
    eexists _, q, bq. split_and!; [done|done|]. split; [done|congruence|]. intros _ _. exists pp, r, br, I, x. split_and!; [done|done|done|done|].
    cbv zeta. f_equal. destruct (GetLimit_spec params (nHeight bq + 1) pos Hok). by apply (clamped x y (GetLimit (nHeight bq + 1) params pos)).
Qed.

(** Where difficulties are never lowered it returns, retargeting or not. *)
Lemma GetNextWorkRequired_returns st p b pblock params pos :
  wf_store st -> store_widths st -> pow_params_ok params -> fPowAllowMinDifficultyBlocks params = false -> st !! p = Some b ->
  exists c, GetNextWorkRequired st (Some p) pblock params pos = Ok c.
Proof. intros Hwf Hwid Hok Hmin Hp. destruct (GetNextWorkRequired_spec st p b pblock params pos Hwf Hwid Hok Hmin Hp) as (c & _ & _ & E & _). eauto. Qed.

(** Whether there are two blocks of the kind can be found out. *)
Lemma young_dec st pos q bq : wf_store st -> st !! q = Some bq -> young st pos bq \/ ~ young st pos bq.
Proof.
  intros Hwf Hq. pose proof (wf_pprev _ _ _ (Hwf _ _ Hq)) as Hprev. destruct (pprev bq) as [pp|] eqn:E; [|by left; left]. destruct Hprev as (bpp & Hpp & _).
  destruct (GetLastBlockIndex_spec st pp bpp pos Hwf Hpp) as (r & br & _ & Hk). destruct (pprev br) eqn:Er.
  - right. intros [E'|(pp' & r' & br' & E' & Hk' & Er')]; [congruence|]. rewrite E in E'. injection E' as <-.
    destruct (last_of_kind_det st pos pp bpp r br r' br' Hwf Hpp Hk Hk') as [_ <-]. congruence.
  - left. right. by exists pp, r, br.
Qed.

(** A target within the limit at a height *)
Definition bits_ok (params : Params) (pos : bool) (h c : Z) : Prop :=
  exists t, SetCompact c = (t, false, false) /\ 0 < val t <= val (GetLimit h params pos).

Lemma next_target_bits_ok st params pos b q bq c :
  pow_params_ok params -> store_widths st -> wf_store st -> st !! q = Some bq -> next_target st params pos b bq c ->
  (young st pos bq -> bits_ok params pos (nHeight b + 1) c) /\
  (~ young st pos bq -> ((if pos then fPoSNoRetargeting params else fPowNoRetargeting params) = true -> bits_ok params pos (nHeight bq + 1) (nBits bq)) ->
    bits_ok params pos (nHeight bq + 1) c).
Proof.
  intros Hok Hwid Hwf Hq [Hy Hfix Hmov]. split.
  - intros ->%Hy. destruct (limit_encodes params (nHeight b + 1) pos Hok) as (t & _ & Ht). by exists t.
  - intros Hold Hinv. destruct (if pos then fPoSNoRetargeting params else fPowNoRetargeting params) eqn:Hret; [rewrite (Hfix Hold eq_refl); by apply Hinv|].
    destruct (Hmov Hold eq_refl) as (pp & r & br & I & x & _ & Hkr & HI & Hx & ->). destruct (GetLimit_spec params (nHeight bq + 1) pos Hok) as [Wl Hl].
    destruct (Hwid _ _ Hq) as [Hbq Htq]. destruct (Hwid _ _ (lk_entry _ _ _ _ _ Hkr)) as [_ Htr].
    destruct (interval_spec params (nHeight bq + 1) Hok) as (I' & HI' & HI0 & HIT & _). rewrite HI in HI'. injection HI' as <-.
    destruct (retarget_total params (nHeight bq + 1) I (nTime bq - nTime br) (fst (fst (SetCompact (nBits bq))))) as (x' & Hx' & Wx);
      [done|done|done|unfold in_s, in_u in *; lia|by apply SetCompact_wf|]. rewrite Hx in Hx'. injection Hx' as <-.
    destruct (Z.ltb_spec 0 (val x)), (Z.leb_spec (val x) (val (GetLimit (nHeight bq + 1) params pos))); cbn [andb]; apply encodes_target; (done || lia).
Qed.

(** * Properties *)

(** C33: on a well-formed block map, where the minimum-difficulty rule is off (as
    on the main and the test network), [GetNextWorkRequired] returns after
    no block and after every block, for both kinds of proof.  With fewer than two blocks of the
    kind the result encodes the limit of the new height.  Otherwise, without
    retargeting (proof of work on these networks) it is the target of the last
    block of the kind; with retargeting it is that target moved by the spacing
    of the last two blocks of the kind and cut to the limit of the height
    after the last one.  So it decodes to a positive target within that limit,
    without retargeting provided that the target of the last block does. *)
Theorem next_target_positive_and_limited st p b pblock params pos :
  wf_store st -> store_widths st -> pow_params_ok params -> fPowAllowMinDifficultyBlocks params = false -> st !! p = Some b ->
  (exists c, GetNextWorkRequired st None pblock params pos = Ok c /\ c = compact_encode (val (GetLimit 0 params pos)) /\ bits_ok params pos 0 c) /\
  exists c q bq, GetNextWorkRequired st (Some p) pblock params pos = Ok c /\ last_of_kind st pos p q bq /\ next_target st params pos b bq c /\
    (young st pos bq /\ bits_ok params pos (nHeight b + 1) c \/
     ~ young st pos bq /\
       (((if pos then fPoSNoRetargeting params else fPowNoRetargeting params) = true -> bits_ok params pos (nHeight bq + 1) (nBits bq)) ->
        bits_ok params pos (nHeight bq + 1) c)).
Proof.
  intros Hwf Hwid Hok Hmin Hp. split.
  { destruct (limit_encodes params 0 pos Hok) as (t & E & Ht). unfold GetNextWorkRequired. cbn [obind]. rewrite E. cbn [obind]. eexists. split_and!; [done|done|by exists t]. }
  destruct (GetNextWorkRequired_spec st p b pblock params pos Hwf Hwid Hok Hmin Hp) as (c & q & bq & E & Hk & Hn).
  pose proof (lk_entry _ _ _ _ _ Hk) as Hq. destruct (next_target_bits_ok st params pos b q bq c Hok Hwid Hwf Hq Hn) as [H1 H2].
  exists c, q, bq. split_and!; [done|done|done|]. destruct (young_dec st pos q bq Hwf Hq); [left|right]; auto.
Qed.

(** The mainnet parameters that the difficulty rules read. *)
Definition example_limit (zeros : nat) (top : Z) : uint256 := repeat 0xff (31 - zeros) ++ [top] ++ repeat 0 zeros.

Definition mainnet_pow : Params := {|
  hashGenesisBlock := uint256_null; nSubsidyHalvingInterval := 985500; BIP16Exception := uint256_null;
  BIP34Height := 0; BIP34Hash := uint256_null; BIP65Height := 0; BIP66Height := 0; CSVHeight := 1;
  SegwitHeight := 1; MinBIP9WarningHeight := 0; QIP5Height := 0; QIP6Height := 0; QIP7Height := 0;
  QIP9Height := 5000; minMIP1Height := 0; MIP1Height := 0; minMIP2Height := 0; MIP2Height := 0;
  MIP3StartHeight := 0; MIP3Height := 0; MIP4StartHeight := 0; MIP4Height := 0; MIP5StartHeight := 0;
  MIP5Height := 0; MIP6StartHeight := 0; MIP6Height := 0;
  nRuleChangeActivationThreshold := 6384; nMinerConfirmationWindow := 6720;
  vDeployments := fun _ => {| bit := 28; nStartTime := 0; nTimeout := NO_TIMEOUT; nStartHeight := 0 |};
  powLimit := example_limit 2 0xff; posLimit := example_limit 4 0xff; QIP9PosLimit := example_limit 6 0x1f;
  fPowAllowMinDifficultyBlocks := false; fPowNoRetargeting := true; fPoSNoRetargeting := false;
  nPowTargetSpacing := 90; nPowTargetTimespan := 960; nPowTargetTimespanV2 := 4000; nPowTargetTimespanV3 := 4000;
  nMinimumChainWork := uint256_null; defaultAssumeValid := uint256_null; nLastPOWBlock := 5000;
  nFirstMPoSBlock := 0x7fffffff; nMPoSRewardRecipients := 10; nFixUTXOCacheHFHeight := 0;
  nEnableHeaderSignatureHeight := 0; nCheckpointSpan := 960 |}.

Lemma bytes_ok_forallb l : forallb (fun x => (0 <=? x) && (x <? 256)) l = true -> bytes_ok l.
Proof.
  intros H. apply List.Forall_forall. intros x Hx. rewrite forallb_forall in H.
  apply H in Hx. unfold in_u. bool_to_prop. lia.
Qed.

Lemma mainnet_pow_ok : pow_params_ok mainnet_pow.
Proof.
  split; cbn -[bytes_ok le_val]; try lia; (split_and!; [by apply bytes_ok_forallb|done|by vm_compute]).
Qed.

Lemma example_store_widths : store_widths example_store.
Proof.
  intros p b H. unfold example_store in H.
  repeat (apply lookup_insert_Some in H as [[<- <-]|[_ H]]; [vm_compute; split; split; congruence|]).
  by rewrite lookup_empty in H.
Qed.

(** Block 4 has two blocks of proof of work before it. *)
Lemma next_target_positive_and_limited_witness :
  GetNextWorkRequired example_store (Some 4%positive) header_null mainnet_pow false = Ok 0x1d00ffff /\ bits_ok mainnet_pow false 4 0x1d00ffff.
Proof.
  destruct (next_target_positive_and_limited example_store 4%positive (example_index 4 3 (Some 3%positive) (Some 2%positive) 130) header_null mainnet_pow false
    example_store_wf example_store_widths mainnet_pow_ok eq_refl eq_refl) as (_ & c & q & bq & Hc & Hk & Hn & Hy).
  assert (E : GetNextWorkRequired example_store (Some 4%positive) header_null mainnet_pow false = Ok 0x1d00ffff) by (vm_compute; reflexivity).
  rewrite Hc in E. injection E as ->. split; [exact Hc|].
  assert (Hq : last_of_kind example_store false 4%positive 4%positive (example_index 4 3 (Some 3%positive) (Some 2%positive) 130))
    by (apply last_of_kind_self; [exact example_store_wf|reflexivity|right; reflexivity]).
  destruct (last_of_kind_det _ _ _ _ _ _ _ _ example_store_wf (eq_refl : example_store !! 4%positive = Some _) Hk Hq) as [_ ->].
  destruct Hy as [[_ Hy]|[_ Hy]]; [exact Hy|]. apply Hy. intros _. eexists. split; [vm_compute; reflexivity|]. vm_compute. split; congruence.
Defined.

(** After QIP9 the exponential retargeting follows the spacing: with
    the interval long enough for the series to alternate (45 in all the
    parameter sets) blocks that come faster than the target spacing never
    raise the target, and blocks that come slower never lower it below the
    encoding of the old one. *)
Theorem retarget_follows_spacing b first params pos :
  pow_params_ok params -> in_u 32 (nBits b) -> in_u 32 (nTime b) -> in_u 32 first ->
  (if pos : bool then fPoSNoRetargeting params else fPowNoRetargeting params) = false ->
  QIP9Height params <= nHeight b + 1 ->
  37 <= nPowTargetTimespanV2 params / nPowTargetSpacing params ->
  let limit := val (GetLimit (nHeight b + 1) params pos) in
  let old := val (fst (fst (SetCompact (nBits b)))) in
  0 < old <= limit -> 3 * limit < 2 ^ 256 ->
  exists c t, CalculateNextWorkRequired b first params pos = Ok c /\ SetCompact c = (t, false, false) /\
    (nTime b - first <= nPowTargetSpacing params -> val t <= old) /\
    (nPowTargetSpacing params <= nTime b - first -> compact_trunc old <= val t).
Proof.
  intros Hok Hb Ht Hf Hret Hh H37 limit old Hold H3.
  destruct (CalculateNextWorkRequired_spec b first params pos)
    as (I & x & y & HI & Hx & HC & Wx & Wy & Hy & Hyx & Hor); [done..|]. fold limit in Hy, Hyx.
  destruct (interval_spec params (nHeight b + 1) Hok) as (I' & HI' & HI0 & HIT & HIq).
  rewrite HI in HI'. injection HI' as <-. specialize (HIq Hh). rewrite <- HIq in H37.
  pose proof (val_wf y Wy). destruct (decode_encode (val y)) as (t & Hdec & _ & Vt); [lia|].
  pose proof (SetCompact_wf _ Hb) as Wold.
  exists (compact_encode (val y)), t. split_and!; [done|done|..]; rewrite Vt; intros Hsp.
  - apply (retarget_fast _ _ _ _ _ _ Hok Hh H37 HIT Wold) in Hx; [|fold old; lia..|done]. fold old in Hx.
    rewrite Hyx by lia. pose proof (compact_trunc_pos (val x)). lia.
  - apply (retarget_slow _ _ _ _ _ _ Hok Hh H37 HIT Wold) in Hx; [|fold old; lia..|done]. fold old in Hx.
    apply compact_trunc_mono; [lia| |lia]. destruct Hor as [->| ->]; [lia|fold limit; lia].
Qed.

(** A block of the QIP9 era that came 30 seconds after its predecessor. *)
Definition example_fast_block : CBlockIndex :=
  mkBlockIndex (Some (repeat 7 32)) None None None 5200 0 8 8 (of_uint64 0) 1 1 0x1d 0x20000000 (repeat 7 32)
    1000030 0x1900ffff 0 uint256_null uint256_null [] uint256_null outpoint_null uint256_null 0 0 1000030.

Lemma retarget_follows_spacing_witness :
  exists c t, CalculateNextWorkRequired example_fast_block 1000000 mainnet_pow true = Ok c /\
    SetCompact c = (t, false, false) /\ val t <= val (fst (fst (SetCompact 0x1900ffff))) /\ c = 0x1900f902.
Proof.
  destruct (retarget_follows_spacing example_fast_block 1000000 mainnet_pow true mainnet_pow_ok
    ltac:(cbn; unfold in_u; lia) ltac:(cbn; unfold in_u; lia) ltac:(unfold in_u; lia) eq_refl
    ltac:(cbn; lia) ltac:(cbn; vm_compute; congruence)
    ltac:(vm_compute; split; congruence) ltac:(vm_compute; congruence))
    as (c & t & Hc & Ht & Hfast & _).
  exists c, t. split_and!; [exact Hc|exact Ht|apply Hfast; vm_compute; congruence|].
  assert (Hv : CalculateNextWorkRequired example_fast_block 1000000 mainnet_pow true = Ok 0x1900f902)
    by (vm_compute; reflexivity).
  rewrite Hv in Hc. injection Hc as <-. reflexivity.
Defined.

(** A hash passes [CheckProofOfWork] exactly when the compact target is
    positive, not above the proof-of-work limit, and not below the hash read
    as a little-endian number. *)
Theorem CheckProofOfWork_iff hash bits params :
  in_u 32 bits -> bytes_ok hash -> length hash = 32%nat ->
  bytes_ok (powLimit params) -> length (powLimit params) = 32%nat ->
  CheckProofOfWork hash bits params = true <->
  Z.testbit bits 23 = false /\ 0 < compact_value bits <= le_val (powLimit params) /\
  le_val hash <= compact_value bits.
Proof.
  intros Hb Hh Lh Hp Lp. unfold CheckProofOfWork. pose proof (SetCompact_spec bits Hb) as HS.
  destruct (SetCompact bits) as [[t neg] ovf]. destruct HS as (Wt & Vt & -> & ->).
  destruct (UintToArith256_spec hash Hh Lh) as [Wh Vh].
  destruct (UintToArith256_spec (powLimit params) Hp Lp) as [Wp Vp].
  rewrite (EqualTo_spec t 0 Wt) by (split; lia). rewrite !gtb_spec, Vh, Vp by done.
  pose proof (val_wf t Wt). pose proof (val_wf _ Wp). rewrite Vp in *.
  pose proof (compact_value_nonneg bits Hb) as Hnn.
  destruct (Z.leb_spec (2 ^ 256) (compact_value bits)); [rewrite !orb_true_r; cbn [orb]; split; [done|lia]|].
  rewrite Z.mod_small in Vt by lia. rewrite Vt.
  destruct (Z.eqb_spec (compact_value bits) 0); [rewrite orb_true_r; cbn [orb]; split; [done|lia]|].
  destruct (Z.testbit bits 23); [cbn; split; [done|by intros [? _]]|]. cbn [negb andb orb].
  destruct (Z.ltb_spec (le_val (powLimit params)) (compact_value bits)); [split; [done|lia]|].
  destruct (Z.ltb_spec (compact_value bits) (le_val hash)); cbn [negb]; split; (done || lia).
Qed.

Lemma CheckProofOfWork_iff_witness :
  CheckProofOfWork (example_limit 10 0x3f) 0x1900ffff mainnet_pow = true.
Proof.
  apply (CheckProofOfWork_iff (example_limit 10 0x3f) 0x1900ffff mainnet_pow
    ltac:(unfold in_u; lia) ltac:(by apply bytes_ok_forallb) eq_refl ltac:(by apply bytes_ok_forallb) eq_refl).
  split; [reflexivity|]. split; [split|]; vm_compute; congruence.
Defined.
