(* ===== verification/VersionBits.v ===== *)
(** * VersionBits: the BIP9 deployment state machine of src/src/versionbits.{h,cpp}

    [GetStateFor] computes the state of a period from the one before it and
    memoises states per period in a cache keyed by (possibly null) block
    pointers.  The class [ThresholdConditionChecker] is the abstract C++
    class; [VersionBitsConditionChecker] implements it.  The cached
    computation is shown to return the state that the transition rules
    derive, for every sound cache, and to keep the cache sound. *)

From Stdlib Require Import ZArith List Lia Bool.
From stdpp Require Import base decidable list gmap sorting.
From S2P Require Import Prelude Uint256 Primitives Chain Consensus.
Local Open Scope Z_scope.
Local Open Scope outcome_scope.

Definition VERSIONBITS_TOP_BITS : Z := 0x20000000.
Definition VERSIONBITS_TOP_MASK : Z := s32 0xE0000000.

Inductive ThresholdState := DEFINED | STARTED | LOCKED_IN | ACTIVE | FAILED.

Global Instance ThresholdState_eq_dec : EqDecision ThresholdState.
Proof. solve_decision. Defined.

(** [std::map<const CBlockIndex*, ThresholdState>]; the null pointer is a key. *)
Abbreviation ThresholdConditionCache := (gmap (option ptr) ThresholdState).

Record BIP9Stats := {
  stat_period : Z;
  stat_threshold : Z;
  stat_elapsed : Z;
  stat_count : Z;
  stat_possible : bool
}.

(** The virtual members of [AbstractThresholdConditionChecker]. *)
Class ThresholdConditionChecker (C : Type) := {
  Condition : C -> gmap ptr CBlockIndex -> ptr -> outcome bool;
  BeginTime : C -> Z;
  EndTime : C -> Z;
  BeginHeight : C -> Z;
  Period : C -> Z;
  Threshold : C -> Z
}.

Section GetStateFor.
Context {C : Type} `{ThresholdConditionChecker C} (c : C) (st : gmap ptr CBlockIndex).

(** [pindexPrev->GetAncestor(pindexPrev->nHeight - ((pindexPrev->nHeight + 1) % nPeriod))] *)
Definition period_start (p : ptr) : outcome (option ptr) :=
  b <-! deref st p;
  if Period c =? 0 then Fail
  else GetAncestor st p (nHeight b - Z.rem (nHeight b + 1) (Period c)).

(** The backward walk: the new cache, the block whose state is known and
    the blocks to compute, the one to compute first on top. *)
Fixpoint walk_back (fuel : nat) (cache : ThresholdConditionCache) (pindexPrev : option ptr)
    (vToCompute : list ptr) : outcome (ThresholdConditionCache * option ptr * list ptr) :=
  match cache !! pindexPrev with
  | Some _ => Ok (cache, pindexPrev, vToCompute)
  | None =>
      match pindexPrev with
      | None => Ok (<[None := DEFINED]> cache, None, vToCompute)
      | Some p =>
          b <-! deref st p;
          mtp <-! GetMedianTimePast st p;
          if mtp <? BeginTime c then Ok (<[Some p := DEFINED]> cache, Some p, vToCompute)
          else if nHeight b <? BeginHeight c then Ok (<[Some p := DEFINED]> cache, Some p, vToCompute)
          else
            match fuel with
            | O => NoFuel
            | S fuel =>
                prev <-! GetAncestor st p (nHeight b - Period c);
                walk_back fuel cache prev (p :: vToCompute)
            end
      end
  end.

(** [for (int i = 0; i < nPeriod; i++)] of the STARTED case. *)
Fixpoint count_conditions (n : nat) (pindexCount : option ptr) (count : Z) : outcome Z :=
  match n with
  | O => Ok count
  | S n =>
      p <-! of_option pindexCount;
      met <-! Condition c st p;
      b <-! deref st p;
      count_conditions n (pprev b) (if met : bool then count + 1 else count)
  end.

(** The [switch (state)] of the forward walk. *)
Definition next_state (p : ptr) (state : ThresholdState) : outcome ThresholdState :=
  match state with
  | DEFINED =>
      b <-! deref st p;
      mtp <-! GetMedianTimePast st p;
      if EndTime c <=? mtp then Ok FAILED
      else if (BeginTime c <=? mtp) && (BeginHeight c <=? nHeight b) then Ok STARTED
      else Ok DEFINED
  | STARTED =>
      mtp <-! GetMedianTimePast st p;
      if EndTime c <=? mtp then Ok FAILED
      else
        count <-! count_conditions (Z.to_nat (Period c)) (Some p) 0;
        if Threshold c <=? count then Ok LOCKED_IN else Ok STARTED
  | LOCKED_IN => Ok ACTIVE
  | FAILED => Ok FAILED
  | ACTIVE => Ok ACTIVE
  end.

Fixpoint walk_forward (vToCompute : list ptr) (cache : ThresholdConditionCache) (state : ThresholdState)
    : outcome (ThresholdState * ThresholdConditionCache) :=
  match vToCompute with
  | [] => Ok (state, cache)
  | p :: rest =>
      stateNext <-! next_state p state;
      walk_forward rest (<[Some p := stateNext]> cache) stateNext
  end.

Definition walk_back_fuel (pindexPrev : option ptr) : outcome nat :=
  match pindexPrev with
  | None => Ok O
  | Some p => b <-! deref st p; Ok (Z.to_nat (nHeight b + 1))
  end.

(** [AbstractThresholdConditionChecker::GetStateFor] *)
Definition GetStateFor (pindexPrev : option ptr) (cache : ThresholdConditionCache)
    : outcome (ThresholdState * ThresholdConditionCache) :=
  if BeginTime c =? ALWAYS_ACTIVE then Ok (ACTIVE, cache)
  else
    early <-! match pindexPrev with
              | Some p => b <-! deref st p; Ok (nHeight b <? BeginHeight c)
              | None => Ok false
              end;
    if early : bool then Ok (DEFINED, cache)
    else
      start <-! match pindexPrev with Some p => period_start p | None => Ok None end;
      fuel <-! walk_back_fuel start;
      known <-! walk_back fuel cache start [];
      let '(cache, pindexPrev, vToCompute) := known in
      state <-! of_option (cache !! pindexPrev);
      walk_forward vToCompute cache state.

(** [while (pindexEndOfPrevPeriod->nHeight != currentIndex->nHeight)] *)
Fixpoint count_since (fuel : nat) (endHeight : Z) (p : ptr) (count : Z) : outcome Z :=
  b <-! deref st p;
  if nHeight b =? endHeight then Ok count
  else
    match fuel with
    | O => NoFuel
    | S fuel =>
        met <-! Condition c st p;
        prev <-! of_option (pprev b);
        count_since fuel endHeight prev (if met : bool then count + 1 else count)
    end.

(** [AbstractThresholdConditionChecker::GetStateStatisticsFor] *)
Definition GetStateStatisticsFor (pindex : option ptr) : outcome BIP9Stats :=
  match pindex with
  | None => Ok {| stat_period := Period c; stat_threshold := Threshold c; stat_elapsed := 0;
                  stat_count := 0; stat_possible := false |}
  | Some p =>
      b <-! deref st p;
      start <-! period_start p;
      pindexEndOfPrevPeriod <-! of_option start;
      e <-! deref st pindexEndOfPrevPeriod;
      let elapsed := nHeight b - nHeight e in
      count <-! count_since (Z.to_nat elapsed) (nHeight e) p 0;
      Ok {| stat_period := Period c; stat_threshold := Threshold c; stat_elapsed := elapsed;
            stat_count := count;
            stat_possible := elapsed - count <=? Period c - Threshold c |}
  end.

Fixpoint since_loop (fuel : nat) (initialState : ThresholdState) (p : ptr) (cache : ThresholdConditionCache)
    : outcome (Z * ThresholdConditionCache) :=
  b <-! deref st p;
  previousPeriodParent <-! GetAncestor st p (nHeight b - Period c);
  match previousPeriodParent with
  | None => Ok (nHeight b + 1, cache)
  | Some q =>
      r <-! GetStateFor (Some q) cache;
      if decide (fst r = initialState) then
        match fuel with
        | O => NoFuel
        | S fuel => since_loop fuel initialState q (snd r)
        end
      else Ok (nHeight b + 1, snd r)
  end.

(** [AbstractThresholdConditionChecker::GetStateSinceHeightFor] *)
Definition GetStateSinceHeightFor (pindexPrev : option ptr) (cache : ThresholdConditionCache)
    : outcome (Z * ThresholdConditionCache) :=
  if BeginTime c =? ALWAYS_ACTIVE then Ok (0, cache)
  else
    r <-! GetStateFor pindexPrev cache;
    let '(initialState, cache) := r in
    if decide (initialState = DEFINED) then Ok (0, cache)
    else
      p <-! of_option pindexPrev;
      start <-! period_start p;
      q <-! of_option start;
      bq <-! deref st q;
      since_loop (Z.to_nat (nHeight bq + 1)) initialState q cache.
End GetStateFor.

(** ** [VersionBitsConditionChecker] *)

Record VersionBitsConditionChecker := { id : DeploymentPos; vb_params : Params }.

Definition Mask (c : VersionBitsConditionChecker) : Z :=
  u32 (Z.shiftl 1 (bit (vDeployments (vb_params c) (id c)))).

Definition VersionBits_Condition (c : VersionBitsConditionChecker) (st : gmap ptr CBlockIndex) (p : ptr)
    : outcome bool :=
  b <-! deref st p;
  Ok ((nStartHeight (vDeployments (vb_params c) (id c)) <=? nHeight b) &&
      (Z.land (idx_nVersion b) VERSIONBITS_TOP_MASK =? VERSIONBITS_TOP_BITS) &&
      negb (Z.land (u32 (idx_nVersion b)) (Mask c) =? 0)).

#[export] Instance VersionBits_checker : ThresholdConditionChecker VersionBitsConditionChecker := {
  Condition := VersionBits_Condition;
  BeginTime c := nStartTime (vDeployments (vb_params c) (id c));
  EndTime c := nTimeout (vDeployments (vb_params c) (id c));
  BeginHeight c := nStartHeight (vDeployments (vb_params c) (id c));
  Period c := s32 (nMinerConfirmationWindow (vb_params c));
  Threshold c := s32 (nRuleChangeActivationThreshold (vb_params c))
}.

(** One cache per deployment. *)
Definition VersionBitsCache := DeploymentPos -> ThresholdConditionCache.

Global Instance DeploymentPos_eq_dec : EqDecision DeploymentPos.
Proof. solve_decision. Defined.

Definition set_cache (caches : VersionBitsCache) (pos : DeploymentPos) (cache : ThresholdConditionCache)
    : VersionBitsCache :=
  fun pos' => if decide (pos' = pos) then cache else caches pos'.

Definition VersionBitsState (st : gmap ptr CBlockIndex) (pindexPrev : option ptr) (params : Params)
    (pos : DeploymentPos) (caches : VersionBitsCache) : outcome (ThresholdState * VersionBitsCache) :=
  r <-! GetStateFor {| id := pos; vb_params := params |} st pindexPrev (caches pos);
  Ok (fst r, set_cache caches pos (snd r)).

Definition VersionBitsStatistics (st : gmap ptr CBlockIndex) (pindexPrev : option ptr) (params : Params)
    (pos : DeploymentPos) : outcome BIP9Stats :=
  GetStateStatisticsFor {| id := pos; vb_params := params |} st pindexPrev.

Definition VersionBitsStateSinceHeight (st : gmap ptr CBlockIndex) (pindexPrev : option ptr) (params : Params)
    (pos : DeploymentPos) (caches : VersionBitsCache) : outcome (Z * VersionBitsCache) :=
  r <-! GetStateSinceHeightFor {| id := pos; vb_params := params |} st pindexPrev (caches pos);
  Ok (fst r, set_cache caches pos (snd r)).

Definition VersionBitsMask (params : Params) (pos : DeploymentPos) : Z :=
  Mask {| id := pos; vb_params := params |}.

Definition VersionBitsCache_Clear : VersionBitsCache := fun _ => ∅.

(** ** The transition rules *)

(** What a checker promises: a condition that can be evaluated on every
    block of the map, and a period to divide by. *)
Class ThresholdLaws {C : Type} `{ThresholdConditionChecker C} (c : C) : Prop := {
  Condition_total st p b : st !! p = Some b -> exists v, Condition c st p = Ok v;
  Period_pos : 0 < Period c
}.

Section rules.
Context {C : Type} `{ThresholdConditionChecker C} (c : C) `{!ThresholdLaws c}.
Context (st : gmap ptr CBlockIndex) (Hwf : wf_store st).

(** The number of signalling blocks among [p] and the [n - 1] before it. *)
Definition signals (p : ptr) : bool := match Condition c st p with Ok true => true | _ => false end.

Definition signal_count (n : nat) (p : ptr) : Z :=
  Z.of_nat (length (List.filter (fun i => match walk st i p with Some q => signals q | None => false end) (seq 0 n))).

(** The rules of BIP9 at a block past the start, where the median time is
    [mtp]: a timeout beats everything that is not locked in, a period with
    enough signalling blocks locks in, a locked in deployment activates. *)
Inductive bip9_rule (p : ptr) (mtp : Z) : ThresholdState -> ThresholdState -> Prop :=
| rule_start : mtp < EndTime c -> bip9_rule p mtp DEFINED STARTED
| rule_expire : EndTime c <= mtp -> bip9_rule p mtp DEFINED FAILED
| rule_fail : EndTime c <= mtp -> bip9_rule p mtp STARTED FAILED
| rule_lock_in : mtp < EndTime c -> Threshold c <= signal_count (Z.to_nat (Period c)) p -> bip9_rule p mtp STARTED LOCKED_IN
| rule_wait : mtp < EndTime c -> signal_count (Z.to_nat (Period c)) p < Threshold c -> bip9_rule p mtp STARTED STARTED
| rule_activate : bip9_rule p mtp LOCKED_IN ACTIVE
| rule_active : bip9_rule p mtp ACTIVE ACTIVE
| rule_failed : bip9_rule p mtp FAILED FAILED.

Lemma bip9_rule_det p mtp s s' s'' : bip9_rule p mtp s s' -> bip9_rule p mtp s s'' -> s' = s''.
Proof. intros H1 H2. inversion H1; subst; inversion H2; subst; done || lia. Qed.

(** The state of the blocks after [p], derived from the last block of
    the period before. *)
Inductive threshold_state : option ptr -> ThresholdState -> Prop :=
| ts_genesis : threshold_state None DEFINED
| ts_early p b mtp :
    st !! p = Some b -> GetMedianTimePast st p = Ok mtp ->
    mtp < BeginTime c \/ nHeight b < BeginHeight c -> threshold_state (Some p) DEFINED
| ts_step p b mtp q s s' :
    st !! p = Some b -> GetMedianTimePast st p = Ok mtp ->
    BeginTime c <= mtp -> BeginHeight c <= nHeight b ->
    GetAncestor st p (nHeight b - Period c) = Ok q ->
    threshold_state q s -> bip9_rule p mtp s s' -> threshold_state (Some p) s'.

Lemma threshold_state_det p s s' : threshold_state p s -> threshold_state p s' -> s = s'.
Proof.
  intros Hs. revert s'. induction Hs as [|p b mtp Hp Hm Hearly|p b mtp q s s1 Hp Hm Ht Hh Ha Hq IH Hn];
    intros s' Hs'; inversion Hs' as [|p' b' mtp' Hp' Hm' Hearly'|p' b' mtp' q' s2 s3 Hp' Hm' Ht' Hh' Ha' Hq' Hn'];
    simplify_eq; same_outcome; try done; try lia.
  specialize (IH _ Hq'). subst. by eapply bip9_rule_det.
Qed.

(** The last blocks of the periods. *)
Definition aligned (p : option ptr) : Prop :=
  match p with
  | None => True
  | Some p => exists b, st !! p = Some b /\ (nHeight b + 1) mod Period c = 0
  end.

Lemma GetAncestor_aligned p b h :
  st !! p = Some b -> h <= nHeight b -> (h + 1) mod Period c = 0 ->
  exists q, GetAncestor st p h = Ok q /\ aligned q /\
    match q with Some q => exists bq, st !! q = Some bq /\ nHeight bq = h | None => h < 0 end.
Proof.
  intros Hp Hle Hmod. destruct (Z.lt_ge_cases h 0) as [Hneg|Hpos].
  - exists None. rewrite (GetAncestor_spec _ _ _ _ Hwf Hp).
    destruct (Z.ltb_spec h 0); [|lia]. by rewrite orb_true_r.
  - destruct (GetAncestor_ancestor st p b h) as (q & bq & Hq & Hlk & Hh & _); [done|done|lia|].
    exists (Some q). split_and!; [done| |by exists bq]. exists bq. split; [done|]. by rewrite Hh.
Qed.

Lemma period_start_aligned p b :
  st !! p = Some b ->
  exists q, period_start c st p = Ok q /\ aligned q /\
    match q with
    | Some q => exists bq, st !! q = Some bq /\ nHeight bq = nHeight b - (nHeight b + 1) mod Period c
    | None => nHeight b + 1 < Period c
    end.
Proof.
  intros Hp. destruct ThresholdLaws0 as [_ Hper]. destruct (Hwf _ _ Hp) as [H0 _ _ _].
  unfold period_start, deref. rewrite Hp. cbn [of_option obind].
  destruct (Z.eqb_spec (Period c) 0); [lia|]. rewrite Z.rem_mod_nonneg by lia.
  pose proof (Z.mod_pos_bound (nHeight b + 1) (Period c) Hper) as Hb.
  destruct (GetAncestor_aligned p b (nHeight b - (nHeight b + 1) mod Period c)) as (q & Hq & Ha & Hh);
    [done|lia| |].
  { replace (nHeight b - (nHeight b + 1) mod Period c + 1)
      with (nHeight b + 1 - (nHeight b + 1) mod Period c) by lia.
    rewrite Zminus_mod_idemp_r, Z.sub_diag. apply Z.mod_0_l. lia. }
  exists q. split_and!; [done|done|]. destruct q; [done|lia].
Qed.

Lemma aligned_prev p b :
  st !! p = Some b -> (nHeight b + 1) mod Period c = 0 ->
  exists q, GetAncestor st p (nHeight b - Period c) = Ok q /\ aligned q /\
    match q with Some q => exists bq, st !! q = Some bq /\ nHeight bq = nHeight b - Period c | None => True end.
Proof.
  intros Hp Hmod. destruct ThresholdLaws0 as [_ Hper].
  destruct (GetAncestor_aligned p b (nHeight b - Period c)) as (q & Hq & Ha & Hh); [done|lia| |].
  { replace (nHeight b - Period c + 1) with (nHeight b + 1 + (-1) * Period c) by lia.
    by rewrite Z_mod_plus_full. }
  exists q. split_and!; [done|done|]. by destruct q.
Qed.

Lemma signal_count_succ n p b q :
  st !! p = Some b -> pprev b = Some q ->
  signal_count (S n) p = (if signals p then 1 else 0) + signal_count n q.
Proof.
  intros Hp Hq. unfold signal_count. cbn [seq List.filter walk]. rewrite <- (seq_shift n 0).
  assert (E : forall l, length (List.filter (fun i => match walk st i p with Some q => signals q | None => false end) (map S l)) =
    length (List.filter (fun i => match walk st i q with Some q => signals q | None => false end) l)).
  { induction l as [|i l IH]; [done|]. cbn [map List.filter walk]. rewrite Hp, Hq.
    destruct (match walk st i q with Some q => signals q | None => false end); cbn [length]; congruence. }
  destruct (signals p); cbn [length]; rewrite E; lia.
Qed.

Lemma count_conditions_spec n p b k :
  st !! p = Some b -> Z.of_nat n <= nHeight b + 1 -> count_conditions c st n (Some p) k = Ok (k + signal_count n p).
Proof.
  revert p b k. induction n as [|n IH]; intros p b k Hp Hn; [cbn [count_conditions]; f_equal; change (signal_count 0 p) with 0; lia|].
  cbn [count_conditions of_option obind]. destruct (Condition_total st p b Hp) as [v Hv].
  assert (Hs : signals p = v) by (unfold signals; rewrite Hv; by destruct v).
  rewrite Hv. unfold deref. cbn [obind]. rewrite Hp. cbn [of_option obind].
  destruct (Hwf _ _ Hp) as [H0 _ Hprev _]. destruct (pprev b) as [q|] eqn:Hq.
  - destruct Hprev as (bq & Hbq & Hh). rewrite (IH q bq), (signal_count_succ n p b q), Hs by (done || lia).
    destruct v; f_equal; lia.
  - destruct n; [|lia]. unfold signal_count. cbn. rewrite Hs. destruct v; cbn; f_equal; lia.
Qed.

(** The [switch] of the code implements the rules. *)
Lemma next_state_rule p b mtp s :
  st !! p = Some b -> GetMedianTimePast st p = Ok mtp -> (nHeight b + 1) mod Period c = 0 ->
  BeginTime c <= mtp -> BeginHeight c <= nHeight b ->
  exists s', next_state c st p s = Ok s' /\ bip9_rule p mtp s s'.
Proof.
  intros Hp Hm Hmod Hb Hh. destruct ThresholdLaws0 as [_ Hper]. destruct (Hwf _ _ Hp) as [H0 _ _ _].
  unfold next_state, deref. rewrite Hp, Hm. cbn [of_option obind].
  destruct s; try (eexists; split; [done|constructor]).
  - decide_tests. destruct (Z.leb_spec (EndTime c) mtp); eexists; (split; [done|constructor; lia]).
  - destruct (Z.leb_spec (EndTime c) mtp); [eexists; split; [done|by constructor]|].
    assert (Hne : Period c <> 0) by lia. pose proof (Z.div_mod (nHeight b + 1) _ Hne).
    assert (0 < (nHeight b + 1) / Period c) by nia.
    rewrite (count_conditions_spec _ p b) by (done || nia).
    cbn [obind]. rewrite Z.add_0_l.
    destruct (Z.leb_spec (Threshold c) (signal_count (Z.to_nat (Period c)) p)); eexists; (split; [done|constructor; lia]).
Qed.

(** A cache is sound when it records derivable states only. *)
Definition sound (cache : ThresholdConditionCache) : Prop :=
  forall p s, cache !! p = Some s -> threshold_state p s.

Lemma sound_insert cache p s : sound cache -> threshold_state p s -> sound (<[p := s]> cache).
Proof.
  intros Hc Hs q t. destruct (decide (p = q)) as [->|Hne].
  - rewrite lookup_insert_eq. by intros [= <-].
  - rewrite lookup_insert_ne by done. apply Hc.
Qed.

(** The blocks on the stack between a known block and the one asked for. *)
Fixpoint pending (q : option ptr) (l : list ptr) : Prop :=
  match l with
  | [] => True
  | p :: l =>
      (exists b mtp, st !! p = Some b /\ (nHeight b + 1) mod Period c = 0 /\
         GetMedianTimePast st p = Ok mtp /\ BeginTime c <= mtp /\ BeginHeight c <= nHeight b /\
         GetAncestor st p (nHeight b - Period c) = Ok q) /\
      pending (Some p) l
  end.

Fixpoint target (q : option ptr) (l : list ptr) : option ptr :=
  match l with [] => q | p :: l => target (Some p) l end.

Lemma walk_back_spec fuel cache p l :
  sound cache -> aligned p -> pending p l ->
  match p with
  | Some p => exists b, st !! p = Some b /\ nHeight b < Z.of_nat fuel * Period c
  | None => True
  end ->
  exists cache' q l' s, walk_back c st fuel cache p l = Ok (cache', q, l') /\ sound cache' /\
    cache' !! q = Some s /\ pending q l' /\ target q l' = target p l.
Proof.
  destruct ThresholdLaws0 as [_ Hper].
  revert cache p l; induction fuel as [|fuel IH]; intros cache p l Hc Ha Hl Hf; cbn [walk_back].
  all: destruct (cache !! p) as [s|] eqn:Ep; [by exists cache, p, l, s|].
  all: destruct p as [p|]; [|exists (<[None := DEFINED]> cache), None, l, DEFINED;
    split_and!; [done|by apply sound_insert; [|constructor]|by rewrite lookup_insert_eq|done|done]].
  all: destruct Ha as (b & Hp & Hmod); destruct (Hwf _ _ Hp) as [H0 _ _ _].
  all: destruct Hf as (b' & Hp' & Hf); simplify_eq.
  { lia. }
  destruct (GetMedianTimePast_total st p b Hwf Hp) as [mtp Hm].
  unfold deref. rewrite Hp, Hm. cbn [of_option obind].
  assert (Hearly : mtp < BeginTime c \/ nHeight b < BeginHeight c ->
    exists cache' q l' s, Ok (<[Some p := DEFINED]> cache, Some p, l) = Ok (cache', q, l') /\ sound cache' /\
      cache' !! q = Some s /\ pending q l' /\ target q l' = target (Some p) l).
  { intros He. exists (<[Some p := DEFINED]> cache), (Some p), l, DEFINED.
    split_and!; [done|by apply sound_insert; [|econstructor]|by rewrite lookup_insert_eq|done|done]. }
  destruct (Z.ltb_spec mtp (BeginTime c)); [apply Hearly; by left|].
  destruct (Z.ltb_spec (nHeight b) (BeginHeight c)); [apply Hearly; by right|].
  destruct (aligned_prev p b Hp Hmod) as (q & Hq & Haq & Hhq). rewrite Hq. cbn [obind].
  apply (IH cache q (p :: l)); [done|done| |].
  - split; [|done]. exists b, mtp. done.
  - destruct q as [q|]; [|done]. destruct Hhq as (bq & Hlk & Hh). exists bq. split; [done|]. nia.
Qed.

Lemma walk_forward_spec l cache q s :
  sound cache -> threshold_state q s -> pending q l ->
  exists s' cache', walk_forward c st l cache s = Ok (s', cache') /\ sound cache' /\
    threshold_state (target q l) s'.
Proof.
  revert cache q s; induction l as [|p l IH]; intros cache q s Hc Hs Hl; cbn [walk_forward target].
  { by exists s, cache. }
  destruct Hl as [(b & mtp & Hp & Hmod & Hm & Ht & Hh & Ha) Hl].
  destruct (next_state_rule p b mtp s Hp Hm Hmod Ht Hh) as (s' & -> & Hn). cbn [obind].
  assert (threshold_state (Some p) s') by by econstructor.
  apply IH; [by apply sound_insert|done|done].
Qed.

(** The block that decides the state of the blocks after [p]. *)
Definition deciding_block (p : option ptr) : outcome (option ptr) :=
  match p with Some p => period_start c st p | None => Ok None end.

Lemma GetStateFor_spec p cache :
  sound cache -> BeginTime c <> ALWAYS_ACTIVE ->
  match p with Some p => is_Some (st !! p) | None => True end ->
  exists q s cache', deciding_block p = Ok q /\ GetStateFor c st p cache = Ok (s, cache') /\
    threshold_state q s /\ sound cache'.
Proof.
  intros Hc Hbegin Hp. unfold GetStateFor. destruct (Z.eqb_spec (BeginTime c) ALWAYS_ACTIVE); [done|].
  assert (Hq : exists q, deciding_block p = Ok q /\ aligned q /\
    match p with
    | Some p => exists b, st !! p = Some b /\
        match q with Some q => exists bq, st !! q = Some bq /\ nHeight bq <= nHeight b | None => True end
    | None => q = None
    end).
  { destruct p as [p|]; [|by exists None]. destruct Hp as [b Hp].
    destruct (period_start_aligned p b Hp) as (q & Hq & Ha & Hh). exists q. split_and!; [done|done|].
    exists b. split; [done|]. destruct q as [q|]; [|done]. destruct Hh as (bq & ? & ?).
    exists bq. split; [done|]. destruct ThresholdLaws0 as [_ Hper].
    pose proof (Z.mod_pos_bound (nHeight b + 1) _ Hper). lia. }
  destruct Hq as (q & Hq & Ha & Hpq).
  assert (Hearly : match p with
                   | Some p => b <-! deref st p; Ok (nHeight b <? BeginHeight c)
                   | None => Ok false
                   end = Ok true -> threshold_state q DEFINED).
  { destruct p as [p|]; [|done]. destruct Hpq as (b & Hlk & Hpq). unfold deref. rewrite Hlk. cbn.
    intros [= Hlt%Z.ltb_lt]. destruct q as [q|]; [|constructor]. destruct Hpq as (bq & Hbq & Hle).
    destruct (GetMedianTimePast_total st q bq Hwf Hbq) as [mtp Hm]. econstructor; [done..|right; lia]. }
  destruct (match p with Some _ => _ | None => _ end) as [early| |] eqn:Ee in Hearly |- *.
  2,3: destruct p; [destruct Hp as [b Hp]; unfold deref in Ee; by rewrite Hp in Ee|done].
  cbn [obind]. destruct early; [exists q, DEFINED, cache; by auto|].
  fold (deciding_block p). rewrite Hq. cbn [obind].
  assert (Hf : exists fuel, walk_back_fuel st q = Ok fuel /\
    match q with
    | Some q => exists b, st !! q = Some b /\ nHeight b < Z.of_nat fuel * Period c
    | None => True
    end).
  { destruct q as [q|]; [|by exists O]. destruct Ha as (b & Hlk & _). unfold walk_back_fuel, deref.
    rewrite Hlk. eexists. split; [done|]. exists b. split; [done|].
    destruct (Hwf _ _ Hlk) as [H0 _ _ _]. destruct ThresholdLaws0 as [_ Hper]. nia. }
  destruct Hf as (fuel & Hf & Hfuel). rewrite Hf. cbn [obind].
  destruct (walk_back_spec fuel cache q [] Hc Ha I Hfuel) as (cache' & r & l & s & -> & Hc' & Hr & Hl & Ht).
  cbn [obind]. rewrite Hr. cbn [of_option obind].
  destruct (walk_forward_spec l cache' r s Hc' (Hc' _ _ Hr) Hl) as (s' & cache'' & -> & Hc'' & Hs').
  rewrite Ht in Hs'. by exists q, s', cache''.
Qed.

Lemma period_start_of_aligned p b :
  st !! p = Some b -> (nHeight b + 1) mod Period c = 0 -> period_start c st p = Ok (Some p).
Proof.
  intros Hp Hmod. destruct ThresholdLaws0 as [_ Hper]. destruct (Hwf _ _ Hp) as [H0 _ _ _].
  unfold period_start, deref. rewrite Hp. cbn [of_option obind].
  destruct (Z.eqb_spec (Period c) 0); [lia|]. rewrite Z.rem_mod_nonneg, Hmod, Z.sub_0_r by lia.
  rewrite (GetAncestor_spec _ _ _ _ Hwf Hp).
  destruct (Z.ltb_spec (nHeight b) (nHeight b)), (Z.ltb_spec (nHeight b) 0); try lia.
  by rewrite Z.sub_diag.
Qed.

Lemma since_loop_spec fuel s p b cache :
  sound cache -> BeginTime c <> ALWAYS_ACTIVE -> st !! p = Some b -> (nHeight b + 1) mod Period c = 0 ->
  threshold_state (Some p) s -> nHeight b < Z.of_nat fuel ->
  exists r br cache' prev, since_loop c st fuel s p cache = Ok (nHeight br + 1, cache') /\ sound cache' /\
    st !! r = Some br /\ (nHeight br + 1) mod Period c = 0 /\ nHeight br <= nHeight b /\
    threshold_state (Some r) s /\ GetAncestor st r (nHeight br - Period c) = Ok prev /\
    (prev = None \/ ~ threshold_state prev s).
Proof.
  intros Hc Hb. revert p b cache Hc; induction fuel as [|fuel IH]; intros p b cache Hc Hp Hmod Hs Hf.
  { destruct (Hwf _ _ Hp) as [H0 _ _ _]. lia. }
  cbn [since_loop]. unfold deref. rewrite Hp. cbn [of_option obind].
  destruct (aligned_prev p b Hp Hmod) as (q & Hq & Ha & Hh). rewrite Hq. cbn [obind].
  destruct q as [q|]; [|exists p, b, cache, None; split_and!; auto; lia].
  destruct Hh as (bq & Hlk & Hh). destruct Ha as (bq' & Hlk' & Hmodq).
  rewrite Hlk in Hlk'. injection Hlk' as <-.
  destruct (GetStateFor_spec (Some q) cache Hc Hb) as (r & t & cache' & Hr & Hg & Ht & Hc'); [by eexists|].
  rewrite Hg. cbn [obind fst snd]. cbn [deciding_block] in Hr.
  rewrite (period_start_of_aligned q bq Hlk Hmodq) in Hr. injection Hr as <-.
  destruct (decide (t = s)) as [->|Hne].
  - destruct ThresholdLaws0 as [_ Hper].
    destruct (IH q bq cache' Hc' Hlk Hmodq Ht) as (r & br & cache'' & prev & ? & ? & ? & ? & ? & ?); [lia|].
    exists r, br, cache'', prev. split_and!; try tauto. lia.
  - exists p, b, cache', (Some q). split_and!; try done. right. intros Hs'.
    by destruct (Hne (threshold_state_det _ _ _ Ht Hs')).
Qed.

Lemma count_since_spec fuel endHeight p b k :
  st !! p = Some b -> 0 <= endHeight <= nHeight b -> nHeight b - endHeight <= Z.of_nat fuel ->
  exists v, count_since c st fuel endHeight p k = Ok v /\ k <= v <= k + (nHeight b - endHeight).
Proof.
  revert p b k; induction fuel as [|fuel IH]; intros p b k Hp Hh Hf; cbn [count_since]; unfold deref;
    rewrite Hp; cbn [of_option obind].
  all: destruct (Z.eqb_spec (nHeight b) endHeight); [exists k; split; [done|lia]|try lia].
  destruct (Condition_total st p b Hp) as [met ->]. cbn [obind].
  destruct (Hwf _ _ Hp) as [H0 _ Hprev _]. destruct (pprev b) as [q|]; [|lia].
  destruct Hprev as (bq & Hq & Hhq). cbn [of_option obind].
  destruct (IH q bq (if met then k + 1 else k) Hq) as (v & Hv & Hb); [lia|lia|].
  exists v. split; [done|]. destruct met; lia.
Qed.

(** Median times do not decrease along the chain. *)
Definition mtp_monotone : Prop :=
  forall p q mp mq, ancestor st q p -> GetMedianTimePast st p = Ok mp -> GetMedianTimePast st q = Ok mq -> mq <= mp.
End rules.

(** ** [VersionBitsConditionChecker] keeps the contract *)

Lemma VersionBits_laws pos params :
  0 < nMinerConfirmationWindow params < 2 ^ 31 -> ThresholdLaws {| id := pos; vb_params := params |}.
Proof.
  intros Hw. split.
  - intros st p b Hp. cbn. unfold VersionBits_Condition, deref. rewrite Hp. by eexists.
  - cbn. rewrite swrap_small by (unfold in_s; lia). lia.
Qed.

(** The transitions of BIP9. *)
Inductive bip9_step : ThresholdState -> ThresholdState -> Prop :=
| bip9_stay_defined : bip9_step DEFINED DEFINED
| bip9_start : bip9_step DEFINED STARTED
| bip9_expire : bip9_step DEFINED FAILED
| bip9_stay_started : bip9_step STARTED STARTED
| bip9_lock_in : bip9_step STARTED LOCKED_IN
| bip9_fail : bip9_step STARTED FAILED
| bip9_activate : bip9_step LOCKED_IN ACTIVE
| bip9_stay_active : bip9_step ACTIVE ACTIVE
| bip9_stay_failed : bip9_step FAILED FAILED.

Lemma bip9_rule_step {C : Type} `{ThresholdConditionChecker C} (c : C) st p mtp s s' :
  bip9_rule c st p mtp s s' -> bip9_step s s'.
Proof. intros []; constructor. Qed.

(** * Properties *)

(** C30: the memoised computation of a deployment state returns, for every
    sound cache, the state that the transition rules derive for the last
    block of the previous period; it leaves the cache sound and does not
    depend on what the cache held. *)
Theorem GetStateFor_refines_rules {C : Type} `{ThresholdConditionChecker C} (c : C) st p cache cache0 :
  ThresholdLaws c -> wf_store st -> sound c st cache -> sound c st cache0 ->
  BeginTime c <> ALWAYS_ACTIVE ->
  match p with Some p => is_Some (st !! p) | None => True end ->
  exists q s cache' cache0', deciding_block c st p = Ok q /\ threshold_state c st q s /\
    GetStateFor c st p cache = Ok (s, cache') /\ sound c st cache' /\
    GetStateFor c st p cache0 = Ok (s, cache0').
Proof.
  intros Hlaws Hwf Hc Hc0 Hb Hp.
  destruct (GetStateFor_spec c st Hwf p cache Hc Hb Hp) as (q & s & cache' & Hq & Hg & Hs & Hc').
  destruct (GetStateFor_spec c st Hwf p cache0 Hc0 Hb Hp) as (q0 & s0 & cache0' & Hq0 & Hg0 & Hs0 & Hc0').
  rewrite Hq in Hq0. injection Hq0 as <-. rewrite (threshold_state_det c st _ _ _ Hs0 Hs) in Hg0.
  by exists q, s, cache', cache0'.
Qed.

(** A deployment with periods of two blocks. *)
Definition example_params : Params := {|
  hashGenesisBlock := uint256_null; nSubsidyHalvingInterval := 985500; BIP16Exception := uint256_null;
  BIP34Height := 0; BIP34Hash := uint256_null; BIP65Height := 0; BIP66Height := 0; CSVHeight := 1;
  SegwitHeight := 1; MinBIP9WarningHeight := 0; QIP5Height := 0; QIP6Height := 0; QIP7Height := 0;
  QIP9Height := 5000; minMIP1Height := 0; MIP1Height := 0; minMIP2Height := 0; MIP2Height := 0;
  MIP3StartHeight := 0; MIP3Height := 0; MIP4StartHeight := 0; MIP4Height := 0; MIP5StartHeight := 0;
  MIP5Height := 0; MIP6StartHeight := 0; MIP6Height := 0;
  nRuleChangeActivationThreshold := 1; nMinerConfirmationWindow := 2;
  vDeployments := fun _ => {| bit := 28; nStartTime := 50; nTimeout := 1000; nStartHeight := 0 |};
  powLimit := uint256_null; posLimit := uint256_null; QIP9PosLimit := uint256_null;
  fPowAllowMinDifficultyBlocks := false; fPowNoRetargeting := true; fPoSNoRetargeting := false;
  nPowTargetSpacing := 90; nPowTargetTimespan := 960; nPowTargetTimespanV2 := 4000; nPowTargetTimespanV3 := 4000;
  nMinimumChainWork := uint256_null; defaultAssumeValid := uint256_null; nLastPOWBlock := 5000;
  nFirstMPoSBlock := 0x7fffffff; nMPoSRewardRecipients := 10; nFixUTXOCacheHFHeight := 0;
  nEnableHeaderSignatureHeight := 0; nCheckpointSpan := 960 |}.

Definition example_checker : VersionBitsConditionChecker :=
  {| id := DEPLOYMENT_MIP3_DGP_UPGRADE; vb_params := example_params |}.

Lemma example_laws : ThresholdLaws example_checker.
Proof. apply VersionBits_laws. cbn. lia. Qed.

Lemma sound_empty {C : Type} `{ThresholdConditionChecker C} (c : C) st : sound c st ∅.
Proof. intros p s Hp. by rewrite lookup_empty in Hp. Qed.

Lemma GetStateFor_refines_rules_witness :
  exists cache', GetStateFor example_checker example_store (Some 4%positive) ∅ = Ok (STARTED, cache') /\
    sound example_checker example_store cache'.
Proof.
  destruct (GetStateFor_refines_rules example_checker example_store (Some 4%positive) ∅ ∅ example_laws
    example_store_wf (sound_empty _ _) (sound_empty _ _) ltac:(by vm_compute) ltac:(by eexists))
    as (q & s & cache' & cache0' & _ & _ & Hg & Hc & _).
  assert (Hs : s = STARTED).
  { assert (E : match GetStateFor example_checker example_store (Some 4%positive) ∅ with
                | Ok (s, _) => s | _ => DEFINED end = STARTED) by (vm_compute; reflexivity).
    rewrite Hg in E. exact E. }
  subst s. exists cache'. split; [exact Hg|exact Hc].
Defined.

(** Along a chain whose median times do not decrease, the states of
    consecutive periods are related by the BIP9 transitions: ACTIVE and
    FAILED are final, LOCKED_IN lasts one period and then activates, and no
    state is skipped. *)
Theorem deployment_lifecycle {C : Type} `{ThresholdConditionChecker C} (c : C) st p b q s s' :
  ThresholdLaws c -> wf_store st -> mtp_monotone st ->
  st !! p = Some b -> GetAncestor st p (nHeight b - Period c) = Ok q ->
  threshold_state c st q s -> threshold_state c st (Some p) s' -> bip9_step s s'.
Proof.
  intros Hlaws Hwf Hmono Hp Ha Hs Hs'.
  inversion Hs' as [|p' b' mtp' Hp' Hm' Hearly'|p' b' mtp' q' s2 s3 Hp' Hm' Ht' Hh' Ha' Hq' Hn']; simplify_eq.
  - inversion Hs as [|r br mtp Hr Hm Hearly|r br mtp r' s2 s3 Hr Hm Ht Hh Ha2 Hq2 Hn]; simplify_eq;
      try apply bip9_stay_defined. exfalso.
    rewrite (GetAncestor_spec _ _ _ _ Hwf Hp) in Ha. destruct (_ || _); [done|]. injection Ha as Hw.
    destruct (walk_inv _ _ _ _ _ Hwf Hp Hw) as (_ & br' & Hr' & Hhr). simplify_eq.
    pose proof (Hmono p r mtp' mtp (ex_intro _ _ Hw) Hm' Hm). lia.
  - same_outcome. rewrite (threshold_state_det c st _ _ _ Hs Hq'). by eapply bip9_rule_step.
Qed.

Lemma example_mtp_monotone : mtp_monotone example_store.
Proof.
  intros p q mp mq [n Hn] Hp Hq.
  assert (Hdom : forall r m, GetMedianTimePast example_store r = Ok m -> (r <= 6)%positive).
  { intros r m Hr. destruct (decide (r <= 6)%positive); [done|]. exfalso.
    unfold GetMedianTimePast, nMedianTimeSpan in Hr. cbn [past_times] in Hr. unfold deref in Hr.
    replace (example_store !! r) with (@None CBlockIndex) in Hr; [done|]. symmetry. unfold example_store.
    rewrite !lookup_insert_ne by lia. apply lookup_empty. }
  pose proof (Hdom _ _ Hp) as Hpd. clear Hdom.
  destruct n as [|[|[|[|n]]]].
  1: simplify_eq/=; by same_outcome.
  all: assert (Hcases : (p = 1 \/ p = 2 \/ p = 3 \/ p = 4 \/ p = 5 \/ p = 6)%positive) by lia;
    destruct Hcases as [->|[->|[->|[->|[->| ->]]]]]; vm_compute in Hn; simplify_eq;
    vm_compute in Hp, Hq; simplify_eq; lia.
Qed.

Lemma example_state_started : threshold_state example_checker example_store (Some 2%positive) STARTED.
Proof.
  eapply (ts_step _ _ 2%positive _ 110 None DEFINED);
    [vm_compute; reflexivity|vm_compute; reflexivity|vm_compute; congruence|vm_compute; congruence
    |vm_compute; reflexivity|constructor|constructor; vm_compute; reflexivity].
Qed.

Lemma deployment_lifecycle_witness : bip9_step STARTED STARTED.
Proof.
  refine (deployment_lifecycle example_checker example_store 4%positive
    (example_index 4 3 (Some 3%positive) (Some 2%positive) 130) (Some 2%positive) STARTED STARTED
    example_laws example_store_wf example_mtp_monotone eq_refl eq_refl _ _).
  - exact (example_state_started).
  - eapply (ts_step _ _ 4%positive _ 120 (Some 2%positive) STARTED);
      [vm_compute; reflexivity|vm_compute; reflexivity|vm_compute; congruence|vm_compute; congruence
      |vm_compute; reflexivity|exact example_state_started|apply rule_wait; vm_compute; reflexivity].
Defined.

(** [GetStateSinceHeightFor] never dereferences a null pointer and
    returns 0 for DEFINED; otherwise the height of the first block of the
    earliest period from which the state is unchanged. *)
Theorem GetStateSinceHeightFor_is_first_period {C : Type} `{ThresholdConditionChecker C} (c : C) st p cache :
  ThresholdLaws c -> wf_store st -> sound c st cache -> BeginTime c <> ALWAYS_ACTIVE ->
  match p with Some p => is_Some (st !! p) | None => True end ->
  exists q s h cache', deciding_block c st p = Ok q /\ threshold_state c st q s /\
    GetStateSinceHeightFor c st p cache = Ok (h, cache') /\ sound c st cache' /\
    (s = DEFINED -> h = 0) /\
    (s <> DEFINED -> exists r br prev, st !! r = Some br /\ h = nHeight br + 1 /\ h mod Period c = 0 /\
       threshold_state c st (Some r) s /\ GetAncestor st r (nHeight br - Period c) = Ok prev /\
       (prev = None \/ ~ threshold_state c st prev s)).
Proof.
  intros Hlaws Hwf Hc Hb Hp. unfold GetStateSinceHeightFor.
  destruct (Z.eqb_spec (BeginTime c) ALWAYS_ACTIVE); [done|].
  destruct (GetStateFor_spec c st Hwf p cache Hc Hb Hp) as (q & s & cache' & Hq & -> & Hs & Hc').
  cbn [obind]. destruct (decide (s = DEFINED)) as [->|Hne]; [by exists q, DEFINED, 0, cache'|].
  destruct q as [q|]; [|inversion Hs; by subst]. destruct p as [p|]; [|done].
  cbn [of_option obind]. cbn [deciding_block] in Hq |- *. rewrite Hq. cbn [of_option obind].
  destruct Hp as [b Hp]. destruct (period_start_aligned c st Hwf p b Hp) as (q' & Hq' & Ha & _).
  rewrite Hq in Hq'. injection Hq' as <-. destruct Ha as (bq & Hlk & Hmod).
  unfold deref. rewrite Hlk. cbn [of_option obind]. destruct (Hwf _ _ Hlk) as [H0 _ _ _].
  destruct (since_loop_spec c st Hwf (Z.to_nat (nHeight bq + 1)) s q bq cache' Hc' Hb Hlk Hmod Hs)
    as (r & br & cache'' & prev & -> & Hc'' & Hr & Hmodr & _ & Hsr & Hprev & Hdiff); [lia|].
  exists (Some q), s, (nHeight br + 1), cache''. split_and!; try done.
  intros _. by exists r, br, prev.
Qed.

Lemma GetStateSinceHeightFor_is_first_period_witness :
  exists h cache', GetStateSinceHeightFor example_checker example_store (Some 4%positive) ∅ = Ok (h, cache') /\ h = 2.
Proof.
  destruct (GetStateSinceHeightFor_is_first_period example_checker example_store (Some 4%positive) ∅ example_laws
    example_store_wf (sound_empty _ _) ltac:(by vm_compute) ltac:(by eexists))
    as (q & s & h & cache' & _ & _ & Hg & _).
  exists h, cache'. split; [exact Hg|].
  assert (E : match GetStateSinceHeightFor example_checker example_store (Some 4%positive) ∅ with
              | Ok (h, _) => h | _ => 0 end = 2) by (vm_compute; reflexivity).
  rewrite Hg in E. exact E.
Defined.
