(* ===== verification/Script.v ===== *)
(** * Script: script numbers, script construction and inspection
    (src/src/script/script.{h,cpp})

    A script is its list of bytes; a [const_iterator] into it is the rest
    of the script from there.  [GetScriptOp] reads one operation; the loops
    [while (pc < end() && GetOp(pc, opcode, ..))] of the source run over
    [ops], the operations read in turn together with whether the last read
    succeeded. *)

From Stdlib Require Import ZArith List Lia Bool.
From stdpp Require Import base decidable list.
From S2P Require Import Prelude Uint256 Primitives.
Local Open Scope Z_scope.

(** ** Limits *)

Definition MAX_SCRIPT_ELEMENT_SIZE : Z := 128000.
Definition MAX_OPS_PER_SCRIPT : Z := 201.
Definition MAX_PUBKEYS_PER_MULTISIG : Z := 20.
Definition MAX_SCRIPT_SIZE : Z := 129000.
Definition MAX_BASE_SCRIPT_SIZE : Z := 10000.
Definition MAX_STACK_SIZE : Z := 1000.
Definition LOCKTIME_THRESHOLD : Z := 500000000.

(** ** [enum opcodetype] *)

Definition OP_0 := 0x00.
Definition OP_PUSHDATA1 := 0x4c.
Definition OP_PUSHDATA2 := 0x4d.
Definition OP_PUSHDATA4 := 0x4e.
Definition OP_1NEGATE := 0x4f.
Definition OP_RESERVED := 0x50.
Definition OP_1 := 0x51.
Definition OP_16 := 0x60.
Definition OP_NOP := 0x61.
Definition OP_VER := 0x62.
Definition OP_IF := 0x63.
Definition OP_NOTIF := 0x64.
Definition OP_VERIF := 0x65.
Definition OP_VERNOTIF := 0x66.
Definition OP_ELSE := 0x67.
Definition OP_ENDIF := 0x68.
Definition OP_VERIFY := 0x69.
Definition OP_RETURN := 0x6a.
Definition OP_TOALTSTACK := 0x6b.
Definition OP_FROMALTSTACK := 0x6c.
Definition OP_2DROP := 0x6d.
Definition OP_2DUP := 0x6e.
Definition OP_3DUP := 0x6f.
Definition OP_2OVER := 0x70.
Definition OP_2ROT := 0x71.
Definition OP_2SWAP := 0x72.
Definition OP_IFDUP := 0x73.
Definition OP_DEPTH := 0x74.
Definition OP_DROP := 0x75.
Definition OP_DUP := 0x76.
Definition OP_NIP := 0x77.
Definition OP_OVER := 0x78.
Definition OP_PICK := 0x79.
Definition OP_ROLL := 0x7a.
Definition OP_ROT := 0x7b.
Definition OP_SWAP := 0x7c.
Definition OP_TUCK := 0x7d.
Definition OP_CAT := 0x7e.
Definition OP_SUBSTR := 0x7f.
Definition OP_LEFT := 0x80.
Definition OP_RIGHT := 0x81.
Definition OP_SIZE := 0x82.
Definition OP_INVERT := 0x83.
Definition OP_AND := 0x84.
Definition OP_OR := 0x85.
Definition OP_XOR := 0x86.
Definition OP_EQUAL := 0x87.
Definition OP_EQUALVERIFY := 0x88.
Definition OP_RESERVED1 := 0x89.
Definition OP_RESERVED2 := 0x8a.
Definition OP_1ADD := 0x8b.
Definition OP_1SUB := 0x8c.
Definition OP_2MUL := 0x8d.
Definition OP_2DIV := 0x8e.
Definition OP_NEGATE := 0x8f.
Definition OP_ABS := 0x90.
Definition OP_NOT := 0x91.
Definition OP_0NOTEQUAL := 0x92.
Definition OP_ADD := 0x93.
Definition OP_SUB := 0x94.
Definition OP_MUL := 0x95.
Definition OP_DIV := 0x96.
Definition OP_MOD := 0x97.
Definition OP_LSHIFT := 0x98.
Definition OP_RSHIFT := 0x99.
Definition OP_BOOLAND := 0x9a.
Definition OP_BOOLOR := 0x9b.
Definition OP_NUMEQUAL := 0x9c.
Definition OP_NUMEQUALVERIFY := 0x9d.
Definition OP_NUMNOTEQUAL := 0x9e.
Definition OP_LESSTHAN := 0x9f.
Definition OP_GREATERTHAN := 0xa0.
Definition OP_LESSTHANOREQUAL := 0xa1.
Definition OP_GREATERTHANOREQUAL := 0xa2.
Definition OP_MIN := 0xa3.
Definition OP_MAX := 0xa4.
Definition OP_WITHIN := 0xa5.
Definition OP_RIPEMD160 := 0xa6.
Definition OP_SHA1 := 0xa7.
Definition OP_SHA256 := 0xa8.
Definition OP_HASH160 := 0xa9.
Definition OP_HASH256 := 0xaa.
Definition OP_CODESEPARATOR := 0xab.
Definition OP_CHECKSIG := 0xac.
Definition OP_CHECKSIGVERIFY := 0xad.
Definition OP_CHECKMULTISIG := 0xae.
Definition OP_CHECKMULTISIGVERIFY := 0xaf.
Definition OP_NOP1 := 0xb0.
Definition OP_CHECKLOCKTIMEVERIFY := 0xb1.
Definition OP_CHECKSEQUENCEVERIFY := 0xb2.
Definition OP_NOP4 := 0xb3.
Definition OP_NOP5 := 0xb4.
Definition OP_NOP6 := 0xb5.
Definition OP_NOP7 := 0xb6.
Definition OP_NOP8 := 0xb7.
Definition OP_NOP9 := 0xb8.
Definition OP_NOP10 := 0xb9.
Definition OP_CREATE := 0xc1.
Definition OP_CALL := 0xc2.
Definition OP_SPEND := 0xc3.
Definition OP_SENDER := 0xc4.
Definition OP_INVALIDOPCODE := 0xff.
Definition MAX_OPCODE := OP_NOP10.

(** ** [CScriptNum] *)

(** [while(absvalue)]: eight rounds empty a 64-bit value. *)
Fixpoint serialize_loop (fuel : nat) (absvalue : Z) : bytes :=
  match fuel with
  | O => []
  | S fuel =>
      if absvalue =? 0 then []
      else Z.land absvalue 0xff :: serialize_loop fuel (Z.shiftr absvalue 8)
  end.

(** [vch.back()] and [result.back() |= 0x80] *)
Definition back (v : bytes) : Z := List.last v 0.

Definition scriptnum_serialize (value : Z) : bytes :=
  if value =? 0 then []
  else
    let neg := value <? 0 in
    let absvalue := u64 (if neg then s64 (- value) else value) in
    let result := serialize_loop 8 absvalue in
    if negb (Z.land (back result) 0x80 =? 0) then result ++ [if neg then 0x80 else 0]
    else if neg then removelast result ++ [Z.lor (back result) 0x80]
    else result.

Fixpoint or_bytes (i : Z) (vch : bytes) : Z :=
  match vch with
  | [] => 0
  | b :: vch => Z.lor (s64 (Z.shiftl b (8 * i))) (or_bytes (i + 1) vch)
  end.

Definition set_vch (vch : bytes) : Z :=
  match vch with
  | [] => 0
  | _ =>
      let result := or_bytes 0 vch in
      if negb (Z.land (back vch) 0x80 =? 0)
      then - (s64 (Z.land (u64 result)
                     (u64 (Z.lnot (u64 (Z.shiftl 0x80 (8 * (Z.of_nat (length vch) - 1))))))))
      else result
  end.

Inductive scriptnum_result := Num (n : Z) | scriptnum_error.

(** The constructor [CScriptNum(vch, fRequireMinimal, nMaxNumSize)]. *)
Definition CScriptNum (vch : bytes) (fRequireMinimal : bool) (nMaxNumSize : Z) : scriptnum_result :=
  if nMaxNumSize <? Z.of_nat (length vch) then scriptnum_error
  else if fRequireMinimal && (0 <? Z.of_nat (length vch)) && (Z.land (back vch) 0x7f =? 0) &&
          ((Z.of_nat (length vch) <=? 1) || (Z.land (nth (length vch - 2) vch 0) 0x80 =? 0))
  then scriptnum_error
  else Num (set_vch vch).

Definition getint (m_value : Z) : Z :=
  if 2 ^ 31 - 1 <? m_value then 2 ^ 31 - 1
  else if m_value <? - 2 ^ 31 then - 2 ^ 31
  else m_value.

Fixpoint or_bytes_u64 (i : Z) (vch : bytes) : Z :=
  match vch with
  | [] => 0
  | b :: vch => Z.lor (u64 (Z.shiftl b (8 * i))) (or_bytes_u64 (i + 1) vch)
  end.

Definition vch_to_uint64 (vch : bytes) : scriptnum_result :=
  if 8 <? Z.of_nat (length vch) then scriptnum_error
  else match vch with
       | [] => Num 0
       | _ => if negb (Z.land (back vch) 0x80 =? 0) then scriptnum_error else Num (or_bytes_u64 0 vch)
       end.

(** ** Building scripts *)

Definition WriteLE16 (x : Z) : bytes := [u8 x; u8 (Z.shiftr x 8)].

Definition ReadLE16 (p : bytes) : Z := Z.lor (nth 0 p 0) (Z.shiftl (nth 1 p 0) 8).

(** [operator<<(const std::vector<unsigned char>&)] *)
Definition push_data (script b : bytes) : bytes :=
  let size := Z.of_nat (length b) in
  script ++
  (if size <? OP_PUSHDATA1 then [u8 size]
   else if size <=? 0xff then [OP_PUSHDATA1; u8 size]
   else if size <=? 0xffff then OP_PUSHDATA2 :: WriteLE16 (u16 size)
   else OP_PUSHDATA4 :: arith_uint256.WriteLE32 (u32 size)) ++ b.

(** [operator<<(opcodetype)] *)
Definition push_opcode (script : bytes) (opcode : Z) : option bytes :=
  if (opcode <? 0) || (0xff <? opcode) then None else Some (script ++ [u8 opcode]).

Definition push_int64 (script : bytes) (n : Z) : bytes :=
  if (n =? -1) || ((1 <=? n) && (n <=? 16)) then script ++ [u8 (n + (OP_1 - 1))]
  else if n =? 0 then script ++ [OP_0]
  else push_data script (scriptnum_serialize n).

Definition DecodeOP_N (opcode : Z) : option Z :=
  if opcode =? OP_0 then Some 0
  else if (OP_1 <=? opcode) && (opcode <=? OP_16) then Some (opcode - (OP_1 - 1)) else None.

Definition EncodeOP_N (n : Z) : option Z :=
  if (0 <=? n) && (n <=? 16) then Some (if n =? 0 then OP_0 else OP_1 + n - 1) else None.

(** ** Reading scripts *)

(** The operand size of a push, and the iterator after the size bytes. *)
Definition read_size (opcode : Z) (pc : bytes) : option (Z * bytes) :=
  if opcode <? OP_PUSHDATA1 then Some (opcode, pc)
  else if opcode =? OP_PUSHDATA1 then
    if Z.of_nat (length pc) <? 1 then None else Some (nth 0 pc 0, skipn 1 pc)
  else if opcode =? OP_PUSHDATA2 then
    if Z.of_nat (length pc) <? 2 then None else Some (ReadLE16 pc, skipn 2 pc)
  else
    if Z.of_nat (length pc) <? 4 then None else Some (arith_uint256.ReadLE32 pc, skipn 4 pc).

(** [GetScriptOp]: the opcode, the pushed data and the iterator after it. *)
Definition GetScriptOp (pc : bytes) : option (Z * bytes * bytes) :=
  match pc with
  | [] => None
  | opcode :: pc =>
      if opcode <=? OP_PUSHDATA4 then
        match read_size opcode pc with
        | None => None
        | Some (nSize, pc) =>
            if Z.of_nat (length pc) <? nSize then None
            else Some (opcode, firstn (Z.to_nat nSize) pc, skipn (Z.to_nat nSize) pc)
        end
      else Some (opcode, [], pc)
  end.

(** Where a read that fails leaves the iterator: after the opcode and the size
    bytes it did read *)
Definition failed_pc (pc : bytes) : bytes :=
  match pc with
  | [] => []
  | opcode :: pc =>
      if opcode <=? OP_PUSHDATA4 then match read_size opcode pc with None => pc | Some (_, pc) => pc end else pc
  end.

(** One operation read by the loops: opcode, data, iterator after it. *)
Record op := { op_code : Z; op_data : bytes; op_rest : bytes }.

Fixpoint ops_loop (fuel : nat) (pc : bytes) : list op * bool :=
  match pc, fuel with
  | [], _ => ([], true)
  | _, O => ([], false)
  | _, S fuel =>
      match GetScriptOp pc with
      | None => ([], false)
      | Some (opcode, data, rest) =>
          let '(l, ok) := ops_loop fuel rest in
          ({| op_code := opcode; op_data := data; op_rest := rest |} :: l, ok)
      end
  end.

Definition ops (script : bytes) : list op * bool := ops_loop (length script) script.

Definition Find (script : bytes) (o : Z) : Z :=
  Z.of_nat (length (List.filter (fun x => op_code x =? o) (fst (ops script)))).

Fixpoint sigops_loop (fAccurate : bool) (lastOpcode n : Z) (l : list op) : Z :=
  match l with
  | [] => n
  | o :: l =>
      let opcode := op_code o in
      let n :=
        if (opcode =? OP_CHECKSIG) || (opcode =? OP_CHECKSIGVERIFY) then n + 1
        else if (opcode =? OP_CHECKMULTISIG) || (opcode =? OP_CHECKMULTISIGVERIFY) then
          if fAccurate && (OP_1 <=? lastOpcode) && (lastOpcode <=? OP_16)
          then n + (lastOpcode - (OP_1 - 1))
          else n + MAX_PUBKEYS_PER_MULTISIG
        else n in
      sigops_loop fAccurate opcode n l
  end.

(** [CScript::GetSigOpCount(bool)] *)
Definition GetSigOpCount (script : bytes) (fAccurate : bool) : Z :=
  sigops_loop fAccurate OP_INVALIDOPCODE 0 (fst (ops script)).

Definition byte_at (script : bytes) (i : nat) : Z := nth i script 0.

Definition IsPayToScriptHash (script : bytes) : bool :=
  (length script =? 23)%nat && (byte_at script 0 =? OP_HASH160) && (byte_at script 1 =? 0x14) &&
  (byte_at script 22 =? OP_EQUAL).

(** The walk over a scriptSig: the data of the last push, or [None] where
    the source returns 0. *)
Fixpoint last_push (l : list op) (vData : bytes) : option bytes :=
  match l with
  | [] => Some vData
  | o :: l => if OP_16 <? op_code o then None else last_push l (op_data o)
  end.

(** [CScript::GetSigOpCount(const CScript&)] *)
Definition GetSigOpCountP2SH (script scriptSig : bytes) : Z :=
  if negb (IsPayToScriptHash script) then GetSigOpCount script true
  else
    let '(l, ok) := ops scriptSig in
    match last_push l [] with
    | None => 0
    | Some vData => if ok : bool then GetSigOpCount vData true else 0
    end.

Definition IsPayToPubkey (script : bytes) : bool :=
  ((length script =? 35)%nat && (byte_at script 0 =? 33) && (byte_at script 34 =? OP_CHECKSIG) &&
   ((byte_at script 1 =? 0x02) || (byte_at script 1 =? 0x03))) ||
  ((length script =? 67)%nat && (byte_at script 0 =? 65) && (byte_at script 66 =? OP_CHECKSIG) &&
   (byte_at script 1 =? 0x04)).

Definition IsPayToPubkeyHash (script : bytes) : bool :=
  (length script =? 25)%nat && (byte_at script 0 =? OP_DUP) && (byte_at script 1 =? OP_HASH160) &&
  (byte_at script 2 =? 0x14) && (byte_at script 23 =? OP_EQUALVERIFY) && (byte_at script 24 =? OP_CHECKSIG).

Definition IsBurnt (script : bytes) : bool :=
  IsPayToPubkeyHash script && forallb (fun i => byte_at script i =? 0) (List.seq 3 20).

(** [std::vector(begin() + a, begin() + b)]; fails outside the script. *)
Definition subrange (script : bytes) (a b : Z) : outcome bytes :=
  if (0 <=? a) && (a <=? b) && (b <=? Z.of_nat (length script))
  then Ok (firstn (Z.to_nat (b - a)) (skipn (Z.to_nat a) script))
  else Fail.

(** [while (i > 0)] of [IsDGPContractCall]. *)
Fixpoint dgp_scan (fuel : nat) (script vContractData : bytes) (i : Z) : outcome bool :=
  if 0 <? i then
    match fuel with
    | O => NoFuel
    | S fuel =>
        let n := Z.of_nat (length vContractData) in
        obind (subrange script (i - n) i) (fun vCallData =>
          if bytes_eqb vCallData vContractData then Ok true
          else dgp_scan fuel script vContractData (i - n))
    end
  else Ok false.

(** The element at [size()-1]: of an empty script it is the byte before the script,
    which is outside it; [stray] is that byte where the read is taken to
    succeed. *)
Definition last_byte (stray : option Z) (script : bytes) : outcome Z :=
  match script with [] => of_option stray | _ => Ok (back script) end.

(** [CScript::IsDGPContractCall]; the other reads outside the script fail. *)
Definition IsDGPContractCall_reading (stray : option Z) (script vContractAddr vContractData : bytes) : outcome bool :=
  let size := Z.of_nat (length script) in
  obind (last_byte stray script) (fun b =>
    if b =? OP_CALL then
      obind (subrange script (size - 21) (size - 1)) (fun vCallAddr =>
        if negb (bytes_eqb vContractAddr vCallAddr) then Ok false
        else dgp_scan (length script) script vContractData (size - 22))
    else Ok false).

(** Every read outside the script fails. *)
Definition IsDGPContractCall : bytes -> bytes -> bytes -> outcome bool := IsDGPContractCall_reading None.

Definition IsPayToWitnessScriptHash (script : bytes) : bool :=
  (length script =? 34)%nat && (byte_at script 0 =? OP_0) && (byte_at script 1 =? 0x20).

(** [IsWitnessProgram]: the version and the program where it returns true. *)
Definition IsWitnessProgram (script : bytes) : option (Z * bytes) :=
  if (Z.of_nat (length script) <? 4) || (42 <? Z.of_nat (length script)) then None
  else if negb (byte_at script 0 =? OP_0) && ((byte_at script 0 <? OP_1) || (OP_16 <? byte_at script 0)) then None
  else if byte_at script 1 + 2 =? Z.of_nat (length script) then
    match DecodeOP_N (byte_at script 0) with
    | Some version => Some (version, skipn 2 script)
    | None => None
    end
  else None.

Definition IsPushOnly (script : bytes) : bool :=
  let '(l, ok) := ops script in forallb (fun o => op_code o <=? OP_16) l && ok.

Definition HasValidOps (script : bytes) : bool :=
  let '(l, ok) := ops script in
  forallb (fun o => (op_code o <=? MAX_OPCODE) &&
                    (Z.of_nat (length (op_data o)) <=? MAX_SCRIPT_ELEMENT_SIZE)) l && ok.

Definition IsUnspendable (script : bytes) : bool :=
  ((0 <? Z.of_nat (length script)) && (byte_at script 0 =? OP_RETURN)) ||
  (MAX_SCRIPT_SIZE <? Z.of_nat (length script)).

Definition HasOpCreate (script : bytes) : bool := Find script OP_CREATE =? 1.
Definition HasOpCall (script : bytes) : bool := Find script OP_CALL =? 1.
Definition HasOpSpend (script : bytes) : bool := (length script =? 1)%nat && (byte_at script 0 =? OP_SPEND).
Definition HasOpSender (script : bytes) : bool := Find script OP_SENDER =? 1.

(** The loop of [ReplaceParam]; [opcodes] holds the iterators pushed so
    far, in order. *)
Fixpoint replace_loop (script : bytes) (findOp : Z) (posBefore : nat) (vchParam : bytes)
    (opcodes : list bytes) (l : list op) : option bytes :=
  match l with
  | [] => None
  | o :: l =>
      if op_code o =? findOp then
        let size := length opcodes in
        if (posBefore + 1 <? size)%nat then
          let first := nth (size - 1 - posBefore) opcodes [] in
          let second := nth (size - posBefore) opcodes [] in
          Some (push_data (firstn (length script - length first) script) vchParam ++ second)
        else None
      else replace_loop script findOp posBefore vchParam (opcodes ++ [op_rest o]) l
  end.

Definition ReplaceParam (script : bytes) (findOp posBefore : Z) (vchParam : bytes) : option bytes :=
  if posBefore <? 0 then None
  else replace_loop script findOp (Z.to_nat posBefore) vchParam [script] (fst (ops script)).

Definition UpdateSenderSig (script scriptSig : bytes) : option bytes :=
  ReplaceParam script OP_SENDER 1 scriptSig.

Definition WithoutSenderSig (script : bytes) : bytes :=
  match UpdateSenderSig script [] with Some r => r | None => script end.

(** ** Script numbers *)

(** A boolean fact about bytes is checked on all of them. *)
Lemma byte_check (f : Z -> bool) :
  forallb (fun i => f (Z.of_nat i)) (List.seq 0 256) = true -> forall t, in_u 8 t -> f t = true.
Proof.
  intros H t [H0 H1]. rewrite forallb_forall in H. rewrite <- (Z2Nat.id t H0).
  apply H, in_seq. change (2 ^ 8) with 256 in H1. lia.
Qed.

Lemma land_80 t : in_u 8 t -> (Z.land t 0x80 =? 0) = (t <? 128).
Proof.
  intros Ht. apply Bool.eqb_prop.
  by apply (byte_check (fun t => Bool.eqb (Z.land t 0x80 =? 0) (t <? 128))).
Qed.

Lemma land_7f t : in_u 8 t -> (Z.land t 0x7f =? 0) = (t =? 0) || (t =? 128).
Proof.
  intros Ht. apply Bool.eqb_prop.
  by apply (byte_check (fun t => Bool.eqb (Z.land t 0x7f =? 0) ((t =? 0) || (t =? 128)))).
Qed.

Lemma lor_80 t : in_u 8 t -> t < 128 -> Z.lor t 0x80 = t + 128.
Proof.
  intros Ht Hlt. assert (H : negb (t <? 128) || (Z.lor t 0x80 =? t + 128) = true)
    by by apply (byte_check (fun t => negb (t <? 128) || (Z.lor t 0x80 =? t + 128))).
  destruct (Z.ltb_spec t 128); [|lia]. by apply Z.eqb_eq.
Qed.

Abbreviation le_val := arith_uint256.le_val.

Lemma le_val_app w v : le_val (w ++ v) = le_val w + 2 ^ (8 * Z.of_nat (length w)) * le_val v.
Proof.
  induction w as [|x w IH]; cbn [app arith_uint256.le_val length].
  - change (2 ^ (8 * Z.of_nat 0)) with 1. lia.
  - rewrite IH, Nat2Z.inj_succ. replace (8 * Z.succ (Z.of_nat (length w))) with (8 + 8 * Z.of_nat (length w)) by lia.
    rewrite (Z.pow_add_r 2 8) by lia. lia.
Qed.

Lemma le_val_range v : bytes_ok v -> 0 <= le_val v < 2 ^ (8 * Z.of_nat (length v)).
Proof.
  induction 1 as [|x v Hx Hv IH]; cbn [arith_uint256.le_val length]; [lia|].
  rewrite Nat2Z.inj_succ. replace (8 * Z.succ (Z.of_nat (length v))) with (8 + 8 * Z.of_nat (length v)) by lia.
  rewrite (Z.pow_add_r 2 8) by lia. unfold in_u in Hx. lia.
Qed.

Lemma back_app w t : back (w ++ [t]) = t.
Proof. apply List.last_last. Qed.

Lemma back_cons x y w : back (x :: y :: w) = back (y :: w).
Proof. done. Qed.

(** The digits of a positive number. *)
Lemma serialize_loop_spec fuel m :
  0 <= m < 2 ^ (8 * Z.of_nat fuel) ->
  bytes_ok (serialize_loop fuel m) /\ le_val (serialize_loop fuel m) = m /\
  (length (serialize_loop fuel m) <= fuel)%nat /\
  (0 < m -> serialize_loop fuel m <> [] /\ back (serialize_loop fuel m) <> 0).
Proof.
  revert m; induction fuel as [|fuel IH]; intros m Hm.
  { simpl in Hm. cbn [serialize_loop arith_uint256.le_val]. split_and!; [constructor|lia|done|lia]. }
  cbn [serialize_loop]. destruct (Z.eqb_spec m 0) as [->|Hnz].
  { split_and!; [constructor|done|simpl; lia|lia]. }
  rewrite Nat2Z.inj_succ in Hm. replace (8 * Z.succ (Z.of_nat fuel)) with (8 + 8 * Z.of_nat fuel) in Hm by lia.
  rewrite (Z.pow_add_r 2 8) in Hm by lia. change 0xff with (Z.ones 8). rewrite Z.land_ones, Z.shiftr_div_pow2 by lia.
  assert (Hd : 0 <= m / 2 ^ 8 < 2 ^ (8 * Z.of_nat fuel)) by (split; [apply Z.div_pos; lia|apply Z.div_lt_upper_bound; lia]).
  destruct (IH (m / 2 ^ 8) Hd) as (Hb & Hv & Hl & Hpos).
  split_and!.
  - constructor; [apply Z.mod_pos_bound; lia|done].
  - cbn [arith_uint256.le_val]. rewrite Hv. pose proof (Z.div_mod m (2 ^ 8)). lia.
  - simpl. lia.
  - intros _. split; [done|]. destruct (Z.eq_dec (m / 2 ^ 8) 0) as [Ez|Hz].
    + rewrite Ez. destruct fuel; cbn [serialize_loop]; [|change (0 =? 0) with true]; cbn; zdiv_lia.
    + destruct Hpos as [Hne Hbk]; [lia|]. destruct (serialize_loop fuel (m / 2 ^ 8)); [done|].
      by rewrite back_cons.
Qed.

Lemma serialize_loop_unique fuel w :
  bytes_ok w -> w <> [] -> back w <> 0 -> (length w <= fuel)%nat -> serialize_loop fuel (le_val w) = w.
Proof.
  revert w; induction fuel as [|fuel IH]; intros w Hw Hne Hb Hl.
  { destruct w; [done|simpl in Hl; lia]. }
  destruct w as [|x w]; [done|]. inversion Hw as [|? ? Hx Hw']; subst. unfold in_u in Hx.
  pose proof (le_val_range w Hw') as Hr. cbn [serialize_loop arith_uint256.le_val].
  change 0xff with (Z.ones 8). rewrite Z.land_ones, Z.shiftr_div_pow2 by lia.
  rewrite (Z.mul_comm (2 ^ 8)), Z_mod_plus_full, (Z.mod_small x), Z.div_add, (Z.div_small x) by lia.
  rewrite Z.add_0_l. destruct w as [|y w].
  - cbn in Hb. cbn [arith_uint256.le_val]. destruct (Z.eqb_spec (x + 0 * 2 ^ 8) 0); [lia|].
    f_equal. by destruct fuel.
  - rewrite IH; [|done|done|by rewrite <- (back_cons x)|simpl in Hl; simpl; lia].
    assert (0 < le_val (y :: w)).
    { destruct (Z.eq_dec (le_val (y :: w)) 0) as [E|]; [|lia]. exfalso.
      specialize (IH (y :: w) Hw'). rewrite E in IH. assert (serialize_loop fuel 0 = []) as H0 by by destruct fuel.
      rewrite H0 in IH. discriminate IH; [done|by rewrite <- (back_cons x)|simpl in Hl; simpl; lia]. }
    by destruct (Z.eqb_spec (x + le_val (y :: w) * 2 ^ 8) 0); [lia|].
Qed.

(** *** Decoding: the shifted bytes are or-ed into a 64-bit integer *)

Lemma lor_u64 a b : u64 (Z.lor a b) = Z.lor (u64 a) (u64 b).
Proof.
  unfold wrap. rewrite <- !Z.land_ones by lia. by rewrite Z.land_lor_distr_l.
Qed.

Lemma or_bytes_u64_val i v :
  0 <= i -> bytes_ok v -> 8 * (i + Z.of_nat (length v)) <= 64 ->
  u64 (or_bytes i v) = Z.shiftl (le_val v) (8 * i).
Proof.
  revert i; induction v as [|x v IH]; intros i Hi Hv Hl; [by rewrite Z.shiftl_0_l|].
  cbn [or_bytes arith_uint256.le_val length] in *. inversion Hv as [|? ? Hx Hv']; subst. unfold in_u in Hx.
  rewrite lor_u64, IH by (done || lia). unfold wrap at 1. rewrite swrap_mod by lia.
  assert (0 < 2 ^ (8 * i)) by (apply Zpow2_pos; lia).
  assert (2 ^ (8 * i) * 2 ^ 8 <= 2 ^ 64) by (rewrite <- Z.pow_add_r by lia; apply Z.pow_le_mono_r; lia).
  rewrite Z.shiftl_mul_pow2, Z.mod_small by (rewrite ?Z.shiftl_mul_pow2; nia).
  rewrite <- Z.shiftl_mul_pow2 by lia. pose proof (le_val_range v Hv').
  replace (8 * (i + 1)) with (8 + 8 * i) by lia. rewrite <- (Z.shiftl_shiftl (le_val v) 8) by lia.
  rewrite <- Z.shiftl_lor, lor_shiftl_add by (unfold in_u; lia). f_equal. lia.
Qed.

Lemma or_bytes_range i v : in_s 64 (or_bytes i v).
Proof.
  revert i; induction v as [|x v IH]; intros i; cbn [or_bytes]; [unfold in_s; lia|].
  apply lor_in_s; [lia|apply swrap_range; lia|apply IH].
Qed.

Lemma or_bytes_val v :
  bytes_ok v -> (length v <= 8)%nat -> or_bytes 0 v = s64 (le_val v).
Proof.
  intros Hv Hl. pose proof (or_bytes_u64_val 0 v ltac:(lia) Hv ltac:(lia)) as H.
  rewrite Z.shiftl_0_r in H. rewrite <- H. unfold wrap. rewrite <- (swrap_small 64 (or_bytes 0 v)) at 1 by (lia || apply or_bytes_range).
  unfold swrap. by rewrite Zplus_mod_idemp_l.
Qed.

(** Sign and magnitude of a byte vector. *)
Lemma set_vch_app w t :
  bytes_ok w -> in_u 8 t -> (length w <= 7)%nat ->
  set_vch (w ++ [t]) =
    if t <? 128 then le_val w + t * 2 ^ (8 * Z.of_nat (length w))
    else - (le_val w + (t - 128) * 2 ^ (8 * Z.of_nat (length w))).
Proof.
  intros Hw Ht Hl. unfold set_vch.
  assert (Hcons : exists x v, w ++ [t] = x :: v) by (destruct w; by eexists _, _).
  destruct Hcons as (x & v & E). rewrite E. rewrite <- E. rewrite back_app, land_80, or_bytes_val by
    (done || (rewrite ?length_app; simpl; lia) || (apply Forall_app; split; [done|by constructor; [|constructor]])).
  rewrite le_val_app, length_app. cbn [arith_uint256.le_val length]. set (p := 2 ^ (8 * Z.of_nat (length w))).
  pose proof (le_val_range w Hw) as Hr. fold p in Hr. unfold in_u in Ht.
  assert (Hp : 0 < p) by (apply Zpow2_pos; lia).
  assert (Hp56 : p * 2 ^ 8 <= 2 ^ 64) by (unfold p; rewrite <- Z.pow_add_r by lia; apply Z.pow_le_mono_r; lia).
  replace (le_val w + p * (t + 2 ^ 8 * 0)) with (le_val w + t * p) by lia.
  destruct (Z.ltb_spec t 128); cbn [negb].
  { rewrite swrap_small by (unfold in_s; nia). lia. }
  replace (8 * (Z.of_nat (length w + 1) - 1)) with (8 * Z.of_nat (length w)) by lia.
  assert (Hbit : u64 (Z.shiftl 0x80 (8 * Z.of_nat (length w))) = 128 * p).
  { rewrite Z.shiftl_mul_pow2 by lia. fold p. apply wrap_small. unfold in_u. nia. }
  rewrite Hbit. unfold wrap at 1. rewrite swrap_mod, Z.mod_small by nia.
  assert (E128 : 128 * p = 2 ^ (7 + 8 * Z.of_nat (length w))) by (unfold p; rewrite Z.pow_add_r by lia; done).
  assert (E256 : 2 ^ (7 + 8 * Z.of_nat (length w) + 1) = 256 * p)
    by (rewrite Z.pow_add_r, <- E128 by lia; lia).
  rewrite E128, clear_bit64; [|lia|rewrite E256, <- E128; nia].
  rewrite <- E128, swrap_small by (unfold in_s; nia). lia.
Qed.

(** *** Encoding: magnitude digits, the sign in the top bit *)

Lemma bytes_snoc v : v <> [] -> exists u t, v = u ++ [t] /\ back v = t.
Proof.
  intros Hv. destruct (List.exists_last Hv) as (u & t & ->). exists u, t. by rewrite back_app.
Qed.

Definition sign_bit (n : Z) : Z := if n <? 0 then 128 else 0.

Lemma scriptnum_serialize_shape n :
  n <> 0 -> - 2 ^ 63 < n < 2 ^ 63 ->
  exists u t, bytes_ok u /\ in_u 8 t /\ t <> 0 /\ (length u <= 7)%nat /\
    le_val u + t * 2 ^ (8 * Z.of_nat (length u)) = Z.abs n /\ (128 <= t -> (length u <= 6)%nat) /\
    scriptnum_serialize n = if 128 <=? t then u ++ [t; sign_bit n] else u ++ [t + sign_bit n].
Proof.
  intros Hnz Hn. unfold scriptnum_serialize, sign_bit. destruct (Z.eqb_spec n 0); [done|].
  assert (Habs : u64 (if n <? 0 then s64 (- n) else n) = Z.abs n).
  { destruct (Z.ltb_spec n 0); [rewrite swrap_small by (unfold in_s; lia)|];
      rewrite wrap_small by (unfold in_u; lia); lia. }
  rewrite Habs. destruct (serialize_loop_spec 8 (Z.abs n)) as (Hb & Hv & Hl & Hpos); [simpl; lia|].
  destruct Hpos as [Hne Hbk]; [lia|]. destruct (bytes_snoc _ Hne) as (u & t & E & Et). rewrite E in *.
  apply Forall_app in Hb as [Hu Ht]. inversion Ht as [|? ? Ht' _]; subst. rewrite Et in *.
  rewrite le_val_app in Hv. cbn [arith_uint256.le_val] in Hv. rewrite length_app in Hl. simpl in Hl.
  pose proof (le_val_range u Hu) as Hr. set (p := 2 ^ (8 * Z.of_nat (length u))) in *.
  exists u, t. split_and!; [done|done|done|lia|lia| |].
  - intros Hbig. destruct (decide (length u = 7)%nat) as [E7|]; [|lia]. exfalso.
    unfold p in *. rewrite E7 in *. change (2 ^ (8 * Z.of_nat 7)) with (2 ^ 56) in *. nia.
  - rewrite land_80 by done. destruct (Z.ltb_spec t 128), (Z.leb_spec 128 t); try lia; cbn [negb].
    + rewrite removelast_last, lor_80 by (done || lia).
      destruct (n <? 0); [done|]. by rewrite Z.add_0_r.
    + rewrite <- app_assoc. by destruct (n <? 0).
Qed.

(** Decoding inverts encoding. *)
Lemma set_vch_serialize n : - 2 ^ 63 < n < 2 ^ 63 -> set_vch (scriptnum_serialize n) = n.
Proof.
  intros Hn. destruct (Z.eq_dec n 0) as [->|Hnz]; [done|].
  destruct (scriptnum_serialize_shape n Hnz Hn) as (u & t & Hu & Ht & Htz & Hl & Habs & Hl6 & ->).
  unfold sign_bit, in_u in *. destruct (Z.leb_spec 128 t).
  - replace (u ++ [t; if n <? 0 then 128 else 0]) with ((u ++ [t]) ++ [if n <? 0 then 128 else 0])
      by by rewrite <- app_assoc.
    rewrite set_vch_app; [|apply Forall_app; split; [done|by constructor; [|constructor]]
      |destruct (n <? 0); unfold in_u; lia|rewrite length_app; simpl; lia].
    rewrite le_val_app. cbn [arith_uint256.le_val]. destruct (Z.ltb_spec n 0); [change (128 <? 128) with false|change (0 <? 128) with true]; cbv iota; lia.
  - rewrite set_vch_app by (done || (unfold in_u; destruct (n <? 0); lia)).
    destruct (Z.ltb_spec n 0); case_match; bool_to_prop; lia.
Qed.

Lemma serialize_minimal n max :
  - 2 ^ 63 < n < 2 ^ 63 -> Z.of_nat (length (scriptnum_serialize n)) <= max ->
  CScriptNum (scriptnum_serialize n) true max = Num n.
Proof.
  intros Hn Hmax. unfold CScriptNum. rewrite set_vch_serialize by done.
  destruct (Z.ltb_spec max (Z.of_nat (length (scriptnum_serialize n)))); [lia|].
  destruct (Z.eq_dec n 0) as [->|Hnz]; [done|].
  destruct (scriptnum_serialize_shape n Hnz Hn) as (u & t & Hu & Ht & Htz & Hl & Habs & Hl6 & ->).
  unfold sign_bit, in_u in *. destruct (Z.leb_spec 128 t).
  - replace (u ++ [t; if n <? 0 then 128 else 0]) with ((u ++ [t]) ++ [if n <? 0 then 128 else 0])
      by by rewrite <- app_assoc.
    rewrite (length_app (u ++ [t])), (length_app u). cbn [length].
    replace (nth (length u + 1 + 1 - 2) ((u ++ [t]) ++ [if n <? 0 then 128 else 0]) 0) with t.
    2:{ rewrite <- app_assoc, app_nth2 by lia. by replace (_ - _)%nat with O by lia. }
    rewrite land_80 by done. destruct (Z.ltb_spec t 128); [lia|].
    destruct (Z.leb_spec (Z.of_nat (length u + 1 + 1)) 1); [lia|]. cbn [orb]. by rewrite andb_false_r.
  - rewrite back_app, land_7f by (unfold in_u; destruct (n <? 0); lia).
    replace ((t + (if n <? 0 then 128 else 0) =? 0) || (t + (if n <? 0 then 128 else 0) =? 128)) with false
      by (symmetry; apply orb_false_iff; rewrite !Z.eqb_neq; destruct (n <? 0); lia).
    by rewrite andb_false_r.
Qed.

Lemma serialize_loop_snoc u t :
  bytes_ok u -> in_u 8 t -> t <> 0 -> (length u <= 7)%nat ->
  serialize_loop 8 (le_val u + t * 2 ^ (8 * Z.of_nat (length u))) = u ++ [t].
Proof.
  intros Hu Ht Htz Hl.
  replace (le_val u + t * 2 ^ (8 * Z.of_nat (length u))) with (le_val (u ++ [t]))
    by (rewrite le_val_app; cbn [arith_uint256.le_val]; lia).
  apply serialize_loop_unique.
  - apply Forall_app. split; [done|by constructor; [|constructor]].
  - by destruct u.
  - by rewrite back_app.
  - rewrite length_app. simpl. lia.
Qed.

(** Encoding inverts decoding of the minimal encodings. *)
Lemma serialize_of_magnitude u t n :
  bytes_ok u -> in_u 8 t -> t <> 0 -> (length u <= 7)%nat ->
  n <> 0 -> - 2 ^ 63 < n < 2 ^ 63 -> Z.abs n = le_val u + t * 2 ^ (8 * Z.of_nat (length u)) ->
  scriptnum_serialize n = if 128 <=? t then u ++ [t; sign_bit n] else u ++ [t + sign_bit n].
Proof.
  intros Hu Ht Htz Hl Hnz Hn Habs.
  destruct (scriptnum_serialize_shape n Hnz Hn) as (u' & t' & Hu' & Ht' & Htz' & Hl' & Habs' & _ & ->).
  assert (E : u ++ [t] = u' ++ [t']).
  { rewrite <- (serialize_loop_snoc u t), <- (serialize_loop_snoc u' t') by done. congruence. }
  by apply app_inj_tail in E as [-> ->].
Qed.

Lemma CScriptNum_canonical v max n :
  bytes_ok v -> max <= 8 -> CScriptNum v true max = Num n ->
  scriptnum_serialize n = v /\ - 2 ^ 63 < n < 2 ^ 63.
Proof.
  intros Hv Hmax. unfold CScriptNum. destruct (Z.ltb_spec max (Z.of_nat (length v))); [done|].
  destruct (decide (v = [])) as [->|Hne]; [by intros [= <-]|].
  destruct (bytes_snoc v Hne) as (w & s & -> & _). apply Forall_app in Hv as [Hw Hs].
  inversion Hs as [|? ? Hs' _]; subst. rewrite length_app in *. simpl in *.
  rewrite back_app, land_7f, set_vch_app by (done || lia).
  pose proof (le_val_range w Hw) as Hr. set (p := 2 ^ (8 * Z.of_nat (length w))) in *.
  assert (Hp : p <= 2 ^ 56) by (apply Z.pow_le_mono_r; lia).
  destruct (Z.ltb_spec 0 (Z.of_nat (length w + 1))); [|lia]. unfold in_u in Hs'.
  set (m := if s <? 128 then s else s - 128).
  assert (Hm : 0 <= m < 128 /\ s = m + (if s <? 128 then 0 else 128)) by (unfold m; destruct (Z.ltb_spec s 128); lia).
  destruct (Z.eq_dec m 0) as [Em|Hmz].
  - replace ((s =? 0) || (s =? 128)) with true by (symmetry; apply orb_true_iff; rewrite !Z.eqb_eq;
      unfold m in Em; destruct (Z.ltb_spec s 128); lia). cbn [andb].
    destruct (Z.leb_spec (Z.of_nat (length w + 1)) 1); [done|]. cbn [orb].
    destruct (bytes_snoc w) as (u & t & -> & _); [intros ->; simpl in *; lia|].
    apply Forall_app in Hw as [Hu Ht]. inversion Ht as [|? ? Ht' _]; subst. rewrite length_app in *. simpl in *.
    rewrite <- app_assoc, app_nth2 by lia. replace (length u + 1 + 1 - 2 - length u)%nat with O by lia. cbn [nth app].
    rewrite land_80 by done. destruct (Z.ltb_spec t 128); [done|]. intros [= <-].
    rewrite le_val_app in *. cbn [arith_uint256.le_val] in *. pose proof (le_val_range u Hu).
    assert (0 < 2 ^ (8 * Z.of_nat (length u))) by (apply Zpow2_pos; lia).
    set (n := if s <? 128 then _ else _). unfold in_u in *.
    assert (Hn : Z.abs n = le_val u + t * 2 ^ (8 * Z.of_nat (length u)) /\ n <> 0 /\ - 2 ^ 63 < n < 2 ^ 63 /\ sign_bit n = s).
    { unfold n, sign_bit, m in *. destruct (Z.ltb_spec s 128); case_match; bool_to_prop; nia. }
    destruct Hn as (Habs & Hnz & Hn & Hsg). split; [|done].
    rewrite (serialize_of_magnitude u t n) by (done || lia). destruct (Z.leb_spec 128 t); [|lia]. by rewrite Hsg.
  - replace ((s =? 0) || (s =? 128)) with false by (symmetry; apply orb_false_iff; rewrite !Z.eqb_neq;
      unfold m in Hmz; destruct (Z.ltb_spec s 128); lia). cbn [andb]. intros [= <-].
    set (n := if s <? 128 then _ else _).
    assert (Hn : Z.abs n = le_val w + m * p /\ n <> 0 /\ - 2 ^ 63 < n < 2 ^ 63 /\ m + sign_bit n = s).
    { unfold n, sign_bit, m in *. destruct (Z.ltb_spec s 128); case_match; bool_to_prop; nia. }
    destruct Hn as (Habs & Hnz & Hn & Hsg). split; [|done].
    rewrite (serialize_of_magnitude w m n) by (done || (unfold in_u; lia)). destruct (Z.leb_spec 128 m); [lia|].
    by rewrite Hsg.
Qed.

(** ** Reading what was pushed *)

Lemma ReadLE16_Write x rest : in_u 16 x -> ReadLE16 (WriteLE16 x ++ rest) = x.
Proof.
  intros Hx. unfold ReadLE16, WriteLE16, in_u, wrap in *. cbn [app nth].
  rewrite Z.shiftr_div_pow2, (Z.mod_small (x / 2 ^ 8)) by zdiv_lia.
  rewrite lor_shiftl_add by (unfold in_u; zdiv_lia). zdiv_lia.
Qed.

(** Reading is local: it does not look at what comes after. *)
Lemma read_size_local opcode pc n pc' :
  read_size opcode pc = Some (n, pc') ->
  exists h, pc = h ++ pc' /\ forall x, read_size opcode (h ++ x) = Some (n, x).
Proof.
  unfold read_size. destruct (opcode <? OP_PUSHDATA1); [intros [= <- <-]; by exists []|].
  destruct (opcode =? OP_PUSHDATA1); [|destruct (opcode =? OP_PUSHDATA2)].
  all: case_match eqn:Hl; [done|]; apply Z.ltb_ge in Hl; intros [= <- <-].
  - destruct pc as [|a pc]; [simpl in *; lia|]. exists [a]. split; [done|]. intros x.
    by destruct (Z.ltb_spec (Z.of_nat (length ([a] ++ x))) 1); [simpl in *; lia|].
  - destruct pc as [|a [|b pc]]; [simpl in *; lia..|]. exists [a; b]. split; [done|]. intros x.
    by destruct (Z.ltb_spec (Z.of_nat (length ([a; b] ++ x))) 2); [simpl in *; lia|].
  - destruct pc as [|a [|b [|c [|d pc]]]]; [simpl in *; lia..|]. exists [a; b; c; d]. split; [done|].
    intros x. by destruct (Z.ltb_spec (Z.of_nat (length ([a; b; c; d] ++ x))) 4); [simpl in *; lia|].
Qed.

Lemma GetScriptOp_local pc o d r :
  GetScriptOp pc = Some (o, d, r) ->
  exists chunk, pc = chunk ++ r /\ chunk <> [] /\ forall r', GetScriptOp (chunk ++ r') = Some (o, d, r').
Proof.
  unfold GetScriptOp. destruct pc as [|opcode pc]; [done|]. destruct (opcode <=? OP_PUSHDATA4) eqn:Eo.
  2:{ intros [= <- <- <-]. exists [opcode]. split_and!; [done|done|]. intros r'. cbn [app]. by rewrite Eo. }
  destruct (read_size opcode pc) as [[n q]|] eqn:Es; [|done].
  destruct (Z.ltb_spec (Z.of_nat (length q)) n); [done|]. intros [= <- <- <-].
  destruct (read_size_local _ _ _ _ Es) as (h & -> & Hh).
  exists (opcode :: h ++ firstn (Z.to_nat n) q). split_and!; [|done|].
  - cbn [app]. by rewrite <- app_assoc, firstn_skipn.
  - intros r'. cbn [app]. rewrite Eo, <- app_assoc, Hh, length_app, length_firstn.
    destruct (Z.ltb_spec (Z.of_nat (Z.to_nat n `min` length q + length r')) n); [lia|].
    destruct (Z.le_gt_cases 0 n); [|by replace (Z.to_nat n) with O by lia].
    rewrite firstn_app, skipn_app, length_firstn, firstn_firstn, Nat.min_id.
    replace (Z.to_nat n - Z.to_nat n `min` length q)%nat with O by lia. rewrite app_nil_r.
    by rewrite skipn_all2 by (rewrite length_firstn; lia).
Qed.

Lemma GetScriptOp_push b rest :
  Z.of_nat (length b) < 2 ^ 32 ->
  exists o, GetScriptOp (push_data [] b ++ rest) = Some (o, b, rest) /\ o <= OP_PUSHDATA4.
Proof.
  intros Hb. unfold push_data. cbn [app]. set (n := Z.of_nat (length b)) in *.
  assert (Hn : 0 <= n) by lia.
  assert (Hdata : (if Z.of_nat (length (b ++ rest)) <? n then None
    else Some (firstn (Z.to_nat n) (b ++ rest), skipn (Z.to_nat n) (b ++ rest))) = Some (b, rest)).
  { destruct (Z.ltb_spec (Z.of_nat (length (b ++ rest))) n); [rewrite length_app in *; lia|].
    unfold n. rewrite Nat2Z.id, firstn_app, skipn_app, firstn_all, skipn_all, Nat.sub_diag. by rewrite app_nil_r. }
  assert (Hread : forall o h, o <= OP_PUSHDATA4 -> read_size o (h ++ b ++ rest) = Some (n, b ++ rest) ->
    exists o', GetScriptOp (o :: h ++ b ++ rest) = Some (o', b, rest) /\ o' <= OP_PUSHDATA4).
  { intros o h Ho Hr. exists o. split; [|done]. unfold GetScriptOp. rewrite Hr. revert Hdata.
    destruct (Z.leb_spec o OP_PUSHDATA4); [|lia].
    destruct (Z.of_nat (length (b ++ rest)) <? n); [done|]. intros [= -> ->]. done. }
  unfold OP_PUSHDATA1, OP_PUSHDATA2, OP_PUSHDATA4 in *.
  destruct (Z.ltb_spec n 76) as [H1|H1].
  { rewrite wrap_small by (unfold in_u; lia). apply (Hread n []); [lia|]. unfold read_size, OP_PUSHDATA1.
    by destruct (Z.ltb_spec n 76); [|lia]. }
  destruct (Z.leb_spec n 0xff) as [H2|H2].
  { rewrite wrap_small by (unfold in_u; lia). apply (Hread 76 [n]); [lia|]. unfold read_size. cbn.
    rewrite (proj2 (Z.ltb_ge _ _)) by lia. by rewrite drop_0. }
  destruct (Z.leb_spec n 0xffff) as [H3|H3].
  { rewrite (wrap_small 16) by (unfold in_u; lia). cbn [app]. rewrite <- app_assoc.
    apply (Hread 77 (WriteLE16 n)); [lia|]. unfold read_size, OP_PUSHDATA1, OP_PUSHDATA2.
    change (77 <? 76) with false. change (77 =? 76) with false. change (77 =? 77) with true. cbv iota.
    rewrite ReadLE16_Write by (unfold in_u; lia). cbn [WriteLE16 app skipn].
    by destruct (Z.ltb_spec (Z.of_nat (length (u8 n :: u8 (Z.shiftr n 8) :: b ++ rest))) 2); [simpl in *; lia|]. }
  rewrite (wrap_small 32) by (unfold in_u; lia). cbn [app]. rewrite <- app_assoc.
  apply (Hread 78 (arith_uint256.WriteLE32 n)); [lia|]. unfold read_size, OP_PUSHDATA1, OP_PUSHDATA2.
  change (78 <? 76) with false. change (78 =? 76) with false. change (78 =? 77) with false. cbv iota.
  rewrite arith_uint256.read_write_LE32 by (unfold in_u; lia).
  destruct (Z.ltb_spec (Z.of_nat (length (arith_uint256.WriteLE32 n ++ b ++ rest))) 4);
    [rewrite length_app in *; simpl in *; lia|done].
Qed.

(** ** The operations of a script *)

Lemma GetScriptOp_shrinks pc o d r : GetScriptOp pc = Some (o, d, r) -> (length r < length pc)%nat.
Proof.
  intros H. destruct (GetScriptOp_local _ _ _ _ H) as (chunk & -> & Hne & _).
  rewrite length_app. destruct chunk; [done|simpl; lia].
Qed.

Lemma ops_loop_fuel n fuel pc :
  (length pc <= n)%nat -> (length pc <= fuel)%nat -> ops_loop n pc = ops_loop fuel pc.
Proof.
  revert fuel pc; induction n as [|n IH]; intros fuel pc Hn Hf.
  { destruct pc; [by destruct fuel|simpl in Hn; lia]. }
  destruct pc as [|x pc]; [by destruct fuel|]. destruct fuel as [|fuel]; [simpl in Hf; lia|].
  cbn [ops_loop]. destruct (GetScriptOp (x :: pc)) as [[[o d] r]|] eqn:E; [|done].
  apply GetScriptOp_shrinks in E. by rewrite (IH fuel r) by (simpl in *; lia).
Qed.

(** The equation of the loops: read one operation and go on. *)
Lemma ops_unfold pc :
  ops pc = match pc with
           | [] => ([], true)
           | _ => match GetScriptOp pc with
                  | None => ([], false)
                  | Some (o, d, r) =>
                      ({| op_code := o; op_data := d; op_rest := r |} :: fst (ops r), snd (ops r))
                  end
           end.
Proof.
  unfold ops. destruct pc as [|x pc]; [done|]. cbn [ops_loop length].
  destruct (GetScriptOp (x :: pc)) as [[[o d] r]|] eqn:E; [|done].
  apply GetScriptOp_shrinks in E. rewrite (ops_loop_fuel (length pc) (length r) r) by (simpl in *; lia).
  by destruct (ops_loop (length r) r).
Qed.

Lemma ops_length pc : (length (fst (ops pc)) <= length pc)%nat.
Proof.
  remember (length pc) as n eqn:En. revert pc En. induction n as [n IH] using lt_wf_ind. intros pc ->.
  rewrite ops_unfold. destruct pc as [|x pc]; [done|].
  destruct (GetScriptOp (x :: pc)) as [[[o d] r]|] eqn:E; [|simpl; lia].
  apply GetScriptOp_shrinks in E. specialize (IH (length r) E r eq_refl). simpl in *. lia.
Qed.

Lemma ops_push b rest :
  Z.of_nat (length b) < 2 ^ 32 ->
  exists o, fst (ops (push_data [] b ++ rest)) =
      {| op_code := o; op_data := b; op_rest := rest |} :: fst (ops rest) /\ o <= OP_PUSHDATA4.
Proof.
  intros Hb. destruct (GetScriptOp_push b rest Hb) as (o & Ho & Hle). exists o. split; [|done].
  rewrite ops_unfold, Ho. by destruct (push_data [] b ++ rest).
Qed.

Lemma sigops_loop_bounds acc l last n :
  n <= sigops_loop acc last n l <= n + 20 * Z.of_nat (length l) /\
  sigops_loop true last n l <= sigops_loop false last n l.
Proof.
  assert (Hmono : forall l last n n', n <= n' -> sigops_loop true last n l <= sigops_loop false last n' l).
  { clear. induction l as [|o l IH]; intros last n n' Hn; cbn [sigops_loop]; [done|]. apply IH.
    unfold MAX_PUBKEYS_PER_MULTISIG, OP_1, OP_16. cbn [andb]. repeat case_match; bool_to_prop; lia. }
  split; [|by apply Hmono]. clear Hmono. revert last n.
  induction l as [|o l IH]; intros last n; cbn [sigops_loop length]; [lia|].
  match goal with |- n <= sigops_loop _ _ ?m _ <= _ => specialize (IH (op_code o) m); assert (n <= m <= n + 20) end; [|lia].
  unfold MAX_PUBKEYS_PER_MULTISIG, OP_1, OP_16. repeat case_match; bool_to_prop; lia.
Qed.

(** ** [IsDGPContractCall] *)

Lemma subrange_Ok script a b :
  0 <= a <= b -> b <= Z.of_nat (length script) ->
  subrange script a b = Ok (firstn (Z.to_nat (b - a)) (skipn (Z.to_nat a) script)).
Proof.
  intros Hab Hb. unfold subrange. destruct (Z.leb_spec 0 a), (Z.leb_spec a b), (Z.leb_spec b (Z.of_nat (length script)));
    (done || lia).
Qed.

(** The chunk of [n] bytes that ends at [i]. *)
Definition chunk_before (script : bytes) (n i : Z) : bytes :=
  firstn (Z.to_nat n) (skipn (Z.to_nat (i - n)) script).

Lemma dgp_scan_spec fuel script data i :
  let n := Z.of_nat (length data) in
  0 < n -> i <= Z.of_nat (length script) -> i <= Z.of_nat fuel -> 0 <= i ->
  match dgp_scan fuel script data i with
  | Ok true => exists k, 0 <= k /\ n <= i - k * n /\ chunk_before script n (i - k * n) = data
  | Ok false => i mod n = 0 /\ forall k, 0 <= k -> n <= i - k * n -> chunk_before script n (i - k * n) <> data
  | Fail => i mod n <> 0 /\ forall k, 0 <= k -> n <= i - k * n -> chunk_before script n (i - k * n) <> data
  | NoFuel => False
  end.
Proof.
  intros n Hn. revert i; induction fuel as [|fuel IH]; intros i Hl Hf Hi; cbn [dgp_scan].
  { destruct (Z.ltb_spec 0 i); [lia|]. assert (i = 0) as -> by lia. split; [done|]. intros k Hk. nia. }
  destruct (Z.ltb_spec 0 i) as [Hpos|]; [|assert (i = 0) as -> by lia; split; [done|]; intros k Hk; nia].
  fold n. destruct (Z.lt_ge_cases i n) as [Hlt|Hge].
  { unfold subrange. destruct (Z.leb_spec 0 (i - n)); [lia|]. cbn [andb obind].
    rewrite Z.mod_small by lia. split; [lia|]. intros k Hk. nia. }
  rewrite subrange_Ok by lia. cbn [obind]. replace (i - (i - n)) with n by lia. fold (chunk_before script n i).
  destruct (bytes_eqb (chunk_before script n i) data) eqn:Ee.
  { apply bytes_eqb_eq in Ee. exists 0. replace (i - 0 * n) with i by lia. split_and!; [lia|lia|done]. }
  assert (Hne : chunk_before script n i <> data) by (intros E; apply bytes_eqb_eq in E; congruence).
  specialize (IH (i - n) ltac:(lia) ltac:(lia) ltac:(lia)).
  assert (Hmod : (i - n) mod n = i mod n) by (replace (i - n) with (i + (-1) * n) by lia; apply Z_mod_plus_full).
  assert (Hstep : (forall k, 0 <= k -> n <= i - n - k * n -> chunk_before script n (i - n - k * n) <> data) ->
    forall k, 0 <= k -> n <= i - k * n -> chunk_before script n (i - k * n) <> data).
  { intros H k Hk Hle. destruct (Z.eq_dec k 0) as [->|]; [by replace (i - 0 * n) with i by lia|].
    specialize (H (k - 1) ltac:(lia)). replace (i - n - (k - 1) * n) with (i - k * n) in H by lia. by apply H. }
  destruct (dgp_scan fuel script data (i - n)) as [[]| |]; [| | |done].
  - destruct IH as (k & Hk & Hle & E). exists (k + 1). replace (i - (k + 1) * n) with (i - n - k * n) by lia.
    split_and!; [lia|lia|done].
  - rewrite <- Hmod. split; [tauto|]. apply Hstep, IH.
  - rewrite <- Hmod. split; [tauto|]. apply Hstep, IH.
Qed.

(** ** The sender signature *)

(** The iterators from [pc] on over operations other than OP_SENDER. *)
Inductive trace : bytes -> list bytes -> Prop :=
| trace_here pc : trace pc [pc]
| trace_step pc o d r l :
    GetScriptOp pc = Some (o, d, r) -> o <> OP_SENDER -> trace r l -> trace pc (pc :: l).

Definition at_sender (pc : bytes) : Prop := exists d r, GetScriptOp pc = Some (OP_SENDER, d, r).

Lemma replace_loop_spec script sig n pc hist r :
  (length pc <= n)%nat ->
  replace_loop script OP_SENDER 1 sig (hist ++ [pc]) (fst (ops pc)) = Some r <->
  exists l hist' a tail, trace pc l /\ hist ++ l = hist' ++ [a; tail] /\ hist' <> [] /\ at_sender tail /\
    r = push_data (firstn (length script - length a) script) sig ++ tail.
Proof.
  revert pc hist; induction n as [|n IH]; intros pc hist Hn.
  { destruct pc; [|simpl in Hn; lia]. split; [done|].
    intros (l & hist' & a & tail & Ht & E & _ & (d & r0 & Hs) & _).
    inversion Ht as [|? ? ? ? ? Hop]; subst; [|done].
    change [a; tail] with ([a] ++ [tail]) in E. rewrite app_assoc in E. apply app_inj_tail in E as [_ <-]. done. }
  rewrite ops_unfold. destruct pc as [|x pc].
  { apply (IH [] hist). simpl. lia. }
  set (q := x :: pc) in *. destruct (GetScriptOp q) as [[[o d] r0]|] eqn:Eop.
  2:{ split; [done|]. intros (l & hist' & a & tail & Ht & E & _ & (d & r1 & Hs) & _).
      inversion Ht as [|? ? ? ? ? Hop]; subst; [|congruence].
      change [a; tail] with ([a] ++ [tail]) in E. rewrite app_assoc in E. apply app_inj_tail in E as [_ <-]. congruence. }
  cbn [fst replace_loop op_code op_rest]. destruct (Z.eqb_spec o OP_SENDER) as [->|Hne].
  - split.
    + rewrite length_app. cbn [length]. destruct (Nat.ltb_spec (1 + 1) (length hist + 1)) as [Hsz|]; [|done].
      intros [= <-]. destruct (List.exists_last (l := hist)) as (hist' & a & E); [by intros ->; simpl in *; lia|].
      subst hist. exists [q], hist', a, q. rewrite <- app_assoc. split_and!; [constructor|done| |by eexists _, _|].
      * intros ->. simpl in Hsz. lia.
      * rewrite length_app. cbn [length app].
        rewrite !app_nth2 by lia.
        replace (length hist' + 1 + 1 - 1 - 1 - length hist')%nat with O by lia.
        replace (length hist' + 1 + 1 - 1 - length hist')%nat with 1%nat by lia. done.
    + intros (l & hist' & a & tail & Ht & E & Hh & (d' & r1 & Hs) & ->).
      inversion Ht as [|? o' ? ? ? Hop Ho']; subst; [|rewrite Eop in Hop; by simplify_eq].
      change [a; tail] with ([a] ++ [tail]) in E. rewrite app_assoc in E. apply app_inj_tail in E as [-> <-].
      rewrite !length_app. cbn [length].
      destruct (Nat.ltb_spec (1 + 1) (length hist' + 1 + 1)) as [Hsz|Hsz]; [|destruct hist'; [done|simpl in Hsz; lia]].
      rewrite <- !app_assoc. cbn [app]. rewrite !app_nth2 by lia.
      replace (length hist' + 1 + 1 - 1 - 1 - length hist')%nat with O by lia.
      by replace (length hist' + 1 + 1 - 1 - length hist')%nat with 1%nat by lia.
  - apply GetScriptOp_shrinks in Eop as Hlt. rewrite (IH r0 (hist ++ [q])) by (unfold q in *; simpl in *; lia). split.
    + intros (l & hist' & a & tail & Ht & E & Hh & Hs & ->). exists (q :: l), hist', a, tail.
      rewrite <- app_assoc in E. split_and!; try done. by econstructor.
    + intros (l & hist' & a & tail & Ht & E & Hh & Hs & ->).
      inversion Ht as [|? o' ? ? l' Hop Ho' Ht']; subst.
      * change [a; tail] with ([a] ++ [tail]) in E. rewrite app_assoc in E. apply app_inj_tail in E as [_ <-].
        destruct Hs as (d' & r1 & Hs). rewrite Eop in Hs. by simplify_eq.
      * rewrite Eop in Hop. simplify_eq. exists l', hist', a, tail. rewrite <- app_assoc. done.
Qed.

Lemma UpdateSenderSig_spec script sig r :
  UpdateSenderSig script sig = Some r <->
  exists hist a tail, trace script (hist ++ [a; tail]) /\ hist <> [] /\ at_sender tail /\
    r = push_data (firstn (length script - length a) script) sig ++ tail.
Proof.
  unfold UpdateSenderSig, ReplaceParam. change (1 <? 0) with false. cbv iota. change (Z.to_nat 1) with 1%nat.
  rewrite (replace_loop_spec script sig (length script) script [] r) by done. split.
  - intros (l & hist & a & tail & Ht & E & ?). simpl in E. subst l. by exists hist, a, tail.
  - intros (hist & a & tail & Ht & ?). by exists (hist ++ [a; tail]), hist, a, tail.
Qed.

(** Replacing what follows a prefix of operations keeps the prefix. *)
Lemma trace_local pc l a :
  trace pc (l ++ [a]) ->
  exists pre, pc = pre ++ a /\ forall a', exists l', length l' = length l /\ trace (pre ++ a') (l' ++ [a']).
Proof.
  revert pc; induction l as [|x l IH]; intros pc Ht.
  - simpl in Ht. assert (pc = a) as ->.
    { inversion Ht as [|? ? ? ? l Hop Ho Ht']; subst; [done|]. by inversion Ht'. }
    exists []. split; [done|]. intros a'. exists []. split; [done|constructor].
  - simpl in Ht. inversion Ht as [|? o d r ? Hop Ho Ht']; subst.
    { by destruct l. }
    destruct (IH r Ht') as (pre & -> & Hpre). destruct (GetScriptOp_local _ _ _ _ Hop) as (chunk & -> & _ & Hc).
    exists (chunk ++ pre). split; [by rewrite app_assoc|]. intros a'. destruct (Hpre a') as (l' & Hl & Htr).
    exists ((chunk ++ pre ++ a') :: l'). split; [simpl; lia|]. rewrite <- app_assoc. cbn [app].
    econstructor; [apply Hc|done|done].
Qed.

Lemma trace_app pc l a l2 : trace pc (l ++ [a]) -> trace a l2 -> trace pc (l ++ l2).
Proof.
  revert pc; induction l as [|x l IH]; intros pc Ht Ha; simpl in *.
  - inversion Ht as [|? ? ? ? ? Hop Ho Ht']; subst; [done|]. by inversion Ht'.
  - inversion Ht as [|? o d r ? Hop Ho Ht']; subst; [by destruct l|]. econstructor; eauto.
Qed.

Lemma push_data_app pre b : push_data pre b = pre ++ push_data [] b.
Proof. done. Qed.

(** * Properties *)

(** Script numbers round-trip.  The encoding of every 64-bit number
    above the minimum is accepted as minimal and decodes to it, and an
    accepted minimal encoding of at most eight bytes is the encoding of the
    number it decodes to; so minimal encodings are unique. *)
Theorem scriptnum_round_trip n v max :
  - 2 ^ 63 < n < 2 ^ 63 -> bytes_ok v -> max <= 8 ->
  (Z.of_nat (length (scriptnum_serialize n)) <= max -> CScriptNum (scriptnum_serialize n) true max = Num n) /\
  (CScriptNum v true max = Num n -> scriptnum_serialize n = v).
Proof.
  intros Hn Hv Hmax. split; [by apply serialize_minimal|].
  intros H. by destruct (CScriptNum_canonical v max n Hv Hmax H).
Qed.

Lemma scriptnum_round_trip_witness :
  CScriptNum [0xff; 0x80] true 4 = Num (-255) /\ scriptnum_serialize (-255) = [0xff; 0x80].
Proof.
  destruct (scriptnum_round_trip (-255) [0xff; 0x80] 4) as [H1 H2]; [lia| |lia|].
  - repeat constructor; unfold in_u; lia.
  - split; [apply H1; vm_compute; congruence|apply H2; reflexivity].
Defined.

(** A push is read back: whatever follows, [GetScriptOp] on a script
    that starts with [<< b] returns a push opcode, the bytes [b] and the rest
    of the script, for all four forms of the push. *)
Theorem push_data_read_back b rest :
  Z.of_nat (length b) < 2 ^ 32 ->
  exists o, GetScriptOp (push_data [] b ++ rest) = Some (o, b, rest) /\ o <= OP_PUSHDATA4.
Proof. apply GetScriptOp_push. Qed.

Lemma push_data_read_back_witness :
  exists o, GetScriptOp (push_data [] (repeat 7 300) ++ [OP_CHECKSIG]) = Some (o, repeat 7 300, [OP_CHECKSIG]).
Proof.
  destruct (push_data_read_back (repeat 7 300) [OP_CHECKSIG]) as (o & Ho & _); [vm_compute; reflexivity|].
  exists o. exact Ho.
Defined.

(** The legacy count of signature operations never undercounts the
    accurate one, and both are at most twenty per byte of the script. *)
Theorem sigop_counts_bounded script :
  0 <= GetSigOpCount script true <= GetSigOpCount script false /\
  GetSigOpCount script false <= 20 * Z.of_nat (length script).
Proof.
  unfold GetSigOpCount. pose proof (ops_length script).
  destruct (sigops_loop_bounds true (fst (ops script)) OP_INVALIDOPCODE 0) as [Ht Hle].
  destruct (sigops_loop_bounds false (fst (ops script)) OP_INVALIDOPCODE 0) as [Hf _]. lia.
Qed.

(** What a sender signs does not depend on the signature: putting any
    signature into an OP_SENDER script and removing it again gives the
    script that removing the old one gives. *)
Theorem sender_signature_excluded script sig script' :
  Z.of_nat (length sig) < 2 ^ 32 ->
  UpdateSenderSig script sig = Some script' -> WithoutSenderSig script' = WithoutSenderSig script.
Proof.
  intros Hsig Hu. apply UpdateSenderSig_spec in Hu as (hist & a & tail & Ht & Hh & Hs & ->).
  assert (Ha : trace script (hist ++ [a])).
  { clear -Ht. revert script Ht; induction hist as [|x hist IH]; intros script Ht; simpl in *.
    - inversion Ht as [|? ? ? ? ? Hop Ho Ht']; subst. constructor.
    - inversion Ht as [|? ? ? ? ? Hop Ho Ht']; subst; [by destruct hist|]. econstructor; eauto. }
  destruct (trace_local _ _ _ Ha) as (pre & E & Hpre). subst script.
  rewrite length_app. replace (length pre + length a - length a)%nat with (length pre) by lia.
  rewrite take_app_length, (push_data_app pre sig), <- app_assoc. unfold WithoutSenderSig.
  assert (Hboth : UpdateSenderSig (pre ++ a) [] = Some (push_data pre [] ++ tail) /\
                  UpdateSenderSig (pre ++ push_data [] sig ++ tail) [] = Some (push_data pre [] ++ tail)).
  { split; apply UpdateSenderSig_spec.
    - exists hist, a, tail. rewrite length_app.
      replace (length pre + length a - length a)%nat with (length pre) by lia. by rewrite take_app_length.
    - destruct (Hpre (push_data [] sig ++ tail)) as (l' & Hl & Htr).
      destruct (GetScriptOp_push sig tail Hsig) as (o & Hop & Ho).
      exists l', (push_data [] sig ++ tail), tail. split_and!.
      + eapply trace_app; [exact Htr|]. econstructor; [exact Hop| |constructor]. unfold OP_PUSHDATA4, OP_SENDER in *. lia.
      + intros ->. by destruct hist.
      + done.
      + rewrite length_app. replace (_ + _ - _)%nat with (length pre) by lia. by rewrite take_app_length. }
  destruct Hboth as [-> ->]. done.
Qed.

Lemma sender_signature_excluded_witness :
  WithoutSenderSig ([OP_1; 1; 9; 2; 5; 6; OP_SENDER; OP_CALL]) = [OP_1; 1; 9; 0; OP_SENDER; OP_CALL].
Proof.
  rewrite <- (sender_signature_excluded [OP_1; 1; 9; 2; 5; 6; OP_SENDER; OP_CALL] [1; 2; 3]
    [OP_1; 1; 9; 3; 1; 2; 3; OP_SENDER; OP_CALL]); [reflexivity|vm_compute; reflexivity|reflexivity].
Defined.

(** [IsDGPContractCall] reads outside the script exactly when the
    script is empty, or ends in OP_CALL with fewer than 21 bytes, or ends in
    a call of the contract whose data does not occur at a multiple of its
    length from the call while the length of what precedes the address is
    not a multiple of the length of the data. *)
Theorem IsDGPContractCall_out_of_bounds script addr data :
  (0 < length data)%nat ->
  let n := Z.of_nat (length data) in
  let size := Z.of_nat (length script) in
  IsDGPContractCall script addr data = Fail <->
  script = [] \/
  (back script = OP_CALL /\ size < 21) \/
  (back script = OP_CALL /\ 21 <= size /\ addr = chunk_before script 20 (size - 1) /\
   22 < size /\ (size - 22) mod n <> 0 /\
   forall k, 0 <= k -> n <= size - 22 - k * n -> chunk_before script n (size - 22 - k * n) <> data).
Proof.
  intros Hd n size. unfold IsDGPContractCall, IsDGPContractCall_reading. fold size.
  destruct script as [|x script']; [split; [by left|done]|]. cbn [last_byte obind]. set (script := x :: script') in *.
  assert (Hsize : size = Z.of_nat (length script)) by done.
  destruct (Z.eqb_spec (back script) OP_CALL) as [Ec|Ec]; [|split; [done|by intros [?|[[? ?]|(? & ? & _)]]]].
  destruct (Z.lt_ge_cases size 21) as [Hlt|Hge].
  { unfold subrange. destruct (Z.leb_spec 0 (size - 21)); [lia|]. split; [|done]. intros _. by right; left. }
  rewrite subrange_Ok by lia. cbn [obind].
  replace (size - 1 - (size - 21)) with 20 by lia. replace (size - 21) with (size - 1 - 20) by lia.
  fold (chunk_before script 20 (size - 1)).
  destruct (bytes_eqb addr (chunk_before script 20 (size - 1))) eqn:Ea; cbn [negb].
  2:{ split; [done|]. intros [?|[[_ ?]|(_ & _ & E & _)]]; [done|lia|]. apply bytes_eqb_eq in E. congruence. }
  apply bytes_eqb_eq in Ea. destruct (Z.le_gt_cases size 22) as [Hs|Hs].
  { assert (dgp_scan (length script) script data (size - 22) = Ok false) as ->.
    { unfold script at 1. cbn [length dgp_scan]. by destruct (Z.ltb_spec 0 (size - 22)); [lia|]. }
    split; [done|]. intros [?|[[_ ?]|(_ & _ & _ & ? & _)]]; [done|lia|lia]. }
  assert (Hscan := dgp_scan_spec (length script) script data (size - 22)). cbv zeta in Hscan.
  specialize (Hscan ltac:(lia) ltac:(lia) ltac:(lia) ltac:(lia)). fold n in Hscan.
  destruct (dgp_scan (length script) script data (size - 22)) as [[]| |]; [| | |done].
  - split; [done|]. intros [?|[[_ ?]|(_ & _ & _ & _ & _ & Hno)]]; [done|lia|].
    destruct Hscan as (k & Hk & Hle & E). by destruct (Hno k Hk Hle).
  - split; [done|]. intros [?|[[_ ?]|(_ & _ & _ & _ & Hmod & _)]]; [done|lia|tauto].
  - split; [|done]. intros _. right; right. tauto.
Qed.

Lemma IsDGPContractCall_out_of_bounds_witness :
  IsDGPContractCall [] (repeat 3 20) [0x1c; 3; 0x18; 0xcd] = Fail /\
  IsDGPContractCall ([1; 2; 3; 4; 20] ++ repeat 3 20 ++ [OP_CALL]) (repeat 3 20) [0x1c; 3; 0x18; 0xcd] = Ok false /\
  IsDGPContractCall ([1; 2; 20] ++ repeat 3 20 ++ [OP_CALL]) (repeat 3 20) [0x1c; 3; 0x18; 0xcd] = Fail.
Proof.
  split; [apply IsDGPContractCall_out_of_bounds; [simpl; lia|by left]|]. split; [reflexivity|reflexivity].
Defined.
