(* ===== verification/HashBuffer.v ===== *)
(** * HashBuffer: the streaming shell of the hash functions
    (src/src/crypto/common.h, and the [Write] methods of
    src/src/crypto/{sha1,ripemd160}.cpp)

    Every hash function of the node keeps a chaining state, a 64-byte buffer
    and a byte count, and turns any sequence of [Write] calls into calls of
    its [Transform] on full blocks.  This file models the buffering once, for
    any compression function, and proves that it computes the plain
    iteration of the compression function over the concatenated input. *)

From Stdlib Require Import ZArith List Lia Bool.
From stdpp Require Import base decidable list.
From S2P Require Import Prelude Primitives.
Local Open Scope Z_scope.

(** ** Big-endian and 64-bit accesses of crypto/common.h

    A pointer [p + off] is the byte list with an offset. *)

Definition ReadBE32 (p : bytes) (off : nat) : Z :=
  Z.lor (Z.lor (Z.lor (Z.shiftl (nth off p 0) 24) (Z.shiftl (nth (off + 1) p 0) 16))
               (Z.shiftl (nth (off + 2) p 0) 8))
        (nth (off + 3) p 0).

Definition WriteBE32 (x : Z) : bytes :=
  [u8 (Z.shiftr x 24); u8 (Z.shiftr x 16); u8 (Z.shiftr x 8); u8 x].

Definition WriteBE64 (x : Z) : bytes :=
  WriteBE32 (Z.shiftr x 32) ++ WriteBE32 (u32 x).

Definition WriteLE64 (x : Z) : bytes :=
  [u8 x; u8 (Z.shiftr x 8); u8 (Z.shiftr x 16); u8 (Z.shiftr x 24);
   u8 (Z.shiftr x 32); u8 (Z.shiftr x 40); u8 (Z.shiftr x 48); u8 (Z.shiftr x 56)].

(** ** Hash objects *)

(** The members of [CSHA256], [CSHA1] and [CRIPEMD160]. *)
Record hasher (S : Type) := mkHasher { hs : S; hbuf : bytes; hbytes : Z }.
Arguments mkHasher {S} _ _ _.
Arguments hs {S} _.
Arguments hbuf {S} _.
Arguments hbytes {S} _.

(** [memcpy(buf + off, data, n)] with [n] the length of [data] *)
Definition memcpy (buf : bytes) (off : nat) (data : bytes) : bytes :=
  take off buf ++ data ++ drop (off + length data) buf.

(** A compression function on a chaining state, [Transform] of the source:
    it reads the first 64 bytes at its chunk pointer. *)
Class Compression (S : Type) := compress : S -> bytes -> S.

Class CompressionLaws (S : Type) `{Compression S} : Prop :=
  compress_local : forall s a b, take 64 a = take 64 b -> compress s a = compress s b.

Section hasher.
Context {S : Type} `{Compression S}.

(** The first step of [Write]: complete a partly filled buffer.  Gives the
    object, the rest of the data and [bufsize]. *)
Definition fill (h : hasher S) (data : bytes) : hasher S * bytes * nat :=
  let bufsize := Z.to_nat (hbytes h mod 64) in
  if negb (bufsize =? 0)%nat && (64 <=? bufsize + length data)%nat then
    let buf := memcpy (hbuf h) bufsize (take (64 - bufsize) data) in
    (mkHasher (compress (hs h) buf) buf (u64 (hbytes h + Z.of_nat (64 - bufsize))),
     drop (64 - bufsize) data, 0%nat)
  else (h, data, bufsize).

(** [while (end - data >= 64) { Transform(s, data); ... }] *)
Fixpoint full_chunks (fuel : nat) (h : hasher S) (data : bytes) : hasher S * bytes :=
  match fuel with
  | O => (h, data)
  | Datatypes.S fuel' =>
    if (64 <=? length data)%nat then
      full_chunks fuel' (mkHasher (compress (hs h) data) (hbuf h) (u64 (hbytes h + 64)))
                  (drop 64 data)
    else (h, data)
  end.

(** The last step of [Write]: keep what remains in the buffer. *)
Definition keep_rest (h : hasher S) (data : bytes) (bufsize : nat) : hasher S :=
  if (0 <? length data)%nat then
    mkHasher (hs h) (memcpy (hbuf h) bufsize data) (u64 (hbytes h + Z.of_nat (length data)))
  else h.

(** [CSHA1::Write] and [CRIPEMD160::Write] *)
Definition Write (h : hasher S) (data : bytes) : hasher S :=
  let '(h1, data1, bufsize) := fill h data in
  let '(h2, data2) := full_chunks (length data1) h1 data1 in
  keep_rest h2 data2 bufsize.

(** The first two statements of [Finalize]: the padding and the length. *)
Definition pad_bytes (n : nat) : bytes := 0x80 :: repeat 0 (n - 1).

(** [1 + ((119 - (bytes % 64)) % 64)] *)
Definition pad_length (count : Z) : nat := Z.to_nat (1 + (119 - count mod 64) mod 64).

Definition finish (write : hasher S -> bytes -> hasher S) (sizedesc : Z -> bytes)
    (h : hasher S) : hasher S :=
  let desc := sizedesc (u64 (Z.shiftl (hbytes h) 3)) in
  write (write h (pad_bytes (pad_length (hbytes h)))) desc.

(** ** What a hash object stands for *)

(** The compression function iterated over [n] blocks. *)
Fixpoint absorb (n : nat) (s : S) (m : bytes) : S :=
  match n with
  | O => s
  | Datatypes.S n' => absorb n' (compress s m) (drop 64 m)
  end.

(** [h] has taken in the message [m], from the chaining value [iv]. *)
Record holds (iv : S) (h : hasher S) (m : bytes) : Prop := {
  holds_buf : length (hbuf h) = 64%nat;
  holds_bytes : hbytes h = u64 (Z.of_nat (length m));
  holds_state : hs h = absorb (length m / 64) iv m;
  holds_rest : take (length m mod 64) (hbuf h) = drop (64 * (length m / 64)) m }.

(** The message with the padding of Merkle and Damgard: a one bit, the least
    number of zeros that leaves room for the length in the last block, and
    the length in bits. *)
Definition padded (sizedesc : Z -> bytes) (m : bytes) : bytes :=
  m ++ 0x80 :: repeat 0 (Z.to_nat ((55 - Z.of_nat (length m)) mod 64))
    ++ sizedesc (8 * Z.of_nat (length m)).

Definition hash_of (sizedesc : Z -> bytes) (iv : S) (m : bytes) : S :=
  absorb (length (padded sizedesc m) / 64) iv (padded sizedesc m).

End hasher.

Lemma ReadBE32_local x y off n :
  take n x = take n y -> (off + 4 <= n)%nat -> ReadBE32 x off = ReadBE32 y off.
Proof.
  intros E Hn. unfold ReadBE32.
  assert (N : forall i, (i < n)%nat -> nth i x 0 = nth i y 0).
  { intros i Hi. pose proof (f_equal (fun l => l !! i) E) as L. cbn in L.
    rewrite !lookup_take_lt in L by lia. by rewrite !nth_lookup, L. }
  by rewrite !N by lia.
Qed.

Section hasher_laws.
Context {S : Type} `{Compression S} `{!CompressionLaws S} (iv : S).
Implicit Types (h : hasher S) (m data : bytes).

Lemma absorb_add a b s m :
  absorb (a + b) s m = absorb b (absorb a s m) (drop (64 * a) m).
Proof.
  revert s m; induction a as [|a IH]; intros s m; [done|].
  cbn [absorb Nat.add]. rewrite IH, drop_drop. repeat f_equal; lia.
Qed.

Lemma absorb_local n s x y : take (64 * n) x = take (64 * n) y -> absorb n s x = absorb n s y.
Proof.
  revert s x y; induction n as [|n IH]; intros s x y E; [done|]. cbn [absorb].
  assert (E64 : take 64 x = take 64 y)
    by (apply (f_equal (take 64)) in E; rewrite !take_take in E; by rewrite !Nat.min_l in E by lia).
  rewrite (compress_local s x y E64). apply IH.
  apply (f_equal (drop 64)) in E. rewrite !skipn_firstn_comm in E.
  by replace (64 * Datatypes.S n - 64)%nat with (64 * n)%nat in E by lia.
Qed.

Lemma absorb_app n s m data :
  (64 * n <= length m)%nat -> absorb n s (m ++ data) = absorb n s m.
Proof. intros. apply absorb_local. by rewrite take_app_le. Qed.

Lemma holds_mod h m : holds iv h m -> Z.to_nat (hbytes h mod 64) = (length m mod 64)%nat.
Proof.
  intros [_ -> _ _]. unfold wrap.
  rewrite Z.mod_mod_divide by (exists (2 ^ 58); reflexivity).
  rewrite <- (Nat2Z.id (length m mod 64)), Nat2Z.inj_mod. done.
Qed.

Lemma wrap_count h m k :
  holds iv h m -> u64 (hbytes h + Z.of_nat k) = u64 (Z.of_nat (length m + k)).
Proof.
  intros [_ -> _ _]. unfold wrap. rewrite Zplus_mod_idemp_l. f_equal. lia.
Qed.

(** Taking in one full block at a block boundary, wherever its bytes are. *)
Lemma holds_block h m data buf :
  holds iv h m -> (length m mod 64 = 0)%nat -> (64 <= length data)%nat ->
  length buf = 64%nat ->
  holds iv (mkHasher (compress (hs h) data) buf (u64 (hbytes h + 64))) (m ++ take 64 data).
Proof.
  intros Hh Hm Hd Hb. pose proof (Nat.div_mod_eq (length m) 64) as Dm.
  assert (L : length (m ++ take 64 data) = (length m + 64)%nat)
    by (rewrite length_app, length_take; lia).
  assert (Q : ((length m + 64) / 64 = length m / 64 + 1)%nat)
    by (replace (length m + 64)%nat with (length m + 1 * 64)%nat by lia; apply Nat.div_add; lia).
  constructor; cbn [hs hbuf hbytes].
  - done.
  - rewrite L. by apply (wrap_count h m 64).
  - rewrite L, Q, absorb_add, absorb_app, <- (holds_state _ _ _ Hh) by lia.
    cbn [absorb]. apply compress_local.
    rewrite drop_app_ge by lia. replace (64 * (length m / 64) - length m)%nat with 0%nat by lia.
    by rewrite drop_0, take_take.
  - rewrite L, Q. rewrite drop_ge by lia.
    replace (length m + 64)%nat with (length m + 1 * 64)%nat by lia.
    by rewrite Nat.Div0.mod_add, Hm.
Qed.

(** Taking in bytes that fit into the buffer without completing it. *)
Lemma holds_rest_app h m data :
  holds iv h m -> (length m mod 64 + length data < 64)%nat ->
  holds iv (mkHasher (hs h) (memcpy (hbuf h) (length m mod 64) data)
                     (u64 (hbytes h + Z.of_nat (length data)))) (m ++ data).
Proof.
  intros Hh Hd. pose proof (Nat.div_mod_eq (length m) 64) as Dm.
  set (r := (length m mod 64)%nat) in *. set (q := (length m / 64)%nat) in *.
  assert (Q : ((length m + length data) / 64 = q)%nat)
    by (symmetry; apply Nat.div_unique with (r + length data)%nat; lia).
  assert (R : ((length m + length data) mod 64 = r + length data)%nat)
    by (symmetry; apply Nat.mod_unique with q; lia).
  pose proof (holds_buf _ _ _ Hh) as Hb.
  constructor; cbn [hs hbuf hbytes]; rewrite ?length_app.
  - unfold memcpy. rewrite !length_app, length_take, length_drop. lia.
  - apply (wrap_count h m (length data) Hh).
  - rewrite Q, absorb_app by lia. apply (holds_state _ _ _ Hh).
  - rewrite R, Q, drop_app_le by lia.
    pose proof (holds_rest _ _ _ Hh) as Hrest. fold r q in Hrest. rewrite <- Hrest.
    unfold memcpy. rewrite app_assoc, take_app_le by (rewrite length_app, length_take; lia).
    apply take_ge. rewrite length_app, length_take. lia.
Qed.

Lemma fill_spec h m data :
  holds iv h m ->
  exists h1 m1 data1, fill h data = (h1, data1, length m1 mod 64)%nat /\
    m ++ data = m1 ++ data1 /\ holds iv h1 m1 /\
    ((length m1 mod 64 = 0)%nat \/ (length m1 mod 64 + length data1 < 64)%nat).
Proof.
  intros Hh. unfold fill. rewrite (holds_mod h m Hh).
  pose proof (Nat.mod_upper_bound (length m) 64 ltac:(lia)) as Hr.
  pose proof (Nat.div_mod_eq (length m) 64) as Dm.
  set (r := (length m mod 64)%nat) in *. set (q := (length m / 64)%nat) in *.
  destruct (Nat.eqb_spec r 0) as [E|E]; cbn [negb andb].
  { exists h, m, data. fold r. rewrite E. eauto. }
  destruct (Nat.leb_spec 64 (r + length data)) as [Hle|Hlt].
  2: { exists h, m, data. fold r. eauto. }
  pose proof (holds_buf _ _ _ Hh) as Hb.
  set (first := take (64 - r) data).
  assert (Lf : length first = (64 - r)%nat) by (unfold first; rewrite length_take; lia).
  set (buf := memcpy (hbuf h) r first).
  assert (Eb : buf = drop (64 * q) m ++ first).
  { pose proof (holds_rest _ _ _ Hh) as Hrest. fold r q in Hrest. rewrite <- Hrest.
    unfold buf, memcpy. rewrite Lf, (drop_ge (hbuf h)) by lia.
    by rewrite app_nil_r. }
  assert (Lb : length buf = 64%nat) by (rewrite Eb, length_app, length_drop; lia).
  exists (mkHasher (compress (hs h) buf) buf (u64 (hbytes h + Z.of_nat (64 - r)))),
    (m ++ first), (drop (64 - r) data).
  assert (L1 : length (m ++ first) = (64 * (q + 1))%nat) by (rewrite length_app; lia).
  assert (M1 : (length (m ++ first) mod 64 = 0)%nat) by (rewrite L1, Nat.mul_comm; apply Nat.Div0.mod_mul).
  assert (Q1 : (length (m ++ first) / 64 = q + 1)%nat)
    by (rewrite L1, Nat.mul_comm; apply Nat.div_mul; lia).
  rewrite M1. split_and!; [done | unfold first; by rewrite <- app_assoc, take_drop | | by left].
  constructor; cbn [hs hbuf hbytes]; rewrite ?M1, ?Q1.
  - done.
  - rewrite (wrap_count h m _ Hh), length_app. by rewrite Lf.
  - pose proof (holds_state _ _ _ Hh) as Hs. fold q in Hs.
    rewrite absorb_add, absorb_app, <- Hs by lia. cbn [absorb].
    by rewrite drop_app_le, <- Eb by lia.
  - by rewrite drop_ge by lia.
Qed.

(** Full blocks at a block boundary, [n] of them at least. *)
Lemma full_chunks_spec n h m data :
  holds iv h m -> (length m mod 64 = 0)%nat -> (length data <= n)%nat ->
  exists h1 m1 data1, full_chunks n h data = (h1, data1) /\
    m ++ data = m1 ++ data1 /\ holds iv h1 m1 /\
    (length m1 mod 64 = 0)%nat /\ (length data1 < 64)%nat.
Proof.
  revert h m data; induction n as [|n IH]; intros h m data Hh Hm Hn; cbn [full_chunks].
  { exists h, m, data. split_and!; try done. lia. }
  destruct (Nat.leb_spec 64 (length data)) as [Hle|Hlt].
  2: { exists h, m, data. done. }
  pose proof (holds_block h m data (hbuf h) Hh Hm Hle (holds_buf _ _ _ Hh)) as Hb.
  assert (Hm' : (length (m ++ take 64 data) mod 64 = 0)%nat).
  { rewrite length_app, length_take, Nat.min_l by lia.
    replace (length m + 64)%nat with (length m + 1 * 64)%nat by lia. by rewrite Nat.Div0.mod_add. }
  destruct (IH _ _ (drop 64 data) Hb Hm') as (h1 & m1 & data1 & E & Em & Hh1 & ?).
  { rewrite length_drop. lia. }
  exists h1, m1, data1. destruct_and!. split_and!; try done.
  by rewrite <- Em, <- app_assoc, take_drop.
Qed.

Lemma full_chunks_short n h data : (length data < 64)%nat -> full_chunks n h data = (h, data).
Proof. intros. destruct n; [done|]. cbn [full_chunks]. by destruct (Nat.leb_spec 64 (length data)); [lia|]. Qed.

Lemma keep_rest_spec h m data :
  holds iv h m -> (length m mod 64 + length data < 64)%nat ->
  holds iv (keep_rest h data (length m mod 64)) (m ++ data).
Proof.
  intros Hh Hd. unfold keep_rest. destruct (Nat.ltb_spec 0 (length data)).
  - by apply holds_rest_app.
  - destruct data; [by rewrite app_nil_r | cbn in *; lia].
Qed.

Lemma Write_holds h m data : holds iv h m -> holds iv (Write h data) (m ++ data).
Proof.
  intros Hh. unfold Write.
  destruct (fill_spec h m data Hh) as (h1 & m1 & data1 & -> & -> & Hh1 & Hcase).
  destruct (decide (length data1 < 64)%nat) as [Hs|Hs].
  - rewrite full_chunks_short by done. apply keep_rest_spec; [done|].
    pose proof (Nat.mod_upper_bound (length m1) 64). lia.
  - destruct Hcase as [Hm1|]; [|lia].
    destruct (full_chunks_spec (length data1) h1 m1 data1 Hh1 Hm1) as (h2 & m2 & data2 & -> & -> & Hh2 & Hm2 & ?);
      [done|].
    rewrite Hm1, <- Hm2. apply keep_rest_spec; [done|]. lia.
Qed.

(** ** Finalization, for any [Write] that takes in its data *)

Lemma pad_length_spec n :
  pad_length (u64 (Z.of_nat n)) = Datatypes.S (Z.to_nat ((55 - Z.of_nat n) mod 64)).
Proof.
  unfold pad_length, wrap. rewrite Z.mod_mod_divide by (exists (2 ^ 58); reflexivity).
  rewrite Zminus_mod_idemp_r. replace (119 - Z.of_nat n) with (55 - Z.of_nat n + 1 * 64) by lia.
  rewrite Z.mod_add by lia. pose proof (Z.mod_pos_bound (55 - Z.of_nat n) 64). lia.
Qed.

Lemma length_padded sizedesc m :
  (forall x, length (sizedesc x) = 8%nat) -> (length (padded sizedesc m) mod 64 = 0)%nat.
Proof.
  intros L. unfold padded. rewrite length_app. cbn [length]. rewrite length_app, repeat_length, L.
  rewrite <- (Nat2Z.id (_ mod 64)), Nat2Z.inj_mod.
  pose proof (Z.mod_pos_bound (55 - Z.of_nat (length m)) 64 ltac:(lia)).
  pose proof (Z.div_mod (55 - Z.of_nat (length m)) 64 ltac:(lia)).
  set (k := (55 - Z.of_nat (length m)) mod 64) in *.
  replace (Z.of_nat _) with (0 + (1 - (55 - Z.of_nat (length m)) / 64) * 64) by lia.
  by rewrite Z.mod_add by lia.
Qed.

Lemma finish_holds write sizedesc h m :
  (forall h m data, holds iv h m -> holds iv (write h data) (m ++ data)) ->
  (forall x, length (sizedesc x) = 8%nat) ->
  holds iv h m -> 8 * Z.of_nat (length m) < 2 ^ 64 ->
  hs (finish write sizedesc h) = hash_of sizedesc iv m.
Proof.
  intros Hw Hd Hh Hlen. unfold finish. rewrite (holds_bytes _ _ _ Hh), pad_length_spec.
  rewrite (wrap_small 64 (Z.of_nat (length m))) by (unfold in_u; lia).
  rewrite Z.shiftl_mul_pow2 by lia. replace (Z.of_nat (length m) * 2 ^ 3) with (8 * Z.of_nat (length m)) by lia.
  rewrite wrap_small by (unfold in_u; lia).
  unfold pad_bytes. cbn [Nat.sub]. rewrite Nat.sub_0_r.
  rewrite (holds_state _ _ _ (Hw _ _ _ (Hw _ _ _ Hh))), <- app_assoc. done.
Qed.

Lemma holds_init buf : length buf = 64%nat -> holds iv (mkHasher iv buf 0) [].
Proof. done. Qed.

End hasher_laws.
