(* ===== verification/Sha256.v ===== *)
(** * Sha256: SHA-256 and its double-hash fast path
    (src/src/crypto/sha256.{h,cpp})

    [Transform] and [TransformD64] are translated line by line: the source
    keeps the working variables and the message window in sixteen plus eight
    locals that every [Round] updates through references, so [Round] here
    takes the continuation that receives the two variables it writes, and
    [word] the continuation of an assignment to a [w].  The reference is
    FIPS 180-4: the message schedule as a recurrence over the last sixteen
    words, and sixty-four identical rounds.  [TransformD64] is compared with
    hashing twice.

    The routine that the node selects at start-up may instead be one of the
    assembly or intrinsics variants; those are not modelled. *)

From Stdlib Require Import ZArith List Lia Bool.
From stdpp Require Import base decidable list.
From S2P Require Import Prelude Primitives HashBuffer.
Local Open Scope Z_scope.

(** ** The functions and one round *)

(** [(x >> n | x << (32 - n))] on 32 bits *)
Definition rotr (n x : Z) : Z := Z.lor (Z.shiftr x n) (u32 (Z.shiftl x (32 - n))).

Definition Ch (x y z : Z) : Z := Z.lxor z (Z.land x (Z.lxor y z)).
Definition Maj (x y z : Z) : Z := Z.lor (Z.land x y) (Z.land z (Z.lor x y)).
Definition Sigma0 (x : Z) : Z := Z.lxor (Z.lxor (rotr 2 x) (rotr 13 x)) (rotr 22 x).
Definition Sigma1 (x : Z) : Z := Z.lxor (Z.lxor (rotr 6 x) (rotr 11 x)) (rotr 25 x).
Definition sigma0 (x : Z) : Z := Z.lxor (Z.lxor (rotr 7 x) (rotr 18 x)) (Z.shiftr x 3).
Definition sigma1 (x : Z) : Z := Z.lxor (Z.lxor (rotr 17 x) (rotr 19 x)) (Z.shiftr x 10).

(** [Round(a, b, c, d&, e, f, g, h&, k)]; [ret] receives the new [d] and [h]. *)
Definition Round {R : Type} (a b c d e f g h k : Z) (ret : Z -> Z -> R) : R :=
  let t1 := u32 (h + Sigma1 e + Ch e f g + k) in
  let t2 := u32 (Sigma0 a + Maj a b c) in
  ret (u32 (d + t1)) (u32 (t1 + t2)).

(** [(w = x)]; [ret] receives the new [w]. *)
Definition word {R : Type} (x : Z) (ret : Z -> R) : R := ret x.

(** [uint32_t s[8]] *)
Record state := mkState { s0 : Z; s1 : Z; s2 : Z; s3 : Z; s4 : Z; s5 : Z; s6 : Z; s7 : Z }.

Definition Initialize : state :=
  mkState 0x6a09e667 0xbb67ae85 0x3c6ef372 0xa54ff53a 0x510e527f 0x9b05688c 0x1f83d9ab 0x5be0cd19.

(** ** The unrolled compression function *)

(** The rounds of one pass of the loop of [Transform]. *)
Definition Transform_rounds {R : Type} (a b c d e f g h : Z) (chunk : bytes)
    (F : Z -> Z -> Z -> Z -> Z -> Z -> Z -> Z -> R) : R :=
  word (ReadBE32 chunk 0) (fun w0 =>
  Round a b c d e f g h (u32 (0x428a2f98 + w0)) (fun d h =>
  word (ReadBE32 chunk 4) (fun w1 =>
  Round h a b c d e f g (u32 (0x71374491 + w1)) (fun c g =>
  word (ReadBE32 chunk 8) (fun w2 =>
  Round g h a b c d e f (u32 (0xb5c0fbcf + w2)) (fun b f =>
  word (ReadBE32 chunk 12) (fun w3 =>
  Round f g h a b c d e (u32 (0xe9b5dba5 + w3)) (fun a e =>
  word (ReadBE32 chunk 16) (fun w4 =>
  Round e f g h a b c d (u32 (0x3956c25b + w4)) (fun h d =>
  word (ReadBE32 chunk 20) (fun w5 =>
  Round d e f g h a b c (u32 (0x59f111f1 + w5)) (fun g c =>
  word (ReadBE32 chunk 24) (fun w6 =>
  Round c d e f g h a b (u32 (0x923f82a4 + w6)) (fun f b =>
  word (ReadBE32 chunk 28) (fun w7 =>
  Round b c d e f g h a (u32 (0xab1c5ed5 + w7)) (fun e a =>
  word (ReadBE32 chunk 32) (fun w8 =>
  Round a b c d e f g h (u32 (0xd807aa98 + w8)) (fun d h =>
  word (ReadBE32 chunk 36) (fun w9 =>
  Round h a b c d e f g (u32 (0x12835b01 + w9)) (fun c g =>
  word (ReadBE32 chunk 40) (fun w10 =>
  Round g h a b c d e f (u32 (0x243185be + w10)) (fun b f =>
  word (ReadBE32 chunk 44) (fun w11 =>
  Round f g h a b c d e (u32 (0x550c7dc3 + w11)) (fun a e =>
  word (ReadBE32 chunk 48) (fun w12 =>
  Round e f g h a b c d (u32 (0x72be5d74 + w12)) (fun h d =>
  word (ReadBE32 chunk 52) (fun w13 =>
  Round d e f g h a b c (u32 (0x80deb1fe + w13)) (fun g c =>
  word (ReadBE32 chunk 56) (fun w14 =>
  Round c d e f g h a b (u32 (0x9bdc06a7 + w14)) (fun f b =>
  word (ReadBE32 chunk 60) (fun w15 =>
  Round b c d e f g h a (u32 (0xc19bf174 + w15)) (fun e a =>
  word (u32 (w0 + (sigma1 w14 + w9 + sigma0 w1))) (fun w0 =>
  Round a b c d e f g h (u32 (0xe49b69c1 + w0)) (fun d h =>
  word (u32 (w1 + (sigma1 w15 + w10 + sigma0 w2))) (fun w1 =>
  Round h a b c d e f g (u32 (0xefbe4786 + w1)) (fun c g =>
  word (u32 (w2 + (sigma1 w0 + w11 + sigma0 w3))) (fun w2 =>
  Round g h a b c d e f (u32 (0x0fc19dc6 + w2)) (fun b f =>
  word (u32 (w3 + (sigma1 w1 + w12 + sigma0 w4))) (fun w3 =>
  Round f g h a b c d e (u32 (0x240ca1cc + w3)) (fun a e =>
  word (u32 (w4 + (sigma1 w2 + w13 + sigma0 w5))) (fun w4 =>
  Round e f g h a b c d (u32 (0x2de92c6f + w4)) (fun h d =>
  word (u32 (w5 + (sigma1 w3 + w14 + sigma0 w6))) (fun w5 =>
  Round d e f g h a b c (u32 (0x4a7484aa + w5)) (fun g c =>
  word (u32 (w6 + (sigma1 w4 + w15 + sigma0 w7))) (fun w6 =>
  Round c d e f g h a b (u32 (0x5cb0a9dc + w6)) (fun f b =>
  word (u32 (w7 + (sigma1 w5 + w0 + sigma0 w8))) (fun w7 =>
  Round b c d e f g h a (u32 (0x76f988da + w7)) (fun e a =>
  word (u32 (w8 + (sigma1 w6 + w1 + sigma0 w9))) (fun w8 =>
  Round a b c d e f g h (u32 (0x983e5152 + w8)) (fun d h =>
  word (u32 (w9 + (sigma1 w7 + w2 + sigma0 w10))) (fun w9 =>
  Round h a b c d e f g (u32 (0xa831c66d + w9)) (fun c g =>
  word (u32 (w10 + (sigma1 w8 + w3 + sigma0 w11))) (fun w10 =>
  Round g h a b c d e f (u32 (0xb00327c8 + w10)) (fun b f =>
  word (u32 (w11 + (sigma1 w9 + w4 + sigma0 w12))) (fun w11 =>
  Round f g h a b c d e (u32 (0xbf597fc7 + w11)) (fun a e =>
  word (u32 (w12 + (sigma1 w10 + w5 + sigma0 w13))) (fun w12 =>
  Round e f g h a b c d (u32 (0xc6e00bf3 + w12)) (fun h d =>
  word (u32 (w13 + (sigma1 w11 + w6 + sigma0 w14))) (fun w13 =>
  Round d e f g h a b c (u32 (0xd5a79147 + w13)) (fun g c =>
  word (u32 (w14 + (sigma1 w12 + w7 + sigma0 w15))) (fun w14 =>
  Round c d e f g h a b (u32 (0x06ca6351 + w14)) (fun f b =>
  word (u32 (w15 + (sigma1 w13 + w8 + sigma0 w0))) (fun w15 =>
  Round b c d e f g h a (u32 (0x14292967 + w15)) (fun e a =>
  word (u32 (w0 + (sigma1 w14 + w9 + sigma0 w1))) (fun w0 =>
  Round a b c d e f g h (u32 (0x27b70a85 + w0)) (fun d h =>
  word (u32 (w1 + (sigma1 w15 + w10 + sigma0 w2))) (fun w1 =>
  Round h a b c d e f g (u32 (0x2e1b2138 + w1)) (fun c g =>
  word (u32 (w2 + (sigma1 w0 + w11 + sigma0 w3))) (fun w2 =>
  Round g h a b c d e f (u32 (0x4d2c6dfc + w2)) (fun b f =>
  word (u32 (w3 + (sigma1 w1 + w12 + sigma0 w4))) (fun w3 =>
  Round f g h a b c d e (u32 (0x53380d13 + w3)) (fun a e =>
  word (u32 (w4 + (sigma1 w2 + w13 + sigma0 w5))) (fun w4 =>
  Round e f g h a b c d (u32 (0x650a7354 + w4)) (fun h d =>
  word (u32 (w5 + (sigma1 w3 + w14 + sigma0 w6))) (fun w5 =>
  Round d e f g h a b c (u32 (0x766a0abb + w5)) (fun g c =>
  word (u32 (w6 + (sigma1 w4 + w15 + sigma0 w7))) (fun w6 =>
  Round c d e f g h a b (u32 (0x81c2c92e + w6)) (fun f b =>
  word (u32 (w7 + (sigma1 w5 + w0 + sigma0 w8))) (fun w7 =>
  Round b c d e f g h a (u32 (0x92722c85 + w7)) (fun e a =>
  word (u32 (w8 + (sigma1 w6 + w1 + sigma0 w9))) (fun w8 =>
  Round a b c d e f g h (u32 (0xa2bfe8a1 + w8)) (fun d h =>
  word (u32 (w9 + (sigma1 w7 + w2 + sigma0 w10))) (fun w9 =>
  Round h a b c d e f g (u32 (0xa81a664b + w9)) (fun c g =>
  word (u32 (w10 + (sigma1 w8 + w3 + sigma0 w11))) (fun w10 =>
  Round g h a b c d e f (u32 (0xc24b8b70 + w10)) (fun b f =>
  word (u32 (w11 + (sigma1 w9 + w4 + sigma0 w12))) (fun w11 =>
  Round f g h a b c d e (u32 (0xc76c51a3 + w11)) (fun a e =>
  word (u32 (w12 + (sigma1 w10 + w5 + sigma0 w13))) (fun w12 =>
  Round e f g h a b c d (u32 (0xd192e819 + w12)) (fun h d =>
  word (u32 (w13 + (sigma1 w11 + w6 + sigma0 w14))) (fun w13 =>
  Round d e f g h a b c (u32 (0xd6990624 + w13)) (fun g c =>
  word (u32 (w14 + (sigma1 w12 + w7 + sigma0 w15))) (fun w14 =>
  Round c d e f g h a b (u32 (0xf40e3585 + w14)) (fun f b =>
  word (u32 (w15 + (sigma1 w13 + w8 + sigma0 w0))) (fun w15 =>
  Round b c d e f g h a (u32 (0x106aa070 + w15)) (fun e a =>
  word (u32 (w0 + (sigma1 w14 + w9 + sigma0 w1))) (fun w0 =>
  Round a b c d e f g h (u32 (0x19a4c116 + w0)) (fun d h =>
  word (u32 (w1 + (sigma1 w15 + w10 + sigma0 w2))) (fun w1 =>
  Round h a b c d e f g (u32 (0x1e376c08 + w1)) (fun c g =>
  word (u32 (w2 + (sigma1 w0 + w11 + sigma0 w3))) (fun w2 =>
  Round g h a b c d e f (u32 (0x2748774c + w2)) (fun b f =>
  word (u32 (w3 + (sigma1 w1 + w12 + sigma0 w4))) (fun w3 =>
  Round f g h a b c d e (u32 (0x34b0bcb5 + w3)) (fun a e =>
  word (u32 (w4 + (sigma1 w2 + w13 + sigma0 w5))) (fun w4 =>
  Round e f g h a b c d (u32 (0x391c0cb3 + w4)) (fun h d =>
  word (u32 (w5 + (sigma1 w3 + w14 + sigma0 w6))) (fun w5 =>
  Round d e f g h a b c (u32 (0x4ed8aa4a + w5)) (fun g c =>
  word (u32 (w6 + (sigma1 w4 + w15 + sigma0 w7))) (fun w6 =>
  Round c d e f g h a b (u32 (0x5b9cca4f + w6)) (fun f b =>
  word (u32 (w7 + (sigma1 w5 + w0 + sigma0 w8))) (fun w7 =>
  Round b c d e f g h a (u32 (0x682e6ff3 + w7)) (fun e a =>
  word (u32 (w8 + (sigma1 w6 + w1 + sigma0 w9))) (fun w8 =>
  Round a b c d e f g h (u32 (0x748f82ee + w8)) (fun d h =>
  word (u32 (w9 + (sigma1 w7 + w2 + sigma0 w10))) (fun w9 =>
  Round h a b c d e f g (u32 (0x78a5636f + w9)) (fun c g =>
  word (u32 (w10 + (sigma1 w8 + w3 + sigma0 w11))) (fun w10 =>
  Round g h a b c d e f (u32 (0x84c87814 + w10)) (fun b f =>
  word (u32 (w11 + (sigma1 w9 + w4 + sigma0 w12))) (fun w11 =>
  Round f g h a b c d e (u32 (0x8cc70208 + w11)) (fun a e =>
  word (u32 (w12 + (sigma1 w10 + w5 + sigma0 w13))) (fun w12 =>
  Round e f g h a b c d (u32 (0x90befffa + w12)) (fun h d =>
  word (u32 (w13 + (sigma1 w11 + w6 + sigma0 w14))) (fun w13 =>
  Round d e f g h a b c (u32 (0xa4506ceb + w13)) (fun g c =>
  Round c d e f g h a b (u32 (0xbef9a3f7 + (w14 + sigma1 w12 + w7 + sigma0 w15))) (fun f b =>
  Round b c d e f g h a (u32 (0xc67178f2 + (w15 + sigma1 w13 + w8 + sigma0 w0))) (fun e a =>
  F a b c d e f g h)))))))))))))))))))))))))))))))))))))))))))))))))))))))))))))))))))))))))))))))))))))))))))))))))))))))))))))))))))))))))))))).

(** One pass of the loop of [Transform]. *)
Definition Transform_block (s : state) (chunk : bytes) : state :=
  Transform_rounds (s0 s) (s1 s) (s2 s) (s3 s) (s4 s) (s5 s) (s6 s) (s7 s) chunk
    (fun a b c d e f g h =>
       mkState (u32 (s0 s + a)) (u32 (s1 s + b)) (u32 (s2 s + c)) (u32 (s3 s + d))
               (u32 (s4 s + e)) (u32 (s5 s + f)) (u32 (s6 s + g)) (u32 (s7 s + h))).

(** [sha256::Transform]: [while (blocks--)] *)
Fixpoint Transform (s : state) (chunk : bytes) (blocks : nat) : state :=
  match blocks with
  | O => s
  | S blocks' => Transform (Transform_block s chunk) (drop 64 chunk) blocks'
  end.

(** ** The double hash of 64 bytes, specialised *)

(** "Transform 1" *)
Definition D64_first {R : Type} (input : bytes)
    (F : Z -> Z -> Z -> Z -> Z -> Z -> Z -> Z -> R) : R :=
  let a := 0x6a09e667 in let b := 0xbb67ae85 in let c := 0x3c6ef372 in
  let d := 0xa54ff53a in let e := 0x510e527f in let f := 0x9b05688c in
  let g := 0x1f83d9ab in let h := 0x5be0cd19 in
  word (ReadBE32 input 0) (fun w0 =>
  Round a b c d e f g h (u32 (0x428a2f98 + w0)) (fun d h =>
  word (ReadBE32 input 4) (fun w1 =>
  Round h a b c d e f g (u32 (0x71374491 + w1)) (fun c g =>
  word (ReadBE32 input 8) (fun w2 =>
  Round g h a b c d e f (u32 (0xb5c0fbcf + w2)) (fun b f =>
  word (ReadBE32 input 12) (fun w3 =>
  Round f g h a b c d e (u32 (0xe9b5dba5 + w3)) (fun a e =>
  word (ReadBE32 input 16) (fun w4 =>
  Round e f g h a b c d (u32 (0x3956c25b + w4)) (fun h d =>
  word (ReadBE32 input 20) (fun w5 =>
  Round d e f g h a b c (u32 (0x59f111f1 + w5)) (fun g c =>
  word (ReadBE32 input 24) (fun w6 =>
  Round c d e f g h a b (u32 (0x923f82a4 + w6)) (fun f b =>
  word (ReadBE32 input 28) (fun w7 =>
  Round b c d e f g h a (u32 (0xab1c5ed5 + w7)) (fun e a =>
  word (ReadBE32 input 32) (fun w8 =>
  Round a b c d e f g h (u32 (0xd807aa98 + w8)) (fun d h =>
  word (ReadBE32 input 36) (fun w9 =>
  Round h a b c d e f g (u32 (0x12835b01 + w9)) (fun c g =>
  word (ReadBE32 input 40) (fun w10 =>
  Round g h a b c d e f (u32 (0x243185be + w10)) (fun b f =>
  word (ReadBE32 input 44) (fun w11 =>
  Round f g h a b c d e (u32 (0x550c7dc3 + w11)) (fun a e =>
  word (ReadBE32 input 48) (fun w12 =>
  Round e f g h a b c d (u32 (0x72be5d74 + w12)) (fun h d =>
  word (ReadBE32 input 52) (fun w13 =>
  Round d e f g h a b c (u32 (0x80deb1fe + w13)) (fun g c =>
  word (ReadBE32 input 56) (fun w14 =>
  Round c d e f g h a b (u32 (0x9bdc06a7 + w14)) (fun f b =>
  word (ReadBE32 input 60) (fun w15 =>
  Round b c d e f g h a (u32 (0xc19bf174 + w15)) (fun e a =>
  word (u32 (w0 + (sigma1 w14 + w9 + sigma0 w1))) (fun w0 =>
  Round a b c d e f g h (u32 (0xe49b69c1 + w0)) (fun d h =>
  word (u32 (w1 + (sigma1 w15 + w10 + sigma0 w2))) (fun w1 =>
  Round h a b c d e f g (u32 (0xefbe4786 + w1)) (fun c g =>
  word (u32 (w2 + (sigma1 w0 + w11 + sigma0 w3))) (fun w2 =>
  Round g h a b c d e f (u32 (0x0fc19dc6 + w2)) (fun b f =>
  word (u32 (w3 + (sigma1 w1 + w12 + sigma0 w4))) (fun w3 =>
  Round f g h a b c d e (u32 (0x240ca1cc + w3)) (fun a e =>
  word (u32 (w4 + (sigma1 w2 + w13 + sigma0 w5))) (fun w4 =>
  Round e f g h a b c d (u32 (0x2de92c6f + w4)) (fun h d =>
  word (u32 (w5 + (sigma1 w3 + w14 + sigma0 w6))) (fun w5 =>
  Round d e f g h a b c (u32 (0x4a7484aa + w5)) (fun g c =>
  word (u32 (w6 + (sigma1 w4 + w15 + sigma0 w7))) (fun w6 =>
  Round c d e f g h a b (u32 (0x5cb0a9dc + w6)) (fun f b =>
  word (u32 (w7 + (sigma1 w5 + w0 + sigma0 w8))) (fun w7 =>
  Round b c d e f g h a (u32 (0x76f988da + w7)) (fun e a =>
  word (u32 (w8 + (sigma1 w6 + w1 + sigma0 w9))) (fun w8 =>
  Round a b c d e f g h (u32 (0x983e5152 + w8)) (fun d h =>
  word (u32 (w9 + (sigma1 w7 + w2 + sigma0 w10))) (fun w9 =>
  Round h a b c d e f g (u32 (0xa831c66d + w9)) (fun c g =>
  word (u32 (w10 + (sigma1 w8 + w3 + sigma0 w11))) (fun w10 =>
  Round g h a b c d e f (u32 (0xb00327c8 + w10)) (fun b f =>
  word (u32 (w11 + (sigma1 w9 + w4 + sigma0 w12))) (fun w11 =>
  Round f g h a b c d e (u32 (0xbf597fc7 + w11)) (fun a e =>
  word (u32 (w12 + (sigma1 w10 + w5 + sigma0 w13))) (fun w12 =>
  Round e f g h a b c d (u32 (0xc6e00bf3 + w12)) (fun h d =>
  word (u32 (w13 + (sigma1 w11 + w6 + sigma0 w14))) (fun w13 =>
  Round d e f g h a b c (u32 (0xd5a79147 + w13)) (fun g c =>
  word (u32 (w14 + (sigma1 w12 + w7 + sigma0 w15))) (fun w14 =>
  Round c d e f g h a b (u32 (0x06ca6351 + w14)) (fun f b =>
  word (u32 (w15 + (sigma1 w13 + w8 + sigma0 w0))) (fun w15 =>
  Round b c d e f g h a (u32 (0x14292967 + w15)) (fun e a =>
  word (u32 (w0 + (sigma1 w14 + w9 + sigma0 w1))) (fun w0 =>
  Round a b c d e f g h (u32 (0x27b70a85 + w0)) (fun d h =>
  word (u32 (w1 + (sigma1 w15 + w10 + sigma0 w2))) (fun w1 =>
  Round h a b c d e f g (u32 (0x2e1b2138 + w1)) (fun c g =>
  word (u32 (w2 + (sigma1 w0 + w11 + sigma0 w3))) (fun w2 =>
  Round g h a b c d e f (u32 (0x4d2c6dfc + w2)) (fun b f =>
  word (u32 (w3 + (sigma1 w1 + w12 + sigma0 w4))) (fun w3 =>
  Round f g h a b c d e (u32 (0x53380d13 + w3)) (fun a e =>
  word (u32 (w4 + (sigma1 w2 + w13 + sigma0 w5))) (fun w4 =>
  Round e f g h a b c d (u32 (0x650a7354 + w4)) (fun h d =>
  word (u32 (w5 + (sigma1 w3 + w14 + sigma0 w6))) (fun w5 =>
  Round d e f g h a b c (u32 (0x766a0abb + w5)) (fun g c =>
  word (u32 (w6 + (sigma1 w4 + w15 + sigma0 w7))) (fun w6 =>
  Round c d e f g h a b (u32 (0x81c2c92e + w6)) (fun f b =>
  word (u32 (w7 + (sigma1 w5 + w0 + sigma0 w8))) (fun w7 =>
  Round b c d e f g h a (u32 (0x92722c85 + w7)) (fun e a =>
  word (u32 (w8 + (sigma1 w6 + w1 + sigma0 w9))) (fun w8 =>
  Round a b c d e f g h (u32 (0xa2bfe8a1 + w8)) (fun d h =>
  word (u32 (w9 + (sigma1 w7 + w2 + sigma0 w10))) (fun w9 =>
  Round h a b c d e f g (u32 (0xa81a664b + w9)) (fun c g =>
  word (u32 (w10 + (sigma1 w8 + w3 + sigma0 w11))) (fun w10 =>
  Round g h a b c d e f (u32 (0xc24b8b70 + w10)) (fun b f =>
  word (u32 (w11 + (sigma1 w9 + w4 + sigma0 w12))) (fun w11 =>
  Round f g h a b c d e (u32 (0xc76c51a3 + w11)) (fun a e =>
  word (u32 (w12 + (sigma1 w10 + w5 + sigma0 w13))) (fun w12 =>
  Round e f g h a b c d (u32 (0xd192e819 + w12)) (fun h d =>
  word (u32 (w13 + (sigma1 w11 + w6 + sigma0 w14))) (fun w13 =>
  Round d e f g h a b c (u32 (0xd6990624 + w13)) (fun g c =>
  word (u32 (w14 + (sigma1 w12 + w7 + sigma0 w15))) (fun w14 =>
  Round c d e f g h a b (u32 (0xf40e3585 + w14)) (fun f b =>
  word (u32 (w15 + (sigma1 w13 + w8 + sigma0 w0))) (fun w15 =>
  Round b c d e f g h a (u32 (0x106aa070 + w15)) (fun e a =>
  word (u32 (w0 + (sigma1 w14 + w9 + sigma0 w1))) (fun w0 =>
  Round a b c d e f g h (u32 (0x19a4c116 + w0)) (fun d h =>
  word (u32 (w1 + (sigma1 w15 + w10 + sigma0 w2))) (fun w1 =>
  Round h a b c d e f g (u32 (0x1e376c08 + w1)) (fun c g =>
  word (u32 (w2 + (sigma1 w0 + w11 + sigma0 w3))) (fun w2 =>
  Round g h a b c d e f (u32 (0x2748774c + w2)) (fun b f =>
  word (u32 (w3 + (sigma1 w1 + w12 + sigma0 w4))) (fun w3 =>
  Round f g h a b c d e (u32 (0x34b0bcb5 + w3)) (fun a e =>
  word (u32 (w4 + (sigma1 w2 + w13 + sigma0 w5))) (fun w4 =>
  Round e f g h a b c d (u32 (0x391c0cb3 + w4)) (fun h d =>
  word (u32 (w5 + (sigma1 w3 + w14 + sigma0 w6))) (fun w5 =>
  Round d e f g h a b c (u32 (0x4ed8aa4a + w5)) (fun g c =>
  word (u32 (w6 + (sigma1 w4 + w15 + sigma0 w7))) (fun w6 =>
  Round c d e f g h a b (u32 (0x5b9cca4f + w6)) (fun f b =>
  word (u32 (w7 + (sigma1 w5 + w0 + sigma0 w8))) (fun w7 =>
  Round b c d e f g h a (u32 (0x682e6ff3 + w7)) (fun e a =>
  word (u32 (w8 + (sigma1 w6 + w1 + sigma0 w9))) (fun w8 =>
  Round a b c d e f g h (u32 (0x748f82ee + w8)) (fun d h =>
  word (u32 (w9 + (sigma1 w7 + w2 + sigma0 w10))) (fun w9 =>
  Round h a b c d e f g (u32 (0x78a5636f + w9)) (fun c g =>
  word (u32 (w10 + (sigma1 w8 + w3 + sigma0 w11))) (fun w10 =>
  Round g h a b c d e f (u32 (0x84c87814 + w10)) (fun b f =>
  word (u32 (w11 + (sigma1 w9 + w4 + sigma0 w12))) (fun w11 =>
  Round f g h a b c d e (u32 (0x8cc70208 + w11)) (fun a e =>
  word (u32 (w12 + (sigma1 w10 + w5 + sigma0 w13))) (fun w12 =>
  Round e f g h a b c d (u32 (0x90befffa + w12)) (fun h d =>
  word (u32 (w13 + (sigma1 w11 + w6 + sigma0 w14))) (fun w13 =>
  Round d e f g h a b c (u32 (0xa4506ceb + w13)) (fun g c =>
  Round c d e f g h a b (u32 (0xbef9a3f7 + (w14 + sigma1 w12 + w7 + sigma0 w15))) (fun f b =>
  Round b c d e f g h a (u32 (0xc67178f2 + (w15 + sigma1 w13 + w8 + sigma0 w0))) (fun e a =>
  F a b c d e f g h)))))))))))))))))))))))))))))))))))))))))))))))))))))))))))))))))))))))))))))))))))))))))))))))))))))))))))))))))))))))))))))).

(** "Transform 2": the constants with the padding block already added. *)
Definition D64_second {R : Type} (a b c d e f g h : Z)
    (F : Z -> Z -> Z -> Z -> Z -> Z -> Z -> Z -> R) : R :=
  Round a b c d e f g h 0xc28a2f98 (fun d h =>
  Round h a b c d e f g 0x71374491 (fun c g =>
  Round g h a b c d e f 0xb5c0fbcf (fun b f =>
  Round f g h a b c d e 0xe9b5dba5 (fun a e =>
  Round e f g h a b c d 0x3956c25b (fun h d =>
  Round d e f g h a b c 0x59f111f1 (fun g c =>
  Round c d e f g h a b 0x923f82a4 (fun f b =>
  Round b c d e f g h a 0xab1c5ed5 (fun e a =>
  Round a b c d e f g h 0xd807aa98 (fun d h =>
  Round h a b c d e f g 0x12835b01 (fun c g =>
  Round g h a b c d e f 0x243185be (fun b f =>
  Round f g h a b c d e 0x550c7dc3 (fun a e =>
  Round e f g h a b c d 0x72be5d74 (fun h d =>
  Round d e f g h a b c 0x80deb1fe (fun g c =>
  Round c d e f g h a b 0x9bdc06a7 (fun f b =>
  Round b c d e f g h a 0xc19bf374 (fun e a =>
  Round a b c d e f g h 0x649b69c1 (fun d h =>
  Round h a b c d e f g 0xf0fe4786 (fun c g =>
  Round g h a b c d e f 0x0fe1edc6 (fun b f =>
  Round f g h a b c d e 0x240cf254 (fun a e =>
  Round e f g h a b c d 0x4fe9346f (fun h d =>
  Round d e f g h a b c 0x6cc984be (fun g c =>
  Round c d e f g h a b 0x61b9411e (fun f b =>
  Round b c d e f g h a 0x16f988fa (fun e a =>
  Round a b c d e f g h 0xf2c65152 (fun d h =>
  Round h a b c d e f g 0xa88e5a6d (fun c g =>
  Round g h a b c d e f 0xb019fc65 (fun b f =>
  Round f g h a b c d e 0xb9d99ec7 (fun a e =>
  Round e f g h a b c d 0x9a1231c3 (fun h d =>
  Round d e f g h a b c 0xe70eeaa0 (fun g c =>
  Round c d e f g h a b 0xfdb1232b (fun f b =>
  Round b c d e f g h a 0xc7353eb0 (fun e a =>
  Round a b c d e f g h 0x3069bad5 (fun d h =>
  Round h a b c d e f g 0xcb976d5f (fun c g =>
  Round g h a b c d e f 0x5a0f118f (fun b f =>
  Round f g h a b c d e 0xdc1eeefd (fun a e =>
  Round e f g h a b c d 0x0a35b689 (fun h d =>
  Round d e f g h a b c 0xde0b7a04 (fun g c =>
  Round c d e f g h a b 0x58f4ca9d (fun f b =>
  Round b c d e f g h a 0xe15d5b16 (fun e a =>
  Round a b c d e f g h 0x007f3e86 (fun d h =>
  Round h a b c d e f g 0x37088980 (fun c g =>
  Round g h a b c d e f 0xa507ea32 (fun b f =>
  Round f g h a b c d e 0x6fab9537 (fun a e =>
  Round e f g h a b c d 0x17406110 (fun h d =>
  Round d e f g h a b c 0x0d8cd6f1 (fun g c =>
  Round c d e f g h a b 0xcdaa3b6d (fun f b =>
  Round b c d e f g h a 0xc0bbbe37 (fun e a =>
  Round a b c d e f g h 0x83613bda (fun d h =>
  Round h a b c d e f g 0xdb48a363 (fun c g =>
  Round g h a b c d e f 0x0b02e931 (fun b f =>
  Round f g h a b c d e 0x6fd15ca7 (fun a e =>
  Round e f g h a b c d 0x521afaca (fun h d =>
  Round d e f g h a b c 0x31338431 (fun g c =>
  Round c d e f g h a b 0x6ed41a95 (fun f b =>
  Round b c d e f g h a 0x6d437890 (fun e a =>
  Round a b c d e f g h 0xc39c91f2 (fun d h =>
  Round h a b c d e f g 0x9eccabbd (fun c g =>
  Round g h a b c d e f 0xb5c9a0e6 (fun b f =>
  Round f g h a b c d e 0x532fb63c (fun a e =>
  Round e f g h a b c d 0xd2c741c6 (fun h d =>
  Round d e f g h a b c 0x07237ea3 (fun g c =>
  Round c d e f g h a b 0xa4954b68 (fun f b =>
  Round b c d e f g h a 0x4c191d76 (fun e a =>
  F a b c d e f g h)))))))))))))))))))))))))))))))))))))))))))))))))))))))))))))))).

(** "Transform 3": the last eight words are those of the padding. *)
Definition D64_third {R : Type} (w0 w1 w2 w3 w4 w5 w6 w7 : Z)
    (F : Z -> Z -> Z -> Z -> Z -> Z -> Z -> Z -> R) : R :=
  let a := 0x6a09e667 in let b := 0xbb67ae85 in let c := 0x3c6ef372 in
  let d := 0xa54ff53a in let e := 0x510e527f in let f := 0x9b05688c in
  let g := 0x1f83d9ab in let h := 0x5be0cd19 in
  Round a b c d e f g h (u32 (0x428a2f98 + w0)) (fun d h =>
  Round h a b c d e f g (u32 (0x71374491 + w1)) (fun c g =>
  Round g h a b c d e f (u32 (0xb5c0fbcf + w2)) (fun b f =>
  Round f g h a b c d e (u32 (0xe9b5dba5 + w3)) (fun a e =>
  Round e f g h a b c d (u32 (0x3956c25b + w4)) (fun h d =>
  Round d e f g h a b c (u32 (0x59f111f1 + w5)) (fun g c =>
  Round c d e f g h a b (u32 (0x923f82a4 + w6)) (fun f b =>
  Round b c d e f g h a (u32 (0xab1c5ed5 + w7)) (fun e a =>
  Round a b c d e f g h 0x5807aa98 (fun d h =>
  Round h a b c d e f g 0x12835b01 (fun c g =>
  Round g h a b c d e f 0x243185be (fun b f =>
  Round f g h a b c d e 0x550c7dc3 (fun a e =>
  Round e f g h a b c d 0x72be5d74 (fun h d =>
  Round d e f g h a b c 0x80deb1fe (fun g c =>
  Round c d e f g h a b 0x9bdc06a7 (fun f b =>
  Round b c d e f g h a 0xc19bf274 (fun e a =>
  word (u32 (w0 + (sigma0 w1))) (fun w0 =>
  Round a b c d e f g h (u32 (0xe49b69c1 + w0)) (fun d h =>
  word (u32 (w1 + (0xa00000 + sigma0 w2))) (fun w1 =>
  Round h a b c d e f g (u32 (0xefbe4786 + w1)) (fun c g =>
  word (u32 (w2 + (sigma1 w0 + sigma0 w3))) (fun w2 =>
  Round g h a b c d e f (u32 (0x0fc19dc6 + w2)) (fun b f =>
  word (u32 (w3 + (sigma1 w1 + sigma0 w4))) (fun w3 =>
  Round f g h a b c d e (u32 (0x240ca1cc + w3)) (fun a e =>
  word (u32 (w4 + (sigma1 w2 + sigma0 w5))) (fun w4 =>
  Round e f g h a b c d (u32 (0x2de92c6f + w4)) (fun h d =>
  word (u32 (w5 + (sigma1 w3 + sigma0 w6))) (fun w5 =>
  Round d e f g h a b c (u32 (0x4a7484aa + w5)) (fun g c =>
  word (u32 (w6 + (sigma1 w4 + 0x100 + sigma0 w7))) (fun w6 =>
  Round c d e f g h a b (u32 (0x5cb0a9dc + w6)) (fun f b =>
  word (u32 (w7 + (sigma1 w5 + w0 + 0x11002000))) (fun w7 =>
  Round b c d e f g h a (u32 (0x76f988da + w7)) (fun e a =>
  word (u32 (0x80000000 + sigma1 w6 + w1)) (fun w8 =>
  Round a b c d e f g h (u32 (0x983e5152 + w8)) (fun d h =>
  word (u32 (sigma1 w7 + w2)) (fun w9 =>
  Round h a b c d e f g (u32 (0xa831c66d + w9)) (fun c g =>
  word (u32 (sigma1 w8 + w3)) (fun w10 =>
  Round g h a b c d e f (u32 (0xb00327c8 + w10)) (fun b f =>
  word (u32 (sigma1 w9 + w4)) (fun w11 =>
  Round f g h a b c d e (u32 (0xbf597fc7 + w11)) (fun a e =>
  word (u32 (sigma1 w10 + w5)) (fun w12 =>
  Round e f g h a b c d (u32 (0xc6e00bf3 + w12)) (fun h d =>
  word (u32 (sigma1 w11 + w6)) (fun w13 =>
  Round d e f g h a b c (u32 (0xd5a79147 + w13)) (fun g c =>
  word (u32 (sigma1 w12 + w7 + 0x400022)) (fun w14 =>
  Round c d e f g h a b (u32 (0x06ca6351 + w14)) (fun f b =>
  word (u32 (0x100 + sigma1 w13 + w8 + sigma0 w0)) (fun w15 =>
  Round b c d e f g h a (u32 (0x14292967 + w15)) (fun e a =>
  word (u32 (w0 + (sigma1 w14 + w9 + sigma0 w1))) (fun w0 =>
  Round a b c d e f g h (u32 (0x27b70a85 + w0)) (fun d h =>
  word (u32 (w1 + (sigma1 w15 + w10 + sigma0 w2))) (fun w1 =>
  Round h a b c d e f g (u32 (0x2e1b2138 + w1)) (fun c g =>
  word (u32 (w2 + (sigma1 w0 + w11 + sigma0 w3))) (fun w2 =>
  Round g h a b c d e f (u32 (0x4d2c6dfc + w2)) (fun b f =>
  word (u32 (w3 + (sigma1 w1 + w12 + sigma0 w4))) (fun w3 =>
  Round f g h a b c d e (u32 (0x53380d13 + w3)) (fun a e =>
  word (u32 (w4 + (sigma1 w2 + w13 + sigma0 w5))) (fun w4 =>
  Round e f g h a b c d (u32 (0x650a7354 + w4)) (fun h d =>
  word (u32 (w5 + (sigma1 w3 + w14 + sigma0 w6))) (fun w5 =>
  Round d e f g h a b c (u32 (0x766a0abb + w5)) (fun g c =>
  word (u32 (w6 + (sigma1 w4 + w15 + sigma0 w7))) (fun w6 =>
  Round c d e f g h a b (u32 (0x81c2c92e + w6)) (fun f b =>
  word (u32 (w7 + (sigma1 w5 + w0 + sigma0 w8))) (fun w7 =>
  Round b c d e f g h a (u32 (0x92722c85 + w7)) (fun e a =>
  word (u32 (w8 + (sigma1 w6 + w1 + sigma0 w9))) (fun w8 =>
  Round a b c d e f g h (u32 (0xa2bfe8a1 + w8)) (fun d h =>
  word (u32 (w9 + (sigma1 w7 + w2 + sigma0 w10))) (fun w9 =>
  Round h a b c d e f g (u32 (0xa81a664b + w9)) (fun c g =>
  word (u32 (w10 + (sigma1 w8 + w3 + sigma0 w11))) (fun w10 =>
  Round g h a b c d e f (u32 (0xc24b8b70 + w10)) (fun b f =>
  word (u32 (w11 + (sigma1 w9 + w4 + sigma0 w12))) (fun w11 =>
  Round f g h a b c d e (u32 (0xc76c51a3 + w11)) (fun a e =>
  word (u32 (w12 + (sigma1 w10 + w5 + sigma0 w13))) (fun w12 =>
  Round e f g h a b c d (u32 (0xd192e819 + w12)) (fun h d =>
  word (u32 (w13 + (sigma1 w11 + w6 + sigma0 w14))) (fun w13 =>
  Round d e f g h a b c (u32 (0xd6990624 + w13)) (fun g c =>
  word (u32 (w14 + (sigma1 w12 + w7 + sigma0 w15))) (fun w14 =>
  Round c d e f g h a b (u32 (0xf40e3585 + w14)) (fun f b =>
  word (u32 (w15 + (sigma1 w13 + w8 + sigma0 w0))) (fun w15 =>
  Round b c d e f g h a (u32 (0x106aa070 + w15)) (fun e a =>
  word (u32 (w0 + (sigma1 w14 + w9 + sigma0 w1))) (fun w0 =>
  Round a b c d e f g h (u32 (0x19a4c116 + w0)) (fun d h =>
  word (u32 (w1 + (sigma1 w15 + w10 + sigma0 w2))) (fun w1 =>
  Round h a b c d e f g (u32 (0x1e376c08 + w1)) (fun c g =>
  word (u32 (w2 + (sigma1 w0 + w11 + sigma0 w3))) (fun w2 =>
  Round g h a b c d e f (u32 (0x2748774c + w2)) (fun b f =>
  word (u32 (w3 + (sigma1 w1 + w12 + sigma0 w4))) (fun w3 =>
  Round f g h a b c d e (u32 (0x34b0bcb5 + w3)) (fun a e =>
  word (u32 (w4 + (sigma1 w2 + w13 + sigma0 w5))) (fun w4 =>
  Round e f g h a b c d (u32 (0x391c0cb3 + w4)) (fun h d =>
  word (u32 (w5 + (sigma1 w3 + w14 + sigma0 w6))) (fun w5 =>
  Round d e f g h a b c (u32 (0x4ed8aa4a + w5)) (fun g c =>
  word (u32 (w6 + (sigma1 w4 + w15 + sigma0 w7))) (fun w6 =>
  Round c d e f g h a b (u32 (0x5b9cca4f + w6)) (fun f b =>
  word (u32 (w7 + (sigma1 w5 + w0 + sigma0 w8))) (fun w7 =>
  Round b c d e f g h a (u32 (0x682e6ff3 + w7)) (fun e a =>
  word (u32 (w8 + (sigma1 w6 + w1 + sigma0 w9))) (fun w8 =>
  Round a b c d e f g h (u32 (0x748f82ee + w8)) (fun d h =>
  word (u32 (w9 + (sigma1 w7 + w2 + sigma0 w10))) (fun w9 =>
  Round h a b c d e f g (u32 (0x78a5636f + w9)) (fun c g =>
  word (u32 (w10 + (sigma1 w8 + w3 + sigma0 w11))) (fun w10 =>
  Round g h a b c d e f (u32 (0x84c87814 + w10)) (fun b f =>
  word (u32 (w11 + (sigma1 w9 + w4 + sigma0 w12))) (fun w11 =>
  Round f g h a b c d e (u32 (0x8cc70208 + w11)) (fun a e =>
  word (u32 (w12 + (sigma1 w10 + w5 + sigma0 w13))) (fun w12 =>
  Round e f g h a b c d (u32 (0x90befffa + w12)) (fun h d =>
  word (u32 (w13 + (sigma1 w11 + w6 + sigma0 w14))) (fun w13 =>
  Round d e f g h a b c (u32 (0xa4506ceb + w13)) (fun g c =>
  Round c d e f g h a b (u32 (0xbef9a3f7 + (w14 + sigma1 w12 + w7 + sigma0 w15))) (fun f b =>
  Round b c d e f g h a (u32 (0xc67178f2 + (w15 + sigma1 w13 + w8 + sigma0 w0))) (fun e a =>
  F a b c d e f g h)))))))))))))))))))))))))))))))))))))))))))))))))))))))))))))))))))))))))))))))))))))))))))))))))))))))))))))).

Definition TransformD64 (input : bytes) : bytes :=
  D64_first input (fun a b c d e f g h =>
    let t0 := u32 (a + 0x6a09e667) in let t1 := u32 (b + 0xbb67ae85) in
    let t2 := u32 (c + 0x3c6ef372) in let t3 := u32 (d + 0xa54ff53a) in
    let t4 := u32 (e + 0x510e527f) in let t5 := u32 (f + 0x9b05688c) in
    let t6 := u32 (g + 0x1f83d9ab) in let t7 := u32 (h + 0x5be0cd19) in
    D64_second t0 t1 t2 t3 t4 t5 t6 t7 (fun a b c d e f g h =>
      D64_third (u32 (t0 + a)) (u32 (t1 + b)) (u32 (t2 + c)) (u32 (t3 + d))
                (u32 (t4 + e)) (u32 (t5 + f)) (u32 (t6 + g)) (u32 (t7 + h))
        (fun a b c d e f g h =>
           WriteBE32 (u32 (a + 0x6a09e667)) ++ WriteBE32 (u32 (b + 0xbb67ae85)) ++
           WriteBE32 (u32 (c + 0x3c6ef372)) ++ WriteBE32 (u32 (d + 0xa54ff53a)) ++
           WriteBE32 (u32 (e + 0x510e527f)) ++ WriteBE32 (u32 (f + 0x9b05688c)) ++
           WriteBE32 (u32 (g + 0x1f83d9ab)) ++ WriteBE32 (u32 (h + 0x5be0cd19))))).

(** ** The class [CSHA256] *)

#[export] Instance sha256_compression : Compression state := Transform_block.

(** The constructor; [buf] is left uninitialised by the source. *)
Definition CSHA256 (buf : bytes) : hasher state := mkHasher Initialize buf 0.

Definition Write (h : hasher state) (data : bytes) : hasher state :=
  let '(h1, data1, bufsize) := fill h data in
  let '(h2, data2) :=
    if (64 <=? length data1)%nat then
      let blocks := (length data1 / 64)%nat in
      (mkHasher (Transform (hs h1) data1 blocks) (hbuf h1)
                (u64 (hbytes h1 + 64 * Z.of_nat blocks)),
       drop (64 * blocks) data1)
    else (h1, data1) in
  keep_rest h2 data2 bufsize.

(** [hash[OUTPUT_SIZE]] from the chaining state *)
Definition output (s : state) : bytes :=
  WriteBE32 (s0 s) ++ WriteBE32 (s1 s) ++ WriteBE32 (s2 s) ++ WriteBE32 (s3 s) ++
  WriteBE32 (s4 s) ++ WriteBE32 (s5 s) ++ WriteBE32 (s6 s) ++ WriteBE32 (s7 s).

(** [CSHA256::Finalize]: the object afterwards and the digest *)
Definition Finalize (h : hasher state) : hasher state * bytes :=
  let h' := finish Write WriteBE64 h in (h', output (hs h')).

Definition Reset (h : hasher state) : hasher state := mkHasher Initialize (hbuf h) 0.

(** [TransformD64Wrapper<tr>]: the double hash with a generic [Transform] *)
Definition padding1 : bytes := 0x80 :: repeat 0 61 ++ [2; 0].

Definition buffer2_rest : bytes := 0x80 :: repeat 0 29 ++ [1; 0].

Definition TransformD64Wrapper (tr : state -> bytes -> nat -> state) (input : bytes) : bytes :=
  let s := tr (tr Initialize input 1%nat) padding1 1%nat in
  output (tr Initialize (output s ++ buffer2_rest) 1%nat).

(** [while (blocks >= n) { TransformD64_nway(out, in); ... }], absent when the
    pointer is null; gives the output and the input left over. *)
Fixpoint nway_loop (fuel n : nat) (f : bytes -> bytes) (input : bytes) (blocks : nat)
    : bytes * bytes * nat :=
  match fuel with
  | O => ([], input, blocks)
  | S fuel' =>
    if (n <=? blocks)%nat then
      let '(out, rest, remaining) := nway_loop fuel' n f (drop (64 * n) input) (blocks - n) in
      (f (take (64 * n) input) ++ out, rest, remaining)
    else ([], input, blocks)
  end.

Definition nway (n : nat) (p : option (bytes -> bytes)) (input : bytes) (blocks : nat)
    : bytes * bytes * nat :=
  match p with
  | None => ([], input, blocks)
  | Some f => nway_loop blocks n f input blocks
  end.

Definition SHA256D64 (way8 way4 way2 : option (bytes -> bytes)) (input : bytes) (blocks : nat) : bytes :=
  let '(out8, in8, left8) := nway 8 way8 input blocks in
  let '(out4, in4, left4) := nway 4 way4 in8 left8 in
  let '(out2, in2, left2) := nway 2 way2 in4 left4 in
  let '(out1, _, _) := nway_loop left2 1 TransformD64 in2 left2 in
  out8 ++ out4 ++ out2 ++ out1.

(** ** FIPS 180-4 *)

Module FIPS.

Definition K : list Z := Eval cbv [concat app] in
  concat
  [[0x428a2f98; 0x71374491; 0xb5c0fbcf; 0xe9b5dba5; 0x3956c25b; 0x59f111f1; 0x923f82a4; 0xab1c5ed5];
   [0xd807aa98; 0x12835b01; 0x243185be; 0x550c7dc3; 0x72be5d74; 0x80deb1fe; 0x9bdc06a7; 0xc19bf174];
   [0xe49b69c1; 0xefbe4786; 0x0fc19dc6; 0x240ca1cc; 0x2de92c6f; 0x4a7484aa; 0x5cb0a9dc; 0x76f988da];
   [0x983e5152; 0xa831c66d; 0xb00327c8; 0xbf597fc7; 0xc6e00bf3; 0xd5a79147; 0x06ca6351; 0x14292967];
   [0x27b70a85; 0x2e1b2138; 0x4d2c6dfc; 0x53380d13; 0x650a7354; 0x766a0abb; 0x81c2c92e; 0x92722c85];
   [0xa2bfe8a1; 0xa81a664b; 0xc24b8b70; 0xc76c51a3; 0xd192e819; 0xd6990624; 0xf40e3585; 0x106aa070];
   [0x19a4c116; 0x1e376c08; 0x2748774c; 0x34b0bcb5; 0x391c0cb3; 0x4ed8aa4a; 0x5b9cca4f; 0x682e6ff3];
   [0x748f82ee; 0x78a5636f; 0x84c87814; 0x8cc70208; 0x90befffa; 0xa4506ceb; 0xbef9a3f7; 0xc67178f2]].

Definition Ch (x y z : Z) : Z := Z.lxor (Z.land x y) (Z.land (Z.lnot x) z).
Definition Maj (x y z : Z) : Z := Z.lxor (Z.lxor (Z.land x y) (Z.land x z)) (Z.land y z).

(** The word after a window of sixteen:
    W_t = sigma1 (W_(t-2)) + W_(t-7) + sigma0 (W_(t-15)) + W_(t-16) *)
Definition next_word (win : list Z) : Z :=
  u32 (sigma1 (nth 14 win 0) + nth 9 win 0 + sigma0 (nth 1 win 0) + nth 0 win 0).

Fixpoint schedule (n : nat) (win : list Z) : list Z :=
  match n with
  | O => []
  | S n' => let w := next_word win in w :: schedule n' (tail win ++ [w])
  end.

(** The sixteen words of a block *)
Definition block_words (chunk : bytes) : list Z :=
  map (fun i => ReadBE32 chunk (4 * i)) (seq 0 16).

Definition message_schedule (win : list Z) : list Z := win ++ schedule 48 win.

Definition round (st : state) (kw : Z * Z) : state :=
  let '(mkState a b c d e f g h) := st in
  let T1 := u32 (h + Sigma1 e + Ch e f g + kw.1 + kw.2) in
  let T2 := u32 (Sigma0 a + Maj a b c) in
  mkState (u32 (T1 + T2)) a b c (u32 (d + T1)) e f g.

Definition rounds (kws : list (Z * Z)) (st : state) : state := fold_left round kws st.

Definition add_state (s t : state) : state :=
  mkState (u32 (s0 s + s0 t)) (u32 (s1 s + s1 t)) (u32 (s2 s + s2 t)) (u32 (s3 s + s3 t))
          (u32 (s4 s + s4 t)) (u32 (s5 s + s5 t)) (u32 (s6 s + s6 t)) (u32 (s7 s + s7 t)).

(** The compression function on the words of a block *)
Definition compression (s : state) (win : list Z) : state :=
  add_state s (rounds (combine K (message_schedule win)) s).

Fixpoint blocks (n : nat) (s : state) (m : bytes) : state :=
  match n with
  | O => s
  | S n' => blocks n' (compression s (block_words m)) (drop 64 m)
  end.

(** SHA-256 of a message of whole bytes *)
Definition SHA256 (m : bytes) : bytes :=
  let p := padded WriteBE64 m in output (blocks (length p / 64) Initialize p).

End FIPS.

(** ** The unrolled code against the reference *)

Lemma Ch_FIPS x y z : Ch x y z = FIPS.Ch x y z.
Proof.
  apply Z.bits_inj'; intros n Hn. unfold Ch, FIPS.Ch.
  rewrite !Z.lxor_spec, !Z.land_spec, Z.lxor_spec, Z.lnot_spec by done.
  by destruct (Z.testbit x n), (Z.testbit y n), (Z.testbit z n).
Qed.

Lemma Maj_FIPS x y z : Maj x y z = FIPS.Maj x y z.
Proof.
  apply Z.bits_inj'; intros n Hn. unfold Maj, FIPS.Maj.
  rewrite !Z.lxor_spec, !Z.lor_spec, !Z.land_spec, Z.lor_spec.
  by destruct (Z.testbit x n), (Z.testbit y n), (Z.testbit z n).
Qed.

Lemma u32_add_r a b : u32 (a + u32 b) = u32 (a + b).
Proof. apply Zplus_mod_idemp_r. Qed.

Section unroll.
Context {R : Type} (F : state -> R).

Lemma word_eq x y (k1 k2 : Z -> R) :
  x = y -> (forall w, k1 w = k2 w) -> word x k1 = word y k2.
Proof. intros -> E. apply E. Qed.

Lemma Round_eq a b c d e f g h x y (k1 k2 : Z -> Z -> R) :
  x = y -> (forall d' h', k1 d' h' = k2 d' h') ->
  Round a b c d e f g h x k1 = Round a b c d e f g h y k2.
Proof. intros -> E. apply E. Qed.

(** One reference round is one [Round] of the source with the variables
    rotated by name. *)
Lemma rounds_cons k w l a b c d e f g h :
  F (FIPS.rounds ((k, w) :: l) (mkState a b c d e f g h)) =
  Round a b c d e f g h (u32 (k + w)) (fun d h => F (FIPS.rounds l (mkState h a b c d e f g))).
Proof.
  unfold FIPS.rounds, Round. cbn [fold_left FIPS.round fst snd].
  rewrite <- Ch_FIPS, <- Maj_FIPS, (u32_add_r _ (k + w)), (Z.add_assoc _ k w). done.
Qed.

Lemma words_cons k ks w ws a b c d e f g h :
  F (FIPS.rounds (combine (k :: ks) (w :: ws)) (mkState a b c d e f g h)) =
  Round a b c d e f g h (u32 (k + w))
    (fun d h => F (FIPS.rounds (combine ks ws) (mkState h a b c d e f g))).
Proof. apply rounds_cons. Qed.

(** One step of the message schedule is one assignment to a [w]. *)
Lemma schedule_cons k l n w0 w1 w2 w3 w4 w5 w6 w7 w8 w9 w10 w11 w12 w13 w14 w15 st :
  F (FIPS.rounds (combine (k :: l)
       (FIPS.schedule (S n) [w0;w1;w2;w3;w4;w5;w6;w7;w8;w9;w10;w11;w12;w13;w14;w15])) st) =
  word (u32 (w0 + (sigma1 w14 + w9 + sigma0 w1))) (fun w =>
    F (FIPS.rounds ((k, w) :: combine l
       (FIPS.schedule n [w1;w2;w3;w4;w5;w6;w7;w8;w9;w10;w11;w12;w13;w14;w15;w])) st)).
Proof.
  unfold word. cbn [FIPS.schedule combine tail app]. unfold FIPS.next_word. cbn [nth].
  by rewrite (Z.add_comm _ w0).
Qed.

End unroll.

(** Constants of the specialised code are evaluated, sums compared. *)
Ltac fold_sigmas :=
  repeat match goal with
  | |- context [sigma0 ?c] =>
    match c with Z0 => idtac | Zpos _ => idtac end;
    let v := eval vm_compute in (sigma0 c) in change (sigma0 c) with v
  | |- context [sigma1 ?c] =>
    match c with Z0 => idtac | Zpos _ => idtac end;
    let v := eval vm_compute in (sigma1 c) in change (sigma1 c) with v
  end.

Ltac same_word :=
  first [ reflexivity
        | rewrite u32_add_r; same_word
        | fold_sigmas; f_equal; lia ].

Ltac unroll_step :=
  first
    [ rewrite rounds_cons; apply Round_eq; [same_word | intros ? ?]
    | rewrite schedule_cons; apply word_eq; [same_word | intros ?]
    | rewrite schedule_cons; unfold word; rewrite rounds_cons; apply Round_eq; [same_word | intros ? ?] ].

Lemma Transform_rounds_spec {R} (F : state -> R) a b c d e f g h chunk :
  Transform_rounds a b c d e f g h chunk (fun a b c d e f g h => F (mkState a b c d e f g h)) =
  F (FIPS.rounds (combine FIPS.K (FIPS.message_schedule (FIPS.block_words chunk)))
                 (mkState a b c d e f g h)).
Proof.
  unfold Transform_rounds, FIPS.message_schedule, FIPS.K.
  change (FIPS.block_words chunk) with
    [ReadBE32 chunk 0; ReadBE32 chunk 4; ReadBE32 chunk 8; ReadBE32 chunk 12;
     ReadBE32 chunk 16; ReadBE32 chunk 20; ReadBE32 chunk 24; ReadBE32 chunk 28;
     ReadBE32 chunk 32; ReadBE32 chunk 36; ReadBE32 chunk 40; ReadBE32 chunk 44;
     ReadBE32 chunk 48; ReadBE32 chunk 52; ReadBE32 chunk 56; ReadBE32 chunk 60].
  cbn [app].
  do 16 (unfold word at 1; rewrite words_cons; apply Round_eq; [reflexivity | intros ? ?]).
  repeat unroll_step. reflexivity.
Qed.

(** The specialised transforms are the general one on the words they fix. *)
Lemma D64_first_spec {R} (F : state -> R) input :
  D64_first input (fun a b c d e f g h => F (mkState a b c d e f g h)) =
  F (FIPS.rounds (combine FIPS.K (FIPS.message_schedule (FIPS.block_words input))) Initialize).
Proof.
  unfold Initialize. rewrite <- (Transform_rounds_spec F). unfold D64_first, Transform_rounds. reflexivity.
Qed.

Definition padding_words : list Z := 0x80000000 :: repeat 0 14 ++ [0x200].

Lemma D64_second_spec {R} (F : state -> R) a b c d e f g h :
  D64_second a b c d e f g h (fun a b c d e f g h => F (mkState a b c d e f g h)) =
  F (FIPS.rounds (combine FIPS.K (FIPS.message_schedule padding_words)) (mkState a b c d e f g h)).
Proof.
  unfold D64_second.
  set (kws := combine FIPS.K (FIPS.message_schedule padding_words)).
  vm_compute in kws. subst kws.
  repeat unroll_step. reflexivity.
Qed.

Lemma D64_third_spec {R} (F : state -> R) w0 w1 w2 w3 w4 w5 w6 w7 :
  D64_third w0 w1 w2 w3 w4 w5 w6 w7 (fun a b c d e f g h => F (mkState a b c d e f g h)) =
  F (FIPS.rounds (combine FIPS.K (FIPS.message_schedule
       [w0; w1; w2; w3; w4; w5; w6; w7; 0x80000000; 0; 0; 0; 0; 0; 0; 0x100])) Initialize).
Proof.
  unfold D64_third, FIPS.message_schedule, FIPS.K, Initialize. cbv zeta. cbn [app].
  do 16 (rewrite words_cons; apply Round_eq; [reflexivity | intros ? ?]).
  repeat unroll_step. reflexivity.
Qed.

Lemma Transform_block_spec s chunk :
  Transform_block s chunk = FIPS.compression s (FIPS.block_words chunk).
Proof.
  destruct s as [a b c d e f g h]. unfold Transform_block, FIPS.compression. cbn [s0 s1 s2 s3 s4 s5 s6 s7].
  apply (Transform_rounds_spec (FIPS.add_state (mkState a b c d e f g h))).
Qed.

#[local] Opaque Transform_block FIPS.rounds D64_first D64_second D64_third.

Lemma block_words_local x y : take 64 x = take 64 y -> FIPS.block_words x = FIPS.block_words y.
Proof.
  intros E. apply map_ext_in. intros i [_ Hi]%in_seq. apply ReadBE32_local with 64%nat; [done|lia].
Qed.

#[export] Instance sha256_compression_laws : CompressionLaws state.
Proof.
  intros s x y E. unfold compress, sha256_compression.
  by rewrite !Transform_block_spec, (block_words_local x y E).
Qed.

Lemma Transform_absorb n s m : Transform s m n = absorb n s m.
Proof. revert s m; induction n as [|n IH]; intros s m; [done|]. apply IH. Qed.

Lemma absorb_FIPS n s m : absorb n s m = FIPS.blocks n s m.
Proof.
  revert s m; induction n as [|n IH]; intros s m; [done|]. cbn [absorb FIPS.blocks].
  rewrite IH. f_equal. apply Transform_block_spec.
Qed.

(** [Transform] on [n] blocks leaves the object where the block-by-block
    loop of the other hash functions leaves it. *)
Lemma Transform_full_chunks h data fuel :
  (length data <= fuel)%nat -> (64 <= length data)%nat ->
  let n := (length data / 64)%nat in
  full_chunks fuel h data =
  (mkHasher (Transform (hs h) data n) (hbuf h) (u64 (hbytes h + 64 * Z.of_nat n)), drop (64 * n) data).
Proof.
  revert h data; induction fuel as [|fuel IH]; intros h data Hf Hd n; [lia|].
  assert (Hn : n = S (length (drop 64 data) / 64)%nat).
  { unfold n. rewrite length_drop. replace (length data) with (length data - 64 + 1 * 64)%nat at 1 by lia.
    rewrite Nat.div_add by lia. lia. }
  cbn [full_chunks]. destruct (Nat.leb_spec 64 (length data)); [|lia].
  rewrite Hn. cbn [Transform]. unfold compress, sha256_compression.
  destruct (Nat.le_gt_cases 64 (length (drop 64 data))) as [Hle|Hlt].
  - rewrite IH by (rewrite ?length_drop in *; lia). cbn [hs hbuf hbytes]. rewrite drop_drop. f_equal; [|f_equal; lia].
    f_equal. unfold wrap. rewrite Zplus_mod_idemp_l. f_equal. lia.
  - rewrite full_chunks_short by done. rewrite Nat.div_small by done. done.
Qed.

Lemma Write_spec h data : Write h data = HashBuffer.Write h data.
Proof.
  unfold Write, HashBuffer.Write. destruct (fill h data) as [[h1 data1] bufsize].
  destruct (Nat.leb_spec 64 (length data1)).
  - by rewrite Transform_full_chunks.
  - by rewrite full_chunks_short.
Qed.

Lemma Write_takes_in iv h m data : holds iv h m -> holds iv (Write h data) (m ++ data).
Proof. rewrite Write_spec. apply Write_holds. Qed.

Lemma Finalize_spec h m :
  holds Initialize h m -> 8 * Z.of_nat (length m) < 2 ^ 64 -> (Finalize h).2 = FIPS.SHA256 m.
Proof.
  intros Hh Hlen. unfold Finalize, FIPS.SHA256. cbn [snd].
  rewrite (finish_holds Initialize Write WriteBE64 h m); [| apply Write_takes_in | done | done | done].
  unfold hash_of. by rewrite absorb_FIPS.
Qed.

Lemma writes_hold chunks h m :
  holds Initialize h m -> holds Initialize (fold_left Write chunks h) (m ++ concat chunks).
Proof.
  revert h m; induction chunks as [|d chunks IH]; intros h m Hh; cbn [fold_left concat].
  - by rewrite app_nil_r.
  - rewrite app_assoc. by apply IH, Write_takes_in.
Qed.

(** ** Hashing twice *)

Lemma ReadBE32_Write x l : in_u 32 x -> ReadBE32 (WriteBE32 x ++ l) 0 = x.
Proof.
  intros Hx. unfold ReadBE32, WriteBE32. cbn [app nth Nat.add].
  rewrite <- !(land_ones_wrap 8) by lia. apply Z.bits_inj'; intros n Hn.
  rewrite !Z.lor_spec, !Z.shiftl_spec by done.
  assert (Hhi : 32 <= n -> Z.testbit x n = false) by (intros; by apply (in_u_testbit 32)).
  assert (B : forall k, 0 <= k -> Z.testbit (Z.land (Z.shiftr x k) (Z.ones 8)) (n - k)
                         = Z.testbit x n && (k <=? n) && (n <? k + 8)).
  { intros k Hk. rewrite Z.land_spec. destruct (Z.leb_spec k n) as [L|L].
    - rewrite Z.shiftr_spec, Z.testbit_ones_nonneg by lia. replace (n - k + k) with n by lia.
      destruct (Z.ltb_spec (n - k) 8), (Z.ltb_spec n (k + 8)); try lia; by rewrite ?andb_true_r.
    - rewrite (Z.testbit_neg_r _ (n - k)) by lia. by rewrite andb_false_r. }
  rewrite !B by lia.
  assert (B0 : Z.testbit (Z.land x (Z.ones 8)) n = Z.testbit x n && (n <? 8)).
  { rewrite Z.land_spec, Z.testbit_ones_nonneg by lia. done. }
  rewrite B0. destruct (Z.testbit x n) eqn:Ex; [|done].
  assert (n < 32) by (destruct (Z.lt_ge_cases n 32) as [|L]; [done | specialize (Hhi L); congruence]).
  cbn [andb]. destruct (Z.leb_spec 24 n), (Z.ltb_spec n (24 + 8)), (Z.leb_spec 16 n), (Z.ltb_spec n (16 + 8)),
    (Z.leb_spec 8 n), (Z.ltb_spec n (8 + 8)), (Z.ltb_spec n 8); try done; lia.
Qed.

Lemma ReadBE32_drop p off : ReadBE32 p off = ReadBE32 (drop off p) 0.
Proof. unfold ReadBE32. cbn [Nat.add]. by rewrite !nth_lookup, !lookup_drop, Nat.add_0_r. Qed.

Definition words_ok (s : state) : Prop :=
  in_u 32 (s0 s) /\ in_u 32 (s1 s) /\ in_u 32 (s2 s) /\ in_u 32 (s3 s) /\
  in_u 32 (s4 s) /\ in_u 32 (s5 s) /\ in_u 32 (s6 s) /\ in_u 32 (s7 s).

Lemma compression_words_ok s w : words_ok (FIPS.compression s w).
Proof. unfold words_ok, FIPS.compression, FIPS.add_state. cbn. split_and!; by apply wrap_range. Qed.

(** Reading a digest back as the first half of a block *)
Lemma block_words_output s :
  words_ok s ->
  FIPS.block_words (output s ++ buffer2_rest) =
  [s0 s; s1 s; s2 s; s3 s; s4 s; s5 s; s6 s; s7 s; 0x80000000; 0; 0; 0; 0; 0; 0; 0x100].
Proof.
  intros (?&?&?&?&?&?&?&?). unfold FIPS.block_words. cbn [seq map].
  do 8 (apply (f_equal2 cons);
        [rewrite ReadBE32_drop; apply (ReadBE32_Write _ _); assumption|]).
  reflexivity.
Qed.

Lemma length_output s : length (output s) = 32%nat.
Proof. done. Qed.

Lemma SHA256_64 m :
  length m = 64%nat ->
  FIPS.SHA256 m =
  output (FIPS.compression (FIPS.compression Initialize (FIPS.block_words m)) padding_words).
Proof.
  intros L. unfold FIPS.SHA256.
  assert (E : padded WriteBE64 m = m ++ padding1) by (unfold padded; by rewrite L).
  rewrite E. rewrite length_app, L. change (length padding1) with 64%nat.
  change ((64 + 64) / 64)%nat with 2%nat. cbn [FIPS.blocks]. f_equal. f_equal; [f_equal|].
  - apply block_words_local. by rewrite take_app_le, (take_ge m) by lia.
  - rewrite drop_app_length' by done. reflexivity.
Qed.

Lemma SHA256_32 s :
  words_ok s ->
  FIPS.SHA256 (output s) =
  output (FIPS.compression Initialize
    [s0 s; s1 s; s2 s; s3 s; s4 s; s5 s; s6 s; s7 s; 0x80000000; 0; 0; 0; 0; 0; 0; 0x100]).
Proof.
  intros Hs. unfold FIPS.SHA256.
  assert (E : padded WriteBE64 (output s) = output s ++ buffer2_rest) by reflexivity.
  rewrite E, <- (block_words_output s Hs), length_app, length_output. reflexivity.
Qed.

Lemma add_state_comm s t : FIPS.add_state s t = FIPS.add_state t s.
Proof. unfold FIPS.add_state. f_equal; f_equal; lia. Qed.

(** The three parts of [TransformD64], on states. *)
Definition D64_finish (t s : state) : bytes :=
  let x := FIPS.add_state t s in
  D64_third (s0 x) (s1 x) (s2 x) (s3 x) (s4 x) (s5 x) (s6 x) (s7 x)
    (fun a b c d e f g h => output (FIPS.add_state (mkState a b c d e f g h) Initialize)).

Definition D64_middle (s : state) : bytes :=
  let t := FIPS.add_state s Initialize in
  D64_second (s0 t) (s1 t) (s2 t) (s3 t) (s4 t) (s5 t) (s6 t) (s7 t)
    (fun a b c d e f g h => D64_finish t (mkState a b c d e f g h)).

Lemma D64_finish_spec t s :
  D64_finish t s =
  output (FIPS.compression Initialize (let x := FIPS.add_state t s in
    [s0 x; s1 x; s2 x; s3 x; s4 x; s5 x; s6 x; s7 x; 0x80000000; 0; 0; 0; 0; 0; 0; 0x100])).
Proof.
  unfold D64_finish, FIPS.compression. cbv zeta. rewrite (add_state_comm Initialize).
  apply (D64_third_spec (fun s => output (FIPS.add_state s Initialize))).
Qed.

Lemma state_eta s : mkState (s0 s) (s1 s) (s2 s) (s3 s) (s4 s) (s5 s) (s6 s) (s7 s) = s.
Proof. by destruct s. Qed.

Lemma TransformD64_spec input :
  length input = 64%nat -> TransformD64 input = FIPS.SHA256 (FIPS.SHA256 input).
Proof.
  intros L. rewrite (SHA256_64 input L), SHA256_32 by apply compression_words_ok.
  transitivity (D64_first input (fun a b c d e f g h => D64_middle (mkState a b c d e f g h)));
    [unfold TransformD64; reflexivity|].
  rewrite (D64_first_spec D64_middle). unfold D64_middle.
  rewrite (add_state_comm _ Initialize).
  change (FIPS.add_state Initialize _) with (FIPS.compression Initialize (FIPS.block_words input)).
  set (t := FIPS.compression Initialize (FIPS.block_words input)).
  rewrite (D64_second_spec (D64_finish t)), D64_finish_spec, state_eta. reflexivity.
Qed.

Lemma TransformD64Wrapper_spec input :
  length input = 64%nat -> TransformD64Wrapper Transform input = FIPS.SHA256 (FIPS.SHA256 input).
Proof.
  intros L. rewrite (SHA256_64 input L), SHA256_32 by apply compression_words_ok.
  unfold TransformD64Wrapper. cbn [Transform]. rewrite !Transform_block_spec.
  change (FIPS.block_words padding1) with padding_words.
  by rewrite block_words_output by apply compression_words_ok.
Qed.

(** ** Several blocks *)

(** What an n-way routine computes: one digest per 64 bytes. *)
Fixpoint double_hashes (n : nat) (input : bytes) : bytes :=
  match n with
  | O => []
  | S n' => FIPS.SHA256 (FIPS.SHA256 (take 64 input)) ++ double_hashes n' (drop 64 input)
  end.

Definition nway_ok (n : nat) (p : option (bytes -> bytes)) : Prop :=
  forall f input, p = Some f -> length input = (64 * n)%nat -> f input = double_hashes n input.

Lemma nway_double_hashes n : nway_ok n (Some (double_hashes n)).
Proof. by intros f input [= <-]. Qed.

Lemma double_hashes_add a b input :
  double_hashes (a + b) input = double_hashes a input ++ double_hashes b (drop (64 * a) input).
Proof.
  revert input; induction a as [|a IH]; intros input; [done|]. cbn [double_hashes Nat.add].
  rewrite IH, <- app_assoc, drop_drop. repeat f_equal; lia.
Qed.

Lemma double_hashes_take n input : double_hashes n (take (64 * n) input) = double_hashes n input.
Proof.
  revert input; induction n as [|n IH]; intros input; [done|]. cbn [double_hashes].
  rewrite take_take, Nat.min_l by lia. f_equal. rewrite <- (IH (drop 64 input)). f_equal.
  rewrite skipn_firstn_comm. f_equal. lia.
Qed.

Lemma nway_loop_spec n f fuel input blocks :
  (forall x, length x = (64 * n)%nat -> f x = double_hashes n x) ->
  (0 < n)%nat -> (blocks <= fuel)%nat -> length input = (64 * blocks)%nat ->
  exists k rest, nway_loop fuel n f input blocks = (double_hashes k input, rest, (blocks - k)%nat) /\
    rest = drop (64 * k) input /\ (k <= blocks)%nat /\ (blocks - k < n)%nat.
Proof.
  intros Hf Hn. revert input blocks; induction fuel as [|fuel IH]; intros input blocks Hb L; cbn [nway_loop].
  { exists 0%nat, input. rewrite Nat.sub_0_r. split_and!; try done; lia. }
  destruct (Nat.leb_spec n blocks).
  - destruct (IH (drop (64 * n) input) (blocks - n)%nat) as (k & rest & -> & -> & ? & ?);
      [lia | rewrite length_drop; lia |].
    exists (n + k)%nat, (drop (64 * (n + k)) input).
    rewrite Hf by (rewrite length_take; lia).
    rewrite double_hashes_take, <- double_hashes_add, drop_drop.
    replace (64 * n + 64 * k)%nat with (64 * (n + k))%nat by lia.
    replace (blocks - n - k)%nat with (blocks - (n + k))%nat by lia. split_and!; done || lia.
  - exists 0%nat, input. rewrite Nat.sub_0_r. split_and!; try done; lia.
Qed.

Lemma nway_spec n p input blocks :
  nway_ok n p -> (0 < n)%nat -> length input = (64 * blocks)%nat ->
  exists k, nway n p input blocks = (double_hashes k input, drop (64 * k) input, (blocks - k)%nat) /\
    (k <= blocks)%nat.
Proof.
  intros Hp Hn L. unfold nway. destruct p as [f|].
  - destruct (nway_loop_spec n f blocks input blocks) as (k & rest & -> & -> & ? & ?);
      [intros; by apply Hp | done | done | done |]. by exists k.
  - exists 0%nat. rewrite Nat.sub_0_r. split; [done|lia].
Qed.

Lemma SHA256D64_spec way8 way4 way2 input blocks :
  nway_ok 8 way8 -> nway_ok 4 way4 -> nway_ok 2 way2 ->
  length input = (64 * blocks)%nat ->
  SHA256D64 way8 way4 way2 input blocks = double_hashes blocks input.
Proof.
  intros H8 H4 H2 L. unfold SHA256D64.
  destruct (nway_spec 8 way8 input blocks H8) as (k8 & -> & ?); [lia | done |].
  destruct (nway_spec 4 way4 (drop (64 * k8) input) (blocks - k8) H4) as (k4 & -> & ?);
    [lia | rewrite length_drop; lia |].
  destruct (nway_spec 2 way2 (drop (64 * k4) (drop (64 * k8) input)) (blocks - k8 - k4) H2) as (k2 & -> & ?);
    [lia | rewrite !length_drop; lia |].
  set (rest := drop (64 * k2) (drop (64 * k4) (drop (64 * k8) input))).
  destruct (nway_loop_spec 1 TransformD64 (blocks - k8 - k4 - k2) rest (blocks - k8 - k4 - k2))
    as (k1 & r1 & -> & _ & ? & ?); [| lia | lia | unfold rest; rewrite !length_drop; lia |].
  { intros x Lx. cbn [double_hashes]. rewrite app_nil_r, take_ge by lia. by apply TransformD64_spec. }
  transitivity (double_hashes (k8 + (k4 + (k2 + k1))) input); [|f_equal; lia].
  by rewrite !double_hashes_add.
Qed.

(** ** Theorems *)

(** C25: however a message is split over calls of [CSHA256::Write], [Finalize]
    gives the SHA-256 digest of FIPS 180-4 of the whole message: the unrolled
    [Transform], the buffering and the padding implement the standard. *)
Theorem CSHA256_implements_FIPS buf chunks :
  length buf = 64%nat -> 8 * Z.of_nat (length (concat chunks)) < 2 ^ 64 ->
  (Finalize (fold_left Write chunks (CSHA256 buf))).2 = FIPS.SHA256 (concat chunks).
Proof.
  intros Hb Hlen. apply Finalize_spec; [|done].
  by apply (writes_hold chunks (CSHA256 buf) []), holds_init.
Qed.

Lemma CSHA256_implements_FIPS_witness :
  (Finalize (fold_left Write [[97]; [98; 99]] (CSHA256 (repeat 0 64)))).2 = FIPS.SHA256 [97; 98; 99].
Proof. apply (CSHA256_implements_FIPS (repeat 0 64) [[97]; [98; 99]]); [reflexivity | reflexivity]. Defined.

(** [SHA256D64] computes the double SHA-256 of every 64-byte block of its
    input, with the specialised single-block code and with any combination of
    the optional 8-, 4- and 2-way routines that do so. *)
Theorem SHA256D64_hashes_every_block way8 way4 way2 input blocks :
  nway_ok 8 way8 -> nway_ok 4 way4 -> nway_ok 2 way2 ->
  length input = (64 * blocks)%nat ->
  SHA256D64 way8 way4 way2 input blocks = double_hashes blocks input.
Proof. apply SHA256D64_spec. Qed.

Lemma SHA256D64_hashes_every_block_witness :
  SHA256D64 None None (Some (double_hashes 2)) (repeat 7 192) 3 = double_hashes 3 (repeat 7 192).
Proof.
  apply (SHA256D64_hashes_every_block None None (Some (double_hashes 2)) (repeat 7 192) 3);
    [intros f x; discriminate | intros f x; discriminate | apply nway_double_hashes | reflexivity].
Defined.

(** The standard's test vector. *)
Example SHA256_abc :
  FIPS.SHA256 [97; 98; 99] =
  [0xba; 0x78; 0x16; 0xbf; 0x8f; 0x01; 0xcf; 0xea; 0x41; 0x41; 0x40; 0xde; 0x5d; 0xae; 0x22; 0x23;
   0xb0; 0x03; 0x61; 0xa3; 0x96; 0x17; 0x7a; 0x9c; 0xb4; 0x10; 0xff; 0x61; 0xf2; 0x00; 0x15; 0xad].
Proof. vm_compute. reflexivity. Qed.
