(* ===== verification/Sha1.v ===== *)
(** * Sha1: SHA-1 (src/src/crypto/sha1.{h,cpp})

    [Transform] is translated line by line, with [Round] and [word] taking
    the continuation that receives what they write, as in Sha256; the
    reference is FIPS 180-4. *)

From Stdlib Require Import ZArith List Lia Bool.
From stdpp Require Import base decidable list.
From S2P Require Import Prelude Primitives HashBuffer.
Local Open Scope Z_scope.

(** ** The functions and one round *)

(** [((x << n) | (x >> (32 - n)))] on 32 bits *)
Definition rotl (n x : Z) : Z := Z.lor (u32 (Z.shiftl x n)) (Z.shiftr x (32 - n)).

Definition f1 (b c d : Z) : Z := Z.lxor d (Z.land b (Z.lxor c d)).
Definition f2 (b c d : Z) : Z := Z.lxor (Z.lxor b c) d.
Definition f3 (b c d : Z) : Z := Z.lor (Z.land b c) (Z.land d (Z.lor b c)).

Definition left (x : Z) : Z := rotl 1 x.

Definition k1 : Z := 0x5A827999.
Definition k2 : Z := 0x6ED9EBA1.
Definition k3 : Z := 0x8F1BBCDC.
Definition k4 : Z := 0xCA62C1D6.

(** [Round(a, b&, c, d, e&, f, k, w)]; [ret] receives the new [b] and [e]. *)
Definition Round {R : Type} (a b c d e f k w : Z) (ret : Z -> Z -> R) : R :=
  ret (rotl 30 b) (u32 (e + (rotl 5 a + f + k + w))).

(** [w = x]; [ret] receives the new [w]. *)
Definition word {R : Type} (x : Z) (ret : Z -> R) : R := ret x.

(** [uint32_t s[5]] *)
Record state := mkState { s0 : Z; s1 : Z; s2 : Z; s3 : Z; s4 : Z }.

Definition Initialize : state :=
  mkState 0x67452301 0xEFCDAB89 0x98BADCFE 0x10325476 0xC3D2E1F0.

(** The rounds of [Transform]. *)
Definition Transform_rounds {R : Type} (a b c d e : Z) (chunk : bytes)
    (F : Z -> Z -> Z -> Z -> Z -> R) : R :=
  word (ReadBE32 chunk 0) (fun w0 =>
  Round a b c d e (f1 b c d) k1 w0 (fun b e =>
  word (ReadBE32 chunk 4) (fun w1 =>
  Round e a b c d (f1 a b c) k1 w1 (fun a d =>
  word (ReadBE32 chunk 8) (fun w2 =>
  Round d e a b c (f1 e a b) k1 w2 (fun e c =>
  word (ReadBE32 chunk 12) (fun w3 =>
  Round c d e a b (f1 d e a) k1 w3 (fun d b =>
  word (ReadBE32 chunk 16) (fun w4 =>
  Round b c d e a (f1 c d e) k1 w4 (fun c a =>
  word (ReadBE32 chunk 20) (fun w5 =>
  Round a b c d e (f1 b c d) k1 w5 (fun b e =>
  word (ReadBE32 chunk 24) (fun w6 =>
  Round e a b c d (f1 a b c) k1 w6 (fun a d =>
  word (ReadBE32 chunk 28) (fun w7 =>
  Round d e a b c (f1 e a b) k1 w7 (fun e c =>
  word (ReadBE32 chunk 32) (fun w8 =>
  Round c d e a b (f1 d e a) k1 w8 (fun d b =>
  word (ReadBE32 chunk 36) (fun w9 =>
  Round b c d e a (f1 c d e) k1 w9 (fun c a =>
  word (ReadBE32 chunk 40) (fun w10 =>
  Round a b c d e (f1 b c d) k1 w10 (fun b e =>
  word (ReadBE32 chunk 44) (fun w11 =>
  Round e a b c d (f1 a b c) k1 w11 (fun a d =>
  word (ReadBE32 chunk 48) (fun w12 =>
  Round d e a b c (f1 e a b) k1 w12 (fun e c =>
  word (ReadBE32 chunk 52) (fun w13 =>
  Round c d e a b (f1 d e a) k1 w13 (fun d b =>
  word (ReadBE32 chunk 56) (fun w14 =>
  Round b c d e a (f1 c d e) k1 w14 (fun c a =>
  word (ReadBE32 chunk 60) (fun w15 =>
  Round a b c d e (f1 b c d) k1 w15 (fun b e =>
  word (left (Z.lxor (Z.lxor (Z.lxor w0 w13) w8) w2)) (fun w0 =>
  Round e a b c d (f1 a b c) k1 w0 (fun a d =>
  word (left (Z.lxor (Z.lxor (Z.lxor w1 w14) w9) w3)) (fun w1 =>
  Round d e a b c (f1 e a b) k1 w1 (fun e c =>
  word (left (Z.lxor (Z.lxor (Z.lxor w2 w15) w10) w4)) (fun w2 =>
  Round c d e a b (f1 d e a) k1 w2 (fun d b =>
  word (left (Z.lxor (Z.lxor (Z.lxor w3 w0) w11) w5)) (fun w3 =>
  Round b c d e a (f1 c d e) k1 w3 (fun c a =>
  word (left (Z.lxor (Z.lxor (Z.lxor w4 w1) w12) w6)) (fun w4 =>
  Round a b c d e (f2 b c d) k2 w4 (fun b e =>
  word (left (Z.lxor (Z.lxor (Z.lxor w5 w2) w13) w7)) (fun w5 =>
  Round e a b c d (f2 a b c) k2 w5 (fun a d =>
  word (left (Z.lxor (Z.lxor (Z.lxor w6 w3) w14) w8)) (fun w6 =>
  Round d e a b c (f2 e a b) k2 w6 (fun e c =>
  word (left (Z.lxor (Z.lxor (Z.lxor w7 w4) w15) w9)) (fun w7 =>
  Round c d e a b (f2 d e a) k2 w7 (fun d b =>
  word (left (Z.lxor (Z.lxor (Z.lxor w8 w5) w0) w10)) (fun w8 =>
  Round b c d e a (f2 c d e) k2 w8 (fun c a =>
  word (left (Z.lxor (Z.lxor (Z.lxor w9 w6) w1) w11)) (fun w9 =>
  Round a b c d e (f2 b c d) k2 w9 (fun b e =>
  word (left (Z.lxor (Z.lxor (Z.lxor w10 w7) w2) w12)) (fun w10 =>
  Round e a b c d (f2 a b c) k2 w10 (fun a d =>
  word (left (Z.lxor (Z.lxor (Z.lxor w11 w8) w3) w13)) (fun w11 =>
  Round d e a b c (f2 e a b) k2 w11 (fun e c =>
  word (left (Z.lxor (Z.lxor (Z.lxor w12 w9) w4) w14)) (fun w12 =>
  Round c d e a b (f2 d e a) k2 w12 (fun d b =>
  word (left (Z.lxor (Z.lxor (Z.lxor w13 w10) w5) w15)) (fun w13 =>
  Round b c d e a (f2 c d e) k2 w13 (fun c a =>
  word (left (Z.lxor (Z.lxor (Z.lxor w14 w11) w6) w0)) (fun w14 =>
  Round a b c d e (f2 b c d) k2 w14 (fun b e =>
  word (left (Z.lxor (Z.lxor (Z.lxor w15 w12) w7) w1)) (fun w15 =>
  Round e a b c d (f2 a b c) k2 w15 (fun a d =>
  word (left (Z.lxor (Z.lxor (Z.lxor w0 w13) w8) w2)) (fun w0 =>
  Round d e a b c (f2 e a b) k2 w0 (fun e c =>
  word (left (Z.lxor (Z.lxor (Z.lxor w1 w14) w9) w3)) (fun w1 =>
  Round c d e a b (f2 d e a) k2 w1 (fun d b =>
  word (left (Z.lxor (Z.lxor (Z.lxor w2 w15) w10) w4)) (fun w2 =>
  Round b c d e a (f2 c d e) k2 w2 (fun c a =>
  word (left (Z.lxor (Z.lxor (Z.lxor w3 w0) w11) w5)) (fun w3 =>
  Round a b c d e (f2 b c d) k2 w3 (fun b e =>
  word (left (Z.lxor (Z.lxor (Z.lxor w4 w1) w12) w6)) (fun w4 =>
  Round e a b c d (f2 a b c) k2 w4 (fun a d =>
  word (left (Z.lxor (Z.lxor (Z.lxor w5 w2) w13) w7)) (fun w5 =>
  Round d e a b c (f2 e a b) k2 w5 (fun e c =>
  word (left (Z.lxor (Z.lxor (Z.lxor w6 w3) w14) w8)) (fun w6 =>
  Round c d e a b (f2 d e a) k2 w6 (fun d b =>
  word (left (Z.lxor (Z.lxor (Z.lxor w7 w4) w15) w9)) (fun w7 =>
  Round b c d e a (f2 c d e) k2 w7 (fun c a =>
  word (left (Z.lxor (Z.lxor (Z.lxor w8 w5) w0) w10)) (fun w8 =>
  Round a b c d e (f3 b c d) k3 w8 (fun b e =>
  word (left (Z.lxor (Z.lxor (Z.lxor w9 w6) w1) w11)) (fun w9 =>
  Round e a b c d (f3 a b c) k3 w9 (fun a d =>
  word (left (Z.lxor (Z.lxor (Z.lxor w10 w7) w2) w12)) (fun w10 =>
  Round d e a b c (f3 e a b) k3 w10 (fun e c =>
  word (left (Z.lxor (Z.lxor (Z.lxor w11 w8) w3) w13)) (fun w11 =>
  Round c d e a b (f3 d e a) k3 w11 (fun d b =>
  word (left (Z.lxor (Z.lxor (Z.lxor w12 w9) w4) w14)) (fun w12 =>
  Round b c d e a (f3 c d e) k3 w12 (fun c a =>
  word (left (Z.lxor (Z.lxor (Z.lxor w13 w10) w5) w15)) (fun w13 =>
  Round a b c d e (f3 b c d) k3 w13 (fun b e =>
  word (left (Z.lxor (Z.lxor (Z.lxor w14 w11) w6) w0)) (fun w14 =>
  Round e a b c d (f3 a b c) k3 w14 (fun a d =>
  word (left (Z.lxor (Z.lxor (Z.lxor w15 w12) w7) w1)) (fun w15 =>
  Round d e a b c (f3 e a b) k3 w15 (fun e c =>
  word (left (Z.lxor (Z.lxor (Z.lxor w0 w13) w8) w2)) (fun w0 =>
  Round c d e a b (f3 d e a) k3 w0 (fun d b =>
  word (left (Z.lxor (Z.lxor (Z.lxor w1 w14) w9) w3)) (fun w1 =>
  Round b c d e a (f3 c d e) k3 w1 (fun c a =>
  word (left (Z.lxor (Z.lxor (Z.lxor w2 w15) w10) w4)) (fun w2 =>
  Round a b c d e (f3 b c d) k3 w2 (fun b e =>
  word (left (Z.lxor (Z.lxor (Z.lxor w3 w0) w11) w5)) (fun w3 =>
  Round e a b c d (f3 a b c) k3 w3 (fun a d =>
  word (left (Z.lxor (Z.lxor (Z.lxor w4 w1) w12) w6)) (fun w4 =>
  Round d e a b c (f3 e a b) k3 w4 (fun e c =>
  word (left (Z.lxor (Z.lxor (Z.lxor w5 w2) w13) w7)) (fun w5 =>
  Round c d e a b (f3 d e a) k3 w5 (fun d b =>
  word (left (Z.lxor (Z.lxor (Z.lxor w6 w3) w14) w8)) (fun w6 =>
  Round b c d e a (f3 c d e) k3 w6 (fun c a =>
  word (left (Z.lxor (Z.lxor (Z.lxor w7 w4) w15) w9)) (fun w7 =>
  Round a b c d e (f3 b c d) k3 w7 (fun b e =>
  word (left (Z.lxor (Z.lxor (Z.lxor w8 w5) w0) w10)) (fun w8 =>
  Round e a b c d (f3 a b c) k3 w8 (fun a d =>
  word (left (Z.lxor (Z.lxor (Z.lxor w9 w6) w1) w11)) (fun w9 =>
  Round d e a b c (f3 e a b) k3 w9 (fun e c =>
  word (left (Z.lxor (Z.lxor (Z.lxor w10 w7) w2) w12)) (fun w10 =>
  Round c d e a b (f3 d e a) k3 w10 (fun d b =>
  word (left (Z.lxor (Z.lxor (Z.lxor w11 w8) w3) w13)) (fun w11 =>
  Round b c d e a (f3 c d e) k3 w11 (fun c a =>
  word (left (Z.lxor (Z.lxor (Z.lxor w12 w9) w4) w14)) (fun w12 =>
  Round a b c d e (f2 b c d) k4 w12 (fun b e =>
  word (left (Z.lxor (Z.lxor (Z.lxor w13 w10) w5) w15)) (fun w13 =>
  Round e a b c d (f2 a b c) k4 w13 (fun a d =>
  word (left (Z.lxor (Z.lxor (Z.lxor w14 w11) w6) w0)) (fun w14 =>
  Round d e a b c (f2 e a b) k4 w14 (fun e c =>
  word (left (Z.lxor (Z.lxor (Z.lxor w15 w12) w7) w1)) (fun w15 =>
  Round c d e a b (f2 d e a) k4 w15 (fun d b =>
  word (left (Z.lxor (Z.lxor (Z.lxor w0 w13) w8) w2)) (fun w0 =>
  Round b c d e a (f2 c d e) k4 w0 (fun c a =>
  word (left (Z.lxor (Z.lxor (Z.lxor w1 w14) w9) w3)) (fun w1 =>
  Round a b c d e (f2 b c d) k4 w1 (fun b e =>
  word (left (Z.lxor (Z.lxor (Z.lxor w2 w15) w10) w4)) (fun w2 =>
  Round e a b c d (f2 a b c) k4 w2 (fun a d =>
  word (left (Z.lxor (Z.lxor (Z.lxor w3 w0) w11) w5)) (fun w3 =>
  Round d e a b c (f2 e a b) k4 w3 (fun e c =>
  word (left (Z.lxor (Z.lxor (Z.lxor w4 w1) w12) w6)) (fun w4 =>
  Round c d e a b (f2 d e a) k4 w4 (fun d b =>
  word (left (Z.lxor (Z.lxor (Z.lxor w5 w2) w13) w7)) (fun w5 =>
  Round b c d e a (f2 c d e) k4 w5 (fun c a =>
  word (left (Z.lxor (Z.lxor (Z.lxor w6 w3) w14) w8)) (fun w6 =>
  Round a b c d e (f2 b c d) k4 w6 (fun b e =>
  word (left (Z.lxor (Z.lxor (Z.lxor w7 w4) w15) w9)) (fun w7 =>
  Round e a b c d (f2 a b c) k4 w7 (fun a d =>
  word (left (Z.lxor (Z.lxor (Z.lxor w8 w5) w0) w10)) (fun w8 =>
  Round d e a b c (f2 e a b) k4 w8 (fun e c =>
  word (left (Z.lxor (Z.lxor (Z.lxor w9 w6) w1) w11)) (fun w9 =>
  Round c d e a b (f2 d e a) k4 w9 (fun d b =>
  word (left (Z.lxor (Z.lxor (Z.lxor w10 w7) w2) w12)) (fun w10 =>
  Round b c d e a (f2 c d e) k4 w10 (fun c a =>
  word (left (Z.lxor (Z.lxor (Z.lxor w11 w8) w3) w13)) (fun w11 =>
  Round a b c d e (f2 b c d) k4 w11 (fun b e =>
  word (left (Z.lxor (Z.lxor (Z.lxor w12 w9) w4) w14)) (fun w12 =>
  Round e a b c d (f2 a b c) k4 w12 (fun a d =>
  Round d e a b c (f2 e a b) k4 (left (Z.lxor (Z.lxor (Z.lxor w13 w10) w5) w15)) (fun e c =>
  Round c d e a b (f2 d e a) k4 (left (Z.lxor (Z.lxor (Z.lxor w14 w11) w6) w0)) (fun d b =>
  Round b c d e a (f2 c d e) k4 (left (Z.lxor (Z.lxor (Z.lxor w15 w12) w7) w1)) (fun c a =>
  F a b c d e))))))))))))))))))))))))))))))))))))))))))))))))))))))))))))))))))))))))))))))))))))))))))))))))))))))))))))))))))))))))))))))))))))))))))))))))))))))))))))).

Definition Transform (s : state) (chunk : bytes) : state :=
  Transform_rounds (s0 s) (s1 s) (s2 s) (s3 s) (s4 s) chunk
    (fun a b c d e =>
       mkState (u32 (s0 s + a)) (u32 (s1 s + b)) (u32 (s2 s + c)) (u32 (s3 s + d)) (u32 (s4 s + e))).

(** ** The class [CSHA1] *)

#[export] Instance sha1_compression : Compression state := Transform.

Definition CSHA1 (buf : bytes) : hasher state := mkHasher Initialize buf 0.

Definition Write (h : hasher state) (data : bytes) : hasher state := HashBuffer.Write h data.

Definition output (s : state) : bytes :=
  WriteBE32 (s0 s) ++ WriteBE32 (s1 s) ++ WriteBE32 (s2 s) ++ WriteBE32 (s3 s) ++ WriteBE32 (s4 s).

Definition Finalize (h : hasher state) : hasher state * bytes :=
  let h' := finish Write WriteBE64 h in (h', output (hs h')).

Definition Reset (h : hasher state) : hasher state := mkHasher Initialize (hbuf h) 0.

(** ** FIPS 180-4 *)

Module FIPS.

Definition Ch (x y z : Z) : Z := Z.lxor (Z.land x y) (Z.land (Z.lnot x) z).
Definition Parity (x y z : Z) : Z := Z.lxor (Z.lxor x y) z.
Definition Maj (x y z : Z) : Z := Z.lxor (Z.lxor (Z.land x y) (Z.land x z)) (Z.land y z).

(** The function and the constant of each of the eighty rounds *)
Definition steps : list ((Z -> Z -> Z -> Z) * Z) :=
  repeat (Ch, 0x5A827999) 20 ++ repeat (Parity, 0x6ED9EBA1) 20 ++
  repeat (Maj, 0x8F1BBCDC) 20 ++ repeat (Parity, 0xCA62C1D6) 20.

(** W_t = ROTL 1 (W_(t-3) xor W_(t-8) xor W_(t-14) xor W_(t-16)) *)
Definition next_word (win : list Z) : Z :=
  rotl 1 (Z.lxor (Z.lxor (Z.lxor (nth 13 win 0) (nth 8 win 0)) (nth 2 win 0)) (nth 0 win 0)).

Fixpoint schedule (n : nat) (win : list Z) : list Z :=
  match n with
  | O => []
  | S n' => let w := next_word win in w :: schedule n' (tail win ++ [w])
  end.

Definition block_words (chunk : bytes) : list Z :=
  map (fun i => ReadBE32 chunk (4 * i)) (seq 0 16).

Definition message_schedule (win : list Z) : list Z := win ++ schedule 64 win.

Definition round (st : state) (x : (Z -> Z -> Z -> Z) * Z * Z) : state :=
  let '(mkState a b c d e) := st in
  let '(f, k, w) := x in
  mkState (u32 (rotl 5 a + f b c d + e + k + w)) a (rotl 30 b) c d.

Definition rounds (l : list ((Z -> Z -> Z -> Z) * Z * Z)) (st : state) : state := fold_left round l st.

Definition add_state (s t : state) : state :=
  mkState (u32 (s0 s + s0 t)) (u32 (s1 s + s1 t)) (u32 (s2 s + s2 t)) (u32 (s3 s + s3 t))
          (u32 (s4 s + s4 t)).

Definition compression (s : state) (win : list Z) : state :=
  add_state s (rounds (combine steps (message_schedule win)) s).

Fixpoint blocks (n : nat) (s : state) (m : bytes) : state :=
  match n with
  | O => s
  | S n' => blocks n' (compression s (block_words m)) (drop 64 m)
  end.

Definition SHA1 (m : bytes) : bytes :=
  let p := padded WriteBE64 m in output (blocks (length p / 64) Initialize p).

End FIPS.

(** ** The unrolled code against the reference *)

Lemma f1_FIPS x y z : f1 x y z = FIPS.Ch x y z.
Proof.
  apply Z.bits_inj'; intros n Hn. unfold f1, FIPS.Ch.
  rewrite !Z.lxor_spec, !Z.land_spec, Z.lxor_spec, Z.lnot_spec by done.
  by destruct (Z.testbit x n), (Z.testbit y n), (Z.testbit z n).
Qed.

Lemma f3_FIPS x y z : f3 x y z = FIPS.Maj x y z.
Proof.
  apply Z.bits_inj'; intros n Hn. unfold f3, FIPS.Maj.
  rewrite !Z.lxor_spec, !Z.lor_spec, !Z.land_spec, Z.lor_spec.
  by destruct (Z.testbit x n), (Z.testbit y n), (Z.testbit z n).
Qed.

Section unroll.
Context {R : Type} (F : state -> R).

Lemma sha1_word_eq x y (q1 q2 : Z -> R) :
  x = y -> (forall w, q1 w = q2 w) -> word x q1 = word y q2.
Proof. intros -> E. apply E. Qed.

Lemma sha1_Round_eq a b c d e f f' k k' w (q1 q2 : Z -> Z -> R) :
  f = f' -> k = k' -> (forall b' e', q1 b' e' = q2 b' e') ->
  Round a b c d e f k w q1 = Round a b c d e f' k' w q2.
Proof. intros -> -> E. apply E. Qed.

Lemma sha1_rounds_cons f k w l a b c d e :
  F (FIPS.rounds ((f, k, w) :: l) (mkState a b c d e)) =
  Round a b c d e (f b c d) k w (fun b e => F (FIPS.rounds l (mkState e a b c d))).
Proof.
  unfold FIPS.rounds, Round. cbn [fold_left FIPS.round]. do 3 f_equal. f_equal. lia.
Qed.

Lemma sha1_words_cons f k ks w ws a b c d e :
  F (FIPS.rounds (combine ((f, k) :: ks) (w :: ws)) (mkState a b c d e)) =
  Round a b c d e (f b c d) k w
    (fun b e => F (FIPS.rounds (combine ks ws) (mkState e a b c d))).
Proof. apply sha1_rounds_cons. Qed.

Lemma sha1_schedule_cons k l n w0 w1 w2 w3 w4 w5 w6 w7 w8 w9 w10 w11 w12 w13 w14 w15 st :
  F (FIPS.rounds (combine (k :: l)
       (FIPS.schedule (S n) [w0;w1;w2;w3;w4;w5;w6;w7;w8;w9;w10;w11;w12;w13;w14;w15])) st) =
  word (left (Z.lxor (Z.lxor (Z.lxor w0 w13) w8) w2)) (fun w =>
    F (FIPS.rounds ((k, w) :: combine l
       (FIPS.schedule n [w1;w2;w3;w4;w5;w6;w7;w8;w9;w10;w11;w12;w13;w14;w15;w])) st)).
Proof.
  unfold word. cbn [FIPS.schedule combine tail app]. unfold FIPS.next_word. cbn [nth].
  by rewrite (Z.lxor_comm _ w0), <- !Z.lxor_assoc.
Qed.

End unroll.

Ltac same_function := first [reflexivity | apply f1_FIPS | apply f3_FIPS].

Ltac unroll_step :=
  first
    [ rewrite sha1_rounds_cons; apply sha1_Round_eq; [same_function | reflexivity | intros ? ?]
    | rewrite sha1_schedule_cons; apply sha1_word_eq; [reflexivity | intros ?]
    | rewrite sha1_schedule_cons; unfold word; rewrite sha1_rounds_cons;
      apply sha1_Round_eq; [same_function | reflexivity | intros ? ?] ].

Lemma sha1_Transform_rounds_spec {R} (F : state -> R) a b c d e chunk :
  Transform_rounds a b c d e chunk (fun a b c d e => F (mkState a b c d e)) =
  F (FIPS.rounds (combine FIPS.steps (FIPS.message_schedule (FIPS.block_words chunk)))
                 (mkState a b c d e)).
Proof.
  unfold Transform_rounds, FIPS.message_schedule, FIPS.steps.
  change (FIPS.block_words chunk) with
    [ReadBE32 chunk 0; ReadBE32 chunk 4; ReadBE32 chunk 8; ReadBE32 chunk 12;
     ReadBE32 chunk 16; ReadBE32 chunk 20; ReadBE32 chunk 24; ReadBE32 chunk 28;
     ReadBE32 chunk 32; ReadBE32 chunk 36; ReadBE32 chunk 40; ReadBE32 chunk 44;
     ReadBE32 chunk 48; ReadBE32 chunk 52; ReadBE32 chunk 56; ReadBE32 chunk 60].
  cbn [app repeat].
  do 16 (unfold word at 1; rewrite sha1_words_cons; apply sha1_Round_eq; [same_function | reflexivity | intros ? ?]).
  repeat unroll_step. reflexivity.
Qed.

Lemma sha1_Transform_spec s chunk : Transform s chunk = FIPS.compression s (FIPS.block_words chunk).
Proof.
  destruct s as [a b c d e]. unfold Transform, FIPS.compression. cbn [s0 s1 s2 s3 s4].
  apply (sha1_Transform_rounds_spec (FIPS.add_state (mkState a b c d e))).
Qed.

#[local] Opaque Transform FIPS.rounds.

#[export] Instance sha1_compression_laws : CompressionLaws state.
Proof.
  intros s x y E. unfold compress, sha1_compression. rewrite !sha1_Transform_spec. f_equal.
  apply map_ext_in. intros i [_ Hi]%in_seq. apply ReadBE32_local with 64%nat; [done|lia].
Qed.

Lemma sha1_absorb_FIPS n s m : absorb n s m = FIPS.blocks n s m.
Proof.
  revert s m; induction n as [|n IH]; intros s m; [done|]. cbn [absorb FIPS.blocks].
  rewrite IH. f_equal. apply sha1_Transform_spec.
Qed.

Lemma sha1_Finalize_spec h m :
  holds Initialize h m -> 8 * Z.of_nat (length m) < 2 ^ 64 -> (Finalize h).2 = FIPS.SHA1 m.
Proof.
  intros Hh Hlen. unfold Finalize, FIPS.SHA1. cbn [snd].
  rewrite (finish_holds Initialize Write WriteBE64 h m); [| intros; by apply Write_holds | done | done | done].
  unfold hash_of. by rewrite sha1_absorb_FIPS.
Qed.

Example SHA1_abc :
  FIPS.SHA1 [97; 98; 99] =
  [0xa9; 0x99; 0x3e; 0x36; 0x47; 0x06; 0x81; 0x6a; 0xba; 0x3e;
   0x25; 0x71; 0x78; 0x50; 0xc2; 0x6c; 0x9c; 0xd0; 0xd8; 0x9d].
Proof. vm_compute. reflexivity. Qed.
