(* ===== verification/Ripemd160.v ===== *)
(** * Ripemd160: RIPEMD-160 (src/src/crypto/ripemd160.{h,cpp})

    [Transform] is translated line by line; its 160 steps are five
    definitions, one per round of the function.  A step takes the
    continuation that receives the two variables it writes.  The reference
    is the specification by Dobbertin, Bosselaers and Preneel: two lines of
    eighty steps given by tables of message words and rotations. *)

From Stdlib Require Import ZArith List Lia Bool.
From stdpp Require Import base decidable list.
From S2P Require Import Prelude Uint256 Primitives HashBuffer.
Local Open Scope Z_scope.

(** ** The functions and the steps *)

Definition lnot32 (x : Z) : Z := u32 (Z.lnot x).

Definition f1 (x y z : Z) : Z := Z.lxor (Z.lxor x y) z.
Definition f2 (x y z : Z) : Z := Z.lor (Z.land x y) (Z.land (lnot32 x) z).
Definition f3 (x y z : Z) : Z := Z.lxor (Z.lor x (lnot32 y)) z.
Definition f4 (x y z : Z) : Z := Z.lor (Z.land x z) (Z.land y (lnot32 z)).
Definition f5 (x y z : Z) : Z := Z.lxor x (Z.lor y (lnot32 z)).

Definition rol (x i : Z) : Z := Z.lor (u32 (Z.shiftl x i)) (Z.shiftr x (32 - i)).

(** [uint32_t s[5]] *)
Record state := mkState { s0 : Z; s1 : Z; s2 : Z; s3 : Z; s4 : Z }.

Definition Initialize : state :=
  mkState 0x67452301 0xEFCDAB89 0x98BADCFE 0x10325476 0xC3D2E1F0.

(** [Round(a&, b, c&, d, e, f, x, k, r)]; [ret] receives the new [a] and [c]. *)
Definition Round {R : Type} (a b c d e f x k r : Z) (ret : Z -> Z -> R) : R :=
  ret (u32 (rol (u32 (a + f + x + k)) r + e)) (rol c 10).

Definition R11 {R : Type} (a b c d e x r : Z) (ret : Z -> Z -> R) : R :=
  Round a b c d e (f1 b c d) x 0 r ret.
Definition R21 {R : Type} (a b c d e x r : Z) (ret : Z -> Z -> R) : R :=
  Round a b c d e (f2 b c d) x 0x5A827999 r ret.
Definition R31 {R : Type} (a b c d e x r : Z) (ret : Z -> Z -> R) : R :=
  Round a b c d e (f3 b c d) x 0x6ED9EBA1 r ret.
Definition R41 {R : Type} (a b c d e x r : Z) (ret : Z -> Z -> R) : R :=
  Round a b c d e (f4 b c d) x 0x8F1BBCDC r ret.
Definition R51 {R : Type} (a b c d e x r : Z) (ret : Z -> Z -> R) : R :=
  Round a b c d e (f5 b c d) x 0xA953FD4E r ret.
Definition R12 {R : Type} (a b c d e x r : Z) (ret : Z -> Z -> R) : R :=
  Round a b c d e (f5 b c d) x 0x50A28BE6 r ret.
Definition R22 {R : Type} (a b c d e x r : Z) (ret : Z -> Z -> R) : R :=
  Round a b c d e (f4 b c d) x 0x5C4DD124 r ret.
Definition R32 {R : Type} (a b c d e x r : Z) (ret : Z -> Z -> R) : R :=
  Round a b c d e (f3 b c d) x 0x6D703EF3 r ret.
Definition R42 {R : Type} (a b c d e x r : Z) (ret : Z -> Z -> R) : R :=
  Round a b c d e (f2 b c d) x 0x7A6D76E9 r ret.
Definition R52 {R : Type} (a b c d e x r : Z) (ret : Z -> Z -> R) : R :=
  Round a b c d e (f1 b c d) x 0 r ret.

(** Both lines of round 1 of [Transform], interleaved as in the source. *)
Definition Transform_round1 {R : Type} (w0 w1 w2 w3 w4 w5 w6 w7 w8 w9 w10 w11 w12 w13 w14 w15 : Z)
    (a1 b1 c1 d1 e1 a2 b2 c2 d2 e2 : Z)
    (F : Z -> Z -> Z -> Z -> Z -> Z -> Z -> Z -> Z -> Z -> R) : R :=
  R11 a1 b1 c1 d1 e1 w0 11 (fun a1 c1 =>
  R12 a2 b2 c2 d2 e2 w5 8 (fun a2 c2 =>
  R11 e1 a1 b1 c1 d1 w1 14 (fun e1 b1 =>
  R12 e2 a2 b2 c2 d2 w14 9 (fun e2 b2 =>
  R11 d1 e1 a1 b1 c1 w2 15 (fun d1 a1 =>
  R12 d2 e2 a2 b2 c2 w7 9 (fun d2 a2 =>
  R11 c1 d1 e1 a1 b1 w3 12 (fun c1 e1 =>
  R12 c2 d2 e2 a2 b2 w0 11 (fun c2 e2 =>
  R11 b1 c1 d1 e1 a1 w4 5 (fun b1 d1 =>
  R12 b2 c2 d2 e2 a2 w9 13 (fun b2 d2 =>
  R11 a1 b1 c1 d1 e1 w5 8 (fun a1 c1 =>
  R12 a2 b2 c2 d2 e2 w2 15 (fun a2 c2 =>
  R11 e1 a1 b1 c1 d1 w6 7 (fun e1 b1 =>
  R12 e2 a2 b2 c2 d2 w11 15 (fun e2 b2 =>
  R11 d1 e1 a1 b1 c1 w7 9 (fun d1 a1 =>
  R12 d2 e2 a2 b2 c2 w4 5 (fun d2 a2 =>
  R11 c1 d1 e1 a1 b1 w8 11 (fun c1 e1 =>
  R12 c2 d2 e2 a2 b2 w13 7 (fun c2 e2 =>
  R11 b1 c1 d1 e1 a1 w9 13 (fun b1 d1 =>
  R12 b2 c2 d2 e2 a2 w6 7 (fun b2 d2 =>
  R11 a1 b1 c1 d1 e1 w10 14 (fun a1 c1 =>
  R12 a2 b2 c2 d2 e2 w15 8 (fun a2 c2 =>
  R11 e1 a1 b1 c1 d1 w11 15 (fun e1 b1 =>
  R12 e2 a2 b2 c2 d2 w8 11 (fun e2 b2 =>
  R11 d1 e1 a1 b1 c1 w12 6 (fun d1 a1 =>
  R12 d2 e2 a2 b2 c2 w1 14 (fun d2 a2 =>
  R11 c1 d1 e1 a1 b1 w13 7 (fun c1 e1 =>
  R12 c2 d2 e2 a2 b2 w10 14 (fun c2 e2 =>
  R11 b1 c1 d1 e1 a1 w14 9 (fun b1 d1 =>
  R12 b2 c2 d2 e2 a2 w3 12 (fun b2 d2 =>
  R11 a1 b1 c1 d1 e1 w15 8 (fun a1 c1 =>
  R12 a2 b2 c2 d2 e2 w12 6 (fun a2 c2 =>
  F a1 b1 c1 d1 e1 a2 b2 c2 d2 e2)))))))))))))))))))))))))))))))).

(** Both lines of round 2 of [Transform], interleaved as in the source. *)
Definition Transform_round2 {R : Type} (w0 w1 w2 w3 w4 w5 w6 w7 w8 w9 w10 w11 w12 w13 w14 w15 : Z)
    (a1 b1 c1 d1 e1 a2 b2 c2 d2 e2 : Z)
    (F : Z -> Z -> Z -> Z -> Z -> Z -> Z -> Z -> Z -> Z -> R) : R :=
  R21 e1 a1 b1 c1 d1 w7 7 (fun e1 b1 =>
  R22 e2 a2 b2 c2 d2 w6 9 (fun e2 b2 =>
  R21 d1 e1 a1 b1 c1 w4 6 (fun d1 a1 =>
  R22 d2 e2 a2 b2 c2 w11 13 (fun d2 a2 =>
  R21 c1 d1 e1 a1 b1 w13 8 (fun c1 e1 =>
  R22 c2 d2 e2 a2 b2 w3 15 (fun c2 e2 =>
  R21 b1 c1 d1 e1 a1 w1 13 (fun b1 d1 =>
  R22 b2 c2 d2 e2 a2 w7 7 (fun b2 d2 =>
  R21 a1 b1 c1 d1 e1 w10 11 (fun a1 c1 =>
  R22 a2 b2 c2 d2 e2 w0 12 (fun a2 c2 =>
  R21 e1 a1 b1 c1 d1 w6 9 (fun e1 b1 =>
  R22 e2 a2 b2 c2 d2 w13 8 (fun e2 b2 =>
  R21 d1 e1 a1 b1 c1 w15 7 (fun d1 a1 =>
  R22 d2 e2 a2 b2 c2 w5 9 (fun d2 a2 =>
  R21 c1 d1 e1 a1 b1 w3 15 (fun c1 e1 =>
  R22 c2 d2 e2 a2 b2 w10 11 (fun c2 e2 =>
  R21 b1 c1 d1 e1 a1 w12 7 (fun b1 d1 =>
  R22 b2 c2 d2 e2 a2 w14 7 (fun b2 d2 =>
  R21 a1 b1 c1 d1 e1 w0 12 (fun a1 c1 =>
  R22 a2 b2 c2 d2 e2 w15 7 (fun a2 c2 =>
  R21 e1 a1 b1 c1 d1 w9 15 (fun e1 b1 =>
  R22 e2 a2 b2 c2 d2 w8 12 (fun e2 b2 =>
  R21 d1 e1 a1 b1 c1 w5 9 (fun d1 a1 =>
  R22 d2 e2 a2 b2 c2 w12 7 (fun d2 a2 =>
  R21 c1 d1 e1 a1 b1 w2 11 (fun c1 e1 =>
  R22 c2 d2 e2 a2 b2 w4 6 (fun c2 e2 =>
  R21 b1 c1 d1 e1 a1 w14 7 (fun b1 d1 =>
  R22 b2 c2 d2 e2 a2 w9 15 (fun b2 d2 =>
  R21 a1 b1 c1 d1 e1 w11 13 (fun a1 c1 =>
  R22 a2 b2 c2 d2 e2 w1 13 (fun a2 c2 =>
  R21 e1 a1 b1 c1 d1 w8 12 (fun e1 b1 =>
  R22 e2 a2 b2 c2 d2 w2 11 (fun e2 b2 =>
  F a1 b1 c1 d1 e1 a2 b2 c2 d2 e2)))))))))))))))))))))))))))))))).

(** Both lines of round 3 of [Transform], interleaved as in the source. *)
Definition Transform_round3 {R : Type} (w0 w1 w2 w3 w4 w5 w6 w7 w8 w9 w10 w11 w12 w13 w14 w15 : Z)
    (a1 b1 c1 d1 e1 a2 b2 c2 d2 e2 : Z)
    (F : Z -> Z -> Z -> Z -> Z -> Z -> Z -> Z -> Z -> Z -> R) : R :=
  R31 d1 e1 a1 b1 c1 w3 11 (fun d1 a1 =>
  R32 d2 e2 a2 b2 c2 w15 9 (fun d2 a2 =>
  R31 c1 d1 e1 a1 b1 w10 13 (fun c1 e1 =>
  R32 c2 d2 e2 a2 b2 w5 7 (fun c2 e2 =>
  R31 b1 c1 d1 e1 a1 w14 6 (fun b1 d1 =>
  R32 b2 c2 d2 e2 a2 w1 15 (fun b2 d2 =>
  R31 a1 b1 c1 d1 e1 w4 7 (fun a1 c1 =>
  R32 a2 b2 c2 d2 e2 w3 11 (fun a2 c2 =>
  R31 e1 a1 b1 c1 d1 w9 14 (fun e1 b1 =>
  R32 e2 a2 b2 c2 d2 w7 8 (fun e2 b2 =>
  R31 d1 e1 a1 b1 c1 w15 9 (fun d1 a1 =>
  R32 d2 e2 a2 b2 c2 w14 6 (fun d2 a2 =>
  R31 c1 d1 e1 a1 b1 w8 13 (fun c1 e1 =>
  R32 c2 d2 e2 a2 b2 w6 6 (fun c2 e2 =>
  R31 b1 c1 d1 e1 a1 w1 15 (fun b1 d1 =>
  R32 b2 c2 d2 e2 a2 w9 14 (fun b2 d2 =>
  R31 a1 b1 c1 d1 e1 w2 14 (fun a1 c1 =>
  R32 a2 b2 c2 d2 e2 w11 12 (fun a2 c2 =>
  R31 e1 a1 b1 c1 d1 w7 8 (fun e1 b1 =>
  R32 e2 a2 b2 c2 d2 w8 13 (fun e2 b2 =>
  R31 d1 e1 a1 b1 c1 w0 13 (fun d1 a1 =>
  R32 d2 e2 a2 b2 c2 w12 5 (fun d2 a2 =>
  R31 c1 d1 e1 a1 b1 w6 6 (fun c1 e1 =>
  R32 c2 d2 e2 a2 b2 w2 14 (fun c2 e2 =>
  R31 b1 c1 d1 e1 a1 w13 5 (fun b1 d1 =>
  R32 b2 c2 d2 e2 a2 w10 13 (fun b2 d2 =>
  R31 a1 b1 c1 d1 e1 w11 12 (fun a1 c1 =>
  R32 a2 b2 c2 d2 e2 w0 13 (fun a2 c2 =>
  R31 e1 a1 b1 c1 d1 w5 7 (fun e1 b1 =>
  R32 e2 a2 b2 c2 d2 w4 7 (fun e2 b2 =>
  R31 d1 e1 a1 b1 c1 w12 5 (fun d1 a1 =>
  R32 d2 e2 a2 b2 c2 w13 5 (fun d2 a2 =>
  F a1 b1 c1 d1 e1 a2 b2 c2 d2 e2)))))))))))))))))))))))))))))))).

(** Both lines of round 4 of [Transform], interleaved as in the source. *)
Definition Transform_round4 {R : Type} (w0 w1 w2 w3 w4 w5 w6 w7 w8 w9 w10 w11 w12 w13 w14 w15 : Z)
    (a1 b1 c1 d1 e1 a2 b2 c2 d2 e2 : Z)
    (F : Z -> Z -> Z -> Z -> Z -> Z -> Z -> Z -> Z -> Z -> R) : R :=
  R41 c1 d1 e1 a1 b1 w1 11 (fun c1 e1 =>
  R42 c2 d2 e2 a2 b2 w8 15 (fun c2 e2 =>
  R41 b1 c1 d1 e1 a1 w9 12 (fun b1 d1 =>
  R42 b2 c2 d2 e2 a2 w6 5 (fun b2 d2 =>
  R41 a1 b1 c1 d1 e1 w11 14 (fun a1 c1 =>
  R42 a2 b2 c2 d2 e2 w4 8 (fun a2 c2 =>
  R41 e1 a1 b1 c1 d1 w10 15 (fun e1 b1 =>
  R42 e2 a2 b2 c2 d2 w1 11 (fun e2 b2 =>
  R41 d1 e1 a1 b1 c1 w0 14 (fun d1 a1 =>
  R42 d2 e2 a2 b2 c2 w3 14 (fun d2 a2 =>
  R41 c1 d1 e1 a1 b1 w8 15 (fun c1 e1 =>
  R42 c2 d2 e2 a2 b2 w11 14 (fun c2 e2 =>
  R41 b1 c1 d1 e1 a1 w12 9 (fun b1 d1 =>
  R42 b2 c2 d2 e2 a2 w15 6 (fun b2 d2 =>
  R41 a1 b1 c1 d1 e1 w4 8 (fun a1 c1 =>
  R42 a2 b2 c2 d2 e2 w0 14 (fun a2 c2 =>
  R41 e1 a1 b1 c1 d1 w13 9 (fun e1 b1 =>
  R42 e2 a2 b2 c2 d2 w5 6 (fun e2 b2 =>
  R41 d1 e1 a1 b1 c1 w3 14 (fun d1 a1 =>
  R42 d2 e2 a2 b2 c2 w12 9 (fun d2 a2 =>
  R41 c1 d1 e1 a1 b1 w7 5 (fun c1 e1 =>
  R42 c2 d2 e2 a2 b2 w2 12 (fun c2 e2 =>
  R41 b1 c1 d1 e1 a1 w15 6 (fun b1 d1 =>
  R42 b2 c2 d2 e2 a2 w13 9 (fun b2 d2 =>
  R41 a1 b1 c1 d1 e1 w14 8 (fun a1 c1 =>
  R42 a2 b2 c2 d2 e2 w9 12 (fun a2 c2 =>
  R41 e1 a1 b1 c1 d1 w5 6 (fun e1 b1 =>
  R42 e2 a2 b2 c2 d2 w7 5 (fun e2 b2 =>
  R41 d1 e1 a1 b1 c1 w6 5 (fun d1 a1 =>
  R42 d2 e2 a2 b2 c2 w10 15 (fun d2 a2 =>
  R41 c1 d1 e1 a1 b1 w2 12 (fun c1 e1 =>
  R42 c2 d2 e2 a2 b2 w14 8 (fun c2 e2 =>
  F a1 b1 c1 d1 e1 a2 b2 c2 d2 e2)))))))))))))))))))))))))))))))).

(** Both lines of round 5 of [Transform], interleaved as in the source. *)
Definition Transform_round5 {R : Type} (w0 w1 w2 w3 w4 w5 w6 w7 w8 w9 w10 w11 w12 w13 w14 w15 : Z)
    (a1 b1 c1 d1 e1 a2 b2 c2 d2 e2 : Z)
    (F : Z -> Z -> Z -> Z -> Z -> Z -> Z -> Z -> Z -> Z -> R) : R :=
  R51 b1 c1 d1 e1 a1 w4 9 (fun b1 d1 =>
  R52 b2 c2 d2 e2 a2 w12 8 (fun b2 d2 =>
  R51 a1 b1 c1 d1 e1 w0 15 (fun a1 c1 =>
  R52 a2 b2 c2 d2 e2 w15 5 (fun a2 c2 =>
  R51 e1 a1 b1 c1 d1 w5 5 (fun e1 b1 =>
  R52 e2 a2 b2 c2 d2 w10 12 (fun e2 b2 =>
  R51 d1 e1 a1 b1 c1 w9 11 (fun d1 a1 =>
  R52 d2 e2 a2 b2 c2 w4 9 (fun d2 a2 =>
  R51 c1 d1 e1 a1 b1 w7 6 (fun c1 e1 =>
  R52 c2 d2 e2 a2 b2 w1 12 (fun c2 e2 =>
  R51 b1 c1 d1 e1 a1 w12 8 (fun b1 d1 =>
  R52 b2 c2 d2 e2 a2 w5 5 (fun b2 d2 =>
  R51 a1 b1 c1 d1 e1 w2 13 (fun a1 c1 =>
  R52 a2 b2 c2 d2 e2 w8 14 (fun a2 c2 =>
  R51 e1 a1 b1 c1 d1 w10 12 (fun e1 b1 =>
  R52 e2 a2 b2 c2 d2 w7 6 (fun e2 b2 =>
  R51 d1 e1 a1 b1 c1 w14 5 (fun d1 a1 =>
  R52 d2 e2 a2 b2 c2 w6 8 (fun d2 a2 =>
  R51 c1 d1 e1 a1 b1 w1 12 (fun c1 e1 =>
  R52 c2 d2 e2 a2 b2 w2 13 (fun c2 e2 =>
  R51 b1 c1 d1 e1 a1 w3 13 (fun b1 d1 =>
  R52 b2 c2 d2 e2 a2 w13 6 (fun b2 d2 =>
  R51 a1 b1 c1 d1 e1 w8 14 (fun a1 c1 =>
  R52 a2 b2 c2 d2 e2 w14 5 (fun a2 c2 =>
  R51 e1 a1 b1 c1 d1 w11 11 (fun e1 b1 =>
  R52 e2 a2 b2 c2 d2 w0 15 (fun e2 b2 =>
  R51 d1 e1 a1 b1 c1 w6 8 (fun d1 a1 =>
  R52 d2 e2 a2 b2 c2 w3 13 (fun d2 a2 =>
  R51 c1 d1 e1 a1 b1 w15 5 (fun c1 e1 =>
  R52 c2 d2 e2 a2 b2 w9 11 (fun c2 e2 =>
  R51 b1 c1 d1 e1 a1 w13 6 (fun b1 d1 =>
  R52 b2 c2 d2 e2 a2 w11 11 (fun b2 d2 =>
  F a1 b1 c1 d1 e1 a2 b2 c2 d2 e2)))))))))))))))))))))))))))))))).

(** [ReadLE32(chunk + off)] *)
Definition ReadLE32 (chunk : bytes) (off : nat) : Z := arith_uint256.ReadLE32 (drop off chunk).

Definition Transform (s : state) (chunk : bytes) : state :=
  let w0 := ReadLE32 chunk 0 in let w1 := ReadLE32 chunk 4 in
  let w2 := ReadLE32 chunk 8 in let w3 := ReadLE32 chunk 12 in
  let w4 := ReadLE32 chunk 16 in let w5 := ReadLE32 chunk 20 in
  let w6 := ReadLE32 chunk 24 in let w7 := ReadLE32 chunk 28 in
  let w8 := ReadLE32 chunk 32 in let w9 := ReadLE32 chunk 36 in
  let w10 := ReadLE32 chunk 40 in let w11 := ReadLE32 chunk 44 in
  let w12 := ReadLE32 chunk 48 in let w13 := ReadLE32 chunk 52 in
  let w14 := ReadLE32 chunk 56 in let w15 := ReadLE32 chunk 60 in
  Transform_round1 w0 w1 w2 w3 w4 w5 w6 w7 w8 w9 w10 w11 w12 w13 w14 w15 (s0 s) (s1 s) (s2 s) (s3 s) (s4 s) (s0 s) (s1 s) (s2 s) (s3 s) (s4 s)
    (fun a1 b1 c1 d1 e1 a2 b2 c2 d2 e2 =>
  Transform_round2 w0 w1 w2 w3 w4 w5 w6 w7 w8 w9 w10 w11 w12 w13 w14 w15 a1 b1 c1 d1 e1 a2 b2 c2 d2 e2
    (fun a1 b1 c1 d1 e1 a2 b2 c2 d2 e2 =>
  Transform_round3 w0 w1 w2 w3 w4 w5 w6 w7 w8 w9 w10 w11 w12 w13 w14 w15 a1 b1 c1 d1 e1 a2 b2 c2 d2 e2
    (fun a1 b1 c1 d1 e1 a2 b2 c2 d2 e2 =>
  Transform_round4 w0 w1 w2 w3 w4 w5 w6 w7 w8 w9 w10 w11 w12 w13 w14 w15 a1 b1 c1 d1 e1 a2 b2 c2 d2 e2
    (fun a1 b1 c1 d1 e1 a2 b2 c2 d2 e2 =>
  Transform_round5 w0 w1 w2 w3 w4 w5 w6 w7 w8 w9 w10 w11 w12 w13 w14 w15 a1 b1 c1 d1 e1 a2 b2 c2 d2 e2
    (fun a1 b1 c1 d1 e1 a2 b2 c2 d2 e2 =>
       mkState (u32 (s1 s + c1 + d2)) (u32 (s2 s + d1 + e2)) (u32 (s3 s + e1 + a2))
               (u32 (s4 s + a1 + b2)) (u32 (s0 s + b1 + c2))))))).

(** ** The class [CRIPEMD160] *)

#[export] Instance ripemd160_compression : Compression state := Transform.

Definition CRIPEMD160 (buf : bytes) : hasher state := mkHasher Initialize buf 0.

Definition Write (h : hasher state) (data : bytes) : hasher state := HashBuffer.Write h data.

Definition output (s : state) : bytes :=
  arith_uint256.WriteLE32 (s0 s) ++ arith_uint256.WriteLE32 (s1 s) ++ arith_uint256.WriteLE32 (s2 s) ++
  arith_uint256.WriteLE32 (s3 s) ++ arith_uint256.WriteLE32 (s4 s).

Definition Finalize (h : hasher state) : hasher state * bytes :=
  let h' := finish Write WriteLE64 h in (h', output (hs h')).

Definition Reset (h : hasher state) : hasher state := mkHasher Initialize (hbuf h) 0.

(** ** The specification *)

Module Spec.

(** Boolean function and constant of each round, for the two lines *)
Definition left_round : list ((Z -> Z -> Z -> Z) * Z) :=
  [(f1, 0); (f2, 0x5A827999); (f3, 0x6ED9EBA1); (f4, 0x8F1BBCDC); (f5, 0xA953FD4E)].
Definition right_round : list ((Z -> Z -> Z -> Z) * Z) :=
  [(f5, 0x50A28BE6); (f4, 0x5C4DD124); (f3, 0x6D703EF3); (f2, 0x7A6D76E9); (f1, 0)].

(** Selection of message words *)
Definition r : list (list nat) :=
  [[0; 1; 2; 3; 4; 5; 6; 7; 8; 9; 10; 11; 12; 13; 14; 15];
   [7; 4; 13; 1; 10; 6; 15; 3; 12; 0; 9; 5; 2; 14; 11; 8];
   [3; 10; 14; 4; 9; 15; 8; 1; 2; 7; 0; 6; 13; 11; 5; 12];
   [1; 9; 11; 10; 0; 8; 12; 4; 13; 3; 7; 15; 14; 5; 6; 2];
   [4; 0; 5; 9; 7; 12; 2; 10; 14; 1; 3; 8; 11; 6; 15; 13]]%nat.
Definition r' : list (list nat) :=
  [[5; 14; 7; 0; 9; 2; 11; 4; 13; 6; 15; 8; 1; 10; 3; 12];
   [6; 11; 3; 7; 0; 13; 5; 10; 14; 15; 8; 12; 4; 9; 1; 2];
   [15; 5; 1; 3; 7; 14; 6; 9; 11; 8; 12; 2; 10; 0; 4; 13];
   [8; 6; 4; 1; 3; 11; 15; 0; 5; 12; 2; 13; 9; 7; 10; 14];
   [12; 15; 10; 4; 1; 5; 8; 7; 6; 2; 13; 14; 0; 3; 9; 11]]%nat.

(** Amounts of rotation *)
Definition s : list (list Z) :=
  [[11; 14; 15; 12; 5; 8; 7; 9; 11; 13; 14; 15; 6; 7; 9; 8];
   [7; 6; 8; 13; 11; 9; 7; 15; 7; 12; 15; 9; 11; 7; 13; 12];
   [11; 13; 6; 7; 14; 9; 13; 15; 14; 8; 13; 6; 5; 12; 7; 5];
   [11; 12; 14; 15; 14; 15; 9; 8; 9; 14; 5; 6; 8; 6; 5; 12];
   [9; 15; 5; 11; 6; 8; 13; 12; 5; 12; 13; 14; 11; 8; 5; 6]].
Definition s' : list (list Z) :=
  [[8; 9; 9; 11; 13; 15; 15; 5; 7; 7; 8; 11; 14; 14; 12; 6];
   [9; 13; 15; 7; 12; 8; 9; 11; 7; 7; 12; 7; 6; 15; 13; 11];
   [9; 7; 15; 11; 8; 6; 6; 14; 12; 13; 5; 14; 13; 13; 7; 5];
   [15; 5; 8; 11; 14; 14; 6; 14; 6; 9; 12; 9; 12; 5; 15; 8];
   [8; 5; 12; 9; 12; 5; 14; 6; 8; 13; 6; 5; 15; 13; 11; 11]].

Definition step (X : list Z) (st : state) (f : Z -> Z -> Z -> Z) (k : Z) (ri : nat) (si : Z) : state :=
  let '(mkState A B C D E) := st in
  let T := u32 (rol (u32 (A + f B C D + nth ri X 0 + k)) si + E) in
  mkState E T B (rol C 10) D.

(** The steps of one round, both lines side by side *)
Fixpoint steps (X : list Z) (fk fk' : (Z -> Z -> Z -> Z) * Z) (rs rs' : list nat) (ss ss' : list Z)
    (st : state * state) : state * state :=
  match rs, rs', ss, ss' with
  | ri :: rs, ri' :: rs', si :: ss, si' :: ss' =>
    steps X fk fk' rs rs' ss ss'
      (step X st.1 fk.1 fk.2 ri si, step X st.2 fk'.1 fk'.2 ri' si')
  | _, _, _, _ => st
  end.

Definition round (X : list Z) (j : nat) (st : state * state) : state * state :=
  steps X (nth j left_round (f1, 0)) (nth j right_round (f1, 0))
        (nth j r []) (nth j r' []) (nth j s []) (nth j s' []) st.

Definition block_words (chunk : bytes) : list Z :=
  map (fun i => ReadLE32 chunk (4 * i)) (seq 0 16).

Definition compression (h : state) (X : list Z) : state :=
  let '(x, y) := fold_left (fun st j => round X j st) (seq 0 5) (h, h) in
  mkState (u32 (s1 h + s2 x + s3 y)) (u32 (s2 h + s3 x + s4 y)) (u32 (s3 h + s4 x + s0 y))
          (u32 (s4 h + s0 x + s1 y)) (u32 (s0 h + s1 x + s2 y)).

Fixpoint blocks (n : nat) (h : state) (m : bytes) : state :=
  match n with
  | O => h
  | S n' => blocks n' (compression h (block_words m)) (drop 64 m)
  end.

Definition RIPEMD160 (m : bytes) : bytes :=
  let p := padded WriteLE64 m in output (blocks (length p / 64) Initialize p).

End Spec.

(** ** The unrolled code against the specification *)

Section unroll.
Context {R : Type} (F : state * state -> R).

Lemma rmd_Round_eq a b c d e f x y k r (q1 q2 : Z -> Z -> R) :
  x = y -> (forall a' c', q1 a' c' = q2 a' c') -> Round a b c d e f x k r q1 = Round a b c d e f y k r q2.
Proof. intros -> E. apply E. Qed.

Lemma steps_cons X f k f' k' ri rs ri' rs' si ss si' ss' a1 b1 c1 d1 e1 a2 b2 c2 d2 e2 :
  F (Spec.steps X (f, k) (f', k') (ri :: rs) (ri' :: rs') (si :: ss) (si' :: ss')
       (mkState a1 b1 c1 d1 e1, mkState a2 b2 c2 d2 e2)) =
  Round a1 b1 c1 d1 e1 (f b1 c1 d1) (nth ri X 0) k si (fun a1 c1 =>
  Round a2 b2 c2 d2 e2 (f' b2 c2 d2) (nth ri' X 0) k' si' (fun a2 c2 =>
  F (Spec.steps X (f, k) (f', k') rs rs' ss ss'
       (mkState e1 a1 b1 c1 d1, mkState e2 a2 b2 c2 d2)))).
Proof. reflexivity. Qed.

End unroll.

Ltac unroll_round :=
  intros; cbv delta [Spec.round Spec.r Spec.r' Spec.s Spec.s' Spec.left_round Spec.right_round] beta;
  cbn [nth];
  repeat (rewrite steps_cons; apply rmd_Round_eq; [reflexivity | intros ? ?];
          apply rmd_Round_eq; [reflexivity | intros ? ?]);
  reflexivity.


Lemma Transform_round1_spec {R} (F : state * state -> R) w0 w1 w2 w3 w4 w5 w6 w7 w8 w9 w10 w11 w12 w13 w14 w15 a1 b1 c1 d1 e1 a2 b2 c2 d2 e2 :
  Transform_round1 w0 w1 w2 w3 w4 w5 w6 w7 w8 w9 w10 w11 w12 w13 w14 w15 a1 b1 c1 d1 e1 a2 b2 c2 d2 e2
    (fun a1 b1 c1 d1 e1 a2 b2 c2 d2 e2 => F (mkState e1 a1 b1 c1 d1, mkState e2 a2 b2 c2 d2)) =
  F (Spec.round [w0; w1; w2; w3; w4; w5; w6; w7; w8; w9; w10; w11; w12; w13; w14; w15] 0 (mkState a1 b1 c1 d1 e1, mkState a2 b2 c2 d2 e2)).
Proof. unfold Transform_round1, R11, R12. unroll_round. Qed.

Lemma Transform_round2_spec {R} (F : state * state -> R) w0 w1 w2 w3 w4 w5 w6 w7 w8 w9 w10 w11 w12 w13 w14 w15 a1 b1 c1 d1 e1 a2 b2 c2 d2 e2 :
  Transform_round2 w0 w1 w2 w3 w4 w5 w6 w7 w8 w9 w10 w11 w12 w13 w14 w15 a1 b1 c1 d1 e1 a2 b2 c2 d2 e2
    (fun a1 b1 c1 d1 e1 a2 b2 c2 d2 e2 => F (mkState d1 e1 a1 b1 c1, mkState d2 e2 a2 b2 c2)) =
  F (Spec.round [w0; w1; w2; w3; w4; w5; w6; w7; w8; w9; w10; w11; w12; w13; w14; w15] 1 (mkState e1 a1 b1 c1 d1, mkState e2 a2 b2 c2 d2)).
Proof. unfold Transform_round2, R21, R22. unroll_round. Qed.

Lemma Transform_round3_spec {R} (F : state * state -> R) w0 w1 w2 w3 w4 w5 w6 w7 w8 w9 w10 w11 w12 w13 w14 w15 a1 b1 c1 d1 e1 a2 b2 c2 d2 e2 :
  Transform_round3 w0 w1 w2 w3 w4 w5 w6 w7 w8 w9 w10 w11 w12 w13 w14 w15 a1 b1 c1 d1 e1 a2 b2 c2 d2 e2
    (fun a1 b1 c1 d1 e1 a2 b2 c2 d2 e2 => F (mkState c1 d1 e1 a1 b1, mkState c2 d2 e2 a2 b2)) =
  F (Spec.round [w0; w1; w2; w3; w4; w5; w6; w7; w8; w9; w10; w11; w12; w13; w14; w15] 2 (mkState d1 e1 a1 b1 c1, mkState d2 e2 a2 b2 c2)).
Proof. unfold Transform_round3, R31, R32. unroll_round. Qed.

Lemma Transform_round4_spec {R} (F : state * state -> R) w0 w1 w2 w3 w4 w5 w6 w7 w8 w9 w10 w11 w12 w13 w14 w15 a1 b1 c1 d1 e1 a2 b2 c2 d2 e2 :
  Transform_round4 w0 w1 w2 w3 w4 w5 w6 w7 w8 w9 w10 w11 w12 w13 w14 w15 a1 b1 c1 d1 e1 a2 b2 c2 d2 e2
    (fun a1 b1 c1 d1 e1 a2 b2 c2 d2 e2 => F (mkState b1 c1 d1 e1 a1, mkState b2 c2 d2 e2 a2)) =
  F (Spec.round [w0; w1; w2; w3; w4; w5; w6; w7; w8; w9; w10; w11; w12; w13; w14; w15] 3 (mkState c1 d1 e1 a1 b1, mkState c2 d2 e2 a2 b2)).
Proof. unfold Transform_round4, R41, R42. unroll_round. Qed.

Lemma Transform_round5_spec {R} (F : state * state -> R) w0 w1 w2 w3 w4 w5 w6 w7 w8 w9 w10 w11 w12 w13 w14 w15 a1 b1 c1 d1 e1 a2 b2 c2 d2 e2 :
  Transform_round5 w0 w1 w2 w3 w4 w5 w6 w7 w8 w9 w10 w11 w12 w13 w14 w15 a1 b1 c1 d1 e1 a2 b2 c2 d2 e2
    (fun a1 b1 c1 d1 e1 a2 b2 c2 d2 e2 => F (mkState a1 b1 c1 d1 e1, mkState a2 b2 c2 d2 e2)) =
  F (Spec.round [w0; w1; w2; w3; w4; w5; w6; w7; w8; w9; w10; w11; w12; w13; w14; w15] 4 (mkState b1 c1 d1 e1 a1, mkState b2 c2 d2 e2 a2)).
Proof. unfold Transform_round5, R51, R52. unroll_round. Qed.

(** A round depends on its continuation only through its values. *)
Ltac round_congruence :=
  intros; repeat (apply rmd_Round_eq; [reflexivity | intros ? ?]); auto.

Lemma Transform_round1_eq {R} (F G : Z -> Z -> Z -> Z -> Z -> Z -> Z -> Z -> Z -> Z -> R) w0 w1 w2 w3 w4 w5 w6 w7 w8 w9 w10 w11 w12 w13 w14 w15 a1 b1 c1 d1 e1 a2 b2 c2 d2 e2 :
  (forall a1 b1 c1 d1 e1 a2 b2 c2 d2 e2, F a1 b1 c1 d1 e1 a2 b2 c2 d2 e2 = G a1 b1 c1 d1 e1 a2 b2 c2 d2 e2) ->
  Transform_round1 w0 w1 w2 w3 w4 w5 w6 w7 w8 w9 w10 w11 w12 w13 w14 w15 a1 b1 c1 d1 e1 a2 b2 c2 d2 e2 F = Transform_round1 w0 w1 w2 w3 w4 w5 w6 w7 w8 w9 w10 w11 w12 w13 w14 w15 a1 b1 c1 d1 e1 a2 b2 c2 d2 e2 G.
Proof. unfold Transform_round1, R11, R12. round_congruence. Qed.

Lemma Transform_round2_eq {R} (F G : Z -> Z -> Z -> Z -> Z -> Z -> Z -> Z -> Z -> Z -> R) w0 w1 w2 w3 w4 w5 w6 w7 w8 w9 w10 w11 w12 w13 w14 w15 a1 b1 c1 d1 e1 a2 b2 c2 d2 e2 :
  (forall a1 b1 c1 d1 e1 a2 b2 c2 d2 e2, F a1 b1 c1 d1 e1 a2 b2 c2 d2 e2 = G a1 b1 c1 d1 e1 a2 b2 c2 d2 e2) ->
  Transform_round2 w0 w1 w2 w3 w4 w5 w6 w7 w8 w9 w10 w11 w12 w13 w14 w15 a1 b1 c1 d1 e1 a2 b2 c2 d2 e2 F = Transform_round2 w0 w1 w2 w3 w4 w5 w6 w7 w8 w9 w10 w11 w12 w13 w14 w15 a1 b1 c1 d1 e1 a2 b2 c2 d2 e2 G.
Proof. unfold Transform_round2, R21, R22. round_congruence. Qed.

Lemma Transform_round3_eq {R} (F G : Z -> Z -> Z -> Z -> Z -> Z -> Z -> Z -> Z -> Z -> R) w0 w1 w2 w3 w4 w5 w6 w7 w8 w9 w10 w11 w12 w13 w14 w15 a1 b1 c1 d1 e1 a2 b2 c2 d2 e2 :
  (forall a1 b1 c1 d1 e1 a2 b2 c2 d2 e2, F a1 b1 c1 d1 e1 a2 b2 c2 d2 e2 = G a1 b1 c1 d1 e1 a2 b2 c2 d2 e2) ->
  Transform_round3 w0 w1 w2 w3 w4 w5 w6 w7 w8 w9 w10 w11 w12 w13 w14 w15 a1 b1 c1 d1 e1 a2 b2 c2 d2 e2 F = Transform_round3 w0 w1 w2 w3 w4 w5 w6 w7 w8 w9 w10 w11 w12 w13 w14 w15 a1 b1 c1 d1 e1 a2 b2 c2 d2 e2 G.
Proof. unfold Transform_round3, R31, R32. round_congruence. Qed.

Lemma Transform_round4_eq {R} (F G : Z -> Z -> Z -> Z -> Z -> Z -> Z -> Z -> Z -> Z -> R) w0 w1 w2 w3 w4 w5 w6 w7 w8 w9 w10 w11 w12 w13 w14 w15 a1 b1 c1 d1 e1 a2 b2 c2 d2 e2 :
  (forall a1 b1 c1 d1 e1 a2 b2 c2 d2 e2, F a1 b1 c1 d1 e1 a2 b2 c2 d2 e2 = G a1 b1 c1 d1 e1 a2 b2 c2 d2 e2) ->
  Transform_round4 w0 w1 w2 w3 w4 w5 w6 w7 w8 w9 w10 w11 w12 w13 w14 w15 a1 b1 c1 d1 e1 a2 b2 c2 d2 e2 F = Transform_round4 w0 w1 w2 w3 w4 w5 w6 w7 w8 w9 w10 w11 w12 w13 w14 w15 a1 b1 c1 d1 e1 a2 b2 c2 d2 e2 G.
Proof. unfold Transform_round4, R41, R42. round_congruence. Qed.

(** The combination of the two lines with the chaining value *)
Definition combine_lines (h : state) (st : state * state) : state :=
  let '(x, y) := st in
  mkState (u32 (s1 h + s2 x + s3 y)) (u32 (s2 h + s3 x + s4 y)) (u32 (s3 h + s4 x + s0 y))
          (u32 (s4 h + s0 x + s1 y)) (u32 (s0 h + s1 x + s2 y)).

#[local] Opaque Transform_round1 Transform_round2 Transform_round3 Transform_round4 Transform_round5 Spec.round.

Lemma rmd_Transform_spec s chunk : Transform s chunk = Spec.compression s (Spec.block_words chunk).
Proof.
  unfold Transform, Spec.compression. cbv zeta. cbn [seq fold_left].
  set (X := Spec.block_words chunk).
  transitivity (combine_lines s (Spec.round X 4 (Spec.round X 3 (Spec.round X 2
    (Spec.round X 1 (Spec.round X 0 (s, s))))))); [|reflexivity].
  assert (Es : (s, s) = (mkState (s0 s) (s1 s) (s2 s) (s3 s) (s4 s), mkState (s0 s) (s1 s) (s2 s) (s3 s) (s4 s)))
    by (by destruct s).
  rewrite Es. clear Es.
  etransitivity; [apply Transform_round1_eq; intros |
    apply (Transform_round1_spec (fun st => combine_lines s (Spec.round X 4 (Spec.round X 3 (Spec.round X 2 (Spec.round X 1 st))))))].
  etransitivity; [apply Transform_round2_eq; intros |
    apply (Transform_round2_spec (fun st => combine_lines s (Spec.round X 4 (Spec.round X 3 (Spec.round X 2 st)))))].
  etransitivity; [apply Transform_round3_eq; intros |
    apply (Transform_round3_spec (fun st => combine_lines s (Spec.round X 4 (Spec.round X 3 st))))].
  etransitivity; [apply Transform_round4_eq; intros |
    apply (Transform_round4_spec (fun st => combine_lines s (Spec.round X 4 st)))].
  apply (Transform_round5_spec (combine_lines s)).
Qed.

#[local] Opaque Transform Spec.compression.

#[export] Instance ripemd160_compression_laws : CompressionLaws state.
Proof.
  intros s x y E. unfold compress, ripemd160_compression. rewrite !rmd_Transform_spec. f_equal.
  apply map_ext_in. intros i [_ Hi]%in_seq. unfold ReadLE32, arith_uint256.ReadLE32.
  assert (N : forall j, (j < 4)%nat -> nth j (drop (4 * i) x) 0 = nth j (drop (4 * i) y) 0).
  { intros j Hj. pose proof (f_equal (fun l => l !! (4 * i + j)%nat) E) as L. cbv beta in L.
    rewrite !lookup_take_lt in L by lia. by rewrite !nth_lookup, !lookup_drop, L. }
  by rewrite !N by lia.
Qed.

Lemma absorb_Spec n s m : absorb n s m = Spec.blocks n s m.
Proof.
  revert s m; induction n as [|n IH]; intros s m; [done|]. cbn [absorb Spec.blocks].
  rewrite IH. f_equal. apply rmd_Transform_spec.
Qed.

Lemma rmd_Finalize_spec h m :
  holds Initialize h m -> 8 * Z.of_nat (length m) < 2 ^ 64 -> (Finalize h).2 = Spec.RIPEMD160 m.
Proof.
  intros Hh Hlen. unfold Finalize, Spec.RIPEMD160. cbn [snd].
  rewrite (finish_holds Initialize Write WriteLE64 h m); [| intros; by apply Write_holds | done | done | done].
  unfold hash_of. by rewrite absorb_Spec.
Qed.

Example RIPEMD160_abc :
  Spec.RIPEMD160 [97; 98; 99] =
  [0x8e; 0xb2; 0x08; 0xf7; 0xe0; 0x5d; 0x98; 0x7a; 0x9b; 0x04;
   0x4a; 0x8e; 0x98; 0xc6; 0xb0; 0x87; 0xf1; 0x5a; 0x0b; 0xfc].
Proof. vm_compute. reflexivity. Qed.
