(* ===== verification/Hash.v ===== *)
(** * Hash: the hashes of the node (src/src/hash.{h,cpp}, src/src/crypto/siphash.{h,cpp})

    [CHash256] and [CHash160] combine the hash classes of Sha256 and
    Ripemd160; [Hash] and [Hash160] are their one-shot forms, which give
    block, transaction and script identifiers.  SipHash keys the node's hash
    tables; its two specialised forms for outpoints and identifiers are
    compared with the streaming class. *)

From Stdlib Require Import ZArith List Lia Bool.
From stdpp Require Import base decidable list.
From S2P Require Import Prelude Uint256 Primitives HashBuffer Sha256 Sha1 Ripemd160.
Local Open Scope Z_scope.

(** ** [CHash256] and [CHash160] *)

(** The array [buf] of a new hash object; its contents are indeterminate in
    the source and have no effect. *)
Definition fresh_buf : bytes := repeat 0 64.

Definition CHash256 : hasher Sha256.state := Sha256.CSHA256 fresh_buf.

Definition CHash256_Write (sha : hasher Sha256.state) (data : bytes) : hasher Sha256.state :=
  Sha256.Write sha data.

Definition CHash256_Finalize (sha : hasher Sha256.state) : hasher Sha256.state * bytes :=
  let '(sha', buf) := Sha256.Finalize sha in
  Sha256.Finalize (Sha256.Write (Sha256.Reset sha') buf).

Definition CHash256_Reset (sha : hasher Sha256.state) : hasher Sha256.state := Sha256.Reset sha.

Definition CHash160_Finalize (sha : hasher Sha256.state) : hasher Sha256.state * bytes :=
  let '(sha', buf) := Sha256.Finalize sha in
  (sha', (Ripemd160.Finalize (Ripemd160.Write (Ripemd160.CRIPEMD160 fresh_buf) buf)).2).

(** [Hash(pbegin, pend)] and [Hash(p1begin, p1end, p2begin, p2end)] *)
Definition Hash (b : bytes) : uint256 := (CHash256_Finalize (CHash256_Write CHash256 b)).2.

Definition Hash2 (b1 b2 : bytes) : uint256 :=
  (CHash256_Finalize (CHash256_Write (CHash256_Write CHash256 b1) b2)).2.

Definition Hash160 (b : bytes) : bytes := (CHash160_Finalize (CHash256_Write CHash256 b)).2.

(** ** SipHash *)

(** [ROTL(x, b)] on 64 bits *)
Definition ROTL (x b : Z) : Z := Z.lor (u64 (Z.shiftl x b)) (Z.shiftr x (64 - b)).

Record sipstate := mkSip { v0 : Z; v1 : Z; v2 : Z; v3 : Z }.

Definition SIPROUND (v : sipstate) : sipstate :=
  let '(mkSip v0 v1 v2 v3) := v in
  let v0 := u64 (v0 + v1) in let v1 := ROTL v1 13 in let v1 := Z.lxor v1 v0 in
  let v0 := ROTL v0 32 in
  let v2 := u64 (v2 + v3) in let v3 := ROTL v3 16 in let v3 := Z.lxor v3 v2 in
  let v0 := u64 (v0 + v3) in let v3 := ROTL v3 21 in let v3 := Z.lxor v3 v0 in
  let v2 := u64 (v2 + v1) in let v1 := ROTL v1 17 in let v1 := Z.lxor v1 v2 in
  let v2 := ROTL v2 32 in
  mkSip v0 v1 v2 v3.

(** [v3 ^= d], [v0 ^= d], [v2 ^= d] *)
Definition xor3 (v : sipstate) (d : Z) : sipstate := mkSip (v0 v) (v1 v) (v2 v) (Z.lxor (v3 v) d).
Definition xor0 (v : sipstate) (d : Z) : sipstate := mkSip (Z.lxor (v0 v) d) (v1 v) (v2 v) (v3 v).
Definition xor2 (v : sipstate) (d : Z) : sipstate := mkSip (v0 v) (v1 v) (Z.lxor (v2 v) d) (v3 v).

(** [v0 ^ v1 ^ v2 ^ v3] *)
Definition xor_all (v : sipstate) : Z := Z.lxor (Z.lxor (Z.lxor (v0 v) (v1 v)) (v2 v)) (v3 v).

Record CSipHasher := mkSipHasher { sip_v : sipstate; sip_tmp : Z; sip_count : Z }.

Definition CSipHasher_new (k0 k1 : Z) : CSipHasher :=
  mkSipHasher (mkSip (Z.lxor 0x736f6d6570736575 k0) (Z.lxor 0x646f72616e646f6d k1)
                     (Z.lxor 0x6c7967656e657261 k0) (Z.lxor 0x7465646279746573 k1)) 0 0.

(** [CSipHasher::Write(uint64_t)]; [Fail] is the failed assertion. *)
Definition Sip_Write64 (h : CSipHasher) (data : Z) : outcome CSipHasher :=
  if Z.rem (sip_count h) 8 =? 0 then
    let v := xor3 (sip_v h) data in
    let v := SIPROUND v in
    let v := SIPROUND v in
    let v := xor0 v data in
    Ok (mkSipHasher v (sip_tmp h) (s32 (sip_count h + 8)))
  else Fail.

(** The loop of [CSipHasher::Write(data, size)] *)
Fixpoint Sip_Write_loop (v : sipstate) (t c : Z) (data : bytes) : sipstate * Z * Z :=
  match data with
  | [] => (v, t, c)
  | b :: data' =>
    let t := Z.lor t (u64 (Z.shiftl b (8 * Z.rem c 8))) in
    let c := s32 (c + 1) in
    if Z.land c 7 =? 0 then
      let v := xor3 v t in
      let v := SIPROUND v in
      let v := SIPROUND v in
      let v := xor0 v t in
      Sip_Write_loop v 0 c data'
    else Sip_Write_loop v t c data'
  end.

Definition Sip_Write (h : CSipHasher) (data : bytes) : CSipHasher :=
  let '(v, t, c) := Sip_Write_loop (sip_v h) (sip_tmp h) (sip_count h) data in
  mkSipHasher v t c.

Definition Sip_Finalize (h : CSipHasher) : Z :=
  let v := sip_v h in
  let t := Z.lor (sip_tmp h) (u64 (Z.shiftl (u64 (sip_count h)) 56)) in
  let v := xor3 v t in
  let v := SIPROUND v in
  let v := SIPROUND v in
  let v := xor0 v t in
  let v := xor2 v 0xFF in
  let v := SIPROUND v in
  let v := SIPROUND v in
  let v := SIPROUND v in
  let v := SIPROUND v in
  xor_all v.

(** [base_blob::GetUint64(pos)] *)
Definition GetUint64 (data : uint256) (pos : nat) : Z :=
  let ptr := drop (pos * 8) data in
  Z.lor (Z.lor (Z.lor (Z.lor (Z.lor (Z.lor (Z.lor
    (nth 0 ptr 0) (Z.shiftl (nth 1 ptr 0) 8)) (Z.shiftl (nth 2 ptr 0) 16)) (Z.shiftl (nth 3 ptr 0) 24))
    (Z.shiftl (nth 4 ptr 0) 32)) (Z.shiftl (nth 5 ptr 0) 40)) (Z.shiftl (nth 6 ptr 0) 48))
    (Z.shiftl (nth 7 ptr 0) 56).

Definition SipHashUint256 (k0 k1 : Z) (val : uint256) : Z :=
  let d := GetUint64 val 0 in
  let v := mkSip (Z.lxor 0x736f6d6570736575 k0) (Z.lxor 0x646f72616e646f6d k1)
                 (Z.lxor 0x6c7967656e657261 k0) (Z.lxor (Z.lxor 0x7465646279746573 k1) d) in
  let v := SIPROUND v in
  let v := SIPROUND v in
  let v := xor0 v d in
  let d := GetUint64 val 1 in
  let v := xor3 v d in
  let v := SIPROUND v in
  let v := SIPROUND v in
  let v := xor0 v d in
  let d := GetUint64 val 2 in
  let v := xor3 v d in
  let v := SIPROUND v in
  let v := SIPROUND v in
  let v := xor0 v d in
  let d := GetUint64 val 3 in
  let v := xor3 v d in
  let v := SIPROUND v in
  let v := SIPROUND v in
  let v := xor0 v d in
  let v := xor3 v (u64 (Z.shiftl 4 59)) in
  let v := SIPROUND v in
  let v := SIPROUND v in
  let v := xor0 v (u64 (Z.shiftl 4 59)) in
  let v := xor2 v 0xFF in
  let v := SIPROUND v in
  let v := SIPROUND v in
  let v := SIPROUND v in
  let v := SIPROUND v in
  xor_all v.

Definition SipHashUint256Extra (k0 k1 : Z) (val : uint256) (extra : Z) : Z :=
  let d := GetUint64 val 0 in
  let v := mkSip (Z.lxor 0x736f6d6570736575 k0) (Z.lxor 0x646f72616e646f6d k1)
                 (Z.lxor 0x6c7967656e657261 k0) (Z.lxor (Z.lxor 0x7465646279746573 k1) d) in
  let v := SIPROUND v in
  let v := SIPROUND v in
  let v := xor0 v d in
  let d := GetUint64 val 1 in
  let v := xor3 v d in
  let v := SIPROUND v in
  let v := SIPROUND v in
  let v := xor0 v d in
  let d := GetUint64 val 2 in
  let v := xor3 v d in
  let v := SIPROUND v in
  let v := SIPROUND v in
  let v := xor0 v d in
  let d := GetUint64 val 3 in
  let v := xor3 v d in
  let v := SIPROUND v in
  let v := SIPROUND v in
  let v := xor0 v d in
  let d := Z.lor (u64 (Z.shiftl 36 56)) extra in
  let v := xor3 v d in
  let v := SIPROUND v in
  let v := SIPROUND v in
  let v := xor0 v d in
  let v := xor2 v 0xFF in
  let v := SIPROUND v in
  let v := SIPROUND v in
  let v := SIPROUND v in
  let v := SIPROUND v in
  xor_all v.

(** ** MurmurHash3 *)

Definition ROTL32 (x r : Z) : Z := Z.lor (u32 (Z.shiftl x r)) (Z.shiftr x (32 - r)).

Definition murmur_c1 : Z := 0xcc9e2d51.
Definition murmur_c2 : Z := 0x1b873593.

(** [k1 *= c1; k1 = ROTL32(k1, 15); k1 *= c2;] *)
Definition murmur_k1 (k1 : Z) : Z := u32 (ROTL32 (u32 (k1 * murmur_c1)) 15 * murmur_c2).

(** The loop over the four-byte blocks *)
Fixpoint murmur_body (nblocks : nat) (h1 : Z) (blocks : bytes) : Z :=
  match nblocks with
  | O => h1
  | S n =>
    let k1 := murmur_k1 (arith_uint256.ReadLE32 blocks) in
    let h1 := Z.lxor h1 k1 in
    let h1 := ROTL32 h1 13 in
    let h1 := u32 (h1 * 5 + 0xe6546b64) in
    murmur_body n h1 (drop 4 blocks)
  end.

(** The [switch] on the number of left-over bytes, with its fall-throughs *)
Definition murmur_tail (h1 : Z) (tail : bytes) : Z :=
  let k1 := 0 in
  match tail with
  | [t0; t1; t2] =>
    let k1 := Z.lxor k1 (Z.shiftl t2 16) in
    let k1 := Z.lxor k1 (Z.shiftl t1 8) in
    Z.lxor h1 (murmur_k1 (Z.lxor k1 t0))
  | [t0; t1] =>
    let k1 := Z.lxor k1 (Z.shiftl t1 8) in
    Z.lxor h1 (murmur_k1 (Z.lxor k1 t0))
  | [t0] => Z.lxor h1 (murmur_k1 (Z.lxor k1 t0))
  | _ => h1
  end.

Definition MurmurHash3 (nHashSeed : Z) (vDataToHash : bytes) : Z :=
  let nblocks := (length vDataToHash / 4)%nat in
  let h1 := murmur_body nblocks nHashSeed vDataToHash in
  let h1 := murmur_tail h1 (drop (nblocks * 4) vDataToHash) in
  let h1 := Z.lxor h1 (u32 (Z.of_nat (length vDataToHash))) in
  let h1 := Z.lxor h1 (Z.shiftr h1 16) in
  let h1 := u32 (h1 * 0x85ebca6b) in
  let h1 := Z.lxor h1 (Z.shiftr h1 13) in
  let h1 := u32 (h1 * 0xc2b2ae35) in
  Z.lxor h1 (Z.shiftr h1 16).

(** ** Correctness *)

Lemma length_SHA256 m : length (Sha256.FIPS.SHA256 m) = 32%nat.
Proof. reflexivity. Qed.

Lemma CHash256_new_holds : holds Sha256.Initialize CHash256 [].
Proof. by apply holds_init. Qed.

(** A finalized object can be reset. *)
Lemma Finalize_buf h m :
  holds Sha256.Initialize h m -> length (hbuf (Sha256.Finalize h).1) = 64%nat.
Proof.
  intros Hh. unfold Sha256.Finalize, finish. cbn [fst].
  apply (holds_buf Sha256.Initialize _ ((m ++ pad_bytes (pad_length (hbytes h)))
           ++ WriteBE64 (u64 (Z.shiftl (hbytes h) 3)))).
  by do 2 apply Sha256.Write_takes_in.
Qed.

Lemma Finalize_digest h : bytes_ok (Sha256.Finalize h).2 /\ length (Sha256.Finalize h).2 = 32%nat.
Proof.
  unfold Sha256.Finalize. cbn [snd]. generalize (hs (finish Sha256.Write WriteBE64 h)). intros s.
  split; [|done]. unfold Sha256.output, WriteBE32. repeat (apply Forall_app; split).
  all: repeat constructor; by apply wrap_range.
Qed.

(** A hash is 32 bytes, whatever is hashed. *)
Lemma Hash_digest b : bytes_ok (Hash b) /\ length (Hash b) = 32%nat.
Proof.
  unfold Hash, CHash256_Finalize. destruct (Sha256.Finalize (CHash256_Write CHash256 b)). apply Finalize_digest.
Qed.

#[local] Opaque Sha256.Finalize Sha256.Write Sha256.FIPS.SHA256 Ripemd160.Finalize Ripemd160.Spec.RIPEMD160.

Lemma CHash256_Finalize_spec h m :
  holds Sha256.Initialize h m -> 8 * Z.of_nat (length m) < 2 ^ 64 ->
  (CHash256_Finalize h).2 = Sha256.FIPS.SHA256 (Sha256.FIPS.SHA256 m).
Proof.
  intros Hh Hlen. unfold CHash256_Finalize.
  pose proof (Finalize_buf h m Hh) as Hb. pose proof (Sha256.Finalize_spec h m Hh Hlen) as Hd.
  destruct (Sha256.Finalize h) as [h' d]. cbn [fst snd] in *. rewrite Hd.
  apply Sha256.Finalize_spec; [|rewrite length_SHA256; lia].
  by apply (Sha256.Write_takes_in Sha256.Initialize (Sha256.Reset h') []), holds_init.
Qed.

Lemma CHash160_Finalize_spec h m :
  holds Sha256.Initialize h m -> 8 * Z.of_nat (length m) < 2 ^ 64 ->
  (CHash160_Finalize h).2 = Ripemd160.Spec.RIPEMD160 (Sha256.FIPS.SHA256 m).
Proof.
  intros Hh Hlen. unfold CHash160_Finalize.
  pose proof (Sha256.Finalize_spec h m Hh Hlen) as Hd.
  destruct (Sha256.Finalize h) as [h' d]. cbn [fst snd] in *. rewrite Hd.
  apply Ripemd160.rmd_Finalize_spec; [|rewrite length_SHA256; lia].
  by apply (HashBuffer.Write_holds Ripemd160.Initialize (Ripemd160.CRIPEMD160 fresh_buf) []), holds_init.
Qed.

Lemma Hash_spec b :
  8 * Z.of_nat (length b) < 2 ^ 64 -> Hash b = Sha256.FIPS.SHA256 (Sha256.FIPS.SHA256 b).
Proof.
  intros. apply CHash256_Finalize_spec; [|done].
  by apply (Sha256.Write_takes_in Sha256.Initialize CHash256 []), CHash256_new_holds.
Qed.

Lemma Hash2_spec b1 b2 :
  8 * Z.of_nat (length (b1 ++ b2)) < 2 ^ 64 ->
  Hash2 b1 b2 = Sha256.FIPS.SHA256 (Sha256.FIPS.SHA256 (b1 ++ b2)).
Proof.
  intros. apply CHash256_Finalize_spec; [|done]. apply (Sha256.Write_takes_in Sha256.Initialize _ b1).
  by apply (Sha256.Write_takes_in Sha256.Initialize CHash256 []), CHash256_new_holds.
Qed.

Lemma Hash160_spec b :
  8 * Z.of_nat (length b) < 2 ^ 64 -> Hash160 b = Ripemd160.Spec.RIPEMD160 (Sha256.FIPS.SHA256 b).
Proof.
  intros. apply CHash160_Finalize_spec; [|done].
  by apply (Sha256.Write_takes_in Sha256.Initialize CHash256 []), CHash256_new_holds.
Qed.

(** *** SipHash *)

(** One eight-byte word taken in *)
Definition sip_block (v : sipstate) (d : Z) : sipstate := xor0 (SIPROUND (SIPROUND (xor3 v d))) d.

Lemma land_7 c : 0 <= c -> Z.land c 7 = c mod 8.
Proof. intros. apply (Z.land_ones c 3). lia. Qed.

Lemma Sip_Write_step v t c i b data :
  0 <= c -> c mod 8 = 0 -> c + 8 < 2 ^ 31 -> 0 <= i < 8 -> in_u 8 b ->
  Sip_Write_loop v t (c + i) (b :: data) =
  let t' := Z.lor t (Z.shiftl b (8 * i)) in
  if i =? 7 then Sip_Write_loop (sip_block v t') 0 (c + 8) data
  else Sip_Write_loop v t' (c + (i + 1)) data.
Proof.
  intros Hc Hm Hb Hi Hbyte. cbn [Sip_Write_loop].
  assert (Er : Z.rem (c + i) 8 = i).
  { rewrite Z.rem_mod_nonneg, Z.add_mod, Hm, Z.add_0_l, Z.mod_mod, Z.mod_small; lia. }
  assert (Ec : s32 (c + i + 1) = c + (i + 1)) by (rewrite swrap_small; [lia | lia | unfold in_s; lia]).
  rewrite Er, Ec, land_7 by lia.
  assert (Es : u64 (Z.shiftl b (8 * i)) = Z.shiftl b (8 * i)).
  { apply wrap_small. rewrite Z.shiftl_mul_pow2 by lia. unfold in_u in *.
    assert (2 ^ 64 = 2 ^ (64 - 8 * i) * 2 ^ (8 * i)) by (rewrite <- Z.pow_add_r by lia; f_equal; lia).
    assert (2 ^ 8 <= 2 ^ (64 - 8 * i)) by (apply Z.pow_le_mono_r; lia).
    assert (0 < 2 ^ (8 * i)) by (apply Z.pow_pos_nonneg; lia). nia. }
  rewrite Es. cbv zeta.
  destruct (Z.eqb_spec i 7) as [->|Hne].
  - change (7 + 1) with 8. rewrite Z.add_mod, Hm by lia. reflexivity.
  - destruct (Z.eqb_spec ((c + (i + 1)) mod 8) 0) as [E|]; [|done].
    rewrite Z.add_mod, Hm, Z.add_0_l, Z.mod_mod, Z.mod_small in E; lia.
Qed.

Ltac sip_byte i j :=
  rewrite (Sip_Write_step _ _ _ i) by (done || lia); cbv zeta;
  change (i =? 7) with false; cbv iota; change (i + 1) with j.

Lemma Sip_Write_word v c b0 b1 b2 b3 b4 b5 b6 b7 data :
  0 <= c -> c mod 8 = 0 -> c + 8 < 2 ^ 31 -> bytes_ok [b0; b1; b2; b3; b4; b5; b6; b7] ->
  Sip_Write_loop v 0 c (b0 :: b1 :: b2 :: b3 :: b4 :: b5 :: b6 :: b7 :: data) =
  Sip_Write_loop (sip_block v (GetUint64 [b0; b1; b2; b3; b4; b5; b6; b7] 0)) 0 (c + 8) data.
Proof.
  intros Hc Hm Hb Hok. repeat (apply Forall_cons in Hok as [? Hok]).
  rewrite <- (Z.add_0_r c) at 1.
  sip_byte 0 1. sip_byte 1 2. sip_byte 2 3. sip_byte 3 4. sip_byte 4 5. sip_byte 5 6. sip_byte 6 7.
  rewrite (Sip_Write_step _ _ c 7) by (done || lia). cbv zeta. change (7 =? 7) with true. cbv iota.
  unfold GetUint64. cbn [nth drop Nat.mul]. by rewrite Z.lor_0_l, Z.shiftl_0_r.
Qed.

Ltac sip_side :=
  first [lia | reflexivity | unfold bytes_ok; repeat (apply Forall_cons_2; [assumption|]); apply Forall_nil_2].

Lemma GetUint64_drop val i : GetUint64 val i = GetUint64 (take 8 (drop (i * 8) val)) 0.
Proof.
  unfold GetUint64. rewrite !Nat.mul_0_l, !drop_0.
  by rewrite !(nth_lookup (take _ _)), !lookup_take_lt, <- !nth_lookup by lia.
Qed.

(** Thirty-two bytes are four words. *)
Lemma Sip_Write_uint256 v val data :
  length val = 32%nat -> bytes_ok val ->
  Sip_Write_loop v 0 0 (val ++ data) =
  Sip_Write_loop (sip_block (sip_block (sip_block (sip_block v (GetUint64 val 0))
    (GetUint64 val 1)) (GetUint64 val 2)) (GetUint64 val 3)) 0 32 data.
Proof.
  intros L Hok. rewrite !(GetUint64_drop val).
  do 32 (destruct val as [|? val]; [discriminate L|]). destruct val; [|discriminate L].
  repeat (apply Forall_cons in Hok as [? Hok]). cbn [app Nat.mul Nat.add drop take].
  rewrite (Sip_Write_word v 0) by sip_side.
  rewrite (Sip_Write_word _ 8) by sip_side.
  rewrite (Sip_Write_word _ 16) by sip_side.
  rewrite (Sip_Write_word _ 24) by sip_side.
  reflexivity.
Qed.

Lemma Sip_Write_extra v extra :
  in_u 32 extra ->
  Sip_Write_loop v 0 32 (arith_uint256.WriteLE32 extra) = (v, extra, 36).
Proof.
  intros He. pose proof (arith_uint256.read_write_LE32 extra [] He) as Hr.
  unfold arith_uint256.WriteLE32 in *. cbn [app] in Hr.
  assert (B : forall x, in_u 8 (u8 x)) by (intros; by apply wrap_range).
  change 32 with (32 + 0).
  sip_byte 0 1. sip_byte 1 2. sip_byte 2 3. sip_byte 3 4.
  unfold arith_uint256.ReadLE32 in Hr. cbn [nth] in Hr. cbn [Sip_Write_loop].
  rewrite Z.lor_0_l, Z.shiftl_0_r. change (8 * 1) with 8. change (8 * 2) with 16. change (8 * 3) with 24.
  by rewrite Hr.
Qed.

#[local] Opaque SIPROUND xor0 xor2 xor_all.

(** ** Theorems *)

(** [Hash] is double SHA-256 and [Hash160] RIPEMD-160 of SHA-256, and
    hashing two byte strings in turn hashes their concatenation. *)
Theorem Hash_functions_meet_standards b1 b2 :
  8 * Z.of_nat (length (b1 ++ b2)) < 2 ^ 64 ->
  Hash b1 = Sha256.FIPS.SHA256 (Sha256.FIPS.SHA256 b1) /\
  Hash2 b1 b2 = Hash (b1 ++ b2) /\
  Hash160 b1 = Ripemd160.Spec.RIPEMD160 (Sha256.FIPS.SHA256 b1).
Proof.
  intros Hlen. pose proof (length_app b1 b2).
  split_and!; [apply Hash_spec; lia | by rewrite Hash2_spec, Hash_spec | apply Hash160_spec; lia].
Qed.

Lemma Hash_functions_meet_standards_witness :
  Hash [1; 2] = Sha256.FIPS.SHA256 (Sha256.FIPS.SHA256 [1; 2]) /\
  Hash2 [1; 2] [3] = Hash ([1; 2] ++ [3]) /\
  Hash160 [1; 2] = Ripemd160.Spec.RIPEMD160 (Sha256.FIPS.SHA256 [1; 2]).
Proof. apply (Hash_functions_meet_standards [1; 2] [3]). reflexivity. Defined.

(** The specialised SipHash of a [uint256], and of a [uint256] with a
    32-bit extra value, are the streaming SipHash-2-4 of the 32 bytes, and of
    the 32 bytes followed by the extra value in little endian. *)
Theorem SipHash_specialisations_agree k0 k1 val extra :
  length val = 32%nat -> bytes_ok val -> in_u 32 extra ->
  SipHashUint256 k0 k1 val = Sip_Finalize (Sip_Write (CSipHasher_new k0 k1) val) /\
  SipHashUint256Extra k0 k1 val extra =
  Sip_Finalize (Sip_Write (CSipHasher_new k0 k1) (val ++ arith_uint256.WriteLE32 extra)).
Proof.
  intros L Hok He. unfold Sip_Write, CSipHasher_new. cbn [sip_v sip_tmp sip_count].
  split.
  - rewrite <- (app_nil_r val) at 2. rewrite Sip_Write_uint256 by done. reflexivity.
  - rewrite Sip_Write_uint256, Sip_Write_extra by done.
    unfold Sip_Finalize. cbn [sip_v sip_tmp sip_count]. rewrite (Z.lor_comm extra). reflexivity.
Qed.

Lemma SipHash_specialisations_agree_witness :
  SipHashUint256 7 9 (repeat 5 32) = Sip_Finalize (Sip_Write (CSipHasher_new 7 9) (repeat 5 32)) /\
  SipHashUint256Extra 7 9 (repeat 5 32) 3 =
  Sip_Finalize (Sip_Write (CSipHasher_new 7 9) (repeat 5 32 ++ arith_uint256.WriteLE32 3)).
Proof.
  apply (SipHash_specialisations_agree 7 9 (repeat 5 32) 3); [reflexivity | | unfold in_u; lia].
  unfold bytes_ok, in_u. repeat constructor; lia.
Defined.
