(* ===== verification/Serialize.v ===== *)
(** * Serialize: the wire format of sizes, vectors, transactions and blocks
    (src/src/serialize.h, and the serialization of src/src/primitives)

    A stream to write to is the bytes written; a stream to read from is the
    bytes left, and reading gives the value and what remains, or [None] for
    the exception [std::ios_base::failure].  Template instances over an
    element type are functions over the element's own reader and writer. *)

From Stdlib Require Import ZArith List Lia Bool.
From stdpp Require Import base decidable list option.
From S2P Require Import Prelude Uint256 Primitives HashBuffer Script Hash.
Local Open Scope Z_scope.

(** ** Lowest level *)

Definition MAX_SIZE : Z := 0x10000000.

(** [s.read(pch, n)] *)
Definition read (n : nat) (s : bytes) : option (bytes * bytes) :=
  if (length s <? n)%nat then None else Some (take n s, drop n s).

Definition ser_writedata8 (obj : Z) : bytes := [u8 obj].
Definition ser_writedata16 (obj : Z) : bytes := WriteLE16 obj.
Definition ser_writedata32 (obj : Z) : bytes := arith_uint256.WriteLE32 obj.
Definition ser_writedata64 (obj : Z) : bytes := WriteLE64 obj.

(** An unsigned integer of [n] bytes, little endian *)
Definition ser_readdata (n : nat) (s : bytes) : option (Z * bytes) :=
  '(b, s) ← read n s; Some (arith_uint256.le_val b, s).

Definition ser_readdata8 (s : bytes) : option (Z * bytes) := ser_readdata 1 s.
Definition ser_readdata16 (s : bytes) : option (Z * bytes) := ser_readdata 2 s.
Definition ser_readdata32 (s : bytes) : option (Z * bytes) := ser_readdata 4 s.
Definition ser_readdata64 (s : bytes) : option (Z * bytes) := ser_readdata 8 s.

(** [Serialize] and [Unserialize] of the integer types *)
Definition Serialize_int32 (a : Z) : bytes := ser_writedata32 (u32 a).
Definition Serialize_uint32 (a : Z) : bytes := ser_writedata32 a.
Definition Serialize_int64 (a : Z) : bytes := ser_writedata64 (u64 a).

Definition Unserialize_int32 (s : bytes) : option (Z * bytes) :=
  '(a, s) ← ser_readdata32 s; Some (s32 a, s).
Definition Unserialize_uint32 (s : bytes) : option (Z * bytes) := ser_readdata32 s.
Definition Unserialize_int64 (s : bytes) : option (Z * bytes) :=
  '(a, s) ← ser_readdata64 s; Some (s64 a, s).

(** ** Compact sizes *)

Definition GetSizeOfCompactSize (nSize : Z) : Z :=
  if nSize <? 253 then 1
  else if nSize <=? 0xffff then 1 + 2
  else if nSize <=? 0xffffffff then 1 + 4
  else 1 + 8.

Definition WriteCompactSize (nSize : Z) : bytes :=
  if nSize <? 253 then ser_writedata8 nSize
  else if nSize <=? 0xffff then ser_writedata8 253 ++ ser_writedata16 nSize
  else if nSize <=? 0xffffffff then ser_writedata8 254 ++ ser_writedata32 nSize
  else ser_writedata8 255 ++ ser_writedata64 nSize.

Definition ReadCompactSize (s : bytes) : option (Z * bytes) :=
  '(chSize, s) ← ser_readdata8 s;
  '(nSizeRet, s) ←
    (if chSize <? 253 then Some (chSize, s)
     else if chSize =? 253 then
       '(n, s) ← ser_readdata16 s; if n <? 253 then None else Some (n, s)
     else if chSize =? 254 then
       '(n, s) ← ser_readdata32 s; if n <? 0x10000 then None else Some (n, s)
     else
       '(n, s) ← ser_readdata64 s; if n <? 0x100000000 then None else Some (n, s));
  if MAX_SIZE <? nSizeRet then None else Some (nSizeRet, s).

(** ** Variable-length integers

    [max] is [std::numeric_limits<I>::max()] of the unsigned type. *)

(** The loop that fills [tmp], least significant digit first *)
Fixpoint varint_tmp (fuel : nat) (n : Z) (len : nat) : bytes :=
  match fuel with
  | O => []
  | S fuel' =>
    let d := Z.lor (Z.land n 0x7F) (if (len =? 0)%nat then 0x00 else 0x80) in
    if n <=? 0x7F then [d] else d :: varint_tmp fuel' (Z.shiftr n 7 - 1) (S len)
  end.

(** [tmp] has ten bytes for the widest type. *)
Definition WriteVarInt (n : Z) : bytes := rev (varint_tmp 10 n 0).

Fixpoint GetSizeOfVarInt_loop (fuel : nat) (n nRet : Z) : Z :=
  match fuel with
  | O => nRet
  | S fuel' =>
    let nRet := nRet + 1 in
    if n <=? 0x7F then nRet else GetSizeOfVarInt_loop fuel' (Z.shiftr n 7 - 1) nRet
  end.

Definition GetSizeOfVarInt (n : Z) : Z := GetSizeOfVarInt_loop 10 n 0.

Fixpoint ReadVarInt_loop (max n : Z) (s : bytes) : option (Z * bytes) :=
  match s with
  | [] => None
  | chData :: s' =>
    if Z.shiftr max 7 <? n then None
    else
      let n := Z.lor (Z.shiftl n 7) (Z.land chData 0x7F) in
      if negb (Z.land chData 0x80 =? 0) then
        if n =? max then None else ReadVarInt_loop max (n + 1) s'
      else Some (n, s')
  end.

Definition ReadVarInt (max : Z) (s : bytes) : option (Z * bytes) := ReadVarInt_loop max 0 s.

(** ** Vectors *)

(** [std::vector<unsigned char>] and [prevector<N, unsigned char>] *)
Definition Serialize_bytes (v : bytes) : bytes :=
  WriteCompactSize (Z.of_nat (length v)) ++ v.

(** The loop that reads at most five million bytes at a time *)
Fixpoint read_blocks (fuel : nat) (v : bytes) (i nSize : Z) (s : bytes) : option (bytes * bytes) :=
  match fuel with
  | O => None
  | S fuel' =>
    if i <? nSize then
      let blk := Z.min (nSize - i) (1 + 4999999) in
      '(b, s) ← read (Z.to_nat blk) s;
      read_blocks fuel' (v ++ b) (i + blk) nSize s
    else Some (v, s)
  end.

Definition Unserialize_bytes (s : bytes) : option (bytes * bytes) :=
  '(nSize, s) ← ReadCompactSize s;
  read_blocks (Z.to_nat (nSize / 5000000 + 2)) [] 0 nSize s.

(** [std::vector<T>] *)
Definition Serialize_vector {A} (ser : A -> bytes) (v : list A) : bytes :=
  WriteCompactSize (Z.of_nat (length v)) ++ concat (map ser v).

Fixpoint read_elements {A} (unser : bytes -> option (A * bytes)) (n : nat) (s : bytes)
    : option (list A * bytes) :=
  match n with
  | O => Some ([], s)
  | S n' =>
    '(a, s) ← unser s;
    '(v, s) ← read_elements unser n' s;
    Some (a :: v, s)
  end.

Definition Unserialize_vector {A} (unser : bytes -> option (A * bytes)) (s : bytes)
    : option (list A * bytes) :=
  '(nSize, s) ← ReadCompactSize s;
  read_elements unser (Z.to_nat nSize) s.

(** ** Transactions *)

(** [base_blob::Serialize] and [Unserialize] *)
Definition Serialize_uint256 (h : uint256) : bytes := h.
Definition Unserialize_uint256 (s : bytes) : option (uint256 * bytes) := read 32 s.

Definition Serialize_COutPoint (o : COutPoint) : bytes :=
  Serialize_uint256 (op_hash o) ++ Serialize_uint32 (op_n o).

Definition Unserialize_COutPoint (s : bytes) : option (COutPoint * bytes) :=
  '(hash, s) ← Unserialize_uint256 s;
  '(n, s) ← Unserialize_uint32 s;
  Some (mkOutPoint hash n, s).

Definition Serialize_CTxIn (i : CTxIn) : bytes :=
  Serialize_COutPoint (prevout i) ++ Serialize_bytes (scriptSig i) ++ Serialize_uint32 (nSequence i).

Definition Unserialize_CTxIn (s : bytes) : option (CTxIn * bytes) :=
  '(prevout, s) ← Unserialize_COutPoint s;
  '(scriptSig, s) ← Unserialize_bytes s;
  '(nSequence, s) ← Unserialize_uint32 s;
  Some (mkTxIn prevout scriptSig nSequence [], s).

Definition Serialize_CTxOut (o : CTxOut) : bytes :=
  Serialize_int64 (nValue o) ++ Serialize_bytes (scriptPubKey o).

Definition Unserialize_CTxOut (s : bytes) : option (CTxOut * bytes) :=
  '(nValue, s) ← Unserialize_int64 s;
  '(scriptPubKey, s) ← Unserialize_bytes s;
  Some (mkTxOut nValue scriptPubKey, s).

(** [s << tx.vin[i].scriptWitness.stack] *)
Definition Serialize_stack (stack : list bytes) : bytes := Serialize_vector Serialize_bytes stack.

Definition Unserialize_stack (s : bytes) : option (list bytes * bytes) :=
  Unserialize_vector Unserialize_bytes s.

(** [fAllowWitness] is the absence of SERIALIZE_TRANSACTION_NO_WITNESS in the
    version of the stream. *)
Definition SerializeTransaction (fAllowWitness : bool) (tx : CTransaction) : bytes :=
  let flags := if fAllowWitness && HasWitness tx then 1 else 0 in
  Serialize_int32 (nVersion tx) ++
  (if flags =? 0 then [] else Serialize_vector Serialize_CTxIn [] ++ ser_writedata8 flags) ++
  Serialize_vector Serialize_CTxIn (vin tx) ++
  Serialize_vector Serialize_CTxOut (vout tx) ++
  (if Z.land flags 1 =? 0 then [] else concat (map (fun i => Serialize_stack (scriptWitness i)) (vin tx))) ++
  Serialize_uint32 (nLockTime tx).

(** [for (i ...) s >> tx.vin[i].scriptWitness.stack] *)
Fixpoint read_witnesses (vin : list CTxIn) (s : bytes) : option (list CTxIn * bytes) :=
  match vin with
  | [] => Some ([], s)
  | i :: vin' =>
    '(stack, s) ← Unserialize_stack s;
    '(rest, s) ← read_witnesses vin' s;
    Some (mkTxIn (prevout i) (scriptSig i) (nSequence i) stack :: rest, s)
  end.

Definition UnserializeTransaction (fAllowWitness : bool) (s : bytes) : option (CTransaction * bytes) :=
  '(nVersion, s) ← Unserialize_int32 s;
  '(vin, s) ← Unserialize_vector Unserialize_CTxIn s;
  '(flags, vin, vout, s) ←
    (if (length vin =? 0)%nat && fAllowWitness then
       '(flags, s) ← ser_readdata8 s;
       if negb (flags =? 0) then
         '(vin, s) ← Unserialize_vector Unserialize_CTxIn s;
         '(vout, s) ← Unserialize_vector Unserialize_CTxOut s;
         Some (flags, vin, vout, s)
       else Some (flags, vin, [], s)
     else
       '(vout, s) ← Unserialize_vector Unserialize_CTxOut s;
       Some (0, vin, vout, s));
  '(flags, vin, s) ←
    (if negb (Z.land flags 1 =? 0) && fAllowWitness then
       '(vin, s) ← read_witnesses vin s;
       if HasWitness (mkTransaction nVersion vin vout 0) then Some (Z.lxor flags 1, vin, s) else None
     else Some (flags, vin, s));
  if negb (flags =? 0) then None
  else
    '(nLockTime, s) ← Unserialize_uint32 s;
    Some (mkTransaction nVersion vin vout nLockTime, s).

(** [CTransaction::ComputeHash] and [ComputeWitnessHash] *)
Definition ComputeHash (tx : CTransaction) : uint256 := Hash (SerializeTransaction false tx).

Definition ComputeWitnessHash (tx : CTransaction) : uint256 :=
  if negb (HasWitness tx) then ComputeHash tx else Hash (SerializeTransaction true tx).

(** ** Blocks *)

(** [CBlockHeaderBase::SerializationOp] *)
Definition Serialize_header_base (h : CBlockHeader) : bytes :=
  Serialize_int32 (hdr_nVersion h) ++ Serialize_uint256 (hashPrevBlock h) ++
  Serialize_uint256 (hashMerkleRoot h) ++ Serialize_uint32 (hdr_nTime h) ++
  Serialize_uint32 (hdr_nBits h) ++ Serialize_uint32 (nNonce h) ++
  Serialize_uint256 (hashStateRoot h) ++ Serialize_uint256 (hashUTXORoot h) ++
  Serialize_COutPoint (hdr_prevoutStake h).

(** [CBlockHeader::SerializationOp] *)
Definition Serialize_CBlockHeader (h : CBlockHeader) : bytes :=
  Serialize_int32 (hdr_nVersion h) ++ Serialize_uint256 (hashPrevBlock h) ++
  Serialize_uint256 (hashMerkleRoot h) ++ Serialize_uint32 (hdr_nTime h) ++
  Serialize_uint32 (hdr_nBits h) ++ Serialize_uint32 (nNonce h) ++
  Serialize_uint256 (hashStateRoot h) ++ Serialize_uint256 (hashUTXORoot h) ++
  Serialize_COutPoint (hdr_prevoutStake h) ++ Serialize_bytes (vchBlockSig h).

Definition Unserialize_CBlockHeader (s : bytes) : option (CBlockHeader * bytes) :=
  '(nVersion, s) ← Unserialize_int32 s;
  '(hashPrevBlock, s) ← Unserialize_uint256 s;
  '(hashMerkleRoot, s) ← Unserialize_uint256 s;
  '(nTime, s) ← Unserialize_uint32 s;
  '(nBits, s) ← Unserialize_uint32 s;
  '(nNonce, s) ← Unserialize_uint32 s;
  '(hashStateRoot, s) ← Unserialize_uint256 s;
  '(hashUTXORoot, s) ← Unserialize_uint256 s;
  '(prevoutStake, s) ← Unserialize_COutPoint s;
  '(vchBlockSig, s) ← Unserialize_bytes s;
  Some (mkHeader nVersion hashPrevBlock hashMerkleRoot nTime nBits nNonce hashStateRoot hashUTXORoot
          prevoutStake vchBlockSig, s).

(** [CBlock::SerializationOp] *)
Definition Serialize_CBlock (fAllowWitness : bool) (b : CBlock) : bytes :=
  Serialize_CBlockHeader (blk_header b) ++ Serialize_vector (SerializeTransaction fAllowWitness) (vtx b).

Definition Unserialize_CBlock (fAllowWitness : bool) (s : bytes) : option (CBlock * bytes) :=
  '(h, s) ← Unserialize_CBlockHeader s;
  '(vtx, s) ← Unserialize_vector (UnserializeTransaction fAllowWitness) s;
  Some (mkBlock h vtx, s).

(** [CBlockHeader::GetHash] and [GetHashWithoutSign] *)
Definition header_GetHash (h : CBlockHeader) : uint256 := Hash (Serialize_CBlockHeader h).

Definition header_GetHashWithoutSign (h : CBlockHeader) : uint256 := Hash (Serialize_header_base h).

(** ** Readers undo writers *)

Definition round_trips {A} (ser : A -> bytes) (unser : bytes -> option (A * bytes))
    (valid : A -> Prop) : Prop :=
  forall a rest, valid a -> unser (ser a ++ rest) = Some (a, rest).

Lemma read_app n a rest : length a = n -> read n (a ++ rest) = Some (a, rest).
Proof.
  intros L. unfold read. rewrite length_app.
  destruct (Nat.ltb_spec (length a + length rest) n); [lia|].
  by rewrite take_app_length', drop_app_length' by done.
Qed.

(** The [n] low bytes of a number, little endian *)
Fixpoint le_bytes (n : nat) (x : Z) : bytes :=
  match n with
  | O => []
  | S n' => u8 x :: le_bytes n' (Z.shiftr x 8)
  end.

Lemma length_le_bytes n x : length (le_bytes n x) = n.
Proof. revert x; induction n as [|n IH]; intros x; [done|]. cbn [le_bytes length]. by rewrite IH. Qed.

Lemma le_val_le_bytes n x :
  0 <= x < 2 ^ (8 * Z.of_nat n) -> arith_uint256.le_val (le_bytes n x) = x.
Proof.
  revert x; induction n as [|n IH]; intros x Hx; cbn [le_bytes arith_uint256.le_val].
  - change (2 ^ (8 * Z.of_nat 0)) with 1 in Hx. lia.
  - rewrite Z.shiftr_div_pow2 by lia. rewrite IH.
    + unfold wrap. pose proof (Z.div_mod x (2 ^ 8) ltac:(lia)). lia.
    + replace (8 * Z.of_nat (S n)) with (8 + 8 * Z.of_nat n) in Hx by lia.
      rewrite Z.pow_add_r in Hx by lia.
      split; [apply Z.div_pos; lia | apply Z.div_lt_upper_bound; lia].
Qed.

Lemma ser_readdata_le n x rest :
  0 <= x < 2 ^ (8 * Z.of_nat n) -> ser_readdata n (le_bytes n x ++ rest) = Some (x, rest).
Proof.
  intros Hx. unfold ser_readdata. rewrite read_app by apply length_le_bytes.
  cbn [mbind option_bind]. by rewrite le_val_le_bytes.
Qed.

Lemma WriteLE_le_bytes x :
  ser_writedata8 x = le_bytes 1 x /\ ser_writedata16 x = le_bytes 2 x /\
  ser_writedata32 x = le_bytes 4 x /\ ser_writedata64 x = le_bytes 8 x.
Proof.
  unfold ser_writedata8, ser_writedata16, ser_writedata32, ser_writedata64, WriteLE16,
    arith_uint256.WriteLE32, WriteLE64. cbn [le_bytes].
  rewrite !Z.shiftr_shiftr by lia. done.
Qed.

Lemma ser8_round_trip : round_trips ser_writedata8 ser_readdata8 (in_u 8).
Proof. intros x rest Hx. rewrite (proj1 (WriteLE_le_bytes x)). by apply ser_readdata_le. Qed.

Lemma ser16_round_trip : round_trips ser_writedata16 ser_readdata16 (in_u 16).
Proof. intros x rest Hx. destruct (WriteLE_le_bytes x) as (_ & -> & _). by apply ser_readdata_le. Qed.

Lemma ser32_round_trip : round_trips ser_writedata32 ser_readdata32 (in_u 32).
Proof. intros x rest Hx. destruct (WriteLE_le_bytes x) as (_ & _ & -> & _). by apply ser_readdata_le. Qed.

Lemma ser64_round_trip : round_trips ser_writedata64 ser_readdata64 (in_u 64).
Proof. intros x rest Hx. destruct (WriteLE_le_bytes x) as (_ & _ & _ & ->). by apply ser_readdata_le. Qed.

Lemma swrap_wrap w z : 0 < w -> in_s w z -> swrap w (wrap w z) = z.
Proof.
  intros Hw Hz. unfold swrap, wrap. rewrite Zplus_mod_idemp_l.
  fold (swrap w z). by apply swrap_small.
Qed.

Lemma int32_round_trip : round_trips Serialize_int32 Unserialize_int32 (in_s 32).
Proof.
  intros x rest Hx. unfold Serialize_int32, Unserialize_int32.
  rewrite ser32_round_trip by (by apply wrap_range). cbn [mbind option_bind]. by rewrite swrap_wrap.
Qed.

Lemma int64_round_trip : round_trips Serialize_int64 Unserialize_int64 (in_s 64).
Proof.
  intros x rest Hx. unfold Serialize_int64, Unserialize_int64.
  rewrite ser64_round_trip by (by apply wrap_range). cbn [mbind option_bind]. by rewrite swrap_wrap.
Qed.

(** What a fixed-size read takes from the stream is the encoding of its value. *)
Lemma le_bytes_le_val b : bytes_ok b -> le_bytes (length b) (arith_uint256.le_val b) = b.
Proof.
  induction 1 as [|x b Hx Hb IH]; [done|]. cbn [length le_bytes arith_uint256.le_val].
  unfold in_u in Hx. rewrite Z.shiftr_div_pow2 by lia. f_equal.
  - unfold wrap. rewrite (Z.mul_comm (2 ^ 8)), Z.mod_add by lia. by apply Z.mod_small.
  - etransitivity; [|exact IH]. f_equal. rewrite (Z.mul_comm (2 ^ 8)), Z.div_add, Z.div_small by lia. lia.
Qed.

Lemma ser_readdata_inv n s x rest :
  bytes_ok s -> ser_readdata n s = Some (x, rest) ->
  s = le_bytes n x ++ rest /\ 0 <= x < 2 ^ (8 * Z.of_nat n) /\ bytes_ok rest.
Proof.
  unfold ser_readdata, read. intros Hs. destruct (Nat.ltb_spec (length s) n) as [|Hl]; [done|].
  cbn [mbind option_bind]. intros [= <- <-].
  assert (Ht : bytes_ok (take n s)) by by apply Forall_take.
  assert (L : length (take n s) = n) by (rewrite length_take; lia).
  pose proof (le_val_range _ Ht) as Hr. rewrite L in Hr. split_and!; [| lia | lia | by apply Forall_drop].
  rewrite <- L at 1. by rewrite le_bytes_le_val, take_drop.
Qed.

Lemma compact_size_round_trip :
  round_trips WriteCompactSize ReadCompactSize (fun n => 0 <= n <= MAX_SIZE).
Proof.
  intros n rest Hn. unfold MAX_SIZE in Hn. unfold WriteCompactSize, ReadCompactSize.
  destruct (Z.ltb_spec n 253); [|destruct (Z.leb_spec n 0xffff); [|destruct (Z.leb_spec n 0xffffffff); [|lia]]];
    rewrite <- ?app_assoc, ser8_round_trip by (unfold in_u; lia); cbn [mbind option_bind]; decide_tests;
    rewrite ?ser16_round_trip, ?ser32_round_trip by (unfold in_u; lia);
    unfold MAX_SIZE; do 2 (cbn [mbind option_bind]; decide_tests); done.
Qed.

(** A read followed by a lower bound on the value, as for a size. *)
Lemma bounded_read_inv k lo s n rest :
  bytes_ok s ->
  ('(x, s) ← ser_readdata k s; if x <? lo then None else Some (x, s)) = Some (n, rest) ->
  s = le_bytes k n ++ rest /\ lo <= n < 2 ^ (8 * Z.of_nat k) /\ bytes_ok rest.
Proof.
  intros Hs. destruct (ser_readdata k s) as [[x s2]|] eqn:Ek; [|done].
  cbn [mbind option_bind]. destruct (Z.ltb_spec x lo); [done|]. intros [= -> ->].
  apply ser_readdata_inv in Ek as (-> & ? & ?); [|done]. split_and!; done || lia.
Qed.

(** Every size has one encoding that is read. *)
Lemma compact_size_canonical s n rest :
  bytes_ok s -> ReadCompactSize s = Some (n, rest) ->
  s = WriteCompactSize n ++ rest /\ 0 <= n <= MAX_SIZE /\ bytes_ok rest.
Proof.
  intros Hs. unfold ReadCompactSize, ser_readdata8.
  destruct (ser_readdata 1 s) as [[ch s1]|] eqn:E1; [|done]. cbn [mbind option_bind].
  apply ser_readdata_inv in E1 as (-> & Hch & Hs1); [|done]. change (2 ^ (8 * Z.of_nat 1)) with 256 in Hch.
  set (m := if ch <? 253 then _ else _). intros E.
  assert (Em : m = Some (n, rest) /\ n <= MAX_SIZE).
  { destruct m as [[n0 s0]|]; cbn [mbind option_bind] in E; [|done].
    destruct (Z.ltb_spec MAX_SIZE n0); [done|]. by injection E as -> ->. }
  destruct Em as [Em Hmax]. subst m. clear E. unfold WriteCompactSize.
  destruct (WriteLE_le_bytes n) as (W8 & W16 & W32 & W64). rewrite W8, W16, W32, W64.
  destruct (Z.ltb_spec ch 253).
  { injection Em as -> ->. decide_tests. split_and!; done || lia. }
  destruct (Z.eqb_spec ch 253) as [->|]; [|destruct (Z.eqb_spec ch 254) as [->|]];
    apply bounded_read_inv in Em as (-> & Hn & ?); try done; rewrite <- ?app_assoc.
  - change (2 ^ (8 * Z.of_nat 2)) with 65536 in Hn. decide_tests. split_and!; done || lia.
  - change (2 ^ (8 * Z.of_nat 4)) with 4294967296 in Hn. decide_tests. split_and!; done || lia.
  - assert (ch = 255) as -> by lia. unfold MAX_SIZE in Hmax. lia.
Qed.

(** *** Variable-length integers *)

(** A digit with its continuation bit: all digits but the last carry it. *)
Definition digit (n : Z) (len : nat) : Z :=
  Z.lor (Z.land n 0x7F) (if (len =? 0)%nat then 0x00 else 0x80).

Lemma land_127 n : Z.land n 0x7F = n mod 128.
Proof. apply (Z.land_ones n 7). lia. Qed.

Lemma digit_low n len : Z.land (digit n len) 0x7F = n mod 128.
Proof.
  unfold digit. apply Z.bits_inj'; intros i Hi. rewrite <- land_127, !Z.land_spec, Z.lor_spec, Z.land_spec.
  destruct (Z.testbit 127 i) eqn:E; [|by rewrite !andb_false_r]. rewrite !andb_true_r.
  assert (i < 7). { apply Z.testbit_true in E; [|done]. destruct (Z.lt_ge_cases i 7); [done|].
    rewrite Z.div_small in E; [done|]. assert (2 ^ 7 <= 2 ^ i) by (apply Z.pow_le_mono_r; lia). lia. }
  destruct (len =? 0)%nat; [by rewrite Z.bits_0, orb_false_r|].
  assert (i = 0 \/ i = 1 \/ i = 2 \/ i = 3 \/ i = 4 \/ i = 5 \/ i = 6) as
    [->|[->|[->|[->|[->|[->| ->]]]]]] by lia; by rewrite orb_false_r.
Qed.

Lemma digit_high n len : (Z.land (digit n len) 0x80 =? 0) = (len =? 0)%nat.
Proof.
  unfold digit. rewrite Z.land_lor_distr_l, <- Z.land_assoc. change (Z.land 127 128) with 0.
  rewrite Z.land_0_r, Z.lor_0_l. by destruct (len =? 0)%nat.
Qed.

(** A byte is the digit of its low bits with its own continuation bit. *)
Lemma byte_digit b n len :
  in_u 8 b -> (Z.land b 0x80 =? 0) = (len =? 0)%nat -> n mod 128 = b mod 128 -> digit n len = b.
Proof.
  intros Hb Hl Hn. unfold digit. rewrite land_127, Hn, <- land_127, <- Hl. apply Z.eqb_eq.
  by apply (byte_check (fun b => Z.lor (Z.land b 127) (if Z.land b 128 =? 0 then 0 else 128) =? b)).
Qed.

Lemma varint_join n : 0 <= n -> Z.lor (Z.shiftl (n / 128) 7) (n mod 128) = n.
Proof.
  intros Hn. pose proof (Z.div_mod n 128 ltac:(lia)). pose proof (Z.mod_pos_bound n 128 ltac:(lia)).
  pose proof (Z.div_pos n 128 Hn ltac:(lia)).
  rewrite Z.lor_comm, (lor_shiftl_add 7) by (unfold in_u; lia). lia.
Qed.

(** Reading one digit after the digits of [n / 128]. *)
Lemma ReadVarInt_digit max n len d s :
  0 <= n <= max -> d = digit n len ->
  ReadVarInt_loop max (n / 128) (d :: s) =
  if (len =? 0)%nat then Some (n, s) else if n =? max then None else ReadVarInt_loop max (n + 1) s.
Proof.
  intros Hn ->. cbn [ReadVarInt_loop]. rewrite Z.shiftr_div_pow2, digit_low, digit_high, varint_join by lia.
  change (2 ^ 7) with 128. assert (n / 128 <= max / 128) by (apply Z.div_le_mono; lia).
  decide_tests. by destruct (len =? 0)%nat.
Qed.

Lemma varint_tmp_S fuel n len :
  varint_tmp (S fuel) n len =
  if n <=? 0x7F then [digit n len] else digit n len :: varint_tmp fuel (n / 128 - 1) (S len).
Proof. cbn [varint_tmp]. fold (digit n len). by rewrite Z.shiftr_div_pow2 by lia. Qed.

Lemma varint_next fuel n :
  0 <= n < 2 ^ (7 * Z.of_nat (S fuel)) -> 0x7F < n -> 0 <= n / 128 - 1 < 2 ^ (7 * Z.of_nat fuel).
Proof.
  intros Hn Hlo. replace (7 * Z.of_nat (S fuel)) with (7 + 7 * Z.of_nat fuel) in Hn by lia.
  rewrite Z.pow_add_r in Hn by lia. change (2 ^ 7) with 128 in Hn.
  assert (1 <= n / 128) by (apply Z.div_le_lower_bound; lia).
  assert (n / 128 < 2 ^ (7 * Z.of_nat fuel)) by (apply Z.div_lt_upper_bound; lia). lia.
Qed.

(** Digits that all carry the continuation bit leave the reader at their value plus one. *)
Lemma ReadVarInt_prefix fuel n len max s :
  0 <= n < max -> n < 2 ^ (7 * Z.of_nat fuel) -> (0 < fuel)%nat -> (0 < len)%nat ->
  ReadVarInt_loop max 0 (rev (varint_tmp fuel n len) ++ s) = ReadVarInt_loop max (n + 1) s.
Proof.
  revert n len s; induction fuel as [|fuel IH]; intros n len s Hn Hf Hfuel Hl; [lia|].
  rewrite varint_tmp_S. destruct (Z.leb_spec n 0x7F).
  - cbn [rev app]. replace 0 with (n / 128) at 1 by (apply Z.div_small; lia).
    rewrite (ReadVarInt_digit max n len) by (done || lia).
    destruct (Nat.eqb_spec len 0); [lia|]. by destruct (Z.eqb_spec n max); [lia|].
  - pose proof (varint_next fuel n ltac:(lia) ltac:(lia)) as Hnext.
    cbn [rev]. rewrite <- app_assoc. cbn [app].
    assert (n / 128 <= n) by (apply Z.div_le_upper_bound; lia).
    assert (0 < fuel)%nat by (destruct fuel; [cbn in Hnext; lia | lia]).
    rewrite IH by lia.
    replace (n / 128 - 1 + 1) with (n / 128) by lia.
    rewrite (ReadVarInt_digit max n len) by (done || lia).
    destruct (Nat.eqb_spec len 0); [lia|]. by destruct (Z.eqb_spec n max); [lia|].
Qed.

Lemma varint_round_trip_max max : max < 2 ^ 64 -> round_trips WriteVarInt (ReadVarInt max) (fun n => 0 <= n <= max).
Proof.
  intros Hmax n rest Hn. unfold WriteVarInt, ReadVarInt. rewrite varint_tmp_S.
  destruct (Z.leb_spec n 0x7F).
  - cbn [rev app]. replace 0 with (n / 128) at 1 by (apply Z.div_small; lia).
    by rewrite (ReadVarInt_digit max n 0) by (done || lia).
  - assert (1 <= n / 128 <= n) by (split; [apply Z.div_le_lower_bound; lia | apply Z.div_le_upper_bound; lia]).
    cbn [rev]. rewrite <- app_assoc. cbn [app]. rewrite ReadVarInt_prefix by (try lia; change (2 ^ (7 * Z.of_nat 9)) with (2 ^ 63); assert (n / 128 < 2 ^ 57) by (apply Z.div_lt_upper_bound; lia); lia).
    replace (n / 128 - 1 + 1) with (n / 128) by lia.
    by rewrite (ReadVarInt_digit max n 0) by (done || lia).
Qed.

(** The digits do not depend on the room left in [tmp] nor on the position. *)
Lemma varint_tmp_stable f1 f2 n l1 l2 :
  0 <= n < 2 ^ (7 * Z.of_nat f1) -> (0 < f1 <= f2)%nat -> (0 < l1)%nat -> (0 < l2)%nat ->
  varint_tmp f1 n l1 = varint_tmp f2 n l2.
Proof.
  revert f2 n l1 l2; induction f1 as [|f1 IH]; intros f2 n l1 l2 Hn Hf H1 H2; [lia|].
  destruct f2 as [|f2]; [lia|]. rewrite !varint_tmp_S.
  assert (D : digit n l1 = digit n l2) by (unfold digit; by destruct l1, l2; try lia).
  rewrite D. destruct (Z.leb_spec n 0x7F); [done|]. f_equal.
  pose proof (varint_next f1 n ltac:(lia) ltac:(lia)) as Hnext.
  apply IH; [done | destruct f1; [cbn in Hnext; lia | lia] | lia | lia].
Qed.

(** What the reader has taken in when it stands at [acc]. *)
Definition varint_read (pre : bytes) (acc : Z) : Prop :=
  (pre = [] /\ acc = 0) \/ (0 < acc /\ pre = rev (varint_tmp 10 (acc - 1) 1)).

Lemma varint_extend pre acc n len b :
  varint_read pre acc -> 0 <= n < 2 ^ 64 -> acc = n / 128 -> b = digit n len -> (len <= 1)%nat ->
  pre ++ [b] = rev (varint_tmp 10 n len).
Proof.
  intros Hpre Hn -> -> Hlen. rewrite varint_tmp_S. destruct Hpre as [[-> E]|[Hacc ->]].
  - assert (n < 128) by (destruct (Z.lt_ge_cases n 128); [done|];
      assert (1 <= n / 128) by (apply Z.div_le_lower_bound; lia); lia).
    by destruct (Z.leb_spec n 0x7F); [|lia].
  - destruct (Z.leb_spec n 0x7F). { rewrite Z.div_small in Hacc; lia. }
    cbn [rev]. f_equal. f_equal. symmetry. apply varint_tmp_stable; try lia.
    change (2 ^ (7 * Z.of_nat 9)) with (2 ^ 63).
    assert (n / 128 < 2 ^ 57) by (apply Z.div_lt_upper_bound; lia). lia.
Qed.

Lemma varint_unique max s pre acc n rest :
  max < 2 ^ 64 -> max mod 128 = 127 -> bytes_ok s -> varint_read pre acc -> 0 <= acc ->
  ReadVarInt_loop max acc s = Some (n, rest) -> pre ++ s = WriteVarInt n ++ rest /\ 0 <= n <= max.
Proof.
  intros Hmax Hmod127. revert pre acc; induction s as [|b s IH]; intros pre acc Hs Hpre Hacc; [done|].
  apply Forall_cons_iff in Hs as [Hb Hs]. cbn [ReadVarInt_loop].
  destruct (Z.ltb_spec (Z.shiftr max 7) acc) as [|Hle]; [done|].
  rewrite Z.shiftr_div_pow2 in Hle by lia. change (2 ^ 7) with 128 in Hle. unfold in_u in Hb.
  set (n1 := Z.lor (Z.shiftl acc 7) (Z.land b 127)).
  assert (Hb' : 0 <= b mod 128 < 128) by (apply Z.mod_pos_bound; lia).
  assert (En : n1 = acc * 128 + b mod 128).
  { unfold n1. rewrite Z.lor_comm, (lor_shiftl_add 7), land_127 by (rewrite ?land_127; unfold in_u; lia). lia. }
  assert (Hdiv : acc = n1 / 128) by (rewrite En, Z.add_comm, Z.div_add, Z.div_small; lia).
  assert (Hmod : n1 mod 128 = b mod 128) by (rewrite En, Z.add_comm, Z.mod_add, Z.mod_mod; lia).
  assert (Hmax1 : n1 <= max) by (pose proof (Z.div_mod max 128 ltac:(lia)); lia).
  assert (Hnew : forall len, (Z.land b 0x80 =? 0) = (len =? 0)%nat -> b = digit n1 len)
    by (intros; symmetry; by apply byte_digit).
  destruct (Z.land b 0x80 =? 0) eqn:Eb; cbn [negb].
  - intros [= <- <-]. split; [|lia].
    rewrite cons_middle, app_assoc, (varint_extend pre acc n1 0 b Hpre) by (done || lia || by apply Hnew).
    done.
  - destruct (Z.eqb_spec n1 max) as [|Hne]; [done|]. intros E.
    rewrite cons_middle, app_assoc. apply (IH (pre ++ [b]) (n1 + 1)); [done | | lia | done].
    right. split; [lia|]. rewrite Z.add_simpl_r.
    apply (varint_extend pre acc n1 1 b Hpre); try done; try lia. by apply Hnew.
Qed.

(** *** Vectors *)

Lemma read_blocks_app fuel v w i rest :
  0 <= i -> Z.of_nat (length w) <= 5000000 * (Z.of_nat fuel - 1) -> (0 < fuel)%nat ->
  read_blocks fuel v i (i + Z.of_nat (length w)) (w ++ rest) = Some (v ++ w, rest).
Proof.
  revert v w i; induction fuel as [|fuel IH]; intros v w i Hi Hf Hfuel; [lia|]. cbn [read_blocks].
  destruct (Z.ltb_spec i (i + Z.of_nat (length w))) as [Hlt|Hge].
  2: { destruct w; [by rewrite app_nil_r | cbn in Hge; lia]. }
  set (blk := Z.min (i + Z.of_nat (length w) - i) (1 + 4999999)).
  assert (E : w ++ rest = take (Z.to_nat blk) w ++ drop (Z.to_nat blk) w ++ rest)
    by (by rewrite app_assoc, take_drop).
  rewrite E, read_app by (rewrite length_take; lia). cbn [mbind option_bind].
  assert (L : i + Z.of_nat (length w) = (i + blk) + Z.of_nat (length (drop (Z.to_nat blk) w)))
    by (rewrite length_drop; lia).
  rewrite L, IH by (rewrite ?length_drop; lia). by rewrite <- app_assoc, take_drop.
Qed.

Definition sized {A} (v : list A) : Prop := Z.of_nat (length v) <= MAX_SIZE.

Lemma bytes_round_trip : round_trips Serialize_bytes Unserialize_bytes sized.
Proof.
  intros v rest Hv. unfold Serialize_bytes, Unserialize_bytes, sized in *. rewrite <- app_assoc.
  rewrite compact_size_round_trip by lia. cbn [mbind option_bind].
  pose proof (Z.div_pos (Z.of_nat (length v)) 5000000 ltac:(lia) ltac:(lia)).
  pose proof (Z.div_mod (Z.of_nat (length v)) 5000000 ltac:(lia)).
  pose proof (Z.mod_pos_bound (Z.of_nat (length v)) 5000000 ltac:(lia)).
  rewrite <- (Z.add_0_l (Z.of_nat (length v))) at 2. rewrite read_blocks_app; [done | lia | | lia].
  rewrite Z2Nat.id by lia. lia.
Qed.

Lemma elements_round_trip {A B} (ser : A -> bytes) (unser : bytes -> option (B * bytes)) (f : A -> B)
    (v : list A) rest :
  Forall (fun a => forall rest, unser (ser a ++ rest) = Some (f a, rest)) v ->
  read_elements unser (length v) (concat (map ser v) ++ rest) = Some (map f v, rest).
Proof.
  induction 1 as [|a v Ha Hv IH]; [done|]. cbn [map concat length read_elements].
  rewrite <- app_assoc, Ha. cbn [mbind option_bind]. by rewrite IH.
Qed.

Lemma vector_reads {A B} (ser : A -> bytes) (unser : bytes -> option (B * bytes)) (f : A -> B)
    (v : list A) rest :
  sized v -> Forall (fun a => forall rest, unser (ser a ++ rest) = Some (f a, rest)) v ->
  Unserialize_vector unser (Serialize_vector ser v ++ rest) = Some (map f v, rest).
Proof.
  intros Hs Hv. unfold Serialize_vector, Unserialize_vector, sized in *. rewrite <- app_assoc.
  rewrite compact_size_round_trip by lia. cbn [mbind option_bind]. rewrite Nat2Z.id.
  by apply elements_round_trip.
Qed.

Lemma vector_round_trip {A} (ser : A -> bytes) unser (valid : A -> Prop) :
  round_trips ser unser valid ->
  round_trips (Serialize_vector ser) (Unserialize_vector unser) (fun v => sized v /\ Forall valid v).
Proof.
  intros Hrt v rest [Hs Hv]. rewrite (vector_reads ser unser (fun a => a)); [by rewrite map_id | done |].
  revert Hv; apply List.Forall_impl; intros a Ha rest'. by apply Hrt.
Qed.

(** *** Transactions *)

Definition valid_outpoint (o : COutPoint) : Prop := length (op_hash o) = 32%nat /\ in_u 32 (op_n o).

Record valid_txin (i : CTxIn) : Prop := {
  valid_prevout : valid_outpoint (prevout i);
  valid_scriptSig : sized (scriptSig i);
  valid_nSequence : in_u 32 (nSequence i);
  valid_stack : sized (scriptWitness i) /\ Forall sized (scriptWitness i) }.

Definition valid_txout (o : CTxOut) : Prop := in_s 64 (nValue o) /\ sized (scriptPubKey o).

Record valid_tx (tx : CTransaction) : Prop := {
  valid_nVersion : in_s 32 (nVersion tx);
  valid_vin : sized (vin tx) /\ Forall valid_txin (vin tx);
  valid_vout : sized (vout tx) /\ Forall valid_txout (vout tx);
  valid_nLockTime : in_u 32 (nLockTime tx) }.

(** A transaction without its witnesses *)
Definition strip_in (i : CTxIn) : CTxIn := mkTxIn (prevout i) (scriptSig i) (nSequence i) [].

Definition strip (tx : CTransaction) : CTransaction :=
  mkTransaction (nVersion tx) (map strip_in (vin tx)) (vout tx) (nLockTime tx).

Lemma outpoint_round_trip : round_trips Serialize_COutPoint Unserialize_COutPoint valid_outpoint.
Proof.
  intros [h n] rest [Hh Hn]. unfold Serialize_COutPoint, Unserialize_COutPoint, Serialize_uint256,
    Unserialize_uint256, Unserialize_uint32, Serialize_uint32. cbn [op_hash op_n] in *.
  rewrite <- app_assoc, read_app by done. cbn [mbind option_bind].
  by rewrite ser32_round_trip.
Qed.

Lemma txin_reads i rest :
  valid_txin i -> Unserialize_CTxIn (Serialize_CTxIn i ++ rest) = Some (strip_in i, rest).
Proof.
  intros [Ho Hs Hq _]. unfold Serialize_CTxIn, Unserialize_CTxIn. rewrite <- !app_assoc.
  rewrite outpoint_round_trip by done. cbn [mbind option_bind].
  rewrite bytes_round_trip by done. cbn [mbind option_bind].
  unfold Unserialize_uint32, Serialize_uint32. by rewrite ser32_round_trip.
Qed.

Lemma txout_round_trip : round_trips Serialize_CTxOut Unserialize_CTxOut valid_txout.
Proof.
  intros [v s] rest [Hv Hs]. unfold Serialize_CTxOut, Unserialize_CTxOut. rewrite <- app_assoc.
  rewrite int64_round_trip by done. cbn [mbind option_bind]. by rewrite bytes_round_trip.
Qed.

Lemma vin_reads v rest :
  sized v /\ Forall valid_txin v ->
  Unserialize_vector Unserialize_CTxIn (Serialize_vector Serialize_CTxIn v ++ rest) = Some (map strip_in v, rest).
Proof.
  intros [Hs Hv]. apply vector_reads; [done|].
  revert Hv; apply List.Forall_impl; intros i Hi rest'. by apply txin_reads.
Qed.

Lemma witnesses_read v rest :
  Forall valid_txin v ->
  read_witnesses (map strip_in v) (concat (map (fun i => Serialize_stack (scriptWitness i)) v) ++ rest)
  = Some (v, rest).
Proof.
  induction 1 as [|i v Hi Hv IH]; [done|]. cbn [map concat read_witnesses]. rewrite <- app_assoc.
  unfold Unserialize_stack at 1, Serialize_stack at 1.
  rewrite (vector_round_trip _ _ _ bytes_round_trip) by apply (valid_stack _ Hi).
  cbn [mbind option_bind]. rewrite IH. cbn [mbind option_bind]. by destruct i.
Qed.

Lemma strip_without_witness tx : HasWitness tx = false -> strip tx = tx.
Proof.
  destruct tx as [ver ins outs lt]. unfold HasWitness, strip. cbn [Primitives.vin Primitives.nVersion Primitives.vout Primitives.nLockTime].
  intros H. f_equal. induction ins as [|i ins IH]; [done|]. cbn [map existsb] in *.
  apply orb_false_iff in H as [Hi H]. rewrite IH by done. f_equal.
  by destruct i as [o s q [|]].
Qed.

(** The outputs and the lock time, which end every transaction without witness data. *)
Lemma locktime_reads n rest : in_u 32 n -> Unserialize_uint32 (Serialize_uint32 n ++ rest) = Some (n, rest).
Proof. intros. by apply ser32_round_trip. Qed.

(** The basic format: the first byte after the version is the number of inputs. *)
Lemma basic_format_reads tx allow rest :
  valid_tx tx -> (allow = true -> vin tx <> [] \/ vout tx = []) ->
  UnserializeTransaction allow
    (Serialize_int32 (nVersion tx) ++ Serialize_vector Serialize_CTxIn (vin tx) ++
     Serialize_vector Serialize_CTxOut (vout tx) ++ Serialize_uint32 (nLockTime tx) ++ rest)
  = Some (strip tx, rest).
Proof.
  intros [Hv Hin Hout Hl] Hallow. unfold UnserializeTransaction.
  rewrite int32_round_trip by done. cbn [mbind option_bind].
  rewrite vin_reads by done. cbn [mbind option_bind]. rewrite length_map.
  destruct ((length (vin tx) =? 0)%nat && allow) eqn:Ec.
  - apply andb_true_iff in Ec as [El ->]. apply Nat.eqb_eq, nil_length_inv in El.
    destruct Hallow as [|Hvout]; [done | done |]. rewrite Hvout, El.
    unfold Serialize_vector at 1. cbn [length map concat].
    change (WriteCompactSize (Z.of_nat 0) ++ []) with (ser_writedata8 0).
    rewrite ser8_round_trip by (unfold in_u; lia). cbn [mbind option_bind]. change (negb (0 =? 0)) with false.
    cbn [mbind option_bind]. change (negb (Z.land 0 1 =? 0) && true) with false. cbn [mbind option_bind].
    change (negb (0 =? 0)) with false. cbn [mbind option_bind]. rewrite locktime_reads by done. cbn [mbind option_bind].
    unfold strip. by rewrite El, Hvout.
  - rewrite (vector_round_trip _ _ _ txout_round_trip) by done. cbn [mbind option_bind].
    change (negb (Z.land 0 1 =? 0) && allow) with false. cbn [mbind option_bind].
    change (negb (0 =? 0)) with false. cbn [mbind option_bind]. rewrite locktime_reads by done. done.
Qed.

(** The extended format: an empty vector, the flags, and the witnesses. *)
Lemma extended_format_reads tx rest :
  valid_tx tx -> HasWitness tx = true ->
  UnserializeTransaction true
    (Serialize_int32 (nVersion tx) ++ (Serialize_vector Serialize_CTxIn [] ++ ser_writedata8 1) ++
     Serialize_vector Serialize_CTxIn (vin tx) ++ Serialize_vector Serialize_CTxOut (vout tx) ++
     concat (map (fun i => Serialize_stack (scriptWitness i)) (vin tx)) ++ Serialize_uint32 (nLockTime tx) ++ rest)
  = Some (tx, rest).
Proof.
  intros [Hv Hin Hout Hl] Hw. unfold UnserializeTransaction.
  rewrite int32_round_trip by done. cbn [mbind option_bind]. rewrite <- app_assoc.
  rewrite vin_reads by (split; [done | constructor]). cbn [mbind option_bind map length Nat.eqb andb].
  rewrite ser8_round_trip by (unfold in_u; lia). cbn [mbind option_bind]. change (negb (1 =? 0)) with true.
  cbn [mbind option_bind]. rewrite vin_reads by done. cbn [mbind option_bind].
  rewrite (vector_round_trip _ _ _ txout_round_trip) by done. cbn [mbind option_bind].
  change (negb (Z.land 1 1 =? 0) && true) with true. cbn [mbind option_bind].
  rewrite witnesses_read by apply Hin. cbn [mbind option_bind].
  change (HasWitness (mkTransaction (nVersion tx) (vin tx) (vout tx) 0)) with (HasWitness tx).
  rewrite Hw. cbn [mbind option_bind]. change (negb (Z.lxor 1 1 =? 0)) with false. cbn [mbind option_bind].
  rewrite locktime_reads by done. cbn [mbind option_bind]. by destruct tx.
Qed.

Lemma SerializeTransaction_reads tx rest :
  valid_tx tx -> vin tx <> [] \/ vout tx = [] ->
  UnserializeTransaction true (SerializeTransaction true tx ++ rest) = Some (tx, rest).
Proof.
  intros Hv Hne. unfold SerializeTransaction. cbn [andb]. destruct (HasWitness tx) eqn:Hw.
  - change (1 =? 0) with false. change (Z.land 1 1 =? 0) with false. cbv iota. rewrite <- !app_assoc.
    rewrite <- (extended_format_reads tx rest Hv Hw) at 1. by rewrite <- !app_assoc.
  - change (0 =? 0) with true. change (Z.land 0 1 =? 0) with true. cbv iota. rewrite <- !app_assoc.
    cbn [app]. rewrite basic_format_reads by done. by rewrite strip_without_witness.
Qed.

Lemma SerializeTransaction_no_witness_reads tx rest :
  valid_tx tx -> UnserializeTransaction false (SerializeTransaction false tx ++ rest) = Some (strip tx, rest).
Proof.
  intros Hv. unfold SerializeTransaction. cbn [andb]. change (0 =? 0) with true.
  change (Z.land 0 1 =? 0) with true. cbv iota. rewrite <- !app_assoc. cbn [app]. by apply basic_format_reads.
Qed.

(** *** Blocks *)

Record valid_header (h : CBlockHeader) : Prop := {
  valid_hdr_nVersion : in_s 32 (hdr_nVersion h);
  valid_hdr_hashes : length (hashPrevBlock h) = 32%nat /\ length (hashMerkleRoot h) = 32%nat /\
    length (hashStateRoot h) = 32%nat /\ length (hashUTXORoot h) = 32%nat;
  valid_hdr_ints : in_u 32 (hdr_nTime h) /\ in_u 32 (hdr_nBits h) /\ in_u 32 (nNonce h);
  valid_hdr_prevout : valid_outpoint (hdr_prevoutStake h);
  valid_hdr_sig : sized (vchBlockSig h) }.

Lemma header_round_trip : round_trips Serialize_CBlockHeader Unserialize_CBlockHeader valid_header.
Proof.
  intros h rest [Hv (H1 & H2 & H3 & H4) (Ht & Hb & Hn) Ho Hs].
  unfold Serialize_CBlockHeader, Unserialize_CBlockHeader, Serialize_uint256, Unserialize_uint256,
    Serialize_uint32, Unserialize_uint32. rewrite <- !app_assoc.
  rewrite int32_round_trip by done. cbn [mbind option_bind].
  do 2 (rewrite read_app by done; cbn [mbind option_bind]).
  do 3 (rewrite ser32_round_trip by done; cbn [mbind option_bind]).
  do 2 (rewrite read_app by done; cbn [mbind option_bind]).
  rewrite outpoint_round_trip by done. cbn [mbind option_bind].
  rewrite bytes_round_trip by done. cbn [mbind option_bind]. by destruct h.
Qed.

(** A block of transactions that can be told from the extended format *)
Record valid_block (b : CBlock) : Prop := {
  valid_blk_header : valid_header (blk_header b);
  valid_vtx : sized (vtx b) /\ Forall (fun tx => valid_tx tx /\ (vin tx <> [] \/ vout tx = [])) (vtx b) }.

(** ** Theorems *)

(** C29: a transaction is read back from its serialization, with its witnesses
    unless the stream excludes them, and the bytes after it are left over; the
    transaction identifier does not depend on the witnesses. *)
Theorem transaction_round_trip tx rest :
  valid_tx tx ->
  (vin tx <> [] \/ vout tx = [] ->
   UnserializeTransaction true (SerializeTransaction true tx ++ rest) = Some (tx, rest)) /\
  UnserializeTransaction false (SerializeTransaction false tx ++ rest) = Some (strip tx, rest) /\
  ComputeHash (strip tx) = ComputeHash tx.
Proof.
  intros Hv. split_and!.
  - by apply SerializeTransaction_reads.
  - by apply SerializeTransaction_no_witness_reads.
  - unfold ComputeHash, SerializeTransaction, strip, Serialize_vector. cbn. by rewrite length_map, map_map.
Qed.

Definition example_tx : CTransaction :=
  mkTransaction 2
    [mkTxIn (mkOutPoint (repeat 7 32) 1) [0x51] 0xfffffffe [[1; 2]; []]]
    [mkTxOut 5000 [0x76; 0xa9]; mkTxOut (-1) []] 17.

Lemma example_tx_valid : valid_tx example_tx.
Proof.
  constructor.
  - unfold in_s; cbn; lia.
  - split; [unfold sized, MAX_SIZE; cbn; lia|]. apply Forall_cons_2; [|by apply Forall_nil_2].
    constructor; [split; [done | unfold in_u; cbn; lia] | unfold sized, MAX_SIZE; cbn; lia | unfold in_u; cbn; lia |].
    split; [unfold sized, MAX_SIZE; cbn; lia|]. repeat (apply Forall_cons_2; [unfold sized, MAX_SIZE; cbn; lia|]). apply Forall_nil_2.
  - split; [unfold sized, MAX_SIZE; cbn; lia|].
    repeat (apply Forall_cons_2; [split; [unfold in_s; cbn; lia | unfold sized, MAX_SIZE; cbn; lia]|]). apply Forall_nil_2.
  - unfold in_u; cbn; lia.
Qed.

Lemma transaction_round_trip_witness :
  (vin example_tx <> [] \/ vout example_tx = [] ->
   UnserializeTransaction true (SerializeTransaction true example_tx ++ [9]) = Some (example_tx, [9])) /\
  UnserializeTransaction false (SerializeTransaction false example_tx ++ [9]) = Some (strip example_tx, [9]) /\
  ComputeHash (strip example_tx) = ComputeHash example_tx.
Proof. apply (transaction_round_trip example_tx [9]). apply example_tx_valid. Defined.

(** Blocks, headers included, are read back from their serialization. *)
Theorem block_round_trip b rest :
  valid_block b -> Unserialize_CBlock true (Serialize_CBlock true b ++ rest) = Some (b, rest).
Proof.
  intros [Hh [Hs Hv]]. unfold Serialize_CBlock, Unserialize_CBlock. rewrite <- app_assoc.
  rewrite header_round_trip by done. cbn [mbind option_bind].
  rewrite (vector_reads _ _ (fun tx => tx)); [|done|].
  - cbn [mbind option_bind]. rewrite map_id. by destruct b.
  - revert Hv; apply List.Forall_impl; intros tx [? ?] r. by apply SerializeTransaction_reads.
Qed.

Definition example_block : CBlock :=
  mkBlock (mkHeader 4 (repeat 1 32) (repeat 2 32) 1600000000 0x1d00ffff 42 (repeat 3 32) (repeat 4 32)
             outpoint_null [0x30; 0x44]) [example_tx].

Lemma block_round_trip_witness :
  Unserialize_CBlock true (Serialize_CBlock true example_block ++ []) = Some (example_block, []).
Proof.
  apply (block_round_trip example_block []). constructor.
  - constructor; cbn; unfold sized, MAX_SIZE, in_s, valid_outpoint, in_u; cbn; unfold NULL_INDEX; repeat split; lia.
  - split; [unfold sized, MAX_SIZE; cbn; lia|]. apply Forall_cons_2; [|apply Forall_nil_2].
    split; [apply example_tx_valid | by left].
Defined.

(** Compact sizes and variable-length integers have exactly one encoding:
    a reader succeeds on a byte stream exactly when it starts with what the
    writer produces for the value read, so no value has a second encoding that
    is accepted. *)
Theorem integer_encodings_are_unique s n rest w :
  bytes_ok s -> 7 <= w <= 64 ->
  (ReadCompactSize s = Some (n, rest) <-> s = WriteCompactSize n ++ rest /\ 0 <= n <= MAX_SIZE) /\
  (ReadVarInt (2 ^ w - 1) s = Some (n, rest) <-> s = WriteVarInt n ++ rest /\ 0 <= n < 2 ^ w).
Proof.
  intros Hs Hw.
  assert (2 ^ w <= 2 ^ 64) by (apply Z.pow_le_mono_r; lia).
  assert (Hm : (2 ^ w - 1) mod 128 = 127).
  { replace w with (w - 7 + 7) by lia. rewrite Z.pow_add_r by lia. change (2 ^ 7) with 128.
    replace (2 ^ (w - 7) * 128 - 1) with (127 + (2 ^ (w - 7) - 1) * 128) by lia. by rewrite Z.mod_add. }
  split; split.
  - intros E. by apply compact_size_canonical in E as (-> & ? & _).
  - intros [-> ?]. by apply compact_size_round_trip.
  - intros E. apply (varint_unique _ s [] 0) in E as [E ?]; [split; [exact E|lia] | lia | done | done | by left | lia].
  - intros [-> ?]. by apply varint_round_trip_max; lia.
Qed.

Lemma integer_encodings_are_unique_witness :
  (ReadCompactSize [253; 0; 1; 5] = Some (256, [5]) <->
   [253; 0; 1; 5] = WriteCompactSize 256 ++ [5] /\ 0 <= 256 <= MAX_SIZE) /\
  (ReadVarInt (2 ^ 32 - 1) [253; 0; 1; 5] = Some (256, [5]) <->
   [253; 0; 1; 5] = WriteVarInt 256 ++ [5] /\ 0 <= 256 < 2 ^ 32).
Proof.
  apply (integer_encodings_are_unique [253; 0; 1; 5] 256 [5] 32); [|lia].
  unfold bytes_ok, in_u. repeat constructor; lia.
Defined.
