(* ===== verification/Merkle.v ===== *)
(** * Merkle: merkle roots and partial merkle trees
    (src/src/consensus/merkle.cpp, src/src/merkleblock.{h,cpp})

    [ComputeMerkleRoot] folds the list of identifiers level by level in place,
    with the double-hash routine that the node selected at start-up;
    [CPartialMerkleTree] computes nodes of the same tree by recursion on the
    height, encodes a selection of leaves as bits and hashes, and decodes it.
    The file proves that both compute the same root, that the duplication of
    a trailing leaf is detected, and that decoding undoes encoding. *)

From Stdlib Require Import ZArith List Lia Bool.
From stdpp Require Import base decidable list option.
From S2P Require Import Prelude Primitives HashBuffer Sha256 Hash Consensus Serialize.
Local Open Scope Z_scope.
Local Open Scope outcome_scope.

(** ** The selected double-hash routines

    [TransformD64_8way], [_4way] and [_2way] are null or point to code that
    handles several blocks at once (intrinsics, not modelled here): what
    merkle roots rely on is that they hash every block. *)

Class Dispatch := {
  way8 : option (bytes -> bytes);
  way4 : option (bytes -> bytes);
  way2 : option (bytes -> bytes) }.

Class DispatchLaws `{Dispatch} : Prop := {
  way8_ok : nway_ok 8 way8;
  way4_ok : nway_ok 4 way4;
  way2_ok : nway_ok 2 way2 }.

(** The portable build *)
Definition portable : Dispatch := {| way8 := None; way4 := None; way2 := None |}.

(** ** [ComputeMerkleRoot] *)

(** Cutting a byte array into [uint256]s *)
Fixpoint split32 (n : nat) (b : bytes) : list uint256 :=
  match n with
  | O => []
  | S n' => take 32 b :: split32 n' (drop 32 b)
  end.

(** [for (pos = 0; pos + 1 < hashes.size(); pos += 2)
       if (hashes[pos] == hashes[pos + 1]) mutation = true;] *)
Fixpoint has_equal_pair (hashes : list uint256) : bool :=
  match hashes with
  | a :: b :: rest => bytes_eqb a b || has_equal_pair rest
  | _ => false
  end.

(** One pass of the loop: duplicate an odd last entry, hash the pairs. *)
Definition merkle_level `{Dispatch} (hashes : list uint256) : list uint256 :=
  let hashes :=
    if negb (Z.land (Z.of_nat (length hashes)) 1 =? 0) then hashes ++ [List.last hashes uint256_null]
    else hashes in
  let blocks := (length hashes / 2)%nat in
  split32 blocks (SHA256D64 way8 way4 way2 (concat hashes) blocks).

Fixpoint ComputeMerkleRoot_loop `{Dispatch} (fuel : nat) (hashes : list uint256) (mutation : bool)
    : outcome (uint256 * bool) :=
  match fuel with
  | O => NoFuel
  | S fuel' =>
    if (1 <? length hashes)%nat then
      ComputeMerkleRoot_loop fuel' (merkle_level hashes) (mutation || has_equal_pair hashes)
    else match hashes with
         | [] => Ok (uint256_null, mutation)
         | h :: _ => Ok (h, mutation)
         end
  end.

(** The root and the value of [*mutated] for a non-null pointer. *)
Definition ComputeMerkleRoot `{Dispatch} (hashes : list uint256) : outcome (uint256 * bool) :=
  ComputeMerkleRoot_loop (S (length hashes)) hashes false.

Definition BlockMerkleRoot `{Dispatch} (block : CBlock) : outcome (uint256 * bool) :=
  ComputeMerkleRoot (map ComputeHash (vtx block)).

(** [leaves[0].SetNull()] and [leaves[1].SetNull()] are out of bounds on a
    block that is too short. *)
Definition BlockWitnessMerkleRoot `{Dispatch} (block : CBlock) (pfProofOfStake : option bool)
    : outcome (uint256 * bool) :=
  let fProofOfStake := match pfProofOfStake with
                       | Some b => b
                       | None => header_IsProofOfStake (blk_header block)
                       end in
  let first := (1 + if fProofOfStake then 1 else 0)%nat in
  if (length (vtx block) <? first)%nat then Fail
  else ComputeMerkleRoot
         (repeat uint256_null first ++ map ComputeWitnessHash (drop first (vtx block))).

(** ** [CPartialMerkleTree] *)

Record CPartialMerkleTree := mkPartial {
  nTransactions : Z;
  vBits : list bool;
  vHash : list uint256;
  fBad : bool }.

(** [(nTransactions+(1 << height)-1) >> height], in [unsigned int] *)
Definition CalcTreeWidth (n : Z) (height : nat) : Z :=
  Z.shiftr (u32 (n + Z.shiftl 1 (Z.of_nat height) - 1)) (Z.of_nat height).

(** [CalcHash(height, pos, vTxid)] *)
Fixpoint CalcHash (n : Z) (height : nat) (pos : Z) (vTxid : list uint256) : uint256 :=
  match height with
  | O => nth (Z.to_nat pos) vTxid uint256_null
  | S height' =>
    let left := CalcHash n height' (u32 (pos * 2)) vTxid in
    let right :=
      if u32 (pos * 2 + 1) <? CalcTreeWidth n height'
      then CalcHash n height' (u32 (pos * 2 + 1)) vTxid else left in
    Hash2 left right
  end.

(** [for (p = pos << height; p < (pos+1) << height && p < nTransactions; p++)
       fParentOfMatch |= vMatch[p];] *)
Definition parent_of_match (n : Z) (height : nat) (pos : Z) (vMatch : list bool) : bool :=
  let lo := u32 (Z.shiftl pos (Z.of_nat height)) in
  let hi := Z.min (u32 (Z.shiftl (u32 (pos + 1)) (Z.of_nat height))) n in
  existsb (fun p => nth p vMatch false) (seq (Z.to_nat lo) (Z.to_nat (hi - lo))).

(** [TraverseAndBuild]; the bits and hashes are appended to the object's. *)
Fixpoint TraverseAndBuild (n : Z) (height : nat) (pos : Z) (vTxid : list uint256) (vMatch : list bool)
    (out : list bool * list uint256) : list bool * list uint256 :=
  let fParentOfMatch := parent_of_match n height pos vMatch in
  let out := (out.1 ++ [fParentOfMatch], out.2) in
  match height with
  | O => (out.1, out.2 ++ [CalcHash n height pos vTxid])
  | S height' =>
    if negb fParentOfMatch then (out.1, out.2 ++ [CalcHash n height pos vTxid])
    else
      let out := TraverseAndBuild n height' (u32 (pos * 2)) vTxid vMatch out in
      if u32 (pos * 2 + 1) <? CalcTreeWidth n height'
      then TraverseAndBuild n height' (u32 (pos * 2 + 1)) vTxid vMatch out
      else out
  end.

(** [while (CalcTreeWidth(nHeight) > 1) nHeight++;] *)
Fixpoint tree_height_loop (fuel : nat) (n : Z) (nHeight : nat) : outcome nat :=
  match fuel with
  | O => NoFuel
  | S fuel' =>
    if 1 <? CalcTreeWidth n nHeight then tree_height_loop fuel' n (S nHeight) else Ok nHeight
  end.

Definition tree_height (n : Z) : outcome nat := tree_height_loop 32 n 0.

(** The constructor from identifiers and a selection *)
Definition CPartialMerkleTree_build (vTxid : list uint256) (vMatch : list bool) : outcome CPartialMerkleTree :=
  let n := u32 (Z.of_nat (length vTxid)) in
  nHeight <-! tree_height n ;
  if (length vTxid =? 0)%nat then Fail
  else
    let '(bits, hashes) := TraverseAndBuild n nHeight 0 vTxid vMatch ([], []) in
    Ok (mkPartial n bits hashes false).

(** The variables of [TraverseAndExtract] that are passed by reference, and
    the object's [fBad] *)
Record extract_state := mkExtract {
  nBitsUsed : nat;
  nHashUsed : nat;
  bad : bool;
  xMatch : list uint256;
  xIndex : list Z }.

Definition set_bad (st : extract_state) : extract_state :=
  mkExtract (nBitsUsed st) (nHashUsed st) true (xMatch st) (xIndex st).

Definition use_bit (st : extract_state) : extract_state :=
  mkExtract (S (nBitsUsed st)) (nHashUsed st) (bad st) (xMatch st) (xIndex st).

Definition use_hash (st : extract_state) : extract_state :=
  mkExtract (nBitsUsed st) (S (nHashUsed st)) (bad st) (xMatch st) (xIndex st).

Definition push_match (st : extract_state) (hash : uint256) (pos : Z) : extract_state :=
  mkExtract (nBitsUsed st) (nHashUsed st) (bad st) (xMatch st ++ [hash]) (xIndex st ++ [pos]).

Fixpoint TraverseAndExtract (t : CPartialMerkleTree) (height : nat) (pos : Z) (st : extract_state)
    : uint256 * extract_state :=
  match vBits t !! nBitsUsed st with
  | None => (uint256_null, set_bad st)
  | Some fParentOfMatch =>
    let st := use_bit st in
    let leaf :=
      match vHash t !! nHashUsed st with
      | None => (uint256_null, set_bad st)
      | Some hash =>
        let st := use_hash st in
        (hash, if (height =? 0)%nat && fParentOfMatch then push_match st hash pos else st)
      end in
    match height with
    | O => leaf
    | S height' =>
      if negb fParentOfMatch then leaf
      else
        let '(hl, st) := TraverseAndExtract t height' (u32 (pos * 2)) st in
        if u32 (pos * 2 + 1) <? CalcTreeWidth (nTransactions t) height' then
          let '(hr, st) := TraverseAndExtract t height' (u32 (pos * 2 + 1)) st in
          (Hash2 hl hr, if bytes_eqb hr hl then set_bad st else st)
        else (Hash2 hl hl, st)
    end
  end.

(** [ExtractMatches]: the root (null on failure) and the out-parameters;
    [vnIndex] is not cleared by the source. *)
Definition ExtractMatches (g : BlockSizeParams) (t : CPartialMerkleTree) (vnIndex : list Z)
    : outcome (uint256 * list uint256 * list Z) :=
  let n := nTransactions t in
  if n =? 0 then Ok (uint256_null, [], vnIndex)
  else if u32 (dgpMaxBlockSize g * WITNESS_SCALE_FACTOR) / MIN_TRANSACTION_WEIGHT <? n
  then Ok (uint256_null, [], vnIndex)
  else if n <? Z.of_nat (length (vHash t)) then Ok (uint256_null, [], vnIndex)
  else if (length (vBits t) <? length (vHash t))%nat then Ok (uint256_null, [], vnIndex)
  else
    nHeight <-! tree_height n ;
    let '(root, st) := TraverseAndExtract t nHeight 0 (mkExtract 0 0 (fBad t) [] vnIndex) in
    let root :=
      if bad st then uint256_null
      else if negb ((nBitsUsed st + 7) / 8 =? (length (vBits t) + 7) / 8)%nat then uint256_null
      else if negb (nHashUsed st =? length (vHash t))%nat then uint256_null
      else root in
    Ok (root, xMatch st, xIndex st).

(** [SerializationOp]: the flag bits as bytes, eight to a byte *)
Definition pack_bits (bits : list bool) : bytes :=
  for_range 0 (length bits)
    (fun p bytes =>
       upd bytes (p / 8) (Z.lor (nth (p / 8) bytes 0)
         (Z.shiftl (if nth p bits false then 1 else 0) (Z.of_nat (p mod 8)))))
    (repeat 0 ((length bits + 7) / 8)).

Definition unpack_bits (vBytes : bytes) : list bool :=
  map (fun p => negb (Z.land (nth (p / 8) vBytes 0) (Z.shiftl 1 (Z.of_nat (p mod 8))) =? 0))
      (seq 0 (length vBytes * 8)).

(** A tree after it has been written and read *)
Definition resent (t : CPartialMerkleTree) : CPartialMerkleTree :=
  mkPartial (nTransactions t) (unpack_bits (pack_bits (vBits t))) (vHash t) false.

(** ** The levels of the tree *)

(** The level above a level: pairs are hashed, a last odd entry with itself. *)
Fixpoint pair_up (l : list uint256) : list uint256 :=
  match l with
  | a :: b :: rest => Hash2 a b :: pair_up rest
  | [a] => [Hash2 a a]
  | [] => []
  end.

Fixpoint level (h : nat) (l : list uint256) : list uint256 :=
  match h with
  | O => l
  | S h' => pair_up (level h' l)
  end.

(** Induction two elements at a time *)
Lemma list_pair_ind {A} (P : list A -> Prop) :
  P [] -> (forall a, P [a]) -> (forall a b l, P l -> P (a :: b :: l)) -> forall l, P l.
Proof.
  intros H0 H1 H2 l. cut (P l /\ forall a, P (a :: l)); [tauto|].
  induction l as [|a l [IH1 IH2]]; [auto|]. split; [apply IH2|]. intros b. by apply H2.
Qed.

Lemma length_Hash2 (a b : uint256) : length (a ++ b) = 64%nat -> length (Hash2 a b) = 32%nat.
Proof. intros L. rewrite Hash2_spec by (rewrite L; lia). apply length_SHA256. Qed.

Definition ids (l : list uint256) : Prop := Forall (fun h => length h = 32%nat) l.

Lemma ids_pair (a b : uint256) : length a = 32%nat -> length b = 32%nat -> length (a ++ b) = 64%nat.
Proof. intros. rewrite length_app. lia. Qed.

Lemma pair_up_ids l : ids l -> ids (pair_up l).
Proof.
  induction l as [|a|a b l IH] using list_pair_ind; intros Hl; cbn [pair_up]; [done| |].
  - inversion Hl; subst. constructor; [|done]. by apply length_Hash2, ids_pair.
  - apply Forall_cons_iff in Hl as [? [? ?]%Forall_cons_iff].
    constructor; [by apply length_Hash2, ids_pair | by apply IH].
Qed.

Lemma level_ids h l : ids l -> ids (level h l).
Proof. intros. induction h; [done|]. by apply pair_up_ids. Qed.

Lemma pair_up_lookup l i :
  pair_up l !! i = a ← l !! (2 * i)%nat; Some (Hash2 a (default a (l !! (2 * i + 1)%nat))).
Proof.
  revert i; induction l as [|a|a b l IH] using list_pair_ind; intros i; cbn [pair_up].
  - by rewrite !lookup_nil.
  - destruct i; [done|]. cbn. by replace (i + S (i + 0))%nat with (S (i + (i + 0))) by lia.
  - destruct i; [done|]. rewrite !lookup_cons. replace (2 * S i)%nat with (S (S (2 * i))) by lia.
    replace (S (S (2 * i)) + 1)%nat with (S (S (2 * i + 1))) by lia. apply IH.
Qed.

Lemma length_pair_up l : length (pair_up l) = ((length l + 1) / 2)%nat.
Proof.
  induction l as [|a|a b l IH] using list_pair_ind; [done|done|]. cbn [pair_up length]. rewrite IH.
  replace (S (S (length l)) + 1)%nat with (length l + 1 + 1 * 2)%nat by lia. rewrite Nat.div_add by lia. lia.
Qed.

(** One pass of the loop computes the next level. *)
Section level.
Context `{DispatchLaws}.

Lemma split32_double_hashes l n :
  ids l -> length l = (2 * n)%nat -> split32 n (double_hashes n (concat l)) = pair_up l.
Proof.
  revert n; induction l as [|a|a b l IH] using list_pair_ind; intros n Hl L.
  - by destruct n.
  - cbn in L. lia.
  - destruct n as [|n]; [cbn in L; lia|]. apply Forall_cons_iff in Hl as [Ha [Hb Hl]%Forall_cons_iff].
    pose proof (ids_pair a b Ha Hb) as Lab. cbn [double_hashes concat split32 pair_up].
    rewrite app_assoc, take_app_length', drop_app_length' by done.
    assert (Lh : length (FIPS.SHA256 (FIPS.SHA256 (a ++ b))) = 32%nat) by apply length_SHA256.
    rewrite take_app_length', drop_app_length' by done. f_equal.
    + symmetry. apply Hash2_spec. rewrite Lab. lia.
    + apply IH; [done | cbn in L; lia].
Qed.

Lemma concat_length l : ids l -> length (concat l) = (32 * length l)%nat.
Proof. induction 1 as [|a l Ha Hl IH]; [done|]. cbn [concat length]. rewrite length_app, IH, Ha. lia. Qed.

Lemma pair_up_odd l a : (length l mod 2 = 0)%nat -> pair_up (l ++ [a]) = pair_up ((l ++ [a]) ++ [a]).
Proof.
  induction l as [|x|x y l IH] using list_pair_ind; intros Hl; [done|done|].
  cbn [app pair_up]. f_equal. apply IH.
  cbn [length] in Hl. replace (S (S (length l))) with (length l + 1 * 2)%nat in Hl by lia.
  by rewrite Nat.Div0.mod_add in Hl.
Qed.

Lemma land_1_odd k : negb (Z.land (Z.of_nat k) 1 =? 0) = (k mod 2 =? 1)%nat.
Proof.
  change 1 with (Z.ones 1) at 1. rewrite Z.land_ones by lia. change (2 ^ 1) with (Z.of_nat 2). rewrite <- Nat2Z.inj_mod.
  pose proof (Nat.mod_upper_bound k 2 ltac:(lia)).
  destruct (Nat.eqb_spec (k mod 2) 1) as [->|]; [done|]. by replace (k mod 2)%nat with 0%nat by lia.
Qed.

Lemma merkle_level_spec l : ids l -> merkle_level l = pair_up l.
Proof.
  intros Hl. unfold merkle_level. rewrite land_1_odd.
  assert (Heven : forall l, ids l -> (length l mod 2 = 0)%nat ->
    split32 (length l / 2) (SHA256D64 way8 way4 way2 (concat l) (length l / 2)) = pair_up l).
  { intros l' Hl' E. pose proof (Nat.div_mod_eq (length l') 2).
    rewrite SHA256D64_spec; [| apply way8_ok | apply way4_ok | apply way2_ok | rewrite concat_length by done; lia].
    apply split32_double_hashes; [done | lia]. }
  pose proof (Nat.mod_upper_bound (length l) 2 ltac:(lia)).
  destruct (Nat.eqb_spec (length l mod 2) 1) as [Hodd|Heq]; [|apply Heven; [done|lia]].
  destruct (List.exists_last (l := l)) as (l' & a & ->); [by intros ->|].
  rewrite List.last_last, length_app in *. cbn [length] in *.
  assert (Hmod : (length l' mod 2 = 0)%nat).
  { pose proof (Nat.div_mod_eq (length l' + 1) 2). pose proof (Nat.div_mod_eq (length l') 2).
    pose proof (Nat.mod_upper_bound (length l') 2 ltac:(lia)). lia. }
  rewrite pair_up_odd by done. apply Forall_app in Hl as [Hl' Ha]. rewrite <- (Heven ((l' ++ [a]) ++ [a])).
  - by rewrite !length_app.
  - unfold ids. rewrite !Forall_app. auto.
  - rewrite !length_app. cbn [length]. replace (length l' + 1 + 1)%nat with (length l' + 1 * 2)%nat by lia.
    by rewrite Nat.Div0.mod_add.
Qed.

End level.

(** ** Widths and heights *)

(** The number of nodes at height [h] over [n] leaves *)
Definition width (n : Z) (h : nat) : Z := (n + 2 ^ Z.of_nat h - 1) / 2 ^ Z.of_nat h.

Lemma pow_h_pos h : 0 < 2 ^ Z.of_nat h.
Proof. apply Z.pow_pos_nonneg; lia. Qed.

Lemma pow_h_S h : 2 ^ Z.of_nat (S h) = 2 * 2 ^ Z.of_nat h.
Proof. rewrite Nat2Z.inj_succ, Z.pow_succ_r by lia. done. Qed.

Lemma CalcTreeWidth_spec n h :
  0 <= n < 2 ^ 31 -> (h <= 31)%nat -> CalcTreeWidth n h = width n h.
Proof.
  intros Hn Hh. unfold CalcTreeWidth, width. rewrite Z.shiftr_div_pow2, Z.shiftl_1_l by lia.
  pose proof (pow_h_pos h). assert (2 ^ Z.of_nat h <= 2 ^ 31) by (apply Z.pow_le_mono_r; lia).
  rewrite wrap_small by (unfold in_u; lia). done.
Qed.

Lemma width_bounds n h p : p < width n h <-> p * 2 ^ Z.of_nat h < n.
Proof.
  unfold width. pose proof (pow_h_pos h) as Hp. set (w := 2 ^ Z.of_nat h) in *.
  pose proof (Z.div_mod (n + w - 1) w ltac:(lia)). pose proof (Z.mod_pos_bound (n + w - 1) w ltac:(lia)).
  set (q := (n + w - 1) / w) in *. nia.
Qed.

Lemma width_0 n : width n 0 = n.
Proof. unfold width. change (2 ^ Z.of_nat 0) with 1. rewrite Z.div_1_r. lia. Qed.

Lemma width_S n h : 0 <= n -> width n (S h) = (width n h + 1) / 2.
Proof.
  intros Hn. apply Z.div_unique_pos with ((width n h + 1) - 2 * width n (S h)); [|lia].
  assert (E : forall p, p < width n (S h) <-> 2 * p < width n h).
  { intros p. rewrite !width_bounds, pow_h_S. replace (p * (2 * 2 ^ Z.of_nat h)) with (2 * p * 2 ^ Z.of_nat h) by ring. done. }
  pose proof (E (width n (S h))). pose proof (E (width n (S h) - 1)). lia.
Qed.

Lemma width_pos n h : 1 <= n -> 1 <= width n h.
Proof. intros Hn. pose proof (proj2 (width_bounds n h 0)). lia. Qed.

Lemma width_le n h : 0 <= n -> width n h <= n.
Proof.
  intros. destruct (Z.le_gt_cases (width n h) n) as [|Hlt]; [done|].
  apply width_bounds in Hlt. pose proof (pow_h_pos h). nia.
Qed.

(** The number of passes of the loop over [CalcTreeWidth] *)
Lemma tree_height_loop_spec fuel n h :
  1 <= n < 2 ^ 31 -> (h + fuel = 32)%nat -> (0 < fuel)%nat ->
  exists H, tree_height_loop fuel n h = Ok H /\ (h <= H <= 31)%nat /\ width n H = 1 /\
    forall k, (h <= k < H)%nat -> 1 < width n k.
Proof.
  intros Hn. revert h; induction fuel as [|fuel IH]; intros h Hf Hpos; [lia|]. cbn [tree_height_loop].
  rewrite CalcTreeWidth_spec by lia. pose proof (width_pos n h ltac:(lia)).
  destruct (Z.ltb_spec 1 (width n h)) as [Hlt|Hge].
  - assert (fuel <> 0)%nat.
    { intros ->. apply width_bounds in Hlt. replace h with 31%nat in Hlt by lia. lia. }
    destruct (IH (S h)) as (H' & -> & ? & ? & Hk); [lia | lia |]. exists H'. split_and!; try done; try lia.
    intros k ?. destruct (decide (k = h)) as [->|]; [done|]. apply Hk. lia.
  - exists h. split_and!; try done; lia.
Qed.

Lemma tree_height_spec n :
  1 <= n < 2 ^ 31 ->
  exists H, tree_height n = Ok H /\ (H <= 31)%nat /\ width n H = 1 /\ forall k, (k < H)%nat -> 1 < width n k.
Proof.
  intros Hn. destruct (tree_height_loop_spec 32 n 0 Hn) as (H & EH & ? & ? & Hk); [lia|lia|].
  exists H. split_and!; try done; try lia. intros k ?. apply Hk. lia.
Qed.

(** ** Both computations of the root *)

Lemma length_level h l : Z.of_nat (length (level h l)) = width (Z.of_nat (length l)) h.
Proof.
  induction h as [|h IH]; [by rewrite width_0|]. cbn [level]. rewrite length_pair_up, width_S, <- IH by lia.
  rewrite Nat2Z.inj_div. f_equal. lia.
Qed.

Lemma has_equal_pair_spec (m : list uint256) :
  has_equal_pair m = true <-> exists i a, m !! (2 * i)%nat = Some a /\ m !! (2 * i + 1)%nat = Some a.
Proof.
  induction m as [|a|a b m IH] using list_pair_ind; cbn [has_equal_pair].
  - split; [done|]. by intros (i & a & ? & _).
  - split; [done|]. intros (i & x & _ & H). rewrite lookup_cons in H.
    by replace (2 * i + 1)%nat with (S (2 * i)) in H by lia.
  - rewrite orb_true_iff, bytes_eqb_eq, IH. split.
    + intros [->|(i & x & H1 & H2)]; [by exists 0%nat, b|]. exists (S i), x.
      replace (2 * S i)%nat with (S (S (2 * i))) by lia. done.
    + intros ([|i] & x & H1 & H2); [left; cbn in *; congruence|]. right. exists i, x.
      replace (2 * S i)%nat with (S (S (2 * i))) in * by lia. done.
Qed.

Section tree.
Context (l : list uint256) (Hl : ids l).
Abbreviation n := (Z.of_nat (length l)).
Context (Hn : 1 <= n < 2 ^ 31).

(** The children of a node *)
Lemma child_positions h pos :
  (h < 31)%nat -> 0 <= pos < width n (S h) ->
  u32 (pos * 2) = pos * 2 /\ u32 (pos * 2 + 1) = pos * 2 + 1 /\ 0 <= pos * 2 < width n h.
Proof.
  intros Hh Hp. pose proof (width_le n (S h) ltac:(lia)).
  rewrite !wrap_small by (unfold in_u; lia). split_and!; try lia.
  destruct Hp as [_ Hp]. rewrite width_bounds, pow_h_S in *. lia.
Qed.

(** [CalcHash] gives the entries of the levels. *)
Lemma CalcHash_level h pos :
  (h <= 31)%nat -> 0 <= pos < width n h -> level h l !! Z.to_nat pos = Some (CalcHash n h pos l).
Proof.
  revert pos; induction h as [|h IH]; intros pos Hh Hp; cbn [level CalcHash].
  - rewrite width_0 in Hp. destruct (lookup_lt_is_Some_2 l (Z.to_nat pos)) as [x E]; [lia|].
    rewrite E. f_equal. symmetry. by apply nth_lookup_Some.
  - destruct (child_positions h pos) as (-> & -> & ?); [lia | done |].
    rewrite pair_up_lookup. replace (2 * Z.to_nat pos)%nat with (Z.to_nat (pos * 2)) by lia.
    rewrite IH by lia. cbn [mbind option_bind]. rewrite CalcTreeWidth_spec by lia.
    replace (Z.to_nat (pos * 2) + 1)%nat with (Z.to_nat (pos * 2 + 1)) by lia.
    destruct (Z.ltb_spec (pos * 2 + 1) (width n h)).
    + by rewrite IH by lia.
    + rewrite lookup_ge_None_2; [done|]. apply Nat2Z.inj_le. rewrite length_level. lia.
Qed.

(** Some pair of siblings of level [h] is equal. *)
Definition equal_siblings (h : nat) : Prop :=
  exists pos, 0 <= pos /\ pos * 2 + 1 < width n h /\
    CalcHash n h (pos * 2) l = CalcHash n h (pos * 2 + 1) l.

Lemma has_equal_pair_level h :
  (h <= 31)%nat -> has_equal_pair (level h l) = true <-> equal_siblings h.
Proof.
  intros Hh. rewrite has_equal_pair_spec. pose proof (length_level h l) as L. unfold equal_siblings. split.
  - intros (i & x & H1 & H2). exists (Z.of_nat i). pose proof (lookup_lt_Some _ _ _ H2).
    assert (E : forall p, 0 <= p < width n h -> forall k, Z.to_nat p = k -> level h l !! k = Some x ->
      CalcHash n h p l = x).
    { intros p Hp k <- Hx. rewrite CalcHash_level in Hx by done. congruence. }
    split_and!; [lia | lia |].
    rewrite (E (Z.of_nat i * 2) ltac:(lia) (2 * i)%nat ltac:(lia) H1).
    by rewrite (E (Z.of_nat i * 2 + 1) ltac:(lia) (2 * i + 1)%nat ltac:(lia) H2).
  - intros (p & Hp & Hlt & E). exists (Z.to_nat p), (CalcHash n h (p * 2) l).
    replace (2 * Z.to_nat p)%nat with (Z.to_nat (p * 2)) by lia.
    replace (Z.to_nat (p * 2) + 1)%nat with (Z.to_nat (p * 2 + 1)) by lia.
    split; [|rewrite E]; apply CalcHash_level; lia.
Qed.

Context `{Dis : Dispatch} `{Laws : !DispatchLaws}.

Lemma ComputeMerkleRoot_loop_spec fuel h H m :
  (forall k, (h <= k < H)%nat -> 1 < width n k) -> width n H = 1 -> (h <= H <= 31)%nat -> (H - h < fuel)%nat ->
  exists m', ComputeMerkleRoot_loop fuel (level h l) m = Ok (CalcHash n H 0 l, m') /\
    (m' = true <-> m = true \/ exists k, (h <= k < H)%nat /\ equal_siblings k).
Proof.
  intros Hk HH. revert h m Hk; induction fuel as [|fuel IH]; intros h m Hk Hle Hf; [lia|].
  cbn [ComputeMerkleRoot_loop]. pose proof (length_level h l) as L.
  destruct (decide (h = H)) as [->|Hne].
  - assert (length (level H l) = 1%nat) as L1 by lia. rewrite L1. change (1 <? 1)%nat with false. cbv iota.
    pose proof (CalcHash_level H 0 ltac:(lia) ltac:(lia)) as E.
    destruct (level H l) as [|x rest]; [done|]. cbn in E. injection E as <-.
    exists m. split; [done|]. split; [by left|]. intros [|(k & ? & _)]; [done|lia].
  - pose proof (Hk h ltac:(lia)). destruct (Nat.ltb_spec 1 (length (level h l))); [|lia].
    rewrite merkle_level_spec by (by apply level_ids). change (pair_up (level h l)) with (level (S h) l).
    destruct (IH (S h) (m || has_equal_pair (level h l))) as (m' & -> & Hm'); [intros; apply Hk; lia | lia | lia |].
    exists m'. split; [done|]. rewrite Hm', orb_true_iff, has_equal_pair_level by lia. split.
    + intros [[|]|(k & ? & ?)]; [by left | right; exists h; split; [lia|done] | right; exists k; split; [lia|done]].
    + intros [|(k & ? & ?)]; [by left; left|]. destruct (decide (k = h)) as [->|]; [by left; right|].
      right. exists k. split; [lia|done].
Qed.

(** The root is the node of the tree at full height; [mutated] tells whether
    two siblings are equal somewhere below it. *)
Lemma ComputeMerkleRoot_spec :
  exists H m, tree_height n = Ok H /\ (H <= 31)%nat /\ width n H = 1 /\
    ComputeMerkleRoot l = Ok (CalcHash n H 0 l, m) /\
    (m = true <-> exists k, (k < H)%nat /\ equal_siblings k).
Proof.
  destruct (tree_height_spec n Hn) as (H' & EH & Hle & HH & Hk).
  assert (Hfuel : (H' - 0 < S (length l))%nat).
  { destruct H' as [|H']; [lia|]. pose proof (Hk H' ltac:(lia)) as Hw. apply width_bounds in Hw.
    assert (Z.of_nat H' < 2 ^ Z.of_nat H') by (apply Z.pow_gt_lin_r; lia). lia. }
  destruct (ComputeMerkleRoot_loop_spec (S (length l)) 0 H' false) as (m & E & Hm); [intros; apply Hk; lia | done | lia | done |].
  exists H', m. do 4 (split; [done|]). rewrite Hm. split.
  - intros [|(k & ? & ?)]; [done|]. exists k. split; [lia|done].
  - intros (k & ? & ?). right. exists k. split; [lia|done].
Qed.

End tree.

(** ** Encoding and decoding a selection of leaves *)

Section partial.
Context (l : list uint256) (Hl : ids l).
Abbreviation n := (Z.of_nat (length l)).
Context (Hn : 1 <= n < 2 ^ 31) (M : list bool).

(** The positions of the leaves under a node, and the selected ones *)
Definition leaves (h : nat) (pos : Z) : list Z :=
  seqZ (pos * 2 ^ Z.of_nat h) (Z.min ((pos + 1) * 2 ^ Z.of_nat h) n - pos * 2 ^ Z.of_nat h).

Definition selected (p : Z) : bool := nth (Z.to_nat p) M false.

Definition matched (h : nat) (pos : Z) : list Z := List.filter selected (leaves h pos).

Lemma leaves_S h pos :
  0 <= pos -> pos * 2 * 2 ^ Z.of_nat h < n -> leaves (S h) pos = leaves h (pos * 2) ++ leaves h (pos * 2 + 1).
Proof.
  intros Hp Hlt. unfold leaves. rewrite pow_h_S. pose proof (pow_h_pos h). set (w := 2 ^ Z.of_nat h) in *.
  destruct (Z.le_gt_cases n ((pos * 2 + 1) * w)).
  - rewrite (seqZ_nil ((pos * 2 + 1) * w)) by lia. rewrite app_nil_r. f_equal; lia.
  - replace (Z.min ((pos + 1) * (2 * w)) n - pos * (2 * w)) with
      (w + (Z.min ((pos * 2 + 1 + 1) * w) n - (pos * 2 + 1) * w)) by lia.
    rewrite seqZ_app by lia. f_equal; f_equal; lia.
Qed.

Lemma leaves_beyond h pos : width n h <= pos -> leaves h pos = [].
Proof. intros Hw. apply seqZ_nil. pose proof (width_bounds n h pos). lia. Qed.

Lemma existsb_seq (g : nat -> bool) (f : Z -> bool) (lo len : nat) :
  (forall p, g p = f (Z.of_nat p)) ->
  existsb g (seq lo len) = existsb f (seqZ (Z.of_nat lo) (Z.of_nat len)).
Proof.
  intros E. revert lo; induction len as [|len IH]; intros lo; [done|].
  rewrite seqZ_cons by lia. cbn [seq existsb]. rewrite IH, E.
  by replace (Z.pred (Z.of_nat (S len))) with (Z.of_nat len) by lia; rewrite Nat2Z.inj_succ.
Qed.

Lemma existsb_filter {A} (f : A -> bool) (v : list A) : existsb f v = negb (length (List.filter f v) =? 0)%nat.
Proof. induction v as [|a v IH]; [done|]. cbn [existsb List.filter]. by destruct (f a). Qed.

(** [fParentOfMatch] tells whether a selected leaf is below the node. *)
Lemma parent_of_match_spec h pos :
  (h <= 31)%nat -> 0 <= pos < width n h ->
  parent_of_match n h pos M = negb (length (matched h pos) =? 0)%nat.
Proof.
  intros Hh [Hp Hw]. apply width_bounds in Hw. unfold parent_of_match, matched, leaves.
  pose proof (pow_h_pos h). assert (2 ^ Z.of_nat h <= 2 ^ 31) by (apply Z.pow_le_mono_r; lia).
  rewrite !Z.shiftl_mul_pow2 by lia. set (w := 2 ^ Z.of_nat h) in *.
  assert (pos < 2 ^ 31) by nia.
  rewrite (wrap_small 32 (pos + 1)) by (unfold in_u; lia).
  rewrite !wrap_small by (unfold in_u; nia).
  rewrite <- existsb_filter.
  set (lo := pos * w). set (len := Z.min ((pos + 1) * w) n - lo).
  assert (0 <= lo) by (unfold lo; nia). assert (0 <= len) by (unfold len, lo; nia).
  rewrite <- (Z2Nat.id lo), <- (Z2Nat.id len) by done. rewrite !Nat2Z.id.
  apply existsb_seq. intros p. unfold selected. by rewrite Nat2Z.id.
Qed.

(** What [TraverseAndBuild] appends for a node *)
Fixpoint bits_of (h : nat) (pos : Z) : list bool :=
  let m := negb (length (matched h pos) =? 0)%nat in
  m :: match h with
       | O => []
       | S h' => if m then bits_of h' (pos * 2) ++
                   (if pos * 2 + 1 <? width n h' then bits_of h' (pos * 2 + 1) else [])
                 else []
       end.

Fixpoint hashes_of (h : nat) (pos : Z) : list uint256 :=
  match h with
  | O => [CalcHash n h pos l]
  | S h' => if negb (length (matched h pos) =? 0)%nat then
              hashes_of h' (pos * 2) ++
              (if pos * 2 + 1 <? width n h' then hashes_of h' (pos * 2 + 1) else [])
            else [CalcHash n h pos l]
  end.

Lemma TraverseAndBuild_spec h pos out :
  (h <= 31)%nat -> 0 <= pos < width n h ->
  TraverseAndBuild n h pos l M out = (out.1 ++ bits_of h pos, out.2 ++ hashes_of h pos).
Proof.
  revert pos out; induction h as [|h IH]; intros pos out Hh Hp.
  - cbn [TraverseAndBuild bits_of hashes_of]. by rewrite parent_of_match_spec.
  - cbn [TraverseAndBuild]. rewrite parent_of_match_spec by done. cbn [bits_of hashes_of].
    destruct (negb (length (matched (S h) pos) =? 0)%nat); cbn [negb fst snd]; [|done].
    destruct (child_positions l Hn h pos) as (-> & -> & ?); [lia | done |].
    rewrite CalcTreeWidth_spec, (IH (pos * 2)) by lia. cbn [fst snd].
    destruct (Z.ltb_spec (pos * 2 + 1) (width n h)).
    + rewrite IH by lia. cbn [fst snd]. by rewrite <- !app_assoc.
    + by rewrite !app_nil_r, <- !app_assoc.
Qed.

Lemma matched_S h pos :
  0 <= pos < width n (S h) -> matched (S h) pos = matched h (pos * 2) ++ matched h (pos * 2 + 1).
Proof.
  intros [Hp Hw]. apply width_bounds in Hw. rewrite pow_h_S in Hw.
  unfold matched. rewrite leaves_S by lia. apply List.filter_app.
Qed.

(** No hash is stored that a leaf below does not pay for. *)
Lemma hashes_of_length h pos :
  0 <= pos < width n h ->
  (length (hashes_of h pos) <= length (leaves h pos))%nat /\
  (length (hashes_of h pos) <= length (bits_of h pos))%nat.
Proof.
  revert pos; induction h as [|h IH]; intros pos Hp.
  - cbn [hashes_of bits_of length]. unfold leaves. rewrite length_seqZ. change (2 ^ Z.of_nat 0) with 1.
    rewrite width_0 in Hp. lia.
  - assert (Hlo : 0 <= pos * 2 < width n h).
    { destruct Hp as [? Hw]. rewrite width_bounds, pow_h_S in *. lia. }
    assert (L : length (leaves (S h) pos) = (length (leaves h (pos * 2)) + length (leaves h (pos * 2 + 1)))%nat).
    { rewrite leaves_S, length_app; [done | lia |]. apply width_bounds. lia. }
    rewrite L. cbn [hashes_of bits_of]. destruct (IH _ Hlo) as [I1 I2].
    destruct (negb (length (matched (S h) pos) =? 0)%nat); cbn [length].
    2: { destruct h; cbn [bits_of hashes_of length] in *; [lia|].
         assert (0 < length (leaves (S h) (pos * 2)))%nat; [|lia].
         unfold leaves. rewrite length_seqZ. destruct Hlo as [? Hw]. apply width_bounds in Hw.
         pose proof (pow_h_pos (S h)). nia. }
    rewrite !length_app. destruct (Z.ltb_spec (pos * 2 + 1) (width n h)); cbn [length].
    + destruct (IH (pos * 2 + 1)) as [J1 J2]; [lia|]. lia.
    + lia.
Qed.

(** The leaves selected below a node, and the state after extracting it *)
Definition after (h : nat) (pos : Z) (st : extract_state) : extract_state :=
  mkExtract (nBitsUsed st + length (bits_of h pos)) (nHashUsed st + length (hashes_of h pos)) (bad st)
    (xMatch st ++ map (fun p => nth (Z.to_nat p) l uint256_null) (matched h pos))
    (xIndex st ++ matched h pos).

(** Part [x] of a vector starts at index [i]. *)
Definition part {A} (v : list A) (i : nat) (x : list A) : Prop :=
  exists pre suf, v = pre ++ x ++ suf /\ length pre = i.

Lemma part_head {A} (v : list A) i a x : part v i (a :: x) -> v !! i = Some a /\ part v (S i) x.
Proof.
  intros (pre & suf & -> & <-). split; [by apply list_lookup_middle|].
  exists (pre ++ [a]), suf. rewrite <- app_assoc, length_app. cbn. split; [done|lia].
Qed.

Lemma part_app {A} (v : list A) i x y : part v i (x ++ y) -> part v i x /\ part v (i + length x) y.
Proof.
  intros (pre & suf & -> & <-). split.
  - exists pre, (y ++ suf). by rewrite <- app_assoc.
  - exists (pre ++ x), suf. rewrite <- !app_assoc, length_app. done.
Qed.

Lemma matched_0 pos :
  0 <= pos < n -> matched 0 pos = if selected pos then [pos] else [].
Proof.
  intros Hp. unfold matched, leaves. change (2 ^ Z.of_nat 0) with 1.
  replace (Z.min ((pos + 1) * 1) n - pos * 1) with 1 by lia. rewrite Z.mul_1_r. reflexivity.
Qed.

Lemma TraverseAndExtract_spec t h pos st :
  nTransactions t = n -> (forall k, (k < h)%nat -> ~ equal_siblings l k) ->
  (h <= 31)%nat -> 0 <= pos < width n h ->
  part (vBits t) (nBitsUsed st) (bits_of h pos) -> part (vHash t) (nHashUsed st) (hashes_of h pos) ->
  TraverseAndExtract t h pos st = (CalcHash n h pos l, after h pos st).
Proof.
  intros Ht. revert pos st; induction h as [|h IH]; intros pos st Hsib Hh Hp HB HH.
  - cbn [bits_of hashes_of] in *. apply part_head in HB as [EB _]. apply part_head in HH as [EH _].
    cbn [TraverseAndExtract]. rewrite EB. cbn [use_bit nHashUsed]. rewrite EH.
    unfold after. cbn [bits_of hashes_of length Nat.eqb andb]. rewrite width_0 in Hp.
    rewrite matched_0 by done. destruct (selected pos); cbn [length Nat.eqb negb]; unfold push_match, use_hash, use_bit;
      cbn; rewrite ?app_nil_r; do 2 f_equal; lia.
  - cbn [bits_of] in HB. apply part_head in HB as [EB HB]. cbn [TraverseAndExtract]. rewrite EB.
    cbn [hashes_of] in HH.
    destruct (negb (length (matched (S h) pos) =? 0)%nat) eqn:Em; cbn [negb].
    2: { apply part_head in HH as [EH _]. cbn [use_bit nHashUsed]. rewrite EH. cbn [Nat.eqb andb].
         unfold after. cbn [bits_of hashes_of]. rewrite Em. apply negb_false_iff, Nat.eqb_eq, nil_length_inv in Em.
         rewrite Em. cbn [length map]. rewrite !app_nil_r. unfold use_hash, use_bit. cbn. do 2 f_equal; lia. }
    destruct (child_positions l Hn h pos) as (E2 & E21 & ?); [lia | done |]. rewrite E2, E21, Ht.
    apply part_app in HB as [HB1 HB2]. apply part_app in HH as [HH1 HH2].
    rewrite (IH (pos * 2) (use_bit st)) by (auto || lia).
    rewrite CalcTreeWidth_spec by lia.
    assert (EC : CalcHash n (S h) pos l = Hash2 (CalcHash n h (pos * 2) l)
      (if pos * 2 + 1 <? width n h then CalcHash n h (pos * 2 + 1) l else CalcHash n h (pos * 2) l)).
    { cbn [CalcHash]. by rewrite E2, E21, CalcTreeWidth_spec by lia. }
    rewrite EC. unfold after at 3. cbn [bits_of hashes_of]. rewrite Em, matched_S, map_app by done.
    destruct (Z.ltb_spec (pos * 2 + 1) (width n h)).
    + rewrite (IH (pos * 2 + 1)) by (auto || lia).
      destruct (bytes_eqb _ _) eqn:Eeq.
      { apply bytes_eqb_eq in Eeq. destruct (Hsib h ltac:(lia)). exists pos. split_and!; [lia | lia | done]. }
      unfold after, use_bit. cbn. rewrite !length_app, <- !app_assoc. do 2 f_equal; lia.
    + assert (Enil : matched h (pos * 2 + 1) = []) by (unfold matched; by rewrite leaves_beyond).
      rewrite Enil. cbn [map]. unfold after, use_bit. cbn. rewrite !length_app, !app_nil_r. cbn. do 2 f_equal; lia.
Qed.

(** At full height every leaf is below the only node. *)
Lemma leaves_root T : width n T = 1 -> leaves T 0 = seqZ 0 n.
Proof.
  intros HT. unfold leaves. rewrite !Z.mul_0_l, Z.sub_0_r. f_equal.
  pose proof (width_bounds n T 1). lia.
Qed.

End partial.

(** ** Flag bits in bytes *)

(** One step of the packing loop: the bit [p] goes to its place. *)
Lemma pack_step (bytes : bytes) (b : bool) (p j i : nat) :
  (p / 8 < length bytes)%nat -> (i < 8)%nat ->
  Z.testbit (nth j (upd bytes (p / 8) (Z.lor (nth (p / 8) bytes 0)
      (Z.shiftl (if b then 1 else 0) (Z.of_nat (p mod 8))))) 0) (Z.of_nat i)
  = Z.testbit (nth j bytes 0) (Z.of_nat i) || (8 * j + i =? p)%nat && b.
Proof.
  intros Hp Hi. pose proof (Nat.div_mod p 8 ltac:(lia)). pose proof (Nat.mod_upper_bound p 8 ltac:(lia)).
  destruct (Nat.eqb_spec (8 * j + i) p) as [E|E]; cbn [andb].
  - assert (j = (p / 8)%nat /\ i = (p mod 8)%nat) as [-> ->] by lia.
    rewrite nth_upd_eq, Z.lor_spec, Z.shiftl_spec, Z.sub_diag by lia. by destruct b.
  - rewrite orb_false_r. destruct (Nat.eq_dec (p / 8)%nat j) as [<-|]; [|by rewrite nth_upd_ne].
    rewrite nth_upd_eq, Z.lor_spec, Z.shiftl_spec by lia.
    assert (Z.testbit (if b then 1 else 0) (Z.of_nat i - Z.of_nat (p mod 8)) = false) as ->; [|by rewrite orb_false_r].
    destruct (Z.lt_ge_cases (Z.of_nat i - Z.of_nat (p mod 8)) 0); [by apply Z.testbit_neg_r|].
    destruct b; [|by rewrite Z.bits_0]. rewrite Z.bits_above_log2; [done | lia |]. change (Z.log2 1) with 0. lia.
Qed.

Lemma pack_bits_spec (bits : list bool) :
  length (pack_bits bits) = ((length bits + 7) / 8)%nat /\
  forall j i, (i < 8)%nat -> Z.testbit (nth j (pack_bits bits) 0) (Z.of_nat i) = nth (8 * j + i) bits false.
Proof.
  enough (Hinv : length (pack_bits bits) = ((length bits + 7) / 8)%nat /\ forall j i, (i < 8)%nat ->
    Z.testbit (nth j (pack_bits bits) 0) (Z.of_nat i) = (8 * j + i <? length bits)%nat && nth (8 * j + i) bits false).
  { destruct Hinv as [HL Hb]. split; [done|]. intros j i Hi. rewrite Hb by done.
    destruct (Nat.ltb_spec (8 * j + i) (length bits)); [done|]. by rewrite nth_overflow. }
  unfold pack_bits. apply (for_range_inv (fun m (bytes : bytes) => length bytes = ((length bits + 7) / 8)%nat /\
    forall j i, (i < 8)%nat ->
      Z.testbit (nth j bytes 0) (Z.of_nat i) = (8 * j + i <? m)%nat && nth (8 * j + i) bits false)).
  - split; [by rewrite repeat_length|]. intros j i Hi. rewrite nth_repeat. by rewrite Z.bits_0.
  - intros m bytes Hm [HL Hb]. split; [by rewrite length_upd|]. intros j i Hi. cbn [Nat.add].
    rewrite pack_step, Hb; [|done| |done].
    2: { rewrite HL. pose proof (Nat.div_mod m 8 ltac:(lia)). pose proof (Nat.div_mod (length bits + 7) 8 ltac:(lia)).
         pose proof (Nat.mod_upper_bound (length bits + 7) 8 ltac:(lia)). lia. }
    destruct (Nat.eqb_spec (8 * j + i) m) as [->|], (Nat.ltb_spec m m), (Nat.ltb_spec m (S m)); try lia; [done|].
    destruct (Nat.ltb_spec (8 * j + i) m), (Nat.ltb_spec (8 * j + i) (S m)); try lia; cbn [andb]; by rewrite ?orb_false_r.
Qed.

(** Reading back what was written gives the bits and a padding of zeros. *)
Lemma unpack_pack (bits : list bool) :
  unpack_bits (pack_bits bits) = bits ++ repeat false ((length bits + 7) / 8 * 8 - length bits).
Proof.
  destruct (pack_bits_spec bits) as [HL Hb]. unfold unpack_bits. rewrite HL.
  pose proof (Nat.div_mod (length bits + 7) 8 ltac:(lia)). pose proof (Nat.mod_upper_bound (length bits + 7) 8 ltac:(lia)).
  apply (nth_ext _ _ false false).
  { rewrite length_map, length_seq, length_app, repeat_length. lia. }
  intros k Hk. rewrite length_map, length_seq in Hk.
  rewrite (nth_indep _ false ((fun p => negb (Z.land (nth (p / 8) (pack_bits bits) 0) (Z.shiftl 1 (Z.of_nat (p mod 8))) =? 0)) 0%nat))
    by (by rewrite length_map, length_seq).
  rewrite (map_nth (fun p => negb _)), seq_nth, land_bit, Hb by (done || (apply Nat.mod_upper_bound; lia)).
  cbn [Nat.add]. rewrite <- Nat.div_mod by lia.
  destruct (Nat.lt_ge_cases k (length bits)); [by rewrite app_nth1|].
  rewrite app_nth2, nth_repeat by lia. by apply nth_overflow.
Qed.

(** ** What a received proof shows *)

(** The pairs that are hashed to compute a node of the tree of a list *)
Fixpoint tree_pairs (n : Z) (height : nat) (pos : Z) (vTxid : list uint256) : list (uint256 * uint256) :=
  match height with
  | O => []
  | S height' =>
    let left := CalcHash n height' (u32 (pos * 2)) vTxid in
    if u32 (pos * 2 + 1) <? CalcTreeWidth n height' then
      (left, CalcHash n height' (u32 (pos * 2 + 1)) vTxid) :: tree_pairs n height' (u32 (pos * 2)) vTxid ++ tree_pairs n height' (u32 (pos * 2 + 1)) vTxid
    else (left, left) :: tree_pairs n height' (u32 (pos * 2)) vTxid
  end.

(** The pairs that are hashed to check a partial tree *)
Fixpoint proof_pairs (t : CPartialMerkleTree) (height : nat) (pos : Z) (st : extract_state) : list (uint256 * uint256) :=
  match height, vBits t !! nBitsUsed st with
  | S height', Some true =>
    let st := use_bit st in
    let '(hl, st1) := TraverseAndExtract t height' (u32 (pos * 2)) st in
    if u32 (pos * 2 + 1) <? CalcTreeWidth (nTransactions t) height' then
      let '(hr, _) := TraverseAndExtract t height' (u32 (pos * 2 + 1)) st1 in
      (hl, hr) :: proof_pairs t height' (u32 (pos * 2)) st ++ proof_pairs t height' (u32 (pos * 2 + 1)) st1
    else (hl, hl) :: proof_pairs t height' (u32 (pos * 2)) st
  | _, _ => []
  end.

(** A pair hashed for the tree and a different one hashed for the proof have
    the same hash. *)
Definition collide (X Y : list (uint256 * uint256)) : Prop :=
  exists x y, x ∈ X /\ y ∈ Y /\ x <> y /\ Hash2 (fst x) (snd x) = Hash2 (fst y) (snd y).

Lemma collide_cons X Y x y : collide X Y -> collide (x :: X) (y :: Y).
Proof. intros (a & b & Ha & Hb & Hab). exists a, b. split; [by right|]. split; [by right|exact Hab]. Qed.

Lemma collide_app_l X Y X' Y' x y : collide X Y -> collide (x :: X ++ X') (y :: Y ++ Y').
Proof. intros (a & b & Ha & Hb & Hab). apply collide_cons. exists a, b. rewrite !elem_of_app. auto. Qed.

Lemma collide_app_r X Y X' Y' x y : collide X Y -> collide (x :: X' ++ X) (y :: Y' ++ Y).
Proof. intros (a & b & Ha & Hb & Hab). apply collide_cons. exists a, b. rewrite !elem_of_app. auto. Qed.

#[local] Opaque Hash2.

Lemma Hash2_cases (a b c d : uint256) X Y :
  Hash2 a b = Hash2 c d -> (c, d) ∈ X -> (a, b) ∈ Y -> (a = c /\ b = d) \/ collide X Y.
Proof.
  intros E Hx Hy. destruct (decide (a = c /\ b = d)) as [Heq|Hne]; [left; exact Heq|right]. exists (c, d), (a, b).
  split; [exact Hx|]. split; [exact Hy|]. split; [|exact (eq_sym E)]. intros [= -> ->]. apply Hne. split; reflexivity.
Qed.

Section soundness.
Context (l : list uint256).
Abbreviation n := (Z.of_nat (length l)).
Context (Hn : 1 <= n < 2 ^ 31) (t : CPartialMerkleTree) (Ht : nTransactions t = n).

(** The pairs reported are entries of the list. *)
Definition genuine (st : extract_state) : Prop :=
  Forall2 (fun id pos => 0 <= pos /\ l !! Z.to_nat pos = Some id) (xMatch st) (xIndex st).

Lemma TraverseAndExtract_sound h pos st :
  (h <= 31)%nat -> 0 <= pos < width n h -> genuine st ->
  (TraverseAndExtract t h pos st).1 = CalcHash n h pos l ->
  genuine (TraverseAndExtract t h pos st).2 \/ collide (tree_pairs n h pos l) (proof_pairs t h pos st).
Proof.
  revert pos st; induction h as [|h IH]; intros pos st Hh Hp Hst; cbn [TraverseAndExtract tree_pairs proof_pairs];
    (destruct (vBits t !! nBitsUsed st) as [b|]; [|by left]).
  - cbn [use_bit nHashUsed Nat.eqb andb]. destruct (vHash t !! nHashUsed st) as [hash|]; [|by left].
    cbn [fst snd CalcHash]. intros ->. left. destruct b; [|done]. apply Forall2_app; [done|].
    rewrite width_0 in Hp. repeat constructor; [lia|]. destruct (nth_lookup_or_length l (Z.to_nat pos) uint256_null); [done | lia].
  - destruct b; cbn [negb]; [|left; cbn; by destruct (vHash t !! _)].
    cbn [CalcHash].
    destruct (child_positions l Hn h pos) as (-> & -> & ?); [lia | done |]. rewrite Ht, CalcTreeWidth_spec by lia.
    pose proof (IH (pos * 2) (use_bit st) ltac:(lia) ltac:(lia) Hst) as IH1.
    destruct (TraverseAndExtract t h (pos * 2) _) as [hl st1]. cbn [fst snd] in *.
    destruct (Z.ltb_spec (pos * 2 + 1) (width n h)).
    + pose proof (IH (pos * 2 + 1) st1 ltac:(lia) ltac:(lia)) as IH2.
      destruct (TraverseAndExtract t h (pos * 2 + 1) _) as [hr st2]. cbn [fst snd] in *.
      intros E. eapply Hash2_cases in E as [[E1 E2]|Hc]; [|right; exact Hc|apply elem_of_cons; by left..].
      destruct (IH1 E1) as [G1|Hc]; [|right; exact (collide_app_l _ _ _ _ _ _ Hc)].
      destruct (IH2 G1 E2) as [G2|Hc]; [|right; exact (collide_app_r _ _ _ _ _ _ Hc)].
      left. by destruct (bytes_eqb hr hl).
    + intros E. eapply Hash2_cases in E as [[E1 _]|Hc]; [|right; exact Hc|apply elem_of_cons; by left..].
      destruct (IH1 E1) as [G1|Hc]; [by left|right; exact (collide_cons _ _ _ _ Hc)].
Qed.
End soundness.

(** ** Main theorems *)

#[local] Opaque TraverseAndBuild TraverseAndExtract CalcHash.

(** The root does not depend on the spare fuel or on the mutations seen. *)
Lemma ComputeMerkleRoot_loop_more `{Dispatch} f f' x m m2 r m' :
  ComputeMerkleRoot_loop f x m = Ok (r, m') -> (f <= f')%nat ->
  exists m2', ComputeMerkleRoot_loop f' x m2 = Ok (r, m2') /\ (m2 = true -> m2' = true).
Proof.
  revert f' x m m2; induction f as [|f IH]; intros f' x m m2; [done|].
  destruct f' as [|f']; [lia|]. cbn [ComputeMerkleRoot_loop]. intros E Hle.
  destruct (1 <? length x)%nat.
  - destruct (IH f' _ _ (m2 || has_equal_pair x) E ltac:(lia)) as (m2' & -> & Hm).
    exists m2'. split; [done|]. intros ->. by apply Hm.
  - destruct x; injection E as <- _; eauto.
Qed.

Lemma has_equal_pair_tail l a : (length l mod 2 = 0)%nat -> has_equal_pair (l ++ [a; a]) = true.
Proof.
  intros Hl. rewrite has_equal_pair_spec. exists (length l / 2)%nat, a.
  pose proof (Nat.div_mod_eq (length l) 2).
  replace (2 * (length l / 2))%nat with (length l) by lia.
  by rewrite !lookup_app_r, Nat.sub_diag, (Nat.add_comm (length l)), Nat.add_sub by lia.
Qed.

Lemma CPartialMerkleTree_build_spec l M H :
  ids l -> 1 <= Z.of_nat (length l) < 2 ^ 31 ->
  tree_height (Z.of_nat (length l)) = Ok H -> (H <= 31)%nat -> width (Z.of_nat (length l)) H = 1 ->
  CPartialMerkleTree_build l M = Ok (mkPartial (Z.of_nat (length l)) (bits_of l M H 0) (hashes_of l M H 0) false).
Proof.
  intros Hl Hn EH Hle HW. unfold CPartialMerkleTree_build. rewrite wrap_small by (unfold in_u; lia). rewrite EH.
  destruct (Nat.eqb_spec (length l) 0); [lia|]. cbn [obind].
  by rewrite TraverseAndBuild_spec by (try done; lia).
Qed.

(** Merkle root: the level-by-level computation of [ComputeMerkleRoot],
    with any compliant [SHA256D64], ends with the node hash that
    [CPartialMerkleTree::CalcHash] computes recursively at the height of the
    tree, and reports a mutation exactly when two sibling nodes of some level
    below the root have equal hashes. *)
Theorem merkle_roots_agree `{DispatchLaws} (l : list uint256) :
  ids l -> 1 <= Z.of_nat (length l) < 2 ^ 31 ->
  exists H m, tree_height (Z.of_nat (length l)) = Ok H /\
    ComputeMerkleRoot l = Ok (CalcHash (Z.of_nat (length l)) H 0 l, m) /\
    (m = true <-> exists k, (k < H)%nat /\ equal_siblings l k).
Proof.
  intros Hl Hn. destruct (ComputeMerkleRoot_spec l Hl Hn) as (h & m & EH & _ & _ & ER & Hm). eauto.
Qed.

(** Partial merkle tree: a partial tree built from identifiers and a
    selection, sent and received, yields the merkle root of the identifiers,
    the selected identifiers in order and their positions, when no two
    siblings collide and the number of transactions is within the limit the
    receiver derives from the block size. *)
Theorem partial_tree_round_trip `{DispatchLaws} (g : BlockSizeParams) (l : list uint256) (M : list bool) root :
  ids l -> 1 <= Z.of_nat (length l) < 2 ^ 31 ->
  Z.of_nat (length l) <= u32 (dgpMaxBlockSize g * WITNESS_SCALE_FACTOR) / MIN_TRANSACTION_WEIGHT ->
  ComputeMerkleRoot l = Ok (root, false) ->
  exists t, CPartialMerkleTree_build l M = Ok t /\
    let positions := List.filter (fun p => nth (Z.to_nat p) M false) (seqZ 0 (Z.of_nat (length l))) in
    ExtractMatches g (resent t) [] =
      Ok (root, map (fun p => nth (Z.to_nat p) l uint256_null) positions, positions).
Proof.
  intros Hl Hn Hlim Hroot. destruct (ComputeMerkleRoot_spec l Hl Hn) as (h & m & EH & Hle & HW & ER & Hm).
  rewrite ER in Hroot. injection Hroot as <- ->.
  assert (Hsib : forall k, (k < h)%nat -> ~ equal_siblings l k) by (intros k ? ?; destruct Hm as [_ Hm]; discriminate Hm; eauto).
  eexists. split; [by apply CPartialMerkleTree_build_spec|]. unfold ExtractMatches, resent. cbn [nTransactions vBits vHash fBad].
  rewrite unpack_pack. set (pad := repeat false _).
  destruct (hashes_of_length l M h 0) as [L1 L2]; [lia|]. rewrite leaves_root, length_seqZ in L1 by done.
  destruct (Z.eqb_spec (Z.of_nat (length l)) 0); [lia|]. destruct (Z.ltb_spec (u32 (dgpMaxBlockSize g * WITNESS_SCALE_FACTOR) / MIN_TRANSACTION_WEIGHT) (Z.of_nat (length l))); [lia|].
  destruct (Z.ltb_spec (Z.of_nat (length l)) (Z.of_nat (length (hashes_of l M h 0)))); [lia|].
  destruct (Nat.ltb_spec (length (bits_of l M h 0 ++ pad)) (length (hashes_of l M h 0))) as [Hlt|]; [rewrite length_app in Hlt; lia|].
  rewrite EH. cbn [obind].
  rewrite (TraverseAndExtract_spec l Hn M);
    [| done | done | done | lia | by exists [], pad | exists [], []; by rewrite app_nil_r].
  unfold after. cbn [bad nBitsUsed nHashUsed xMatch xIndex Nat.add app]. rewrite Nat.eqb_refl.
  assert (Epad : ((length (bits_of l M h 0) + 7) / 8 =? (length (bits_of l M h 0 ++ pad) + 7) / 8)%nat = true).
  { apply Nat.eqb_eq. unfold pad. rewrite length_app, repeat_length. set (k := length _).
    pose proof (Nat.div_mod (k + 7) 8 ltac:(lia)). pose proof (Nat.mod_upper_bound (k + 7) 8 ltac:(lia)).
    apply Nat.div_unique with (r := 7%nat); lia. }
  rewrite Epad. cbn [negb]. unfold matched. by rewrite leaves_root.
Qed.

(** C26 (merkle proofs are sound): whatever partial tree a peer sends, if
    [ExtractMatches] returns the root of a list of as many identifiers, then
    every identifier it reports is the entry of that list at the reported
    position, unless one of the pairs hashed for the tree of the list and a
    different one of the pairs hashed for the proof have the same double
    SHA-256. *)
Theorem partial_tree_sound `{DispatchLaws} (g : BlockSizeParams) (l : list uint256) (t : CPartialMerkleTree) root m matches positions :
  ids l -> 1 <= Z.of_nat (length l) < 2 ^ 31 ->
  ComputeMerkleRoot l = Ok (root, m) -> root <> uint256_null -> nTransactions t = Z.of_nat (length l) ->
  ExtractMatches g t [] = Ok (root, matches, positions) ->
  exists h, tree_height (nTransactions t) = Ok h /\
    (Forall2 (fun id pos => 0 <= pos /\ l !! Z.to_nat pos = Some id) matches positions \/
     collide (tree_pairs (nTransactions t) h 0 l) (proof_pairs t h 0 (mkExtract 0 0 (fBad t) [] []))).
Proof.
  intros Hl Hn Hroot Hnz Ht. destruct (ComputeMerkleRoot_spec l Hl Hn) as (h & m' & EH & Hle & HW & ER & _).
  rewrite ER in Hroot. injection Hroot as Eroot _.
  unfold ExtractMatches. rewrite Ht, EH.
  repeat (match goal with |- (if ?b then _ else _) = _ -> _ => destruct b; [by intros [= <- _ _]; destruct Hnz|] end).
  cbn [obind].
  pose proof (TraverseAndExtract_sound l Hn t Ht h 0 (mkExtract 0 0 (fBad t) [] []) ltac:(lia) ltac:(lia)
    (Forall2_nil _)) as Hs.
  destruct (TraverseAndExtract t h 0 _) as [r st]. cbn [fst snd] in Hs.
  repeat (match goal with |- context [if ?b then uint256_null else _] => destruct b; [by intros [= <- _ _]; destruct Hnz|] end).
  intros [= -> <- <-]. exists h. split; [reflexivity|]. apply Hs. exact (eq_sym Eroot).
Qed.

(** CVE-2012-2459: repeating the last identifier of a list of odd length
    does not change the root, and the longer list is reported as mutated. *)
Theorem repeated_tail_is_flagged `{DispatchLaws} (l : list uint256) (a : uint256) :
  ids (l ++ [a]) -> Nat.Odd (length (l ++ [a])) -> (1 < length (l ++ [a]))%nat ->
  Z.of_nat (length (l ++ [a])) < 2 ^ 31 - 1 ->
  exists root m, ComputeMerkleRoot (l ++ [a]) = Ok (root, m) /\ ComputeMerkleRoot (l ++ [a; a]) = Ok (root, true).
Proof.
  intros Hl Hodd Hlen Hbound.
  destruct (ComputeMerkleRoot_spec (l ++ [a]) Hl ltac:(lia)) as (h & m & _ & _ & _ & ER & _).
  eexists _, m. split; [exact ER|]. revert ER. unfold ComputeMerkleRoot. cbn [ComputeMerkleRoot_loop].
  assert (Hev : (length l mod 2 = 0)%nat).
  { destruct Hodd as [k Hk]. rewrite length_app in Hk. cbn in Hk. replace (length l) with (k * 2)%nat by lia. apply Nat.Div0.mod_mul. }
  assert (Hl2 : ids (l ++ [a; a])) by (unfold ids in *; rewrite !Forall_app in *; destruct Hl as [? Ha]; inversion Ha; auto).
  destruct (Nat.ltb_spec 1 (length (l ++ [a]))); [|lia].
  destruct (Nat.ltb_spec 1 (length (l ++ [a; a]))); [|rewrite length_app in *; cbn in *; lia].
  rewrite !merkle_level_spec, has_equal_pair_tail, pair_up_odd by done. rewrite <- app_assoc. cbn [app orb].
  intros E. eapply (ComputeMerkleRoot_loop_more _ (length (l ++ [a; a])) _ _ true) in E as (m2 & -> & ->); [done | done |].
  rewrite !length_app. cbn. lia.
Qed.

(** ** Instances *)

#[local] Transparent TraverseAndBuild TraverseAndExtract CalcHash Hash2.

Lemma portable_laws : @DispatchLaws portable.
Proof. by split. Qed.

Definition three_ids : list uint256 := [repeat 1 32; repeat 2 32; repeat 3 32].

Definition three_root : uint256 :=
  match @ComputeMerkleRoot portable three_ids with Ok (r, _) => r | _ => uint256_null end.

Lemma three_ids_ok : ids three_ids.
Proof. by repeat constructor. Qed.

Lemma three_ids_root : @ComputeMerkleRoot portable three_ids = Ok (three_root, false).
Proof. vm_compute. reflexivity. Qed.

Lemma merkle_roots_agree_witness :
  exists H m, tree_height 3 = Ok H /\
    @ComputeMerkleRoot portable three_ids = Ok (CalcHash 3 H 0 three_ids, m) /\
    (m = true <-> exists k, (k < H)%nat /\ equal_siblings three_ids k).
Proof. apply (@merkle_roots_agree portable portable_laws three_ids three_ids_ok). cbn. lia. Defined.

Lemma partial_tree_round_trip_witness :
  exists t, CPartialMerkleTree_build three_ids [false; true; false] = Ok t /\
    ExtractMatches blockSizeParams_init (resent t) [] = Ok (three_root, [repeat 2 32], [1]).
Proof.
  apply (@partial_tree_round_trip portable portable_laws blockSizeParams_init three_ids [false; true; false] three_root three_ids_ok);
    [cbn; lia | vm_compute; discriminate | exact three_ids_root].
Defined.

Definition three_proof : CPartialMerkleTree :=
  match CPartialMerkleTree_build three_ids [false; false; true] with Ok t => t | _ => mkPartial 0 [] [] true end.

Lemma partial_tree_sound_witness :
  exists h, tree_height (nTransactions three_proof) = Ok h /\
    (Forall2 (fun id pos => 0 <= pos /\ three_ids !! Z.to_nat pos = Some id) [repeat 3 32] [2] \/
     collide (tree_pairs (nTransactions three_proof) h 0 three_ids) (proof_pairs three_proof h 0 (mkExtract 0 0 (fBad three_proof) [] []))).
Proof.
  apply (@partial_tree_sound portable portable_laws blockSizeParams_init three_ids three_proof three_root false);
    [exact three_ids_ok | cbn; lia | exact three_ids_root | | reflexivity | ].
  - vm_compute. discriminate.
  - vm_compute. reflexivity.
Defined.

Lemma repeated_tail_is_flagged_witness :
  exists root m, @ComputeMerkleRoot portable three_ids = Ok (root, m) /\
    @ComputeMerkleRoot portable (three_ids ++ [repeat 3 32]) = Ok (root, true).
Proof.
  apply (@repeated_tail_is_flagged portable portable_laws [repeat 1 32; repeat 2 32] (repeat 3 32));
    [exact three_ids_ok | by exists 1%nat | cbn; lia | cbn; lia].
Defined.
