(* ===== verification/Standard.v ===== *)
(** * Standard: recognising output scripts (src/src/script/standard.cpp)

    [Solver] compares a script with the templates of the standard outputs and
    of the contract outputs; destinations are turned into scripts and
    extracted from them.  A script is its bytes, a template is the list of
    the opcode bytes pushed by [operator<<].  Where the C++ code would throw
    or fail an assertion the model gives [Fail]; the loop over a template is
    bounded by the length of the script, and the theorems show that the
    result is always [Ok]. *)

From Stdlib Require Import ZArith List Lia Bool.
From stdpp Require Import base decidable list option.
From S2P Require Import Prelude Uint256 Primitives HashBuffer Sha256 Ripemd160 Hash Script Serialize.
Local Open Scope Z_scope.
Local Open Scope outcome_scope.

(** ** Template opcodes and limits *)

Definition OP_ADDRESS_TYPE := 0xf2.
Definition OP_ADDRESS := 0xf3.
Definition OP_SCRIPT_SIG := 0xf4.
Definition OP_GAS_PRICE := 0xf5.
Definition OP_VERSION := 0xf6.
Definition OP_GAS_LIMIT := 0xf7.
Definition OP_DATA := 0xf8.
Definition OP_SMALLINTEGER := 0xfa.
Definition OP_PUBKEYS := 0xfb.
Definition OP_PUBKEYHASH := 0xfd.
Definition OP_PUBKEY := 0xfe.

Definition STANDARD_MINIMUM_GAS_LIMIT : Z := 10000.
Definition STANDARD_MINIMUM_GAS_PRICE : Z := 1.
Definition MAX_BLOCK_GAS_LIMIT_DGP : Z := 1000000000.
Definition DEFAULT_BLOCK_GAS_LIMIT_DGP : Z := 40000000.

Definition WITNESS_V0_SCRIPTHASH_SIZE : nat := 32.
Definition WITNESS_V0_KEYHASH_SIZE : nat := 20.

Inductive txnouttype :=
  | TX_NONSTANDARD | TX_PUBKEY | TX_PUBKEYHASH | TX_SCRIPTHASH | TX_MULTISIG | TX_NULL_DATA
  | TX_WITNESS_V0_SCRIPTHASH | TX_WITNESS_V0_KEYHASH | TX_WITNESS_UNKNOWN
  | TX_CREATE_SENDER | TX_CALL_SENDER | TX_CREATE | TX_CALL.

#[export] Instance txnouttype_eq_dec : EqDecision txnouttype.
Proof. solve_decision. Defined.

(** [enum addresstype] *)
Definition addresstype_PUBKEYHASH : Z := 1.
Definition addresstype_NONSTANDARD : Z := 5.

(** ** Virtual machine versions (src/src/qtum/qtumtransaction.h)

    The bit fields of a little-endian machine. *)

Record VersionVM := mkVersionVM { vm_format : Z; rootVM : Z; vmVersion : Z; flagOptions : Z }.

Definition toRaw (v : VersionVM) : Z :=
  vm_format v + Z.shiftl (rootVM v) 2 + Z.shiftl (vmVersion v) 8 + Z.shiftl (flagOptions v) 16.

Definition fromRaw (val : Z) : VersionVM :=
  mkVersionVM (Z.land val 3) (Z.land (Z.shiftr val 2) 0x3f) (Z.land (Z.shiftr val 8) 0xff)
    (Z.land (Z.shiftr val 16) 0xffff).

Definition GetNoExec : VersionVM := mkVersionVM 0 0 0 0.
Definition GetEVMDefault : VersionVM := mkVersionVM 0 1 0 0.

(** The local [version]: [rootVM] is set to 20, the other fields are not read
    before the version is assigned. *)
Definition version_unset : VersionVM := mkVersionVM 0 20 0 0.

(** ** Public keys (src/src/pubkey.h)

    A [CPubKey] is the bytes from [begin()] to [end()]: none for an invalid
    key. *)

Definition CPubKey := bytes.

Definition GetLen (chHeader : Z) : Z :=
  if (chHeader =? 2) || (chHeader =? 3) then 33
  else if (chHeader =? 4) || (chHeader =? 6) || (chHeader =? 7) then 65
  else 0.

Definition CPubKey_Set (v : bytes) : CPubKey :=
  let len := match v with [] => 0 | b :: _ => GetLen b end in
  if negb (len =? 0) && (len =? Z.of_nat (length v)) then v else [].

Definition CPubKey_IsValid (k : CPubKey) : bool := (0 <? length k)%nat.

Definition CPubKey_GetID (k : CPubKey) : bytes := Hash160 k.

(** ** Destinations *)

Inductive CTxDestination :=
  | CNoDestination
  | PKHash (h : bytes)
  | ScriptHash (h : bytes)
  | WitnessV0ScriptHash (h : bytes)
  | WitnessV0KeyHash (h : bytes)
  | WitnessUnknown (version : Z) (program : bytes).

#[export] Instance CTxDestination_eq_dec : EqDecision CTxDestination.
Proof. solve_decision. Defined.

(** The constructor of a [uint160] from a vector asserts its size. *)
Definition uint160_of (v : bytes) : outcome bytes := if (length v =? 20)%nat then Ok v else Fail.

(** [CScriptVisitor]; [EncodeOP_N] asserts its range. *)
Definition GetScriptForDestination (dest : CTxDestination) : outcome CScript :=
  match dest with
  | CNoDestination => Ok []
  | PKHash keyID => Ok (push_data [OP_DUP; OP_HASH160] keyID ++ [OP_EQUALVERIFY; OP_CHECKSIG])
  | ScriptHash scriptID => Ok (push_data [OP_HASH160] scriptID ++ [OP_EQUAL])
  | WitnessV0KeyHash id => Ok (push_data [OP_0] id)
  | WitnessV0ScriptHash id => Ok (push_data [OP_0] id)
  | WitnessUnknown version program =>
    n <-! of_option (EncodeOP_N version) ; Ok (push_data [n] program)
  end.

(** ** [Solver] *)

(** [mTemplates], in the order of the multimap *)
Definition mTemplates : list (txnouttype * bytes) :=
  [(TX_PUBKEY, [OP_PUBKEY; OP_CHECKSIG]);
   (TX_PUBKEYHASH, [OP_DUP; OP_HASH160; OP_PUBKEYHASH; OP_EQUALVERIFY; OP_CHECKSIG]);
   (TX_MULTISIG, [OP_SMALLINTEGER; OP_PUBKEYS; OP_SMALLINTEGER; OP_CHECKMULTISIG]);
   (TX_CREATE_SENDER, [OP_ADDRESS_TYPE; OP_ADDRESS; OP_SCRIPT_SIG; OP_SENDER; OP_VERSION; OP_GAS_LIMIT;
                       OP_GAS_PRICE; OP_DATA; OP_CREATE]);
   (TX_CALL_SENDER, [OP_ADDRESS_TYPE; OP_ADDRESS; OP_SCRIPT_SIG; OP_SENDER; OP_VERSION; OP_GAS_LIMIT;
                     OP_GAS_PRICE; OP_DATA; OP_PUBKEYHASH; OP_CALL]);
   (TX_CREATE, [OP_VERSION; OP_GAS_LIMIT; OP_GAS_PRICE; OP_DATA; OP_CREATE]);
   (TX_CALL, [OP_VERSION; OP_GAS_LIMIT; OP_GAS_PRICE; OP_DATA; OP_PUBKEYHASH; OP_CALL])].

(** The locals of the comparison with one template *)
Record locals := mkLocals { sols : list bytes; addressType : Z; version : VersionVM }.

Definition push_sol (l : locals) (v : bytes) : locals := mkLocals (sols l ++ [v]) (addressType l) (version l).

(** What one pass of the loop does: go on, [break], or return from [Solver] *)
Inductive pass :=
  | Go (l : locals)
  | Break
  | Return (t : txnouttype) (vSolutionsRet : list bytes).

Definition nonstandard (l : locals) : outcome pass := Ok (Return TX_NONSTANDARD (sols l)).

(** [0 <= opcode && opcode <= OP_PUSHDATA4]; [opcodetype] is unsigned *)
Definition is_push (opcode : Z) : bool := (0 <=? opcode) && (opcode <=? OP_PUSHDATA4).

Definition match_version (opcode1 : Z) (vch1 : bytes) (l : locals) : outcome pass :=
  if is_push opcode1 then
    if (length vch1 =? 0)%nat || (4 <? length vch1)%nat || negb (Z.land (back vch1) 0x80 =? 0) then nonstandard l
    else match vch_to_uint64 vch1 with
         | scriptnum_error => Fail
         | Num n =>
           let v := fromRaw (u32 n) in
           let l := mkLocals (sols l) (addressType l) v in
           if negb ((toRaw v =? toRaw GetEVMDefault) || (toRaw v =? toRaw GetNoExec)) then nonstandard l
           else Ok (Go l)
         end
  else Ok (Go l).

Definition match_gas_limit (contractConsensus : bool) (vch1 : bytes) (l : locals) : outcome pass :=
  match vch_to_uint64 vch1 with
  | scriptnum_error => nonstandard l
  | Num val =>
    if contractConsensus then
      if negb (rootVM (version l) =? 0) && (val <? 1) then nonstandard l
      else if MAX_BLOCK_GAS_LIMIT_DGP <? val then nonstandard l
      else Ok (Go l)
    else
      if negb (rootVM (version l) =? 0) && (val <? STANDARD_MINIMUM_GAS_LIMIT) then nonstandard l
      else if DEFAULT_BLOCK_GAS_LIMIT_DGP / 2 <? val then nonstandard l
      else Ok (Go l)
  end.

Definition match_gas_price (contractConsensus : bool) (vch1 : bytes) (l : locals) : outcome pass :=
  match vch_to_uint64 vch1 with
  | scriptnum_error => nonstandard l
  | Num val =>
    if contractConsensus then
      if negb (rootVM (version l) =? 0) && (val <? 1) then nonstandard l else Ok (Go l)
    else
      if negb (rootVM (version l) =? 0) && (val <? STANDARD_MINIMUM_GAS_PRICE) then nonstandard l else Ok (Go l)
  end.

Definition match_address_type (vch1 : bytes) (l : locals) : outcome pass :=
  match vch_to_uint64 vch1 with
  | scriptnum_error => Ok Break
  | Num val =>
    if (val <? addresstype_PUBKEYHASH) || (addresstype_NONSTANDARD <? val) then Ok Break
    else Ok (Go (mkLocals (sols l) val (version l)))
  end.

Definition match_address (vch1 : bytes) (l : locals) : outcome pass :=
  if (addressType l =? addresstype_PUBKEYHASH) && (length vch1 =? 20)%nat then
    senderPubKey <-! GetScriptForDestination (PKHash vch1) ;
    Ok (Go (push_sol l (Serialize_bytes senderPubKey)))
  else Ok Break.

Definition match_script_sig (allowEmptySenderSig : bool) (opcode1 : Z) (vch1 : bytes) (l : locals) : outcome pass :=
  if is_push opcode1 then
    if negb allowEmptySenderSig && (length vch1 =? 0)%nat then Ok Break
    else if MAX_BASE_SCRIPT_SIZE <? Z.of_nat (length vch1) then nonstandard l
    else Ok (Go (push_sol l vch1))
  else Ok (Go l).

(** "Template matching opcodes": the chain of [else if] on [opcode2] *)
Definition match_op (contractConsensus allowEmptySenderSig : bool)
    (opcode1 : Z) (vch1 : bytes) (opcode2 : Z) (vch2 : bytes) (l : locals) : outcome pass :=
  if opcode2 =? OP_PUBKEY then
    if (length vch1 <? 33)%nat || (65 <? length vch1)%nat then Ok Break else Ok (Go (push_sol l vch1))
  else if opcode2 =? OP_PUBKEYHASH then
    if negb (length vch1 =? 20)%nat then Ok Break else Ok (Go (push_sol l vch1))
  else if opcode2 =? OP_SMALLINTEGER then
    if (opcode1 =? OP_0) || ((OP_1 <=? opcode1) && (opcode1 <=? OP_16)) then
      n <-! of_option (DecodeOP_N opcode1) ; Ok (Go (push_sol l [u8 n]))
    else Ok Break
  else if opcode2 =? OP_VERSION then match_version opcode1 vch1 l
  else if opcode2 =? OP_GAS_LIMIT then match_gas_limit contractConsensus vch1 l
  else if opcode2 =? OP_GAS_PRICE then match_gas_price contractConsensus vch1 l
  else if opcode2 =? OP_DATA then
    if is_push opcode1 && (length vch1 =? 0)%nat then Ok Break else Ok (Go l)
  else if opcode2 =? OP_ADDRESS_TYPE then match_address_type vch1 l
  else if opcode2 =? OP_ADDRESS then match_address vch1 l
  else if opcode2 =? OP_SCRIPT_SIG then match_script_sig allowEmptySenderSig opcode1 vch1 l
  else if negb (opcode1 =? opcode2) || negb (bytes_eqb vch1 vch2) then Ok Break
  else Ok (Go l).

(** The inner loop of [OP_PUBKEYS]: the iterator, [opcode1], [vch1] and the
    solutions after it.  A failed [GetOp] leaves [OP_INVALIDOPCODE] and an
    empty vector behind. *)
Fixpoint pubkeys_loop (fuel : nat) (pc1 : bytes) (opcode1 : Z) (vch1 : bytes) (l : locals)
    : outcome (bytes * Z * bytes * locals) :=
  match fuel with
  | O => NoFuel
  | S fuel' =>
    if (33 <=? length vch1)%nat && (length vch1 <=? 65)%nat then
      let l := push_sol l vch1 in
      match GetScriptOp pc1 with
      | None => Ok (failed_pc pc1, OP_INVALIDOPCODE, [], l)
      | Some (opcode1, vch1, pc1) => pubkeys_loop fuel' pc1 opcode1 vch1 l
      end
    else Ok (pc1, opcode1, vch1, l)
  end.

(** "Found a match", with the additional checks of [TX_MULTISIG]; a difference
    of sizes below zero equals no byte, wrapped or not. *)
Definition found (t : txnouttype) (l : locals) : outcome pass :=
  if decide (t = TX_MULTISIG) then
    match sols l with
    | (m :: _) :: _ =>
      match List.last (sols l) [] with
      | n :: _ =>
        if (m <? 1) || (n <? 1) || (n <? m) || negb (Z.of_nat (length (sols l)) - 2 =? n)
        then Ok (Return TX_NONSTANDARD (sols l))
        else Ok (Return t (sols l))
      | [] => Fail
      end
    | _ => Fail
    end
  else Ok (Return t (sols l)).

(** The comparison of [script1] with one template, from the iterators [pc1] and [pc2] *)
Fixpoint match_loop (contractConsensus allowEmptySenderSig : bool) (t : txnouttype) (fuel : nat)
    (pc1 pc2 : bytes) (l : locals) : outcome pass :=
  match fuel with
  | O => NoFuel
  | S fuel' =>
    match pc1, pc2 with
    | [], [] => found t l
    | _, _ =>
      match GetScriptOp pc1, GetScriptOp pc2 with
      | Some (opcode1, vch1, pc1), Some (opcode2, vch2, pc2) =>
        let compare pc1 opcode1 vch1 pc2 opcode2 vch2 l :=
          r <-! match_op contractConsensus allowEmptySenderSig opcode1 vch1 opcode2 vch2 l ;
          match r with
          | Go l => match_loop contractConsensus allowEmptySenderSig t fuel' pc1 pc2 l
          | _ => Ok r
          end in
        if opcode2 =? OP_PUBKEYS then
          r <-! pubkeys_loop (S (length pc1)) pc1 opcode1 vch1 l ;
          let '(pc1, opcode1, vch1, l) := r in
          match GetScriptOp pc2 with
          | None => Ok Break
          | Some (opcode2, vch2, pc2) => compare pc1 opcode1 vch1 pc2 opcode2 vch2 l
          end
        else compare pc1 opcode1 vch1 pc2 opcode2 vch2 l
      | _, _ => Ok Break
      end
    end
  end.

Fixpoint scan_templates (contractConsensus allowEmptySenderSig : bool) (script1 : CScript)
    (ts : list (txnouttype * bytes)) : outcome (txnouttype * list bytes) :=
  match ts with
  | [] => Ok (TX_NONSTANDARD, [])
  | (t, script2) :: ts =>
    r <-! match_loop contractConsensus allowEmptySenderSig t (S (length script1)) script1 script2
            (mkLocals [] 0 version_unset) ;
    match r with
    | Return t vSolutionsRet => Ok (t, vSolutionsRet)
    | _ => scan_templates contractConsensus allowEmptySenderSig script1 ts
    end
  end.

Definition Solver (scriptPubKey : CScript) (contractConsensus allowEmptySenderSig : bool)
    : outcome (txnouttype * list bytes) :=
  if IsPayToScriptHash scriptPubKey then Ok (TX_SCRIPTHASH, [take 20 (drop 2 scriptPubKey)])
  else match IsWitnessProgram scriptPubKey with
  | Some (witnessversion, witnessprogram) =>
    if (witnessversion =? 0) && (length witnessprogram =? WITNESS_V0_KEYHASH_SIZE)%nat
    then Ok (TX_WITNESS_V0_KEYHASH, [witnessprogram])
    else if (witnessversion =? 0) && (length witnessprogram =? WITNESS_V0_SCRIPTHASH_SIZE)%nat
    then Ok (TX_WITNESS_V0_SCRIPTHASH, [witnessprogram])
    else if negb (witnessversion =? 0) then Ok (TX_WITNESS_UNKNOWN, [[u8 witnessversion]; witnessprogram])
    else Ok (TX_NONSTANDARD, [])
  | None =>
    if (1 <=? length scriptPubKey)%nat && (byte_at scriptPubKey 0 =? OP_RETURN) && IsPushOnly (drop 1 scriptPubKey)
    then Ok (TX_NULL_DATA, [])
    else scan_templates contractConsensus allowEmptySenderSig scriptPubKey mTemplates
  end.

(** ** Extracting destinations *)

(** [vSolutions[i]] *)
Definition sol (vSolutions : list bytes) (i : nat) : outcome bytes := of_option (vSolutions !! i).

Definition ExtractDestination (scriptPubKey : CScript) : outcome (txnouttype * option CTxDestination) :=
  r <-! Solver scriptPubKey false false ;
  let '(whichType, vSolutions) := r in
  let found addr := Ok (whichType, Some addr) in
  match whichType with
  | TX_PUBKEY =>
    v <-! sol vSolutions 0 ;
    let pubKey := CPubKey_Set v in
    if negb (CPubKey_IsValid pubKey) then Ok (whichType, None) else found (PKHash (CPubKey_GetID pubKey))
  | TX_PUBKEYHASH => v <-! sol vSolutions 0 ; h <-! uint160_of v ; found (PKHash h)
  | TX_SCRIPTHASH => v <-! sol vSolutions 0 ; h <-! uint160_of v ; found (ScriptHash h)
  | TX_WITNESS_V0_KEYHASH => v <-! sol vSolutions 0 ; found (WitnessV0KeyHash v)
  | TX_WITNESS_V0_SCRIPTHASH => v <-! sol vSolutions 0 ; found (WitnessV0ScriptHash v)
  | TX_WITNESS_UNKNOWN =>
    v <-! sol vSolutions 0 ; n <-! of_option (v !! 0%nat) ; p <-! sol vSolutions 1 ; found (WitnessUnknown n p)
  | _ => Ok (whichType, None)
  end.

(** [ExtractDestinations]: where it returns true, the type, the number of
    required signatures and the destinations *)
Definition ExtractDestinations (scriptPubKey : CScript) (contractConsensus : bool)
    : outcome (option (txnouttype * Z * list CTxDestination)) :=
  r <-! Solver scriptPubKey contractConsensus false ;
  let '(typeRet, vSolutions) := r in
  match typeRet with
  | TX_NONSTANDARD | TX_NULL_DATA => Ok None
  | TX_MULTISIG =>
    v <-! sol vSolutions 0 ; nRequiredRet <-! of_option (v !! 0%nat) ;
    let keys := List.filter CPubKey_IsValid (map CPubKey_Set (take (length vSolutions - 2) (drop 1 vSolutions))) in
    let addressRet := map (fun k => PKHash (CPubKey_GetID k)) keys in
    if (length addressRet =? 0)%nat then Ok None else Ok (Some (typeRet, nRequiredRet, addressRet))
  | _ =>
    r <-! ExtractDestination scriptPubKey ;
    match r with
    | (_, Some address) => Ok (Some (typeRet, 1, [address]))
    | (_, None) => Ok None
    end
  end.

Definition GetScriptForRawPubKey (pubKey : CPubKey) : CScript := push_data [] pubKey ++ [OP_CHECKSIG].

Definition GetScriptForMultisig (nRequired : Z) (keys : list CPubKey) : outcome CScript :=
  m <-! of_option (EncodeOP_N nRequired) ;
  n <-! of_option (EncodeOP_N (Z.of_nat (length keys))) ;
  Ok (fold_left push_data keys [m] ++ [n; OP_CHECKMULTISIG]).

Definition GetScriptForWitness (redeemscript : CScript) : outcome CScript :=
  r <-! Solver redeemscript false false ;
  match r with
  | (TX_PUBKEY, vSolutions) =>
    v <-! sol vSolutions 0 ; GetScriptForDestination (WitnessV0KeyHash (Hash160 v))
  | (TX_PUBKEYHASH, vSolutions) =>
    v <-! sol vSolutions 0 ; h <-! uint160_of v ; GetScriptForDestination (WitnessV0KeyHash h)
  | _ => GetScriptForDestination
           (WitnessV0ScriptHash (Sha256.Finalize (Sha256.Write (Sha256.CSHA256 fresh_buf) redeemscript)).2)
  end.

(** ** Contract senders *)

(** The solutions of the two attempts; [None] where the function returns false *)
Definition solve_sender (outputPubKey : CScript) (allowEmptySenderSig : bool) : outcome (option (list bytes)) :=
  r <-! Solver outputPubKey true allowEmptySenderSig ;
  match r with
  | (TX_NONSTANDARD, _) =>
    r <-! Solver outputPubKey false allowEmptySenderSig ;
    match r with
    | (TX_NONSTANDARD, _) => Ok None
    | (_, vSolutions) => Ok (Some vSolutions)
    end
  | (_, vSolutions) => Ok (Some vSolutions)
  end.

(** [ss >> script]; the exception is caught by [catch(...)]. *)
Definition read_script (v : bytes) : option CScript := fst <$> Unserialize_bytes v.

(** [ExtractSenderData] with both pointers: the sender's script and signature *)
Definition ExtractSenderData (outputPubKey : CScript) : outcome (option (CScript * CScript)) :=
  if HasOpSender outputPubKey then
    r <-! solve_sender outputPubKey false ;
    match r with
    | None => Ok None
    | Some vSolutions =>
      if (length vSolutions <? 2)%nat then Ok None
      else
        v0 <-! sol vSolutions 0 ; v1 <-! sol vSolutions 1 ;
        Ok (senderPubKey ← read_script v0 ; senderSig ← read_script v1 ; Some (senderPubKey, senderSig))
    end
  else Ok None.

Definition GetSenderPubKey (outputPubKey : CScript) : outcome (option CScript) :=
  if HasOpSender outputPubKey then
    r <-! solve_sender outputPubKey true ;
    match r with
    | None => Ok None
    | Some vSolutions =>
      if (length vSolutions <? 1)%nat then Ok None
      else v0 <-! sol vSolutions 0 ; Ok (read_script v0)
    end
  else Ok None.

(** ** The comparison with a template *)

Lemma GetScriptOp_opcode o rest : OP_PUSHDATA4 < o -> GetScriptOp (o :: rest) = Some (o, [], rest).
Proof. intros H. unfold GetScriptOp. by destruct (Z.leb_spec o OP_PUSHDATA4); [lia|]. Qed.

(** The pass that compares with one opcode of a template *)
Definition compare (c a : bool) (t : txnouttype) (fuel : nat) (o1 : Z) (v1 pc1 : bytes) (o2 : Z) (pc2 : bytes)
    (l : locals) : outcome pass :=
  r <-! match_op c a o1 v1 o2 [] l ;
  match r with Go l => match_loop c a t fuel pc1 pc2 l | _ => Ok r end.

Lemma match_loop_op c a t fuel pc1 o2 pc2 l :
  OP_PUSHDATA4 < o2 -> o2 <> OP_PUBKEYS ->
  match_loop c a t (S fuel) pc1 (o2 :: pc2) l =
  match GetScriptOp pc1 with
  | None => Ok Break
  | Some (o1, v1, pc1) => compare c a t fuel o1 v1 pc1 o2 pc2 l
  end.
Proof.
  intros Ho Hne. cbn [match_loop]. rewrite GetScriptOp_opcode by done. apply Z.eqb_neq in Hne. unfold compare.
  destruct pc1; [done|]. destruct (GetScriptOp _) as [[[o1 v1] pc1']|]; [|done]. by rewrite Hne.
Qed.

Lemma match_loop_pubkeys c a t fuel pc1 o2 pc2 l :
  OP_PUSHDATA4 < o2 ->
  match_loop c a t (S fuel) pc1 (OP_PUBKEYS :: o2 :: pc2) l =
  match GetScriptOp pc1 with
  | None => Ok Break
  | Some (o1, v1, pc1) =>
    r <-! pubkeys_loop (S (length pc1)) pc1 o1 v1 l ;
    let '(pc1, o1, v1, l) := r in compare c a t fuel o1 v1 pc1 o2 pc2 l
  end.
Proof.
  intros Ho. cbn [match_loop]. rewrite GetScriptOp_opcode by done. rewrite Z.eqb_refl. unfold compare.
  destruct pc1; [done|]. destruct (GetScriptOp (_ :: pc1)) as [[[o1 v1] pc1']|]; [|done].
  destruct (pubkeys_loop _ _ _ _ _) as [[[[? ?] ?] ?]| |]; cbn [obind]; [|done|done].
  by rewrite GetScriptOp_opcode.
Qed.

Lemma match_loop_end c a t fuel pc1 l :
  match_loop c a t (S fuel) pc1 [] l = match pc1 with [] => found t l | _ => Ok Break end.
Proof.
  cbn [match_loop]. destruct pc1; [done|]. by destruct (GetScriptOp (_ :: pc1)) as [[[? ?] ?]|].
Qed.

(** ** Every script is solved *)

Lemma vch_to_uint64_short v :
  (length v <= 4)%nat -> negb (Z.land (back v) 0x80 =? 0) = false -> exists n, vch_to_uint64 v = Num n.
Proof.
  intros Hl Hb. unfold vch_to_uint64. destruct (Z.ltb_spec 8 (Z.of_nat (length v))); [lia|].
  destruct v; [eauto|]. rewrite Hb. eauto.
Qed.

Lemma match_op_total c a o1 v1 o2 v2 l :
  exists r, match_op c a o1 v1 o2 v2 l = Ok r.
Proof.
  unfold match_op, match_version, match_gas_limit, match_gas_price, match_address_type, match_address,
    match_script_sig, nonstandard, DecodeOP_N, GetScriptForDestination.
  repeat (case_match; cbn [obind of_option]; try by eauto); try done; exfalso.
  all: repeat match goal with H : _ || _ = false |- _ => apply orb_false_iff in H as [? ?] end.
  all: destruct (vch_to_uint64_short v1) as [? ?]; [apply Nat.ltb_ge; done | done | congruence].
Qed.

Lemma failed_pc_length pc : (length (failed_pc pc) <= length pc)%nat.
Proof.
  destruct pc as [|o pc]; [done|]. unfold failed_pc, read_size.
  repeat case_match; simplify_eq; cbn [length]; rewrite ?length_skipn; lia.
Qed.

Lemma pubkeys_loop_spec fuel pc1 o1 v1 l :
  (length pc1 < fuel)%nat ->
  exists pc1' o1' v1' ks, pubkeys_loop fuel pc1 o1 v1 l =
    Ok (pc1', o1', v1', mkLocals (sols l ++ ks) (addressType l) (version l)) /\
    (length pc1' <= length pc1)%nat /\ Forall (fun k => k <> []) ks.
Proof.
  revert pc1 o1 v1 l; induction fuel as [|fuel IH]; intros pc1 o1 v1 l Hf; [lia|]. cbn [pubkeys_loop].
  destruct (_ && _) eqn:E.
  - assert (Hv : v1 <> []) by (destruct v1; [cbn in E|]; done).
    destruct (GetScriptOp pc1) as [[[o v] pc]|] eqn:Eo.
    + apply GetScriptOp_shrinks in Eo.
      destruct (IH pc o v (push_sol l v1)) as (p & o' & v' & ks & -> & ? & ?); [lia|].
      exists p, o', v', (v1 :: ks). cbn. rewrite <- app_assoc. split_and!; [done | lia | by constructor].
    + exists (failed_pc pc1), OP_INVALIDOPCODE, [], [v1]. split_and!; [done | apply failed_pc_length | by repeat constructor].
  - exists pc1, o1, v1, []. destruct l. cbn. rewrite app_nil_r. split_and!; [done | lia | done].
Qed.

(** What the additional checks of [TX_MULTISIG] rely on *)
Definition multisig_ops : list Z := [OP_SMALLINTEGER; OP_PUBKEYS; OP_CHECKMULTISIG].

Definition multisig_ready (t : txnouttype) (pc2 : bytes) (l : locals) : Prop :=
  t = TX_MULTISIG ->
  Forall (fun o => o ∈ multisig_ops) pc2 /\ Forall (fun k => k <> []) (sols l) /\
  (sols l = [] -> exists pc2', pc2 = OP_SMALLINTEGER :: pc2').

Lemma found_total t l : multisig_ready t [] l -> exists r, found t l = Ok r.
Proof.
  unfold multisig_ready, found. intros H. destruct (decide _) as [E|]; [|eauto].
  destruct (H E) as (_ & Hne & Hs). destruct (sols l) as [|k ks] eqn:Es; [by destruct Hs|].
  pose proof Hne as [Hk _]%Forall_cons_iff. destruct k as [|m k]; [done|].
  assert (Hlast : @List.last bytes ((m :: k) :: ks) [] <> []).
  { destruct (exists_last (l := (m :: k) :: ks)) as (p & x & Ep); [done|]. 
    assert (Hx : Forall (fun k => k <> []) (p ++ [x])) by (by rewrite <- Ep). rewrite Ep, last_last.
    by apply Forall_app in Hx as [_ [? _]%Forall_cons_iff]. }
  destruct (@List.last bytes _ []); [done|]. case_match; eauto.
Qed.

Lemma match_op_ready c a o1 v1 o2 pc2 l l' t :
  multisig_ready t (o2 :: pc2) l -> match_op c a o1 v1 o2 [] l = Ok (Go l') ->
  multisig_ready t pc2 l'.
Proof.
  intros Hr E Et. destruct (Hr Et) as (Hin & Hs & H0). apply Forall_cons_iff in Hin as [Ho Hin].
  unfold multisig_ops in Ho. rewrite !elem_of_cons in Ho. 
  destruct Ho as [->|Ho].
  - unfold match_op in E. cbn in E. destruct (_ || _) in E; [|done]. destruct (DecodeOP_N o1); [|done].
    cbn in E. injection E as <-. cbn [push_sol sols]. split_and!; [done| |].
    + apply Forall_app. split; [done|]. by repeat constructor.
    + intros E0. by apply app_nil in E0 as [_ ?].
  - assert (o2 <> OP_SMALLINTEGER) by (destruct Ho as [->|[->|Ho]]; [done | done | by apply elem_of_nil in Ho]).
    destruct Ho as [->|[->|Ho]]; [ | | by apply elem_of_nil in Ho].
    all: unfold match_op in E; cbn in E; destruct (_ || _) in E; [done|]; injection E as <-; split_and!; [done | done |].
    all: intros E0; destruct (H0 E0) as (? & ?); done.
Qed.

Lemma match_loop_total c a t fuel pc2 pc1 l :
  (length pc1 < fuel)%nat -> Forall (fun o => OP_PUSHDATA4 < o) pc2 -> List.last pc2 0 <> OP_PUBKEYS ->
  multisig_ready t pc2 l -> exists r, match_loop c a t fuel pc1 pc2 l = Ok r.
Proof.
  revert fuel pc1 l. induction pc2 as [pc2 IH] using (induction_ltof1 _ (@length Z)). unfold ltof in IH.
  intros fuel pc1 l Hf Hop Hlast Hr. destruct fuel as [|fuel]; [lia|].
  assert (Hgo : forall o1 v1 pc1' o2 pc2' l', (length pc1' < fuel)%nat ->
    (length pc2' < length pc2)%nat -> Forall (fun o => OP_PUSHDATA4 < o) pc2' -> List.last pc2' 0 <> OP_PUBKEYS ->
    multisig_ready t (o2 :: pc2') l' -> exists r, compare c a t fuel o1 v1 pc1' o2 pc2' l' = Ok r).
  { intros o1 v1 pc1' o2 pc2' l' ? ? ? ? ?. unfold compare.
    destruct (match_op_total c a o1 v1 o2 [] l') as [r E]. rewrite E. cbn [obind].
    destruct r as [l2| |]; [|by eauto..]. apply IH; try done. by eapply match_op_ready. }
  destruct pc2 as [|o2 pc2].
  { rewrite match_loop_end. destruct pc1; [|by eauto]. by apply found_total. }
  apply Forall_cons_iff in Hop as [Ho Hop].
  assert (Hlast' : List.last pc2 0 <> OP_PUBKEYS) by (destruct pc2; [done|exact Hlast]).
  destruct (decide (o2 = OP_PUBKEYS)) as [->|Hne].
  - destruct pc2 as [|o3 pc2]; [done|]. apply Forall_cons_iff in Hop as [Ho3 Hop].
    rewrite match_loop_pubkeys by done. destruct (GetScriptOp pc1) as [[[o1 v1] pc]|] eqn:Eo; [|by eauto].
    apply GetScriptOp_shrinks in Eo.
    destruct (pubkeys_loop_spec (S (length pc)) pc o1 v1 l) as (p & o' & v' & ks & -> & ? & Hks); [lia|].
    cbn [obind].
    apply Hgo; try done; [lia | cbn; lia | destruct pc2; done |].
    intros Et. destruct (Hr Et) as (Hin & Hs & H0). apply Forall_cons_iff in Hin as [_ Hin]. cbn [sols].
    split_and!; [done | by apply Forall_app |]. intros [E0 _]%app_nil. destruct (H0 E0) as (? & ?). done.
  - rewrite match_loop_op by done. destruct (GetScriptOp pc1) as [[[o1 v1] pc]|] eqn:Eo; [|by eauto].
    apply GetScriptOp_shrinks in Eo. apply Hgo; try done; cbn; lia.
Qed.

Lemma Solver_total script c a : exists r, Solver script c a = Ok r.
Proof.
  unfold Solver. repeat (case_match; try by eauto).
  assert (Hts : Forall (fun '(t, s) => Forall (fun o => OP_PUSHDATA4 < o) s /\ List.last s 0 <> OP_PUBKEYS /\
    multisig_ready t s (mkLocals [] 0 version_unset)) mTemplates).
  { unfold mTemplates. repeat apply Forall_cons_2; try apply Forall_nil_2; split_and!; try done.
    all: try (by repeat (apply Forall_cons_2; [reflexivity|]); apply Forall_nil_2).
    intros _. split_and!; [|done|by eexists]. repeat (apply Forall_cons_2; [unfold multisig_ops; rewrite !elem_of_cons; tauto|]). apply Forall_nil_2. }
  induction Hts as [|[t s] ts (Hop & Hlast & Hr) _ IH]; cbn [scan_templates]; [by eauto|].
  destruct (match_loop_total c a t (S (length script)) s script _ ltac:(lia) Hop Hlast Hr) as [r ->]. cbn [obind].
  destruct r; by eauto.
Qed.

(** ** What the solutions are *)

(** The output script of a key hash *)
Definition pkh_script (h : bytes) : CScript := push_data [OP_DUP; OP_HASH160] h ++ [OP_EQUALVERIFY; OP_CHECKSIG].

#[local] Arguments pkh_script : simpl never.

(** The solutions one opcode of a template adds *)
Definition yields (o2 : Z) (x : list bytes) : Prop :=
  if o2 =? OP_PUBKEYS then Forall (fun k => 33 <= length k <= 65)%nat x
  else if o2 =? OP_PUBKEY then exists k, x = [k] /\ (33 <= length k <= 65)%nat
  else if o2 =? OP_PUBKEYHASH then exists h, x = [h] /\ length h = 20%nat
  else if o2 =? OP_SMALLINTEGER then exists n, x = [[n]] /\ 0 <= n <= 16
  else if o2 =? OP_ADDRESS then
    exists h, x = [Serialize_bytes (pkh_script h)] /\ length h = 20%nat
  else if o2 =? OP_SCRIPT_SIG then x = [] \/ exists sig, x = [sig] /\ Z.of_nat (length sig) <= MAX_BASE_SCRIPT_SIZE
  else x = [].

Lemma match_op_go c a o1 v1 o2 v2 l l' :
  match_op c a o1 v1 o2 v2 l = Ok (Go l') -> exists x, sols l' = sols l ++ x /\ yields o2 x.
Proof.
  unfold yields, match_op. intros E.
  destruct (Z.eqb_spec o2 OP_PUBKEYS) as [->|_].
  { cbn in E. destruct (_ || _) in E; [done|]. injection E as <-. exists []. rewrite app_nil_r. split; [done | apply Forall_nil_2]. }
  destruct (Z.eqb_spec o2 OP_PUBKEY) as [_|_].
  { destruct (_ || _) eqn:Eb in E; [done|]. injection E as <-. apply orb_false_iff in Eb as [?%Nat.ltb_ge ?%Nat.ltb_ge].
    exists [v1]. eauto. }
  destruct (Z.eqb_spec o2 OP_PUBKEYHASH) as [_|_].
  { destruct (Nat.eqb_spec (length v1) 20); [|done]. injection E as <-. exists [v1]. eauto. }
  destruct (Z.eqb_spec o2 OP_SMALLINTEGER) as [_|_].
  { unfold DecodeOP_N, OP_0, OP_1, OP_16 in E. destruct (Z.eqb_spec o1 0) as [_|_].
    - injection E as <-. exists [[0]]. split; [done|]. exists 0. split; [done|lia].
    - destruct (Z.leb_spec 81 o1); [|done]. destruct (Z.leb_spec o1 96); [|done]. injection E as <-.
      exists [[o1 - (81 - 1)]]. rewrite wrap_small by (unfold in_u; lia). split; [done|].
      exists (o1 - (81 - 1)). split; [done|lia]. }
  destruct (Z.eqb_spec o2 OP_ADDRESS) as [->|_].
  { cbn in E. unfold match_address in E. destruct (_ =? _) in E; [|done]. destruct (Nat.eqb_spec (length v1) 20); [|done].
    cbn in E. injection E as <-. eexists. split; [reflexivity|]. eauto. }
  destruct (Z.eqb_spec o2 OP_SCRIPT_SIG) as [->|_].
  { cbn in E. unfold match_script_sig, nonstandard in E. destruct (is_push o1).
    - destruct (_ && _) in E; [done|]. destruct (Z.ltb_spec MAX_BASE_SCRIPT_SIZE (Z.of_nat (length v1))); [done|].
      injection E as <-. exists [v1]. eauto.
    - injection E as <-. exists []. rewrite app_nil_r. eauto. }
  exists []. rewrite app_nil_r. split; [|done].
  unfold match_version, match_gas_limit, match_gas_price, match_address_type, nonstandard in E.
  repeat (case_match; simplify_eq; try done).
Qed.

Lemma match_op_return c a o1 v1 o2 v2 l t s :
  match_op c a o1 v1 o2 v2 l = Ok (Return t s) -> t = TX_NONSTANDARD.
Proof.
  unfold match_op, match_version, match_gas_limit, match_gas_price, match_address_type, match_address,
    match_script_sig, nonstandard, DecodeOP_N, GetScriptForDestination. intros E.
  repeat (case_match; cbn [obind of_option] in *; simplify_eq; try done).
Qed.

Lemma pubkeys_loop_keys fuel pc1 o1 v1 l pc1' o1' v1' l' :
  pubkeys_loop fuel pc1 o1 v1 l = Ok (pc1', o1', v1', l') ->
  exists ks, sols l' = sols l ++ ks /\ Forall (fun k => 33 <= length k <= 65)%nat ks.
Proof.
  revert pc1 o1 v1 l; induction fuel as [|fuel IH]; intros pc1 o1 v1 l; [done|]. cbn [pubkeys_loop].
  destruct (_ && _) eqn:E.
  - apply andb_true_iff in E as [?%Nat.leb_le ?%Nat.leb_le].
    destruct (GetScriptOp pc1) as [[[o v] pc]|].
    + intros (ks & -> & ?)%IH. exists (v1 :: ks). cbn. rewrite <- app_assoc. split; [done|]. by apply Forall_cons_2.
    + intros [= <- <- <- <-]. exists [v1]. split; [done|]. by apply Forall_cons_2; [|apply Forall_nil_2].
  - intros [= <- <- <- <-]. exists []. by rewrite app_nil_r.
Qed.

(** The final checks depend on the solutions only. *)
Definition checked (t : txnouttype) (s : list bytes) : Prop := found t (mkLocals s 0 version_unset) = Ok (Return t s).

Lemma found_return t l t' s :
  found t l = Ok (Return t' s) -> t' = TX_NONSTANDARD \/ (t' = t /\ s = sols l /\ checked t s).
Proof.
  unfold checked. intros E.
  assert (Hs : t' = TX_NONSTANDARD \/ t' = t /\ s = sols l).
  { unfold found in E. repeat (case_match; simplify_eq); auto. }
  destruct Hs as [?|[-> ->]]; [by left|]. right. split_and!; [done | done |]. by rewrite <- E.
Qed.

(** A template is matched opcode by opcode, each adding its solutions. *)
Lemma match_loop_yields c a t fuel pc1 pc2 l t' s :
  Forall (fun o => OP_PUSHDATA4 < o) pc2 -> List.last pc2 0 <> OP_PUBKEYS ->
  match_loop c a t fuel pc1 pc2 l = Ok (Return t' s) ->
  t' = TX_NONSTANDARD \/ (t' = t /\ checked t s /\ exists xs, Forall2 yields pc2 xs /\ s = sols l ++ concat xs).
Proof.
  revert fuel pc1 l. induction pc2 as [pc2 IH] using (induction_ltof1 _ (@length Z)). unfold ltof in IH.
  intros fuel pc1 l Hop Hlast E. destruct fuel as [|fuel]; [done|].
  assert (Hgo : forall o1 v1 pc1' o2 pc2' l', (length pc2' < length pc2)%nat ->
    Forall (fun o => OP_PUSHDATA4 < o) pc2' -> List.last pc2' 0 <> OP_PUBKEYS ->
    compare c a t fuel o1 v1 pc1' o2 pc2' l' = Ok (Return t' s) ->
    t' = TX_NONSTANDARD \/ (t' = t /\ checked t s /\ exists xs, Forall2 yields (o2 :: pc2') xs /\ s = sols l' ++ concat xs)).
  { intros o1 v1 pc1' o2 pc2' l' ? ? ?. unfold compare. destruct (match_op _ _ _ _ _ _ _) as [[l2| |]| |] eqn:Eop;
      cbn [obind]; [|done| |done|done].
    - intros Hl. destruct (match_op_go _ _ _ _ _ _ _ _ Eop) as (x & Ex & Hy).
      destruct (IH pc2' ltac:(done) _ _ _ ltac:(done) ltac:(done) Hl) as [?|(? & ? & xs & Hxs & Hs)]; [by left|].
      right. do 2 (split; [done|]). exists (x :: xs). split; [by constructor|].
      cbn [concat]. by rewrite Hs, Ex, <- app_assoc.
    - intros [= -> ->]. left. by eapply match_op_return. }
  destruct pc2 as [|o2 pc2].
  { rewrite match_loop_end in E. destruct pc1; [|done]. apply found_return in E as [?|(? & -> & ?)]; [by left|].
    right. do 2 (split; [done|]). exists []. by rewrite app_nil_r. }
  apply Forall_cons_iff in Hop as [Ho Hop].
  assert (Hlast' : List.last pc2 0 <> OP_PUBKEYS) by (destruct pc2; [done|exact Hlast]).
  destruct (decide (o2 = OP_PUBKEYS)) as [->|Hne].
  - destruct pc2 as [|o3 pc2]; [done|]. apply Forall_cons_iff in Hop as [Ho3 Hop].
    rewrite match_loop_pubkeys in E by done. destruct (GetScriptOp pc1) as [[[o1 v1] pc]|]; [|done].
    destruct (pubkeys_loop _ _ _ _ _) as [[[[? ?] ?] l']| |] eqn:Ek; cbn [obind] in E; [|done|done].
    destruct (pubkeys_loop_keys _ _ _ _ _ _ _ _ _ Ek) as (ks & Es & Hks).
    apply Hgo in E as [?|(? & ? & xs & Hxs & Hs)]; [by left| |cbn; lia | done | by destruct pc2].
    right. do 2 (split; [done|]). exists (ks :: xs). split; [by constructor|]. cbn [concat]. by rewrite Hs, Es, <- app_assoc.
  - rewrite match_loop_op in E by done. destruct (GetScriptOp pc1) as [[[o1 v1] pc]|]; [|done].
    apply Hgo in E; [done | cbn; lia | done | done].
Qed.

Lemma templates_ok :
  Forall (fun '(_, s) => Forall (fun o => OP_PUSHDATA4 < o) s /\ List.last s 0 <> OP_PUBKEYS) mTemplates.
Proof.
  unfold mTemplates. repeat apply Forall_cons_2; try apply Forall_nil_2; (split; [|done]);
    by repeat (apply Forall_cons_2; [reflexivity|]); apply Forall_nil_2.
Qed.

Lemma scan_templates_yields c a script t s :
  scan_templates c a script mTemplates = Ok (t, s) ->
  t = TX_NONSTANDARD \/ exists s2 xs, In (t, s2) mTemplates /\ checked t s /\ Forall2 yields s2 xs /\ s = concat xs.
Proof.
  pose proof templates_ok as Hts. revert Hts. generalize mTemplates. intros ts.
  induction ts as [|[t2 s2] ts IH]; intros Hts; cbn [scan_templates].
  { intros [= <- <-]. by left. }
  apply Forall_cons_iff in Hts as [[Hop Hlast] Hts].
  destruct (match_loop _ _ _ _ _ _ _) as [r| |] eqn:E; cbn [obind]; [|done|done].
  destruct r as [l| |t' s']; [| |intros [= <- <-]].
  1, 2: intros [?|(s3 & xs & ? & ?)]%IH; [by left | right; exists s3, xs; split; [by right|done] | done].
  apply match_loop_yields in E as [?|(-> & ? & xs & ? & ?)]; [by left | | done | done].
  right. exists s2, xs. split; [by left|done].
Qed.

(** The solutions each type comes with *)
Definition solutions_of (t : txnouttype) (s : list bytes) : Prop :=
  match t with
  | TX_NONSTANDARD => True
  | TX_NULL_DATA | TX_CREATE => s = []
  | TX_PUBKEY => exists k, s = [k] /\ (33 <= length k <= 65)%nat
  | TX_PUBKEYHASH | TX_SCRIPTHASH | TX_WITNESS_V0_KEYHASH | TX_CALL => exists h, s = [h] /\ length h = 20%nat
  | TX_WITNESS_V0_SCRIPTHASH => exists h, s = [h] /\ length h = 32%nat
  | TX_WITNESS_UNKNOWN => exists v p, s = [[v]; p] /\ 1 <= v <= 16 /\ (2 <= length p <= 40)%nat
  | TX_MULTISIG => exists m keys, s = [m] :: keys ++ [[Z.of_nat (length keys)]] /\
                     1 <= m <= Z.of_nat (length keys) /\ (length keys <= 16)%nat /\ Forall (fun k => 33 <= length k <= 65)%nat keys
  | TX_CREATE_SENDER => exists h sig, s = Serialize_bytes (pkh_script h) :: sig /\ length h = 20%nat /\ (length sig <= 1)%nat
  | TX_CALL_SENDER => exists h sig addr, s = Serialize_bytes (pkh_script h) :: sig ++ [addr] /\ length h = 20%nat /\
                        (length sig <= 1)%nat /\ length addr = 20%nat
  end.

Lemma yields_cons o pc2 xs :
  Forall2 yields (o :: pc2) xs -> exists x xs', xs = x :: xs' /\ yields o x /\ Forall2 yields pc2 xs'.
Proof. intros H. inversion H; subst. eauto. Qed.

Lemma yields_nil xs : Forall2 yields [] xs -> xs = [].
Proof. intros H. by inversion H. Qed.

Ltac invert_yields :=
  repeat match goal with
  | H : Forall2 yields (_ :: _) _ |- _ =>
      let Hx := fresh "Hx" in
      apply yields_cons in H as (? & ? & -> & Hx & H); unfold yields in Hx; cbn in Hx
  | H : Forall2 yields [] _ |- _ => apply yields_nil in H as ->
  | H : exists _, _ /\ _ |- _ => destruct H as (? & -> & ?)
  end; subst; cbn [concat app].

Lemma multisig_checked (m n : Z) (keys : list bytes) :
  checked TX_MULTISIG ([m] :: keys ++ [[n]]) -> 1 <= m <= Z.of_nat (length keys) /\ n = Z.of_nat (length keys).
Proof.
  intros Hc. unfold checked, found in Hc. destruct (decide _); [|done]. cbn [sols] in Hc.
  change ([m] :: keys ++ [[n]]) with (([m] :: keys) ++ [[n]]) in Hc. rewrite last_last, length_app in Hc.
  cbn [length] in Hc. destruct (_ || _) eqn:Eb in Hc; [done|].
  rewrite !orb_false_iff, !Z.ltb_ge, negb_false_iff, Z.eqb_eq in Eb. unfold bytes in *. lia.
Qed.

Lemma Solver_solutions script c a t s : Solver script c a = Ok (t, s) -> solutions_of t s.
Proof.
  unfold Solver. destruct (IsPayToScriptHash script) eqn:Esh.
  { intros [= <- <-]. eexists. split; [reflexivity|]. unfold IsPayToScriptHash in Esh.
    rewrite !andb_true_iff, Nat.eqb_eq in Esh. rewrite length_take, length_drop. lia. }
  destruct (IsWitnessProgram script) as [[v p]|] eqn:Ew.
  { assert (Hv : 0 <= v <= 16 /\ (2 <= length p <= 40)%nat).
    { unfold IsWitnessProgram, DecodeOP_N, OP_0, OP_1, OP_16 in Ew.
      destruct (_ || _) eqn:El in Ew; [done|]. rewrite orb_false_iff, !Z.ltb_ge in El.
      repeat (case_match; simplify_eq); rewrite length_skipn; rewrite ?andb_true_iff, ?Z.leb_le in *; lia. }
    destruct (Z.eqb_spec v 0) as [->|Hv0]; cbn [andb negb].
    - destruct (Nat.eqb_spec (length p) WITNESS_V0_KEYHASH_SIZE); [intros [= <- <-]; by eexists|].
      destruct (Nat.eqb_spec (length p) WITNESS_V0_SCRIPTHASH_SIZE); intros [= <- <-]; [by eexists | done].
    - intros [= <- <-]. rewrite wrap_small by (unfold in_u; lia). exists v, p. split_and!; done || lia. }
  destruct (_ && _); [by intros [= <- <-]|].
  intros [->|(s2 & xs & Hin & Hc & Hy & ->)]%scan_templates_yields; [done|].
  unfold mTemplates in Hin. repeat destruct Hin as [[= <- <-]|Hin]; [..|done].
  - invert_yields. unfold solutions_of. eauto.
  - invert_yields. unfold solutions_of. eauto.
  - invert_yields. unfold solutions_of. cbn [app concat] in Hc.
    destruct (multisig_checked _ _ _ Hc) as [? ->]. eexists _, _. unfold bytes in *. split_and!; [reflexivity | lia | lia | lia | done].
  - invert_yields. cbn. rewrite app_nil_r. eexists _, _. split_and!; [reflexivity | done |].
    by destruct Hx1 as [->|(? & -> & _)]; cbn; lia.
  - invert_yields. eexists _, _, _. split_and!; [reflexivity | done | | done].
    by destruct Hx1 as [->|(? & -> & _)]; cbn; lia.
  - by invert_yields.
  - invert_yields. unfold solutions_of. eauto.
Qed.

(** ** Destinations *)

Definition valid_dest (d : CTxDestination) : Prop :=
  match d with
  | CNoDestination => False
  | PKHash h | ScriptHash h | WitnessV0KeyHash h => length h = 20%nat
  | WitnessV0ScriptHash h => length h = 32%nat
  | WitnessUnknown v p => 1 <= v <= 16 /\ (2 <= length p <= 40)%nat
  end.

Definition type_of (d : CTxDestination) : txnouttype :=
  match d with
  | CNoDestination => TX_NONSTANDARD
  | PKHash _ => TX_PUBKEYHASH
  | ScriptHash _ => TX_SCRIPTHASH
  | WitnessV0ScriptHash _ => TX_WITNESS_V0_SCRIPTHASH
  | WitnessV0KeyHash _ => TX_WITNESS_V0_KEYHASH
  | WitnessUnknown _ _ => TX_WITNESS_UNKNOWN
  end.

Lemma push_small s b : Z.of_nat (length b) < 76 -> push_data s b = s ++ Z.of_nat (length b) :: b.
Proof.
  intros H. unfold push_data, OP_PUSHDATA1. destruct (Z.ltb_spec (Z.of_nat (length b)) 76); [|lia].
  by rewrite wrap_small by (unfold in_u; lia).
Qed.

Lemma IsWitnessProgram_push o v p :
  DecodeOP_N o = Some v -> (2 <= length p <= 40)%nat -> IsWitnessProgram (o :: Z.of_nat (length p) :: p) = Some (v, p).
Proof.
  intros Hd Hp. unfold IsWitnessProgram. cbn [length byte_at nth].
  destruct (Z.ltb_spec (Z.of_nat (S (S (length p)))) 4); [lia|].
  destruct (Z.ltb_spec 42 (Z.of_nat (S (S (length p))))); [lia|]. cbn [orb].
  destruct (Z.eqb_spec (Z.of_nat (length p) + 2) (Z.of_nat (S (S (length p))))); [|lia].
  rewrite Hd. unfold DecodeOP_N, OP_0, OP_1, OP_16 in *.
  destruct (Z.eqb_spec o 0); [done|]. destruct (Z.leb_spec 81 o); [|done]. destruct (Z.leb_spec o 96); [|done].
  destruct (Z.ltb_spec o 81); [lia|]. destruct (Z.ltb_spec 96 o); [lia|]. done.
Qed.

Lemma IsPayToScriptHash_push o p : o <> OP_HASH160 -> IsPayToScriptHash (o :: p) = false.
Proof.
  intros H. unfold IsPayToScriptHash, byte_at. cbn [nth]. apply Z.eqb_neq in H. rewrite H.
  by rewrite andb_false_r.
Qed.

Lemma EncodeDecode v : 0 <= v <= 16 -> exists o, EncodeOP_N v = Some o /\ DecodeOP_N o = Some v /\ o <> OP_HASH160 /\ in_u 8 o.
Proof.
  intros Hv. unfold EncodeOP_N, DecodeOP_N, OP_0, OP_1, OP_16, OP_HASH160, in_u.
  destruct (Z.leb_spec 0 v); [|lia]. destruct (Z.leb_spec v 16); [|lia]. cbn [andb]. eexists. split; [done|].
  destruct (Z.eqb_spec v 0) as [->|]; [done|].
  destruct (Z.eqb_spec (81 + v - 1) 0); [lia|]. destruct (Z.leb_spec 81 (81 + v - 1)); [|lia].
  destruct (Z.leb_spec (81 + v - 1) 96); [|lia]. cbn [andb]. split_and!; [f_equal; lia | lia | lia | lia].
Qed.

Lemma Solver_witness o v p :
  DecodeOP_N o = Some v -> o <> OP_HASH160 -> 0 <= v <= 16 -> (2 <= length p <= 40)%nat ->
  Solver (push_data [o] p) false false =
  if (v =? 0) && (length p =? WITNESS_V0_KEYHASH_SIZE)%nat then Ok (TX_WITNESS_V0_KEYHASH, [p])
  else if (v =? 0) && (length p =? WITNESS_V0_SCRIPTHASH_SIZE)%nat then Ok (TX_WITNESS_V0_SCRIPTHASH, [p])
  else if negb (v =? 0) then Ok (TX_WITNESS_UNKNOWN, [[v]; p])
  else Ok (TX_NONSTANDARD, []).
Proof.
  intros Hd Hne Hv Hp. rewrite push_small by lia. cbn [app]. unfold Solver.
  rewrite IsPayToScriptHash_push by done. rewrite (IsWitnessProgram_push o v p Hd Hp).
  by rewrite wrap_small by (unfold in_u; lia).
Qed.

Lemma length_20 {A} (h : list A) : length h = 20%nat ->
  exists x0 x1 x2 x3 x4 x5 x6 x7 x8 x9 x10 x11 x12 x13 x14 x15 x16 x17 x18 x19,
    h = [x0; x1; x2; x3; x4; x5; x6; x7; x8; x9; x10; x11; x12; x13; x14; x15; x16; x17; x18; x19].
Proof. intros H. do 20 (destruct h as [|? h]; [done|]). destruct h; [|done]. by repeat eexists. Qed.

Lemma Solver_pkh h c a : length h = 20%nat -> Solver (pkh_script h) c a = Ok (TX_PUBKEYHASH, [h]).
Proof.
  intros (x0 & x1 & x2 & x3 & x4 & x5 & x6 & x7 & x8 & x9 & x10 & x11 & x12 & x13 & x14 & x15 & x16 & x17 & x18 & x19
    & ->)%length_20. by destruct c, a; vm_compute.
Qed.

Lemma Solver_sh h c a : length h = 20%nat -> Solver (push_data [OP_HASH160] h ++ [OP_EQUAL]) c a = Ok (TX_SCRIPTHASH, [h]).
Proof.
  intros (x0 & x1 & x2 & x3 & x4 & x5 & x6 & x7 & x8 & x9 & x10 & x11 & x12 & x13 & x14 & x15 & x16 & x17 & x18 & x19
    & ->)%length_20. by vm_compute.
Qed.

#[local] Opaque Solver.

(** For every destination with hashes of the right size, and every future
    witness version and program, [ExtractDestination] recovers the
    destination, and its type, from the output script built for it. *)
Theorem destination_round_trip (d : CTxDestination) :
  valid_dest d ->
  exists script, GetScriptForDestination d = Ok script /\ ExtractDestination script = Ok (type_of d, Some d).
Proof.
  intros Hd. destruct d as [|h|h|h|h|v p]; cbn [valid_dest] in Hd; [done|..]; cbn [GetScriptForDestination].
  - eexists. split; [done|]. unfold ExtractDestination. fold (pkh_script h). rewrite Solver_pkh by done. cbn.
    unfold uint160_of. by rewrite Hd.
  - eexists. split; [done|]. unfold ExtractDestination. rewrite Solver_sh by done. cbn. unfold uint160_of. by rewrite Hd.
  - eexists. split; [done|]. unfold ExtractDestination.
    rewrite (Solver_witness OP_0 0) by (done || lia). by rewrite Hd.
  - eexists. split; [done|]. unfold ExtractDestination.
    rewrite (Solver_witness OP_0 0) by (done || lia). by rewrite Hd.
  - destruct (EncodeDecode v) as (o & E & D & Hne & _); [lia|]. rewrite E. cbn [obind of_option].
    eexists. split; [done|]. unfold ExtractDestination. rewrite (Solver_witness o v) by (done || lia).
    by destruct (Z.eqb_spec v 0); [lia|].
Qed.

Lemma destination_round_trip_witness :
  exists script, GetScriptForDestination (WitnessUnknown 3 [7; 9]) = Ok script /\
    ExtractDestination script = Ok (TX_WITNESS_UNKNOWN, Some (WitnessUnknown 3 [7; 9])).
Proof. apply (destination_round_trip (WitnessUnknown 3 [7; 9])). cbn. lia. Defined.

(** Every script is classified: [Solver] terminates without running out of
    its vectors, and the solutions it returns have the number and the sizes
    that go with the type (one hash of 20 or 32 bytes, a key of 33 to 65
    bytes, [m], the keys and [n] with [1 <= m <= n] for a multisignature, the
    sender's script first for contract outputs with a sender). *)
Theorem Solver_well_typed (script : CScript) (contractConsensus allowEmptySenderSig : bool) :
  exists t vSolutions, Solver script contractConsensus allowEmptySenderSig = Ok (t, vSolutions) /\ solutions_of t vSolutions.
Proof.
  destruct (Solver_total script contractConsensus allowEmptySenderSig) as [[t s] E]. exists t, s.
  split; [done|]. by eapply Solver_solutions.
Qed.

Lemma ExtractDestination_total script : exists t d, ExtractDestination script = Ok (t, d).
Proof.
  unfold ExtractDestination. destruct (Solver_total script false false) as [[t s] E]. rewrite E. cbn [obind].
  apply Solver_solutions in E. unfold uint160_of.
  destruct t; cbn [solutions_of] in E; try (by eauto);
    repeat match goal with H : ex _ |- _ => destruct H | H : _ /\ _ |- _ => destruct H end; subst; cbn [sol obind of_option lookup list_lookup];
    try rewrite (proj2 (Nat.eqb_eq _ _)) by done; cbn; try (by eauto).
  case_match; eauto.
Qed.

(** The functions that use the solutions never fail an assertion, an
    index or a size check, whatever the output script is. *)
Theorem script_extraction_never_fails (script : CScript) (contractConsensus : bool) :
  (exists t d, ExtractDestination script = Ok (t, d)) /\
  (exists r, ExtractDestinations script contractConsensus = Ok r) /\
  (exists w, GetScriptForWitness script = Ok w) /\
  (exists r, ExtractSenderData script = Ok r) /\
  (exists r, GetSenderPubKey script = Ok r).
Proof.
  split_and!.
  - apply ExtractDestination_total.
  - unfold ExtractDestinations. destruct (Solver_total script contractConsensus false) as [[t s] E]. rewrite E. cbn [obind].
    apply Solver_solutions in E. destruct (ExtractDestination_total script) as (t' & d & ED). rewrite ED. cbn [obind].
    destruct t; try (by eauto); try (by destruct d; eauto).
    destruct E as (m & keys & -> & _). cbn. case_match; eauto.
  - unfold GetScriptForWitness. destruct (Solver_total script false false) as [[t s] E]. rewrite E. cbn [obind].
    apply Solver_solutions in E. destruct t; try (by eauto); destruct E as (h & -> & Hh); cbn.
    + by eauto.
    + unfold uint160_of. rewrite Hh. cbn. eauto.
  - unfold ExtractSenderData, solve_sender. destruct (HasOpSender script); [|by eauto].
    destruct (Solver_total script true false) as [[t s] ->], (Solver_total script false false) as [[t' s'] ->]. cbn [obind].
    destruct t; [destruct t'|..]; cbn [obind]; try by eauto.
    all: match goal with |- context [sol ?v _] => destruct v as [|? [|? ?]]; cbn; by eauto end.
  - unfold GetSenderPubKey, solve_sender. destruct (HasOpSender script); [|by eauto].
    destruct (Solver_total script true true) as [[t s] ->], (Solver_total script false true) as [[t' s'] ->]. cbn [obind].
    destruct t; [destruct t'|..]; cbn [obind]; try by eauto.
    all: match goal with |- context [sol ?v _] => destruct v as [|? ?]; cbn; by eauto end.
Qed.

(** ** Multisignatures *)

Lemma push_data_nil s b : push_data s b = s ++ push_data [] b.
Proof. by rewrite push_data_app. Qed.

Lemma push_all keys s : fold_left push_data keys s = s ++ concat (map (push_data []) keys).
Proof.
  revert s; induction keys as [|k keys IH]; intros s; cbn [fold_left map concat]; [by rewrite app_nil_r|].
  by rewrite IH, push_data_nil, <- app_assoc.
Qed.

Lemma pubkeys_loop_keys_read keys o rest fuel o1 v1 l :
  Forall (fun k => 33 <= length k <= 65)%nat (v1 :: keys) -> OP_PUSHDATA4 < o -> (length keys + 1 < fuel)%nat ->
  pubkeys_loop fuel (concat (map (push_data []) keys) ++ o :: rest) o1 v1 l =
  Ok (rest, o, [], mkLocals (sols l ++ v1 :: keys) (addressType l) (version l)).
Proof.
  revert keys o1 v1 l; induction fuel as [|fuel IH]; intros keys o1 v1 l Hk Ho Hf; [lia|].
  cbn [pubkeys_loop]. apply Forall_cons_iff in Hk as [Hv Hk].
  destruct (Nat.leb_spec 33 (length v1)); [|lia]. destruct (Nat.leb_spec (length v1) 65); [|lia]. cbn [andb].
  destruct keys as [|k keys]; cbn [map concat app].
  - rewrite GetScriptOp_opcode by done. destruct fuel; [cbn in Hf; lia|]. done.
  - rewrite <- app_assoc. pose proof Hk as [Hk1 _]%Forall_cons_iff.
    destruct (GetScriptOp_push k (concat (map (push_data []) keys) ++ o :: rest)) as (ok & -> & _); [lia|].
    rewrite IH by (done || (cbn in Hf; lia)). cbn [push_sol sols addressType version]. by rewrite <- app_assoc.
Qed.

(** Lengths at the type of vectors of byte vectors *)
Ltac blia := unfold CScript, bytes in *; lia.

Definition multisig_script (om on : Z) (keys : list bytes) : CScript :=
  om :: concat (map (push_data []) keys) ++ [on; OP_CHECKMULTISIG].

Lemma length_pushes keys : (length keys <= length (concat (map (push_data []) keys)))%nat.
Proof.
  induction keys as [|k keys IH]; cbn [map concat length]; [done|]. rewrite length_app.
  assert (1 <= length (push_data [] k))%nat; [|lia]. unfold push_data. cbn [app]. rewrite length_app.
  repeat case_match; cbn; lia.
Qed.

Lemma match_multisig c a fuel m om on keys :
  DecodeOP_N om = Some m -> DecodeOP_N on = Some (Z.of_nat (length keys)) -> OP_PUSHDATA4 < om -> OP_PUSHDATA4 < on ->
  1 <= m <= Z.of_nat (length keys) -> (length keys <= 16)%nat -> Forall (fun k => 33 <= length k <= 65)%nat keys ->
  match_loop c a TX_MULTISIG (S (S (S (S fuel)))) (multisig_script om on keys)
    [OP_SMALLINTEGER; OP_PUBKEYS; OP_SMALLINTEGER; OP_CHECKMULTISIG] (mkLocals [] 0 version_unset) =
  Ok (Return TX_MULTISIG ([m] :: keys ++ [[Z.of_nat (length keys)]])).
Proof.
  intros Dm Dn Hm Hn Hr H16 Hk. unfold multisig_script.
  assert (Hsmall : forall o n, DecodeOP_N o = Some n -> (o =? OP_0) || (OP_1 <=? o) && (o <=? OP_16) = true).
  { intros o n. unfold DecodeOP_N. by destruct (o =? OP_0), ((OP_1 <=? o) && (o <=? OP_16)). }
  assert (Hstep : forall o n v l, DecodeOP_N o = Some n -> 0 <= n <= 16 ->
    match_op c a o v OP_SMALLINTEGER [] l = Ok (Go (push_sol l [n]))).
  { intros o n v l D Hn16. unfold match_op. cbn [Z.eqb OP_SMALLINTEGER OP_PUBKEY OP_PUBKEYHASH Pos.eqb].
    rewrite (Hsmall _ _ D), D. cbn [obind of_option]. by rewrite wrap_small by (unfold in_u; lia). }
  rewrite match_loop_op, GetScriptOp_opcode by done. unfold compare. rewrite (Hstep om m) by (done || lia). cbn [obind].
  rewrite match_loop_pubkeys by done. destruct keys as [|k keys]; [cbn in Hr; lia|].
  cbn [map concat]. rewrite <- app_assoc. pose proof Hk as [Hk1 _]%Forall_cons_iff.
  destruct (GetScriptOp_push k (concat (map (push_data []) keys) ++ [on; OP_CHECKMULTISIG])) as (o & -> & _); [lia|].
  rewrite (pubkeys_loop_keys_read keys on [OP_CHECKMULTISIG]); [|done|done|].
  2: { rewrite length_app. pose proof (length_pushes keys). cbn. blia. }
  cbn [obind]. unfold compare. rewrite (Hstep on _ _ _ Dn) by lia. cbn [obind].
  rewrite match_loop_op, GetScriptOp_opcode by done. unfold compare. cbn [match_op]. cbn [obind].
  change (match_op c a OP_CHECKMULTISIG [] OP_CHECKMULTISIG []) with (fun l => Ok (Go l)). cbn beta iota.
  cbn [obind]. rewrite match_loop_end. unfold found. destruct (decide _); [|done]. cbn [push_sol sols app].
  change ([m] :: (k :: keys) ++ [[Z.of_nat (length (k :: keys))]]) with
    (([m] :: k :: keys) ++ [[Z.of_nat (length (k :: keys))]]).
  change ([m] :: k :: keys ++ [[Z.of_nat (length (k :: keys))]]) with
    (([m] :: k :: keys) ++ [[Z.of_nat (length (k :: keys))]]).
  rewrite last_last, length_app. cbn [length] in *.
  destruct (_ || _) eqn:Eb; [|done]. exfalso.
  rewrite !orb_true_iff, !Z.ltb_lt, negb_true_iff, Z.eqb_neq in Eb. blia.
Qed.

#[local] Transparent Solver.

Lemma Solver_multisig c a m om on keys :
  DecodeOP_N om = Some m -> DecodeOP_N on = Some (Z.of_nat (length keys)) -> OP_1 <= om <= OP_16 -> OP_1 <= on <= OP_16 ->
  1 <= m <= Z.of_nat (length keys) -> (length keys <= 16)%nat -> Forall (fun k => 33 <= length k <= 65)%nat keys ->
  Solver (multisig_script om on keys) c a = Ok (TX_MULTISIG, [m] :: keys ++ [[Z.of_nat (length keys)]]).
Proof.
  intros Dm Dn Hm Hn Hr H16 Hk. unfold OP_1, OP_16 in Hm, Hn. unfold Solver.
  assert (IsPayToScriptHash (multisig_script om on keys) = false) as -> by (apply IsPayToScriptHash_push; unfold OP_HASH160; lia).
  assert (IsWitnessProgram (multisig_script om on keys) = None) as ->.
  { unfold multisig_script, IsWitnessProgram. destruct (_ || _); [done|]. destruct (_ && _); [done|].
    destruct keys as [|k keys]; [cbn in Hr; lia|]. apply Forall_cons_iff in Hk as [Hk _].
    cbn [map concat]. rewrite push_small by lia. unfold byte_at. cbn [app nth length]. rewrite !length_app.
    destruct (_ =? _) eqn:E; [|done]. apply Z.eqb_eq in E. rewrite ?length_app in E. cbn [length] in E. blia. }
  assert ((byte_at (multisig_script om on keys) 0 =? OP_RETURN) = false) as -> by (apply Z.eqb_neq; cbn; unfold OP_RETURN; lia).
  rewrite andb_false_r. cbn [andb]. unfold mTemplates.
  assert (Hf : exists f, length (multisig_script om on keys) = S (S (S f))).
  { unfold multisig_script. cbn [length]. rewrite length_app. cbn [length].
    exists (length (concat (map (push_data []) keys)))%nat. lia. }
  destruct Hf as [f Hf].
  cbn [scan_templates]. rewrite Hf.
  assert (Hop : OP_PUSHDATA4 < om) by (unfold OP_PUSHDATA4; lia).
  assert (Hop' : OP_PUSHDATA4 < on) by (unfold OP_PUSHDATA4; lia).
  rewrite match_loop_op by done. unfold multisig_script at 1. rewrite GetScriptOp_opcode by done. cbn [compare match_op obind].
  change (compare c a TX_PUBKEY (S (S (S f))) om [] (concat (map (push_data []) keys) ++ [on; OP_CHECKMULTISIG]) OP_PUBKEY
    [OP_CHECKSIG] (mkLocals [] 0 version_unset)) with (Ok Break). cbn [obind].
  rewrite match_loop_op by done. unfold multisig_script at 1. rewrite GetScriptOp_opcode by done.
  assert (compare c a TX_PUBKEYHASH (S (S (S f))) om [] (concat (map (push_data []) keys) ++ [on; OP_CHECKMULTISIG]) OP_DUP
    [OP_HASH160; OP_PUBKEYHASH; OP_EQUALVERIFY; OP_CHECKSIG] (mkLocals [] 0 version_unset) = Ok Break) as ->.
  { unfold compare, match_op. cbn -[multisig_script]. destruct (Z.eqb_spec om OP_DUP) as [->|]; [unfold OP_DUP in Hm; lia|]. done. }
  cbn [obind]. rewrite (match_multisig c a f m) by done. done.
Qed.

#[local] Opaque Solver.

Lemma valid_key_length k : CPubKey_Set k = k /\ k <> [] -> (33 <= length k <= 65)%nat.
Proof.
  intros [E Hne]. unfold CPubKey_Set in E. destruct k as [|b k]; [done|].
  destruct (_ && _) eqn:Eb in E; [|done]. apply andb_true_iff in Eb as [H1 H2%Z.eqb_eq].
  unfold GetLen in *. destruct (_ || _); [lia|]. destruct (_ || _); [lia|done].
Qed.

(** The script built for [m] of [n] valid public keys is recognised as a
    multisignature, and [ExtractDestinations] gives back [m] and the key
    hashes of all the keys in order. *)
Theorem multisig_round_trip (m : Z) (keys : list CPubKey) :
  1 <= m <= Z.of_nat (length keys) -> (length keys <= 16)%nat ->
  Forall (fun k => CPubKey_Set k = k /\ k <> []) keys ->
  exists script, GetScriptForMultisig m keys = Ok script /\
    ExtractDestinations script false = Ok (Some (TX_MULTISIG, m, map (fun k => PKHash (Hash160 k)) keys)).
Proof.
  intros Hm Hn Hk.
  destruct (EncodeDecode m) as (om & Em & Dm & _); [lia|].
  destruct (EncodeDecode (Z.of_nat (length keys))) as (on & En & Dn & _); [lia|].
  exists (multisig_script om on keys). split.
  { unfold GetScriptForMultisig. rewrite Em, En. cbn [obind of_option]. by rewrite push_all, <- app_assoc. }
  assert (Hop : forall o n, DecodeOP_N o = Some n -> 1 <= n -> OP_1 <= o <= OP_16).
  { intros o n. unfold DecodeOP_N. destruct (o =? OP_0); [intros [= <-]; lia|].
    destruct (Z.leb_spec OP_1 o), (Z.leb_spec o OP_16); (done || lia). }
  assert (Hlen : Forall (fun k => 33 <= length k <= 65)%nat keys) by (eapply List.Forall_impl; [|exact Hk]; apply valid_key_length).
  unfold ExtractDestinations. rewrite (Solver_multisig _ _ m) by (done || (eapply Hop; [done|lia])). cbn [obind].
  cbn [sol lookup list_lookup of_option obind drop length].
  rewrite length_app. cbn [length]. unfold CPubKey, bytes in *.
  replace (S (length keys + 1) - 2)%nat with (length keys) by lia. rewrite drop_0, take_app_length.
  set (ks := List.filter _ _). assert (ks = keys) as ->.
  { subst ks. clear -Hk. induction Hk as [|k keys [Hk Hne] _ IH]; [done|]. cbn [map List.filter]. rewrite Hk.
    destruct k; [done|]. cbn. by rewrite IH. }
  rewrite length_map. by destruct (Nat.eqb_spec (length keys) 0); [lia|].
Qed.

(** A key with the header of a compressed key *)
Definition some_key : CPubKey := 2 :: repeat 0x79 32.

Lemma multisig_round_trip_witness :
  exists script, GetScriptForMultisig 1 [some_key; some_key] = Ok script /\
    ExtractDestinations script false = Ok (Some (TX_MULTISIG, 1, map (fun k => PKHash (Hash160 k)) [some_key; some_key])).
Proof.
  apply (multisig_round_trip 1 [some_key; some_key]); [cbn; lia | cbn; lia | repeat constructor; done].
Defined.
