(* ===== verification/Coins.v ===== *)
(** * Coins: views of the unspent outputs (src/src/coins.h, src/src/coins.cpp)

    A view answers whether an output is unspent.  The virtual functions of
    [CCoinsView] are the operations of a type class: a view of type [V] is an
    explicit state, because looking up a coin fills the caches below.
    [CCoinsViewLaws] is the contract between a view and its clients, stated
    against the abstract set of unspent coins; [CCoinsViewCache] over any
    lawful view is shown to be lawful again, so caches can be stacked.

    The memory accounting ([cachedCoinsUsage], [DynamicMemoryUsage]) depends
    on the capacity of the allocated vectors and is not modelled. *)

From Stdlib Require Import ZArith List Lia Bool.
From stdpp Require Import base decidable list option gmap fin_maps.
From S2P Require Import Prelude Uint256 Primitives Script Consensus Serialize.
Local Open Scope Z_scope.
Local Open Scope outcome_scope.

(** ** Coins *)

Record Coin := mkCoin { out : CTxOut; fCoinBase : bool; fCoinStake : bool; nHeight : Z }.

#[export] Instance Coin_eq_dec : EqDecision Coin.
Proof. solve_decision. Defined.

(** The bit field [nHeight] has 30 bits. *)
Definition Coin_new (outIn : CTxOut) (nHeightIn : Z) (fCoinBaseIn fCoinStakeIn : bool) : Coin :=
  mkCoin outIn fCoinBaseIn fCoinStakeIn (wrap 30 nHeightIn).

(** [Coin()] and [Clear] *)
Definition coinEmpty : Coin := mkCoin txout_null false false 0.

Definition IsSpent (c : Coin) : bool := txout_IsNull (out c).

(** ** Cache entries *)

Record CCoinsCacheEntry := mkEntry { coin : Coin; flags : Z }.

Definition DIRTY : Z := Z.shiftl 1 0.
Definition FRESH : Z := Z.shiftl 1 1.

(** [flags & DIRTY], [flags & FRESH] *)
Definition is_dirty (e : CCoinsCacheEntry) : bool := negb (Z.land (flags e) DIRTY =? 0).
Definition is_fresh (e : CCoinsCacheEntry) : bool := negb (Z.land (flags e) FRESH =? 0).

Abbreviation CCoinsMap := (gmap COutPoint CCoinsCacheEntry).

(** ** Views *)

(** The virtual functions of [CCoinsView].  [GetCoin] gives the coin where it
    returns true; [BatchWrite] may throw. *)
Class CCoinsView (V : Type) := {
  GetCoin : COutPoint -> V -> option Coin * V;
  HaveCoin : COutPoint -> V -> bool * V;
  GetBestBlock : V -> uint256 * V;
  BatchWrite : CCoinsMap -> uint256 -> V -> outcome (bool * V) }.

(** The base class itself, a view of nothing *)
#[export] Instance CCoinsView_base : CCoinsView unit := {
  GetCoin outpoint v := (None, v);
  HaveCoin outpoint v := (false, v);
  GetBestBlock v := (uint256_null, v);
  BatchWrite mapCoins hashBlock v := Ok (false, v) }.

(** [CCoinsViewBacked]: every function forwards to the base. *)
Record CCoinsViewBacked (V : Type) := mkBacked { backed_base : V }.
Arguments mkBacked {_} _.
Arguments backed_base {_} _.

#[export] Instance CCoinsViewBacked_view `{CCoinsView V} : CCoinsView (CCoinsViewBacked V) := {
  GetCoin outpoint v := let '(r, b) := GetCoin outpoint (backed_base v) in (r, mkBacked b);
  HaveCoin outpoint v := let '(r, b) := HaveCoin outpoint (backed_base v) in (r, mkBacked b);
  GetBestBlock v := let '(r, b) := GetBestBlock (backed_base v) in (r, mkBacked b);
  BatchWrite mapCoins hashBlock v :=
    r <-! BatchWrite mapCoins hashBlock (backed_base v) ; Ok (fst r, mkBacked (snd r)) }.

Definition SetBackend {V} (viewIn : V) (v : CCoinsViewBacked V) : CCoinsViewBacked V := mkBacked viewIn.

(** ** The cache *)

Record CCoinsViewCache (V : Type) := mkCache { base : V; hashBlock : uint256; cacheCoins : CCoinsMap }.
Arguments mkCache {_} _ _ _.
Arguments base {_} _.
Arguments hashBlock {_} _.
Arguments cacheCoins {_} _.

Definition CCoinsViewCache_new {V} (baseIn : V) : CCoinsViewCache V := mkCache baseIn uint256_null ∅.

Definition set_base {V} (b : V) (c : CCoinsViewCache V) : CCoinsViewCache V := mkCache b (hashBlock c) (cacheCoins c).
Definition set_cacheCoins {V} (m : CCoinsMap) (c : CCoinsViewCache V) : CCoinsViewCache V := mkCache (base c) (hashBlock c) m.

Section cache.
Context `{View : CCoinsView V}.

(** The entry the returned iterator points to, [None] for [end()] *)
Definition FetchCoin (outpoint : COutPoint) (c : CCoinsViewCache V) : option CCoinsCacheEntry * CCoinsViewCache V :=
  match cacheCoins c !! outpoint with
  | Some it => (Some it, c)
  | None =>
    let '(r, b) := GetCoin outpoint (base c) in
    let c := set_base b c in
    match r with
    | None => (None, c)
    | Some tmp =>
      let ret := mkEntry tmp (if IsSpent tmp then FRESH else 0) in
      (Some ret, set_cacheCoins (<[outpoint := ret]> (cacheCoins c)) c)
    end
  end.

Definition cache_GetCoin (outpoint : COutPoint) (c : CCoinsViewCache V) : option Coin * CCoinsViewCache V :=
  let '(it, c) := FetchCoin outpoint c in
  match it with
  | Some e => (if negb (IsSpent (coin e)) then Some (coin e) else None, c)
  | None => (None, c)
  end.

Definition AddCoin (outpoint : COutPoint) (newcoin : Coin) (possible_overwrite : bool) (c : CCoinsViewCache V)
    : outcome (CCoinsViewCache V) :=
  if IsSpent newcoin then Fail
  else if IsUnspendable (scriptPubKey (out newcoin)) then Ok c
  else
    let it := default (mkEntry coinEmpty 0) (cacheCoins c !! outpoint) in
    if negb possible_overwrite && negb (IsSpent (coin it)) then Fail
    else
      let fresh := negb possible_overwrite && negb (is_dirty it) in
      let e := mkEntry newcoin (Z.lor (flags it) (Z.lor DIRTY (if fresh then FRESH else 0))) in
      Ok (set_cacheCoins (<[outpoint := e]> (cacheCoins c)) c).

(** [SpendCoin] with a non-null [moveout]: the returned flag and [*moveout] *)
Definition SpendCoin (outpoint : COutPoint) (moveout : Coin) (c : CCoinsViewCache V) : bool * Coin * CCoinsViewCache V :=
  let '(it, c) := FetchCoin outpoint c in
  match it with
  | None => (false, moveout, c)
  | Some e =>
    (true, coin e,
     if is_fresh e then set_cacheCoins (delete outpoint (cacheCoins c)) c
     else set_cacheCoins (<[outpoint := mkEntry coinEmpty (Z.lor (flags e) DIRTY)]> (cacheCoins c)) c)
  end.

Definition AccessCoin (outpoint : COutPoint) (c : CCoinsViewCache V) : Coin * CCoinsViewCache V :=
  let '(it, c) := FetchCoin outpoint c in
  match it with
  | None => (coinEmpty, c)
  | Some e => (coin e, c)
  end.

Definition cache_HaveCoin (outpoint : COutPoint) (c : CCoinsViewCache V) : bool * CCoinsViewCache V :=
  let '(it, c) := FetchCoin outpoint c in
  (match it with Some e => negb (IsSpent (coin e)) | None => false end, c).

Definition HaveCoinInCache (outpoint : COutPoint) (c : CCoinsViewCache V) : bool :=
  match cacheCoins c !! outpoint with Some e => negb (IsSpent (coin e)) | None => false end.

Definition cache_GetBestBlock (c : CCoinsViewCache V) : uint256 * CCoinsViewCache V :=
  if blob_IsNull (hashBlock c) then
    let '(h, b) := GetBestBlock (base c) in (h, mkCache b h (cacheCoins c))
  else (hashBlock c, c).

Definition SetBestBlock (hashBlockIn : uint256) (c : CCoinsViewCache V) : CCoinsViewCache V :=
  mkCache (base c) hashBlockIn (cacheCoins c).

(** One pass of the loop of [BatchWrite]: the child's entry [e] *)
Definition batch_entry (outpoint : COutPoint) (e : CCoinsCacheEntry) (m : CCoinsMap) : outcome CCoinsMap :=
  if negb (is_dirty e) then Ok m
  else match m !! outpoint with
  | None =>
    if is_fresh e && IsSpent (coin e) then Ok m
    else Ok (<[outpoint := mkEntry (coin e) (if is_fresh e then Z.lor DIRTY FRESH else DIRTY)]> m)
  | Some itUs =>
    if is_fresh e && negb (IsSpent (coin itUs)) then Fail
    else if is_fresh itUs && IsSpent (coin e) then Ok (delete outpoint m)
    else Ok (<[outpoint := mkEntry (coin e) (Z.lor (flags itUs) DIRTY)]> m)
  end.

(** The entries are visited once each; the order of the hash table does not
    matter, since a pass only touches its own outpoint. *)
Definition batch_entries (mapCoins m : CCoinsMap) : outcome CCoinsMap :=
  map_fold (fun outpoint e acc => m <-! acc ; batch_entry outpoint e m) (Ok m) mapCoins.

Definition cache_BatchWrite (mapCoins : CCoinsMap) (hashBlockIn : uint256) (c : CCoinsViewCache V)
    : outcome (bool * CCoinsViewCache V) :=
  m <-! batch_entries mapCoins (cacheCoins c) ;
  Ok (true, mkCache (base c) hashBlockIn m).

Definition Flush (c : CCoinsViewCache V) : outcome (bool * CCoinsViewCache V) :=
  r <-! BatchWrite (cacheCoins c) (hashBlock c) (base c) ;
  let '(fOk, b) := r in
  Ok (fOk, mkCache b (hashBlock c) ∅).

Definition Uncache (hash : COutPoint) (c : CCoinsViewCache V) : CCoinsViewCache V :=
  match cacheCoins c !! hash with
  | Some e => if flags e =? 0 then set_cacheCoins (delete hash (cacheCoins c)) c else c
  | None => c
  end.

Definition GetCacheSize (c : CCoinsViewCache V) : Z := u32 (Z.of_nat (size (cacheCoins c))).

(** The sum over the inputs, wrapping like the 64-bit [nResult] *)
Fixpoint value_in (ins : list CTxIn) (nResult : Z) (c : CCoinsViewCache V) : Z * CCoinsViewCache V :=
  match ins with
  | [] => (nResult, c)
  | i :: ins =>
    let '(cn, c) := AccessCoin (prevout i) c in value_in ins (s64 (nResult + nValue (out cn))) c
  end.

Definition GetValueIn (tx : CTransaction) (c : CCoinsViewCache V) : Z * CCoinsViewCache V :=
  if IsCoinBase tx then (0, c) else value_in (vin tx) 0 c.

Fixpoint have_inputs (ins : list CTxIn) (c : CCoinsViewCache V) : bool * CCoinsViewCache V :=
  match ins with
  | [] => (true, c)
  | i :: ins =>
    let '(b, c) := cache_HaveCoin (prevout i) c in
    if negb b then (false, c) else have_inputs ins c
  end.

Definition HaveInputs (tx : CTransaction) (c : CCoinsViewCache V) : bool * CCoinsViewCache V :=
  if negb (IsCoinBase tx) then have_inputs (vin tx) c else (true, c).

(** [AddCoins] over the outputs from index [i] on *)
Fixpoint add_coins (txid : uint256) (nHeightIn : Z) (fCoinbase fCoinstake check : bool) (i : Z) (outs : list CTxOut)
    (c : CCoinsViewCache V) : outcome (CCoinsViewCache V) :=
  match outs with
  | [] => Ok c
  | o :: outs =>
    let '(overwrite, c) := if check then cache_HaveCoin (mkOutPoint txid (u32 i)) c else (fCoinbase, c) in
    c <-! AddCoin (mkOutPoint txid (u32 i)) (Coin_new o nHeightIn fCoinbase fCoinstake) overwrite c ;
    add_coins txid nHeightIn fCoinbase fCoinstake check (i + 1) outs c
  end.

Definition AddCoins (tx : CTransaction) (nHeightIn : Z) (check : bool) (c : CCoinsViewCache V)
    : outcome (CCoinsViewCache V) :=
  add_coins (ComputeHash tx) nHeightIn (IsCoinBase tx) (IsCoinStake tx) check 0 (vout tx) c.

End cache.

(** [MIN_TRANSACTION_OUTPUT_WEIGHT], [MAX_OUTPUTS_PER_BLOCK] *)
Definition MIN_TRANSACTION_OUTPUT_WEIGHT : Z :=
  WITNESS_SCALE_FACTOR * Z.of_nat (length (Serialize_CTxOut txout_null)).

Definition MAX_OUTPUTS_PER_BLOCK : Z := dgpMaxBlockWeight blockSizeParams_init / MIN_TRANSACTION_OUTPUT_WEIGHT.

Fixpoint access_by_txid `{CCoinsView V} (left : nat) (txid : uint256) (n : Z) (c : CCoinsViewCache V)
    : Coin * CCoinsViewCache V :=
  match left with
  | O => (coinEmpty, c)
  | S left' =>
    let '(alternate, c) := AccessCoin (mkOutPoint txid n) c in
    if negb (IsSpent alternate) then (alternate, c) else access_by_txid left' txid (n + 1) c
  end.

Definition AccessByTxid `{CCoinsView V} (txid : uint256) (c : CCoinsViewCache V) : Coin * CCoinsViewCache V :=
  access_by_txid (Z.to_nat MAX_OUTPUTS_PER_BLOCK) txid 0 c.

#[export] Instance CCoinsViewCache_view `{CCoinsView V} : CCoinsView (CCoinsViewCache V) := {
  GetCoin := cache_GetCoin;
  HaveCoin := cache_HaveCoin;
  GetBestBlock := cache_GetBestBlock;
  BatchWrite := cache_BatchWrite }.

(** ** The contract of a view *)

(** The coin an entry stands for *)
Definition live (c : Coin) : option Coin := if IsSpent c then None else Some c.

(** The coins after the dirty entries of a map have been written *)
Definition overlay (m : CCoinsMap) (u : COutPoint -> option Coin) (o : COutPoint) : option Coin :=
  match m !! o with
  | Some e => if is_dirty e then live (coin e) else u o
  | None => u o
  end.

(** FRESH entries of a child are not unspent in the parent. *)
Definition fresh_ok (m : CCoinsMap) (u : COutPoint -> option Coin) : Prop :=
  forall o e, m !! o = Some e -> is_dirty e = true -> is_fresh e = true -> u o = None.

(** What a reader relies on *)
Class CCoinsViewReads (V : Type) `{CCoinsView V} := {
  utxo : V -> COutPoint -> option Coin;
  best : V -> uint256;
  view_ok : V -> Prop;
  utxo_unspent v o c : view_ok v -> utxo v o = Some c -> IsSpent c = false;
  GetCoin_law o v : view_ok v ->
    exists v', GetCoin o v = (utxo v o, v') /\ view_ok v' /\ (forall o', utxo v' o' = utxo v o') /\ best v' = best v;
  HaveCoin_law o v : view_ok v ->
    exists v', HaveCoin o v = (bool_decide (is_Some (utxo v o)), v') /\ view_ok v' /\
      (forall o', utxo v' o' = utxo v o') /\ best v' = best v;
  GetBestBlock_law v : view_ok v ->
    exists v', GetBestBlock v = (best v, v') /\ view_ok v' /\ (forall o', utxo v' o' = utxo v o') /\ best v' = best v }.

Class CCoinsViewLaws (V : Type) `{CCoinsView V} := {
  view_reads :: CCoinsViewReads V;
  BatchWrite_law m h v : view_ok v -> fresh_ok m (utxo v) ->
    exists v', BatchWrite m h v = Ok (true, v') /\ view_ok v' /\ (forall o, utxo v' o = overlay m (utxo v) o) /\
      (blob_IsNull h = false -> best v' = h) }.

(** ** Flags *)

Lemma is_dirty_bit e : is_dirty e = Z.testbit (flags e) 0.
Proof. apply (land_bit (flags e) 0). Qed.

Lemma is_fresh_bit e : is_fresh e = Z.testbit (flags e) 1.
Proof. apply (land_bit (flags e) 1). Qed.

Lemma is_dirty_lor c f g : is_dirty (mkEntry c (Z.lor f g)) = is_dirty (mkEntry c f) || is_dirty (mkEntry c g).
Proof. rewrite !is_dirty_bit. apply Z.lor_spec. Qed.

Lemma is_fresh_lor c f g : is_fresh (mkEntry c (Z.lor f g)) = is_fresh (mkEntry c f) || is_fresh (mkEntry c g).
Proof. rewrite !is_fresh_bit. apply Z.lor_spec. Qed.

Lemma is_dirty_coin c c' f : is_dirty (mkEntry c f) = is_dirty (mkEntry c' f).
Proof. done. Qed.

Lemma live_spent c : IsSpent c = true -> live c = None.
Proof. unfold live. by intros ->. Qed.

Lemma live_unspent c : IsSpent c = false -> live c = Some c.
Proof. unfold live. by intros ->. Qed.

(** ** The cache is a view *)

Section cache_laws.
Context `{View : CCoinsView V} `{Reads : !CCoinsViewReads V}.
Implicit Types c : CCoinsViewCache V.

Definition cache_utxo c (o : COutPoint) : option Coin :=
  match cacheCoins c !! o with Some e => live (coin e) | None => utxo (base c) o end.

Definition cache_best c : uint256 := if blob_IsNull (hashBlock c) then best (base c) else hashBlock c.

(** An entry that is not dirty agrees with the base, and the base does not
    have an output whose entry is fresh. *)
Definition entry_ok (b : V) (o : COutPoint) (e : CCoinsCacheEntry) : Prop :=
  (is_dirty e = false -> live (coin e) = utxo b o) /\ (is_fresh e = true -> utxo b o = None).

Definition entries_ok (b : V) (m : CCoinsMap) : Prop := map_Forall (entry_ok b) m.

Definition cache_ok c : Prop := view_ok (base c) /\ entries_ok (base c) (cacheCoins c).

Lemma entries_ok_base (b b' : V) m : (forall o, utxo b' o = utxo b o) -> entries_ok b m -> entries_ok b' m.
Proof. intros E H. eapply map_Forall_impl; [exact H|]. intros o e. unfold entry_ok. by rewrite E. Qed.

Lemma FetchCoin_spec o c :
  cache_ok c ->
  exists it c', FetchCoin o c = (it, c') /\ cache_ok c' /\
    (forall o', cache_utxo c' o' = cache_utxo c o') /\ cache_best c' = cache_best c /\
    cacheCoins c' !! o = it /\ (it = None -> cache_utxo c o = None).
Proof.
  intros [Hb He]. unfold FetchCoin. destruct (cacheCoins c !! o) as [e|] eqn:Eo.
  { exists (Some e), c. by split_and!. }
  destruct (GetCoin_law o (base c) Hb) as (b' & -> & Hb' & Hu & Hbest).
  assert (Hce : cache_utxo c o = utxo (base c) o) by (unfold cache_utxo; by rewrite Eo).
  destruct (utxo (base c) o) as [tmp|] eqn:Et.
  - pose proof (utxo_unspent _ _ _ Hb Et) as Hns. rewrite Hns. eexists _, _. split; [done|].
    split; [split|split_and!]; cbn [base cacheCoins hashBlock set_base set_cacheCoins].
    + done.
    + apply map_Forall_insert_2; [|by eapply entries_ok_base]. split; cbn; [|done].
      intros _. by rewrite Hu, Et, live_unspent.
    + intros o'. unfold cache_utxo. cbn [cacheCoins base hashBlock set_cacheCoins set_base]. destruct (decide (o = o')) as [<-|Hne].
      * rewrite lookup_insert_eq, Eo, Et. by apply live_unspent.
      * rewrite lookup_insert_ne by done. by rewrite Hu.
    + unfold cache_best. cbn. by rewrite Hbest.
    + apply lookup_insert_eq.
    + done.
  - eexists _, _. split; [done|]. split; [split|split_and!]; cbn [base cacheCoins hashBlock set_base].
    + done.
    + by eapply entries_ok_base.
    + intros o'. unfold cache_utxo. cbn [cacheCoins base hashBlock set_cacheCoins set_base]. by rewrite Hu.
    + unfold cache_best. cbn. by rewrite Hbest.
    + done.
    + done.
Qed.

(** Reading does not change the abstract view. *)
Ltac fetch o c :=
  let it := fresh "it" in
  destruct (FetchCoin_spec o c) as (it & ? & -> & ? & ? & ? & ? & ?); [done|].

Lemma cache_utxo_entry c o e : cacheCoins c !! o = Some e -> cache_utxo c o = live (coin e).
Proof. unfold cache_utxo. by intros ->. Qed.

Lemma cache_GetCoin_spec o c :
  cache_ok c ->
  exists c', cache_GetCoin o c = (cache_utxo c o, c') /\ cache_ok c' /\
    (forall o', cache_utxo c' o' = cache_utxo c o') /\ cache_best c' = cache_best c.
Proof.
  intros Hc. unfold cache_GetCoin. destruct (FetchCoin_spec o c Hc) as (it & c' & -> & Hc' & Hu & Hb & Hit & Hn).
  exists c'. split; [|done]. destruct it as [e|]; [|by rewrite Hn].
  rewrite <- Hu, (cache_utxo_entry _ _ _ Hit). unfold live. by destruct (IsSpent (coin e)).
Qed.

Lemma cache_HaveCoin_spec o c :
  cache_ok c ->
  exists c', cache_HaveCoin o c = (bool_decide (is_Some (cache_utxo c o)), c') /\ cache_ok c' /\
    (forall o', cache_utxo c' o' = cache_utxo c o') /\ cache_best c' = cache_best c.
Proof.
  intros Hc. unfold cache_HaveCoin. destruct (FetchCoin_spec o c Hc) as (it & c' & -> & Hc' & Hu & Hb & Hit & Hn).
  exists c'. split; [|done]. f_equal. destruct it as [e|]; [|by rewrite Hn].
  rewrite <- Hu, (cache_utxo_entry _ _ _ Hit). unfold live. by destruct (IsSpent (coin e)).
Qed.

(** [AccessCoin] gives the coin, or some spent coin. *)
Lemma AccessCoin_spec o c :
  cache_ok c ->
  exists cn c', AccessCoin o c = (cn, c') /\ live cn = cache_utxo c o /\ cache_ok c' /\
    (forall o', cache_utxo c' o' = cache_utxo c o') /\ cache_best c' = cache_best c.
Proof.
  intros Hc. unfold AccessCoin. destruct (FetchCoin_spec o c Hc) as (it & c' & -> & Hc' & Hu & Hb & Hit & Hn).
  destruct it as [e|]; eexists _, c'; (split; [done|]); split; try done.
  - by rewrite <- Hu, (cache_utxo_entry _ _ _ Hit).
  - by rewrite Hn.
Qed.

Lemma cache_GetBestBlock_spec c :
  cache_ok c ->
  exists c', cache_GetBestBlock c = (cache_best c, c') /\ cache_ok c' /\
    (forall o', cache_utxo c' o' = cache_utxo c o') /\ cache_best c' = cache_best c.
Proof.
  intros [Hb He]. unfold cache_GetBestBlock, cache_best. destruct (blob_IsNull (hashBlock c)) eqn:En.
  2: { exists c. rewrite En. by split_and!. }
  destruct (GetBestBlock_law (base c) Hb) as (b' & -> & Hb' & Hu & Hbest). eexists. split; [done|]. split_and!.
  - split; [done|]. by eapply entries_ok_base.
  - intros o'. unfold cache_utxo. cbn [cacheCoins base hashBlock set_cacheCoins set_base]. by rewrite Hu.
  - cbn. rewrite Hbest. by destruct (forallb _ _).
Qed.

(** ** Writing *)

Lemma entries_ok_insert b m o e : entries_ok b m -> entry_ok b o e -> entries_ok b (<[o := e]> m).
Proof. intros. by apply map_Forall_insert_2. Qed.

Lemma entries_ok_delete b m o : entries_ok b m -> entries_ok b (delete o m).
Proof. intros. by apply map_Forall_delete. Qed.

(** The view with the entry of one outpoint replaced or removed *)
Lemma cache_utxo_insert c o e o' :
  cache_utxo (set_cacheCoins (<[o := e]> (cacheCoins c)) c) o' =
  if decide (o = o') then live (coin e) else cache_utxo c o'.
Proof.
  unfold cache_utxo. cbn [cacheCoins base hashBlock set_cacheCoins set_base]. destruct (decide (o = o')) as [<-|]; [by rewrite lookup_insert_eq|].
  by rewrite lookup_insert_ne.
Qed.

Lemma cache_utxo_delete c o o' :
  cache_utxo (set_cacheCoins (delete o (cacheCoins c)) c) o' =
  if decide (o = o') then utxo (base c) o else cache_utxo c o'.
Proof.
  unfold cache_utxo. cbn [cacheCoins base hashBlock set_cacheCoins set_base]. destruct (decide (o = o')) as [<-|]; [by rewrite lookup_delete_eq|].
  by rewrite lookup_delete_ne.
Qed.

Definition spend (u : COutPoint -> option Coin) (o o' : COutPoint) : option Coin := if decide (o = o') then None else u o'.

Definition add (u : COutPoint -> option Coin) (o : COutPoint) (cn : Coin) (o' : COutPoint) : option Coin :=
  if decide (o = o') then Some cn else u o'.

Lemma SpendCoin_spec o mv c :
  cache_ok c ->
  exists r cn c', SpendCoin o mv c = (r, cn, c') /\ cache_ok c' /\ (forall o', cache_utxo c' o' = spend (cache_utxo c) o o') /\
    cache_best c' = cache_best c /\ (if r then live cn = cache_utxo c o else cache_utxo c o = None /\ cn = mv).
Proof.
  intros Hc. unfold SpendCoin. destruct (FetchCoin_spec o c Hc) as (it & c' & -> & [Hb' He'] & Hu & Hb & Hit & Hn).
  destruct it as [e|].
  2: { eexists _, _, _. split; [done|]. split_and!; [done| |done|by auto|done].
       intros o'. rewrite Hu. unfold spend. destruct (decide _) as [<-|]; [by apply Hn|done]. }
  pose proof (He' _ _ Hit) as [Hd Hf].
  assert (Hlive : live (coin e) = cache_utxo c o) by (by rewrite <- Hu, (cache_utxo_entry _ _ _ Hit)).
  eexists _, _, _. split; [done|]. destruct (is_fresh e) eqn:Efr; split_and!; try done.
  - split; [done|]. by apply entries_ok_delete.
  - intros o'. rewrite cache_utxo_delete. unfold spend. destruct (decide _); [by apply Hf | apply Hu].
  - split; [done|]. apply entries_ok_insert; [done|]. split.
    + by rewrite is_dirty_lor, orb_true_r.
    + rewrite is_fresh_lor. change (is_fresh (mkEntry coinEmpty (flags e))) with (is_fresh e). by rewrite Efr.
  - intros o'. rewrite cache_utxo_insert. unfold spend. destruct (decide _); [done | apply Hu].
Qed.

Lemma AddCoin_spec o cn ow c :
  cache_ok c -> IsSpent cn = false -> (ow = true \/ cache_utxo c o = None) ->
  exists c', AddCoin o cn ow c = Ok c' /\ cache_ok c' /\ cache_best c' = cache_best c /\
    forall o', cache_utxo c' o' = if IsUnspendable (scriptPubKey (out cn)) then cache_utxo c o' else add (cache_utxo c) o cn o'.
Proof.
  intros [Hb He] Hns Hpre. unfold AddCoin. rewrite Hns.
  destruct (IsUnspendable _); [by eexists|]. set (it := default _ _).
  assert (Hsp : negb ow && negb (IsSpent (coin it)) = false).
  { destruct Hpre as [->|Hpre]; [done|]. unfold it. destruct (cacheCoins c !! o) as [e|] eqn:Eo; cbn; [|by rewrite andb_false_r].
    rewrite (cache_utxo_entry _ _ _ Eo) in Hpre. unfold live in Hpre. destruct (IsSpent (coin e)); [|done]. by rewrite andb_false_r. }
  rewrite Hsp. eexists. split; [done|]. split_and!; [|done|].
  2: { intros o'. rewrite cache_utxo_insert. unfold add. by rewrite live_unspent. }
  split; [done|]. apply entries_ok_insert; [done|]. split.
  - by rewrite !is_dirty_lor, orb_true_r.
  - rewrite !is_fresh_lor. change (is_fresh (mkEntry cn DIRTY)) with false. cbn [orb]. intros Hf.
    change (is_fresh (mkEntry cn (flags it))) with (is_fresh it) in Hf. unfold it in *. clear it.
    destruct (cacheCoins c !! o) as [e|] eqn:Eo; unfold id in *; cbn [default base set_cacheCoins] in *.
    + pose proof (He _ _ Eo) as [Hd Hfr]. destruct (is_fresh e); [by apply Hfr|]. cbn [orb] in Hf.
      destruct ow; [by vm_compute in Hf|]. destruct (is_dirty e) eqn:Ed; [by vm_compute in Hf|]. rewrite <- Hd by done. apply live_spent. by destruct (IsSpent (coin e)).
    + destruct Hpre as [->|Hpre]; [by vm_compute in Hf|]. unfold cache_utxo in Hpre. by rewrite Eo in Hpre.
Qed.

Definition map_utxo (b : V) (m : CCoinsMap) (o : COutPoint) : option Coin :=
  match m !! o with Some e => live (coin e) | None => utxo b o end.

Lemma batch_entry_spec b m o e :
  entries_ok b m -> (is_dirty e = true -> is_fresh e = true -> map_utxo b m o = None) ->
  exists m', batch_entry o e m = Ok m' /\ entries_ok b m' /\
    forall o', map_utxo b m' o' = if is_dirty e && bool_decide (o = o') then live (coin e) else map_utxo b m o'.
Proof.
  intros Hm Hf. unfold batch_entry. destruct (is_dirty e) eqn:Ed; [|by eexists]. cbn [negb andb].
  specialize (Hf eq_refl).
  assert (Hins : forall f, entry_ok b o (mkEntry (coin e) f) ->
    entries_ok b (<[o := mkEntry (coin e) f]> m) /\
    forall o', map_utxo b (<[o := mkEntry (coin e) f]> m) o' = if bool_decide (o = o') then live (coin e) else map_utxo b m o').
  { intros f Hok. split; [by apply entries_ok_insert|]. intros o'. unfold map_utxo.
    case_bool_decide as Ho; [subst; by rewrite lookup_insert_eq | by rewrite lookup_insert_ne]. }
  destruct (m !! o) as [us|] eqn:Eo.
  - pose proof (Hm _ _ Eo) as [Hd Hfr].
    assert (Hu : map_utxo b m o = live (coin us)) by (unfold map_utxo; by rewrite Eo). rewrite Hu in Hf.
    assert (is_fresh e && negb (IsSpent (coin us)) = false) as ->.
    { destruct (is_fresh e); [|done]. specialize (Hf eq_refl). unfold live in Hf. by destruct (IsSpent (coin us)). }
    destruct (is_fresh us && IsSpent (coin e)) eqn:Edel.
    + apply andb_true_iff in Edel as [Efr Esp]. eexists. split; [done|]. split; [by apply entries_ok_delete|].
      intros o'. unfold map_utxo. case_bool_decide as Ho.
      * subst. rewrite lookup_delete_eq, (live_spent _ Esp). by apply Hfr.
      * by rewrite lookup_delete_ne.
    + eexists. split; [done|]. apply Hins. split; [by rewrite is_dirty_lor, orb_true_r|].
      rewrite is_fresh_lor. change (is_fresh (mkEntry (coin e) (flags us))) with (is_fresh us). by rewrite orb_false_r.
  - assert (Hu : map_utxo b m o = utxo b o) by (unfold map_utxo; by rewrite Eo). rewrite Hu in Hf.
    destruct (is_fresh e && IsSpent (coin e)) eqn:Eign.
    + apply andb_true_iff in Eign as [Efr Esp]. eexists. split; [done|]. split; [done|].
      intros o'. case_bool_decide; [|done]. subst. by rewrite Hu, Hf, live_spent.
    + eexists. split; [done|]. apply Hins. destruct (is_fresh e); split; done || (intros _; by apply Hf).
Qed.

Lemma batch_entries_spec b mm m :
  entries_ok b m -> fresh_ok mm (map_utxo b m) ->
  exists m', batch_entries mm m = Ok m' /\ entries_ok b m' /\
    forall o, map_utxo b m' o = overlay mm (map_utxo b m) o.
Proof.
  intros Hm. unfold batch_entries.
  apply (map_fold_weak_ind (fun r mm => fresh_ok mm (map_utxo b m) -> exists m', r = Ok m' /\ entries_ok b m' /\
    forall o, map_utxo b m' o = overlay mm (map_utxo b m) o)).
  { intros _. exists m. split_and!; [done | done |]. intros o. unfold overlay. by rewrite lookup_empty. }
  intros o e mm' r Ho IH Hf. destruct IH as (m1 & -> & Hm1 & Hu1).
  { intros o' e' Ho'. apply (Hf o' e'). rewrite lookup_insert_ne; [done|]. intros ->. congruence. }
  assert (Ho1 : map_utxo b m1 o = map_utxo b m o) by (rewrite Hu1; unfold overlay; by rewrite Ho).
  cbn [obind]. destruct (batch_entry_spec b m1 o e Hm1) as (m2 & -> & Hm2 & Hu2).
  { intros Hd Hfr. rewrite Ho1. by apply (Hf o e); [rewrite lookup_insert_eq|..]. }
  exists m2. split_and!; [done | done |]. intros o'. rewrite Hu2. unfold overlay. case_bool_decide as Hoo.
  - subst. rewrite lookup_insert_eq, andb_true_r. by destruct (is_dirty e).
  - rewrite lookup_insert_ne, andb_false_r by done. apply Hu1.
Qed.

Lemma cache_BatchWrite_spec mm h c :
  cache_ok c -> fresh_ok mm (cache_utxo c) ->
  exists c', cache_BatchWrite mm h c = Ok (true, c') /\ cache_ok c' /\ (forall o, cache_utxo c' o = overlay mm (cache_utxo c) o) /\
    (blob_IsNull h = false -> cache_best c' = h).
Proof.
  intros [Hb He] Hf. unfold cache_BatchWrite.
  destruct (batch_entries_spec (base c) mm (cacheCoins c) He Hf) as (m' & -> & Hm' & Hu). cbn [obind].
  eexists. split; [done|]. split_and!; [by split | exact Hu |]. unfold cache_best. cbn [hashBlock]. by intros ->.
Qed.

Lemma cache_utxo_unspent c o k : cache_ok c -> cache_utxo c o = Some k -> IsSpent k = false.
Proof.
  intros [Hb He]. unfold cache_utxo. destruct (cacheCoins c !! o) as [e|]; [|by apply utxo_unspent].
  unfold live. destruct (IsSpent (coin e)) eqn:E; [done|]. by intros [= <-].
Qed.

(** The entries of a cache are what its base accepts in a batch, and writing
    them makes the base show what the cache shows. *)
Lemma cache_fresh_ok c : cache_ok c -> fresh_ok (cacheCoins c) (utxo (base c)).
Proof. intros [_ He] o e Ho _ Hf. by apply (He o e Ho). Qed.

Lemma cache_overlay c o : cache_ok c -> overlay (cacheCoins c) (utxo (base c)) o = cache_utxo c o.
Proof.
  intros [_ He]. unfold overlay, cache_utxo. destruct (cacheCoins c !! o) as [e|] eqn:Eo; [|done].
  destruct (is_dirty e) eqn:Ed; [done|]. symmetry. by apply (He o e Eo).
Qed.

Lemma Uncache_spec o c :
  cache_ok c -> cache_ok (Uncache o c) /\ forall o', cache_utxo (Uncache o c) o' = cache_utxo c o'.
Proof.
  intros [Hb He]. unfold Uncache. destruct (cacheCoins c !! o) as [e|] eqn:Eo; [|done].
  destruct (Z.eqb_spec (flags e) 0) as [Hz|]; [|done]. split; [split; [done|by apply entries_ok_delete]|].
  intros o'. rewrite cache_utxo_delete. destruct (decide _) as [<-|]; [|done].
  rewrite (cache_utxo_entry _ _ _ Eo). symmetry. apply (He o e Eo). unfold is_dirty. by rewrite Hz.
Qed.

Lemma cache_new_ok b : view_ok b -> cache_ok (CCoinsViewCache_new b).
Proof. split; [done | apply map_Forall_empty]. Qed.

(** ** Inputs of a transaction *)

Lemma have_inputs_spec ins c :
  cache_ok c ->
  exists c', have_inputs ins c = (bool_decide (Forall (fun i => is_Some (cache_utxo c (prevout i))) ins), c') /\
    cache_ok c' /\ (forall o, cache_utxo c' o = cache_utxo c o) /\ cache_best c' = cache_best c.
Proof.
  revert c; induction ins as [|i ins IH]; intros c Hc; cbn [have_inputs]; [by exists c|].
  destruct (cache_HaveCoin_spec (prevout i) c Hc) as (c1 & -> & Hc1 & Hu1 & Hb1).
  case_bool_decide as Hi; cbn [negb].
  - destruct (IH c1 Hc1) as (c2 & -> & Hc2 & Hu2 & Hb2). exists c2. split_and!; [|done| |congruence].
    + f_equal. apply bool_decide_ext. rewrite Forall_cons_iff. split; [intros H; split; [done|] | intros [_ H]].
      all: eapply List.Forall_impl; [|exact H]; intros j; cbv beta; by rewrite Hu1.
    + intros o. by rewrite Hu2.
  - exists c1. split; [|done]. f_equal. symmetry. apply bool_decide_eq_false. by intros [? _]%Forall_cons_iff.
Qed.

End cache_laws.

Lemma Flush_spec `{Laws : CCoinsViewLaws V} (c : CCoinsViewCache V) :
  cache_ok c ->
  exists c', Flush c = Ok (true, c') /\ cache_ok c' /\ cacheCoins c' = ∅ /\
    (forall o, utxo (base c') o = cache_utxo c o) /\ (forall o, cache_utxo c' o = cache_utxo c o).
Proof.
  intros Hc. unfold Flush. destruct (BatchWrite_law (cacheCoins c) (hashBlock c) (base c)) as (b' & -> & Hb' & Hu & _);
    [by destruct Hc | by apply cache_fresh_ok |]. cbn [obind].
  assert (Hbu : forall o, utxo b' o = cache_utxo c o) by (intros o; by rewrite Hu, cache_overlay).
  eexists. split; [done|]. split_and!; [split; [done | apply map_Forall_empty] | done | done |].
  intros o. unfold cache_utxo at 1. cbn [cacheCoins base]. by rewrite lookup_empty.
Qed.

(** A cache over a view that can be read is a lawful view. *)
#[export] Instance CCoinsViewCache_reads `{Reads : CCoinsViewReads V} : CCoinsViewReads (CCoinsViewCache V).
Proof.
  refine {| utxo := cache_utxo; best := cache_best; view_ok := cache_ok |}.
  - intros v o c. apply cache_utxo_unspent.
  - intros o v. apply cache_GetCoin_spec.
  - intros o v. apply cache_HaveCoin_spec.
  - intros v. apply cache_GetBestBlock_spec.
Defined.

#[export] Instance CCoinsViewCache_laws `{Reads : CCoinsViewReads V} : CCoinsViewLaws (CCoinsViewCache V).
Proof. refine {| view_reads := CCoinsViewCache_reads |}. intros m h v. apply cache_BatchWrite_spec. Defined.

(** Forwarding views are lawful. *)
#[export] Instance CCoinsViewBacked_reads `{Reads : CCoinsViewReads V} : CCoinsViewReads (CCoinsViewBacked V).
Proof.
  refine {| utxo v := utxo (backed_base v); best v := best (backed_base v); view_ok v := view_ok (backed_base v) |}; cbn.
  - intros v o c. apply utxo_unspent.
  - intros o v Hv. destruct (GetCoin_law o _ Hv) as (b & -> & ?). by exists (mkBacked b).
  - intros o v Hv. destruct (HaveCoin_law o _ Hv) as (b & -> & ?). by exists (mkBacked b).
  - intros v Hv. destruct (GetBestBlock_law _ Hv) as (b & -> & ?). by exists (mkBacked b).
Defined.

#[export] Instance CCoinsViewBacked_laws `{Laws : CCoinsViewLaws V} : CCoinsViewLaws (CCoinsViewBacked V).
Proof.
  refine {| view_reads := CCoinsViewBacked_reads |}. cbn.
  intros m h v Hv Hf. destruct (BatchWrite_law m h _ Hv Hf) as (b & -> & ?). by exists (mkBacked b).
Defined.

(** ** A store of coins

    The simplest view that meets the contract: a table of unspent coins. *)

Record CoinStore := mkStore { coins_of : gmap COutPoint Coin; block_of : uint256 }.

Definition store_entry (o : COutPoint) (e : CCoinsCacheEntry) (m : gmap COutPoint Coin) : gmap COutPoint Coin :=
  if is_dirty e then (if IsSpent (coin e) then delete o m else <[o := coin e]> m) else m.

#[export] Instance CoinStore_view : CCoinsView CoinStore := {
  GetCoin o v := (coins_of v !! o, v);
  HaveCoin o v := (bool_decide (is_Some (coins_of v !! o)), v);
  GetBestBlock v := (block_of v, v);
  BatchWrite m h v := Ok (true, mkStore (map_fold store_entry (coins_of v) m) h) }.

Lemma store_entries_spec m u o : map_fold store_entry u m !! o = overlay m (fun o => u !! o) o.
Proof.
  revert o. apply (map_fold_weak_ind (fun r m => forall o, r !! o = overlay m (fun o => u !! o) o)).
  { intros o. unfold overlay. by rewrite lookup_empty. }
  intros o e m' r Ho IH o'. unfold store_entry, overlay, live. destruct (decide (o = o')) as [<-|Hne].
  - rewrite lookup_insert_eq. pose proof (IH o) as IHo. unfold overlay in IHo. rewrite Ho in IHo.
    destruct (is_dirty e); [|done]. destruct (IsSpent (coin e)); [by rewrite lookup_delete_eq | by rewrite lookup_insert_eq].
  - rewrite lookup_insert_ne by done. pose proof (IH o') as IHo. unfold overlay, live in IHo. rewrite <- IHo.
    destruct (is_dirty e); [|done]. destruct (IsSpent (coin e)); [by rewrite lookup_delete_ne | by rewrite lookup_insert_ne].
Qed.

#[export] Instance CoinStore_reads : CCoinsViewReads CoinStore.
Proof.
  refine {| utxo v o := coins_of v !! o; best := block_of; view_ok v := map_Forall (fun _ c => IsSpent c = false) (coins_of v) |}.
  - intros v o c Hv Ho. by apply (Hv o c).
  - intros o v Hv. by exists v.
  - intros o v Hv. by exists v.
  - intros v Hv. by exists v.
Defined.

#[export] Instance CoinStore_laws : CCoinsViewLaws CoinStore.
Proof.
  refine {| view_reads := CoinStore_reads |}.
  intros m h v Hv _. eexists. split; [done|]. cbn [coins_of block_of]. split_and!; [|apply store_entries_spec|done].
  intros o c. cbn [coins_of]. rewrite store_entries_spec. unfold overlay, live. destruct (m !! o) as [e|]; [|apply Hv].
  destruct (is_dirty e); [|apply Hv]. destruct (IsSpent (coin e)) eqn:E; [done|]. by intros [= <-].
Defined.

(** ** Sequences of operations *)

Inductive cache_op :=
  | OpGetCoin (o : COutPoint)
  | OpHaveCoin (o : COutPoint)
  | OpAccessCoin (o : COutPoint)
  | OpAddCoin (o : COutPoint) (cn : Coin) (possible_overwrite : bool)
  | OpSpendCoin (o : COutPoint)
  | OpUncache (o : COutPoint)
  | OpFlush
  | OpSetBestBlock (h : uint256).

(** What a caller sees: the unspent coin, if any, or a flag; [SpendCoin]
    moves a coin out only where it returns true, and also returns true on a
    spent entry that is still cached, with an empty coin. *)
Inductive answer := Found (c : option Coin) | Flag (b : bool) | Done.

Definition run_op `{CCoinsView V} (op : cache_op) (c : CCoinsViewCache V) : outcome (answer * CCoinsViewCache V) :=
  match op with
  | OpGetCoin o => let '(r, c) := cache_GetCoin o c in Ok (Found r, c)
  | OpHaveCoin o => let '(b, c) := cache_HaveCoin o c in Ok (Flag b, c)
  | OpAccessCoin o => let '(cn, c) := AccessCoin o c in Ok (Found (live cn), c)
  | OpAddCoin o cn ow => c <-! AddCoin o cn ow c ; Ok (Done, c)
  | OpSpendCoin o => let '(r, cn, c) := SpendCoin o coinEmpty c in Ok (Found (if r then live cn else None), c)
  | OpUncache o => Ok (Done, Uncache o c)
  | OpFlush => r <-! Flush c ; Ok (Flag (fst r), snd r)
  | OpSetBestBlock h => Ok (Done, SetBestBlock h c)
  end.

Fixpoint run_ops `{CCoinsView V} (l : list cache_op) (c : CCoinsViewCache V)
    : outcome (list answer * CCoinsViewCache V) :=
  match l with
  | [] => Ok ([], c)
  | op :: l => r <-! run_op op c ; rs <-! run_ops l (snd r) ; Ok (fst r :: fst rs, snd rs)
  end.

(** The same operations on the set of unspent coins *)
Definition spec_op (op : cache_op) (u : COutPoint -> option Coin) : answer * (COutPoint -> option Coin) :=
  match op with
  | OpGetCoin o | OpAccessCoin o => (Found (u o), u)
  | OpHaveCoin o => (Flag (bool_decide (is_Some (u o))), u)
  | OpAddCoin o cn _ => (Done, if IsUnspendable (scriptPubKey (out cn)) then u else add u o cn)
  | OpSpendCoin o => (Found (u o), spend u o)
  | OpUncache _ | OpSetBestBlock _ => (Done, u)
  | OpFlush => (Flag true, u)
  end.

Fixpoint spec_ops (l : list cache_op) (u : COutPoint -> option Coin) : list answer * (COutPoint -> option Coin) :=
  match l with
  | [] => ([], u)
  | op :: l => let '(a, u) := spec_op op u in let '(rs, u) := spec_ops l u in (a :: rs, u)
  end.

(** The obligation of callers: a coin that is added is unspent, and unless an
    overwrite is allowed the output has no unspent coin yet. *)
Definition op_allowed (op : cache_op) (u : COutPoint -> option Coin) : Prop :=
  match op with
  | OpAddCoin o cn ow => IsSpent cn = false /\ (ow = true \/ u o = None)
  | _ => True
  end.

Fixpoint ops_allowed (l : list cache_op) (u : COutPoint -> option Coin) : Prop :=
  match l with
  | [] => True
  | op :: l => op_allowed op u /\ ops_allowed l (snd (spec_op op u))
  end.

Section refinement.
Context `{Laws : CCoinsViewLaws V}.

Lemma spec_op_ext op u u' : (forall o, u o = u' o) ->
  fst (spec_op op u) = fst (spec_op op u') /\ (forall o, snd (spec_op op u) o = snd (spec_op op u') o) /\
  (op_allowed op u <-> op_allowed op u').
Proof.
  intros E. destruct op; cbn; try rewrite !E; split_and!; try done.
  - intros o'. unfold add. by destruct (IsUnspendable _), (decide (o = o')).
  - intros o'. unfold spend. by destruct (decide (o = o')).
Qed.

Lemma ops_ext l u u' : (forall o, u o = u' o) ->
  fst (spec_ops l u) = fst (spec_ops l u') /\ (forall o, snd (spec_ops l u) o = snd (spec_ops l u') o) /\
  (ops_allowed l u <-> ops_allowed l u').
Proof.
  revert u u'; induction l as [|op l IH]; intros u u' E; cbn; [done|].
  destruct (spec_op_ext op u u' E) as (E1 & E2 & E3).
  destruct (spec_op op u) as [a u1], (spec_op op u') as [a' u1']. cbn in *. subst a'.
  destruct (IH u1 u1' E2) as (IH1 & IH2 & IH3). destruct (spec_ops l u1), (spec_ops l u1'). cbn in *.
  split_and!; [by f_equal | done | by rewrite E3, IH3].
Qed.

Lemma run_op_spec op (c : CCoinsViewCache V) :
  cache_ok c -> op_allowed op (cache_utxo c) ->
  exists c', run_op op c = Ok (fst (spec_op op (cache_utxo c)), c') /\ cache_ok c' /\
    forall o, cache_utxo c' o = snd (spec_op op (cache_utxo c)) o.
Proof.
  intros Hc Hal. destruct op as [o|o|o|o cn ow|o|o| |h]; cbn [run_op spec_op fst snd].
  - destruct (cache_GetCoin_spec o c Hc) as (c' & -> & ? & ? & _). eauto.
  - destruct (cache_HaveCoin_spec o c Hc) as (c' & -> & ? & ? & _). eauto.
  - destruct (AccessCoin_spec o c Hc) as (cn & c' & -> & -> & ? & ? & _). eauto.
  - destruct Hal as [Hns Hpre]. destruct (AddCoin_spec o cn ow c Hc Hns Hpre) as (c' & -> & ? & _ & Hu). cbn [obind].
    exists c'. split_and!; [done | done |]. intros o'. rewrite Hu. by destruct (IsUnspendable _).
  - destruct (SpendCoin_spec o coinEmpty c Hc) as (r & cn & c' & -> & ? & ? & _ & Hr). exists c'. split_and!; [|done|done].
    destruct r; [by rewrite Hr|]. by destruct Hr as [-> _].
  - exists (Uncache o c). destruct (Uncache_spec o c Hc). done.
  - destruct (Flush_spec c Hc) as (c' & -> & ? & _ & _ & ?). cbn [obind fst snd]. eauto.
  - exists (SetBestBlock h c). done.
Qed.

Lemma run_ops_spec l (c : CCoinsViewCache V) :
  cache_ok c -> ops_allowed l (cache_utxo c) ->
  exists c', run_ops l c = Ok (fst (spec_ops l (cache_utxo c)), c') /\ cache_ok c' /\
    forall o, cache_utxo c' o = snd (spec_ops l (cache_utxo c)) o.
Proof.
  revert c; induction l as [|op l IH]; intros c Hc; cbn [run_ops spec_ops ops_allowed]; [by exists c|].
  intros [Hop Hl]. destruct (run_op_spec op c Hc Hop) as (c1 & -> & Hc1 & Hu1). cbn [obind fst snd].
  destruct (ops_ext l _ _ Hu1) as (E1 & E2 & E3). destruct (IH c1 Hc1 (proj2 E3 Hl)) as (c2 & -> & Hc2 & Hu2).
  cbn [obind fst snd]. exists c2. destruct (spec_op op (cache_utxo c)) as [a u1]. cbn [fst snd] in *.
  destruct (spec_ops l u1) as [rs u2]. cbn [fst snd] in *. rewrite <- E1. split_and!; [done | done |].
  intros o. by rewrite Hu2.
Qed.

(** C2 (cache of unspent coins): over any lawful view, in particular over
    another cache, every sequence of reads, additions, spends, flushes and
    evictions that respects the callers' obligation gives the answers that
    the plain set of unspent coins gives, never throws, and leaves the cache
    showing the resulting set. *)
Theorem cache_refines_utxo_set (l : list cache_op) (c : CCoinsViewCache V) :
  cache_ok c -> ops_allowed l (cache_utxo c) ->
  exists c', run_ops l c = Ok (fst (spec_ops l (cache_utxo c)), c') /\ cache_ok c' /\
    forall o, cache_utxo c' o = snd (spec_ops l (cache_utxo c)) o.
Proof. apply run_ops_spec. Qed.

(** Flushing: [Flush] succeeds, empties the cache and moves its content to
    the base: afterwards the base shows exactly the coins the cache showed,
    and so does the cache. *)
Theorem Flush_moves_coins_to_base (c : CCoinsViewCache V) :
  cache_ok c ->
  exists c', Flush c = Ok (true, c') /\ cache_ok c' /\ cacheCoins c' = ∅ /\
    (forall o, utxo (base c') o = cache_utxo c o) /\ (forall o, cache_utxo c' o = cache_utxo c o).
Proof. apply Flush_spec. Qed.

End refinement.

(** ** Instances *)

Definition out_a : COutPoint := mkOutPoint (repeat 1 32) 0.
Definition out_b : COutPoint := mkOutPoint (repeat 2 32) 7.
Definition coin_a : Coin := mkCoin (mkTxOut 50 [OP_1]) false false 12.
Definition coin_b : Coin := mkCoin (mkTxOut 9 [OP_1]) true false 30.

(** A cache over a cache over a store with one coin *)
Definition two_caches : CCoinsViewCache (CCoinsViewCache CoinStore) :=
  CCoinsViewCache_new (CCoinsViewCache_new (mkStore {[out_a := coin_a]} uint256_null)).

Lemma two_caches_ok : cache_ok two_caches.
Proof. do 2 apply cache_new_ok. apply map_Forall_singleton. reflexivity. Qed.

Definition some_ops : list cache_op :=
  [OpHaveCoin out_b; OpAddCoin out_b coin_b false; OpSpendCoin out_a; OpFlush; OpSpendCoin out_b; OpGetCoin out_a].

Lemma some_ops_allowed : ops_allowed some_ops (cache_utxo two_caches).
Proof. cbn -[cache_utxo]. repeat split. right. vm_compute. reflexivity. Qed.

Lemma some_answers : fst (spec_ops some_ops (cache_utxo two_caches)) =
  [Flag false; Done; Found (Some coin_a); Flag true; Found (Some coin_b); Found None].
Proof. vm_compute. reflexivity. Qed.

Lemma cache_refines_utxo_set_witness :
  exists c', run_ops some_ops two_caches =
    Ok ([Flag false; Done; Found (Some coin_a); Flag true; Found (Some coin_b); Found None], c') /\ cache_ok c'.
Proof.
  destruct (cache_refines_utxo_set (Laws := CCoinsViewCache_laws) some_ops two_caches two_caches_ok some_ops_allowed) as (c' & E & Hc & _).
  exists c'. split; [|exact Hc]. rewrite E. exact (f_equal (fun l => Ok (l, c')) some_answers).
Defined.

Lemma Flush_moves_coins_to_base_witness :
  exists c', Flush two_caches = Ok (true, c') /\ cache_ok c' /\ cacheCoins c' = ∅ /\
    (forall o, utxo (base c') o = cache_utxo two_caches o) /\ (forall o, cache_utxo c' o = cache_utxo two_caches o).
Proof. exact (Flush_moves_coins_to_base (Laws := CCoinsViewCache_laws) two_caches two_caches_ok). Defined.
