(* ===== verification/Utxo.v ===== *)
(** * Utxo: applying and undoing the transactions of a block
    (src/src/validation.cpp: UpdateCoins, ApplyTxInUndo, and the loops of
    ConnectBlock and DisconnectBlock over the view)

    [ConnectBlock] calls [UpdateCoins] for each transaction and collects the
    undo data; [DisconnectBlock] takes the outputs back and restores the
    inputs in reverse order.  Only the effect on the coins view is modelled
    here: script checks, contract execution and the address index are not. *)

From Stdlib Require Import ZArith List Lia Bool.
From stdpp Require Import base decidable list option gmap.
From S2P Require Import Prelude Uint256 Primitives Script Consensus Serialize Coins.
Local Open Scope Z_scope.
Local Open Scope outcome_scope.

(** [CTxUndo] is its vector [vprevout], [CBlockUndo] its vector [vtxundo]. *)
Abbreviation CTxUndo := (list Coin).
Abbreviation CBlockUndo := (list CTxUndo).

Inductive DisconnectResult := DISCONNECT_OK | DISCONNECT_UNCLEAN | DISCONNECT_FAILED.

Section ops.
Context `{View : CCoinsView V}.

(** "mark inputs spent"; the assertion on [is_spent] fails with [Fail]. *)
Fixpoint spend_inputs (ins : list CTxIn) (vprevout : CTxUndo) (c : CCoinsViewCache V) : outcome (CTxUndo * CCoinsViewCache V) :=
  match ins with
  | [] => Ok (vprevout, c)
  | txin :: ins =>
    let '(is_spent, cn, c) := SpendCoin (prevout txin) coinEmpty c in
    if is_spent then spend_inputs ins (vprevout ++ [cn]) c else Fail
  end.

Definition UpdateCoins (tx : CTransaction) (height : Z) (txundo : CTxUndo) (c : CCoinsViewCache V)
    : outcome (CTxUndo * CCoinsViewCache V) :=
  r <-! (if negb (IsCoinBase tx) then spend_inputs (vin tx) txundo c else Ok (txundo, c)) ;
  let '(txundo, c) := r in
  c <-! AddCoins tx height false c ;
  Ok (txundo, c).

(** The calls of [ConnectBlock] over the transactions from index [i] on *)
Fixpoint connect_coins (i : nat) (txs : list CTransaction) (height : Z) (vtxundo : CBlockUndo) (c : CCoinsViewCache V)
    : outcome (CBlockUndo * CCoinsViewCache V) :=
  match txs with
  | [] => Ok (vtxundo, c)
  | tx :: txs =>
    r <-! UpdateCoins tx height [] c ;
    let '(txundo, c) := r in
    connect_coins (S i) txs height (if (0 <? i)%nat then vtxundo ++ [txundo] else vtxundo) c
  end.

Definition ApplyTxInUndo (undo : Coin) (o : COutPoint) (c : CCoinsViewCache V) : outcome (DisconnectResult * CCoinsViewCache V) :=
  let '(have, c) := cache_HaveCoin o c in
  let fClean := negb have in
  let add undo c :=
    c <-! AddCoin o undo (negb fClean) c ;
    Ok (if fClean then DISCONNECT_OK else DISCONNECT_UNCLEAN, c) in
  if Coins.nHeight undo =? 0 then
    let '(alternate, c) := AccessByTxid (op_hash o) c in
    if negb (IsSpent alternate) then
      add (mkCoin (out undo) (fCoinBase alternate) (fCoinStake undo) (Coins.nHeight alternate)) c
    else Ok (DISCONNECT_FAILED, c)
  else add undo c.

(** "Check that all outputs are available and match the outputs in the block" *)
Fixpoint undo_outputs (hash : uint256) (height : Z) (is_coinbase is_coinstake : bool) (n : Z) (outs : list CTxOut)
    (fClean : bool) (c : CCoinsViewCache V) : bool * CCoinsViewCache V :=
  match outs with
  | [] => (fClean, c)
  | o :: outs =>
    if negb (IsUnspendable (scriptPubKey o)) then
      let '(is_spent, cn, c) := SpendCoin (mkOutPoint hash (u32 n)) coinEmpty c in
      let mismatch := negb is_spent || negb (bool_decide (o = out cn)) || negb (height =? Coins.nHeight cn) ||
                      negb (eqb is_coinbase (fCoinBase cn)) || negb (eqb is_coinstake (fCoinStake cn)) in
      undo_outputs hash height is_coinbase is_coinstake (n + 1) outs (if mismatch then false else fClean) c
    else undo_outputs hash height is_coinbase is_coinstake (n + 1) outs fClean c
  end.

(** "restore inputs", from the last to the first; [None] for [DISCONNECT_FAILED] *)
Fixpoint restore_inputs (l : list (CTxIn * Coin)) (fClean : bool) (c : CCoinsViewCache V)
    : outcome (option bool * CCoinsViewCache V) :=
  match l with
  | [] => Ok (Some fClean, c)
  | (txin, undo) :: l =>
    r <-! ApplyTxInUndo undo (prevout txin) c ;
    match r with
    | (DISCONNECT_FAILED, c) => Ok (None, c)
    | (DISCONNECT_UNCLEAN, c) => restore_inputs l false c
    | (DISCONNECT_OK, c) => restore_inputs l fClean c
    end
  end.

(** One pass of the loop of [DisconnectBlock]: transaction [i] *)
Definition undo_tx (i : nat) (tx : CTransaction) (vtxundo : CBlockUndo) (height : Z) (fClean : bool) (c : CCoinsViewCache V)
    : outcome (option bool * CCoinsViewCache V) :=
  let '(fClean, c) := undo_outputs (ComputeHash tx) height (IsCoinBase tx) (IsCoinStake tx) 0 (vout tx) fClean c in
  if (0 <? i)%nat then
    txundo <-! of_option (vtxundo !! (i - 1)%nat) ;
    if negb (length txundo =? length (vin tx))%nat then Ok (None, c)
    else restore_inputs (rev (zip (vin tx) txundo)) fClean c
  else Ok (Some fClean, c).

(** The loop from transaction [n - 1] down to the first *)
Fixpoint disconnect_txs (n : nat) (txs : list CTransaction) (vtxundo : CBlockUndo) (height : Z) (fClean : bool)
    (c : CCoinsViewCache V) : outcome (option bool * CCoinsViewCache V) :=
  match n with
  | O => Ok (Some fClean, c)
  | S i =>
    tx <-! of_option (txs !! i) ;
    r <-! undo_tx i tx vtxundo height fClean c ;
    match r with
    | (None, c) => Ok (None, c)
    | (Some fClean, c) => disconnect_txs i txs vtxundo height fClean c
    end
  end.

(** [DisconnectBlock] on the view: [hash] and [height] are those of the block,
    [prev] is the hash of its predecessor and [vtxundo] what
    [UndoReadFromDisk] gave *)
Definition DisconnectBlock (txs : list CTransaction) (vtxundo : CBlockUndo) (height : Z) (hash prev : uint256)
    (c : CCoinsViewCache V) : outcome (DisconnectResult * CCoinsViewCache V) :=
  let '(b, c) := cache_GetBestBlock c in
  if negb (bytes_eqb hash b) then Fail
  else if negb (length vtxundo + 1 =? length txs)%nat then Ok (DISCONNECT_FAILED, c)
  else
    r <-! disconnect_txs (length txs) txs vtxundo height true c ;
    match r with
    | (None, c) => Ok (DISCONNECT_FAILED, c)
    | (Some fClean, c) => Ok (if fClean then DISCONNECT_OK else DISCONNECT_UNCLEAN, SetBestBlock prev c)
    end.

(** [ConnectBlock] on the view: the loop, then "add this block to the view's
    block chain" *)
Definition ConnectBlock_coins (txs : list CTransaction) (height : Z) (hash : uint256) (c : CCoinsViewCache V)
    : outcome (CBlockUndo * CCoinsViewCache V) :=
  r <-! connect_coins 0 txs height [] c ;
  Ok (fst r, SetBestBlock hash (snd r)).

End ops.

(** ** The set of unspent coins *)

Abbreviation coins := (COutPoint -> option Coin).

(** Without the coins of some outpoints, and with new coins *)
Definition minus (u : coins) (l : list COutPoint) : coins := fun o => if decide (o ∈ l) then None else u o.

Definition plus (u : coins) (m : gmap COutPoint Coin) : coins := fun o => match m !! o with Some k => Some k | None => u o end.

Definition undo_of (u : coins) (ins : list CTxIn) : CTxUndo := map (fun i => default coinEmpty (u (prevout i))) ins.

Lemma minus_nil u o : minus u [] o = u o.
Proof. unfold minus. by destruct (decide (o ∈ [])) as [?%elem_of_nil|]. Qed.

(** The coins created by the outputs from index [n] on *)
Fixpoint created (txid : uint256) (height : Z) (cb cs : bool) (n : Z) (outs : list CTxOut) : gmap COutPoint Coin :=
  match outs with
  | [] => ∅
  | o :: outs =>
    let m := created txid height cb cs (n + 1) outs in
    if IsUnspendable (scriptPubKey o) then m else <[mkOutPoint txid (u32 n) := Coin_new o height cb cs]> m
  end.

Definition inputs (tx : CTransaction) : list COutPoint := if IsCoinBase tx then [] else map prevout (vin tx).

Definition outputs (height : Z) (tx : CTransaction) : gmap COutPoint Coin :=
  created (ComputeHash tx) height (IsCoinBase tx) (IsCoinStake tx) 0 (vout tx).

Definition apply_tx (height : Z) (u : coins) (tx : CTransaction) : coins := plus (minus u (inputs tx)) (outputs height tx).

Lemma created_above txid height cb cs n outs m :
  0 <= m < n -> n + Z.of_nat (length outs) <= 2 ^ 32 ->
  created txid height cb cs n outs !! mkOutPoint txid (u32 m) = None.
Proof.
  revert n; induction outs as [|o outs IH]; intros n Hm Hn; cbn [created length] in *; [apply lookup_empty|].
  assert (IHn : created txid height cb cs (n + 1) outs !! mkOutPoint txid (u32 m) = None) by (apply IH; lia).
  destruct (IsUnspendable _); [done|]. rewrite lookup_insert_ne; [done|].
  rewrite !wrap_small by (unfold in_u; lia). intros [= ->]. lia.
Qed.

(** Every created coin is that of an output. *)
Lemma created_inv txid height cb cs n outs o k :
  created txid height cb cs n outs !! o = Some k ->
  exists i t, (i < length outs)%nat /\ outs !! i = Some t /\ o = mkOutPoint txid (u32 (n + Z.of_nat i)) /\
    k = Coin_new t height cb cs /\ IsUnspendable (scriptPubKey t) = false.
Proof.
  revert n; induction outs as [|t outs IH]; intros n; cbn [created]; [by rewrite lookup_empty|].
  assert (Hrec : created txid height cb cs (n + 1) outs !! o = Some k ->
    exists i t', (i < length (t :: outs))%nat /\ (t :: outs) !! i = Some t' /\ o = mkOutPoint txid (u32 (n + Z.of_nat i)) /\
      k = Coin_new t' height cb cs /\ IsUnspendable (scriptPubKey t') = false).
  { intros (i & t' & ? & ? & -> & ? & ?)%IH. exists (S i), t'. cbn [length]. split_and!; try done; [lia|].
    do 2 f_equal. lia. }
  destruct (IsUnspendable (scriptPubKey t)) eqn:Eu; [done|].
  destruct (decide (mkOutPoint txid (u32 n) = o)) as [<-|Hne]; [|by rewrite lookup_insert_ne].
  rewrite lookup_insert_eq. intros [= <-]. exists 0%nat, t. cbn [length]. rewrite Z.add_0_r. split_and!; done || lia.
Qed.

(** ** The operations on a cache *)

Section specs.
Context `{Laws : CCoinsViewReads V}.
Implicit Types c : CCoinsViewCache V.

Lemma spend_inputs_spec ins acc c :
  cache_ok c -> NoDup (map prevout ins) -> Forall (fun i => is_Some (cache_utxo c (prevout i))) ins ->
  exists c', spend_inputs ins acc c = Ok (acc ++ undo_of (cache_utxo c) ins, c') /\ cache_ok c' /\
    forall o, cache_utxo c' o = minus (cache_utxo c) (map prevout ins) o.
Proof.
  revert acc c; induction ins as [|i ins IH]; intros acc c Hc Hnd Hks; cbn [spend_inputs].
  { exists c. cbn. rewrite app_nil_r. split_and!; [done | done |]. intros o. by rewrite minus_nil. }
  apply Forall_cons_iff in Hks as [[k Hk] Hks]. cbn [map] in Hnd. apply NoDup_cons in Hnd as [Hni Hnd].
  destruct (SpendCoin_spec (prevout i) coinEmpty c Hc) as (r & cn & c1 & -> & Hc1 & Hu1 & _ & Hr).
  rewrite Hk in Hr. destruct r; [|by destruct Hr].
  assert (cn = k) as -> by (unfold live in Hr; destruct (IsSpent cn); [done|]; by injection Hr).
  assert (Hsame : Forall (fun j => cache_utxo c1 (prevout j) = cache_utxo c (prevout j)) ins).
  { apply List.Forall_forall. intros j Hj. rewrite Hu1. unfold spend. destruct (decide _) as [E|]; [|done].
    destruct Hni. rewrite E. apply list_elem_of_In. by apply in_map. }
  destruct (IH (acc ++ [k]) c1 Hc1 Hnd) as (c2 & -> & Hc2 & Hu2).
  { apply List.Forall_forall. intros j Hj. rewrite List.Forall_forall in Hks, Hsame. rewrite Hsame by done. by apply Hks. }
  exists c2. split_and!; [|done|].
  - cbn [undo_of map]. rewrite Hk, <- app_assoc. cbn [app default]. do 4 f_equal. unfold undo_of.
    apply map_ext_in. intros j Hj. rewrite List.Forall_forall in Hsame. by rewrite Hsame.
  - intros o. rewrite Hu2. unfold minus. cbn [map]. rewrite Hu1. unfold spend.
    destruct (decide (o ∈ map prevout ins)) as [Hin|Hni2], (decide (o ∈ prevout i :: map prevout ins)) as [Hin'|Hni'];
      rewrite ?elem_of_cons in *; try done; try tauto.
    + destruct (decide _); [done|]. destruct Hin'; congruence.
    + destruct (decide _); [|done]. subst. tauto.
Qed.

(** No unspent coin is in the way of the outputs. *)
Definition outputs_free (u : coins) (txid : uint256) (n : Z) (outs : list CTxOut) : Prop :=
  forall m, n <= m < n + Z.of_nat (length outs) -> u (mkOutPoint txid (u32 m)) = None.

Lemma add_coins_spec txid height cb cs n outs c :
  cache_ok c -> Forall (fun t => nValue t <> -1) outs -> 0 <= n -> n + Z.of_nat (length outs) <= 2 ^ 32 ->
  (cb = true \/ outputs_free (cache_utxo c) txid n outs) ->
  exists c', add_coins txid height cb cs false n outs c = Ok c' /\ cache_ok c' /\
    forall o, cache_utxo c' o = plus (cache_utxo c) (created txid height cb cs n outs) o.
Proof.
  revert n c; induction outs as [|t outs IH]; intros n c Hc Hv Hn Hlen Hfree; cbn [add_coins length created] in *.
  { exists c. split_and!; [done | done |]. intros o. unfold plus. by rewrite lookup_empty. }
  apply Forall_cons_iff in Hv as [Hv Hvs].
  assert (Hns : IsSpent (Coin_new t height cb cs) = false) by (unfold IsSpent, txout_IsNull; cbn; by apply Z.eqb_neq).
  destruct (AddCoin_spec (mkOutPoint txid (u32 n)) (Coin_new t height cb cs) cb c Hc Hns) as (c1 & -> & Hc1 & _ & Hu1).
  { destruct Hfree as [|Hfree]; [by left|]. right. apply Hfree. cbn [length]. lia. }
  cbn [obind]. cbn [out Coin_new] in Hu1.
  destruct (IH (n + 1) c1 Hc1 Hvs ltac:(lia) ltac:(lia)) as (c2 & -> & Hc2 & Hu2).
  { destruct Hfree as [|Hfree]; [by left|]. right. intros m Hm. rewrite Hu1.
    assert (Hm' : cache_utxo c (mkOutPoint txid (u32 m)) = None) by (apply Hfree; cbn [length]; lia).
    destruct (IsUnspendable _); [done|]. unfold add. destruct (decide _) as [[= E]|]; [|done].
    rewrite !wrap_small in E by (unfold in_u; lia). lia. }
  exists c2. split_and!; [done | done |]. intros o. rewrite Hu2. unfold plus. rewrite Hu1.
  destruct (IsUnspendable _); [done|]. unfold add. destruct (decide _) as [<-|Hne].
  - rewrite created_above, lookup_insert_eq by lia. done.
  - by rewrite lookup_insert_ne.
Qed.

Lemma undo_outputs_spec txid height cb cs n outs fc c u :
  cache_ok c -> Forall (fun t => nValue t <> -1) outs -> 0 <= n -> n + Z.of_nat (length outs) <= 2 ^ 32 ->
  0 < height < 2 ^ 30 -> outputs_free u txid n outs ->
  (forall o, cache_utxo c o = plus u (created txid height cb cs n outs) o) ->
  exists c', undo_outputs txid height cb cs n outs fc c = (fc, c') /\ cache_ok c' /\ forall o, cache_utxo c' o = u o.
Proof.
  revert n c; induction outs as [|t outs IH]; intros n c Hc Hv Hn Hlen Hh Hfree Hu; cbn [undo_outputs length created] in *.
  { exists c. split_and!; [done | done |]. intros o. rewrite Hu. unfold plus. by rewrite lookup_empty. }
  apply Forall_cons_iff in Hv as [Hv Hvs].
  assert (Hfree' : outputs_free u txid (n + 1) outs) by (intros m Hm; apply Hfree; cbn [length]; lia).
  destruct (IsUnspendable (scriptPubKey t)); cbn [negb]; [by apply IH; try lia|].
  destruct (SpendCoin_spec (mkOutPoint txid (u32 n)) coinEmpty c Hc) as (r & cn & c1 & -> & Hc1 & Hu1 & _ & Hr).
  rewrite Hu in Hr. unfold plus in Hr. rewrite lookup_insert_eq in Hr. destruct r; [|by destruct Hr].
  assert (cn = Coin_new t height cb cs) as -> by (unfold live in Hr; destruct (IsSpent cn); [done|]; by injection Hr).
  cbn [out Coin_new Coins.nHeight fCoinBase fCoinStake]. rewrite bool_decide_true by done.
  rewrite wrap_small by (unfold in_u; lia). rewrite Z.eqb_refl, !eqb_reflx. cbn [negb orb].
  apply IH; try done; try lia. intros o. rewrite Hu1. unfold spend. rewrite Hu. unfold plus.
  destruct (decide _) as [<-|Hne]; [|by rewrite lookup_insert_ne].
  rewrite created_above by lia. symmetry. apply Hfree. cbn [length]. lia.
Qed.

(** Coins as a valid chain has them: unspent, spendable, above height zero *)
Definition coins_ok (u : coins) : Prop :=
  forall o k, u o = Some k -> IsSpent k = false /\ IsUnspendable (scriptPubKey (out k)) = false /\ Coins.nHeight k <> 0.

Lemma restore_inputs_spec (l : list (CTxIn * Coin)) fc c u :
  cache_ok c -> coins_ok u -> NoDup (map (fun p => prevout (fst p)) l) ->
  Forall (fun p => u (prevout (fst p)) = Some (snd p)) l ->
  (forall o, cache_utxo c o = minus u (map (fun p => prevout (fst p)) l) o) ->
  exists c', restore_inputs l fc c = Ok (Some fc, c') /\ cache_ok c' /\ forall o, cache_utxo c' o = u o.
Proof.
  revert c; induction l as [|[i k] l IH]; intros c Hc Hok Hnd Hl Hu; cbn [restore_inputs map] in *.
  { exists c. split_and!; [done | done |]. intros o. by rewrite Hu, minus_nil. }
  apply Forall_cons_iff in Hl as [Hk Hl]. cbn [fst snd] in *. apply NoDup_cons in Hnd as [Hni Hnd].
  destruct (Hok _ _ Hk) as (Hns & Hsp & Hnh). unfold ApplyTxInUndo.
  destruct (cache_HaveCoin_spec (prevout i) c Hc) as (c1 & -> & Hc1 & Hu1 & _).
  assert (Hnone : cache_utxo c (prevout i) = None).
  { rewrite Hu. unfold minus. destruct (decide _) as [|Hn]; [done|]. destruct Hn. apply elem_of_cons. by left. }
  rewrite bool_decide_false by (rewrite Hnone; apply is_Some_None). cbn [negb].
  apply Z.eqb_neq in Hnh. rewrite Hnh.
  destruct (AddCoin_spec (prevout i) k false c1 Hc1 Hns) as (c2 & -> & Hc2 & _ & Hu2); [right; by rewrite Hu1|].
  cbn [obind]. apply IH; try done. intros o. rewrite Hu2, Hsp. unfold add, minus. destruct (decide _) as [<-|Hne].
  - destruct (decide _); done.
  - rewrite Hu1, Hu. unfold minus. destruct (decide (o ∈ prevout i :: _)) as [Hin|Hn], (decide (o ∈ map _ l)) as [Hin'|Hn'];
      rewrite ?elem_of_cons in *; try done; destruct Hin || destruct Hn; try done; try congruence; tauto.
Qed.

End specs.

(** ** Blocks *)

(** What the checks before [UpdateCoins] establish of transaction [i] on the
    coins [u]: exactly the first transaction is a coinbase, the others spend
    different unspent coins, and no output overwrites an unspent coin. *)
Definition tx_applies (u : coins) (i : nat) (tx : CTransaction) : Prop :=
  IsCoinBase tx = (i =? 0)%nat /\
  NoDup (inputs tx) /\ Forall (fun o => is_Some (u o)) (inputs tx) /\
  Forall (fun t => nValue t <> -1) (vout tx) /\ Z.of_nat (length (vout tx)) <= 2 ^ 32 /\
  outputs_free u (ComputeHash tx) 0 (vout tx).

Fixpoint block_applies (height : Z) (u : coins) (i : nat) (txs : list CTransaction) : Prop :=
  match txs with
  | [] => True
  | tx :: txs => tx_applies u i tx /\ block_applies height (apply_tx height u tx) (S i) txs
  end.

(** The undo data of the transactions from index [i] on *)
Fixpoint undos (height : Z) (u : coins) (i : nat) (txs : list CTransaction) : CBlockUndo :=
  match txs with
  | [] => []
  | tx :: txs =>
    (if (0 <? i)%nat then [undo_of u (vin tx)] else []) ++ undos height (apply_tx height u tx) (S i) txs
  end.

(** The coins before transaction [k] *)
Definition coins_before (height : Z) (u : coins) (txs : list CTransaction) (k : nat) : coins :=
  fold_left (apply_tx height) (take k txs) u.

Lemma apply_tx_ok height u i tx : 0 < height < 2 ^ 30 -> tx_applies u i tx -> coins_ok u -> coins_ok (apply_tx height u tx).
Proof.
  intros Hh (_ & _ & _ & Hv & _) Hu o k. unfold apply_tx, plus. destruct (outputs height tx !! o) as [k'|] eqn:E.
  - intros [= ->]. apply created_inv in E as (j & t & _ & Hj & -> & -> & Hsp).
    apply (Forall_lookup_1 _ _ _ _ Hv) in Hj. cbn [Coin_new out Coins.nHeight]. split_and!; [|done|].
    + unfold IsSpent, txout_IsNull. cbn. by apply Z.eqb_neq.
    + rewrite wrap_small by (unfold in_u; lia). lia.
  - unfold minus. destruct (decide _); [done|]. apply Hu.
Qed.

Lemma zip_undo_keys u ins : map (fun p => prevout (fst p)) (zip ins (undo_of u ins)) = map prevout ins.
Proof. induction ins as [|j ins IH]; [done|]. cbn. by f_equal. Qed.

Lemma zip_undo_coins u ins :
  Forall (fun o => is_Some (u o)) (map prevout ins) ->
  Forall (fun p => u (prevout (fst p)) = Some (snd p)) (zip ins (undo_of u ins)).
Proof.
  induction ins as [|j ins IH]; intros Hin; [apply Forall_nil_2|]. cbn [map] in Hin.
  apply Forall_cons_iff in Hin as [[k Hk] Hin]. apply Forall_cons_2; [|by apply IH]. cbn. by rewrite Hk.
Qed.

Section blocks.
Context `{Laws : CCoinsViewReads V}.
Implicit Types c : CCoinsViewCache V.

Lemma UpdateCoins_spec height u i tx c :
  cache_ok c -> (forall o, cache_utxo c o = u o) -> tx_applies u i tx ->
  exists c', UpdateCoins tx height [] c = Ok (if IsCoinBase tx then [] else undo_of u (vin tx), c') /\ cache_ok c' /\
    forall o, cache_utxo c' o = apply_tx height u tx o.
Proof.
  intros Hc Hu (_ & Hnd & Hin & Hv & Hlen & Hfree). unfold UpdateCoins, AddCoins, apply_tx, outputs, inputs in *.
  destruct (IsCoinBase tx) eqn:Ecb; cbn [negb obind].
  - destruct (add_coins_spec (ComputeHash tx) height true (IsCoinStake tx) 0 (vout tx) c Hc Hv) as (c' & -> & Hc' & Hu');
      [lia | lia | by left |]. exists c'. split_and!; [done | done |]. intros o. rewrite Hu'. unfold plus. by rewrite minus_nil, Hu.
  - destruct (spend_inputs_spec (vin tx) [] c Hc Hnd) as (c1 & -> & Hc1 & Hu1).
    { apply (proj1 (List.Forall_map _ _ _)) in Hin. eapply List.Forall_impl; [|exact Hin]. intros j. cbv beta. by rewrite <- Hu. }
    cbn [obind]. destruct (add_coins_spec (ComputeHash tx) height false (IsCoinStake tx) 0 (vout tx) c1 Hc1 Hv) as (c2 & -> & Hc2 & Hu2);
      [lia | lia | |].
    { right. intros m Hm. rewrite Hu1. unfold minus. destruct (decide _); [done|]. rewrite Hu. by apply Hfree. }
    exists c2. split_and!; [|done|].
    + cbn [app obind]. do 2 f_equal. unfold undo_of. apply map_ext. intros j. by rewrite Hu.
    + intros o. rewrite Hu2. unfold plus. rewrite Hu1. unfold minus. by rewrite Hu.
Qed.

Lemma connect_coins_spec height u i txs acc c :
  cache_ok c -> (forall o, cache_utxo c o = u o) -> block_applies height u i txs ->
  exists c', connect_coins i txs height acc c = Ok (acc ++ undos height u i txs, c') /\ cache_ok c' /\
    forall o, cache_utxo c' o = fold_left (apply_tx height) txs u o.
Proof.
  revert u i acc c; induction txs as [|tx txs IH]; intros u i acc c Hc Hu Hb; cbn [connect_coins undos fold_left].
  { exists c. by rewrite app_nil_r. }
  destruct Hb as [Ht Hb]. destruct (UpdateCoins_spec height u i tx c Hc Hu Ht) as (c1 & -> & Hc1 & Hu1). cbn [obind].
  destruct (IH (apply_tx height u tx) (S i)
    (if (0 <? i)%nat then acc ++ [if IsCoinBase tx then [] else undo_of u (vin tx)] else acc) c1 Hc1 Hu1 Hb)
    as (c2 & E2 & Hc2 & Hu2).
  exists c2. split_and!; [|done|done]. etransitivity; [exact E2|]. destruct Ht as [-> _]. destruct i as [|i]; cbn; [done|]. by rewrite <- app_assoc.
Qed.

Lemma undo_tx_spec height u i tx vtxundo fc c :
  cache_ok c -> 0 < height < 2 ^ 30 -> coins_ok u -> tx_applies u i tx ->
  ((0 < i)%nat -> vtxundo !! (i - 1)%nat = Some (undo_of u (vin tx))) ->
  (forall o, cache_utxo c o = apply_tx height u tx o) ->
  exists c', undo_tx i tx vtxundo height fc c = Ok (Some fc, c') /\ cache_ok c' /\ forall o, cache_utxo c' o = u o.
Proof.
  intros Hc Hh Hok (Hcb & Hnd & Hin & Hv & Hlen & Hfree) Hundo Hu. unfold undo_tx.
  destruct (undo_outputs_spec (ComputeHash tx) height (IsCoinBase tx) (IsCoinStake tx) 0 (vout tx) fc c (minus u (inputs tx)))
    as (c1 & -> & Hc1 & Hu1); try done; try lia.
  { intros m Hm. unfold minus. destruct (decide _); [done|]. by apply Hfree. }
  unfold inputs in *. rewrite Hcb in *. destruct i as [|i]; cbn [Nat.eqb Nat.ltb Nat.leb] in *.
  { exists c1. split_and!; [done | done |]. intros o. by rewrite Hu1, minus_nil. }
  rewrite Hundo by lia. cbn [of_option obind]. unfold undo_of at 1. rewrite length_map, Nat.eqb_refl. cbn [negb].
  assert (Hkeys : map (fun p => prevout (fst p)) (rev (zip (vin tx) (undo_of u (vin tx)))) = rev (map prevout (vin tx))).
  { by rewrite map_rev, zip_undo_keys. }
  apply restore_inputs_spec; try done.
  - rewrite Hkeys. by rewrite <- Permutation_rev.
  - by apply Forall_rev, zip_undo_coins.
  - intros o. rewrite Hu1, Hkeys. unfold minus. 
    destruct (decide (o ∈ map prevout (vin tx))) as [Hi|Hi], (decide (o ∈ rev _)) as [Hj|Hj]; try done;
      rewrite <- Permutation_rev in Hj; done.
Qed.

Lemma block_applies_at height u i txs k tx :
  block_applies height u i txs -> txs !! k = Some tx ->
  tx_applies (coins_before height u txs k) (i + k) tx.
Proof.
  revert u i k; induction txs as [|t txs IH]; intros u i k Hb Hk; [done|]. destruct Hb as [Ht Hb], k as [|k]; cbn in Hk.
  - injection Hk as ->. by rewrite Nat.add_0_r.
  - replace (i + S k)%nat with (S i + k)%nat by lia. by apply (IH (apply_tx height u t)).
Qed.

Lemma undos_at height u i txs k tx :
  txs !! k = Some tx -> (0 < i + k)%nat ->
  undos height u i txs !! (k - (if (0 <? i)%nat then 0 else 1))%nat = Some (undo_of (coins_before height u txs k) (vin tx)).
Proof.
  revert u i k; induction txs as [|t txs IH]; intros u i k Hk Hik; [done|]. cbn [undos].
  destruct k as [|k]; cbn in Hk.
  - injection Hk as ->. by destruct (Nat.ltb_spec 0 i); [|lia].
  - pose proof (IH (apply_tx height u t) (S i) k Hk ltac:(lia)) as E. cbn [Nat.ltb Nat.leb] in E. rewrite Nat.sub_0_r in E.
    destruct (Nat.ltb_spec 0 i); cbn [app].
    + rewrite Nat.sub_0_r. exact E.
    + by rewrite Nat.sub_succ, Nat.sub_0_r.
Qed.

Lemma coins_before_S height u txs k tx :
  txs !! k = Some tx -> coins_before height u txs (S k) = apply_tx height (coins_before height u txs k) tx.
Proof. intros Hk. unfold coins_before. by rewrite (take_S_r _ _ _ Hk), fold_left_app. Qed.

Lemma coins_before_ok height u txs k :
  0 < height < 2 ^ 30 -> block_applies height u 0 txs -> coins_ok u -> (k <= length txs)%nat ->
  coins_ok (coins_before height u txs k).
Proof.
  intros Hh Hb Hu. induction k as [|k IH]; intros Hk; [done|].
  destruct (lookup_lt_is_Some_2 txs k) as [tx Htx]; [lia|]. rewrite (coins_before_S _ _ _ _ _ Htx).
  eapply apply_tx_ok; [done | by apply (block_applies_at height u 0 txs k) | by apply IH; lia].
Qed.

Lemma disconnect_txs_spec height u txs k fc c :
  cache_ok c -> 0 < height < 2 ^ 30 -> coins_ok u -> block_applies height u 0 txs -> (k <= length txs)%nat ->
  (forall o, cache_utxo c o = coins_before height u txs k o) ->
  exists c', disconnect_txs k txs (undos height u 0 txs) height fc c = Ok (Some fc, c') /\ cache_ok c' /\
    forall o, cache_utxo c' o = u o.
Proof.
  intros Hc Hh Hu Hb. revert c Hc; induction k as [|k IH]; intros c Hc Hk Hck; cbn [disconnect_txs]; [by exists c|].
  destruct (lookup_lt_is_Some_2 txs k) as [tx Htx]; [lia|]. rewrite Htx. cbn [of_option obind].
  rewrite (coins_before_S _ _ _ _ _ Htx) in Hck.
  destruct (undo_tx_spec height (coins_before height u txs k) k tx (undos height u 0 txs) fc c) as (c1 & -> & Hc1 & Hu1); try done.
  - apply coins_before_ok; try done. lia.
  - by apply (block_applies_at height u 0 txs k).
  - intros Hk0. by apply (undos_at height u 0 txs k).
  - cbn [obind]. apply IH; try done. lia.
Qed.

Lemma length_undos height u i txs :
  (length (undos height u i txs) + (if (0 <? i)%nat then 0 else Nat.min 1 (length txs)) = length txs)%nat.
Proof.
  revert u i; induction txs as [|t txs IH]; intros u i; cbn [undos length]; [by destruct (_ <? _)%nat|].
  pose proof (IH (apply_tx height u t) (S i)) as E. cbn [Nat.ltb Nat.leb] in E. rewrite length_app.
  destruct (0 <? i)%nat; cbn [length] in *; lia.
Qed.

(** The undo data are those of the coins before the block. *)
Lemma connect_disconnect_spec (txs : list CTransaction) (height : Z) (hash prev : uint256) c :
  cache_ok c -> 0 < height < 2 ^ 30 -> coins_ok (cache_utxo c) -> block_applies height (cache_utxo c) 0 txs ->
  txs <> [] -> blob_IsNull hash = false ->
  exists c1 c2,
    ConnectBlock_coins txs height hash c = Ok (undos height (cache_utxo c) 0 txs, c1) /\
    (forall o, cache_utxo c1 o = fold_left (apply_tx height) txs (cache_utxo c) o) /\
    DisconnectBlock txs (undos height (cache_utxo c) 0 txs) height hash prev c1 = Ok (DISCONNECT_OK, c2) /\
    (forall o, cache_utxo c2 o = cache_utxo c o) /\ hashBlock c2 = prev.
Proof.
  intros Hc Hh Hok Hb Hne Hnull. unfold ConnectBlock_coins.
  destruct (connect_coins_spec height (cache_utxo c) 0 txs [] c Hc ltac:(done) Hb) as (c1 & -> & Hc1 & Hu1).
  destruct (disconnect_txs_spec height (cache_utxo c) txs (length txs) true (SetBestBlock hash c1)) as (c2 & E2 & Hc2 & Hu2);
    try done.
  { intros o. unfold coins_before. rewrite take_ge by done. apply Hu1. }
  cbn [obind app fst snd]. eexists _, (SetBestBlock prev c2). split; [done|]. split; [exact Hu1|].
  unfold DisconnectBlock, cache_GetBestBlock. cbn [hashBlock SetBestBlock]. rewrite Hnull.
  rewrite (proj2 (bytes_eqb_eq hash hash) eq_refl). cbn [negb].
  pose proof (length_undos height (cache_utxo c) 0 txs) as Hlen. cbn [Nat.ltb Nat.leb] in Hlen.
  assert (length txs <> 0)%nat by (by destruct txs).
  rewrite (proj2 (Nat.eqb_eq _ _)) by lia. cbn [negb]. rewrite E2.
  by split_and!.
Qed.

(** C3 (reorganisations): applying the transactions of a block to a cache of
    coins and then disconnecting the block with the undo data collected
    succeeds, is reported as clean, and gives back exactly the coins that
    were unspent before, with the predecessor as best block.  The hypotheses
    on the block are what the checks before [UpdateCoins] establish. *)
Theorem connect_then_disconnect_restores_coins (txs : list CTransaction) (height : Z) (hash prev : uint256) c :
  cache_ok c -> 0 < height < 2 ^ 30 -> coins_ok (cache_utxo c) -> block_applies height (cache_utxo c) 0 txs ->
  txs <> [] -> blob_IsNull hash = false ->
  exists vtxundo c1 c2,
    ConnectBlock_coins txs height hash c = Ok (vtxundo, c1) /\
    (forall o, cache_utxo c1 o = fold_left (apply_tx height) txs (cache_utxo c) o) /\
    DisconnectBlock txs vtxundo height hash prev c1 = Ok (DISCONNECT_OK, c2) /\
    (forall o, cache_utxo c2 o = cache_utxo c o) /\ hashBlock c2 = prev.
Proof.
  intros Hc Hh Hok Hb Hne Hnull. exists (undos height (cache_utxo c) 0 txs). by apply connect_disconnect_spec.
Qed.

End blocks.

(** ** An instance *)

Definition a_coinbase : CTransaction :=
  mkTransaction 1 [mkTxIn outpoint_null [OP_1; OP_1] SEQUENCE_FINAL []] [mkTxOut 5 [OP_1]] 0.

Definition a_spend : CTransaction :=
  mkTransaction 1 [mkTxIn out_a [] SEQUENCE_FINAL []] [mkTxOut 30 [OP_1]; mkTxOut 0 [OP_RETURN]] 0.

Definition a_cache : CCoinsViewCache CoinStore := CCoinsViewCache_new (mkStore {[out_a := coin_a]} uint256_null).

Lemma a_cache_ok : cache_ok a_cache.
Proof. apply cache_new_ok, map_Forall_singleton. reflexivity. Qed.

Lemma a_cache_coins : coins_ok (cache_utxo a_cache).
Proof.
  intros o k. unfold cache_utxo, a_cache. cbn [cacheCoins base CCoinsViewCache_new utxo CoinStore_reads coins_of]. destruct (decide (out_a = o)) as [<-|Hne].
  - vm_compute. intros [= <-]. done.
  - rewrite lookup_empty. by rewrite lookup_singleton_ne.
Qed.

Lemma outputs_free_dec u txid outs :
  forallb (fun i => bool_decide (u (mkOutPoint txid (u32 (Z.of_nat i))) = None)) (seq 0 (length outs)) = true ->
  outputs_free u txid 0 outs.
Proof.
  rewrite forallb_forall. intros Hall m Hm. specialize (Hall (Z.to_nat m)). rewrite Z2Nat.id in Hall by lia.
  apply bool_decide_eq_true in Hall; [done|]. apply in_seq. lia.
Qed.

Lemma a_block_applies : block_applies 40 (cache_utxo a_cache) 0 [a_coinbase; a_spend].
Proof.
  cbn [block_applies]. split_and!; [| |done].
  all: split_and!; [reflexivity | | | repeat constructor; done | vm_compute; discriminate |].
  - apply NoDup_nil_2.
  - apply Forall_nil_2.
  - apply outputs_free_dec. vm_compute. reflexivity.
  - cbn. apply NoDup_singleton.
  - cbn -[apply_tx]. repeat constructor. vm_compute. eauto.
  - apply outputs_free_dec. vm_compute. reflexivity.
Qed.

Lemma connect_then_disconnect_restores_coins_witness :
  exists vtxundo c1 c2,
    ConnectBlock_coins [a_coinbase; a_spend] 40 (repeat 3 32) a_cache = Ok (vtxundo, c1) /\
    (forall o, cache_utxo c1 o = fold_left (apply_tx 40) [a_coinbase; a_spend] (cache_utxo a_cache) o) /\
    DisconnectBlock [a_coinbase; a_spend] vtxundo 40 (repeat 3 32) (repeat 4 32) c1 = Ok (DISCONNECT_OK, c2) /\
    (forall o, cache_utxo c2 o = cache_utxo a_cache o) /\ hashBlock c2 = repeat 4 32.
Proof.
  apply (connect_then_disconnect_restores_coins [a_coinbase; a_spend] 40 (repeat 3 32) (repeat 4 32) a_cache);
    [exact a_cache_ok | lia | exact a_cache_coins | exact a_block_applies | discriminate | reflexivity].
Defined.
