(* ===== verification/SigHash.v ===== *)
(** * SigHash: the messages that transaction signatures sign, and the checkers
    (src/src/script/interpreter.cpp: CTransactionSignatureSerializer,
    SignatureHash, SignatureHashOutput, PrecomputedTransactionData,
    GenericTransactionSignatureChecker, GenericTransactionSignatureOutputChecker)

    A [CHashWriter] is the bytes streamed into it, its [GetHash] their double
    SHA-256.  A failed assertion is [Fail].  The verification of a signature
    against a public key, [CPubKey::Verify], is secp256k1's: a parameter.

    [BaseSignatureChecker] is the interface between the script interpreter
    and the transaction; here are the two classes that implement it. *)

From Stdlib Require Import ZArith List Lia Bool.
From stdpp Require Import base decidable list option.
From S2P Require Import Prelude Uint256 Primitives HashBuffer Sha256 Hash Script Serialize Standard.
Local Open Scope Z_scope.
Local Open Scope outcome_scope.

Definition SIGHASH_ALL : Z := 1.
Definition SIGHASH_NONE : Z := 2.
Definition SIGHASH_SINGLE : Z := 3.
Definition SIGHASH_ANYONECANPAY : Z := 0x80.

Inductive SigVersion := BASE | WITNESS_V0.

#[export] Instance SigVersion_eq_dec : EqDecision SigVersion.
Proof. solve_decision. Defined.

(** ** The virtual functions of a checker *)

Class BaseSignatureChecker := {
  CheckSig : bytes -> bytes -> CScript -> SigVersion -> outcome bool;
  CheckLockTime : Z -> outcome bool;
  CheckSequence : Z -> outcome bool }.

(** The base class rejects everything. *)
Definition BaseSignatureChecker_default : BaseSignatureChecker := {|
  CheckSig _ _ _ _ := Ok false;
  CheckLockTime _ := Ok false;
  CheckSequence _ := Ok false |}.

(** ** The pre-segwit serialization *)

Definition has_flag (nHashType flag : Z) : bool := negb (Z.land nHashType flag =? 0).

(** The output type of a hash type, [nHashType & 0x1f] *)
Definition base_type (nHashType : Z) : Z := Z.land nHashType 0x1f.

(** The second loop of [SerializeScriptCode] over the operations read *)
Fixpoint write_code (l : list op) (itBegin : bytes) : bytes * bytes :=
  match l with
  | [] => ([], itBegin)
  | o :: l =>
    if op_code o =? OP_CODESEPARATOR then
      let '(rest, itEnd) := write_code l (op_rest o) in
      (take (length itBegin - length (op_rest o) - 1) itBegin ++ rest, itEnd)
    else write_code l itBegin
  end.

(** The iterator after the loop: a failed read moves it too *)
Definition last_pc (scriptCode : CScript) (l : list op) : bytes :=
  failed_pc (List.last (map op_rest l) scriptCode).

Definition SerializeScriptCode (scriptCode : CScript) : bytes :=
  let l := fst (ops scriptCode) in
  let nCodeSeparators := length (List.filter (fun o => op_code o =? OP_CODESEPARATOR) l) in
  let '(written, itBegin) := write_code l scriptCode in
  WriteCompactSize (Z.of_nat (length scriptCode - nCodeSeparators)) ++ written ++
  match itBegin with
  | [] => []
  | _ => take (length itBegin - length (last_pc scriptCode l)) itBegin
  end.

Section serializer.
Context (txTo : CTransaction) (scriptCode : CScript) (nIn : nat) (nHashType : Z).

Definition fAnyoneCanPay : bool := has_flag nHashType SIGHASH_ANYONECANPAY.
Definition fHashSingle : bool := base_type nHashType =? SIGHASH_SINGLE.
Definition fHashNone : bool := base_type nHashType =? SIGHASH_NONE.

(** [SerializeInput] of input [nInput], which is [txin] *)
Definition SerializeInput (nInput : nat) (txin : CTxIn) : bytes :=
  Serialize_COutPoint (prevout txin) ++
  (if negb (nInput =? nIn)%nat then Serialize_bytes [] else SerializeScriptCode scriptCode) ++
  (if negb (nInput =? nIn)%nat && (fHashSingle || fHashNone) then Serialize_int32 0
   else Serialize_uint32 (nSequence txin)).

Definition SerializeOutput (nOutput : nat) (txout : CTxOut) : bytes :=
  if fHashSingle && negb (nOutput =? nIn)%nat then Serialize_CTxOut txout_null else Serialize_CTxOut txout.

(** With [SIGHASH_ANYONECANPAY] the only input is the one signed. *)
Definition signed_inputs : list bytes :=
  if fAnyoneCanPay then
    match vin txTo !! nIn with Some txin => [SerializeInput nIn txin] | None => [] end
  else imap SerializeInput (vin txTo).

Definition signed_outputs : list bytes :=
  if fHashNone then []
  else if fHashSingle then imap SerializeOutput (take (nIn + 1) (vout txTo))
  else imap SerializeOutput (vout txTo).

Definition signature_serialize : bytes :=
  Serialize_int32 (nVersion txTo) ++
  WriteCompactSize (Z.of_nat (length signed_inputs)) ++ concat signed_inputs ++
  WriteCompactSize (Z.of_nat (length signed_outputs)) ++ concat signed_outputs ++
  Serialize_uint32 (nLockTime txTo).

End serializer.

(** ** Parts of the segwit messages *)

Definition GetPrevoutHash (txTo : CTransaction) : uint256 :=
  Hash (concat (map (fun txin => Serialize_COutPoint (prevout txin)) (vin txTo))).

Definition GetSequenceHash (txTo : CTransaction) : uint256 :=
  Hash (concat (map (fun txin => Serialize_uint32 (nSequence txin)) (vin txTo))).

Definition GetFirstPrevoutHash (txin : CTxIn) : uint256 := Hash (Serialize_COutPoint (prevout txin)).

Definition GetFirstSequenceHash (txin : CTxIn) : uint256 := Hash (Serialize_uint32 (nSequence txin)).

Definition GetOutputsHash (txTo : CTransaction) : uint256 :=
  Hash (concat (map Serialize_CTxOut (vout txTo))).

Definition GetOutputWithoutSenderSig (output : CTxOut) : CTxOut :=
  mkTxOut (nValue output) (WithoutSenderSig (scriptPubKey output)).

Definition GetOutputsOpSenderHash (txTo : CTransaction) : uint256 :=
  Hash (concat (map (fun txout =>
    if HasOpSender (scriptPubKey txout) then Serialize_CTxOut (GetOutputWithoutSenderSig txout)
    else Serialize_CTxOut txout) (vout txTo))).

(** [hasOpSender] of a transaction *)
Definition tx_HasOpSender (txTo : CTransaction) : bool := existsb (fun v => HasOpSender (scriptPubKey v)) (vout txTo).

Record PrecomputedTransactionData := mkPrecomputed {
  hashPrevouts : uint256;
  hashSequence : uint256;
  hashOutputs : uint256;
  hashOutputsOpSender : uint256;
  ready : bool }.

Definition PrecomputedTransactionData_new (txTo : CTransaction) : PrecomputedTransactionData :=
  if HasWitness txTo || tx_HasOpSender txTo then
    mkPrecomputed (GetPrevoutHash txTo) (GetSequenceHash txTo) (GetOutputsHash txTo)
      (if tx_HasOpSender txTo then GetOutputsOpSenderHash txTo else uint256_null) true
  else mkPrecomputed uint256_null uint256_null uint256_null uint256_null false.

(** [cacheready ? cache->field : value] *)
Definition cached (cache : option PrecomputedTransactionData) (field : PrecomputedTransactionData -> uint256) (value : uint256) : uint256 :=
  match cache with
  | Some d => if ready d then field d else value
  | None => value
  end.

(** ** The messages *)

Definition SignatureHashOutput (scriptCode : CScript) (txTo : CTransaction) (nOut : nat) (nHashType amount : Z)
    (cache : option PrecomputedTransactionData) : outcome uint256 :=
  output <-! of_option (vout txTo !! nOut) ;
  let acp := has_flag nHashType SIGHASH_ANYONECANPAY in
  let single := base_type nHashType =? SIGHASH_SINGLE in
  let none := base_type nHashType =? SIGHASH_NONE in
  first <-! (if acp then
               txin <-! of_option (vin txTo !! 0%nat) ; Ok (GetFirstPrevoutHash txin, GetFirstSequenceHash txin)
             else Ok (uint256_null, uint256_null)) ;
  let hPrevouts := if negb acp then cached cache hashPrevouts (GetPrevoutHash txTo) else fst first in
  let hSequence := if negb acp && negb single && negb none then cached cache hashSequence (GetSequenceHash txTo) else snd first in
  let hOutputs :=
    if negb single && negb none then cached cache hashOutputsOpSender (GetOutputsOpSenderHash txTo)
    else if single then Hash (Serialize_CTxOut (GetOutputWithoutSenderSig output))
    else uint256_null in
  Ok (Hash (Serialize_int32 (nVersion txTo) ++ hPrevouts ++ hSequence ++
            Serialize_CTxOut (GetOutputWithoutSenderSig output) ++ Serialize_bytes scriptCode ++ Serialize_int64 amount ++
            hOutputs ++ Serialize_uint32 (nLockTime txTo) ++ Serialize_int32 nHashType)).

Definition uint256_one : uint256 := 1 :: repeat 0 31.

Definition SignatureHash (scriptCode : CScript) (txTo : CTransaction) (nIn : nat) (nHashType amount : Z) (sigversion : SigVersion)
    (cache : option PrecomputedTransactionData) : outcome uint256 :=
  txin <-! of_option (vin txTo !! nIn) ;
  match sigversion with
  | WITNESS_V0 =>
    let acp := has_flag nHashType SIGHASH_ANYONECANPAY in
    let single := base_type nHashType =? SIGHASH_SINGLE in
    let none := base_type nHashType =? SIGHASH_NONE in
    let hPrevouts := if negb acp then cached cache hashPrevouts (GetPrevoutHash txTo) else uint256_null in
    let hSequence :=
      if negb acp && negb single && negb none then cached cache hashSequence (GetSequenceHash txTo) else uint256_null in
    let hOutputs :=
      if negb single && negb none then cached cache hashOutputs (GetOutputsHash txTo)
      else if single then
        match vout txTo !! nIn with Some txout => Hash (Serialize_CTxOut txout) | None => uint256_null end
      else uint256_null in
    Ok (Hash (Serialize_int32 (nVersion txTo) ++ hPrevouts ++ hSequence ++ Serialize_COutPoint (prevout txin) ++
              Serialize_bytes scriptCode ++ Serialize_int64 amount ++ Serialize_uint32 (nSequence txin) ++
              hOutputs ++ Serialize_uint32 (nLockTime txTo) ++ Serialize_int32 nHashType))
  | BASE =>
    if (base_type nHashType =? SIGHASH_SINGLE) && (length (vout txTo) <=? nIn)%nat then Ok uint256_one
    else Ok (Hash (signature_serialize txTo scriptCode nIn nHashType ++ Serialize_int32 nHashType))
  end.

(** ** The checkers *)

Section checkers.
Context (Verify : CPubKey -> uint256 -> bytes -> bool).
Context (txTo : CTransaction) (n : nat) (amount : Z) (txdata : option PrecomputedTransactionData).

(** The common body of the two [CheckSig]: the hash type is the last byte. *)
Definition check_sig (sighash_of : Z -> outcome uint256) (vchSigIn vchPubKey : bytes) : outcome bool :=
  let pubkey := CPubKey_Set vchPubKey in
  if negb (CPubKey_IsValid pubkey) then Ok false
  else match vchSigIn with
  | [] => Ok false
  | _ =>
    let nHashType := back vchSigIn in
    sighash <-! sighash_of nHashType ;
    Ok (Verify pubkey sighash (removelast vchSigIn))
  end.

(** [GenericTransactionSignatureChecker::CheckLockTime] for input [n] *)
Definition tx_CheckLockTime (nLockTimeArg : Z) : outcome bool :=
  if negb (((nLockTime txTo <? LOCKTIME_THRESHOLD) && (nLockTimeArg <? LOCKTIME_THRESHOLD)) ||
           ((LOCKTIME_THRESHOLD <=? nLockTime txTo) && (LOCKTIME_THRESHOLD <=? nLockTimeArg))) then Ok false
  else if nLockTime txTo <? nLockTimeArg then Ok false
  else
    txin <-! of_option (vin txTo !! n) ;
    Ok (negb (SEQUENCE_FINAL =? nSequence txin)).

(** [CheckSequence] *)
Definition tx_CheckSequence (nSequenceArg : Z) : outcome bool :=
  txin <-! of_option (vin txTo !! n) ;
  let txToSequence := nSequence txin in
  if u32 (nVersion txTo) <? 2 then Ok false
  else if has_flag txToSequence SEQUENCE_LOCKTIME_DISABLE_FLAG then Ok false
  else
    let nLockTimeMask := Z.lor SEQUENCE_LOCKTIME_TYPE_FLAG SEQUENCE_LOCKTIME_MASK in
    let txToSequenceMasked := Z.land txToSequence nLockTimeMask in
    let nSequenceMasked := Z.land nSequenceArg nLockTimeMask in
    if negb (((txToSequenceMasked <? SEQUENCE_LOCKTIME_TYPE_FLAG) && (nSequenceMasked <? SEQUENCE_LOCKTIME_TYPE_FLAG)) ||
             ((SEQUENCE_LOCKTIME_TYPE_FLAG <=? txToSequenceMasked) && (SEQUENCE_LOCKTIME_TYPE_FLAG <=? nSequenceMasked)))
    then Ok false
    else Ok (negb (txToSequenceMasked <? nSequenceMasked)).

(** [TransactionSignatureChecker] for input [n] *)
Definition TransactionSignatureChecker : BaseSignatureChecker := {|
  CheckSig vchSigIn vchPubKey scriptCode sigversion :=
    check_sig (fun nHashType => SignatureHash scriptCode txTo n nHashType amount sigversion txdata) vchSigIn vchPubKey;
  CheckLockTime := tx_CheckLockTime;
  CheckSequence := tx_CheckSequence |}.

(** [TransactionSignatureOutputChecker] for output [n] *)
Definition TransactionSignatureOutputChecker : BaseSignatureChecker := {|
  CheckSig vchSigIn vchPubKey scriptCode sigversion :=
    check_sig (fun nHashType => SignatureHashOutput scriptCode txTo n nHashType amount txdata) vchSigIn vchPubKey;
  CheckLockTime _ := Ok false;
  CheckSequence _ := Ok false |}.

End checkers.

(** ** Theorems *)

#[local] Opaque Hash.

Lemma cached_new txTo field value :
  (HasWitness txTo || tx_HasOpSender txTo = true -> field (PrecomputedTransactionData_new txTo) = value) ->
  cached (Some (PrecomputedTransactionData_new txTo)) field value = value.
Proof.
  unfold PrecomputedTransactionData_new, cached. destruct (_ || _); cbn [ready]; [|done]. intros H. by apply H.
Qed.

(** Precomputed hashes: the signature hash of an input computed with the
    transaction's precomputed data is the one computed without; so is the
    hash for the sender of an output whenever some output has a sender. *)
Theorem precomputed_data_transparent (scriptCode : CScript) (txTo : CTransaction) (n : nat) (nHashType amount : Z) (v : SigVersion) :
  let cache := Some (PrecomputedTransactionData_new txTo) in
  SignatureHash scriptCode txTo n nHashType amount v cache = SignatureHash scriptCode txTo n nHashType amount v None /\
  (tx_HasOpSender txTo = true ->
   SignatureHashOutput scriptCode txTo n nHashType amount cache = SignatureHashOutput scriptCode txTo n nHashType amount None).
Proof.
  intros cache.
  assert (Hp : cached cache hashPrevouts (GetPrevoutHash txTo) = GetPrevoutHash txTo) by
    (apply cached_new; unfold PrecomputedTransactionData_new; intros ->; reflexivity).
  assert (Hs : cached cache hashSequence (GetSequenceHash txTo) = GetSequenceHash txTo) by
    (apply cached_new; unfold PrecomputedTransactionData_new; intros ->; reflexivity).
  assert (Ho : cached cache hashOutputs (GetOutputsHash txTo) = GetOutputsHash txTo) by
    (apply cached_new; unfold PrecomputedTransactionData_new; intros ->; reflexivity).
  split.
  - unfold SignatureHash. by rewrite Hp, Hs, Ho.
  - intros Hop.
    assert (Hos : cached cache hashOutputsOpSender (GetOutputsOpSenderHash txTo) = GetOutputsOpSenderHash txTo).
    { apply cached_new. unfold PrecomputedTransactionData_new. intros ->. cbn. rewrite Hop. reflexivity. }
    unfold SignatureHashOutput. by rewrite Hp, Hs, Hos.
Qed.

(** Everything but the inputs, and but the outputs *)
Definition same_but_inputs (a b : CTransaction) : Prop :=
  nVersion a = nVersion b /\ vout a = vout b /\ nLockTime a = nLockTime b.

Definition same_but_outputs (a b : CTransaction) : Prop :=
  nVersion a = nVersion b /\ vin a = vin b /\ nLockTime a = nLockTime b.

(** Scope of hash types: with [SIGHASH_ANYONECANPAY] the signature hash
    depends on no other input than the signed one, and with [SIGHASH_NONE] on
    no output, in both signature versions. *)
Theorem hash_type_scope (scriptCode : CScript) (a b : CTransaction) (n : nat) (nHashType amount : Z) (v : SigVersion) :
  (has_flag nHashType SIGHASH_ANYONECANPAY = true -> same_but_inputs a b -> vin a !! n = vin b !! n ->
   SignatureHash scriptCode a n nHashType amount v None = SignatureHash scriptCode b n nHashType amount v None) /\
  (base_type nHashType = SIGHASH_NONE -> same_but_outputs a b ->
   SignatureHash scriptCode a n nHashType amount v None = SignatureHash scriptCode b n nHashType amount v None).
Proof.
  split.
  - intros Hf (Hv & Ho & Hl) Hin. unfold SignatureHash, signature_serialize, signed_inputs, signed_outputs, fAnyoneCanPay, GetOutputsHash.
    rewrite Hf, Hv, Ho, Hl, Hin. by destruct (vin b !! n).
  - intros Hn (Hv & Hi & Hl). unfold SignatureHash, signature_serialize, signed_inputs, signed_outputs, fHashNone,
      GetPrevoutHash, GetSequenceHash. rewrite Hn, Hv, Hi, Hl. by destruct (vin b !! n).
Qed.

Definition two_inputs : CTransaction :=
  mkTransaction 2 [mkTxIn (mkOutPoint (repeat 1 32) 0) [] 5 []; mkTxIn (mkOutPoint (repeat 2 32) 1) [] 6 []] [mkTxOut 7 [OP_1]] 0.

Definition one_input : CTransaction :=
  mkTransaction 2 [mkTxIn (mkOutPoint (repeat 1 32) 0) [] 5 []] [mkTxOut 7 [OP_1]] 0.

Lemma hash_type_scope_witness :
  SignatureHash [OP_1] two_inputs 0 0x81 7 BASE None = SignatureHash [OP_1] one_input 0 0x81 7 BASE None.
Proof. apply (proj1 (hash_type_scope [OP_1] two_inputs one_input 0 0x81 7 BASE)); repeat split. Defined.

Definition a_sender_tx : CTransaction :=
  mkTransaction 2 [mkTxIn (mkOutPoint (repeat 1 32) 0) [] 5 []]
    [mkTxOut 0 [1; 1; 1; 9; OP_SENDER; OP_1; OP_CREATE]] 0.

Lemma precomputed_data_transparent_witness :
  SignatureHashOutput [OP_1] a_sender_tx 0 1 7 (Some (PrecomputedTransactionData_new a_sender_tx)) =
  SignatureHashOutput [OP_1] a_sender_tx 0 1 7 None.
Proof. apply (precomputed_data_transparent [OP_1] a_sender_tx 0 1 7 BASE). reflexivity. Defined.
