(* ===== verification/Interpreter.v ===== *)
(** * Interpreter: script evaluation (src/src/script/interpreter.cpp)

    The stacks of [EvalScript] are lists with the top first: [stacktop(-1)] is
    the head, [push_back] a cons, [popstack] the tail; the condition stack
    [vfExec] likewise.  An iterator is the rest of the script.  The result is
    the returned flag with the error code; an exception caught by [catch(...)]
    is the error [SCRIPT_ERR_UNKNOWN_ERROR], a failed assertion is [Fail].
    The loop runs at most once per byte of the script.

    The checker is the interface [BaseSignatureChecker]; [CPubKey::CheckLowS]
    is secp256k1's and a parameter. *)

From Stdlib Require Import ZArith List Lia Bool.
From stdpp Require Import base decidable list option.
From S2P Require Import Prelude Uint256 Primitives HashBuffer Sha256 Sha1 Ripemd160 Hash Script Serialize Standard SigHash.
Local Open Scope Z_scope.
Local Open Scope outcome_scope.

Abbreviation valtype := bytes.

(** ** Error codes and flags *)

Inductive ScriptError :=
  | SCRIPT_ERR_OK | SCRIPT_ERR_UNKNOWN_ERROR | SCRIPT_ERR_EVAL_FALSE | SCRIPT_ERR_OP_RETURN
  | SCRIPT_ERR_SCRIPT_SIZE | SCRIPT_ERR_PUSH_SIZE | SCRIPT_ERR_OP_COUNT | SCRIPT_ERR_STACK_SIZE
  | SCRIPT_ERR_SIG_COUNT | SCRIPT_ERR_PUBKEY_COUNT
  | SCRIPT_ERR_VERIFY | SCRIPT_ERR_EQUALVERIFY | SCRIPT_ERR_CHECKMULTISIGVERIFY | SCRIPT_ERR_CHECKSIGVERIFY
  | SCRIPT_ERR_NUMEQUALVERIFY
  | SCRIPT_ERR_BAD_OPCODE | SCRIPT_ERR_DISABLED_OPCODE | SCRIPT_ERR_INVALID_STACK_OPERATION
  | SCRIPT_ERR_INVALID_ALTSTACK_OPERATION | SCRIPT_ERR_UNBALANCED_CONDITIONAL
  | SCRIPT_ERR_NEGATIVE_LOCKTIME | SCRIPT_ERR_UNSATISFIED_LOCKTIME
  | SCRIPT_ERR_SIG_HASHTYPE | SCRIPT_ERR_SIG_DER | SCRIPT_ERR_MINIMALDATA | SCRIPT_ERR_SIG_PUSHONLY
  | SCRIPT_ERR_SIG_HIGH_S | SCRIPT_ERR_SIG_NULLDUMMY | SCRIPT_ERR_PUBKEYTYPE | SCRIPT_ERR_CLEANSTACK
  | SCRIPT_ERR_MINIMALIF | SCRIPT_ERR_SIG_NULLFAIL
  | SCRIPT_ERR_DISCOURAGE_UPGRADABLE_NOPS | SCRIPT_ERR_DISCOURAGE_UPGRADABLE_WITNESS_PROGRAM
  | SCRIPT_ERR_WITNESS_PROGRAM_WRONG_LENGTH | SCRIPT_ERR_WITNESS_PROGRAM_WITNESS_EMPTY
  | SCRIPT_ERR_WITNESS_PROGRAM_MISMATCH | SCRIPT_ERR_WITNESS_MALLEATED | SCRIPT_ERR_WITNESS_MALLEATED_P2SH
  | SCRIPT_ERR_WITNESS_UNEXPECTED | SCRIPT_ERR_WITNESS_PUBKEYTYPE
  | SCRIPT_ERR_OP_CODESEPARATOR | SCRIPT_ERR_SIG_FINDANDDELETE.

Definition SCRIPT_VERIFY_NONE : Z := 0.
Definition SCRIPT_VERIFY_P2SH : Z := Z.shiftl 1 0.
Definition SCRIPT_VERIFY_STRICTENC : Z := Z.shiftl 1 1.
Definition SCRIPT_VERIFY_DERSIG : Z := Z.shiftl 1 2.
Definition SCRIPT_VERIFY_LOW_S : Z := Z.shiftl 1 3.
Definition SCRIPT_VERIFY_NULLDUMMY : Z := Z.shiftl 1 4.
Definition SCRIPT_VERIFY_SIGPUSHONLY : Z := Z.shiftl 1 5.
Definition SCRIPT_VERIFY_MINIMALDATA : Z := Z.shiftl 1 6.
Definition SCRIPT_VERIFY_DISCOURAGE_UPGRADABLE_NOPS : Z := Z.shiftl 1 7.
Definition SCRIPT_VERIFY_CLEANSTACK : Z := Z.shiftl 1 8.
Definition SCRIPT_VERIFY_CHECKLOCKTIMEVERIFY : Z := Z.shiftl 1 9.
Definition SCRIPT_VERIFY_CHECKSEQUENCEVERIFY : Z := Z.shiftl 1 10.
Definition SCRIPT_VERIFY_WITNESS : Z := Z.shiftl 1 11.
Definition SCRIPT_VERIFY_DISCOURAGE_UPGRADABLE_WITNESS_PROGRAM : Z := Z.shiftl 1 12.
Definition SCRIPT_VERIFY_MINIMALIF : Z := Z.shiftl 1 13.
Definition SCRIPT_VERIFY_NULLFAIL : Z := Z.shiftl 1 14.
Definition SCRIPT_VERIFY_WITNESS_PUBKEYTYPE : Z := Z.shiftl 1 15.
Definition SCRIPT_VERIFY_CONST_SCRIPTCODE : Z := Z.shiftl 1 16.
Definition SCRIPT_OUTPUT_SENDER : Z := Z.shiftl 1 29.

(** [flags & flag] as a condition *)
Definition on (flags flag : Z) : bool := negb (Z.land flags flag =? 0).

(** ** Values and encodings *)

Fixpoint CastToBool (vch : valtype) : bool :=
  match vch with
  | [] => false
  | b :: vch' =>
    if negb (b =? 0) then negb ((length vch' =? 0)%nat && (b =? 0x80)) else CastToBool vch'
  end.

Definition vchFalse : valtype := [].
Definition vchTrue : valtype := [1].

Definition of_bool (b : bool) : valtype := if b then vchTrue else vchFalse.

Definition IsCompressedOrUncompressedPubKey (vchPubKey : valtype) : bool :=
  if (length vchPubKey <? 33)%nat then false
  else if byte_at vchPubKey 0 =? 0x04 then (length vchPubKey =? 65)%nat
  else if (byte_at vchPubKey 0 =? 0x02) || (byte_at vchPubKey 0 =? 0x03) then (length vchPubKey =? 33)%nat
  else false.

Definition IsCompressedPubKey (vchPubKey : valtype) : bool :=
  if negb (length vchPubKey =? 33)%nat then false
  else negb (negb (byte_at vchPubKey 0 =? 0x02) && negb (byte_at vchPubKey 0 =? 0x03)).

(** [sig[i]] at an index the size checks before it allow *)
Definition IsValidSignatureEncoding (sig : valtype) (haveHashType : bool) : bool :=
  let size := Z.of_nat (length sig) in
  let at_ i := byte_at sig (Z.to_nat i) in
  if size <? 9 then false
  else if 73 <? size then false
  else if negb (at_ 0 =? 0x30) then false
  else if negb (at_ 1 =? size - (if haveHashType then 3 else 2)) then false
  else
    let lenR := at_ 3 in
    if size <=? 5 + lenR then false
    else
      let lenS := at_ (5 + lenR) in
      if negb (lenR + lenS + (if haveHashType then 7 else 6) =? size) then false
      else if negb (at_ 2 =? 0x02) then false
      else if lenR =? 0 then false
      else if negb (Z.land (at_ 4) 0x80 =? 0) then false
      else if (1 <? lenR) && (at_ 4 =? 0x00) && (Z.land (at_ 5) 0x80 =? 0) then false
      else if negb (at_ (lenR + 4) =? 0x02) then false
      else if lenS =? 0 then false
      else if negb (Z.land (at_ (lenR + 6)) 0x80 =? 0) then false
      else if (1 <? lenS) && (at_ (lenR + 6) =? 0x00) && (Z.land (at_ (lenR + 7)) 0x80 =? 0) then false
      else true.

Definition IsDefinedHashtypeSignature (vchSig : valtype) : bool :=
  if (length vchSig =? 0)%nat then false
  else
    let nHashType := u8 (Z.land (back vchSig) (Z.lnot SIGHASH_ANYONECANPAY)) in
    negb ((nHashType <? SIGHASH_ALL) || (SIGHASH_SINGLE <? nHashType)).

Section encodings.
Context (CheckLowS : bytes -> bool).

(** The error code where these functions return false *)
Definition IsLowDERSignature (vchSig : valtype) (haveHashType : bool) : option ScriptError :=
  if negb (IsValidSignatureEncoding vchSig haveHashType) then Some SCRIPT_ERR_SIG_DER
  else if negb (CheckLowS (take (length vchSig - (if haveHashType then 1 else 0)) vchSig)) then Some SCRIPT_ERR_SIG_HIGH_S
  else None.

Definition CheckSignatureEncoding (vchSig : valtype) (flags : Z) : option ScriptError :=
  if (length vchSig =? 0)%nat then None
  else if on flags (Z.lor (Z.lor SCRIPT_VERIFY_DERSIG SCRIPT_VERIFY_LOW_S) SCRIPT_VERIFY_STRICTENC) &&
          negb (IsValidSignatureEncoding vchSig true) then Some SCRIPT_ERR_SIG_DER
  else match (if on flags SCRIPT_VERIFY_LOW_S then IsLowDERSignature vchSig true else None) with
  | Some e => Some e
  | None =>
    if on flags SCRIPT_VERIFY_STRICTENC && negb (IsDefinedHashtypeSignature vchSig) then Some SCRIPT_ERR_SIG_HASHTYPE
    else None
  end.

End encodings.

Definition CheckPubKeyEncoding (vchPubKey : valtype) (flags : Z) (sigversion : SigVersion) : option ScriptError :=
  if on flags SCRIPT_VERIFY_STRICTENC && negb (IsCompressedOrUncompressedPubKey vchPubKey) then Some SCRIPT_ERR_PUBKEYTYPE
  else if on flags SCRIPT_VERIFY_WITNESS_PUBKEYTYPE && bool_decide (sigversion = WITNESS_V0) && negb (IsCompressedPubKey vchPubKey)
  then Some SCRIPT_ERR_WITNESS_PUBKEYTYPE
  else None.

(** The assertion [0 <= opcode && opcode <= OP_PUSHDATA4] holds where it is called. *)
Definition CheckMinimalPush (data : valtype) (opcode : Z) : bool :=
  let size := Z.of_nat (length data) in
  if size =? 0 then opcode =? OP_0
  else if (size =? 1) && (1 <=? byte_at data 0) && (byte_at data 0 <=? 16) then false
  else if (size =? 1) && (byte_at data 0 =? 0x81) then false
  else if size <=? 75 then opcode =? size
  else if size <=? 255 then opcode =? OP_PUSHDATA1
  else if size <=? 65535 then opcode =? OP_PUSHDATA2
  else true.

(** ** [FindAndDelete] *)

(** The inner loop: the iterator after the copies of [b] at [pc], and how many *)
Fixpoint skip_copies (fuel : nat) (b pc : bytes) (nFound : nat) : bytes * nat :=
  match fuel with
  | O => (pc, nFound)
  | S fuel' =>
    if (length b <=? length pc)%nat && bytes_eqb b (take (length b) pc)
    then skip_copies fuel' b (drop (length b) pc) (S nFound)
    else (pc, nFound)
  end.

(** The outer loop from the iterators [pc2] and [pc]: the final [result], [pc2] and [nFound] *)
Fixpoint find_loop (fuel : nat) (b result pc2 pc : bytes) (nFound : nat) : bytes * bytes * nat :=
  match fuel with
  | O => (result, pc2, nFound)
  | S fuel' =>
    let result := result ++ take (length pc2 - length pc) pc2 in
    let '(pc, nFound) := skip_copies (length pc) b pc nFound in
    match GetScriptOp pc with
    | Some (_, _, pc') => find_loop fuel' b result pc pc' nFound
    | None => (result, pc, nFound)
    end
  end.

(** The script after the call and the number of copies found *)
Definition FindAndDelete (script b : CScript) : CScript * nat :=
  match b with
  | [] => (script, 0%nat)
  | _ =>
    let '(result, pc2, nFound) := find_loop (S (length script)) b [] script script 0 in
    if (0 <? nFound)%nat then (result ++ pc2, nFound) else (script, nFound)
  end.

(** ** Arithmetic of [CScriptNum] *)

(** [operator+=], [operator-=] and unary [operator-], with their assertions *)
Definition num_incr (m_value rhs : Z) : outcome Z :=
  if (rhs =? 0) || ((0 <? rhs) && (m_value <=? 2 ^ 63 - 1 - rhs)) || ((rhs <? 0) && (- 2 ^ 63 - rhs <=? m_value))
  then Ok (m_value + rhs) else Fail.

Definition num_decr (m_value rhs : Z) : outcome Z :=
  if (rhs =? 0) || ((0 <? rhs) && (- 2 ^ 63 + rhs <=? m_value)) || ((rhs <? 0) && (m_value <=? 2 ^ 63 - 1 + rhs))
  then Ok (m_value - rhs) else Fail.

Definition num_neg (m_value : Z) : outcome Z := if m_value =? - 2 ^ 63 then Fail else Ok (- m_value).

(** [operator+] and [operator-] *)
Definition num_add (a b : Z) : Z := s64 (a + b).
Definition num_sub (a b : Z) : Z := s64 (a - b).

Definition nDefaultMaxNumSize : Z := 4.

(** ** The state of the loop *)

Record eval_state := mkEval {
  pc : bytes;
  pbegincodehash : bytes;
  stack : list valtype;
  altstack : list valtype;
  vfExec : list bool;
  nOpCount : Z }.

(** What an operation does: go on, or return from [EvalScript] *)
Inductive step :=
  | Next (st : eval_state)
  | RetTrue (stack : list valtype)
  | RetFalse (serror : ScriptError).

Definition set_stack (st : eval_state) (s : list valtype) : eval_state :=
  mkEval (pc st) (pbegincodehash st) s (altstack st) (vfExec st) (nOpCount st).

Definition next_stack (st : eval_state) (s : list valtype) : outcome step := Ok (Next (set_stack st s)).

Definition set_error (e : ScriptError) : outcome step := Ok (RetFalse e).

(** A [CScriptNum] read from the stack: its constructor throws to [catch(...)]. *)
Definition with_num (vch : valtype) (fRequireMinimal : bool) (nMaxNumSize : Z) (k : Z -> outcome step) : outcome step :=
  match CScriptNum vch fRequireMinimal nMaxNumSize with
  | Num n => k n
  | scriptnum_error => set_error SCRIPT_ERR_UNKNOWN_ERROR
  end.

(** ** The opcodes that use neither flags nor checker *)

Definition op_push_value (opcode : Z) (st : eval_state) : outcome step :=
  next_stack st (scriptnum_serialize (opcode - (OP_1 - 1)) :: stack st).

Definition op_else (st : eval_state) : outcome step :=
  match vfExec st with
  | [] => set_error SCRIPT_ERR_UNBALANCED_CONDITIONAL
  | b :: r => Ok (Next (mkEval (pc st) (pbegincodehash st) (stack st) (altstack st) (negb b :: r) (nOpCount st)))
  end.

Definition op_endif (st : eval_state) : outcome step :=
  match vfExec st with
  | [] => set_error SCRIPT_ERR_UNBALANCED_CONDITIONAL
  | _ :: r => Ok (Next (mkEval (pc st) (pbegincodehash st) (stack st) (altstack st) r (nOpCount st)))
  end.

Definition op_verify (st : eval_state) : outcome step :=
  match stack st with
  | [] => set_error SCRIPT_ERR_INVALID_STACK_OPERATION
  | x :: s => if CastToBool x then next_stack st s else set_error SCRIPT_ERR_VERIFY
  end.

Definition op_toaltstack (st : eval_state) : outcome step :=
  match stack st with
  | [] => set_error SCRIPT_ERR_INVALID_STACK_OPERATION
  | x :: s => Ok (Next (mkEval (pc st) (pbegincodehash st) s (x :: altstack st) (vfExec st) (nOpCount st)))
  end.

Definition op_fromaltstack (st : eval_state) : outcome step :=
  match altstack st with
  | [] => set_error SCRIPT_ERR_INVALID_ALTSTACK_OPERATION
  | x :: a => Ok (Next (mkEval (pc st) (pbegincodehash st) (x :: stack st) a (vfExec st) (nOpCount st)))
  end.

(** The stack after one of the opcodes from [OP_2DROP] to [OP_SIZE], except
    [OP_PICK] and [OP_ROLL]; [None] where it has too few elements *)
Definition shuffle (opcode : Z) (s : list valtype) : option (list valtype) :=
  if opcode =? OP_2DROP then match s with _ :: _ :: r => Some r | _ => None end
  else if opcode =? OP_2DUP then match s with x2 :: x1 :: r => Some (x2 :: x1 :: s) | _ => None end
  else if opcode =? OP_3DUP then match s with x3 :: x2 :: x1 :: r => Some (x3 :: x2 :: x1 :: s) | _ => None end
  else if opcode =? OP_2OVER then match s with x4 :: x3 :: x2 :: x1 :: r => Some (x2 :: x1 :: s) | _ => None end
  else if opcode =? OP_2ROT then
    match s with x6 :: x5 :: x4 :: x3 :: x2 :: x1 :: r => Some (x2 :: x1 :: x6 :: x5 :: x4 :: x3 :: r) | _ => None end
  else if opcode =? OP_2SWAP then match s with x4 :: x3 :: x2 :: x1 :: r => Some (x2 :: x1 :: x4 :: x3 :: r) | _ => None end
  else if opcode =? OP_IFDUP then match s with x :: r => Some (if CastToBool x then x :: s else s) | _ => None end
  else if opcode =? OP_DEPTH then Some (scriptnum_serialize (Z.of_nat (length s)) :: s)
  else if opcode =? OP_DROP then match s with _ :: r => Some r | _ => None end
  else if opcode =? OP_DUP then match s with x :: r => Some (x :: s) | _ => None end
  else if opcode =? OP_NIP then match s with x2 :: x1 :: r => Some (x2 :: r) | _ => None end
  else if opcode =? OP_OVER then match s with x2 :: x1 :: r => Some (x1 :: s) | _ => None end
  else if opcode =? OP_ROT then match s with x3 :: x2 :: x1 :: r => Some (x1 :: x3 :: x2 :: r) | _ => None end
  else if opcode =? OP_SWAP then match s with x2 :: x1 :: r => Some (x1 :: x2 :: r) | _ => None end
  else if opcode =? OP_TUCK then match s with x2 :: x1 :: r => Some (x2 :: x1 :: x2 :: r) | _ => None end
  else (* OP_SIZE *) match s with x :: r => Some (scriptnum_serialize (Z.of_nat (length x)) :: s) | _ => None end.

Definition op_shuffle (opcode : Z) (st : eval_state) : outcome step :=
  match shuffle opcode (stack st) with
  | Some s => next_stack st s
  | None => set_error SCRIPT_ERR_INVALID_STACK_OPERATION
  end.

Definition op_equal (opcode : Z) (st : eval_state) : outcome step :=
  match stack st with
  | vch2 :: vch1 :: s =>
    let fEqual := bytes_eqb vch1 vch2 in
    if opcode =? OP_EQUALVERIFY then if fEqual then next_stack st s else set_error SCRIPT_ERR_EQUALVERIFY
    else next_stack st (of_bool fEqual :: s)
  | _ => set_error SCRIPT_ERR_INVALID_STACK_OPERATION
  end.

Definition hash_of (opcode : Z) (vch : valtype) : valtype :=
  if opcode =? OP_RIPEMD160 then (Ripemd160.Finalize (Ripemd160.Write (Ripemd160.CRIPEMD160 fresh_buf) vch)).2
  else if opcode =? OP_SHA1 then (Sha1.Finalize (Sha1.Write (Sha1.CSHA1 fresh_buf) vch)).2
  else if opcode =? OP_SHA256 then (Sha256.Finalize (Sha256.Write (Sha256.CSHA256 fresh_buf) vch)).2
  else if opcode =? OP_HASH160 then Hash160 vch
  else (* OP_HASH256 *) Hash vch.

Definition op_hashing (opcode : Z) (st : eval_state) : outcome step :=
  match stack st with
  | vch :: s => next_stack st (hash_of opcode vch :: s)
  | [] => set_error SCRIPT_ERR_INVALID_STACK_OPERATION
  end.

Definition op_codeseparator (st : eval_state) : outcome step :=
  Ok (Next (mkEval (pc st) (pc st) (stack st) (altstack st) (vfExec st) (nOpCount st))).

(** ** The numeric opcodes *)

Section numeric.
Context (fRequireMinimal : bool).

Definition op_pick_roll (opcode : Z) (st : eval_state) : outcome step :=
  match stack st with
  | x :: ((_ :: _) as s) =>
    with_num x fRequireMinimal nDefaultMaxNumSize (fun m_value =>
      let n := getint m_value in
      if (n <? 0) || (Z.of_nat (length s) <=? n) then set_error SCRIPT_ERR_INVALID_STACK_OPERATION
      else match s !! Z.to_nat n with
      | Some vch => next_stack st (vch :: (if opcode =? OP_ROLL then delete (Z.to_nat n) s else s))
      | None => set_error SCRIPT_ERR_UNKNOWN_ERROR
      end)
  | _ => set_error SCRIPT_ERR_INVALID_STACK_OPERATION
  end.

Definition unary (opcode bn : Z) : outcome Z :=
  if opcode =? OP_1ADD then num_incr bn 1
  else if opcode =? OP_1SUB then num_decr bn 1
  else if opcode =? OP_NEGATE then num_neg bn
  else if opcode =? OP_ABS then (if bn <? 0 then num_neg bn else Ok bn)
  else if opcode =? OP_NOT then Ok (Z.b2z (bn =? 0))
  else if opcode =? OP_0NOTEQUAL then Ok (Z.b2z (negb (bn =? 0)))
  else Fail.

Definition op_unary (opcode : Z) (st : eval_state) : outcome step :=
  match stack st with
  | [] => set_error SCRIPT_ERR_INVALID_STACK_OPERATION
  | x :: s =>
    with_num x fRequireMinimal nDefaultMaxNumSize (fun bn =>
      bn <-! unary opcode bn ;
      next_stack st (scriptnum_serialize bn :: s))
  end.

Definition binary (opcode bn1 bn2 : Z) : outcome Z :=
  if opcode =? OP_ADD then Ok (num_add bn1 bn2)
  else if opcode =? OP_SUB then Ok (num_sub bn1 bn2)
  else if opcode =? OP_BOOLAND then Ok (Z.b2z (negb (bn1 =? 0) && negb (bn2 =? 0)))
  else if opcode =? OP_BOOLOR then Ok (Z.b2z (negb (bn1 =? 0) || negb (bn2 =? 0)))
  else if opcode =? OP_NUMEQUAL then Ok (Z.b2z (bn1 =? bn2))
  else if opcode =? OP_NUMEQUALVERIFY then Ok (Z.b2z (bn1 =? bn2))
  else if opcode =? OP_NUMNOTEQUAL then Ok (Z.b2z (negb (bn1 =? bn2)))
  else if opcode =? OP_LESSTHAN then Ok (Z.b2z (bn1 <? bn2))
  else if opcode =? OP_GREATERTHAN then Ok (Z.b2z (bn2 <? bn1))
  else if opcode =? OP_LESSTHANOREQUAL then Ok (Z.b2z (bn1 <=? bn2))
  else if opcode =? OP_GREATERTHANOREQUAL then Ok (Z.b2z (bn2 <=? bn1))
  else if opcode =? OP_MIN then Ok (if bn1 <? bn2 then bn1 else bn2)
  else if opcode =? OP_MAX then Ok (if bn2 <? bn1 then bn1 else bn2)
  else Fail.

Definition op_binary (opcode : Z) (st : eval_state) : outcome step :=
  match stack st with
  | x2 :: x1 :: s =>
    with_num x1 fRequireMinimal nDefaultMaxNumSize (fun bn1 =>
    with_num x2 fRequireMinimal nDefaultMaxNumSize (fun bn2 =>
      bn <-! binary opcode bn1 bn2 ;
      let vch := scriptnum_serialize bn in
      if opcode =? OP_NUMEQUALVERIFY then
        if CastToBool vch then next_stack st s else set_error SCRIPT_ERR_NUMEQUALVERIFY
      else next_stack st (vch :: s)))
  | _ => set_error SCRIPT_ERR_INVALID_STACK_OPERATION
  end.

Definition op_within (st : eval_state) : outcome step :=
  match stack st with
  | x3 :: x2 :: x1 :: s =>
    with_num x1 fRequireMinimal nDefaultMaxNumSize (fun bn1 =>
    with_num x2 fRequireMinimal nDefaultMaxNumSize (fun bn2 =>
    with_num x3 fRequireMinimal nDefaultMaxNumSize (fun bn3 =>
      next_stack st (of_bool ((bn2 <=? bn1) && (bn1 <? bn3)) :: s))))
  | _ => set_error SCRIPT_ERR_INVALID_STACK_OPERATION
  end.

End numeric.

(** ** The opcodes that depend on the flags or the checker *)

Inductive eval_result :=
  | EvalTrue (serror : ScriptError) (stack : list valtype)
  | EvalFalse (serror : ScriptError).

Section eval.
Context {checker : BaseSignatureChecker} (CheckLowS : bytes -> bool) (flags : Z) (sigversion : SigVersion).

Definition fRequireMinimal : bool := on flags SCRIPT_VERIFY_MINIMALDATA.

Definition op_checklocktimeverify (st : eval_state) : outcome step :=
  if negb (on flags SCRIPT_VERIFY_CHECKLOCKTIMEVERIFY) then Ok (Next st)
  else match stack st with
  | [] => set_error SCRIPT_ERR_INVALID_STACK_OPERATION
  | x :: _ =>
    with_num x fRequireMinimal 5 (fun nLockTime =>
      if nLockTime <? 0 then set_error SCRIPT_ERR_NEGATIVE_LOCKTIME
      else
        ok <-! CheckLockTime nLockTime ;
        if negb ok then set_error SCRIPT_ERR_UNSATISFIED_LOCKTIME else Ok (Next st))
  end.

Definition op_checksequenceverify (st : eval_state) : outcome step :=
  if negb (on flags SCRIPT_VERIFY_CHECKSEQUENCEVERIFY) then Ok (Next st)
  else match stack st with
  | [] => set_error SCRIPT_ERR_INVALID_STACK_OPERATION
  | x :: _ =>
    with_num x fRequireMinimal 5 (fun nSequence =>
      if nSequence <? 0 then set_error SCRIPT_ERR_NEGATIVE_LOCKTIME
      else if negb (Z.land nSequence SEQUENCE_LOCKTIME_DISABLE_FLAG =? 0) then Ok (Next st)
      else
        ok <-! CheckSequence nSequence ;
        if negb ok then set_error SCRIPT_ERR_UNSATISFIED_LOCKTIME else Ok (Next st))
  end.

Definition op_upgradable_nop (st : eval_state) : outcome step :=
  if on flags SCRIPT_VERIFY_DISCOURAGE_UPGRADABLE_NOPS then set_error SCRIPT_ERR_DISCOURAGE_UPGRADABLE_NOPS
  else Ok (Next st).

Definition push_exec (st : eval_state) (s : list valtype) (fValue : bool) : outcome step :=
  Ok (Next (mkEval (pc st) (pbegincodehash st) s (altstack st) (fValue :: vfExec st) (nOpCount st))).

Definition op_if (opcode : Z) (fExec : bool) (st : eval_state) : outcome step :=
  if fExec then
    match stack st with
    | [] => set_error SCRIPT_ERR_UNBALANCED_CONDITIONAL
    | vch :: s =>
      if bool_decide (sigversion = WITNESS_V0) && on flags SCRIPT_VERIFY_MINIMALIF &&
         ((1 <? length vch)%nat || ((length vch =? 1)%nat && negb (byte_at vch 0 =? 1)))
      then set_error SCRIPT_ERR_MINIMALIF
      else push_exec st s (if opcode =? OP_NOTIF then negb (CastToBool vch) else CastToBool vch)
    end
  else push_exec st (stack st) false.

(** [FindAndDelete] of a signature in a pre-segwit [scriptCode]; [None] where
    [SCRIPT_ERR_SIG_FINDANDDELETE] is the error *)
Definition drop_signature (scriptCode : CScript) (vchSig : valtype) : option CScript :=
  match sigversion with
  | BASE =>
    let '(scriptCode, found) := FindAndDelete scriptCode (push_data [] vchSig) in
    if (0 <? found)%nat && on flags SCRIPT_VERIFY_CONST_SCRIPTCODE then None else Some scriptCode
  | WITNESS_V0 => Some scriptCode
  end.

Definition check_encodings (vchSig vchPubKey : valtype) : option ScriptError :=
  match CheckSignatureEncoding CheckLowS vchSig flags with
  | Some e => Some e
  | None => CheckPubKeyEncoding vchPubKey flags sigversion
  end.

Definition op_checksig (opcode : Z) (st : eval_state) : outcome step :=
  match stack st with
  | vchPubKey :: vchSig :: s =>
    match drop_signature (pbegincodehash st) vchSig with
    | None => set_error SCRIPT_ERR_SIG_FINDANDDELETE
    | Some scriptCode =>
      match check_encodings vchSig vchPubKey with
      | Some e => set_error e
      | None =>
        fSuccess <-! CheckSig vchSig vchPubKey scriptCode sigversion ;
        if negb fSuccess && on flags SCRIPT_VERIFY_NULLFAIL && negb (length vchSig =? 0)%nat
        then set_error SCRIPT_ERR_SIG_NULLFAIL
        else if opcode =? OP_CHECKSIGVERIFY then
          if fSuccess : bool then next_stack st s else set_error SCRIPT_ERR_CHECKSIGVERIFY
        else next_stack st (of_bool fSuccess :: s)
      end
    end
  | _ => set_error SCRIPT_ERR_INVALID_STACK_OPERATION
  end.

(** [scriptCode] without the signatures *)
Fixpoint drop_signatures (scriptCode : CScript) (sigs : list valtype) : option CScript :=
  match sigs with
  | [] => Some scriptCode
  | vchSig :: sigs =>
    match drop_signature scriptCode vchSig with
    | None => None
    | Some scriptCode => drop_signatures scriptCode sigs
    end
  end.

(** The loop over the signatures from [isig] and the keys from [ikey] on: the
    lists have [nSigsCount] and [nKeysCount] elements *)
Fixpoint multisig_loop (scriptCode : CScript) (sigs keys : list valtype) {struct keys} : outcome (bool + ScriptError) :=
  match sigs with
  | [] => Ok (inl true)
  | vchSig :: sigs' =>
    match keys with
    | [] => Ok (inl false)
    | vchPubKey :: keys =>
      match check_encodings vchSig vchPubKey with
      | Some e => Ok (inr e)
      | None =>
        fOk <-! CheckSig vchSig vchPubKey scriptCode sigversion ;
        let sigs := if fOk : bool then sigs' else sigs in
        if (length keys <? length sigs)%nat then Ok (inl false) else multisig_loop scriptCode sigs keys
      end
    end
  end.

(** [while (i-- > 1)]: the stack without the arguments, or the error *)
Fixpoint clean_up (fSuccess : bool) (n ikey2 : nat) (s : list valtype) : list valtype + ScriptError :=
  match n with
  | O => inl s
  | S n =>
    match s with
    | [] => inr SCRIPT_ERR_UNKNOWN_ERROR
    | x :: s =>
      if negb fSuccess && on flags SCRIPT_VERIFY_NULLFAIL && (ikey2 =? 0)%nat && negb (length x =? 0)%nat
      then inr SCRIPT_ERR_SIG_NULLFAIL
      else clean_up fSuccess n (ikey2 - 1) s
    end
  end.

(** After the loop: clean up and push the result *)
Definition finish_multisig (opcode : Z) (st : eval_state) (nKeys nSigs : nat) (fSuccess : bool) : outcome step :=
  match clean_up fSuccess (nKeys + nSigs + 2) (nKeys + 2) (stack st) with
  | inr e => set_error e
  | inl [] => set_error SCRIPT_ERR_INVALID_STACK_OPERATION
  | inl (x :: s) =>
    if on flags SCRIPT_VERIFY_NULLDUMMY && negb (length x =? 0)%nat then set_error SCRIPT_ERR_SIG_NULLDUMMY
    else if opcode =? OP_CHECKMULTISIGVERIFY then
      if fSuccess then next_stack st s else set_error SCRIPT_ERR_CHECKMULTISIGVERIFY
    else next_stack st (of_bool fSuccess :: s)
  end.

Definition check_multisig (opcode : Z) (st : eval_state) (nKeysCount nSigsCount : nat) : outcome step :=
  let keys := take nKeysCount (drop 1 (stack st)) in
  let sigs := take nSigsCount (drop (nKeysCount + 2) (stack st)) in
  match drop_signatures (pbegincodehash st) sigs with
  | None => set_error SCRIPT_ERR_SIG_FINDANDDELETE
  | Some scriptCode =>
    r <-! multisig_loop scriptCode sigs keys ;
    match r with
    | inr e => set_error e
    | inl fSuccess => finish_multisig opcode st nKeysCount nSigsCount fSuccess
    end
  end.

Definition op_checkmultisig (opcode : Z) (st : eval_state) : outcome step :=
  match stack st with
  | [] => set_error SCRIPT_ERR_INVALID_STACK_OPERATION
  | x :: _ =>
    with_num x fRequireMinimal nDefaultMaxNumSize (fun m_value =>
      let nKeysCount := getint m_value in
      if (nKeysCount <? 0) || (MAX_PUBKEYS_PER_MULTISIG <? nKeysCount) then set_error SCRIPT_ERR_PUBKEY_COUNT
      else
        let st := mkEval (pc st) (pbegincodehash st) (stack st) (altstack st) (vfExec st) (nOpCount st + nKeysCount) in
        if MAX_OPS_PER_SCRIPT <? nOpCount st then set_error SCRIPT_ERR_OP_COUNT
        else match stack st !! Z.to_nat (nKeysCount + 1) with
        | None => set_error SCRIPT_ERR_INVALID_STACK_OPERATION
        | Some y =>
          with_num y fRequireMinimal nDefaultMaxNumSize (fun m_value =>
            let nSigsCount := getint m_value in
            if (nSigsCount <? 0) || (nKeysCount <? nSigsCount) then set_error SCRIPT_ERR_SIG_COUNT
            else if Z.of_nat (length (stack st)) <? nKeysCount + nSigsCount + 3
            then set_error SCRIPT_ERR_INVALID_STACK_OPERATION
            else check_multisig opcode st (Z.to_nat nKeysCount) (Z.to_nat nSigsCount))
        end)
  end.

Definition op_sender (st : eval_state) : outcome step :=
  if negb (on flags SCRIPT_OUTPUT_SENDER) then set_error SCRIPT_ERR_BAD_OPCODE else Ok (Next st).

(** ** One round of the loop *)

Definition is_disabled (opcode : Z) : bool :=
  existsb (Z.eqb opcode)
    [OP_CAT; OP_SUBSTR; OP_LEFT; OP_RIGHT; OP_INVERT; OP_AND; OP_OR; OP_XOR; OP_2MUL; OP_2DIV; OP_MUL; OP_DIV;
     OP_MOD; OP_LSHIFT; OP_RSHIFT].

Definition is_one_of (opcode : Z) (l : list Z) : bool := existsb (Z.eqb opcode) l.

(** The [switch] over the opcode *)
Definition eval_opcode (opcode : Z) (fExec : bool) (st : eval_state) : outcome step :=
  if (opcode =? OP_1NEGATE) || ((OP_1 <=? opcode) && (opcode <=? OP_16)) then op_push_value opcode st
  else if opcode =? OP_NOP then Ok (Next st)
  else if opcode =? OP_CHECKLOCKTIMEVERIFY then op_checklocktimeverify st
  else if opcode =? OP_CHECKSEQUENCEVERIFY then op_checksequenceverify st
  else if is_one_of opcode [OP_NOP1; OP_NOP4; OP_NOP5; OP_NOP6; OP_NOP7; OP_NOP8; OP_NOP9; OP_NOP10]
    then op_upgradable_nop st
  else if is_one_of opcode [OP_IF; OP_NOTIF] then op_if opcode fExec st
  else if opcode =? OP_ELSE then op_else st
  else if opcode =? OP_ENDIF then op_endif st
  else if opcode =? OP_VERIFY then op_verify st
  else if opcode =? OP_RETURN then set_error SCRIPT_ERR_OP_RETURN
  else if opcode =? OP_TOALTSTACK then op_toaltstack st
  else if opcode =? OP_FROMALTSTACK then op_fromaltstack st
  else if is_one_of opcode [OP_2DROP; OP_2DUP; OP_3DUP; OP_2OVER; OP_2ROT; OP_2SWAP; OP_IFDUP; OP_DEPTH; OP_DROP;
                            OP_DUP; OP_NIP; OP_OVER; OP_ROT; OP_SWAP; OP_TUCK; OP_SIZE] then op_shuffle opcode st
  else if is_one_of opcode [OP_PICK; OP_ROLL] then op_pick_roll fRequireMinimal opcode st
  else if is_one_of opcode [OP_EQUAL; OP_EQUALVERIFY] then op_equal opcode st
  else if is_one_of opcode [OP_1ADD; OP_1SUB; OP_NEGATE; OP_ABS; OP_NOT; OP_0NOTEQUAL]
    then op_unary fRequireMinimal opcode st
  else if is_one_of opcode [OP_ADD; OP_SUB; OP_BOOLAND; OP_BOOLOR; OP_NUMEQUAL; OP_NUMEQUALVERIFY; OP_NUMNOTEQUAL;
                            OP_LESSTHAN; OP_GREATERTHAN; OP_LESSTHANOREQUAL; OP_GREATERTHANOREQUAL; OP_MIN; OP_MAX]
    then op_binary fRequireMinimal opcode st
  else if opcode =? OP_WITHIN then op_within fRequireMinimal st
  else if is_one_of opcode [OP_RIPEMD160; OP_SHA1; OP_SHA256; OP_HASH160; OP_HASH256] then op_hashing opcode st
  else if opcode =? OP_CODESEPARATOR then op_codeseparator st
  else if is_one_of opcode [OP_CHECKSIG; OP_CHECKSIGVERIFY] then op_checksig opcode st
  else if is_one_of opcode [OP_CHECKMULTISIG; OP_CHECKMULTISIGVERIFY] then op_checkmultisig opcode st
  else if opcode =? OP_SENDER then op_sender st
  else if opcode =? OP_SPEND then Ok (RetTrue (stack st))
  else if is_one_of opcode [OP_CREATE; OP_CALL] then Ok (RetTrue ((opcode :: pc st) :: stack st))
  else set_error SCRIPT_ERR_BAD_OPCODE.

(** The limit on the stacks after each operation *)
Definition check_limit (r : step) : outcome step :=
  match r with
  | Next st =>
    if MAX_STACK_SIZE <? Z.of_nat (length (stack st) + length (altstack st)) then set_error SCRIPT_ERR_STACK_SIZE
    else Ok (Next st)
  | _ => Ok r
  end.

(** The push or the [switch] *)
Definition execute (opcode : Z) (vchPushValue : valtype) (fExec : bool) (st : eval_state) : outcome step :=
  r <-! (if fExec && (0 <=? opcode) && (opcode <=? OP_PUSHDATA4) then
           if fRequireMinimal && negb (CheckMinimalPush vchPushValue opcode) then set_error SCRIPT_ERR_MINIMALDATA
           else next_stack st (vchPushValue :: stack st)
         else if fExec || ((OP_IF <=? opcode) && (opcode <=? OP_ENDIF)) then eval_opcode opcode fExec st
         else Ok (Next st)) ;
  check_limit r.

(** The body of the loop: read an instruction and execute it *)
Definition eval_step (st : eval_state) : outcome step :=
  let fExec := forallb id (vfExec st) in
  match GetScriptOp (pc st) with
  | None => set_error SCRIPT_ERR_BAD_OPCODE
  | Some (opcode, vchPushValue, pc') =>
    if MAX_SCRIPT_ELEMENT_SIZE <? Z.of_nat (length vchPushValue) then set_error SCRIPT_ERR_PUSH_SIZE
    else
      let nOpCount' := if OP_16 <? opcode then nOpCount st + 1 else nOpCount st in
      if (OP_16 <? opcode) && (MAX_OPS_PER_SCRIPT <? nOpCount') then set_error SCRIPT_ERR_OP_COUNT
      else if is_disabled opcode then set_error SCRIPT_ERR_DISABLED_OPCODE
      else if (opcode =? OP_CODESEPARATOR) && bool_decide (sigversion = BASE) && on flags SCRIPT_VERIFY_CONST_SCRIPTCODE
      then set_error SCRIPT_ERR_OP_CODESEPARATOR
      else execute opcode vchPushValue fExec
             (mkEval pc' (pbegincodehash st) (stack st) (altstack st) (vfExec st) nOpCount')
  end.

(** Go on with [loop], or return *)
Definition after_step (loop : eval_state -> outcome eval_result) (r : step) : outcome eval_result :=
  match r with
  | Next st => loop st
  | RetTrue s => Ok (EvalTrue SCRIPT_ERR_UNKNOWN_ERROR s)
  | RetFalse e => Ok (EvalFalse e)
  end.

Fixpoint eval_loop (fuel : nat) (st : eval_state) : outcome eval_result :=
  match pc st with
  | [] =>
    Ok (match vfExec st with
        | [] => EvalTrue SCRIPT_ERR_OK (stack st)
        | _ => EvalFalse SCRIPT_ERR_UNBALANCED_CONDITIONAL
        end)
  | _ =>
    match fuel with
    | O => NoFuel
    | S fuel =>
      r <-! eval_step st ; after_step (eval_loop fuel) r
    end
  end.

Definition EvalScript (stack : list valtype) (script : CScript) : outcome eval_result :=
  if MAX_SCRIPT_SIZE <? Z.of_nat (length script) then Ok (EvalFalse SCRIPT_ERR_SCRIPT_SIZE)
  else eval_loop (length script) (mkEval script script stack [] [] 0).

End eval.

(** ** [VerifyScript] *)

Section verify.
Context {checker : BaseSignatureChecker} (CheckLowS : bytes -> bool) (flags : Z).

Definition p2wpkh_script (program : bytes) : CScript :=
  push_data [OP_DUP; OP_HASH160] program ++ [OP_EQUALVERIFY; OP_CHECKSIG].

(** The script a version 0 program stands for and its stack *)
Definition witness_script (witness : list bytes) (program : bytes) : (CScript * list valtype) + ScriptError :=
  if (length program =? WITNESS_V0_SCRIPTHASH_SIZE)%nat then
    match witness with
    | [] => inr SCRIPT_ERR_WITNESS_PROGRAM_WITNESS_EMPTY
    | _ =>
      let scriptPubKey := List.last witness [] in
      if negb (bytes_eqb (hash_of OP_SHA256 scriptPubKey) program) then inr SCRIPT_ERR_WITNESS_PROGRAM_MISMATCH
      else inl (scriptPubKey, rev (removelast witness))
    end
  else if (length program =? WITNESS_V0_KEYHASH_SIZE)%nat then
    if negb (length witness =? 2)%nat then inr SCRIPT_ERR_WITNESS_PROGRAM_MISMATCH
    else inl (p2wpkh_script program, rev witness)
  else inr SCRIPT_ERR_WITNESS_PROGRAM_WRONG_LENGTH.

Definition VerifyWitnessProgram (witness : list bytes) (witversion : Z) (program : bytes) : outcome (option ScriptError) :=
  if negb (witversion =? 0) then
    if on flags SCRIPT_VERIFY_DISCOURAGE_UPGRADABLE_WITNESS_PROGRAM
    then Ok (Some SCRIPT_ERR_DISCOURAGE_UPGRADABLE_WITNESS_PROGRAM)
    else Ok None
  else match witness_script witness program with
  | inr e => Ok (Some e)
  | inl (scriptPubKey, stack) =>
    if existsb (fun x => MAX_SCRIPT_ELEMENT_SIZE <? Z.of_nat (length x)) stack then Ok (Some SCRIPT_ERR_PUSH_SIZE)
    else
      r <-! EvalScript CheckLowS flags WITNESS_V0 stack scriptPubKey ;
      match r with
      | EvalFalse e => Ok (Some e)
      | EvalTrue _ [x] => Ok (if CastToBool x then None else Some SCRIPT_ERR_EVAL_FALSE)
      | EvalTrue _ _ => Ok (Some SCRIPT_ERR_CLEANSTACK)
      end
  end.

(** [EvalScript] and the test of its result: the stack with a true top *)
Definition eval_true (stack : list valtype) (script : CScript) : outcome (list valtype + ScriptError) :=
  r <-! EvalScript CheckLowS flags BASE stack script ;
  match r with
  | EvalFalse e => Ok (inr e)
  | EvalTrue _ [] => Ok (inr SCRIPT_ERR_EVAL_FALSE)
  | EvalTrue _ ((x :: _) as s) => Ok (if CastToBool x then inl s else inr SCRIPT_ERR_EVAL_FALSE)
  end.

(** [stack.resize(1)] *)
Definition resize1 (s : list valtype) : list valtype := [List.last s []].

(** A witness program in [script], which [malleated] rejects where the
    scriptSig is not the one that has to go with it: [hadWitness] and the stack *)
Definition verify_witness (script : CScript) (witness : list bytes) (malleated : option ScriptError)
    (stack : list valtype) : outcome (bool * list valtype + ScriptError) :=
  if on flags SCRIPT_VERIFY_WITNESS then
    match IsWitnessProgram script with
    | None => Ok (inl (false, stack))
    | Some (witnessversion, witnessprogram) =>
      match malleated with
      | Some e => Ok (inr e)
      | None =>
        r <-! VerifyWitnessProgram witness witnessversion witnessprogram ;
        match r with
        | Some e => Ok (inr e)
        | None => Ok (inl (true, resize1 stack))
        end
      end
    end
  else Ok (inl (false, stack)).

(** The additional validation of a pay-to-script-hash output *)
Definition verify_p2sh (scriptSig : CScript) (witness : list bytes) (stackCopy : list valtype) :
    outcome (bool * list valtype + ScriptError) :=
  if negb (IsPushOnly scriptSig) then Ok (inr SCRIPT_ERR_SIG_PUSHONLY)
  else match stackCopy with
  | [] => Fail
  | pubKey2 :: stack =>
    r <-! eval_true stack pubKey2 ;
    match r with
    | inr e => Ok (inr e)
    | inl stack =>
      verify_witness pubKey2 witness
        (if bytes_eqb scriptSig (push_data [] pubKey2) then None else Some SCRIPT_ERR_WITNESS_MALLEATED_P2SH) stack
    end
  end.

(** The checks at the end *)
Definition final_checks (witness : list bytes) (hadWitness : bool) (stack : list valtype) : outcome (option ScriptError) :=
  if on flags SCRIPT_VERIFY_CLEANSTACK && negb (on flags SCRIPT_VERIFY_P2SH && on flags SCRIPT_VERIFY_WITNESS) then Fail
  else if on flags SCRIPT_VERIFY_CLEANSTACK && negb (length stack =? 1)%nat then Ok (Some SCRIPT_ERR_CLEANSTACK)
  else if on flags SCRIPT_VERIFY_WITNESS then
    if negb (on flags SCRIPT_VERIFY_P2SH) then Fail
    else if negb hadWitness && negb (length witness =? 0)%nat then Ok (Some SCRIPT_ERR_WITNESS_UNEXPECTED)
    else Ok None
  else Ok None.

Definition VerifyScript (scriptSig scriptPubKey : CScript) (witness : option (list bytes)) : outcome (option ScriptError) :=
  let witness := default [] witness in
  if on flags SCRIPT_VERIFY_SIGPUSHONLY && negb (IsPushOnly scriptSig) then Ok (Some SCRIPT_ERR_SIG_PUSHONLY)
  else
    r <-! EvalScript CheckLowS flags BASE [] scriptSig ;
    match r with
    | EvalFalse e => Ok (Some e)
    | EvalTrue _ stackCopy =>
      r <-! eval_true stackCopy scriptPubKey ;
      match r with
      | inr e => Ok (Some e)
      | inl stack =>
        r <-! verify_witness scriptPubKey witness
                (if (length scriptSig =? 0)%nat then None else Some SCRIPT_ERR_WITNESS_MALLEATED) stack ;
        match r with
        | inr e => Ok (Some e)
        | inl (hadWitness, stack) =>
          if on flags SCRIPT_VERIFY_P2SH && IsPayToScriptHash scriptPubKey then
            r <-! verify_p2sh scriptSig witness stackCopy ;
            match r with
            | inr e => Ok (Some e)
            | inl (had, stack) => final_checks witness (hadWitness || had) stack
            end
          else final_checks witness hadWitness stack
        end
      end
    end.

End verify.

(** ** Signature operations of a witness *)

Definition WitnessSigOps (witversion : Z) (witprogram : bytes) (witness : list bytes) : Z :=
  if witversion =? 0 then
    if (length witprogram =? WITNESS_V0_KEYHASH_SIZE)%nat then 1
    else if (length witprogram =? WITNESS_V0_SCRIPTHASH_SIZE)%nat && (0 <? length witness)%nat
    then GetSigOpCount (List.last witness []) true
    else 0
  else 0.

Definition CountWitnessSigOps (scriptSig scriptPubKey : CScript) (witness : option (list bytes)) (flags : Z) : outcome Z :=
  if negb (on flags SCRIPT_VERIFY_WITNESS) then Ok 0
  else if negb (on flags SCRIPT_VERIFY_P2SH) then Fail
  else match IsWitnessProgram scriptPubKey with
  | Some (witnessversion, witnessprogram) => Ok (WitnessSigOps witnessversion witnessprogram (default [] witness))
  | None =>
    if IsPayToScriptHash scriptPubKey && IsPushOnly scriptSig then
      let data := List.last (map op_data (fst (ops scriptSig))) [] in
      match IsWitnessProgram data with
      | Some (witnessversion, witnessprogram) => Ok (WitnessSigOps witnessversion witnessprogram (default [] witness))
      | None => Ok 0
      end
    else Ok 0
  end.

(** * Correctness *)

(** ** Values *)

Lemma on_spec flags k : 0 <= k -> on flags (Z.shiftl 1 k) = Z.testbit flags k.
Proof.
  intros Hk. unfold on. rewrite Z.shiftl_1_l.
  destruct (Z.testbit flags k) eqn:E.
  - apply negb_true_iff, Z.eqb_neq. intros E0.
    assert (Hb : Z.testbit (Z.land flags (2 ^ k)) k = true) by (by rewrite Z.land_spec, E, Z.pow2_bits_true).
    by rewrite E0, Z.bits_0 in Hb.
  - apply negb_false_iff, Z.eqb_eq, Z.bits_inj'. intros i Hi. rewrite Z.land_spec, Z.pow2_bits_eqb, Z.bits_0 by done.
    destruct (Z.eqb_spec k i) as [<-|]; [by rewrite E|by rewrite andb_false_r].
Qed.

Lemma num_range v b max n :
  bytes_ok v -> CScriptNum v b max = Num n -> 1 <= max <= 5 -> - 2 ^ (8 * max - 1) < n < 2 ^ (8 * max - 1).
Proof.
  intros Hv E Hmax. unfold CScriptNum in E.
  destruct (Z.ltb_spec max (Z.of_nat (length v))); [done|]. case_match; [done|]. injection E as <-.
  destruct (decide (v = [])) as [->|Hne].
  { cbn [length] in *. change (set_vch []) with 0.
    pose proof (Zpow2_pos (8 * max - 1) ltac:(lia)). lia. }
  destruct (bytes_snoc v Hne) as (u & t & -> & _). rewrite length_app in *. cbn [length] in *.
  apply Forall_app in Hv as [Hu Ht]. inversion Ht as [|? ? Ht' _]; subst.
  rewrite set_vch_app by (done || lia). pose proof (le_val_range u Hu) as Hr.
  assert (Hp : 128 * 2 ^ (8 * Z.of_nat (length u)) <= 2 ^ (8 * max - 1)).
  { change 128 with (2 ^ 7). rewrite <- Z.pow_add_r by lia. apply Z.pow_le_mono_r; lia. }
  unfold in_u in Ht'. destruct (Z.ltb_spec t 128); nia.
Qed.

Lemma serialize_ok n : - 2 ^ 63 < n < 2 ^ 63 -> bytes_ok (scriptnum_serialize n) /\ (length (scriptnum_serialize n) <= 8)%nat.
Proof.
  intros Hn. destruct (decide (n = 0)) as [->|Hnz]; [split; [constructor|cbn; lia]|].
  destruct (scriptnum_serialize_shape n Hnz Hn) as (u & t & Hu & Ht & _ & Hl & _ & Hbig & ->).
  unfold in_u, sign_bit in *.
  assert (Hs : 0 <= (if n <? 0 then 128 else 0) <= 128) by (case_match; lia).
  destruct (Z.leb_spec 128 t); rewrite length_app; (split; [apply Forall_app; split; [done|]|cbn [length]; lia]);
    repeat constructor; unfold in_u; lia.
Qed.

Lemma u8_ok x : in_u 8 (u8 x).
Proof. unfold in_u, wrap. apply Z.mod_pos_bound. lia. Qed.

Ltac output_ok :=
  intros; split; [|reflexivity];
  repeat apply Forall_app_2; unfold WriteBE32, arith_uint256.WriteLE32; repeat (constructor; [apply u8_ok|]); constructor.

Lemma sha256_output_ok s : bytes_ok (Sha256.output s) /\ length (Sha256.output s) = 32%nat.
Proof. output_ok. Qed.

Lemma sha1_output_ok s : bytes_ok (Sha1.output s) /\ length (Sha1.output s) = 20%nat.
Proof. output_ok. Qed.

Lemma ripemd160_output_ok s : bytes_ok (Ripemd160.output s) /\ length (Ripemd160.output s) = 20%nat.
Proof. output_ok. Qed.

Lemma hash_of_ok opcode vch :
  bytes_ok (hash_of opcode vch) /\
  length (hash_of opcode vch) =
    (if is_one_of opcode [OP_RIPEMD160; OP_SHA1] then 20
     else if is_one_of opcode [OP_SHA256] then 32 else if is_one_of opcode [OP_HASH160] then 20 else 32)%nat.
Proof.
  unfold hash_of, is_one_of. cbn [existsb].
  destruct (opcode =? OP_RIPEMD160); [apply ripemd160_output_ok|].
  destruct (opcode =? OP_SHA1); [apply sha1_output_ok|].
  destruct (opcode =? OP_SHA256); [apply sha256_output_ok|].
  destruct (opcode =? OP_HASH160); [apply ripemd160_output_ok|apply sha256_output_ok].
Qed.

(** ** The type of the state and the limits *)

Create HintDb eval.

Lemma eval_loop_unfold `{BaseSignatureChecker} CheckLowS flags sigversion fuel st :
  eval_loop CheckLowS flags sigversion fuel st =
  match pc st with
  | [] =>
    Ok (match vfExec st with
        | [] => EvalTrue SCRIPT_ERR_OK (stack st)
        | _ => EvalFalse SCRIPT_ERR_UNBALANCED_CONDITIONAL
        end)
  | _ =>
    match fuel with
    | O => NoFuel
    | S fuel =>
      r <-! eval_step CheckLowS flags sigversion st ; after_step (eval_loop CheckLowS flags sigversion fuel) r
    end
  end.
Proof. by destruct fuel. Qed.

(** A checker whose functions return *)
Class CheckerTotal (checker : BaseSignatureChecker) : Prop := {
  CheckSig_total sig key code v : exists b, CheckSig sig key code v = Ok b;
  CheckLockTime_total n : exists b, CheckLockTime n = Ok b;
  CheckSequence_total n : exists b, CheckSequence n = Ok b }.

Section limits.
(** Bounds on the size of the elements and on their number *)
Context (M N : Z) (HM : MAX_SCRIPT_ELEMENT_SIZE <= M <= MAX_SCRIPT_SIZE) (HN : MAX_STACK_SIZE <= N < 2 ^ 62).

Definition elem_ok (x : valtype) : Prop := bytes_ok x /\ Z.of_nat (length x) <= M.

Record typed (st : eval_state) : Prop := {
  typed_pc : bytes_ok (pc st);
  typed_code : bytes_ok (pbegincodehash st);
  typed_stack : Forall elem_ok (stack st);
  typed_altstack : Forall elem_ok (altstack st);
  typed_ops : 0 <= nOpCount st <= MAX_OPS_PER_SCRIPT }.

Definition within_limit (st : eval_state) : Prop :=
  Z.of_nat (length (stack st) + length (altstack st)) <= N.

(** What [EvalScript] may leave on the stack: the rest of a script that
    [OP_CREATE] or [OP_CALL] pushes comes on top of the limits. *)
Definition result_ok (s : list valtype) : Prop :=
  Forall (fun x => bytes_ok x /\ Z.of_nat (length x) <= MAX_SCRIPT_SIZE) s /\ Z.of_nat (length s) <= N + 1.

(** An operation that ends without a failed assertion in a state of the type *)
Definition fine (st : eval_state) (r : outcome step) : Prop :=
  match r with
  | Ok (Next st') => typed st' /\ pc st' = pc st
  | Ok (RetTrue s) => result_ok s
  | Ok (RetFalse _) => True
  | Fail | NoFuel => False
  end.

Lemma elem_ok_weaken s : Forall elem_ok s -> Forall (fun x => bytes_ok x /\ Z.of_nat (length x) <= MAX_SCRIPT_SIZE) s.
Proof. intros H. eapply List.Forall_impl; [|exact H]. intros x [? ?]. split; [done|lia]. Qed.

Lemma elem_ok_num n : - 2 ^ 63 < n < 2 ^ 63 -> elem_ok (scriptnum_serialize n).
Proof. intros Hn. destruct (serialize_ok n Hn). split; [done|]. unfold MAX_SCRIPT_ELEMENT_SIZE in *. lia. Qed.

Lemma elem_ok_bool b : elem_ok (of_bool b).
Proof. split; [|unfold MAX_SCRIPT_ELEMENT_SIZE in *; destruct b; cbn; lia]. destruct b; repeat constructor; unfold in_u; lia. Qed.

Lemma elem_ok_hash opcode x : elem_ok (hash_of opcode x).
Proof. destruct (hash_of_ok opcode x) as [? E]. split; [done|]. rewrite E. unfold MAX_SCRIPT_ELEMENT_SIZE in *. repeat case_match; lia. Qed.

Lemma elem_ok_len x : elem_ok x -> elem_ok (scriptnum_serialize (Z.of_nat (length x))).
Proof. intros [_ H]. apply elem_ok_num. unfold MAX_SCRIPT_SIZE in *. lia. Qed.

Lemma fine_error st e : fine st (set_error e).
Proof. done. Qed.

Lemma fine_same st : typed st -> fine st (Ok (Next st)).
Proof. done. Qed.

Lemma fine_stack st s : typed st -> Forall elem_ok s -> fine st (next_stack st s).
Proof. intros [] ?. done. Qed.

Lemma fine_num st x b max k :
  elem_ok x -> 1 <= max <= 5 -> (forall n, - 2 ^ (8 * max - 1) < n < 2 ^ (8 * max - 1) -> fine st (k n)) ->
  fine st (with_num x b max k).
Proof.
  intros [Hx _] Hmax Hk. unfold with_num. destruct (CScriptNum x b max) as [n|] eqn:E; [|done].
  apply Hk. by eapply num_range.
Qed.

#[local] Hint Resolve fine_error fine_same fine_stack elem_ok_num elem_ok_bool elem_ok_hash elem_ok_len : eval.
#[local] Hint Constructors Forall : eval.

(** The cases of a match on the stack, with what is known of its elements *)
Ltac stack_cases :=
  repeat match goal with
  | H : Forall elem_ok (_ :: _) |- _ => apply Forall_cons_1 in H as [? H]
  | |- context [match ?s with [] => _ | _ :: _ => _ end] => destruct s
  end.

(** The state by its fields *)
Ltac open_state H :=
  let Hp := fresh "Hp" in let Hc := fresh "Hc" in let Hs := fresh "Hs" in
  let Ha := fresh "Ha" in let Ho := fresh "Ho" in
  pose proof H as [Hp Hc Hs Ha Ho].

Lemma shuffle_ok opcode s s' :
  Forall elem_ok s -> Z.of_nat (length s) <= N -> shuffle opcode s = Some s' -> Forall elem_ok s'.
Proof.
  intros Hs Hl E.
  assert (Hd : elem_ok (scriptnum_serialize (Z.of_nat (length s))))
    by (apply elem_ok_num; unfold MAX_STACK_SIZE in HN; lia).
  clear Hl. unfold shuffle in E.
  repeat (destruct (opcode =? _); [repeat (destruct s as [|? s]; [discriminate E|]);
    repeat match goal with H : Forall elem_ok (_ :: _) |- _ => apply Forall_cons_1 in H as [? H] end;
    try injection E as <-; repeat case_match; eauto 10 with eval|]).
  destruct s as [|? s]; [discriminate E|]. injection E as <-.
  pose proof Hs as [? ?]%Forall_cons_1. eauto with eval.
Qed.

Lemma unary_range opcode n :
  is_one_of opcode [OP_1ADD; OP_1SUB; OP_NEGATE; OP_ABS; OP_NOT; OP_0NOTEQUAL] = true ->
  - 2 ^ 31 < n < 2 ^ 31 -> exists m, unary opcode n = Ok m /\ - 2 ^ 63 < m < 2 ^ 63.
Proof.
  intros Ho Hn. unfold unary, num_incr, num_decr, num_neg, is_one_of in *. cbn [existsb] in Ho.
  repeat (destruct (opcode =? _); [decide_tests; cbn [orb andb];
    try (case_match; bool_to_prop); eexists; (split; [reflexivity|]); try lia; destruct (n =? 0); cbn; lia|]).
  discriminate Ho.
Qed.

Lemma binary_range opcode a b :
  is_one_of opcode [OP_ADD; OP_SUB; OP_BOOLAND; OP_BOOLOR; OP_NUMEQUAL; OP_NUMEQUALVERIFY; OP_NUMNOTEQUAL;
    OP_LESSTHAN; OP_GREATERTHAN; OP_LESSTHANOREQUAL; OP_GREATERTHANOREQUAL; OP_MIN; OP_MAX] = true ->
  - 2 ^ 31 < a < 2 ^ 31 -> - 2 ^ 31 < b < 2 ^ 31 ->
  exists m, binary opcode a b = Ok m /\ - 2 ^ 63 < m < 2 ^ 63.
Proof.
  intros Ho Ha Hb. unfold binary, num_add, num_sub, is_one_of in *. cbn [existsb] in Ho.
  assert (Hbool : forall c, - 2 ^ 63 < Z.b2z c < 2 ^ 63) by (intros []; cbn; lia).
  repeat (destruct (opcode =? _); [eexists; (split; [reflexivity|]); try apply Hbool;
    rewrite ?swrap_small by (unfold in_s; lia); try (case_match; lia); lia|]).
  discriminate Ho.
Qed.

(** The operations of the state machine alone *)
Lemma op_else_fine st : typed st -> fine st (op_else st).
Proof. intros []. unfold op_else. by case_match. Qed.

Lemma op_endif_fine st : typed st -> fine st (op_endif st).
Proof. intros []. unfold op_endif. by case_match. Qed.

Lemma op_verify_fine st : typed st -> fine st (op_verify st).
Proof. intros H. open_state H. unfold op_verify. stack_cases; [done|]. case_match; eauto with eval. Qed.

Lemma op_altstack_fine st : typed st -> fine st (op_toaltstack st) /\ fine st (op_fromaltstack st).
Proof.
  intros []. unfold op_toaltstack, op_fromaltstack.
  split; stack_cases; try done; (split; [|done]); constructor; cbn; eauto with eval.
Qed.

Lemma op_shuffle_fine opcode st : typed st -> within_limit st -> fine st (op_shuffle opcode st).
Proof.
  intros H Hl. open_state H. unfold op_shuffle. destruct (shuffle _ _) eqn:E; [|done].
  apply fine_stack; [done|]. eapply shuffle_ok; [..|exact E]; [done|]. unfold within_limit in Hl. lia.
Qed.

Lemma op_equal_fine opcode st : typed st -> fine st (op_equal opcode st).
Proof. intros H. open_state H. unfold op_equal. stack_cases; try done. repeat case_match; eauto with eval. Qed.

Lemma op_hashing_fine opcode st : typed st -> fine st (op_hashing opcode st).
Proof. intros H. open_state H. unfold op_hashing. stack_cases; [done|]. eauto with eval. Qed.

Lemma op_pick_roll_fine b opcode st : typed st -> fine st (op_pick_roll b opcode st).
Proof.
  intros H. open_state H. unfold op_pick_roll. destruct (stack st) as [|x [|y s]]; try done.
  apply Forall_cons_1 in Hs as [? Hs]. apply fine_num; [done|done|]. intros n Hn. case_match; [done|].
  destruct (_ !! _) as [z|] eqn:E; [|done]. apply fine_stack; [done|]. constructor.
  - eapply Forall_lookup_1; [exact Hs|exact E].
  - case_match; [by apply Forall_delete|done].
Qed.

Lemma op_unary_fine b opcode st :
  is_one_of opcode [OP_1ADD; OP_1SUB; OP_NEGATE; OP_ABS; OP_NOT; OP_0NOTEQUAL] = true ->
  typed st -> fine st (op_unary b opcode st).
Proof.
  intros Ho H. open_state H. unfold op_unary. stack_cases; [done|]. apply fine_num; [done|done|]. intros n Hn.
  destruct (unary_range opcode n Ho Hn) as (m & -> & ?). cbn [obind]. eauto with eval.
Qed.

Lemma op_binary_fine b opcode st :
  is_one_of opcode [OP_ADD; OP_SUB; OP_BOOLAND; OP_BOOLOR; OP_NUMEQUAL; OP_NUMEQUALVERIFY; OP_NUMNOTEQUAL;
    OP_LESSTHAN; OP_GREATERTHAN; OP_LESSTHANOREQUAL; OP_GREATERTHANOREQUAL; OP_MIN; OP_MAX] = true ->
  typed st -> fine st (op_binary b opcode st).
Proof.
  intros Ho H. open_state H. unfold op_binary. stack_cases; try done.
  apply fine_num; [done|done|]. intros n1 Hn1. apply fine_num; [done|done|]. intros n2 Hn2.
  destruct (binary_range opcode n1 n2 Ho Hn1 Hn2) as (m & -> & ?). cbn [obind]. repeat case_match; eauto with eval.
Qed.

Lemma op_within_fine b st : typed st -> fine st (op_within b st).
Proof.
  intros H. open_state H. unfold op_within. stack_cases; try done.
  repeat (apply fine_num; [done|done|]; intros ? ?). eauto with eval.
Qed.

(** ** Totality of the interpreter *)

Section totality.
Context `{!CheckerTotal checker} (CheckLowS : bytes -> bool) (flags : Z) (sigversion : SigVersion).

Lemma op_locktime_fine st : typed st -> fine st (op_checklocktimeverify flags st) /\ fine st (op_checksequenceverify flags st).
Proof.
  intros H. open_state H. unfold op_checklocktimeverify, op_checksequenceverify.
  split; (case_match; [by eauto with eval|]); (stack_cases; [done|]);
    (apply fine_num; [done|lia|]; intros n Hn; case_match; [done|]).
  - destruct (CheckLockTime_total n) as [[] ->]; cbn; eauto with eval.
  - case_match; [by eauto with eval|]. destruct (CheckSequence_total n) as [[] ->]; cbn; eauto with eval.
Qed.

Lemma op_if_fine opcode fExec st : typed st -> fine st (op_if flags sigversion opcode fExec st).
Proof. intros H. open_state H. unfold op_if. case_match; [|done]. stack_cases; [done|]. by case_match. Qed.

Lemma op_checksig_fine opcode st : typed st -> fine st (op_checksig CheckLowS flags sigversion opcode st).
Proof.
  intros H. open_state H. unfold op_checksig. destruct (stack st) as [|key [|sig s]]; try done.
  apply Forall_cons_1 in Hs as [_ Hs]. apply Forall_cons_1 in Hs as [_ Hs].
  destruct (drop_signature _ _ _ _) as [code|]; [|done]. destruct (check_encodings _ _ _ _ _); [done|].
  destruct (CheckSig_total sig key code sigversion) as [[] ->]; cbn [obind]; repeat case_match; eauto with eval.
Qed.

Lemma multisig_loop_total code sigs keys : exists r, multisig_loop CheckLowS flags sigversion code sigs keys = Ok r.
Proof.
  revert sigs. induction keys as [|key keys IH]; intros [|sig sigs]; cbn [multisig_loop]; try by eexists.
  case_match; [by eexists|]. destruct (CheckSig_total sig key code sigversion) as [b ->]. cbn [obind].
  case_match; [by eexists|]. apply IH.
Qed.

Lemma clean_up_suffix fSuccess n ikey2 s s' : clean_up flags fSuccess n ikey2 s = inl s' -> s' = drop n s.
Proof.
  revert ikey2 s. induction n as [|n IH]; intros ikey2 s E; cbn [clean_up] in E; [by injection E as <-|].
  destruct s; [done|]. case_match; [done|]. by apply IH in E.
Qed.

Lemma check_multisig_fine opcode st nKeys nSigs :
  typed st -> fine st (check_multisig CheckLowS flags sigversion opcode st nKeys nSigs).
Proof.
  intros H. open_state H. unfold check_multisig, finish_multisig. destruct (drop_signatures _ _ _ _) as [code|]; [|done].
  destruct (multisig_loop_total code (take nSigs (drop (nKeys + 2) (stack st))) (take nKeys (drop 1 (stack st)))) as [[b|] ->];
    [|done]. cbn [obind].
  destruct (clean_up _ _ _ _ _) as [s|] eqn:E; [|done]. apply clean_up_suffix in E.
  assert (Hd : Forall elem_ok s) by (subst; by apply Forall_drop). clear E. stack_cases; [done|].
  repeat case_match; eauto with eval.
Qed.

Lemma op_checkmultisig_fine opcode st : typed st -> fine st (op_checkmultisig CheckLowS flags sigversion opcode st).
Proof.
  intros H. open_state H. unfold op_checkmultisig.
  destruct (stack st) as [|x s] eqn:Es; [done|]. pose proof Hs as [Hx _]%Forall_cons_1.
  apply fine_num; [done|done|]. intros n Hn. cbn zeta. case_match; [done|]. cbn [nOpCount stack]. case_match; [done|].
  destruct ((x :: s) !! _) as [y|] eqn:Ey; [|done].
  assert (Hy : elem_ok y) by (eapply Forall_lookup_1; [exact Hs|exact Ey]).
  apply fine_num; [done|done|]. intros m Hm. cbn zeta. repeat (case_match; [done|]).
  eapply (check_multisig_fine opcode (mkEval _ _ _ _ _ _)). bool_to_prop. unfold getint in *.
  constructor; cbn; try done. repeat case_match; bool_to_prop; lia.
Qed.

Lemma eval_opcode_fine opcode fExec st :
  typed st -> within_limit st -> in_u 8 opcode -> Z.of_nat (length (pc st)) < MAX_SCRIPT_SIZE ->
  fine st (eval_opcode CheckLowS flags sigversion opcode fExec st).
Proof.
  intros H Hl Hop Hpc. unfold eval_opcode. pose proof (op_locktime_fine st H) as [? ?].
  pose proof (op_altstack_fine st H) as [? ?].
  assert (Hres : result_ok (stack st)).
  { split; [by apply elem_ok_weaken, typed_stack|]. unfold within_limit in Hl. lia. }
  destruct ((opcode =? OP_1NEGATE) || _).
  { apply fine_stack; [done|]. constructor; [|by apply typed_stack]. apply elem_ok_num. unfold in_u, OP_1 in *. lia. }
  repeat match goal with
  | |- fine _ (if ?b then _ else _) => destruct b eqn:?;
     [try (by eauto using op_if_fine, op_else_fine, op_endif_fine, op_verify_fine, op_shuffle_fine, op_pick_roll_fine,
             op_equal_fine, op_unary_fine, op_binary_fine, op_within_fine, op_hashing_fine, op_checksig_fine,
             op_checkmultisig_fine with eval)|]
  end; try done.
  - unfold op_upgradable_nop. case_match; eauto with eval.
  - destruct H. split; [constructor; done|done].
  - unfold op_sender. case_match; eauto with eval.
  - destruct Hres as [Hf Hn]. split.
    + constructor; [|done]. destruct H. split; [by constructor|]. cbn [length]. lia.
    + cbn [length]. unfold within_limit in Hl. lia.
Qed.

Lemma execute_fine opcode d fExec st :
  typed st -> within_limit st -> in_u 8 opcode -> elem_ok d -> Z.of_nat (length (pc st)) < MAX_SCRIPT_SIZE ->
  fine st (execute CheckLowS flags sigversion opcode d fExec st) /\
  forall st', execute CheckLowS flags sigversion opcode d fExec st = Ok (Next st') -> within_limit st'.
Proof.
  intros H Hl Hop Hd Hpc. unfold execute. set (r := if _ : bool then _ else _).
  assert (Hr : fine st r).
  { unfold r. case_match; [case_match; [done|]|].
    - apply fine_stack; [done|]. constructor; [done|by apply typed_stack].
    - case_match; [by apply eval_opcode_fine|done]. }
  destruct r as [[st'|s|e]| |]; try done; cbn [obind check_limit].
  case_match; [done|]. split; [exact Hr|]. intros st'' [= <-]. bool_to_prop. unfold within_limit. lia.
Qed.

Lemma GetScriptOp_typed l o d r : bytes_ok l -> GetScriptOp l = Some (o, d, r) -> in_u 8 o /\ bytes_ok d /\ bytes_ok r.
Proof.
  intros Hl E. unfold GetScriptOp in E. destruct l as [|x l]; [done|]. apply Forall_cons_1 in Hl as [Hx Hl].
  destruct (x <=? OP_PUSHDATA4); [|injection E as <- <- <-; split_and!; [done|constructor|done]].
  unfold read_size in E. repeat case_match; try done; simplify_eq;
    (split_and!; [done|by repeat first [apply Forall_take | apply Forall_drop]..]).
Qed.

Definition step_ok (st : eval_state) (r : outcome step) : Prop :=
  match r with
  | Ok (Next st') => typed st' /\ within_limit st' /\ (length (pc st') < length (pc st))%nat
  | Ok (RetTrue s) => result_ok s
  | Ok (RetFalse _) => True
  | Fail | NoFuel => False
  end.

Lemma eval_step_ok st :
  typed st -> within_limit st -> Z.of_nat (length (pc st)) <= MAX_SCRIPT_SIZE ->
  step_ok st (eval_step CheckLowS flags sigversion st).
Proof.
  intros H Hl Hpc. open_state H. unfold eval_step. destruct (GetScriptOp (pc st)) as [[[o d] r]|] eqn:E; [|done].
  destruct (GetScriptOp_typed _ _ _ _ Hp E) as (Ho8 & Hd & Hr). pose proof (GetScriptOp_shrinks _ _ _ _ E) as Hlt.
  destruct (_ <? _) eqn:Esz; [done|]. cbn zeta. destruct (_ && _) eqn:Eops; [done|].
  destruct (is_disabled o); [done|]. destruct (_ && on _ _); [done|].
  set (st1 := mkEval r _ _ _ _ _).
  assert (H1 : typed st1).
  { constructor; try done. cbn [nOpCount st1].
    destruct (OP_16 <? o); cbn [andb] in Eops; bool_to_prop; lia. }
  destruct (execute_fine o d (forallb id (vfExec st)) st1 H1) as [Hf Hlim]; [done|done| |cbn; lia|].
  { split; [done|]. bool_to_prop. lia. }
  destruct (execute _ _ _ _ _ _ _) as [[st'|s|e]| |]; try done. destruct Hf as [Ht Epc].
  split_and!; [done|by apply Hlim|]. rewrite Epc. exact Hlt.
Qed.

Lemma eval_loop_total fuel st :
  typed st -> within_limit st -> Z.of_nat (length (pc st)) <= MAX_SCRIPT_SIZE -> (length (pc st) <= fuel)%nat ->
  exists r, eval_loop CheckLowS flags sigversion fuel st = Ok r /\
    forall e s, r = EvalTrue e s -> result_ok s.
Proof.
  revert st. induction fuel as [|fuel IH]; intros st H Hl Hpc Hfuel; cbn [eval_loop].
  all: destruct (pc st) as [|x l] eqn:Epc; [eexists; split; [done|]; intros e s Es; case_match; simplify_eq; split;
    [by apply elem_ok_weaken, typed_stack|unfold within_limit in Hl; lia]|].
  { cbn in Hfuel. lia. }
  pose proof (eval_step_ok st H Hl ltac:(rewrite Epc; exact Hpc)) as Hs.
  destruct (eval_step _ _ _ st) as [[st'|s|e]| |]; try done; cbn [obind step_ok after_step] in *.
  - destruct Hs as (Ht & Hlim & Hlt). rewrite Epc in Hlt. apply IH; [done|done|lia|lia].
  - eexists. split; [done|]. by intros ? ? [= _ <-].
  - eexists. split; [done|]. done.
Qed.

Lemma EvalScript_ok s script :
  bytes_ok script -> Forall elem_ok s -> Z.of_nat (length s) <= N ->
  exists r, EvalScript CheckLowS flags sigversion s script = Ok r /\ forall e s', r = EvalTrue e s' -> result_ok s'.
Proof.
  intros Hb Hs Hl. unfold EvalScript. case_match; [by eexists|]. bool_to_prop.
  apply eval_loop_total; [constructor; done| |done|done]. unfold within_limit. cbn. lia.
Qed.

End totality.

End limits.

(** ** [VerifyScript] returns *)

(** The combinations of flags that the assertions of [VerifyScript] allow *)
Definition flags_ok (flags : Z) : Prop :=
  (on flags SCRIPT_VERIFY_WITNESS = true -> on flags SCRIPT_VERIFY_P2SH = true) /\
  (on flags SCRIPT_VERIFY_CLEANSTACK = true ->
   on flags SCRIPT_VERIFY_P2SH = true /\ on flags SCRIPT_VERIFY_WITNESS = true).

Definition witness_ok (witness : list bytes) : Prop :=
  Forall bytes_ok witness /\ Z.of_nat (length witness) < 2 ^ 62.

(** A pay-to-script-hash script fails on the empty stack. *)
Lemma p2sh_empty_stack `{BaseSignatureChecker} CheckLowS flags script :
  IsPayToScriptHash script = true ->
  EvalScript CheckLowS flags BASE [] script = Ok (EvalFalse SCRIPT_ERR_INVALID_STACK_OPERATION).
Proof.
  intros Hs. unfold IsPayToScriptHash in Hs. bool_to_prop. destruct Hs as [[[Hl H0] _] _].
  unfold EvalScript. rewrite Hl. destruct script as [|x script]; [done|].
  cbn in H0. subst x. reflexivity.
Qed.

Section verify_total.
Context `{!CheckerTotal checker} (CheckLowS : bytes -> bool) (flags : Z) (witness : list bytes) (Hw : witness_ok witness).

Lemma Forall_rev_bytes (P : bytes -> Prop) l : Forall P l -> Forall P (rev l).
Proof. intros H. apply List.Forall_forall. intros x Hx%in_rev. revert x Hx. by apply List.Forall_forall. Qed.

Lemma Forall_removelast (P : bytes -> Prop) l : Forall P l -> Forall P (removelast l).
Proof. intros H. rewrite removelast_firstn_len. by apply Forall_take. Qed.

Lemma length_removelast_le (l : list bytes) : (length (removelast l) <= length l)%nat.
Proof. rewrite removelast_firstn_len, length_take. lia. Qed.

Lemma last_ok (l : list bytes) : Forall bytes_ok l -> bytes_ok (List.last l []).
Proof. induction 1 as [|x [|y l] Hx Hl IH]; [constructor|done|exact IH]. Qed.

Lemma push_data_ok s b : bytes_ok s -> bytes_ok b -> bytes_ok (push_data s b).
Proof.
  intros Hs Hb. unfold push_data, arith_uint256.WriteLE32, WriteLE16. apply Forall_app_2; [done|].
  apply Forall_app_2; [|done].
  repeat case_match; repeat (constructor; [first [apply u8_ok|by split; vm_compute]|]); constructor.
Qed.

Lemma witness_script_ok program script s :
  bytes_ok program -> witness_script witness program = inl (script, s) ->
  bytes_ok script /\ Forall bytes_ok s /\ Z.of_nat (length s) < 2 ^ 62.
Proof.
  intros Hp E. destruct Hw as [Hb Hl]. unfold witness_script in E.
  repeat case_match; simplify_eq; rewrite length_rev.
  - split_and!; [exact (last_ok (_ :: _) Hb)|apply Forall_rev_bytes; exact (Forall_removelast _ (_ :: _) Hb)|].
    eapply Z.le_lt_trans; [|exact Hl]. apply Nat2Z.inj_le, (length_removelast_le (_ :: _)).
  - split_and!; [|by apply Forall_rev_bytes|done].
    apply Forall_app_2; [apply push_data_ok|]; try done; repeat constructor; by vm_compute.
Qed.

Lemma VerifyWitnessProgram_total version program :
  bytes_ok program -> exists r, VerifyWitnessProgram CheckLowS flags witness version program = Ok r.
Proof.
  intros Hp. unfold VerifyWitnessProgram. case_match; [case_match; by eexists|].
  destruct (witness_script witness program) as [[script s]|] eqn:E; [|by eexists].
  destruct (witness_script_ok _ _ _ Hp E) as (Hs & Hb & Hl). case_match eqn:Ex; [by eexists|].
  assert (He : Forall (elem_ok MAX_SCRIPT_ELEMENT_SIZE) s).
  { apply List.Forall_forall. intros x Hx. split; [by eapply List.Forall_forall in Hb|].
    destruct (Z.ltb_spec MAX_SCRIPT_ELEMENT_SIZE (Z.of_nat (length x))) as [Hlt|]; [|done].
    rewrite (proj2 (existsb_exists _ s)) in Ex; [done|]. exists x. split; [done|]. by apply Z.ltb_lt. }
  edestruct (EvalScript_ok MAX_SCRIPT_ELEMENT_SIZE (Z.max MAX_STACK_SIZE (Z.of_nat (length s)))) as (r & -> & _);
    [unfold MAX_SCRIPT_ELEMENT_SIZE, MAX_SCRIPT_SIZE; lia|unfold MAX_STACK_SIZE; lia|exact _|exact Hs|exact He|lia|].
  cbn [obind]. repeat case_match; by eexists.
Qed.

Lemma IsWitnessProgram_ok script v p : bytes_ok script -> IsWitnessProgram script = Some (v, p) -> bytes_ok p.
Proof. intros Hs E. unfold IsWitnessProgram in E. repeat case_match; simplify_eq. by apply Forall_drop. Qed.

Lemma verify_witness_total script malleated s :
  bytes_ok script -> exists r, verify_witness CheckLowS flags script witness malleated s = Ok r.
Proof.
  intros Hs. unfold verify_witness. case_match; [|by eexists].
  destruct (IsWitnessProgram script) as [[v p]|] eqn:E; [|by eexists]. case_match; [by eexists|].
  destruct (VerifyWitnessProgram_total v p) as [r ->]; [by eapply IsWitnessProgram_ok|].
  cbn [obind]. case_match; by eexists.
Qed.

(** The stack after scriptSig, and after evaluating a script on it *)
Lemma eval_base_total m n s script :
  MAX_SCRIPT_ELEMENT_SIZE <= m <= MAX_SCRIPT_SIZE -> MAX_STACK_SIZE <= n < 2 ^ 62 ->
  Forall (elem_ok m) s -> Z.of_nat (length s) <= n -> bytes_ok script ->
  exists r, EvalScript CheckLowS flags BASE s script = Ok r /\ forall e s', r = EvalTrue e s' -> result_ok n s'.
Proof. intros. by eapply EvalScript_ok. Qed.

Lemma eval_true_total n s script :
  result_ok n s -> MAX_STACK_SIZE <= n < 2 ^ 61 -> bytes_ok script ->
  exists r, eval_true CheckLowS flags s script = Ok r.
Proof.
  intros [Hs Hl] Hn Hb. unfold eval_true.
  destruct (eval_base_total MAX_SCRIPT_SIZE (n + 1) s script) as (r & -> & _); try (done || lia).
  cbn [obind]. repeat case_match; by eexists.
Qed.

Lemma verify_p2sh_total n scriptSig s :
  result_ok n s -> MAX_STACK_SIZE <= n < 2 ^ 61 -> s <> [] ->
  exists r, verify_p2sh CheckLowS flags scriptSig witness s = Ok r.
Proof.
  intros [Hs Hl] Hn Hne. unfold verify_p2sh. case_match; [by eexists|]. destruct s as [|x s]; [done|].
  apply Forall_cons_1 in Hs as [[Hx _] Hs].
  destruct (eval_true_total n s x) as [r ->]; [|done|done|].
  { split; [done|]. cbn [length] in Hl. lia. }
  cbn [obind]. case_match; [|by eexists]. by apply verify_witness_total.
Qed.

Lemma final_checks_total had s : flags_ok flags -> exists r, final_checks flags witness had s = Ok r.
Proof.
  intros [H1 H2]. unfold final_checks.
  destruct (on flags SCRIPT_VERIFY_CLEANSTACK), (on flags SCRIPT_VERIFY_WITNESS), (on flags SCRIPT_VERIFY_P2SH);
    try (by destruct (H2 eq_refl)); try (by specialize (H1 eq_refl)); cbn; repeat case_match; by eexists.
Qed.

Lemma VerifyScript_ok scriptSig scriptPubKey :
  flags_ok flags -> bytes_ok scriptSig -> bytes_ok scriptPubKey ->
  exists r, VerifyScript CheckLowS flags scriptSig scriptPubKey (Some witness) = Ok r.
Proof.
  intros Hf Hsig Hpub. unfold VerifyScript. change (default [] (Some witness)) with witness. case_match; [by eexists|].
  destruct (eval_base_total MAX_SCRIPT_SIZE MAX_STACK_SIZE [] scriptSig) as (r & -> & Hr);
    [done|done|constructor|done|done|].
  cbn [obind]. destruct r as [e s|]; [|by eexists]. specialize (Hr e s eq_refl).
  destruct (eval_true_total MAX_STACK_SIZE s scriptPubKey) as [r Et]; [done|done|done|]. rewrite Et. cbn [obind].
  destruct r as [s'|]; [|by eexists].
  destruct (verify_witness_total scriptPubKey
    (if (length scriptSig =? 0)%nat then None else Some SCRIPT_ERR_WITNESS_MALLEATED) s' Hpub) as [[[had s'']|] ->];
    [|by eexists]. cbn [obind].
  destruct (on flags SCRIPT_VERIFY_P2SH && IsPayToScriptHash scriptPubKey) eqn:Ep; [|by apply final_checks_total].
  apply andb_true_iff in Ep as [_ Ep].
  destruct (verify_p2sh_total MAX_STACK_SIZE scriptSig s) as [[[had' s3]|] ->]; [done|done| | |by eexists].
  - intros ->. unfold eval_true in Et. by rewrite p2sh_empty_stack in Et.
  - cbn [obind]. by apply final_checks_total.
Qed.

End verify_total.

(** ** Flags only restrict *)

(** [B] has the flags of [A] and more; the flag of sender outputs is the same *)
Record restricts (A B : Z) : Prop := {
  restricts_flags : Z.land A B = A;
  restricts_sender : on A SCRIPT_OUTPUT_SENDER = on B SCRIPT_OUTPUT_SENDER }.

Lemma on_mono A B f : restricts A B -> on A f = true -> on B f = true.
Proof.
  intros [H _] Ha. unfold on in *. apply negb_true_iff, Z.eqb_neq in Ha. apply negb_true_iff, Z.eqb_neq.
  intros E. apply Ha. rewrite <- H, <- Z.land_assoc, E. apply Z.land_0_r.
Qed.

(** A step under more flags: it fails, or it is the step under fewer. *)
Definition below (rB rA : outcome step) : Prop :=
  match rB with
  | Ok (RetFalse _) | Fail | NoFuel => True
  | Ok (Next _) | Ok (RetTrue _) => rA = rB
  end.

Lemma below_refl r : below r r.
Proof. by destruct r as [[]| |]. Qed.

Lemma below_error e r : below (set_error e) r.
Proof. done. Qed.

Lemma below_if A B f cond e rA rB :
  restricts A B -> below rB rA ->
  below (if on B f && cond then set_error e else rB) (if on A f && cond then set_error e else rA).
Proof.
  intros H Hb. destruct (on B f) eqn:EB, (on A f) eqn:EA, cond; cbn [andb]; try done.
  by rewrite (on_mono A B f H EA) in EB.
Qed.

Lemma below_bind {T} (m : outcome T) kA kB :
  (forall x, below (kB x) (kA x)) -> below (obind m kB) (obind m kA).
Proof. intros H. destruct m; cbn; [apply H|done|done]. Qed.

#[local] Hint Resolve below_refl below_error : eval.

Section monotone.
Context {checker : BaseSignatureChecker} (CheckLowS : bytes -> bool) (A B : Z) (Hr : restricts A B) (sigversion : SigVersion).

Lemma flag_cases f : (on A f = true /\ on B f = true) \/ on A f = false.
Proof. destruct (on A f) eqn:E; [|by right]. left. split; [done|by apply (on_mono A B)]. Qed.

Lemma below_num x max kA kB :
  (forall n, below (kB n) (kA n)) ->
  below (with_num x (fRequireMinimal B) max kB) (with_num x (fRequireMinimal A) max kA).
Proof.
  intros Hk. unfold with_num, CScriptNum, fRequireMinimal.
  destruct (max <? _); [done|]. destruct (flag_cases SCRIPT_VERIFY_MINIMALDATA) as [[-> ->]| ->]; cbn [andb];
    repeat case_match; simplify_eq; auto with eval.
Qed.

(** A check changes nothing. *)
Definition checks (st : eval_state) (r : outcome step) : Prop := below r (Ok (Next st)).

Lemma locktime_checks flags st :
  checks st (op_checklocktimeverify flags st) /\ checks st (op_checksequenceverify flags st).
Proof.
  unfold op_checklocktimeverify, op_checksequenceverify, with_num. split.
  - repeat case_match; try done. by destruct (CheckLockTime _) as [[]| |].
  - repeat case_match; try done. by destruct (CheckSequence _) as [[]| |].
Qed.

Lemma op_locktime_below st :
  below (op_checklocktimeverify B st) (op_checklocktimeverify A st) /\
  below (op_checksequenceverify B st) (op_checksequenceverify A st).
Proof.
  pose proof (locktime_checks B st) as [H1 H2].
  unfold op_checklocktimeverify, op_checksequenceverify in *. split.
  - destruct (flag_cases SCRIPT_VERIFY_CHECKLOCKTIMEVERIFY) as [[-> ->]| ->]; [|exact H1]. cbn [negb].
    destruct (stack st); [done|]. apply below_num. auto with eval.
  - destruct (flag_cases SCRIPT_VERIFY_CHECKSEQUENCEVERIFY) as [[-> ->]| ->]; [|exact H2]. cbn [negb].
    destruct (stack st); [done|]. apply below_num. auto with eval.
Qed.

Lemma op_if_below opcode fExec st :
  below (op_if B sigversion opcode fExec st) (op_if A sigversion opcode fExec st).
Proof.
  unfold op_if. destruct fExec; [|done]. destruct (stack st); [done|].
  rewrite !(andb_comm (bool_decide _)), <- !andb_assoc. apply below_if; auto with eval.
Qed.

Lemma drop_signature_mono code sig r :
  drop_signature B sigversion code sig = Some r -> drop_signature A sigversion code sig = Some r.
Proof.
  unfold drop_signature. destruct sigversion; [|done]. destruct (FindAndDelete _ _) as [code' n].
  destruct (on A SCRIPT_VERIFY_CONST_SCRIPTCODE) eqn:EA; [by rewrite (on_mono A B _ Hr EA)|].
  rewrite andb_false_r. by case_match.
Qed.

Lemma drop_signatures_mono code sigs r :
  drop_signatures B sigversion code sigs = Some r -> drop_signatures A sigversion code sigs = Some r.
Proof.
  revert code. induction sigs as [|sig sigs IH]; intros code E; [done|]. cbn [drop_signatures] in *.
  destruct (drop_signature B _ code sig) as [c|] eqn:Ed; [|done]. rewrite (drop_signature_mono _ _ _ Ed). by apply IH.
Qed.

Lemma check_encodings_mono sig key :
  check_encodings CheckLowS B sigversion sig key = None -> check_encodings CheckLowS A sigversion sig key = None.
Proof.
  unfold check_encodings, CheckSignatureEncoding, CheckPubKeyEncoding.
  destruct (flag_cases SCRIPT_VERIFY_STRICTENC) as [[-> ->]| ->],
    (flag_cases SCRIPT_VERIFY_LOW_S) as [[-> ->]| ->],
    (flag_cases (Z.lor (Z.lor SCRIPT_VERIFY_DERSIG SCRIPT_VERIFY_LOW_S) SCRIPT_VERIFY_STRICTENC)) as [[-> ->]| ->],
    (flag_cases SCRIPT_VERIFY_WITNESS_PUBKEYTYPE) as [[-> ->]| ->]; cbn [andb];
  destruct (length sig =? 0)%nat; repeat case_match; simplify_eq; try done.
Qed.

Lemma op_checksig_below opcode st :
  below (op_checksig CheckLowS B sigversion opcode st) (op_checksig CheckLowS A sigversion opcode st).
Proof.
  unfold op_checksig. destruct (stack st) as [|key [|sig s]]; try done.
  destruct (drop_signature B _ _ _) as [code|] eqn:Ed; [|done]. rewrite (drop_signature_mono _ _ _ Ed).
  destruct (check_encodings _ B _ _ _) eqn:Ee; [done|]. rewrite (check_encodings_mono _ _ Ee).
  apply below_bind. intros fSuccess. rewrite !(andb_comm (negb fSuccess)), <- !andb_assoc.
  apply below_if; auto with eval.
Qed.

Lemma multisig_loop_mono code sigs keys b :
  multisig_loop CheckLowS B sigversion code sigs keys = Ok (inl b) ->
  multisig_loop CheckLowS A sigversion code sigs keys = Ok (inl b).
Proof.
  revert sigs. induction keys as [|key keys IH]; intros [|sig sigs]; cbn [multisig_loop]; try done.
  destruct (check_encodings _ B _ _ _) eqn:Ee; [done|]. rewrite (check_encodings_mono _ _ Ee).
  destruct (CheckSig _ _ _ _); cbn [obind]; [|done|done]. destruct (_ <? _)%nat; [done|]. apply IH.
Qed.

Lemma clean_up_mono fSuccess n ikey2 s s' : clean_up B fSuccess n ikey2 s = inl s' -> clean_up A fSuccess n ikey2 s = inl s'.
Proof.
  revert ikey2 s. induction n as [|n IH]; intros ikey2 s; cbn [clean_up]; [done|].
  destruct s as [|x s]; [done|].
  destruct (flag_cases SCRIPT_VERIFY_NULLFAIL) as [[-> ->]| ->].
  - destruct (_ && _); [done|apply IH].
  - rewrite andb_false_r. destruct (_ && negb (length x =? 0)%nat); [done|apply IH].
Qed.

Lemma check_multisig_below opcode st nKeys nSigs :
  below (check_multisig CheckLowS B sigversion opcode st nKeys nSigs)
        (check_multisig CheckLowS A sigversion opcode st nKeys nSigs).
Proof.
  unfold check_multisig, finish_multisig. cbn zeta.
  destruct (drop_signatures B _ _ _) as [code|] eqn:Ed; [|done]. rewrite (drop_signatures_mono _ _ _ Ed).
  destruct (multisig_loop _ B _ _ _ _) as [[b|]| |] eqn:El; try done. rewrite (multisig_loop_mono _ _ _ _ El). cbn [obind].
  destruct (clean_up B _ _ _ _) as [s|] eqn:Ec; [|done]. rewrite (clean_up_mono _ _ _ _ _ Ec).
  destruct s; [done|]. apply below_if; auto with eval.
Qed.

Lemma op_checkmultisig_below opcode st :
  below (op_checkmultisig CheckLowS B sigversion opcode st) (op_checkmultisig CheckLowS A sigversion opcode st).
Proof.
  unfold op_checkmultisig. destruct (stack st) as [|x s]; [done|]. apply below_num. intros n. cbn zeta.
  destruct (_ || _); [done|]. destruct (_ <? _); [done|]. cbn [stack]. destruct (_ !! _); [|done].
  apply below_num. intros m. cbn zeta. destruct (_ || _); [done|]. destruct (_ <? _); [done|].
  apply check_multisig_below.
Qed.

Lemma numeric_below opcode st :
  below (op_pick_roll (fRequireMinimal B) opcode st) (op_pick_roll (fRequireMinimal A) opcode st) /\
  below (op_unary (fRequireMinimal B) opcode st) (op_unary (fRequireMinimal A) opcode st) /\
  below (op_binary (fRequireMinimal B) opcode st) (op_binary (fRequireMinimal A) opcode st) /\
  below (op_within (fRequireMinimal B) st) (op_within (fRequireMinimal A) st).
Proof.
  unfold op_pick_roll, op_unary, op_binary, op_within.
  destruct (stack st) as [|x1 [|x2 [|x3 s]]]; split_and!; try done;
    repeat (apply below_num; intros ?); auto with eval.
Qed.

Lemma eval_opcode_below opcode fExec st :
  below (eval_opcode CheckLowS B sigversion opcode fExec st) (eval_opcode CheckLowS A sigversion opcode fExec st).
Proof.
  unfold eval_opcode. pose proof (op_locktime_below st) as [? ?].
  pose proof (numeric_below opcode st) as (? & ? & ? & ?).
  assert (below (op_upgradable_nop B st) (op_upgradable_nop A st)).
  { unfold op_upgradable_nop. pose proof (below_if A B SCRIPT_VERIFY_DISCOURAGE_UPGRADABLE_NOPS true
      SCRIPT_ERR_DISCOURAGE_UPGRADABLE_NOPS _ _ Hr (below_refl (Ok (Next st)))) as H'. by rewrite !andb_true_r in H'. }
  assert (below (op_sender B st) (op_sender A st))
    by (unfold op_sender; rewrite (restricts_sender A B Hr); apply below_refl).
  repeat match goal with
  | |- below (if ?b then _ else _) (if ?b then _ else _) =>
      destruct b; [solve [eauto using op_if_below, op_checksig_below, op_checkmultisig_below with eval]|]
  end. done.
Qed.

Lemma below_limit rA rB : below rB rA -> below (obind rB check_limit) (obind rA check_limit).
Proof. destruct rB as [[st'|s|e]| |]; try done; cbn [below]; intros ->; apply below_refl. Qed.

Lemma execute_below opcode d fExec st :
  below (execute CheckLowS B sigversion opcode d fExec st) (execute CheckLowS A sigversion opcode d fExec st).
Proof.
  apply below_limit. destruct (_ && (opcode <=? OP_PUSHDATA4)); [apply below_if; auto with eval|].
  destruct (_ || _); [apply eval_opcode_below|done].
Qed.

Lemma eval_step_below st : below (eval_step CheckLowS B sigversion st) (eval_step CheckLowS A sigversion st).
Proof.
  unfold eval_step. destruct (GetScriptOp (pc st)) as [[[o d] r]|]; [|done].
  destruct (_ <? _); [done|]. cbn zeta. destruct (_ && (_ <? _)); [done|]. destruct (is_disabled o); [done|].
  rewrite !(andb_comm ((o =? OP_CODESEPARATOR) && _)). apply below_if; [done|]. apply execute_below.
Qed.

Lemma after_mono (fA fB : eval_state -> outcome eval_result) rA rB e s :
  (forall st, fB st = Ok (EvalTrue e s) -> fA st = Ok (EvalTrue e s)) -> below rB rA ->
  obind rB (after_step fB) = Ok (EvalTrue e s) -> obind rA (after_step fA) = Ok (EvalTrue e s).
Proof.
  intros Hf Hb E. destruct rB as [[st|s'|e']| |]; try discriminate E; cbn [below] in Hb; rewrite Hb; [|exact E].
  by apply Hf.
Qed.

Lemma eval_loop_mono fuel st e s :
  eval_loop CheckLowS B sigversion fuel st = Ok (EvalTrue e s) -> eval_loop CheckLowS A sigversion fuel st = Ok (EvalTrue e s).
Proof.
  revert st. induction fuel as [|fuel IH]; intros st; rewrite !eval_loop_unfold;
    (destruct (pc st); [exact (fun E => E)|]); [discriminate|].
  apply after_mono; [exact IH|apply eval_step_below].
Qed.

Lemma EvalScript_mono s script e s' :
  EvalScript CheckLowS B sigversion s script = Ok (EvalTrue e s') -> EvalScript CheckLowS A sigversion s script = Ok (EvalTrue e s').
Proof. unfold EvalScript. case_match; [done|]. apply eval_loop_mono. Qed.

End monotone.

Section verify_monotone.
Context {checker : BaseSignatureChecker} (CheckLowS : bytes -> bool) (A B : Z) (Hr : restricts A B) (HA : flags_ok A).

Lemma VerifyWitnessProgram_mono witness version program :
  VerifyWitnessProgram CheckLowS B witness version program = Ok None ->
  VerifyWitnessProgram CheckLowS A witness version program = Ok None.
Proof.
  unfold VerifyWitnessProgram. destruct (negb _).
  { destruct (flag_cases A B Hr SCRIPT_VERIFY_DISCOURAGE_UPGRADABLE_WITNESS_PROGRAM) as [[-> ->]| ->]; [done|reflexivity]. }
  destruct (witness_script _ _) as [[script s]|]; [|done]. destruct (existsb _ _); [done|].
  destruct (EvalScript _ B _ _ _) as [[e s'|]| |] eqn:E; try discriminate.
  by rewrite (EvalScript_mono CheckLowS A B Hr _ _ _ _ _ E).
Qed.

Lemma eval_true_mono s script s' :
  eval_true CheckLowS B s script = Ok (inl s') -> eval_true CheckLowS A s script = Ok (inl s').
Proof.
  unfold eval_true. destruct (EvalScript _ B _ _ _) as [[e s''|]| |] eqn:E; try discriminate.
  by rewrite (EvalScript_mono CheckLowS A B Hr _ _ _ _ _ E).
Qed.

(** Without the witness flag no program is verified. *)
Lemma verify_witness_off script witness malleated s :
  on A SCRIPT_VERIFY_WITNESS = false -> verify_witness CheckLowS A script witness malleated s = Ok (inl (false, s)).
Proof. unfold verify_witness. by intros ->. Qed.

Lemma verify_witness_mono script witness malleated s r :
  on A SCRIPT_VERIFY_WITNESS = true ->
  verify_witness CheckLowS B script witness malleated s = Ok (inl r) ->
  verify_witness CheckLowS A script witness malleated s = Ok (inl r).
Proof.
  intros HW. unfold verify_witness. rewrite HW, (on_mono A B _ Hr HW).
  destruct (IsWitnessProgram script) as [[v p]|]; [|done]. destruct malleated; [done|].
  destruct (VerifyWitnessProgram _ B _ _ _) as [[]| |] eqn:E; try discriminate. by rewrite (VerifyWitnessProgram_mono _ _ _ E).
Qed.

Lemma verify_p2sh_off scriptSig witness s r :
  on A SCRIPT_VERIFY_WITNESS = false -> verify_p2sh CheckLowS B scriptSig witness s = Ok (inl r) ->
  exists r', verify_p2sh CheckLowS A scriptSig witness s = Ok (inl r').
Proof.
  intros HW. unfold verify_p2sh. destruct (negb _); [done|]. destruct s as [|x s]; [done|].
  destruct (eval_true _ B _ _) as [[s'|]| |] eqn:E; try discriminate. rewrite (eval_true_mono _ _ _ E). cbn [obind].
  rewrite verify_witness_off by done. by eexists.
Qed.

Lemma verify_p2sh_mono scriptSig witness s r :
  on A SCRIPT_VERIFY_WITNESS = true -> verify_p2sh CheckLowS B scriptSig witness s = Ok (inl r) ->
  verify_p2sh CheckLowS A scriptSig witness s = Ok (inl r).
Proof.
  intros HW. unfold verify_p2sh. destruct (negb _); [done|]. destruct s as [|x s]; [done|].
  destruct (eval_true _ B _ _) as [[s'|]| |] eqn:E; try discriminate. rewrite (eval_true_mono _ _ _ E). cbn [obind].
  by apply verify_witness_mono.
Qed.

Lemma final_checks_off witness had s : on A SCRIPT_VERIFY_WITNESS = false -> final_checks A witness had s = Ok None.
Proof.
  intros HW. unfold final_checks. rewrite HW.
  destruct (on A SCRIPT_VERIFY_CLEANSTACK) eqn:EC; [|done].
  destruct HA as [_ Hc]. destruct (Hc EC). congruence.
Qed.

Lemma final_checks_mono witness had s :
  on A SCRIPT_VERIFY_WITNESS = true -> final_checks B witness had s = Ok None -> final_checks A witness had s = Ok None.
Proof.
  intros HW. unfold final_checks. destruct HA as [Hp _]. pose proof (Hp HW) as HP.
  rewrite HW, HP, (on_mono A B _ Hr HW), (on_mono A B _ Hr HP).
  destruct (flag_cases A B Hr SCRIPT_VERIFY_CLEANSTACK) as [[-> ->]| ->]; [done|]. cbn [negb andb]. rewrite andb_false_r.
  by destruct (_ && negb (length s =? 1)%nat).
Qed.

(** The part of [VerifyScript] after the witness check *)
Lemma VerifyScript_end_mono scriptSig p2sh witness hadB stack stackB stackCopy :
  on A SCRIPT_VERIFY_WITNESS = false \/ on A SCRIPT_VERIFY_WITNESS = true /\ stackB = stack ->
  let had := if on A SCRIPT_VERIFY_WITNESS then hadB else false in
  (if on B SCRIPT_VERIFY_P2SH && p2sh then
     r <-! verify_p2sh CheckLowS B scriptSig witness stackCopy ;
     match r with
     | inr e => Ok (Some e)
     | inl (had, stack) => final_checks B witness (hadB || had) stack
     end
   else final_checks B witness hadB stackB) = Ok None ->
  (if on A SCRIPT_VERIFY_P2SH && p2sh then
     r <-! verify_p2sh CheckLowS A scriptSig witness stackCopy ;
     match r with
     | inr e => Ok (Some e)
     | inl (h, stack) => final_checks A witness (had || h) stack
     end
   else final_checks A witness had stack) = Ok None.
Proof.
  intros [HW|[HW ->]]; rewrite HW; cbn zeta iota.
  - destruct (on A SCRIPT_VERIFY_P2SH) eqn:HP; [|intros _; by apply final_checks_off].
    rewrite (on_mono A B _ Hr HP). destruct p2sh; [|intros _; by apply final_checks_off]. cbn [andb].
    destruct (verify_p2sh _ B _ _ _) as [[r|]| |] eqn:E; try discriminate.
    destruct (verify_p2sh_off _ _ _ _ HW E) as [[h s'] ->]. intros _. cbn [obind]. by apply final_checks_off.
  - destruct HA as [Hp _]. pose proof (Hp HW) as HP. rewrite HP, (on_mono A B _ Hr HP). destruct p2sh; cbn [andb].
    + destruct (verify_p2sh _ B _ _ _) as [[[h s']|]| |] eqn:E; try discriminate.
      rewrite (verify_p2sh_mono _ _ _ _ HW E). cbn [obind]. by apply final_checks_mono.
    + by apply final_checks_mono.
Qed.

Lemma VerifyScript_mono scriptSig scriptPubKey witness :
  VerifyScript CheckLowS B scriptSig scriptPubKey witness = Ok None ->
  VerifyScript CheckLowS A scriptSig scriptPubKey witness = Ok None.
Proof.
  unfold VerifyScript. generalize (default [] witness). intros w.
  destruct (on B SCRIPT_VERIFY_SIGPUSHONLY && _) eqn:EB; [discriminate|].
  replace (on A SCRIPT_VERIFY_SIGPUSHONLY && _) with false
    by (symmetry; destruct (flag_cases A B Hr SCRIPT_VERIFY_SIGPUSHONLY) as [[-> HB]| ->]; [by rewrite HB in EB|done]).
  destruct (EvalScript _ B _ _ _) as [[e stackCopy|]| |] eqn:Es; try discriminate.
  rewrite (EvalScript_mono CheckLowS A B Hr _ _ _ _ _ Es). cbn [obind].
  destruct (eval_true _ B _ _) as [[s|]| |] eqn:Et; try discriminate. rewrite (eval_true_mono _ _ _ Et). cbn [obind].
  set (m := if (length scriptSig =? 0)%nat then _ else _).
  destruct (verify_witness _ B _ _ _ _) as [[[hadB sB]|]| |] eqn:Ew; try discriminate. cbn [obind].
  destruct (on A SCRIPT_VERIFY_WITNESS) eqn:HW.
  - rewrite (verify_witness_mono _ _ _ _ _ HW Ew). cbn [obind].
    pose proof (VerifyScript_end_mono scriptSig (IsPayToScriptHash scriptPubKey) w hadB sB sB stackCopy) as H.
    rewrite HW in H. apply H. by right.
  - rewrite verify_witness_off by done. cbn [obind].
    pose proof (VerifyScript_end_mono scriptSig (IsPayToScriptHash scriptPubKey) w hadB s sB stackCopy) as H.
    rewrite HW in H. apply H. by left.
Qed.

End verify_monotone.

(** ** Strict DER *)

(** The contents of a positive DER integer: not empty, the sign bit clear,
    no superfluous zero byte *)
Definition der_integer (b : bytes) : Prop :=
  match b with
  | [] => False
  | x :: b => x < 128 /\ match b with [] => True | y :: _ => x = 0 -> 128 <= y end
  end.

(** A sequence of two integers, followed by the hash type *)
Definition der_signature (R S hashtype : bytes) : bytes :=
  let len b := Z.of_nat (length b) in
  [0x30; 4 + len R + len S; 0x02; len R] ++ R ++ [0x02; len S] ++ S ++ hashtype.

Lemma byte_at_app_r l1 l2 k : byte_at (l1 ++ l2) (length l1 + k) = byte_at l2 k.
Proof. unfold byte_at. apply app_nth2_plus. Qed.

Lemma byte_at_app_l l1 l2 k : (k < length l1)%nat -> byte_at (l1 ++ l2) k = byte_at l1 k.
Proof. intros. unfold byte_at. by apply app_nth1. Qed.

(** The tests of an integer at its place in the signature *)
Lemma der_integer_tests pre b post :
  b <> [] -> bytes_ok b ->
  (Z.land (byte_at (pre ++ b ++ post) (length pre)) 0x80 =? 0) &&
  negb ((1 <? Z.of_nat (length b)) && (byte_at (pre ++ b ++ post) (length pre) =? 0) &&
        (Z.land (byte_at (pre ++ b ++ post) (length pre + 1)) 0x80 =? 0)) = true <->
  der_integer b.
Proof.
  intros Hne Hb. destruct b as [|x b]; [done|]. apply Forall_cons_1 in Hb as [Hx Hb].
  replace (byte_at (pre ++ (x :: b) ++ post) (length pre)) with x
    by (rewrite <- (Nat.add_0_r (length pre)) at 1; by rewrite byte_at_app_r).
  rewrite byte_at_app_r, land_80 by done. unfold der_integer.
  destruct b as [|y b].
  - cbn [length]. rewrite andb_true_r. bool_to_prop. tauto.
  - apply Forall_cons_1 in Hb as [Hy _]. change (byte_at ((x :: y :: b) ++ post) 1) with y. rewrite land_80 by done.
    replace (1 <? Z.of_nat (length (x :: y :: b))) with true by (symmetry; apply Z.ltb_lt; cbn; lia).
    cbn [andb]. bool_to_prop. lia.
Qed.

Lemma if_false (c e : bool) : (if c then false else e) = negb c && e.
Proof. by destruct c. Qed.

Lemma signature_bytes s0 s1 s2 R t S hashtype :
  let sig := [s0; s1; s2; Z.of_nat (length R)] ++ R ++ [t; Z.of_nat (length S)] ++ S ++ hashtype in
  let lenR := Z.of_nat (length R) in
  let lenS := Z.of_nat (length S) in
  let at_ i := byte_at sig (Z.to_nat i) in
  bytes_ok sig ->
  at_ (5 + lenR) = lenS /\ at_ (lenR + 4) = t /\
  (R <> [] -> (Z.land (at_ 4) 0x80 =? 0) && negb ((1 <? lenR) && (at_ 4 =? 0) && (Z.land (at_ 5) 0x80 =? 0)) = true
     <-> der_integer R) /\
  (S <> [] -> (Z.land (at_ (lenR + 6)) 0x80 =? 0) &&
              negb ((1 <? lenS) && (at_ (lenR + 6) =? 0) && (Z.land (at_ (lenR + 7)) 0x80 =? 0)) = true
     <-> der_integer S).
Proof.
  intros sig lenR lenS at_ Hb. unfold at_, sig, lenR, lenS. apply Forall_app in Hb as [Hb4 Hb].
  apply Forall_app in Hb as [HbR Hb]. apply Forall_app in Hb as [Hb2 Hb]. apply Forall_app in Hb as [HbS _].
  split_and!.
  - replace (Z.to_nat _) with (4 + (length R + 1))%nat by lia.
    by rewrite (byte_at_app_r [_; _; _; _]), byte_at_app_r.
  - replace (Z.to_nat _) with (4 + (length R + 0))%nat by lia.
    by rewrite (byte_at_app_r [_; _; _; _]), byte_at_app_r.
  - intros Hne. by apply (der_integer_tests [s0; s1; s2; Z.of_nat (length R)]).
  - intros Hne. rewrite !app_assoc, <- (app_assoc _ S).
    replace (Z.to_nat (Z.of_nat (length R) + 7)) with (length (([s0; s1; s2; Z.of_nat (length R)] ++ R) ++ [t; Z.of_nat (length S)]) + 1)%nat
      by (rewrite !length_app; cbn [length]; lia).
    replace (Z.to_nat (Z.of_nat (length R) + 6)) with (length (([s0; s1; s2; Z.of_nat (length R)] ++ R) ++ [t; Z.of_nat (length S)]))
      by (rewrite !length_app; cbn [length]; lia).
    by apply der_integer_tests.
Qed.

Lemma der_integer_iff b (P Q : bool) :
  (b <> [] -> P && Q = true <-> der_integer b) ->
  der_integer b <-> negb (Z.of_nat (length b) =? 0) = true /\ P = true /\ Q = true.
Proof.
  intros H. destruct b as [|x b]; [split; [done|by intros []]|]. rewrite <- H, andb_true_iff by done.
  by intuition.
Qed.

(** The parts the lengths in a signature delimit *)
Lemma signature_shape sig haveHashType :
  bytes_ok sig -> IsValidSignatureEncoding sig haveHashType = true ->
  exists s0 s1 s2 R t S hashtype,
    sig = [s0; s1; s2; Z.of_nat (length R)] ++ R ++ [t; Z.of_nat (length S)] ++ S ++ hashtype /\
    length hashtype = (if haveHashType then 1 else 0)%nat.
Proof.
  intros Hb E. unfold IsValidSignatureEncoding in E. cbv zeta in E. rewrite !if_false, !andb_true_iff in E.
  destruct E as (H9 & _ & _ & _ & H5 & Hlen & _). rewrite negb_involutive in Hlen.
  rewrite !negb_true_iff in *. rewrite Z.ltb_ge in H9. rewrite Z.leb_gt in H5. rewrite Z.eqb_eq in Hlen.
  destruct sig as [|s0 [|s1 [|s2 [|s3 sig]]]]; try (cbn in H9; lia).
  change (byte_at (s0 :: s1 :: s2 :: s3 :: sig) (Z.to_nat 3)) with s3 in *.
  assert (H3 : in_u 8 s3) by (do 3 apply Forall_cons_1 in Hb as [_ Hb]; by apply Forall_cons_1 in Hb as [? _]).
  unfold in_u in H3. cbn [length] in *.
  replace (Z.to_nat (5 + s3)) with (4 + (Z.to_nat s3 + 1))%nat in Hlen by lia.
  rewrite (byte_at_app_r [s0; s1; s2; s3] sig) in Hlen.
  rewrite <- (take_drop (Z.to_nat s3) sig) in Hlen |- *. set (R := take _ sig) in *.
  assert (HR : length R = Z.to_nat s3) by (unfold R; rewrite length_take; lia).
  assert (Hd : (2 <= length (drop (Z.to_nat s3) sig))%nat) by (rewrite length_drop; lia).
  rewrite <- HR, byte_at_app_r, HR, length_app in Hlen. revert Hlen Hd.
  destruct (drop (Z.to_nat s3) sig) as [|t [|u rest]] eqn:Ed; cbn [length]; try lia. intros Hlen _.
  change (byte_at (t :: u :: rest) 1) with u in Hlen.
  assert (Hu : in_u 8 u).
  { do 4 apply Forall_cons_1 in Hb as [_ Hb]. apply (Forall_drop _ (Z.to_nat s3)) in Hb. rewrite Ed in Hb.
    apply Forall_cons_1 in Hb as [_ Hb]. by apply Forall_cons_1 in Hb as [? _]. }
  unfold in_u in Hu.
  exists s0, s1, s2, R, t, (take (Z.to_nat u) rest), (drop (Z.to_nat u) rest).
  rewrite length_take, length_drop, take_drop. split; [|destruct haveHashType; lia].
  rewrite HR. cbn [app]. repeat f_equal; destruct haveHashType; lia.
Qed.

(** The encoding of a byte string with room for both integers *)
Lemma IsValidSignatureEncoding_shape s0 s1 s2 R t S hashtype :
  let sig := [s0; s1; s2; Z.of_nat (length R)] ++ R ++ [t; Z.of_nat (length S)] ++ S ++ hashtype in
  forall haveHashType : bool, length hashtype = (if haveHashType then 1 else 0)%nat -> bytes_ok sig ->
  IsValidSignatureEncoding sig haveHashType = true <->
  (9 <= length sig <= 73)%nat /\ s0 = 0x30 /\ s1 = 4 + Z.of_nat (length R) + Z.of_nat (length S) /\
  s2 = 0x02 /\ t = 0x02 /\ der_integer R /\ der_integer S.
Proof.
  intros sig have Hh Hb.
  assert (Hl : Z.of_nat (length sig) = Z.of_nat (length R) + Z.of_nat (length S) + (if have then 7 else 6))
    by (unfold sig; rewrite !length_app, Hh; destruct have; cbn [length]; lia).
  destruct (signature_bytes s0 s1 s2 R t S hashtype Hb) as (HatS & Hatt & HR & HS). fold sig in HatS, Hatt, HR, HS.
  unfold IsValidSignatureEncoding. cbv zeta.
  change (byte_at sig (Z.to_nat 0)) with s0. change (byte_at sig (Z.to_nat 1)) with s1.
  change (byte_at sig (Z.to_nat 2)) with s2. change (byte_at sig (Z.to_nat 3)) with (Z.of_nat (length R)).
  rewrite HatS, Hatt, !if_false, Hl, !andb_true_iff, !negb_involutive.
  apply der_integer_iff in HR, HS. rewrite HR, HS.
  rewrite !negb_true_iff, !Z.ltb_ge, !Z.leb_gt, !Z.eqb_eq, !Z.eqb_neq.
  destruct have; (split; intros; destruct_and!; split_and!; assumption || lia).
Qed.

Lemma IsValidSignatureEncoding_DER sig haveHashType :
  bytes_ok sig ->
  IsValidSignatureEncoding sig haveHashType = true <->
  (9 <= length sig <= 73)%nat /\
  exists R S hashtype, sig = der_signature R S hashtype /\ length hashtype = (if haveHashType then 1 else 0)%nat /\
    der_integer R /\ der_integer S.
Proof.
  intros Hb. split.
  - intros E. destruct (signature_shape sig haveHashType) as (s0 & s1 & s2 & R & t & S & h & -> & Hh); [done..|].
    apply (IsValidSignatureEncoding_shape s0 s1 s2 R t S h haveHashType Hh Hb) in E as (Hl & -> & -> & -> & -> & HR & HS).
    split; [exact Hl|]. by exists R, S, h.
  - intros (Hl & R & S & h & -> & Hh & HR & HS).
    by apply (IsValidSignatureEncoding_shape _ _ _ R _ S h haveHashType Hh Hb).
Qed.

(** ** Spending an output that pays to a key hash *)

Section pay_to_pubkey_hash.
Context {checker : BaseSignatureChecker} (CheckLowS : bytes -> bool) (flags : Z).

Lemma eval_loop_next v fuel st st' :
  pc st <> [] -> eval_step CheckLowS flags v st = Ok (Next st') ->
  eval_loop CheckLowS flags v (S fuel) st = eval_loop CheckLowS flags v fuel st'.
Proof. intros Hpc E. rewrite eval_loop_unfold. destruct (pc st); [done|]. by rewrite E. Qed.

(** The script after the key hash is pushed and compared *)
Lemma EvalScript_pkh v (h key sig : bytes) :
  length h = 20%nat ->
  EvalScript CheckLowS flags v [key; sig] (pkh_script h) =
    if bytes_eqb (Hash160 key) h
    then r <-! op_checksig CheckLowS flags v OP_CHECKSIG (mkEval [] (pkh_script h) [key; sig] [] [] 4) ;
         r <-! check_limit r ; after_step (eval_loop CheckLowS flags v 20) r
    else Ok (EvalFalse SCRIPT_ERR_EQUALVERIFY).
Proof.
  intros (x0 & x1 & x2 & x3 & x4 & x5 & x6 & x7 & x8 & x9 & x10 & x11 & x12 & x13 & x14 & x15 & x16 & x17 & x18 & x19
    & ->)%length_20.
  set (h := [x0; _; _; _; _; _; _; _; _; _; _; _; _; _; _; _; _; _; _; _]).
  change (pkh_script h) with (OP_DUP :: OP_HASH160 :: 20 :: h ++ [OP_EQUALVERIFY; OP_CHECKSIG]).
  set (script := OP_DUP :: _).
  change (EvalScript CheckLowS flags v [key; sig] script) with (eval_loop CheckLowS flags v 25 (mkEval script script [key; sig] [] [] 0)).
  rewrite (eval_loop_next v _ _ (mkEval (OP_HASH160 :: 20 :: h ++ [OP_EQUALVERIFY; OP_CHECKSIG]) script [key; key; sig] [] [] 1))
    by (done || reflexivity).
  rewrite (eval_loop_next v _ _ (mkEval (20 :: h ++ [OP_EQUALVERIFY; OP_CHECKSIG]) script [Hash160 key; key; sig] [] [] 2))
    by (done || reflexivity).
  rewrite (eval_loop_next v _ _ (mkEval [OP_EQUALVERIFY; OP_CHECKSIG] script [h; Hash160 key; key; sig] [] [] 2))
    by (done || (unfold eval_step, execute; destruct (fRequireMinimal flags); reflexivity)).
  destruct (bytes_eqb (Hash160 key) h) eqn:E.
  - rewrite (eval_loop_next v _ _ (mkEval [OP_CHECKSIG] script [key; sig] [] [] 3)); [..|done|].
    + rewrite eval_loop_unfold. cbn [pc].
      change (eval_step CheckLowS flags v (mkEval [OP_CHECKSIG] script [key; sig] [] [] 3))
        with (r <-! op_checksig CheckLowS flags v OP_CHECKSIG (mkEval [] script [key; sig] [] [] 4) ; check_limit r).
      by destruct (op_checksig _ _ _ _ _).
    + unfold eval_step, execute. cbn -[bytes_eqb Hash160 h]. by rewrite E.
  - rewrite eval_loop_unfold. cbn [pc].
    replace (eval_step CheckLowS flags v _) with (Ok (RetFalse SCRIPT_ERR_EQUALVERIFY)); [done|].
    symmetry. unfold eval_step, execute. cbn -[bytes_eqb Hash160 h]. by rewrite E.
Qed.

(** A pushed signature is not in the script unless it has the length of the hash. *)
Lemma push_data_head b : exists o r, push_data [] b = o :: r /\ (o = 20 -> length b = 20%nat) /\ 0 <= o <= 78.
Proof.
  unfold push_data. cbn [app]. unfold OP_PUSHDATA1, OP_PUSHDATA2, OP_PUSHDATA4.
  destruct (Z.ltb_spec (Z.of_nat (length b)) 76); [|destruct (_ <=? _); [|destruct (_ <=? _)]];
    eexists _, _; (split; [reflexivity|]); rewrite ?wrap_small by (unfold in_u; lia); lia.
Qed.

Lemma skip_copies_none fuel o r x l n : o <> x -> skip_copies fuel (o :: r) (x :: l) n = (x :: l, n).
Proof.
  intros Hne. destruct fuel; [done|]. cbn [skip_copies length]. rewrite firstn_cons. cbn [bytes_eqb].
  destruct (Z.eqb_spec o x); [done|]. by rewrite andb_false_r.
Qed.

Lemma find_loop_next fuel o r res pc2 x l n c d l' :
  GetScriptOp (x :: l) = Some (c, d, l') -> o <> x ->
  find_loop (S fuel) (o :: r) res pc2 (x :: l) n =
    find_loop fuel (o :: r) (res ++ take (length pc2 - length (x :: l)) pc2) (x :: l) l' n.
Proof. intros E Hne. cbn [find_loop]. rewrite skip_copies_none by done. by rewrite E. Qed.

Lemma drop_signature_pkh v h sig :
  length h = 20%nat -> length sig <> 20%nat -> drop_signature flags v (pkh_script h) sig = Some (pkh_script h).
Proof.
  intros (x0 & x1 & x2 & x3 & x4 & x5 & x6 & x7 & x8 & x9 & x10 & x11 & x12 & x13 & x14 & x15 & x16 & x17 & x18 & x19
    & ->)%length_20 Hs.
  set (h := [x0; _; _; _; _; _; _; _; _; _; _; _; _; _; _; _; _; _; _; _]).
  change (pkh_script h) with (OP_DUP :: OP_HASH160 :: 20 :: h ++ [OP_EQUALVERIFY; OP_CHECKSIG]).
  destruct v; [|done]. unfold drop_signature, FindAndDelete.
  destruct (push_data_head sig) as (o & r & -> & Ho & Hr).
  assert (o <> 20) by (intros E; by apply Hs, Ho).
  set (script := OP_DUP :: _). change (S (length script)) with 26%nat. unfold script.
  do 2 (erewrite find_loop_next; [|reflexivity|unfold OP_DUP, OP_HASH160; lia]).
  rewrite (find_loop_next _ _ _ _ _ _ _ _ 20 h [OP_EQUALVERIFY; OP_CHECKSIG]) by (reflexivity || lia).
  do 2 (erewrite find_loop_next; [|reflexivity|unfold OP_EQUALVERIFY, OP_CHECKSIG; lia]).
  reflexivity.
Qed.

Lemma CheckMinimalPush_short b : (2 <= length b <= 75)%nat -> CheckMinimalPush b (Z.of_nat (length b)) = true.
Proof.
  intros Hb. unfold CheckMinimalPush. by decide_tests.
Qed.

(** One short push *)
Lemma eval_step_push v b rest code s n :
  (2 <= length b <= 75)%nat -> (length s < 1000)%nat ->
  eval_step CheckLowS flags v (mkEval (push_data [] b ++ rest) code s [] [] n) =
    Ok (Next (mkEval rest code (b :: s) [] [] n)).
Proof.
  intros Hb Hs. unfold eval_step. cbn [pc].
  rewrite push_small by lia. cbn [app]. unfold GetScriptOp, read_size, OP_PUSHDATA4, OP_PUSHDATA1.
  decide_tests. rewrite Nat2Z.id, firstn_app, skipn_app, firstn_all, skipn_all, Nat.sub_diag, firstn_O, app_nil_r. cbn [app skipn].
  rewrite length_app, drop_0. decide_tests.
  assert (Hd : is_disabled (Z.of_nat (length b)) = false)
    by (unfold is_disabled, OP_CAT, OP_SUBSTR, OP_LEFT, OP_RIGHT, OP_INVERT, OP_AND, OP_OR, OP_XOR, OP_2MUL, OP_2DIV, OP_MUL,
          OP_DIV, OP_MOD, OP_LSHIFT, OP_RSHIFT; cbn [existsb]; by decide_tests).
  rewrite Hd. unfold MAX_SCRIPT_ELEMENT_SIZE, OP_16, OP_CODESEPARATOR, execute, OP_PUSHDATA4. decide_tests.
  rewrite CheckMinimalPush_short by done. cbn [negb]. rewrite andb_false_r. cbn [andb forallb vfExec stack next_stack obind].
  unfold check_limit, set_stack, MAX_STACK_SIZE. cbn [stack altstack length]. by decide_tests.
Qed.

Lemma push_two_length a b : exists n, length (push_data (push_data [] a) b) = S (S n).
Proof.
  rewrite (push_data_app (push_data [] a)), length_app.
  destruct (push_data_head a) as (? & ? & -> & _), (push_data_head b) as (? & ? & -> & _).
  cbn [length]. rewrite Nat.add_succ_r. by eexists.
Qed.

Lemma EvalScript_two_pushes v (a b : bytes) :
  (2 <= length a <= 75)%nat -> (2 <= length b <= 75)%nat ->
  EvalScript CheckLowS flags v [] (push_data (push_data [] a) b) = Ok (EvalTrue SCRIPT_ERR_OK [b; a]).
Proof.
  intros Ha Hb. unfold EvalScript. destruct (push_two_length a b) as [n En]. rewrite En.
  assert (Hl : (S (S n) <= 200)%nat).
  { rewrite <- En, push_data_app, length_app, !push_small by lia. cbn [app length]. lia. }
  unfold MAX_SCRIPT_SIZE. decide_tests. rewrite push_data_app, <- (app_nil_r (push_data [] b)).
  set (code := push_data [] a ++ _).
  assert (Hne : forall x r, push_data [] x ++ r <> []) by (intros x r; by destruct (push_data_head x) as (? & ? & -> & _)).
  rewrite (eval_loop_next v _ _ (mkEval (push_data [] b ++ []) code [a] [] [] 0));
    [|apply Hne|apply eval_step_push; cbn [length]; lia].
  rewrite (eval_loop_next v _ _ (mkEval [] code [b; a] [] [] 0)); [|apply Hne|apply eval_step_push; cbn [length]; lia].
  by rewrite eval_loop_unfold.
Qed.

Lemma IsPushOnly_two_pushes a b :
  Z.of_nat (length a) < 2 ^ 32 -> Z.of_nat (length b) < 2 ^ 32 -> IsPushOnly (push_data (push_data [] a) b) = true.
Proof.
  intros Ha Hb. unfold IsPushOnly. rewrite push_data_app, <- (app_nil_r (push_data [] b)).
  destruct (GetScriptOp_push a (push_data [] b ++ []) Ha) as (o1 & E1 & H1), (GetScriptOp_push b [] Hb) as (o2 & E2 & H2).
  rewrite ops_unfold, E1, (ops_unfold (push_data [] b ++ [])), E2. cbn [fst snd].
  destruct (push_data_head a) as (? & ? & -> & _), (push_data_head b) as (? & ? & -> & _).
  cbn [app forallb op_code]. unfold OP_PUSHDATA4, OP_16 in *.
  change (ops []) with (@nil op, true). cbn [fst snd forallb op_code]. by decide_tests.
Qed.

(** The verdict on a signature for a key that hashes to [h] *)
Definition signature_verdict (v : SigVersion) (code : CScript) (sig key : bytes) : outcome (option ScriptError) :=
  match check_encodings CheckLowS flags v sig key with
  | Some e => Ok (Some e)
  | None =>
    r <-! CheckSig sig key code v ;
    Ok (if r : bool then None
        else Some (if on flags SCRIPT_VERIFY_NULLFAIL then SCRIPT_ERR_SIG_NULLFAIL else SCRIPT_ERR_EVAL_FALSE))
  end.

Definition verdict_of (e : option ScriptError) (r : eval_result) : Prop :=
  match e with
  | None => r = EvalTrue SCRIPT_ERR_OK [vchTrue]
  | Some e => r = EvalFalse e \/ e = SCRIPT_ERR_EVAL_FALSE /\ r = EvalTrue SCRIPT_ERR_OK [vchFalse]
  end.

Lemma EvalScript_pkh_verdict v (h key sig : bytes) :
  length h = 20%nat -> length sig <> 20%nat -> sig <> [] ->
  match (if bytes_eqb (Hash160 key) h then signature_verdict v (pkh_script h) sig key
         else Ok (Some SCRIPT_ERR_EQUALVERIFY)) with
  | Ok e => exists r, EvalScript CheckLowS flags v [key; sig] (pkh_script h) = Ok r /\ verdict_of e r
  | Fail => EvalScript CheckLowS flags v [key; sig] (pkh_script h) = Fail
  | NoFuel => EvalScript CheckLowS flags v [key; sig] (pkh_script h) = NoFuel
  end.
Proof.
  intros Hh Hs Hne. rewrite EvalScript_pkh by done. destruct (bytes_eqb _ _); [|eexists; split; [done|by left]].
  unfold op_checksig, signature_verdict. cbn [stack pbegincodehash]. rewrite drop_signature_pkh by done.
  destruct (check_encodings _ _ _ _ _); [eexists; split; [done|by left]|].
  destruct (CheckSig sig key (pkh_script h) v) as [[]| |]; cbn [obind]; [..|done|done].
  - eexists. split; [reflexivity|done].
  - destruct sig; [done|]. destruct (on flags SCRIPT_VERIFY_NULLFAIL); (eexists; split; [reflexivity|]); [by left|by right].
Qed.

End pay_to_pubkey_hash.

Section spends.
Context {checker : BaseSignatureChecker} (CheckLowS : bytes -> bool) (flags : Z) (Hf : flags_ok flags).

Lemma final_checks_clean witness had s :
  length s = 1%nat -> had = true \/ witness = [] -> final_checks flags witness had s = Ok None.
Proof.
  intros Hs Hw. destruct Hf as [H1 H2]. unfold final_checks. rewrite Hs.
  assert (Hn : negb had && negb (length witness =? 0)%nat = false) by (destruct Hw as [-> | ->]; [done|by rewrite andb_false_r]).
  rewrite Hn, andb_false_r.
  destruct (on flags SCRIPT_VERIFY_CLEANSTACK), (on flags SCRIPT_VERIFY_WITNESS), (on flags SCRIPT_VERIFY_P2SH);
    try (by destruct (H2 eq_refl)); try (by specialize (H1 eq_refl)); done.
Qed.

Lemma pkh_script_shape h : length h = 20%nat ->
  IsWitnessProgram (pkh_script h) = None /\ IsPayToScriptHash (pkh_script h) = false.
Proof.
  intros (x0 & x1 & x2 & x3 & x4 & x5 & x6 & x7 & x8 & x9 & x10 & x11 & x12 & x13 & x14 & x15 & x16 & x17 & x18 & x19
    & ->)%length_20. done.
Qed.

Lemma spend_pkh (h key sig : bytes) :
  length h = 20%nat -> (2 <= length sig <= 75)%nat -> length sig <> 20%nat -> (2 <= length key <= 75)%nat ->
  VerifyScript CheckLowS flags (push_data (push_data [] sig) key) (pkh_script h) None =
    if bytes_eqb (Hash160 key) h then signature_verdict CheckLowS flags BASE (pkh_script h) sig key
    else Ok (Some SCRIPT_ERR_EQUALVERIFY).
Proof.
  intros Hh Hs H20 Hk. unfold VerifyScript. rewrite IsPushOnly_two_pushes, andb_false_r by lia.
  rewrite EvalScript_two_pushes by done. cbn [obind]. unfold eval_true.
  pose proof (EvalScript_pkh_verdict CheckLowS flags BASE h key sig Hh H20 ltac:(by intros ->; cbn in *; lia)) as Hv.
  destruct (pkh_script_shape h Hh) as [Hwp Hps]. unfold verify_witness. rewrite Hwp, Hps, andb_false_r.
  destruct (if bytes_eqb _ _ then _ else _) as [[e|]| |]; [| |by rewrite Hv|by rewrite Hv].
  - destruct Hv as (r & -> & [->|[-> ->]]); done.
  - destruct Hv as (r & -> & ->). cbn [obind CastToBool vchTrue].
    destruct (on flags SCRIPT_VERIFY_WITNESS) eqn:EW; cbn; apply final_checks_clean; auto.
Qed.

Lemma EvalScript_wpkh (h : bytes) :
  length h = 20%nat -> EvalScript CheckLowS flags BASE [] (push_data [OP_0] h) = Ok (EvalTrue SCRIPT_ERR_OK [h; []]).
Proof.
  intros Hh. unfold EvalScript. rewrite push_data_app, <- (app_nil_r (push_data [] h)). set (rest := push_data [] h ++ []).
  assert (Hl : length rest = 21%nat) by (unfold rest; rewrite push_small, length_app by lia; cbn; lia).
  assert (E0 : GetScriptOp (OP_0 :: rest) = Some (OP_0, [], rest)).
  { clearbody rest. do 21 (destruct rest as [|? rest]; [done|]). by destruct rest. }
  cbn [app length]. rewrite Hl. change (MAX_SCRIPT_SIZE <? Z.of_nat 22) with false. cbv iota.
  rewrite (eval_loop_next CheckLowS flags BASE _ _ (mkEval rest (OP_0 :: rest) [[]] [] [] 0));
    [|done|unfold eval_step, execute; cbn [pc]; rewrite E0; destruct (fRequireMinimal flags); reflexivity].
  rewrite (eval_loop_next CheckLowS flags BASE _ _ (mkEval [] (OP_0 :: rest) [h; []] [] [] 0));
    [by rewrite eval_loop_unfold|intros E; cbn [pc] in E; by rewrite E in Hl|apply eval_step_push; cbn [length]; lia].
Qed.

Lemma spend_wpkh (h key sig : bytes) :
  length h = 20%nat -> CastToBool h = true -> on flags SCRIPT_VERIFY_WITNESS = true ->
  sig <> [] -> length sig <> 20%nat ->
  Z.of_nat (length sig) <= MAX_SCRIPT_ELEMENT_SIZE -> Z.of_nat (length key) <= MAX_SCRIPT_ELEMENT_SIZE ->
  VerifyScript CheckLowS flags [] (push_data [OP_0] h) (Some [sig; key]) =
    if bytes_eqb (Hash160 key) h then signature_verdict CheckLowS flags WITNESS_V0 (pkh_script h) sig key
    else Ok (Some SCRIPT_ERR_EQUALVERIFY).
Proof.
  intros Hh Hc HW Hne H20 Hs Hk. unfold VerifyScript. change (default [] (Some [sig; key])) with [sig; key].
  rewrite andb_false_r. change (EvalScript CheckLowS flags BASE [] []) with (Ok (EvalTrue SCRIPT_ERR_OK [])). cbn [obind].
  unfold eval_true. rewrite EvalScript_wpkh by done. cbn [obind]. rewrite Hc. cbn [obind]. unfold verify_witness. rewrite HW.
  assert (Hwp : IsWitnessProgram (push_data [OP_0] h) = Some (0, h)).
  { rewrite push_small by lia. apply IsWitnessProgram_push; [done|lia]. }
  assert (Hps : IsPayToScriptHash (push_data [OP_0] h) = false).
  { rewrite push_small by lia. by apply IsPayToScriptHash_push. }
  rewrite Hwp, Hps, andb_false_r. change (length [] =? 0)%nat with true. cbv iota. unfold VerifyWitnessProgram, witness_script.
  rewrite Hh. change (p2wpkh_script h) with (pkh_script h). cbn -[EvalScript bytes_eqb Hash160 pkh_script signature_verdict resize1 final_checks Z.ltb].
  decide_tests.
  cbn [orb]. pose proof (EvalScript_pkh_verdict CheckLowS flags WITNESS_V0 h key sig Hh H20 Hne) as Hv.
  destruct (if bytes_eqb _ _ then _ else _) as [[e|]| |]; [| |by rewrite Hv|by rewrite Hv].
  - destruct Hv as (r & -> & [->|[-> ->]]); done.
  - destruct Hv as (r & -> & ->). cbn -[final_checks]. by apply final_checks_clean; auto.
Qed.

End spends.

(** ** The checkers of a transaction return *)

#[export] Instance BaseSignatureChecker_total : CheckerTotal BaseSignatureChecker_default.
Proof. split; intros; by eexists. Qed.

Lemma check_sig_total Verify sighash_of sig key :
  (forall t, exists h, sighash_of t = Ok h) -> exists b, check_sig Verify sighash_of sig key = Ok b.
Proof.
  intros H. unfold check_sig. case_match; [by eexists|]. case_match; [by eexists|].
  edestruct H as [h ->]. by eexists.
Qed.

Lemma TransactionSignatureChecker_total Verify txTo n amount txdata :
  (n < length (vin txTo))%nat -> CheckerTotal (TransactionSignatureChecker Verify txTo n amount txdata).
Proof.
  intros [txin Hn]%lookup_lt_is_Some_2. split.
  - intros sig key code v. apply check_sig_total. intros t. unfold SignatureHash. rewrite Hn. cbn [of_option obind].
    repeat case_match; by eexists.
  - intros m. cbn [CheckLockTime TransactionSignatureChecker]. unfold tx_CheckLockTime. rewrite Hn. cbn [of_option obind].
    repeat case_match; by eexists.
  - intros m. cbn [CheckSequence TransactionSignatureChecker]. unfold tx_CheckSequence. rewrite Hn. cbn [of_option obind].
    repeat case_match; by eexists.
Qed.

(** ** Theorems *)

(** C1 (flags are soft forks): what [VerifyScript] accepts under a set of
    flags it accepts under any smaller set with the same sender flag, if the
    smaller set keeps P2SH with WITNESS and both with CLEANSTACK; whatever
    the scripts, the witness and the signature checker. *)
Theorem flags_are_soft_forks {checker : BaseSignatureChecker} (CheckLowS : bytes -> bool) (A B : Z)
    (scriptSig scriptPubKey : CScript) (witness : option (list bytes)) :
  restricts A B -> flags_ok A ->
  VerifyScript CheckLowS B scriptSig scriptPubKey witness = Ok None ->
  VerifyScript CheckLowS A scriptSig scriptPubKey witness = Ok None.
Proof. intros Hr HA. by apply VerifyScript_mono. Qed.

(** C15 (verification returns): on byte strings, with a checker that returns
    and flags that keep P2SH with WITNESS and both with CLEANSTACK,
    [VerifyScript] returns: the loops end, and no assertion fails, in
    particular the one that the stack of a P2SH spend is not empty. *)
Theorem VerifyScript_returns `{!CheckerTotal checker} (CheckLowS : bytes -> bool) (flags : Z)
    (scriptSig scriptPubKey : CScript) (witness : list bytes) :
  flags_ok flags -> bytes_ok scriptSig -> bytes_ok scriptPubKey -> witness_ok witness ->
  exists r, VerifyScript CheckLowS flags scriptSig scriptPubKey (Some witness) = Ok r.
Proof. intros. by apply VerifyScript_ok. Qed.

(** C34 (type and limits of the machine): from a stack within the limits
    [EvalScript] returns, and what it leaves on the stack are byte strings no
    longer than a script, at most one more than the stack limit. *)
Theorem EvalScript_well_typed `{!CheckerTotal checker} (CheckLowS : bytes -> bool) (flags : Z) (v : SigVersion)
    (script : CScript) (s : list valtype) :
  bytes_ok script -> Forall (elem_ok MAX_SCRIPT_ELEMENT_SIZE) s -> Z.of_nat (length s) <= MAX_STACK_SIZE ->
  exists r, EvalScript CheckLowS flags v s script = Ok r /\ forall e s', r = EvalTrue e s' -> result_ok MAX_STACK_SIZE s'.
Proof. intros. apply (EvalScript_ok MAX_SCRIPT_ELEMENT_SIZE MAX_STACK_SIZE); done. Qed.

(** Strict DER: [IsValidSignatureEncoding] accepts exactly the byte
    strings of 9 to 73 bytes that are the DER encoding of two positive
    integers, followed by the byte of the hash type if there is one. *)
Theorem strict_DER (sig : valtype) (haveHashType : bool) :
  bytes_ok sig ->
  IsValidSignatureEncoding sig haveHashType = true <->
  (9 <= length sig <= 73)%nat /\
  exists R S hashtype, sig = der_signature R S hashtype /\ length hashtype = (if haveHashType then 1 else 0)%nat /\
    der_integer R /\ der_integer S.
Proof. apply IsValidSignatureEncoding_DER. Qed.

(** Spending a key hash: the verdict on a signature and a key for the
    output that [GetScriptForDestination] makes for a key hash, whether in
    the scriptSig or in the witness: the key has to hash to the destination,
    the encodings have to satisfy the flags, and the checker has to accept
    the signature for the pay-to-pubkey-hash script. *)
Theorem key_hash_spend {checker : BaseSignatureChecker} (CheckLowS : bytes -> bool) (flags : Z) (h key sig : bytes) :
  flags_ok flags -> length h = 20%nat ->
  (2 <= length sig <= 75)%nat -> length sig <> 20%nat -> (2 <= length key <= 75)%nat ->
  let verdict v :=
    if bytes_eqb (Hash160 key) h then signature_verdict CheckLowS flags v (pkh_script h) sig key
    else Ok (Some SCRIPT_ERR_EQUALVERIFY) in
  exists p2pkh p2wpkh,
    GetScriptForDestination (PKHash h) = Ok p2pkh /\ GetScriptForDestination (WitnessV0KeyHash h) = Ok p2wpkh /\
    VerifyScript CheckLowS flags (push_data (push_data [] sig) key) p2pkh None = verdict BASE /\
    (on flags SCRIPT_VERIFY_WITNESS = true -> CastToBool h = true ->
     VerifyScript CheckLowS flags [] p2wpkh (Some [sig; key]) = verdict WITNESS_V0).
Proof.
  intros Hf Hh Hs H20 Hk verdict. exists (pkh_script h), (push_data [OP_0] h). split_and!; [done|done|by apply spend_pkh|].
  intros HW Hc. apply spend_wpkh; try done; [by intros ->; cbn in Hs; lia|unfold MAX_SCRIPT_ELEMENT_SIZE; lia..].
Qed.

(** ** Concrete instances *)

Definition standard_flags : Z :=
  Z.lor (Z.lor SCRIPT_VERIFY_P2SH SCRIPT_VERIFY_WITNESS) (Z.lor SCRIPT_VERIFY_CLEANSTACK SCRIPT_VERIFY_MINIMALDATA).

Definition all_low (sig : bytes) : bool := true.

Lemma flags_are_soft_forks_witness :
  VerifyScript (checker := BaseSignatureChecker_default) all_low SCRIPT_VERIFY_P2SH [OP_1] [OP_DUP; OP_EQUAL] None = Ok None.
Proof.
  apply (flags_are_soft_forks all_low SCRIPT_VERIFY_P2SH standard_flags); [split; reflexivity|split; done|].
  vm_compute. reflexivity.
Defined.

(** A checker for an input of a transaction, with a verification that accepts *)
Definition a_tx : CTransaction :=
  mkTransaction 2 [mkTxIn (mkOutPoint (repeat 1 32) 0) [] 5 []] [mkTxOut 7 [OP_1]] 0.

Definition a_checker : BaseSignatureChecker := TransactionSignatureChecker (fun _ _ _ => true) a_tx 0 7 None.

Lemma bytes_ok_small l : forallb (fun x => (0 <=? x) && (x <? 256)) l = true -> bytes_ok l.
Proof.
  intros H. apply List.Forall_forall. intros x Hx. eapply forallb_forall in H; [|exact Hx].
  bool_to_prop. unfold in_u. lia.
Qed.

Lemma VerifyScript_returns_witness :
  exists r, VerifyScript (checker := a_checker) all_low standard_flags [1; OP_1] (push_data [OP_HASH160] (repeat 7 20) ++ [OP_EQUAL])
    (Some [[5]]) = Ok r.
Proof.
  apply (VerifyScript_returns (CheckerTotal0 := TransactionSignatureChecker_total _ a_tx 0 7 None (le_n 1))).
  - split; done.
  - by apply bytes_ok_small.
  - by apply bytes_ok_small.
  - split; [|done]. constructor; [by apply bytes_ok_small|constructor].
Defined.

Lemma EvalScript_well_typed_witness :
  exists r, EvalScript (checker := a_checker) all_low standard_flags BASE [[1]; [2]] [OP_SWAP; OP_ADD; OP_1; OP_CALL] = Ok r /\
    forall e s', r = EvalTrue e s' -> result_ok MAX_STACK_SIZE s'.
Proof.
  apply (EvalScript_well_typed (CheckerTotal0 := TransactionSignatureChecker_total _ a_tx 0 7 None (le_n 1))).
  - by apply bytes_ok_small.
  - repeat constructor; by vm_compute.
  - by vm_compute.
Defined.

Definition a_sig : bytes := der_signature [1] [0; 0x81] [1].

Lemma strict_DER_witness :
  IsValidSignatureEncoding a_sig true = true <->
  (9 <= length a_sig <= 73)%nat /\
  exists R S hashtype, a_sig = der_signature R S hashtype /\ length hashtype = 1%nat /\
    der_integer R /\ der_integer S.
Proof. apply (strict_DER a_sig true). by apply bytes_ok_small. Defined.

Definition a_key : bytes := 2 :: repeat 9 32.

Lemma key_hash_spend_witness :
  exists p2pkh p2wpkh,
    GetScriptForDestination (PKHash (Hash160 a_key)) = Ok p2pkh /\
    GetScriptForDestination (WitnessV0KeyHash (Hash160 a_key)) = Ok p2wpkh /\
    VerifyScript (checker := a_checker) all_low standard_flags (push_data (push_data [] [4; 4; 1]) a_key) p2pkh None =
      signature_verdict (checker := a_checker) all_low standard_flags BASE (pkh_script (Hash160 a_key)) [4; 4; 1] a_key /\
    (on standard_flags SCRIPT_VERIFY_WITNESS = true -> CastToBool (Hash160 a_key) = true ->
     VerifyScript (checker := a_checker) all_low standard_flags [] p2wpkh (Some [[4; 4; 1]; a_key]) =
      signature_verdict (checker := a_checker) all_low standard_flags WITNESS_V0 (pkh_script (Hash160 a_key)) [4; 4; 1] a_key).
Proof.
  assert (E : bytes_eqb (Hash160 a_key) (Hash160 a_key) = true) by (by apply bytes_eqb_eq).
  pose proof (key_hash_spend (checker := a_checker) all_low standard_flags (Hash160 a_key) a_key [4; 4; 1]) as H.
  cbv zeta in H. rewrite E in H. refine (H _ _ _ _ _).
  all: clear.
  - split; done.
  - exact (proj2 (ripemd160_output_ok _)).
  - cbn; lia.
  - done.
  - cbn; lia.
Defined.
