(* ===== verification/TxVerify.v ===== *)
(** * TxVerify: the checks of a transaction
    (src/src/consensus/validation.h, src/src/consensus/tx_check.cpp,
    src/src/consensus/tx_verify.cpp)

    A check returns its verdict with the validation state it leaves; the debug
    message of the state, text for the log, is left out.  A failed assertion,
    a read out of bounds and an exception are [Fail].  The coins come from a
    cache of unspent outputs ([Coins]), which a lookup may fill, so the checks
    thread it; the theorems use the cache's contract only.  The addresses that
    [QtumDGP] reads from the contract state are a parameter. *)

From Stdlib Require Import ZArith List Lia Bool String.
From stdpp Require Import base decidable list option gmap.
From S2P Require Import Prelude Uint256 Primitives Chain Consensus Script HashBuffer Sha256 Hash Serialize Standard Coins Utxo SigHash Interpreter.
Local Open Scope Z_scope.
Local Open Scope outcome_scope.

Abbreviation length := List.length.

(** ** Validation state *)

Definition REJECT_MALFORMED : Z := 0x01.
Definition REJECT_INVALID : Z := 0x10.
Definition REJECT_OBSOLETE : Z := 0x11.
Definition REJECT_DUPLICATE : Z := 0x12.
Definition REJECT_NONSTANDARD : Z := 0x40.
Definition REJECT_INSUFFICIENTFEE : Z := 0x42.
Definition REJECT_CHECKPOINT : Z := 0x43.

Inductive ValidationInvalidReason :=
  | NONE | CONSENSUS | RECENT_CONSENSUS_CHANGE
  | CACHED_INVALID | BLOCK_INVALID_HEADER | BLOCK_MUTATED | BLOCK_MISSING_PREV | BLOCK_INVALID_PREV
  | BLOCK_TIME_FUTURE | BLOCK_CHECKPOINT | BLOCK_HEADER_SPAM | BLOCK_HEADER_REJECT | BLOCK_HEADER_SYNC
  | TX_NOT_STANDARD | TX_MISSING_INPUTS | TX_PREMATURE_SPEND | TX_WITNESS_MUTATED | TX_CONFLICT
  | TX_MEMPOOL_POLICY | TX_INVALID_SENDER_SCRIPT | TX_GAS_EXCEEDS_LIMIT.

Definition IsTransactionReason (r : ValidationInvalidReason) : bool :=
  match r with
  | NONE | CONSENSUS | RECENT_CONSENSUS_CHANGE | TX_NOT_STANDARD | TX_PREMATURE_SPEND | TX_MISSING_INPUTS
  | TX_WITNESS_MUTATED | TX_CONFLICT | TX_MEMPOOL_POLICY | TX_INVALID_SENDER_SCRIPT | TX_GAS_EXCEEDS_LIMIT => true
  | _ => false
  end.

Definition IsBlockReason (r : ValidationInvalidReason) : bool :=
  match r with
  | NONE | CONSENSUS | RECENT_CONSENSUS_CHANGE | CACHED_INVALID | BLOCK_INVALID_HEADER | BLOCK_MUTATED
  | BLOCK_MISSING_PREV | BLOCK_INVALID_PREV | BLOCK_TIME_FUTURE | BLOCK_CHECKPOINT | BLOCK_HEADER_SPAM
  | BLOCK_HEADER_REJECT | BLOCK_HEADER_SYNC => true
  | _ => false
  end.

Inductive mode_state := MODE_VALID | MODE_INVALID | MODE_ERROR.

Record CValidationState := mkState {
  mode : mode_state;
  m_reason : ValidationInvalidReason;
  strRejectReason : string;
  chRejectCode : Z }.

Definition CValidationState_new : CValidationState := mkState MODE_VALID NONE EmptyString 0.

Definition Invalid (reasonIn : ValidationInvalidReason) (chRejectCodeIn : Z) (strRejectReasonIn : string)
    (state : CValidationState) : CValidationState :=
  mkState (match mode state with MODE_ERROR => MODE_ERROR | _ => MODE_INVALID end) reasonIn strRejectReasonIn chRejectCodeIn.

Definition Error (strRejectReasonIn : string) (state : CValidationState) : CValidationState :=
  mkState MODE_ERROR (m_reason state)
    (match mode state with MODE_VALID => strRejectReasonIn | _ => strRejectReason state end) (chRejectCode state).

Definition state_IsValid (state : CValidationState) : bool := match mode state with MODE_VALID => true | _ => false end.
Definition state_IsInvalid (state : CValidationState) : bool := match mode state with MODE_INVALID => true | _ => false end.
Definition state_IsError (state : CValidationState) : bool := match mode state with MODE_ERROR => true | _ => false end.

(** [return state.Invalid(..., false, REJECT_INVALID, ...)] of a check *)
Definition reject (reason : ValidationInvalidReason) (why : string) (state : CValidationState) : bool * CValidationState :=
  (false, Invalid reason REJECT_INVALID why state).

(** ** Sizes and weights *)

(** [GetSerializeSize] of a transaction, without and with its witnesses *)
Definition tx_size (fAllowWitness : bool) (tx : CTransaction) : Z := Z.of_nat (length (SerializeTransaction fAllowWitness tx)).

Definition GetTransactionWeight (tx : CTransaction) : Z :=
  tx_size false tx * (WITNESS_SCALE_FACTOR - 1) + tx_size true tx.

Definition GetBlockWeight (block : CBlock) : Z :=
  Z.of_nat (length (Serialize_CBlock false block)) * (WITNESS_SCALE_FACTOR - 1) + Z.of_nat (length (Serialize_CBlock true block)).

Definition GetTransactionInputWeight (txin : CTxIn) : Z :=
  Z.of_nat (length (Serialize_CTxIn txin)) * (WITNESS_SCALE_FACTOR - 1) + Z.of_nat (length (Serialize_CTxIn txin)) +
  Z.of_nat (length (Serialize_stack (scriptWitness txin))).

(** ** Values *)

(** [CTransaction::GetValueOut]: burnt outputs do not count; it throws where a
    value is out of range. *)
Fixpoint value_out (outs : list CTxOut) (nValueOut : Z) : outcome Z :=
  match outs with
  | [] => Ok nValueOut
  | tx_out :: outs =>
    if IsBurnt (scriptPubKey tx_out) then value_out outs nValueOut
    else
      let nValueOut := s64 (nValueOut + nValue tx_out) in
      if negb (MoneyRange (nValue tx_out)) || negb (MoneyRange nValueOut) then Fail
      else value_out outs nValueOut
  end.

Definition GetValueOut (tx : CTransaction) : outcome Z := value_out (vout tx) 0.

Definition tx_HasCreateOrCall (tx : CTransaction) : bool :=
  existsb (fun v => HasOpCreate (scriptPubKey v) || HasOpCall (scriptPubKey v)) (vout tx).

Definition tx_HasOpSpend (tx : CTransaction) : bool := existsb (fun i => HasOpSpend (scriptSig i)) (vin tx).

Definition tx_HasOpCreate (tx : CTransaction) : bool := existsb (fun v => HasOpCreate (scriptPubKey v)) (vout tx).

Definition tx_HasOpCall (tx : CTransaction) : bool := existsb (fun v => HasOpCall (scriptPubKey v)) (vout tx).

(** ** [CheckTransaction] *)

Section check.
Context (tx : CTransaction) (dgpMaxBlockWeight : Z).

(** The loop over the outputs: the reason of the rejection, if any *)
Fixpoint check_outputs (outs : list CTxOut) (nValueOut : Z) : outcome (option string) :=
  match outs with
  | [] => Ok None
  | txout :: outs =>
    if txout_IsEmpty txout && negb (IsCoinBase tx) && negb (IsCoinStake tx) then Ok (Some "bad-txns-vout-empty"%string)
    else if nValue txout <? 0 then Ok (Some "bad-txns-vout-negative"%string)
    else if MAX_MONEY <? nValue txout then Ok (Some "bad-txns-vout-toolarge"%string)
    else
      let nValueOut := s64 (nValueOut + nValue txout) in
      if negb (MoneyRange nValueOut) then Ok (Some "bad-txns-txouttotal-toolarge"%string)
      else if HasOpCall (scriptPubKey txout) || HasOpCreate (scriptPubKey txout) || HasOpSender (scriptPubKey txout) then
        r <-! Solver (scriptPubKey txout) true false ;
        if bool_decide (fst r = TX_NONSTANDARD) then Ok (Some "bad-txns-contract-nonstandard"%string)
        else check_outputs outs nValueOut
      else check_outputs outs nValueOut
  end.

(** The insertions into [vInOutPoints]: whether all are new *)
Fixpoint no_duplicates (ins : list CTxIn) (vInOutPoints : list COutPoint) : bool :=
  match ins with
  | [] => true
  | txin :: ins =>
    if bool_decide (prevout txin ∈ vInOutPoints) then false else no_duplicates ins (prevout txin :: vInOutPoints)
  end.

Definition check_inputs : option string :=
  if IsCoinBase tx then
    match vin tx with
    | txin :: _ =>
      let size := Z.of_nat (length (scriptSig txin)) in
      if (size <? 2) || (100 <? size) then Some "bad-cb-length"%string else None
    | [] => None
    end
  else if existsb (fun txin => outpoint_IsNull (prevout txin)) (vin tx) then Some "bad-txns-prevout-null"%string
  else None.

Definition CheckTransaction (state : CValidationState) (fCheckDuplicateInputs : bool) : outcome (bool * CValidationState) :=
  let bad why := Ok (reject CONSENSUS why state) in
  match vin tx, vout tx with
  | [], _ => bad "bad-txns-vin-empty"%string
  | _, [] => bad "bad-txns-vout-empty"%string
  | _, _ =>
    if (MAX_TRANSACTION_BASE_SIZE <? tx_size false tx) || (dgpMaxBlockWeight <? tx_size false tx * WITNESS_SCALE_FACTOR)
    then bad "bad-txns-oversize"%string
    else
      r <-! check_outputs (vout tx) 0 ;
      match r with
      | Some why => bad why
      | None =>
        if fCheckDuplicateInputs && negb (no_duplicates (vin tx) []) then bad "bad-txns-inputs-duplicate"%string
        else match check_inputs with Some why => bad why | None => Ok (true, state) end
      end
  end.

End check.

(** ** Lock times *)

Definition IsFinalTx (tx : CTransaction) (nBlockHeight nBlockTime : Z) : bool :=
  if nLockTime tx =? 0 then true
  else if nLockTime tx <? (if nLockTime tx <? LOCKTIME_THRESHOLD then nBlockHeight else nBlockTime) then true
  else forallb (fun txin => nSequence txin =? SEQUENCE_FINAL) (vin tx).

(** The loop of [CalculateSequenceLocks]: the locks and the heights left in
    [prevHeights] *)
Fixpoint sequence_locks (st : gmap ptr CBlockIndex) (block : ptr) (ins : list (CTxIn * Z)) (nMinHeight nMinTime : Z)
    : outcome (Z * Z * list Z) :=
  match ins with
  | [] => Ok (nMinHeight, nMinTime, [])
  | (txin, nCoinHeight) :: ins =>
    if has_flag (nSequence txin) SEQUENCE_LOCKTIME_DISABLE_FLAG then
      r <-! sequence_locks st block ins nMinHeight nMinTime ; Ok (fst r, 0 :: snd r)
    else
      let lock := Z.land (nSequence txin) SEQUENCE_LOCKTIME_MASK in
      if has_flag (nSequence txin) SEQUENCE_LOCKTIME_TYPE_FLAG then
        a <-! GetAncestor st block (Z.max (nCoinHeight - 1) 0) ;
        a <-! of_option a ;
        nCoinTime <-! GetMedianTimePast st a ;
        r <-! sequence_locks st block ins nMinHeight
          (Z.max nMinTime (nCoinTime + Z.shiftl lock SEQUENCE_LOCKTIME_GRANULARITY - 1)) ;
        Ok (fst r, nCoinHeight :: snd r)
      else
        r <-! sequence_locks st block ins (Z.max nMinHeight (nCoinHeight + lock - 1)) nMinTime ;
        Ok (fst r, nCoinHeight :: snd r)
  end.

Definition CalculateSequenceLocks (st : gmap ptr CBlockIndex) (tx : CTransaction) (flags : Z) (prevHeights : list Z)
    (block : ptr) : outcome (Z * Z * list Z) :=
  if negb (length prevHeights =? length (vin tx))%nat then Fail
  else
    let fEnforceBIP68 := (2 <=? u32 (nVersion tx)) && has_flag flags LOCKTIME_VERIFY_SEQUENCE in
    if negb fEnforceBIP68 then Ok (-1, -1, prevHeights)
    else sequence_locks st block (combine (vin tx) prevHeights) (-1) (-1).

Definition EvaluateSequenceLocks (st : gmap ptr CBlockIndex) (block : ptr) (lockPair : Z * Z) : outcome bool :=
  b <-! deref st block ;
  prev <-! of_option (pprev b) ;
  nBlockTime <-! GetMedianTimePast st prev ;
  Ok (negb ((Chain.nHeight b <=? fst lockPair) || (nBlockTime <=? snd lockPair))).

(** The verdict and the heights left *)
Definition SequenceLocks (st : gmap ptr CBlockIndex) (tx : CTransaction) (flags : Z) (prevHeights : list Z) (block : ptr)
    : outcome (bool * list Z) :=
  r <-! CalculateSequenceLocks st tx flags prevHeights block ;
  b <-! EvaluateSequenceLocks st block (fst r) ;
  Ok (b, snd r).

(** ** Signature operations *)

Definition GetLegacySigOpCount (tx : CTransaction) : Z :=
  let ins := fold_left (fun n txin => u32 (n + GetSigOpCount (scriptSig txin) false)) (vin tx) 0 in
  fold_left (fun n txout => u32 (n + GetSigOpCount (scriptPubKey txout) false)) (vout tx) ins.

Section inputs.
Context `{View : CCoinsView V}.

(** [inputs.AccessCoin(prevout); assert(!coin.IsSpent())] *)
Definition access_unspent (o : COutPoint) (c : CCoinsViewCache V) : outcome (Coin * CCoinsViewCache V) :=
  let '(cn, c) := AccessCoin o c in if IsSpent cn then Fail else Ok (cn, c).

Fixpoint p2sh_sigops (ins : list CTxIn) (nSigOps : Z) (c : CCoinsViewCache V) : outcome (Z * CCoinsViewCache V) :=
  match ins with
  | [] => Ok (nSigOps, c)
  | txin :: ins =>
    r <-! access_unspent (prevout txin) c ;
    let '(cn, c) := r in
    let script := scriptPubKey (out cn) in
    p2sh_sigops ins
      (if IsPayToScriptHash script then u32 (nSigOps + GetSigOpCountP2SH script (scriptSig txin)) else nSigOps) c
  end.

Definition GetP2SHSigOpCount (tx : CTransaction) (c : CCoinsViewCache V) : outcome (Z * CCoinsViewCache V) :=
  if IsCoinBase tx then Ok (0, c) else p2sh_sigops (vin tx) 0 c.

Fixpoint witness_sigops (ins : list CTxIn) (flags nSigOps : Z) (c : CCoinsViewCache V) : outcome (Z * CCoinsViewCache V) :=
  match ins with
  | [] => Ok (nSigOps, c)
  | txin :: ins =>
    r <-! access_unspent (prevout txin) c ;
    let '(cn, c) := r in
    n <-! CountWitnessSigOps (scriptSig txin) (scriptPubKey (out cn)) (Some (scriptWitness txin)) flags ;
    witness_sigops ins flags (s64 (nSigOps + n)) c
  end.

Definition GetTransactionSigOpCost (tx : CTransaction) (flags : Z) (c : CCoinsViewCache V) : outcome (Z * CCoinsViewCache V) :=
  let nSigOps := u32 (GetLegacySigOpCount tx * WITNESS_SCALE_FACTOR) in
  if IsCoinBase tx then Ok (nSigOps, c)
  else
    r <-! (if on flags SCRIPT_VERIFY_P2SH then
             r <-! GetP2SHSigOpCount tx c ; Ok (s64 (nSigOps + u32 (fst r * WITNESS_SCALE_FACTOR)), snd r)
           else Ok (nSigOps, c)) ;
    witness_sigops (vin tx) flags (fst r) (snd r).

(** ** [Consensus::CheckTxInputs] *)

(** The addresses of the governance and budget contracts at a height *)
Context (getGovernanceDGP getBudgetDGP : Z -> bytes).

Definition governance_call : bytes := [0x1c; 0x03; 0x18; 0xcd].
Definition budget_call : bytes := [0x10; 0x4a; 0xd8; 0x6f].

(** Whether an immature coin may be spent *)
Definition spends_reward (cn : Coin) : outcome bool :=
  let script := scriptPubKey (out cn) in
  governance <-! IsDGPContractCall script (getGovernanceDGP (nHeight cn)) governance_call ;
  if governance : bool then Ok true
  else IsDGPContractCall script (getBudgetDGP (nHeight cn)) budget_call.

Definition is_immature (nSpendHeight : Z) (cn : Coin) : bool :=
  (fCoinBase cn || fCoinStake cn) && (nSpendHeight - nHeight cn <? COINBASE_MATURITY).

(** The loop over the inputs: their value, or the reason of the rejection *)
Fixpoint check_coins (nSpendHeight : Z) (ins : list CTxIn) (nValueIn : Z) (c : CCoinsViewCache V)
    : outcome ((Z + ValidationInvalidReason * string) * CCoinsViewCache V) :=
  match ins with
  | [] => Ok (inl nValueIn, c)
  | txin :: ins =>
    r <-! access_unspent (prevout txin) c ;
    let '(cn, c) := r in
    ok <-! (if is_immature nSpendHeight cn then spends_reward cn else Ok true) ;
    if negb ok then Ok (inr (TX_PREMATURE_SPEND, "bad-txns-premature-spend-of-coinbase"%string), c)
    else
      let nValueIn := s64 (nValueIn + nValue (out cn)) in
      if negb (MoneyRange (nValue (out cn))) || negb (MoneyRange nValueIn)
      then Ok (inr (CONSENSUS, "bad-txns-inputvalues-outofrange"%string), c)
      else check_coins nSpendHeight ins nValueIn c
  end.

(** The verdict, the state, the fee and the cache; [txfee] is the fee before *)
Definition CheckTxInputs (tx : CTransaction) (state : CValidationState) (nSpendHeight txfee : Z) (c : CCoinsViewCache V)
    : outcome (bool * CValidationState * Z * CCoinsViewCache V) :=
  let '(have, c) := HaveInputs tx c in
  if negb have then Ok (reject TX_MISSING_INPUTS "bad-txns-inputs-missingorspent" state, txfee, c)
  else
    r <-! check_coins nSpendHeight (vin tx) 0 c ;
    match r with
    | (inr (reason, why), c) => Ok (reject reason why state, txfee, c)
    | (inl nValueIn, c) =>
      if IsCoinStake tx then Ok (true, state, txfee, c)
      else
        value_out <-! GetValueOut tx ;
        if nValueIn <? value_out then Ok (reject CONSENSUS "bad-txns-in-belowout" state, txfee, c)
        else
          let txfee_aux := s64 (nValueIn - value_out) in
          if negb (MoneyRange txfee_aux) then Ok (reject CONSENSUS "bad-txns-fee-outofrange" state, txfee, c)
          else Ok (true, state, txfee_aux, c)
    end.

End inputs.

(** * Correctness *)

#[local] Opaque Solver Hash.

Definition sum_values (l : list CTxOut) : Z := fold_right Z.add 0 (map nValue l).

Lemma MoneyRange_spec n : MoneyRange n = true <-> 0 <= n <= MAX_MONEY.
Proof. unfold MoneyRange. bool_to_prop. done. Qed.

Lemma MAX_MONEY_small : 0 < MAX_MONEY < 2 ^ 62.
Proof. done. Qed.

(** ** What [CheckTransaction] accepts *)

Section check_spec.
Context (tx : CTransaction) (dgpMaxBlockWeight : Z).

Definition is_contract (script : CScript) : bool := HasOpCall script || HasOpCreate script || HasOpSender script.

Record output_ok (o : CTxOut) : Prop := {
  output_not_empty : txout_IsEmpty o = true -> IsNormalTx tx = false;
  output_not_negative : 0 <= nValue o;
  output_standard : is_contract (scriptPubKey o) = true -> forall r, Solver (scriptPubKey o) true false = Ok r -> fst r <> TX_NONSTANDARD }.

Lemma sum_values_nonneg l : Forall output_ok l -> 0 <= sum_values l.
Proof. induction 1 as [|o l [] _ IH]; unfold sum_values in *; cbn; lia. Qed.

(** A check and what it decides *)
Definition decides (r : outcome (option string)) (P : Prop) : Prop := exists v, r = Ok v /\ (v = None <-> P).

Lemma decides_reject why (P : Prop) : ~ P -> decides (Ok (Some why)) P.
Proof. intros HP. eexists. split; [done|]. split; [done|]. intros ?. exfalso. auto. Qed.

Lemma decides_iff r (P Q : Prop) : decides r P -> (P <-> Q) -> decides r Q.
Proof. intros (v & -> & Hv) HPQ. exists v. split; [done|]. by rewrite Hv. Qed.

Lemma check_outputs_spec outs acc :
  0 <= acc <= MAX_MONEY ->
  decides (check_outputs tx outs acc) (Forall output_ok outs /\ acc + sum_values outs <= MAX_MONEY).
Proof.
  pose proof MAX_MONEY_small. revert acc. induction outs as [|o outs IH]; intros acc Hacc; cbn [check_outputs].
  { exists None. split; [done|]. split; [|done]. intros _. split; [constructor|]. cbn. lia. }
  assert (Hcons : output_ok o -> acc + nValue o <= MAX_MONEY -> decides (check_outputs tx outs (acc + nValue o))
    (Forall output_ok (o :: outs) /\ acc + sum_values (o :: outs) <= MAX_MONEY)).
  { intros Ho Hle. pose proof (output_not_negative _ Ho). eapply decides_iff; [apply IH; lia|].
    rewrite Forall_cons_iff. unfold sum_values. cbn. intuition lia. }
  assert (Hsum : Forall output_ok (o :: outs) -> nValue o <= sum_values (o :: outs)).
  { intros [_ Hl]%Forall_cons_iff. apply sum_values_nonneg in Hl. unfold sum_values in *. cbn. lia. }
  destruct (txout_IsEmpty o && negb (IsCoinBase tx) && negb (IsCoinStake tx)) eqn:Ee.
  { apply decides_reject. intros [[Ho _]%Forall_cons_iff _]. rewrite <- andb_assoc in Ee. apply andb_true_iff in Ee as [Ee En].
    pose proof (output_not_empty _ Ho Ee) as E. unfold IsNormalTx in E. congruence. }
  destruct (Z.ltb_spec (nValue o) 0).
  { apply decides_reject. intros [[Ho _]%Forall_cons_iff _]. pose proof (output_not_negative _ Ho). lia. }
  destruct (Z.ltb_spec MAX_MONEY (nValue o)); [apply decides_reject; intros [?%Hsum ?]; lia|].
  rewrite swrap_small by (unfold in_s; lia).
  destruct (MoneyRange (acc + nValue o)) eqn:Em; cbn [negb].
  2: { apply decides_reject. intros [?%Hsum ?]. apply not_true_iff_false in Em. rewrite MoneyRange_spec in Em. lia. }
  rewrite MoneyRange_spec in Em.
  assert (Hne : txout_IsEmpty o = true -> IsNormalTx tx = false) by (intros E; rewrite E in Ee; exact Ee).
  destruct (HasOpCall _ || _ || _) eqn:Ec; [|apply Hcons; [split; [done|lia|]|lia]; unfold is_contract; by rewrite Ec].
  destruct (Solver_total (scriptPubKey o) true false) as [r Er]. rewrite Er. cbn [obind].
  case_bool_decide as Et.
  - apply decides_reject. intros [[Ho _]%Forall_cons_iff _]. by apply (output_standard _ Ho Ec r Er).
  - apply Hcons; [split; [done|lia|]|lia]. intros _ r' Er'. assert (r' = r) as -> by congruence. exact Et.
Qed.

Lemma no_duplicates_spec ins l :
  no_duplicates ins l = true <-> NoDup (map prevout ins) /\ forall o, o ∈ map prevout ins -> o ∉ l.
Proof.
  revert l. induction ins as [|i ins IH]; intros l; cbn [no_duplicates map].
  { split; [|done]. intros _. split; [apply NoDup_nil_2|by intros o ?%elem_of_nil]. }
  rewrite NoDup_cons. case_bool_decide as Hi.
  - split; [done|]. intros [_ Hn]. exfalso. apply (Hn (prevout i)); [apply elem_of_cons; by left|done].
  - rewrite IH. setoid_rewrite elem_of_cons. split.
    + intros [Hnd Hn]. split_and!; [|done|intros o [->|Ho] Hl; [by apply Hi|by apply (Hn o Ho); right]].
      intros Hin. by apply (Hn _ Hin); left.
    + intros [[Hni Hnd] Hn]. split; [done|]. intros o Ho [->|Hl]; [done|]. by apply (Hn o); [right|].
Qed.

Record tx_ok (fCheckDuplicateInputs : bool) : Prop := {
  tx_ok_vin : vin tx <> [];
  tx_ok_vout : vout tx <> [];
  tx_ok_size : tx_size false tx <= MAX_TRANSACTION_BASE_SIZE;
  tx_ok_weight : tx_size false tx * WITNESS_SCALE_FACTOR <= dgpMaxBlockWeight;
  tx_ok_outputs : Forall output_ok (vout tx);
  tx_ok_money : sum_values (vout tx) <= MAX_MONEY;
  tx_ok_inputs : fCheckDuplicateInputs = true -> NoDup (map prevout (vin tx));
  tx_ok_coinbase : IsCoinBase tx = true -> forall i, vin tx !! 0%nat = Some i -> 2 <= Z.of_nat (length (scriptSig i)) <= 100;
  tx_ok_prevouts : IsCoinBase tx = false -> Forall (fun i => outpoint_IsNull (prevout i) = false) (vin tx) }.

Lemma check_inputs_spec :
  check_inputs tx = None <->
  (IsCoinBase tx = true -> forall i, vin tx !! 0%nat = Some i -> 2 <= Z.of_nat (length (scriptSig i)) <= 100) /\
  (IsCoinBase tx = false -> Forall (fun i => outpoint_IsNull (prevout i) = false) (vin tx)).
Proof.
  unfold check_inputs. destruct (IsCoinBase tx).
  - split; [|intros [H _]].
    + intros E. split; [|done]. intros _ i Hi. destruct (vin tx) as [|i' l]; [done|]. injection Hi as ->.
      destruct (_ || _) eqn:Eb; [done|]. bool_to_prop. lia.
    + destruct (vin tx) as [|i l]; [done|]. specialize (H eq_refl i eq_refl).
      destruct (_ || _) eqn:Eb; [|done]. bool_to_prop. lia.
  - split; [|intros [_ H]].
    + intros E. split; [done|]. intros _. apply List.Forall_forall. intros i Hi.
      destruct (outpoint_IsNull (prevout i)) eqn:En; [|done]. exfalso.
      rewrite (proj2 (existsb_exists (fun txin => outpoint_IsNull (prevout txin)) (vin tx))) in E by eauto. done.
    + destruct (existsb _ _) eqn:E; [|done]. apply existsb_exists in E as (i & Hi & En).
      pose proof (proj1 (List.Forall_forall _ _) (H eq_refl) i Hi). congruence.
Qed.

Lemma CheckTransaction_spec state fCheckDuplicateInputs :
  exists b state', CheckTransaction tx dgpMaxBlockWeight state fCheckDuplicateInputs = Ok (b, state') /\
    (b = true <-> tx_ok fCheckDuplicateInputs) /\
    if b then state' = state else exists why, state' = Invalid CONSENSUS REJECT_INVALID why state.
Proof.
  unfold CheckTransaction, reject. destruct (vin tx) as [|i ins] eqn:Ei.
  { eexists _, _. split; [done|]. split; [|by eexists]. split; [done|]. by intros []. }
  destruct (vout tx) as [|o outs] eqn:Eo.
  { eexists _, _. split; [done|]. split; [|by eexists]. split; [done|]. by intros []. }
  destruct (_ || _) eqn:Es.
  { eexists _, _. split; [done|]. split; [|by eexists]. split; [done|]. intros []. bool_to_prop. lia. }
  destruct (check_outputs_spec (o :: outs) 0) as (r & -> & Hr); [pose proof MAX_MONEY_small; lia|]. cbn [obind].
  destruct r as [why|].
  { eexists _, _. split; [done|]. split; [|by eexists]. split; [done|]. intros [].
    rewrite Eo in *. enough (Some why = None) by done. by apply Hr. }
  destruct (fCheckDuplicateInputs && negb (no_duplicates (i :: ins) [])) eqn:Ed.
  { eexists _, _. split; [done|]. split; [|by eexists]. split; [done|]. intros []. rewrite Ei in *. bool_to_prop.
    destruct Ed as [-> Ed]. rewrite (proj2 (no_duplicates_spec (i :: ins) [])) in Ed; [done|]. split; [by auto|set_solver]. }
  pose proof check_inputs_spec as Hc. rewrite Ei in Hc. destruct (check_inputs tx) as [why|].
  { eexists _, _. split; [done|]. split; [|by eexists]. split; [done|]. intros [].
    rewrite Ei in *. enough (Some why = None) by done. by apply Hc. }
  eexists _, _. split; [done|]. split; [|done]. split; [|done]. intros _. bool_to_prop.
  destruct (proj1 Hr eq_refl) as [Hout Hsum], (proj1 Hc eq_refl) as [Hcb Hprev], Es.
  split; rewrite ?Ei, ?Eo; try done. intros ->. destruct Ed as [Ed|Ed]; [done|].
  by apply no_duplicates_spec in Ed as [? _].
Qed.

End check_spec.

(** ** Values *)

(** The outputs that count: burnt coins leave the money supply *)
Definition kept (outs : list CTxOut) : list CTxOut := List.filter (fun o => negb (IsBurnt (scriptPubKey o))) outs.

Lemma sum_values_cons o l : sum_values (o :: l) = nValue o + sum_values l.
Proof. done. Qed.

Lemma kept_cons o l : kept (o :: l) = if IsBurnt (scriptPubKey o) then kept l else o :: kept l.
Proof. unfold kept. cbn. by destruct (IsBurnt _). Qed.

Lemma sum_kept l : Forall (fun o => 0 <= nValue o) l -> 0 <= sum_values (kept l) <= sum_values l.
Proof.
  induction 1 as [|o l Ho _ IH]; [cbn; lia|]. rewrite kept_cons.
  destruct (IsBurnt _); rewrite ?sum_values_cons; lia.
Qed.

Lemma value_out_spec outs acc :
  Forall (fun o => 0 <= nValue o) outs -> 0 <= acc -> acc + sum_values outs <= MAX_MONEY ->
  value_out outs acc = Ok (acc + sum_values (kept outs)).
Proof.
  pose proof MAX_MONEY_small. intros Ho. revert acc. induction Ho as [|o outs Ho Hos IH]; intros acc Ha Hs; cbn [value_out].
  { unfold sum_values. cbn. by rewrite Z.add_0_r. }
  rewrite sum_values_cons in Hs. pose proof (sum_kept _ Hos). rewrite kept_cons.
  destruct (IsBurnt _); [apply IH; lia|].
  rewrite swrap_small by (unfold in_s; lia).
  rewrite (proj2 (MoneyRange_spec (nValue o))), (proj2 (MoneyRange_spec (acc + nValue o))) by lia. cbn [negb orb].
  rewrite IH, sum_values_cons by lia. f_equal. lia.
Qed.

(** ** The coins of the inputs *)

Section input_spec.
Context `{View : CCoinsView V} `{Laws : !CCoinsViewReads V}.
Context (getGovernanceDGP getBudgetDGP : Z -> bytes) (nSpendHeight : Z).
Implicit Types c : CCoinsViewCache V.

Abbreviation reward := (spends_reward getGovernanceDGP getBudgetDGP).

Definition coin_of (u : COutPoint -> option Coin) (i : CTxIn) : Coin := default coinEmpty (u (prevout i)).

Definition value_of (u : COutPoint -> option Coin) (ins : list CTxIn) : Z :=
  sum_values (map (fun i => out (coin_of u i)) ins).

Definition available (u : COutPoint -> option Coin) (ins : list CTxIn) : Prop := Forall (fun i => is_Some (u (prevout i))) ins.

(** The script of an immature coin can be examined *)
Definition readable (u : COutPoint -> option Coin) (i : CTxIn) : Prop :=
  is_immature nSpendHeight (coin_of u i) = true -> exists b, reward (coin_of u i) = Ok b.

Record spendable (u : COutPoint -> option Coin) (i : CTxIn) : Prop := {
  spendable_mature : is_immature nSpendHeight (coin_of u i) = true -> reward (coin_of u i) = Ok true;
  spendable_value : 0 <= nValue (out (coin_of u i)) }.

Lemma access_unspent_spec o c k :
  cache_ok c -> cache_utxo c o = Some k ->
  exists c', access_unspent o c = Ok (k, c') /\ cache_ok c' /\ forall o', cache_utxo c' o' = cache_utxo c o'.
Proof.
  intros Hc Hk. unfold access_unspent. destruct (AccessCoin_spec o c Hc) as (cn & c' & -> & Hl & Hc' & Hu & _).
  rewrite Hk in Hl. unfold live in Hl. destruct (IsSpent cn); [done|]. injection Hl as ->. by exists c'.
Qed.

Lemma value_of_nonneg u ins : Forall (spendable u) ins -> 0 <= value_of u ins.
Proof. induction 1 as [|i ins [] _ IH]; unfold value_of in *; cbn [map]; [cbn; lia|]. rewrite sum_values_cons. lia. Qed.

Lemma value_of_cons u i ins : value_of u (i :: ins) = nValue (out (coin_of u i)) + value_of u ins.
Proof. done. Qed.

(** The loop over the inputs, on every branch *)
Lemma check_coins_spec u ins acc c :
  cache_ok c -> (forall o, cache_utxo c o = u o) -> available u ins -> Forall (readable u) ins -> 0 <= acc <= MAX_MONEY ->
  exists r c', check_coins getGovernanceDGP getBudgetDGP nSpendHeight ins acc c = Ok (r, c') /\ cache_ok c' /\
    (forall o, cache_utxo c' o = u o) /\
    match r with
    | inl v => Forall (spendable u) ins /\ v = acc + value_of u ins /\ v <= MAX_MONEY
    | inr (reason, _) =>
      ~ (Forall (spendable u) ins /\ acc + value_of u ins <= MAX_MONEY) /\ IsTransactionReason reason = true
    end.
Proof.
  intros Hc Hu Ha. revert acc c Hc Hu. pose proof MAX_MONEY_small.
  induction Ha as [|i ins [k Hk] Ha IH]; intros acc c Hc Hu Hr Hacc; cbn [check_coins].
  { exists (inl acc), c. split_and!; try done; unfold value_of, sum_values; cbn; lia. }
  apply Forall_cons_iff in Hr as [Hri Hr].
  assert (Ek : coin_of u i = k) by (unfold coin_of; by rewrite Hk).
  destruct (access_unspent_spec (prevout i) c k Hc) as (c1 & -> & Hc1 & Hu1); [by rewrite Hu|]. cbn [obind].
  assert (Hok : exists b : bool, (if is_immature nSpendHeight k then reward k else Ok true) = Ok b /\
    (b = true <-> (is_immature nSpendHeight k = true -> reward k = Ok true))).
  { unfold readable in Hri. rewrite Ek in Hri. destruct (is_immature nSpendHeight k); [|exists true; split; [done|]; by split].
    destruct (Hri eq_refl) as [b Hb]. exists b. split; [done|]. rewrite Hb. split; [by intros ->|]. intros E. by injection (E eq_refl). }
  destruct Hok as (b & -> & Hb). cbn [obind]. destruct b; cbn [negb].
  2: { eexists (inr _), c1. split_and!; [done|done|intros o; by rewrite Hu1|]. split; [|done].
    intros [[[Hm _] _]%Forall_cons_iff _]. rewrite Ek in Hm. enough (false = true) by done. by apply Hb. }
  destruct (MoneyRange (nValue (out k))) eqn:Em; cbn [negb orb].
  2: { eexists (inr _), c1. split_and!; [done|done|intros o; by rewrite Hu1|]. split; [|done].
    intros [[[Hm Hv] Hs]%Forall_cons_iff Hsum]. rewrite value_of_cons in Hsum. rewrite Ek in *.
    apply value_of_nonneg in Hs. apply not_true_iff_false in Em. rewrite MoneyRange_spec in Em. lia. }
  rewrite MoneyRange_spec in Em. rewrite swrap_small by (unfold in_s; lia).
  destruct (MoneyRange (acc + nValue (out k))) eqn:Em2; cbn [negb].
  2: { eexists (inr _), c1. split_and!; [done|done|intros o; by rewrite Hu1|]. split; [|done].
    intros [[[Hm Hv] Hs]%Forall_cons_iff Hsum]. rewrite value_of_cons in Hsum. rewrite Ek in *.
    apply value_of_nonneg in Hs. apply not_true_iff_false in Em2. rewrite MoneyRange_spec in Em2. lia. }
  rewrite MoneyRange_spec in Em2.
  assert (Hsp : spendable u i) by (split; rewrite Ek; [by apply Hb|lia]).
  destruct (IH (acc + nValue (out k)) c1) as (r & c2 & -> & Hc2 & Hu2 & Hres); [done|intros o; by rewrite Hu1|done|done|].
  exists r, c2. split_and!; [done|done|done|]. rewrite value_of_cons, Ek, Z.add_assoc.
  destruct r as [v|[reason why]]; [|split; [|by apply Hres]].
  - destruct Hres as (Hs & -> & Hle). split_and!; [by constructor|lia|lia].
  - destruct Hres as [Hn _]. intros [[_ Hs]%Forall_cons_iff Hsum]. by apply Hn.
Qed.

(** What a transaction has to satisfy given the unspent coins *)
Record inputs_ok (u : COutPoint -> option Coin) (tx : CTransaction) : Prop := {
  inputs_available : available u (vin tx);
  inputs_spendable : Forall (spendable u) (vin tx);
  inputs_value : value_of u (vin tx) <= MAX_MONEY;
  inputs_cover : IsCoinStake tx = false -> sum_values (kept (vout tx)) <= value_of u (vin tx) }.

Lemma CheckTxInputs_spec u tx state txfee c :
  cache_ok c -> (forall o, cache_utxo c o = u o) -> IsCoinBase tx = false ->
  Forall (readable u) (vin tx) ->
  Forall (fun o => 0 <= nValue o) (vout tx) -> sum_values (vout tx) <= MAX_MONEY ->
  exists b state' fee c', CheckTxInputs getGovernanceDGP getBudgetDGP tx state nSpendHeight txfee c = Ok (b, state', fee, c') /\
    cache_ok c' /\ (forall o, cache_utxo c' o = u o) /\ (b = true <-> inputs_ok u tx) /\
    if b then state' = state /\ fee = (if IsCoinStake tx then txfee else value_of u (vin tx) - sum_values (kept (vout tx)))
    else fee = txfee /\ exists reason why, state' = Invalid reason REJECT_INVALID why state /\ IsTransactionReason reason = true.
Proof.
  intros Hc Hu Hcb Hr Ho Hs. pose proof MAX_MONEY_small. unfold CheckTxInputs, HaveInputs. rewrite Hcb. cbn [negb].
  destruct (have_inputs_spec (vin tx) c Hc) as (c1 & -> & Hc1 & Hu1 & _).
  assert (Hu1' : forall o, cache_utxo c1 o = u o) by (intros o; by rewrite Hu1).
  case_bool_decide as Hav; cbn [negb].
  2: { eexists false, _, _, c1. split_and!; try done; [|by eexists _, _]. split; [done|]. intros [Hav' _ _ _].
    exfalso. apply Hav. eapply List.Forall_impl; [|exact Hav']. intros i. cbv beta. by rewrite Hu. }
  assert (Hav' : available u (vin tx)) by (eapply List.Forall_impl; [|exact Hav]; intros i; cbv beta; by rewrite Hu).
  destruct (check_coins_spec u (vin tx) 0 c1) as (r & c2 & -> & Hc2 & Hu2 & Hres); try (done || lia). cbn [obind].
  destruct r as [v|[reason why]].
  2: { destruct Hres as [Hn Hreason]. eexists false, _, _, c2. split_and!; try done; [|by eexists _, _].
    split; [done|]. intros []. exfalso. apply Hn. split; [done|lia]. }
  destruct Hres as (Hsp & Hv & Hle). rewrite Z.add_0_l in Hv. subst v.
  destruct (IsCoinStake tx) eqn:Ecs.
  { eexists true, _, _, c2. split_and!; try done. split; [|done]. intros _. split; [done|done|done|congruence]. }
  unfold GetValueOut. rewrite value_out_spec, Z.add_0_l by (done || lia). cbn [obind].
  pose proof (sum_kept _ Ho). pose proof (value_of_nonneg _ _ Hsp).
  destruct (Z.ltb_spec (value_of u (vin tx)) (sum_values (kept (vout tx)))).
  { eexists false, _, _, c2. split_and!; try done; [|by eexists _, _]. split; [done|]. intros []. exfalso.
    specialize (inputs_cover0 Ecs). lia. }
  rewrite swrap_small by (unfold in_s; lia). rewrite (proj2 (MoneyRange_spec _)) by lia. cbn [negb].
  eexists true, _, _, c2. split_and!; done.
Qed.

End input_spec.

(** ** Relative lock times *)

Section locks.
Context (st : gmap ptr CBlockIndex) (block : ptr).

(** The median time past of the block before the one that created a coin *)
Definition coin_time (nCoinHeight : Z) : outcome Z :=
  a <-! GetAncestor st block (Z.max (nCoinHeight - 1) 0) ;
  a <-! of_option a ;
  GetMedianTimePast st a.

(** BIP 68: an input can be spent in a block of height [height] after a block
    of median time past [time] *)
Definition lock_satisfied (height time : Z) (i : CTxIn * Z) : Prop :=
  let '(txin, nCoinHeight) := i in
  let lock := Z.land (nSequence txin) SEQUENCE_LOCKTIME_MASK in
  if has_flag (nSequence txin) SEQUENCE_LOCKTIME_DISABLE_FLAG then True
  else if has_flag (nSequence txin) SEQUENCE_LOCKTIME_TYPE_FLAG
  then forall t, coin_time nCoinHeight = Ok t -> t + lock * 2 ^ SEQUENCE_LOCKTIME_GRANULARITY <= time
  else nCoinHeight + lock <= height.

(** The times the locks refer to can be read *)
Definition lock_readable (i : CTxIn * Z) : Prop := exists t, coin_time (snd i) = Ok t.

Lemma coin_time_total b h : wf_store st -> st !! block = Some b -> h <= Chain.nHeight b -> exists t, coin_time h = Ok t.
Proof.
  intros Hwf Hb Hh. unfold coin_time. rewrite (GetAncestor_spec _ _ _ _ Hwf Hb). pose proof (wf_height _ _ _ (Hwf _ _ Hb)).
  destruct (Z.ltb_spec (Chain.nHeight b) (Z.max (h - 1) 0)); [lia|].
  destruct (Z.ltb_spec (Z.max (h - 1) 0) 0); [lia|]. cbn [orb obind].
  destruct (walk_height st block b (Z.to_nat (Chain.nHeight b - Z.max (h - 1) 0)) Hwf Hb) as (q & bq & -> & Hq & _); [lia|].
  cbn [of_option obind]. by eapply GetMedianTimePast_total.
Qed.

Lemma sequence_locks_spec ins nMinHeight nMinTime :
  Forall lock_readable ins ->
  exists h t l, sequence_locks st block ins nMinHeight nMinTime = Ok (h, t, l) /\
    l = map (fun i => if has_flag (nSequence (fst i)) SEQUENCE_LOCKTIME_DISABLE_FLAG then 0 else snd i) ins /\
    forall height time, h < height /\ t < time <->
      nMinHeight < height /\ nMinTime < time /\ Forall (lock_satisfied height time) ins.
Proof.
  intros Hr. revert nMinHeight nMinTime. induction Hr as [|[txin hc] ins [t Ht] _ IH]; intros mh mt; cbn [sequence_locks].
  { eexists _, _, _. split; [done|]. split; [done|]. intros H T. split; [|tauto]. intros [? ?]. split_and!; [done|done|constructor]. }
  cbn [snd] in Ht. cbn [map fst snd].
  set (lock := Z.land (nSequence txin) SEQUENCE_LOCKTIME_MASK).
  destruct (has_flag _ SEQUENCE_LOCKTIME_DISABLE_FLAG) eqn:Ed.
  - destruct (IH mh mt) as (h & t' & l & -> & -> & Hl). eexists _, _, _. split; [done|]. split; [done|].
    intros H T. rewrite Forall_cons_iff, Hl. unfold lock_satisfied at 2. rewrite Ed. tauto.
  - destruct (has_flag _ SEQUENCE_LOCKTIME_TYPE_FLAG) eqn:Et.
    + pose proof Ht as Ht'. unfold coin_time in Ht'. destruct (GetAncestor _ _ _) as [[a|]| |]; try done. cbn [of_option obind] in *.
      rewrite Ht'. cbn [obind].
      destruct (IH mh (Z.max mt (t + Z.shiftl lock SEQUENCE_LOCKTIME_GRANULARITY - 1))) as (h & t' & l & -> & -> & Hl).
      eexists _, _, _. split; [done|]. split; [done|]. intros H T.
      rewrite Forall_cons_iff, Hl. unfold lock_satisfied at 2. rewrite Ed, Et, Ht. fold lock.
      rewrite Z.shiftl_mul_pow2 by done. split; [intros (? & ? & ?); split_and!; try done; [lia|intros ? [= <-]; lia]|].
      intros (? & ? & Hlt & ?). specialize (Hlt t eq_refl). split_and!; [done|lia|done].
    + destruct (IH (Z.max mh (hc + lock - 1)) mt) as (h & t' & l & -> & -> & Hl).
      eexists _, _, _. split; [done|]. split; [done|]. intros H T.
      rewrite Forall_cons_iff, Hl. unfold lock_satisfied at 2. rewrite Ed, Et. fold lock.
      split; [intros (? & ? & ?); split_and!; (done || lia)|intros (? & ? & ? & ?); split_and!; (done || lia)].
Qed.

Lemma SequenceLocks_spec tx flags prevHeights b prev time :
  length prevHeights = length (vin tx) ->
  st !! block = Some b -> pprev b = Some prev -> GetMedianTimePast st prev = Ok time ->
  wf_store st -> 0 <= time -> Forall (fun h => h <= Chain.nHeight b) prevHeights ->
  exists r l, SequenceLocks st tx flags prevHeights block = Ok (r, l) /\
    (r = true <-> (2 <= u32 (nVersion tx) -> has_flag flags LOCKTIME_VERIFY_SEQUENCE = true ->
                   Forall (lock_satisfied (Chain.nHeight b) time) (combine (vin tx) prevHeights))).
Proof.
  intros Hl Hb Hp Ht Hwf H0 Hle. pose proof (wf_height _ _ _ (Hwf _ _ Hb)) as Hh.
  assert (Hr : Forall lock_readable (combine (vin tx) prevHeights)).
  { apply List.Forall_forall. intros [i h] Hi%in_combine_r. apply (coin_time_total b); [done|done|].
    by eapply List.Forall_forall in Hle. }
  unfold SequenceLocks, CalculateSequenceLocks. rewrite Hl, Nat.eqb_refl. cbn [negb].
  unfold EvaluateSequenceLocks, deref. rewrite Hb. cbn [of_option obind].
  rewrite Hp. cbn [of_option obind]. rewrite Ht. cbn [obind].
  destruct ((2 <=? u32 (nVersion tx)) && has_flag flags LOCKTIME_VERIFY_SEQUENCE) eqn:Ef; cbn [negb obind fst snd].
  - destruct (sequence_locks_spec (combine (vin tx) prevHeights) (-1) (-1) Hr) as (h & t & l & -> & _ & Hs).
    cbn [obind fst snd]. eexists _, _. split; [done|]. specialize (Hs (Chain.nHeight b) time).
    rewrite negb_true_iff, orb_false_iff, !Z.leb_gt, Hs. bool_to_prop. destruct Ef as [E1 E2].
    split; [by intros (_ & _ & ?)|]. intros H. split_and!; [lia|lia|]. by apply H.
  - eexists _, _. split; [done|]. rewrite negb_true_iff, orb_false_iff, !Z.leb_gt. split; [|intros _; lia].
    intros _ E1 E2. rewrite E2, andb_true_r in Ef. apply Z.leb_gt in Ef. lia.
Qed.

End locks.

(** ** Theorems *)

(** C32 (what CheckTransaction accepts): it returns on every transaction; it
    accepts, leaving the state alone, exactly the transactions with inputs and
    outputs, within the size limits, whose outputs are not negative, not empty
    unless the transaction is a coinbase or a coinstake, standard where they
    are contracts, and worth at most MAX_MONEY together, and whose inputs are
    distinct and not null, or the coinbase script of the right length; and it
    rejects the others as a violation of consensus. *)
Theorem CheckTransaction_decides (tx : CTransaction) (dgpMaxBlockWeight : Z) (state : CValidationState) (fCheckDuplicateInputs : bool) :
  exists b state', CheckTransaction tx dgpMaxBlockWeight state fCheckDuplicateInputs = Ok (b, state') /\
    (b = true <-> tx_ok tx dgpMaxBlockWeight fCheckDuplicateInputs) /\
    if b then state' = state else exists why, state' = Invalid CONSENSUS REJECT_INVALID why state.
Proof. apply CheckTransaction_spec. Qed.

Section theorems.
Context `{View : CCoinsView V} `{Laws : !CCoinsViewReads V}.
Context (getGovernanceDGP getBudgetDGP : Z -> bytes).

(** C8 (no value from nothing): for a transaction that [CheckTransaction]
    accepted, over any lawful view of the coins and if the scripts of the
    immature coins can be examined, [CheckTxInputs] returns without an
    exception and shows the same coins afterwards; it accepts exactly if every
    input is unspent, mature or a governance call, and worth enough, and then
    the fee is the value of the inputs less that of the outputs not burnt; a
    rejection leaves the fee alone and gives a reason for a transaction. *)
Theorem CheckTxInputs_conserves_value (tx : CTransaction) (w : Z) (state state0 state1 : CValidationState) (dup : bool)
    (nSpendHeight txfee : Z) (c : CCoinsViewCache V) :
  CheckTransaction tx w state0 dup = Ok (true, state1) ->
  IsCoinBase tx = false -> cache_ok c ->
  Forall (readable getGovernanceDGP getBudgetDGP nSpendHeight (cache_utxo c)) (vin tx) ->
  exists b state' fee c', CheckTxInputs getGovernanceDGP getBudgetDGP tx state nSpendHeight txfee c = Ok (b, state', fee, c') /\
    (forall o, cache_utxo c' o = cache_utxo c o) /\
    (b = true <-> inputs_ok getGovernanceDGP getBudgetDGP nSpendHeight (cache_utxo c) tx) /\
    if b then state' = state /\ (IsCoinStake tx = false -> value_of (cache_utxo c) (vin tx) = sum_values (kept (vout tx)) + fee)
    else fee = txfee /\ exists reason why, state' = Invalid reason REJECT_INVALID why state /\ IsTransactionReason reason = true.
Proof.
  intros Ht Hcb Hc Hr. destruct (CheckTransaction_spec tx w state0 dup) as (b & st' & E & Hb & _).
  rewrite Ht in E. injection E as <- <-. destruct (proj1 Hb eq_refl) as [_ _ _ _ Ho Hm _ _ _].
  destruct (CheckTxInputs_spec getGovernanceDGP getBudgetDGP nSpendHeight (cache_utxo c) tx state txfee c)
    as (b & s' & fee & c' & -> & _ & Hu & Hiff & Hres); try done.
  { eapply List.Forall_impl; [|exact Ho]. by intros o []. }
  eexists _, _, _, _. split; [done|]. split_and!; [done|done|]. destruct b; [|done].
  destruct Hres as [-> ->]. split; [done|]. intros ->. lia.
Qed.

(** C38 (spending the marker of a coinstake): the first output of a coinstake
    transaction, which is empty, enters the set of unspent coins; a
    transaction that spends it before it is mature makes [CheckTxInputs] read
    the last byte of the empty script. *)
Theorem coinstake_marker_reads_out_of_bounds (cs tx : CTransaction) (i : CTxIn) (state : CValidationState)
    (nHeight nSpendHeight txfee : Z) (c : CCoinsViewCache V) :
  IsCoinStake cs = true -> Forall (fun t => nValue t <> -1) (vout cs) -> Z.of_nat (length (vout cs)) <= 2 ^ 32 ->
  cache_ok c -> outputs_free (cache_utxo c) (ComputeHash cs) 0 (vout cs) ->
  vin tx = [i] -> prevout i = mkOutPoint (ComputeHash cs) 0 -> IsCoinBase tx = false ->
  0 <= nHeight < 2 ^ 30 -> nSpendHeight < nHeight + COINBASE_MATURITY ->
  exists c', AddCoins cs nHeight false c = Ok c' /\
    CheckTxInputs getGovernanceDGP getBudgetDGP tx state nSpendHeight txfee c' = Fail.
Proof.
  intros Hcs Hv Hl Hc Hfree Hin Hp Hcb Hh Hm.
  assert (E : exists i0 ins o0 outs, vin cs = i0 :: ins /\ vout cs = o0 :: outs /\ outpoint_IsNull (prevout i0) = false /\ txout_IsEmpty o0 = true).
  { unfold IsCoinStake in Hcs. destruct (vin cs) as [|i0 ins]; [done|]. destruct (vout cs) as [|o0 [|o1 outs]]; [done|done|].
    bool_to_prop. destruct Hcs. by eexists _, _, _, _. }
  destruct E as (i0 & ins & o0 & outs & Ei & Eo & Hn & He).
  assert (Ecb : IsCoinBase cs = false) by (unfold IsCoinBase; rewrite Ei; destruct ins; [by rewrite Hn|done]).
  unfold AddCoins. rewrite Ecb, Hcs.
  destruct (add_coins_spec (ComputeHash cs) nHeight false true 0 (vout cs) c) as (c' & -> & Hc' & Hu); [done|done|lia|lia|by right|].
  exists c'. split; [done|]. set (k := Coin_new o0 nHeight false true).
  assert (Hscript : scriptPubKey o0 = []).
  { unfold txout_IsEmpty in He. bool_to_prop. destruct He as [_ He]. by destruct (scriptPubKey o0). }
  assert (Hk : cache_utxo c' (prevout i) = Some k).
  { rewrite Hp, Hu, Eo. unfold plus. cbn [created]. rewrite Hscript. change (IsUnspendable []) with false. cbv iota.
    change (u32 0) with 0. by rewrite lookup_insert_eq. }
  unfold CheckTxInputs, HaveInputs. rewrite Hcb, Hin. cbn [negb].
  destruct (have_inputs_spec [i] c' Hc') as (c1 & -> & Hc1 & Hu1 & _).
  rewrite bool_decide_true by (repeat constructor; rewrite Hk; by eexists). cbn [negb check_coins].
  destruct (access_unspent_spec (prevout i) c1 k Hc1) as (c2 & -> & _); [by rewrite Hu1|]. cbn [obind].
  replace (is_immature nSpendHeight k) with true
    by (symmetry; unfold is_immature, k; cbn; apply Z.ltb_lt; rewrite wrap_small by (unfold in_u; lia); lia).
  unfold spends_reward, k. cbn [Coin_new out]. by rewrite Hscript.
Qed.

End theorems.

(** Relative lock times: [SequenceLocks] of a transaction whose coins
    are not younger than the block returns, and it accepts exactly if the
    version or the flags do not ask for BIP 68, or every input satisfies its
    relative lock: by height from the height of the coin, or by time, in units
    of 512 seconds, from the median time past of the block before it. *)
Theorem SequenceLocks_is_BIP68 (st : gmap ptr CBlockIndex) (block prev : ptr) (b : CBlockIndex) (tx : CTransaction)
    (flags time : Z) (prevHeights : list Z) :
  length prevHeights = length (vin tx) ->
  st !! block = Some b -> pprev b = Some prev -> GetMedianTimePast st prev = Ok time ->
  wf_store st -> 0 <= time -> Forall (fun h => h <= Chain.nHeight b) prevHeights ->
  exists r l, SequenceLocks st tx flags prevHeights block = Ok (r, l) /\
    (r = true <-> (2 <= u32 (nVersion tx) -> has_flag flags LOCKTIME_VERIFY_SEQUENCE = true ->
                   Forall (lock_satisfied st block (Chain.nHeight b) time) (combine (vin tx) prevHeights))).
Proof. apply SequenceLocks_spec. Qed.

(** ** Concrete instances *)

(** A transaction that spends [coin_a] and one that is a coinstake *)
Definition a_payment : CTransaction :=
  mkTransaction 2 [mkTxIn out_a [] 5 []] [mkTxOut 30 [OP_1]; mkTxOut 7 [OP_1]] 0.

Definition a_coinstake : CTransaction :=
  mkTransaction 2 [mkTxIn out_a [] 5 []] [mkTxOut 0 []; mkTxOut 60 [OP_1]] 0.

Definition one_coin : CCoinsViewCache CoinStore := CCoinsViewCache_new (mkStore {[out_a := coin_a]} uint256_null).

Lemma one_coin_ok : cache_ok one_coin.
Proof.
  apply cache_new_ok. intros o k H. cbn in H. apply lookup_singleton_Some in H as [<- <-]. done.
Qed.

Definition no_dgp (height : Z) : bytes := [].

Lemma CheckTxInputs_conserves_value_witness :
  CheckTransaction a_payment 1000000 CValidationState_new true = Ok (true, CValidationState_new) /\
  exists b state' fee c', CheckTxInputs no_dgp no_dgp a_payment CValidationState_new 100 0 one_coin = Ok (b, state', fee, c') /\
    (forall o, cache_utxo c' o = cache_utxo one_coin o) /\
    (b = true <-> inputs_ok no_dgp no_dgp 100 (cache_utxo one_coin) a_payment) /\
    if b then state' = CValidationState_new /\
              (IsCoinStake a_payment = false ->
               value_of (cache_utxo one_coin) (vin a_payment) = sum_values (kept (vout a_payment)) + fee)
    else fee = 0 /\ exists reason why, state' = Invalid reason REJECT_INVALID why CValidationState_new /\ IsTransactionReason reason = true.
Proof.
  assert (E : CheckTransaction a_payment 1000000 CValidationState_new true = Ok (true, CValidationState_new)) by (vm_compute; reflexivity).
  split; [exact E|].
  apply (CheckTxInputs_conserves_value no_dgp no_dgp a_payment 1000000 CValidationState_new _ _ true 100 0 one_coin E);
    [reflexivity|exact one_coin_ok|].
  constructor; [|constructor]. intros H. vm_compute in H. discriminate H.
Defined.

Definition a_marker_spend : CTransaction :=
  mkTransaction 2 [mkTxIn (mkOutPoint (ComputeHash a_coinstake) 0) [] 5 []] [mkTxOut 0 [OP_1]] 0.

Lemma a_coinstake_free : outputs_free (cache_utxo one_coin) (ComputeHash a_coinstake) 0 (vout a_coinstake).
Proof.
  intros m Hm. unfold cache_utxo. cbn [one_coin CCoinsViewCache_new cacheCoins base]. rewrite lookup_empty.
  apply lookup_singleton_ne. intros E. apply (f_equal op_hash) in E. cbn [op_hash] in E. vm_compute in E. discriminate E.
Qed.

Lemma coinstake_marker_reads_out_of_bounds_witness :
  exists c', AddCoins a_coinstake 5000 false one_coin = Ok c' /\
    CheckTxInputs no_dgp no_dgp a_marker_spend CValidationState_new 5001 0 c' = Fail.
Proof.
  apply (coinstake_marker_reads_out_of_bounds no_dgp no_dgp a_coinstake a_marker_spend
    (mkTxIn (mkOutPoint (ComputeHash a_coinstake) 0) [] 5 [])).
  - reflexivity.
  - repeat constructor; done.
  - done.
  - exact one_coin_ok.
  - exact a_coinstake_free.
  - reflexivity.
  - reflexivity.
  - reflexivity.
  - lia.
  - unfold COINBASE_MATURITY. lia.
Defined.

Lemma SequenceLocks_is_BIP68_witness :
  exists r l, SequenceLocks example_store a_payment LOCKTIME_VERIFY_SEQUENCE [1] 4%positive = Ok (r, l) /\
    (r = true <-> (2 <= u32 (nVersion a_payment) -> has_flag LOCKTIME_VERIFY_SEQUENCE LOCKTIME_VERIFY_SEQUENCE = true ->
      Forall (lock_satisfied example_store 4%positive 3 110) (combine (vin a_payment) [1]))).
Proof.
  apply (SequenceLocks_is_BIP68 example_store 4%positive 3%positive (example_index 4 3 (Some 3%positive) (Some 2%positive) 130)).
  - reflexivity.
  - reflexivity.
  - reflexivity.
  - vm_compute. reflexivity.
  - exact example_store_wf.
  - lia.
  - repeat constructor. cbn. lia.
Defined.
