(* ===== verification/Pos.v ===== *)
(** * Pos: proof of stake (src/src/pos.h, src/src/pos.cpp)

    The kernel of a staked coin and its weighted target, the checks of a
    coinstake and of the block signature, the staker's cache of kernels, and
    the scripts that share a reward between recent stakers with their cache.
    With them the lookup of a coin that was spent on the active chain
    ([GetSpentCoinFromMainChain] of src/src/validation.cpp) and
    [VerifySignature] of src/src/script/sign.cpp.

    Elliptic curve operations, the contents of the block files and of the
    stake index are parameters. *)

From Stdlib Require Import ZArith List Lia Bool String.
From stdpp Require Import base decidable list option gmap fin_maps.
From S2P Require Import Prelude Uint256 Primitives Chain Consensus Script HashBuffer Sha256 Hash Serialize Standard Coins Utxo SigHash Interpreter TxVerify Pow.
Import arith_uint256.
Local Open Scope Z_scope.
Local Open Scope outcome_scope.

(** ** Kernels *)

Definition STAKE_TIMESTAMP_MASK : Z := 15.

Definition CheckCoinStakeTimestamp (nTimeBlock : Z) : bool := Z.land nTimeBlock STAKE_TIMESTAMP_MASK =? 0.

(** [None] is the null pointer, the parent of the genesis block. *)
Definition ComputeStakeModifier (pindexPrev : option CBlockIndex) (kernel : uint256) : uint256 :=
  match pindexPrev with
  | None => uint256_null
  | Some b => Hash (Serialize_uint256 kernel ++ Serialize_uint256 (nStakeModifier b))
  end.

(** [nValueIn] after the adjustment, a signed 64-bit computation *)
Definition weighted_value (nBits prevoutValue : Z) (hash : uint256) : outcome Z :=
  compact <-! of_option (GetCompact (UintToArith256 hash) false) ;
  let nValueInAdjustment := Z.lxor nBits compact mod 10 in
  Ok (if 0 <? nValueInAdjustment
      then s64 (prevoutValue - Z.quot (s64 (nValueInAdjustment * prevoutValue)) 10)
      else prevoutValue).

(** What is hashed: the modifier, the time of the staked coin's block, the
    coin and the time of the block *)
Definition kernel_data (nStakeModifier : uint256) (blockFromTime : Z) (o : COutPoint) (nTimeBlock : Z) : bytes :=
  Serialize_uint256 nStakeModifier ++ Serialize_uint32 blockFromTime ++ Serialize_uint256 (op_hash o) ++
  Serialize_uint32 (op_n o) ++ Serialize_uint32 nTimeBlock.

(** The verdict with the out parameters [hashProofOfStake] and
    [targetProofOfStake], whose old values are [proofs] *)
Definition CheckStakeKernelHash (prev : CBlockIndex) (nBits blockFromTime prevoutValue : Z) (o : COutPoint)
    (nTimeBlock : Z) (proofs : uint256 * uint256) : outcome (bool * (uint256 * uint256)) :=
  if nTimeBlock <? blockFromTime then Ok (false, proofs)
  else
    let '(bnTarget, _, _) := SetCompact nBits in
    nValueIn <-! weighted_value nBits prevoutValue (op_hash o) ;
    let bnTarget := mul bnTarget (of_uint64 (u64 nValueIn)) in
    let hashProofOfStake := Hash (kernel_data (nStakeModifier prev) blockFromTime o nTimeBlock) in
    Ok (negb (gtb (UintToArith256 hashProofOfStake) bnTarget), (hashProofOfStake, ArithToUint256 bnTarget)).

(** [pindexPrev->nHeight + 1 - coin.nHeight < COINBASE_MATURITY] *)
Definition too_young (prev : CBlockIndex) (cn : Coin) : bool :=
  Chain.nHeight prev + 1 - Coins.nHeight cn <? COINBASE_MATURITY.

(** ** Spent coins of the active chain (src/src/validation.cpp) *)

(** What [ReadBlockFromDisk] and [UndoReadFromDisk] find for an index entry *)
Class BlockFiles := {
  ReadBlockFromDisk : CBlockIndex -> option CBlock;
  UndoReadFromDisk : CBlockIndex -> option CBlockUndo }.

(** The first input, from number [k] on, that spends the outpoint *)
Fixpoint find_input (o : COutPoint) (k : nat) (ins : list CTxIn) : option nat :=
  match ins with
  | [] => None
  | txin :: ins => if outpoint_eqb (prevout txin) o then Some k else find_input o (S k) ins
  end.

Fixpoint find_spend (o : COutPoint) (j : nat) (txs : list CTransaction) : option (nat * nat * CTransaction) :=
  match txs with
  | [] => None
  | tx :: txs =>
    match find_input o 0 (vin tx) with
    | Some k => Some (j, k, tx)
    | None => find_spend o (S j) txs
    end
  end.

Section main_chain.
Context `{Files : BlockFiles}.

(** The coin where it returns true; the coinbase, transaction 0, is skipped. *)
Definition GetSpentCoinFromBlock (pindex : CBlockIndex) (o : COutPoint) : option Coin :=
  match ReadBlockFromDisk pindex with
  | None => None
  | Some block =>
    match find_spend o 1 (tail (vtx block)) with
    | None => None
    | Some (j, k, tx) =>
      match UndoReadFromDisk pindex with
      | None => None
      | Some vtxundo =>
        if negb (length vtxundo =? length (vtx block) - 1)%nat then None
        else match vtxundo !! (j - 1)%nat with
        | None => None
        | Some vprevout => if negb (length vprevout =? length (vin tx))%nat then None else vprevout !! k
        end
      end
    end
  end.

(** Whether a block from [pindex] back to [base], exclusive, staked the coin *)
Fixpoint staked_in_fork (fuel : nat) (st : gmap ptr CBlockIndex) (base : ptr) (o : COutPoint) (pindex : option ptr)
    : outcome bool :=
  match pindex with
  | None => Ok false
  | Some p =>
    if decide (p = base) then Ok false
    else match fuel with
    | O => NoFuel
    | S fuel =>
      b <-! deref st p ;
      if outpoint_eqb (prevoutStake b) o then Ok true else staked_in_fork fuel st base o (pprev b)
    end
  end.

(** The scan of the blocks from [pindex] back to [base], exclusive *)
Fixpoint scan_main_chain (fuel : nat) (st : gmap ptr CBlockIndex) (base : ptr) (o : COutPoint) (pindex : option ptr)
    : outcome (option Coin) :=
  match pindex with
  | None => Ok None
  | Some p =>
    if decide (p = base) then Ok None
    else match fuel with
    | O => NoFuel
    | S fuel =>
      b <-! deref st p ;
      match GetSpentCoinFromBlock b o with
      | Some cn => Ok (Some cn)
      | None => scan_main_chain fuel st base o (pprev b)
      end
    end
  end.

Definition GetSpentCoinFromMainChain (st : gmap ptr CBlockIndex) (chain : CChain) (pforkPrev : ptr) (o : COutPoint)
    : outcome (option Coin) :=
  fork <-! FindFork st chain (Some pforkPrev) ;
  tip <-! of_option (Tip chain) ;
  btip <-! deref st tip ;
  pforkBase <-! of_option fork ;
  bbase <-! deref st pforkBase ;
  if COINBASE_MATURITY <? Chain.nHeight btip - Chain.nHeight bbase then Ok None
  else
    bfork <-! deref st pforkPrev ;
    staked <-! staked_in_fork (Z.to_nat (Chain.nHeight bfork + 1)) st pforkBase o (Some pforkPrev) ;
    if staked : bool then Ok None
    else scan_main_chain (Z.to_nat (Chain.nHeight btip + 1)) st pforkBase o (Some tip).

End main_chain.

(** ** The checks of a stake *)

Record CStakeCache := mkStake { blockFromTime : Z; amount : Z }.

Abbreviation stake_map := (gmap COutPoint CStakeCache).

Section stake.
Context `{View : CCoinsView V} `{Files : BlockFiles}.
Context (Verify : CPubKey -> uint256 -> bytes -> bool) (CheckLowS : bytes -> bool).

(** [VerifySignature] of src/src/script/sign.cpp *)
Definition VerifySignature (cn : Coin) (txFromHash : uint256) (txTo : CTransaction) (nIn : nat) (flags : Z) : outcome bool :=
  txin <-! of_option (vin txTo !! nIn) ;
  if negb (bytes_eqb (op_hash (prevout txin)) txFromHash) then Ok false
  else
    r <-! VerifyScript (checker := TransactionSignatureChecker Verify txTo nIn 0 None) CheckLowS flags
            (scriptSig txin) (scriptPubKey (out cn)) None ;
    Ok (match r with None => true | Some _ => false end).

(** The verdict, the state, the two proofs and the cache of coins *)
Definition CheckProofOfStake (st : gmap ptr CBlockIndex) (pindexPrev : ptr) (state : CValidationState)
    (tx : CTransaction) (nBits nTimeBlock : Z) (proofs : uint256 * uint256) (view : CCoinsViewCache V)
    : outcome (bool * CValidationState * (uint256 * uint256) * CCoinsViewCache V) :=
  if negb (IsCoinStake tx) then Ok (false, state, proofs, view)
  else
    txin <-! of_option (vin tx !! 0%nat) ;
    prev <-! deref st pindexPrev ;
    let '(r, view) := cache_GetCoin (prevout txin) view in
    match r with
    | None => Ok (reject BLOCK_INVALID_HEADER "stake-prevout-not-exist" state, proofs, view)
    | Some coinPrev =>
      if too_young prev coinPrev then Ok (reject BLOCK_INVALID_HEADER "stake-prevout-not-mature" state, proofs, view)
      else
        blockFrom <-! GetAncestor st pindexPrev (Coins.nHeight coinPrev) ;
        match blockFrom with
        | None => Ok (reject BLOCK_INVALID_HEADER "stake-prevout-not-loaded" state, proofs, view)
        | Some p =>
          ok <-! VerifySignature coinPrev (op_hash (prevout txin)) tx 0 SCRIPT_VERIFY_NONE ;
          if negb ok then Ok (reject BLOCK_INVALID_HEADER "stake-verify-signature-failed" state, proofs, view)
          else
            from <-! deref st p ;
            r <-! CheckStakeKernelHash prev nBits (nTime from) (nValue (out coinPrev)) (prevout txin) nTimeBlock proofs ;
            let '(ok, proofs) := r in
            if negb ok then Ok (reject BLOCK_HEADER_SYNC "stake-check-kernel-failed" state, proofs, view)
            else Ok (true, state, proofs, view)
        end
    end.

(** [view.GetCoin], and where it fails [GetSpentCoinFromMainChain] *)
Definition find_coin (st : gmap ptr CBlockIndex) (chain : CChain) (pindexPrev : ptr) (o : COutPoint)
    (view : CCoinsViewCache V) : outcome (option Coin * CCoinsViewCache V) :=
  let '(r, view) := cache_GetCoin o view in
  match r with
  | Some cn => Ok (Some cn, view)
  | None => r <-! GetSpentCoinFromMainChain st chain pindexPrev o ; Ok (r, view)
  end.

(** [CheckKernel] without a cache of kernels, the branch for a coin that is
    not in the cache *)
Definition CheckKernel_coin (st : gmap ptr CBlockIndex) (chain : CChain) (pindexPrev : ptr) (nBits nTimeBlock : Z)
    (o : COutPoint) (view : CCoinsViewCache V) : outcome (bool * CCoinsViewCache V) :=
  r <-! find_coin st chain pindexPrev o view ;
  let '(coinPrev, view) := r in
  match coinPrev with
  | None => Ok (false, view)
  | Some coinPrev =>
    prev <-! deref st pindexPrev ;
    if too_young prev coinPrev then Ok (false, view)
    else
      blockFrom <-! GetAncestor st pindexPrev (Coins.nHeight coinPrev) ;
      match blockFrom with
      | None => Ok (false, view)
      | Some p =>
        if IsSpent coinPrev then Ok (false, view)
        else
          from <-! deref st p ;
          r <-! CheckStakeKernelHash prev nBits (nTime from) (nValue (out coinPrev)) o nTimeBlock (uint256_null, uint256_null) ;
          Ok (fst r, view)
      end
  end.

Definition CheckKernel (st : gmap ptr CBlockIndex) (chain : CChain) (pindexPrev : ptr) (nBits nTimeBlock : Z)
    (o : COutPoint) (view : CCoinsViewCache V) (cache : stake_map) : outcome (bool * CCoinsViewCache V) :=
  match cache !! o with
  | None => CheckKernel_coin st chain pindexPrev nBits nTimeBlock o view
  | Some stake =>
    prev <-! deref st pindexPrev ;
    r <-! CheckStakeKernelHash prev nBits (blockFromTime stake) (amount stake) o nTimeBlock (uint256_null, uint256_null) ;
    if fst r then CheckKernel_coin st chain pindexPrev nBits nTimeBlock o view else Ok (false, view)
  end.

Definition CacheKernel (st : gmap ptr CBlockIndex) (cache : stake_map) (o : COutPoint) (pindexPrev : ptr)
    (view : CCoinsViewCache V) : outcome (stake_map * CCoinsViewCache V) :=
  match cache !! o with
  | Some _ => Ok (cache, view)
  | None =>
    let '(r, view) := cache_GetCoin o view in
    match r with
    | None => Ok (cache, view)
    | Some coinPrev =>
      prev <-! deref st pindexPrev ;
      if too_young prev coinPrev then Ok (cache, view)
      else
        blockFrom <-! GetAncestor st pindexPrev (Coins.nHeight coinPrev) ;
        match blockFrom with
        | None => Ok (cache, view)
        | Some p => from <-! deref st p ; Ok (<[o := mkStake (nTime from) (nValue (out coinPrev))]> cache, view)
        end
    end
  end.

(** ** Keys of the stake *)

Definition CheckBlockInputPubKeyMatchesOutputPubKey (block : CBlock) (view : CCoinsViewCache V)
    : outcome (bool * CCoinsViewCache V) :=
  let '(r, view) := cache_GetCoin (hdr_prevoutStake (blk_header block)) view in
  match r with
  | None => Ok (false, view)
  | Some coinIn =>
    coinstakeTx <-! of_option (vtx block !! 1%nat) ;
    match vout coinstakeTx with
    | _ :: txout :: _ =>
      if bytes_eqb (scriptPubKey (out coinIn)) (scriptPubKey txout) then Ok (true, view)
      else
        input <-! ExtractDestination (scriptPubKey (out coinIn)) ;
        match input with
        | (TX_PUBKEYHASH, Some (PKHash inputAddress)) =>
          output <-! ExtractDestination (scriptPubKey txout) ;
          match output with
          | (TX_PUBKEY, Some (PKHash outputAddress)) => Ok (bytes_eqb inputAddress outputAddress, view)
          | _ => Ok (false, view)
          end
        | _ => Ok (false, view)
        end
    | _ => Ok (false, view)
    end
  end.

(** [CPubKey::RecoverLaxDER]: the key recovered with a recovery id and the
    form asked for *)
Context (RecoverLaxDER : uint256 -> bytes -> Z -> bool -> option CPubKey).

(** Whether the key is the one that the script pays to *)
Definition pays_to_key (script : CScript) (pubkey : CPubKey) : outcome bool :=
  r <-! ExtractDestination script ;
  match r with
  | (TX_PUBKEY, Some (PKHash h)) | (TX_PUBKEYHASH, Some (PKHash h)) => Ok (bytes_eqb (CPubKey_GetID pubkey) h)
  | _ => Ok false
  end.

(** The two loops, over [recid] and [compressed] *)
Fixpoint recover_loop (hash : uint256) (sig : bytes) (script : CScript) (tries : list (Z * bool)) : outcome bool :=
  match tries with
  | [] => Ok false
  | (recid, compressed) :: tries =>
    match RecoverLaxDER hash sig recid compressed with
    | None => recover_loop hash sig script tries
    | Some pubkey =>
      ok <-! pays_to_key script pubkey ;
      if ok : bool then Ok true else recover_loop hash sig script tries
    end
  end.

Definition recovery_ids : list (Z * bool) :=
  flat_map (fun recid => [(recid, false); (recid, true)]) [0; 1; 2; 3].

Definition CheckRecoveredPubKeyFromBlockSignature (st : gmap ptr CBlockIndex) (chain : CChain) (pindexPrev : ptr)
    (block : CBlockHeader) (view : CCoinsViewCache V) : outcome (bool * CCoinsViewCache V) :=
  r <-! find_coin st chain pindexPrev (hdr_prevoutStake block) view ;
  let '(coinPrev, view) := r in
  match coinPrev with
  | None => Ok (false, view)
  | Some coinPrev =>
    let hash := header_GetHashWithoutSign block in
    match vchBlockSig block with
    | [] => Ok (false, view)
    | sig => ok <-! recover_loop hash sig (scriptPubKey (out coinPrev)) recovery_ids ; Ok (ok, view)
    end
  end.

End stake.

(** ** Shared rewards *)

Record ScriptsElement := mkScripts { el_script : CScript; el_hash : uint256 }.

Abbreviation scripts_map := (gmap Z ScriptsElement).

Definition GetStakeMaxCombineInputs : Z := 100.
Definition GetStakeCombineThreshold : Z := 500000 * COIN.
Definition GetStakeSplitOutputs : Z := 2.
Definition GetStakeSplitThreshold : Z := GetStakeSplitOutputs * GetStakeCombineThreshold.

Section mpos.
Context (st : gmap ptr CBlockIndex) (chain : CChain) (params : Params).
(** [pblocktree->ReadStakeIndex] and [Params().MineBlocksOnDemand()] *)
Context (ReadStakeIndex : Z -> option bytes) (MineBlocksOnDemand : bool).

Definition NeedToEraseScriptFromCache (nBlockHeight nCacheScripts nScriptHeight : Z) (scriptElement : ScriptsElement)
    : outcome bool :=
  if (nScriptHeight <? nBlockHeight - nCacheScripts) || (nBlockHeight + nCacheScripts <? nScriptHeight) then Ok true
  else match chain_at chain nScriptHeight with
  | None => Ok false
  | Some p => b <-! deref st p ; h <-! GetBlockHash b ; Ok (negb (bytes_eqb h (el_hash scriptElement)))
  end.

(** [nMPoSRewardRecipients * 1.5] converted to [int] *)
Definition cache_scripts : Z := Z.quot (nMPoSRewardRecipients params * 3) 2.

(** The loop over the cache, in the order of the keys *)
Fixpoint clean_entries (nHeight : Z) (l : list (Z * ScriptsElement)) : outcome (list (Z * ScriptsElement)) :=
  match l with
  | [] => Ok []
  | (h, e) :: l =>
    erase <-! NeedToEraseScriptFromCache nHeight cache_scripts h e ;
    l <-! clean_entries nHeight l ;
    Ok (if erase : bool then l else (h, e) :: l)
  end.

Definition CleanScriptCache (nHeight : Z) (scriptsMap : scripts_map) : outcome scripts_map :=
  l <-! clean_entries nHeight (map_to_list scriptsMap) ; Ok (list_to_map l).

(** The script where it returns true, and the cache *)
Definition ReadFromScriptCache (b : CBlockIndex) (nHeight : Z) (scriptsMap : scripts_map)
    : outcome (option CScript * scripts_map) :=
  m <-! CleanScriptCache nHeight scriptsMap ;
  match m !! nHeight with
  | None => Ok (None, m)
  | Some e => h <-! GetBlockHash b ; Ok (if bytes_eqb (el_hash e) h then Some (el_script e) else None, m)
  end.

(** [map::insert] keeps an element that is there. *)
Definition AddToScriptCache (script : CScript) (b : CBlockIndex) (nHeight : Z) (scriptsMap : scripts_map)
    : outcome scripts_map :=
  m <-! CleanScriptCache nHeight scriptsMap ;
  h <-! GetBlockHash b ;
  Ok (match m !! nHeight with Some _ => m | None => <[nHeight := mkScripts script h]> m end).

(** The script added to the list where it returns true *)
Definition AddMPoSScript (nHeight : Z) (scriptsMap : scripts_map) : outcome (option CScript * scripts_map) :=
  match chain_at chain nHeight with
  | None => Ok (None, scriptsMap)
  | Some p =>
    b <-! deref st p ;
    r <-! ReadFromScriptCache b nHeight scriptsMap ;
    let '(found, m) := r in
    match found with
    | Some script => Ok (Some script, m)
    | None =>
      match ReadStakeIndex nHeight with
      | None => Ok (None, m)
      | Some stakeAddress =>
        if IsProofOfStake b then
          let script :=
            if bytes_eqb stakeAddress uint160_null then [OP_RETURN]
            else push_data [OP_DUP; OP_HASH160] stakeAddress ++ [OP_EQUALVERIFY; OP_CHECKSIG] in
          m <-! AddToScriptCache script b nHeight m ;
          Ok (Some script, m)
        else if MineBlocksOnDemand then Ok (Some [OP_RETURN], m)
        else Ok (None, m)
      end
    end
  end.

(** The loop from [i] on: whether every script was found, the list and the cache *)
Fixpoint mpos_scripts (n : nat) (nHeight : Z) (mposScriptList : list CScript) (scriptsMap : scripts_map)
    : outcome (bool * list CScript * scripts_map) :=
  match n with
  | O => Ok (true, mposScriptList, scriptsMap)
  | S n =>
    r <-! AddMPoSScript nHeight scriptsMap ;
    match r with
    | (Some script, m) => mpos_scripts n (nHeight - 1) (mposScriptList ++ [script]) m
    | (None, m) => Ok (false, mposScriptList, m)
    end
  end.

Definition GetMPoSOutputScripts (nHeight : Z) (mposScriptList : list CScript) (scriptsMap : scripts_map)
    : outcome (bool * list CScript * scripts_map) :=
  mpos_scripts (Z.to_nat (nMPoSRewardRecipients params - 1)) (nHeight - COINBASE_MATURITY) mposScriptList scriptsMap.

(** The outputs where it returns true *)
Definition GetMPoSOutputs (nRewardPiece nHeight : Z) (mposOutputList : list CTxOut) (scriptsMap : scripts_map)
    : outcome (option (list CTxOut) * scripts_map) :=
  r <-! GetMPoSOutputScripts nHeight [] scriptsMap ;
  let '(ok, mposScriptList, m) := r in
  if negb ok then Ok (None, m)
  else Ok (Some (mposOutputList ++ map (mkTxOut nRewardPiece) mposScriptList), m).

Definition CreateMPoSOutputs (txNew : CTransaction) (nRewardPiece nHeight : Z) (scriptsMap : scripts_map)
    : outcome (option CTransaction * scripts_map) :=
  r <-! GetMPoSOutputs nRewardPiece nHeight [] scriptsMap ;
  match r with
  | (None, m) => Ok (None, m)
  | (Some mposOutputList, m) =>
    Ok (Some (mkTransaction (nVersion txNew) (vin txNew) (vout txNew ++ mposOutputList) (nLockTime txNew)), m)
  end.

End mpos.

(** * Correctness *)

#[local] Opaque Hash.

(** ** The weight of a stake *)

(** The adjustment, a digit taken from the target and the coin *)
Definition adjustment (nBits : Z) (hash : uint256) : Z :=
  Z.lxor nBits (compact_encode (le_val hash)) mod 10.

Definition hash_ok (h : uint256) : Prop := Forall (in_u 8) h /\ length h = 32%nat.

Lemma adjustment_digit nBits hash : 0 <= adjustment nBits hash <= 9.
Proof. unfold adjustment. pose proof (Z.mod_pos_bound (Z.lxor nBits (compact_encode (le_val hash))) 10). lia. Qed.

Lemma weighted_value_eq nBits v hash :
  hash_ok hash ->
  weighted_value nBits v hash =
  Ok (let a := adjustment nBits hash in if 0 <? a then s64 (v - Z.quot (s64 (a * v)) 10) else v).
Proof.
  intros [Hb Hl]. destruct (UintToArith256_spec hash Hb Hl) as [Hw Hv].
  unfold weighted_value, adjustment, compact_encode. rewrite (GetCompact_spec _ Hw), Hv. done.
Qed.


Lemma weighted_value_exact nBits v hash :
  hash_ok hash -> 0 <= v -> 9 * v < 2 ^ 63 ->
  weighted_value nBits v hash = Ok (v - adjustment nBits hash * v / 10).
Proof.
  intros Hh H0 H9. pose proof (adjustment_digit nBits hash) as Ha. rewrite (weighted_value_eq _ _ _ Hh). cbn zeta.
  set (a := adjustment nBits hash) in *.
  assert (Hav : 0 <= a * v <= 9 * v) by nia.
  rewrite (swrap_small 64 (a * v)) by (unfold in_s; lia). rewrite Z.quot_div_nonneg by lia.
  assert (0 <= a * v / 10 <= v) by (split; [apply Z.div_pos; lia|apply Z.div_le_upper_bound; nia]).
  rewrite swrap_small by (unfold in_s; lia). destruct (Z.ltb_spec 0 a); [done|].
  replace a with 0 by lia. rewrite Z.mul_0_l, Z.div_0_l by lia. f_equal. lia.
Qed.

Lemma weighted_value_total nBits v hash : hash_ok hash -> exists w, weighted_value nBits v hash = Ok w.
Proof. intros Hh. rewrite (weighted_value_eq _ _ _ Hh). by eexists. Qed.

Lemma Hash_hash_ok b : hash_ok (Hash b).
Proof. apply Hash_digest. Qed.

(** The kernel of a stake of weight [w] meets the target. *)
Definition kernel_ok (prev : CBlockIndex) (nBits from : Z) (o : COutPoint) (time w : Z) : Prop :=
  from <= time /\
  le_val (Hash (kernel_data (nStakeModifier prev) from o time)) <= (compact_value nBits * u64 w) mod 2 ^ 256.

Lemma CheckStakeKernelHash_spec prev nBits from v o time proofs w :
  in_u 32 nBits -> weighted_value nBits v (op_hash o) = Ok w ->
  exists b proofs', CheckStakeKernelHash prev nBits from v o time proofs = Ok (b, proofs') /\
    (b = true <-> kernel_ok prev nBits from o time w).
Proof.
  intros Hn Hw. unfold CheckStakeKernelHash, kernel_ok. destruct (Z.ltb_spec time from) as [Hlt|Hge].
  { do 2 eexists. split; [done|]. split; [done|lia]. }
  pose proof (SetCompact_spec nBits Hn) as Hs. destruct (SetCompact nBits) as [[t neg] ov]. destruct Hs as (Wt & Vt & _).
  rewrite Hw. cbn [obind]. pose proof (of_uint64_wf (u64 w)) as Ww.
  destruct (mul_spec t (of_uint64 (u64 w)) Wt Ww) as [Wm Vm].
  rewrite (of_uint64_val (u64 w)), Vt, Zmult_mod_idemp_l in Vm by (apply wrap_range; lia).
  destruct (Hash_hash_ok (kernel_data (nStakeModifier prev) from o time)) as [Hb Hl].
  destruct (UintToArith256_spec _ Hb Hl) as [Wh Vh].
  do 2 eexists. split; [done|]. rewrite gtb_spec, Vm, Vh by done. rewrite negb_true_iff, Z.ltb_ge. intuition.
Qed.

(** ** Accepted stakes *)

Section accepted.
Context `{Laws : CCoinsViewReads V} `{Files : BlockFiles}.
Context (Verify : CPubKey -> uint256 -> bytes -> bool) (CheckLowS : bytes -> bool).
Context (st : gmap ptr CBlockIndex) (Hst : wf_store st).

(** The block that holds a coin, seen from [p]: the ancestor at its height *)
Definition coin_block (p : ptr) (prev : CBlockIndex) (cn : Coin) (from : CBlockIndex) : Prop :=
  Coins.nHeight cn <= Chain.nHeight prev /\
  exists q, walk st (Z.to_nat (Chain.nHeight prev - Coins.nHeight cn)) p = Some q /\ st !! q = Some from.

(** A coin of the view [u] may stake the block after [p]. *)
Definition mature (prev : CBlockIndex) (cn : Coin) : Prop :=
  COINBASE_MATURITY <= Chain.nHeight prev + 1 - Coins.nHeight cn.

(** The script check of the staked coin's input *)
Definition spends (cn : Coin) (tx : CTransaction) (txin : CTxIn) : outcome (option ScriptError) :=
  VerifyScript (checker := TransactionSignatureChecker Verify tx 0 0 None) CheckLowS SCRIPT_VERIFY_NONE
    (scriptSig txin) (scriptPubKey (out cn)) None.

Record stake_ok (u : COutPoint -> option Coin) (p : ptr) (tx : CTransaction) (nBits nTimeBlock : Z) : Prop := {
  stake_coinstake : IsCoinStake tx = true;
  stake_kernel : exists prev txin ins cn from w,
    st !! p = Some prev /\ vin tx = txin :: ins /\ u (prevout txin) = Some cn /\ mature prev cn /\ coin_block p prev cn from /\
    spends cn tx txin = Ok None /\
    weighted_value nBits (nValue (out cn)) (op_hash (prevout txin)) = Ok w /\
    kernel_ok prev nBits (nTime from) (prevout txin) nTimeBlock w }.

Lemma stake_ok_inv u p tx nBits nTimeBlock prev txin ins :
  st !! p = Some prev -> vin tx = txin :: ins -> stake_ok u p tx nBits nTimeBlock ->
  exists cn from w, u (prevout txin) = Some cn /\ mature prev cn /\ coin_block p prev cn from /\ spends cn tx txin = Ok None /\
    weighted_value nBits (nValue (out cn)) (op_hash (prevout txin)) = Ok w /\
    kernel_ok prev nBits (nTime from) (prevout txin) nTimeBlock w.
Proof.
  intros Hp Hv [_ (prev' & txin' & ins' & cn & from & w & Hp' & Hv' & Hr)]. rewrite Hp in Hp'. rewrite Hv in Hv'.
  injection Hp' as <-. injection Hv' as <- <-. by exists cn, from, w.
Qed.

Lemma too_young_mature prev cn : too_young prev cn = false <-> mature prev cn.
Proof. unfold too_young, mature. apply Z.ltb_ge. Qed.

Lemma GetAncestor_coin_block p prev cn :
  st !! p = Some prev -> 0 <= Coins.nHeight cn -> mature prev cn ->
  exists q from, GetAncestor st p (Coins.nHeight cn) = Ok (Some q) /\ st !! q = Some from /\ coin_block p prev cn from.
Proof.
  intros Hp H0 Hm. assert (Hle : Coins.nHeight cn <= Chain.nHeight prev) by (unfold mature, COINBASE_MATURITY in Hm; lia).
  destruct (walk_height st p prev (Z.to_nat (Chain.nHeight prev - Coins.nHeight cn))) as (q & from & Hw & Hq & _); [done|done|lia|].
  exists q, from. rewrite (GetAncestor_spec _ _ _ _ Hst Hp), Hw. decide_tests. split_and!; [done|done|split; [done|by exists q]].
Qed.

Lemma coin_block_det p prev cn from from' : coin_block p prev cn from -> coin_block p prev cn from' -> from = from'.
Proof. intros (_ & q & Hw & Hq) (_ & q' & Hw' & Hq'). congruence. Qed.

(** The scripts and heights of the coins of a view *)
Definition coins_typed (u : COutPoint -> option Coin) : Prop :=
  forall o cn, u o = Some cn -> bytes_ok (scriptPubKey (out cn)) /\ 0 <= Coins.nHeight cn.

Lemma witness_ok_nil : witness_ok [].
Proof. split; [constructor|cbn; lia]. Qed.

Lemma flags_ok_none : flags_ok SCRIPT_VERIFY_NONE.
Proof. by split. Qed.

Lemma VerifySignature_spec cn tx txin ins :
  vin tx = txin :: ins -> bytes_ok (scriptSig txin) -> bytes_ok (scriptPubKey (out cn)) ->
  exists r, spends cn tx txin = Ok r /\
    VerifySignature Verify CheckLowS cn (op_hash (prevout txin)) tx 0 SCRIPT_VERIFY_NONE =
      Ok (match r with None => true | Some _ => false end).
Proof.
  intros Hv Hs Hc. assert (Ht : CheckerTotal (TransactionSignatureChecker Verify tx 0 0 None)).
  { apply TransactionSignatureChecker_total. rewrite Hv. cbn. lia. }
  destruct (VerifyScript_ok (CheckerTotal0 := Ht) CheckLowS SCRIPT_VERIFY_NONE [] witness_ok_nil (scriptSig txin) (scriptPubKey (out cn))
    flags_ok_none Hs Hc) as [r Hr].
  assert (Hr' : spends cn tx txin = Ok r) by exact Hr. exists r. split; [exact Hr'|]. clear Hr.
  unfold VerifySignature. rewrite Hv. cbn [of_option obind lookup list_lookup].
  rewrite (proj2 (bytes_eqb_eq _ _) eq_refl). cbn [negb]. fold (spends cn tx txin). by rewrite Hr'.
Qed.

Lemma CheckProofOfStake_spec p prev state tx nBits nTimeBlock proofs view :
  st !! p = Some prev -> cache_ok view -> coins_typed (cache_utxo view) -> in_u 32 nBits ->
  Forall (fun i => bytes_ok (scriptSig i) /\ hash_ok (op_hash (prevout i))) (vin tx) ->
  exists b state' proofs' view',
    CheckProofOfStake Verify CheckLowS st p state tx nBits nTimeBlock proofs view = Ok (b, state', proofs', view') /\
    cache_ok view' /\ (forall o, cache_utxo view' o = cache_utxo view o) /\
    (b = true <-> stake_ok (cache_utxo view) p tx nBits nTimeBlock) /\
    (b = true -> state' = state).
Proof.
  intros Hp Hv Ht Hn Hins. unfold CheckProofOfStake. destruct (IsCoinStake tx) eqn:Ecs; cbn [negb].
  2: { do 4 eexists. split_and!; [done|done|done| |done]. split; [done|]. intros []. congruence. }
  destruct (vin tx) as [|txin ins] eqn:Ev; [unfold IsCoinStake in Ecs; by rewrite Ev in Ecs|].
  apply Forall_cons in Hins as [[Hs Hh] _]. cbn [lookup list_lookup of_option obind].
  unfold deref. rewrite Hp. cbn [of_option obind].
  destruct (cache_GetCoin_spec (prevout txin) view Hv) as (view' & Eg & Hv' & Hu & _). rewrite Eg.
  assert (Hno : forall (s : CValidationState) (p' : uint256 * uint256), ~ stake_ok (cache_utxo view) p tx nBits nTimeBlock ->
    exists b state' proofs' view'', Ok (false, s, p', view') = Ok (b, state', proofs', view'') /\ cache_ok view'' /\
      (forall o, cache_utxo view'' o = cache_utxo view o) /\ (b = true <-> stake_ok (cache_utxo view) p tx nBits nTimeBlock) /\
      (b = true -> state' = state)).
  { intros s p' Hneg. do 4 eexists. split_and!; [done|done|done| |done]. split; [done|tauto]. }
  pose proof (stake_ok_inv (cache_utxo view) p tx nBits nTimeBlock prev txin ins Hp Ev) as Hinv.
  destruct (cache_utxo view (prevout txin)) as [cn|] eqn:Ec.
  2: { apply Hno. intros (? & ? & ? & Hc & _)%Hinv. discriminate Hc. }
  destruct (too_young prev cn) eqn:Ey.
  { apply Hno. intros (? & ? & ? & [= <-] & Hm%too_young_mature & _)%Hinv. congruence. }
  apply too_young_mature in Ey. destruct (Ht _ _ Ec) as [Hcs H0].
  destruct (GetAncestor_coin_block p prev cn Hp H0 Ey) as (q & from & -> & Hq & Hb). cbn [obind].
  destruct (VerifySignature_spec cn tx txin ins Ev Hs Hcs) as (r & Er & ->). cbn [obind].
  destruct r as [e|]; cbn [negb].
  { apply Hno. intros (? & ? & ? & [= <-] & _ & _ & Hsig & _)%Hinv. rewrite Er in Hsig. discriminate Hsig. }
  rewrite Hq. cbn [of_option obind].
  destruct (weighted_value_total nBits (nValue (out cn)) _ Hh) as [w Hw].
  destruct (CheckStakeKernelHash_spec prev nBits (nTime from) (nValue (out cn)) (prevout txin) nTimeBlock proofs w Hn Hw)
    as (b & proofs' & -> & Hk). cbn [obind].
  destruct b; cbn [negb].
  - do 4 eexists. split_and!; [done|done|done| |done]. split; [|done]. intros _. split; [done|].
    exists prev, txin, ins, cn, from, w. exact (conj Hp (conj Ev (conj Ec (conj Ey (conj Hb (conj Er (conj Hw (proj1 Hk eq_refl)))))))).
  - apply Hno. intros (? & ? & ? & [= <-] & _ & Hb' & _ & Hw' & Hk')%Hinv.
    rewrite (coin_block_det _ _ _ _ _ Hb' Hb) in Hk'. rewrite Hw in Hw'. injection Hw' as <-. apply Hk in Hk'. discriminate Hk'.
Qed.

(** ** The staker's cache *)

(** An entry records the block time and the value of a mature coin. *)
Definition stake_entry (u : COutPoint -> option Coin) (p : ptr) (prev : CBlockIndex) (o : COutPoint) (s : CStakeCache) : Prop :=
  exists cn from, u o = Some cn /\ mature prev cn /\ coin_block p prev cn from /\ s = mkStake (nTime from) (nValue (out cn)).

Definition stake_map_ok (u : COutPoint -> option Coin) (p : ptr) (prev : CBlockIndex) (cache : stake_map) : Prop :=
  map_Forall (stake_entry u p prev) cache.

(** The same coins give the same entries. *)
#[local] Instance stake_map_ok_proper p prev : Proper (pointwise_relation _ eq ==> eq ==> iff) (fun u => stake_map_ok u p prev).
Proof.
  intros u u' Hu m _ <-. unfold stake_map_ok, stake_entry. split; intros Hm o s Ho.
  all: destruct (Hm o s Ho) as (cn & from & Hc & Hr); exists cn, from; split; [|exact Hr]; specialize (Hu o); congruence.
Qed.

Lemma CacheKernel_spec cache o p prev view :
  st !! p = Some prev -> cache_ok view -> coins_typed (cache_utxo view) -> stake_map_ok (cache_utxo view) p prev cache ->
  exists cache' view', CacheKernel st cache o p view = Ok (cache', view') /\ cache_ok view' /\
    (forall o, cache_utxo view' o = cache_utxo view o) /\ stake_map_ok (cache_utxo view) p prev cache' /\ cache ⊆ cache' /\
    (forall cn, cache_utxo view o = Some cn -> mature prev cn -> is_Some (cache' !! o)).
Proof.
  intros Hp Hv Ht Hm. unfold CacheKernel. destruct (cache !! o) as [s|] eqn:Eo.
  { exists cache, view. split_and!; [done|done|done|done|done|]. intros. by exists s. }
  destruct (cache_GetCoin_spec o view Hv) as (view' & -> & Hv' & Hu & _).
  destruct (cache_utxo view o) as [cn|] eqn:Ec; [|by exists cache, view'].
  unfold deref. rewrite Hp. cbn [of_option obind]. destruct (too_young prev cn) eqn:Ey.
  { exists cache, view'. split_and!; [done|done|done|done|done|]. intros cn' [= <-] Hy%too_young_mature. congruence. }
  apply too_young_mature in Ey. destruct (Ht _ _ Ec) as [_ H0].
  destruct (GetAncestor_coin_block p prev cn Hp H0 Ey) as (q & from & -> & Hq & Hb). cbn [obind].
  rewrite Hq. cbn [of_option obind]. do 2 eexists. split_and!; [done|done|done| | |].
  - apply map_Forall_insert_2; [|done]. by exists cn, from.
  - by apply insert_subseteq.
  - intros _ _ _. rewrite lookup_insert_eq. by eexists.
Qed.

(** Caching the coins of a list, as the staker does *)
Fixpoint cache_kernels (l : list COutPoint) (p : ptr) (cache : stake_map) (view : CCoinsViewCache V)
    : outcome (stake_map * CCoinsViewCache V) :=
  match l with
  | [] => Ok (cache, view)
  | o :: l => r <-! CacheKernel st cache o p view ; cache_kernels l p (fst r) (snd r)
  end.

Lemma coins_typed_ext u u' : (forall o, u' o = u o) -> coins_typed u -> coins_typed u'.
Proof. intros Hu Ht o cn Ho. apply (Ht o). by rewrite <- Hu. Qed.

Lemma cache_kernels_spec l p prev cache view :
  st !! p = Some prev -> cache_ok view -> coins_typed (cache_utxo view) -> stake_map_ok (cache_utxo view) p prev cache ->
  exists cache' view', cache_kernels l p cache view = Ok (cache', view') /\ cache_ok view' /\
    (forall o, cache_utxo view' o = cache_utxo view o) /\ stake_map_ok (cache_utxo view) p prev cache' /\ cache ⊆ cache' /\
    (forall o cn, o ∈ l -> cache_utxo view o = Some cn -> mature prev cn -> is_Some (cache' !! o)).
Proof.
  intros Hp. revert cache view. induction l as [|o l IH]; intros cache view Hv Ht Hm; cbn [cache_kernels].
  { exists cache, view. split_and!; try done. intros o cn Ho. by apply elem_of_nil in Ho. }
  destruct (CacheKernel_spec cache o p prev view Hp Hv Ht Hm) as (c1 & v1 & -> & Hv1 & Hu1 & Hm1 & Hs1 & Ho1). cbn [obind fst snd].
  destruct (IH c1 v1 Hv1) as (c2 & v2 & -> & Hv2 & Hu2 & Hm2 & Hs2 & Ho2).
  { by eapply coins_typed_ext. }
  { by rewrite (stake_map_ok_proper p prev _ _ Hu1 c1 c1 eq_refl). }
  exists c2, v2. split_and!; [done|done|by intros; rewrite Hu2| |by etrans|].
  - by rewrite <- (stake_map_ok_proper p prev _ _ Hu1 c2 c2 eq_refl).
  - intros o' cn [->|Ho']%elem_of_cons Hc Hmt; [|by apply (Ho2 o' cn); [done|rewrite Hu1|]].
    destruct (Ho1 cn Hc Hmt) as [s Hs]. exists s. by eapply lookup_weaken.
Qed.

(** The kernel of an unspent and mature coin, looked up in the view *)
Lemma CheckKernel_coin_unspent chain p prev nBits nTimeBlock o view cn :
  st !! p = Some prev -> cache_ok view -> coins_typed (cache_utxo view) -> in_u 32 nBits -> hash_ok (op_hash o) ->
  cache_utxo view o = Some cn -> mature prev cn ->
  exists b from proofs view', coin_block p prev cn from /\
    CheckStakeKernelHash prev nBits (nTime from) (nValue (out cn)) o nTimeBlock (uint256_null, uint256_null) = Ok (b, proofs) /\
    CheckKernel_coin st chain p nBits nTimeBlock o view = Ok (b, view').
Proof.
  intros Hp Hv Ht Hn Hh Hc Hm. destruct (Ht _ _ Hc) as [_ H0].
  destruct (GetAncestor_coin_block p prev cn Hp H0 Hm) as (q & from & Ea & Hq & Hb).
  destruct (weighted_value_total nBits (nValue (out cn)) _ Hh) as [w Hw].
  destruct (CheckStakeKernelHash_spec prev nBits (nTime from) (nValue (out cn)) o nTimeBlock (uint256_null, uint256_null) w Hn Hw)
    as (b & proofs & Ek & _).
  destruct (cache_GetCoin_spec o view Hv) as (view' & Eg & _).
  exists b, from, proofs, view'. split; [exact Hb|]. split; [exact Ek|].
  unfold CheckKernel_coin, find_coin, deref. rewrite Eg, Hc. cbn [obind]. rewrite Hp. cbn [of_option obind].
  rewrite (proj2 (too_young_mature _ _) Hm), Ea. cbn [obind].
  rewrite (cache_utxo_unspent _ _ _ Hv Hc), Hq. cbn [of_option obind]. by rewrite Ek.
Qed.

Definition verdict {A B} (r : outcome (A * B)) : outcome A := x <-! r ; Ok (fst x).

Lemma CheckKernel_cached chain p prev nBits nTimeBlock o view cache :
  st !! p = Some prev -> cache_ok view -> coins_typed (cache_utxo view) -> in_u 32 nBits -> hash_ok (op_hash o) ->
  stake_map_ok (cache_utxo view) p prev cache ->
  verdict (CheckKernel st chain p nBits nTimeBlock o view cache) = verdict (CheckKernel st chain p nBits nTimeBlock o view ∅).
Proof.
  intros Hp Hv Ht Hn Hh Hm. unfold CheckKernel at 1. destruct (cache !! o) as [s|] eqn:Eo; [|done].
  destruct (Hm o s Eo) as (cn & from & Hc & Hmt & Hb & ->).
  destruct (CheckKernel_coin_unspent chain p prev nBits nTimeBlock o view cn) as (b & from' & proofs & view' & Hb' & Ek & E); try done.
  rewrite (coin_block_det _ _ _ _ _ Hb' Hb) in Ek.
  unfold CheckKernel, deref. rewrite Hp, lookup_empty, E. cbn [of_option obind blockFromTime amount]. rewrite Ek. by destruct b.
Qed.

End accepted.

(** ** The cache of reward scripts *)

Section mpos_spec.
Context (st : gmap ptr CBlockIndex) (chain : CChain) (params : Params).
Context (ReadStakeIndex : Z -> option bytes) (MineBlocksOnDemand : bool).
Context (Hst : wf_store st) (Hchain : forall h p, chain_at chain h = Some p -> is_Some (st !! p)).
Context (Hrec : 0 <= nMPoSRewardRecipients params).

(** What the staker of a block is owed, from the address in the stake index *)
Definition staker_script (b : CBlockIndex) (address : option bytes) : option CScript :=
  match address with
  | None => None
  | Some a =>
    if IsProofOfStake b then Some (if bytes_eqb a uint160_null then [OP_RETURN] else pkh_script a)
    else if MineBlocksOnDemand then Some [OP_RETURN] else None
  end.

(** The script of the active block at a height, without the cache *)
Definition active_script (h : Z) : option CScript :=
  p ← chain_at chain h; b ← st !! p; staker_script b (ReadStakeIndex h).

Definition recipient_heights (nHeight : Z) : list Z :=
  map (fun i => nHeight - COINBASE_MATURITY - Z.of_nat i) (seq 0 (Z.to_nat (nMPoSRewardRecipients params - 1))).

Definition reference_outputs (nRewardPiece nHeight : Z) : option (list CTxOut) :=
  map (mkTxOut nRewardPiece) <$> mapM active_script (recipient_heights nHeight).

(** The stake index agrees with the blocks of the active chain:
    [script_of] is what each block, known by its hash, is owed. *)
Context (script_of : uint256 -> option CScript).
Context (Hindex : forall h p b hash, chain_at chain h = Some p -> st !! p = Some b -> phashBlock b = Some hash ->
  staker_script b (ReadStakeIndex h) = script_of hash).

(** Whatever chain an entry was made for, it holds what its block is owed. *)
Definition scripts_ok (m : scripts_map) : Prop :=
  map_Forall (fun _ e => script_of (el_hash e) = Some (el_script e)) m.

(** The cached heights lie in a window. *)
Definition window (m : scripts_map) : Prop :=
  exists lo, forall h, is_Some (m !! h) -> lo <= h <= lo + cache_scripts params.

Lemma cache_scripts_nonneg : 0 <= cache_scripts params.
Proof. unfold cache_scripts. rewrite Z.quot_div_nonneg by lia. apply Z.div_pos; lia. Qed.

Lemma window_size m : window m -> Z.of_nat (size m) <= cache_scripts params + 1.
Proof.
  intros [lo Hlo]. pose proof cache_scripts_nonneg. rewrite <- (size_dom (D := gset Z)).
  assert (Hsub : dom m ⊆@{gset Z} list_to_set (seqZ lo (cache_scripts params + 1))).
  { intros h Hh%elem_of_dom%Hlo. rewrite elem_of_list_to_set, elem_of_seqZ. lia. }
  apply subseteq_size in Hsub. rewrite size_list_to_set in Hsub by apply NoDup_seqZ. rewrite length_seqZ in Hsub. lia.
Qed.

(** *** Cleaning *)

Definition erased (nHeight h : Z) (e : ScriptsElement) : bool :=
  match NeedToEraseScriptFromCache st chain nHeight (cache_scripts params) h e with Ok b => b | _ => false end.

Lemma NeedToErase_spec nHeight h e :
  NeedToEraseScriptFromCache st chain nHeight (cache_scripts params) h e = Ok (erased nHeight h e) /\
  (erased nHeight h e = false -> nHeight - cache_scripts params <= h <= nHeight + cache_scripts params).
Proof.
  unfold erased, NeedToEraseScriptFromCache.
  destruct ((h <? nHeight - cache_scripts params) || (nHeight + cache_scripts params <? h)) eqn:E; [done|].
  bool_to_prop. destruct (chain_at chain h) as [p|] eqn:Ec; [|split; [done|lia]].
  destruct (Hchain _ _ Ec) as [b Hb]. destruct (wf_hash _ _ _ (Hst _ _ Hb)) as [x Hx].
  unfold deref, GetBlockHash. rewrite Hb. cbn [of_option obind]. rewrite Hx. cbn. split; [done|lia].
Qed.

Lemma clean_entries_spec nHeight l :
  clean_entries st chain params nHeight l = Ok (List.filter (fun x => negb (erased nHeight (fst x) (snd x))) l).
Proof.
  induction l as [|[h e] l IH]; [done|]. cbn [clean_entries List.filter fst snd].
  rewrite (proj1 (NeedToErase_spec nHeight h e)), IH. cbn [obind]. by destruct (erased nHeight h e).
Qed.

Lemma elem_of_List_filter {A} (f : A -> bool) (l : list A) x : x ∈ List.filter f l <-> x ∈ l /\ f x = true.
Proof. rewrite !list_elem_of_In. apply filter_In. Qed.

Lemma NoDup_fst_filter {A B} (f : A * B -> bool) (l : list (A * B)) : NoDup l.*1 -> NoDup (List.filter f l).*1.
Proof.
  induction l as [|x l IH]; [done|]. cbn [fmap list_fmap List.filter]. intros [Hx Hl]%NoDup_cons.
  destruct (f x); [|by apply IH]. cbn. apply NoDup_cons. split; [|by apply IH].
  rewrite list_elem_of_fmap. intros (y & Ey & [Hy _]%elem_of_List_filter). destruct Hx. rewrite Ey. by apply list_elem_of_fmap_2.
Qed.

Lemma CleanScriptCache_spec nHeight m :
  exists m', CleanScriptCache st chain params nHeight m = Ok m' /\
    forall h e, m' !! h = Some e <-> m !! h = Some e /\ erased nHeight h e = false.
Proof.
  unfold CleanScriptCache. rewrite clean_entries_spec. cbn [obind]. eexists. split; [done|]. intros h e.
  assert (Hd : NoDup (List.filter (fun x => negb (erased nHeight (fst x) (snd x))) (map_to_list m)).*1).
  { apply NoDup_fst_filter, NoDup_fst_map_to_list. }
  rewrite <- (elem_of_list_to_map _ _ _ Hd), elem_of_List_filter, elem_of_map_to_list, negb_true_iff. done.
Qed.

Lemma CleanScriptCache_keeps nHeight m :
  scripts_ok m -> window m ->
  exists m', CleanScriptCache st chain params nHeight m = Ok m' /\ scripts_ok m' /\ window m' /\
    (forall h, is_Some (m' !! h) -> nHeight - cache_scripts params <= h <= nHeight + cache_scripts params).
Proof.
  intros Hs [lo Hw]. destruct (CleanScriptCache_spec nHeight m) as (m' & E & Hm'). exists m'. split_and!; [done| | |].
  - intros h e [He _]%Hm'. by apply (Hs h).
  - exists lo. intros h [e [He _]%Hm']. apply Hw. by exists e.
  - intros h [e [_ He]%Hm']. by apply (NeedToErase_spec nHeight h e).
Qed.

(** *** Looking up and adding *)

Lemma ReadFromScriptCache_spec b hash nHeight m :
  phashBlock b = Some hash -> scripts_ok m -> window m ->
  exists r m', ReadFromScriptCache st chain params b nHeight m = Ok (r, m') /\ scripts_ok m' /\ window m' /\
    (forall script, r = Some script -> script_of hash = Some script).
Proof.
  intros Hb Hs Hw. unfold ReadFromScriptCache.
  destruct (CleanScriptCache_keeps nHeight m Hs Hw) as (m' & -> & Hs' & Hw' & _). cbn [obind].
  destruct (m' !! nHeight) as [e|] eqn:Ee; [|by exists None, m'].
  unfold GetBlockHash. rewrite Hb. cbn [of_option obind]. do 2 eexists. split_and!; [done|done|done|].
  intros script. destruct (bytes_eqb (el_hash e) hash) eqn:Eh; [|done]. apply bytes_eqb_eq in Eh as <-.
  intros [= <-]. by apply (Hs' nHeight).
Qed.

Lemma AddToScriptCache_spec script b hash nHeight m :
  phashBlock b = Some hash -> script_of hash = Some script -> scripts_ok m -> window m ->
  exists m', AddToScriptCache st chain params script b nHeight m = Ok m' /\ scripts_ok m' /\ window m'.
Proof.
  intros Hb Hscr Hs Hw. unfold AddToScriptCache.
  destruct (CleanScriptCache_keeps nHeight m Hs Hw) as (m' & -> & Hs' & [lo Hlo] & Hnear). cbn [obind].
  unfold GetBlockHash. rewrite Hb. cbn [of_option obind]. pose proof cache_scripts_nonneg.
  destruct (m' !! nHeight) as [e|] eqn:Ee; [by exists m'; split_and!; [| |exists lo]|]. eexists. split_and!; [done| |].
  - by apply map_Forall_insert_2.
  - exists (if nHeight <? lo then nHeight else if lo + cache_scripts params <? nHeight then nHeight - cache_scripts params else lo).
    intros h Hh. destruct (decide (nHeight = h)) as [<-|Hne]; [split_ifs; lia|].
    rewrite lookup_insert_ne in Hh by done. pose proof (Hlo h Hh). pose proof (Hnear h Hh). split_ifs; lia.
Qed.

Lemma AddMPoSScript_spec h m :
  scripts_ok m -> window m ->
  exists m', AddMPoSScript st chain params ReadStakeIndex MineBlocksOnDemand h m = Ok (active_script h, m') /\
    scripts_ok m' /\ window m'.
Proof.
  intros Hs Hw. unfold AddMPoSScript, active_script. destruct (chain_at chain h) as [p|] eqn:Ec; [|by exists m].
  destruct (Hchain _ _ Ec) as [b Hb]. destruct (wf_hash _ _ _ (Hst _ _ Hb)) as [hash Hh].
  pose proof (Hindex h p b hash Ec Hb Hh) as Hi. cbn [mbind option_bind]. unfold deref. rewrite Hb.
  cbn [of_option obind mbind option_bind].
  destruct (ReadFromScriptCache_spec b hash h m Hh Hs Hw) as (r & m' & -> & Hs' & Hw' & Hr). cbn [obind].
  destruct r as [script|]; [exists m'; rewrite Hi; by rewrite (Hr script eq_refl)|].
  destruct (ReadStakeIndex h) as [a|]; [|by exists m']. unfold staker_script in *.
  destruct (IsProofOfStake b); [|by destruct MineBlocksOnDemand; exists m'].
  destruct (AddToScriptCache_spec (if bytes_eqb a uint160_null then [OP_RETURN] else pkh_script a)
    b hash h m' Hh (eq_sym Hi) Hs' Hw') as (m2 & E & Hs2 & Hw2).
  exists m2. split; [|done]. exact (f_equal (fun r => m <-! r ; Ok (Some _, m)) E).
Qed.

Lemma mpos_scripts_spec n h acc m :
  scripts_ok m -> window m ->
  exists ok l m', mpos_scripts st chain params ReadStakeIndex MineBlocksOnDemand n h acc m = Ok (ok, acc ++ l, m') /\
    scripts_ok m' /\ window m' /\
    mapM active_script (map (fun i => h - Z.of_nat i) (seq 0 n)) = if ok then Some l else None.
Proof.
  revert h acc m. induction n as [|n IH]; intros h acc m Hs Hw; cbn [mpos_scripts].
  { exists true, [], m. by rewrite app_nil_r. }
  destruct (AddMPoSScript_spec h m Hs Hw) as (m1 & -> & Hs1 & Hw1). cbn [obind seq map mapM].
  rewrite Z.sub_0_r. destruct (active_script h) as [script|]; cbn [mbind option_bind].
  2: { exists false, [], m1. by rewrite app_nil_r. }
  destruct (IH (h - 1) (acc ++ [script]) m1 Hs1 Hw1) as (ok & l & m2 & -> & Hs2 & Hw2 & E).
  exists ok, (script :: l), m2. rewrite <- app_assoc. split_and!; [done|done|done|].
  rewrite <- seq_shift, map_map.
  rewrite (map_ext (fun i => h - Z.of_nat (S i)) (fun i => h - 1 - Z.of_nat i)), E by (intros; lia). by destruct ok.
Qed.

Lemma GetMPoSOutputs_spec piece nHeight acc m :
  scripts_ok m -> window m ->
  exists m', GetMPoSOutputs st chain params ReadStakeIndex MineBlocksOnDemand piece nHeight acc m =
      Ok ((fun l => acc ++ l) <$> reference_outputs piece nHeight, m') /\ scripts_ok m' /\ window m'.
Proof.
  intros Hs Hw. unfold GetMPoSOutputs, GetMPoSOutputScripts, reference_outputs, recipient_heights.
  destruct (mpos_scripts_spec (Z.to_nat (nMPoSRewardRecipients params - 1)) (nHeight - COINBASE_MATURITY) [] m Hs Hw)
    as (ok & l & m' & -> & Hs' & Hw' & ->).
  cbn [obind app]. exists m'. by destruct ok.
Qed.

End mpos_spec.

(** ** Coins spent on the active chain *)

Section spent.
Context `{Files : BlockFiles}.
Context (st : gmap ptr CBlockIndex) (Hst : wf_store st).

(** A block of the branch of [p], above its ancestor [n] steps back *)
Definition branch_block (p : ptr) (n : nat) (bq : CBlockIndex) : Prop :=
  exists m q, (m < n)%nat /\ walk st m p = Some q /\ st !! q = Some bq.

Lemma branch_block_succ p b q n bq :
  st !! p = Some b -> pprev b = Some q -> branch_block p (S n) bq <-> bq = b \/ branch_block q n bq.
Proof.
  intros Hp Hq. split.
  - intros ([|m] & r & Hm & Hw & Hr); cbn [walk] in Hw; [left; congruence|]. rewrite Hp, Hq in Hw.
    right. exists m, r. split_and!; [lia|done|done].
  - intros [->|(m & r & Hm & Hw & Hr)]; [exists 0%nat, p; split_and!; [lia|done|done]|].
    exists (S m), r. split_and!; [lia| |done]. cbn [walk]. by rewrite Hp, Hq.
Qed.

Lemma walk_not_self n p b : st !! p = Some b -> walk st (S n) p <> Some p.
Proof. intros Hp Hw. destruct (walk_inv _ _ _ _ _ Hst Hp Hw) as (_ & b' & Hb' & Hh). simplify_eq. lia. Qed.

Lemma staked_in_fork_spec fuel base o n p b :
  st !! p = Some b -> walk st n p = Some base -> (n <= fuel)%nat ->
  exists r, staked_in_fork fuel st base o (Some p) = Ok r /\
    (r = true <-> exists bq, branch_block p n bq /\ prevoutStake bq = o).
Proof.
  revert n p b. induction fuel as [|fuel IH]; intros n p b Hp Hw Hle; destruct n as [|n]; try lia.
  1, 2: injection Hw as ->; exists false; cbn [staked_in_fork]; rewrite decide_True by done; split; [done|];
    split; [done|]; intros (bq & (m & q & Hm & _) & _); lia.
  cbn [staked_in_fork]. rewrite decide_False by (intros ->; by eapply walk_not_self).
  unfold deref. rewrite Hp. cbn [of_option obind]. rewrite (walk_step _ _ _ _ Hp) in Hw.
  destruct (Hst _ _ Hp) as [_ _ Hprev _]. destruct (pprev b) as [q|] eqn:Eq; [|done].
  destruct Hprev as (bq & Hbq & _). destruct (outpoint_eqb (prevoutStake b) o) eqn:Eo.
  { apply outpoint_eqb_eq in Eo. exists true. split; [done|]. split; [|done]. intros _. exists b. split; [|done].
    rewrite (branch_block_succ p b q n b Hp Eq). by left. }
  destruct (IH n q bq Hbq Hw) as (r & -> & Hr); [lia|]. exists r. split; [done|]. rewrite Hr.
  split; intros (x & Hx & Ho); exists x; (split; [|done]).
  - rewrite (branch_block_succ p b q n x Hp Eq). by right.
  - apply (branch_block_succ p b q n x Hp Eq) in Hx as [->|Hx]; [|done].
    apply outpoint_eqb_eq in Ho. congruence.
Qed.

Lemma scan_main_chain_spec fuel base o n p b :
  st !! p = Some b -> walk st n p = Some base -> (n <= fuel)%nat ->
  exists r, scan_main_chain fuel st base o (Some p) = Ok r /\
    match r with
    | Some cn => exists bq, branch_block p n bq /\ GetSpentCoinFromBlock bq o = Some cn
    | None => forall bq, branch_block p n bq -> GetSpentCoinFromBlock bq o = None
    end.
Proof.
  revert n p b. induction fuel as [|fuel IH]; intros n p b Hp Hw Hle; destruct n as [|n]; try lia.
  1, 2: injection Hw as ->; exists None; cbn [scan_main_chain]; rewrite decide_True by done; split; [done|];
    intros bq (m & q & Hm & _); lia.
  cbn [scan_main_chain]. rewrite decide_False by (intros ->; by eapply walk_not_self).
  unfold deref. rewrite Hp. cbn [of_option obind]. rewrite (walk_step _ _ _ _ Hp) in Hw.
  destruct (Hst _ _ Hp) as [_ _ Hprev _]. destruct (pprev b) as [q|] eqn:Eq; [|done].
  destruct Hprev as (bq & Hbq & _). destruct (GetSpentCoinFromBlock b o) as [cn|] eqn:Es.
  { exists (Some cn). split; [done|]. exists b. split; [|done]. rewrite (branch_block_succ p b q n b Hp Eq). by left. }
  destruct (IH n q bq Hbq Hw) as (r & -> & Hr); [lia|]. exists r. split; [done|]. destruct r as [cn|].
  - destruct Hr as (x & Hx & Ho). exists x. split; [|done]. rewrite (branch_block_succ p b q n x Hp Eq). by right.
  - intros x Hx. apply (branch_block_succ p b q n x Hp Eq) in Hx as [->|Hx]; auto.
Qed.

Lemma find_input_spec o k ins i :
  find_input o k ins = Some i -> exists txin, (k <= i)%nat /\ ins !! (i - k)%nat = Some txin /\ prevout txin = o.
Proof.
  revert k. induction ins as [|x ins IH]; intros k; [done|]. cbn [find_input].
  destruct (outpoint_eqb (prevout x) o) eqn:E.
  - intros [= <-]. exists x. rewrite Nat.sub_diag. apply outpoint_eqb_eq in E. done.
  - intros (txin & Hk & Hi & Ho)%IH. exists txin. split; [lia|].
    replace (i - k)%nat with (S (i - S k)) by lia. done.
Qed.

Lemma find_spend_spec o j txs a k tx :
  find_spend o j txs = Some (a, k, tx) ->
  (j <= a)%nat /\ txs !! (a - j)%nat = Some tx /\ exists txin, vin tx !! k = Some txin /\ prevout txin = o.
Proof.
  revert j. induction txs as [|x txs IH]; intros j; [done|]. cbn [find_spend].
  destruct (find_input o 0 (vin x)) as [k'|] eqn:E.
  - intros [= -> -> ->]. rewrite Nat.sub_diag. split_and!; [done|done|].
    apply find_input_spec in E as (txin & _ & Hi & Ho). rewrite Nat.sub_0_r in Hi. by exists txin.
  - intros (Hj & Htx & Hin)%IH. split_and!; [lia| |done].
    replace (a - j)%nat with (S (a - S j)) by lia. done.
Qed.

(** The coin that an input of the block spent, as its undo data says *)
Definition spent_in (block : CBlock) (vtxundo : CBlockUndo) (o : COutPoint) (cn : Coin) : Prop :=
  exists j k tx txin vprevout, vtx block !! S j = Some tx /\ vin tx !! k = Some txin /\ prevout txin = o /\
    vtxundo !! j = Some vprevout /\ length vprevout = length (vin tx) /\ vprevout !! k = Some cn.

Lemma GetSpentCoinFromBlock_spec b o cn :
  GetSpentCoinFromBlock b o = Some cn ->
  exists block vtxundo, ReadBlockFromDisk b = Some block /\ UndoReadFromDisk b = Some vtxundo /\
    spent_in block vtxundo o cn.
Proof.
  unfold GetSpentCoinFromBlock. destruct (ReadBlockFromDisk b) as [block|]; [|done].
  destruct (find_spend o 1 (tail (vtx block))) as [[[a k] tx]|] eqn:Es; [|done].
  destruct (UndoReadFromDisk b) as [vtxundo|]; [|done]. case_match; [done|].
  destruct (vtxundo !! (a - 1)%nat) as [vp|] eqn:Eu; [|done]. destruct (length vp =? length (vin tx))%nat eqn:El; [|done].
  cbn [negb]. intros Ek. apply find_spend_spec in Es as (Ha & Htx & txin & Hin & Ho). exists block, vtxundo. split_and!; [done|done|].
  exists (a - 1)%nat, k, tx, txin, vp. apply Nat.eqb_eq in El. split_and!; try done.
  by destruct (vtx block).
Qed.

Lemma GetSpentCoinFromMainChain_spec chain p b tip btip f bf o :
  chain_of st chain tip btip -> st !! p = Some b -> FindFork st chain (Some p) = Ok (Some f) -> st !! f = Some bf ->
  exists r, GetSpentCoinFromMainChain st chain p o = Ok r /\
    match r with
    | Some cn =>
      Chain.nHeight btip - Chain.nHeight bf <= COINBASE_MATURITY /\
      (forall bq, branch_block p (Z.to_nat (Chain.nHeight b - Chain.nHeight bf)) bq -> prevoutStake bq <> o) /\
      exists bq, branch_block tip (Z.to_nat (Chain.nHeight btip - Chain.nHeight bf)) bq /\ GetSpentCoinFromBlock bq o = Some cn
    | None =>
      COINBASE_MATURITY < Chain.nHeight btip - Chain.nHeight bf \/
      (exists bq, branch_block p (Z.to_nat (Chain.nHeight b - Chain.nHeight bf)) bq /\ prevoutStake bq = o) \/
      (forall bq, branch_block tip (Z.to_nat (Chain.nHeight btip - Chain.nHeight bf)) bq -> GetSpentCoinFromBlock bq o = None)
    end.
Proof.
  intros Hc Hp Hf Hbf. pose proof Hc as (Htip & _ & _).
  destruct (FindFork_spec st chain p b Hst Hp) as (f' & Ef & Hspec). rewrite Hf in Ef. injection Ef as <-.
  destruct Hspec as (n & Hn & Hin & _). destruct (walk_inv _ _ _ _ _ Hst Hp Hn) as (Hle & bf' & Hbf' & Hhf). simplify_eq.
  rewrite (Contains_spec _ _ _ _ Hbf) in Hin. injection Hin as Hin%bool_decide_eq_true_1.
  pose proof (wf_height _ _ _ (Hst _ _ Hbf)). pose proof (wf_height _ _ _ (Hst _ _ Htip)).
  assert (Hft : Chain.nHeight bf <= Chain.nHeight btip).
  { destruct (Z.le_gt_cases (Chain.nHeight bf) (Chain.nHeight btip)) as [|Hgt]; [done|].
    rewrite chain_at_above in Hin; [done|]. destruct Hc as (_ & Hl & _). unfold Height. lia. }
  rewrite (chain_of_at _ _ _ _ _ Hst Hc) in Hin by lia.
  unfold GetSpentCoinFromMainChain. rewrite Hf, (chain_of_Tip _ _ _ _ Hst Hc). unfold deref.
  cbn [of_option obind]. rewrite Htip, Hbf, Hp. cbn [of_option obind].
  destruct (Z.ltb_spec COINBASE_MATURITY (Chain.nHeight btip - Chain.nHeight bf)); [by exists None; split; [|left]|].
  replace n with (Z.to_nat (Chain.nHeight b - Chain.nHeight bf)) in Hn by lia.
  destruct (staked_in_fork_spec (Z.to_nat (Chain.nHeight b + 1)) f o _ p b Hp Hn) as (r & -> & Hr); [lia|]. cbn [obind].
  destruct r; [exists None; split; [done|right; left; by apply Hr]|].
  destruct (scan_main_chain_spec (Z.to_nat (Chain.nHeight btip + 1)) f o _ tip btip Htip Hin) as (r & -> & Hs); [lia|].
  exists r. split; [done|]. destruct r as [cn|]; [|by right; right]. split_and!; [done| |done].
  intros bq Hb Ho. assert (false = true) by (apply Hr; by exists bq). done.
Qed.

End spent.

(** ** Theorems *)

(** Weight of a stake: for a coin whose ninefold value fits in 64 bits the
    kernel check returns, the weight is the value less at most nine tenths of
    it, and the check accepts exactly when the block is not older than the
    coin's block and the kernel hash is at most the target times the weight,
    which is computed modulo 2^256. *)
Theorem stake_kernel_weight (prev : CBlockIndex) (nBits from v : Z) (o : COutPoint) (time : Z) (proofs : uint256 * uint256) :
  in_u 32 nBits -> hash_ok (op_hash o) -> 0 <= v -> 9 * v < 2 ^ 63 ->
  let w := v - adjustment nBits (op_hash o) * v / 10 in
  v <= 10 * w <= 10 * v /\
  exists b proofs', CheckStakeKernelHash prev nBits from v o time proofs = Ok (b, proofs') /\
    (b = true <-> kernel_ok prev nBits from o time w) /\
    (compact_value nBits * w < 2 ^ 256 ->
     b = true <-> from <= time /\ le_val (Hash (kernel_data (nStakeModifier prev) from o time)) <= compact_value nBits * w).
Proof.
  intros Hn Hh H0 H9 w. pose proof (adjustment_digit nBits (op_hash o)) as Ha.
  assert (Hw : v <= 10 * w <= 10 * v).
  { subst w. set (a := adjustment nBits (op_hash o)) in *. pose proof (Z.div_mod (a * v) 10).
    pose proof (Z.mod_pos_bound (a * v) 10). nia. }
  split; [exact Hw|].
  destruct (CheckStakeKernelHash_spec prev nBits from v o time proofs w Hn (weighted_value_exact nBits v _ Hh H0 H9)) as (b & p' & E & Hb).
  exists b, p'. split; [exact E|]. split; [exact Hb|]. intros Hsmall. rewrite Hb. unfold kernel_ok.
  rewrite (wrap_small 64 w) by (unfold in_u; lia). pose proof (compact_value_nonneg nBits Hn).
  rewrite (Z.mod_small (compact_value nBits * w)) by nia. done.
Qed.



(** C12 (acceptance of a stake): [CheckProofOfStake] returns, leaves the coins of
    the view as they are, and accepts exactly the coinstakes whose first input
    is an unspent coin at least [COINBASE_MATURITY] blocks deep on the branch,
    spent by a valid script, whose kernel meets the weighted target; the state
    is changed only by a rejection. *)
Theorem CheckProofOfStake_decides `{Laws : CCoinsViewReads V} (Verify : CPubKey -> uint256 -> bytes -> bool)
    (CheckLowS : bytes -> bool) (st : gmap ptr CBlockIndex) (p : ptr) (prev : CBlockIndex) (state : CValidationState)
    (tx : CTransaction) (nBits nTimeBlock : Z) (proofs : uint256 * uint256) (view : CCoinsViewCache V) :
  wf_store st -> st !! p = Some prev -> cache_ok view -> coins_typed (cache_utxo view) -> in_u 32 nBits ->
  Forall (fun i => bytes_ok (scriptSig i) /\ hash_ok (op_hash (prevout i))) (vin tx) ->
  exists b state' proofs' view',
    CheckProofOfStake Verify CheckLowS st p state tx nBits nTimeBlock proofs view = Ok (b, state', proofs', view') /\
    cache_ok view' /\ (forall o, cache_utxo view' o = cache_utxo view o) /\
    (b = true <-> stake_ok Verify CheckLowS st (cache_utxo view) p tx nBits nTimeBlock) /\
    (b = true -> state' = state).
Proof. intros. by eapply CheckProofOfStake_spec. Qed.

(** The cache of kernels is transparent: after caching any list of coins
    for the block after [p], every mature coin of the list is cached, and for
    every outpoint the search with the cache and the search without it give the
    same verdict. *)
Theorem kernel_cache_transparent `{Laws : CCoinsViewReads V} `{Files : BlockFiles} (st : gmap ptr CBlockIndex) (chain : CChain)
    (p : ptr) (prev : CBlockIndex) (l : list COutPoint) (view : CCoinsViewCache V) :
  wf_store st -> st !! p = Some prev -> cache_ok view -> coins_typed (cache_utxo view) ->
  exists cache view', cache_kernels st l p ∅ view = Ok (cache, view') /\ cache_ok view' /\
    (forall o, cache_utxo view' o = cache_utxo view o) /\
    (forall o cn, o ∈ l -> cache_utxo view o = Some cn -> mature prev cn -> is_Some (cache !! o)) /\
    (forall o nBits nTimeBlock, in_u 32 nBits -> hash_ok (op_hash o) ->
     verdict (CheckKernel st chain p nBits nTimeBlock o view' cache) = verdict (CheckKernel st chain p nBits nTimeBlock o view' ∅)).
Proof.
  intros Hst Hp Hv Ht.
  destruct (cache_kernels_spec st Hst l p prev ∅ view Hp Hv Ht) as (cache & view' & E & Hv' & Hu & Hm & _ & Hl);
    [apply map_Forall_empty|].
  exists cache, view'. split_and!; [done|done|done|done|]. intros o nBits nTimeBlock Hn Hh.
  apply (CheckKernel_cached st Hst chain p prev); [done|done|by eapply coins_typed_ext|done|done|].
  by rewrite (stake_map_ok_proper st p prev _ _ Hu cache cache eq_refl).
Qed.

(** Stakes spent on the active chain: the lookup of a coin for a header on
    a fork terminates; a coin it returns was spent by an input of a block of
    the active chain above the fork, as the undo data of that block records,
    the fork is no deeper than [COINBASE_MATURITY] blocks, and no block of the
    fork has staked the coin already. *)
Theorem spent_stake_lookup_sound `{Files : BlockFiles} (st : gmap ptr CBlockIndex) (chain : CChain) (p : ptr) (b : CBlockIndex)
    (tip : ptr) (btip : CBlockIndex) (f : ptr) (bf : CBlockIndex) (o : COutPoint) :
  wf_store st -> chain_of st chain tip btip -> st !! p = Some b -> FindFork st chain (Some p) = Ok (Some f) -> st !! f = Some bf ->
  exists r, GetSpentCoinFromMainChain st chain p o = Ok r /\
    forall cn, r = Some cn ->
      Chain.nHeight btip - Chain.nHeight bf <= COINBASE_MATURITY /\
      (forall bq, branch_block st p (Z.to_nat (Chain.nHeight b - Chain.nHeight bf)) bq -> prevoutStake bq <> o) /\
      exists bq block vtxundo, branch_block st tip (Z.to_nat (Chain.nHeight btip - Chain.nHeight bf)) bq /\
        ReadBlockFromDisk bq = Some block /\ UndoReadFromDisk bq = Some vtxundo /\ spent_in block vtxundo o cn.
Proof.
  intros Hst Hc Hp Hf Hbf. destruct (GetSpentCoinFromMainChain_spec st Hst chain p b tip btip f bf o Hc Hp Hf Hbf) as (r & E & Hr).
  exists r. split; [done|]. intros cn ->. destruct Hr as (Hd & Hno & bq & Hb & Hs). split_and!; [done|done|].
  apply GetSpentCoinFromBlock_spec in Hs as (block & undo & H). by exists bq, block, undo.
Qed.

(** C31 (the cache of reward scripts is transparent): from a cache whose entries
    hold what their blocks are owed, on whatever chain, [GetMPoSOutputs] gives
    the outputs computed from the stake index alone, one per recipient but the
    staker; it keeps the cache truthful, and the cache never holds more than
    one entry over one and a half times the number of recipients. *)
Theorem mpos_cache_transparent (st : gmap ptr CBlockIndex) (chain : CChain) (params : Params)
    (ReadStakeIndex : Z -> option bytes) (MineBlocksOnDemand : bool) (script_of : uint256 -> option CScript)
    (nRewardPiece nHeight : Z) (m : scripts_map) :
  wf_store st -> (forall h p, chain_at chain h = Some p -> is_Some (st !! p)) -> 0 <= nMPoSRewardRecipients params ->
  (forall h p b hash, chain_at chain h = Some p -> st !! p = Some b -> phashBlock b = Some hash ->
    staker_script MineBlocksOnDemand b (ReadStakeIndex h) = script_of hash) ->
  scripts_ok script_of m -> window params m ->
  exists m', GetMPoSOutputs st chain params ReadStakeIndex MineBlocksOnDemand nRewardPiece nHeight [] m =
      Ok (reference_outputs st chain params ReadStakeIndex MineBlocksOnDemand nRewardPiece nHeight, m') /\
    scripts_ok script_of m' /\ window params m' /\ Z.of_nat (size m') <= cache_scripts params + 1.
Proof.
  intros Hst Hch Hrec Hidx Hs Hw.
  destruct (GetMPoSOutputs_spec st chain params ReadStakeIndex MineBlocksOnDemand Hst Hch Hrec script_of Hidx nRewardPiece nHeight [] m Hs Hw)
    as (m' & E & Hs' & Hw').
  exists m'. split_and!; [|done|done|by apply window_size]. rewrite E. by destruct (reference_outputs _ _ _ _ _ _ _).
Qed.

(** ** Instances *)

(** A chain of [n] staked blocks, ninety seconds apart *)
Definition linear_index (i : nat) : CBlockIndex :=
  mkBlockIndex (Some (repeat (Z.of_nat i mod 256) 32)) (match i with O => None | S _ => Some (Pos.of_nat i) end) None None
    (Z.of_nat i) 0 8 8 (of_uint64 0) 1 1 0x1d 0x20000000 uint256_null (100 + 90 * Z.of_nat i) 0x1d00ffff 0
    uint256_null uint256_null [] (repeat 5 32) out_b uint256_null 0 0 0.

Definition linear_store (n : nat) : gmap ptr CBlockIndex :=
  list_to_map (map (fun i => (Pos.of_nat (S i), linear_index i)) (seq 0 n)).

Definition linear_chain (n : nat) : CChain := map (fun i => Some (Pos.of_nat (S i))) (seq 0 n).

Lemma linear_store_lookup n p b :
  linear_store n !! p = Some b <-> exists i, (i < n)%nat /\ p = Pos.of_nat (S i) /\ b = linear_index i.
Proof.
  unfold linear_store. rewrite <- elem_of_list_to_map.
  - rewrite list_elem_of_fmap. setoid_rewrite elem_of_seq. split.
    + intros (i & [= -> ->] & Hi). exists i. split_and!; [lia|done|done].
    + intros (i & Hi & -> & ->). exists i. split; [done|lia].
  - rewrite <- list_fmap_compose. apply NoDup_fmap_2_strong; [|apply NoDup_seq].
    intros i j _ _ Hij. cbn [compose fst] in Hij. lia.
Qed.

Lemma linear_store_wf n : wf_store (linear_store n).
Proof.
  intros p b (i & Hi & -> & ->)%linear_store_lookup. split; [cbn; lia|by eexists| |done].
  destruct i as [|i]; [done|]. cbn [linear_index pprev]. exists (linear_index i). split; [|cbn; lia].
  apply linear_store_lookup. exists i. split_and!; [lia|done|done].
Qed.

Lemma linear_chain_at n h p : chain_at (linear_chain n) h = Some p -> is_Some (linear_store n !! p).
Proof.
  unfold chain_at, linear_chain. destruct ((h <? 0) || _) eqn:E; [done|]. bool_to_prop.
  rewrite length_map, length_seq in E. rewrite list_lookup_fmap, lookup_seq_lt by lia. cbn. intros [= <-].
  exists (linear_index (Z.to_nat h)). apply linear_store_lookup. exists (Z.to_nat h). split_and!; [lia|done|done].
Qed.

Definition stake_tx : CTransaction :=
  mkTransaction 1 [mkTxIn out_a [] SEQUENCE_FINAL []] [txout_SetEmpty; mkTxOut 60 [OP_1]] 0.

Definition low_s (sig : bytes) : bool := true.

Lemma out_a_ok : hash_ok (op_hash out_a).
Proof. split; [|done]. apply bytes_ok_small. reflexivity. Qed.

Lemma a_cache_typed : coins_typed (cache_utxo a_cache).
Proof.
  intros o k. unfold cache_utxo, a_cache. cbn [cacheCoins base CCoinsViewCache_new utxo CoinStore_reads coins_of].
  rewrite lookup_empty. intros [<- <-]%lookup_singleton_Some.
  split; [by apply bytes_ok_small|cbn; lia].
Qed.

Lemma stake_kernel_weight_witness :
  50 <= 10 * (50 - adjustment 0x207fffff (op_hash out_a) * 50 / 10) <= 10 * 50.
Proof.
  apply (stake_kernel_weight (linear_index 0) 0x207fffff 100 50 out_a 200 (uint256_null, uint256_null));
    [by split; vm_compute|exact out_a_ok|lia|lia].
Defined.

(** The coin [out_a], at height 12, stakes a block on top of height 971. *)
Lemma CheckProofOfStake_decides_witness :
  stake_ok (fun _ _ _ => false) low_s (linear_store 972) (cache_utxo a_cache) 972%positive stake_tx 0x207fffff 87600.
Proof.
  destruct (CheckProofOfStake_decides (fun _ _ _ => false) low_s (linear_store 972) 972%positive (linear_index 971)
    CValidationState_new stake_tx 0x207fffff 87600 (uint256_null, uint256_null) a_cache)
    as (b & state' & proofs' & view' & E & _ & _ & Hb & _).
  - apply linear_store_wf.
  - apply linear_store_lookup. exists 971%nat. split_and!; [lia|done|done].
  - exact a_cache_ok.
  - exact a_cache_typed.
  - by split; vm_compute.
  - constructor; [|constructor]. split; [constructor|exact out_a_ok].
  - apply Hb. vm_compute in E. congruence.
Defined.

(** The staker's cache for the same coin *)
#[local] Instance no_files : BlockFiles := {| ReadBlockFromDisk _ := None; UndoReadFromDisk _ := None |}.

Lemma kernel_cache_transparent_witness :
  exists cache view', cache_kernels (linear_store 972) [out_a; out_b] 972%positive ∅ a_cache = Ok (cache, view') /\
    is_Some (cache !! out_a) /\
    verdict (CheckKernel (linear_store 972) (linear_chain 972) 972%positive 0x207fffff 87600 out_a view' cache) =
    verdict (CheckKernel (linear_store 972) (linear_chain 972) 972%positive 0x207fffff 87600 out_a view' ∅).
Proof.
  destruct (kernel_cache_transparent (linear_store 972) (linear_chain 972) 972%positive (linear_index 971) [out_a; out_b] a_cache)
    as (cache & view' & E & Hv & Hu & Hl & Hk).
  - apply linear_store_wf.
  - apply linear_store_lookup. exists 971%nat. split_and!; [lia|done|done].
  - exact a_cache_ok.
  - exact a_cache_typed.
  - exists cache, view'. split; [exact E|]. split.
    + apply (Hl out_a coin_a); [by left|reflexivity|by vm_compute].
    + apply Hk; [by split; vm_compute|exact out_a_ok].
Defined.

(** The block at height 2 of the active chain spends [out_a]; a header on the
    fork that leaves at height 1 stakes it. *)
#[local] Instance some_files : BlockFiles := {|
  ReadBlockFromDisk b := if Chain.nHeight b =? 2 then Some (mkBlock header_null [a_coinbase; a_spend]) else None;
  UndoReadFromDisk b := if Chain.nHeight b =? 2 then Some [[coin_a]] else None |}.

Definition example_tip : CChain := [Some 1%positive; Some 2%positive; Some 3%positive; Some 4%positive].

Lemma spent_stake_lookup_sound_witness :
  exists bq block vtxundo, branch_block example_store 4%positive 2 bq /\
    ReadBlockFromDisk bq = Some block /\ UndoReadFromDisk bq = Some vtxundo /\ spent_in block vtxundo out_a coin_a.
Proof.
  destruct (spent_stake_lookup_sound example_store example_tip 6%positive (example_index 6 3 (Some 5%positive) None 140)
    4%positive (example_index 4 3 (Some 3%positive) (Some 2%positive) 130) 2%positive (example_index 2 1 (Some 1%positive) None 110) out_a)
    as (r & E & Hr).
  - exact example_store_wf.
  - split_and!; [done|done|]. intros n q Hw. destruct n as [|[|[|[|n]]]]; vm_compute in Hw; simplify_eq; reflexivity.
  - reflexivity.
  - reflexivity.
  - reflexivity.
  - vm_compute in E. injection E as <-. destruct (Hr coin_a eq_refl) as (_ & _ & H). exact H.
Defined.

Definition some_staker (h : Z) : option bytes := Some (repeat 7 20).

Lemma mpos_cache_transparent_witness :
  exists m', GetMPoSOutputs (linear_store 12) (linear_chain 12) mainnet_pow some_staker false 33 971 [] ∅ =
      Ok (Some (replicate 9 (mkTxOut 33 (pkh_script (repeat 7 20)))), m') /\ Z.of_nat (size m') <= 16.
Proof.
  destruct (mpos_cache_transparent (linear_store 12) (linear_chain 12) mainnet_pow some_staker false
    (fun _ => Some (pkh_script (repeat 7 20))) 33 971 ∅) as (m' & E & _ & _ & Hsize).
  - apply linear_store_wf.
  - apply linear_chain_at.
  - by vm_compute.
  - intros h p b hash _ (i & _ & _ & ->)%linear_store_lookup _. reflexivity.
  - apply map_Forall_empty.
  - exists 0. intros h [e He]. by rewrite lookup_empty in He.
  - exists m'. split; [|exact Hsize]. rewrite E. vm_compute. reflexivity.
Defined.
