(* ===== verification/Rewards.v ===== *)
(** * Rewards: subsidies and the check of a block's reward (src/src/validation.cpp)

    A staker is paid for the age of the coins staked; governors and the budget
    contract are paid from the same subsidy rate.  [CheckReward] bounds what
    the first transaction of a block may pay.  The coins are those of the
    active chain's cache; the collateral and the contract addresses that
    [QtumDGP] reads from the contract state are parameters. *)

From Stdlib Require Import ZArith List Lia Bool String.
From stdpp Require Import base decidable list option gmap.
From S2P Require Import Prelude Uint256 Primitives Chain Consensus Script Serialize Standard Coins Utxo SigHash Interpreter TxVerify Pow Pos.
Import arith_uint256.
Local Open Scope Z_scope.
Local Open Scope outcome_scope.

(** ** Subsidies *)

Definition CENT : Z := 1000000.

(** [CBaseChainParams::MAIN], [TESTNET], [REGTEST] and [UNITTEST] *)
Inductive chain_name := MAIN | TESTNET | REGTEST | UNITTEST.

(** The comparison is unsigned; the divisions are those of integers, so the
    last rates are 2 and 1 percent. *)
Definition GetSubsidyRate (nHeight : Z) : Z :=
  let nBlocksPerYear := 350640 in
  let nCoinYearReward := 10 in
  let nCoinYearReward := if 2 * nBlocksPerYear <? u64 nHeight then nCoinYearReward / 2 else nCoinYearReward in
  let nCoinYearReward := if 6 * nBlocksPerYear <? u64 nHeight then nCoinYearReward / 2 else nCoinYearReward in
  if 12 * nBlocksPerYear <? u64 nHeight then nCoinYearReward / 2 else nCoinYearReward.

(** [nMaxCoinMaturity], by the value of the coin *)
Definition max_coin_maturity (nValueIn : Z) : Z :=
  if 30000000 * COIN <? nValueIn then 2 * COINBASE_MATURITY
  else if 1000000 * COIN <? nValueIn then s32 ((30 - Z.quot (Z.quot nValueIn COIN) 1000000) * COINBASE_MATURITY)
  else 30 * COINBASE_MATURITY.

(** What one input adds to [bnCentSecond]; a multiplication by an integer uses
    the operator for 32 bits. *)
Definition coin_cent_seconds (nHeight : Z) (params : Params) (cn : Coin) (bnCentSecond : base_uint) : outcome base_uint :=
  let nValueIn := nValue (out cn) in
  let nCoinMaturity := Z.min (s32 (nHeight - Coins.nHeight cn)) (max_coin_maturity nValueIn) in
  if nCoinMaturity <? COINBASE_MATURITY then Ok bnCentSecond
  else
    let nCoinTime := s64 (nCoinMaturity * nPowTargetSpacing params) in
    q <-! of_option (div (mul32 (of_uint64 (u64 nValueIn)) (u32 nCoinTime)) (of_uint64 CENT)) ;
    Ok (add bnCentSecond q).

Section subsidy.
Context `{View : CCoinsView V}.
Context (st : gmap ptr CBlockIndex) (chain : CChain) (params : Params).

Fixpoint cent_seconds (nHeight : Z) (ins : list CTxIn) (bnCentSecond : base_uint) (coins_cache : CCoinsViewCache V)
    : outcome (base_uint * CCoinsViewCache V) :=
  match ins with
  | [] => Ok (bnCentSecond, coins_cache)
  | txin :: ins =>
    let '(cn, coins_cache) := AccessCoin (prevout txin) coins_cache in
    bnCentSecond <-! coin_cent_seconds nHeight params cn bnCentSecond ;
    cent_seconds nHeight ins bnCentSecond coins_cache
  end.

(** The age where it returns true *)
Definition GetCoinAge (nHeight : Z) (tx : CTransaction) (coins_cache : CCoinsViewCache V)
    : outcome (option Z * CCoinsViewCache V) :=
  if IsCoinBase tx then Ok (None, coins_cache)
  else
    r <-! cent_seconds nHeight (vin tx) (of_uint64 0) coins_cache ;
    let '(bnCentSecond, coins_cache) := r in
    q <-! of_option (div (mul32 bnCentSecond (u32 CENT)) (of_uint64 COIN)) ;
    bnCoinDay <-! of_option (div q (of_uint64 (24 * 60 * 60))) ;
    Ok (Some (GetLow64 bnCoinDay), coins_cache).

(** The subsidy of a stake of the given age *)
Definition age_subsidy (nHeight nCoinAge : Z) : Z :=
  let nSubsidyRate := u64 (GetSubsidyRate nHeight * CENT) in
  let nSubsidy := s64 (u64 (u64 (nCoinAge * nSubsidyRate) * 33) / (365 * 33 + 8)) in
  Z.quot (s64 (nSubsidy * 90)) 100.

(** [None] is the null pointer. *)
Definition GetBlockSubsidy (nHeight : Z) (tx : option CTransaction) (coins_cache : CCoinsViewCache V)
    : outcome (Z * CCoinsViewCache V) :=
  let staked := match tx with Some tx => IsCoinStake tx | None => false end in
  if negb staked && (nHeight <=? nLastPOWBlock params) then Ok (3600000 * COIN, coins_cache)
  else
    r <-! match tx with
          | Some tx => if IsCoinStake tx then GetCoinAge nHeight tx coins_cache else Ok (None, coins_cache)
          | None => Ok (None, coins_cache)
          end ;
    let '(age, coins_cache) := r in
    let nSubsidy := match age with Some nCoinAge => age_subsidy nHeight nCoinAge | None => 0 end in
    tip <-! of_option (Tip chain) ;
    b <-! deref st tip ;
    Ok (if MAX_MONEY <? u64 (nMoneySupply b + nSubsidy) then 0 else nSubsidy, coins_cache).

End subsidy.

Definition GetGovernorSubsidy (nHeight nCollateral : Z) : Z :=
  let nSubsidyRate := GetSubsidyRate nHeight in
  let nPerYear := s64 (u64 (nCollateral * nSubsidyRate) / 100) in
  let nPerDay := Z.quot (s64 (nPerYear * 33)) (365 * 33 + 8) in
  let nSubsidy := s64 (nPerDay * 2) in
  Z.quot (s64 (nSubsidy * 90)) 100.

Definition budget_fork_height (chain : chain_name) : Z :=
  match chain with MAIN => 38000 | TESTNET => 90000 | _ => 0 end.

Definition GetBudgetSubsidy (chain : chain_name) (blockSubsidy governorSubsidy nHeight : Z) : Z :=
  let nSubsidyFromBlock := Z.quot (s64 (blockSubsidy * 100)) 90 in
  let nSubsidyFromGov := Z.quot (s64 (governorSubsidy * 100)) 90 in
  if budget_fork_height chain <? nHeight
  then s64 (s64 (nSubsidyFromBlock - blockSubsidy) + s64 (nSubsidyFromGov - governorSubsidy))
  else s64 (nSubsidyFromBlock + nSubsidyFromGov).

(** ** Payments to the governance contracts *)

Section payment.
(** What the read before an empty script yields: [IsDGPContractCall] is asked
    about every output of a coinstake, the empty first one included. *)
Context (stray : option Z).

(** The first output that calls the contract, and its position *)
Fixpoint find_dgp_vout (i : Z) (vTempVouts : list CTxOut) (vContractAddr vContractData : bytes) : outcome (option (CTxOut * Z)) :=
  match vTempVouts with
  | [] => Ok None
  | o :: vTempVouts =>
    call <-! IsDGPContractCall_reading stray (scriptPubKey o) vContractAddr vContractData ;
    if call : bool then Ok (Some (o, i)) else find_dgp_vout (u32 (i + 1)) vTempVouts vContractAddr vContractData
  end.

Definition GetDGPVout (block : CBlock) (vContractAddr vContractData : bytes) : outcome (option (CTxOut * Z)) :=
  if header_IsProofOfStake (blk_header block) then
    tx <-! of_option (vtx block !! 1%nat) ;
    find_dgp_vout 0 (vout tx) vContractAddr vContractData
  else Ok None.

End payment.

(** ** [CheckReward] *)

(** [std::find] and [erase]: the list without the first occurrence *)
Fixpoint erase_first (o : CTxOut) (l : list CTxOut) : option (list CTxOut) :=
  match l with
  | [] => None
  | x :: l => if bool_decide (x = o) then Some l else match erase_first o l with Some l => Some (x :: l) | None => None end
  end.

(** One after the other; [None] where one is missing *)
Fixpoint erase_all (os l : list CTxOut) : option (list CTxOut) :=
  match os with
  | [] => Some l
  | o :: os => match erase_first o l with Some l => erase_all os l | None => None end
  end.

Section reward.
Context `{View : CCoinsView V}.
Context (stray : option Z).
Context (st : gmap ptr CBlockIndex) (chain : CChain) (params : Params) (name : chain_name).
Context (ReadStakeIndex : Z -> option bytes) (MineBlocksOnDemand : bool).
Context (getGovernanceDGP getBudgetDGP : Z -> bytes) (getGovernanceCollateral : Z -> Z).

(** A payment to a contract, at most [limit]: what it adds to the reward, or
    nothing where it pays too much *)
Definition contract_payment (block : CBlock) (addr data : bytes) (limit : Z) : outcome (option Z) :=
  r <-! GetDGPVout stray block addr data ;
  Ok (match r with
      | None => Some 0
      | Some (o, _) => if limit <? nValue o then None else Some limit
      end).

(** The part of the check for shared rewards *)
Definition check_recipients (vTempVouts : list CTxOut) (state : CValidationState) (nHeight blockReward gasRefunds : Z)
    (scriptsMap : scripts_map) : outcome (bool * CValidationState * scripts_map) :=
  let nPrevHeight := nHeight - 1 in
  let rewardRecipients := if nFirstMPoSBlock params <=? nPrevHeight then nMPoSRewardRecipients params else 1 in
  if rewardRecipients <? 1 then Ok (false, state, scriptsMap)
  else if rewardRecipients =? 1 then Ok (true, state, scriptsMap)
  else if blockReward <? gasRefunds then Ok (reject CONSENSUS "bad-cs-gas-greater-than-reward" state, scriptsMap)
  else
    let splitReward := Z.quot (s64 (blockReward - gasRefunds)) rewardRecipients in
    r <-! GetMPoSOutputs st chain params ReadStakeIndex MineBlocksOnDemand splitReward nPrevHeight [] scriptsMap ;
    match r with
    | (None, m) => Ok (false, state, m)
    | (Some mposOutputList, m) =>
      match erase_all mposOutputList vTempVouts with
      | None => Ok (reject CONSENSUS "bad-cs-mpos-missing" state, m)
      | Some _ => Ok (true, state, m)
      end
    end.

(** The verdict, the state, the coins and the cache of scripts *)
Definition CheckReward (block : CBlock) (state : CValidationState) (nHeight nFees gasRefunds nActualStakeReward : Z)
    (vouts : list CTxOut) (coins_cache : CCoinsViewCache V) (scriptsMap : scripts_map)
    : outcome (bool * CValidationState * CCoinsViewCache V * scripts_map) :=
  let pos := header_IsProofOfStake (blk_header block) in
  tx <-! of_option (vtx block !! (if pos then 1 else 0)%nat) ;
  match erase_all vouts (vout tx) with
  | None => Ok (reject CONSENSUS "bad-gas-refund-missing" state, coins_cache, scriptsMap)
  | Some vTempVouts =>
    if negb pos then
      r <-! GetBlockSubsidy st chain params nHeight None coins_cache ;
      let '(subsidy, coins_cache) := r in
      value <-! GetValueOut tx ;
      if s64 (nFees + subsidy) <? value then Ok (reject CONSENSUS "bad-cb-amount" state, coins_cache, scriptsMap)
      else Ok (true, state, coins_cache, scriptsMap)
    else
      r <-! GetBlockSubsidy st chain params nHeight (Some tx) coins_cache ;
      let '(subsidy, coins_cache) := r in
      let governorReward := GetGovernorSubsidy nHeight (getGovernanceCollateral nHeight) in
      let budgetPayment := GetBudgetSubsidy name subsidy governorReward nHeight in
      let blockReward := s64 (subsidy + nFees) in
      gov <-! contract_payment block (getGovernanceDGP nHeight) governance_call governorReward ;
      match gov with
      | None => Ok (reject CONSENSUS "bad-gv-amount" state, coins_cache, scriptsMap)
      | Some gov =>
        bgt <-! contract_payment block (getBudgetDGP nHeight) budget_call budgetPayment ;
        match bgt with
        | None => Ok (reject CONSENSUS "bad-bgt-amount" state, coins_cache, scriptsMap)
        | Some bgt =>
          let totalReward := s64 (s64 (blockReward + gov) + bgt) in
          if totalReward <? nActualStakeReward
          then Ok (reject CONSENSUS "bad-cs-amount" state, coins_cache, scriptsMap)
          else
            r <-! check_recipients vTempVouts state nHeight blockReward gasRefunds scriptsMap ;
            let '(ok, state, m) := r in
            Ok (ok, state, coins_cache, m)
        end
      end
  end.

End reward.

(** * Correctness *)

(** ** Coin age *)

(** The depth up to which a coin counts: thirty maturities up to a million, one
    less for each million up to thirty, and two above *)
Definition maturity_limit (v : Z) : Z :=
  let millions := v / (1000000 * COIN) in
  COINBASE_MATURITY *
    (if bool_decide (v <= 1000000 * COIN) then 30 else if bool_decide (v <= 30000000 * COIN) then 30 - millions else 2).

Lemma maturity_limit_range v : 0 <= v <= MAX_MONEY -> 0 <= maturity_limit v <= 30 * COINBASE_MATURITY.
Proof.
  unfold MAX_MONEY, maturity_limit, COINBASE_MATURITY, COIN. intros Hv. repeat case_bool_decide; try lia.
  assert (1 <= v / (1000000 * 100000000) <= 30); [|lia].
  split; [apply Z.div_le_lower_bound; lia|apply Z.div_le_upper_bound; lia].
Qed.

Lemma max_coin_maturity_spec v : 0 <= v <= MAX_MONEY -> max_coin_maturity v = maturity_limit v.
Proof.
  intros Hv. pose proof (maturity_limit_range v Hv) as Hr. revert Hr.
  unfold MAX_MONEY, max_coin_maturity, maturity_limit, COINBASE_MATURITY, COIN in *.
  repeat case_bool_decide; split_ifs; try lia. intros Hr.
  rewrite (Z.quot_div_nonneg v) by lia. rewrite Z.quot_div_nonneg by (lia || (apply Z.div_pos; lia)).
  rewrite Z.div_div, (Z.mul_comm 100000000) by lia. rewrite swrap_small by (unfold in_s; lia). lia.
Qed.

(** The seconds for which a coin of value [v] counts at a depth *)
Definition coin_time (params : Params) (depth v : Z) : Z :=
  let m := Z.min depth (maturity_limit v) in
  if bool_decide (m < COINBASE_MATURITY) then 0 else m * nPowTargetSpacing params.

Definition cent_seconds_of (params : Params) (nHeight : Z) (cn : Coin) : Z :=
  nValue (out cn) * coin_time params (nHeight - Coins.nHeight cn) (nValue (out cn)) / CENT.

(** Values in range, and heights up to the one asked about *)
Definition ages (nHeight : Z) (cn : Coin) : Prop :=
  0 <= nValue (out cn) <= MAX_MONEY /\ 0 <= Coins.nHeight cn <= nHeight.

Definition spacing_small (params : Params) : Prop := 0 < nPowTargetSpacing params <= 2 ^ 12.

Lemma coin_time_range params depth v :
  spacing_small params -> 0 <= v <= MAX_MONEY -> 0 <= coin_time params depth v <= 30 * COINBASE_MATURITY * 2 ^ 12.
Proof.
  intros Hs Hv. pose proof (maturity_limit_range v Hv). unfold coin_time, spacing_small, COINBASE_MATURITY in *.
  case_bool_decide; nia.
Qed.

Lemma cent_seconds_of_range params nHeight cn :
  spacing_small params -> ages nHeight cn -> 0 <= cent_seconds_of params nHeight cn < 2 ^ 70.
Proof.
  intros Hs [Hv _]. pose proof (coin_time_range params (nHeight - Coins.nHeight cn) _ Hs Hv) as Ht.
  unfold cent_seconds_of, CENT, MAX_MONEY, COIN, COINBASE_MATURITY in *.
  split; [apply Z.div_pos; nia|]. apply Z.div_lt_upper_bound; nia.
Qed.

Lemma div_uint64 a d :
  wf a -> 0 < d < 2 ^ 64 -> exists q, div a (of_uint64 d) = Some q /\ wf q /\ val q = val a / d.
Proof.
  intros Wa Hd. pose proof (div_spec a (of_uint64 d) Wa (of_uint64_wf d)) as H.
  rewrite of_uint64_val in H by (unfold in_u; lia). destruct (div a (of_uint64 d)) as [q|]; [|lia].
  exists q. by destruct H as (_ & ? & ?).
Qed.

Lemma mul32_exact a n : wf a -> 0 <= n < 2 ^ 32 -> val a * n < 2 ^ 256 -> wf (mul32 a n) /\ val (mul32 a n) = val a * n.
Proof.
  intros Wa Hn Hlt. destruct (mul32_spec a n Wa Hn) as [W V]. pose proof (val_wf a Wa).
  split; [done|]. rewrite V. apply Z.mod_small. nia.
Qed.

Lemma coin_cent_seconds_spec nHeight params cn acc :
  spacing_small params -> ages nHeight cn -> nHeight < 2 ^ 31 -> wf acc -> val acc < 2 ^ 128 ->
  exists r, coin_cent_seconds nHeight params cn acc = Ok r /\ wf r /\ val r = val acc + cent_seconds_of params nHeight cn.
Proof.
  intros Hs Ha Hh Wa Hacc. pose proof (cent_seconds_of_range params nHeight cn Hs Ha) as Hr.
  destruct Ha as [Hv Hd]. pose proof (maturity_limit_range _ Hv) as Hm.
  unfold coin_cent_seconds, cent_seconds_of, coin_time in *. rewrite max_coin_maturity_spec by done. rewrite (swrap_small 32) by (unfold in_s; lia).
  set (m := Z.min _ _) in *. set (v := nValue (out cn)) in *. unfold spacing_small, COINBASE_MATURITY in *.
  assert (Hv64 : in_u 64 v) by (unfold MAX_MONEY, COIN in Hv; split; lia).
  revert Hr. destruct (Z.ltb_spec m 960); [rewrite bool_decide_true by done|rewrite bool_decide_false by lia]; intros Hr.
  { exists acc. split_and!; [done|done|]. rewrite Z.mul_0_r. change (0 / CENT) with 0. lia. }
  rewrite (swrap_small 64) by (unfold in_s; nia). rewrite (wrap_small 32) by (unfold in_u; nia).
  rewrite (wrap_small 64) by done.
  assert (Ht : 0 <= m * nPowTargetSpacing params <= 28800 * 2 ^ 12) by nia. set (t := m * nPowTargetSpacing params) in *.
  assert (Hprod : 0 <= v * t < 2 ^ 128) by (unfold MAX_MONEY, COIN in Hv; nia).
  destruct (mul32_exact (of_uint64 v) t) as [Wm Vm]; [apply of_uint64_wf|lia|rewrite of_uint64_val by done; lia|]. rewrite of_uint64_val in Vm by done.
  destruct (div_uint64 _ CENT Wm) as (q & -> & Wq & Vq); [by vm_compute|]. cbn [of_option obind].
  eexists. split; [done|]. destruct (add_spec acc q Wa Wq) as [Wr Vr]. split; [exact Wr|].
  pose proof (val_wf acc Wa). rewrite Vr, Vq, Vm. apply Z.mod_small. lia.
Qed.

Section age.
Context `{Laws : CCoinsViewReads V}.

Definition total_cent_seconds (params : Params) (nHeight : Z) (u : COutPoint -> option Coin) (ins : list CTxIn) : Z :=
  fold_right (fun i s => cent_seconds_of params nHeight (coin_of u i) + s) 0 ins.

(** Every input spends a coin of [u] whose age can be computed. *)
Definition staked_coins (nHeight : Z) (u : COutPoint -> option Coin) (ins : list CTxIn) : Prop :=
  Forall (fun i => exists cn, u (prevout i) = Some cn /\ ages nHeight cn) ins.

Lemma coin_of_some u i cn : u (prevout i) = Some cn -> coin_of u i = cn.
Proof. unfold coin_of. by intros ->. Qed.

Lemma total_cent_seconds_cons params nHeight u i ins :
  total_cent_seconds params nHeight u (i :: ins) =
  cent_seconds_of params nHeight (coin_of u i) + total_cent_seconds params nHeight u ins.
Proof. done. Qed.

Lemma total_cent_seconds_range params nHeight u ins :
  spacing_small params -> staked_coins nHeight u ins ->
  0 <= total_cent_seconds params nHeight u ins <= Z.of_nat (length ins) * 2 ^ 70.
Proof.
  intros Hs. induction 1 as [|i ins (cn & Hc & Ha) _ IH]; [by vm_compute|].
  rewrite total_cent_seconds_cons, (coin_of_some _ _ _ Hc). cbn [length].
  pose proof (cent_seconds_of_range params nHeight cn Hs Ha). lia.
Qed.

Lemma AccessCoin_some o (c : CCoinsViewCache V) cn :
  cache_ok c -> cache_utxo c o = Some cn ->
  exists c', AccessCoin o c = (cn, c') /\ cache_ok c' /\ forall o', cache_utxo c' o' = cache_utxo c o'.
Proof.
  intros Hc Ho. destruct (AccessCoin_spec o c Hc) as (k & c' & E & Hl & Hc' & Hu & _). exists c'. rewrite E.
  rewrite Ho in Hl. unfold live in Hl. destruct (IsSpent k); [done|]. by injection Hl as ->.
Qed.

Lemma cent_seconds_spec params nHeight ins acc (c : CCoinsViewCache V) u :
  spacing_small params -> nHeight < 2 ^ 31 -> cache_ok c -> (forall o, cache_utxo c o = u o) ->
  staked_coins nHeight u ins -> wf acc -> val acc + Z.of_nat (length ins) * 2 ^ 70 < 2 ^ 128 ->
  exists r c', cent_seconds params nHeight ins acc c = Ok (r, c') /\ wf r /\
    val r = val acc + total_cent_seconds params nHeight u ins /\ cache_ok c' /\ forall o, cache_utxo c' o = u o.
Proof.
  intros Hs Hh Hc Hu Hi. revert acc c Hc Hu. induction Hi as [|i ins (cn & Ho & Ha) _ IH]; intros acc c Hc Hu Wa Hacc.
  { exists acc, c. split_and!; try done. cbn. lia. }
  cbn [cent_seconds length] in *. pose proof (val_wf acc Wa).
  destruct (AccessCoin_some (prevout i) c cn Hc) as (c1 & -> & Hc1 & Hu1); [by rewrite Hu|].
  pose proof (cent_seconds_of_range params nHeight cn Hs Ha).
  destruct (coin_cent_seconds_spec nHeight params cn acc) as (r & -> & Wr & Vr); try done; [lia|]. cbn [obind].
  destruct (IH r c1) as (r' & c2 & -> & Wr' & Vr' & Hc2 & Hu2); [done|by intros; rewrite Hu1|done|lia|].
  exists r', c2. split_and!; try done. rewrite total_cent_seconds_cons, (coin_of_some _ _ _ Ho). lia.
Qed.

(** The coin age in days, for a transaction of the size a block can hold *)
Lemma GetCoinAge_spec params nHeight tx (c : CCoinsViewCache V) :
  spacing_small params -> nHeight < 2 ^ 31 -> cache_ok c -> IsCoinBase tx = false ->
  staked_coins nHeight (cache_utxo c) (vin tx) -> (Z.of_nat (length (vin tx)) <= 2 ^ 15) ->
  exists c', GetCoinAge params nHeight tx c =
      Ok (Some (total_cent_seconds params nHeight (cache_utxo c) (vin tx) / (100 * 86400)), c') /\
    cache_ok c' /\ forall o, cache_utxo c' o = cache_utxo c o.
Proof.
  intros Hs Hh Hc Hcb Hi Hlen. unfold GetCoinAge. rewrite Hcb.
  destruct (cent_seconds_spec params nHeight (vin tx) (of_uint64 0) c (cache_utxo c)) as (r & c' & -> & Wr & Vr & Hc' & Hu); try done.
  { apply of_uint64_wf. }
  { rewrite of_uint64_val by (split; lia). lia. }
  cbn [obind]. rewrite of_uint64_val, Z.add_0_l in Vr by (split; lia).
  pose proof (total_cent_seconds_range params nHeight _ _ Hs Hi) as Ht. rewrite <- Vr in Ht |- *. clear Vr.
  destruct (mul32_exact r (u32 CENT) Wr) as [Wm Vm]; [by vm_compute|change (u32 CENT) with 1000000; lia|].
  change (u32 CENT) with 1000000 in *.
  destruct (div_uint64 _ COIN Wm) as (q & -> & Wq & Vq); [by vm_compute|]. cbn [of_option obind].
  destruct (div_uint64 q (24 * 60 * 60) Wq) as (d & -> & Wd & Vd); [by vm_compute|]. cbn [of_option obind].
  exists c'. split; [|done]. do 3 f_equal. rewrite GetLow64_spec, Vd, Vq, Vm by done. unfold COIN.
  rewrite Z.div_div by lia. change (100000000 * (24 * 60 * 60)) with (1000000 * (100 * 86400)).
  rewrite (Z.mul_comm (val r)), Z.div_mul_cancel_l by lia. apply Z.mod_small.
  split; [apply Z.div_pos; lia|]. apply Z.div_lt_upper_bound; lia.
Qed.

(** ** Subsidies *)

(** The yearly rate in percent: it falls after two, six and twelve years of
    blocks. *)
Definition yearly_rate (h : Z) : Z :=
  if bool_decide (h <= 701280) then 10 else if bool_decide (h <= 2103840) then 5 else if bool_decide (h <= 4207680) then 2 else 1.

Lemma GetSubsidyRate_spec h : in_u 31 h -> GetSubsidyRate h = yearly_rate h.
Proof.
  intros Hh. unfold GetSubsidyRate, yearly_rate. rewrite (wrap_small 64) by (unfold in_u in *; lia).
  repeat case_bool_decide; split_ifs; try lia; reflexivity.
Qed.

Lemma GetSubsidyRate_range h : 1 <= GetSubsidyRate h <= 10.
Proof. unfold GetSubsidyRate. split_ifs; vm_compute; split; congruence. Qed.

Definition MAX_SUBSIDY : Z := 2 ^ 64 / (365 * 33 + 8) * 90 / 100.

(** Whatever the age, even where the product wraps around *)
Lemma age_subsidy_range h age : 0 <= age_subsidy h age <= MAX_SUBSIDY.
Proof.
  unfold age_subsidy. set (p := u64 (u64 _ * 33)). assert (Hp : 0 <= p < 2 ^ 64) by (apply wrap_range; lia).
  change (365 * 33 + 8) with 12053. assert (Hq : 0 <= p / 12053 <= 2 ^ 64 / 12053).
  { split; [apply Z.div_pos; lia|]. apply Z.div_le_mono; lia. }
  change (2 ^ 64 / 12053) with 1530469100946615 in Hq.
  rewrite (swrap_small 64 (p / 12053)) by (unfold in_s; lia).
  rewrite (swrap_small 64) by (unfold in_s; lia). rewrite Z.quot_div_nonneg by lia.
  split; [apply Z.div_pos; lia|]. change MAX_SUBSIDY with (1530469100946615 * 90 / 100). apply Z.div_le_mono; lia.
Qed.

(** The rate in percent a year, less a tenth, of the units modulo the width *)
Lemma age_subsidy_wraps h age :
  age_subsidy h age = (age * (GetSubsidyRate h * CENT) * 33) mod 2 ^ 64 / 12053 * 90 / 100.
Proof.
  pose proof (GetSubsidyRate_range h) as Hr. unfold age_subsidy, CENT in *.
  set (r := GetSubsidyRate h) in *. rewrite (wrap_small 64 (r * 1000000)) by (unfold in_u; lia).
  assert (E : u64 (u64 (age * (r * 1000000)) * 33) = (age * (r * 1000000) * 33) mod 2 ^ 64) by (unfold wrap; by rewrite Z.mul_mod_idemp_l).
  rewrite E. set (p := _ mod 2 ^ 64). assert (Hp : 0 <= p < 2 ^ 64) by (apply Z.mod_pos_bound; lia). clearbody p. change (365 * 33 + 8) with 12053.
  assert (0 <= p / 12053 < 2 ^ 64 / 12053 + 1).
  { split; [apply Z.div_pos; lia|]. apply Z.div_lt_upper_bound; [lia|]. change (2 ^ 64 / 12053) with 1530469100946615. lia. }
  change (2 ^ 64 / 12053) with 1530469100946615 in *.
  rewrite (swrap_small 64 (p / 12053)), (swrap_small 64) by (unfold in_s; lia). by rewrite Z.quot_div_nonneg by lia.
Qed.

Lemma GetGovernorSubsidy_range h col : 0 <= GetGovernorSubsidy h col <= MAX_SUBSIDY.
Proof.
  unfold GetGovernorSubsidy. set (p := u64 (col * _)). assert (Hp : 0 <= p < 2 ^ 64) by (apply wrap_range; lia).
  assert (H1 : 0 <= p / 100 <= 184467440737095516) by (split; [apply Z.div_pos; lia|apply Z.lt_succ_r, Z.div_lt_upper_bound; lia]).
  rewrite (swrap_small 64 (p / 100)), (swrap_small 64 (p / 100 * 33)) by (unfold in_s; lia).
  rewrite (Z.quot_div_nonneg (p / 100 * 33)) by lia. change (365 * 33 + 8) with 12053.
  assert (H2 : 0 <= p / 100 * 33 / 12053 <= 505054803312382) by (split; [apply Z.div_pos; lia|apply Z.lt_succ_r, Z.div_lt_upper_bound; lia]).
  rewrite (swrap_small 64 (_ * 2)), (swrap_small 64) by (unfold in_s; lia). rewrite Z.quot_div_nonneg by lia.
  change MAX_SUBSIDY with 1377422190851953. split; [apply Z.div_pos; lia|apply Z.lt_succ_r, Z.div_lt_upper_bound; lia].
Qed.

Lemma tenth_share x : 0 <= x <= MAX_SUBSIDY -> Z.quot (s64 (x * 100)) 90 = x + x / 9.
Proof.
  change MAX_SUBSIDY with 1377422190851953. intros Hx. rewrite swrap_small by (unfold in_s; lia).
  rewrite Z.quot_div_nonneg by lia. change 100 with (10 * 10). change 90 with (10 * 9).
  rewrite Z.mul_assoc, (Z.mul_comm (x * 10)), Z.div_mul_cancel_l by lia.
  replace (x * 10) with (x + x * 9) by lia. rewrite Z.div_add by lia. lia.
Qed.

(** After the fork the budget gets a ninth of what staker and governor get,
    a tenth of the whole; before it, nine ninths more. *)
Lemma GetBudgetSubsidy_spec name b g h :
  0 <= b <= MAX_SUBSIDY -> 0 <= g <= MAX_SUBSIDY ->
  GetBudgetSubsidy name b g h =
  if budget_fork_height name <? h then b / 9 + g / 9 else b + b / 9 + (g + g / 9).
Proof.
  intros Hb Hg. unfold GetBudgetSubsidy. rewrite !tenth_share by done. change MAX_SUBSIDY with 1377422190851953 in *.
  assert (0 <= b / 9 <= b) by (split; [apply Z.div_pos; lia|apply Z.lt_succ_r, Z.div_lt_upper_bound; lia]).
  assert (0 <= g / 9 <= g) by (split; [apply Z.div_pos; lia|apply Z.lt_succ_r, Z.div_lt_upper_bound; lia]).
  rewrite !swrap_small; try done; try (unfold in_s; lia); [|unfold in_s; rewrite !swrap_small by (unfold in_s; lia); lia].
  destruct (_ <? _); lia.
Qed.

End age.

(** ** The subsidy of a stake *)

(** The age of the coins staked, in days *)
Definition days_staked (params : Params) (nHeight : Z) (u : COutPoint -> option Coin) (tx : CTransaction) : Z :=
  total_cent_seconds params nHeight u (vin tx) / (100 * 86400).

(** The units of the subsidy before the division by the days of a year, times
    the 33 of its leap years *)
Definition subsidy_units (params : Params) (nHeight : Z) (u : COutPoint -> option Coin) (tx : CTransaction) : Z :=
  days_staked params nHeight u tx * (yearly_rate nHeight * 1000000) * 33.

(** The subsidy: the yearly rate for those days, less the budget's tenth, and
    nothing where it would lift the supply over the cap; the units are counted
    in 64 bits. *)
Definition stake_subsidy (params : Params) (nHeight supply : Z) (u : COutPoint -> option Coin) (tx : CTransaction) : Z :=
  let s := subsidy_units params nHeight u tx mod 2 ^ 64 / 12053 * 90 / 100 in
  if MAX_MONEY <? supply + s then 0 else s.

(** A coinstake whose age can be computed *)
Record stakes (nHeight : Z) (u : COutPoint -> option Coin) (tx : CTransaction) : Prop := {
  stakes_coinstake : IsCoinStake tx = true;
  stakes_coins : staked_coins nHeight u (vin tx);
  stakes_inputs : Z.of_nat (length (vin tx)) <= 2 ^ 15
}.

Lemma IsCoinStake_not_coinbase tx : IsCoinStake tx = true -> IsCoinBase tx = false.
Proof.
  unfold IsCoinStake, IsCoinBase. destruct (vin tx) as [|i [|]], (vout tx) as [|? [|]]; try done.
  by destruct (outpoint_IsNull (prevout i)).
Qed.

Lemma subsidy_units_pos params nHeight u tx :
  spacing_small params -> stakes nHeight u tx -> 0 <= subsidy_units params nHeight u tx.
Proof.
  intros Hsp [_ Hi _]. unfold subsidy_units, days_staked.
  assert (0 <= total_cent_seconds params nHeight u (vin tx) / (100 * 86400)) by (apply Z.div_pos; [by apply total_cent_seconds_range|lia]).
  assert (0 <= yearly_rate nHeight) by (unfold yearly_rate; repeat case_bool_decide; lia). nia.
Qed.

Lemma coinstake_marker tx : IsCoinStake tx = true -> exists o outs, vout tx = o :: outs /\ scriptPubKey o = [].
Proof.
  unfold IsCoinStake. destruct (vin tx) as [|i ins]; [done|]. destruct (vout tx) as [|o [|o' outs]]; [by rewrite ?andb_false_r..|].
  intros [_ He]%andb_true_iff. exists o, (o' :: outs). split; [done|]. unfold txout_IsEmpty in He.
  apply andb_true_iff in He as [_ He]. by destruct (scriptPubKey o).
Qed.

Section stake.
Context `{Laws : CCoinsViewReads V}.
Context (st : gmap ptr CBlockIndex) (chain : CChain) (params : Params) (tip : ptr) (btip : CBlockIndex).
Hypothesis Htip : Tip chain = Some tip.
Hypothesis Hbtip : st !! tip = Some btip.
Hypothesis Hsupply : 0 <= nMoneySupply btip <= MAX_MONEY.
Hypothesis Hspacing : spacing_small params.

Lemma cap_spec s :
  0 <= s <= MAX_SUBSIDY ->
  (if MAX_MONEY <? u64 (nMoneySupply btip + s) then 0 else s) = (if MAX_MONEY <? nMoneySupply btip + s then 0 else s).
Proof. change MAX_SUBSIDY with 1377422190851953. change MAX_MONEY with 3000000000000000000 in *. intros. by rewrite (wrap_small 64) by (unfold in_u; lia). Qed.

Lemma GetBlockSubsidy_stake nHeight tx (c : CCoinsViewCache V) :
  in_u 31 nHeight -> cache_ok c -> stakes nHeight (cache_utxo c) tx ->
  exists c', GetBlockSubsidy st chain params nHeight (Some tx) c =
      Ok (stake_subsidy params nHeight (nMoneySupply btip) (cache_utxo c) tx, c') /\
    cache_ok c' /\ forall o, cache_utxo c' o = cache_utxo c o.
Proof.
  intros Hh Hc [Hcs Hi Hl]. unfold GetBlockSubsidy. rewrite Hcs. cbn [negb andb].
  destruct (GetCoinAge_spec params nHeight tx c) as (c' & -> & Hc' & Hu); try done; [apply Hh|by apply IsCoinStake_not_coinbase|].
  cbn [obind]. rewrite Htip. unfold deref. cbn [of_option obind]. rewrite Hbtip. cbn [of_option obind].
  exists c'. split; [|done]. rewrite cap_spec by apply age_subsidy_range. rewrite age_subsidy_wraps, GetSubsidyRate_spec by done. reflexivity.
Qed.

Lemma stake_subsidy_range nHeight tx u :
  in_u 31 nHeight ->
  let s := stake_subsidy params nHeight (nMoneySupply btip) u tx in
  0 <= s <= MAX_SUBSIDY /\ nMoneySupply btip + s <= MAX_MONEY.
Proof.
  intros Hh. unfold stake_subsidy, subsidy_units. cbn zeta. rewrite <- GetSubsidyRate_spec by done. change 1000000 with CENT.
  rewrite <- (age_subsidy_wraps nHeight). pose proof (age_subsidy_range nHeight (days_staked params nHeight u tx)).
  destruct (Z.ltb_spec MAX_MONEY (nMoneySupply btip + age_subsidy nHeight (days_staked params nHeight u tx))); [|lia].
  rewrite Z.add_0_r. split; [|lia]. by split.
Qed.

(** A block that is not staked gets the initial reward, then nothing. *)
Lemma GetBlockSubsidy_work nHeight (c : CCoinsViewCache V) :
  GetBlockSubsidy st chain params nHeight None c = Ok (if nHeight <=? nLastPOWBlock params then 3600000 * COIN else 0, c).
Proof.
  unfold GetBlockSubsidy. cbn [negb andb]. destruct (nHeight <=? _); [done|]. cbn [obind]. rewrite Htip.
  unfold deref. cbn [of_option obind]. rewrite Hbtip. cbn [of_option obind]. by destruct (MAX_MONEY <? _).
Qed.

End stake.

(** ** Payments to the contracts *)

Section payment_spec.
Context (stray : option Z).

Definition calls (addr data : bytes) (o : CTxOut) : bool :=
  match IsDGPContractCall_reading stray (scriptPubKey o) addr data with Ok b => b | _ => false end.

(** For every output it is decided whether it calls the contract: no read
    outside a script fails. *)
Definition readable (addr data : bytes) (outs : list CTxOut) : Prop :=
  Forall (fun o => exists b, IsDGPContractCall_reading stray (scriptPubKey o) addr data = Ok b) outs.

Lemma find_dgp_vout_spec addr data outs i :
  readable addr data outs ->
  exists r, find_dgp_vout stray i outs addr data = Ok r /\ fst <$> r = List.find (calls addr data) outs.
Proof.
  intros H. revert i. induction H as [|o outs [b Ho] _ IH]; intros i; [by exists None|].
  cbn [find_dgp_vout List.find]. unfold calls at 1. rewrite Ho. cbn [obind].
  destruct b; [by exists (Some (o, i))|apply IH].
Qed.

(** What a payment of at most [limit] adds to the reward *)
Definition granted (addr data : bytes) (outs : list CTxOut) (limit : Z) : Z :=
  match List.find (calls addr data) outs with Some _ => limit | None => 0 end.

Definition within (addr data : bytes) (outs : list CTxOut) (limit : Z) : Prop :=
  forall o, List.find (calls addr data) outs = Some o -> nValue o <= limit.

Lemma contract_payment_spec block tx addr data limit :
  header_IsProofOfStake (blk_header block) = true -> vtx block !! 1%nat = Some tx -> readable addr data (vout tx) ->
  exists r, contract_payment stray block addr data limit = Ok r /\
    (is_Some r <-> within addr data (vout tx) limit) /\ (forall x, r = Some x -> x = granted addr data (vout tx) limit).
Proof.
  intros Hp Htx Hr. unfold contract_payment, GetDGPVout. rewrite Hp, Htx. cbn [of_option obind].
  destruct (find_dgp_vout_spec addr data (vout tx) 0 Hr) as (r & -> & Hf). cbn [obind]. eexists. split; [done|].
  unfold within, granted. rewrite <- Hf. destruct r as [[o i]|]; cbn [fmap option_fmap option_map fst].
  - destruct (Z.ltb_spec limit (nValue o)) as [Hlt|Hle].
    + split; [|done]. split; [by intros []|]. intros H. specialize (H o eq_refl). lia.
    + split; [|by intros ? [= <-]]. split; [by intros _ ? [= <-]|by eexists].
  - split; [split; [done|by eexists]|by intros ? [= <-]].
Qed.

Lemma granted_range addr data outs limit : 0 <= limit -> 0 <= granted addr data outs limit <= limit.
Proof. unfold granted. destruct (List.find _ _); lia. Qed.

End payment_spec.

(** ** The refunds and the shares among the outputs *)

Lemma erase_first_spec o l :
  match erase_first o l with Some l' => l ≡ₚ o :: l' | None => o ∉ l end.
Proof.
  induction l as [|x l IH]; cbn [erase_first]; [apply not_elem_of_nil|]. destruct (bool_decide_reflect (x = o)) as [->|Hne]; [done|].
  destruct (erase_first o l) as [l'|]; [rewrite IH; constructor|]. by rewrite not_elem_of_cons.
Qed.

Lemma erase_all_spec os l : match erase_all os l with Some l' => l ≡ₚ os ++ l' | None => ~ os ⊆+ l end.
Proof.
  revert l. induction os as [|o os IH]; intros l; cbn [erase_all]; [done|].
  pose proof (erase_first_spec o l) as Ho. destruct (erase_first o l) as [l1|].
  - specialize (IH l1). destruct (erase_all os l1) as [l2|]; [by rewrite Ho, IH|]. rewrite Ho. intros H. apply IH.
    by apply (submseteq_app_inv_l _ _ [o]).
  - intros H. apply Ho. eapply elem_of_submseteq; [|exact H]. by left.
Qed.

Lemma erase_all_app os os' l l' : erase_all os l = Some l' -> (is_Some (erase_all os' l') <-> os ++ os' ⊆+ l).
Proof.
  intros E. pose proof (erase_all_spec os l) as H. rewrite E in H. rewrite H.
  pose proof (erase_all_spec os' l') as H'. destruct (erase_all os' l') as [k|].
  - split; [|by eexists]. intros _. rewrite H'. apply submseteq_app; [done|]. by apply submseteq_inserts_r.
  - split; [by intros []|]. intros Hs. destruct H'. by apply submseteq_app_inv_l in Hs.
Qed.

(** ** The rule for rewards *)

Section rule.
Context (stray : option Z).
Context (st : gmap ptr CBlockIndex) (chain : CChain) (params : Params) (name : chain_name).
Context (ReadStakeIndex : Z -> option bytes) (MineBlocksOnDemand : bool).
Context (getGovernanceDGP getBudgetDGP : Z -> bytes) (getGovernanceCollateral : Z -> Z).

Definition recipients (nHeight : Z) : Z :=
  if nFirstMPoSBlock params <=? nHeight - 1 then nMPoSRewardRecipients params else 1.

(** The outputs to the other recipients of a reward *)
Inductive shares (nHeight pool : Z) : list CTxOut -> Prop :=
| shares_sole : recipients nHeight = 1 -> shares nHeight pool []
| shares_split l :
    1 < recipients nHeight -> 0 <= pool ->
    reference_outputs st chain params ReadStakeIndex MineBlocksOnDemand (pool / recipients nHeight) (nHeight - 1) = Some l ->
    shares nHeight pool l.

Definition governor (nHeight : Z) : Z := GetGovernorSubsidy nHeight (getGovernanceCollateral nHeight).

(** What a staked block may pay in all: the fees, the subsidy, and what the
    contracts are granted *)
Definition reward_limit (nHeight nFees subsidy : Z) (outs : list CTxOut) : Z :=
  let g := governor nHeight in
  nFees + subsidy + granted stray (getGovernanceDGP nHeight) governance_call outs g
    + granted stray (getBudgetDGP nHeight) budget_call outs (GetBudgetSubsidy name subsidy g nHeight).

Record stake_reward_ok (nHeight nFees gasRefunds nActualStakeReward subsidy : Z) (vouts : list CTxOut) (tx : CTransaction) : Prop := {
  governor_within : within stray (getGovernanceDGP nHeight) governance_call (vout tx) (governor nHeight);
  budget_within :
    within stray (getBudgetDGP nHeight) budget_call (vout tx) (GetBudgetSubsidy name subsidy (governor nHeight) nHeight);
  reward_within : nActualStakeReward <= reward_limit nHeight nFees subsidy (vout tx);
  recipients_paid : exists l, shares nHeight (subsidy + nFees - gasRefunds) l /\ vouts ++ l ⊆+ vout tx
}.

End rule.

Lemma GetBudgetSubsidy_range name b g h :
  0 <= b <= MAX_SUBSIDY -> 0 <= g <= MAX_SUBSIDY -> 0 <= GetBudgetSubsidy name b g h <= 4 * MAX_SUBSIDY.
Proof.
  intros Hb Hg. rewrite GetBudgetSubsidy_spec by done. change MAX_SUBSIDY with 1377422190851953 in *.
  assert (0 <= b / 9 <= b) by (split; [apply Z.div_pos; lia|apply Z.div_le_upper_bound; lia]).
  assert (0 <= g / 9 <= g) by (split; [apply Z.div_pos; lia|apply Z.div_le_upper_bound; lia]).
  destruct (_ <? _); lia.
Qed.

Section decides.
Context `{Laws : CCoinsViewReads V}.
Context (stray : option Z).
Context (st : gmap ptr CBlockIndex) (chain : CChain) (params : Params) (name : chain_name).
Context (ReadStakeIndex : Z -> option bytes) (MineBlocksOnDemand : bool).
Context (getGovernanceDGP getBudgetDGP : Z -> bytes) (getGovernanceCollateral : Z -> Z).
Context (script_of : uint256 -> option CScript).
Hypothesis Hst : wf_store st.
Hypothesis Hchain : forall h p, chain_at chain h = Some p -> is_Some (st !! p).
Hypothesis Hrec : 0 <= nMPoSRewardRecipients params.
Hypothesis Hindex : forall h p b hash, chain_at chain h = Some p -> st !! p = Some b -> phashBlock b = Some hash ->
  staker_script MineBlocksOnDemand b (ReadStakeIndex h) = script_of hash.

Lemma check_recipients_spec outs rest vouts state nHeight blockReward gasRefunds m :
  erase_all vouts outs = Some rest -> 0 <= blockReward < 2 ^ 63 -> 0 <= gasRefunds ->
  scripts_ok script_of m -> window params m ->
  exists b state' m',
    check_recipients st chain params ReadStakeIndex MineBlocksOnDemand rest state nHeight blockReward gasRefunds m = Ok (b, state', m') /\
    (b = true -> state' = state) /\
    (b = true <-> exists l, shares st chain params ReadStakeIndex MineBlocksOnDemand nHeight (blockReward - gasRefunds) l /\
      vouts ++ l ⊆+ outs).
Proof.
  intros Ev Hr Hg Hs Hw. unfold check_recipients. fold (recipients params nHeight). set (n := recipients params nHeight).
  destruct (Z.ltb_spec n 1).
  { do 3 eexists. split_and!; [done|done|]. split; [done|]. intros (l & [Hn|l' Hn] & _); fold n in Hn; lia. }
  destruct (Z.eqb_spec n 1) as [Hn|Hn].
  { do 3 eexists. split_and!; [done|done|]. split; [intros _|done]. exists []. split; [by constructor|].
    rewrite app_nil_r. pose proof (erase_all_spec vouts outs) as H'. rewrite Ev in H'. rewrite H'. by apply submseteq_inserts_r. }
  destruct (Z.ltb_spec blockReward gasRefunds).
  { do 3 eexists. split_and!; [done|done|]. split; [done|]. intros (l & [Hn'|l' Hn'] & _); [done|lia]. }
  rewrite swrap_small by (unfold in_s; lia). rewrite Z.quot_div_nonneg by lia.
  destruct (GetMPoSOutputs_spec st chain params ReadStakeIndex MineBlocksOnDemand Hst Hchain Hrec script_of Hindex
    ((blockReward - gasRefunds) / n) (nHeight - 1) [] m Hs Hw) as (m' & -> & _ & _). cbn [obind].
  destruct (reference_outputs _ _ _ _ _ _ _) as [l|] eqn:El; cbn [fmap option_fmap option_map app].
  2: { do 3 eexists. split_and!; [done|done|]. split; [done|]. intros (l & [Hn'|l' _ _ Hl'] & _); [done|].
    fold n in Hl'. by rewrite El in Hl'. }
  pose proof (erase_all_app vouts l outs rest Ev) as Ha. destruct (erase_all l rest).
  - do 3 eexists. split_and!; [done|done|]. split; [intros _|done]. exists l. split; [|by apply Ha; eexists].
    apply shares_split; fold n; [lia|lia|done].
  - do 3 eexists. split_and!; [done|done|]. split; [done|]. intros (l' & [Hn'|l'' _ _ Hl'] & Hsub); [done|].
    fold n in Hl'. rewrite El in Hl'. injection Hl' as ->. by apply Ha in Hsub as [].
Qed.

Context (tip : ptr) (btip : CBlockIndex).
Hypothesis Htip : Tip chain = Some tip.
Hypothesis Hbtip : st !! tip = Some btip.
Hypothesis Hsupply : 0 <= nMoneySupply btip <= MAX_MONEY.
Hypothesis Hspacing : spacing_small params.

Abbreviation check := (CheckReward stray st chain params name ReadStakeIndex MineBlocksOnDemand getGovernanceDGP getBudgetDGP getGovernanceCollateral).
Abbreviation rule := (stake_reward_ok stray st chain params name ReadStakeIndex MineBlocksOnDemand getGovernanceDGP getBudgetDGP getGovernanceCollateral).

#[local] Opaque GetGovernorSubsidy GetBudgetSubsidy stake_subsidy granted.

Lemma CheckReward_stake block tx state nHeight nFees gasRefunds reward vouts (c : CCoinsViewCache V) m :
  header_IsProofOfStake (blk_header block) = true -> vtx block !! 1%nat = Some tx ->
  in_u 31 nHeight -> cache_ok c -> stakes nHeight (cache_utxo c) tx ->
  readable stray (getGovernanceDGP nHeight) governance_call (vout tx) -> readable stray (getBudgetDGP nHeight) budget_call (vout tx) ->
  0 <= nFees <= MAX_MONEY -> 0 <= gasRefunds -> scripts_ok script_of m -> window params m ->
  exists b state' c' m', check block state nHeight nFees gasRefunds reward vouts c m = Ok (b, state', c', m') /\
    (b = true -> state' = state) /\
    (b = true <-> rule nHeight nFees gasRefunds reward (stake_subsidy params nHeight (nMoneySupply btip) (cache_utxo c) tx) vouts tx).
Proof.
  intros Hp Htx Hh Hc Hstk Hrg Hrb Hfees Hrefunds Hs Hw. unfold CheckReward. rewrite Hp, Htx. cbn [of_option obind negb].
  destruct (erase_all vouts (vout tx)) as [rest|] eqn:Ev.
  2: { do 4 eexists. split_and!; [done|done|]. split; [done|]. intros [_ _ _ (l & _ & Hl)].
    pose proof (erase_all_spec vouts (vout tx)) as Hn. rewrite Ev in Hn. destruct Hn.
    transitivity (vouts ++ l); [by apply submseteq_inserts_r|done]. }
  destruct (GetBlockSubsidy_stake st chain params tip btip Htip Hbtip Hsupply Hspacing nHeight tx c Hh Hc Hstk) as (c1 & -> & _ & _).
  cbn [obind]. set (s := stake_subsidy _ _ _ _ _).
  destruct (stake_subsidy_range params btip Hsupply nHeight tx (cache_utxo c) Hh) as [Hsr _]. fold s in Hsr.
  rewrite (eq_refl : GetGovernorSubsidy nHeight (getGovernanceCollateral nHeight) = governor getGovernanceCollateral nHeight).
  set (g := governor getGovernanceCollateral nHeight).
  assert (Hg : 0 <= g <= MAX_SUBSIDY) by apply GetGovernorSubsidy_range.
  pose proof (GetBudgetSubsidy_range name s g nHeight Hsr Hg) as Hb. set (bud := GetBudgetSubsidy name s g nHeight) in *.
  pose proof (granted_range stray (getGovernanceDGP nHeight) governance_call (vout tx) g) as Hgg.
  pose proof (granted_range stray (getBudgetDGP nHeight) budget_call (vout tx) bud) as Hgb.
  destruct (contract_payment_spec stray block tx (getGovernanceDGP nHeight) governance_call g Hp Htx Hrg) as (rg & -> & Hin & Hval).
  cbn [obind]. destruct rg as [xg|].
  2: { do 4 eexists. split_and!; [done|done|]. split; [done|]. intros [Hl _ _ _]. by apply Hin in Hl as []. }
  rewrite (Hval xg eq_refl) in *. clear Hval.
  destruct (contract_payment_spec stray block tx (getBudgetDGP nHeight) budget_call bud Hp Htx Hrb) as (rb & -> & Hinb & Hval).
  cbn [obind]. destruct rb as [xb|].
  2: { do 4 eexists. split_and!; [done|done|]. split; [done|]. intros [_ Hl _ _]. by apply Hinb in Hl as []. }
  rewrite (Hval xb eq_refl) in *. clear Hval.
  change MAX_SUBSIDY with 1377422190851953 in *. change MAX_MONEY with 3000000000000000000 in *.
  rewrite (swrap_small 64 (s + nFees)), (swrap_small 64 (s + nFees + _)), (swrap_small 64) by (unfold in_s; lia).
  destruct (Z.ltb_spec (s + nFees + granted stray (getGovernanceDGP nHeight) governance_call (vout tx) g +
    granted stray (getBudgetDGP nHeight) budget_call (vout tx) bud) reward).
  { do 4 eexists. split_and!; [done|done|]. split; [done|]. intros [_ _ Hlim _]. unfold reward_limit in Hlim.
    fold g bud in Hlim. lia. }
  destruct (check_recipients_spec (vout tx) rest vouts state nHeight (s + nFees) gasRefunds m Ev) as (b & state' & m' & -> & Hst' & Hb');
    [lia|done|done|done|]. cbn [obind].
  do 4 eexists. split_and!; [done|done|]. rewrite Hb'. split.
  - intros Hl. split; [by apply Hin; eexists|by apply Hinb; eexists| |done]. unfold reward_limit. fold g bud. lia.
  - by intros [_ _ _ Hl].
Qed.

(** The coinbase of a block that is not staked *)
Lemma CheckReward_work block tx state nHeight nFees gasRefunds reward vouts (c : CCoinsViewCache V) m :
  header_IsProofOfStake (blk_header block) = false -> vtx block !! 0%nat = Some tx ->
  0 <= nFees <= MAX_MONEY -> Forall (fun o => 0 <= nValue o) (vout tx) -> sum_values (vout tx) <= MAX_MONEY ->
  exists b state', check block state nHeight nFees gasRefunds reward vouts c m = Ok (b, state', c, m) /\
    (b = true -> state' = state) /\
    (b = true <-> vouts ⊆+ vout tx /\
      sum_values (kept (vout tx)) <= nFees + if nHeight <=? nLastPOWBlock params then 3600000 * COIN else 0).
Proof.
  intros Hp Htx Hfees Ho Hsum. unfold CheckReward. rewrite Hp, Htx. cbn [of_option obind negb].
  pose proof (erase_all_spec vouts (vout tx)) as Hv. destruct (erase_all vouts (vout tx)) as [rest|].
  2: { do 2 eexists. split_and!; [done|done|]. split; [done|]. by intros []. }
  rewrite (GetBlockSubsidy_work st chain params tip btip Htip Hbtip). cbn [obind].
  unfold GetValueOut. rewrite value_out_spec, Z.add_0_l by (done || lia). cbn [obind].
  change MAX_MONEY with 3000000000000000000 in *. change (3600000 * COIN) with 360000000000000 in *.
  set (w := if nHeight <=? nLastPOWBlock params then 360000000000000 else 0).
  assert (0 <= w <= 360000000000000) by (subst w; destruct (nHeight <=? nLastPOWBlock params); lia).
  rewrite swrap_small by (unfold in_s; lia).
  destruct (Z.ltb_spec (nFees + w) (sum_values (kept (vout tx)))).
  - do 2 eexists. split_and!; [done|done|]. split; [done|]. intros []. lia.
  - do 2 eexists. split_and!; [done|done|]. split; [intros _|done]. split; [|done]. rewrite Hv. by apply submseteq_inserts_r.
Qed.

#[local] Transparent GetGovernorSubsidy GetBudgetSubsidy stake_subsidy granted.

End decides.

(** * The properties *)

(** C20 (what a stake earns): the subsidy of a coinstake of at most 2^15
    inputs, whose coins are unspent, in range and no higher than the height
    asked about. Each coin counts for its depth, up to the limit for its value
    and from the maturity on, in seconds; their sum in coin-days, rounded down,
    earns the yearly rate of its height less the budget's tenth. The product of
    days, rate and 33 is taken modulo 2^64; where it is below that, the subsidy
    is the exact one. It never lifts the supply recorded at the tip over the
    cap, and asking does not change the coins. *)
Theorem stake_subsidy_is_coin_age `{Laws : CCoinsViewReads V} (st : gmap ptr CBlockIndex) (chain : CChain) (params : Params)
    (tip : ptr) (btip : CBlockIndex) (nHeight : Z) (tx : CTransaction) (c : CCoinsViewCache V) :
  Tip chain = Some tip -> st !! tip = Some btip -> 0 <= nMoneySupply btip <= MAX_MONEY -> spacing_small params ->
  in_u 31 nHeight -> cache_ok c -> stakes nHeight (cache_utxo c) tx ->
  let s := stake_subsidy params nHeight (nMoneySupply btip) (cache_utxo c) tx in
  let exact := subsidy_units params nHeight (cache_utxo c) tx / 12053 * 90 / 100 in
  exists c', GetBlockSubsidy st chain params nHeight (Some tx) c = Ok (s, c') /\
    (subsidy_units params nHeight (cache_utxo c) tx < 2 ^ 64 -> s = if MAX_MONEY <? nMoneySupply btip + exact then 0 else exact) /\
    cache_ok c' /\ (forall o, cache_utxo c' o = cache_utxo c o) /\ 0 <= s <= MAX_SUBSIDY /\ nMoneySupply btip + s <= MAX_MONEY.
Proof.
  intros Htip Hb Hs Hsp Hh Hc Hstk s exact_s.
  destruct (GetBlockSubsidy_stake st chain params tip btip Htip Hb Hs Hsp nHeight tx c Hh Hc Hstk) as (c' & E & Hc' & Hu).
  pose proof (stake_subsidy_range params btip Hs nHeight tx (cache_utxo c) Hh) as [Hr Hm].
  exists c'. split; [exact E|]. split; [|exact (conj Hc' (conj Hu (conj Hr Hm)))].
  intros Hlt. subst s exact_s. unfold stake_subsidy. rewrite Z.mod_small; [reflexivity|]. split; [|exact Hlt].
  by apply subsidy_units_pos.
Qed.

(** The coin of thirty million: a coin of exactly 30,000,000 never ages,
    however deep it is, while a coin of one unit less counts for the maturity
    and a coin of one unit more for twice that. *)
Theorem thirty_million_coin_never_ages nHeight params cn acc :
  nValue (out cn) = 30000000 * COIN ->
  coin_cent_seconds nHeight params cn acc = Ok acc /\
  max_coin_maturity (30000000 * COIN - 1) = COINBASE_MATURITY /\
  max_coin_maturity (30000000 * COIN + 1) = 2 * COINBASE_MATURITY.
Proof.
  intros Hv. split; [|split; reflexivity]. unfold coin_cent_seconds. rewrite Hv.
  change (max_coin_maturity (30000000 * COIN)) with 0. unfold COINBASE_MATURITY.
  by rewrite (proj2 (Z.ltb_lt _ _)) by lia.
Qed.

(** C11 (the reward of a staked block): for a staked block whose coinstake has
    at most 2^15 inputs, all unspent coins in range, and whose outputs can all
    be examined (the byte read before an empty script, such as that of the first
    output, is [stray], and is not OP_CALL; no other output has the shapes on
    which the search reads outside a script), [CheckReward] returns, and accepts
    exactly when the outputs to the governance and to the budget
    contract are within what these are due, the coinstake pays out no more than
    fees, subsidy and the contracts' shares together, and its outputs contain
    the refunds and the shares of the other recipients, each as often as owed.
    An accepted block leaves the state as it was. *)
Theorem CheckReward_decides `{Laws : CCoinsViewReads V} (st : gmap ptr CBlockIndex) (chain : CChain) (params : Params)
    (stray : option Z) (name : chain_name) (ReadStakeIndex : Z -> option bytes) (MineBlocksOnDemand : bool)
    (getGovernanceDGP getBudgetDGP : Z -> bytes) (getGovernanceCollateral : Z -> Z) (script_of : uint256 -> option CScript)
    (tip : ptr) (btip : CBlockIndex) (block : CBlock) (tx : CTransaction) (state : CValidationState)
    (nHeight nFees gasRefunds nActualStakeReward : Z) (vouts : list CTxOut) (c : CCoinsViewCache V) (m : scripts_map) :
  wf_store st -> (forall h p, chain_at chain h = Some p -> is_Some (st !! p)) -> 0 <= nMPoSRewardRecipients params ->
  (forall h p b hash, chain_at chain h = Some p -> st !! p = Some b -> phashBlock b = Some hash ->
    staker_script MineBlocksOnDemand b (ReadStakeIndex h) = script_of hash) ->
  Tip chain = Some tip -> st !! tip = Some btip -> 0 <= nMoneySupply btip <= MAX_MONEY -> spacing_small params ->
  header_IsProofOfStake (blk_header block) = true -> vtx block !! 1%nat = Some tx ->
  in_u 31 nHeight -> cache_ok c -> stakes nHeight (cache_utxo c) tx ->
  readable stray (getGovernanceDGP nHeight) governance_call (vout tx) -> readable stray (getBudgetDGP nHeight) budget_call (vout tx) ->
  0 <= nFees <= MAX_MONEY -> 0 <= gasRefunds -> scripts_ok script_of m -> window params m ->
  exists b state' c' m',
    CheckReward stray st chain params name ReadStakeIndex MineBlocksOnDemand getGovernanceDGP getBudgetDGP getGovernanceCollateral
      block state nHeight nFees gasRefunds nActualStakeReward vouts c m = Ok (b, state', c', m') /\
    (b = true -> state' = state) /\
    (b = true <->
      stake_reward_ok stray st chain params name ReadStakeIndex MineBlocksOnDemand getGovernanceDGP getBudgetDGP getGovernanceCollateral
        nHeight nFees gasRefunds nActualStakeReward (stake_subsidy params nHeight (nMoneySupply btip) (cache_utxo c) tx) vouts tx).
Proof. intros. eapply CheckReward_stake; eassumption. Qed.

(** C40 (a governor's reward may be kept): the check bounds the payment to the
    governance contract from above only. Under the conditions stated
    for the reward of a staked block, before rewards are shared and without gas refunds: a
    staked block is accepted whose first output that calls the governance
    contract pays it nothing, no output of which calls the budget contract, and
    whose coinstake pays out fees, subsidy and the governor's whole reward, to
    whomever its outputs name. *)
Theorem governor_reward_not_enforced `{Laws : CCoinsViewReads V} (st : gmap ptr CBlockIndex) (chain : CChain) (params : Params)
    (stray : option Z) (name : chain_name) (ReadStakeIndex : Z -> option bytes) (MineBlocksOnDemand : bool)
    (getGovernanceDGP getBudgetDGP : Z -> bytes) (getGovernanceCollateral : Z -> Z) (script_of : uint256 -> option CScript)
    (tip : ptr) (btip : CBlockIndex) (block : CBlock) (tx : CTransaction) (state : CValidationState)
    (nHeight nFees nActualStakeReward : Z) (c : CCoinsViewCache V) (m : scripts_map) (o : CTxOut) :
  wf_store st -> (forall h p, chain_at chain h = Some p -> is_Some (st !! p)) -> nFirstMPoSBlock params > nHeight - 1 ->
  0 <= nMPoSRewardRecipients params ->
  (forall h p b hash, chain_at chain h = Some p -> st !! p = Some b -> phashBlock b = Some hash ->
    staker_script MineBlocksOnDemand b (ReadStakeIndex h) = script_of hash) ->
  Tip chain = Some tip -> st !! tip = Some btip -> 0 <= nMoneySupply btip <= MAX_MONEY -> spacing_small params ->
  header_IsProofOfStake (blk_header block) = true -> vtx block !! 1%nat = Some tx ->
  in_u 31 nHeight -> cache_ok c -> stakes nHeight (cache_utxo c) tx ->
  readable stray (getGovernanceDGP nHeight) governance_call (vout tx) -> readable stray (getBudgetDGP nHeight) budget_call (vout tx) ->
  0 <= nFees <= MAX_MONEY -> scripts_ok script_of m -> window params m ->
  let subsidy := stake_subsidy params nHeight (nMoneySupply btip) (cache_utxo c) tx in
  let governors := GetGovernorSubsidy nHeight (getGovernanceCollateral nHeight) in
  List.find (calls stray (getGovernanceDGP nHeight) governance_call) (vout tx) = Some o -> nValue o = 0 ->
  List.find (calls stray (getBudgetDGP nHeight) budget_call) (vout tx) = None ->
  nActualStakeReward = nFees + subsidy + governors ->
  exists c' m',
    CheckReward stray st chain params name ReadStakeIndex MineBlocksOnDemand getGovernanceDGP getBudgetDGP getGovernanceCollateral
      block state nHeight nFees 0 nActualStakeReward [] c m = Ok (true, state, c', m').
Proof.
  intros Hst Hch Hmp Hrec Hidx Htip Hb Hs Hsp Hp Htx Hh Hc Hstk Hrg Hrb Hf Hm Hw subsidy governors Hfind Hv Hnone Hrew.
  destruct (CheckReward_stake stray st chain params name ReadStakeIndex MineBlocksOnDemand getGovernanceDGP getBudgetDGP
    getGovernanceCollateral script_of Hst Hch Hrec Hidx tip btip Htip Hb Hs Hsp block tx state nHeight nFees 0 nActualStakeReward []
    c m Hp Htx Hh Hc Hstk Hrg Hrb Hf ltac:(lia) Hm Hw) as (b & state' & c' & m' & E & Hst' & Hiff).
  assert (Hg : 0 <= governors) by apply GetGovernorSubsidy_range.
  assert (b = true) as ->; [|exists c', m'; rewrite E; by rewrite Hst'].
  apply Hiff. split.
  - intros o' Ho'. rewrite Hfind in Ho'. injection Ho' as <-. rewrite Hv. exact Hg.
  - intros o' Ho'. congruence.
  - unfold reward_limit, granted. rewrite Hfind, Hnone, Hrew. subst subsidy governors. unfold governor. lia.
  - exists []. split; [|apply submseteq_nil_l]. apply shares_sole. unfold recipients. by destruct (Z.leb_spec (nFirstMPoSBlock params) (nHeight - 1)); [lia|].
Qed.

(** The marker of a coinstake is searched: the first output of a coinstake
    has an empty script, and the search for an output that calls a contract
    reads the byte before it. Where that byte cannot be read, or is OP_CALL, the
    search for any contract fails on every staked block; with any other byte it
    is the search among the outputs after the marker. *)
Theorem contract_search_reads_before_marker (stray : option Z) (block : CBlock) (tx : CTransaction) (addr data : bytes) :
  header_IsProofOfStake (blk_header block) = true -> vtx block !! 1%nat = Some tx -> IsCoinStake tx = true ->
  GetDGPVout stray block addr data =
    match stray with
    | Some b => if b =? OP_CALL then Fail else find_dgp_vout stray 1 (tl (vout tx)) addr data
    | None => Fail
    end.
Proof.
  intros Hp Htx Hcs. destruct (coinstake_marker tx Hcs) as (o & outs & Ho & He).
  unfold GetDGPVout. rewrite Hp, Htx. cbn [of_option obind]. rewrite Ho. cbn [find_dgp_vout tl]. rewrite He. unfold IsDGPContractCall_reading.
  cbn [last_byte length Z.of_nat]. destruct stray as [b|]; [|reflexivity]. cbn [of_option obind].
  destruct (b =? OP_CALL); reflexivity.
Qed.

(** ** Instances *)

(** A coin of a thousand, at height 12 *)
Definition rich_cache : CCoinsViewCache CoinStore :=
  CCoinsViewCache_new (mkStore {[out_a := mkCoin (mkTxOut (1000 * COIN) [OP_1]) false false 12]} uint256_null).

Lemma rich_cache_ok : cache_ok rich_cache.
Proof. apply cache_new_ok, map_Forall_singleton. reflexivity. Qed.

Definition some_governance (h : Z) : bytes := repeat 3 20.
Definition some_budget (h : Z) : bytes := repeat 4 20.
Definition some_collateral (h : Z) : Z := 7500000 * COIN.

(** The subsidy of that coin at height 2012, and a governor's reward *)
Definition rich_subsidy : Z := 51327552.
Definition rich_governor : Z := 369617522607.

(** An output of [v] that calls the governance contract *)
Definition governance_out (v : Z) : CTxOut := mkTxOut v (governance_call ++ [20] ++ repeat 3 20 ++ [OP_CALL]).

(** The staker gets [v], the governance contract [w]. *)
Definition rich_stake (v w : Z) : CTransaction :=
  mkTransaction 1 [mkTxIn out_a [] SEQUENCE_FINAL []] [txout_SetEmpty; mkTxOut v [OP_1]; governance_out w] 0.

Definition rich_header : CBlockHeader :=
  mkHeader 1 uint256_null uint256_null 200 0x207fffff 0 uint256_null uint256_null out_a [].

Definition rich_block (v w : Z) : CBlock := mkBlock rich_header [a_coinbase; rich_stake v w].

Lemma linear_tip : linear_store 12 !! 12%positive = Some (linear_index 11).
Proof. apply linear_store_lookup. exists 11%nat. split_and!; [lia|done|done]. Qed.

Lemma mainnet_spacing : spacing_small mainnet_pow.
Proof. by split; vm_compute. Qed.

Lemma rich_stakes v w : stakes 2012 (cache_utxo rich_cache) (rich_stake v w).
Proof.
  split; [reflexivity| |cbn; lia]. constructor; [|constructor].
  exists (mkCoin (mkTxOut (1000 * COIN) [OP_1]) false false 12). split; [reflexivity|]. split; vm_compute; split; congruence.
Qed.

Lemma stake_subsidy_is_coin_age_witness :
  exists c', GetBlockSubsidy (linear_store 12) (linear_chain 12) mainnet_pow 2012 (Some (rich_stake 5 6)) rich_cache =
    Ok (rich_subsidy, c').
Proof.
  destruct (stake_subsidy_is_coin_age (linear_store 12) (linear_chain 12) mainnet_pow 12%positive (linear_index 11) 2012
    (rich_stake 5 6) rich_cache) as (c' & E & _).
  - reflexivity.
  - exact linear_tip.
  - by split; vm_compute.
  - exact mainnet_spacing.
  - by split; vm_compute.
  - exact rich_cache_ok.
  - apply rich_stakes.
  - exists c'. exact E.
Defined.

Lemma thirty_million_coin_never_ages_witness :
  coin_cent_seconds 100000 mainnet_pow (mkCoin (mkTxOut (30000000 * COIN) []) false false 0) (of_uint64 0) = Ok (of_uint64 0).
Proof.
  exact (proj1 (thirty_million_coin_never_ages 100000 mainnet_pow (mkCoin (mkTxOut (30000000 * COIN) []) false false 0)
    (of_uint64 0) eq_refl)).
Defined.

(** A block in which the staker gets the subsidy and the governor's reward goes
    to the contract *)
Lemma CheckReward_decides_witness :
  stake_reward_ok (Some 0) (linear_store 12) (linear_chain 12) mainnet_pow MAIN some_staker false some_governance some_budget some_collateral
    2012 0 0 (rich_subsidy + rich_governor)
    (stake_subsidy mainnet_pow 2012 (nMoneySupply (linear_index 11)) (cache_utxo rich_cache) (rich_stake (1000 * COIN + rich_subsidy) rich_governor))
    [] (rich_stake (1000 * COIN + rich_subsidy) rich_governor).
Proof.
  destruct (CheckReward_decides (linear_store 12) (linear_chain 12) mainnet_pow (Some 0) MAIN some_staker false some_governance some_budget
    some_collateral (fun _ => Some (pkh_script (repeat 7 20))) 12%positive (linear_index 11)
    (rich_block (1000 * COIN + rich_subsidy) rich_governor) (rich_stake (1000 * COIN + rich_subsidy) rich_governor)
    CValidationState_new 2012 0 0 (rich_subsidy + rich_governor) [] rich_cache ∅) as (b & state' & c' & m' & E & _ & Hb).
  - apply linear_store_wf.
  - apply linear_chain_at.
  - by vm_compute.
  - intros h p b hash _ (i & _ & _ & ->)%linear_store_lookup _. reflexivity.
  - reflexivity.
  - exact linear_tip.
  - by split; vm_compute.
  - exact mainnet_spacing.
  - reflexivity.
  - reflexivity.
  - by split; vm_compute.
  - exact rich_cache_ok.
  - apply rich_stakes.
  - repeat constructor; eexists; vm_compute; reflexivity.
  - repeat constructor; eexists; vm_compute; reflexivity.
  - by split; vm_compute.
  - lia.
  - apply map_Forall_empty.
  - exists 0. intros h [e He]. by rewrite lookup_empty in He.
  - apply Hb. vm_compute in E. congruence.
Defined.

(** A block in which the contract gets nothing, and the staker the governor's
    reward *)
Lemma governor_reward_not_enforced_witness :
  let reward := rich_subsidy + rich_governor in
  GetValueOut (rich_stake (1000 * COIN + reward) 0) = Ok (1000 * COIN + reward) /\
  exists c' m',
    CheckReward (Some 0) (linear_store 12) (linear_chain 12) mainnet_pow MAIN some_staker false some_governance some_budget some_collateral
      (rich_block (1000 * COIN + reward) 0) CValidationState_new 2012 0 0 reward [] rich_cache ∅ =
    Ok (true, CValidationState_new, c', m').
Proof.
  split; [vm_compute; reflexivity|].
  apply (governor_reward_not_enforced (linear_store 12) (linear_chain 12) mainnet_pow (Some 0) MAIN some_staker false some_governance
    some_budget some_collateral (fun _ => Some (pkh_script (repeat 7 20))) 12%positive (linear_index 11)
    (rich_block (1000 * COIN + (rich_subsidy + rich_governor)) 0) (rich_stake (1000 * COIN + (rich_subsidy + rich_governor)) 0)
    CValidationState_new 2012 0 (rich_subsidy + rich_governor) rich_cache ∅ (governance_out 0)).
  - apply linear_store_wf.
  - apply linear_chain_at.
  - by vm_compute.
  - by vm_compute.
  - intros h p b hash _ (i & _ & _ & ->)%linear_store_lookup _. reflexivity.
  - reflexivity.
  - exact linear_tip.
  - by split; vm_compute.
  - exact mainnet_spacing.
  - reflexivity.
  - reflexivity.
  - by split; vm_compute.
  - exact rich_cache_ok.
  - apply rich_stakes.
  - repeat constructor; eexists; vm_compute; reflexivity.
  - repeat constructor; eexists; vm_compute; reflexivity.
  - by split; vm_compute.
  - apply map_Forall_empty.
  - exists 0. intros h [e He]. by rewrite lookup_empty in He.
  - vm_compute; reflexivity.
  - reflexivity.
  - vm_compute; reflexivity.
  - vm_compute; reflexivity.
Defined.

Lemma contract_search_reads_before_marker_witness :
  GetDGPVout None (rich_block 5 6) (some_governance 0) governance_call = Fail /\
  GetDGPVout (Some 0) (rich_block 5 6) (some_governance 0) governance_call = Ok (Some (governance_out 6, 2)).
Proof.
  split.
  - exact (contract_search_reads_before_marker None (rich_block 5 6) (rich_stake 5 6) (some_governance 0) governance_call
      eq_refl eq_refl eq_refl).
  - rewrite (contract_search_reads_before_marker (Some 0) (rich_block 5 6) (rich_stake 5 6) (some_governance 0) governance_call
      eq_refl eq_refl eq_refl). vm_compute. reflexivity.
Defined.
