(* ===== verification/Block.v ===== *)
(** * Block: checks of headers and blocks (src/src/validation.cpp, src/src/checkpoints.cpp)

    [CheckBlock] judges a block by itself, [ContextualCheckBlockHeader] and
    [ContextualCheckBlock] by the headers before it, and
    [GenerateCoinbaseCommitment] makes the commitment to the witnesses that the
    latter verifies.  The block index is the store of Chain.v with the map
    [mapBlockIndex] from hashes to entries; signature verification and what the
    contract state holds are parameters. *)

From Stdlib Require Import ZArith List Lia Bool Ascii String.
From stdpp Require Import base decidable list option gmap.
From S2P Require Import Prelude Uint256 Primitives Chain Consensus Script Hash Serialize Merkle Standard Coins Utxo SigHash Interpreter TxVerify Pow Pos.
Import arith_uint256.
Local Open Scope Z_scope.
Local Open Scope outcome_scope.

(** ** Times *)

Definition FutureDrift (nTime : Z) : Z := u32 (u32 nTime + 15).

(** ** The commitment to the witnesses *)

Definition is_commitment (script : CScript) : bool :=
  (38 <=? length script)%nat && (byte_at script 0 =? OP_RETURN) && (byte_at script 1 =? 0x24) &&
  (byte_at script 2 =? 0xaa) && (byte_at script 3 =? 0x21) && (byte_at script 4 =? 0xa9) && (byte_at script 5 =? 0xed).

(** The loop: the last position of a commitment *)
Fixpoint commitment_index (o : Z) (outs : list CTxOut) (commitpos : Z) : Z :=
  match outs with
  | [] => commitpos
  | out :: outs => commitment_index (o + 1) outs (if is_commitment (scriptPubKey out) then o else commitpos)
  end.

Definition GetWitnessCommitmentIndex (block : CBlock) : Z :=
  match vtx block with
  | [] => -1
  | tx :: _ => commitment_index 0 (vout tx) (-1)
  end.

Definition IsWitnessEnabled (prev : option CBlockIndex) (params : Params) : bool :=
  let height := match prev with None => 0 | Some b => Chain.nHeight b + 1 end in
  SegwitHeight params <=? height.

(** [tx.vin[0].scriptWitness.stack = {nonce}] *)
Definition set_witness (stack : list bytes) (tx : CTransaction) : outcome CTransaction :=
  match vin tx with
  | [] => Fail
  | i :: ins => Ok (mkTransaction (nVersion tx) (mkTxIn (prevout i) (scriptSig i) (nSequence i) stack :: ins) (vout tx) (nLockTime tx))
  end.

Definition UpdateUncommittedBlockStructures (block : CBlock) (prev : option CBlockIndex) (params : Params) : outcome CBlock :=
  let commitpos := GetWitnessCommitmentIndex block in
  if negb (commitpos =? -1) && IsWitnessEnabled prev params then
    match vtx block with
    | [] => Fail
    | tx :: txs =>
      if HasWitness tx then Ok block
      else tx <-! set_witness [repeat 0 32] tx ; Ok (mkBlock (blk_header block) (tx :: txs))
    end
  else Ok block.

(** [CHash256().Write(root).Write(nonce).Finalize(root)] *)
Definition commitment_hash (root nonce : bytes) : bytes := Hash (root ++ nonce).

Definition commitment_script (h : bytes) : CScript := [OP_RETURN; 0x24; 0xaa; 0x21; 0xa9; 0xed] ++ h.

(** The commitment and the block; [SegwitHeight] at its maximum disables it. *)
Definition GenerateCoinbaseCommitment `{Dispatch} (block : CBlock) (prev : option CBlockIndex) (params : Params) (fProofOfStake : bool)
    : outcome (bytes * CBlock) :=
  let commitpos := GetWitnessCommitmentIndex block in
  r <-! (if negb (SegwitHeight params =? 2 ^ 31 - 1) && (commitpos =? -1) then
           root <-! BlockWitnessMerkleRoot block (Some fProofOfStake) ;
           let script := commitment_script (commitment_hash (fst root) (repeat 0 32)) in
           match vtx block with
           | [] => Fail
           | tx :: txs =>
             let tx := mkTransaction (nVersion tx) (vin tx) (vout tx ++ [mkTxOut 0 script]) (nLockTime tx) in
             Ok (script, mkBlock (blk_header block) (tx :: txs))
           end
         else Ok ([], block)) ;
  block <-! UpdateUncommittedBlockStructures (snd r) prev params ;
  Ok (fst r, block).

(** ** The structure of a staked block *)

Definition CheckFirstCoinstakeOutput (block : CBlock) : outcome bool :=
  let commitpos := GetWitnessCommitmentIndex block in
  tx <-! of_option (vtx block !! 0%nat) ;
  Ok (if commitpos <? 0 then
        match vout tx with [o] => txout_IsEmpty o | _ => false end
      else
        match vout tx with [o0; o1] => txout_IsEmpty o0 && (nValue o1 =? 0) | _ => false end).

(** The key where it returns true *)
Definition GetBlockPublicKey (block : CBlock) : outcome (option bytes) :=
  if header_IsProofOfWork (blk_header block) then Ok None
  else match vchBlockSig (blk_header block) with
  | [] => Ok None
  | _ =>
    tx <-! of_option (vtx block !! 1%nat) ;
    txout <-! of_option (vout tx !! 1%nat) ;
    r <-! Solver (scriptPubKey txout) false false ;
    match r with
    | (TX_NONSTANDARD, _) => Ok None
    | (TX_PUBKEY, vSolutions) => key <-! sol vSolutions 0 ; Ok (Some key)
    | _ =>
      Ok (match GetScriptOp (scriptPubKey txout) with
          | Some (opcode, _, pc) =>
            if negb (opcode =? OP_RETURN) then None
            else match GetScriptOp pc with
            | Some (_, vchPubKey, _) => if IsCompressedOrUncompressedPubKey vchPubKey then Some vchPubKey else None
            | None => None
            end
          | None => None
          end)
    end
  end.

Section checks.
Context `{View : CCoinsView V} `{Files : BlockFiles} `{Dis : Dispatch}.
Context (Verify : CPubKey -> uint256 -> bytes -> bool) (RecoverLaxDER : uint256 -> bytes -> Z -> bool -> option CPubKey).
Context (st : gmap ptr CBlockIndex) (mapBlockIndex : gmap uint256 ptr) (chain : CChain) (params : Params).
Context (IsInitialBlockDownload : bool) (AdjustedTime : Z) (g : BlockSizeParams).
Context (getGovernanceDGP getBudgetDGP : Z -> bytes).

Definition CheckBlockSignature (block : CBlock) : outcome bool :=
  if header_IsProofOfWork (blk_header block) then Ok (match vchBlockSig (blk_header block) with [] => true | _ => false end)
  else
    r <-! GetBlockPublicKey block ;
    Ok (match r with
        | None => false
        | Some vchPubKey =>
          Verify (CPubKey_Set vchPubKey) (header_GetHashWithoutSign (blk_header block)) (vchBlockSig (blk_header block))
        end).

(** ** Headers *)

Definition CheckHeaderPoW (block : CBlockHeader) : bool := CheckProofOfWork (header_GetHash block) (hdr_nBits block) params.

(** The coins are those of the active chain. *)
Definition CheckHeaderPoS (block : CBlockHeader) (view : CCoinsViewCache V) : outcome (bool * CCoinsViewCache V) :=
  match mapBlockIndex !! hashPrevBlock block with
  | None => Ok (false, view)
  | Some pindexPrev =>
    prev <-! deref st pindexPrev ;
    r <-! (if nEnableHeaderSignatureHeight params <=? Chain.nHeight prev
           then CheckRecoveredPubKeyFromBlockSignature RecoverLaxDER st chain pindexPrev block view
           else Ok (true, view)) ;
    let '(ok, view) := r in
    if negb ok then Ok (false, view)
    else CheckKernel st chain pindexPrev (hdr_nBits block) (StakeTime block) (hdr_prevoutStake block) view ∅
  end.

Definition CheckHeaderProof (block : CBlockHeader) (view : CCoinsViewCache V) : outcome (bool * CCoinsViewCache V) :=
  if header_IsProofOfWork block then Ok (CheckHeaderPoW block, view)
  else if header_IsProofOfStake block then CheckHeaderPoS block view
  else Ok (false, view).

Definition CheckIndexProof (b : CBlockIndex) : outcome bool :=
  hash <-! (if IsProofOfWork b then GetBlockHash b else Ok (hashProof b)) ;
  if IsProofOfStake b then Ok true else Ok (CheckProofOfWork hash (nBits b) params).

Definition CheckBlockHeader (block : CBlockHeader) (state : CValidationState) (fCheckPOW fCheckPOS : bool) (view : CCoinsViewCache V)
    : outcome (bool * CValidationState * CCoinsViewCache V) :=
  if fCheckPOW && header_IsProofOfWork block && negb (CheckHeaderPoW block)
  then Ok (reject BLOCK_INVALID_HEADER "high-hash" state, view)
  else if fCheckPOS && negb IsInitialBlockDownload && header_IsProofOfStake block then
    r <-! CheckHeaderPoS block view ;
    let '(ok, view) := r in
    if negb ok then Ok (reject BLOCK_INVALID_HEADER "bad-cb-header" state, view) else Ok (true, state, view)
  else Ok (true, state, view).

(** ** Contracts in the coinstake *)

Definition governance_cleanup : bytes := [0x6f; 0xaa; 0xa7; 0x4c].

(** [a && !b], where [b] is not evaluated unless [a] holds *)
Definition and_not (a : bool) (b : outcome bool) : outcome bool :=
  if a then r <-! b ; Ok (negb r) else Ok false.

Definition non_dgp_output (nHeight : Z) (o : CTxOut) : outcome bool :=
  let script := scriptPubKey o in
  r <-! and_not (HasOpCreate script || HasOpCall script || HasOpSender script)
    (IsDGPContractCall script (getGovernanceDGP nHeight) governance_call) ;
  r <-! and_not r (IsDGPContractCall script (getGovernanceDGP nHeight) governance_cleanup) ;
  and_not r (IsDGPContractCall script (getBudgetDGP nHeight) budget_call).

Fixpoint some_non_dgp_output (nHeight : Z) (outs : list CTxOut) : outcome bool :=
  match outs with
  | [] => Ok false
  | o :: outs => r <-! non_dgp_output nHeight o ; if r : bool then Ok true else some_non_dgp_output nHeight outs
  end.

Definition HasNonDGPContracts (block : CBlock) : outcome bool :=
  if header_IsProofOfStake (blk_header block) then
    tx <-! of_option (vtx block !! 1%nat) ;
    if tx_HasOpSpend tx then Ok true
    else
      nHeight <-! match mapBlockIndex !! header_GetHash (blk_header block) with
                  | None => Ok (Height chain + 1)
                  | Some p => b <-! deref st p ; Ok (if Chain.nHeight b <=? 0 then Height chain + 1 else Chain.nHeight b)
                  end ;
      some_non_dgp_output nHeight (vout tx)
  else Ok false.

(** ** [CheckBlock] *)

(** The loop over the transactions; an OP_SPEND needs a contract before it. *)
Fixpoint check_transactions (txs : list CTransaction) (lastWasContract : bool) (state : CValidationState)
    : outcome (bool * CValidationState) :=
  match txs with
  | [] => Ok (true, state)
  | tx :: txs =>
    r <-! CheckTransaction tx (dgpMaxBlockWeight g) state true ;
    let '(ok, state) := r in
    if negb ok then Ok (false, Invalid (m_reason state) (chRejectCode state) (strRejectReason state) state)
    else if tx_HasOpSpend tx && negb lastWasContract then Ok (reject CONSENSUS "bad-opspend-tx" state)
    else check_transactions txs (tx_HasCreateOrCall tx || tx_HasOpSpend tx) state
  end.

Definition block_sigops (txs : list CTransaction) : Z :=
  fold_left (fun nSigOps tx => u32 (nSigOps + GetLegacySigOpCount tx)) txs 0.

(** What [CheckBlock] checks of a staked block; [None] where it is fine *)
Definition check_staked (block : CBlock) : outcome (option string) :=
  first <-! CheckFirstCoinstakeOutput block ;
  if negb first then Ok (Some "bad-cb-missing"%string)
  else match vtx block with
  | _ :: tx :: txs =>
    if negb (IsCoinStake tx) then Ok (Some "bad-cs-missing"%string)
    else match vin tx with
    | [] => Ok (Some "bad-cs-invalid"%string)
    | i :: _ =>
      if negb (outpoint_eqb (hdr_prevoutStake (blk_header block)) (prevout i)) then Ok (Some "bad-cs-invalid"%string)
      else if existsb IsCoinStake txs then Ok (Some "bad-cs-multiple"%string)
      else
        contracts <-! HasNonDGPContracts block ;
        Ok (if contracts : bool then Some "bad-cs-contract"%string else None)
    end
  | _ => Ok (Some "bad-cs-missing"%string)
  end.

(** From the first check of the transactions on *)
Definition check_body (block : CBlock) (state : CValidationState) (fCheckSig : bool) : outcome (bool * CValidationState) :=
  match vtx block with
  | [] => Ok (reject CONSENSUS "bad-cb-missing" state)
  | tx :: txs =>
    if negb (IsCoinBase tx) then Ok (reject CONSENSUS "bad-cb-missing" state)
    else if existsb IsCoinBase txs then Ok (reject CONSENSUS "bad-cb-multiple" state)
    else if tx_HasOpSpend tx || tx_HasCreateOrCall tx || tx_HasOpSender tx then Ok (reject CONSENSUS "bad-cb-contract" state)
    else
      staked <-! (if header_IsProofOfStake (blk_header block) then check_staked block else Ok None) ;
      match staked with
      | Some why => Ok (reject CONSENSUS why state)
      | None =>
        sig <-! (if fCheckSig then CheckBlockSignature block else Ok true) ;
        if negb sig then Ok (reject CONSENSUS "bad-blk-signature" state)
        else
          r <-! check_transactions (vtx block) false state ;
          let '(ok, state) := r in
          if negb ok then Ok (false, state)
          else if dgpMaxBlockSigOps g <? u32 (block_sigops (vtx block) * WITNESS_SCALE_FACTOR)
          then Ok (reject CONSENSUS "bad-blk-sigops" state)
          else Ok (true, state)
      end
  end.

Definition check_merkle_root (block : CBlock) (fCheckMerkleRoot : bool) : outcome (option string) :=
  if fCheckMerkleRoot then
    r <-! BlockMerkleRoot block ;
    Ok (if negb (bytes_eqb (hashMerkleRoot (blk_header block)) (fst r)) then Some "bad-txnmrklroot"%string
        else if snd r then Some "bad-txns-duplicate"%string
        else None)
  else Ok None.

(** The verdict, the state and [block.fChecked]; the coins are only read where
    proof of stake is checked, which is not asked for here. *)
Definition CheckBlock (block : CBlock) (fChecked : bool) (state : CValidationState) (fCheckPOW fCheckMerkleRoot fCheckSig : bool)
    (view : CCoinsViewCache V) : outcome (bool * CValidationState * bool) :=
  if fChecked then Ok (true, state, fChecked)
  else
    r <-! CheckBlockHeader (blk_header block) state fCheckPOW false view ;
    let '(ok, state, _) := r in
    if negb ok then Ok (false, state, fChecked)
    else if header_IsProofOfStake (blk_header block) && (FutureDrift AdjustedTime <? hdr_nTime (blk_header block))
    then Ok (false, state, fChecked)
    else
      root <-! check_merkle_root block fCheckMerkleRoot ;
      match root with
      | Some why => Ok (reject BLOCK_MUTATED why state, fChecked)
      | None =>
        r <-! check_body block state fCheckSig ;
        let '(ok, state) := r in
        Ok (ok, state, if ok && fCheckPOW && fCheckMerkleRoot then true else fChecked)
      end.

End checks.

(** ** Checkpoints *)

(** [MapCheckpoints], in the order of its heights *)
Definition MapCheckpoints := list (Z * uint256).

Definition CheckHardened (nHeight : Z) (hash : uint256) (checkpoints : MapCheckpoints) : bool :=
  match List.find (fun i => fst i =? nHeight) checkpoints with
  | None => true
  | Some (_, h) => bytes_eqb hash h
  end.

Fixpoint last_checkpoint (mapBlockIndex : gmap uint256 ptr) (l : MapCheckpoints) : option ptr :=
  match l with
  | [] => None
  | (_, hash) :: l =>
    match mapBlockIndex !! hash with
    | Some pindex => Some pindex
    | None => last_checkpoint mapBlockIndex l
    end
  end.

Definition GetLastCheckpoint (mapBlockIndex : gmap uint256 ptr) (checkpoints : MapCheckpoints) : option ptr :=
  last_checkpoint mapBlockIndex (rev checkpoints).

Section context.
Context (st : gmap ptr CBlockIndex) (mapBlockIndex : gmap uint256 ptr) (chain : CChain) (params : Params).

Fixpoint sync_loop (fuel : nat) (best : CBlockIndex) (p : ptr) : outcome ptr :=
  b <-! deref st p ;
  match pprev b with
  | None => Ok p
  | Some q =>
    if Chain.nHeight best <? Chain.nHeight b + nCheckpointSpan params then
      match fuel with O => NoFuel | S fuel => sync_loop fuel best q end
    else Ok p
  end.

Definition AutoSelectSyncCheckpoint : outcome ptr :=
  tip <-! of_option (Tip chain) ;
  best <-! deref st tip ;
  sync_loop (Z.to_nat (Chain.nHeight best)) best tip.

Definition CheckSync (nHeight : Z) : outcome bool :=
  if nHeight =? 0 then Ok true
  else
    p <-! AutoSelectSyncCheckpoint ;
    b <-! deref st p ;
    Ok (negb (nHeight <=? Chain.nHeight b)).

(** ** Headers in context *)

(** ["bad-version(0x%08x)"] *)
Definition hex_digit (d : Z) : ascii := ascii_of_nat (Z.to_nat (if d <? 10 then 48 + d else 87 + d)).

Definition bad_version (nVersion : Z) : string :=
  let digits := map (fun i => hex_digit (Z.land (Z.shiftr (u32 nVersion) (4 * i)) 15)) [7; 6; 5; 4; 3; 2; 1; 0] in
  ("bad-version(0x" ++ string_of_list_ascii digits ++ ")")%string.

Context (fCheckpointsEnabled : bool) (checkpoints : MapCheckpoints).

(** What the checks against the checkpoints reject *)
Definition check_checkpoints (nHeight : Z) (hash : uint256) : outcome (option (ValidationInvalidReason * string)) :=
  old <-! (if fCheckpointsEnabled then
             match GetLastCheckpoint mapBlockIndex checkpoints with
             | None => Ok false
             | Some p => b <-! deref st p ; Ok (nHeight <? Chain.nHeight b)
             end
           else Ok false) ;
  if old : bool then Ok (Some (BLOCK_CHECKPOINT, "bad-fork-prior-to-checkpoint"%string))
  else if fCheckpointsEnabled && negb (CheckHardened nHeight hash checkpoints)
  then Ok (Some (BLOCK_CHECKPOINT, "bad-fork-hardened-checkpoint"%string))
  else
    sync <-! CheckSync nHeight ;
    Ok (if sync : bool then None else Some (BLOCK_HEADER_SYNC, "bad-fork-prior-to-synch-checkpoint"%string)).

Definition ContextualCheckBlockHeader (block : CBlockHeader) (state : CValidationState) (pindexPrev : ptr) (nAdjustedTime : Z)
    : outcome (bool * CValidationState) :=
  prev <-! deref st pindexPrev ;
  let nHeight := Chain.nHeight prev + 1 in
  bits <-! GetNextWorkRequired st (Some pindexPrev) block params (header_IsProofOfStake block) ;
  if negb (hdr_nBits block =? bits) then Ok (reject BLOCK_INVALID_HEADER "bad-diffbits" state)
  else
    r <-! check_checkpoints nHeight (header_GetHash block) ;
    match r with
    | Some (reason, why) => Ok (false, Invalid reason REJECT_CHECKPOINT why state)
    | None =>
      early <-! (if header_IsProofOfStake block
                 then past <-! GetMedianTimePast st pindexPrev ; Ok (hdr_nTime block <=? past)
                 else Ok false) ;
      if early : bool then Ok (reject BLOCK_INVALID_HEADER "time-too-old" state)
      else if header_IsProofOfStake block && (FutureDrift nAdjustedTime <? hdr_nTime block)
      then Ok (reject BLOCK_TIME_FUTURE "time-too-new" state)
      else if ((hdr_nVersion block <? 2) && (BIP34Height params <=? nHeight)) ||
              ((hdr_nVersion block <? 3) && (BIP66Height params <=? nHeight)) ||
              ((hdr_nVersion block <? 4) && (BIP65Height params <=? nHeight))
      then Ok (false, Invalid BLOCK_INVALID_HEADER REJECT_OBSOLETE (bad_version (hdr_nVersion block)) state)
      else Ok (true, state)
    end.

(** ** Blocks in context *)

(** The height at the start of the coinbase *)
Definition check_height (nHeight : Z) (block : CBlock) : outcome bool :=
  if BIP34Height params <=? nHeight then
    let expect := push_int64 [] nHeight in
    tx <-! of_option (vtx block !! 0%nat) ;
    i <-! of_option (vin tx !! 0%nat) ;
    Ok (negb (length (scriptSig i) <? length expect)%nat && bytes_eqb expect (take (length expect) (scriptSig i)))
  else Ok true.

(** [fHaveWitness], or the reason of the rejection *)
Definition check_commitment `{Dispatch} (nHeight : Z) (block : CBlock) : outcome (bool + string) :=
  let commitpos := GetWitnessCommitmentIndex block in
  if (SegwitHeight params <=? nHeight) && negb (commitpos =? -1) then
    r <-! BlockWitnessMerkleRoot block None ;
    tx <-! of_option (vtx block !! 0%nat) ;
    i <-! of_option (vin tx !! 0%nat) ;
    match scriptWitness i with
    | [nonce] =>
      if negb (length nonce =? 32)%nat then Ok (inr "bad-witness-nonce-size"%string)
      else
        out <-! of_option (vout tx !! Z.to_nat commitpos) ;
        if bytes_eqb (commitment_hash (fst r) nonce) (take 32 (drop 6 (scriptPubKey out)))
        then Ok (inl true) else Ok (inr "bad-witness-merkle-match"%string)
    | _ => Ok (inr "bad-witness-nonce-size"%string)
    end
  else Ok (inl false).

Definition ContextualCheckBlock `{Dispatch} (block : CBlock) (state : CValidationState) (pindexPrev : option ptr)
    : outcome (bool * CValidationState) :=
  nHeight <-! match pindexPrev with None => Ok 0 | Some p => b <-! deref st p ; Ok (Chain.nHeight b + 1) end ;
  nLockTimeCutoff <-! (if CSVHeight params <=? nHeight
                       then p <-! of_option pindexPrev ; GetMedianTimePast st p
                       else Ok (hdr_nTime (blk_header block))) ;
  if negb (forallb (fun tx => IsFinalTx tx nHeight nLockTimeCutoff) (vtx block))
  then Ok (reject CONSENSUS "bad-txns-nonfinal" state)
  else
    height <-! check_height nHeight block ;
    if negb height then Ok (reject CONSENSUS "bad-cb-height" state)
    else
      r <-! check_commitment nHeight block ;
      match r with
      | inr why => Ok (reject BLOCK_MUTATED why state)
      | inl fHaveWitness =>
        if negb fHaveWitness && existsb HasWitness (vtx block)
        then Ok (reject BLOCK_MUTATED "unexpected-witness" state)
        else Ok (true, state)
      end.

End context.

(** ** The proof of a block *)

Definition set_hashProof (b : CBlockIndex) (h : uint256) : CBlockIndex :=
  mkBlockIndex (phashBlock b) (pprev b) (pnext b) (pskip b) (Chain.nHeight b) (nFile b) (nDataPos b) (nUndoPos b)
    (nChainWork b) (nTx b) (nChainTx b) (nStatus b) (idx_nVersion b) (idx_hashMerkleRoot b) (nTime b) (nBits b) (idx_nNonce b)
    (idx_hashStateRoot b) (idx_hashUTXORoot b) (idx_vchBlockSig b) (nStakeModifier b) (prevoutStake b) h (nMoneySupply b)
    (nSequenceId b) (nTimeMax b).

Section proof.
Context `{View : CCoinsView V}.
Context (Verify : CPubKey -> uint256 -> bytes -> bool) (CheckLowS : bytes -> bool).
Context (params : Params).

(** [CheckProofOfStake] with a pointer that may be null; it is read after the
    coin. *)
Definition CheckProofOfStake_ptr (st : gmap ptr CBlockIndex) (pindexPrev : option ptr) (state : CValidationState)
    (tx : CTransaction) (nBits nTimeBlock : Z) (proofs : uint256 * uint256) (view : CCoinsViewCache V)
    : outcome (bool * CValidationState * (uint256 * uint256) * CCoinsViewCache V) :=
  match pindexPrev with
  | Some p => CheckProofOfStake Verify CheckLowS st p state tx nBits nTimeBlock proofs view
  | None =>
    if negb (IsCoinStake tx) then Ok (false, state, proofs, view)
    else
      txin <-! of_option (vin tx !! 0%nat) ;
      let '(r, view) := cache_GetCoin (prevout txin) view in
      match r with
      | None => Ok (reject BLOCK_INVALID_HEADER "stake-prevout-not-exist" state, proofs, view)
      | Some _ => Fail
      end
  end.

(** The verdict, the state, the coins and the store with the recorded proof *)
Definition UpdateHashProof (block : CBlock) (state : CValidationState) (st : gmap ptr CBlockIndex) (pindex : ptr)
    (view : CCoinsViewCache V) : outcome (bool * CValidationState * CCoinsViewCache V * gmap ptr CBlockIndex) :=
  b <-! deref st pindex ;
  let h := blk_header block in
  if header_IsProofOfWork h && (nLastPOWBlock params <? Chain.nHeight b)
  then Ok (reject BLOCK_INVALID_HEADER "reject-pow" state, view, st)
  else if header_IsProofOfStake h && negb (CheckCoinStakeTimestamp (hdr_nTime h))
  then Ok (reject BLOCK_INVALID_HEADER "timestamp-invalid" state, view, st)
  else
    bits <-! GetNextWorkRequired st (pprev b) h params (header_IsProofOfStake h) ;
    if negb (hdr_nBits h =? bits) then Ok (reject BLOCK_INVALID_HEADER "bad-diffbits" state, view, st)
    else if header_IsProofOfStake h then
      tx <-! of_option (vtx block !! 1%nat) ;
      r <-! CheckProofOfStake_ptr st (pprev b) state tx (hdr_nBits h) (hdr_nTime h) (uint256_null, uint256_null) view ;
      let '(ok, state, proofs, view) := r in
      if negb ok then Ok (false, state, view, st)
      else Ok (true, state, view, <[pindex := set_hashProof b (fst proofs)]> st)
    else Ok (true, state, view, <[pindex := set_hashProof b (header_GetHash h)]> st).

End proof.

(** [CheckPOS]: whether the stake of a header can be checked now. The walk
    goes through at most [COINBASE_MATURITY] entries and does not look for the
    end of the branch. *)
Fixpoint child_of_tip (n : nat) (st : gmap ptr CBlockIndex) (tip prev : option ptr) : outcome bool :=
  match n with
  | O => Ok false
  | S n =>
    if bool_decide (prev = tip) then Ok true
    else p <-! of_option prev ; b <-! deref st p ; child_of_tip n st tip (pprev b)
  end.

Definition CheckPOS (st : gmap ptr CBlockIndex) (chain : CChain) (IsInitialBlockDownload : bool) (block : CBlockHeader) (pindexPrev : ptr)
    : outcome bool :=
  b <-! deref st pindexPrev ;
  let diff := Chain.nHeight b + 1 - Height chain in
  if header_IsProofOfStake block && negb IsInitialBlockDownload && (diff <? COINBASE_MATURITY) then
    if diff <? - COINBASE_MATURITY then Ok true
    else child_of_tip (Z.to_nat COINBASE_MATURITY) st (Tip chain) (Some pindexPrev)
  else Ok false.

(** * Correctness *)

(** ** The commitment is found again *)

Lemma commitment_index_app o outs outs' pos :
  commitment_index o (outs ++ outs') pos = commitment_index (o + Z.of_nat (length outs)) outs' (commitment_index o outs pos).
Proof.
  revert o pos. induction outs as [|out outs IH]; intros o pos; cbn [app commitment_index length]; [by rewrite Z.add_0_r|].
  rewrite IH. f_equal. lia.
Qed.

Lemma commitment_script_spec h : length h = 32%nat -> is_commitment (commitment_script h) = true /\ take 32 (drop 6 (commitment_script h)) = h.
Proof.
  intros Hh. split; [|change (drop 6 (commitment_script h)) with h; apply take_ge; by rewrite Hh].
  unfold is_commitment. apply andb_true_intro. split; [|done]. repeat (apply andb_true_intro; split; [|done]).
  apply Nat.leb_le. change (38 <= 6 + length h)%nat. lia.
Qed.

Lemma commitment_hash_length root nonce : length (commitment_hash root nonce) = 32%nat.
Proof. unfold commitment_hash. apply Hash_digest. Qed.

Lemma commitment_index_committed outs root nonce pos :
  commitment_index 0 (outs ++ [mkTxOut 0 (commitment_script (commitment_hash root nonce))]) pos = Z.of_nat (length outs).
Proof.
  destruct (commitment_script_spec _ (commitment_hash_length root nonce)) as [E _].
  rewrite commitment_index_app. cbn [commitment_index scriptPubKey]. rewrite E. lia.
Qed.

Lemma BlockWitnessMerkleRoot_total `{Laws : DispatchLaws} block pos :
  (1 + (if (match pos with Some b => b | None => header_IsProofOfStake (blk_header block) end) then 1 else 0) <= length (vtx block))%nat ->
  Z.of_nat (length (vtx block)) < 2 ^ 31 ->
  exists root m, BlockWitnessMerkleRoot block pos = Ok (root, m).
Proof.
  assert (Hw : forall tx, length (ComputeWitnessHash tx) = 32%nat) by (intros tx; unfold ComputeWitnessHash, ComputeHash; destruct (negb _); apply Hash_digest).
  intros Hl Hn. unfold BlockWitnessMerkleRoot. cbv zeta. set (pf := match pos with Some b => b | None => _ end) in *.
  rewrite (proj2 (Nat.ltb_ge _ _)) by done. set (first := (1 + if pf then 1 else 0)%nat) in *.
  set (l := repeat uint256_null first ++ map ComputeWitnessHash (drop first (vtx block))).
  assert (Hids : ids l).
  { apply Forall_app. split; [by apply Forall_forall; intros x ->%list_elem_of_In%repeat_spec|].
    apply Forall_forall. intros x Hx%list_elem_of_In. apply in_map_iff in Hx as (tx & <- & _). apply Hw. }
  assert (Hlen : 1 <= Z.of_nat (length l) < 2 ^ 31).
  { unfold l. rewrite length_app, repeat_length, length_map, length_drop. lia. }
  destruct (ComputeMerkleRoot_spec l Hids Hlen) as (h & m & _ & _ & _ & E & _). by eauto.
Qed.

(** What generating a commitment does to a block whose coinbase has neither a
    commitment nor a witness *)
Definition committed (block : CBlock) (root : uint256) : CBlock :=
  match vtx block with
  | [] => block
  | tx :: txs =>
    let out := mkTxOut 0 (commitment_script (commitment_hash root (repeat 0 32))) in
    let ins := match vin tx with [] => [] | i :: ins => mkTxIn (prevout i) (scriptSig i) (nSequence i) [repeat 0 32] :: ins end in
    mkBlock (blk_header block) (mkTransaction (nVersion tx) ins (vout tx ++ [out]) (nLockTime tx) :: txs)
  end.

Lemma committed_index block tx txs root :
  vtx block = tx :: txs -> GetWitnessCommitmentIndex (committed block root) = Z.of_nat (length (vout tx)).
Proof.
  intros E. unfold GetWitnessCommitmentIndex, committed. rewrite E. cbn [vtx vout]. apply commitment_index_committed.
Qed.

Section commit.
Context `{Laws : DispatchLaws} (block : CBlock) (tx : CTransaction) (txs : list CTransaction) (i : CTxIn) (ins : list CTxIn).
Context (prev : CBlockIndex) (params : Params) (fProofOfStake : bool).
Hypothesis Hvtx : vtx block = tx :: txs.
Hypothesis Hvin : vin tx = i :: ins.
Hypothesis Hnone : GetWitnessCommitmentIndex block = -1.
Hypothesis Hwit : HasWitness tx = false.
Hypothesis Hpos : fProofOfStake = header_IsProofOfStake (blk_header block).
Hypothesis Hcs : fProofOfStake = true -> txs <> [].
Hypothesis Hlen : Z.of_nat (length (vtx block)) < 2 ^ 31.
Hypothesis Hseg : SegwitHeight params <= Chain.nHeight prev + 1 /\ SegwitHeight params <> 2 ^ 31 - 1.

Lemma commit_root : exists root m, BlockWitnessMerkleRoot block (Some fProofOfStake) = Ok (root, m).
Proof.
  apply BlockWitnessMerkleRoot_total; [|done]. rewrite Hvtx. cbn [length].
  destruct fProofOfStake; [|lia]. destruct txs; [by destruct Hcs|cbn [length]; lia].
Qed.

Lemma GenerateCoinbaseCommitment_spec root m :
  BlockWitnessMerkleRoot block (Some fProofOfStake) = Ok (root, m) ->
  GenerateCoinbaseCommitment block (Some prev) params fProofOfStake =
    Ok (commitment_script (commitment_hash root (repeat 0 32)), committed block root).
Proof.
  intros Hr. unfold GenerateCoinbaseCommitment. rewrite Hnone, (proj2 (Z.eqb_neq _ _)) by tauto. cbn [negb andb].
  change (-1 =? -1) with true. cbv iota. rewrite Hr. cbn [obind fst snd]. rewrite Hvtx. cbn [obind fst snd].
  unfold UpdateUncommittedBlockStructures, IsWitnessEnabled. cbn [vtx].
  assert (Hi : GetWitnessCommitmentIndex (mkBlock (blk_header block)
      (mkTransaction (nVersion tx) (vin tx) (vout tx ++ [mkTxOut 0 (commitment_script (commitment_hash root (repeat 0 32)))]) (nLockTime tx) :: txs)) =
    Z.of_nat (length (vout tx))).
  { unfold GetWitnessCommitmentIndex. cbn [vtx vout]. apply commitment_index_committed. }
  rewrite Hi, (proj2 (Z.eqb_neq _ _)), (proj2 (Z.leb_le _ _)) by lia. cbn [negb andb].
  unfold HasWitness in *. cbn [vin]. rewrite Hwit. unfold set_witness. cbn [vin]. rewrite Hvin. cbn [obind].
  unfold committed. by rewrite Hvtx, Hvin.
Qed.

(** The witness hashes do not involve the coinbase. *)
Lemma committed_root root : BlockWitnessMerkleRoot (committed block root) None = BlockWitnessMerkleRoot block (Some fProofOfStake).
Proof.
  unfold BlockWitnessMerkleRoot, committed. rewrite Hvtx. cbn [vtx blk_header length]. rewrite <- Hpos. by destruct fProofOfStake.
Qed.

Lemma check_commitment_committed root m :
  BlockWitnessMerkleRoot block (Some fProofOfStake) = Ok (root, m) ->
  check_commitment params (Chain.nHeight prev + 1) (committed block root) = Ok (inl true).
Proof.
  intros Hr. unfold check_commitment. rewrite (committed_index _ _ _ _ Hvtx), (proj2 (Z.eqb_neq _ _)), (proj2 (Z.leb_le _ _)) by lia.
  cbn [negb andb]. rewrite committed_root, Hr. cbn [obind fst]. unfold committed. rewrite Hvtx, Hvin.
  cbn [vtx lookup list_lookup of_option obind vin vout scriptWitness]. rewrite repeat_length. cbn [Nat.eqb negb].
  rewrite Nat2Z.id, lookup_app_r, Nat.sub_diag by lia. cbn [lookup list_lookup of_option obind scriptPubKey].
  destruct (commitment_script_spec _ (commitment_hash_length root (repeat 0 32))) as [_ ->].
  by rewrite (proj2 (bytes_eqb_eq _ _)).
Qed.

End commit.

(** ** Witnesses do not matter to [CheckBlock] *)

Definition strip_in (i : CTxIn) : CTxIn := mkTxIn (prevout i) (scriptSig i) (nSequence i) [].

Definition strip (tx : CTransaction) : CTransaction := mkTransaction (nVersion tx) (map strip_in (vin tx)) (vout tx) (nLockTime tx).

Definition strip_block (block : CBlock) : CBlock := mkBlock (blk_header block) (map strip (vtx block)).

Lemma existsb_strip (f : CTxIn -> bool) ins : (forall i, f (strip_in i) = f i) -> existsb f (map strip_in ins) = existsb f ins.
Proof. intros Hf. induction ins as [|i ins IH]; [done|]. cbn. by rewrite Hf, IH. Qed.

Lemma strip_IsCoinBase tx : IsCoinBase (strip tx) = IsCoinBase tx.
Proof. unfold IsCoinBase. by destruct tx as [? [|? [|]] ? ?]. Qed.

Lemma strip_IsCoinStake tx : IsCoinStake (strip tx) = IsCoinStake tx.
Proof. unfold IsCoinStake. by destruct tx as [? [|] ? ?]. Qed.

Lemma strip_HasOpSpend tx : tx_HasOpSpend (strip tx) = tx_HasOpSpend tx.
Proof. unfold tx_HasOpSpend, strip. cbn [vin]. by apply existsb_strip. Qed.

Lemma strip_Serialize tx : SerializeTransaction false (strip tx) = SerializeTransaction false tx.
Proof.
  unfold SerializeTransaction. cbn [andb strip nVersion vin vout nLockTime]. unfold Serialize_vector.
  rewrite length_map, map_map. reflexivity.
Qed.

Lemma strip_ComputeHash tx : ComputeHash (strip tx) = ComputeHash tx.
Proof. unfold ComputeHash. by rewrite strip_Serialize. Qed.

Lemma strip_sigops tx : GetLegacySigOpCount (strip tx) = GetLegacySigOpCount tx.
Proof.
  unfold GetLegacySigOpCount. cbn [strip vin vout]. f_equal. generalize 0. induction (vin tx) as [|i ins IH]; intros n; [done|]. apply IH.
Qed.

Lemma strip_no_duplicates ins l : no_duplicates (map strip_in ins) l = no_duplicates ins l.
Proof. revert l. induction ins as [|i ins IH]; intros l; [done|]. cbn. by destruct (bool_decide _); [|apply IH]. Qed.

Lemma strip_check_outputs tx outs n : check_outputs (strip tx) outs n = check_outputs tx outs n.
Proof.
  revert n. induction outs as [|o outs IH]; intros n; [done|]. cbn [check_outputs].
  rewrite strip_IsCoinBase, strip_IsCoinStake, IH. by destruct (Solver (scriptPubKey o) true false) as [r| |].
Qed.

Lemma strip_check_inputs tx : check_inputs (strip tx) = check_inputs tx.
Proof.
  unfold check_inputs. rewrite strip_IsCoinBase. cbn [strip vin]. rewrite existsb_strip by done. by destruct (vin tx).
Qed.

Lemma strip_CheckTransaction tx w state dup : CheckTransaction (strip tx) w state dup = CheckTransaction tx w state dup.
Proof.
  unfold CheckTransaction, tx_size. rewrite strip_Serialize, strip_check_outputs, strip_check_inputs. cbn [strip vin vout].
  rewrite strip_no_duplicates. by destruct (vin tx), (vout tx).
Qed.

Section strip.
Context `{Files : BlockFiles} `{Dis : Dispatch} (Verify : CPubKey -> uint256 -> bytes -> bool).
Context (st : gmap ptr CBlockIndex) (mapBlockIndex : gmap uint256 ptr) (chain : CChain).
Context (g : BlockSizeParams) (getGovernanceDGP getBudgetDGP : Z -> bytes).

Lemma strip_check_transactions txs last state :
  check_transactions g (map strip txs) last state = check_transactions g txs last state.
Proof.
  revert last state. induction txs as [|tx txs IH]; intros last state; [done|]. cbn [map check_transactions].
  rewrite strip_CheckTransaction, strip_HasOpSpend. destruct (CheckTransaction _ _ _ _) as [[ok s]| |]; [|done..]. cbn [obind].
  by rewrite IH.
Qed.

Lemma strip_block_sigops txs : block_sigops (map strip txs) = block_sigops txs.
Proof.
  unfold block_sigops. generalize 0. induction txs as [|tx txs IH]; intros n; [done|]. cbn [map fold_left]. by rewrite strip_sigops, IH.
Qed.

Lemma strip_existsb (f : CTransaction -> bool) txs : (forall tx, f (strip tx) = f tx) -> existsb f (map strip txs) = existsb f txs.
Proof. intros Hf. induction txs as [|tx txs IH]; [done|]. cbn. by rewrite Hf, IH. Qed.

Lemma strip_lookup block n : vtx (strip_block block) !! n = strip <$> (vtx block !! n).
Proof. apply list_lookup_fmap. Qed.

Lemma strip_GetBlockPublicKey block : GetBlockPublicKey (strip_block block) = GetBlockPublicKey block.
Proof. unfold GetBlockPublicKey. rewrite strip_lookup. by destruct (vtx block !! 1%nat). Qed.

Lemma strip_HasNonDGPContracts block :
  HasNonDGPContracts st mapBlockIndex chain getGovernanceDGP getBudgetDGP (strip_block block) =
  HasNonDGPContracts st mapBlockIndex chain getGovernanceDGP getBudgetDGP block.
Proof.
  unfold HasNonDGPContracts. rewrite strip_lookup. destruct (vtx block !! 1%nat) as [tx|]; [|done].
  cbn [fmap option_fmap option_map of_option obind]. by rewrite strip_HasOpSpend.
Qed.

Lemma strip_check_staked block :
  check_staked st mapBlockIndex chain getGovernanceDGP getBudgetDGP (strip_block block) =
  check_staked st mapBlockIndex chain getGovernanceDGP getBudgetDGP block.
Proof.
  unfold check_staked. rewrite strip_HasNonDGPContracts. unfold CheckFirstCoinstakeOutput, GetWitnessCommitmentIndex, strip_block.
  cbn [vtx blk_header]. destruct (vtx block) as [|cb [|tx txs]]; [done|done|]. cbn [map].
  rewrite strip_IsCoinStake, (strip_existsb _ _ strip_IsCoinStake). by destruct tx as [? [|] ? ?].
Qed.

Lemma strip_check_body block state sig :
  check_body Verify st mapBlockIndex chain g getGovernanceDGP getBudgetDGP (strip_block block) state sig =
  check_body Verify st mapBlockIndex chain g getGovernanceDGP getBudgetDGP block state sig.
Proof.
  unfold check_body. rewrite strip_check_staked. unfold CheckBlockSignature. rewrite strip_GetBlockPublicKey.
  change (vtx (strip_block block)) with (map strip (vtx block)). change (blk_header (strip_block block)) with (blk_header block).
  rewrite strip_check_transactions, strip_block_sigops.
  destruct (vtx block) as [|cb txs]; [done|]. cbn [map].
  by rewrite strip_IsCoinBase, (strip_existsb _ _ strip_IsCoinBase), strip_HasOpSpend.
Qed.

Lemma strip_check_merkle_root block check : check_merkle_root (strip_block block) check = check_merkle_root block check.
Proof.
  unfold check_merkle_root, BlockMerkleRoot. cbn [strip_block vtx blk_header]. rewrite map_map.
  by rewrite (map_ext _ _ strip_ComputeHash).
Qed.

End strip.

(** ** What [CheckBlock] accepts *)

(** The ids of the transactions hash to [root], and no two siblings of the tree
    are equal. *)
Definition merkle_ok (l : list uint256) (root : uint256) : Prop :=
  exists h, tree_height (Z.of_nat (length l)) = Ok h /\ CalcHash (Z.of_nat (length l)) h 0 l = root /\
    forall k, (k < h)%nat -> ~ equal_siblings l k.

Definition runs_contract (tx : CTransaction) : bool := tx_HasCreateOrCall tx || tx_HasOpSpend tx.

(** Every OP_SPEND comes right after a transaction that runs a contract. *)
Definition spends_follow (last : bool) (txs : list CTransaction) : Prop :=
  forall k tx, txs !! k = Some tx -> tx_HasOpSpend tx = true ->
    match k with O => last = true | S j => exists tx', txs !! j = Some tx' /\ runs_contract tx' = true end.

Definition total_sigops (txs : list CTransaction) : Z := fold_right (fun tx n => GetLegacySigOpCount tx + n) 0 txs.

Lemma block_sigops_spec txs : u32 (block_sigops txs * WITNESS_SCALE_FACTOR) = u32 (total_sigops txs * WITNESS_SCALE_FACTOR).
Proof.
  unfold block_sigops. change (total_sigops txs) with (0 + total_sigops txs). generalize 0.
  induction txs as [|tx txs IH]; intros n; cbn [fold_left total_sigops fold_right]; [by rewrite Z.add_0_r|].
  rewrite IH. unfold u32, wrap. fold (total_sigops txs). rewrite <- Zmult_mod_idemp_l. rewrite Zplus_mod_idemp_l.
  rewrite Zmult_mod_idemp_l. f_equal. lia.
Qed.

Lemma spends_follow_cons last tx txs :
  spends_follow last (tx :: txs) <-> (tx_HasOpSpend tx = true -> last = true) /\ spends_follow (runs_contract tx) txs.
Proof.
  unfold spends_follow. split.
  - intros H. split; [exact (H 0%nat tx eq_refl)|]. intros [|k] x Hx Hs; [by destruct (H 1%nat x Hx Hs) as (? & [= <-] & ?)|].
    exact (H (S (S k)) x Hx Hs).
  - intros [H0 H] [|[|k]] x Hx Hs; [|exists tx; split; [done|exact (H 0%nat x Hx Hs)]|exact (H (S k) x Hx Hs)].
    injection Hx as ->. by apply H0.
Qed.

(** A verdict and the state it leaves: a rejection records its reason. *)
Definition recorded (reason : ValidationInvalidReason -> Prop) (state : CValidationState) (b : bool) (state' : CValidationState) : Prop :=
  if b then state' = state else exists r why, reason r /\ state' = Invalid r REJECT_INVALID why state.

Lemma recorded_reject (reason : ValidationInvalidReason -> Prop) state r why :
  reason r -> recorded reason state false (snd (reject r why state)).
Proof. intros Hr. by exists r, why. Qed.

Lemma Invalid_again state why : 
  let s := Invalid CONSENSUS REJECT_INVALID why state in
  Invalid (m_reason s) (chRejectCode s) (strRejectReason s) s = Invalid CONSENSUS REJECT_INVALID why state.
Proof. by destruct state as [[] ? ? ?]. Qed.

Lemma check_transactions_spec g txs last state :
  exists b state', check_transactions g txs last state = Ok (b, state') /\ recorded (eq CONSENSUS) state b state' /\
    (b = true <-> Forall (fun tx => tx_ok tx (dgpMaxBlockWeight g) true) txs /\ spends_follow last txs).
Proof.
  revert last. induction txs as [|tx txs IH]; intros last; cbn [check_transactions].
  { exists true, state. split_and!; [done|done|]. split; [|done]. intros _. split; [constructor|by intros k]. }
  setoid_rewrite Forall_cons_iff. setoid_rewrite spends_follow_cons.
  destruct (CheckTransaction_spec tx (dgpMaxBlockWeight g) state true) as (b & s & -> & Hb & Hs). cbn [obind].
  destruct b; cbn [negb]; [subst s|].
  2: { destruct Hs as [why ->]. do 2 eexists. split_and!; [done|exists CONSENSUS, why; split; [done|apply Invalid_again]|].
    split; [done|]. intros [[Ht _] _]. by apply Hb in Ht. }
  destruct (tx_HasOpSpend tx) eqn:Es, last; cbn [andb negb].
  2: { do 2 eexists. split_and!; [done|by apply recorded_reject|]. split; [done|]. intros (_ & Hl & _). by specialize (Hl eq_refl). }
  all: destruct (IH (tx_HasCreateOrCall tx || tx_HasOpSpend tx)) as (b & s & E & Hst & Hiff); rewrite Es in E; rewrite E;
    exists b, s; split_and!; [done|done|]; rewrite Hiff; fold (runs_contract tx); pose proof (proj1 Hb eq_refl); tauto.
Qed.

Section block_spec.
Context `{View : CCoinsView V} `{Files : BlockFiles} `{Dis : Dispatch} `{Laws : !DispatchLaws}.
Context (Verify : CPubKey -> uint256 -> bytes -> bool) (RecoverLaxDER : uint256 -> bytes -> Z -> bool -> option CPubKey).
Context (st : gmap ptr CBlockIndex) (mapBlockIndex : gmap uint256 ptr) (chain : CChain) (params : Params).
Context (IsInitialBlockDownload : bool) (AdjustedTime : Z) (g : BlockSizeParams).
Context (getGovernanceDGP getBudgetDGP : Z -> bytes).
Hypothesis Hmap : forall hash p, mapBlockIndex !! hash = Some p -> is_Some (st !! p).

(** The height a block has, or would have on the active chain *)
Definition height_of (block : CBlock) : Z :=
  match mapBlockIndex !! header_GetHash (blk_header block) ≫= (fun p => st !! p) with
  | Some b => if Chain.nHeight b <=? 0 then Height chain + 1 else Chain.nHeight b
  | None => Height chain + 1
  end.

Definition calls_dgp (addr data : bytes) (script : CScript) : bool :=
  match IsDGPContractCall script addr data with Ok b => b | _ => false end.

(** One of the three calls that a coinstake may contain *)
Definition dgp_call (nHeight : Z) (script : CScript) : bool :=
  calls_dgp (getGovernanceDGP nHeight) governance_call script ||
  calls_dgp (getGovernanceDGP nHeight) governance_cleanup script ||
  calls_dgp (getBudgetDGP nHeight) budget_call script.

(** Scripts with contract opcodes are long enough to be examined. *)
Definition examinable (nHeight : Z) (o : CTxOut) : Prop :=
  is_contract (scriptPubKey o) = true ->
  Forall (fun x => IsDGPContractCall (scriptPubKey o) (fst x) (snd x) = Ok (calls_dgp (fst x) (snd x) (scriptPubKey o)))
    [(getGovernanceDGP nHeight, governance_call); (getGovernanceDGP nHeight, governance_cleanup); (getBudgetDGP nHeight, budget_call)].

Lemma non_dgp_output_spec nHeight o :
  examinable nHeight o ->
  non_dgp_output getGovernanceDGP getBudgetDGP nHeight o = Ok (is_contract (scriptPubKey o) && negb (dgp_call nHeight (scriptPubKey o))).
Proof.
  intros Ho. unfold non_dgp_output, dgp_call, examinable, is_contract in *.
  replace (HasOpCreate (scriptPubKey o) || HasOpCall (scriptPubKey o) || HasOpSender (scriptPubKey o))
    with (HasOpCall (scriptPubKey o) || HasOpCreate (scriptPubKey o) || HasOpSender (scriptPubKey o))
    by (by destruct (HasOpCall _), (HasOpCreate _)).
  destruct (HasOpCall _ || _ || _); [|done].
  specialize (Ho eq_refl). rewrite !Forall_cons_iff in Ho. destruct Ho as (E1 & E2 & E3 & _). cbn [fst snd] in *.
  unfold and_not. rewrite E1. cbn [obind]. destruct (calls_dgp _ governance_call _); [done|]. cbn [negb]. rewrite E2. cbn [obind].
  destruct (calls_dgp _ governance_cleanup _); [done|]. cbn [negb]. rewrite E3. done.
Qed.

Lemma some_non_dgp_output_spec nHeight outs :
  Forall (examinable nHeight) outs ->
  exists b, some_non_dgp_output getGovernanceDGP getBudgetDGP nHeight outs = Ok b /\
    (b = false <-> Forall (fun o => is_contract (scriptPubKey o) = true -> dgp_call nHeight (scriptPubKey o) = true) outs).
Proof.
  induction 1 as [|o outs Ho _ (b & E & Hb)]; cbn [some_non_dgp_output]; [by exists false|].
  rewrite (non_dgp_output_spec _ _ Ho). cbn [obind]. setoid_rewrite Forall_cons_iff.
  destruct (is_contract (scriptPubKey o)), (dgp_call nHeight (scriptPubKey o)); cbn [negb andb];
    first [exists b; split; [exact E|]; tauto|idtac].
  exists true. split; [done|]. split; [done|]. intros [Hn _]. by specialize (Hn eq_refl).
Qed.

(** The structure of a staked block *)
Record staked_ok (block : CBlock) (cb tx : CTransaction) (txs : list CTransaction) : Prop := {
  staked_coinbase : exists o0 rest, vout cb = o0 :: rest /\ txout_IsEmpty o0 = true /\
    if GetWitnessCommitmentIndex block <? 0 then rest = [] else exists o1, rest = [o1] /\ nValue o1 = 0;
  staked_coinstake : IsCoinStake tx = true;
  staked_kernel : exists i, vin tx !! 0%nat = Some i /\ prevout i = hdr_prevoutStake (blk_header block);
  staked_once : Forall (fun t => IsCoinStake t = false) txs;
  staked_no_spend : tx_HasOpSpend tx = false;
  staked_contracts : Forall (fun o => is_contract (scriptPubKey o) = true -> dgp_call (height_of block) (scriptPubKey o) = true) (vout tx)
}.

Lemma CheckFirstCoinstakeOutput_spec block cb rest :
  vtx block = cb :: rest ->
  exists b, CheckFirstCoinstakeOutput block = Ok b /\
    (b = true <-> exists o0 outs, vout cb = o0 :: outs /\ txout_IsEmpty o0 = true /\
      if GetWitnessCommitmentIndex block <? 0 then outs = [] else exists o1, outs = [o1] /\ nValue o1 = 0).
Proof.
  intros E. unfold CheckFirstCoinstakeOutput. rewrite E. cbn [lookup list_lookup of_option obind]. eexists. split; [done|].
  destruct (GetWitnessCommitmentIndex block <? 0).
  - destruct (vout cb) as [|o0 [|o1 outs]]; (split; [intros Ho|intros (x & l & [= <- <-] & Hx & Hl)]); try done. by exists o0, [].
  - destruct (vout cb) as [|o0 [|o1 [|o2 outs]]]; (split; [intros Ho|intros (x & l & [= <- <-] & Hx & o & Hl & Hv)]); try done.
    + apply andb_true_iff in Ho as [Ho Hv]. exists o0, [o1]. split_and!; [done|done|]. exists o1. split; [done|]. lia.
    + injection Hl as <-. by rewrite Hx, Hv.
Qed.

Lemma HasNonDGPContracts_spec block tx :
  header_IsProofOfStake (blk_header block) = true -> vtx block !! 1%nat = Some tx -> Forall (examinable (height_of block)) (vout tx) ->
  exists b, HasNonDGPContracts st mapBlockIndex chain getGovernanceDGP getBudgetDGP block = Ok b /\
    (b = false <-> tx_HasOpSpend tx = false /\
      Forall (fun o => is_contract (scriptPubKey o) = true -> dgp_call (height_of block) (scriptPubKey o) = true) (vout tx)).
Proof.
  intros Hp Htx Hex. unfold HasNonDGPContracts. rewrite Hp, Htx. cbn [of_option obind].
  destruct (tx_HasOpSpend tx); [exists true; split; [done|]; by split; [|intros []]|].
  destruct (some_non_dgp_output_spec _ _ Hex) as (b & E & Hb). exists b. split; [|by rewrite Hb; intuition].
  unfold height_of in *. destruct (mapBlockIndex !! _) as [p|] eqn:Em; [|exact E].
  destruct (Hmap _ _ Em) as [bi Hbi]. unfold deref. cbn [mbind option_bind] in E. rewrite Hbi in E |- *. exact E.
Qed.

Lemma check_staked_spec block cb rest :
  vtx block = cb :: rest -> header_IsProofOfStake (blk_header block) = true ->
  (forall tx, vtx block !! 1%nat = Some tx -> Forall (examinable (height_of block)) (vout tx)) ->
  decides (check_staked st mapBlockIndex chain getGovernanceDGP getBudgetDGP block)
    (exists tx txs, rest = tx :: txs /\ staked_ok block cb tx txs).
Proof.
  intros E Hp Hex. unfold check_staked. destruct (CheckFirstCoinstakeOutput_spec block cb rest E) as (b & -> & Hb). cbn [obind].
  destruct b; cbn [negb]; [|apply decides_reject; intros (tx & txs & _ & [H _ _ _ _ _]); by apply Hb in H].
  rewrite E in *. destruct rest as [|tx txs]; [apply decides_reject; by intros (? & ? & ? & _)|].
  destruct (IsCoinStake tx) eqn:Ecs; cbn [negb]; [|apply decides_reject; intros (? & ? & [= <- <-] & [_ H _ _ _ _]); congruence].
  destruct (vin tx) as [|i ins] eqn:Ei; [unfold IsCoinStake in Ecs; by rewrite Ei in Ecs|].
  destruct (outpoint_eqb (hdr_prevoutStake (blk_header block)) (prevout i)) eqn:Eo; cbn [negb].
  2: { apply decides_reject. intros (? & ? & [= <- <-] & [_ _ (i' & Hi & Hpi) _ _ _]). rewrite Ei in Hi. injection Hi as ->.
    rewrite Hpi in Eo. by rewrite (proj2 (outpoint_eqb_eq _ _)) in Eo. }
  apply outpoint_eqb_eq in Eo. destruct (existsb IsCoinStake txs) eqn:Ex.
  { apply decides_reject. intros (? & ? & [= <- <-] & [_ _ _ H _ _]). apply existsb_exists in Ex as (t & Ht & Et).
    rewrite Forall_forall in H. rewrite H in Et by (by apply list_elem_of_In). done. }
  destruct (HasNonDGPContracts_spec block tx Hp) as (c & -> & Hc); [by rewrite E|by apply Hex|]. cbn [obind].
  destruct c; [apply decides_reject; intros (? & ? & [= <- <-] & [_ _ _ _ Hs Hd]); by apply (conj Hs) in Hd; apply Hc in Hd|].
  exists None. split; [done|]. split; [intros _|done]. destruct (proj1 Hc eq_refl) as [Hs Hd]. exists tx, txs. split; [done|].
  split; try done; [by apply Hb|exists i; by rewrite Ei|]. apply Forall_forall. intros t Ht%list_elem_of_In.
  destruct (IsCoinStake t) eqn:Et; [|done]. rewrite (proj2 (existsb_exists _ _)) in Ex; [done|by exists t].
Qed.

(** The signature of a block *)
Definition signature_ok (block : CBlock) : Prop :=
  let h := blk_header block in
  if header_IsProofOfWork h then vchBlockSig h = []
  else exists key, GetBlockPublicKey block = Ok (Some key) /\
    Verify (CPubKey_Set key) (header_GetHashWithoutSign h) (vchBlockSig h) = true.

Lemma GetBlockPublicKey_total block tx :
  vtx block !! 1%nat = Some tx -> IsCoinStake tx = true -> exists r, GetBlockPublicKey block = Ok r.
Proof.
  intros Htx Hcs. unfold GetBlockPublicKey. destruct (header_IsProofOfWork _); [by eauto|].
  destruct (vchBlockSig _); [by eauto|]. rewrite Htx. cbn [of_option obind].
  unfold IsCoinStake in Hcs. destruct (vin tx), (vout tx) as [|o0 [|o1 outs]]; try done. cbn [lookup list_lookup of_option obind].
  destruct (Solver_total (scriptPubKey o1) false false) as [[t s] E]. rewrite E. cbn [obind].
  apply Solver_solutions in E. destruct t; try (by eauto). cbn [solutions_of] in E. destruct E as (k & -> & _). by eauto.
Qed.

Lemma CheckBlockSignature_spec block :
  (header_IsProofOfStake (blk_header block) = true -> exists tx, vtx block !! 1%nat = Some tx /\ IsCoinStake tx = true) ->
  exists b, CheckBlockSignature Verify block = Ok b /\ (b = true <-> signature_ok block).
Proof.
  intros Hs. unfold CheckBlockSignature, signature_ok. destruct (header_IsProofOfWork _) eqn:Ep.
  { eexists. split; [done|]. by destruct (vchBlockSig _). }
  unfold header_IsProofOfWork in Ep. apply negb_false_iff in Ep. destruct (Hs Ep) as (tx & Htx & Hcs).
  destruct (GetBlockPublicKey_total block tx Htx Hcs) as [r E]. rewrite E. cbn [obind].
  destruct r as [key|]; (eexists; split; [done|]); split; try done.
  - intros Hv. by exists key.
  - by intros (k & [= <-] & Hv).
  - by intros (k & ? & _).
Qed.

Lemma check_merkle_root_spec block check cb rest :
  vtx block = cb :: rest -> Z.of_nat (length (vtx block)) < 2 ^ 31 ->
  decides (check_merkle_root block check) (check = true -> merkle_ok (map ComputeHash (vtx block)) (hashMerkleRoot (blk_header block))).
Proof.
  intros E Hl. unfold check_merkle_root. destruct check; [|by exists None].
  unfold BlockMerkleRoot. set (l := map ComputeHash (vtx block)) in *.
  assert (Hids : ids l) by (apply Forall_fmap, Forall_forall; intros tx _; apply Hash_digest).
  assert (Hn : 1 <= Z.of_nat (length l) < 2 ^ 31) by (unfold l in *; rewrite length_map, E in *; cbn [length] in *; lia).
  destruct (ComputeMerkleRoot_spec l Hids Hn) as (h & m & Eh & _ & _ & -> & Hm). cbn [obind fst snd].
  destruct (bytes_eqb _ _) eqn:Er; cbn [negb].
  - apply bytes_eqb_eq in Er. eexists. split; [done|]. destruct m; split; try done.
    + intros Hok. destruct (Hok eq_refl) as (h' & Eh' & _ & Hno). rewrite Eh in Eh'. injection Eh' as <-.
      destruct (proj1 Hm eq_refl) as (k & Hk & He). by destruct (Hno k Hk).
    + intros _ _. exists h. split_and!; [done|done|]. intros k Hk He. by assert (false = true) by (apply Hm; by exists k).
  - apply decides_reject. intros Hok. destruct (Hok eq_refl) as (h' & Eh' & Hr & _). rewrite Eh in Eh'. injection Eh' as <-.
    rewrite Hr in Er. by rewrite (proj2 (bytes_eqb_eq _ _)) in Er.
Qed.

(** What a block is checked for *)
Record block_ok (fCheckPOW fCheckMerkleRoot fCheckSig : bool) (block : CBlock) : Prop := {
  block_work : fCheckPOW = true -> header_IsProofOfWork (blk_header block) = true -> CheckHeaderPoW params (blk_header block) = true;
  block_time : header_IsProofOfStake (blk_header block) = true -> hdr_nTime (blk_header block) <= FutureDrift AdjustedTime;
  block_root : fCheckMerkleRoot = true -> merkle_ok (map ComputeHash (vtx block)) (hashMerkleRoot (blk_header block));
  block_coinbase : exists cb txs, vtx block = cb :: txs /\ IsCoinBase cb = true /\ Forall (fun t => IsCoinBase t = false) txs /\
    tx_HasOpSpend cb = false /\ tx_HasCreateOrCall cb = false /\ tx_HasOpSender cb = false /\
    (header_IsProofOfStake (blk_header block) = true -> exists tx txs', txs = tx :: txs' /\ staked_ok block cb tx txs');
  block_signature : fCheckSig = true -> signature_ok block;
  block_transactions : Forall (fun tx => tx_ok tx (dgpMaxBlockWeight g) true) (vtx block);
  block_spends : spends_follow false (vtx block);
  block_sigop_count : u32 (total_sigops (vtx block) * WITNESS_SCALE_FACTOR) <= dgpMaxBlockSigOps g
}.

Abbreviation body := (check_body Verify st mapBlockIndex chain g getGovernanceDGP getBudgetDGP).
Abbreviation check := (CheckBlock Verify RecoverLaxDER st mapBlockIndex chain params IsInitialBlockDownload AdjustedTime g getGovernanceDGP getBudgetDGP).

Lemma existsb_false {A} (f : A -> bool) l : existsb f l = false <-> Forall (fun x => f x = false) l.
Proof.
  induction l as [|x l IH]; [done|]. cbn [existsb]. rewrite orb_false_iff, IH. split; [by intros []; constructor|].
  by intros [? ?]%Forall_cons_iff.
Qed.

Lemma check_body_spec fPOW fRoot fSig block state cb rest :
  vtx block = cb :: rest ->
  (header_IsProofOfStake (blk_header block) = true -> forall tx, vtx block !! 1%nat = Some tx -> Forall (examinable (height_of block)) (vout tx)) ->
  (fPOW = true -> header_IsProofOfWork (blk_header block) = true -> CheckHeaderPoW params (blk_header block) = true) ->
  (header_IsProofOfStake (blk_header block) = true -> hdr_nTime (blk_header block) <= FutureDrift AdjustedTime) ->
  (fRoot = true -> merkle_ok (map ComputeHash (vtx block)) (hashMerkleRoot (blk_header block))) ->
  exists b state', body block state fSig = Ok (b, state') /\
    recorded (eq CONSENSUS) state b state' /\ (b = true <-> block_ok fPOW fRoot fSig block).
Proof.
  intros E Hex Hpow Htime Hroot. unfold check_body. rewrite E.
  destruct (IsCoinBase cb) eqn:Ecb; cbn [negb].
  2: { do 2 eexists. split_and!; [done|by apply recorded_reject|]. split; [done|]. intros [_ _ _ (c & t & Hc & Hcb & _)]. congruence. }
  destruct (existsb IsCoinBase rest) eqn:Eone.
  { do 2 eexists. split_and!; [done|by apply recorded_reject|]. split; [done|]. intros [_ _ _ (c & t & Hc & _ & Ht & _)].
    apply existsb_false in Ht. congruence. }
  apply existsb_false in Eone. destruct (tx_HasOpSpend cb || tx_HasCreateOrCall cb || tx_HasOpSender cb) eqn:Eop.
  { do 2 eexists. split_and!; [done|by apply recorded_reject|]. split; [done|]. intros [_ _ _ (c & t & Hc & _ & _ & H1 & H2 & H3 & _)].
    rewrite E in Hc. injection Hc as <- <-. by rewrite H1, H2, H3 in Eop. }
  rewrite !orb_false_iff in Eop. destruct Eop as [[Eop1 Eop2] Eop3].
  assert (Hst : decides (if header_IsProofOfStake (blk_header block)
      then check_staked st mapBlockIndex chain getGovernanceDGP getBudgetDGP block else Ok None)
    (header_IsProofOfStake (blk_header block) = true -> exists tx txs', rest = tx :: txs' /\ staked_ok block cb tx txs')).
  { destruct (header_IsProofOfStake _) eqn:Ep; [|by exists None].
    eapply decides_iff; [by apply (check_staked_spec block cb rest E Ep (Hex eq_refl))|]. tauto. }
  destruct Hst as (r & -> & Hr). cbn [obind]. destruct r as [why|].
  { do 2 eexists. split_and!; [done|by apply recorded_reject|]. split; [done|]. intros [_ _ _ (c & t & Hc & _ & _ & _ & _ & _ & Hs)].
    rewrite E in Hc. injection Hc as <- <-. by apply Hr in Hs. }
  pose proof (proj1 Hr eq_refl) as Hstaked.
  destruct (CheckBlockSignature_spec block) as (sb & Esig & Hsig).
  { intros Hp. destruct (Hstaked Hp) as (tx & txs & -> & [_ Hcs _ _ _ _]). exists tx. by rewrite E. }
  assert (Hsig' : exists s, (if fSig then CheckBlockSignature Verify block else Ok true) = Ok s /\ (s = true <-> (fSig = true -> signature_ok block))).
  { destruct fSig; [exists sb|exists true]; (split; [done|]); [by rewrite Hsig; intuition|done]. }
  destruct Hsig' as (s & -> & Hs). cbn [obind]. destruct s; cbn [negb].
  2: { do 2 eexists. split_and!; [done|by apply recorded_reject|]. split; [done|]. intros [_ _ _ _ H _ _ _]. by apply Hs in H. }
  rewrite <- E. destruct (check_transactions_spec g (vtx block) false state) as (b & s' & -> & Hst & Hb). cbn [obind].
  destruct b; cbn [negb]; [cbn [recorded] in Hst; subst s'|].
  2: { do 2 eexists. split_and!; [done|done|]. split; [done|]. intros [_ _ _ _ _ Ht Hsp _]. by apply (conj Ht), Hb in Hsp. }
  rewrite block_sigops_spec. destruct (proj1 Hb eq_refl) as [Ht Hsp].
  destruct (Z.ltb_spec (dgpMaxBlockSigOps g) (u32 (total_sigops (vtx block) * WITNESS_SCALE_FACTOR))).
  - do 2 eexists. split_and!; [done|by apply recorded_reject|]. split; [done|]. intros [_ _ _ _ _ _ _ Hso]. lia.
  - do 2 eexists. split_and!; [done|done|]. split; [intros _|done]. split; try done; [|by apply Hs].
    exists cb, rest. by split_and!.
Qed.

(** Why a block is refused: the work of its header, then its merkle root, then
    the rest *)
Definition block_reason (fPOW fRoot : bool) (block : CBlock) (r : ValidationInvalidReason) : Prop :=
  let work := fPOW = true -> header_IsProofOfWork (blk_header block) = true -> CheckHeaderPoW params (blk_header block) = true in
  let root := fRoot = true -> merkle_ok (map ComputeHash (vtx block)) (hashMerkleRoot (blk_header block)) in
  match r with
  | BLOCK_INVALID_HEADER => ~ work
  | BLOCK_MUTATED => work /\ ~ root
  | CONSENSUS => work /\ root
  | _ => False
  end.

(** A staked block from the future is refused without a reason. *)
Definition too_late (block : CBlock) : bool :=
  header_IsProofOfStake (blk_header block) && (FutureDrift AdjustedTime <? hdr_nTime (blk_header block)).

Lemma merkle_ok_nil root : merkle_ok [] root <-> root = uint256_null.
Proof.
  split; [by intros (h & [= <-] & <- & _)|]. intros ->. exists 0%nat. split; [done|]. split; [done|]. lia.
Qed.

Lemma recorded_impl (P Q : ValidationInvalidReason -> Prop) state b state' :
  (forall r, P r -> Q r) -> recorded P state b state' -> recorded Q state b state'.
Proof. intros H. destruct b; [done|]. intros (r & why & Hr & E). exists r, why. by split; [apply H|]. Qed.

Lemma check_root_any block check :
  Z.of_nat (length (vtx block)) < 2 ^ 31 ->
  decides (check_merkle_root block check) (check = true -> merkle_ok (map ComputeHash (vtx block)) (hashMerkleRoot (blk_header block))).
Proof.
  intros Hl. destruct (vtx block) as [|cb rest] eqn:E; [|rewrite <- E; apply (check_merkle_root_spec block check cb rest E); by rewrite E].
  unfold check_merkle_root, BlockMerkleRoot. rewrite E. cbn [map].
  change (ComputeMerkleRoot []) with (Ok (uint256_null, false)). destruct check; [|by exists None]. cbn [obind fst snd].
  destruct (bytes_eqb _ _) eqn:Eb; cbn [negb].
  - apply bytes_eqb_eq in Eb. exists None. split; [done|]. split; [intros _ _; by apply merkle_ok_nil|done].
  - apply decides_reject. intros H'. specialize (H' eq_refl). apply merkle_ok_nil in H'. rewrite H' in Eb. by rewrite (proj2 (bytes_eqb_eq _ _)) in Eb.
Qed.

Lemma CheckBlock_spec fChecked state fPOW fRoot fSig block (view : CCoinsViewCache V) :
  fChecked = false -> Z.of_nat (length (vtx block)) < 2 ^ 31 ->
  (header_IsProofOfStake (blk_header block) = true -> forall tx, vtx block !! 1%nat = Some tx -> Forall (examinable (height_of block)) (vout tx)) ->
  exists b state' fChecked', check block fChecked state fPOW fRoot fSig view = Ok (b, state', fChecked') /\
    (b = true <-> block_ok fPOW fRoot fSig block) /\ fChecked' = b && fPOW && fRoot /\
    if too_late block then state' = state else recorded (block_reason fPOW fRoot block) state b state'.
Proof.
  intros -> Hl Hex. unfold CheckBlock, CheckBlockHeader. cbn [andb]. fold (too_late block).
  destruct (fPOW && header_IsProofOfWork _ && negb _) eqn:Ew; cbn [obind negb].
  { rewrite !andb_true_iff, negb_true_iff in Ew. destruct Ew as [[-> Ew] En].
    assert (too_late block = false) as -> by (unfold too_late; unfold header_IsProofOfWork in Ew; by apply negb_true_iff in Ew as ->).
    assert (Hno : ~ (true = true -> header_IsProofOfWork (blk_header block) = true -> CheckHeaderPoW params (blk_header block) = true))
      by (intros Hw; by rewrite (Hw eq_refl Ew) in En).
    do 3 eexists. split_and!; [done| |done|by apply recorded_reject]. split; [done|]. by intros [Hw _ _ _ _ _ _ _]. }
  assert (Hwork : fPOW = true -> header_IsProofOfWork (blk_header block) = true -> CheckHeaderPoW params (blk_header block) = true).
  { intros -> Hp. rewrite Hp in Ew. cbn [andb] in Ew. by apply negb_false_iff in Ew. }
  destruct (too_late block) eqn:Et.
  { do 3 eexists. split_and!; [done| |done|done]. split; [done|]. intros [_ Ht _ _ _ _ _ _].
    apply andb_true_iff in Et as [Ep Et]. specialize (Ht Ep). lia. }
  destruct (check_root_any block fRoot Hl) as (r & -> & Hr). cbn [obind].
  destruct r as [why|].
  { assert (Hno : ~ (fRoot = true -> merkle_ok (map ComputeHash (vtx block)) (hashMerkleRoot (blk_header block)))) by (intros H'; by apply Hr in H').
    do 3 eexists. split_and!; [done| |done|by apply recorded_reject]. split; [done|]. by intros [_ _ Hroot _ _ _ _ _]. }
  pose proof (proj1 Hr eq_refl) as Hroot. clear Hr.
  assert (Hc : forall r, CONSENSUS = r -> block_reason fPOW fRoot block r) by (by intros ? <-).
  destruct (vtx block) as [|cb rest] eqn:E.
  { unfold check_body. rewrite E. cbn [obind]. do 3 eexists. split_and!; [done| |done|by apply recorded_reject, Hc].
    split; [done|]. intros [_ _ _ (? & ? & ? & _)]. congruence. }
  rewrite <- E in *.
  destruct (check_body_spec fPOW fRoot fSig block state cb rest E Hex) as (b & s & -> & Hs & Hb); [done| |done|].
  - intros Hp. unfold too_late in Et. rewrite Hp in Et. cbn [andb] in Et. lia.
  - cbn [obind]. do 3 eexists. split_and!; [done|done|by destruct b, fPOW, fRoot|]. by apply (recorded_impl _ _ _ _ _ Hc).
Qed.

End block_spec.

(** ** Checkpoints and headers in context *)

Section context_spec.
Context (st : gmap ptr CBlockIndex) (mapBlockIndex : gmap uint256 ptr) (chain : CChain) (params : Params).
Context (tip : ptr) (btip : CBlockIndex).
Hypothesis Hst : wf_store st.
Hypothesis Hmap : forall hash p, mapBlockIndex !! hash = Some p -> is_Some (st !! p).
Hypothesis Htip : Tip chain = Some tip.
Hypothesis Hbtip : st !! tip = Some btip.
Hypothesis Hspan : 0 <= nCheckpointSpan params.

(** The height of the synchronized checkpoint *)
Definition sync_height : Z := Z.max 0 (Chain.nHeight btip - nCheckpointSpan params).

Lemma sync_loop_spec fuel best p b :
  st !! p = Some b -> Z.max 0 (Chain.nHeight best - nCheckpointSpan params) <= Chain.nHeight b -> Chain.nHeight b <= Z.of_nat fuel ->
  exists q bq, sync_loop st params fuel best p = Ok q /\ st !! q = Some bq /\ ancestor st q p /\
    Chain.nHeight bq = Z.max 0 (Chain.nHeight best - nCheckpointSpan params).
Proof.
  revert p b. induction fuel as [|fuel IH]; intros p b Hp Hlo Hf; cbn [sync_loop]; unfold deref; rewrite Hp; cbn [of_option obind];
    pose proof (wf_pprev _ _ _ (Hst _ _ Hp)) as Hprev; pose proof (wf_height _ _ _ (Hst _ _ Hp)).
  - destruct (pprev b) as [q|]; [destruct Hprev as (bq & Hq & Hh); pose proof (wf_height _ _ _ (Hst _ _ Hq)); lia|].
    exists p, b. split_and!; [done|done|by exists 0%nat|lia].
  - destruct (pprev b) as [q|] eqn:Ep; [|exists p, b; split_and!; [done|done|by exists 0%nat|lia]].
    destruct Hprev as (bq & Hq & Hh). pose proof (wf_height _ _ _ (Hst _ _ Hq)).
    destruct (Z.ltb_spec (Chain.nHeight best) (Chain.nHeight b + nCheckpointSpan params)).
    + destruct (IH q bq Hq) as (r & br & -> & Hr & Ha & Hrh); [lia|lia|]. exists r, br. split_and!; [done|done| |done].
      apply (ancestor_trans st p q r); [|done]. exists 1%nat. cbn [walk]. by rewrite Hp, Ep.
    + exists p, b. split_and!; [done|done|by exists 0%nat|lia].
Qed.

Lemma AutoSelectSyncCheckpoint_spec :
  exists q bq, AutoSelectSyncCheckpoint st chain params = Ok q /\ st !! q = Some bq /\ ancestor st q tip /\ Chain.nHeight bq = sync_height.
Proof.
  unfold AutoSelectSyncCheckpoint. rewrite Htip. cbn [of_option obind]. unfold deref at 1. rewrite Hbtip. cbn [of_option obind].
  pose proof (wf_height _ _ _ (Hst _ _ Hbtip)). apply (sync_loop_spec _ btip tip btip Hbtip); lia.
Qed.

Lemma CheckSync_spec h : 0 <= h -> CheckSync st chain params h = Ok ((h =? 0) || (sync_height <? h)).
Proof.
  intros Hh. unfold CheckSync. destruct (Z.eqb_spec h 0) as [->|Hne]; [done|].
  destruct AutoSelectSyncCheckpoint_spec as (q & bq & -> & Hq & _ & Hbq). cbn [obind]. unfold deref. rewrite Hq. cbn [of_option obind].
  rewrite Hbq. f_equal. destruct (Z.leb_spec h sync_height), (Z.ltb_spec sync_height h); (done || lia).
Qed.

Context (fCheckpointsEnabled : bool) (checkpoints : MapCheckpoints).

(** A header that does not contradict the checkpoints *)
Record checkpoints_ok (nHeight : Z) (hash : uint256) : Prop := {
  after_checkpoint : fCheckpointsEnabled = true -> forall p b,
    GetLastCheckpoint mapBlockIndex checkpoints = Some p -> st !! p = Some b -> Chain.nHeight b <= nHeight;
  hardened : fCheckpointsEnabled = true -> CheckHardened nHeight hash checkpoints = true;
  after_sync : nHeight = 0 \/ sync_height < nHeight
}.

Lemma last_checkpoint_in l p : last_checkpoint mapBlockIndex l = Some p -> is_Some (st !! p).
Proof.
  induction l as [|[h hash] l IH]; [done|]. cbn [last_checkpoint]. destruct (mapBlockIndex !! hash) as [q|] eqn:E; [|exact IH].
  intros [= <-]. by apply (Hmap hash).
Qed.

Lemma check_checkpoints_spec nHeight hash :
  0 <= nHeight ->
  exists r, check_checkpoints st mapBlockIndex chain params fCheckpointsEnabled checkpoints nHeight hash = Ok r /\
    (r = None <-> checkpoints_ok nHeight hash).
Proof.
  intros Hn. unfold check_checkpoints.
  assert (Hold : exists old, (if fCheckpointsEnabled then match GetLastCheckpoint mapBlockIndex checkpoints with
      None => Ok false | Some p => b <-! deref st p ; Ok (nHeight <? Chain.nHeight b) end else Ok false) = Ok old /\
    (old = false <-> (fCheckpointsEnabled = true -> forall p b,
      GetLastCheckpoint mapBlockIndex checkpoints = Some p -> st !! p = Some b -> Chain.nHeight b <= nHeight))).
  { destruct fCheckpointsEnabled; [|by exists false]. destruct (GetLastCheckpoint _ _) as [p|] eqn:Ec; [|by exists false].
    destruct (last_checkpoint_in _ _ Ec) as [b Hb]. unfold deref. rewrite Hb. eexists. split; [done|]. split.
    - intros Hlt _ p' b' [= <-] Hb'. rewrite Hb in Hb'. injection Hb' as <-. lia.
    - intros Hle. specialize (Hle eq_refl p b eq_refl Hb). lia. }
  destruct Hold as (old & -> & Hold). cbn [obind]. destruct old.
  { eexists. split; [done|]. split; [done|]. intros [Ha _ _]. by apply Hold in Ha. }
  destruct (fCheckpointsEnabled && negb _) eqn:Eh.
  { eexists. split; [done|]. split; [done|]. intros [_ Hh _]. apply andb_true_iff in Eh as [Ee Eh]. by rewrite Hh in Eh. }
  rewrite CheckSync_spec by done. cbn [obind]. eexists. split; [done|].
  destruct ((nHeight =? 0) || (sync_height <? nHeight)) eqn:Es.
  - split; [intros _|done]. split; [by apply Hold| |].
    + intros Ee. rewrite Ee in Eh. cbn [andb] in Eh. by apply negb_false_iff in Eh.
    + apply orb_true_iff in Es. lia.
  - split; [done|]. intros [_ _ Hs]. apply orb_false_iff in Es. lia.
Qed.

(** What is asked of a header on top of [prev]; only the time of a staked
    header is checked. *)
Record header_ok (block : CBlockHeader) (p : ptr) (prev : CBlockIndex) (nAdjustedTime : Z) : Prop := {
  header_bits : GetNextWorkRequired st (Some p) block params (header_IsProofOfStake block) = Ok (hdr_nBits block);
  header_checkpoints : checkpoints_ok (Chain.nHeight prev + 1) (header_GetHash block);
  header_past : header_IsProofOfStake block = true -> exists past, GetMedianTimePast st p = Ok past /\ past < hdr_nTime block;
  header_drift : header_IsProofOfStake block = true -> hdr_nTime block <= FutureDrift nAdjustedTime;
  header_version :
    (BIP34Height params <= Chain.nHeight prev + 1 -> 2 <= hdr_nVersion block) /\
    (BIP66Height params <= Chain.nHeight prev + 1 -> 3 <= hdr_nVersion block) /\
    (BIP65Height params <= Chain.nHeight prev + 1 -> 4 <= hdr_nVersion block)
}.

(** The time is not too old. *)
Lemma early_spec block p prev :
  st !! p = Some prev ->
  exists early, (if header_IsProofOfStake block then past <-! GetMedianTimePast st p ; Ok (hdr_nTime block <=? past) else Ok false) = Ok early /\
    (early = false <-> (header_IsProofOfStake block = true -> exists past, GetMedianTimePast st p = Ok past /\ past < hdr_nTime block)).
Proof.
  intros Hp. destruct (header_IsProofOfStake block); [|by exists false].
  destruct (GetMedianTimePast_total st p prev Hst Hp) as [past ->]. cbn [obind]. eexists. split; [done|]. split.
  - intros Hlt%Z.leb_gt _. by exists past.
  - intros He. destruct (He eq_refl) as (past' & [= <-] & Hlt). by apply Z.leb_gt.
Qed.

Lemma ContextualCheckBlockHeader_spec block state p prev nAdjustedTime :
  store_widths st -> pow_params_ok params -> fPowAllowMinDifficultyBlocks params = false -> st !! p = Some prev ->
  exists b state',
    ContextualCheckBlockHeader st mapBlockIndex chain params fCheckpointsEnabled checkpoints block state p nAdjustedTime = Ok (b, state') /\
    (b = true -> state' = state) /\ (b = true <-> header_ok block p prev nAdjustedTime).
Proof.
  intros Hw Hpp Hmin Hp. unfold ContextualCheckBlockHeader, deref. rewrite Hp. cbn [of_option obind].
  pose proof (wf_height _ _ _ (Hst _ _ Hp)).
  destruct (GetNextWorkRequired_returns st p prev block params (header_IsProofOfStake block) Hst Hw Hpp Hmin Hp) as (c & E). rewrite E. cbn [obind].
  destruct (Z.eqb_spec (hdr_nBits block) c) as [Ec|Ec]; cbn [negb].
  2: { do 2 eexists. split_and!; [done|done|]. split; [done|]. intros [Hb _ _ _ _]. congruence. }
  destruct (check_checkpoints_spec (Chain.nHeight prev + 1) (header_GetHash block)) as (r & -> & Hr); [lia|]. cbn [obind].
  destruct r as [[reason why]|].
  { do 2 eexists. split_and!; [done|done|]. split; [done|]. intros [_ Hc _ _ _]. by apply Hr in Hc. }
  destruct (early_spec block p prev Hp) as (early & -> & Hearly). cbn [obind]. destruct early.
  { do 2 eexists. split_and!; [done|done|]. split; [done|]. intros [_ _ Hpast _ _]. by apply Hearly in Hpast. }
  destruct (header_IsProofOfStake block && _) eqn:Ed.
  { do 2 eexists. split_and!; [done|done|]. split; [done|]. intros [_ _ _ Hd _].
    apply andb_true_iff in Ed as [Hd1%Hd Hd2%Z.ltb_lt]. lia. }
  destruct (_ || _ || _) eqn:Ev.
  - do 2 eexists. split_and!; [done|done|]. split; [done|]. intros [_ _ _ _ (H2 & H3 & H4)].
    rewrite !orb_true_iff, !andb_true_iff in Ev. bool_to_prop. lia.
  - do 2 eexists. split_and!; [done|done|]. split; [intros _|done].
    rewrite !orb_false_iff, !andb_false_iff in Ev. split; [congruence|by apply Hr|by apply Hearly| |bool_to_prop; lia].
    intros Hpos. rewrite Hpos in Ed. by apply Z.ltb_ge in Ed.
Qed.

End context_spec.

(** ** A committed block in context *)

Section commit_context.
Context `{Laws : DispatchLaws} (block : CBlock) (tx : CTransaction) (txs : list CTransaction) (i : CTxIn) (ins : list CTxIn).
Hypothesis Hvtx : vtx block = tx :: txs.
Hypothesis Hvin : vin tx = i :: ins.

Lemma committed_final root h cutoff :
  forallb (fun t => IsFinalTx t h cutoff) (vtx (committed block root)) = forallb (fun t => IsFinalTx t h cutoff) (vtx block).
Proof. unfold committed. rewrite Hvtx, Hvin. cbn [vtx forallb]. f_equal. unfold IsFinalTx. cbn [nLockTime vin]. by rewrite Hvin. Qed.

Lemma committed_height params root h : check_height params h (committed block root) = check_height params h block.
Proof.
  unfold check_height, committed. destruct (BIP34Height params <=? h); [|done]. rewrite Hvtx, Hvin.
  cbn [vtx lookup list_lookup of_option obind vin]. by rewrite Hvin.
Qed.

End commit_context.

(** * The properties *)

(** C13 (blocks): with the map of block hashes leading into the index, for a
    block of fewer than 2^31 transactions that is not marked as checked, and if
    staked one in which no contract script of the coinstake makes the test for
    a governance call read outside the script ([examinable]): [CheckBlock]
    returns, and accepts the block exactly when it is one: the work or the time
    of its header, the merkle root without a repeated subtree, one coinbase, in
    a staked block one coinstake that spends the header's kernel and calls only
    the governance contracts, the signature, every transaction, the order of
    contract spends, and the count of signature operations. It marks the block
    as checked only if it accepts it and was asked to check work and root. An
    accepted block leaves the state as it was, and so does a staked block from
    the future, which is refused; any other refusal is recorded in the state,
    as an invalid header if the work is wrong, else as a mutation if the merkle
    root is, else as a violation of consensus. *)
Theorem CheckBlock_decides `{View : CCoinsView V} `{Files : BlockFiles} `{Dis : Dispatch} `{Laws : !DispatchLaws}
    (Verify : CPubKey -> uint256 -> bytes -> bool) (RecoverLaxDER : uint256 -> bytes -> Z -> bool -> option CPubKey)
    (st : gmap ptr CBlockIndex) (mapBlockIndex : gmap uint256 ptr) (chain : CChain) (params : Params)
    (IsInitialBlockDownload : bool) (AdjustedTime : Z) (g : BlockSizeParams) (getGovernanceDGP getBudgetDGP : Z -> bytes)
    (block : CBlock) (state : CValidationState) (fPOW fRoot fSig : bool) (view : CCoinsViewCache V) :
  (forall hash p, mapBlockIndex !! hash = Some p -> is_Some (st !! p)) ->
  Z.of_nat (length (vtx block)) < 2 ^ 31 ->
  (header_IsProofOfStake (blk_header block) = true -> forall tx, vtx block !! 1%nat = Some tx ->
    Forall (examinable getGovernanceDGP getBudgetDGP (height_of st mapBlockIndex chain block)) (vout tx)) ->
  exists b state' fChecked,
    CheckBlock Verify RecoverLaxDER st mapBlockIndex chain params IsInitialBlockDownload AdjustedTime g getGovernanceDGP getBudgetDGP
      block false state fPOW fRoot fSig view = Ok (b, state', fChecked) /\
    (b = true <-> block_ok Verify st mapBlockIndex chain params AdjustedTime g getGovernanceDGP getBudgetDGP fPOW fRoot fSig block) /\
    fChecked = b && fPOW && fRoot /\
    if too_late AdjustedTime block then state' = state else recorded (block_reason params fPOW fRoot block) state b state'.
Proof. intros Hmap Hl Hex. by apply CheckBlock_spec. Qed.

(** Witnesses are not looked at: [CheckBlock] gives the same result for a
    block without its witnesses, so nobody can make a valid block fail here by
    changing them. *)
Theorem CheckBlock_ignores_witnesses `{View : CCoinsView V} `{Files : BlockFiles} `{Dis : Dispatch}
    (Verify : CPubKey -> uint256 -> bytes -> bool) (RecoverLaxDER : uint256 -> bytes -> Z -> bool -> option CPubKey)
    (st : gmap ptr CBlockIndex) (mapBlockIndex : gmap uint256 ptr) (chain : CChain) (params : Params)
    (IsInitialBlockDownload : bool) (AdjustedTime : Z) (g : BlockSizeParams) (getGovernanceDGP getBudgetDGP : Z -> bytes)
    (block : CBlock) (fChecked : bool) (state : CValidationState) (fPOW fRoot fSig : bool) (view : CCoinsViewCache V) :
  CheckBlock Verify RecoverLaxDER st mapBlockIndex chain params IsInitialBlockDownload AdjustedTime g getGovernanceDGP getBudgetDGP
    (strip_block block) fChecked state fPOW fRoot fSig view =
  CheckBlock Verify RecoverLaxDER st mapBlockIndex chain params IsInitialBlockDownload AdjustedTime g getGovernanceDGP getBudgetDGP
    block fChecked state fPOW fRoot fSig view.
Proof.
  unfold CheckBlock. change (blk_header (strip_block block)) with (blk_header block). rewrite strip_check_merkle_root.
  destruct (CheckBlockHeader _ _ _ _ _ _ _ _ _ _ _) as [[[ok s] v]| |]; [|done..]. cbn [obind]. by rewrite strip_check_body.
Qed.

(** C23 (commitment to witnesses): [GenerateCoinbaseCommitment] on a block whose
    coinbase carries no commitment and no witness leaves the header and the
    other transactions as they are, and the result passes
    [ContextualCheckBlock] whenever its transactions are final and its
    coinbase starts with the height. *)
Theorem generated_commitment_accepted `{Laws : DispatchLaws} (st : gmap ptr CBlockIndex) (params : Params) (p : ptr) (prev : CBlockIndex)
    (block : CBlock) (tx : CTransaction) (txs : list CTransaction) (i : CTxIn) (ins : list CTxIn) (state : CValidationState) (cutoff : Z) :
  let h := Chain.nHeight prev + 1 in
  wf_store st -> st !! p = Some prev -> vtx block = tx :: txs -> vin tx = i :: ins ->
  GetWitnessCommitmentIndex block = -1 -> HasWitness tx = false ->
  (header_IsProofOfStake (blk_header block) = true -> txs <> []) -> Z.of_nat (length (vtx block)) < 2 ^ 31 ->
  SegwitHeight params <= h /\ SegwitHeight params <> 2 ^ 31 - 1 ->
  (if CSVHeight params <=? h then GetMedianTimePast st p else Ok (hdr_nTime (blk_header block))) = Ok cutoff ->
  forallb (fun t => IsFinalTx t h cutoff) (vtx block) = true -> check_height params h block = Ok true ->
  exists commitment block',
    GenerateCoinbaseCommitment block (Some prev) params (header_IsProofOfStake (blk_header block)) = Ok (commitment, block') /\
    blk_header block' = blk_header block /\ tail (vtx block') = txs /\
    ContextualCheckBlock st params block' state (Some p) = Ok (true, state).
Proof.
  intros h Hst Hp Hvtx Hvin Hnone Hwit Hcs Hlen Hseg Hcut Hfin Hheight.
  destruct (commit_root block tx txs _ Hvtx eq_refl Hcs Hlen) as (root & m & Hr).
  exists (commitment_script (commitment_hash root (repeat 0 32))), (committed block root).
  split_and!; [by eapply GenerateCoinbaseCommitment_spec|by unfold committed; rewrite Hvtx..|].
  unfold ContextualCheckBlock, deref. rewrite Hp. cbn [of_option obind]. fold h.
  assert (Hh : blk_header (committed block root) = blk_header block) by (unfold committed; by rewrite Hvtx). rewrite Hh.
  cbn [of_option obind]. rewrite Hcut. cbn [obind]. rewrite (committed_final block tx txs i ins Hvtx Hvin), Hfin. cbn [negb].
  rewrite (committed_height block tx txs i ins Hvtx Hvin), Hheight. cbn [obind negb]. unfold h.
  rewrite (check_commitment_committed block tx txs i ins prev params _ Hvtx Hvin eq_refl Hcs Hseg root m Hr). done.
Qed.

(** C21 (headers in context): on a well-formed index of a network without
    minimum-difficulty blocks [ContextualCheckBlockHeader] returns for every
    header, mined or staked, and accepts it exactly when its difficulty is the
    required one, it contradicts no checkpoint, the time of a staked header lies
    after the median of the past and not too far in the future, and its version
    is recent enough; in particular an accepted header is never more than the checkpoint
    span below the tip. *)
Theorem header_decides (st : gmap ptr CBlockIndex) (mapBlockIndex : gmap uint256 ptr) (chain : CChain) (params : Params)
    (tip : ptr) (btip : CBlockIndex) (fCheckpointsEnabled : bool) (checkpoints : MapCheckpoints)
    (block : CBlockHeader) (state : CValidationState) (p : ptr) (prev : CBlockIndex) (nAdjustedTime : Z) :
  wf_store st -> (forall hash p, mapBlockIndex !! hash = Some p -> is_Some (st !! p)) ->
  Tip chain = Some tip -> st !! tip = Some btip -> 0 <= nCheckpointSpan params ->
  store_widths st -> pow_params_ok params -> fPowAllowMinDifficultyBlocks params = false -> st !! p = Some prev ->
  exists b state',
    ContextualCheckBlockHeader st mapBlockIndex chain params fCheckpointsEnabled checkpoints block state p nAdjustedTime = Ok (b, state') /\
    (b = true -> state' = state) /\
    (b = true <-> header_ok st mapBlockIndex params btip fCheckpointsEnabled checkpoints block p prev nAdjustedTime) /\
    (b = true -> Chain.nHeight btip - nCheckpointSpan params <= Chain.nHeight prev).
Proof.
  intros Hst Hmap Htip Hbtip Hspan Hw Hpp Hmin Hp.
  destruct (ContextualCheckBlockHeader_spec st mapBlockIndex chain params tip btip Hst Hmap Htip Hbtip Hspan fCheckpointsEnabled checkpoints
    block state p prev nAdjustedTime Hw Hpp Hmin Hp) as (b & s & E & Hs & Hb).
  exists b, s. split_and!; [done|done|done|]. intros Hb1. destruct (proj1 Hb Hb1) as [_ [_ _ Hsync] _ _ _]. unfold sync_height in Hsync.
  pose proof (wf_height _ _ _ (Hst _ _ Hp)). lia.
Qed.

(** ** Instances *)

#[local] Existing Instance portable.
#[local] Existing Instance portable_laws.
#[local] Existing Instance no_files.

Definition never (k : CPubKey) (h : uint256) (sig : bytes) : bool := false.
Definition no_recovery (h : uint256) (sig : bytes) (recid : Z) (compressed : bool) : option CPubKey := None.
Definition contract_at (h : Z) : bytes := repeat 3 20.

(** A coinbase for height 12 *)
Definition height_coinbase : CTransaction :=
  mkTransaction 1 [mkTxIn outpoint_null (push_int64 [] 12 ++ [OP_1]) SEQUENCE_FINAL []] [mkTxOut 5 [OP_1]] 0.

Definition work_block : CBlock :=
  mkBlock (mkHeader 4 uint256_null (ComputeHash height_coinbase) 200 0x207fffff 0 uint256_null uint256_null outpoint_null [])
    [height_coinbase].

(** A block without transactions *)
Definition empty_block : CBlock :=
  mkBlock (mkHeader 4 uint256_null (repeat 1 32) 200 0x207fffff 0 uint256_null uint256_null outpoint_null []) [].

(** A block with its coinbase is accepted, and an empty one with some merkle
    root is a mutation. *)
Lemma CheckBlock_decides_witness :
  block_ok never ∅ ∅ [] mainnet_pow 0 blockSizeParams_init contract_at contract_at false false true work_block /\
  ~ merkle_ok (map ComputeHash (vtx empty_block)) (hashMerkleRoot (blk_header empty_block)).
Proof.
  split.
  - destruct (CheckBlock_decides never no_recovery ∅ ∅ [] mainnet_pow false 0 blockSizeParams_init contract_at contract_at
      work_block CValidationState_new false false true a_cache) as (b & state' & c & E & Hb & _).
    + intros hash p. by rewrite lookup_empty.
    + by vm_compute.
    + done.
    + apply Hb. vm_compute in E. congruence.
  - destruct (CheckBlock_decides never no_recovery ∅ ∅ [] mainnet_pow false 0 blockSizeParams_init contract_at contract_at
      empty_block CValidationState_new false true true a_cache) as (b & state' & c & E & Hb & _ & Hs).
    + intros hash p. by rewrite lookup_empty.
    + by vm_compute.
    + done.
    + vm_compute in E. injection E as <- <- <-. destruct Hs as (r & why & Hr & Es). injection Es as <- _.
      destruct Hr as [_ Hr]. intros Hok. by apply Hr.
Defined.

Lemma generated_commitment_accepted_witness :
  exists commitment block', GenerateCoinbaseCommitment work_block (Some (linear_index 11)) mainnet_pow false = Ok (commitment, block') /\
    ContextualCheckBlock (linear_store 12) mainnet_pow block' CValidationState_new (Some 12%positive) = Ok (true, CValidationState_new).
Proof.
  destruct (generated_commitment_accepted (linear_store 12) mainnet_pow 12%positive (linear_index 11) work_block height_coinbase []
    (mkTxIn outpoint_null (push_int64 [] 12 ++ [OP_1]) SEQUENCE_FINAL []) [] CValidationState_new 640) as (c & block' & E & _ & _ & H).
  - apply linear_store_wf.
  - apply linear_store_lookup. exists 11%nat. split_and!; [lia|done|done].
  - reflexivity.
  - reflexivity.
  - reflexivity.
  - reflexivity.
  - done.
  - by vm_compute.
  - split; [by vm_compute|done].
  - vm_compute. reflexivity.
  - vm_compute. reflexivity.
  - vm_compute. reflexivity.
  - exists c, block'. split; [exact E|exact H].
Defined.

(** A staked header on top of the tip *)
Definition staked_header : CBlockHeader :=
  mkHeader 4 uint256_null uint256_null 150 486604799 0 uint256_null uint256_null out_a [1].

Lemma header_decides_witness :
  header_ok example_store ∅ mainnet_pow (example_index 4 3 (Some 3%positive) (Some 2%positive) 130) true [] staked_header
    4%positive (example_index 4 3 (Some 3%positive) (Some 2%positive) 130) 140.
Proof.
  destruct (header_decides example_store ∅ example_tip mainnet_pow 4%positive
    (example_index 4 3 (Some 3%positive) (Some 2%positive) 130) true [] staked_header CValidationState_new 4%positive
    (example_index 4 3 (Some 3%positive) (Some 2%positive) 130) 140) as (b & state' & E & _ & Hb & _).
  - exact example_store_wf.
  - intros hash p. by rewrite lookup_empty.
  - reflexivity.
  - reflexivity.
  - by vm_compute.
  - exact example_store_widths.
  - exact mainnet_pow_ok.
  - reflexivity.
  - reflexivity.
  - apply Hb. vm_compute in E. congruence.
Defined.
