(* ===== verification/ChainState.v ===== *)
(** * ChainState: the tree of blocks and the choice of the best chain (src/src/validation.cpp)

    The index entries are objects of a store; the block manager's maps and
    sets, the set of candidates for the tip and the active chain hold pointers
    into it.  [setBlockIndexCandidates] is a [std::set] ordered by
    [CBlockIndexWorkComparator]; the fields the comparator reads do not change
    while an entry is in the set, so it is a finite set whose last element is
    the greatest.  Warnings to the user are kept as the flags that show them. *)

From Stdlib Require Import ZArith List Lia Bool String.
From stdpp Require Import base decidable list option gmap sets fin_sets.
From S2P Require Import Prelude Uint256 Primitives Chain Consensus Script Hash Serialize Merkle Standard Coins Utxo SigHash Interpreter TxVerify Pow Pos Block.
Import arith_uint256.
Local Open Scope Z_scope.
Local Open Scope outcome_scope.

(** ** State *)

Record ChainState := mkChainState {
  entries : gmap ptr CBlockIndex;
  m_block_index : gmap uint256 ptr;
  m_failed_blocks : gset ptr;
  m_blocks_unlinked : list (ptr * ptr);
  setBlockIndexCandidates : gset ptr;
  setDirtyBlockIndex : gset ptr;
  setStakeSeen : gset (COutPoint * Z);
  m_chain : CChain;
  pindexBestHeader : option ptr;
  pindexBestInvalid : option ptr;
  pindexBestForkTip : option ptr;
  pindexBestForkBase : option ptr;
  fLargeWorkForkFound : bool;
  fLargeWorkInvalidChainFound : bool;
  nBlockSequenceId : Z;
  nBlockReverseSequenceId : Z;
  nLastPreciousChainwork : base_uint
}.

Definition set_entries (f : gmap ptr CBlockIndex -> gmap ptr CBlockIndex) (s : ChainState) : ChainState :=
  mkChainState (f (entries s)) (m_block_index s) (m_failed_blocks s) (m_blocks_unlinked s) (setBlockIndexCandidates s)
    (setDirtyBlockIndex s) (setStakeSeen s) (m_chain s) (pindexBestHeader s) (pindexBestInvalid s) (pindexBestForkTip s)
    (pindexBestForkBase s) (fLargeWorkForkFound s) (fLargeWorkInvalidChainFound s) (nBlockSequenceId s) (nBlockReverseSequenceId s)
    (nLastPreciousChainwork s).

Definition set_failed (f : gset ptr -> gset ptr) (s : ChainState) : ChainState :=
  mkChainState (entries s) (m_block_index s) (f (m_failed_blocks s)) (m_blocks_unlinked s) (setBlockIndexCandidates s)
    (setDirtyBlockIndex s) (setStakeSeen s) (m_chain s) (pindexBestHeader s) (pindexBestInvalid s) (pindexBestForkTip s)
    (pindexBestForkBase s) (fLargeWorkForkFound s) (fLargeWorkInvalidChainFound s) (nBlockSequenceId s) (nBlockReverseSequenceId s)
    (nLastPreciousChainwork s).

Definition set_unlinked (l : list (ptr * ptr)) (s : ChainState) : ChainState :=
  mkChainState (entries s) (m_block_index s) (m_failed_blocks s) l (setBlockIndexCandidates s)
    (setDirtyBlockIndex s) (setStakeSeen s) (m_chain s) (pindexBestHeader s) (pindexBestInvalid s) (pindexBestForkTip s)
    (pindexBestForkBase s) (fLargeWorkForkFound s) (fLargeWorkInvalidChainFound s) (nBlockSequenceId s) (nBlockReverseSequenceId s)
    (nLastPreciousChainwork s).

Definition set_candidates (f : gset ptr -> gset ptr) (s : ChainState) : ChainState :=
  mkChainState (entries s) (m_block_index s) (m_failed_blocks s) (m_blocks_unlinked s) (f (setBlockIndexCandidates s))
    (setDirtyBlockIndex s) (setStakeSeen s) (m_chain s) (pindexBestHeader s) (pindexBestInvalid s) (pindexBestForkTip s)
    (pindexBestForkBase s) (fLargeWorkForkFound s) (fLargeWorkInvalidChainFound s) (nBlockSequenceId s) (nBlockReverseSequenceId s)
    (nLastPreciousChainwork s).

Definition set_dirty (p : ptr) (s : ChainState) : ChainState :=
  mkChainState (entries s) (m_block_index s) (m_failed_blocks s) (m_blocks_unlinked s) (setBlockIndexCandidates s)
    ({[p]} ∪ setDirtyBlockIndex s) (setStakeSeen s) (m_chain s) (pindexBestHeader s) (pindexBestInvalid s) (pindexBestForkTip s)
    (pindexBestForkBase s) (fLargeWorkForkFound s) (fLargeWorkInvalidChainFound s) (nBlockSequenceId s) (nBlockReverseSequenceId s)
    (nLastPreciousChainwork s).

Definition set_best_invalid (p : option ptr) (s : ChainState) : ChainState :=
  mkChainState (entries s) (m_block_index s) (m_failed_blocks s) (m_blocks_unlinked s) (setBlockIndexCandidates s)
    (setDirtyBlockIndex s) (setStakeSeen s) (m_chain s) (pindexBestHeader s) p (pindexBestForkTip s)
    (pindexBestForkBase s) (fLargeWorkForkFound s) (fLargeWorkInvalidChainFound s) (nBlockSequenceId s) (nBlockReverseSequenceId s)
    (nLastPreciousChainwork s).

Definition set_best_header (p : option ptr) (s : ChainState) : ChainState :=
  mkChainState (entries s) (m_block_index s) (m_failed_blocks s) (m_blocks_unlinked s) (setBlockIndexCandidates s)
    (setDirtyBlockIndex s) (setStakeSeen s) (m_chain s) p (pindexBestInvalid s) (pindexBestForkTip s)
    (pindexBestForkBase s) (fLargeWorkForkFound s) (fLargeWorkInvalidChainFound s) (nBlockSequenceId s) (nBlockReverseSequenceId s)
    (nLastPreciousChainwork s).

Definition set_warnings (tip base : option ptr) (fork invalid : bool) (s : ChainState) : ChainState :=
  mkChainState (entries s) (m_block_index s) (m_failed_blocks s) (m_blocks_unlinked s) (setBlockIndexCandidates s)
    (setDirtyBlockIndex s) (setStakeSeen s) (m_chain s) (pindexBestHeader s) (pindexBestInvalid s) tip base fork invalid
    (nBlockSequenceId s) (nBlockReverseSequenceId s) (nLastPreciousChainwork s).

Definition set_sequence (n r : Z) (w : base_uint) (s : ChainState) : ChainState :=
  mkChainState (entries s) (m_block_index s) (m_failed_blocks s) (m_blocks_unlinked s) (setBlockIndexCandidates s)
    (setDirtyBlockIndex s) (setStakeSeen s) (m_chain s) (pindexBestHeader s) (pindexBestInvalid s) (pindexBestForkTip s)
    (pindexBestForkBase s) (fLargeWorkForkFound s) (fLargeWorkInvalidChainFound s) n r w.

(** A new entry in the store and in [m_block_index], its stake in
    [setStakeSeen] *)
Definition set_indexed (hash : uint256) (p : ptr) (stake : option (COutPoint * Z)) (s : ChainState) : ChainState :=
  mkChainState (entries s) (<[hash := p]> (m_block_index s)) (m_failed_blocks s) (m_blocks_unlinked s) (setBlockIndexCandidates s)
    (setDirtyBlockIndex s) (match stake with Some x => {[x]} ∪ setStakeSeen s | None => setStakeSeen s end) (m_chain s)
    (pindexBestHeader s) (pindexBestInvalid s) (pindexBestForkTip s) (pindexBestForkBase s) (fLargeWorkForkFound s)
    (fLargeWorkInvalidChainFound s) (nBlockSequenceId s) (nBlockReverseSequenceId s) (nLastPreciousChainwork s).

(** [p->field = ...] *)
Definition update (p : ptr) (f : CBlockIndex -> CBlockIndex) (s : ChainState) : outcome ChainState :=
  b <-! deref (entries s) p ;
  Ok (set_entries (insert p (f b)) s).

(** ** The order of candidates *)

(** [CBlockIndexWorkComparator]: [pa] comes before [pb] *)
Definition work_less (pa : ptr) (a : CBlockIndex) (pb : ptr) (b : CBlockIndex) : bool :=
  if gtb (nChainWork a) (nChainWork b) then false
  else if ltb (nChainWork a) (nChainWork b) then true
  else if nSequenceId a <? nSequenceId b then false
  else if nSequenceId b <? nSequenceId a then true
  else if (pa <? pb)%positive then false
  else (pb <? pa)%positive.

Definition WorkComparator (s : ChainState) (pa pb : ptr) : outcome bool :=
  a <-! deref (entries s) pa ;
  b <-! deref (entries s) pb ;
  Ok (work_less pa a pb b).

(** [*setBlockIndexCandidates.rbegin()] *)
Fixpoint greatest (s : ChainState) (l : list ptr) (best : option ptr) : outcome (option ptr) :=
  match l with
  | [] => Ok best
  | p :: l =>
    match best with
    | None => greatest s l (Some p)
    | Some q => less <-! WorkComparator s q p ; greatest s l (Some (if less : bool then p else q))
    end
  end.

Definition last_candidate (s : ChainState) : outcome (option ptr) := greatest s (elements (setBlockIndexCandidates s)) None.

(** ** New headers *)

Definition set_phashBlock (hash : uint256) (b : CBlockIndex) : CBlockIndex :=
  mkBlockIndex (Some hash) (pprev b) (pnext b) (pskip b) (Chain.nHeight b) (nFile b) (nDataPos b) (nUndoPos b)
    (nChainWork b) (nTx b) (nChainTx b) (nStatus b) (idx_nVersion b) (idx_hashMerkleRoot b) (nTime b) (nBits b) (idx_nNonce b)
    (idx_hashStateRoot b) (idx_hashUTXORoot b) (idx_vchBlockSig b) (nStakeModifier b) (prevoutStake b) (hashProof b)
    (nMoneySupply b) (nSequenceId b) (nTimeMax b).

Definition set_parent (prev : ptr) (height : Z) (b : CBlockIndex) : CBlockIndex :=
  mkBlockIndex (phashBlock b) (Some prev) (pnext b) (pskip b) height (nFile b) (nDataPos b) (nUndoPos b)
    (nChainWork b) (nTx b) (nChainTx b) (nStatus b) (idx_nVersion b) (idx_hashMerkleRoot b) (nTime b) (nBits b) (idx_nNonce b)
    (idx_hashStateRoot b) (idx_hashUTXORoot b) (idx_vchBlockSig b) (nStakeModifier b) (prevoutStake b) (hashProof b)
    (nMoneySupply b) (nSequenceId b) (nTimeMax b).

Definition set_work (timeMax : Z) (work : base_uint) (modifier : uint256) (b : CBlockIndex) : CBlockIndex :=
  mkBlockIndex (phashBlock b) (pprev b) (pnext b) (pskip b) (Chain.nHeight b) (nFile b) (nDataPos b) (nUndoPos b)
    work (nTx b) (nChainTx b) (nStatus b) (idx_nVersion b) (idx_hashMerkleRoot b) (nTime b) (nBits b) (idx_nNonce b)
    (idx_hashStateRoot b) (idx_hashUTXORoot b) (idx_vchBlockSig b) modifier (prevoutStake b) (hashProof b)
    (nMoneySupply b) (nSequenceId b) timeMax.

(** A null pointer, or the entry it points to *)
Definition deref_opt (st : gmap ptr CBlockIndex) (p : option ptr) : outcome (option CBlockIndex) :=
  match p with None => Ok None | Some p => b <-! deref st p ; Ok (Some b) end.

Definition AddToBlockIndex (block : CBlockHeader) (s : ChainState) : outcome (ptr * ChainState) :=
  let hash := header_GetHash block in
  match m_block_index s !! hash with
  | Some p => Ok (p, s)
  | None =>
    let pindexNew := fresh (dom (entries s)) in
    let b := CBlockIndex_of_header block in
    let s := set_indexed hash pindexNew (if IsProofOfStake b then Some (prevoutStake b, nTime b) else None) s in
    let st := <[pindexNew := set_phashBlock hash b]> (entries s) in
    st <-! match m_block_index s !! hashPrevBlock block with
           | None => Ok st
           | Some prev =>
             bp <-! deref st prev ;
             new <-! deref st pindexNew ;
             BuildSkip (<[pindexNew := set_parent prev (Chain.nHeight bp + 1) new]> st) pindexNew
           end ;
    new <-! deref st pindexNew ;
    prev <-! deref_opt st (pprev new) ;
    proof <-! GetBlockProof new ;
    let timeMax := match prev with Some bp => Z.max (nTimeMax bp) (nTime new) | None => nTime new end in
    let work := add (match prev with Some bp => nChainWork bp | None => of_uint64 0 end) proof in
    let modifier := ComputeStakeModifier prev (if header_IsProofOfWork block then hash else op_hash (hdr_prevoutStake block)) in
    r <-! RaiseValidity (set_work timeMax work modifier new) BLOCK_VALID_TREE ;
    let s := set_entries (fun _ => <[pindexNew := fst r]> st) s in
    best <-! deref_opt (entries s) (pindexBestHeader s) ;
    let s := if match best with None => true | Some bb => ltb (nChainWork bb) work end then set_best_header (Some pindexNew) s else s in
    Ok (pindexNew, set_dirty pindexNew s)
  end.

(** ** Received blocks *)

Definition BLOCK_OPT_WITNESS : Z := 128.

Definition set_received (n file pos status : Z) (b : CBlockIndex) : CBlockIndex :=
  mkBlockIndex (phashBlock b) (pprev b) (pnext b) (pskip b) (Chain.nHeight b) file pos 0
    (nChainWork b) n 0 status (idx_nVersion b) (idx_hashMerkleRoot b) (nTime b) (nBits b) (idx_nNonce b)
    (idx_hashStateRoot b) (idx_hashUTXORoot b) (idx_vchBlockSig b) (nStakeModifier b) (prevoutStake b) (hashProof b)
    (nMoneySupply b) (nSequenceId b) (nTimeMax b).

Definition set_connected (chainTx seq : Z) (b : CBlockIndex) : CBlockIndex :=
  mkBlockIndex (phashBlock b) (pprev b) (pnext b) (pskip b) (Chain.nHeight b) (nFile b) (nDataPos b) (nUndoPos b)
    (nChainWork b) (nTx b) chainTx (nStatus b) (idx_nVersion b) (idx_hashMerkleRoot b) (nTime b) (nBits b) (idx_nNonce b)
    (idx_hashStateRoot b) (idx_hashUTXORoot b) (idx_vchBlockSig b) (nStakeModifier b) (prevoutStake b) (hashProof b)
    (nMoneySupply b) seq (nTimeMax b).

(** One element of the queue, and the entries that waited for it *)
Definition link_block (pindex : ptr) (s : ChainState) : outcome (list ptr * ChainState) :=
  b <-! deref (entries s) pindex ;
  prev <-! deref_opt (entries s) (pprev b) ;
  let chainTx := u32 (match prev with Some bp => nChainTx bp | None => 0 end + nTx b) in
  let s := set_entries (insert pindex (set_connected chainTx (nBlockSequenceId s) b)) s in
  let s := set_sequence (s32 (nBlockSequenceId s + 1)) (nBlockReverseSequenceId s) (nLastPreciousChainwork s) s in
  less <-! match Tip (m_chain s) with None => Ok false | Some tip => WorkComparator s pindex tip end ;
  let s := if less : bool then s else set_candidates (union {[pindex]}) s in
  let waiting := List.filter (fun x => bool_decide (fst x = pindex)) (m_blocks_unlinked s) in
  Ok (map snd waiting, set_unlinked (List.filter (fun x => negb (bool_decide (fst x = pindex))) (m_blocks_unlinked s)) s).

(** Every entry pushed leaves [m_blocks_unlinked], so its length bounds the
    rounds. *)
Fixpoint link_queue (fuel : nat) (queue : list ptr) (s : ChainState) : outcome ChainState :=
  match queue with
  | [] => Ok s
  | pindex :: queue =>
    match fuel with
    | O => NoFuel
    | S fuel =>
      r <-! link_block pindex s ;
      let '(waiting, s) := r in
      link_queue fuel (queue ++ waiting) s
    end
  end.

Definition ReceivedBlockTransactions (params : Params) (block : CBlock) (pindexNew : ptr) (pos : FlatFilePos) (s : ChainState)
    : outcome ChainState :=
  b <-! deref (entries s) pindexNew ;
  prev <-! deref_opt (entries s) (pprev b) ;
  let status := Z.lor (nStatus b) BLOCK_HAVE_DATA in
  let status := if IsWitnessEnabled prev params then Z.lor status BLOCK_OPT_WITNESS else status in
  r <-! RaiseValidity (set_received (u32 (Z.of_nat (length (vtx block)))) (pos_nFile pos) (nPos pos) status b) BLOCK_VALID_TRANSACTIONS ;
  let s := set_dirty pindexNew (set_entries (insert pindexNew (fst r)) s) in
  match prev with
  | None => link_queue (S (length (m_blocks_unlinked s))) [pindexNew] s
  | Some bp =>
    if HaveTxsDownloaded bp then link_queue (S (length (m_blocks_unlinked s))) [pindexNew] s
    else
      valid <-! IsValid bp BLOCK_VALID_TREE ;
      match pprev b with
      | Some q => Ok (if valid : bool then set_unlinked (m_blocks_unlinked s ++ [(q, pindexNew)]) s else s)
      | None => Ok s
      end
  end.

(** ** The best candidate *)

Definition failed (b : CBlockIndex) : bool := negb (Z.land (nStatus b) BLOCK_FAILED_MASK =? 0).
Definition missing_data (b : CBlockIndex) : bool := Z.land (nStatus b) BLOCK_HAVE_DATA =? 0.

(** The first entry on the way back to the active chain that is failed or has
    no data *)
Fixpoint find_unusable (fuel : nat) (s : ChainState) (pindexTest : option ptr) : outcome (option ptr) :=
  match pindexTest with
  | None => Ok None
  | Some p =>
    active <-! Contains (entries s) (m_chain s) p ;
    if active : bool then Ok None
    else
      b <-! deref (entries s) p ;
      if negb (HaveTxsDownloaded b || (Chain.nHeight b =? 0)) then Fail
      else if failed b || missing_data b then Ok (Some p)
      else match fuel with O => NoFuel | S fuel => find_unusable fuel s (pprev b) end
  end.

(** [pindexFailed] walks back to [pindexTest]. *)
Fixpoint drop_chain (fuel : nat) (fFailedChain : bool) (pindexTest pindexFailed : ptr) (s : ChainState) : outcome ChainState :=
  if decide (pindexTest = pindexFailed) then Ok s
  else match fuel with
  | O => NoFuel
  | S fuel =>
    b <-! deref (entries s) pindexFailed ;
    prev <-! of_option (pprev b) ;
    let s := if fFailedChain then set_entries (insert pindexFailed (set_nStatus b (Z.lor (nStatus b) BLOCK_FAILED_CHILD))) s
             else set_unlinked (m_blocks_unlinked s ++ [(prev, pindexFailed)]) s in
    drop_chain fuel fFailedChain pindexTest prev (set_candidates (fun c => c ∖ {[pindexFailed]}) s)
  end.

Fixpoint most_work (fuel : nat) (s : ChainState) : outcome (option ptr * ChainState) :=
  last <-! last_candidate s ;
  match last with
  | None => Ok (None, s)
  | Some pindexNew =>
    new <-! deref (entries s) pindexNew ;
    bad <-! find_unusable (S (Z.to_nat (Chain.nHeight new))) s (Some pindexNew) ;
    match bad with
    | None => Ok (Some pindexNew, s)
    | Some pindexTest =>
      test <-! deref (entries s) pindexTest ;
      best <-! deref_opt (entries s) (pindexBestInvalid s) ;
      let s := if failed test && match best with None => true | Some bi => gtb (nChainWork new) (nChainWork bi) end
               then set_best_invalid (Some pindexNew) s else s in
      s <-! drop_chain (S (Z.to_nat (Chain.nHeight new))) (failed test) pindexTest pindexNew s ;
      let s := set_candidates (fun c => c ∖ {[pindexTest]}) s in
      match fuel with O => NoFuel | S fuel => most_work fuel s end
    end
  end.

Definition FindMostWorkChain (s : ChainState) : outcome (option ptr * ChainState) :=
  most_work (size (setBlockIndexCandidates s)) s.

(** The candidates worse than the tip are at the front of the set. *)
Fixpoint worse_than (s : ChainState) (tip : ptr) (l : list ptr) : outcome (gset ptr) :=
  match l with
  | [] => Ok ∅
  | p :: l =>
    less <-! WorkComparator s p tip ;
    c <-! worse_than s tip l ;
    Ok (if less : bool then {[p]} ∪ c else c)
  end.

Definition PruneBlockIndexCandidates (s : ChainState) : outcome ChainState :=
  tip <-! of_option (Tip (m_chain s)) ;
  worse <-! worse_than s tip (elements (setBlockIndexCandidates s)) ;
  let s := set_candidates (fun c => c ∖ worse) s in
  if decide (setBlockIndexCandidates s = ∅) then Fail else Ok s.

(** ** Warnings about forks *)

Definition CheckForkWarningConditions (IsInitialBlockDownload : bool) (s : ChainState) : outcome ChainState :=
  if IsInitialBlockDownload then Ok s
  else
    fork <-! deref_opt (entries s) (pindexBestForkTip s) ;
    let forkTip := match fork with
                   | Some b => if 72 <=? Height (m_chain s) - Chain.nHeight b then None else pindexBestForkTip s
                   | None => None
                   end in
    warn <-! match forkTip, pindexBestInvalid s with
             | Some _, _ => Ok true
             | None, None => Ok false
             | None, Some p =>
               bi <-! deref (entries s) p ;
               tip <-! of_option (Tip (m_chain s)) ;
               bt <-! deref (entries s) tip ;
               proof <-! GetBlockProof bt ;
               Ok (gtb (nChainWork bi) (add (nChainWork bt) (mul32 proof 6)))
             end ;
    Ok (if warn : bool then
          match forkTip, pindexBestForkBase s with
          | Some _, Some _ => set_warnings forkTip (pindexBestForkBase s) true (fLargeWorkInvalidChainFound s) s
          | _, _ => set_warnings forkTip (pindexBestForkBase s) (fLargeWorkForkFound s) true s
          end
        else set_warnings forkTip (pindexBestForkBase s) false false s).

(** [while (plonger && plonger->nHeight > pfork->nHeight)] *)
Fixpoint shorten (fuel : nat) (st : gmap ptr CBlockIndex) (height : Z) (plonger : option ptr) : outcome (option ptr) :=
  match plonger with
  | None => Ok None
  | Some p =>
    b <-! deref st p ;
    if height <? Chain.nHeight b then match fuel with O => NoFuel | S fuel => shorten fuel st height (pprev b) end
    else Ok plonger
  end.

Fixpoint fork_point (fuel : nat) (st : gmap ptr CBlockIndex) (pfork plonger : option ptr) : outcome (option ptr) :=
  match pfork with
  | None => Ok None
  | Some p =>
    if bool_decide (pfork = plonger) then Ok pfork
    else
      b <-! deref st p ;
      l <-! deref_opt st plonger ;
      plonger <-! shorten (match l with Some bl => Z.to_nat (Chain.nHeight bl) | None => O end) st (Chain.nHeight b) plonger ;
      if bool_decide (pfork = plonger) then Ok pfork
      else match fuel with O => NoFuel | S fuel => fork_point fuel st (pprev b) plonger end
  end.

Definition CheckForkWarningConditionsOnNewFork (IsInitialBlockDownload : bool) (pindexNewForkTip : ptr) (s : ChainState)
    : outcome ChainState :=
  new <-! deref (entries s) pindexNewForkTip ;
  pfork <-! fork_point (S (Z.to_nat (Chain.nHeight new))) (entries s) (Some pindexNewForkTip) (Tip (m_chain s)) ;
  best <-! deref_opt (entries s) (pindexBestForkTip s) ;
  s <-! match pfork with
        | None => Ok s
        | Some pf =>
          bf <-! deref (entries s) pf ;
          proof <-! GetBlockProof bf ;
          Ok (if match best with None => true | Some bb => Chain.nHeight bb <? Chain.nHeight new end &&
                 gtb (sub (nChainWork new) (nChainWork bf)) (mul32 proof 7) &&
                 (Height (m_chain s) - Chain.nHeight new <? 72)
              then set_warnings (Some pindexNewForkTip) pfork (fLargeWorkForkFound s) (fLargeWorkInvalidChainFound s) s else s)
        end ;
  CheckForkWarningConditions IsInitialBlockDownload s.

(** ** Invalid blocks *)

Definition InvalidChainFound (IsInitialBlockDownload : bool) (pindexNew : ptr) (s : ChainState) : outcome ChainState :=
  new <-! deref (entries s) pindexNew ;
  best <-! deref_opt (entries s) (pindexBestInvalid s) ;
  let s := if match best with None => true | Some bb => gtb (nChainWork new) (nChainWork bb) end
           then set_best_invalid (Some pindexNew) s else s in
  _ <-! of_option (Tip (m_chain s)) ;
  CheckForkWarningConditions IsInitialBlockDownload s.

Definition InvalidBlockFound (IsInitialBlockDownload : bool) (pindex : ptr) (state : CValidationState) (s : ChainState)
    : outcome ChainState :=
  match m_reason state with
  | BLOCK_MUTATED => Ok s
  | _ =>
    s <-! update pindex (fun b => set_nStatus b (Z.lor (nStatus b) BLOCK_FAILED_VALID)) s ;
    let s := set_candidates (fun c => c ∖ {[pindex]}) (set_dirty pindex (set_failed (union {[pindex]}) s)) in
    InvalidChainFound IsInitialBlockDownload pindex s
  end.

(** ** Resetting failures *)

Definition clear_failed (b : CBlockIndex) : CBlockIndex :=
  set_nStatus b (Z.land (nStatus b) (u32 (Z.lnot BLOCK_FAILED_MASK))).

(** The loop over [m_block_index]: an entry that is not valid and descends from
    [pindex], which is at [nHeight] *)
Definition reset_entry (pindex : ptr) (nHeight : Z) (p : ptr) (s : ChainState) : outcome ChainState :=
  b <-! deref (entries s) p ;
  valid <-! IsValid b BLOCK_VALID_TRANSACTIONS ;
  if valid then Ok s
  else
    a <-! GetAncestor (entries s) p nHeight ;
    if negb (bool_decide (a = Some pindex)) then Ok s
    else
      let b := clear_failed b in
      let s := set_dirty p (set_entries (insert p b) s) in
      valid <-! IsValid b BLOCK_VALID_TRANSACTIONS ;
      better <-! (if valid && HaveTxsDownloaded b
                  then tip <-! of_option (Tip (m_chain s)) ; WorkComparator s tip p else Ok false) ;
      let s := if better : bool then set_candidates (union {[p]}) s else s in
      let s := if bool_decide (pindexBestInvalid s = Some p) then set_best_invalid None s else s in
      Ok (set_failed (fun f => f ∖ {[p]}) s).

Fixpoint reset_entries (pindex : ptr) (nHeight : Z) (l : list ptr) (s : ChainState) : outcome ChainState :=
  match l with
  | [] => Ok s
  | p :: l => s <-! reset_entry pindex nHeight p s ; reset_entries pindex nHeight l s
  end.

Fixpoint reset_ancestors (fuel : nat) (pindex : option ptr) (s : ChainState) : outcome ChainState :=
  match pindex with
  | None => Ok s
  | Some p =>
    b <-! deref (entries s) p ;
    let s := if failed b then set_failed (fun f => f ∖ {[p]}) (set_dirty p (set_entries (insert p (clear_failed b)) s)) else s in
    match fuel with O => NoFuel | S fuel => reset_ancestors fuel (pprev b) s end
  end.

Definition ResetBlockFailureFlags (pindex : ptr) (s : ChainState) : outcome ChainState :=
  b <-! deref (entries s) pindex ;
  s <-! reset_entries pindex (Chain.nHeight b) (map snd (map_to_list (m_block_index s))) s ;
  reset_ancestors (S (Z.to_nat (Chain.nHeight b))) (Some pindex) s.

(** [PreciousBlock] before it calls [ActivateBestChain] *)
Definition PreciousBlock (pindex : ptr) (s : ChainState) : outcome ChainState :=
  b <-! deref (entries s) pindex ;
  tip <-! of_option (Tip (m_chain s)) ;
  bt <-! deref (entries s) tip ;
  if ltb (nChainWork b) (nChainWork bt) then Ok s
  else
    let reverse := if gtb (nChainWork bt) (nLastPreciousChainwork s) then -1 else nBlockReverseSequenceId s in
    let s := set_candidates (fun c => c ∖ {[pindex]}) s in
    let b := set_connected (nChainTx b) reverse b in
    let s := set_entries (insert pindex b) s in
    let s := set_sequence (nBlockSequenceId s) (if - 2 ^ 31 <? reverse then reverse - 1 else reverse) (nChainWork bt) s in
    valid <-! IsValid b BLOCK_VALID_TRANSACTIONS ;
    if valid && HaveTxsDownloaded b then PruneBlockIndexCandidates (set_candidates (union {[pindex]}) s) else Ok s.

(** ** The active chain *)

Definition set_chain (c : CChain) (s : ChainState) : ChainState :=
  mkChainState (entries s) (m_block_index s) (m_failed_blocks s) (m_blocks_unlinked s) (setBlockIndexCandidates s)
    (setDirtyBlockIndex s) (setStakeSeen s) c (pindexBestHeader s) (pindexBestInvalid s) (pindexBestForkTip s) (pindexBestForkBase s)
    (fLargeWorkForkFound s) (fLargeWorkInvalidChainFound s) (nBlockSequenceId s) (nBlockReverseSequenceId s) (nLastPreciousChainwork s).

(** [m_chain.SetTip(...)] in [ConnectTip] and [DisconnectTip] *)
Definition move_tip (pindex : ptr) (s : ChainState) : outcome ChainState :=
  c <-! SetTip (entries s) (m_chain s) (Some pindex) ;
  Ok (set_chain c s).


(** * Correctness *)

(** ** Trees of the same shape *)

Definition shape (b : CBlockIndex) : option uint256 * option ptr * option ptr * Z := (phashBlock b, pprev b, pskip b, Chain.nHeight b).

Definition same_tree (st st' : gmap ptr CBlockIndex) : Prop := forall p, shape <$> st !! p = shape <$> st' !! p.

#[global] Instance same_tree_equiv : Equivalence same_tree.
Proof. split; [by intros st p|by intros st st' H p|]. intros st1 st2 st3 H12 H23 p. by rewrite H12, H23. Qed.

Lemma same_tree_insert st p b b' : st !! p = Some b -> shape b' = shape b -> same_tree st (<[p := b']> st).
Proof.
  intros Hp Hb q. destruct (decide (p = q)) as [<-|]; [|by rewrite lookup_insert_ne].
  rewrite lookup_insert_eq, Hp. cbn. by rewrite Hb.
Qed.

Lemma same_tree_lookup st st' p b :
  same_tree st st' -> st !! p = Some b ->
  exists b', st' !! p = Some b' /\ phashBlock b' = phashBlock b /\ pprev b' = pprev b /\ pskip b' = pskip b /\ Chain.nHeight b' = Chain.nHeight b.
Proof.
  intros H Hp. specialize (H p). rewrite Hp in H. destruct (st' !! p) as [b'|]; [|done].
  unfold shape in H. injection H as E1 E2 E3 E4. exists b'. by split_and!.
Qed.

Lemma same_tree_walk st st' n p : same_tree st st' -> walk st' n p = walk st n p.
Proof.
  intros H. revert p. induction n as [|n IH]; intros p; [done|]. cbn [walk]. destruct (st !! p) as [b|] eqn:E.
  - destruct (same_tree_lookup _ _ _ _ H E) as (b' & -> & _ & -> & _). by destruct (pprev b).
  - specialize (H p). rewrite E in H. by destruct (st' !! p).
Qed.

Lemma same_tree_wf st st' : same_tree st st' -> wf_store st -> wf_store st'.
Proof.
  intros H Hwf p b' Hp'. symmetry in H. destruct (same_tree_lookup _ _ _ _ H Hp') as (b & Hp & Eh & Ep & Es & En).
  symmetry in H. destruct (Hwf _ _ Hp) as [H0 Hh Hprev Hskip]. split; rewrite <- ?En, <- ?Eh, <- ?Ep, <- ?Es; [done|done| |].
  - destruct (pprev b) as [q|]; [|done]. destruct Hprev as (bq & Hq & Hq'). destruct (same_tree_lookup _ _ _ _ H Hq) as (bq' & Hq2 & _ & _ & _ & E).
    exists bq'. split; [done|lia].
  - destruct (pskip b) as [s|]; [|done]. by rewrite (same_tree_walk st st').
Qed.

Lemma same_tree_chain st st' c : same_tree st st' -> wf_chain st c -> wf_chain st' c.
Proof.
  intros H [->|(p & b & Hp & Hl & Hc)]; [by left|]. right. destruct (same_tree_lookup _ _ _ _ H Hp) as (b' & Hp' & _ & _ & _ & Eh).
  exists p, b'. split_and!; [done|by rewrite Eh|]. intros n q. rewrite Eh, (same_tree_walk st st' n p H). apply Hc.
Qed.

Lemma same_tree_Contains st st' c p : same_tree st st' -> Contains st' c p = Contains st c p.
Proof.
  intros H. unfold Contains, deref. destruct (st !! p) as [b|] eqn:E.
  - destruct (same_tree_lookup _ _ _ _ H E) as (b' & -> & _ & _ & _ & Eh). cbn. by rewrite Eh.
  - specialize (H p). rewrite E in H. by destruct (st' !! p).
Qed.

(** More work on every step away from the genesis block *)
Definition grows (st : gmap ptr CBlockIndex) : Prop :=
  forall p b q bq, st !! p = Some b -> pprev b = Some q -> st !! q = Some bq -> val (nChainWork bq) < val (nChainWork b).

(** The entries keep their work. *)
Definition keeps_work (st st' : gmap ptr CBlockIndex) : Prop :=
  forall p b, st !! p = Some b -> exists b', st' !! p = Some b' /\ nChainWork b' = nChainWork b.

Lemma grows_keep st st' : same_tree st st' -> keeps_work st st' -> grows st -> grows st'.
Proof.
  intros Ht Hk Hg p b' q bq' Hp' Hpq Hq'. symmetry in Ht.
  destruct (same_tree_lookup _ _ _ _ Ht Hp') as (b & Hp & _ & Ep & _), (same_tree_lookup _ _ _ _ Ht Hq') as (bq & Hq & _).
  destruct (Hk p b Hp) as (b2 & Hb2 & Eb), (Hk q bq Hq) as (bq2 & Hbq2 & Ebq). simplify_eq. rewrite Eb, Ebq.
  apply (Hg p b q bq); congruence.
Qed.

Lemma ancestor_work st n p b q bq :
  grows st -> st !! p = Some b -> walk st n p = Some q -> st !! q = Some bq -> p = q \/ val (nChainWork bq) < val (nChainWork b).
Proof.
  intros Hg. revert p b. induction n as [|n IH]; intros p b Hp Hw Hq; [left; by injection Hw|]. right.
  rewrite (walk_step _ _ _ _ Hp) in Hw. destruct (pprev b) as [r|] eqn:Er; [|done].
  assert (Hr : exists br, st !! r = Some br).
  { destruct n as [|n]; [injection Hw as ->; by exists bq|]. cbn [walk] in Hw. by destruct (st !! r) as [br|]; [exists br|]. }
  destruct Hr as [br Hr]. pose proof (Hg p b r br Hp Er Hr). destruct (IH r br Hr Hw Hq) as [->|]; [simplify_eq; lia|lia].
Qed.

(** ** The order of candidates *)

(** More work first, then the earlier sequence number, then the lower address *)
Definition before (pa : ptr) (a : CBlockIndex) (pb : ptr) (b : CBlockIndex) : Prop :=
  val (nChainWork a) < val (nChainWork b) \/
  val (nChainWork a) = val (nChainWork b) /\ (nSequenceId b < nSequenceId a \/ nSequenceId a = nSequenceId b /\ (pb < pa)%positive).

Lemma work_less_spec pa a pb b :
  wf (nChainWork a) -> wf (nChainWork b) -> work_less pa a pb b = true <-> before pa a pb b.
Proof.
  intros Wa Wb. unfold work_less, before. rewrite gtb_spec, ltb_spec by done.
  destruct (Z.ltb_spec (val (nChainWork b)) (val (nChainWork a))); [split; [done|lia]|].
  destruct (Z.ltb_spec (val (nChainWork a)) (val (nChainWork b))); [split; [lia|done]|].
  destruct (Z.ltb_spec (nSequenceId a) (nSequenceId b)); [split; [done|lia]|].
  destruct (Z.ltb_spec (nSequenceId b) (nSequenceId a)); [split; [lia|done]|].
  destruct (Pos.ltb_spec pa pb); [split; [done|lia]|]. destruct (Pos.ltb_spec pb pa); (split; [lia|done]) || (split; [done|lia]).
Qed.

Lemma before_trans pa a pb b pc c : before pa a pb b -> before pb b pc c -> before pa a pc c.
Proof. unfold before. lia. Qed.

Lemma before_irrefl p b : ~ before p b p b.
Proof. unfold before. lia. Qed.

Lemma before_total pa a pb b : pa <> pb -> before pa a pb b \/ before pb b pa a.
Proof. unfold before. lia. Qed.

Definition works (st : gmap ptr CBlockIndex) : Prop := map_Forall (fun _ b => wf (nChainWork b)) st.

Definition outranks (s : ChainState) (p q : ptr) : Prop :=
  exists bp bq, entries s !! p = Some bp /\ entries s !! q = Some bq /\ before q bq p bp.

Lemma WorkComparator_spec s pa pb a b :
  works (entries s) -> entries s !! pa = Some a -> entries s !! pb = Some b ->
  exists r, WorkComparator s pa pb = Ok r /\ (r = true <-> outranks s pb pa).
Proof.
  intros Hw Ha Hb. unfold WorkComparator, deref. rewrite Ha, Hb. cbn [of_option obind]. eexists. split; [done|].
  rewrite work_less_spec by (by eapply Hw). unfold outranks. split; [intros H; by exists b, a|].
  intros (x & y & Hx & Hy & H). by simplify_eq.
Qed.

Lemma outranks_trans s p q r : outranks s p q -> outranks s q r -> outranks s p r.
Proof. intros (bp & bq & Hp & Hq & H1) (bq' & br & Hq' & Hr & H2). simplify_eq. exists bp, br. split_and!; [done|done|]. by eapply before_trans. Qed.

Lemma outranks_irrefl s p : ~ outranks s p p.
Proof. intros (b & b' & Hb & Hb' & H). simplify_eq. by eapply before_irrefl. Qed.

Definition present (s : ChainState) (p : ptr) : Prop := is_Some (entries s !! p).

Lemma greatest_spec s l best :
  works (entries s) -> Forall (present s) l -> (forall q, best = Some q -> present s q) ->
  exists r, greatest s l best = Ok r /\
    match r with
    | None => l = [] /\ best = None
    | Some p => (best = Some p \/ p ∈ l) /\ (forall q, best = Some q \/ q ∈ l -> ~ outranks s q p)
    end.
Proof.
  intros Hw Hl. revert best. induction Hl as [|p l [bp Hp] _ IH]; intros best Hbest; cbn [greatest].
  { exists best. split; [done|]. destruct best as [p|]; [|done]. split; [by left|]. intros q [[= <-]|?%elem_of_nil]; [apply outranks_irrefl|done]. }
  destruct best as [q|].
  - destruct (Hbest q eq_refl) as [bq Hq]. destruct (WorkComparator_spec s q p bq bp Hw Hq Hp) as (less & -> & Hless). cbn [obind].
    destruct (IH (Some (if less then p else q))) as (r & -> & Hr); [intros x [= <-]; destruct less; by eexists|].
    exists r. split; [done|]. destruct r as [x|]; [|by destruct Hr]. destruct Hr as [Hin Hmax]. setoid_rewrite elem_of_cons. split.
    + destruct Hin as [[= <-]|]; [|by auto]. destruct less; auto.
    + assert (Hx := Hmax _ (or_introl eq_refl)). intros y [[= <-]|[->|Hy]]; [| |apply Hmax; by right].
      * destruct less; [|done]. intros Ho. apply Hx. eapply outranks_trans; [by apply Hless|done].
      * destruct less; [done|]. intros Ho. destruct (decide (p = q)) as [<-|Hne]; [done|]. destruct (before_total _ bp _ bq Hne) as [Hb|Hb].
        -- apply Hx. eapply outranks_trans; [|exact Ho]. by exists bq, bp.
        -- assert (false = true) by (apply Hless; by exists bp, bq). done.
  - destruct (IH (Some p)) as (r & -> & Hr); [by intros ? [= <-]; eexists|]. exists r. split; [done|].
    destruct r as [x|]; [|by destruct Hr]. setoid_rewrite elem_of_cons. destruct Hr as [Hin Hmax]. split; [destruct Hin as [[= <-]|Hin]; auto|].
    intros y [?|[->|Hy]]; [done|apply Hmax; by left|apply Hmax; by right].
Qed.

(** ** The invariant of the tree *)

Definition downloaded (st : gmap ptr CBlockIndex) : Prop :=
  forall p b q bq, st !! p = Some b -> nChainTx b <> 0 -> pprev b = Some q -> st !! q = Some bq -> nChainTx bq <> 0.

(** The mark of a block that failed by itself *)
Definition invalid (b : CBlockIndex) : bool := negb (Z.land (nStatus b) BLOCK_FAILED_VALID =? 0).

(** [m_failed_blocks] holds blocks with the mark. *)
Definition marked (s : ChainState) : Prop :=
  forall p, p ∈ m_failed_blocks s -> exists b, entries s !! p = Some b /\ invalid b = true.

Lemma marked_mono s s' :
  marked s -> m_failed_blocks s' ⊆ m_failed_blocks s ->
  (forall p b, p ∈ m_failed_blocks s' -> entries s !! p = Some b -> invalid b = true -> exists b', entries s' !! p = Some b' /\ invalid b' = true) ->
  marked s'.
Proof. intros Hm Hsub Hk p Hp. destruct (Hm p (Hsub p Hp)) as (b & Hb & Hi). by apply (Hk p b). Qed.

Record tree_ok (s : ChainState) : Prop := {
  tree_wf : wf_store (entries s);
  tree_work : works (entries s);
  tree_chain : wf_chain (entries s) (m_chain s);
  tree_downloaded : downloaded (entries s);
  tree_candidates : forall p, p ∈ setBlockIndexCandidates s -> exists b, entries s !! p = Some b /\ nChainTx b <> 0;
  tree_unlinked : forall q p, (q, p) ∈ m_blocks_unlinked s -> exists b, entries s !! p = Some b /\ pprev b = Some q;
  tree_index : forall hash p, m_block_index s !! hash = Some p <-> exists b, entries s !! p = Some b /\ phashBlock b = Some hash;
  tree_failed : marked s;
  tree_best : Forall (fun o => forall p, o = Some p -> present s p) [pindexBestHeader s; pindexBestInvalid s; pindexBestForkTip s; pindexBestForkBase s]
}.

(** ** Entries that differ in their status only *)

Definition forget_status (b : CBlockIndex) : CBlockIndex := set_nStatus b 0.

Definition restatus (st st' : gmap ptr CBlockIndex) : Prop := forall p, forget_status <$> st !! p = forget_status <$> st' !! p.

#[global] Instance restatus_equiv : Equivalence restatus.
Proof. split; [by intros st p|by intros st st' H p|]. intros st1 st2 st3 H12 H23 p. by rewrite H12, H23. Qed.

Lemma restatus_lookup st st' p b : restatus st st' -> st !! p = Some b -> exists z, st' !! p = Some (set_nStatus b z).
Proof.
  intros H Hp. specialize (H p). rewrite Hp in H. destruct (st' !! p) as [b'|]; [|done]. exists (nStatus b').
  destruct b, b'. unfold forget_status in H. cbn in H. by injection H as ?; subst.
Qed.

Lemma restatus_insert st p b z : st !! p = Some b -> restatus st (<[p := set_nStatus b z]> st).
Proof. intros Hp q. destruct (decide (p = q)) as [<-|]; [|by rewrite lookup_insert_ne]. by rewrite lookup_insert_eq, Hp. Qed.

Lemma restatus_same_tree st st' : restatus st st' -> same_tree st st'.
Proof.
  intros H p. destruct (st !! p) as [b|] eqn:E; [by destruct (restatus_lookup _ _ _ _ H E) as [z ->]|].
  specialize (H p). rewrite E in H. by destruct (st' !! p).
Qed.

Lemma restatus_back st st' p b' : restatus st st' -> st' !! p = Some b' -> exists b z, st !! p = Some b /\ b' = set_nStatus b z.
Proof.
  intros H Hp. symmetry in H. destruct (restatus_lookup _ _ _ _ H Hp) as [z E]. eexists _, (nStatus b'). split; [done|]. by destruct b'.
Qed.

(** The invariant needs the shape of the tree, the counts and the sets. *)
Lemma tree_reshape s s' :
  tree_ok s -> same_tree (entries s) (entries s') -> works (entries s') -> downloaded (entries s') ->
  m_chain s' = m_chain s -> m_block_index s' = m_block_index s ->
  (forall p, p ∈ setBlockIndexCandidates s' -> exists b, entries s' !! p = Some b /\ nChainTx b <> 0) ->
  (forall q p, (q, p) ∈ m_blocks_unlinked s' -> (q, p) ∈ m_blocks_unlinked s \/ exists b, entries s !! p = Some b /\ pprev b = Some q) ->
  marked s' ->
  Forall (fun o => forall p, o = Some p -> present s p) [pindexBestHeader s'; pindexBestInvalid s'; pindexBestForkTip s'; pindexBestForkBase s'] ->
  tree_ok s'.
Proof.
  intros [] Ht Hw Hd Ec Ei Hcand Hun Hf Hbest.
  assert (Hpres : forall p, present s p -> present s' p) by (intros p [b Hp]; destruct (same_tree_lookup _ _ _ _ Ht Hp) as (b' & Hp' & _); by exists b').
  assert (Hback := Ht). symmetry in Hback. split; [by eapply same_tree_wf|done|rewrite Ec; by eapply same_tree_chain|done|done| | |by auto|].
  - intros q p Hin. assert (Hb : exists b, entries s !! p = Some b /\ pprev b = Some q).
    { apply Hun in Hin as [Hin%tree_unlinked0|Hin]; exact Hin. }
    destruct Hb as (b & Hp & Hq). destruct (same_tree_lookup _ _ _ _ Ht Hp) as (b' & Hp' & _ & E & _). exists b'. by rewrite E.
  - intros hash p. rewrite Ei, tree_index0. split; intros (b & Hp & Hh).
    + destruct (same_tree_lookup _ _ _ _ Ht Hp) as (b' & Hp' & E & _). exists b'. by rewrite E.
    + destruct (same_tree_lookup _ _ _ _ Hback Hp) as (b' & Hp' & E & _). exists b'. by rewrite E.
  - eapply Forall_impl; [exact Hbest|]. cbn. eauto.
Qed.

Lemma tree_restatus s s' :
  tree_ok s -> restatus (entries s) (entries s') -> m_chain s' = m_chain s -> m_block_index s' = m_block_index s ->
  (forall p, p ∈ setBlockIndexCandidates s' -> p ∈ setBlockIndexCandidates s \/ exists b, entries s !! p = Some b /\ nChainTx b <> 0) ->
  (forall q p, (q, p) ∈ m_blocks_unlinked s' -> (q, p) ∈ m_blocks_unlinked s \/ exists b, entries s !! p = Some b /\ pprev b = Some q) ->
  marked s' ->
  Forall (fun o => forall p, o = Some p -> present s p) [pindexBestHeader s'; pindexBestInvalid s'; pindexBestForkTip s'; pindexBestForkBase s'] ->
  tree_ok s'.
Proof.
  intros Hs Hr Ec Ei Hcand Hun Hf Hbest. pose proof Hs as [].
  eapply tree_reshape; [exact Hs|by apply restatus_same_tree| | |done|done| |done|done|done].
  - intros p b' Hp'. destruct (restatus_back _ _ _ _ Hr Hp') as (b & z & Hp & ->). exact (tree_work0 p b Hp).
  - intros p b' q bq' Hp' Htx Hq Hbq'. destruct (restatus_back _ _ _ _ Hr Hp') as (b & z & Hp & ->), (restatus_back _ _ _ _ Hr Hbq') as (bq & zq & Hbq & ->).
    exact (tree_downloaded0 p b q bq Hp Htx Hq Hbq).
  - intros p Hin. assert (Hb : exists b, entries s !! p = Some b /\ nChainTx b <> 0) by (apply Hcand in Hin as [Hin%tree_candidates0|Hin]; exact Hin).
    destruct Hb as (b & Hp & Htx). destruct (restatus_lookup _ _ _ _ Hr Hp) as [z Hp']. by eexists.
Qed.

(** ** Usable candidates *)

(** Every entry from [p] back to the active chain has its data and has not
    failed. *)
Inductive usable (s : ChainState) : ptr -> Prop :=
| usable_active p b : entries s !! p = Some b -> chain_at (m_chain s) (Chain.nHeight b) = Some p -> usable s p
| usable_step p b : entries s !! p = Some b -> failed b = false -> missing_data b = false ->
    (forall q, pprev b = Some q -> usable s q) -> usable s p.

Lemma find_unusable_spec fuel s p b :
  wf_store (entries s) -> downloaded (entries s) -> entries s !! p = Some b -> nChainTx b <> 0 -> (Z.to_nat (Chain.nHeight b) < fuel)%nat ->
  exists r, find_unusable fuel s (Some p) = Ok r /\
    match r with
    | None => usable s p
    | Some t => exists n bt, walk (entries s) n p = Some t /\ (n <= Z.to_nat (Chain.nHeight b))%nat /\ entries s !! t = Some bt /\
        (failed bt || missing_data bt = true) /\ forall k x, (k <= n)%nat -> walk (entries s) k p = Some x -> ~ usable s x
    end.
Proof.
  intros Hst Hd. revert p b. induction fuel as [|fuel IH]; intros p b Hp Htx Hf; [lia|].
  cbn [find_unusable]. rewrite (Contains_spec _ _ _ _ Hp). cbn [obind]. case_bool_decide as Ha; [exists None; split; [done|by econstructor]|].
  unfold deref. rewrite Hp. cbn [of_option obind]. unfold HaveTxsDownloaded. rewrite (proj2 (Z.eqb_neq _ _)) by done. cbn [negb orb].
  destruct (failed b || missing_data b) eqn:Eb.
  { exists (Some p). split; [done|]. exists 0%nat, b. split_and!; [done|lia|done|done|]. intros k x Hk Hx.
    replace k with 0%nat in Hx by lia. injection Hx as <-. intros Hu. inversion Hu; simplify_eq; bool_to_prop; intuition congruence. }
  apply orb_false_iff in Eb as [Ef Em]. pose proof (wf_pprev _ _ _ (Hst _ _ Hp)) as Hprev.
  destruct (pprev b) as [q|] eqn:Eq; [|exists None; destruct fuel; (split; [done|]); eapply usable_step; try done; by rewrite Eq].
  destruct Hprev as (bq & Hq & Hh). pose proof (wf_height _ _ _ (Hst _ _ Hq)).
  destruct (IH q bq Hq) as (r & -> & Hr); [exact (Hd p b q bq Hp Htx Eq Hq)|lia|]. exists r. split; [done|].
  destruct r as [t|]; [|eapply usable_step; try done; by rewrite Eq; intros ? [= <-]].
  destruct Hr as (n & bt & Hw & Hn & Ht & Hbad & Hpath). exists (S n), bt. cbn [walk]. rewrite Hp, Eq. split_and!; [done|lia|done|done|].
  assert (Hnq : ~ usable s q) by (apply (Hpath 0%nat); [lia|done]).
  intros [|k] x Hk Hx; [injection Hx as <-|apply (Hpath k x); [lia|]; cbn [walk] in Hx; by rewrite Hp, Eq in Hx].
  intros Hu. inversion Hu as [? ? H1 H2|? ? H1 _ _ H2]; simplify_eq. by apply Hnq, H2.
Qed.

(** [s'] is [s] with some entries that are not usable marked as failed, or no
    longer candidates. *)
Record narrows (s s' : ChainState) : Prop := {
  narrows_chain : m_chain s' = m_chain s;
  narrows_index : m_block_index s' = m_block_index s;
  narrows_failed : m_failed_blocks s' = m_failed_blocks s;
  narrows_dom : forall p, entries s !! p = None -> entries s' !! p = None;
  narrows_entries : forall p b, entries s !! p = Some b -> exists b', entries s' !! p = Some b' /\
    (b' = b \/ ~ usable s p /\ failed b' = true /\ (invalid b = true -> invalid b' = true) /\ exists z, b' = set_nStatus b z);
  narrows_candidates : setBlockIndexCandidates s' ⊆ setBlockIndexCandidates s;
  narrows_dropped : forall p, p ∈ setBlockIndexCandidates s -> p ∉ setBlockIndexCandidates s' -> ~ usable s p;
  narrows_unlinked : forall q p, (q, p) ∈ m_blocks_unlinked s' -> (q, p) ∈ m_blocks_unlinked s \/
    exists b, entries s !! p = Some b /\ pprev b = Some q
}.

Lemma narrows_entry s s' p b :
  narrows s s' -> entries s !! p = Some b ->
  exists b' z, entries s' !! p = Some b' /\ b' = set_nStatus b z.
Proof.
  intros H Hp. destruct (narrows_entries _ _ H _ _ Hp) as (b' & Hb' & [->|(_ & _ & _ & z & ->)]); eexists _, _; (split; [done|]);
    [|reflexivity]. instantiate (1 := nStatus b). by destruct b.
Qed.

Lemma narrows_restatus s s' : narrows s s' -> restatus (entries s) (entries s').
Proof.
  intros H p. destruct (entries s !! p) as [b|] eqn:E; [|by rewrite (narrows_dom _ _ H _ E)].
  by destruct (narrows_entry _ _ _ _ H E) as (b' & z & -> & ->).
Qed.

Lemma narrows_same_tree s s' : narrows s s' -> same_tree (entries s) (entries s').
Proof. by intros ?%narrows_restatus%restatus_same_tree. Qed.

Lemma narrows_usable s s' p : narrows s s' -> usable s' p <-> usable s p.
Proof.
  intros H. split; intros Hu.
  - induction Hu as [p b' Hp' Ha|p b' Hp' Hf Hm _ IH]; (destruct (entries s !! p) as [b|] eqn:E; [|by rewrite (narrows_dom _ _ H _ E) in Hp']);
      destruct (narrows_entries _ _ H _ _ E) as (x & Hx & Hcase); rewrite Hp' in Hx; injection Hx as <-.
    + rewrite (narrows_chain _ _ H) in Ha. by destruct Hcase as [->|(_ & _ & _ & z & ->)]; eapply usable_active.
    + destruct Hcase as [->|(_ & Hf' & _)]; [by eapply usable_step|congruence].
  - induction Hu as [p b Hp Ha|p b Hp Hf Hm Hq IH].
    + destruct (narrows_entry _ _ _ _ H Hp) as (b' & z & Hp' & ->). eapply usable_active; [done|]. by rewrite (narrows_chain _ _ H).
    + destruct (narrows_entries _ _ H _ _ Hp) as (b' & Hp' & [->|(Hn & _)]); [by eapply usable_step|]. destruct Hn. by eapply usable_step.
Qed.

Lemma narrows_refl s : narrows s s.
Proof. split; try done; [intros p b Hp; exists b; by auto|by auto]. Qed.

Lemma narrows_trans s1 s2 s3 : narrows s1 s2 -> narrows s2 s3 -> narrows s1 s3.
Proof.
  intros H12 H23. split.
  - by rewrite (narrows_chain _ _ H23), (narrows_chain _ _ H12).
  - by rewrite (narrows_index _ _ H23), (narrows_index _ _ H12).
  - by rewrite (narrows_failed _ _ H23), (narrows_failed _ _ H12).
  - intros p Hp. by apply (narrows_dom _ _ H23), (narrows_dom _ _ H12).
  - intros p b Hp. destruct (narrows_entries _ _ H12 _ _ Hp) as (b2 & Hp2 & Hc2). destruct (narrows_entries _ _ H23 _ _ Hp2) as (b3 & Hp3 & Hc3).
    exists b3. split; [done|]. destruct Hc3 as [->|(Hn & Hf & Hi & z & ->)]; [done|]. right. rewrite (narrows_usable _ _ _ H12) in Hn.
    split_and!; [done|done|by destruct Hc2 as [->|(_ & _ & Hi2 & _)]; auto|]. exists z. by destruct Hc2 as [->|(_ & _ & _ & z' & ->)].
  - etrans; [apply (narrows_candidates _ _ H23)|apply (narrows_candidates _ _ H12)].
  - intros p Hin Hout. destruct (decide (p ∈ setBlockIndexCandidates s2)) as [Hin2|Hout2]; [|by apply (narrows_dropped _ _ H12)].
    rewrite <- (narrows_usable _ _ _ H12). by apply (narrows_dropped _ _ H23).
  - intros q p [Hin|(b2 & Hb2 & Hq)]%(narrows_unlinked _ _ H23); [by apply (narrows_unlinked _ _ H12)|]. right.
    destruct (entries s1 !! p) as [b|] eqn:E; [|by rewrite (narrows_dom _ _ H12 _ E) in Hb2].
    destruct (narrows_entry _ _ _ _ H12 E) as (b' & z & Hb' & ->). rewrite Hb2 in Hb'. injection Hb' as ->. by exists b.
Qed.

Lemma narrows_outranks s s' p q : narrows s s' -> outranks s' p q <-> outranks s p q.
Proof.
  intros H. unfold outranks. split.
  - intros (bp & bq & Hp & Hq & Hb).
    destruct (entries s !! p) as [ap|] eqn:Ep; [|by rewrite (narrows_dom _ _ H _ Ep) in Hp].
    destruct (entries s !! q) as [aq|] eqn:Eq; [|by rewrite (narrows_dom _ _ H _ Eq) in Hq].
    destruct (narrows_entry _ _ _ _ H Ep) as (bp' & z & Hp' & ->), (narrows_entry _ _ _ _ H Eq) as (bq' & z' & Hq' & ->).
    exists ap, aq. simplify_eq. by split_and!.
  - intros (bp & bq & Hp & Hq & Hb).
    destruct (narrows_entry _ _ _ _ H Hp) as (bp' & z & Hp' & ->), (narrows_entry _ _ _ _ H Hq) as (bq' & z' & Hq' & ->).
    eexists _, _. by split_and!.
Qed.

Lemma failed_child b : failed (set_nStatus b (Z.lor (nStatus b) BLOCK_FAILED_CHILD)) = true.
Proof.
  unfold failed. cbn [set_nStatus nStatus]. apply negb_true_iff, Z.eqb_neq. intros H.
  assert (Hb : Z.testbit (Z.land (Z.lor (nStatus b) BLOCK_FAILED_CHILD) BLOCK_FAILED_MASK) 6 = false) by (by rewrite H, Z.bits_0).
  rewrite Z.land_spec, Z.lor_spec in Hb. by rewrite orb_true_r in Hb.
Qed.

Lemma invalid_lor b z : invalid b = true -> invalid (set_nStatus b (Z.lor (nStatus b) z)) = true.
Proof.
  unfold invalid. rewrite !negb_true_iff, !Z.eqb_neq. cbn [nStatus set_nStatus]. intros H E. apply H. rewrite Z.land_lor_distr_l in E.
  by apply Z.lor_eq_0_iff in E as [E _].
Qed.

(** Dropping candidates, and one entry that is not usable *)
Lemma narrows_drop s p b flag prev :
  entries s !! p = Some b -> pprev b = Some prev -> ~ usable s p ->
  narrows s (set_candidates (fun c => c ∖ {[p]})
    (if flag : bool then set_entries (insert p (set_nStatus b (Z.lor (nStatus b) BLOCK_FAILED_CHILD))) s
     else set_unlinked (m_blocks_unlinked s ++ [(prev, p)]) s)).
Proof.
  intros Hp Hprev Hu. split; try (by destruct flag).
  - intros x Hx. destruct flag; [|done]. cbn. rewrite lookup_insert_ne; [done|]. intros ->. congruence.
  - intros x bx Hx. destruct flag; [|by exists bx; auto]. cbn. destruct (decide (p = x)) as [<-|]; [|by rewrite lookup_insert_ne by done; exists bx; auto].
    rewrite lookup_insert_eq. eexists. split; [done|]. right. simplify_eq. split_and!; [done|apply failed_child|apply invalid_lor|by eexists].
  - destruct flag; cbn; apply subseteq_difference_l; reflexivity.
  - intros x Hin Hout. replace x with p; [done|]. apply dec_stable. intros Hne. apply Hout. destruct flag; cbn; set_solver.
  - intros q x Hin. destruct flag; [by left|]. cbn in Hin. apply elem_of_app in Hin as [|Hin]; [by left|].
    apply list_elem_of_singleton in Hin as [= -> ->]. right. by exists b.
Qed.

Definition same_bests (s s' : ChainState) : Prop :=
  pindexBestHeader s' = pindexBestHeader s /\ pindexBestInvalid s' = pindexBestInvalid s /\
  pindexBestForkTip s' = pindexBestForkTip s /\ pindexBestForkBase s' = pindexBestForkBase s.

Lemma drop_chain_spec fuel flag t p s n :
  wf_store (entries s) -> walk (entries s) n p = Some t -> present s p -> (n <= fuel)%nat ->
  (forall k x, (k <= n)%nat -> walk (entries s) k p = Some x -> ~ usable s x) ->
  exists s', drop_chain fuel flag t p s = Ok s' /\ narrows s s' /\ same_bests s s' /\ (p = t \/ p ∉ setBlockIndexCandidates s').
Proof.
  revert p s n. induction fuel as [|fuel IH]; intros p s n Hst Hw [b Hp] Hn Hpath; cbn [drop_chain];
    (destruct (decide (t = p)) as [<-|Hne]; [exists s; split_and!; [done|apply narrows_refl|by split_and!|by left]|]);
    (destruct n as [|n]; [by injection Hw as ->|]); [lia|].
  unfold deref. rewrite Hp. cbn [of_option obind]. cbn [walk] in Hw. rewrite Hp in Hw.
  destruct (pprev b) as [q|] eqn:Eq; [|done]. cbn [of_option obind].
  set (s1 := set_candidates _ _).
  assert (H1 : narrows s s1) by (by apply narrows_drop; [| |apply (Hpath 0%nat); [lia|]]).
  pose proof (narrows_same_tree _ _ H1) as Ht. pose proof (wf_pprev _ _ _ (Hst _ _ Hp)) as Hprev. rewrite Eq in Hprev.
  destruct Hprev as (bq & Hq & _). destruct (narrows_entry _ _ _ _ H1 Hq) as (bq' & z & Hq' & _).
  destruct (IH q s1 n) as (s' & -> & H2 & (E1 & E2 & E3 & E4) & _).
  - by eapply same_tree_wf.
  - by rewrite (same_tree_walk _ _ _ _ Ht).
  - by exists bq'.
  - lia.
  - intros k x Hk Hx. rewrite (narrows_usable _ _ _ H1). rewrite (same_tree_walk _ _ _ _ Ht) in Hx.
    apply (Hpath (S k)); [lia|]. cbn [walk]. by rewrite Hp, Eq.
  - exists s'. split_and!; [done|by eapply narrows_trans| |].
    + unfold same_bests. rewrite E1, E2, E3, E4. unfold s1. by destruct flag.
    + right. intros Hin%(narrows_candidates _ _ H2). unfold s1 in Hin. destruct flag; cbn in Hin; by apply elem_of_difference in Hin as [_ []%not_elem_of_singleton].
Qed.

Lemma narrows_erase s p : ~ usable s p -> narrows s (set_candidates (fun c => c ∖ {[p]}) s).
Proof.
  intros Hu. split; try done; [intros x b Hx; exists b; by auto|cbn; apply subseteq_difference_l; reflexivity| |by auto].
  intros x Hin Hout. replace x with p; [done|]. apply dec_stable. intros Hne. apply Hout. cbn. set_solver.
Qed.

Lemma narrows_best_invalid s o : narrows s (set_best_invalid o s).
Proof. split; try done; [intros p b Hp; exists b; by auto|by auto]. Qed.

Lemma narrows_tree_ok s s' :
  tree_ok s -> narrows s s' ->
  Forall (fun o => forall p, o = Some p -> present s p) [pindexBestHeader s'; pindexBestInvalid s'; pindexBestForkTip s'; pindexBestForkBase s'] ->
  tree_ok s'.
Proof.
  intros Hs H Hbest. eapply tree_restatus; [exact Hs|by apply narrows_restatus|apply H|apply H| |apply H| |done].
  - intros p Hp. left. by apply (narrows_candidates _ _ H).
  - eapply marked_mono; [apply Hs|by rewrite (narrows_failed _ _ H)|]. intros p b _ Hp Hi.
    destruct (narrows_entries _ _ H _ _ Hp) as (b' & Hp' & [->|(_ & _ & Hi' & _)]); eauto.
Qed.

Lemma last_candidate_spec s :
  tree_ok s ->
  exists r, last_candidate s = Ok r /\
    match r with
    | None => setBlockIndexCandidates s = ∅
    | Some p => p ∈ setBlockIndexCandidates s /\ forall q, q ∈ setBlockIndexCandidates s -> ~ outranks s q p
    end.
Proof.
  intros [_ Hw _ _ Hc _ _ _ _]. unfold last_candidate.
  destruct (greatest_spec s (elements (setBlockIndexCandidates s)) None Hw) as (r & -> & Hr); [|done|].
  { apply Forall_forall. intros p (b & Hp & _)%elem_of_elements%Hc. by exists b. }
  exists r. split; [done|]. destruct r as [p|].
  - destruct Hr as [[|Hin] Hmax]; [done|]. rewrite elem_of_elements in Hin. split; [done|]. intros q Hq. apply Hmax. right. by apply elem_of_elements.
  - destruct Hr as [Hr _]. by apply elements_empty_inv, leibniz_equiv in Hr.
Qed.

Lemma deref_opt_spec st o : (forall p, o = Some p -> is_Some (st !! p)) -> deref_opt st o = Ok (o ≫= (fun p => st !! p)).
Proof. intros Ho. destruct o as [p|]; [|done]. destruct (Ho p eq_refl) as [b Hb]. unfold deref_opt, deref. cbn. by rewrite Hb. Qed.

Lemma most_work_spec fuel s :
  tree_ok s -> (size (setBlockIndexCandidates s) <= fuel)%nat ->
  exists r s', most_work fuel s = Ok (r, s') /\ tree_ok s' /\ narrows s s' /\
    match r with
    | None => setBlockIndexCandidates s' = ∅
    | Some p => p ∈ setBlockIndexCandidates s' /\ usable s' p /\ forall q, q ∈ setBlockIndexCandidates s' -> ~ outranks s' q p
    end.
Proof.
  revert s. induction fuel as [|fuel IH]; intros s Hs Hf; cbn [most_work];
    (destruct (last_candidate_spec s Hs) as (last & -> & Hlast); cbn [obind]);
    (destruct last as [new|]; [destruct Hlast as [Hin Hmax]|exists None, s; split_and!; [done|done|apply narrows_refl|done]]).
  { apply Nat.le_0_r, size_empty_inv in Hf. set_solver. }
  destruct (tree_candidates _ Hs _ Hin) as (b & Hb & Htx). unfold deref. rewrite Hb. cbn [of_option obind].
  destruct (find_unusable_spec (S (Z.to_nat (Chain.nHeight b))) s new b (tree_wf _ Hs) (tree_downloaded _ Hs) Hb Htx) as (bad & -> & Hbad); [lia|].
  cbn [obind]. destruct bad as [t|]; [|exists (Some new), s; split_and!; [done|done|apply narrows_refl|done|done|done]].
  destruct Hbad as (n & bt & Hw & Hn & Ht & _ & Hpath). rewrite Ht. cbn [of_option obind].
  pose proof (tree_best _ Hs) as Hbests. rewrite !Forall_cons_iff in Hbests. destruct Hbests as (Hb1 & Hb2 & Hb3 & Hb4 & _).
  rewrite (deref_opt_spec (entries s) (pindexBestInvalid s) Hb2). cbn [obind].
  set (s1 := if failed bt && _ then set_best_invalid (Some new) s else s).
  assert (H1 : narrows s s1) by (unfold s1; destruct (_ && _); [apply narrows_best_invalid|apply narrows_refl]).
  assert (E1 : entries s1 = entries s) by (unfold s1; by destruct (_ && _)).
  destruct (drop_chain_spec (S (Z.to_nat (Chain.nHeight b))) (failed bt) t new s1 n) as (s2 & -> & H2 & (B1 & B2 & B3 & B4) & Hdrop).
  - rewrite E1. apply Hs.
  - by rewrite E1.
  - exists b. by rewrite E1.
  - lia.
  - intros k x Hk Hx. rewrite (narrows_usable _ _ _ H1). rewrite E1 in Hx. by eapply Hpath.
  - cbn [obind]. set (s3 := set_candidates _ s2). pose proof (narrows_trans _ _ _ H1 H2) as H12.
    assert (H3 : narrows s s3).
    { eapply narrows_trans; [exact H12|]. apply narrows_erase. rewrite (narrows_usable _ _ _ H12). by apply (Hpath n). }
    assert (Hs3 : tree_ok s3).
    { eapply narrows_tree_ok; [exact Hs|exact H3|]. change (pindexBestHeader s3) with (pindexBestHeader s2).
      change (pindexBestInvalid s3) with (pindexBestInvalid s2). change (pindexBestForkTip s3) with (pindexBestForkTip s2).
      change (pindexBestForkBase s3) with (pindexBestForkBase s2). rewrite B1, B2, B3, B4.
      assert (Hin1 : forall p, pindexBestInvalid s1 = Some p -> present s p).
      { unfold s1. destruct (_ && _); [intros p [= <-]; by exists b|exact Hb2]. }
      assert (E2 : pindexBestHeader s1 = pindexBestHeader s /\ pindexBestForkTip s1 = pindexBestForkTip s /\ pindexBestForkBase s1 = pindexBestForkBase s)
        by (unfold s1; by destruct (_ && _)).
      destruct E2 as (-> & -> & ->). repeat constructor; eauto. }
    assert (Hlt : (size (setBlockIndexCandidates s3) < size (setBlockIndexCandidates s))%nat).
    { apply subset_size. split; [apply (narrows_candidates _ _ H3)|]. intros Hsub. specialize (Hsub _ Hin). cbn in Hsub.
      destruct Hdrop as [->|Hd]; [by apply elem_of_difference in Hsub as [_ []%not_elem_of_singleton]|].
      by apply elem_of_difference in Hsub as [Hsub _]. }
    destruct (IH s3 Hs3) as (r & s' & -> & Hs' & Hn' & Hr); [lia|]. exists r, s'. split_and!; [done|done|by eapply narrows_trans|done].
Qed.

Lemma FindMostWorkChain_spec s :
  tree_ok s ->
  exists r s', FindMostWorkChain s = Ok (r, s') /\ tree_ok s' /\ narrows s s' /\
    match r with
    | None => forall q, q ∈ setBlockIndexCandidates s -> ~ usable s q
    | Some p => p ∈ setBlockIndexCandidates s /\ usable s p /\
        forall q, q ∈ setBlockIndexCandidates s -> usable s q -> ~ outranks s q p
    end.
Proof.
  intros Hs. unfold FindMostWorkChain. destruct (most_work_spec (size (setBlockIndexCandidates s)) s Hs ltac:(done)) as (r & s' & E & Hs' & Hn & Hr).
  exists r, s'. split_and!; [done|done|done|].
  assert (Hkeep : forall q, q ∈ setBlockIndexCandidates s -> usable s q -> q ∈ setBlockIndexCandidates s').
  { intros q Hq Hu. apply dec_stable. intros Hout. by apply (narrows_dropped _ _ Hn q). }
  destruct r as [p|].
  - destruct Hr as (Hin & Hu & Hmax). split_and!; [by apply (narrows_candidates _ _ Hn)|by apply (narrows_usable _ _ _ Hn)|].
    intros q Hq Huq. rewrite <- (narrows_outranks _ _ _ _ Hn). auto.
  - intros q Hq Huq. specialize (Hkeep q Hq Huq). set_solver.
Qed.

(** ** Adding an entry *)

Lemma walk_insert_fresh st p b n q :
  wf_store st -> st !! p = None -> is_Some (st !! q) -> walk (<[p := b]> st) n q = walk st n q.
Proof.
  intros Hst Hp. revert q. induction n as [|n IH]; intros q [bq Hq]; [done|]. cbn [walk].
  rewrite lookup_insert_ne, Hq by congruence. pose proof (wf_pprev _ _ _ (Hst _ _ Hq)) as Hprev.
  destruct (pprev bq) as [r|]; [|done]. destruct Hprev as (br & Hr & _). apply IH. by exists br.
Qed.

(** A new entry without a skip pointer, on top of an entry of the store *)
Lemma wf_store_insert_fresh st p b :
  wf_store st -> st !! p = None -> is_Some (phashBlock b) -> pskip b = None ->
  match pprev b with None => Chain.nHeight b = 0 | Some q => exists bq, st !! q = Some bq /\ Chain.nHeight b = Chain.nHeight bq + 1 end ->
  wf_store (<[p := b]> st).
Proof.
  intros Hst Hp Hh Hs Hprev x bx Hx. apply lookup_insert_Some in Hx as [[<- <-]|[Hne Hx]].
  - split; [|done| |by rewrite Hs].
    + destruct (pprev b) as [q|]; [|lia]. destruct Hprev as (bq & Hq & ->). pose proof (wf_height _ _ _ (Hst _ _ Hq)). lia.
    + destruct (pprev b) as [q|]; [|done]. destruct Hprev as (bq & Hq & ->). exists bq. rewrite lookup_insert_ne by congruence. split; [done|lia].
  - destruct (Hst _ _ Hx) as [H0 Hhx Hpx Hsx]. split; [done|done| |].
    + destruct (pprev bx) as [q|]; [|done]. destruct Hpx as (bq & Hq & Hh'). exists bq. by rewrite lookup_insert_ne by congruence.
    + destruct (pskip bx) as [r|]; [|done]. rewrite walk_insert_fresh; [done|done|done|by exists bx].
Qed.

Lemma chain_insert_fresh st p b c :
  wf_store st -> st !! p = None -> wf_chain st c -> wf_chain (<[p := b]> st) c.
Proof.
  intros Hst Hp [->|(t & bt & Ht & Hl & Hc)]; [by left|]. right. exists t, bt. split_and!; [by rewrite lookup_insert_ne by congruence|done|].
  intros n q. rewrite walk_insert_fresh; [apply Hc|done|done|by exists bt].
Qed.

(** The entry that [AddToBlockIndex] makes of a header on top of [prev] *)
Record new_entry (s : ChainState) (block : CBlockHeader) (b : CBlockIndex) : Prop := {
  new_hash : phashBlock b = Some (header_GetHash block);
  new_pprev : pprev b = m_block_index s !! hashPrevBlock block;
  new_height : Chain.nHeight b = match pprev b ≫= (fun q => entries s !! q) with Some bq => Chain.nHeight bq + 1 | None => 0 end;
  new_work : wf (nChainWork b) /\ exists proof, GetBlockProof b = Ok proof /\
    val (nChainWork b) = (match pprev b ≫= (fun q => entries s !! q) with Some bq => val (nChainWork bq) | None => 0 end + val proof) mod 2 ^ 256;
  new_timemax : nTimeMax b = match pprev b ≫= (fun q => entries s !! q) with Some bq => Z.max (nTimeMax bq) (nTime b) | None => nTime b end;
  new_header : nTime b = hdr_nTime block /\ nBits b = hdr_nBits block /\ prevoutStake b = hdr_prevoutStake block;
  new_modifier : nStakeModifier b = ComputeStakeModifier (pprev b ≫= (fun q => entries s !! q))
    (if header_IsProofOfWork block then header_GetHash block else op_hash (hdr_prevoutStake block));
  new_undownloaded : nTx b = 0 /\ nChainTx b = 0 /\ nStatus b = BLOCK_VALID_TREE
}.

Lemma tree_add s s' p b :
  tree_ok s -> entries s !! p = None -> entries s' = <[p := b]> (entries s) -> wf_store (entries s') ->
  wf (nChainWork b) -> nChainTx b = 0 -> m_chain s' = m_chain s -> setBlockIndexCandidates s' = setBlockIndexCandidates s ->
  m_blocks_unlinked s' = m_blocks_unlinked s -> m_failed_blocks s' = m_failed_blocks s ->
  (exists hash, phashBlock b = Some hash /\ m_block_index s !! hash = None /\ m_block_index s' = <[hash := p]> (m_block_index s)) ->
  (pindexBestHeader s' = pindexBestHeader s \/ pindexBestHeader s' = Some p) -> pindexBestInvalid s' = pindexBestInvalid s ->
  pindexBestForkTip s' = pindexBestForkTip s -> pindexBestForkBase s' = pindexBestForkBase s -> tree_ok s'.
Proof.
  intros [] Hp E Hwf Hw Htx Ec Ecand Eu Ef (hash & Hh & Hno & Ei) Eb1 Eb2 Eb3 Eb4.
  assert (Hkeep : forall q bq, entries s !! q = Some bq -> entries s' !! q = Some bq) by (intros q bq Hq; rewrite E, lookup_insert_ne; congruence).
  assert (Hpres : forall q, present s q -> present s' q) by (intros q [bq Hq]; exists bq; auto).
  split.
  - done.
  - rewrite E. by apply map_Forall_insert_2.
  - rewrite E, Ec. by apply chain_insert_fresh.
  - rewrite E. intros x bx q bq Hx Hn Hq Hbq. apply lookup_insert_Some in Hx as [[<- <-]|[Hne Hx]]; [done|].
    pose proof (wf_pprev _ _ _ (tree_wf0 _ _ Hx)) as Hprev. rewrite Hq in Hprev. destruct Hprev as (bq' & Hq' & _).
    rewrite lookup_insert_ne in Hbq by congruence. exact (tree_downloaded0 x bx q bq Hx Hn Hq Hbq).
  - intros x. rewrite Ecand. intros (bx & Hx & Hn)%tree_candidates0. exists bx. auto.
  - intros q x. rewrite Eu. intros (bx & Hx & Hn)%tree_unlinked0. exists bx. auto.
  - intros h x. rewrite Ei, E. rewrite !lookup_insert_Some, tree_index0. split.
    + intros [[<- <-]|(Hne & bx & Hx & Hhx)]; [exists b; rewrite lookup_insert_eq; by split|].
      exists bx. rewrite lookup_insert_ne by congruence. by split.
    + intros (bx & Hx & Hhx). apply lookup_insert_Some in Hx as [[<- <-]|[Hne Hx]]; [left; split; congruence|].
      right. split; [|by exists bx]. intros <-. assert (m_block_index s !! hash = Some x) by (apply tree_index0; by exists bx). congruence.
  - apply (marked_mono s); [done|by rewrite Ef|]. eauto.
  - rewrite Eb2, Eb3, Eb4. rewrite !Forall_cons_iff in *. destruct tree_best0 as (H1 & H2 & H3 & H4 & _).
    split_and!; [|by eauto..|done]. destruct Eb1 as [-> | ->]; [eauto|]. intros x [= <-]. exists b. rewrite E. apply lookup_insert_eq.
Qed.

(** The new entry once it is linked to its parent *)
Definition linked (st : gmap ptr CBlockIndex) (o : option ptr) (b : CBlockIndex) : CBlockIndex :=
  match o ≫= (fun q => (q,.) <$> st !! q) with Some (q, bq) => set_parent q (Chain.nHeight bq + 1) b | None => b end.

Lemma linked_parent st o b :
  pprev b = None -> Chain.nHeight b = 0 -> (forall q, o = Some q -> is_Some (st !! q)) ->
  pprev (linked st o b) = o /\
  Chain.nHeight (linked st o b) = match o ≫= (fun q => st !! q) with Some bq => Chain.nHeight bq + 1 | None => 0 end.
Proof. intros Hb Hn Ho. unfold linked. destruct o as [q|]; [|done]. destruct (Ho q eq_refl) as [bq Hq]. cbn. by rewrite Hq. Qed.

Lemma linked_fields st o b :
  nBits (linked st o b) = nBits b /\ nStatus (linked st o b) = nStatus b /\ nTime (linked st o b) = nTime b /\
  prevoutStake (linked st o b) = prevoutStake b /\ nChainTx (linked st o b) = nChainTx b /\ nTx (linked st o b) = nTx b /\ phashBlock (linked st o b) = phashBlock b.
Proof. unfold linked. by destruct (o ≫= _) as [[q bq]|]. Qed.

Lemma link_parent_spec st p b (o : option ptr) :
  wf_store st -> st !! p = None -> (forall q, o = Some q -> is_Some (st !! q)) ->
  phashBlock b <> None -> pprev b = None -> pskip b = None -> Chain.nHeight b = 0 ->
  exists skip,
    match o with
    | None => Ok (<[p := b]> st)
    | Some prev =>
      bp <-! deref (<[p := b]> st) prev ;
      new <-! deref (<[p := b]> st) p ;
      BuildSkip (<[p := set_parent prev (Chain.nHeight bp + 1) new]> (<[p := b]> st)) p
    end = Ok (<[p := set_pskip (linked st o b) skip]> st) /\
    wf_store (<[p := set_pskip (linked st o b) skip]> st).
Proof.
  intros Hst Hp Ho Hh Hb Hs Hn. apply not_eq_None_Some in Hh.
  assert (Hself : forall x : CBlockIndex, pskip x = None -> set_pskip x None = x) by (intros [] E; cbn in E |- *; by subst).
  unfold linked. destruct o as [q|]; cbn [mbind option_bind].
  - destruct (Ho q eq_refl) as [bq Hq]. assert (p <> q) by congruence. unfold deref at 1 2.
    rewrite lookup_insert_ne, Hq, lookup_insert_eq by done. cbn [of_option obind option_map fmap option_fmap mbind option_bind]. rewrite ?Hq, insert_insert_eq.
    set (b' := set_parent q (Chain.nHeight bq + 1) b).
    assert (Hwf : wf_store (<[p := b']> st)) by (apply wf_store_insert_fresh; [done..|]; exists bq; by split).
    destruct (BuildSkip_eq _ p b' Hwf (lookup_insert_eq _ _ _)) as [->|(k & -> & Hk)].
    + exists None. cbn. by rewrite Hself.
    + exists k. rewrite insert_insert_eq. split; [done|]. rewrite <- (insert_insert_eq st p _ b').
      apply wf_store_set_pskip; [done|apply lookup_insert_eq|done].
  - exists None. rewrite Hself by done. split; [done|]. apply wf_store_insert_fresh; [done..|]. by rewrite Hb.
Qed.


Lemma AddToBlockIndex_run s block (p := fresh (dom (entries s))) (hash := header_GetHash block) (o := m_block_index s !! hashPrevBlock block) :
  tree_ok s -> in_u 32 (hdr_nBits block) -> hashPrevBlock block <> hash -> m_block_index s !! hash = None ->
  let stake := CBlockIndex_of_header block in
  let b := linked (entries s) o (set_phashBlock hash stake) in
  let prev := o ≫= (fun q => entries s !! q) in
  exists skip proof best, GetBlockProof b = Ok proof /\ wf proof /\ (best = pindexBestHeader s \/ best = Some p) /\
    let b' := set_nStatus (set_work (match prev with Some bp => Z.max (nTimeMax bp) (nTime b) | None => nTime b end)
      (add (match prev with Some bp => nChainWork bp | None => of_uint64 0 end) proof)
      (ComputeStakeModifier prev (if header_IsProofOfWork block then hash else op_hash (hdr_prevoutStake block))) (set_pskip b skip)) BLOCK_VALID_TREE in
    wf_store (<[p := b']> (entries s)) /\
    AddToBlockIndex block s = Ok (p, set_dirty p (set_best_header best (set_entries (fun _ => <[p := b']> (entries s))
      (set_indexed hash p (if IsProofOfStake stake then Some (prevoutStake stake, nTime stake) else None) s)))).
Proof.
  intros Hs Hbits Hne Ehash stake b prev. unfold AddToBlockIndex. fold hash. rewrite Ehash. fold p stake.
  assert (Hp : entries s !! p = None) by (apply not_elem_of_dom; exact (fin_sets.is_fresh (dom (entries s)))).
  set (s1 := set_indexed _ _ _ s).
  assert (Ho : m_block_index s1 !! hashPrevBlock block = o) by (unfold s1, o; cbn [m_block_index set_indexed]; by rewrite lookup_insert_ne).
  assert (Hop : forall q, o = Some q -> is_Some (entries s !! q)) by (intros q (x & Hx & _)%(tree_index s Hs); by exists x).
  change (entries s1) with (entries s). rewrite Ho.
  destruct (link_parent_spec (entries s) p (set_phashBlock hash stake) o) as (skip & -> & Hwf); [by apply Hs|done..|]. cbn [obind]. fold b in Hwf |- *.
  unfold deref at 1. rewrite lookup_insert_eq. cbn [of_option obind].
  destruct (linked_parent (entries s) o (set_phashBlock hash stake) eq_refl eq_refl Hop) as [Ho' _].
  destruct (linked_fields (entries s) o (set_phashBlock hash stake)) as (Ebits & Est & _). fold b in Ho', Ebits, Est. cbn [pprev set_pskip]. rewrite Ho'.
  assert (Ed : deref_opt (<[p := set_pskip b skip]> (entries s)) o = Ok prev).
  { unfold prev. destruct o as [q|] eqn:E; [|done]. destruct (Hop q eq_refl) as [bq Hq]. unfold deref_opt, deref. cbn [mbind option_bind].
    rewrite lookup_insert_ne, Hq by congruence. done. }
  rewrite Ed. cbn [obind]. change (GetBlockProof (set_pskip b skip)) with (GetBlockProof b).
  destruct (GetBlockProof_spec b) as (proof & Eproof & Wproof & _); [by rewrite Ebits|]. rewrite Eproof. cbn [obind nTime set_pskip].
  set (b1 := set_work _ _ _ (set_pskip b skip)).
  assert (Hraise : RaiseValidity b1 BLOCK_VALID_TREE = Ok (set_nStatus b1 BLOCK_VALID_TREE, true)).
  { unfold RaiseValidity. subst b1. cbn [nStatus set_work set_pskip]. by rewrite Est. }
  rewrite Hraise. cbn [obind fst]. rewrite insert_insert_eq. set (b2 := set_nStatus b1 BLOCK_VALID_TREE).
  cbn [entries set_entries pindexBestHeader]. change (pindexBestHeader s1) with (pindexBestHeader s).
  assert (Hbest : forall q, pindexBestHeader s = Some q -> present s q) by (pose proof (tree_best s Hs) as Hb; by inversion Hb).
  rewrite deref_opt_spec by (intros q [bq Hq]%Hbest; exists bq; rewrite lookup_insert_ne; congruence). cbn [obind].
  set (better := match _ with None => true | Some bb => _ end).
  exists skip, proof, (if better then Some p else pindexBestHeader s). split_and!; [done|done|by destruct better; auto| |by destruct better].
  pose proof (same_tree_insert (<[p := set_pskip b skip]> (entries s)) p _ b2 (lookup_insert_eq _ _ _) eq_refl) as Ht.
  rewrite insert_insert_eq in Ht. by eapply same_tree_wf.
Qed.

Lemma AddToBlockIndex_spec s block :
  tree_ok s -> in_u 32 (hdr_nBits block) -> hashPrevBlock block <> header_GetHash block ->
  exists p s', AddToBlockIndex block s = Ok (p, s') /\ tree_ok s' /\ m_block_index s' !! header_GetHash block = Some p /\
    m_chain s' = m_chain s /\
    match m_block_index s !! header_GetHash block with
    | Some _ => s' = s
    | None => exists b, entries s' = <[p := b]> (entries s) /\ entries s !! p = None /\ new_entry s block b
    end.
Proof.
  intros Hs Hbits Hne. destruct (m_block_index s !! header_GetHash block) as [p|] eqn:Ehash.
  { exists p, s. unfold AddToBlockIndex. by rewrite Ehash. }
  destruct (AddToBlockIndex_run s block Hs Hbits Hne Ehash) as (skip & proof & best & Eproof & Wproof & Hbest & Hwf & ->).
  set (hash := header_GetHash block) in *. set (o := m_block_index s !! hashPrevBlock block) in *. set (p := fresh (dom (entries s))) in *.
  assert (Hp : entries s !! p = None) by (apply not_elem_of_dom; exact (fin_sets.is_fresh (dom (entries s)))).
  set (b0 := set_phashBlock hash (CBlockIndex_of_header block)) in *. set (b := linked (entries s) o b0) in *.
  set (b' := set_nStatus _ _) in *. set (prev := o ≫= _) in *.
  assert (Hop : forall q, o = Some q -> is_Some (entries s !! q)) by (intros q (x & Hx & _)%(tree_index s Hs); by exists x).
  destruct (linked_parent (entries s) o b0 eq_refl eq_refl Hop) as [Ho' Eh].
  destruct (linked_fields (entries s) o b0) as (Ebits & Est & Etime & Estake & Etx & En & Ehb). fold b in Ho', Eh, Ebits, Est, Etime, Estake, Etx, En, Ehb.
  assert (Wprev : wf (match prev with Some bp => nChainWork bp | None => of_uint64 0 end)).
  { unfold prev. destruct o as [q|]; [|apply of_uint64_wf]. destruct (Hop q eq_refl) as [bq Hq]. cbn [mbind option_bind]. rewrite Hq. by eapply (tree_work s Hs). }
  destruct (add_spec _ proof Wprev Wproof) as [Wnew Vnew].
  eexists p, _. split; [reflexivity|]. split; [|split; [apply lookup_insert_eq|split; [done|]]].
  - eapply (tree_add s _ p b'); [done|done|reflexivity|exact Hwf|exact Wnew|exact Etx|done|done|done|done| |exact Hbest|done..].
    exists hash. by split_and!.
  - exists b'. split; [done|]. split; [done|]. assert (Eprev : pprev b' ≫= (fun q => entries s !! q) = prev) by (cbn [b' pprev set_nStatus set_work set_pskip]; by rewrite Ho').
    split; rewrite ?Eprev; [exact Ehb|exact Ho'|exact Eh| |by unfold b'; cbn [nTimeMax set_nStatus set_work]|by split_and!|done|by split].
    split; [exact Wnew|]. exists proof. split; [exact Eproof|]. cbn [b' nChainWork set_nStatus set_work]. rewrite Vnew. destruct prev; [done|].
    by rewrite (of_uint64_val 0).
Qed.

(** ** Transaction counts *)

(** [M] bounds the transactions of a block: the counts of a chain then fit
    [nChainTx]. *)
Record tally_ok (M : Z) (st : gmap ptr CBlockIndex) (b : CBlockIndex) : Prop := {
  tally_nBits : in_u 32 (nBits b);
  tally_nTx : 0 <= nTx b <= M;
  tally_room : M * (Chain.nHeight b + 1) < 2 ^ 32;
  tally_nChainTx : 0 <= nChainTx b <= M * (Chain.nHeight b + 1);
  tally_sum : nChainTx b <> 0 -> nChainTx b = match pprev b ≫= (fun q => st !! q) with Some bq => nChainTx bq | None => 0 end + nTx b
}.

Definition tallied (M : Z) (s : ChainState) : Prop := map_Forall (fun _ b => tally_ok M (entries s) b) (entries s).

Lemma tallied_restatus M s s' : tallied M s -> restatus (entries s) (entries s') -> tallied M s'.
Proof.
  intros H Hr p b' Hp'. destruct (restatus_back _ _ _ _ Hr Hp') as (b & z & Hp & ->). destruct (H p b Hp). split; [done..|].
  cbn [nChainTx nTx pprev set_nStatus]. intros Hn. rewrite (tally_sum0 Hn). f_equal. destruct (pprev b) as [q|]; [|done]. cbn [mbind option_bind].
  destruct (entries s !! q) as [bq|] eqn:Eq; [by destruct (restatus_lookup _ _ _ _ Hr Eq) as [zq ->]|].
  specialize (Hr q). rewrite Eq in Hr. by destruct (entries s' !! q).
Qed.

(** ** Connecting received blocks *)

Definition connected (s : ChainState) (p : ptr) : Prop := exists b, entries s !! p = Some b /\ nChainTx b <> 0.

(** What [link_block] needs of the entry it takes from the queue *)
Definition ready (s : ChainState) (p : ptr) : Prop :=
  exists b, entries s !! p = Some b /\ match pprev b with None => 0 < nTx b | Some q => connected s q end.

(** [p] is a candidate, or has no more work than the tip. *)
Definition considered (s : ChainState) (p : ptr) : Prop :=
  p ∈ setBlockIndexCandidates s \/
  exists tip b bt, Tip (m_chain s) = Some tip /\ entries s !! p = Some b /\ entries s !! tip = Some bt /\ val (nChainWork b) <= val (nChainWork bt).

(** [s'] is [s] with more entries connected. *)
Record extends (s s' : ChainState) : Prop := {
  extends_chain : m_chain s' = m_chain s;
  extends_tree : same_tree (entries s) (entries s');
  extends_entries : forall p b, entries s !! p = Some b -> exists n q, entries s' !! p = Some (set_connected n q b) /\ (nChainTx b <> 0 -> n <> 0);
  extends_considered : forall p, connected s' p -> connected s p \/ considered s' p;
  extends_candidates : setBlockIndexCandidates s ⊆ setBlockIndexCandidates s'
}.

Lemma extends_connected s s' p : extends s s' -> connected s p -> connected s' p.
Proof. intros H (b & Hp & Hn). destruct (extends_entries _ _ H _ _ Hp) as (n & q & Hp' & Hn'). eexists. split; [done|]. cbn. auto. Qed.

Lemma extends_ready s s' p : extends s s' -> ready s p -> ready s' p.
Proof.
  intros H (b & Hp & Hn). destruct (extends_entries _ _ H _ _ Hp) as (n & q & Hp' & _). eexists. split; [done|]. cbn.
  destruct (pprev b); [by eapply extends_connected|done].
Qed.

Lemma extends_considered_mono s s' p : extends s s' -> considered s p -> considered s' p.
Proof.
  intros H [Hin|(tip & b & bt & Ht & Hp & Hbt & Hle)]; [left; by apply (extends_candidates _ _ H)|].
  destruct (extends_entries _ _ H _ _ Hp) as (n & q & Hp' & _), (extends_entries _ _ H _ _ Hbt) as (n' & q' & Hbt' & _).
  right. eexists tip, _, _. rewrite (extends_chain _ _ H). by split_and!.
Qed.

Lemma extends_refl s : extends s s.
Proof.
  split; [done|done| |by left|done]. intros p b Hp. exists (nChainTx b), (nSequenceId b). split; [|done]. rewrite Hp. by destruct b.
Qed.

Lemma extends_trans s1 s2 s3 : extends s1 s2 -> extends s2 s3 -> extends s1 s3.
Proof.
  intros H12 H23. split.
  - by rewrite (extends_chain _ _ H23), (extends_chain _ _ H12).
  - etrans; [apply (extends_tree _ _ H12)|apply (extends_tree _ _ H23)].
  - intros p b Hp. destruct (extends_entries _ _ H12 _ _ Hp) as (n & q & Hp2 & Hn). destruct (extends_entries _ _ H23 _ _ Hp2) as (n' & q' & Hp3 & Hn').
    exists n', q'. split; [done|]. cbn in Hn'. auto.
  - intros p Hc. apply (extends_considered _ _ H23) in Hc as [Hc|Hc]; [|by right].
    apply (extends_considered _ _ H12) in Hc as [Hc|Hc]; [by left|right; by eapply extends_considered_mono].
  - etrans; [apply (extends_candidates _ _ H12)|apply (extends_candidates _ _ H23)].
Qed.

Lemma chain_tip_present s tip : tree_ok s -> Tip (m_chain s) = Some tip -> present s tip.
Proof.
  intros Hs Ht. destruct (tree_chain s Hs) as [E|(p & b & Hc)]; [by rewrite E in Ht|].
  rewrite (chain_of_Tip _ _ _ _ (tree_wf s Hs) Hc) in Ht. injection Ht as <-. exists b. apply Hc.
Qed.

(** The entry that [link_block] writes *)
Lemma connect_spec M s p b prev seq :
  tree_ok s -> tallied M s -> entries s !! p = Some b -> ready s p -> prev = pprev b ≫= (fun q => entries s !! q) ->
  let n := match prev with Some bp => nChainTx bp | None => 0 end + nTx b in
  let st := <[p := set_connected n seq b]> (entries s) in
  u32 n = n /\ 0 < n /\ (nChainTx b <> 0 -> nChainTx b = n) /\ same_tree (entries s) st /\ works st /\ downloaded st /\
  map_Forall (fun _ b => tally_ok M st b) st.
Proof.
  intros Hs Ht Hp (b' & Hp' & Hr) Eprev n st. rewrite Hp in Hp'. injection Hp' as <-. subst prev. destruct (Ht p b Hp). pose proof (wf_pprev _ _ _ (tree_wf s Hs _ _ Hp)) as Hprev.
  assert (Hn : 0 < n <= M * (Chain.nHeight b + 1)).
  { unfold n. destruct (pprev b) as [q|]; cbn [mbind option_bind]; [|pose proof (wf_height _ _ _ (tree_wf s Hs _ _ Hp)); nia].
    destruct Hr as (bq & Hq & Hnq), Hprev as (bq' & Hq' & Hh). rewrite Hq in Hq'. injection Hq' as <-. rewrite Hq. destruct (Ht q bq Hq). nia. }
  assert (Hself : pprev b <> Some p).
  { intros E. rewrite E in Hprev. destruct Hprev as (bq & Hq & Hh). simplify_eq. lia. }
  assert (Hold : forall q bq, st !! q = Some bq -> exists bo, entries s !! q = Some bo /\ (nChainTx bo <> 0 -> nChainTx bq = nChainTx bo)).
  { intros q bq Hq. apply lookup_insert_Some in Hq as [[<- <-]|[_ Hq]]; [|by exists bq]. exists b. split; [done|]. intros Hnz. symmetry. by apply tally_sum0. }
  split_and!; [apply Z.mod_small; lia|lia|by apply tally_sum0|by apply (same_tree_insert _ _ b)| | |].
  - apply map_Forall_insert_2; [exact (tree_work s Hs p b Hp)|apply Hs].
  - intros x bx q bq Hx Hnx Hq Hbq. destruct (decide (q = p)) as [->|Hne].
    { unfold st in Hbq. rewrite lookup_insert_eq in Hbq. injection Hbq as <-. cbn. lia. }
    unfold st in Hbq. rewrite lookup_insert_ne in Hbq by done. unfold st in Hx. apply lookup_insert_Some in Hx as [[<- <-]|[_ Hx]].
    + cbn in Hq. rewrite Hq in Hr. destruct Hr as (y & Hy & Hny). by simplify_eq.
    + exact (tree_downloaded s Hs x bx q bq Hx Hnx Hq Hbq).
  - intros x bx Hx. unfold st in Hx. apply lookup_insert_Some in Hx as [[<- <-]|[Hne Hx]].
    + split; cbn; [done|done|done|lia|]. intros _. unfold n. f_equal. destruct (pprev b) as [q|]; [|done]. cbn. unfold st. rewrite lookup_insert_ne by congruence. done.
    + destruct (Ht x bx Hx) as [? ? ? ? Hsum]. split; [done..|]. intros Hnx. rewrite (Hsum Hnx). f_equal. destruct (pprev bx) as [q|] eqn:Eq; [|done]. cbn.
      destruct (st !! q) as [bq|] eqn:Ebq.
      * destruct (Hold q bq Ebq) as (bo & Hbo & E). rewrite Hbo. symmetry. apply E. exact (tree_downloaded s Hs x bx q bo Hx Hnx Eq Hbo).
      * pose proof (wf_pprev _ _ _ (tree_wf s Hs _ _ Hx)) as Hpx. rewrite Eq in Hpx. destruct Hpx as (bq & Hbq & _).
        unfold st in Ebq. by apply lookup_insert_None in Ebq as [Ebq _]; rewrite Hbq in Ebq.
Qed.

Lemma tip_comparison s s1 p b' :
  tree_ok s -> m_chain s1 = m_chain s -> same_tree (entries s) (entries s1) -> works (entries s1) -> entries s1 !! p = Some b' ->
  exists less, match Tip (m_chain s) with None => Ok false | Some tip => WorkComparator s1 p tip end = Ok less /\
    (less = true -> exists tip bt, Tip (m_chain s) = Some tip /\ entries s1 !! tip = Some bt /\ val (nChainWork b') <= val (nChainWork bt)).
Proof.
  intros Hs Ec Htree Hw Hp. destruct (Tip (m_chain s)) as [tip|] eqn:Etip; [|by exists false].
  destruct (chain_tip_present s tip Hs Etip) as [bt Hbt]. destruct (same_tree_lookup _ _ _ _ Htree Hbt) as (bt' & Hbt' & _).
  destruct (WorkComparator_spec s1 p tip b' bt' Hw Hp Hbt') as (less & E & Hl). exists less. split; [done|].
  intros (x & y & Hx & Hy & Hb)%Hl. exists tip, bt'. simplify_eq. split_and!; [done|done|]. unfold before in Hb. lia.
Qed.

(** What [link_block] does to the state *)
Lemma link_block_run M s p b (n := match pprev b ≫= (fun q => entries s !! q) with Some bp => nChainTx bp | None => 0 end + nTx b) :
  tree_ok s -> tallied M s -> ready s p -> entries s !! p = Some b ->
  exists s', link_block p s = Ok (map snd (List.filter (fun x => bool_decide (x.1 = p)) (m_blocks_unlinked s)), s') /\
    entries s' = <[p := set_connected n (nBlockSequenceId s) b]> (entries s) /\ m_chain s' = m_chain s /\ m_block_index s' = m_block_index s /\
    m_failed_blocks s' = m_failed_blocks s /\ same_bests s s' /\
    m_blocks_unlinked s' = List.filter (fun x => negb (bool_decide (x.1 = p))) (m_blocks_unlinked s) /\
    setBlockIndexCandidates s ⊆ setBlockIndexCandidates s' ⊆ {[p]} ∪ setBlockIndexCandidates s /\ considered s' p.
Proof.
  intros Hs Ht Hr Hp. unfold link_block, deref. rewrite Hp. cbn [of_option obind].
  rewrite deref_opt_spec by (intros q Hq; pose proof (wf_pprev _ _ _ (tree_wf s Hs _ _ Hp)) as Hprev; rewrite Hq in Hprev; by destruct Hprev as (bq & -> & _)).
  cbn [obind]. destruct (connect_spec M s p b _ (nBlockSequenceId s) Hs Ht Hp Hr eq_refl) as (-> & Hn & _ & Htree & Hw & _).
  fold n in Hn, Htree, Hw |- *. set (b' := set_connected n (nBlockSequenceId s) b) in *. set (s1 := set_sequence _ _ _ _).
  change (m_chain s1) with (m_chain s).
  destruct (tip_comparison s s1 p b' Hs eq_refl Htree Hw (lookup_insert_eq _ _ _)) as (less & -> & Hless). cbn [obind].
  destruct less; eexists; (split; [reflexivity|]); unfold same_bests; split_and!; try done; cbn; [set_solver| |set_solver..|by left; cbn; set_solver].
  right. destruct (Hless eq_refl) as (tip & bt & H1 & H2 & H3). exists tip, b', bt. split_and!; [done|apply lookup_insert_eq|done|done].
Qed.

Lemma link_block_spec M s p :
  tree_ok s -> tallied M s -> ready s p ->
  exists waiting s', link_block p s = Ok (waiting, s') /\ tree_ok s' /\ tallied M s' /\ extends s s' /\ connected s' p /\ considered s' p /\
    Forall (ready s') waiting /\ (length waiting + length (m_blocks_unlinked s') = length (m_blocks_unlinked s))%nat /\
    (forall q x, (q, x) ∈ m_blocks_unlinked s' -> q <> p /\ (q, x) ∈ m_blocks_unlinked s) /\
    (forall q x, (q, x) ∈ m_blocks_unlinked s -> (q, x) ∈ m_blocks_unlinked s' \/ q = p /\ x ∈ waiting) /\
    (forall q, q <> p -> entries s' !! q = entries s !! q).
Proof.
  intros Hs Ht Hr. pose proof Hr as (b & Hp & _).
  destruct (link_block_run M s p b Hs Ht Hr Hp) as (s' & -> & E & Ec & Ei & Ef & (B1 & B2 & B3 & B4) & Eu & [Hc1 Hc2] & Hcons).
  destruct (connect_spec M s p b _ (nBlockSequenceId s) Hs Ht Hp Hr eq_refl) as (_ & Hn & Hkeep & Htree & Hw & Hd & Htal).
  set (n := _ + nTx b) in *. set (b' := set_connected n (nBlockSequenceId s) b) in *. rewrite <- E in Htree, Hw, Hd, Htal.
  assert (Hpc : connected s' p) by (exists b'; rewrite E, lookup_insert_eq; split; [done|cbn; lia]).
  assert (Hun : forall q x, (q, x) ∈ m_blocks_unlinked s' -> q <> p /\ (q, x) ∈ m_blocks_unlinked s).
  { intros q x. rewrite Eu, list_elem_of_In, filter_In, list_elem_of_In. intros [Hin Hq]. by apply negb_true_iff, bool_decide_eq_false in Hq. }
  assert (Hother : forall q, q <> p -> entries s' !! q = entries s !! q) by (intros q Hq; by rewrite E, lookup_insert_ne).
  assert (Hext : extends s s').
  { split; [done|done| | |done].
    - intros x bx Hx. destruct (decide (x = p)) as [->|Hne]; [rewrite E, lookup_insert_eq; exists n, (nBlockSequenceId s); simplify_eq; split; [done|lia]|].
      rewrite Hother, Hx by done. exists (nChainTx bx), (nSequenceId bx). split; [by destruct bx|done].
    - intros x (bx & Hx & Hnx). destruct (decide (x = p)) as [->|Hne]; [by right|]. left. exists bx. by rewrite Hother in Hx. }
  eexists _, s'. split_and!; [done| |done|done|done|done| | |done| |done].
  - eapply tree_reshape; [exact Hs|done|done|done|done|done| |intros q x ?%Hun; by left; destruct_and!| |rewrite B1, B2, B3, B4; apply Hs].
    2: { eapply marked_mono; [apply Hs|by rewrite Ef|]. intros x bx _ Hx Hi. destruct (extends_entries _ _ Hext _ _ Hx) as (n' & q & Hx' & _). by eexists. }
    intros x Hx%Hc2. apply elem_of_union in Hx as [->%elem_of_singleton|Hx]; [done|]. exact (extends_connected _ _ _ Hext (tree_candidates s Hs x Hx)).
  - apply Forall_forall. intros x Hx%list_elem_of_In. apply in_map_iff in Hx as ([q x'] & <- & Hx). apply filter_In in Hx as [Hx Hq].
    apply bool_decide_eq_true in Hq. cbn in Hq. subst q. apply list_elem_of_In in Hx. destruct (tree_unlinked s Hs _ _ Hx) as (bx & Hbx & Hpx).
    destruct (same_tree_lookup _ _ _ _ Htree Hbx) as (bx' & Hbx' & _ & Epx & _). exists bx'. cbn. by rewrite Epx, Hpx.
  - rewrite length_map, Eu. apply filter_length.
  - intros q x Hin. rewrite Eu, !list_elem_of_In, filter_In, in_map_iff, <- list_elem_of_In. cbn [fst].
    destruct (bool_decide_reflect (q = p)) as [->|Hne]; [right|by left]. split; [done|]. exists (p, x). split; [done|].
    apply filter_In. rewrite <- list_elem_of_In. cbn [fst]. by rewrite bool_decide_true.
Qed.

(** No entry but those of [queue] is connected while another waits for it. *)
Definition settled (queue : list ptr) (s : ChainState) : Prop :=
  forall q x, (q, x) ∈ m_blocks_unlinked s -> connected s q -> q ∈ queue.

(** What waited for an entry that became connected is connected too. *)
Definition follows (s s' : ChainState) : Prop :=
  forall q x, (q, x) ∈ m_blocks_unlinked s -> connected s' q -> connected s q \/ connected s' x /\ considered s' x.

Lemma link_queue_spec M fuel queue s :
  tree_ok s -> tallied M s -> Forall (ready s) queue -> (length queue + length (m_blocks_unlinked s) <= fuel)%nat ->
  exists s', link_queue fuel queue s = Ok s' /\ tree_ok s' /\ tallied M s' /\ extends s s' /\
    Forall (fun p => connected s' p /\ considered s' p) queue /\ (settled queue s -> settled [] s') /\ follows s s'.
Proof.
  revert queue s. induction fuel as [|fuel IH]; intros [|p queue] s Hs Ht Hq Hf; cbn [link_queue].
  1, 3: exists s; split_and!; [done|done|done|apply extends_refl|done|done|by left].
  { cbn in Hf. lia. }
  apply Forall_cons in Hq as [Hp Hq].
  destruct (link_block_spec M s p Hs Ht Hp) as (waiting & s1 & -> & Hs1 & Ht1 & H1 & Hcon & Hcons & Hw & Hlen & Hun & Hpair & Hother). cbn [obind].
  destruct (IH (queue ++ waiting) s1 Hs1 Ht1) as (s' & -> & Hs' & Ht' & H2 & Hall & Hset & Hfol).
  - apply Forall_app. split; [|done]. eapply Forall_impl; [exact Hq|]. intros x. by apply extends_ready.
  - rewrite length_app. cbn in Hf. lia.
  - exists s'. apply Forall_app in Hall as [Hall Hwait]. split_and!; [done|done|done|by eapply extends_trans| | |].
    + apply Forall_cons. split; [|done]. split; [by eapply extends_connected|by eapply extends_considered_mono].
    + intros Hse. apply Hset. intros q x [Hne Hin]%Hun (bq & Hbq & Hnq). rewrite Hother in Hbq by done.
      assert (Hin' : q ∈ p :: queue) by (apply (Hse q x); [done|by exists bq]).
      apply elem_of_cons in Hin' as [->|Hin']; [done|]. apply elem_of_app. by left.
    + intros q x Hin Hq'. destruct (Hpair q x Hin) as [Hin1|[-> Hx]]; [|right; rewrite Forall_forall in Hwait; by apply Hwait].
      destruct (Hfol q x Hin1 Hq') as [(bq & Hbq & Hnq)|Hx]; [left|by right]. destruct (Hun q x Hin1) as [Hne _].
      exists bq. by rewrite <- (Hother q Hne).
Qed.

(** The entry of a block whose data arrived *)
Lemma received_spec M s p b n file pos status :
  tree_ok s -> tallied M s -> entries s !! p = Some b -> nChainTx b = 0 -> 0 < n <= M -> (invalid b = true -> invalid (set_nStatus b status) = true) ->
  let s1 := set_dirty p (set_entries (insert p (set_received n file pos status b)) s) in
  tree_ok s1 /\ tallied M s1 /\ (forall x, connected s1 x <-> connected s x).
Proof.
  intros Hs Ht Hp H0 Hn Hinv s1. set (b' := set_received n file pos status b) in s1.
  assert (E1 : entries s1 = <[p := b']> (entries s)) by done.
  assert (Hcon : forall x, connected s1 x <-> connected s x).
  { intros x. unfold connected. rewrite E1. destruct (decide (x = p)) as [->|]; [rewrite lookup_insert_eq, Hp|by rewrite lookup_insert_ne].
    split; intros (y & [= <-] & Hy); cbn in Hy; congruence. }
  assert (Hdl : downloaded (entries s1)).
  { intros x bx q bq Hx Hnx Hq Hbq. rewrite E1 in Hx, Hbq. apply lookup_insert_Some in Hx as [[<- <-]|[Hne Hx]]; [done|].
    apply lookup_insert_Some in Hbq as [[<- <-]|[_ Hbq]]; [|exact (tree_downloaded s Hs x bx q bq Hx Hnx Hq Hbq)].
    destruct (tree_downloaded s Hs x bx p b Hx Hnx Hq Hp H0). }
  split_and!; [| |done].
  - eapply tree_reshape; [exact Hs| | |done|done|done| |by left| |apply Hs].
    + by apply (same_tree_insert _ _ b).
    + apply map_Forall_insert_2; [exact (tree_work s Hs p b Hp)|apply Hs].
    + intros x Hx. apply Hcon. by apply (tree_candidates s Hs).
    + eapply marked_mono; [apply Hs|done|]. intros x bx _ Hx Hi. rewrite E1. destruct (decide (p = x)) as [<-|]; [|by rewrite lookup_insert_ne by done; eauto].
      rewrite lookup_insert_eq. simplify_eq. eexists. split; [done|]. by apply Hinv.
  - intros x bx Hx. rewrite E1 in Hx. apply lookup_insert_Some in Hx as [[<- <-]|[Hne Hx]].
    + destruct (Ht p b Hp). split; cbn; [done|lia|done|lia|done].
    + destruct (Ht x bx Hx) as [? ? ? ? Hsum]. split; [done..|]. intros Hnx. rewrite (Hsum Hnx). f_equal. destruct (pprev bx) as [q|] eqn:Eq; [|done].
      cbn [mbind option_bind]. rewrite E1. destruct (decide (q = p)) as [->|Hqp]; [|by rewrite lookup_insert_ne].
      destruct (tree_downloaded s Hs x bx p b Hx Hnx Eq Hp H0).
Qed.

Lemma received_work s p b n file pos status :
  entries s !! p = Some b -> keeps_work (entries s) (<[p := set_received n file pos status b]> (entries s)).
Proof.
  intros Hp x bx Hx. destruct (decide (p = x)) as [<-|]; [|by rewrite lookup_insert_ne; eauto]. rewrite lookup_insert_eq. simplify_eq. by eexists.
Qed.

Lemma RaiseValidity_status b level :
  Z.land level (u32 (Z.lnot BLOCK_VALID_MASK)) = 0 -> exists z flag, RaiseValidity b level = Ok (set_nStatus b z, flag) /\
    (invalid b = true -> invalid (set_nStatus b z) = true) /\ (missing_data b = false -> missing_data (set_nStatus b z) = false).
Proof.
  intros H. unfold RaiseValidity. rewrite H. cbn [Z.eqb negb]. assert (Hb : set_nStatus b (nStatus b) = b) by (by destruct b).
  destruct (negb _) eqn:Ef; [exists (nStatus b), false; by rewrite Hb|]. destruct (_ <? _); [|exists (nStatus b), false; by rewrite Hb].
  do 2 eexists. split; [done|]. split.
  2: { unfold missing_data. cbn [nStatus set_nStatus]. rewrite Z.land_lor_distr_l, <- Z.land_assoc.
    change (Z.land (u32 (Z.lnot BLOCK_VALID_MASK)) BLOCK_HAVE_DATA) with BLOCK_HAVE_DATA. intros Hm%Z.eqb_neq. apply Z.eqb_neq. intros E.
    apply Z.lor_eq_0_iff in E. tauto. }
  intros Hi. unfold invalid in Hi. apply negb_true_iff, Z.eqb_neq in Hi. apply negb_false_iff, Z.eqb_eq in Ef.
  destruct Hi. apply Z.bits_inj'. intros n Hn. rewrite Z.bits_0, Z.land_spec. assert (Hbit := f_equal (fun x => Z.testbit x n) Ef).
  cbn beta in Hbit. rewrite Z.bits_0, Z.land_spec in Hbit. destruct (Z.testbit (nStatus b) n); [|done]. cbn [andb] in Hbit |- *.
  change BLOCK_FAILED_MASK with (Z.lor BLOCK_FAILED_VALID BLOCK_FAILED_CHILD) in Hbit. rewrite Z.lor_spec in Hbit. by apply orb_false_iff in Hbit as [Hbit _].
Qed.

Lemma IsValid_returns b level : Z.land level (u32 (Z.lnot BLOCK_VALID_MASK)) = 0 -> exists r, IsValid b level = Ok r.
Proof. intros H. unfold IsValid. rewrite H. cbn [Z.eqb negb]. destruct (negb _); by eexists. Qed.

(** [s'] is [s] after the data of the entry [b] at [p] arrived: the entry is
    connected as soon as its parent is, so is everything that waited for it,
    and what became connected is weighed against the tip; the entry names the
    [n] transactions and their place. *)
Record receives (M : Z) (s s' : ChainState) (p : ptr) (b : CBlockIndex) (n : Z) (pos : FlatFilePos) : Prop := {
  receives_tree : tree_ok s';
  receives_tally : tallied M s';
  receives_chain : m_chain s' = m_chain s;
  receives_shape : same_tree (entries s) (entries s');
  receives_work : keeps_work (entries s) (entries s');
  receives_keeps : forall x, connected s x -> connected s' x;
  receives_connected : (forall q, pprev b = Some q -> connected s q) -> connected s' p;
  receives_considered : forall x, connected s' x -> connected s x \/ considered s' x;
  receives_linked : follows s s';
  receives_settled : settled [] s -> settled [] s';
  receives_data : exists b', entries s' !! p = Some b' /\ nTx b' = n /\ nFile b' = pos_nFile pos /\ nDataPos b' = nPos pos /\ missing_data b' = false
}.

Lemma receives_link M s p b n pos status :
  tree_ok s -> tallied M s -> entries s !! p = Some b -> nChainTx b = 0 -> 0 < n <= M -> (invalid b = true -> invalid (set_nStatus b status) = true) ->
  missing_data (set_nStatus b status) = false ->
  (forall q, pprev b = Some q -> connected s q) ->
  let s1 := set_dirty p (set_entries (insert p (set_received n (pos_nFile pos) (nPos pos) status b)) s) in
  exists s', link_queue (S (length (m_blocks_unlinked s1))) [p] s1 = Ok s' /\ receives M s s' p b n pos.
Proof.
  intros Hs Ht Hp H0 Hn Hi Hm Hall s1. destruct (received_spec M s p b n (pos_nFile pos) (nPos pos) status Hs Ht Hp H0 Hn Hi) as (Hs1 & Ht1 & Hcon). fold s1 in Hs1, Ht1, Hcon.
  destruct (link_queue_spec M (S (length (m_blocks_unlinked s1))) [p] s1 Hs1 Ht1) as (s' & E & Hs' & Ht' & H1 & Hq & Hset & Hfol).
  - apply Forall_singleton. eexists. split; [apply lookup_insert_eq|]. cbn. destruct (pprev b); [apply Hcon; auto|lia].
  - cbn. lia.
  - apply Forall_singleton in Hq as [Hq _]. exists s'. split; [done|]. split; [done|done|by rewrite (extends_chain _ _ H1)| | | |done| | | |].
    + etrans; [|apply (extends_tree _ _ H1)]. by apply (same_tree_insert _ _ b).
    + intros x bx Hx. destruct (received_work s p b n (pos_nFile pos) (nPos pos) status Hp x bx Hx) as (bx1 & Hx1 & <-).
      destruct (extends_entries _ _ H1 x bx1 Hx1) as (k & q & Hx' & _). by eexists.
    + intros x Hx. apply (extends_connected _ _ _ H1). by apply Hcon.
    + intros x Hx. rewrite <- Hcon. by apply (extends_considered _ _ H1).
    + intros q x Hin Hq'. destruct (Hfol q x Hin Hq') as [Hc%Hcon|Hc]; [by left|by right].
    + intros Hse. apply Hset. intros q x Hin Hq'%Hcon. specialize (Hse q x Hin Hq'). set_solver.
    + destruct (extends_entries _ _ H1 p _ (lookup_insert_eq _ _ _)) as (k & q & Hp' & _). eexists. by split_and!.
Qed.

Lemma receives_wait M s p b n pos status q :
  tree_ok s -> tallied M s -> entries s !! p = Some b -> nChainTx b = 0 -> 0 < n <= M -> (invalid b = true -> invalid (set_nStatus b status) = true) ->
  missing_data (set_nStatus b status) = false ->
  pprev b = Some q -> ~ connected s q ->
  let s1 := set_dirty p (set_entries (insert p (set_received n (pos_nFile pos) (nPos pos) status b)) s) in
  forall valid : bool, receives M s (if valid then set_unlinked (m_blocks_unlinked s1 ++ [(q, p)]) s1 else s1) p b n pos.
Proof.
  intros Hs Ht Hp H0 Hn Hi Hm Hq Hnq s1 valid. destruct (received_spec M s p b n (pos_nFile pos) (nPos pos) status Hs Ht Hp H0 Hn Hi) as (Hs1 & Ht1 & Hcon). fold s1 in Hs1, Ht1, Hcon.
  set (s' := if valid then _ else _). assert (Hcon' : forall x, connected s' x <-> connected s x) by (intros x; unfold s'; destruct valid; apply Hcon).
  assert (Ht' : same_tree (entries s) (entries s')) by (unfold s'; by destruct valid; apply (same_tree_insert _ _ b)).
  split; [|by unfold s'; destruct valid|by unfold s'; destruct valid|done| |by intros x ?%Hcon'| | | | |].
  - unfold s'. destruct valid; [|done]. eapply tree_reshape; [exact Hs1|done|apply Hs1|apply Hs1|done|done|apply Hs1| |apply Hs1|apply Hs1].
    intros x y Hin. cbn in Hin. apply elem_of_app in Hin as [|Hin]; [by left|]. apply list_elem_of_singleton in Hin as [= -> ->].
    right. eexists. by split; [apply lookup_insert_eq|].
  - unfold s'. destruct valid; exact (received_work s p b n (pos_nFile pos) (nPos pos) status Hp).
  - intros Hall. destruct Hnq. by apply Hall.
  - intros x ?%Hcon'. by left.
  - intros x y _ ?%Hcon'. by left.
  - intros Hse x y Hin Hx%Hcon'. unfold s' in Hin. destruct valid; [|by apply (Hse x y)]. cbn in Hin.
    apply elem_of_app in Hin as [|Hin]; [by apply (Hse x y)|]. apply list_elem_of_singleton in Hin as [= -> ->]. done.
  - eexists. split; [by unfold s'; destruct valid; apply lookup_insert_eq|]. by split_and!.
Qed.

Lemma ReceivedBlockTransactions_spec M params block p pos s b :
  tree_ok s -> tallied M s -> entries s !! p = Some b -> nChainTx b = 0 -> 0 < Z.of_nat (length (vtx block)) <= M ->
  exists s', ReceivedBlockTransactions params block p pos s = Ok s' /\ receives M s s' p b (Z.of_nat (length (vtx block))) pos.
Proof.
  intros Hs Ht Hp H0 Hlen. pose proof (Ht p b Hp) as [_ _ Hroom _ _]. pose proof (wf_height _ _ _ (tree_wf s Hs p b Hp)) as Hh.
  unfold ReceivedBlockTransactions, deref. rewrite Hp. cbn [of_option obind].
  pose proof (wf_pprev _ _ _ (tree_wf s Hs _ _ Hp)) as Hprev.
  rewrite deref_opt_spec by (intros q Hq; rewrite Hq in Hprev; by destruct Hprev as (bq & -> & _)). cbn [obind].
  replace (u32 (Z.of_nat (length (vtx block)))) with (Z.of_nat (length (vtx block))) by (symmetry; apply Z.mod_small; nia).
  set (n := Z.of_nat _) in *. set (st0 := if IsWitnessEnabled _ _ then _ else _).
  destruct (RaiseValidity_status (set_received n (pos_nFile pos) (nPos pos) st0 b) BLOCK_VALID_TRANSACTIONS eq_refl) as (z & flag & -> & Hz & Hz'). cbn [obind fst].
  change (set_nStatus (set_received n (pos_nFile pos) (nPos pos) st0 b) z) with (set_received n (pos_nFile pos) (nPos pos) z b).
  assert (Hi : invalid b = true -> invalid (set_nStatus b z) = true).
  { intros Hi. apply Hz. unfold st0, invalid. cbn [nStatus set_received]. destruct (IsWitnessEnabled _ _); [|by apply (invalid_lor b)].
    by apply (invalid_lor (set_nStatus b _)), (invalid_lor b). }
  assert (Hm : missing_data (set_nStatus b z) = false).
  { apply Hz'. unfold st0, missing_data. cbn [nStatus set_received]. apply Z.eqb_neq. intros E%(f_equal (fun x => Z.testbit x 3)).
    destruct (IsWitnessEnabled _ _); rewrite Z.land_spec, ?Z.lor_spec, ?orb_true_r in E; done. }
  pose proof (receives_link M s p b n pos z Hs Ht Hp H0 Hlen Hi Hm) as Hlink.
  destruct (pprev b) as [q|] eqn:Eq; cbn [mbind option_bind]; [|by apply Hlink].
  destruct Hprev as (bq & Hq & _). rewrite Hq. unfold HaveTxsDownloaded. destruct (Z.eqb_spec (nChainTx bq) 0) as [E|E]; cbn [negb].
  - destruct (IsValid_returns bq BLOCK_VALID_TREE eq_refl) as [valid ->]. cbn [obind]. eexists. split; [done|].
    apply receives_wait; try done. intros (y & Hy & Hny). congruence.
  - apply Hlink. intros x [= <-]. by exists bq.
Qed.

(** ** Pruning candidates *)

Lemma worse_than_spec s tip l :
  works (entries s) -> present s tip -> Forall (present s) l ->
  exists c, worse_than s tip l = Ok c /\ forall p, p ∈ c <-> p ∈ l /\ outranks s tip p.
Proof.
  intros Hw [bt Ht]. induction 1 as [|p l [b Hp] _ (c & Ec & Hc)]; cbn [worse_than]; [exists ∅; split; [done|]; intros p; by rewrite elem_of_empty, elem_of_nil; tauto|].
  destruct (WorkComparator_spec s p tip b bt Hw Hp Ht) as (less & -> & Hless). cbn [obind]. rewrite Ec. cbn [obind]. eexists. split; [done|].
  intros x. destruct less; [|assert (~ outranks s tip p) by (intros Ho; by apply Hless in Ho)];
    rewrite ?elem_of_union, ?elem_of_singleton, elem_of_cons, Hc; intuition (subst; intuition).
Qed.

Lemma PruneBlockIndexCandidates_spec s tip p :
  tree_ok s -> Tip (m_chain s) = Some tip -> p ∈ setBlockIndexCandidates s -> ~ outranks s tip p ->
  exists s', PruneBlockIndexCandidates s = Ok s' /\ tree_ok s' /\ entries s' = entries s /\ m_chain s' = m_chain s /\
    forall x, x ∈ setBlockIndexCandidates s' <-> x ∈ setBlockIndexCandidates s /\ ~ outranks s tip x.
Proof.
  intros Hs Htip Hp Hbest. unfold PruneBlockIndexCandidates. rewrite Htip. cbn [of_option obind].
  destruct (worse_than_spec s tip (elements (setBlockIndexCandidates s)) (tree_work s Hs) (chain_tip_present s tip Hs Htip)) as (c & -> & Hc).
  { apply Forall_forall. intros x (b & Hb & _)%elem_of_elements%(tree_candidates s Hs). by exists b. }
  cbn [obind]. set (s' := set_candidates _ s).
  assert (Hiff : forall x, x ∈ setBlockIndexCandidates s' <-> x ∈ setBlockIndexCandidates s /\ ~ outranks s tip x).
  { intros x. cbn. rewrite elem_of_difference, Hc, elem_of_elements. tauto. }
  destruct (decide _) as [E|_]; [exfalso; assert (Hin : p ∈ setBlockIndexCandidates s') by (by apply Hiff); rewrite E in Hin; by apply elem_of_empty in Hin|].
  exists s'. split_and!; [done| |done|done|done].
  eapply tree_restatus; [exact Hs|done|done|done|intros x [Hx _]%Hiff; by left|by left|apply Hs|apply Hs].
Qed.

(** The tip or a successor of it is not worse than the tip. *)
Lemma successor_not_outranked s t tip :
  grows (entries s) -> ancestor (entries s) tip t -> ~ outranks s tip t.
Proof.
  intros Hg [n Hw] (bt & b & Ht & Hb & Hbef). destruct (ancestor_work _ _ _ _ _ _ Hg Hb Hw Ht) as [->|Hlt].
  - simplify_eq. by eapply before_irrefl.
  - unfold before in Hbef. lia.
Qed.

(** ** Failed blocks *)

Lemma CheckForkWarningConditions_spec M ibd s tip :
  tree_ok s -> tallied M s -> Tip (m_chain s) = Some tip ->
  exists ft f1 f2, CheckForkWarningConditions ibd s = Ok (set_warnings ft (pindexBestForkBase s) f1 f2 s) /\ (ft = None \/ ft = pindexBestForkTip s).
Proof.
  intros Hs Ht Htip. pose proof (tree_best s Hs) as Hb. rewrite !Forall_cons_iff in Hb. destruct Hb as (_ & Hb2 & Hb3 & _ & _).
  unfold CheckForkWarningConditions. destruct ibd; [exists (pindexBestForkTip s), (fLargeWorkForkFound s), (fLargeWorkInvalidChainFound s); split; [by destruct s|by right]|].
  rewrite deref_opt_spec by done. cbn [obind]. set (ft := match _ with Some b => _ | None => None end).
  assert (Hft : ft = None \/ ft = pindexBestForkTip s) by (unfold ft; destruct (_ ≫= _); [destruct (_ <=? _)|]; auto).
  set (warn := match ft, pindexBestInvalid s with Some _, _ => _ | None, None => _ | None, Some p => _ end).
  assert (Hw : exists w, warn = Ok w).
  { unfold warn. destruct ft; [by eexists|]. destruct (pindexBestInvalid s) as [p|] eqn:E; [|by eexists]. destruct (Hb2 p eq_refl) as [bi Hbi].
    destruct (chain_tip_present s tip Hs Htip) as [bt Hbt]. unfold deref. rewrite Hbi, Htip. cbn [of_option obind]. rewrite Hbt. cbn [of_option obind].
    destruct (GetBlockProof_spec bt) as (proof & -> & _); [by destruct (Ht _ _ Hbt)|]. by eexists. }
  destruct Hw as [w ->]. cbn [obind]. destruct w; [|by do 3 eexists]. destruct ft; [|by do 3 eexists]. destruct (pindexBestForkBase s); by do 3 eexists.
Qed.

Lemma failed_valid b : failed (set_nStatus b (Z.lor (nStatus b) BLOCK_FAILED_VALID)) = true.
Proof.
  unfold failed. cbn [set_nStatus nStatus]. apply negb_true_iff, Z.eqb_neq. intros H.
  assert (Hb : Z.testbit (Z.land (Z.lor (nStatus b) BLOCK_FAILED_VALID) BLOCK_FAILED_MASK) 5 = false) by (by rewrite H, Z.bits_0).
  rewrite Z.land_spec, Z.lor_spec in Hb. by rewrite orb_true_r in Hb.
Qed.

Lemma invalid_valid b : invalid (set_nStatus b (Z.lor (nStatus b) BLOCK_FAILED_VALID)) = true.
Proof.
  unfold invalid. cbn [set_nStatus nStatus]. apply negb_true_iff, Z.eqb_neq. intros H.
  assert (Hb : Z.testbit (Z.land (Z.lor (nStatus b) BLOCK_FAILED_VALID) BLOCK_FAILED_VALID) 5 = false) by (by rewrite H, Z.bits_0).
  rewrite Z.land_spec, Z.lor_spec in Hb. by rewrite orb_true_r in Hb.
Qed.

Lemma tree_bests s o ft f1 f2 :
  tree_ok s -> (forall p, o = Some p -> present s p) -> (ft = None \/ ft = pindexBestForkTip s) ->
  tree_ok (set_warnings ft (pindexBestForkBase s) f1 f2 (set_best_invalid o s)).
Proof.
  intros Hs Ho Hft. eapply tree_restatus; [exact Hs|done|done|done|by left|by left|apply Hs|].
  pose proof (tree_best s Hs) as Hb. rewrite !Forall_cons_iff in Hb. destruct Hb as (Hb1 & _ & Hb3 & Hb4 & _).
  repeat constructor; [done|done| |done]. cbn. by destruct Hft as [-> | ->].
Qed.

Lemma InvalidChainFound_spec M ibd p s tip :
  tree_ok s -> tallied M s -> present s p -> Tip (m_chain s) = Some tip ->
  exists o ft f1 f2, let s' := set_warnings ft (pindexBestForkBase s) f1 f2 (set_best_invalid o s) in
    InvalidChainFound ibd p s = Ok s' /\ tree_ok s'.
Proof.
  intros Hs Ht [b Hp] Htip. pose proof (tree_best s Hs) as Hbest. rewrite !Forall_cons_iff in Hbest. destruct Hbest as (_ & Hb2 & _).
  unfold InvalidChainFound, deref. rewrite Hp. cbn [of_option obind]. rewrite deref_opt_spec by exact Hb2. cbn [obind].
  match goal with |- context [if ?c then set_best_invalid _ _ else _] => set (better := c) end.
  set (o := if better then Some p else pindexBestInvalid s).
  replace (if better then set_best_invalid (Some p) s else s) with (set_best_invalid o s) by (unfold o; destruct better; [done|by destruct s]).
  assert (Ho : forall q, o = Some q -> present s q) by (unfold o; destruct better; [intros q [= <-]; by exists b|done]).
  cbn [m_chain set_best_invalid]. rewrite Htip. cbn [of_option obind].
  assert (Hs2 : tree_ok (set_best_invalid o s)) by exact (tree_bests s o (pindexBestForkTip s) _ _ Hs Ho (or_intror eq_refl)).
  destruct (CheckForkWarningConditions_spec M ibd (set_best_invalid o s) tip Hs2 Ht Htip) as (ft & f1 & f2 & -> & Hft).
  exists o, ft, f1, f2. split; [done|by apply tree_bests].
Qed.

Lemma InvalidBlockFound_spec M ibd p state s tip :
  tree_ok s -> tallied M s -> present s p -> Tip (m_chain s) = Some tip -> m_reason state <> BLOCK_MUTATED ->
  exists s', InvalidBlockFound ibd p state s = Ok s' /\ tree_ok s' /\ restatus (entries s) (entries s') /\ m_chain s' = m_chain s /\
    p ∈ m_failed_blocks s' /\ setBlockIndexCandidates s' = setBlockIndexCandidates s ∖ {[p]} /\
    exists b', entries s' !! p = Some b' /\ failed b' = true.
Proof.
  intros Hs Ht [b Hp] Htip Hm.
  assert (E : InvalidBlockFound ibd p state s = (s <-! update p (fun b => set_nStatus b (Z.lor (nStatus b) BLOCK_FAILED_VALID)) s ;
    InvalidChainFound ibd p (set_candidates (fun c => c ∖ {[p]}) (set_dirty p (set_failed (union {[p]}) s))))).
  { unfold InvalidBlockFound. by destruct (m_reason state). }
  rewrite E. unfold update, deref. rewrite Hp. cbn [of_option obind]. set (b' := set_nStatus _ _). set (s1 := set_candidates _ _).
  assert (Hr : restatus (entries s) (entries s1)) by (by apply restatus_insert).
  assert (Hs1 : tree_ok s1).
  { eapply tree_restatus; [exact Hs|exact Hr|done|done|intros x Hx; left; by apply elem_of_difference in Hx as [Hx _]|by left| |apply Hs].
    intros x Hx. change (x ∈ {[p]} ∪ m_failed_blocks s) in Hx. change (entries s1) with (<[p := b']> (entries s)).
    destruct (decide (p = x)) as [<-|Hne]; [rewrite lookup_insert_eq; exists b'; split; [done|apply invalid_valid]|]. rewrite lookup_insert_ne by done.
    apply elem_of_union in Hx as [->%elem_of_singleton|Hx]; [done|]. by apply (tree_failed s Hs). }
  assert (Hp1 : entries s1 !! p = Some b') by apply lookup_insert_eq.
  destruct (InvalidChainFound_spec M ibd p s1 tip Hs1) as (o & ft & f1 & f2 & -> & Hs2); [by apply (tallied_restatus M s)|by exists b'|done|].
  eexists. split; [done|]. split_and!; [done|done|done|by cbn; apply elem_of_union_l, elem_of_singleton|done|].
  exists b'. split; [done|apply failed_valid].
Qed.

(** ** Reset failures *)

Lemma clear_failed_spec b : failed (clear_failed b) = false.
Proof. unfold failed, clear_failed. cbn [set_nStatus nStatus]. rewrite <- Z.land_assoc. change (Z.land (u32 (Z.lnot BLOCK_FAILED_MASK)) BLOCK_FAILED_MASK) with 0. by rewrite Z.land_0_r. Qed.

Definition sound (s : ChainState) (p : ptr) : Prop := exists b, entries s !! p = Some b /\ failed b = false.

(** [s'] is [s] with fewer entries failed. *)
Record unfails (s s' : ChainState) : Prop := {
  unfails_entries : restatus (entries s) (entries s');
  unfails_chain : m_chain s' = m_chain s;
  unfails_index : m_block_index s' = m_block_index s;
  unfails_unlinked : m_blocks_unlinked s' = m_blocks_unlinked s;
  unfails_failed : m_failed_blocks s' ⊆ m_failed_blocks s;
  unfails_marks : forall p, p ∈ m_failed_blocks s' -> entries s' !! p = entries s !! p;
  unfails_sound : forall p, sound s p -> sound s' p;
  unfails_candidates : setBlockIndexCandidates s ⊆ setBlockIndexCandidates s';
  unfails_connected : forall p, p ∈ setBlockIndexCandidates s' -> p ∈ setBlockIndexCandidates s \/ connected s p;
  unfails_bests : pindexBestHeader s' = pindexBestHeader s /\ pindexBestForkTip s' = pindexBestForkTip s /\ pindexBestForkBase s' = pindexBestForkBase s /\
    (pindexBestInvalid s' = pindexBestInvalid s \/ pindexBestInvalid s' = None)
}.

Lemma unfails_refl s : unfails s s.
Proof. split; try done; [by left|by auto]. Qed.

Lemma connected_restatus s s' p : restatus (entries s) (entries s') -> connected s' p -> connected s p.
Proof. intros H (b' & Hp & Hn). destruct (restatus_back _ _ _ _ H Hp) as (b & z & Hb & ->). by exists b. Qed.

Lemma unfails_trans s1 s2 s3 : unfails s1 s2 -> unfails s2 s3 -> unfails s1 s3.
Proof.
  intros [R1 C1 I1 U1 F1 G1 S1 K1 N1 (A1 & B1 & D1 & E1)] [R2 C2 I2 U2 F2 G2 S2 K2 N2 (A2 & B2 & D2 & E2)].
  split; [by etrans|congruence|congruence|congruence|by etrans|intros p Hp; rewrite G2, G1; auto|by auto|by etrans| |split_and!; [congruence..|]].
  - intros p [Hp|Hp]%N2; [by apply N1|right; by eapply connected_restatus].
  - destruct E2 as [-> | ->]; auto.
Qed.

Lemma unfails_tree s s' : tree_ok s -> unfails s s' -> tree_ok s'.
Proof.
  intros Hs [R C I U F G _ _ N (A & B & D & E)]. pose proof (tree_best s Hs) as Hb. rewrite !Forall_cons_iff in Hb. destruct Hb as (Hb1 & Hb2 & Hb3 & Hb4 & _).
  eapply tree_restatus; [exact Hs|exact R|exact C|exact I|exact N|by rewrite U; left| |].
  { eapply marked_mono; [apply Hs|exact F|]. intros x b Hx Hb Hi. exists b. by rewrite G. }
  rewrite A, B, D. repeat constructor; [done| |done|done]. by destruct E as [-> | ->].
Qed.

Lemma unfails_clear s p b cand (bi : bool) :
  entries s !! p = Some b -> (forall x, x ∈ cand -> x = p) -> (cand = ∅ \/ connected s p) ->
  let s1 := set_candidates (union cand) (set_dirty p (set_entries (insert p (clear_failed b)) s)) in
  let s2 := set_failed (fun f => f ∖ {[p]}) (if bi then set_best_invalid None s1 else s1) in
  unfails s s2 /\ sound s2 p.
Proof.
  intros Hp Hc Hcon s1 s2. assert (E : entries s2 = <[p := clear_failed b]> (entries s)) by (unfold s2; by destruct bi).
  assert (Hsound : sound s2 p) by (exists (clear_failed b); rewrite E, lookup_insert_eq; split; [done|apply clear_failed_spec]).
  split; [|done]. split.
  - rewrite E. by apply restatus_insert.
  - unfold s2. by destruct bi.
  - unfold s2. by destruct bi.
  - unfold s2. by destruct bi.
  - unfold s2. destruct bi; cbn; apply subseteq_difference_l; reflexivity.
  - intros x Hx. rewrite E. apply lookup_insert_ne. intros <-. unfold s2 in Hx. destruct bi; cbn in Hx; by apply elem_of_difference in Hx as [_ []%not_elem_of_singleton].
  - intros x Hx. destruct (decide (x = p)) as [->|Hne]; [done|]. unfold sound in *. by rewrite E, lookup_insert_ne.
  - unfold s2. destruct bi; cbn; apply union_subseteq_r.
  - intros x Hx. assert (Hx' : x ∈ cand ∪ setBlockIndexCandidates s) by (unfold s2 in Hx; by destruct bi).
    apply elem_of_union in Hx' as [Hx'|]; [right|by left]. rewrite (Hc x Hx'). destruct Hcon as [->|]; [by apply elem_of_empty in Hx'|done].
  - unfold s2. destruct bi; cbn; by auto.
Qed.

Lemma IsValid_sound b : exists r, IsValid b BLOCK_VALID_TRANSACTIONS = Ok r /\ (r = true -> failed b = false).
Proof.
  unfold IsValid. change (negb (Z.land BLOCK_VALID_TRANSACTIONS (u32 (Z.lnot BLOCK_VALID_MASK)) =? 0)) with false. cbv iota. fold (failed b).
  destruct (failed b); by eexists.
Qed.

Lemma reset_entry_spec s tip p h x b :
  tree_ok s -> Tip (m_chain s) = Some tip -> entries s !! x = Some b ->
  exists s', reset_entry p h x s = Ok s' /\ unfails s s' /\
    (0 <= h <= Chain.nHeight b -> walk (entries s) (Z.to_nat (Chain.nHeight b - h)) x = Some p -> sound s' x).
Proof.
  intros Hs Htip Hx. unfold reset_entry. unfold deref at 1. rewrite Hx. cbn [of_option obind].
  destruct (IsValid_sound b) as (r & -> & Hr). cbn [obind]. destruct r; [exists s; split_and!; [done|apply unfails_refl|by exists b; auto]|].
  rewrite (GetAncestor_spec _ _ _ _ (tree_wf s Hs) Hx). cbn [obind]. case_bool_decide as Ha; cbn [negb].
  2: { exists s. split_and!; [done|apply unfails_refl|]. intros Hh Hw. destruct Ha. destruct (Z.ltb_spec (Chain.nHeight b) h), (Z.ltb_spec h 0); try lia. done. }
  clear Ha. set (b' := clear_failed b). set (s1 := set_dirty x _). destruct (IsValid_sound b') as (r & -> & _). cbn [obind].
  assert (E1 : entries s1 = <[x := b']> (entries s)) by done. change (m_chain s1) with (m_chain s). rewrite Htip. cbn [of_option obind].
  assert (Hbet : exists better, (if r && HaveTxsDownloaded b' then WorkComparator s1 tip x else Ok false) = Ok better /\ (better = true -> connected s x)).
  { destruct (r && HaveTxsDownloaded b') eqn:Et; [|by exists false]. apply andb_true_iff in Et as [_ Et].
    assert (Hr1 : restatus (entries s) (entries s1)) by (by apply restatus_insert).
    destruct (chain_tip_present s tip Hs Htip) as [bt Hbt]. destruct (restatus_lookup _ _ _ _ Hr1 Hbt) as [z Hbt'].
    destruct (WorkComparator_spec s1 tip x (set_nStatus bt z) b') as (better & -> & _); [|exact Hbt'|by rewrite E1, lookup_insert_eq|].
    - rewrite E1. apply map_Forall_insert_2; [exact (tree_work s Hs x b Hx)|apply Hs].
    - exists better. split; [done|]. intros _. exists b. split; [done|]. unfold HaveTxsDownloaded in Et. bool_to_prop. exact Et. }
  destruct Hbet as (better & -> & Hbet). cbn [obind]. eexists. split; [reflexivity|].
  replace (if better then set_candidates (union {[x]}) s1 else s1) with (set_candidates (union (if better then {[x]} else ∅)) s1)
    by (destruct better; [done|]; unfold s1, set_candidates; cbn; by rewrite (left_id_L ∅ (∪))).
  destruct (unfails_clear s x b (if better then {[x]} else ∅) (bool_decide (pindexBestInvalid s = Some x)) Hx) as [Hu Hsound].
  - intros y. destruct better; set_solver.
  - destruct better; [right; by apply Hbet|by left].
  - by split.
Qed.

Lemma restatus_walk st st' n p : restatus st st' -> walk st' n p = walk st n p.
Proof. intros H. by apply same_tree_walk, restatus_same_tree. Qed.

Lemma reset_entries_spec p h l s tip :
  tree_ok s -> Tip (m_chain s) = Some tip -> Forall (present s) l ->
  exists s', reset_entries p h l s = Ok s' /\ unfails s s' /\
    forall x b, x ∈ l -> entries s !! x = Some b -> 0 <= h <= Chain.nHeight b -> walk (entries s) (Z.to_nat (Chain.nHeight b - h)) x = Some p -> sound s' x.
Proof.
  revert s. induction l as [|y l IH]; intros s Hs Htip Hl; cbn [reset_entries].
  { exists s. split_and!; [done|apply unfails_refl|]. by intros x b ?%elem_of_nil. }
  apply Forall_cons in Hl as [[by_ Hy] Hl]. destruct (reset_entry_spec s tip p h y by_ Hs Htip Hy) as (s1 & -> & H1 & Hs1). cbn [obind].
  destruct (IH s1) as (s' & -> & H2 & Hall).
  - by eapply unfails_tree.
  - by rewrite (unfails_chain _ _ H1).
  - eapply Forall_impl; [exact Hl|]. intros x [bx Hx]. destruct (restatus_lookup _ _ _ _ (unfails_entries _ _ H1) Hx) as [z Hz]. by eexists.
  - exists s'. split_and!; [done|by eapply unfails_trans|]. intros x b [->|Hin]%elem_of_cons Hx Hh Hw.
    + apply (unfails_sound _ _ H2). simplify_eq. by apply Hs1.
    + destruct (restatus_lookup _ _ _ _ (unfails_entries _ _ H1) Hx) as [z Hz]. eapply (Hall x _ Hin Hz); [done|].
      by rewrite (restatus_walk _ _ _ _ (unfails_entries _ _ H1)).
Qed.

Lemma reset_ancestors_spec fuel o s :
  tree_ok s -> (forall p, o = Some p -> exists b, entries s !! p = Some b /\ (Z.to_nat (Chain.nHeight b) < fuel)%nat) ->
  exists s', reset_ancestors fuel o s = Ok s' /\ unfails s s' /\ forall p n x, o = Some p -> walk (entries s) n p = Some x -> sound s' x.
Proof.
  revert o s. induction fuel as [|fuel IH]; intros [p|] s Hs Ho; cbn [reset_ancestors];
    try (exists s; split_and!; [done|apply unfails_refl|done]); destruct (Ho p eq_refl) as (b & Hp & Hf); [lia|].
  unfold deref. rewrite Hp. cbn [of_option obind]. set (s1 := if failed b then _ else s).
  assert (H1 : unfails s s1 /\ sound s1 p).
  { unfold s1. destruct (failed b) eqn:Ef; [|by split; [apply unfails_refl|exists b]].
    destruct (unfails_clear s p b ∅ false Hp) as [Hu Hsd]; [set_solver|by left|].
    replace (set_candidates (union ∅) (set_dirty p (set_entries (insert p (clear_failed b)) s))) with (set_dirty p (set_entries (insert p (clear_failed b)) s)) in Hu, Hsd
      by (unfold set_candidates; cbn; by rewrite (left_id_L ∅ (∪))). by split. }
  destruct H1 as [H1 Hsd]. pose proof (wf_pprev _ _ _ (tree_wf s Hs _ _ Hp)) as Hprev.
  destruct (IH (pprev b) s1) as (s' & -> & H2 & Hall).
  - by eapply unfails_tree.
  - intros q Hq. rewrite Hq in Hprev. destruct Hprev as (bq & Hbq & Hh). destruct (restatus_lookup _ _ _ _ (unfails_entries _ _ H1) Hbq) as [z Hz].
    eexists. split; [exact Hz|]. cbn. pose proof (wf_height _ _ _ (tree_wf s Hs _ _ Hbq)). lia.
  - exists s'. split_and!; [done|by eapply unfails_trans|]. intros y [|n] x [= <-] Hw; [injection Hw as <-; by apply (unfails_sound _ _ H2)|].
    rewrite (walk_step _ _ _ _ Hp) in Hw. destruct (pprev b) as [q|]; [|done]. eapply (Hall q n x eq_refl). by rewrite (restatus_walk _ _ _ _ (unfails_entries _ _ H1)).
Qed.

Definition relative (st : gmap ptr CBlockIndex) (p x : ptr) : Prop := ancestor st p x \/ ancestor st x p.

Lemma ResetBlockFailureFlags_spec s tip p :
  tree_ok s -> Tip (m_chain s) = Some tip -> present s p ->
  exists s', ResetBlockFailureFlags p s = Ok s' /\ unfails s s' /\ forall x, present s x -> relative (entries s) p x -> sound s' x.
Proof.
  intros Hs Htip [b Hp]. unfold ResetBlockFailureFlags, deref. rewrite Hp. cbn [of_option obind].
  set (l := map snd (map_to_list (m_block_index s))).
  assert (Hl : forall x, x ∈ l <-> present s x).
  { intros x. unfold l. rewrite list_elem_of_In, in_map_iff. setoid_rewrite <- list_elem_of_In. split.
    - intros ([h y] & <- & (bx & Hx & _)%elem_of_map_to_list%(tree_index s Hs)). by exists bx.
    - intros [bx Hx]. destruct (wf_hash _ _ _ (tree_wf s Hs _ _ Hx)) as [h Hh]. exists (h, x). split; [done|].
      apply elem_of_map_to_list, (tree_index s Hs). by exists bx. }
  destruct (reset_entries_spec p (Chain.nHeight b) l s tip Hs Htip) as (s1 & -> & H1 & Hd).
  { apply Forall_forall. intros x. by rewrite Hl. }
  cbn [obind]. destruct (restatus_lookup _ _ _ _ (unfails_entries _ _ H1) Hp) as [z Hz].
  destruct (reset_ancestors_spec (S (Z.to_nat (Chain.nHeight b))) (Some p) s1) as (s' & -> & H2 & Ha).
  - by eapply unfails_tree.
  - intros q [= <-]. eexists. split; [exact Hz|]. cbn. lia.
  - exists s'. split_and!; [done|by eapply unfails_trans|]. intros x [bx Hx] [[n Hw]|[n Hw]].
    + apply (unfails_sound _ _ H2). destruct (walk_inv _ _ _ _ _ (tree_wf s Hs) Hx Hw) as (Hn & b' & Hb' & Hh). simplify_eq.
      eapply Hd; [by apply Hl; exists bx|done|pose proof (wf_height _ _ _ (tree_wf s Hs _ _ Hp)); lia|].
      replace (Z.to_nat _) with n by lia. done.
    + eapply (Ha p n x eq_refl). by rewrite (restatus_walk _ _ _ _ (unfails_entries _ _ H1)).
Qed.

(** A new sequence number, and another set of candidates *)
Lemma resequence_tree s p b seq c (n r : Z) w :
  tree_ok s -> entries s !! p = Some b -> (forall x, x ∈ c -> x ∈ setBlockIndexCandidates s \/ x = p /\ nChainTx b <> 0) ->
  let s1 := set_sequence n r w (set_entries (insert p (set_connected (nChainTx b) seq b)) (set_candidates (fun _ => c) s)) in
  tree_ok s1 /\ forall x bx, entries s !! x = Some bx -> exists q, entries s1 !! x = Some (set_connected (nChainTx bx) q bx).
Proof.
  intros Hs Hp Hc s1. set (b' := set_connected (nChainTx b) seq b) in s1. assert (E1 : entries s1 = <[p := b']> (entries s)) by done.
  assert (Hent : forall x bx, entries s !! x = Some bx -> exists q, entries s1 !! x = Some (set_connected (nChainTx bx) q bx)).
  { intros x bx Hx. rewrite E1. destruct (decide (p = x)) as [<-|]; [rewrite lookup_insert_eq; exists seq; by simplify_eq|].
    rewrite lookup_insert_ne by done. exists (nSequenceId bx). rewrite Hx. by destruct bx. }
  assert (Hold : forall x bx, entries s1 !! x = Some bx -> exists bo, entries s !! x = Some bo /\ nChainTx bo = nChainTx bx /\ pprev bo = pprev bx).
  { intros x bx Hx. rewrite E1 in Hx. apply lookup_insert_Some in Hx as [[<- <-]|[_ Hx]]; by eexists. }
  split; [|done]. eapply tree_reshape; [exact Hs|by apply (same_tree_insert _ _ b)| | |done|done| |by left| |apply Hs].
  - apply map_Forall_insert_2; [exact (tree_work s Hs p b Hp)|apply Hs].
  - intros x bx q bq Hx Hn Hq Hbq. destruct (Hold _ _ Hx) as (xo & Hxo & En & Ep), (Hold _ _ Hbq) as (qo & Hqo & Eq & _). rewrite <- Eq.
    apply (tree_downloaded s Hs x xo q qo); congruence.
  - intros x Hx. destruct (Hc x Hx) as [(bx & Hbx & Hn)%(tree_candidates s Hs)|[-> Hn]].
    + destruct (Hent x bx Hbx) as [q Hq]. eexists. by split.
    + exists b'. by rewrite E1, lookup_insert_eq.
  - eapply marked_mono; [apply Hs|done|]. intros x bx _ Hx Hi. destruct (Hent x bx Hx) as [q Hq]. by eexists.
Qed.

Lemma PreciousBlock_spec s tip t p :
  tree_ok s -> grows (entries s) -> Tip (m_chain s) = Some tip -> t ∈ setBlockIndexCandidates s -> ancestor (entries s) tip t ->
  present s p ->
  exists s', PreciousBlock p s = Ok s' /\ tree_ok s' /\ same_tree (entries s) (entries s') /\ m_chain s' = m_chain s /\
    forall x b, entries s !! x = Some b -> exists seq, entries s' !! x = Some (set_connected (nChainTx b) seq b).
Proof.
  intros Hs Hg Htip Hin [n Hw] [b Hp]. destruct (chain_tip_present s tip Hs Htip) as [bt Hbt].
  unfold PreciousBlock, deref. rewrite Hp. cbn [of_option obind]. rewrite Htip. cbn [of_option obind]. rewrite Hbt. cbn [of_option obind].
  destruct (ltb _ _); [exists s; split_and!; [done..|]; intros x bx Hx; exists (nSequenceId bx); rewrite Hx; by destruct bx|].
  set (seq := if gtb _ _ then -1 else _). set (b' := set_connected (nChainTx b) seq b). set (s1 := set_sequence _ _ _ _).
  set (c := setBlockIndexCandidates s) in *. assert (Hsame : same_tree (entries s) (entries s1)) by (by apply (same_tree_insert _ _ b)).
  assert (Htree : forall c', (forall x, x ∈ c' -> x ∈ c \/ x = p /\ nChainTx b <> 0) -> tree_ok (set_candidates (fun _ => c') s1) /\
    forall x bx, entries s !! x = Some bx -> exists q, entries s1 !! x = Some (set_connected (nChainTx bx) q bx)) by (intros c' Hc'; exact (resequence_tree s p b seq c' _ _ _ Hs Hp Hc')).
  destruct (IsValid_returns b' BLOCK_VALID_TRANSACTIONS eq_refl) as [valid ->]. cbn [obind]. destruct (valid && HaveTxsDownloaded b') eqn:Ev.
  - apply andb_true_iff in Ev as [_ Ev]. unfold HaveTxsDownloaded in Ev. apply negb_true_iff, Z.eqb_neq in Ev.
    destruct (Htree ({[p]} ∪ c ∖ {[p]})) as [Hs2 Hent]; [intros x [->%elem_of_singleton|[Hx _]%elem_of_difference]%elem_of_union; auto|].
    change (tree_ok (set_candidates (union {[p]}) s1)) in Hs2.
    destruct (PruneBlockIndexCandidates_spec (set_candidates (union {[p]}) s1) tip t Hs2 Htip) as (s' & -> & Hs' & E' & Ec' & _).
    + apply elem_of_union. destruct (decide (t = p)) as [->|Hne]; [left; by apply elem_of_singleton|right].
      apply elem_of_difference. split; [done|]. by rewrite elem_of_singleton.
    + apply successor_not_outranked; [|exists n; change (entries (set_candidates _ s1)) with (entries s1); by rewrite (same_tree_walk _ _ _ _ Hsame)].
      eapply grows_keep; [exact Hsame| |exact Hg]. intros x bx Hx. destruct (Hent x bx Hx) as [q Hq]. by eexists.
    + exists s'. rewrite E', Ec'. by split_and!.
  - exists s1. destruct (Htree (c ∖ {[p]})) as [Hs2 Hent]; [intros x [Hx _]%elem_of_difference; by left|]. by split_and!.
Qed.

Lemma move_tip_spec s p :
  tree_ok s -> present s p -> exists s', move_tip p s = Ok s' /\ tree_ok s' /\ entries s' = entries s /\ Tip (m_chain s') = Some p.
Proof.
  intros Hs [b Hp]. destruct (SetTip_spec (entries s) (m_chain s) p b (tree_wf s Hs) (tree_chain s Hs) Hp) as (c & E & Hc).
  exists (set_chain c s). unfold move_tip. rewrite E. split_and!; [done| |done|by eapply chain_of_Tip; [apply Hs|]].
  destruct Hs. split; try done. right. by exists p, b.
Qed.

(** ** Sequences of operations *)

Inductive op :=
| OpHeader (block : CBlockHeader)
| OpBlock (params : Params) (block : CBlock) (pindex : ptr) (pos : FlatFilePos)
| OpMostWork
| OpPrune
| OpInvalid (IsInitialBlockDownload : bool) (pindex : ptr) (state : CValidationState)
| OpReset (pindex : ptr)
| OpPrecious (pindex : ptr)
| OpSetTip (pindex : ptr).

Definition run (o : op) (s : ChainState) : outcome ChainState :=
  match o with
  | OpHeader block => r <-! AddToBlockIndex block s ; Ok (snd r)
  | OpBlock params block pindex pos => ReceivedBlockTransactions params block pindex pos s
  | OpMostWork => r <-! FindMostWorkChain s ; Ok (snd r)
  | OpPrune => PruneBlockIndexCandidates s
  | OpInvalid ibd pindex state => InvalidBlockFound ibd pindex state s
  | OpReset pindex => ResetBlockFailureFlags pindex s
  | OpPrecious pindex => PreciousBlock pindex s
  | OpSetTip pindex => move_tip pindex s
  end.

(** The work of a header: its target inverted *)
Definition header_work (block : CBlockHeader) : Z := Chain.block_work (CBlockIndex_of_header block).

(** The tip or a successor of it is a candidate. *)
Definition target (s : ChainState) : Prop :=
  exists tip t, Tip (m_chain s) = Some tip /\ t ∈ setBlockIndexCandidates s /\ ancestor (entries s) tip t.

(** When the callers use an operation: a header whose entry, if it has a parent,
    adds some work that does not overflow; data of an entry that is not
    connected yet; pruning of candidates, in [PreciousBlock] too, with a
    candidate that the node works towards; and the rest on entries of the tree
    and with a tip. [M] bounds the transactions of a block. *)
Definition allowed (M : Z) (s : ChainState) (o : op) : Prop :=
  match o with
  | OpHeader block => in_u 32 (hdr_nBits block) /\ hashPrevBlock block <> header_GetHash block /\ 0 < M < 2 ^ 32 /\
      forall q bq, m_block_index s !! hashPrevBlock block = Some q -> entries s !! q = Some bq ->
        M * (Chain.nHeight bq + 2) < 2 ^ 32 /\ 0 < header_work block /\ val (nChainWork bq) + header_work block < 2 ^ 256
  | OpBlock params block pindex pos => 0 < Z.of_nat (length (vtx block)) <= M /\ exists b, entries s !! pindex = Some b /\ nChainTx b = 0
  | OpMostWork => True
  | OpPrune => target s
  | OpInvalid _ pindex _ => present s pindex /\ is_Some (Tip (m_chain s))
  | OpReset pindex => present s pindex /\ is_Some (Tip (m_chain s))
  | OpPrecious pindex => present s pindex /\ target s
  | OpSetTip pindex => present s pindex
  end.

Definition empty_state : ChainState :=
  mkChainState ∅ ∅ ∅ [] ∅ ∅ ∅ [] None None None None false false 1 (-1) (of_uint64 0).

Inductive reachable (M : Z) : ChainState -> Prop :=
| reach_empty : reachable M empty_state
| reach_step s o s' : reachable M s -> allowed M s o -> run o s = Ok s' -> reachable M s'.

Lemma tallied_new M s s' block p b :
  tree_ok s -> tallied M s -> entries s' = <[p := b]> (entries s) -> entries s !! p = None -> new_entry s block b -> allowed M s (OpHeader block) ->
  tallied M s'.
Proof.
  intros Hs Ht E Hp Hnew (Hbits & _ & HM & Hroom) x bx Hx. rewrite E in Hx. apply lookup_insert_Some in Hx as [[<- <-]|[Hne Hx]].
  - destruct Hnew as [_ Ep Eh _ _ (_ & Eb & _) _ (En & Etx & _)]. split; [by rewrite Eb|lia| |rewrite Etx|by rewrite Etx].
    all: destruct (pprev b) as [q|] eqn:Eq; cbn [mbind option_bind] in Eh; [|rewrite Eh; lia].
    all: symmetry in Ep; pose proof (proj1 (tree_index s Hs _ _) Ep) as (bq & Hq & _); rewrite Hq in Eh; destruct (Hroom q bq Ep Hq) as [Hroom' _];
      pose proof (wf_height _ _ _ (tree_wf s Hs _ _ Hq)); nia.
  - destruct (Ht x bx Hx) as [? ? ? ? Hsum]. split; [done..|]. intros Hnx. rewrite (Hsum Hnx). f_equal. destruct (pprev bx) as [q|] eqn:Eq; [|done].
    pose proof (wf_pprev _ _ _ (tree_wf s Hs _ _ Hx)) as Hprev. rewrite Eq in Hprev. destruct Hprev as (bq & Hq & _).
    cbn [mbind option_bind]. by rewrite E, lookup_insert_ne by congruence.
Qed.

Lemma grows_new M s s' block p b :
  tree_ok s -> grows (entries s) -> entries s' = <[p := b]> (entries s) -> entries s !! p = None -> new_entry s block b -> allowed M s (OpHeader block) ->
  grows (entries s').
Proof.
  intros Hs Hg E Hp Hnew (Hbits & _ & _ & Hroom) x bx q bq Hx Hq Hbq. rewrite E in Hx, Hbq.
  destruct (decide (q = p)) as [->|Hne].
  { exfalso. apply lookup_insert_Some in Hx as [[<- <-]|[Hne Hx]].
    - symmetry in Hq. rewrite (new_pprev _ _ _ Hnew) in Hq. symmetry in Hq. apply (tree_index s Hs) in Hq as (y & Hy & _). congruence.
    - pose proof (wf_pprev _ _ _ (tree_wf s Hs _ _ Hx)) as Hprev. rewrite Hq in Hprev. destruct Hprev as (y & Hy & _). congruence. }
  rewrite lookup_insert_ne in Hbq by done. apply lookup_insert_Some in Hx as [[<- <-]|[_ Hx]]; [|exact (Hg x bx q bq Hx Hq Hbq)].
  destruct (new_work _ _ _ Hnew) as (_ & proof & Ep & ->). rewrite Hq. cbn [mbind option_bind]. rewrite Hbq.
  destruct (new_header _ _ _ Hnew) as (_ & Eb & _).
  rewrite (new_pprev _ _ _ Hnew) in Hq. destruct (Hroom q bq Hq Hbq) as (_ & Hpos & Hlt).
  destruct (GetBlockProof_spec b) as (w & Ew & _ & Hw); [by rewrite Eb|]. rewrite Ep in Ew. injection Ew as <-.
  assert (Hwork : val proof = header_work block) by (rewrite Hw; unfold header_work, Chain.block_work; by rewrite Eb).
  pose proof (val_wf _ (tree_work s Hs q bq Hbq)). rewrite Z.mod_small; lia.
Qed.

Lemma restatus_keeps st st' : restatus st st' -> keeps_work st st'.
Proof. intros Hr p b Hp. destruct (restatus_lookup _ _ _ _ Hr Hp) as [z Hz]. by eexists. Qed.

Lemma grows_restatus st st' : restatus st st' -> grows st -> grows st'.
Proof. intros Hr. apply grows_keep; [by apply restatus_same_tree|by apply restatus_keeps]. Qed.

Lemma tallied_resequenced M s s' :
  tree_ok s -> tallied M s -> same_tree (entries s) (entries s') ->
  (forall x b, entries s !! x = Some b -> exists q, entries s' !! x = Some (set_connected (nChainTx b) q b)) -> tallied M s'.
Proof.
  intros Hs Ht Htree Hent x bx' Hx'. symmetry in Htree. destruct (same_tree_lookup _ _ _ _ Htree Hx') as (bx & Hx & _).
  destruct (Hent x bx Hx) as [q Hq]. rewrite Hx' in Hq. injection Hq as ->. destruct (Ht x bx Hx) as [? ? ? ? Hsum]. split; [done..|].
  cbn [nChainTx nTx pprev set_connected]. intros Hn. rewrite (Hsum Hn). f_equal. destruct (pprev bx) as [y|] eqn:Ey; [|done].
  pose proof (wf_pprev _ _ _ (tree_wf s Hs _ _ Hx)) as Hprev. rewrite Ey in Hprev. destruct Hprev as (by_ & Hy & _).
  cbn [mbind option_bind]. destruct (Hent y by_ Hy) as [q' ->]. by rewrite Hy.
Qed.

#[global] Instance reason_eq_dec : EqDecision ValidationInvalidReason.
Proof. solve_decision. Defined.

(** What holds of every state *)
Record node_tree (M : Z) (s : ChainState) : Prop := {
  node_tree_ok : tree_ok s;
  node_tallied : tallied M s;
  node_grows : grows (entries s)
}.

Lemma node_restatus M s s' : node_tree M s -> tree_ok s' -> restatus (entries s) (entries s') -> node_tree M s'.
Proof. intros [_ Ht Hg] Hs' Hr. split; [done|by eapply tallied_restatus|by eapply grows_restatus]. Qed.

(** Every allowed operation returns and keeps the invariant. *)
Lemma run_spec M s o :
  node_tree M s -> allowed M s o -> exists s', run o s = Ok s' /\ node_tree M s'.
Proof.
  intros Hn Ha. pose proof Hn as [Hs Ht Hg]. destruct o as [block|params block p pos| | |ibd p state|p|p|p]; cbn [run].
  - destruct (AddToBlockIndex_spec s block Hs) as (p & s' & -> & Hs' & _ & _ & Hnew); [apply Ha|apply Ha|]. exists s'. split; [done|].
    destruct (m_block_index s !! header_GetHash block); [by subst s'|]. destruct Hnew as (b & E & Hp & Hb).
    split; [done|exact (tallied_new M s s' block p b Hs Ht E Hp Hb Ha)|exact (grows_new M s s' block p b Hs Hg E Hp Hb Ha)].
  - destruct Ha as (Hlen & b & Hp & H0). destruct (ReceivedBlockTransactions_spec M params block p pos s b Hs Ht Hp H0 Hlen) as (s' & -> & H).
    exists s'. split; [done|]. split; [apply H|apply H|]. eapply grows_keep; [apply H|apply H|done].
  - destruct (FindMostWorkChain_spec s Hs) as (r & s' & -> & Hs' & Hr & _). exists s'. split; [done|]. by eapply node_restatus, narrows_restatus.
  - destruct Ha as (tip & t & Htip & Hin & Hanc).
    destruct (PruneBlockIndexCandidates_spec s tip t Hs Htip Hin (successor_not_outranked s t tip Hg Hanc)) as (s' & -> & Hs' & E & _).
    exists s'. split; [done|]. eapply node_restatus; [exact Hn|done|by rewrite E].
  - destruct Ha as [Hp [tip Htip]]. destruct (decide (m_reason state = BLOCK_MUTATED)) as [E|E]; [exists s; unfold InvalidBlockFound; by rewrite E|].
    destruct (InvalidBlockFound_spec M ibd p state s tip Hs Ht Hp Htip E) as (s' & -> & Hs' & Hr & _). exists s'. split; [done|]. by eapply node_restatus.
  - destruct Ha as [Hp [tip Htip]]. destruct (ResetBlockFailureFlags_spec s tip p Hs Htip Hp) as (s' & -> & Hu & _).
    exists s'. split; [done|]. eapply node_restatus; [exact Hn|by eapply unfails_tree|apply Hu].
  - destruct Ha as [Hp (tip & t & Htip & Hin & Hanc)]. destruct (PreciousBlock_spec s tip t p Hs Hg Htip Hin Hanc Hp) as (s' & -> & Hs' & Htree & _ & Hent).
    exists s'. split; [done|]. split; [done|exact (tallied_resequenced M s s' Hs Ht Htree Hent)|].
    eapply grows_keep; [exact Htree| |done]. intros x b Hx. destruct (Hent x b Hx) as [q Hq]. by eexists.
  - destruct (move_tip_spec s p Hs Ha) as (s' & -> & Hs' & E & _). exists s'. split; [done|]. eapply node_restatus; [exact Hn|done|by rewrite E].
Qed.

Lemma reachable_node M s : reachable M s -> node_tree M s.
Proof.
  induction 1 as [|s o s' _ Hn Ha Hrun].
  - split; [|by intros p b Hp|by intros p b q bq Hp]. split; try done; [by left|by intros q p ?%elem_of_nil| |].
    + intros hash p. split; [done|]. by intros (b & Hb & _).
    + by repeat constructor.
  - destruct (run_spec M s o Hn Ha) as (s2 & Hrun2 & H). rewrite Hrun in Hrun2. by injection Hrun2 as <-.
Qed.

Lemma reachable_ok M s : reachable M s -> tree_ok s /\ tallied M s.
Proof. intros Hr. destruct (reachable_node M s Hr). by split. Qed.

(** * Properties *)

(** C9: every state reached from the empty one by taking headers, receiving
    block data, searching the best chain, pruning candidates, marking and
    resetting failures, calling [PreciousBlock] and moving the tip, in any order
    in which each operation is [allowed], satisfies the invariant of the tree
    (heights, work and skip pointers fit together, the active chain is a branch,
    candidates are connected, the index names every entry once), the one of the
    transaction counts, and has more work on every step up; and every allowed
    operation returns there: none trips an assertion, reads a null pointer or
    runs out of fuel. Allowed are: a header that does not name itself as its parent and
    whose entry fits the widths and, on a parent, adds positive work without
    overflow; data of 1 to [M] transactions for an entry that is not connected
    yet (the data of a pruned block arriving again is not covered); pruning, and
    [PreciousBlock], while the tip or a successor of it is a candidate, as the
    comment at the assertion says; the others for entries of the tree, and where
    they need it with a tip. That candidates remain after pruning is then a
    consequence of the growth of the work. *)
Theorem reachable_states_are_trees M s :
  reachable M s ->
  tree_ok s /\ tallied M s /\ grows (entries s) /\ forall o, allowed M s o -> exists s', run o s = Ok s' /\ reachable M s'.
Proof.
  intros Hr. pose proof (reachable_node M s Hr) as Hn. pose proof Hn as [Hs Ht Hg]. split_and!; [done|done|done|]. intros o Ha.
  destruct (run_spec M s o Hn Ha) as (s' & E & _). exists s'. split; [done|]. by eapply reach_step.
Qed.

(** C10: [FindMostWorkChain] returns, and what it returns is the best usable
    candidate: every entry back to the active chain has its data and has not
    failed, and no other usable candidate has more work, or as much work and
    an earlier sequence number.  It returns null only if no candidate is
    usable. What is usable and the active chain are left as they were. *)
Theorem FindMostWorkChain_finds_best s :
  tree_ok s ->
  exists r s', FindMostWorkChain s = Ok (r, s') /\ tree_ok s' /\ m_chain s' = m_chain s /\ (forall p, usable s' p <-> usable s p) /\
    match r with
    | None => forall q, q ∈ setBlockIndexCandidates s -> ~ usable s q
    | Some p => p ∈ setBlockIndexCandidates s /\ usable s p /\
        forall q, q ∈ setBlockIndexCandidates s -> usable s q -> ~ outranks s q p
    end.
Proof.
  intros Hs. destruct (FindMostWorkChain_spec s Hs) as (r & s' & E & Hs' & Hn & Hr). exists r, s'.
  split_and!; [done|done|apply Hn| |done]. intros p. by apply narrows_usable.
Qed.

(** C14: [ReceivedBlockTransactions] on the entry of a block of 1 to [M]
    transactions that is not connected yet returns and keeps the invariants.  The entry is connected
    when its parent is (or it has none), together with every entry that waited
    for it, and so on up the waiting entries; what became connected is a
    candidate unless the tip has at least its work; if nothing waited for a
    connected entry before, nothing does afterwards. The entry names its
    transactions and their place. *)
Theorem received_blocks_connect M params block p pos s b :
  tree_ok s -> tallied M s -> entries s !! p = Some b -> nChainTx b = 0 -> 0 < Z.of_nat (length (vtx block)) <= M ->
  exists s', ReceivedBlockTransactions params block p pos s = Ok s' /\ receives M s s' p b (Z.of_nat (length (vtx block))) pos.
Proof. apply ReceivedBlockTransactions_spec. Qed.

(** C24: after [ResetBlockFailureFlags] neither the block nor any of its ancestors
    and descendants is marked as failed; no entry becomes failed, no candidate
    is lost and the tree is intact. *)
Theorem reset_clears_failures s tip p :
  tree_ok s -> Tip (m_chain s) = Some tip -> present s p ->
  exists s', ResetBlockFailureFlags p s = Ok s' /\ tree_ok s' /\ unfails s s' /\
    forall x, present s x -> relative (entries s) p x -> sound s' x.
Proof.
  intros Hs Htip Hp. destruct (ResetBlockFailureFlags_spec s tip p Hs Htip Hp) as (s' & E & Hu & Hall). exists s'.
  split_and!; [done|by eapply unfails_tree|done|done].
Qed.

(** [AddToBlockIndex] finds the header's entry or makes it: one above
    the parent the index has for [hashPrevBlock], with the parent's work plus its own proof, and
    the rest of the tree as it was. *)
Theorem AddToBlockIndex_extends_tree s block :
  tree_ok s -> in_u 32 (hdr_nBits block) -> hashPrevBlock block <> header_GetHash block ->
  exists p s', AddToBlockIndex block s = Ok (p, s') /\ tree_ok s' /\ m_block_index s' !! header_GetHash block = Some p /\
    m_chain s' = m_chain s /\
    match m_block_index s !! header_GetHash block with
    | Some _ => s' = s
    | None => exists b, entries s' = <[p := b]> (entries s) /\ entries s !! p = None /\ new_entry s block b
    end.
Proof. apply AddToBlockIndex_spec. Qed.

(** ** Witnesses *)

(** The genesis block 1 and block 2 are active. Block 3 failed, 4 is its child;
    5 is a header only, and the data of its child 6 arrived. *)
Definition tree_index_entry (tag height : Z) (prev : option ptr) (work chainTx status : Z) : CBlockIndex :=
  mkBlockIndex (Some (repeat tag 32)) prev None None height 0 8 0 (of_uint64 work) (if status =? 2 then 0 else 1) chainTx status
    0x20000000 (repeat tag 32) (100 + tag) 0x1d00ffff 0 uint256_null uint256_null [] uint256_null
    outpoint_null uint256_null 0 tag (100 + tag).

Definition tree_entries : gmap ptr CBlockIndex :=
  <[1%positive := tree_index_entry 1 0 None 2 1 11]>
  (<[2%positive := tree_index_entry 2 1 (Some 1%positive) 4 2 11]>
  (<[3%positive := tree_index_entry 3 1 (Some 1%positive) 4 2 43]>
  (<[4%positive := tree_index_entry 4 2 (Some 3%positive) 6 3 11]>
  (<[5%positive := tree_index_entry 5 1 (Some 1%positive) 4 0 2]>
  (<[6%positive := tree_index_entry 6 2 (Some 5%positive) 6 0 11]> ∅))))).

Definition tree_index_map : gmap uint256 ptr :=
  <[repeat 1 32 := 1%positive]> (<[repeat 2 32 := 2%positive]> (<[repeat 3 32 := 3%positive]>
  (<[repeat 4 32 := 4%positive]> (<[repeat 5 32 := 5%positive]> (<[repeat 6 32 := 6%positive]> ∅))))).

Definition tree_state : ChainState :=
  mkChainState tree_entries tree_index_map {[3%positive]} [(5%positive, 6%positive)] {[2%positive; 4%positive]} ∅ ∅
    [Some 1%positive; Some 2%positive] (Some 4%positive) None None None false false 7 (-1) (of_uint64 0).

(** Case analysis on an entry of the example *)
Ltac each_entry H :=
  unfold tree_entries, tree_index_map in H;
  repeat (apply lookup_insert_Some in H as [[<- <-]|[_ H]]; [|]); [..|by rewrite lookup_empty in H].

Lemma tree_state_wf : wf_store tree_entries.
Proof.
  intros p b H. each_entry H; (split; [vm_compute; congruence|by eexists|try reflexivity; eexists; split; vm_compute; reflexivity|exact I]).
Qed.

Lemma tree_state_index hash p : tree_index_map !! hash = Some p <-> exists b, tree_entries !! p = Some b /\ phashBlock b = Some hash.
Proof.
  split.
  - intros H. each_entry H; eexists; split; vm_compute; reflexivity.
  - intros (b & H & Hh). each_entry H; injection Hh as <-; vm_compute; reflexivity.
Qed.

Lemma tree_state_ok : tree_ok tree_state.
Proof.
  split; cbn [entries m_chain setBlockIndexCandidates m_blocks_unlinked m_block_index m_failed_blocks tree_state].
  - exact tree_state_wf.
  - intros p b H. each_entry H; apply of_uint64_wf.
  - right. exists 2%positive. eexists. split_and!; [vm_compute; reflexivity|reflexivity|].
    intros [|[|n]] q Hw; [vm_compute in Hw |- *; congruence..|]. exfalso. destruct n; vm_compute in Hw; done.
  - intros p b q bq H Hn Hq Hbq. each_entry H; injection Hq as <- || done; vm_compute in Hbq; injection Hbq as <-; done.
  - intros p [->%elem_of_singleton| ->%elem_of_singleton]%elem_of_union; (eexists; split; [vm_compute; reflexivity|done]).
  - intros q p [= -> ->]%list_elem_of_singleton. eexists. split; vm_compute; reflexivity.
  - exact tree_state_index.
  - intros p Hp. change (p ∈ ({[3%positive]} : gset ptr)) in Hp. apply elem_of_singleton in Hp as ->. eexists. split; vm_compute; reflexivity.
  - repeat constructor; intros p [=]; subst. eexists. vm_compute. reflexivity.
Qed.

Lemma tree_state_tallied : tallied 1000 tree_state.
Proof.
  intros p b H. change (tree_entries !! p = Some b) in H. each_entry H; (split; [by vm_compute|by vm_compute|by vm_compute|by vm_compute|]); intros Hn; vm_compute in Hn |- *; congruence.
Qed.

(** The best usable candidate is the tip: block 4 descends from a failed one. *)
Lemma FindMostWorkChain_finds_best_witness :
  exists s', FindMostWorkChain tree_state = Ok (Some 2%positive, s') /\ tree_ok s' /\ usable tree_state 2%positive.
Proof.
  destruct (FindMostWorkChain_finds_best tree_state tree_state_ok) as (r & s' & E & Hs' & _ & _ & Hr).
  assert (Hp : match FindMostWorkChain tree_state with Ok (r, _) => r | _ => None end = Some 2%positive) by (vm_compute; reflexivity).
  rewrite E in Hp. subst r.
  exists s'. split_and!; [exact E|exact Hs'|apply Hr].
Defined.

(** The data of block 5 connects it and its child. *)
Lemma received_blocks_connect_witness :
  exists s', ReceivedBlockTransactions mainnet_pow work_block 5%positive (Build_FlatFilePos 0 600) tree_state = Ok s' /\
    tree_ok s' /\ connected s' 5%positive /\ connected s' 6%positive /\ considered s' 6%positive /\ settled [] s'.
Proof.
  destruct (received_blocks_connect 1000 mainnet_pow work_block 5%positive (Build_FlatFilePos 0 600) tree_state
    (tree_index_entry 5 1 (Some 1%positive) 4 0 2) tree_state_ok tree_state_tallied) as (s' & E & H).
  - reflexivity.
  - reflexivity.
  - by vm_compute.
  - assert (H5 : connected s' 5%positive).
    { apply (receives_connected _ _ _ _ _ _ _ H). intros q [= <-]. eexists. by split; [vm_compute; reflexivity|]. }
    destruct (receives_linked _ _ _ _ _ _ _ H 5%positive 6%positive (list_elem_of_here _ _) H5) as [(b & Hb & Hn)|[H6 H6']].
    { exfalso. vm_compute in Hb. by injection Hb as <-. }
    exists s'. split_and!; [exact E|apply H|exact H5|exact H6|exact H6'|].
    apply (receives_settled _ _ _ _ _ _ _ H). intros q x [= -> ->]%list_elem_of_singleton (b & Hb & Hn). vm_compute in Hb. by injection Hb as <-.
Defined.

Lemma reset_clears_failures_witness :
  exists s', ResetBlockFailureFlags 3%positive tree_state = Ok s' /\ tree_ok s' /\ sound s' 3%positive /\ sound s' 4%positive.
Proof.
  destruct (reset_clears_failures tree_state 2%positive 3%positive tree_state_ok) as (s' & E & Hs' & _ & H).
  - reflexivity.
  - eexists. vm_compute. reflexivity.
  - exists s'. split_and!; [exact E|exact Hs'|apply H|apply H].
    + eexists. vm_compute. reflexivity.
    + left. by exists 0%nat.
    + eexists. vm_compute. reflexivity.
    + left. by exists 1%nat.
Defined.

(** A header whose parent is not known starts a tree of its own. *)
Lemma AddToBlockIndex_extends_tree_witness :
  exists p s' b, AddToBlockIndex header_null tree_state = Ok (p, s') /\ tree_ok s' /\ entries s' !! p = Some b /\ Chain.nHeight b = 0.
Proof.
  destruct (AddToBlockIndex_extends_tree tree_state header_null tree_state_ok) as (p & s' & E & Hs' & _ & _ & H).
  - by split; vm_compute.
  - by vm_compute.
  - assert (Hno : m_block_index tree_state !! header_GetHash header_null = None) by (vm_compute; reflexivity). rewrite Hno in H.
    destruct H as (b & Eb & _ & Hb). exists p, s', b. split_and!; [exact E|exact Hs'|by rewrite Eb, lookup_insert_eq|].
    rewrite (new_height _ _ _ Hb), (new_pprev _ _ _ Hb). assert (Hn : m_block_index tree_state !! hashPrevBlock header_null = None) by (vm_compute; reflexivity).
    by rewrite Hn.
Defined.

(** One header, its data, and the tip moved to it; then pruning *)
Definition after (o : op) (s : ChainState) : ChainState := match run o s with Ok s' => s' | _ => s end.

Definition first_data : op := OpBlock mainnet_pow work_block 1%positive (Build_FlatFilePos 0 8).

Definition with_header : ChainState := Eval vm_compute in after (OpHeader header_null) empty_state.
Definition with_data : ChainState := Eval vm_compute in after first_data with_header.
Definition with_tip : ChainState := Eval vm_compute in after (OpSetTip 1%positive) with_data.

Lemma reachable_states_are_trees_witness :
  exists s, reachable 1000 s /\ tree_ok s /\ target s /\ exists s', run OpPrune s = Ok s' /\ reachable 1000 s'.
Proof.
  assert (H1 : reachable 1000 with_header).
  { eapply (reach_step _ _ (OpHeader header_null)); [apply reach_empty| |vm_compute; reflexivity].
    split; [by split; vm_compute|split; [by vm_compute|split; [lia|by intros q bq ?]]]. }
  assert (H2 : reachable 1000 with_data).
  { eapply (reach_step _ _ first_data); [exact H1| |vm_compute; reflexivity].
    split; [by vm_compute|]. eexists. split; [vm_compute; reflexivity|done]. }
  assert (Hr : exists s, reachable 1000 s /\ Tip (m_chain s) = Some 1%positive /\ 1%positive ∈ setBlockIndexCandidates s).
  { exists with_tip. split_and!.
    - eapply (reach_step _ _ (OpSetTip 1%positive)); [exact H2|eexists; vm_compute; reflexivity|vm_compute; reflexivity].
    - vm_compute. reflexivity.
    - vm_compute. reflexivity. }
  destruct Hr as (s & Hr & Htip & Hin). assert (Ht : target s) by (exists 1%positive, 1%positive; split_and!; [exact Htip|exact Hin|by exists 0%nat]).
  destruct (reachable_states_are_trees 1000 s Hr) as (Hok & _ & _ & Hrun). exists s.
  split_and!; [exact Hr|exact Hok|exact Ht|]. by apply (Hrun OpPrune).
Defined.
