(* ===== verification/Compressor.v ===== *)
(** * Compressor: compact coins and undo data (src/src/compressor.cpp, src/src/compressor.h, src/src/coins.h, src/src/undo.h)

    The coins database and the undo files hold outputs in a compact form:
    amounts without their trailing zeros, common scripts by their hash or key.
    [CPubKey::IsFullyValid] and [CPubKey::Decompress] belong to secp256k1 and
    are parameters. *)

From Stdlib Require Import ZArith List Lia Bool.
From stdpp Require Import base decidable list option.
From S2P Require Import Prelude Uint256 Primitives Script Hash Serialize Standard Coins Utxo.
Local Open Scope Z_scope.

(** ** Amounts *)

(** The loop that strips zeros; [k] more digits may go. *)
Fixpoint strip_zeros (k : nat) (n e : Z) : Z * Z :=
  match k with
  | O => (n, e)
  | S k => if n mod 10 =? 0 then strip_zeros k (n / 10) (e + 1) else (n, e)
  end.

Definition CompressAmount (n : Z) : Z :=
  if n =? 0 then 0
  else
    let '(n, e) := strip_zeros 9 n 0 in
    if e <? 9 then
      let d := n mod 10 in
      let n := n / 10 in
      u64 (1 + u64 (u64 (n * 9 + d - 1) * 10) + e)
    else u64 (1 + u64 (u64 (n - 1) * 10) + 9).

Fixpoint times_ten (e : nat) (n : Z) : Z :=
  match e with
  | O => n
  | S e => times_ten e (u64 (n * 10))
  end.

Definition DecompressAmount (x : Z) : Z :=
  if x =? 0 then 0
  else
    let x := x - 1 in
    let e := x mod 10 in
    let x := x / 10 in
    let n := if e <? 9 then u64 (x / 9 * 10 + (x mod 9 + 1)) else u64 (x + 1) in
    times_ten (Z.to_nat e) n.

(** ** Scripts *)

Definition has_byte (script : CScript) (i : nat) (b : Z) : bool := match script !! i with Some x => x =? b | None => false end.

Definition slice (a n : nat) (script : bytes) : bytes := take n (drop a script).

Definition IsToKeyID (script : CScript) : option bytes :=
  if (length script =? 25)%nat && has_byte script 0 OP_DUP && has_byte script 1 OP_HASH160 && has_byte script 2 20
     && has_byte script 23 OP_EQUALVERIFY && has_byte script 24 OP_CHECKSIG
  then Some (slice 3 20 script) else None.

Definition IsToScriptID (script : CScript) : option bytes :=
  if (length script =? 23)%nat && has_byte script 0 OP_HASH160 && has_byte script 1 20 && has_byte script 22 OP_EQUAL
  then Some (slice 2 20 script) else None.

Definition nSpecialScripts : Z := 6.

Definition GetSpecialScriptSize (nSize : Z) : Z :=
  if (nSize =? 0) || (nSize =? 1) then 20
  else if (nSize =? 2) || (nSize =? 3) || (nSize =? 4) || (nSize =? 5) then 32
  else 0.

Section compressor.
Context (IsFullyValid : CPubKey -> bool) (Decompress : CPubKey -> option CPubKey).

Definition IsToPubKey (script : CScript) : option CPubKey :=
  if (length script =? 35)%nat && has_byte script 0 33 && has_byte script 34 OP_CHECKSIG
     && (has_byte script 1 0x02 || has_byte script 1 0x03)
  then Some (CPubKey_Set (slice 1 33 script))
  else if (length script =? 67)%nat && has_byte script 0 65 && has_byte script 66 OP_CHECKSIG && has_byte script 1 0x04
  then let pubkey := CPubKey_Set (slice 1 65 script) in if IsFullyValid pubkey then Some pubkey else None
  else None.

(** [out], where it returns true *)
Definition CompressScript (script : CScript) : option bytes :=
  match IsToKeyID script with
  | Some keyID => Some (0x00 :: keyID)
  | None =>
    match IsToScriptID script with
    | Some scriptID => Some (0x01 :: scriptID)
    | None =>
      match IsToPubKey script with
      | Some pubkey =>
        if has_byte pubkey 0 0x02 || has_byte pubkey 0 0x03 then Some (nth 0 pubkey 0 :: slice 1 32 pubkey)
        else if has_byte pubkey 0 0x04 then Some (Z.lor 0x04 (Z.land (nth 64 pubkey 0) 0x01) :: slice 1 32 pubkey)
        else None
      | None => None
      end
    end
  end.

(** The script, which stays as it is where it returns false; a key of the wrong size
    fails an assertion. *)
Definition DecompressScript (script : CScript) (nSize : Z) (in_ : bytes) : option CScript :=
  if nSize =? 0x00 then Some ([OP_DUP; OP_HASH160; 20] ++ take 20 in_ ++ [OP_EQUALVERIFY; OP_CHECKSIG])
  else if nSize =? 0x01 then Some ([OP_HASH160; 20] ++ take 20 in_ ++ [OP_EQUAL])
  else if (nSize =? 0x02) || (nSize =? 0x03) then Some ([33; nSize] ++ take 32 in_ ++ [OP_CHECKSIG])
  else if (nSize =? 0x04) || (nSize =? 0x05) then
    match Decompress (CPubKey_Set ((nSize - 2) :: take 32 in_)) with
    | None => Some script
    | Some pubkey => if (length pubkey =? 65)%nat then Some ([65] ++ pubkey ++ [OP_CHECKSIG]) else None
    end
  else Some script.

(** [CScriptCompressor] *)
Definition Serialize_script (script : CScript) : bytes :=
  match CompressScript script with
  | Some compr => compr
  | None => WriteVarInt (u32 (Z.of_nat (length script) + nSpecialScripts)) ++ script
  end.

Definition Unserialize_script (s : bytes) : option (CScript * bytes) :=
  '(nSize, s) ← ReadVarInt (2 ^ 32 - 1) s ;
  if nSize <? nSpecialScripts then
    '(vch, s) ← read (Z.to_nat (GetSpecialScriptSize nSize)) s ;
    script ← DecompressScript [] nSize vch ;
    Some (script, s)
  else
    let nSize := nSize - nSpecialScripts in
    if MAX_SCRIPT_SIZE <? nSize then '(_, s) ← read (Z.to_nat nSize) s ; Some ([OP_RETURN], s)
    else read (Z.to_nat nSize) s.

(** [CTxOutCompressor] *)
Definition Serialize_txout (txout : CTxOut) : bytes :=
  WriteVarInt (CompressAmount (u64 (nValue txout))) ++ Serialize_script (scriptPubKey txout).

Definition Unserialize_txout (s : bytes) : option (CTxOut * bytes) :=
  '(nVal, s) ← ReadVarInt (2 ^ 64 - 1) s ;
  '(script, s) ← Unserialize_script s ;
  Some (mkTxOut (s64 (DecompressAmount nVal)) script, s).

(** ** Coins *)

Definition coin_code (c : Coin) : Z :=
  u32 (Z.shiftl (Coins.nHeight c) 2 + (if fCoinBase c then 1 else 0) + (if fCoinStake c then 2 else 0)).

(** A spent coin fails an assertion. *)
Definition Serialize_Coin (c : Coin) : option bytes :=
  if IsSpent c then None else Some (WriteVarInt (coin_code c) ++ Serialize_txout (out c)).

Definition coin_of (code : Z) (o : CTxOut) : Coin :=
  mkCoin o (Z.testbit code 0) (Z.testbit code 1) (Z.shiftr code 2).

Definition Unserialize_Coin (s : bytes) : option (Coin * bytes) :=
  '(code, s) ← ReadVarInt (2 ^ 32 - 1) s ;
  '(o, s) ← Unserialize_txout s ;
  Some (coin_of code o, s).

(** ** Undo data *)

(** [TxInUndoSerializer] and [TxInUndoDeserializer] *)
Definition Serialize_undo (c : Coin) : bytes :=
  WriteVarInt (coin_code c) ++ (if 0 <? Coins.nHeight c then [0] else []) ++ Serialize_txout (out c).

Definition Unserialize_undo (s : bytes) : option (Coin * bytes) :=
  '(nCode, s) ← ReadVarInt (2 ^ 32 - 1) s ;
  s ← (if 0 <? Z.shiftr nCode 2 then '(_, s) ← ReadVarInt (2 ^ 32 - 1) s ; Some s else Some s) ;
  '(o, s) ← Unserialize_txout s ;
  Some (coin_of nCode o, s).

(** [dgpMaxBlockWeight] when the program starts, by the weight of the smallest input *)
Definition MIN_TRANSACTION_INPUT_WEIGHT : Z :=
  4 * Z.of_nat (length (Serialize_CTxIn (mkTxIn outpoint_null [] 0xffffffff []))).
Definition MAX_INPUTS_PER_BLOCK : Z := 8000000 / MIN_TRANSACTION_INPUT_WEIGHT.

Definition Serialize_CTxUndo (vprevout : CTxUndo) : bytes :=
  WriteCompactSize (Z.of_nat (length vprevout)) ++ concat (map Serialize_undo vprevout).

Fixpoint read_undos (count : nat) (s : bytes) : option (CTxUndo * bytes) :=
  match count with
  | O => Some ([], s)
  | S count =>
    '(c, s) ← Unserialize_undo s ;
    '(l, s) ← read_undos count s ;
    Some (c :: l, s)
  end.

Definition Unserialize_CTxUndo (s : bytes) : option (CTxUndo * bytes) :=
  '(count, s) ← ReadCompactSize s ;
  if MAX_INPUTS_PER_BLOCK <? count then None else read_undos (Z.to_nat count) s.

Definition Serialize_CBlockUndo (vtxundo : CBlockUndo) : bytes := Serialize_vector Serialize_CTxUndo vtxundo.
Definition Unserialize_CBlockUndo (s : bytes) : option (CBlockUndo * bytes) := Unserialize_vector Unserialize_CTxUndo s.

End compressor.

(** * Correctness *)

(** ** Amounts *)

Lemma strip_zeros_spec k n e :
  0 < n -> exists n' j, strip_zeros k n e = (n', e + j) /\ 0 <= j <= Z.of_nat k /\ n = n' * 10 ^ j /\ 0 < n' /\ (j < Z.of_nat k -> n' mod 10 <> 0).
Proof.
  revert n e. induction k as [|k IH]; intros n e Hn.
  { exists n, 0. cbn. rewrite Z.mul_1_r, Z.add_0_r. split_and!; done || lia. }
  cbn [strip_zeros]. destruct (Z.eqb_spec (n mod 10) 0) as [E|E].
  - destruct (IH (n / 10) (e + 1)) as (n' & j & -> & Hj & En & Hn' & Hlast); [apply Z.div_str_pos; split; [lia|]; apply Z.mod_divide in E as [q ->]; lia|].
    exists n', (j + 1). split_and!; [f_equal; lia|lia|lia| |done|intros; apply Hlast; lia].
    rewrite Z.pow_add_r, Z.pow_1_r, Z.mul_assoc, <- En by lia. pose proof (Z.div_mod n 10). lia.
  - exists n, 0. rewrite Z.mul_1_r, Z.add_0_r. split_and!; done || lia.
Qed.

Lemma times_ten_spec e n : 0 <= n -> n * 10 ^ Z.of_nat e < 2 ^ 64 -> times_ten e n = n * 10 ^ Z.of_nat e.
Proof.
  revert n. induction e as [|e IH]; intros n Hn Hlt; cbn [times_ten]; [by rewrite Z.mul_1_r|].
  rewrite Nat2Z.inj_succ, Z.pow_succ_r in * by lia. assert (0 < 10 ^ Z.of_nat e) by (apply Z.pow_pos_nonneg; lia).
  rewrite (wrap_small 64) by (split; nia). rewrite IH by nia. lia.
Qed.

(** The greatest amount below which no compressed amount exceeds 64 bits *)
Definition compressible : Z := 2049638230412172402.

Lemma amount_round_trip n : 0 <= n <= compressible -> DecompressAmount (CompressAmount n) = n /\ 0 <= CompressAmount n < 2 ^ 64.
Proof.
  unfold compressible. intros Hn. unfold CompressAmount. destruct (Z.eqb_spec n 0) as [->|H0]; [done|].
  destruct (strip_zeros_spec 9 n 0) as (m & j & -> & Hj & En & Hm & Hlast); [lia|]. rewrite Z.add_0_l. cbn [Z.of_nat] in *.
  assert (Hp : 10 <= 10 ^ j \/ j = 0) by (destruct (decide (j = 0)) as [->|]; [by right|left; change 10 with (10 ^ 1) at 1; apply Z.pow_le_mono_r; lia]).
  pose proof (Z.div_mod m 10 ltac:(lia)) as Edm. pose proof (Z.mod_pos_bound m 10 ltac:(lia)) as Hd.
  assert (Hm' : m <= n) by (destruct Hp; nia).
  destruct (Z.ltb_spec j 9) as [Hlt|Hge].
  - specialize (Hlast ltac:(lia)). set (d := m mod 10) in *. set (q := m / 10) in *.
    assert (Hx : 1 + (q * 9 + d - 1) * 10 + j < 2 ^ 64) by (destruct Hp as [Hp|Hp]; [|subst j]; nia).
    rewrite (wrap_small 64 (q * 9 + d - 1)), (wrap_small 64 ((q * 9 + d - 1) * 10)), (wrap_small 64 (1 + (q * 9 + d - 1) * 10 + j)) by (split; lia). split; [|lia].
    unfold DecompressAmount. rewrite (proj2 (Z.eqb_neq _ 0)) by lia.
    replace (1 + (q * 9 + d - 1) * 10 + j - 1) with (j + (q * 9 + (d - 1)) * 10) by lia.
    rewrite Z.mod_add, Z.div_add, (Z.mod_small j 10), (Z.div_small j 10), Z.add_0_l by lia. rewrite (proj2 (Z.ltb_lt _ _)) by lia.
    replace (q * 9 + (d - 1)) with (d - 1 + q * 9) by lia. rewrite Z.mod_add, Z.div_add, (Z.mod_small (d - 1) 9), (Z.div_small (d - 1) 9) by lia.
    rewrite (wrap_small 64) by (split; lia). replace ((0 + q) * 10 + (d - 1 + 1)) with m by lia.
    rewrite times_ten_spec; rewrite ?Z2Nat.id by lia; lia.
  - replace j with 9 in * by lia. change (10 ^ 9) with 1000000000 in En. rewrite (wrap_small 64 (m - 1)), (wrap_small 64 ((m - 1) * 10)), (wrap_small 64 (1 + (m - 1) * 10 + 9)) by (split; lia). split; [|lia].
    unfold DecompressAmount. rewrite (proj2 (Z.eqb_neq _ 0)) by lia.
    replace (1 + (m - 1) * 10 + 9 - 1) with (9 + (m - 1) * 10) by lia. rewrite Z.mod_add, Z.div_add, (Z.mod_small 9 10), (Z.div_small 9 10) by lia.
    change (9 <? 9) with false. cbv iota. rewrite (wrap_small 64) by (split; lia).
    rewrite times_ten_spec; change (10 ^ Z.of_nat (Z.to_nat 9)) with 1000000000; lia.
Qed.

(** ** Scripts *)

Lemma has_byte_spec s i b : has_byte s i b = true <-> s !! i = Some b.
Proof. unfold has_byte. destruct (s !! i) as [x|]; [|done]. rewrite Z.eqb_eq. split; [by intros ->|by intros [= ->]]. Qed.

Lemma slice_length a n s : (a + n <= length s)%nat -> length (slice a n s) = n.
Proof. intros H. unfold slice. rewrite length_take, length_drop. lia. Qed.

Lemma slice_cons a n s b : s !! a = Some b -> slice a (S n) s = b :: slice (S a) n s.
Proof. intros H. unfold slice. by rewrite (drop_S _ _ _ H). Qed.

Lemma slice_app a n m s : slice a (n + m) s = slice a n s ++ slice (a + n) m s.
Proof. unfold slice. rewrite <- (drop_drop s n a). symmetry. apply take_take_drop. Qed.

Lemma slice_all s : slice 0 (length s) s = s.
Proof. unfold slice. by rewrite drop_0, take_ge by done. Qed.

Lemma slice_nil a s : slice a 0 s = [].
Proof. done. Qed.

(** Splits a script at the bytes that are known *)
Ltac known_bytes := repeat match goal with
  | H : _ && _ = true |- _ => apply andb_true_iff in H as [? H]
  | H : has_byte _ _ _ = true |- _ => apply has_byte_spec in H
  | H : (_ =? _)%nat = true |- _ => apply Nat.eqb_eq in H
  end.

Lemma IsToKeyID_spec s h : IsToKeyID s = Some h -> length h = 20%nat /\ s = [OP_DUP; OP_HASH160; 20] ++ h ++ [OP_EQUALVERIFY; OP_CHECKSIG].
Proof.
  unfold IsToKeyID. destruct (_ && _) eqn:E; [|done]. intros [= <-]. known_bytes. split; [apply slice_length; lia|].
  rewrite <- (slice_all s) at 1. match goal with H : length s = _ |- _ => rewrite H end. change 25%nat with (3 + (20 + 2))%nat. rewrite !slice_app.
  by rewrite !(slice_cons 0 _ _ OP_DUP), (slice_cons 1 _ _ OP_HASH160), (slice_cons 2 _ _ 20), (slice_cons 23 _ _ OP_EQUALVERIFY), (slice_cons 24 _ _ OP_CHECKSIG) by done.
Qed.

Lemma IsToScriptID_spec s h : IsToScriptID s = Some h -> length h = 20%nat /\ s = [OP_HASH160; 20] ++ h ++ [OP_EQUAL].
Proof.
  unfold IsToScriptID. destruct (_ && _) eqn:E; [|done]. intros [= <-]. known_bytes. split; [apply slice_length; lia|].
  rewrite <- (slice_all s) at 1. match goal with H : length s = _ |- _ => rewrite H end. change 23%nat with (2 + (20 + 1))%nat. rewrite !slice_app.
  by rewrite (slice_cons 0 _ _ OP_HASH160), (slice_cons 1 _ _ 20), (slice_cons 22 _ _ OP_EQUAL) by done.
Qed.

Section round_trips.
Context (IsFullyValid : CPubKey -> bool) (Decompress : CPubKey -> option CPubKey).

(** [Decompress] recovers a valid key from its first coordinate and the parity of the
    second one. *)
Hypothesis Hkeys : forall x y, length x = 32%nat -> length y = 32%nat -> IsFullyValid (0x04 :: x ++ y) = true ->
  Decompress ((2 + Z.land (nth 31 y 0) 0x01) :: x) = Some (0x04 :: x ++ y).

Lemma CPubKey_Set_33 h x : h = 0x02 \/ h = 0x03 -> length x = 32%nat -> CPubKey_Set (h :: x) = h :: x.
Proof. intros [-> | ->] Hx; unfold CPubKey_Set; cbn [length]; by rewrite Hx. Qed.

Lemma CPubKey_Set_65 x : length x = 64%nat -> CPubKey_Set (0x04 :: x) = 0x04 :: x.
Proof. intros Hx; unfold CPubKey_Set; cbn [length]; by rewrite Hx. Qed.

(** The two forms of a script that pays to a key *)
Inductive key_script : CScript -> CPubKey -> Prop :=
  | compressed_key h x : h = 0x02 \/ h = 0x03 -> length x = 32%nat -> key_script ([33; h] ++ x ++ [OP_CHECKSIG]) (h :: x)
  | full_key x y : length x = 32%nat -> length y = 32%nat -> IsFullyValid (0x04 :: x ++ y) = true ->
      key_script ([65; 0x04] ++ (x ++ y) ++ [OP_CHECKSIG]) (0x04 :: x ++ y).

Lemma IsToPubKey_spec s pk : IsToPubKey IsFullyValid s = Some pk -> key_script s pk.
Proof.
  unfold IsToPubKey. destruct (_ && (_ || _)) eqn:E.
  - intros [= <-]. apply andb_true_iff in E as [E Eh]. known_bytes.
    assert (Hh : exists h, (h = 0x02 \/ h = 0x03) /\ s !! 1%nat = Some h) by (apply orb_true_iff in Eh as [Eh|Eh]; apply has_byte_spec in Eh; eauto).
    destruct Hh as (h & Hh & Hs). assert (Hx : length (slice 2 32 s) = 32%nat) by (apply slice_length; lia).
    rewrite (slice_cons 1 32 s h), CPubKey_Set_33 by done.
    replace s with ([33; h] ++ slice 2 32 s ++ [OP_CHECKSIG]) at 1; [by constructor|].
    rewrite <- (slice_all s) at 2. match goal with H : length s = _ |- _ => rewrite H end. change 35%nat with (2 + (32 + 1))%nat. rewrite !slice_app.
    by rewrite (slice_cons 0 _ _ 33), (slice_cons 1 _ _ h), (slice_cons 34 _ _ OP_CHECKSIG) by done.
  - clear E. destruct (_ && _) eqn:E; [|done]. known_bytes.
    assert (Hx : length (slice 2 32 s) = 32%nat) by (apply slice_length; lia). assert (Hy : length (slice 34 32 s) = 32%nat) by (apply slice_length; lia).
    rewrite (slice_cons 1 64 s 4) by done. change 64%nat with (32 + 32)%nat. rewrite slice_app. change (2 + 32)%nat with 34%nat.
    rewrite CPubKey_Set_65 by (rewrite length_app; lia).
    destruct (IsFullyValid _) eqn:Ev; [|done]. intros [= <-].
    replace s with ([65; 4] ++ (slice 2 32 s ++ slice 34 32 s) ++ [OP_CHECKSIG]) at 1; [by constructor|].
    rewrite <- (slice_all s) at 3. match goal with H : length s = _ |- _ => rewrite H end. change 67%nat with (2 + (32 + (32 + 1)))%nat. rewrite !slice_app.
    by rewrite (slice_cons 0 _ _ 65), (slice_cons 1 _ _ 4), (slice_cons 66 _ _ OP_CHECKSIG), <- app_assoc by done.
Qed.

Lemma special_reads n x rest s :
  0 <= n < nSpecialScripts -> Z.of_nat (length x) = GetSpecialScriptSize n -> DecompressScript Decompress [] n x = Some s ->
  Unserialize_script Decompress ((n :: x) ++ rest) = Some (s, rest).
Proof.
  intros Hn Hx Hs. unfold Unserialize_script, nSpecialScripts in *.
  replace (ReadVarInt (2 ^ 32 - 1) ((n :: x) ++ rest)) with (Some (n, x ++ rest)).
  2: { assert (Hc : n = 0 \/ n = 1 \/ n = 2 \/ n = 3 \/ n = 4 \/ n = 5) by lia. by repeat destruct Hc as [->|Hc]; [..|subst]. }
  cbn [mbind option_bind]. rewrite (proj2 (Z.ltb_lt _ _)) by lia. rewrite <- Hx, Nat2Z.id, read_app by done. cbn [mbind option_bind]. by rewrite Hs.
Qed.

(** What is stored for a script comes back. *)
Lemma script_round_trip s rest :
  Z.of_nat (length s) <= MAX_SCRIPT_SIZE ->
  Unserialize_script Decompress (Serialize_script IsFullyValid s ++ rest) = Some (s, rest).
Proof.
  intros Hlen. unfold Serialize_script. destruct (CompressScript IsFullyValid s) as [c|] eqn:Ec.
  - unfold CompressScript in Ec. destruct (IsToKeyID s) as [h|] eqn:E1.
    { injection Ec as <-. destruct (IsToKeyID_spec s h E1) as [Hh ->]. apply special_reads; [done|by rewrite Hh|].
      unfold DecompressScript. cbn [Z.eqb]. by rewrite take_ge by lia. }
    destruct (IsToScriptID s) as [h|] eqn:E2.
    { injection Ec as <-. destruct (IsToScriptID_spec s h E2) as [Hh ->]. apply special_reads; [done|by rewrite Hh|].
      unfold DecompressScript. cbn [Z.eqb Pos.eqb]. by rewrite take_ge by lia. }
    destruct (IsToPubKey IsFullyValid s) as [pk|] eqn:E3; [|done]. apply IsToPubKey_spec in E3.
    destruct E3 as [h x Hh Hx|x y Hx Hy Hv].
    + assert (Hc : c = h :: x).
      { destruct Hh as [-> | ->]; cbn in Ec; injection Ec as <-; f_equal; unfold slice; by rewrite drop_0, take_ge by lia. }
      subst c. apply special_reads; [destruct Hh as [-> | ->]; done|rewrite Hx; by destruct Hh as [-> | ->]|].
      unfold DecompressScript. destruct Hh as [-> | ->]; cbn [Z.eqb Pos.eqb orb]; by rewrite take_ge by lia.
    + assert (Hc : c = Z.lor 4 (Z.land (nth 31 y 0) 1) :: x).
      { change (has_byte (4 :: x ++ y) 0 2 || has_byte (4 :: x ++ y) 0 3) with false in Ec. change (has_byte (4 :: x ++ y) 0 4) with true in Ec. cbv iota in Ec.
        injection Ec as <-. f_equal; [|unfold slice; cbn [drop]; by rewrite drop_0, take_app_length'].
        change (nth 64 (4 :: x ++ y) 0) with (nth 63 (x ++ y) 0). by rewrite app_nth2, Hx by lia. }
      assert (Hpar : Z.land (nth 31 y 0) 1 = 0 \/ Z.land (nth 31 y 0) 1 = 1).
      { pose proof (Z.land_ones (nth 31 y 0) 1 ltac:(lia)) as E. change (Z.ones 1) with 1 in E. rewrite E.
        pose proof (Z.mod_pos_bound (nth 31 y 0) (2 ^ 1) ltac:(lia)). lia. }
      specialize (Hkeys x y Hx Hy Hv). subst c. apply special_reads; [destruct Hpar as [-> | ->]; done|rewrite Hx; by destruct Hpar as [-> | ->]|].
      assert (Htake : take 32 x = x) by (apply take_ge; lia). unfold DecompressScript. rewrite Htake.
      destruct Hpar as [Hp|Hp]; rewrite Hp in Hkeys |- *.
      * change (Z.lor 4 0) with 4. change (2 + 0) with 2 in Hkeys. cbn [Z.eqb Pos.eqb orb]. change (4 - 2) with 2.
        rewrite CPubKey_Set_33, Hkeys by auto. cbn [length]. by rewrite length_app, Hx, Hy.
      * change (Z.lor 4 1) with 5. change (2 + 1) with 3 in Hkeys. cbn [Z.eqb Pos.eqb orb]. change (5 - 2) with 3.
        rewrite CPubKey_Set_33, Hkeys by auto. cbn [length]. by rewrite length_app, Hx, Hy.
  - unfold Unserialize_script, MAX_SCRIPT_SIZE, nSpecialScripts in *. rewrite <- app_assoc, (wrap_small 32) by (split; lia).
    rewrite varint_round_trip_max by lia. cbn [mbind option_bind]. rewrite (proj2 (Z.ltb_ge _ _)) by lia.
    replace (Z.of_nat (length s) + 6 - 6) with (Z.of_nat (length s)) by lia. rewrite (proj2 (Z.ltb_ge _ _)) by lia. apply read_app. lia.
Qed.

(** An output, and a coin, that the format can hold *)
Definition storable_txout (o : CTxOut) : Prop := 0 <= nValue o <= compressible /\ Z.of_nat (length (scriptPubKey o)) <= MAX_SCRIPT_SIZE.

Definition storable (c : Coin) : Prop := 0 <= Coins.nHeight c < 2 ^ 30 /\ storable_txout (out c).

Lemma txout_reads o rest : storable_txout o -> Unserialize_txout Decompress (Serialize_txout IsFullyValid o ++ rest) = Some (o, rest).
Proof.
  intros [Hv Hs]. unfold Unserialize_txout, Serialize_txout. rewrite <- app_assoc, (wrap_small 64) by (unfold compressible in Hv; split; lia).
  destruct (amount_round_trip (nValue o) Hv) as [Hr Hb]. rewrite varint_round_trip_max by lia. cbn [mbind option_bind].
  rewrite script_round_trip by done. cbn [mbind option_bind]. rewrite Hr, (swrap_small 64) by (unfold compressible, in_s in *; lia). by destruct o.
Qed.

Lemma coin_code_eq c : 0 <= Coins.nHeight c < 2 ^ 30 ->
  coin_code c = (if fCoinBase c then 1 else 0) + ((if fCoinStake c then 1 else 0) + Coins.nHeight c * 2) * 2 /\ 0 <= coin_code c <= 2 ^ 32 - 1.
Proof.
  intros H. unfold coin_code. rewrite Z.shiftl_mul_pow2 by lia. change (2 ^ 2) with 4.
  destruct (fCoinBase c), (fCoinStake c); rewrite (wrap_small 32) by (split; lia); lia.
Qed.

Lemma coin_of_code c : 0 <= Coins.nHeight c < 2 ^ 30 -> coin_of (coin_code c) (out c) = c.
Proof.
  intros H. destruct (coin_code_eq c H) as [-> _]. unfold coin_of. destruct c as [o cb cs h]. cbn [fCoinBase fCoinStake Coins.nHeight out] in *.
  set (b := (if cs then 1 else 0) + h * 2).
  assert (Hb : ((if cb then 1 else 0) + b * 2) / 2 = b) by (rewrite Z.div_add by lia; by destruct cb).
  f_equal.
  - rewrite Z.bit0_odd, Z.odd_add, Z.odd_mul. change (Z.odd 2) with false. rewrite andb_false_r, xorb_false_r. by destruct cb.
  - rewrite Z.testbit_eqb by lia. change (2 ^ 1) with 2. rewrite Hb. subst b. rewrite Z.mod_add by lia. by destruct cs.
  - rewrite Z.shiftr_div_pow2 by lia. change (2 ^ 2) with (2 * 2). rewrite <- Z.div_div, Hb by lia. subst b. rewrite Z.div_add by lia. by destruct cs.
Qed.

Lemma undo_reads c rest : storable c -> Unserialize_undo Decompress (Serialize_undo IsFullyValid c ++ rest) = Some (c, rest).
Proof.
  intros [Hh Ho]. destruct (coin_code_eq c Hh) as [_ Hc]. unfold Unserialize_undo, Serialize_undo.
  rewrite <- !app_assoc, varint_round_trip_max by lia. cbn [mbind option_bind].
  assert (Hs : Z.shiftr (coin_code c) 2 = Coins.nHeight c) by (pose proof (coin_of_code c Hh) as E; apply (f_equal Coins.nHeight) in E; exact E). rewrite Hs.
  destruct (Z.ltb_spec 0 (Coins.nHeight c)).
  - assert (Hz : forall x, ReadVarInt (2 ^ 32 - 1) ([0] ++ x) = Some (0, x)) by done. rewrite Hz. cbn [mbind option_bind].
    rewrite txout_reads by done. cbn [mbind option_bind]. by rewrite coin_of_code.
  - cbn [app mbind option_bind]. rewrite txout_reads by done. cbn [mbind option_bind]. by rewrite coin_of_code.
Qed.

Lemma coin_reads c b rest : storable c -> Serialize_Coin IsFullyValid c = Some b -> Unserialize_Coin Decompress (b ++ rest) = Some (c, rest).
Proof.
  intros [Hh Ho]. unfold Serialize_Coin. destruct (IsSpent c); [done|]. intros [= <-]. destruct (coin_code_eq c Hh) as [_ Hc]. unfold Unserialize_Coin.
  rewrite <- app_assoc, varint_round_trip_max by lia. cbn [mbind option_bind]. rewrite txout_reads by done. cbn [mbind option_bind]. by rewrite coin_of_code.
Qed.

Lemma read_undos_spec l rest : Forall storable l -> read_undos Decompress (length l) (concat (map (Serialize_undo IsFullyValid) l) ++ rest) = Some (l, rest).
Proof.
  induction l as [|c l IH]; intros Hl; [done|]. apply Forall_cons_iff in Hl as [Hc Hl]. cbn [length read_undos map concat].
  rewrite <- app_assoc, undo_reads by done. cbn [mbind option_bind]. rewrite IH by done. done.
Qed.

Lemma txundo_reads l rest :
  Forall storable l -> Z.of_nat (length l) <= MAX_INPUTS_PER_BLOCK ->
  Unserialize_CTxUndo Decompress (Serialize_CTxUndo IsFullyValid l ++ rest) = Some (l, rest).
Proof.
  intros Hl Hn. unfold Unserialize_CTxUndo, Serialize_CTxUndo. change MAX_INPUTS_PER_BLOCK with 48780 in *. rewrite <- app_assoc, compact_size_round_trip by (unfold MAX_SIZE; lia).
  cbn [mbind option_bind]. rewrite (proj2 (Z.ltb_ge _ _)) by lia. rewrite Nat2Z.id. by apply read_undos_spec.
Qed.

(** C28 (coins on disk): a coin that is not spent is read back from its
    compact form, and so are the undo data of a block, provided the amounts are
    at most 20496382304.12172402 coins, the scripts are not too long and no
    transaction spends more than [MAX_INPUTS_PER_BLOCK] coins. *)
Theorem coins_and_undo_round_trip c undo rest :
  storable c -> IsSpent c = false -> Forall (fun l => Forall storable l /\ Z.of_nat (length l) <= MAX_INPUTS_PER_BLOCK) undo -> sized undo ->
  (exists b, Serialize_Coin IsFullyValid c = Some b /\ Unserialize_Coin Decompress (b ++ rest) = Some (c, rest)) /\
  Unserialize_CBlockUndo Decompress (Serialize_CBlockUndo IsFullyValid undo ++ rest) = Some (undo, rest).
Proof.
  intros Hc Hs Hu Hn. split.
  - unfold Serialize_Coin at 1. rewrite Hs. eexists. split; [done|]. apply coin_reads; [done|]. unfold Serialize_Coin. by rewrite Hs.
  - unfold Unserialize_CBlockUndo, Serialize_CBlockUndo. rewrite (vector_reads _ _ (fun l => l)); [by rewrite map_id|done|].
    revert Hu. apply List.Forall_impl. intros l [Hl Hlen] r. by apply txundo_reads.
Qed.

End round_trips.

(** ** Limits of the format *)



(** ** Instances *)

(** One valid key: the two coordinates are sevens. *)
Definition seven_key : CPubKey := 0x04 :: repeat 7 32 ++ repeat 7 32.
Definition seven_valid (k : CPubKey) : bool := bytes_eqb k seven_key.
Definition seven_decompress (k : CPubKey) : option CPubKey := if bytes_eqb k (3 :: repeat 7 32) then Some seven_key else None.

Lemma seven_keys x y : length x = 32%nat -> length y = 32%nat -> seven_valid (0x04 :: x ++ y) = true ->
  seven_decompress ((2 + Z.land (nth 31 y 0) 0x01) :: x) = Some (0x04 :: x ++ y).
Proof.
  intros Hx Hy H. apply bytes_eqb_eq in H. injection H as H. change (x ++ y = repeat 7 32 ++ repeat 7 32) in H.
  apply app_inj_1 in H as [-> ->]; [done|by rewrite Hx].
Qed.

(** A coin paid to the key: its script is stored as 33 bytes. *)
Definition key_coin : Coin := mkCoin (mkTxOut 5000000000 ([65] ++ seven_key ++ [OP_CHECKSIG])) false true 1000.

Lemma key_coin_storable : storable key_coin.
Proof. by vm_compute. Qed.

Lemma coins_and_undo_round_trip_witness :
  (exists b, Serialize_Coin seven_valid key_coin = Some b /\ length b = 36%nat) /\
  (exists b, Serialize_Coin seven_valid key_coin = Some b /\ Unserialize_Coin seven_decompress (b ++ [9]) = Some (key_coin, [9])) /\
  Unserialize_CBlockUndo seven_decompress (Serialize_CBlockUndo seven_valid [[key_coin]; []; [key_coin; key_coin]] ++ [9]) =
    Some ([[key_coin]; []; [key_coin; key_coin]], [9]).
Proof.
  split; [eexists; split; vm_compute; reflexivity|].
  apply (coins_and_undo_round_trip seven_valid seven_decompress seven_keys key_coin [[key_coin]; []; [key_coin; key_coin]] [9]);
    [apply key_coin_storable|done| |by vm_compute].
  repeat (apply Forall_cons_2; [split; [repeat (apply Forall_cons_2; [apply key_coin_storable|]); apply Forall_nil_2|by vm_compute]|]). apply Forall_nil_2.
Defined.


