(* ===== verification/BlockStore.v ===== *)
(** * BlockStore: the files that hold blocks (src/src/validation.cpp, src/src/flatfile.cpp, src/src/chain.h)

    Blocks are appended to numbered files; for each file the node keeps how
    much of it is used and which heights it holds.  The files are maps from
    numbers to contents with the behaviour of the C library (a write past the
    end fills the gap with zeros).  Whether a file opens and whether the disk
    has space are arguments. *)

From Stdlib Require Import ZArith List Lia Bool String.
From stdpp Require Import base decidable list option gmap sets fin_sets.
From S2P Require Import Prelude Uint256 Primitives Chain Consensus Script Hash Serialize Merkle Standard Coins Utxo SigHash Interpreter TxVerify Pow Pos Block ChainState.
Import arith_uint256.
Local Open Scope Z_scope.
Local Open Scope outcome_scope.

(** ** Statistics of a file *)

Record CBlockFileInfo := mkFileInfo {
  nBlocks : Z;
  nSize : Z;
  nUndoSize : Z;
  nHeightFirst : Z;
  nHeightLast : Z;
  nTimeFirst : Z;
  nTimeLast : Z }.

Definition CBlockFileInfo_null : CBlockFileInfo := mkFileInfo 0 0 0 0 0 0 0.

Definition AddBlock (nHeightIn nTimeIn : Z) (f : CBlockFileInfo) : CBlockFileInfo :=
  mkFileInfo (u32 (nBlocks f + 1)) (nSize f) (nUndoSize f)
    (if (nBlocks f =? 0) || (nHeightIn <? nHeightFirst f) then nHeightIn else nHeightFirst f)
    (if nHeightLast f <? nHeightIn then nHeightIn else nHeightLast f)
    (if (nBlocks f =? 0) || (nTimeIn <? nTimeFirst f) then nTimeIn else nTimeFirst f)
    (if nTimeLast f <? nTimeIn then nTimeIn else nTimeLast f).

Definition set_nSize (n : Z) (f : CBlockFileInfo) : CBlockFileInfo :=
  mkFileInfo (nBlocks f) n (nUndoSize f) (nHeightFirst f) (nHeightLast f) (nTimeFirst f) (nTimeLast f).

Definition set_nUndoSize (n : Z) (f : CBlockFileInfo) : CBlockFileInfo :=
  mkFileInfo (nBlocks f) (nSize f) n (nHeightFirst f) (nHeightLast f) (nTimeFirst f) (nTimeLast f).

Definition MAX_BLOCKFILE_SIZE : Z := 0x8000000.
Definition BLOCKFILE_CHUNK_SIZE : Z := 0x1000000.
Definition UNDOFILE_CHUNK_SIZE : Z := 0x100000.
Definition MIN_BLOCKS_TO_KEEP : Z := 288.

(** ** Files *)

Abbreviation files := (gmap Z bytes).

(** [fwrite] at a position *)
Definition write_at (pos : Z) (data content : bytes) : bytes :=
  let n := Z.to_nat pos in
  take n (content ++ repeat 0 (n - length content)) ++ data ++ drop (n + length data) content.

(** [ftruncate] *)
Definition truncate (size : Z) (content : bytes) : bytes :=
  take (Z.to_nat size) (content ++ repeat 0 (Z.to_nat size - length content)).

Definition pos_IsNull (pos : FlatFilePos) : bool := pos_nFile pos =? -1.

(** The node's bookkeeping, and the files blk?????.dat and rev?????.dat *)
Record BlockStore := mkBlockStore {
  vinfoBlockFile : list CBlockFileInfo;
  nLastBlockFile : Z;
  setDirtyFileInfo : gset Z;
  fCheckForPruning : bool;
  blk : files;
  rev_ : files }.

Definition set_vinfo (f : list CBlockFileInfo -> list CBlockFileInfo) (s : BlockStore) : BlockStore :=
  mkBlockStore (f (vinfoBlockFile s)) (nLastBlockFile s) (setDirtyFileInfo s) (fCheckForPruning s) (blk s) (rev_ s).
Definition set_nLastBlockFile (n : Z) (s : BlockStore) : BlockStore :=
  mkBlockStore (vinfoBlockFile s) n (setDirtyFileInfo s) (fCheckForPruning s) (blk s) (rev_ s).
Definition set_dirty_file (n : Z) (s : BlockStore) : BlockStore :=
  mkBlockStore (vinfoBlockFile s) (nLastBlockFile s) ({[n]} ∪ setDirtyFileInfo s) (fCheckForPruning s) (blk s) (rev_ s).
Definition set_fCheckForPruning (b : bool) (s : BlockStore) : BlockStore :=
  mkBlockStore (vinfoBlockFile s) (nLastBlockFile s) (setDirtyFileInfo s) b (blk s) (rev_ s).
Definition set_blk (fs : files) (s : BlockStore) : BlockStore :=
  mkBlockStore (vinfoBlockFile s) (nLastBlockFile s) (setDirtyFileInfo s) (fCheckForPruning s) fs (rev_ s).
Definition set_rev (fs : files) (s : BlockStore) : BlockStore :=
  mkBlockStore (vinfoBlockFile s) (nLastBlockFile s) (setDirtyFileInfo s) (fCheckForPruning s) (blk s) fs.

(** [vinfoBlockFile[n]] *)
Definition info_at (n : Z) (s : BlockStore) : outcome CBlockFileInfo :=
  if n <? 0 then Fail else of_option (vinfoBlockFile s !! Z.to_nat n).

Definition update_info (n : Z) (f : CBlockFileInfo -> CBlockFileInfo) (s : BlockStore) : outcome BlockStore :=
  i <-! info_at n s ;
  Ok (set_vinfo (insert (Z.to_nat n) (f i)) s).

Section store.
Context (fopens : Z -> bool) (CheckDiskSpace : Z -> bool) (fPruneMode : bool).

(** [FlatFileSeq::Open]: the files with the one that was created, or null *)
Definition Open (fs : files) (pos : FlatFilePos) (read_only : bool) : option files :=
  if pos_IsNull pos then None
  else if negb (fopens (pos_nFile pos)) then None
  else match fs !! pos_nFile pos with
  | Some _ => Some fs
  | None => if read_only then None else Some (<[pos_nFile pos := []]> fs)
  end.

(** Writing through an open file *)
Definition fwrite (pos : FlatFilePos) (data : bytes) (fs : files) : files :=
  match fs !! pos_nFile pos with
  | Some content => <[pos_nFile pos := write_at (nPos pos) data content]> fs
  | None => fs
  end.

(** [posix_fallocate(file, 0, offset + length)] *)
Definition AllocateFileRange (nFile offset length_ : Z) (fs : files) : files :=
  match (fs !! nFile : option bytes) with
  | Some content => <[nFile := content ++ repeat 0 (Z.to_nat (offset + length_) - length content)]> fs
  | None => fs
  end.

(** The bytes allocated, whether the disk is full, and the files *)
Definition Allocate (m_chunk_size : Z) (fs : files) (pos : FlatFilePos) (add_size : Z) : Z * bool * files :=
  let n_old_chunks := u32 (u64 (nPos pos + m_chunk_size - 1) / m_chunk_size) in
  let n_new_chunks := u32 (u64 (nPos pos + add_size + m_chunk_size - 1) / m_chunk_size) in
  if n_old_chunks <? n_new_chunks then
    let new_size := u64 (n_new_chunks * m_chunk_size) in
    let inc_size := u64 (new_size - nPos pos) in
    if CheckDiskSpace inc_size then
      match Open fs pos false with
      | Some fs => (inc_size, false, AllocateFileRange (pos_nFile pos) (nPos pos) (u32 inc_size) fs)
      | None => (0, false, fs)
      end
    else (0, true, fs)
  else (0, false, fs).

Definition Flush (fs : files) (pos : FlatFilePos) (finalize : bool) : bool * files :=
  match Open fs (Build_FlatFilePos (pos_nFile pos) 0) false with
  | None => (false, fs)
  | Some fs =>
    if finalize then (true, match fs !! pos_nFile pos with Some c => <[pos_nFile pos := truncate (nPos pos) c]> fs | None => fs end)
    else (true, fs)
  end.

(** A failure only starts the shutdown. *)
Definition FlushBlockFile (fFinalize : bool) (s : BlockStore) : outcome BlockStore :=
  i <-! info_at (nLastBlockFile s) s ;
  let s := set_blk (snd (Flush (blk s) (Build_FlatFilePos (nLastBlockFile s) (nSize i)) fFinalize)) s in
  Ok (set_rev (snd (Flush (rev_ s) (Build_FlatFilePos (nLastBlockFile s) (nUndoSize i)) fFinalize)) s).

(** [if (vinfoBlockFile.size() <= nFile) vinfoBlockFile.resize(nFile + 1)] *)
Definition grow (nFile : Z) (s : BlockStore) : BlockStore :=
  if Z.of_nat (length (vinfoBlockFile s)) <=? nFile
  then set_vinfo (fun l => l ++ repeat CBlockFileInfo_null (Z.to_nat (nFile + 1) - length l)) s else s.

(** The first file with room. An entry that [grow] adds has room for every block, so the
    number of entries bounds the rounds. *)
Fixpoint find_room (fuel : nat) (nAddSize nFile : Z) (s : BlockStore) : outcome (Z * BlockStore) :=
  i <-! info_at nFile s ;
  if MAX_BLOCKFILE_SIZE <=? u32 (nSize i + nAddSize) then
    match fuel with
    | O => NoFuel
    | S fuel => let nFile := u32 (nFile + 1) in find_room fuel nAddSize nFile (grow nFile s)
    end
  else Ok (nFile, s).

Definition FindBlockPos (pos : FlatFilePos) (nAddSize nHeight nTime : Z) (fKnown : bool) (s : BlockStore)
    : outcome (bool * FlatFilePos * BlockStore) :=
  let nFile := u32 (if fKnown then pos_nFile pos else nLastBlockFile s) in
  let s := grow nFile s in
  r <-! (if fKnown then Ok (nFile, s) else find_room (length (vinfoBlockFile s)) nAddSize nFile s) ;
  let '(nFile, s) := r in
  i <-! info_at nFile s ;
  let pos := if fKnown then pos else Build_FlatFilePos (s32 nFile) (nSize i) in
  s <-! (if negb (s32 nFile =? nLastBlockFile s)
         then s <-! FlushBlockFile (negb fKnown) s ; Ok (set_nLastBlockFile (s32 nFile) s) else Ok s) ;
  s <-! update_info nFile (AddBlock nHeight nTime) s ;
  s <-! update_info nFile (fun i => set_nSize (if fKnown then Z.max (u32 (nPos pos + nAddSize)) (nSize i) else u32 (nSize i + nAddSize)) i) s ;
  if fKnown then Ok (true, pos, set_dirty_file (s32 nFile) s)
  else
    let '(bytes_allocated, out_of_space, fs) := Allocate BLOCKFILE_CHUNK_SIZE (blk s) pos nAddSize in
    let s := set_blk fs s in
    if out_of_space then Ok (false, pos, s)
    else
      let s := if negb (bytes_allocated =? 0) && fPruneMode then set_fCheckForPruning true s else s in
      Ok (true, pos, set_dirty_file (s32 nFile) s).

Definition FindUndoPos (nFile nAddSize : Z) (s : BlockStore) : outcome (bool * FlatFilePos * BlockStore) :=
  i <-! info_at nFile s ;
  let pos := Build_FlatFilePos nFile (nUndoSize i) in
  s <-! update_info nFile (fun i => set_nUndoSize (u32 (nUndoSize i + nAddSize)) i) s ;
  let s := set_dirty_file nFile s in
  let '(bytes_allocated, out_of_space, fs) := Allocate UNDOFILE_CHUNK_SIZE (rev_ s) pos nAddSize in
  let s := set_rev fs s in
  if out_of_space then Ok (false, pos, s)
  else Ok (true, pos, if negb (bytes_allocated =? 0) && fPruneMode then set_fCheckForPruning true s else s).

(** ** Blocks on disk *)

(** The verdict, [pos] behind the header, and the files *)
Definition WriteBlockToDisk (messageStart : bytes) (block : CBlock) (pos : FlatFilePos) (fs : files) : bool * FlatFilePos * files :=
  match Open fs pos false with
  | None => (false, pos, fs)
  | Some fs =>
    let data := Serialize_CBlock true block in
    let header := messageStart ++ Serialize_uint32 (u32 (Z.of_nat (length data))) in
    let fs := fwrite pos header fs in
    let pos := Build_FlatFilePos (pos_nFile pos) (u32 (nPos pos + Z.of_nat (length header))) in
    (true, pos, fwrite pos data fs)
  end.

Definition SaveBlockToDisk (messageStart : bytes) (block : CBlock) (nHeight : Z) (dbp : option FlatFilePos) (s : BlockStore)
    : outcome (FlatFilePos * BlockStore) :=
  let nBlockSize := u32 (Z.of_nat (length (Serialize_CBlock true block))) in
  let blockPos := match dbp with Some p => p | None => FlatFilePos_null end in
  let fKnown := match dbp with Some _ => true | None => false end in
  r <-! FindBlockPos blockPos (u32 (nBlockSize + 8)) nHeight (hdr_nTime (blk_header block)) fKnown s ;
  let '(ok, blockPos, s) := r in
  if negb ok then Ok (FlatFilePos_null, s)
  else if fKnown then Ok (blockPos, s)
  else
    let '(ok, blockPos, fs) := WriteBlockToDisk messageStart block blockPos (blk s) in
    let s := set_blk fs s in
    if negb ok then Ok (FlatFilePos_null, s) else Ok (blockPos, s).

(** What can be read from a position on *)
Definition read_from (fs : files) (pos : FlatFilePos) : option bytes :=
  match Open fs pos true with
  | None => None
  | Some fs => c ← (fs !! pos_nFile pos : option bytes) ; Some (drop (Z.to_nat (nPos pos)) c)
  end.

(** The header of a block that is not staked is checked; for it
    [CheckHeaderProof] is [CheckHeaderPoW]. *)
Definition ReadBlockFromDisk_pos (params : Params) (s : BlockStore) (pos : FlatFilePos) : option CBlock :=
  '(block, _) ← (read_from (blk s) pos ≫= Unserialize_CBlock true) ;
  if negb (header_IsProofOfStake (blk_header block)) && negb (CheckHeaderPoW params (blk_header block)) then None
  else Some block.

Definition ReadBlockFromDisk_index (params : Params) (s : BlockStore) (b : CBlockIndex) : outcome (option CBlock) :=
  match ReadBlockFromDisk_pos params s (GetBlockPos b) with
  | None => Ok None
  | Some block =>
    hash <-! GetBlockHash b ;
    Ok (if bytes_eqb (header_GetHash (blk_header block)) hash then Some block else None)
  end.

Definition ReadRawBlockFromDisk (message_start : bytes) (s : BlockStore) (pos : FlatFilePos) : option bytes :=
  let hpos := Build_FlatFilePos (pos_nFile pos) (u32 (nPos pos - 8)) in
  c ← read_from (blk s) hpos ;
  '(blk_start, c) ← read 4 c ;
  '(blk_size, c) ← Unserialize_uint32 c ;
  if negb (bytes_eqb blk_start message_start) then None
  else if MAX_SIZE <? blk_size then None
  else '(block, _) ← read (Z.to_nat blk_size) c ; Some block.

End store.

(** ** Pruning *)

Definition CalculateCurrentUsage (s : BlockStore) : Z :=
  fold_left (fun retval file => u64 (retval + u32 (nSize file + nUndoSize file))) (vinfoBlockFile s) 0.

Definition unset_data (b : CBlockIndex) : CBlockIndex :=
  let status := Z.land (nStatus b) (u32 (Z.lnot BLOCK_HAVE_DATA)) in
  let status := Z.land status (u32 (Z.lnot BLOCK_HAVE_UNDO)) in
  mkBlockIndex (phashBlock b) (pprev b) (pnext b) (pskip b) (Chain.nHeight b) 0 0 0
    (nChainWork b) (nTx b) (nChainTx b) status (idx_nVersion b) (idx_hashMerkleRoot b) (nTime b) (nBits b) (idx_nNonce b)
    (idx_hashStateRoot b) (idx_hashUTXORoot b) (idx_vchBlockSig b) (nStakeModifier b) (prevoutStake b) (hashProof b)
    (nMoneySupply b) (nSequenceId b) (nTimeMax b).

(** One entry of the loop over [m_block_index] *)
Definition prune_entry (fileNumber : Z) (p : ptr) (cs : ChainState) : outcome ChainState :=
  b <-! deref (entries cs) p ;
  if nFile b =? fileNumber then
    let cs := set_dirty p (set_entries (insert p (unset_data b)) cs) in
    Ok (set_unlinked (List.filter (fun x => negb (bool_decide (Some (fst x) = pprev b) && bool_decide (snd x = p))) (m_blocks_unlinked cs)) cs)
  else Ok cs.

Fixpoint prune_entries (fileNumber : Z) (l : list ptr) (cs : ChainState) : outcome ChainState :=
  match l with
  | [] => Ok cs
  | p :: l => cs <-! prune_entry fileNumber p cs ; prune_entries fileNumber l cs
  end.

Definition PruneOneBlockFile (fileNumber : Z) (cs : ChainState) (s : BlockStore) : outcome (ChainState * BlockStore) :=
  cs <-! prune_entries fileNumber (map snd (map_to_list (m_block_index cs))) cs ;
  s <-! update_info fileNumber (fun _ => CBlockFileInfo_null) s ;
  Ok (cs, set_dirty_file fileNumber s).

(** The files from [fileNumber] on, [n] of them *)
Fixpoint prune_manual (n : nat) (fileNumber nLastBlockWeCanPrune : Z) (pruned : gset Z) (cs : ChainState) (s : BlockStore)
    : outcome (gset Z * ChainState * BlockStore) :=
  match n with
  | O => Ok (pruned, cs, s)
  | S n =>
    i <-! info_at fileNumber s ;
    if (nSize i =? 0) || (nLastBlockWeCanPrune <? nHeightLast i) then prune_manual n (fileNumber + 1) nLastBlockWeCanPrune pruned cs s
    else
      r <-! PruneOneBlockFile fileNumber cs s ;
      prune_manual n (fileNumber + 1) nLastBlockWeCanPrune ({[fileNumber]} ∪ pruned) (fst r) (snd r)
  end.

Definition FindFilesToPruneManual (fPruneMode : bool) (nManualPruneHeight : Z) (cs : ChainState) (s : BlockStore)
    : outcome (gset Z * ChainState * BlockStore) :=
  if negb (fPruneMode && (0 <? nManualPruneHeight)) then Fail
  else match Tip (m_chain cs) with
  | None => Ok (∅, cs, s)
  | Some tip =>
    bt <-! deref (entries cs) tip ;
    let nLastBlockWeCanPrune := Z.min (u32 nManualPruneHeight) (u32 (Chain.nHeight bt - MIN_BLOCKS_TO_KEEP)) in
    prune_manual (Z.to_nat (nLastBlockFile s)) 0 nLastBlockWeCanPrune ∅ cs s
  end.

Fixpoint prune_target (n : nat) (fileNumber nLastBlockWeCanPrune nBuffer nPruneTarget nCurrentUsage : Z) (pruned : gset Z)
    (cs : ChainState) (s : BlockStore) : outcome (gset Z * ChainState * BlockStore) :=
  match n with
  | O => Ok (pruned, cs, s)
  | S n =>
    i <-! info_at fileNumber s ;
    let nBytesToPrune := u32 (nSize i + nUndoSize i) in
    let next usage pruned cs s := prune_target n (fileNumber + 1) nLastBlockWeCanPrune nBuffer nPruneTarget usage pruned cs s in
    if nSize i =? 0 then next nCurrentUsage pruned cs s
    else if u64 (nCurrentUsage + nBuffer) <? nPruneTarget then Ok (pruned, cs, s)
    else if nLastBlockWeCanPrune <? nHeightLast i then next nCurrentUsage pruned cs s
    else
      r <-! PruneOneBlockFile fileNumber cs s ;
      next (u64 (nCurrentUsage - nBytesToPrune)) ({[fileNumber]} ∪ pruned) (fst r) (snd r)
  end.

Definition FindFilesToPrune (nPruneTarget nPruneAfterHeight : Z) (IsInitialBlockDownload : bool) (cs : ChainState) (s : BlockStore)
    : outcome (gset Z * ChainState * BlockStore) :=
  match Tip (m_chain cs) with
  | None => Ok (∅, cs, s)
  | Some tip =>
    bt <-! deref (entries cs) tip ;
    if nPruneTarget =? 0 then Ok (∅, cs, s)
    else if u64 (Chain.nHeight bt) <=? nPruneAfterHeight then Ok (∅, cs, s)
    else
      let nLastBlockWeCanPrune := u32 (Chain.nHeight bt - MIN_BLOCKS_TO_KEEP) in
      let nCurrentUsage := CalculateCurrentUsage s in
      let nBuffer := BLOCKFILE_CHUNK_SIZE + UNDOFILE_CHUNK_SIZE in
      if nPruneTarget <=? u64 (nCurrentUsage + nBuffer) then
        let nBuffer := if IsInitialBlockDownload then u64 (nBuffer + nPruneTarget / 10) else nBuffer in
        prune_target (Z.to_nat (nLastBlockFile s)) 0 nLastBlockWeCanPrune nBuffer nPruneTarget nCurrentUsage ∅ cs s
      else Ok (∅, cs, s)
  end.

(** [UnlinkPrunedFiles] *)
Definition UnlinkPrunedFiles (setFilesToPrune : gset Z) (s : BlockStore) : BlockStore :=
  set_rev (filter (fun x => fst x ∉ setFilesToPrune) (rev_ s)) (set_blk (filter (fun x => fst x ∉ setFilesToPrune) (blk s)) s).

(** * Correctness *)

(** ** Contents of files *)

Definition segment (a n : nat) (c : bytes) : bytes := take n (drop a c).

Lemma segment_length a n c data : segment a n c = data -> length data = n -> (a + n <= length c)%nat \/ n = 0%nat.
Proof. unfold segment. intros <- H. rewrite length_take, length_drop in H. lia. Qed.

Lemma segment_app a n c c' : (a + n <= length c)%nat -> segment a n (c ++ c') = segment a n c.
Proof. intros H. unfold segment. rewrite drop_app_le, take_app_le; [done|rewrite length_drop; lia|lia]. Qed.

Lemma segment_take a n m c : (a + n <= m)%nat -> segment a n (take m c) = segment a n c.
Proof.
  intros H. unfold segment. apply list_eq. intros i. destruct (decide (i < n)%nat).
  - rewrite !lookup_take_lt, !lookup_drop, lookup_take_lt by lia. done.
  - rewrite !lookup_take_ge by lia. done.
Qed.

Lemma write_at_writes pos data c : 0 <= pos -> segment (Z.to_nat pos) (length data) (write_at pos data c) = data.
Proof.
  intros H. unfold write_at, segment. rewrite drop_app_length'; [by rewrite take_app_length|].
  rewrite length_take, length_app, repeat_length. lia.
Qed.

Lemma write_at_keeps pos data c a n :
  0 <= pos -> (a + n <= Z.to_nat pos)%nat -> (a + n <= length c)%nat -> segment a n (write_at pos data c) = segment a n c.
Proof.
  intros H Ha Hc. unfold write_at. rewrite segment_app by (rewrite length_take, length_app, repeat_length; lia).
  rewrite segment_take by lia. by apply segment_app.
Qed.

Lemma truncate_keeps size c a n :
  (a + n <= Z.to_nat size)%nat -> (a + n <= length c)%nat -> segment a n (truncate size c) = segment a n c.
Proof. intros Ha Hc. unfold truncate. rewrite segment_take by lia. by apply segment_app. Qed.

(** The bytes [data] are in file [f] at [a]. *)
Definition holds (fs : files) (f a : Z) (data : bytes) : Prop :=
  exists c : bytes, fs !! f = Some c /\ (Z.to_nat a + length data <= length c)%nat /\ segment (Z.to_nat a) (length data) c = data.

Lemma holds_insert (fs : files) f a data g (c' : bytes) :
  holds fs f a data -> (f = g -> forall c : bytes, fs !! f = Some c -> (Z.to_nat a + length data <= length c)%nat -> segment (Z.to_nat a) (length data) c = data ->
    (Z.to_nat a + length data <= length c')%nat /\ segment (Z.to_nat a) (length data) c' = data) ->
  holds (<[g := c']> fs) f a data.
Proof.
  intros (c & Hc & Hl & Hs) H. destruct (decide (f = g)) as [->|Hne].
  - exists c'. rewrite lookup_insert_eq. split; [done|]. by apply (H eq_refl c).
  - exists c. by rewrite lookup_insert_ne.
Qed.

Section files.
Context (fopens : Z -> bool) (CheckDiskSpace : Z -> bool) (fPruneMode : bool).

Lemma Open_keeps fs pos ro fs' f a data : Open fopens fs pos ro = Some fs' -> holds fs f a data -> holds fs' f a data.
Proof.
  unfold Open. destruct (pos_IsNull pos); [done|]. destruct (negb _); [done|]. destruct (fs !! pos_nFile pos) as [c|] eqn:E.
  - by intros [= <-].
  - destruct ro; [done|]. intros [= <-] H. apply holds_insert; [done|]. intros -> c Hc. by rewrite E in Hc.
Qed.

Lemma fwrite_keeps fs pos data f a d :
  0 <= nPos pos -> (f = pos_nFile pos -> 0 <= a /\ a + Z.of_nat (length d) <= nPos pos) -> holds fs f a d -> holds (fwrite pos data fs) f a d.
Proof.
  intros Hp Hd H. unfold fwrite. destruct (fs !! pos_nFile pos) as [c|] eqn:E; [|done]. apply holds_insert; [done|].
  intros -> c0 Hc0 Hl Hs. rewrite E in Hc0. injection Hc0 as <-. destruct (Hd eq_refl) as [Ha Hle].
  rewrite write_at_keeps by lia. split; [|done]. unfold write_at. rewrite !length_app, length_take, length_app, repeat_length. lia.
Qed.

Lemma Allocate_keeps chunk fs pos add f a d :
  holds fs f a d -> holds (snd (Allocate fopens CheckDiskSpace chunk fs pos add)) f a d.
Proof.
  intros H. unfold Allocate. destruct (_ <? _); [|done]. destruct (CheckDiskSpace _); [|done].
  destruct (Open fopens fs pos false) as [fs'|] eqn:E; [|done]. cbn [snd]. pose proof (Open_keeps _ _ _ _ _ _ _ E H) as H'.
  unfold AllocateFileRange. destruct (fs' !! pos_nFile pos) as [c|] eqn:Ec; [|done]. apply holds_insert; [done|].
  intros -> c0 Hc0 Hl Hs. rewrite Ec in Hc0. injection Hc0 as <-. rewrite length_app, segment_app by done. split; [lia|done].
Qed.

Lemma Flush_keeps fs pos fin f a d :
  (f = pos_nFile pos -> 0 <= a /\ a + Z.of_nat (length d) <= nPos pos) -> holds fs f a d -> holds (snd (Flush fopens fs pos fin)) f a d.
Proof.
  intros Hd H. unfold Flush. destruct (Open _ _ _ _) as [fs'|] eqn:E; [|done]. pose proof (Open_keeps _ _ _ _ _ _ _ E H) as H'.
  destruct fin; [|done]. cbn [snd]. destruct (fs' !! pos_nFile pos) as [c|] eqn:Ec; [|done]. apply holds_insert; [done|].
  intros -> c0 Hc0 Hl Hs. rewrite Ec in Hc0. injection Hc0 as <-. destruct (Hd eq_refl) as [Ha Hle].
  rewrite truncate_keeps by lia. split; [|done]. unfold truncate. rewrite length_take, length_app, repeat_length. lia.
Qed.

End files.

(** ** Finding room *)

(** The sizes stay below the limit of a file. *)
Record store_ok (s : BlockStore) : Prop := {
  store_last : 0 <= nLastBlockFile s < Z.max 1 (Z.of_nat (length (vinfoBlockFile s)));
  store_count : Z.of_nat (length (vinfoBlockFile s)) < 2 ^ 31;
  store_sizes : Forall (fun i => 0 <= nSize i < MAX_BLOCKFILE_SIZE) (vinfoBlockFile s)
}.

(** The bytes are in the used part of a block file. *)
Definition stored (s : BlockStore) (f a : Z) (data : bytes) : Prop :=
  0 <= f /\ 0 <= a /\ holds (blk s) f a data /\
  exists i, vinfoBlockFile s !! Z.to_nat f = Some i /\ a + Z.of_nat (length data) <= nSize i.

Lemma info_at_lookup n s i : 0 <= n -> vinfoBlockFile s !! Z.to_nat n = Some i -> info_at n s = Ok i.
Proof. intros Hn Hi. unfold info_at. rewrite (proj2 (Z.ltb_ge _ _) Hn), Hi. done. Qed.

Lemma update_info_lookup n f s i :
  0 <= n -> vinfoBlockFile s !! Z.to_nat n = Some i -> update_info n f s = Ok (set_vinfo (insert (Z.to_nat n) (f i)) s).
Proof. intros Hn Hi. unfold update_info. by rewrite (info_at_lookup n s i Hn Hi). Qed.

(** [grow] adds null entries. *)
Lemma grow_spec nFile s :
  0 <= nFile -> exists k, grow nFile s = set_vinfo (fun l => l ++ repeat CBlockFileInfo_null k) s /\
    nFile < Z.of_nat (length (vinfoBlockFile s) + k) /\ Z.of_nat (length (vinfoBlockFile s) + k) = Z.max (Z.of_nat (length (vinfoBlockFile s))) (nFile + 1).
Proof.
  intros Hn. unfold grow. destruct (Z.leb_spec (Z.of_nat (length (vinfoBlockFile s))) nFile).
  - exists (Z.to_nat (nFile + 1) - length (vinfoBlockFile s))%nat. split; [done|]. lia.
  - exists 0%nat. cbn. split; [destruct s; unfold set_vinfo; cbn; by rewrite app_nil_r|]. lia.
Qed.

Lemma find_room_spec fuel add n s :
  0 < add < MAX_BLOCKFILE_SIZE -> Forall (fun i => 0 <= nSize i < MAX_BLOCKFILE_SIZE) (vinfoBlockFile s) ->
  0 <= n < Z.of_nat (length (vinfoBlockFile s)) -> Z.of_nat (length (vinfoBlockFile s)) < 2 ^ 31 ->
  Z.of_nat (length (vinfoBlockFile s)) - n <= Z.of_nat fuel ->
  exists f k i, find_room fuel add n s = Ok (f, set_vinfo (fun l => l ++ repeat CBlockFileInfo_null k) s) /\ (k <= 1)%nat /\
    n <= f < Z.of_nat (length (vinfoBlockFile s) + k) /\ (vinfoBlockFile s ++ repeat CBlockFileInfo_null k) !! Z.to_nat f = Some i /\
    nSize i + add < MAX_BLOCKFILE_SIZE.
Proof.
  intros Hadd Hall. unfold MAX_BLOCKFILE_SIZE in *. revert n. induction fuel as [|fuel IH]; intros n Hn Hlen Hf; [lia|].
  destruct (lookup_lt_is_Some_2 (vinfoBlockFile s) (Z.to_nat n)) as [i Hi]; [lia|]. pose proof (Forall_lookup_1 _ _ _ _ Hall Hi) as Hsize. cbn in Hsize.
  cbn [find_room]. rewrite (info_at_lookup n s i) by (done || lia). cbn [obind].
  assert (Hu : u32 (nSize i + add) = nSize i + add) by (apply Z.mod_small; lia). rewrite Hu.
  assert (Hid : set_vinfo (fun l => l ++ repeat CBlockFileInfo_null 0) s = s) by (destruct s; unfold set_vinfo; cbn; by rewrite app_nil_r).
  unfold MAX_BLOCKFILE_SIZE. destruct (Z.leb_spec 0x8000000 (nSize i + add)).
  2: { exists n, 0%nat, i. rewrite Hid. cbn [repeat]. rewrite app_nil_r. split_and!; [done|lia|lia|lia|done|lia]. }
  assert (Hu1 : u32 (n + 1) = n + 1) by (apply Z.mod_small; lia). rewrite Hu1.
  destruct (decide (n + 1 < Z.of_nat (length (vinfoBlockFile s)))) as [Hlt|Hge].
  - destruct (grow_spec (n + 1) s) as (k & Eg & _ & Hk); [lia|]. replace k with 0%nat in Eg by lia. rewrite Eg, Hid.
    destruct (IH (n + 1)) as (f & k' & i' & -> & Hk' & Hf' & Hi' & Hs'); [lia..|]. exists f, k', i'. split_and!; [done|done|lia|lia|done|done].
  - destruct (grow_spec (n + 1) s) as (k & Eg & _ & Hk); [lia|]. replace k with 1%nat in Eg by lia. rewrite Eg.
    assert (Hnull : vinfoBlockFile (set_vinfo (fun l => l ++ repeat CBlockFileInfo_null 1) s) !! Z.to_nat (n + 1) = Some CBlockFileInfo_null).
    { cbn. rewrite lookup_app_r by lia. replace (Z.to_nat (n + 1) - length (vinfoBlockFile s))%nat with 0%nat by lia. done. }
    assert (Hroom : find_room fuel add (n + 1) (set_vinfo (fun l => l ++ repeat CBlockFileInfo_null 1) s) =
      Ok (n + 1, set_vinfo (fun l => l ++ repeat CBlockFileInfo_null 1) s)).
    { destruct fuel; cbn [find_room]; rewrite (info_at_lookup (n + 1) _ CBlockFileInfo_null) by (exact Hnull || lia); cbn [obind nSize CBlockFileInfo_null];
        (assert (Hu2 : u32 (0 + add) = add) by (apply Z.mod_small; lia)); rewrite Hu2; unfold MAX_BLOCKFILE_SIZE; rewrite (proj2 (Z.leb_gt _ _)) by lia; done. }
    rewrite Hroom. exists (n + 1), 1%nat, CBlockFileInfo_null. split_and!; [done|lia|lia|lia|exact Hnull|cbn; lia].
Qed.

Section positions.
Context (fopens : Z -> bool) (CheckDiskSpace : Z -> bool) (fPruneMode : bool).

Lemma FlushBlockFile_spec fin s i :
  0 <= nLastBlockFile s -> vinfoBlockFile s !! Z.to_nat (nLastBlockFile s) = Some i ->
  exists s', FlushBlockFile fopens fin s = Ok s' /\ vinfoBlockFile s' = vinfoBlockFile s /\
    forall f a d, stored s f a d -> holds (blk s') f a d.
Proof.
  intros Hn Hi. unfold FlushBlockFile. rewrite (info_at_lookup _ s i Hn Hi). cbn [obind]. eexists. split; [done|]. split; [done|].
  intros f a d (Hf & Ha & Hh & j & Hj & Hle). cbn [blk set_rev set_blk]. apply Flush_keeps; [|done]. cbn [pos_nFile nPos].
  intros ->. rewrite Hi in Hj. injection Hj as <-. lia.
Qed.

Lemma nulls_fit k : Forall (fun i => 0 <= nSize i < MAX_BLOCKFILE_SIZE) (repeat CBlockFileInfo_null k).
Proof. apply Forall_forall. intros i Hi%list_elem_of_In%repeat_spec. subst i. by vm_compute. Qed.

(** The bookkeeping of a file that gets a block *)
Lemma record_spec {A} n h t add s i (k : BlockStore -> outcome A) :
  0 <= n -> vinfoBlockFile s !! Z.to_nat n = Some i ->
  (s <-! update_info n (AddBlock h t) s ; s <-! update_info n (fun i => set_nSize (u32 (nSize i + add)) i) s ; k s) =
  k (set_vinfo (insert (Z.to_nat n) (set_nSize (u32 (nSize i + add)) (AddBlock h t i))) s).
Proof.
  intros Hn Hi. rewrite (update_info_lookup n _ s i Hn Hi). cbn [obind].
  rewrite (update_info_lookup n _ _ (AddBlock h t i)); [|done|by cbn; rewrite list_lookup_insert_eq by (by eapply lookup_lt_Some)].
  cbn [obind]. unfold set_vinfo. cbn. by rewrite list_insert_insert_eq.
Qed.

Lemma choose_file_spec add s :
  store_ok s -> Z.of_nat (length (vinfoBlockFile s)) + 1 < 2 ^ 31 -> 0 < add < MAX_BLOCKFILE_SIZE ->
  let s0 := grow (nLastBlockFile s) s in
  exists f k i, find_room (length (vinfoBlockFile s0)) add (nLastBlockFile s) s0 = Ok (f, set_vinfo (fun l => l ++ repeat CBlockFileInfo_null k) s) /\
    nLastBlockFile s <= f < Z.of_nat (length (vinfoBlockFile s) + k) /\ Z.of_nat (length (vinfoBlockFile s) + k) <= Z.max 1 (Z.of_nat (length (vinfoBlockFile s))) + 1 /\
    (vinfoBlockFile s ++ repeat CBlockFileInfo_null k) !! Z.to_nat f = Some i /\ 0 <= nSize i /\ nSize i + add < MAX_BLOCKFILE_SIZE.
Proof.
  intros [Hlast Hcount Hsizes] Hroom Hadd s0. subst s0. destruct (grow_spec (nLastBlockFile s) s) as (k0 & -> & Hk0 & Hk0'); [lia|].
  pose proof (nulls_fit k0) as Hnull.
  destruct (find_room_spec (length (vinfoBlockFile (set_vinfo (fun l => l ++ repeat CBlockFileInfo_null k0) s))) add (nLastBlockFile s)
    (set_vinfo (fun l => l ++ repeat CBlockFileInfo_null k0) s)) as (f & k & i & -> & Hk & Hf & Hi & Hsz);
    cbn [vinfoBlockFile set_vinfo]; rewrite ?length_app, ?repeat_length; [done|by apply Forall_app|lia..|].
  cbn [vinfoBlockFile set_vinfo] in *. rewrite length_app, repeat_length in Hf. rewrite <- (app_assoc _ (repeat _ k0)), <- (repeat_app _ k0) in Hi.
  exists f, (k0 + k)%nat, i. split_and!; [|lia|lia|lia|done| |done].
  - do 2 f_equal. unfold set_vinfo. cbn. by rewrite <- app_assoc, <- repeat_app.
  - assert (HF : Forall (fun i => 0 <= nSize i < MAX_BLOCKFILE_SIZE) (vinfoBlockFile s ++ repeat CBlockFileInfo_null (k0 + k))) by (apply Forall_app; split; [done|apply nulls_fit]).
    exact (proj1 (Forall_lookup_1 _ _ _ _ HF Hi)).
Qed.

(** What is stored stays stored in a state that keeps the contents and only raises the
    size of one file. *)
Lemma stored_grow s s' f a d k n i j :
  stored s f a d -> holds (blk s') f a d -> vinfoBlockFile s' = <[n := j]> (vinfoBlockFile s ++ repeat CBlockFileInfo_null k) ->
  (vinfoBlockFile s ++ repeat CBlockFileInfo_null k) !! n = Some i -> nSize i <= nSize j -> stored s' f a d.
Proof.
  intros (Hf & Ha & _ & e & He & Hle) Hh Ev Hi Hij. split_and!; [done|done|done|]. rewrite Ev.
  assert (He' : (vinfoBlockFile s ++ repeat CBlockFileInfo_null k) !! Z.to_nat f = Some e) by by apply lookup_app_l_Some.
  destruct (decide (n = Z.to_nat f)) as [->|Hne].
  - exists j. rewrite list_lookup_insert_eq by (by eapply lookup_lt_Some). split; [done|]. rewrite He' in Hi. injection Hi as <-. lia.
  - exists e. by rewrite list_lookup_insert_ne.
Qed.

(** A block goes behind everything the chosen file holds, and the file is big enough for
    it. The verdict is only about the disk. *)
Lemma FindBlockPos_spec pos add h t s :
  store_ok s -> Z.of_nat (length (vinfoBlockFile s)) + 1 < 2 ^ 31 -> 0 < add < MAX_BLOCKFILE_SIZE ->
  exists ok pos' s' i, FindBlockPos fopens CheckDiskSpace fPruneMode pos add h t false s = Ok (ok, pos', s') /\ store_ok s' /\
    Z.of_nat (length (vinfoBlockFile s')) <= Z.max 1 (Z.of_nat (length (vinfoBlockFile s))) + 1 /\
    0 <= pos_nFile pos' /\ 0 <= nPos pos' /\ vinfoBlockFile s' !! Z.to_nat (pos_nFile pos') = Some i /\ nSize i = nPos pos' + add /\ h <= nHeightLast i /\ ((forall n, CheckDiskSpace n = true) -> ok = true) /\
    forall f a d, stored s f a d -> stored s' f a d /\ (f = pos_nFile pos' -> a + Z.of_nat (length d) <= nPos pos').
Proof.
  intros Hok Hroom Hadd. pose proof Hok as [Hlast Hcount Hsizes]. unfold FindBlockPos. cbv zeta.
  assert (Hu : u32 (nLastBlockFile s) = nLastBlockFile s) by (apply Z.mod_small; lia). rewrite Hu.
  destruct (choose_file_spec add s Hok Hroom Hadd) as (f & k & i & -> & Hf & Hlen & Hi & Hpos & Hsz). cbn [obind].
  set (l := vinfoBlockFile s ++ repeat CBlockFileInfo_null k) in *. set (s1 := set_vinfo _ s).
  assert (Hs32 : s32 f = f) by (apply swrap_small; unfold in_s; lia). rewrite Hs32, (info_at_lookup f s1 i) by (done || lia). cbn [obind].
  assert (Hflush : exists s2, (if negb (f =? nLastBlockFile s1) then s <-! FlushBlockFile fopens (negb false) s1 ; Ok (set_nLastBlockFile f s) else Ok s1) = Ok s2 /\
    vinfoBlockFile s2 = l /\ nLastBlockFile s2 = f /\ forall g a d, stored s g a d -> holds (blk s2) g a d).
  { assert (Hs1 : forall g a d, stored s g a d -> stored s1 g a d).
    { intros g a d (Hg & Ha & Hh & e & He & Hle). split_and!; [done|done|done|]. exists e. split; [by apply lookup_app_l_Some|done]. }
    destruct (Z.eqb_spec f (nLastBlockFile s1)) as [E|Hne]; cbn [negb].
    - exists s1. split_and!; [done|done|done|]. intros g a d Hst. apply (Hs1 _ _ _ Hst).
    - destruct (lookup_lt_is_Some_2 l (Z.to_nat (nLastBlockFile s))) as [e He]; [subst l; rewrite length_app, repeat_length; lia|].
      destruct (FlushBlockFile_spec true s1 e) as (s2 & -> & Ev & Hk); [exact (proj1 Hlast)|done|]. cbn [obind].
      eexists. split_and!; [done|exact Ev|done|]. intros g a d Hst. apply Hk, Hs1, Hst. }
  destruct Hflush as (s2 & -> & Ev2 & El2 & Hkeep2). cbn [obind].
  rewrite (record_spec f h t add s2 i) by (rewrite ?Ev2; done || lia).
  assert (Hu2 : u32 (nSize i + add) = nSize i + add) by (apply Z.mod_small; unfold MAX_BLOCKFILE_SIZE in *; lia). rewrite Hu2.
  set (j := set_nSize _ _). set (s3 := set_vinfo _ s2).
  destruct (Allocate _ _ _ _ _ _) as [[n out] fs] eqn:Eal.
  match goal with |- exists _ _ _ _, ?r = _ /\ _ => assert (Htail : exists ok s', r = Ok (ok, Build_FlatFilePos f (nSize i), s') /\
    vinfoBlockFile s' = <[Z.to_nat f := j]> l /\ nLastBlockFile s' = f /\ blk s' = fs /\ (out = false -> ok = true)) end.
  { destruct out; [|destruct (_ && _)]; do 2 eexists; (split; [done|]); cbn; rewrite Ev2; done. }
  destruct Htail as (ok & s' & -> & Ev' & El' & Eb' & Eok). exists ok, (Build_FlatFilePos f (nSize i)), s', j. cbn [pos_nFile nPos].
  assert (Hl : (Z.to_nat f < length l)%nat) by by eapply lookup_lt_Some.
  split_and!; [done| | |lia|done| |done| | |].
  - constructor; rewrite Ev', ?El', ?length_insert; [lia|unfold l; rewrite length_app, repeat_length; lia|].
    apply Forall_insert; [|cbn; lia]. apply Forall_app. split; [done|apply nulls_fit].
  - rewrite Ev', length_insert. unfold l. rewrite length_app, repeat_length. lia.
  - rewrite Ev'. by apply list_lookup_insert_eq.
  - cbn. destruct (Z.ltb_spec (nHeightLast i) h); lia.
  - intros Hspace. apply Eok. unfold Allocate in Eal. rewrite Hspace in Eal. destruct (_ <? _); [destruct (Open _ _ _ _)|]; congruence.
  - intros g a d Hst. split.
    + apply (stored_grow s s' g a d k (Z.to_nat f) i j); [done| |done|done|cbn; lia]. rewrite Eb'.
      pose proof (Allocate_keeps fopens CheckDiskSpace BLOCKFILE_CHUNK_SIZE (blk s3) (Build_FlatFilePos f (nSize i)) add g a d (Hkeep2 g a d Hst)) as H.
      by rewrite Eal in H.
    + intros ->. destruct Hst as (_ & Ha & _ & e & He & Hle).
      assert (He' : l !! Z.to_nat f = Some e) by by apply lookup_app_l_Some. rewrite Hi in He'. injection He' as <-. lia.
Qed.

End positions.

(** ** Writing and reading blocks *)

Section blocks.
Context (fopens : Z -> bool) (CheckDiskSpace : Z -> bool) (fPruneMode : bool).

(** What [WriteBlockToDisk] puts into a file *)
Definition disk_record (messageStart : bytes) (block : CBlock) : bytes :=
  messageStart ++ Serialize_uint32 (u32 (Z.of_nat (length (Serialize_CBlock true block)))) ++ Serialize_CBlock true block.

Lemma write_at_append pos d1 d2 c : 0 <= pos -> write_at (pos + Z.of_nat (length d1)) d2 (write_at pos d1 c) = write_at pos (d1 ++ d2) c.
Proof.
  intros Hp. unfold write_at at 1. rewrite Z2Nat.inj_add, Nat2Z.id by lia.
  assert (HP : length (take (Z.to_nat pos) (c ++ repeat 0 (Z.to_nat pos - length c))) = Z.to_nat pos) by (rewrite length_take, length_app, repeat_length; lia).
  unfold write_at. revert HP. generalize (take (Z.to_nat pos) (c ++ repeat 0 (Z.to_nat pos - length c))) as P. intros P HP.
  replace (Z.to_nat pos + length d1 - _)%nat with 0%nat by (rewrite !length_app; lia). cbn [repeat]. rewrite app_nil_r, !app_assoc.
  rewrite take_app_length' by (rewrite length_app; lia). rewrite <- !app_assoc. do 3 f_equal.
  rewrite app_assoc, drop_app_ge by (rewrite length_app; lia). rewrite drop_drop, !length_app. f_equal. lia.
Qed.

Lemma fwrite_append pos d1 d2 fs :
  0 <= nPos pos -> fwrite (Build_FlatFilePos (pos_nFile pos) (nPos pos + Z.of_nat (length d1))) d2 (fwrite pos d1 fs) = fwrite pos (d1 ++ d2) fs.
Proof.
  intros Hp. unfold fwrite. cbn [pos_nFile nPos]. destruct (fs !! pos_nFile pos) as [c|] eqn:E; [|by rewrite E].
  rewrite lookup_insert_eq, insert_insert_eq. by rewrite write_at_append.
Qed.

Lemma fwrite_writes pos data fs : 0 <= nPos pos -> is_Some (fs !! pos_nFile pos) -> holds (fwrite pos data fs) (pos_nFile pos) (nPos pos) data.
Proof.
  intros Hp [c Hc]. unfold fwrite. rewrite Hc. exists (write_at (nPos pos) data c). rewrite lookup_insert_eq. split; [done|].
  split; [|by apply write_at_writes]. unfold write_at. rewrite !length_app, length_take, length_app, repeat_length. lia.
Qed.

Lemma Open_present fs pos ro fs' : Open fopens fs pos ro = Some fs' -> is_Some (fs' !! pos_nFile pos) /\ fopens (pos_nFile pos) = true.
Proof.
  unfold Open. destruct (pos_IsNull pos); [done|]. destruct (fopens _); [|done]. cbn [negb]. destruct (fs !! _) as [c|] eqn:E.
  - intros [= <-]. by rewrite E.
  - destruct ro; [done|]. intros [= <-]. by rewrite lookup_insert_eq.
Qed.

Lemma uint32_length n : length (Serialize_uint32 n) = 4%nat.
Proof. done. Qed.

Lemma disk_record_length ms block : length ms = 4%nat -> length (disk_record ms block) = (8 + length (Serialize_CBlock true block))%nat.
Proof. intros H. unfold disk_record. rewrite !length_app, uint32_length. lia. Qed.

Lemma WriteBlockToDisk_spec ms block pos fs :
  length ms = 4%nat -> 0 <= pos_nFile pos -> 0 <= nPos pos < 2 ^ 32 - 8 ->
  WriteBlockToDisk fopens ms block pos fs =
  match Open fopens fs pos false with
  | None => (false, pos, fs)
  | Some fs => (true, Build_FlatFilePos (pos_nFile pos) (nPos pos + 8), fwrite pos (disk_record ms block) fs)
  end.
Proof.
  intros Hms Hf Hp. unfold WriteBlockToDisk. destruct (Open _ _ _ _) as [fs'|]; [|done].
  assert (Hh : Z.of_nat (length (ms ++ Serialize_uint32 (u32 (Z.of_nat (length (Serialize_CBlock true block)))))) = 8) by (rewrite length_app, uint32_length; lia).
  rewrite Hh. replace (u32 (nPos pos + 8)) with (nPos pos + 8) by (symmetry; apply Z.mod_small; lia). f_equal.
  unfold disk_record. rewrite app_assoc.
  rewrite <- (fwrite_append pos (ms ++ Serialize_uint32 (u32 (Z.of_nat (length (Serialize_CBlock true block)))))) by lia. by rewrite Hh.
Qed.

(** Saving a block writes its record behind everything stored before, or reports the
    null position, and never damages what is stored. *)
Lemma SaveBlockToDisk_spec ms block h s :
  store_ok s -> Z.of_nat (length (vinfoBlockFile s)) + 1 < 2 ^ 31 ->
  length ms = 4%nat -> Z.of_nat (length (Serialize_CBlock true block)) + 8 < MAX_BLOCKFILE_SIZE ->
  exists pos s', SaveBlockToDisk fopens CheckDiskSpace fPruneMode ms block h None s = Ok (pos, s') /\ store_ok s' /\
    Z.of_nat (length (vinfoBlockFile s')) <= Z.max 1 (Z.of_nat (length (vinfoBlockFile s))) + 1 /\
    (forall f a d, stored s f a d -> stored s' f a d) /\
    ((forall n, fopens n = true) -> (forall n, CheckDiskSpace n = true) -> pos <> FlatFilePos_null) /\
    (pos = FlatFilePos_null \/
     8 <= nPos pos /\ fopens (pos_nFile pos) = true /\ stored s' (pos_nFile pos) (nPos pos - 8) (disk_record ms block)).
Proof.
  intros Hok Hroom Hms Hlen. unfold SaveBlockToDisk. cbv zeta. unfold MAX_BLOCKFILE_SIZE in Hlen.
  set (n := Z.of_nat (length (Serialize_CBlock true block))) in *.
  assert (Hn : 0 <= n) by lia. assert (Hu : u32 (u32 n + 8) = n + 8) by (unfold u32; rewrite (Z.mod_small n) by lia; apply Z.mod_small; lia).
  rewrite Hu. destruct (FindBlockPos_spec fopens CheckDiskSpace fPruneMode FlatFilePos_null (n + 8) h (hdr_nTime (blk_header block)) s)
    as (ok & pos & s1 & i & -> & Hok1 & Hcnt & Hf & Hp & Hi & Hsize & _ & Hspace & Hst); [done|done|unfold MAX_BLOCKFILE_SIZE; lia|].
  cbn [obind]. destruct ok; cbn [negb].
  2: { do 2 eexists. split_and!; [done|done|done| | |by left]; [intros f a d Hd; by apply Hst|]. intros _ H. by specialize (Hspace H). }
  pose proof (Forall_lookup_1 _ _ _ _ (store_sizes _ Hok1) Hi) as [_ Hmax]. unfold MAX_BLOCKFILE_SIZE in Hmax.
  rewrite WriteBlockToDisk_spec by (done || lia). destruct (Open fopens (blk s1) pos false) as [fs|] eqn:Eo; cbn [negb].
  2: { do 2 eexists. split_and!; [done|by destruct Hok1|done| | |by left]; [intros f a d Hd; by apply Hst|]. intros H _. unfold Open, pos_IsNull in Eo.
       rewrite (proj2 (Z.eqb_neq _ _)), H in Eo by lia. cbn in Eo. by destruct (blk s1 !! _). }
  destruct (Open_present _ _ _ _ Eo) as [Hpres Hopens].
  do 2 eexists. split_and!; [done|by destruct Hok1|done| |intros _ _ [= E]; lia|right; cbn [pos_nFile nPos]; split_and!; [lia|done|]].
  - intros f a d Hd. destruct (Hst f a d Hd) as [(? & ? & Hh & Hv) Hbelow]. split_and!; [done|done| |done].
    apply fwrite_keeps; [lia|intros E; split; [done|by apply Hbelow]|by eapply Open_keeps].
  - split_and!; [done|lia| |].
    + replace (nPos pos + 8 - 8) with (nPos pos) by lia. by apply fwrite_writes.
    + exists i. split; [done|]. rewrite disk_record_length by done. lia.
Qed.

(** Block after block, each with its height *)
Fixpoint save_all (ms : bytes) (l : list (CBlock * Z)) (s : BlockStore) : outcome (list FlatFilePos * BlockStore) :=
  match l with
  | [] => Ok ([], s)
  | (block, h) :: l =>
    r <-! SaveBlockToDisk fopens CheckDiskSpace fPruneMode ms block h None s ;
    r' <-! save_all ms l (snd r) ;
    Ok (fst r :: fst r', snd r')
  end.

(** A block that is read back: its header passes the check of a reader. *)
Record savable (params : Params) (block : CBlock) : Prop := {
  savable_valid : valid_block block;
  savable_size : Z.of_nat (length (Serialize_CBlock true block)) + 8 < MAX_BLOCKFILE_SIZE;
  savable_header : header_IsProofOfStake (blk_header block) || CheckHeaderPoW params (blk_header block) = true
}.

Lemma holds_read f a k d s :
  holds (blk s) f a d -> fopens f = true -> 0 <= f -> 0 <= a -> 0 <= k <= Z.of_nat (length d) ->
  exists rest, read_from fopens (blk s) (Build_FlatFilePos f (a + k)) = Some (drop (Z.to_nat k) d ++ rest).
Proof.
  intros (c & Hc & Hl & Hseg) Hopen Hf Ha Hk. exists (drop (Z.to_nat a + length d) c). unfold read_from, Open, pos_IsNull. cbn [pos_nFile nPos].
  rewrite (proj2 (Z.eqb_neq f (-1))), Hopen by lia. cbn [negb]. rewrite !Hc. cbn. f_equal.
  rewrite Z2Nat.inj_add, <- drop_drop by lia. unfold segment in Hseg.
  rewrite <- (take_drop (length d) (drop (Z.to_nat a) c)), Hseg, drop_drop. apply drop_app_le. lia.
Qed.

Lemma stored_reads params ms block f a s :
  store_ok s -> savable params block -> length ms = 4%nat -> fopens f = true -> stored s f a (disk_record ms block) ->
  ReadBlockFromDisk_pos fopens params s (Build_FlatFilePos f (a + 8)) = Some block /\
  ReadRawBlockFromDisk fopens ms s (Build_FlatFilePos f (a + 8)) = Some (Serialize_CBlock true block).
Proof.
  intros Hok [Hval Hsize Hhdr] Hms Hopen (Hf & Ha & Hh & i & Hi & Hle).
  rewrite disk_record_length in Hle by done. pose proof (Forall_lookup_1 _ _ _ _ (store_sizes _ Hok) Hi) as [_ Hmax]. unfold MAX_BLOCKFILE_SIZE in Hmax. split.
  - unfold ReadBlockFromDisk_pos. destruct (holds_read f a 8 _ s Hh Hopen Hf Ha) as [rest ->]; [rewrite disk_record_length by done; lia|].
    unfold disk_record. rewrite app_assoc, drop_app_length' by (rewrite length_app, uint32_length; lia). cbn [mbind option_bind].
    rewrite block_round_trip by done. cbn [mbind option_bind]. by rewrite <- negb_orb, Hhdr.
  - unfold ReadRawBlockFromDisk. cbn [pos_nFile nPos]. replace (u32 (a + 8 - 8)) with (a + 0) by (replace (a + 8 - 8) with a by lia; rewrite Z.add_0_r; symmetry; apply Z.mod_small; lia).
    destruct (holds_read f a 0 _ s Hh Hopen Hf Ha) as [rest ->]; [rewrite disk_record_length by done; lia|].
    unfold disk_record. rewrite drop_0, <- app_assoc. cbn [mbind option_bind]. rewrite read_app by done. cbn [mbind option_bind].
    unfold MAX_BLOCKFILE_SIZE in Hsize. rewrite <- app_assoc, locktime_reads by (apply wrap_range; lia). cbn [mbind option_bind].
    rewrite (proj2 (bytes_eqb_eq ms ms)) by done. cbn [negb]. unfold u32. rewrite Z.mod_small by lia.
    rewrite (proj2 (Z.ltb_ge _ _)) by (unfold MAX_SIZE; lia). rewrite read_app by lia. done.
Qed.

Lemma save_all_spec params ms l s :
  store_ok s -> Z.max 1 (Z.of_nat (length (vinfoBlockFile s))) + Z.of_nat (length l) < 2 ^ 31 ->
  length ms = 4%nat -> Forall (savable params) (map fst l) ->
  exists ps s', save_all ms l s = Ok (ps, s') /\ store_ok s' /\ (forall f a d, stored s f a d -> stored s' f a d) /\
    ((forall n, fopens n = true) -> (forall n, CheckDiskSpace n = true) -> FlatFilePos_null ∉ ps) /\
    Forall2 (fun x pos => pos = FlatFilePos_null \/
      8 <= nPos pos /\ fopens (pos_nFile pos) = true /\ stored s' (pos_nFile pos) (nPos pos - 8) (disk_record ms (fst x))) l ps.
Proof.
  intros Hok Hroom Hms Hl. revert s Hok Hroom. induction l as [|[block h] l IH]; intros s Hok Hroom.
  { exists [], s. split_and!; [done|done|done|by intros _ _ ?%elem_of_nil|constructor]. }
  cbn [map fst] in Hl. apply Forall_cons in Hl as [Hb Hl]. cbn [length] in Hroom. pose proof (savable_size _ _ Hb) as Hsize.
  cbn [save_all]. destruct (SaveBlockToDisk_spec ms block h s) as (pos & s1 & -> & Hok1 & Hcnt & Hkeep & Hnn & Hpos); [done|lia|done|done|].
  cbn [obind fst snd]. destruct (IH Hl s1) as (ps & s' & -> & Hok' & Hkeep' & Hnn' & Hps); [done|lia|].
  cbn [obind fst snd]. exists (pos :: ps), s'. split_and!; [done|done|by intros; apply Hkeep', Hkeep| |].
  - intros Ho Hd [E|E]%elem_of_cons; [by apply (Hnn Ho Hd)|by apply (Hnn' Ho Hd)].
  - constructor; [|done]. destruct Hpos as [->|(H8 & Ho & Hst)]; [by left|right]. split_and!; [done|done|by apply Hkeep'].
Qed.

(** C16: blocks saved one after another are all read back, by [ReadBlockFromDisk] as blocks
    and by [ReadRawBlockFromDisk] as bytes, whatever the files held before and although
    each write may open a new file, finalize the last one and preallocate space; a
    position is null only if the disk is full or a file cannot be opened. *)
Theorem saved_blocks_read_back params ms l s :
  store_ok s -> Z.max 1 (Z.of_nat (length (vinfoBlockFile s))) + Z.of_nat (length l) < 2 ^ 31 ->
  length ms = 4%nat -> Forall (savable params) (map fst l) ->
  exists ps s', save_all ms l s = Ok (ps, s') /\ store_ok s' /\
    ((forall n, fopens n = true) -> (forall n, CheckDiskSpace n = true) -> FlatFilePos_null ∉ ps) /\
    Forall2 (fun x pos => pos = FlatFilePos_null \/
      ReadBlockFromDisk_pos fopens params s' pos = Some (fst x) /\
      ReadRawBlockFromDisk fopens ms s' pos = Some (Serialize_CBlock true (fst x))) l ps.
Proof.
  intros Hok Hroom Hms Hl. destruct (save_all_spec params ms l s Hok Hroom Hms Hl) as (ps & s' & E & Hok' & _ & Hnn & Hps).
  exists ps, s'. split_and!; [done|done|done|]. clear E Hroom Hnn. induction Hps as [|[block h] [f a] l ps Hp Hps IH]; [constructor|].
  cbn [map fst] in Hl. apply Forall_cons in Hl as [Hb Hl]. constructor; [|by apply IH].
  destruct Hp as [->|(H8 & Ho & Hst)]; [by left|right]. cbn [pos_nFile nPos] in *.
  destruct (stored_reads params ms block f (a - 8) s' Hok' Hb Hms Ho Hst) as [Hr1 Hr2]. by replace (a - 8 + 8) with a in * by lia.
Qed.

End blocks.

(** ** Pruning *)

Definition has_data (b : CBlockIndex) : bool := negb (missing_data b).

Definition prune_of (F : gset Z) (b : CBlockIndex) : CBlockIndex := if decide (nFile b ∈ F) then unset_data b else b.

Definition null_of (F : gset Z) (n : nat) (i : CBlockFileInfo) : CBlockFileInfo :=
  if decide (Z.of_nat n ∈ F) then CBlockFileInfo_null else i.

(** What pruning does to the index ([g] on the entries) and to the store *)
Record index_maps (g : ptr -> CBlockIndex -> CBlockIndex) (cs cs' : ChainState) : Prop := {
  maps_entries : forall p, entries cs' !! p = g p <$> entries cs !! p;
  maps_index : m_block_index cs' = m_block_index cs;
  maps_chain : m_chain cs' = m_chain cs;
  maps_candidates : setBlockIndexCandidates cs' = setBlockIndexCandidates cs;
  maps_failed : m_failed_blocks cs' = m_failed_blocks cs;
  maps_bests : [pindexBestHeader cs'; pindexBestInvalid cs'; pindexBestForkTip cs'; pindexBestForkBase cs'] =
    [pindexBestHeader cs; pindexBestInvalid cs; pindexBestForkTip cs; pindexBestForkBase cs];
  maps_unlinked : forall x, x ∈ m_blocks_unlinked cs' -> x ∈ m_blocks_unlinked cs;
  maps_clean : forall p, p ∉ setDirtyBlockIndex cs' -> (p ∉ setDirtyBlockIndex cs) /\ entries cs' !! p = entries cs !! p;
  maps_dirty : forall p, p ∈ setDirtyBlockIndex cs' -> p ∈ setDirtyBlockIndex cs \/ present cs p
}.

Record store_pruned (F : gset Z) (s s' : BlockStore) : Prop := {
  pruned_info : forall n, vinfoBlockFile s' !! n = null_of F n <$> vinfoBlockFile s !! n;
  pruned_last : nLastBlockFile s' = nLastBlockFile s;
  pruned_blk : blk s' = blk s;
  pruned_rev : rev_ s' = rev_ s;
  pruned_dirty : setDirtyFileInfo s' = F ∪ setDirtyFileInfo s
}.

Lemma unset_data_twice b : unset_data (unset_data b) = unset_data b.
Proof.
  unfold unset_data at 1 3. f_equal. cbn [nStatus unset_data]. generalize (nStatus b). intros z.
  generalize (u32 (Z.lnot BLOCK_HAVE_DATA)) (u32 (Z.lnot BLOCK_HAVE_UNDO)). intros x y. apply Z.bits_inj. intros n. rewrite !Z.land_spec.
  by destruct (Z.testbit z n), (Z.testbit x n), (Z.testbit y n).
Qed.

Lemma prune_of_compose F G b : prune_of G (prune_of F b) = prune_of (G ∪ F) b.
Proof.
  unfold prune_of. destruct (decide (nFile b ∈ F)).
  - rewrite (decide_True (P := nFile b ∈ G ∪ F)) by set_solver. case_decide; [apply unset_data_twice|done].
  - destruct (decide (nFile b ∈ G)); [rewrite decide_True|rewrite decide_False]; rewrite ?elem_of_union; tauto.
Qed.

Lemma index_maps_trans g h cs1 cs2 cs3 :
  index_maps g cs1 cs2 -> index_maps h cs2 cs3 -> index_maps (fun p b => h p (g p b)) cs1 cs3.
Proof.
  intros [] []. split; [|congruence..|by auto| |].
  - intros p. rewrite maps_entries1, maps_entries0. by destruct (entries cs1 !! p).
  - intros p Hp. destruct (maps_clean1 p Hp) as [H2 E2]. destruct (maps_clean0 p H2) as [H1 E1]. split; [done|congruence].
  - intros p [Hp|[b Hp]]%maps_dirty1; [by apply maps_dirty0|]. right. unfold present. rewrite maps_entries0 in Hp. apply fmap_Some in Hp as (b' & Hp & _). by exists b'.
Qed.

Lemma index_maps_ext g h cs cs' : (forall p b, entries cs !! p = Some b -> g p b = h p b) -> index_maps g cs cs' -> index_maps h cs cs'.
Proof.
  intros E []. split; [|done..]. intros p. rewrite maps_entries0. destruct (entries cs !! p) as [b|] eqn:Ep; [|done]. cbn. by rewrite (E p b Ep).
Qed.

Lemma index_maps_refl g cs : (forall p b, entries cs !! p = Some b -> g p b = b) -> index_maps g cs cs.
Proof. intros E. split; [|done..|by left]. intros p. destruct (entries cs !! p) as [b|] eqn:Ep; [|done]. cbn. by rewrite (E p b Ep). Qed.

Lemma store_pruned_refl s : store_pruned ∅ s s.
Proof. split; [|done..|by rewrite union_empty_l_L]. intros n. destruct (vinfoBlockFile s !! n); [|done]. cbn. unfold null_of. by rewrite decide_False by set_solver. Qed.

(** One entry, and the entries of a list *)
Lemma prune_entry_spec k p cs b :
  entries cs !! p = Some b -> exists cs', prune_entry k p cs = Ok cs' /\ index_maps (fun q => if decide (q = p) then prune_of {[k]} else id) cs cs'.
Proof.
  intros Hp. unfold prune_entry, deref. rewrite Hp. cbn [obind of_option]. destruct (Z.eqb_spec (nFile b) k) as [E|Hne].
  - eexists. split; [reflexivity|]. split; [|done..| | |].
    + intros q. cbn. destruct (decide (q = p)) as [->|Hq].
      * rewrite lookup_insert_eq, Hp. cbn. unfold prune_of. by rewrite decide_True by set_solver.
      * rewrite lookup_insert_ne by done. by destruct (entries cs !! q).
    + intros x Hx. cbn in Hx. apply list_elem_of_In, filter_In in Hx as [Hx _]. by apply list_elem_of_In.
    + intros q Hq. cbn in Hq |- *. split; [set_solver|]. apply lookup_insert_ne. set_solver.
    + intros q Hq. cbn in Hq. apply elem_of_union in Hq as [->%elem_of_singleton|Hq]; [right; by exists b|by left].
  - exists cs. split; [done|]. apply index_maps_refl. intros q bq Hq. destruct (decide (q = p)) as [->|]; [|done].
    rewrite Hp in Hq. injection Hq as <-. unfold prune_of. by rewrite decide_False by set_solver.
Qed.

Lemma prune_entries_spec k l cs :
  (forall p, p ∈ l -> present cs p) ->
  exists cs', prune_entries k l cs = Ok cs' /\ index_maps (fun q => if decide (q ∈ l) then prune_of {[k]} else id) cs cs'.
Proof.
  revert cs. induction l as [|p l IH]; intros cs Hl.
  { exists cs. split; [done|]. apply index_maps_refl. intros q b _. by rewrite decide_False by set_solver. }
  cbn [prune_entries]. destruct (Hl p) as [b Hp]; [by constructor|]. destruct (prune_entry_spec k p cs b Hp) as (cs1 & -> & H1). cbn [obind].
  destruct (IH cs1) as (cs' & -> & H2).
  { intros q Hq. destruct (Hl q) as [bq Hbq]; [by constructor|]. unfold present. rewrite (maps_entries _ _ _ H1), Hbq. by eexists. }
  exists cs'. split; [done|]. eapply index_maps_ext, index_maps_trans; [|exact H1|exact H2]. intros q bq _. cbn.
  destruct (decide (q = p)) as [->|Hne].
  - rewrite (decide_True (P := p ∈ p :: l)) by by constructor. destruct (decide (p ∈ l)); [|done]. by rewrite prune_of_compose, union_idemp_L.
  - destruct (decide (q ∈ l)); [rewrite decide_True by by constructor|rewrite decide_False by (by rewrite elem_of_cons; intros [])]; done.
Qed.

Lemma prune_of_fields F b :
  shape (prune_of F b) = shape b /\ nChainTx (prune_of F b) = nChainTx b /\ nChainWork (prune_of F b) = nChainWork b /\ invalid (prune_of F b) = invalid b.
Proof.
  unfold prune_of. case_decide; [|done]. split_and!; [done..|]. unfold invalid, unset_data. cbn [nStatus]. rewrite <- !Z.land_assoc.
  by change (Z.land (u32 (Z.lnot BLOCK_HAVE_DATA)) (Z.land (u32 (Z.lnot BLOCK_HAVE_UNDO)) BLOCK_FAILED_VALID)) with BLOCK_FAILED_VALID.
Qed.

(** The tree does not change. *)
Lemma index_pruned_tree F cs cs' : tree_ok cs -> index_maps (fun _ => prune_of F) cs cs' -> tree_ok cs'.
Proof.
  intros Hok Hm. pose proof Hm as [].
  assert (Hback : forall p b', entries cs' !! p = Some b' -> exists b, entries cs !! p = Some b /\ b' = prune_of F b).
  { intros p b' Hp. rewrite maps_entries0 in Hp. apply fmap_Some in Hp as (b & ? & ->). by exists b. }
  assert (Hfwd : forall p b, entries cs !! p = Some b -> entries cs' !! p = Some (prune_of F b)) by (intros p b Hp; by rewrite maps_entries0, Hp).
  injection maps_bests0 as E1 E2 E3 E4. apply (tree_reshape cs cs'); [done| | | |done|done| | | |rewrite E1, E2, E3, E4; apply Hok].
  - intros p. rewrite maps_entries0. destruct (entries cs !! p) as [b|]; [|done]. cbn. f_equal. symmetry. apply prune_of_fields.
  - intros p b' (b & Hp & ->)%Hback. destruct (prune_of_fields F b) as (_ & _ & -> & _). by apply (tree_work _ Hok p).
  - intros p b' q bq' (b & Hp & ->)%Hback Htx Hq (bq & Hbq & ->)%Hback. destruct (prune_of_fields F b) as (Es & Et & _). destruct (prune_of_fields F bq) as (_ & -> & _).
    rewrite Et in Htx. injection Es as _ Eq _ _. rewrite Eq in Hq. by apply (tree_downloaded _ Hok p b q bq).
  - intros p Hin. rewrite maps_candidates0 in Hin. destruct (tree_candidates _ Hok p Hin) as (b & Hp & Htx). exists (prune_of F b). split; [by apply Hfwd|].
    by destruct (prune_of_fields F b) as (_ & -> & _).
  - intros q p Hin. left. by apply maps_unlinked0.
  - apply (marked_mono cs); [by apply tree_failed|by rewrite maps_failed0|]. intros p b _ Hp Hi. exists (prune_of F b). split; [by apply Hfwd|].
    by destruct (prune_of_fields F b) as (_ & _ & _ & ->).
Qed.

Lemma indexed_present cs p : tree_ok cs -> p ∈ map snd (map_to_list (m_block_index cs)) <-> present cs p.
Proof.
  intros Hok. rewrite list_elem_of_fmap. split.
  - intros ([hash q] & -> & Hin%elem_of_map_to_list). apply (tree_index _ Hok) in Hin as (b & Hb & _). by exists b.
  - intros [b Hb]. destruct (wf_hash _ _ _ (tree_wf _ Hok p b Hb)) as [hash Hh]. exists (hash, p). split; [done|].
    apply elem_of_map_to_list, (tree_index _ Hok). by exists b.
Qed.

Lemma PruneOneBlockFile_spec k cs s i :
  tree_ok cs -> 0 <= k -> vinfoBlockFile s !! Z.to_nat k = Some i ->
  exists cs' s', PruneOneBlockFile k cs s = Ok (cs', s') /\ index_maps (fun _ => prune_of {[k]}) cs cs' /\ store_pruned {[k]} s s' /\
    vinfoBlockFile s' = <[Z.to_nat k := CBlockFileInfo_null]> (vinfoBlockFile s).
Proof.
  intros Hok Hk Hi. unfold PruneOneBlockFile.
  destruct (prune_entries_spec k (map snd (map_to_list (m_block_index cs))) cs) as (cs' & -> & Hm); [intros p; by apply indexed_present|].
  cbn [obind]. rewrite (update_info_lookup k _ s i Hk Hi). cbn [obind]. eexists _, _. split; [reflexivity|]. split_and!; [| |done].
  - eapply index_maps_ext, Hm. intros p b Hp. cbn. rewrite decide_True; [done|]. apply indexed_present; [done|by exists b].
  - split; cbn; [|done..]. intros n. unfold null_of. destruct (decide (Z.of_nat n ∈ {[k]})) as [E|Hne].
    + apply elem_of_singleton in E. replace n with (Z.to_nat k) by lia. rewrite Hi. by rewrite list_lookup_insert_eq by (by eapply lookup_lt_Some).
    + rewrite list_lookup_insert_ne by (intros <-; apply Hne; rewrite Z2Nat.id by lia; set_solver). by destruct (vinfoBlockFile s !! n).
Qed.

Definition file_usage (i : CBlockFileInfo) : Z := u32 (nSize i + nUndoSize i).
Definition disk_usage (s : BlockStore) : Z := foldr (fun i n => file_usage i + n) 0 (vinfoBlockFile s).

Lemma file_usage_range i : 0 <= file_usage i < 2 ^ 32.
Proof. apply wrap_range. lia. Qed.

Lemma usage_bounds l : 0 <= foldr (fun i n => file_usage i + n) 0 l <= Z.of_nat (length l) * 2 ^ 32.
Proof. induction l as [|i l IH]; [done|]. cbn [foldr length]. pose proof (file_usage_range i). lia. Qed.

Lemma usage_insert l n i j :
  l !! n = Some i -> foldr (fun i n => file_usage i + n) 0 (<[n := j]> l) = foldr (fun i n => file_usage i + n) 0 l - file_usage i + file_usage j.
Proof.
  revert n. induction l as [|x l IH]; intros [|n] Hn; [done..| |].
  - cbn in Hn |- *. injection Hn as ->. lia.
  - change (<[S n := j]> (x :: l)) with (x :: <[n := j]> l). cbn [foldr]. cbn in Hn. rewrite (IH n Hn). lia.
Qed.

Lemma CalculateCurrentUsage_spec s : Z.of_nat (length (vinfoBlockFile s)) < 2 ^ 31 -> CalculateCurrentUsage s = disk_usage s.
Proof.
  unfold CalculateCurrentUsage, disk_usage. generalize (vinfoBlockFile s) as l. intros l Hl.
  enough (H : forall a, 0 <= a <= (2 ^ 31 - Z.of_nat (length l)) * 2 ^ 32 ->
    fold_left (fun retval file => u64 (retval + u32 (nSize file + nUndoSize file))) l a = a + foldr (fun i n => file_usage i + n) 0 l).
  { rewrite H by lia. lia. }
  induction l as [|i l IH]; intros a Ha; cbn [fold_left foldr length] in *; [lia|].
  change (u32 (nSize i + nUndoSize i)) with (file_usage i). pose proof (file_usage_range i).
  rewrite (wrap_small 64 (a + file_usage i)) by (split; lia). rewrite IH by lia. lia.
Qed.

(** With target 0 the loop that makes room prunes whatever it may. *)
Lemma prune_manual_target n k lim F cs s buf usage :
  prune_manual n k lim F cs s = prune_target n k lim buf 0 usage F cs s.
Proof.
  revert k F cs s usage. induction n as [|n IH]; intros k F cs s usage; [done|]. cbn [prune_manual prune_target].
  destruct (info_at k s) as [i| |]; [|done..]. cbn [obind]. rewrite (proj2 (Z.ltb_ge (u64 (usage + buf)) 0)) by apply wrap_range, Z.leb_le, eq_refl.
  destruct (nSize i =? 0); cbn [orb]; [apply IH|]. destruct (lim <? nHeightLast i); [apply IH|].
  destruct (PruneOneBlockFile k cs s); [|done..]. apply IH.
Qed.

Section prune_loop.
Context (cs0 : ChainState) (s0 : BlockStore) (Hok : tree_ok cs0) (Hcount : Z.of_nat (length (vinfoBlockFile s0)) < 2 ^ 31).

Record pruned_to (F : gset Z) (cs : ChainState) (s : BlockStore) : Prop := {
  to_index : index_maps (fun _ => prune_of F) cs0 cs;
  to_store : store_pruned F s0 s
}.

(** The file holds nothing above [lim]. *)
Definition prunable (lim f : Z) : Prop :=
  exists i, vinfoBlockFile s0 !! Z.to_nat f = Some i /\ nSize i <> 0 /\ nHeightLast i <= lim.

Lemma pruned_to_step F cs s k i :
  pruned_to F cs s -> 0 <= k -> vinfoBlockFile s !! Z.to_nat k = Some i ->
  exists cs' s', PruneOneBlockFile k cs s = Ok (cs', s') /\ pruned_to ({[k]} ∪ F) cs' s' /\ disk_usage s' = disk_usage s - file_usage i.
Proof.
  intros [Hi Hs] Hk Hl. pose proof (index_pruned_tree _ _ _ Hok Hi) as Hok1.
  destruct (PruneOneBlockFile_spec k cs s i Hok1 Hk Hl) as (cs' & s' & E & Hi' & Hs' & Ev). exists cs', s'. split_and!; [done| |].
  - split.
    + eapply index_maps_ext, index_maps_trans; [|exact Hi|exact Hi']. intros p b _. apply prune_of_compose.
    + destruct Hs, Hs'. split; [|congruence..|by rewrite pruned_dirty1, pruned_dirty0, union_assoc_L].
      intros n. rewrite pruned_info1, pruned_info0. destruct (vinfoBlockFile s0 !! n); [|done]. cbn. f_equal. unfold null_of.
      destruct (decide (Z.of_nat n ∈ ({[k]} : gset Z))), (decide (Z.of_nat n ∈ F)); [rewrite decide_True..|rewrite decide_False]; rewrite ?elem_of_union; tauto.
  - unfold disk_usage. rewrite Ev, (usage_insert _ _ i) by done. change (file_usage CBlockFileInfo_null) with 0. lia.
Qed.

Lemma store_pruned_length F s : store_pruned F s0 s -> length (vinfoBlockFile s) = length (vinfoBlockFile s0).
Proof.
  intros [H _ _ _ _]. apply Nat.le_antisymm; apply lookup_ge_None.
  - rewrite H. by rewrite (proj2 (lookup_ge_None _ _)).
  - specialize (H (length (vinfoBlockFile s))). rewrite (proj2 (lookup_ge_None (vinfoBlockFile s) _)) in H by done. by destruct (vinfoBlockFile s0 !! _).
Qed.

(** The files [F'] were pruned, of [n] files from [k] on: enough, or all that can be. *)
Record makes_room (lim buf target k : Z) (n : nat) (F F' : gset Z) (s' : BlockStore) : Prop := {
  room_more : F ⊆ F';
  room_only : forall f, f ∈ F' -> f ∈ F \/ k <= f < k + Z.of_nat n /\ prunable lim f;
  room_enough : disk_usage s' + buf < target \/ forall f, k <= f < k + Z.of_nat n -> prunable lim f -> f ∈ F'
}.

Lemma makes_room_skip lim buf target k n F F' s' :
  ~ prunable lim k -> makes_room lim buf target (k + 1) n F F' s' -> makes_room lim buf target k (S n) F F' s'.
Proof.
  intros Hk [H1 H2 H3]. split; [done| |].
  - intros f [H|[H H']]%H2; [by left|right]. split; [lia|done].
  - destruct H3 as [H|H]; [by left|right]. intros f Hf Hpf. destruct (decide (f = k)) as [->|]; [done|]. apply H; [lia|done].
Qed.

Lemma makes_room_take lim buf target k n F F' s' :
  prunable lim k -> makes_room lim buf target (k + 1) n ({[k]} ∪ F) F' s' -> makes_room lim buf target k (S n) F F' s'.
Proof.
  intros Hk [H1 H2 H3]. split; [by intros f Hf; apply H1, elem_of_union_r| |].
  - intros f [[->%elem_of_singleton|H]%elem_of_union|[H H']]%H2; [right; split; [lia|done]|by left|right; split; [lia|done]].
  - destruct H3 as [H|H]; [by left|right]. intros f Hf Hpf. destruct (decide (f = k)) as [->|]; [by apply H1, elem_of_union_l, elem_of_singleton_2|]. apply H; [lia|done].
Qed.

Lemma prune_target_spec n k lim buf target usage F cs s :
  pruned_to F cs s -> 0 <= k -> k + Z.of_nat n <= Z.of_nat (length (vinfoBlockFile s0)) -> (forall f, f ∈ F -> f < k) ->
  usage = disk_usage s -> 0 <= buf < 2 ^ 63 ->
  exists F' cs' s', prune_target n k lim buf target usage F cs s = Ok (F', cs', s') /\ pruned_to F' cs' s' /\ makes_room lim buf target k n F F' s'.
Proof.
  revert k usage F cs s. induction n as [|n IH]; intros k usage F cs s Hp Hk Hlen HF -> Hbuf.
  { exists F, cs, s. split_and!; [done|done|]. split; [done|by left|right; lia]. }
  destruct (lookup_lt_is_Some_2 (vinfoBlockFile s0) (Z.to_nat k)) as [i Hi]; [lia|]. assert (Hnk : k ∉ F) by (intros H%HF; lia).
  assert (Hi' : vinfoBlockFile s !! Z.to_nat k = Some i).
  { rewrite (pruned_info _ _ _ (to_store _ _ _ Hp)), Hi. cbn. unfold null_of. by rewrite Z2Nat.id, decide_False by done. }
  pose proof (usage_bounds (vinfoBlockFile s)) as Hb. rewrite (store_pruned_length _ _ (to_store _ _ _ Hp)) in Hb. fold (disk_usage s) in Hb.
  assert (Hfull : u64 (disk_usage s + buf) = disk_usage s + buf) by (apply wrap_small; split; lia).
  cbn [prune_target]. rewrite (info_at_lookup k s i Hk Hi'). cbn [obind]. rewrite Hfull.
  assert (Hpk : prunable lim k <-> nSize i <> 0 /\ nHeightLast i <= lim) by (split; [intros (j & Hj & H); rewrite Hi in Hj; by injection Hj as <-|by exists i]).
  assert (Hskip : ~ prunable lim k -> exists F' cs' s', prune_target n (k + 1) lim buf target (disk_usage s) F cs s = Ok (F', cs', s') /\ pruned_to F' cs' s' /\
    makes_room lim buf target k (S n) F F' s').
  { intros Hnp. destruct (IH (k + 1) (disk_usage s) F cs s) as (F' & cs' & s' & E & Hp' & Hm); [done|lia|lia|intros f H%HF; lia|done|done|].
    exists F', cs', s'. split_and!; [done|done|by apply makes_room_skip]. }
  destruct (Z.eqb_spec (nSize i) 0) as [Hz|Hz]; [apply Hskip; rewrite Hpk; tauto|].
  destruct (Z.ltb_spec (disk_usage s + buf) target).
  { exists F, cs, s. split_and!; [done|done|]. split; [done|by left|by left]. }
  destruct (Z.ltb_spec lim (nHeightLast i)); [apply Hskip; rewrite Hpk; lia|].
  destruct (pruned_to_step F cs s k i Hp Hk Hi') as (cs1 & s1 & -> & Hp1 & Hu1). cbn [obind fst snd].
  change (u32 (nSize i + nUndoSize i)) with (file_usage i).
  destruct (IH (k + 1) (u64 (disk_usage s - file_usage i)) ({[k]} ∪ F) cs1 s1) as (F' & cs' & s' & E & Hp' & Hm); [done|lia|lia| | |done|].
  - intros f [->%elem_of_singleton|Hin%HF]%elem_of_union; lia.
  - pose proof (usage_bounds (vinfoBlockFile s1)) as [Hb1 _]. fold (disk_usage s1) in Hb1. pose proof (file_usage_range i). rewrite Hu1. apply wrap_small. split; lia.
  - exists F', cs', s'. split_and!; [done|done|]. by apply makes_room_take; [apply Hpk|].
Qed.

End prune_loop.

(** The files know the blocks that are in them. *)
Definition covers (cs : ChainState) (s : BlockStore) : Prop :=
  forall p b, entries cs !! p = Some b -> has_data b = true ->
    0 <= nFile b /\ exists i, vinfoBlockFile s !! Z.to_nat (nFile b) = Some i /\ Chain.nHeight b <= nHeightLast i.

(** What a caller of the pruning may rely on: the blocks above [lim] are untouched and can
    be read as before, and no entry points into a file that is gone. *)
Record keeps_recent (lim : Z) (F : gset Z) (cs : ChainState) (s : BlockStore) (cs' : ChainState) (s' : BlockStore) : Prop := {
  keeps_tree : tree_ok cs';
  keeps_blocks : forall p b, entries cs !! p = Some b -> has_data b = true -> lim < Chain.nHeight b ->
    entries cs' !! p = Some b /\
    forall fopens params, ReadBlockFromDisk_index fopens params (UnlinkPrunedFiles F s') b = ReadBlockFromDisk_index fopens params s b;
  keeps_dangling : forall p b, entries cs' !! p = Some b -> has_data b = true -> nFile b ∉ F
}.

Lemma unset_data_missing b : has_data (unset_data b) = false.
Proof.
  unfold has_data, missing_data, unset_data. cbn [nStatus]. rewrite <- !Z.land_assoc.
  change (Z.land (u32 (Z.lnot BLOCK_HAVE_DATA)) (Z.land (u32 (Z.lnot BLOCK_HAVE_UNDO)) BLOCK_HAVE_DATA)) with 0. by rewrite Z.land_0_r.
Qed.

Lemma read_unlinked fopens F s s' pos : blk s' = blk s -> pos_nFile pos ∉ F -> read_from fopens (blk (UnlinkPrunedFiles F s')) pos = read_from fopens (blk s) pos.
Proof.
  intros E Hf. cbn. rewrite E. unfold read_from, Open. destruct (pos_IsNull pos); [done|]. destruct (negb _); [done|].
  assert (Hl : (filter (fun x => fst x ∉ F) (blk s) : files) !! pos_nFile pos = blk s !! pos_nFile pos).
  { destruct (blk s !! pos_nFile pos) as [c|] eqn:Ec; [by apply map_lookup_filter_Some|]. apply map_lookup_filter_None. by left. }
  rewrite Hl. destruct (blk s !! pos_nFile pos) eqn:Ec; [|done]. by rewrite Hl, Ec.
Qed.

Lemma pruned_keeps_recent lim F cs s cs' s' :
  tree_ok cs -> covers cs s -> pruned_to cs s F cs' s' -> (forall f, f ∈ F -> prunable s lim f) -> keeps_recent lim F cs s cs' s'.
Proof.
  intros Hok Hcov [Hi Hs] HF. split.
  - by eapply index_pruned_tree.
  - intros p b Hp Hd Hlim.
    assert (Hn : nFile b ∉ F).
    { intros (i & Hl & _ & Hle)%HF. destruct (Hcov p b Hp Hd) as (_ & j & Hj & Hh). rewrite Hl in Hj. injection Hj as <-. lia. }
    split.
    + rewrite (maps_entries _ _ _ Hi), Hp. cbn. unfold prune_of. by rewrite decide_False.
    + intros fopens params. unfold ReadBlockFromDisk_index, ReadBlockFromDisk_pos. rewrite (read_unlinked _ _ s) ; [done|apply Hs|].
      unfold GetBlockPos. unfold has_data, missing_data in Hd. by rewrite Hd.
  - intros p b' Hp' Hd. rewrite (maps_entries _ _ _ Hi) in Hp'. apply fmap_Some in Hp' as (b & Hp & ->). unfold prune_of in *.
    case_decide; [by rewrite unset_data_missing in Hd|done].
Qed.

Lemma pruned_to_refl cs s : pruned_to cs s ∅ cs s.
Proof. split; [apply index_maps_refl|apply store_pruned_refl]. intros p b _. unfold prune_of. by rewrite decide_False by set_solver. Qed.

(** The whole loop, from the first file *)
Lemma prune_all_spec lim buf target cs s :
  tree_ok cs -> store_ok s -> 0 <= buf < 2 ^ 63 ->
  exists F cs' s', prune_target (Z.to_nat (nLastBlockFile s)) 0 lim buf target (disk_usage s) ∅ cs s = Ok (F, cs', s') /\
    pruned_to cs s F cs' s' /\ (forall f, f ∈ F -> 0 <= f < nLastBlockFile s /\ prunable s lim f) /\
    (disk_usage s' + buf < target \/ forall f, 0 <= f < nLastBlockFile s -> prunable s lim f -> f ∈ F).
Proof.
  intros Hok [Hlast Hcount Hsizes] Hbuf.
  destruct (prune_target_spec cs s Hok Hcount (Z.to_nat (nLastBlockFile s)) 0 lim buf target (disk_usage s) ∅ cs s) as (F & cs' & s' & -> & Hp & [_ Honly Henough]);
    [apply pruned_to_refl|lia|lia|set_solver|done|done|].
  exists F, cs', s'. split_and!; [done|done| |by rewrite Z2Nat.id in Henough by lia].
  intros f [H|[Hr H]]%Honly; [set_solver|]. split; [lia|done].
Qed.

(** The files that are pruned, and the state afterwards *)
Lemma FindFilesToPrune_spec target after ibd cs s tip bt :
  tree_ok cs -> store_ok s -> Tip (m_chain cs) = Some tip -> entries cs !! tip = Some bt ->
  MIN_BLOCKS_TO_KEEP <= Chain.nHeight bt < 2 ^ 31 -> in_u 64 target ->
  let lim := Chain.nHeight bt - MIN_BLOCKS_TO_KEEP in
  exists F cs' s', FindFilesToPrune target after ibd cs s = Ok (F, cs', s') /\
    pruned_to cs s F cs' s' /\ (forall f, f ∈ F -> 0 <= f < nLastBlockFile s /\ prunable s lim f) /\
    (target <> 0 -> after < Chain.nHeight bt ->
     disk_usage s' + (BLOCKFILE_CHUNK_SIZE + UNDOFILE_CHUNK_SIZE) < target \/
     forall f, 0 <= f < nLastBlockFile s -> prunable s lim f -> f ∈ F).
Proof.
  intros Hok Hs Etip Ht Hh Htarget lim. unfold MIN_BLOCKS_TO_KEEP in *.
  pose proof (pruned_to_refl cs s) as Hnone.
  unfold FindFilesToPrune, deref. rewrite Etip, Ht. cbn [obind of_option].
  destruct (Z.eqb_spec target 0); [exists ∅, cs, s; split_and!; [done|done|set_solver|done]|].
  assert (Hu64 : u64 (Chain.nHeight bt) = Chain.nHeight bt) by (apply wrap_small; split; lia). rewrite Hu64.
  destruct (Z.leb_spec (Chain.nHeight bt) after); [exists ∅, cs, s; split_and!; [done|done|set_solver|lia]|].
  assert (Hu32 : u32 (Chain.nHeight bt - MIN_BLOCKS_TO_KEEP) = lim) by (unfold MIN_BLOCKS_TO_KEEP; apply wrap_small; subst lim; split; lia). rewrite Hu32.
  rewrite (CalculateCurrentUsage_spec s (store_count _ Hs)).
  pose proof (usage_bounds (vinfoBlockFile s)) as Hb. fold (disk_usage s) in Hb. pose proof (store_count _ Hs) as Hc.
  assert (Hfull : u64 (disk_usage s + (BLOCKFILE_CHUNK_SIZE + UNDOFILE_CHUNK_SIZE)) = disk_usage s + (BLOCKFILE_CHUNK_SIZE + UNDOFILE_CHUNK_SIZE))
    by (apply wrap_small; unfold BLOCKFILE_CHUNK_SIZE, UNDOFILE_CHUNK_SIZE; split; lia). rewrite Hfull.
  destruct (Z.leb_spec target (disk_usage s + (BLOCKFILE_CHUNK_SIZE + UNDOFILE_CHUNK_SIZE))); [|exists ∅, cs, s; split_and!; [done|done|set_solver|by left]].
  set (buf := if ibd then _ else _).
  assert (Hbuf : BLOCKFILE_CHUNK_SIZE + UNDOFILE_CHUNK_SIZE <= buf < 2 ^ 63).
  { assert (0 <= target / 10 <= 2 ^ 64 / 10) as Hd by (split; [apply Z.div_pos; [apply Htarget|lia]|apply Z.div_le_mono; [lia|apply Z.lt_le_incl, Htarget]]).
    change (2 ^ 64 / 10) with 1844674407370955161 in Hd. subst buf. unfold BLOCKFILE_CHUNK_SIZE, UNDOFILE_CHUNK_SIZE. destruct ibd; [|lia].
    rewrite (wrap_small 64) by (split; lia). lia. }
  destruct (prune_all_spec lim buf target cs s Hok Hs) as (F & cs' & s' & -> & Hk & HF & Hroom).
  { unfold BLOCKFILE_CHUNK_SIZE, UNDOFILE_CHUNK_SIZE in Hbuf. lia. }
  exists F, cs', s'. split_and!; [done|done|done|]. intros _ _. destruct Hroom; [left; lia|by right].
Qed.

Lemma FindFilesToPruneManual_spec height cs s tip bt :
  tree_ok cs -> store_ok s -> Tip (m_chain cs) = Some tip -> entries cs !! tip = Some bt ->
  MIN_BLOCKS_TO_KEEP <= Chain.nHeight bt < 2 ^ 31 -> 0 < height < 2 ^ 31 ->
  let lim := Z.min height (Chain.nHeight bt - MIN_BLOCKS_TO_KEEP) in
  exists F cs' s', FindFilesToPruneManual true height cs s = Ok (F, cs', s') /\
    pruned_to cs s F cs' s' /\ (forall f, f ∈ F -> 0 <= f < nLastBlockFile s /\ prunable s lim f) /\ forall f, 0 <= f < nLastBlockFile s -> prunable s lim f -> f ∈ F.
Proof.
  intros Hok Hs Etip Ht Hh Hheight lim. unfold FindFilesToPruneManual, deref. cbn [andb]. rewrite (proj2 (Z.ltb_lt _ _)) by lia. cbn [negb].
  rewrite Etip, Ht. cbn [obind of_option]. unfold MIN_BLOCKS_TO_KEEP in *. rewrite !(wrap_small 32) by (split; lia).
  rewrite (prune_manual_target _ _ _ _ _ _ 0 (disk_usage s)). change (Z.min height (Chain.nHeight bt - 288)) with lim.
  destruct (prune_all_spec lim 0 0 cs s Hok Hs) as (F & cs' & s' & -> & Hk & HF & Hroom); [lia|].
  exists F, cs', s'. split_and!; [done|done|done|]. destruct Hroom as [Hlt|]; [|done].
  pose proof (usage_bounds (vinfoBlockFile s')) as Hb. fold (disk_usage s') in Hb. lia.
Qed.

(** C27: automatic pruning never touches the last 288 blocks: below a tip of height at
    least 288 it returns, keeps the block tree, leaves every block above the limit in the
    index with its data and readable from the files that remain after the unlinking, and
    leaves no entry that points into a removed file; afterwards the files fit the target
    (with the room for the next chunks), or every file but the last one that holds only
    old blocks is gone. *)
Theorem FindFilesToPrune_keeps_recent_blocks target after ibd cs s tip bt :
  tree_ok cs -> store_ok s -> covers cs s -> Tip (m_chain cs) = Some tip -> entries cs !! tip = Some bt ->
  MIN_BLOCKS_TO_KEEP <= Chain.nHeight bt < 2 ^ 31 -> in_u 64 target ->
  let lim := Chain.nHeight bt - MIN_BLOCKS_TO_KEEP in
  exists F cs' s', FindFilesToPrune target after ibd cs s = Ok (F, cs', s') /\
    keeps_recent lim F cs s cs' s' /\
    (target <> 0 -> after < Chain.nHeight bt ->
     disk_usage s' + (BLOCKFILE_CHUNK_SIZE + UNDOFILE_CHUNK_SIZE) < target \/
     forall f, 0 <= f < nLastBlockFile s -> prunable s lim f -> f ∈ F).
Proof.
  intros Hok Hs Hcov Etip Ht Hh Htarget lim. destruct (FindFilesToPrune_spec target after ibd cs s tip bt Hok Hs Etip Ht Hh Htarget) as (F & cs' & s' & E & Hp & HF & Hroom).
  exists F, cs', s'. split_and!; [done| |done]. apply pruned_keeps_recent; [done|done|done|]. intros f Hf. by apply HF.
Qed.

(** Pruning by hand up to a height keeps them as well and removes every file that holds
    nothing above it. *)
Theorem FindFilesToPruneManual_keeps_recent_blocks height cs s tip bt :
  tree_ok cs -> store_ok s -> covers cs s -> Tip (m_chain cs) = Some tip -> entries cs !! tip = Some bt ->
  MIN_BLOCKS_TO_KEEP <= Chain.nHeight bt < 2 ^ 31 -> 0 < height < 2 ^ 31 ->
  let lim := Z.min height (Chain.nHeight bt - MIN_BLOCKS_TO_KEEP) in
  exists F cs' s', FindFilesToPruneManual true height cs s = Ok (F, cs', s') /\
    keeps_recent lim F cs s cs' s' /\ forall f, 0 <= f < nLastBlockFile s -> prunable s lim f -> f ∈ F.
Proof.
  intros Hok Hs Hcov Etip Ht Hh Hheight lim. destruct (FindFilesToPruneManual_spec height cs s tip bt Hok Hs Etip Ht Hh Hheight) as (F & cs' & s' & E & Hp & HF & Hall).
  exists F, cs', s'. split_and!; [done| |done]. apply pruned_keeps_recent; [done|done|done|]. intros f Hf. by apply HF.
Qed.

(** ** Examples *)

Definition staked_block (n : Z) : CBlock :=
  mkBlock (mkHeader 4 (repeat 1 32) (repeat 2 32) 1600000000 0x1d00ffff n (repeat 3 32) (repeat 4 32)
             (mkOutPoint (repeat 7 32) 1) [0x30; 0x44]) [example_tx].

Definition empty_store : BlockStore := mkBlockStore [] 0 ∅ false ∅ ∅.

Lemma empty_store_ok : store_ok empty_store.
Proof. split; [by vm_compute|by vm_compute|constructor]. Qed.

Lemma staked_block_savable n : in_u 32 n -> savable mainnet_pow (staked_block n).
Proof.
  intros Hn. split; [|by vm_compute|done]. constructor.
  - constructor; cbn; unfold sized, MAX_SIZE, in_s, valid_outpoint, in_u; cbn; unfold in_u in Hn; repeat split; lia.
  - split; [unfold sized, MAX_SIZE; cbn; lia|]. apply Forall_cons_2; [|apply Forall_nil_2].
    split; [apply example_tx_valid | by left].
Qed.

Lemma saved_blocks_read_back_witness :
  exists ps s', save_all (fun _ => true) (fun _ => true) false [1; 2; 3; 4] [(staked_block 5, 1); (staked_block 6, 2)] empty_store = Ok (ps, s') /\ store_ok s' /\
    ((forall n, (fun _ : Z => true) n = true) -> (forall n, (fun _ : Z => true) n = true) -> FlatFilePos_null ∉ ps) /\
    Forall2 (fun x pos => pos = FlatFilePos_null \/
      ReadBlockFromDisk_pos (fun _ => true) mainnet_pow s' pos = Some (fst x) /\
      ReadRawBlockFromDisk (fun _ => true) [1; 2; 3; 4] s' pos = Some (Serialize_CBlock true (fst x))) [(staked_block 5, 1); (staked_block 6, 2)] ps.
Proof.
  apply (saved_blocks_read_back (fun _ => true) (fun _ => true) false mainnet_pow [1; 2; 3; 4] [(staked_block 5, 1); (staked_block 6, 2)] empty_store);
    [apply empty_store_ok|by vm_compute|done|].
  cbn [map fst]. repeat (apply Forall_cons_2; [apply staked_block_savable; split; lia|]). apply Forall_nil_2.
Defined.

(** A chain of 290 blocks, the first two of them in file 0, the others in file 1 *)
Definition line_hash (k : nat) : uint256 := Serialize_uint32 (Z.of_nat k) ++ repeat 0 28.

Definition line_entry (k : nat) : CBlockIndex :=
  mkBlockIndex (Some (line_hash k)) (match k with O => None | S j => Some (Pos.of_succ_nat j) end) None None (Z.of_nat k) (if (k <? 2)%nat then 0 else 1) 8 0
    (of_uint64 (Z.of_nat k)) 1 (Z.of_nat k + 1) 11 0x20000000 uint256_null 100 0x1d00ffff 0 uint256_null uint256_null [] uint256_null
    outpoint_null uint256_null 0 1 100.

Definition line_entries (n : nat) : gmap ptr CBlockIndex := list_to_map (map (fun k => (Pos.of_succ_nat k, line_entry k)) (seq 0 n)).

Definition line_state (n : nat) : ChainState :=
  mkChainState (line_entries n) (list_to_map (map (fun k => (line_hash k, Pos.of_succ_nat k)) (seq 0 n))) ∅ [] ∅ ∅ ∅
    (map (fun k => Some (Pos.of_succ_nat k)) (seq 0 n)) None None None None false false 7 (-1) (of_uint64 0).

Definition line_store : BlockStore := mkBlockStore [mkFileInfo 2 1000 100 0 1 0 0; mkFileInfo 288 9000 500 2 289 0 0] 1 ∅ false ∅ ∅.

Lemma line_lookup n p b : line_entries n !! p = Some b <-> exists k, (k < n)%nat /\ p = Pos.of_succ_nat k /\ b = line_entry k.
Proof.
  unfold line_entries. rewrite <- elem_of_list_to_map.
  - rewrite list_elem_of_fmap. setoid_rewrite elem_of_seq. split; [intros (k & [= -> ->] & ?)|intros (k & ? & -> & ->)]; exists k; split_and!; done || lia.
  - rewrite map_map. cbn. apply (NoDup_fmap_2 Pos.of_succ_nat), NoDup_seq.
Qed.

Lemma line_hash_inj j k : in_u 32 (Z.of_nat j) -> in_u 32 (Z.of_nat k) -> line_hash j = line_hash k -> j = k.
Proof.
  intros Hj Hk E. apply app_inj_tail_iff in E || apply app_inv_tail in E.
  pose proof (locktime_reads (Z.of_nat j) [] Hj) as H1. pose proof (locktime_reads (Z.of_nat k) [] Hk) as H2. rewrite E in H1. rewrite H1 in H2. injection H2. lia.
Qed.

Lemma line_index n hash p : Z.of_nat n < 2 ^ 32 ->
  m_block_index (line_state n) !! hash = Some p <-> exists b, line_entries n !! p = Some b /\ phashBlock b = Some hash.
Proof.
  intros Hn. cbn [m_block_index line_state]. rewrite <- elem_of_list_to_map.
  - rewrite list_elem_of_fmap. setoid_rewrite elem_of_seq. split.
    + intros (k & [= -> ->] & Hk). exists (line_entry k). split; [apply line_lookup; exists k; split_and!; done || lia|done].
    + intros (b & (k & Hk & -> & ->)%line_lookup & [= <-]). exists k. split; [done|lia].
  - rewrite map_map. cbn. apply (NoDup_fmap_2_strong line_hash), NoDup_seq. intros j k Hj%elem_of_seq Hk%elem_of_seq. apply line_hash_inj; split; lia.
Qed.

Lemma line_walk n k j : (k < n)%nat -> (j <= k)%nat -> walk (line_entries n) j (Pos.of_succ_nat k) = Some (Pos.of_succ_nat (k - j)).
Proof.
  revert k. induction j as [|j IH]; intros k Hk Hj; [by rewrite Nat.sub_0_r|]. destruct k as [|k]; [lia|]. cbn [walk].
  rewrite (proj2 (line_lookup n _ (line_entry (S k)))) by (by exists (S k)). cbn [pprev line_entry]. rewrite IH by lia. done.
Qed.

Lemma line_walk_end n k j : (k < n)%nat -> (k < j)%nat -> walk (line_entries n) j (Pos.of_succ_nat k) = None.
Proof.
  intros Hk Hj. replace j with (k + S (j - S k))%nat by lia. rewrite walk_add, line_walk, Nat.sub_diag by lia. cbn [walk].
  by rewrite (proj2 (line_lookup n _ (line_entry 0))) by (exists 0%nat; split_and!; done || lia).
Qed.

Lemma line_ok n : Z.of_nat n < 2 ^ 31 -> tree_ok (line_state n).
Proof.
  intros Hn. split; cbn [entries m_chain setBlockIndexCandidates m_blocks_unlinked m_failed_blocks line_state].
  - intros p b (k & Hk & -> & ->)%line_lookup. split; [cbn; lia|by eexists| |done]. destruct k as [|k]; [done|].
    exists (line_entry k). split; [apply line_lookup; exists k; split_and!; done || lia|cbn [Chain.nHeight line_entry]; lia].
  - intros p b (k & Hk & -> & ->)%line_lookup. apply of_uint64_wf.
  - destruct n as [|n]; [by left|right]. exists (Pos.of_succ_nat n), (line_entry n). split_and!.
    + apply line_lookup. exists n. split_and!; done || lia.
    + rewrite length_map, length_seq. cbn [Chain.nHeight line_entry]. lia.
    + intros j q Hw. cbn [Chain.nHeight line_entry]. rewrite Nat2Z.id. destruct (decide (j <= n)%nat); [|rewrite line_walk_end in Hw by lia; done].
      rewrite line_walk in Hw by lia. injection Hw as <-. rewrite list_lookup_fmap, lookup_seq_lt by lia. done.
  - intros p b q bq _ _ _ (k & Hk & -> & ->)%line_lookup. cbn. lia.
  - set_solver.
  - intros q p H. by apply elem_of_nil in H.
  - intros hash p. apply line_index. lia.
  - intros p H. set_solver.
  - repeat constructor; by intros p.
Qed.

Lemma line_covers : covers (line_state 290) line_store.
Proof.
  intros p b (k & Hk & -> & ->)%line_lookup _. cbn [nFile Chain.nHeight line_entry]. destruct (Nat.ltb_spec k 2); (split; [lia|]); eexists; (split; [done|]); cbn; lia.
Qed.

Lemma line_store_ok : store_ok line_store.
Proof. split; [by vm_compute|by vm_compute|]. repeat constructor; by vm_compute. Qed.

(** File 0 has to go: it holds the heights 0 and 1 of 289. *)
Lemma FindFilesToPrune_keeps_recent_blocks_witness :
  prunable line_store 1 0 /\
  exists F cs' s', FindFilesToPrune 1 100 false (line_state 290) line_store = Ok (F, cs', s') /\
    keeps_recent (Chain.nHeight (line_entry 289) - MIN_BLOCKS_TO_KEEP) F (line_state 290) line_store cs' s' /\
    (1 <> 0 -> 100 < Chain.nHeight (line_entry 289) ->
     disk_usage s' + (BLOCKFILE_CHUNK_SIZE + UNDOFILE_CHUNK_SIZE) < 1 \/
     forall f, 0 <= f < nLastBlockFile line_store -> prunable line_store (Chain.nHeight (line_entry 289) - MIN_BLOCKS_TO_KEEP) f -> f ∈ F).
Proof.
  split; [by eexists|].
  apply (FindFilesToPrune_keeps_recent_blocks 1 100 false (line_state 290) line_store (Pos.of_succ_nat 289) (line_entry 289));
    [by apply line_ok|apply line_store_ok|apply line_covers|by vm_compute| |by vm_compute|by vm_compute].
  apply line_lookup. exists 289%nat. split_and!; done || lia.
Defined.
