(* ===== verification/UndoStore.v ===== *)
(** * UndoStore: undo data on disk (src/src/validation.cpp)

    When a block is connected, the coins it spent are written behind the undo
    data of the other blocks of its file, with a checksum that ties them to the
    preceding block; [DisconnectBlock] reads them back.  The files are those
    of [BlockStore], the format that of [Compressor]. *)

From Stdlib Require Import ZArith List Lia Bool String.
From stdpp Require Import base decidable list option gmap sets fin_sets.
From S2P Require Import Prelude Uint256 Primitives Chain Consensus Script Hash Serialize Standard Coins Utxo TxVerify ChainState Compressor BlockStore.
Import arith_uint256.
Local Open Scope Z_scope.
Local Open Scope outcome_scope.

Section undo.
Context (fopens : Z -> bool) (CheckDiskSpace : Z -> bool) (fPruneMode : bool).
Context (IsFullyValid : CPubKey -> bool) (Decompress : CPubKey -> option CPubKey).

(** The verdict, [pos] behind the header, and the files *)
Definition UndoWriteToDisk (messageStart : bytes) (blockundo : CBlockUndo) (pos : FlatFilePos) (hashBlock : uint256) (fs : files)
    : bool * FlatFilePos * files :=
  match Open fopens fs pos false with
  | None => (false, pos, fs)
  | Some fs =>
    let data := Serialize_CBlockUndo IsFullyValid blockundo in
    let header := messageStart ++ Serialize_uint32 (u32 (Z.of_nat (length data))) in
    let fs := fwrite pos header fs in
    let pos := Build_FlatFilePos (pos_nFile pos) (u32 (nPos pos + Z.of_nat (length header))) in
    (true, pos, fwrite pos (data ++ Hash (hashBlock ++ data)) fs)
  end.

(** [blockundo], where it returns true; the checksum is that of the bytes read. *)
Definition UndoReadFromDisk (st : gmap ptr CBlockIndex) (s : BlockStore) (b : CBlockIndex) : outcome (option CBlockUndo) :=
  let pos := GetUndoPos b in
  if pos_IsNull pos then Ok None
  else match read_from fopens (rev_ s) pos with
  | None => Ok None
  | Some c =>
    prev <-! of_option (pprev b) ;
    bprev <-! deref st prev ;
    hash <-! GetBlockHash bprev ;
    Ok ('(blockundo, rest) ← Unserialize_CBlockUndo Decompress c ;
        let verifier := hash ++ take (length c - length rest) c in
        '(hashChecksum, _) ← read 32 rest ;
        if bytes_eqb hashChecksum (Hash verifier) then Some blockundo else None)
  end.

Definition set_undo (pos status : Z) (b : CBlockIndex) : CBlockIndex :=
  mkBlockIndex (phashBlock b) (pprev b) (pnext b) (pskip b) (Chain.nHeight b) (nFile b) (nDataPos b) pos
    (nChainWork b) (nTx b) (nChainTx b) status (idx_nVersion b) (idx_hashMerkleRoot b) (nTime b) (nBits b) (idx_nNonce b)
    (idx_hashStateRoot b) (idx_hashUTXORoot b) (idx_vchBlockSig b) (nStakeModifier b) (prevoutStake b) (hashProof b)
    (nMoneySupply b) (nSequenceId b) (nTimeMax b).

(** The verdict, the state, the index and the files *)
Definition WriteUndoDataForBlock (messageStart : bytes) (blockundo : CBlockUndo) (state : CValidationState) (pindex : ptr)
    (cs : ChainState) (s : BlockStore) : outcome (bool * CValidationState * ChainState * BlockStore) :=
  b <-! deref (entries cs) pindex ;
  if pos_IsNull (GetUndoPos b) then
    r <-! FindUndoPos fopens CheckDiskSpace fPruneMode (nFile b)
            (u32 (Z.of_nat (length (Serialize_CBlockUndo IsFullyValid blockundo)) + 40)) s ;
    let '(ok, pos, s) := r in
    if negb ok then Ok (false, Error "Disk space is too low!" state, cs, s)
    else
      prev <-! of_option (pprev b) ;
      bprev <-! deref (entries cs) prev ;
      hash <-! GetBlockHash bprev ;
      let '(ok, pos, fs) := UndoWriteToDisk messageStart blockundo pos hash (rev_ s) in
      let s := set_rev fs s in
      if negb ok then Ok (false, Error "Failed to write undo data" state, cs, s)
      else Ok (true, state, set_dirty pindex (set_entries (insert pindex (set_undo (nPos pos) (Z.lor (nStatus b) BLOCK_HAVE_UNDO) b)) cs), s)
  else Ok (true, state, cs, s).

(** * Correctness *)

(** The bytes are in the used part of an undo file. *)
Definition undo_stored (s : BlockStore) (f a : Z) (data : bytes) : Prop :=
  0 <= f /\ 0 <= a /\ holds (rev_ s) f a data /\
  exists i, vinfoBlockFile s !! Z.to_nat f = Some i /\ a + Z.of_nat (length data) <= nUndoSize i.

(** What [UndoWriteToDisk] puts into a file *)
Definition undo_record (messageStart : bytes) (hash : uint256) (blockundo : CBlockUndo) : bytes :=
  let data := Serialize_CBlockUndo IsFullyValid blockundo in
  messageStart ++ Serialize_uint32 (u32 (Z.of_nat (length data))) ++ data ++ Hash (hash ++ data).

Lemma undo_record_length ms hash undo :
  length ms = 4%nat -> length (undo_record ms hash undo) = (40 + length (Serialize_CBlockUndo IsFullyValid undo))%nat.
Proof. intros H. unfold undo_record. rewrite !length_app, uint32_length, (proj2 (Hash_digest _)). lia. Qed.

Lemma UndoWriteToDisk_spec ms undo pos hash fs :
  length ms = 4%nat -> 0 <= nPos pos < 2 ^ 32 - 8 ->
  UndoWriteToDisk ms undo pos hash fs =
  match Open fopens fs pos false with
  | None => (false, pos, fs)
  | Some fs => (true, Build_FlatFilePos (pos_nFile pos) (nPos pos + 8), fwrite pos (undo_record ms hash undo) fs)
  end.
Proof.
  intros Hms Hp. unfold UndoWriteToDisk. destruct (Open _ _ _ _) as [fs'|]; [|done].
  set (data := Serialize_CBlockUndo IsFullyValid undo).
  assert (Hh : Z.of_nat (length (ms ++ Serialize_uint32 (u32 (Z.of_nat (length data))))) = 8) by (rewrite length_app, uint32_length; lia).
  rewrite Hh. replace (u32 (nPos pos + 8)) with (nPos pos + 8) by (symmetry; apply Z.mod_small; lia). f_equal.
  unfold undo_record. fold data. rewrite app_assoc.
  rewrite <- (fwrite_append pos (ms ++ Serialize_uint32 (u32 (Z.of_nat (length data))))) by lia. by rewrite Hh.
Qed.

(** Undo data go behind all the undo data of the file. *)
Lemma FindUndoPos_spec f add s i :
  0 <= f -> vinfoBlockFile s !! Z.to_nat f = Some i -> 0 <= nUndoSize i -> 0 <= add -> nUndoSize i + add < 2 ^ 32 ->
  exists ok s', FindUndoPos fopens CheckDiskSpace fPruneMode f add s = Ok (ok, Build_FlatFilePos f (nUndoSize i), s') /\
    vinfoBlockFile s' = <[Z.to_nat f := set_nUndoSize (nUndoSize i + add) i]> (vinfoBlockFile s) /\
    ((forall n, CheckDiskSpace n = true) -> ok = true) /\
    (forall g a d, undo_stored s g a d -> undo_stored s' g a d /\ (g = f -> a + Z.of_nat (length d) <= nUndoSize i)).
Proof.
  intros Hf Hi Hu Hadd Hlt. unfold FindUndoPos. rewrite (info_at_lookup f s i Hf Hi). cbn [obind]. rewrite (update_info_lookup f _ s i Hf Hi). cbn [obind].
  rewrite (wrap_small 32) by (split; lia). destruct (Allocate _ _ _ _ _ _) as [[n out] fs] eqn:Eal.
  match goal with |- exists _ _, ?r = _ /\ _ => assert (Htail : exists ok s', r = Ok (ok, Build_FlatFilePos f (nUndoSize i), s') /\
    vinfoBlockFile s' = <[Z.to_nat f := set_nUndoSize (nUndoSize i + add) i]> (vinfoBlockFile s) /\ rev_ s' = fs /\ (out = false -> ok = true)) end.
  { destruct out; [|destruct (_ && _)]; do 2 eexists; (split; [done|]); done. }
  destruct Htail as (ok & s' & -> & Ev & Er & Eok). exists ok, s'. split_and!; [done|done| |].
  - intros Hspace. apply Eok. unfold Allocate in Eal. rewrite Hspace in Eal. destruct (_ <? _); [destruct (Open _ _ _ _)|]; congruence.
  - intros g a d (Hg & Ha & Hh & e & He & Hle). split.
    + split_and!; [done|done| |].
      * rewrite Er. pose proof (Allocate_keeps fopens CheckDiskSpace UNDOFILE_CHUNK_SIZE (rev_ s) (Build_FlatFilePos f (nUndoSize i)) add g a d Hh) as H.
        cbn [rev_ set_dirty_file set_vinfo] in Eal. by rewrite Eal in H.
      * rewrite Ev. destruct (decide (Z.to_nat f = Z.to_nat g)) as [E|Hne].
        -- rewrite <- E in *. rewrite list_lookup_insert_eq by (by eapply lookup_lt_Some). eexists. split; [done|]. cbn. rewrite Hi in He. injection He as <-. lia.
        -- exists e. by rewrite list_lookup_insert_ne.
    + intros ->. rewrite Hi in He. by injection He as <-.
Qed.

(** Undo data that can be read back *)
Definition readable_undo (undo : CBlockUndo) : Prop :=
  Forall (fun l => Forall storable l /\ Z.of_nat (length l) <= MAX_INPUTS_PER_BLOCK) undo /\ sized undo.

Hypothesis Hkeys : forall x y, length x = 32%nat -> length y = 32%nat -> IsFullyValid (0x04 :: x ++ y) = true ->
  Decompress ((2 + Z.land (nth 31 y 0) 0x01) :: x) = Some (0x04 :: x ++ y).

Lemma undo_reads_back undo rest : readable_undo undo -> Unserialize_CBlockUndo Decompress (Serialize_CBlockUndo IsFullyValid undo ++ rest) = Some (undo, rest).
Proof.
  intros [Hu Hn]. unfold Unserialize_CBlockUndo, Serialize_CBlockUndo. rewrite (vector_reads _ _ (fun l => l)); [by rewrite map_id|done|].
  revert Hu. apply List.Forall_impl. intros l [Hl Hlen] r. by apply txundo_reads.
Qed.

(** The entry has its undo data at the position it names, for the block it is built on. *)
Definition has_undo (ms : bytes) (st : gmap ptr CBlockIndex) (s : BlockStore) (b : CBlockIndex) (undo : CBlockUndo) : Prop :=
  exists q bq hash, pprev b = Some q /\ st !! q = Some bq /\ phashBlock bq = Some hash /\
    Z.land (nStatus b) BLOCK_HAVE_UNDO <> 0 /\ fopens (nFile b) = true /\ 8 <= nUndoPos b /\
    undo_stored s (nFile b) (nUndoPos b - 8) (undo_record ms hash undo).

Lemma rev_read f a k d s :
  holds (rev_ s) f a d -> fopens f = true -> 0 <= f -> 0 <= a -> 0 <= k <= Z.of_nat (length d) ->
  exists rest, read_from fopens (rev_ s) (Build_FlatFilePos f (a + k)) = Some (drop (Z.to_nat k) d ++ rest).
Proof. intros Hh. apply (holds_read fopens f a k d (set_blk (rev_ s) s)). exact Hh. Qed.

Lemma UndoReadFromDisk_spec ms st s b undo :
  length ms = 4%nat -> readable_undo undo -> has_undo ms st s b undo -> UndoReadFromDisk st s b = Ok (Some undo).
Proof.
  intros Hms Hu (q & bq & hash & Hq & Hbq & Hhash & Hst & Hopen & Hpos & Hf & Ha & Hh & _). unfold UndoReadFromDisk, GetUndoPos.
  rewrite (proj2 (Z.eqb_neq _ 0) Hst). cbn [negb]. unfold pos_IsNull. cbn [pos_nFile]. rewrite (proj2 (Z.eqb_neq _ _)) by lia.
  destruct (rev_read (nFile b) (nUndoPos b - 8) 8 _ s Hh Hopen Hf Ha) as [rest Hr]; [rewrite undo_record_length by done; lia|].
  replace (nUndoPos b - 8 + 8) with (nUndoPos b) in Hr by lia. rewrite Hr. unfold deref, GetBlockHash. rewrite Hq. cbn [of_option obind]. rewrite Hbq. cbn [of_option obind].
  rewrite Hhash. cbn [of_option obind]. f_equal. unfold undo_record. rewrite app_assoc, drop_app_length' by (rewrite length_app, uint32_length; lia).
  rewrite <- app_assoc, undo_reads_back by done. cbn [mbind option_bind]. set (data := Serialize_CBlockUndo IsFullyValid undo).
  rewrite take_app_length' by (rewrite !length_app; lia). rewrite read_app by apply Hash_digest. cbn [mbind option_bind]. by rewrite (proj2 (bytes_eqb_eq _ _)).
Qed.

(** Writing the undo data of a block: they can be read, and nothing stored before is damaged. *)
Lemma WriteUndoDataForBlock_spec ms undo state p cs s b i q bq hash :
  length ms = 4%nat -> entries cs !! p = Some b -> Z.land (nStatus b) BLOCK_HAVE_UNDO = 0 ->
  pprev b = Some q -> q <> p -> entries cs !! q = Some bq -> phashBlock bq = Some hash ->
  0 <= nFile b -> vinfoBlockFile s !! Z.to_nat (nFile b) = Some i -> 0 <= nUndoSize i ->
  nUndoSize i + Z.of_nat (length (Serialize_CBlockUndo IsFullyValid undo)) + 40 < 2 ^ 32 ->
  exists ok state' cs' s', WriteUndoDataForBlock ms undo state p cs s = Ok (ok, state', cs', s') /\
    (forall g a d, undo_stored s g a d -> undo_stored s' g a d) /\
    ((forall n, fopens n = true) -> (forall n, CheckDiskSpace n = true) -> ok = true) /\
    (ok = true -> state' = state /\ exists b', entries cs' = <[p := b']> (entries cs) /\ shape b' = shape b /\ has_undo ms (entries cs') s' b' undo).
Proof.
  intros Hms Hp Hst Hq Hqp Hbq Hhash Hf Hi Hu Hlt. unfold WriteUndoDataForBlock, deref. rewrite Hp. cbn [of_option obind].
  unfold GetUndoPos. rewrite Hst. cbn [Z.eqb negb]. change (pos_IsNull FlatFilePos_null) with true. cbv iota.
  set (n := Z.of_nat (length (Serialize_CBlockUndo IsFullyValid undo))) in *.
  rewrite (wrap_small 32) by (split; lia).
  destruct (FindUndoPos_spec (nFile b) (n + 40) s i Hf Hi Hu) as (ok & s1 & -> & Ev & Hspace & Hkeep); [lia|lia|].
  cbn [obind]. destruct ok; cbn [negb].
  2: { do 4 eexists. split_and!; [done|intros; by apply Hkeep|intros _ H; by specialize (Hspace H)|done]. }
  rewrite Hq. cbn [of_option obind]. rewrite Hbq. cbn [of_option obind]. unfold GetBlockHash. rewrite Hhash. cbn [of_option obind].
  rewrite UndoWriteToDisk_spec by (done || cbn; lia). cbn [pos_nFile nPos]. destruct (Open fopens (rev_ s1) _ false) as [fs|] eqn:Eo; cbn [negb].
  2: { do 4 eexists. split_and!; [done|intros; by apply Hkeep| |done]. intros H _. unfold Open, pos_IsNull in Eo. cbn [pos_nFile] in Eo.
       rewrite (proj2 (Z.eqb_neq _ _)), H in Eo by lia. cbn in Eo. by destruct (rev_ s1 !! _). }
  destruct (Open_present fopens _ _ _ _ Eo) as [Hpres Hopens]. cbn [pos_nFile] in *.
  do 4 eexists. split_and!; [done| |done|].
  - intros g a d Hd. destruct (Hkeep g a d Hd) as [(? & ? & Hh & Hv) Hbelow]. split_and!; [done|done| |done]. cbn [rev_ set_rev].
    apply fwrite_keeps; [cbn; lia|cbn; intros E; split; [done|by apply Hbelow]|by eapply Open_keeps].
  - intros _. split; [done|]. eexists. split_and!; [reflexivity|done|].
    exists q, bq, hash. cbn [pprev nStatus nFile nUndoPos set_undo entries set_dirty set_entries]. rewrite lookup_insert_ne by done. cbn [nPos].
    split_and!; [done|done|done| |done|lia|].
    + by rewrite Z.land_lor_distr_l, Hst.
    + split_and!; [done|lia| |].
      * replace (nUndoSize i + 8 - 8) with (nUndoSize i) by lia. cbn [rev_ set_rev]. exact (fwrite_writes (Build_FlatFilePos (nFile b) (nUndoSize i)) _ fs Hu Hpres).
      * cbn [vinfoBlockFile set_rev]. rewrite Ev, list_lookup_insert_eq by (by eapply lookup_lt_Some). eexists. split; [done|].
        rewrite undo_record_length by done. cbn. lia.
Qed.

Definition all_storable (u : coins) : Prop := forall o k, u o = Some k -> storable k.

(** Outputs within the limits of the format create coins within them: a script that is too
    long is unspendable. *)
Lemma apply_tx_storable height u tx :
  all_storable u -> Forall (fun t => 0 <= nValue t <= compressible) (vout tx) -> all_storable (apply_tx height u tx).
Proof.
  intros Hu Hv o k. unfold apply_tx, plus. destruct (outputs height tx !! o) as [k'|] eqn:E.
  - intros [= <-]. apply created_inv in E as (i & t & _ & Ht & _ & -> & Hun). unfold storable, storable_txout. cbn [Coins.nHeight out Coin_new].
    split; [apply wrap_range; lia|]. split; [exact (Forall_lookup_1 _ _ _ _ Hv Ht)|].
    unfold IsUnspendable in Hun. apply orb_false_iff in Hun as [_ Hun]. lia.
  - unfold minus. destruct (decide _); [done|]. apply Hu.
Qed.

Lemma undos_storable height u i txs :
  block_applies height u i txs -> all_storable u -> Forall (fun tx => Forall (fun t => 0 <= nValue t <= compressible) (vout tx)) txs ->
  Forall (fun tx => Z.of_nat (length (vin tx)) <= MAX_INPUTS_PER_BLOCK) txs ->
  Forall (fun l => Forall storable l /\ Z.of_nat (length l) <= MAX_INPUTS_PER_BLOCK) (undos height u i txs).
Proof.
  revert u i. induction txs as [|tx txs IH]; intros u i Hb Hu Hv Hn; [constructor|]. destruct Hb as [Ht Hb].
  apply Forall_cons_iff in Hv as [Hv Hvs], Hn as [Hn Hns]. cbn [undos]. apply Forall_app. split; [|apply IH; [done|by apply apply_tx_storable|done|done]].
  destruct (Nat.ltb_spec 0 i) as [Hi|Hi]; [|constructor]. constructor; [|constructor]. unfold undo_of. rewrite length_map. split; [|done].
  destruct Ht as (Hcb & _ & Hin & _). unfold inputs in Hin. rewrite Hcb in Hin. destruct i as [|i]; [lia|]. cbn [Nat.eqb] in Hin.
  rewrite Forall_map in Hin |- *. eapply Forall_impl; [exact Hin|]. intros j [k Hk]. cbn in Hk |- *. rewrite Hk. by apply (Hu (prevout j)).
Qed.

(** C17 (reorganisations through the disk): a block is connected, its undo data are
    written behind those of the other blocks, and later, after any writes that
    keep what is stored, read back and used to disconnect it: the coins are
    those before the block. The coins and outputs have to be within the limits
    of the format. *)
Theorem disconnect_with_stored_undo `{Laws : CCoinsViewReads V} (ms : bytes) (txs : list CTransaction) (height : Z) (hash : uint256)
    (c : CCoinsViewCache V) (state : CValidationState) (p q : ptr) (cs : ChainState) (s : BlockStore) (b bq : CBlockIndex) (i : CBlockFileInfo) (prev : uint256) :
  cache_ok c -> 0 < height < 2 ^ 30 -> coins_ok (cache_utxo c) -> block_applies height (cache_utxo c) 0 txs -> txs <> [] -> blob_IsNull hash = false ->
  all_storable (cache_utxo c) -> Forall (fun tx => Forall (fun t => 0 <= nValue t <= compressible) (vout tx)) txs ->
  Forall (fun tx => Z.of_nat (length (vin tx)) <= MAX_INPUTS_PER_BLOCK) txs -> sized txs ->
  length ms = 4%nat -> entries cs !! p = Some b -> Z.land (nStatus b) BLOCK_HAVE_UNDO = 0 ->
  pprev b = Some q -> q <> p -> entries cs !! q = Some bq -> phashBlock bq = Some prev ->
  0 <= nFile b -> vinfoBlockFile s !! Z.to_nat (nFile b) = Some i -> 0 <= nUndoSize i ->
  nUndoSize i + Z.of_nat (length (Serialize_CBlockUndo IsFullyValid (undos height (cache_utxo c) 0 txs))) + 40 < 2 ^ 32 ->
  (forall n, fopens n = true) -> (forall n, CheckDiskSpace n = true) ->
  exists vtxundo c1 cs' s' b',
    ConnectBlock_coins txs height hash c = Ok (vtxundo, c1) /\
    WriteUndoDataForBlock ms vtxundo state p cs s = Ok (true, state, cs', s') /\ entries cs' !! p = Some b' /\
    forall s'', (forall g a d, undo_stored s' g a d -> undo_stored s'' g a d) ->
      exists vtxundo' c2, UndoReadFromDisk (entries cs') s'' b' = Ok (Some vtxundo') /\
        DisconnectBlock txs vtxundo' height hash prev c1 = Ok (DISCONNECT_OK, c2) /\ (forall o, cache_utxo c2 o = cache_utxo c o) /\ hashBlock c2 = prev.
Proof.
  intros Hc Hh Hok Hb Hne Hnull Hall Hv Hn Hsz Hms Hp Hst Hq Hqp Hbq Hhash Hf Hi Hu Hlt Ho Hd.
  destruct (connect_disconnect_spec txs height hash prev c Hc Hh Hok Hb Hne Hnull) as (c1 & c2 & E1 & _ & E2 & Hu2 & Hbest).
  set (undo := undos height (cache_utxo c) 0 txs) in *.
  destruct (WriteUndoDataForBlock_spec ms undo state p cs s b i q bq prev) as (ok & st' & cs' & s' & Ew & _ & Hspace & Hdone); try done.
  rewrite (Hspace Ho Hd) in *. destruct (Hdone eq_refl) as (-> & b' & Ec & _ & Hundo).
  exists undo, c1, cs', s', b'. split_and!; [done|done|by rewrite Ec, lookup_insert_eq|]. intros s'' Hkeep. exists undo, c2. split_and!; [|done|done|done].
  apply (UndoReadFromDisk_spec ms); [done| |].
  - split; [by apply undos_storable|]. unfold sized in *. pose proof (length_undos height (cache_utxo c) 0 txs) as Hl. fold undo in Hl. cbn [Nat.ltb Nat.leb] in Hl. lia.
  - destruct Hundo as (q' & bq' & h' & H1 & H2 & H3 & H4 & H5 & H6 & H7). exists q', bq', h'. split_and!; [done|done|done|done|done|done|by apply Hkeep].
Qed.

End undo.

(** Block 40 of the example chain *)
Lemma disconnect_with_stored_undo_witness :
  exists vtxundo c1 cs' s' b',
    ConnectBlock_coins [a_coinbase; a_spend] 40 (repeat 3 32) a_cache = Ok (vtxundo, c1) /\
    WriteUndoDataForBlock (fun _ => true) (fun _ => true) false seven_valid [1; 2; 3; 4] vtxundo CValidationState_new (Pos.of_succ_nat 40) (line_state 290) line_store =
      Ok (true, CValidationState_new, cs', s') /\ entries cs' !! Pos.of_succ_nat 40 = Some b' /\
    forall s'', (forall g a d, undo_stored s' g a d -> undo_stored s'' g a d) ->
      exists vtxundo' c2, UndoReadFromDisk (fun _ => true) seven_decompress (entries cs') s'' b' = Ok (Some vtxundo') /\
        DisconnectBlock [a_coinbase; a_spend] vtxundo' 40 (repeat 3 32) (line_hash 39) c1 = Ok (DISCONNECT_OK, c2) /\
        (forall o, cache_utxo c2 o = cache_utxo a_cache o) /\ hashBlock c2 = line_hash 39.
Proof.
  apply (disconnect_with_stored_undo (fun _ => true) (fun _ => true) false seven_valid seven_decompress seven_keys [1; 2; 3; 4] [a_coinbase; a_spend] 40 (repeat 3 32)
    a_cache CValidationState_new (Pos.of_succ_nat 40) (Pos.of_succ_nat 39) (line_state 290) line_store (line_entry 40) (line_entry 39) (mkFileInfo 288 9000 500 2 289 0 0) (line_hash 39));
    [exact a_cache_ok|lia|exact a_cache_coins|exact a_block_applies|discriminate|reflexivity| |repeat constructor; by vm_compute|repeat constructor; by vm_compute|by vm_compute|done
    |apply line_lookup; exists 40%nat; split_and!; done || lia|done|done|done|apply line_lookup; exists 39%nat; split_and!; done || lia|done|done|done|done| |done|done].
  - intros o k. unfold cache_utxo, a_cache. cbn [cacheCoins base CCoinsViewCache_new utxo CoinStore_reads coins_of]. destruct (decide (out_a = o)) as [<-|Hne].
    + rewrite lookup_empty, lookup_singleton_eq. intros [= <-]. by vm_compute.
    + rewrite lookup_empty. by rewrite lookup_singleton_ne.
  - by vm_compute.
Defined.
