(* ===== verification/CoinsDB.v ===== *)
(** * CoinsDB: the database of unspent coins (src/src/dbwrapper.h, src/src/txdb.cpp, src/src/validation.cpp)

    [CDBWrapper] keeps serialized, obfuscated values in a LevelDB database,
    whose contract is the class [LevelDBLaws]; [CCoinsViewDB] stores the coins
    in it and writes them in several batches, each of which is atomic, so the
    node may stop between them.  [ReplayBlocks] repairs the database at the
    next start.  The blocks of the chain are read through an argument. *)

From Stdlib Require Import ZArith List Lia Bool.
From stdpp Require Import base decidable list option gmap.
From S2P Require Import Prelude Uint256 Primitives Chain Script Hash Serialize Standard Coins Utxo Compressor.
Local Open Scope Z_scope.
Local Open Scope outcome_scope.

(** ** LevelDB *)

Inductive db_op :=
  | Put (k v : bytes)
  | Delete (k : bytes).

Class LevelDB (D : Type) := {
  ldb_Get : bytes -> D -> option bytes;
  ldb_Write : list db_op -> D -> D }.

Definition apply_op (k : bytes) (r : option bytes) (op : db_op) : option bytes :=
  match op with
  | Put k' v => if bool_decide (k = k') then Some v else r
  | Delete k' => if bool_decide (k = k') then None else r
  end.

(** A batch is applied as a whole and in order. *)
Class LevelDBLaws (D : Type) `{LevelDB D} := {
  ldb_Get_Write k ops d : ldb_Get k (ldb_Write ops d) = fold_left (apply_op k) ops (ldb_Get k d) }.

(** ** The wrapper *)

(** [CDataStream::Xor] *)
Definition Xor (key : bytes) (data : bytes) : bytes :=
  match key with
  | [] => data
  | _ => imap (fun i x => Z.lxor x (nth (i mod length key) key 0)) data
  end.

Record CDBWrapper (D : Type) := mkDB { pdb : D; obfuscate_key : bytes }.
Arguments mkDB {_} _ _.
Arguments pdb {_} _.
Arguments obfuscate_key {_} _.

Record CDBBatch := mkBatch { batch_ops : list db_op; size_estimate : Z }.
Definition CDBBatch_new : CDBBatch := mkBatch [] 0.

Definition over_127 (b : bytes) : Z := if 127 <? Z.of_nat (length b) then 1 else 0.

Section wrapper.
Context `{LevelDB D}.

Definition batch_Write (parent : CDBWrapper D) (key value : bytes) (b : CDBBatch) : CDBBatch :=
  let value := Xor (obfuscate_key parent) value in
  mkBatch (batch_ops b ++ [Put key value])
    (size_estimate b + 3 + over_127 key + Z.of_nat (length key) + over_127 value + Z.of_nat (length value)).

Definition batch_Erase (key : bytes) (b : CDBBatch) : CDBBatch :=
  mkBatch (batch_ops b ++ [Delete key]) (size_estimate b + 2 + over_127 key + Z.of_nat (length key)).

Definition WriteBatch (b : CDBBatch) (v : CDBWrapper D) : CDBWrapper D := mkDB (ldb_Write (batch_ops b) (pdb v)) (obfuscate_key v).

Definition db_Read {A} (unser : bytes -> option (A * bytes)) (key : bytes) (v : CDBWrapper D) : option A :=
  strValue ← ldb_Get key (pdb v) ;
  fst <$> unser (Xor (obfuscate_key v) strValue).

Definition db_Exists (key : bytes) (v : CDBWrapper D) : bool := match ldb_Get key (pdb v) with Some _ => true | None => false end.

End wrapper.

(** ** Coins *)

Definition DB_COIN : Z := 67.
Definition DB_BEST_BLOCK : Z := 66.
Definition DB_HEAD_BLOCKS : Z := 72.

(** [CoinEntry] *)
Definition CoinEntry (o : COutPoint) : bytes := DB_COIN :: op_hash o ++ WriteVarInt (op_n o).

Section coinsdb.
Context `{Laws : LevelDB D}.
Context (IsFullyValid : CPubKey -> bool) (Decompress : CPubKey -> option CPubKey) (batch_size : Z).

Definition db_GetCoin (o : COutPoint) (v : CDBWrapper D) : option Coin := db_Read (Unserialize_Coin Decompress) (CoinEntry o) v.

Definition db_HaveCoin (o : COutPoint) (v : CDBWrapper D) : bool := db_Exists (CoinEntry o) v.

Definition db_GetBestBlock (v : CDBWrapper D) : uint256 := default uint256_null (db_Read Unserialize_uint256 [DB_BEST_BLOCK] v).

Definition GetHeadBlocks (v : CDBWrapper D) : list uint256 :=
  default [] (db_Read (Unserialize_vector Unserialize_uint256) [DB_HEAD_BLOCKS] v).

(** The loop over the cache: the batches that were written, and the one that is open *)
Fixpoint write_coins (v : CDBWrapper D) (l : list (COutPoint * CCoinsCacheEntry)) (batch : CDBBatch)
    : outcome (list CDBBatch * CDBBatch) :=
  match l with
  | [] => Ok ([], batch)
  | (o, e) :: l =>
    batch <-! (if is_dirty e then
                 if IsSpent (coin e) then Ok (batch_Erase (CoinEntry o) batch)
                 else b <-! of_option (Serialize_Coin IsFullyValid (coin e)) ; Ok (batch_Write v (CoinEntry o) b batch)
               else Ok batch) ;
    if batch_size <? size_estimate batch then
      r <-! write_coins v l CDBBatch_new ;
      Ok (batch :: fst r, snd r)
    else write_coins v l batch
  end.

(** The batches of [BatchWrite], in the order in which they are written *)
Definition BatchWrite_batches (mapCoins : CCoinsMap) (hashBlock : uint256) (v : CDBWrapper D) : outcome (list CDBBatch) :=
  if blob_IsNull hashBlock then Fail
  else
    let old_tip := db_GetBestBlock v in
    old_tip <-! (if blob_IsNull old_tip then
                   match GetHeadBlocks v with
                   | [new; old] => if bytes_eqb new hashBlock then Ok old else Fail
                   | _ => Ok old_tip
                   end
                 else Ok old_tip) ;
    let batch := batch_Erase [DB_BEST_BLOCK] CDBBatch_new in
    let batch := batch_Write v [DB_HEAD_BLOCKS] (Serialize_vector (fun h => h) [hashBlock; old_tip]) batch in
    r <-! write_coins v (map_to_list mapCoins) batch ;
    let batch := batch_Erase [DB_HEAD_BLOCKS] (snd r) in
    Ok (fst r ++ [batch_Write v [DB_BEST_BLOCK] hashBlock batch]).

Definition write_batches (l : list CDBBatch) (v : CDBWrapper D) : CDBWrapper D := fold_left (fun v b => WriteBatch b v) l v.

Definition db_BatchWrite (mapCoins : CCoinsMap) (hashBlock : uint256) (v : CDBWrapper D) : outcome (bool * CDBWrapper D) :=
  l <-! BatchWrite_batches mapCoins hashBlock v ;
  Ok (true, write_batches l v).

#[local] Instance CCoinsViewDB : CCoinsView (CDBWrapper D) := {
  GetCoin o v := (db_GetCoin o v, v);
  HaveCoin o v := (db_HaveCoin o v, v);
  GetBestBlock v := (db_GetBestBlock v, v);
  BatchWrite := db_BatchWrite }.

End coinsdb.

(** The in-memory database *)
#[export] Instance MemDB : LevelDB (gmap bytes bytes) := {
  ldb_Get k d := d !! k;
  ldb_Write ops d := fold_left (fun d op => match op with Put k v => <[k := v]> d | Delete k => delete k d end) ops d }.

(** * Correctness *)

#[export] Instance MemDB_laws : LevelDBLaws (gmap bytes bytes).
Proof.
  constructor. intros k ops. induction ops as [|op ops IH]; intros d; [done|]. cbn [ldb_Write MemDB fold_left] in *.
  specialize (IH (match op with Put k v => <[k := v]> d | Delete k => delete k d end)). cbn [ldb_Write MemDB] in IH. rewrite IH. f_equal.
  destruct op as [k' v|k']; cbn [ldb_Get MemDB apply_op]; case_bool_decide as E; subst;
    by rewrite ?lookup_insert_eq, ?lookup_insert_ne, ?lookup_delete_eq, ?lookup_delete_ne by congruence.
Qed.

(** ** Obfuscation *)

Lemma Xor_involutive key data : Xor key (Xor key data) = data.
Proof.
  destruct key as [|b key]; [done|]. unfold Xor, bytes in *. apply list_eq. intros i. rewrite !list_lookup_imap. destruct (data !! i) as [x|]; [|done].
  cbn [fmap option_fmap option_map]. by rewrite Z.lxor_assoc, Z.lxor_nilpotent, Z.lxor_0_r.
Qed.

(** The operation before obfuscation *)
Definition plain (key : bytes) (op : db_op) : db_op :=
  match op with
  | Put k v => Put k (Xor key v)
  | Delete k => Delete k
  end.

Definition op_key (op : db_op) : bytes := match op with Put k _ => k | Delete k => k end.

(** A batch keeps the last operation on each key. *)
Lemma fold_ops_absent k ops r : Forall (fun op => op_key op <> k) ops -> fold_left (apply_op k) ops r = r.
Proof.
  revert r. induction ops as [|op ops IH]; intros r H; [done|]. apply Forall_cons_iff in H as [Hop H]. cbn [fold_left]. rewrite IH by done.
  destruct op as [k' v|k']; cbn [apply_op op_key] in *; by rewrite bool_decide_eq_false_2 by congruence.
Qed.

Lemma fold_ops_cases k ops r : fold_left (apply_op k) ops r = r \/ fold_left (apply_op k) ops r = None \/ exists v, Put k v ∈ ops /\ fold_left (apply_op k) ops r = Some v.
Proof.
  revert r. induction ops as [|op ops IH]; intros r; [by left|]. cbn [fold_left].
  destruct (IH (apply_op k r op)) as [E|[E|(v & Hv & E)]]; rewrite E; [|by right; left|right; right; exists v; split; [by apply list_elem_of_further|done]].
  destruct op as [k' v|k']; cbn [apply_op]; case_bool_decide; subst; [right; right; exists v; split; [by apply list_elem_of_here|done]|by left|by right; left|by left].
Qed.

Section database.
Context `{Laws : LevelDBLaws D}.

(** What is stored for a key *)
Definition value (k : bytes) (v : CDBWrapper D) : option bytes := Xor (obfuscate_key v) <$> ldb_Get k (pdb v).

Lemma db_Read_value {A} (unser : bytes -> option (A * bytes)) k v : db_Read unser k v = (x ← value k v ; fst <$> unser x).
Proof. unfold db_Read, value. by destruct (ldb_Get k (pdb v)). Qed.

Lemma db_Exists_value k v : db_Exists k v = bool_decide (is_Some (value k v)).
Proof. unfold db_Exists, value. by destruct (ldb_Get k (pdb v)). Qed.

Lemma value_WriteBatch k b v : value k (WriteBatch b v) = fold_left (apply_op k) (map (plain (obfuscate_key v)) (batch_ops b)) (value k v).
Proof.
  unfold value, WriteBatch. cbn [pdb obfuscate_key]. rewrite ldb_Get_Write. generalize (ldb_Get k (pdb v)) as r. induction (batch_ops b) as [|op ops IH]; intros r; [done|].
  cbn [map fold_left]. rewrite IH. f_equal. destruct op as [k' x|k']; cbn [apply_op plain]; by case_bool_decide.
Qed.

(** The operations of some batches *)
Definition ops_of (key : bytes) (l : list CDBBatch) : list db_op := concat (map (fun b => map (plain key) (batch_ops b)) l).

Lemma ops_of_app key l l' : ops_of key (l ++ l') = ops_of key l ++ ops_of key l'.
Proof. unfold ops_of. by rewrite map_app, concat_app. Qed.

Lemma write_batches_key l v : obfuscate_key (write_batches l v) = obfuscate_key v.
Proof. revert v. induction l as [|b l IH]; intros v; [done|]. unfold write_batches in *. cbn [fold_left]. by rewrite IH. Qed.

Lemma value_write_batches k l v : value k (write_batches l v) = fold_left (apply_op k) (ops_of (obfuscate_key v) l) (value k v).
Proof.
  revert v. induction l as [|b l IH]; intros v; [done|]. unfold write_batches, ops_of in *. cbn [fold_left map concat]. rewrite fold_left_app, IH. cbn [obfuscate_key WriteBatch].
  by rewrite value_WriteBatch.
Qed.

(** ** Keys *)

Lemma CoinEntry_inj o o' : valid_outpoint o -> valid_outpoint o' -> CoinEntry o = CoinEntry o' -> o = o'.
Proof.
  intros [Hh Hn] [Hh' Hn'] [= E]. apply app_inj_1 in E as [E1 E2]; [|congruence]. destruct o as [h n], o' as [h' n']. cbn [op_hash op_n] in *. subst h'. f_equal. unfold in_u in *.
  assert (R : ReadVarInt (2 ^ 32 - 1) (WriteVarInt n ++ []) = Some (n, [])) by (apply varint_round_trip_max; lia).
  rewrite E2, varint_round_trip_max in R by lia. congruence.
Qed.

(** ** Batches *)

Context (IsFullyValid : CPubKey -> bool) (Decompress : CPubKey -> option CPubKey) (batch_size : Z).

(** What is written for an entry of the cache *)
Definition coin_ops (x : COutPoint * CCoinsCacheEntry) : list db_op :=
  if is_dirty (snd x) then
    [match Serialize_Coin IsFullyValid (coin (snd x)) with Some b => Put (CoinEntry (fst x)) b | None => Delete (CoinEntry (fst x)) end]
  else [].

Lemma plain_Write (v : CDBWrapper D) k x b : map (plain (obfuscate_key v)) (batch_ops (batch_Write v k x b)) = map (plain (obfuscate_key v)) (batch_ops b) ++ [Put k x].
Proof. unfold batch_Write. cbn [batch_ops]. rewrite map_app. cbn [map plain]. by rewrite Xor_involutive. Qed.

Lemma plain_Erase key k b : map (plain key) (batch_ops (batch_Erase k b)) = map (plain key) (batch_ops b) ++ [Delete k].
Proof. unfold batch_Erase. cbn [batch_ops]. by rewrite map_app. Qed.

(** Each batch continues where the one before it stopped. *)
Lemma write_coins_spec (v : CDBWrapper D) l batch :
  exists bs b, write_coins IsFullyValid batch_size v l batch = Ok (bs, b) /\
    forall k, (0 < k <= length bs + 1)%nat -> exists j,
      ops_of (obfuscate_key v) (take k (bs ++ [b])) = map (plain (obfuscate_key v)) (batch_ops batch) ++ concat (map coin_ops (take j l)) /\
      (k = length bs + 1 -> take j l = l)%nat.
Proof.
  revert batch. induction l as [|[o e] l IH]; intros batch; cbn [write_coins].
  { exists [], batch. split; [done|]. intros k Hk. exists 0%nat. cbn [length] in Hk. replace k with 1%nat by lia. split; [|done].
    unfold ops_of. cbn [app take map concat]. done. }
  set (m := if is_dirty e then _ else Ok batch).
  assert (Hm : exists batch', m = Ok batch' /\ map (plain (obfuscate_key v)) (batch_ops batch') = map (plain (obfuscate_key v)) (batch_ops batch) ++ coin_ops (o, e)).
  { unfold m, coin_ops. cbn [fst snd]. destruct (is_dirty e); [|exists batch; by rewrite app_nil_r]. unfold Serialize_Coin.
    destruct (IsSpent (coin e)); cbn [of_option obind]; eexists; (split; [done|]); [apply plain_Erase|apply plain_Write]. }
  destruct Hm as (batch' & -> & Hops). cbn [obind]. destruct (batch_size <? size_estimate batch').
  - destruct (IH CDBBatch_new) as (bs & b & -> & Hk). cbn [obind fst snd]. exists (batch' :: bs), b. split; [done|]. intros k Hlen. cbn [length] in Hlen.
    destruct k as [|[|k]]; [lia| |].
    + exists 1%nat. cbn [app take]. rewrite take_0. unfold ops_of. cbn [map concat]. rewrite take_0. cbn [map concat]. rewrite !app_nil_r.
      split; [exact Hops|]. cbn [length]. lia.
    + destruct (Hk (S k) ltac:(lia)) as (j & E & Hall). exists (S j). cbn [app take]. change (take (S k) (bs ++ [b])) with (take (S k) (bs ++ [b])) in E.
      unfold ops_of in *. cbn [map concat] in *. split; [|cbn [length]; intros Ek; f_equal; apply Hall; lia]. rewrite Hops, <- app_assoc. f_equal. f_equal. exact E.
  - destruct (IH batch') as (bs & b & -> & Hk). exists bs, b. split; [done|]. intros k Hlen. destruct (Hk k Hlen) as (j & E & Hall).
    exists (S j). split; [|intros Ek; cbn [take]; f_equal; by apply Hall]. cbn [take map concat]. rewrite E, Hops, <- app_assoc. done.
Qed.

(** The tip before an interrupted flush, or the tip *)
Definition old_tip (v : CDBWrapper D) : uint256 :=
  if blob_IsNull (db_GetBestBlock v) then match GetHeadBlocks v with [_; old] => old | _ => db_GetBestBlock v end else db_GetBestBlock v.

(** A flush that was interrupted is only followed by one to the same tip. *)
Definition flushable (h : uint256) (v : CDBWrapper D) : Prop :=
  length h = 32%nat /\ blob_IsNull h = false /\ (blob_IsNull (db_GetBestBlock v) = true -> forall new old, GetHeadBlocks v = [new; old] -> new = h).

Definition flush_ops (h old : uint256) (last : bool) (l : list (COutPoint * CCoinsCacheEntry)) : list db_op :=
  [Delete [DB_BEST_BLOCK]; Put [DB_HEAD_BLOCKS] (Serialize_vector (fun h => h) [h; old])] ++ concat (map coin_ops l) ++
  (if last then [Delete [DB_HEAD_BLOCKS]; Put [DB_BEST_BLOCK] h] else []).

Lemma BatchWrite_batches_spec m h v :
  flushable h v ->
  exists bs b, BatchWrite_batches IsFullyValid batch_size m h v = Ok (bs ++ [b]) /\
    ops_of (obfuscate_key v) (bs ++ [b]) = flush_ops h (old_tip v) true (map_to_list m) /\
    forall k, (0 < k <= length bs)%nat -> exists j, ops_of (obfuscate_key v) (take k bs) = flush_ops h (old_tip v) false (take j (map_to_list m)).
Proof.
  intros (Hlen & Hnull & Hheads). unfold BatchWrite_batches. rewrite Hnull.
  replace (if blob_IsNull (db_GetBestBlock v) then _ else _) with (Ok (old_tip v)).
  2: { unfold old_tip. destruct (blob_IsNull (db_GetBestBlock v)); [|done]. destruct (GetHeadBlocks v) as [|new [|old [|? ?]]]; [done|done| |done].
       by rewrite (Hheads eq_refl new old eq_refl), (proj2 (bytes_eqb_eq _ _)). }
  cbn [obind]. set (batch := batch_Write v _ _ _).
  assert (Hb : map (plain (obfuscate_key v)) (batch_ops batch) =
    [Delete [DB_BEST_BLOCK]; Put [DB_HEAD_BLOCKS] (Serialize_vector (fun h => h) [h; old_tip v])]) by (unfold batch; by rewrite plain_Write, plain_Erase).
  destruct (write_coins_spec v (map_to_list m) batch) as (bs & b & -> & Hk). cbn [obind fst snd]. exists bs. eexists. split; [done|]. unfold flush_ops. rewrite Hb in Hk. split.
  - destruct (Hk (length bs + 1)%nat ltac:(lia)) as (j & E & Hall). rewrite (Hall eq_refl), take_ge, ops_of_app in E by (rewrite length_app; cbn; lia).
    rewrite ops_of_app. unfold ops_of at 2. cbn [map concat]. rewrite plain_Write, plain_Erase, app_nil_r, <- app_assoc. cbn [app].
    unfold ops_of at 2 in E. cbn [map concat] in E. rewrite app_nil_r in E. rewrite app_assoc, E, <- app_assoc. done.
  - intros k Hlt. destruct (Hk k ltac:(lia)) as (j & E & _). exists j. rewrite take_app_le in E by lia. by rewrite app_nil_r.
Qed.

(** *** What the batches leave behind *)

Lemma coin_ops_keys l : Forall (fun op => exists o, op_key op = CoinEntry o) (concat (map coin_ops l)).
Proof.
  induction l as [|[o e] l IH]; [constructor|]. cbn [map concat]. apply Forall_app. split; [|done]. unfold coin_ops. cbn [fst snd].
  destruct (is_dirty e); [|constructor]. constructor; [|constructor]. exists o. by destruct (Serialize_Coin IsFullyValid (coin e)).
Qed.

Lemma other_key k l r : (forall o, CoinEntry o <> k) -> fold_left (apply_op k) (concat (map coin_ops l)) r = r.
Proof. intros Hk. apply fold_ops_absent. eapply Forall_impl; [apply coin_ops_keys|]. intros op [o E]. rewrite E. apply Hk. Qed.

Lemma coin_ops_value o l r :
  valid_outpoint o -> Forall (fun x => valid_outpoint (fst x)) l -> NoDup l.*1 ->
  fold_left (apply_op (CoinEntry o)) (concat (map coin_ops l)) r =
  match (list_to_map l : CCoinsMap) !! o with
  | Some e => if is_dirty e then Serialize_Coin IsFullyValid (coin e) else r
  | None => r
  end.
Proof.
  intros Ho. revert r. induction l as [|[o' e] l IH]; intros r Hl Hnd; [done|]. apply Forall_cons_iff in Hl as [Ho' Hl].
  cbn [fmap list_fmap fst] in Hnd. apply NoDup_cons in Hnd as [Hni Hnd]. cbn [map concat]. rewrite fold_left_app, IH by done. cbn [list_to_map foldr uncurry].
  destruct (decide (o' = o)) as [->|Hne].
  - rewrite lookup_insert_eq, (proj1 (not_elem_of_list_to_map l o)) by done. unfold coin_ops. cbn [fst snd]. destruct (is_dirty e); [|done].
    destruct (Serialize_Coin IsFullyValid (coin e)); cbn [fold_left apply_op]; by rewrite bool_decide_eq_true_2.
  - rewrite lookup_insert_ne by done.
    assert (E : fold_left (apply_op (CoinEntry o)) (coin_ops (o', e)) r = r); [|by rewrite E].
    assert (Hk : CoinEntry o <> CoinEntry o') by (intros E; by apply CoinEntry_inj in E).
    unfold coin_ops. cbn [fst snd]. destruct (is_dirty e); [|done].
    destruct (Serialize_Coin IsFullyValid (coin e)); cbn [fold_left apply_op]; by rewrite bool_decide_eq_false_2.
Qed.

Lemma flush_ops_coin o h old last l r :
  fold_left (apply_op (CoinEntry o)) (flush_ops h old last l) r = fold_left (apply_op (CoinEntry o)) (concat (map coin_ops l)) r.
Proof.
  unfold flush_ops. rewrite !fold_left_app. cbn [fold_left apply_op]. rewrite !bool_decide_eq_false_2 by discriminate.
  destruct last; [|done]. cbn [fold_left apply_op]. by rewrite !bool_decide_eq_false_2 by discriminate.
Qed.

Lemma flush_ops_best h old last l r :
  fold_left (apply_op [DB_BEST_BLOCK]) (flush_ops h old last l) r = if last then Some h else None.
Proof.
  unfold flush_ops. rewrite !fold_left_app, other_key by discriminate. by destruct last.
Qed.

Lemma flush_ops_heads h old last l r :
  fold_left (apply_op [DB_HEAD_BLOCKS]) (flush_ops h old last l) r = if last then None else Some (Serialize_vector (fun h => h) [h; old]).
Proof.
  unfold flush_ops. rewrite !fold_left_app, other_key by discriminate. by destruct last.
Qed.

(** ** The view *)

Hypothesis Hkeys : forall x y, length x = 32%nat -> length y = 32%nat -> IsFullyValid (0x04 :: x ++ y) = true ->
  Decompress ((2 + Z.land (nth 31 y 0) 0x01) :: x) = Some (0x04 :: x ++ y).

(** Every coin in the database can be read. *)
Definition db_ok (v : CDBWrapper D) : Prop :=
  (forall o b, value (CoinEntry o) v = Some b -> exists c, storable c /\ Serialize_Coin IsFullyValid c = Some b) /\
  Forall (fun h => length h = 32%nat) (GetHeadBlocks v).

Lemma Serialize_Coin_unspent c b : Serialize_Coin IsFullyValid c = Some b -> IsSpent c = false.
Proof. unfold Serialize_Coin. by destruct (IsSpent c). Qed.

Lemma GetCoin_value o v c :
  storable c -> value (CoinEntry o) v = Serialize_Coin IsFullyValid c -> db_GetCoin Decompress o v = live c.
Proof.
  intros Hc E. unfold db_GetCoin, live. rewrite db_Read_value, E. destruct (Serialize_Coin IsFullyValid c) as [b|] eqn:Eb; cbn [mbind option_bind].
  - rewrite (Serialize_Coin_unspent c b Eb). pose proof (coin_reads IsFullyValid Decompress Hkeys c b [] Hc Eb) as R. rewrite app_nil_r in R. by rewrite R.
  - unfold Serialize_Coin in Eb. by destruct (IsSpent c).
Qed.

Lemma GetCoin_same o v v' : value (CoinEntry o) v' = value (CoinEntry o) v -> db_GetCoin Decompress o v' = db_GetCoin Decompress o v.
Proof. intros E. unfold db_GetCoin. by rewrite !db_Read_value, E. Qed.

Lemma GetCoin_cases o v : db_ok v ->
  (exists c b, value (CoinEntry o) v = Some b /\ Serialize_Coin IsFullyValid c = Some b /\ storable c /\ db_GetCoin Decompress o v = Some c) \/
  (value (CoinEntry o) v = None /\ db_GetCoin Decompress o v = None).
Proof.
  intros [Hok _]. destruct (value (CoinEntry o) v) as [b|] eqn:E; [left|right].
  - destruct (Hok o b E) as (c & Hc & Eb). exists c, b. split_and!; [done|done|done|]. rewrite (GetCoin_value o v c) by (done || congruence).
    unfold live. by rewrite (Serialize_Coin_unspent c b Eb).
  - split; [done|]. unfold db_GetCoin. by rewrite db_Read_value, E.
Qed.

Lemma HaveCoin_GetCoin o v : db_ok v -> db_HaveCoin o v = bool_decide (is_Some (db_GetCoin Decompress o v)).
Proof. intros Hv. unfold db_HaveCoin. rewrite db_Exists_value. by destruct (GetCoin_cases o v Hv) as [(c & b & -> & _ & _ & ->)|[-> ->]]. Qed.

Lemma GetCoin_storable o v c : db_ok v -> db_GetCoin Decompress o v = Some c -> storable c /\ IsSpent c = false.
Proof.
  intros Hv E. destruct (GetCoin_cases o v Hv) as [(c' & b & _ & Eb & Hc & E')|[_ E']]; [|congruence]. rewrite E in E'. injection E' as <-.
  split; [done|]. by eapply Serialize_Coin_unspent.
Qed.

#[local] Instance db_view : CCoinsView (CDBWrapper D) := CCoinsViewDB IsFullyValid Decompress batch_size.

(** The database is a view that caches can be built on. *)
#[local, refine] Instance CCoinsViewDB_reads : CCoinsViewReads (CDBWrapper D) := {
  utxo v o := db_GetCoin Decompress o v;
  best v := db_GetBestBlock v;
  view_ok := db_ok }.
Proof.
  - intros v o c Hv E. by destruct (GetCoin_storable o v c Hv E).
  - intros o v Hv. by exists v.
  - intros o v Hv. exists v. cbn [HaveCoin CCoinsViewDB db_view]. by rewrite HaveCoin_GetCoin.
  - intros v Hv. by exists v.
Defined.

Lemma db_GetBestBlock_length v : length (db_GetBestBlock v) = 32%nat.
Proof.
  unfold db_GetBestBlock. rewrite db_Read_value. destruct (value _ v) as [x|]; cbn [mbind option_bind]; [|done]. unfold Unserialize_uint256, read.
  destruct (Nat.ltb_spec (length x) 32); cbn [fmap option_fmap option_map default]; [done|]. cbn. rewrite length_take. lia.
Qed.

Lemma old_tip_length v : db_ok v -> length (old_tip v) = 32%nat.
Proof.
  intros [_ Hh]. unfold old_tip. pose proof (db_GetBestBlock_length v) as Hb. destruct (blob_IsNull _); [|done].
  destruct (GetHeadBlocks v) as [|new [|old [|? ?]]]; [done|done| |done]. apply Forall_cons_iff in Hh as [_ Hh]. by apply Forall_cons_iff in Hh as [Hh _].
Qed.

Lemma heads_read h old : length h = 32%nat -> length old = 32%nat ->
  Unserialize_vector Unserialize_uint256 (Serialize_vector (fun h => h) [h; old]) = Some ([h; old], []).
Proof.
  intros Hh Ho. rewrite <- (app_nil_r (Serialize_vector _ _)). rewrite (vector_reads _ _ (fun h => h)); [done|by vm_compute|].
  repeat (apply Forall_cons_2; [intros rest; by apply read_app|]). apply Forall_nil_2.
Qed.

(** ** Flushing *)

(** The coins of a cache that is written *)
Definition writable (m : CCoinsMap) : Prop :=
  forall o e, m !! o = Some e -> valid_outpoint o /\ (is_dirty e = true -> IsSpent (coin e) = false -> storable (coin e)).

(** The batches of a flush to [h] were all written, or some of them *)
Record flushed (m : CCoinsMap) (h : uint256) (v v' : CDBWrapper D) : Prop := {
  flushed_ok : db_ok v';
  flushed_coins o : valid_outpoint o -> db_GetCoin Decompress o v' = overlay m (fun o => db_GetCoin Decompress o v) o;
  flushed_best : db_GetBestBlock v' = h;
  flushed_heads : GetHeadBlocks v' = [] }.

Record interrupted (m : CCoinsMap) (h : uint256) (v v' : CDBWrapper D) : Prop := {
  interrupted_ok : db_ok v';
  interrupted_coins o : valid_outpoint o ->
    db_GetCoin Decompress o v' = db_GetCoin Decompress o v \/ db_GetCoin Decompress o v' = overlay m (fun o => db_GetCoin Decompress o v) o;
  interrupted_best : db_GetBestBlock v' = uint256_null;
  interrupted_heads : GetHeadBlocks v' = [h; old_tip v] }.

Section flush.
Context (m : CCoinsMap) (h : uint256) (v v' : CDBWrapper D) (last : bool) (j : nat).
Context (Hv : db_ok v) (Hh : flushable h v) (Hm : writable m).
Context (Hvals : forall k, value k v' = fold_left (apply_op k) (flush_ops h (old_tip v) last (take j (map_to_list m))) (value k v)).

Lemma entry_in_map o e : (list_to_map (take j (map_to_list m)) : CCoinsMap) !! o = Some e -> m !! o = Some e.
Proof.
  intros E. apply elem_of_list_to_map_2 in E. apply elem_of_map_to_list. rewrite <- (take_drop j (map_to_list m)). apply elem_of_app. by left.
Qed.

Lemma flush_values_ok : db_ok v'.
Proof.
  split.
  - intros o b. rewrite Hvals, flush_ops_coin. intros E. destruct (fold_ops_cases (CoinEntry o) (concat (map coin_ops (take j (map_to_list m)))) (value (CoinEntry o) v))
      as [E'|[E'|(x & Hx & E')]]; rewrite E' in E; [by apply Hv with o|done|]. injection E as ->.
    rewrite list_elem_of_In in Hx. apply in_concat in Hx as (ops & Hops & Hx). apply in_map_iff in Hops as ([o' e] & <- & He).
    assert (Hoe : m !! o' = Some e) by (apply elem_of_map_to_list; rewrite <- (take_drop j (map_to_list m)); apply elem_of_app; left; by apply list_elem_of_In).
    unfold coin_ops in Hx. cbn [fst snd] in Hx. destruct (is_dirty e) eqn:Ed; [|done]. destruct Hx as [Hx|[]].
    destruct (Serialize_Coin IsFullyValid (coin e)) as [y|] eqn:Es; [|done]. injection Hx as _ <-.
    exists (coin e). split; [|done]. apply (Hm o' e Hoe); [done|by eapply Serialize_Coin_unspent].
  - unfold GetHeadBlocks. rewrite db_Read_value, Hvals, flush_ops_heads. destruct last; [constructor|]. cbn [mbind option_bind].
    rewrite heads_read by (apply Hh || by apply old_tip_length). cbn. repeat constructor; [apply Hh|by apply old_tip_length].
Qed.

Lemma flush_values_coin o : valid_outpoint o ->
  db_GetCoin Decompress o v' =
  match (list_to_map (take j (map_to_list m)) : CCoinsMap) !! o with
  | Some e => if is_dirty e then live (coin e) else db_GetCoin Decompress o v
  | None => db_GetCoin Decompress o v
  end.
Proof.
  intros Ho. pose proof (Hvals (CoinEntry o)) as E.
  assert (Hnd : NoDup (take j (map_to_list m)).*1) by (rewrite fmap_take; apply (sublist_NoDup _ (map_to_list m).*1); [apply NoDup_fst_map_to_list|apply sublist_take]).
  assert (Hks : Forall (fun x => valid_outpoint (fst x)) (take j (map_to_list m))).
  { apply Forall_take, Forall_forall. intros [o' e] Hx. apply elem_of_map_to_list in Hx. by destruct (Hm o' e Hx). }
  rewrite flush_ops_coin, coin_ops_value in E by done.
  destruct (_ !! o) as [e|] eqn:Ee; [|by apply GetCoin_same]. apply entry_in_map in Ee. destruct (is_dirty e) eqn:Ed; [|by apply GetCoin_same].
  destruct (IsSpent (coin e)) eqn:Es; [|apply GetCoin_value; [by apply (Hm o e)|done]].
  unfold live. rewrite Es. unfold db_GetCoin. rewrite db_Read_value, E. unfold Serialize_Coin. by rewrite Es.
Qed.

Lemma flush_values_best : db_GetBestBlock v' = if last then h else uint256_null.
Proof.
  unfold db_GetBestBlock. rewrite db_Read_value, Hvals, flush_ops_best. destruct last; [|done]. cbn [mbind option_bind].
  assert (E : Unserialize_uint256 h = Some (h, [])) by (rewrite <- (app_nil_r h) at 1; apply read_app, Hh). by rewrite E.
Qed.

Lemma flush_values_heads : GetHeadBlocks v' = if last then [] else [h; old_tip v].
Proof.
  unfold GetHeadBlocks. rewrite db_Read_value, Hvals, flush_ops_heads. destruct last; [done|]. cbn [mbind option_bind].
  by rewrite heads_read by (apply Hh || by apply old_tip_length).
Qed.

End flush.

Lemma flush_batches_spec m h v :
  db_ok v -> flushable h v -> writable m ->
  exists l, BatchWrite_batches IsFullyValid batch_size m h v = Ok l /\
    db_BatchWrite IsFullyValid batch_size m h v = Ok (true, write_batches l v) /\ flushed m h v (write_batches l v) /\
    forall k, (0 < k < length l)%nat -> interrupted m h v (write_batches (take k l) v).
Proof.
  intros Hv Hh Hm. destruct (BatchWrite_batches_spec m h v Hh) as (bs & b & E & Hall & Hsome). exists (bs ++ [b]). split; [done|]. split; [unfold db_BatchWrite; by rewrite E|]. split.
  - assert (Hvals : forall k, value k (write_batches (bs ++ [b]) v) =
      fold_left (apply_op k) (flush_ops h (old_tip v) true (take (length (map_to_list m)) (map_to_list m))) (value k v)).
    { intros k. by rewrite value_write_batches, Hall, firstn_all. }
    split; [by eapply flush_values_ok| |by eapply (flush_values_best m h v _ true)|by eapply (flush_values_heads m h v _ true)].
    intros o Ho. rewrite (flush_values_coin m h v _ true (length (map_to_list m))) by done. unfold overlay. by rewrite firstn_all, list_to_map_to_list.
  - intros k Hk. rewrite length_app in Hk. cbn [length] in Hk. destruct (Hsome k ltac:(lia)) as (j & Ej). rewrite take_app_le by lia.
    assert (Hvals : forall x, value x (write_batches (take k bs) v) = fold_left (apply_op x) (flush_ops h (old_tip v) false (take j (map_to_list m))) (value x v)).
    { intros x. by rewrite value_write_batches, Ej. }
    split; [by eapply flush_values_ok| |by eapply (flush_values_best m h v _ false)|by eapply (flush_values_heads m h v _ false)].
    intros o Ho. rewrite (flush_values_coin m h v _ false j) by done. unfold overlay.
    destruct (list_to_map (take j (map_to_list m)) !! o) as [e|] eqn:Ee; [|by left]. right. by rewrite (entry_in_map m j o e Ee).
Qed.

(** C7 (crashes during a flush): a cache is written to the database in batches,
    each written as a whole. After the last one the database has exactly the
    coins of the cache and the new tip; if the node stops earlier, the database
    has no tip but names the old and the new one, and every coin is in its old
    or in its new state. *)
Theorem flush_survives_crashes (c : CCoinsViewCache (CDBWrapper D)) :
  cache_ok c -> flushable (hashBlock c) (base c) -> writable (cacheCoins c) ->
  exists l c', BatchWrite_batches IsFullyValid batch_size (cacheCoins c) (hashBlock c) (base c) = Ok l /\
    Flush c = Ok (true, c') /\ base c' = write_batches l (base c) /\ cache_ok c' /\
    (forall o, valid_outpoint o -> db_GetCoin Decompress o (base c') = cache_utxo c o) /\
    db_GetBestBlock (base c') = hashBlock c /\ GetHeadBlocks (base c') = [] /\
    forall k, (0 < k < length l)%nat -> let d := write_batches (take k l) (base c) in
      db_ok d /\ db_GetBestBlock d = uint256_null /\ GetHeadBlocks d = [hashBlock c; old_tip (base c)] /\
      forall o, valid_outpoint o -> db_GetCoin Decompress o d = db_GetCoin Decompress o (base c) \/ db_GetCoin Decompress o d = cache_utxo c o.
Proof.
  intros Hc Hh Hm. destruct (flush_batches_spec (cacheCoins c) (hashBlock c) (base c)) as (l & El & Ew & [Hok Hu Hb Hhd] & Hk); [by destruct Hc|done|done|].
  assert (Ho : forall o, overlay (cacheCoins c) (fun o => db_GetCoin Decompress o (base c)) o = cache_utxo c o) by (intros o; exact (cache_overlay c o Hc)).
  exists l. eexists. split; [done|]. split; [unfold Flush; change (BatchWrite (cacheCoins c) (hashBlock c) (base c)) with (db_BatchWrite IsFullyValid batch_size (cacheCoins c) (hashBlock c) (base c)); by rewrite Ew|]. cbn [base cacheCoins]. split_and!; [done| | |done|done|].
  - split; [done|apply map_Forall_empty].
  - intros o H'. by rewrite Hu, Ho.
  - intros k Hlt. destruct (Hk k Hlt) as [Hok' Hu' Hb' Hhd']. split_and!; [done|done|done|]. intros o H'. rewrite <- Ho. by apply Hu'.
Qed.

End database.

(** ** Instances *)

(** A database in memory that holds one coin *)
Definition a_key : bytes := [19; 7; 0; 255; 3; 4; 5; 6].
Definition a_coin : Coin := mkCoin (mkTxOut 700 [OP_1]) false false 12.
Definition a_coin_bytes : bytes := default [] (Serialize_Coin seven_valid a_coin).
Definition a_out : COutPoint := mkOutPoint (repeat 8 32) 300.
Definition b_out : COutPoint := mkOutPoint (repeat 9 32) 0.
Definition a_db_with (k x : bytes) : CDBWrapper (gmap bytes bytes) := mkDB (<[CoinEntry a_out := Xor a_key a_coin_bytes]> {[k := Xor a_key x]}) a_key.
Definition a_db : CDBWrapper (gmap bytes bytes) := a_db_with [DB_BEST_BLOCK] (repeat 5 32).

#[local] Instance a_view : CCoinsView (CDBWrapper (gmap bytes bytes)) := db_view seven_valid seven_decompress 20.
#[local] Instance a_reads : CCoinsViewReads (CDBWrapper (gmap bytes bytes)) := CCoinsViewDB_reads seven_valid seven_decompress 20 seven_keys.

(** A cache in which the coin is spent and another one is added *)
Definition a_dbcache : CCoinsViewCache (CDBWrapper (gmap bytes bytes)) :=
  mkCache a_db (repeat 3 32) (<[a_out := mkEntry coinEmpty DIRTY]> {[b_out := mkEntry key_coin (Z.lor DIRTY FRESH)]}).

Lemma a_db_with_ok k x : (forall o, CoinEntry o <> k) -> Forall (fun h => length h = 32%nat) (GetHeadBlocks (a_db_with k x)) -> db_ok seven_valid (a_db_with k x).
Proof.
  intros Hk Hh. split; [|done]. intros o b. unfold value, a_db_with. cbn [pdb obfuscate_key ldb_Get MemDB]. intros E.
  exists a_coin. split; [by vm_compute|]. destruct (decide (CoinEntry a_out = CoinEntry o)) as [Heq|Hne].
  - rewrite <- Heq, lookup_insert_eq in E. cbn [fmap option_fmap option_map] in E. rewrite Xor_involutive in E. injection E as <-. by vm_compute.
  - by rewrite lookup_insert_ne, lookup_singleton_ne in E.
Qed.

Lemma a_db_ok : db_ok seven_valid a_db.
Proof. apply a_db_with_ok; [discriminate|by vm_compute; constructor]. Qed.

Lemma a_dbcache_ok : cache_ok a_dbcache /\ writable (cacheCoins a_dbcache).
Proof.
  split; [split; [exact a_db_ok|]|].
  - apply map_Forall_insert_2; [by split|]. apply map_Forall_singleton. split; [done|]. intros _. by vm_compute.
  - unfold writable. apply map_Forall_insert_2.
    + split; [by vm_compute|done].
    + apply map_Forall_singleton. split; [by vm_compute|intros _ _; exact key_coin_storable].
Qed.

Lemma flush_survives_crashes_witness :
  (exists l, BatchWrite_batches seven_valid 20 (cacheCoins a_dbcache) (hashBlock a_dbcache) a_db = Ok l /\ length l = 3%nat) /\
  exists l c', BatchWrite_batches seven_valid 20 (cacheCoins a_dbcache) (hashBlock a_dbcache) a_db = Ok l /\
    Flush a_dbcache = Ok (true, c') /\ base c' = write_batches l a_db /\ cache_ok c' /\
    (forall o, valid_outpoint o -> db_GetCoin seven_decompress o (base c') = cache_utxo a_dbcache o) /\
    db_GetBestBlock (base c') = repeat 3 32 /\ GetHeadBlocks (base c') = [] /\
    forall k, (0 < k < length l)%nat -> let d := write_batches (take k l) a_db in
      db_ok seven_valid d /\ db_GetBestBlock d = uint256_null /\ GetHeadBlocks d = [repeat 3 32; old_tip a_db] /\
      forall o, valid_outpoint o -> db_GetCoin seven_decompress o d = db_GetCoin seven_decompress o a_db \/ db_GetCoin seven_decompress o d = cache_utxo a_dbcache o.
Proof.
  split; [eexists; split; [vm_compute; reflexivity|reflexivity]|].
  apply (flush_survives_crashes seven_valid seven_decompress 20 seven_keys a_dbcache); [apply a_dbcache_ok| |apply a_dbcache_ok].
  split_and!; [done|done|]. intros E. by vm_compute in E.
Defined.
