(* ===== verification/Replay.v ===== *)
(** * Replay: recovery from an interrupted flush (src/src/validation.cpp)

    When the node stopped while the coins were written, [ReplayBlocks] repairs
    the database of [CoinsDB] at the next start: it disconnects the blocks of the
    old branch and applies those of the new one again, ignoring what was
    written already.  The blocks and their undo data are read from the files of
    [BlockStore] and [UndoStore]. *)

From Stdlib Require Import ZArith List Lia Bool.
From stdpp Require Import base decidable list option gmap.
From S2P Require Import Prelude Uint256 Primitives Chain Consensus Script Hash Serialize Standard Pow Coins Utxo ChainState Compressor BlockStore UndoStore CoinsDB.
Local Open Scope Z_scope.
Local Open Scope outcome_scope.

Section replay.
Context `{Ldb : LevelDB D}.
Context (fopens : Z -> bool) (IsFullyValid : CPubKey -> bool) (Decompress : CPubKey -> option CPubKey) (batch_size : Z).
Context (params : Params) (cs : ChainState) (s : BlockStore).

Section view.
Context `{View : CCoinsView V}.

(** [DisconnectBlock] with the undo data it reads *)
Definition DisconnectBlock_index (block : CBlock) (b : CBlockIndex) (c : CCoinsViewCache V) : outcome (DisconnectResult * CCoinsViewCache V) :=
  hash <-! GetBlockHash b ;
  let '(best, c) := cache_GetBestBlock c in
  if negb (bytes_eqb hash best) then Fail
  else
    undo <-! UndoReadFromDisk fopens Decompress (entries cs) s b ;
    match undo with
    | None => Ok (DISCONNECT_FAILED, c)
    | Some vtxundo =>
      q <-! of_option (pprev b) ;
      bq <-! deref (entries cs) q ;
      prev <-! GetBlockHash bq ;
      DisconnectBlock (vtx block) vtxundo (Chain.nHeight b) hash prev c
    end.

(** The inputs of a transaction *)
Fixpoint spend_all (ins : list CTxIn) (c : CCoinsViewCache V) : CCoinsViewCache V :=
  match ins with
  | [] => c
  | i :: ins => let '(_, _, c) := SpendCoin (prevout i) coinEmpty c in spend_all ins c
  end.

Fixpoint replay_txs (txs : list CTransaction) (nHeight : Z) (c : CCoinsViewCache V) : outcome (CCoinsViewCache V) :=
  match txs with
  | [] => Ok c
  | tx :: txs =>
    let c := if negb (IsCoinBase tx) then spend_all (vin tx) c else c in
    c <-! AddCoins tx nHeight true c ;
    replay_txs txs nHeight c
  end.

Definition RollforwardBlock (b : CBlockIndex) (c : CCoinsViewCache V) : outcome (bool * CCoinsViewCache V) :=
  r <-! ReadBlockFromDisk_index fopens params s b ;
  match r with
  | None => Ok (false, c)
  | Some block => c <-! replay_txs (vtx block) (Chain.nHeight b) c ; Ok (true, c)
  end.

(** [while (pindexOld != pindexFork)] *)
Fixpoint rollback (fuel : nat) (pindexOld pindexFork : option ptr) (c : CCoinsViewCache V) : outcome (bool * CCoinsViewCache V) :=
  if decide (pindexOld = pindexFork) then Ok (true, c)
  else match fuel with
  | O => NoFuel
  | S fuel =>
    p <-! of_option pindexOld ;
    b <-! deref (entries cs) p ;
    if 0 <? Chain.nHeight b then
      r <-! ReadBlockFromDisk_index fopens params s b ;
      match r with
      | None => Ok (false, c)
      | Some block =>
        r <-! DisconnectBlock_index block b c ;
        match r with
        | (DISCONNECT_FAILED, c) => Ok (false, c)
        | (_, c) => rollback fuel (pprev b) pindexFork c
        end
      end
    else rollback fuel (pprev b) pindexFork c
  end.

(** The [n] heights from [nHeight] on *)
Fixpoint rollforward (n : nat) (nHeight : Z) (pindexNew : ptr) (c : CCoinsViewCache V) : outcome (bool * CCoinsViewCache V) :=
  match n with
  | O => Ok (true, c)
  | S n =>
    a <-! GetAncestor (entries cs) pindexNew nHeight ;
    p <-! of_option a ;
    b <-! deref (entries cs) p ;
    r <-! RollforwardBlock b c ;
    match r with
    | (true, c) => rollforward n (nHeight + 1) pindexNew c
    | (false, c) => Ok (false, c)
    end
  end.

End view.

#[local] Instance coins_db : CCoinsView (CDBWrapper D) := CCoinsViewDB IsFullyValid Decompress batch_size.

(** From the old tip, if there is one, to the new one *)
Definition replay (pindexOld : option ptr) (pindexNew : ptr) (db : CDBWrapper D) : outcome (bool * CDBWrapper D) :=
  let cache := CCoinsViewCache_new db in
  bnew <-! deref (entries cs) pindexNew ;
  r <-! (match pindexOld with
         | None => Ok (None, 0, O)
         | Some old =>
           f <-! LastCommonAncestor (entries cs) old pindexNew ;
           fork <-! of_option f ;
           bf <-! deref (entries cs) fork ;
           bo <-! deref (entries cs) old ;
           Ok (Some fork, Chain.nHeight bf, S (Z.to_nat (Chain.nHeight bo)))
         end) ;
  let '(pindexFork, nForkHeight, fuel) := r in
  r <-! rollback fuel pindexOld pindexFork cache ;
  match r with
  | (false, cache) => Ok (false, base cache)
  | (true, cache) =>
    r <-! rollforward (Z.to_nat (Chain.nHeight bnew - nForkHeight)) (nForkHeight + 1) pindexNew cache ;
    match r with
    | (false, cache) => Ok (false, base cache)
    | (true, cache) =>
      hash <-! GetBlockHash bnew ;
      r <-! Coins.Flush (SetBestBlock hash cache) ;
      Ok (true, base (snd r))
    end
  end.

Definition ReplayBlocks (db : CDBWrapper D) : outcome (bool * CDBWrapper D) :=
  match GetHeadBlocks db with
  | [] => Ok (true, db)
  | [head0; head1] =>
    match m_block_index cs !! head0 with
    | None => Ok (false, db)
    | Some pindexNew =>
      if negb (blob_IsNull head1) then
        match m_block_index cs !! head1 with
        | None => Ok (false, db)
        | Some old => replay (Some old) pindexNew db
        end
      else replay None pindexNew db
    end
  | _ => Ok (false, db)
  end.

End replay.

(** * Correctness *)

(** ** A block that may have been applied already *)

Section view_specs.
Context `{Laws : CCoinsViewReads V}.

Lemma spend_all_spec ins c :
  cache_ok c -> cache_ok (spend_all ins c) /\ forall o, cache_utxo (spend_all ins c) o = minus (cache_utxo c) (map prevout ins) o.
Proof.
  revert c. induction ins as [|i ins IH]; intros c Hc; cbn [spend_all map]; [split; [done|]; intros o; by rewrite minus_nil|].
  destruct (SpendCoin_spec (prevout i) coinEmpty c Hc) as (r & cn & c1 & -> & Hc1 & Hu & _). destruct (IH c1 Hc1) as [Hc2 Hu2]. split; [done|].
  intros o. rewrite Hu2. unfold minus. rewrite Hu. unfold spend. destruct (decide (prevout i = o)) as [->|Hne].
  - rewrite (decide_True (P := o ∈ o :: _)) by apply list_elem_of_here. by destruct (decide _).
  - destruct (decide (o ∈ map prevout ins)) as [Hin|Hni]; [by rewrite decide_True by (by apply list_elem_of_further)|].
    rewrite decide_False; [done|]. intros [?|?]%elem_of_cons; [congruence|done].
Qed.

Lemma add_checked_spec txid height cb cs n outs c :
  cache_ok c -> Forall (fun t => nValue t <> -1) outs -> 0 <= n -> n + Z.of_nat (length outs) <= 2 ^ 32 ->
  exists c', add_coins txid height cb cs true n outs c = Ok c' /\ cache_ok c' /\
    forall o, cache_utxo c' o = plus (cache_utxo c) (created txid height cb cs n outs) o.
Proof.
  revert n c; induction outs as [|t outs IH]; intros n c Hc Hv Hn Hlen; cbn [add_coins length created] in *.
  { exists c. split_and!; [done | done |]. intros o. unfold plus. by rewrite lookup_empty. }
  apply Forall_cons_iff in Hv as [Hv Hvs].
  assert (Hns : IsSpent (Coin_new t height cb cs) = false) by (unfold IsSpent, txout_IsNull; cbn; by apply Z.eqb_neq).
  destruct (cache_HaveCoin_spec (mkOutPoint txid (u32 n)) c Hc) as (c0 & -> & Hc0 & Hu0 & _).
  destruct (AddCoin_spec (mkOutPoint txid (u32 n)) (Coin_new t height cb cs) (bool_decide (is_Some (cache_utxo c (mkOutPoint txid (u32 n))))) c0 Hc0 Hns)
    as (c1 & -> & Hc1 & _ & Hu1).
  { rewrite Hu0. destruct (cache_utxo c _); [by left|by right]. }
  cbn [obind]. cbn [out Coin_new] in Hu1. destruct (IH (n + 1) c1 Hc1 Hvs ltac:(lia) ltac:(lia)) as (c2 & -> & Hc2 & Hu2).
  exists c2. split_and!; [done | done |]. intros o. rewrite Hu2. unfold plus. rewrite Hu1.
  destruct (IsUnspendable _); [by rewrite Hu0|]. unfold add. destruct (decide _) as [<-|Hne].
  - rewrite created_above, lookup_insert_eq by lia. done.
  - by rewrite lookup_insert_ne, Hu0.
Qed.

End view_specs.

(** Every transaction is applied, whether or not its coins were there. *)
Lemma replayed_coins height tx (w w' : coins) :
  (forall o, w' o = plus (if negb (IsCoinBase tx) then minus w (map prevout (vin tx)) else w) (outputs height tx) o) -> forall o, w' o = apply_tx height w tx o.
Proof.
  intros E o. rewrite E. unfold apply_tx, inputs, plus. destruct (outputs height tx !! o); [done|]. destruct (IsCoinBase tx); cbn [negb]; [by rewrite minus_nil|done].
Qed.

(** Each coin is in its state before or after the flush. *)
Definition between (u un w : coins) : Prop := forall o, valid_outpoint o -> w o = u o \/ w o = un o.

Lemma between_apply height tx u un w : between u un w -> between (apply_tx height u tx) un (apply_tx height w tx).
Proof.
  intros H o Ho. unfold apply_tx, plus. destruct (outputs height tx !! o); [by left|]. unfold minus. destruct (decide _); [by left|]. by apply H.
Qed.

#[export] Instance apply_tx_proper height : Proper (pointwise_relation COutPoint eq ==> eq ==> pointwise_relation COutPoint eq) (apply_tx height).
Proof. intros w w' E tx ? <- o. unfold apply_tx, plus, minus. destruct (_ !! o); [done|]. destruct (decide _); [done|apply E]. Qed.

Lemma fold_apply_ext height txs w w' : (forall o, w o = w' o) -> forall o, fold_left (apply_tx height) txs w o = fold_left (apply_tx height) txs w' o.
Proof. revert w w'. induction txs as [|tx txs IH]; intros w w' E; cbn [fold_left]; [done|]. apply IH. by apply apply_tx_proper. Qed.

Lemma between_fold height txs u un w : between u un w -> between (fold_left (apply_tx height) txs u) un (fold_left (apply_tx height) txs w).
Proof. revert u w. induction txs as [|tx txs IH]; intros u w H; cbn [fold_left]; [done|]. by apply IH, between_apply. Qed.

(** The coins after the [n] blocks from height [h] on *)
Fixpoint apply_blocks (n : nat) (h : Z) (blocks : Z -> CBlock) (u : coins) : coins :=
  match n with
  | O => u
  | S n => apply_blocks n (h + 1) blocks (fold_left (apply_tx h) (vtx (blocks h)) u)
  end.

(** ** Recovery *)

(** What replaying a transaction relies on *)
Definition replayable (tx : CTransaction) : Prop :=
  Forall (fun t => 0 <= nValue t <= compressible) (vout tx) /\ Z.of_nat (length (vout tx)) <= 2 ^ 32 /\ Forall (fun i => valid_outpoint (prevout i)) (vin tx).

Section recovery.
Context `{Laws : LevelDBLaws D}.
Context (fopens : Z -> bool) (IsFullyValid : CPubKey -> bool) (Decompress : CPubKey -> option CPubKey) (batch_size : Z).
Context (params : Params) (cs : ChainState) (s : BlockStore).
Hypothesis Hkeys : forall x y, length x = 32%nat -> length y = 32%nat -> IsFullyValid (0x04 :: x ++ y) = true ->
  Decompress ((2 + Z.land (nth 31 y 0) 0x01) :: x) = Some (0x04 :: x ++ y).

#[local] Instance db_coins : CCoinsView (CDBWrapper D) := CCoinsViewDB IsFullyValid Decompress batch_size.
#[local] Instance db_reads : CCoinsViewReads (CDBWrapper D) := CCoinsViewDB_reads IsFullyValid Decompress batch_size Hkeys.

(** The cache of [ReplayBlocks] over the database [d] *)
Record replay_ok (d : CDBWrapper D) (c : CCoinsViewCache (CDBWrapper D)) : Prop := {
  replay_base : base c = d;
  replay_keys : map_Forall (fun o _ => valid_outpoint o) (cacheCoins c) }.

Lemma FetchCoin_replay d o c : valid_outpoint o -> replay_ok d c -> replay_ok d (snd (FetchCoin o c)).
Proof.
  intros Ho [Hb Hk]. unfold FetchCoin. destruct (cacheCoins c !! o) as [e|]; [by split|].
  change (GetCoin o (base c)) with (db_GetCoin Decompress o (base c), base c). cbv beta iota.
  destruct (db_GetCoin Decompress o (base c)); cbn [snd]; split; [done| |done|done]. cbn. by apply map_Forall_insert_2.
Qed.

Lemma SpendCoin_replay d o mv c : valid_outpoint o -> replay_ok d c -> replay_ok d (snd (SpendCoin o mv c)).
Proof.
  intros Ho Hc. pose proof (FetchCoin_replay d o c Ho Hc) as [Hb Hk]. unfold SpendCoin. destruct (FetchCoin o c) as [it c1]. cbn [snd] in *.
  destruct it as [e|]; [|done]. cbn [snd]. destruct (is_fresh e); split; [done| |done|]; cbn; [by apply map_Forall_delete|by apply map_Forall_insert_2].
Qed.

Lemma AddCoin_replay d o cn ow c c' : valid_outpoint o -> replay_ok d c -> AddCoin o cn ow c = Ok c' -> replay_ok d c'.
Proof.
  intros Ho [Hb Hk]. unfold AddCoin. destruct (IsSpent cn); [done|]. destruct (IsUnspendable _); [by intros [= <-]|].
  destruct (negb ow && _); [done|]. intros [= <-]. split; [done|]. cbn. by apply map_Forall_insert_2.
Qed.

Lemma spend_all_replay d ins c : Forall (fun i => valid_outpoint (prevout i)) ins -> replay_ok d c -> replay_ok d (spend_all ins c).
Proof.
  revert c. induction ins as [|i ins IH]; intros c Hi Hc; [done|]. apply Forall_cons_iff in Hi as [Hi Hins]. cbn [spend_all].
  pose proof (SpendCoin_replay d (prevout i) coinEmpty c Hi Hc) as H1. destruct (SpendCoin _ _ c) as [[? ?] c1]. by apply IH.
Qed.

Lemma add_coins_replay d txid height cb css n outs c c' :
  length txid = 32%nat -> replay_ok d c -> add_coins txid height cb css true n outs c = Ok c' -> replay_ok d c'.
Proof.
  intros Ht. revert n c. induction outs as [|t outs IH]; intros n c Hc; cbn [add_coins]; [by intros [= <-]|].
  assert (Ho : valid_outpoint (mkOutPoint txid (u32 n))) by (split; [done|by apply wrap_range]).
  pose proof (FetchCoin_replay d _ c Ho Hc) as Hf. unfold cache_HaveCoin. destruct (FetchCoin _ c) as [it c0]. cbn [snd] in Hf.
  destruct (AddCoin _ _ _ c0) as [c1| |] eqn:Ea; cbn [obind]; try done. apply IH. by eapply AddCoin_replay.
Qed.

(** Replaying the transactions of a block *)
Lemma replay_txs_spec d txs height c :
  cache_ok c -> replay_ok d c -> all_storable (cache_utxo c) -> Forall replayable txs ->
  exists c', replay_txs txs height c = Ok c' /\ cache_ok c' /\ replay_ok d c' /\ all_storable (cache_utxo c') /\
    forall o, cache_utxo c' o = fold_left (apply_tx height) txs (cache_utxo c) o.
Proof.
  revert c. induction txs as [|tx txs IH]; intros c Hc Hr Hs Ht; cbn [replay_txs fold_left]; [by exists c|].
  apply Forall_cons_iff in Ht as [(Hv & Hlen & Hin) Hts]. set (c1 := if negb (IsCoinBase tx) then _ else c).
  assert (H1 : cache_ok c1 /\ replay_ok d c1 /\ forall o, cache_utxo c1 o = (if negb (IsCoinBase tx) then minus (cache_utxo c) (map prevout (vin tx)) else cache_utxo c) o).
  { unfold c1. destruct (negb _); [|done]. destruct (spend_all_spec (vin tx) c Hc). split_and!; [done|by apply spend_all_replay|done]. }
  destruct H1 as (Hc1 & Hr1 & Hu1). unfold AddCoins.
  destruct (add_checked_spec (ComputeHash tx) height (IsCoinBase tx) (IsCoinStake tx) 0 (vout tx) c1 Hc1) as (c2 & E2 & Hc2 & Hu2);
    [eapply Forall_impl; [exact Hv|]; cbn; lia|lia|lia|].
  assert (Hr2 : replay_ok d c2) by (eapply add_coins_replay; [|exact Hr1|exact E2]; apply Hash_digest). rewrite E2. cbn [obind].
  assert (Hu : forall o, cache_utxo c2 o = apply_tx height (cache_utxo c) tx o).
  { apply replayed_coins. intros o. rewrite Hu2. unfold plus. by rewrite Hu1. }
  destruct (IH c2 Hc2 Hr2) as (c3 & E3 & Hc3 & Hr3 & Hs3 & Hu3); [|done|].
  - intros o k. rewrite Hu. by apply apply_tx_storable.
  - exists c3. split_and!; [done|done|done|done|]. intros o. rewrite Hu3. by apply fold_apply_ext.
Qed.

(** Both branches are in the tree, and the blocks above the old tip can be
    read. *)
Definition readable_block (pnew : ptr) (blocks : Z -> CBlock) (h : Z) : Prop :=
  exists q b, GetAncestor (entries cs) pnew h = Ok (Some q) /\ entries cs !! q = Some b /\ Chain.nHeight b = h /\
    ReadBlockFromDisk_index fopens params s b = Ok (Some (blocks h)) /\ Forall replayable (vtx (blocks h)).

Lemma rollforward_spec d pnew blocks u un n h c :
  (forall k, h <= k < h + Z.of_nat n -> readable_block pnew blocks k) ->
  cache_ok c -> replay_ok d c -> all_storable (cache_utxo c) -> between u un (cache_utxo c) ->
  exists c', rollforward fopens params cs s n h pnew c = Ok (true, c') /\ cache_ok c' /\ replay_ok d c' /\ all_storable (cache_utxo c') /\
    between (apply_blocks n h blocks u) un (cache_utxo c').
Proof.
  revert h u c. induction n as [|n IH]; intros h u c Hb Hc Hr Hs Hu; cbn [rollforward apply_blocks]; [by exists c|].
  destruct (Hb h ltac:(lia)) as (q & b & -> & Hq & Hh & Hread & Htx). cbn [obind of_option]. unfold deref. rewrite Hq. cbn [obind of_option].
  unfold RollforwardBlock. rewrite Hread. cbn [obind]. destruct (replay_txs_spec d (vtx (blocks h)) (Chain.nHeight b) c Hc Hr Hs Htx) as (c1 & -> & Hc1 & Hr1 & Hs1 & Hu1).
  cbn [obind]. rewrite Hh in Hu1. apply IH; [intros k Hk; apply Hb; lia|done|done|done|].
  intros o Ho. rewrite Hu1. by apply between_fold.
Qed.

(** The state of the database between the first and the last batch of a flush from
    the tip [hold] with the coins [u] to the tip [hnew] with the coins [un] *)
Record recoverable (hnew hold : uint256) (u un : coins) (d : CDBWrapper D) : Prop := {
  recoverable_ok : db_ok IsFullyValid d;
  recoverable_best : db_GetBestBlock d = uint256_null;
  recoverable_heads : GetHeadBlocks d = [hnew; hold];
  recoverable_coins : between u un (fun o => db_GetCoin Decompress o d) }.

Lemma ancestor_self st p b q bq : wf_store st -> st !! p = Some b -> st !! q = Some bq -> ancestor st q p -> ancestor st p q -> p = q.
Proof.
  intros Hst Hp Hq H1 H2. destruct (ancestor_height st p b q Hst Hp H1) as (bq' & E1 & Hle1), (ancestor_height st q bq p Hst Hq H2) as (b' & E2 & Hle2). simplify_eq.
  pose proof (ancestor_distance st p b q bq Hst Hp Hq H1) as Hd. replace (Z.to_nat _) with O in Hd by lia. by injection Hd.
Qed.

Lemma common_ancestor_of_branch pold pnew bo bn :
  wf_store (entries cs) -> entries cs !! pold = Some bo -> entries cs !! pnew = Some bn -> ancestor (entries cs) pold pnew ->
  LastCommonAncestor (entries cs) pold pnew = Ok (Some pold).
Proof.
  intros Hst Ho Hn Ha. destruct (LastCommonAncestor_is_greatest _ _ _ _ _ Hst Ho Hn) as (f & -> & Hf). destruct f as [q|].
  - destruct Hf as (H1 & H2 & H3). specialize (H3 pold ltac:(by exists O) Ha). destruct (ancestor_height _ _ _ _ Hst Ho H1) as (bq & Hq & _).
    by rewrite (ancestor_self _ _ _ _ _ Hst Ho Hq H1 H3).
  - exfalso. by apply (Hf pold); [exists O|].
Qed.

(** The tips of the flush *)
Context (pold pnew : ptr) (bo bn : CBlockIndex) (hold hnew : uint256).
Hypothesis Htree : tree_ok cs.
Hypothesis Hold : entries cs !! pold = Some bo.
Hypothesis Hholdh : phashBlock bo = Some hold.
Hypothesis Hnew : entries cs !! pnew = Some bn.
Hypothesis Hnewh : phashBlock bn = Some hnew.
Hypothesis Hnull : blob_IsNull hold = false.
Hypothesis Hnewnull : blob_IsNull hnew = false.

Lemma ReplayBlocks_replays d u un : recoverable hnew hold u un d ->
  ReplayBlocks fopens IsFullyValid Decompress batch_size params cs s d = replay fopens IsFullyValid Decompress batch_size params cs s (Some pold) pnew d.
Proof.
  intros Hd. unfold ReplayBlocks. rewrite (recoverable_heads _ _ _ _ _ Hd), Hnull.
  rewrite (proj2 (tree_index _ Htree hnew pnew)) by eauto. cbn [negb]. by rewrite (proj2 (tree_index _ Htree hold pold)) by eauto.
Qed.

Lemma writable_replay d c : cache_ok c -> replay_ok d c -> all_storable (cache_utxo c) -> writable (cacheCoins c).
Proof.
  intros Hc [Hb Hk] Hs o e He. split; [by apply (Hk o e)|]. intros _ Hsp. apply (Hs o). rewrite (cache_utxo_entry _ _ _ He). unfold live. by rewrite Hsp.
Qed.

Lemma flushable_recoverable d u un : length hnew = 32%nat -> recoverable hnew hold u un d -> flushable hnew d /\ old_tip d = hold.
Proof.
  intros Hl [_ Hb Hh _]. split.
  - split_and!; [done|done|]. intros _ new old E. rewrite Hh in E. by injection E.
  - unfold old_tip. by rewrite Hb, Hh.
Qed.

Lemma replay_recovers d blocks u :
  let un := apply_blocks (Z.to_nat (Chain.nHeight bn - Chain.nHeight bo)) (Chain.nHeight bo + 1) blocks u in
  ancestor (entries cs) pold pnew -> length hnew = 32%nat ->
  (forall k, Chain.nHeight bo < k <= Chain.nHeight bn -> readable_block pnew blocks k) -> recoverable hnew hold u un d ->
  exists l, replay fopens IsFullyValid Decompress batch_size params cs s (Some pold) pnew d = Ok (true, write_batches l d) /\
    (forall k, (0 < k < length l)%nat -> recoverable hnew hold u un (write_batches (take k l) d)) /\
    db_ok IsFullyValid (write_batches l d) /\ (forall o, valid_outpoint o -> db_GetCoin Decompress o (write_batches l d) = un o) /\
    db_GetBestBlock (write_batches l d) = hnew /\ GetHeadBlocks (write_batches l d) = [].
Proof.
  intros un Ha Hl Hblocks Hd. unfold replay, deref. rewrite Hnew. cbn [of_option obind].
  rewrite (common_ancestor_of_branch _ _ _ _ (tree_wf _ Htree) Hold Hnew Ha). cbn [of_option obind]. rewrite Hold. cbn [of_option obind rollback]. rewrite decide_True by done.
  cbn [obind]. destruct (ancestor_height _ _ _ _ (tree_wf _ Htree) Hnew Ha) as (bo' & Ho' & Hle). simplify_eq.
  set (c0 := CCoinsViewCache_new d).
  assert (Hu0 : forall o, cache_utxo c0 o = db_GetCoin Decompress o d) by (intros o; unfold cache_utxo, c0; cbn [cacheCoins CCoinsViewCache_new]; by rewrite lookup_empty).
  destruct (rollforward_spec d pnew blocks u un (Z.to_nat (Chain.nHeight bn - Chain.nHeight bo)) (Chain.nHeight bo + 1) c0) as (c & Er & Hc & Hr & Hs & Hu).
  { intros k Hk. apply Hblocks. lia. }
  { split; [apply Hd|apply map_Forall_empty]. }
  { split; [done|apply map_Forall_empty]. }
  { intros o k E. rewrite Hu0 in E. by apply (GetCoin_storable IsFullyValid Decompress Hkeys o d k (recoverable_ok _ _ _ _ _ Hd)). }
  { intros o Ho. rewrite Hu0. by apply (recoverable_coins _ _ _ _ _ Hd). }
  change (coins_db IsFullyValid Decompress batch_size) with db_coins. rewrite Er. cbn [obind]. unfold GetBlockHash. rewrite Hnewh. cbn [of_option obind].
  destruct (flushable_recoverable d u un Hl Hd) as [Hfl Htip]. pose proof (replay_base _ _ Hr) as Hbase.
  destruct (flush_batches_spec IsFullyValid Decompress batch_size Hkeys (cacheCoins c) hnew d (recoverable_ok _ _ _ _ _ Hd) Hfl (writable_replay d c Hc Hr Hs))
    as (l & _ & Ew & [Hok1 Hu1 Hb1 Hh1] & Hmid).
  assert (Hov : forall o, valid_outpoint o -> overlay (cacheCoins c) (fun o => db_GetCoin Decompress o d) o = un o).
  { intros o Ho. pose proof (cache_overlay c o Hc) as E. rewrite Hbase in E. destruct (Hu o Ho) as [E'|E']; (etrans; [exact E|exact E']). }
  exists l. split_and!; [| |done| |done|done].
  - unfold Coins.Flush, SetBestBlock. cbn [cacheCoins hashBlock base]. rewrite Hbase.
    change (BatchWrite (cacheCoins c) hnew d) with (db_BatchWrite IsFullyValid batch_size (cacheCoins c) hnew d). by rewrite Ew.
  - intros k Hk. destruct (Hmid k Hk) as [Hok2 Hu2 Hb2 Hh2]. rewrite Htip in Hh2. split; [done|done|done|]. intros o Ho.
    destruct (Hu2 o Ho) as [E|E]; rewrite E; [by apply (recoverable_coins _ _ _ _ _ Hd)|right; by apply Hov].
  - intros o Ho. rewrite Hu1 by done. by apply Hov.
Qed.

(** C6 (recovery from a crash): if the node stops while it writes the coins after
    some blocks on top of the old tip, [ReplayBlocks] writes the coins
    after those blocks and the new tip, from every state the crash can leave
    and from every state that a crash during the recovery can leave. *)
Theorem interrupted_flush_recovers m v blocks :
  let u o := db_GetCoin Decompress o v in
  let un := apply_blocks (Z.to_nat (Chain.nHeight bn - Chain.nHeight bo)) (Chain.nHeight bo + 1) blocks u in
  db_ok IsFullyValid v -> db_GetBestBlock v = hold -> writable m -> (forall o, valid_outpoint o -> overlay m u o = un o) ->
  ancestor (entries cs) pold pnew -> length hnew = 32%nat ->
  (forall k, Chain.nHeight bo < k <= Chain.nHeight bn -> readable_block pnew blocks k) ->
  (exists l, BatchWrite_batches IsFullyValid batch_size m hnew v = Ok l /\
    forall k, (0 < k < length l)%nat -> recoverable hnew hold u un (write_batches (take k l) v)) /\
  forall d, recoverable hnew hold u un d ->
    exists l, ReplayBlocks fopens IsFullyValid Decompress batch_size params cs s d = Ok (true, write_batches l d) /\
      (forall k, (0 < k < length l)%nat -> recoverable hnew hold u un (write_batches (take k l) d)) /\
      db_ok IsFullyValid (write_batches l d) /\ (forall o, valid_outpoint o -> db_GetCoin Decompress o (write_batches l d) = un o) /\
      db_GetBestBlock (write_batches l d) = hnew /\ GetHeadBlocks (write_batches l d) = [].
Proof.
  intros u un Hv Hb Hm Hov Ha Hl Hblocks. split.
  - assert (Hfl : flushable hnew v) by (split_and!; [done|done|]; rewrite Hb; congruence).
    destruct (flush_batches_spec IsFullyValid Decompress batch_size Hkeys m hnew v Hv Hfl Hm) as (l & El & _ & _ & Hmid). exists l. split; [done|].
    intros k Hk. destruct (Hmid k Hk) as [Hok Hu Hb1 Hh]. split; [done|done| |].
    + rewrite Hh. unfold old_tip. by rewrite Hb, Hnull.
    + intros o Ho. destruct (Hu o Ho) as [E|E]; [by left|right]. rewrite E. by apply Hov.
  - intros d Hd. rewrite (ReplayBlocks_replays d u un Hd). by apply replay_recovers.
Qed.

(** C35 (a crash during a reorganisation): if the old tip is not on the branch of
    the new one, the recovery fails: [DisconnectBlock] asserts that the block it
    disconnects is the tip of the view, and an interrupted flush has erased the
    tip. The node cannot start again. *)
Theorem interrupted_reorganisation_is_fatal u un d block :
  recoverable hnew hold u un d -> ~ ancestor (entries cs) pold pnew -> 0 < Chain.nHeight bo ->
  (exists r, ancestor (entries cs) r pold /\ ancestor (entries cs) r pnew) ->
  ReadBlockFromDisk_index fopens params s bo = Ok (Some block) ->
  ReplayBlocks fopens IsFullyValid Decompress batch_size params cs s d = Fail.
Proof.
  intros Hd Hna Hh (r & Hr1 & Hr2) Hread. rewrite (ReplayBlocks_replays d u un Hd). unfold replay, deref. rewrite Hnew. cbn [of_option obind].
  destruct (LastCommonAncestor_is_greatest _ _ _ _ _ (tree_wf _ Htree) Hold Hnew) as (f & -> & Hf). destruct f as [q|]; [|by destruct (Hf r)].
  destruct Hf as (H1 & H2 & _). destruct (ancestor_height _ _ _ _ (tree_wf _ Htree) Hold H1) as (bq & Hq & _). cbn [of_option obind]. rewrite Hq, Hold. cbn [of_option obind rollback].
  rewrite decide_False by (intros [= ->]; done). cbn [of_option obind]. unfold deref. rewrite Hold. cbn [of_option obind].
  rewrite (proj2 (Z.ltb_lt _ _)), Hread by done. cbn [obind]. unfold DisconnectBlock_index, GetBlockHash. rewrite Hholdh. cbn [of_option obind].
  unfold cache_GetBestBlock. cbn [hashBlock CCoinsViewCache_new base cacheCoins]. change (blob_IsNull uint256_null) with true. cbv iota.
  change (GetBestBlock d) with (db_GetBestBlock d, d). rewrite (recoverable_best _ _ _ _ _ Hd). cbv beta iota.
  destruct (bytes_eqb hold uint256_null) eqn:E; [|done]. apply bytes_eqb_eq in E. by rewrite E in Hnull.
Qed.

End recovery.

(** ** Instances *)

(** A block on the genesis block that spends the coin of [a_db], and another one beside it *)
Definition rp_tx : CTransaction := mkTransaction 2 [mkTxIn a_out [] 0xffffffff []] [mkTxOut 600 [OP_1]] 0.
Definition rp_block (n : Z) : CBlock :=
  mkBlock (mkHeader 4 (header_GetHash header_null) (repeat 2 32) 1600000000 0x1d00ffff n (repeat 3 32) (repeat 4 32) (mkOutPoint (repeat 7 32) 1) [0x30; 0x44]) [rp_tx].

(** Both are stored in one file, *)
Definition rp_record (n : Z) : bytes := disk_record [1; 2; 3; 4] (rp_block n).
Definition rp_store : BlockStore := Eval vm_compute in mkBlockStore [mkFileInfo 2 2000 0 1 1 0 0] 0 ∅ false {[0 := rp_record 5 ++ rp_record 6]} ∅.
Definition rp_pos (n : Z) : FlatFilePos := Build_FlatFilePos 0 (if n =? 5 then 8 else 8 + Z.of_nat (length (rp_record 5))).

(** and the tree has them and the genesis block. *)
Definition ran (o : op) (s : ChainState) : ChainState := match run o s with Ok s' => s' | _ => s end.
Definition rp_s1 : ChainState := Eval vm_compute in ran (OpHeader header_null) empty_state.
Definition rp_s2 : ChainState := Eval vm_compute in ran (OpHeader (blk_header (rp_block 5))) rp_s1.
Definition rp_s3 : ChainState := Eval vm_compute in ran (OpHeader (blk_header (rp_block 6))) rp_s2.
Definition rp_s4 : ChainState := Eval vm_compute in ran (OpBlock mainnet_pow (rp_block 5) 2%positive (rp_pos 5)) rp_s3.
Definition rp_state : ChainState := Eval vm_compute in ran (OpBlock mainnet_pow (rp_block 6) 3%positive (rp_pos 6)) rp_s4.

Lemma child_allowed s (block : CBlockHeader) b1 q bq :
  m_block_index s !! hashPrevBlock block = Some q -> entries s !! q = Some bq ->
  m_block_index s !! hashPrevBlock block = Some 1%positive -> entries s !! 1%positive = Some b1 ->
  Chain.nHeight b1 = 0 -> 0 < header_work block -> arith_uint256.val (nChainWork b1) + header_work block < 2 ^ 256 ->
  1000 * (Chain.nHeight bq + 2) < 2 ^ 32 /\ 0 < header_work block /\ arith_uint256.val (nChainWork bq) + header_work block < 2 ^ 256.
Proof. intros Hq Hb H1 Hb1 H0 Hw Hlt. rewrite H1 in Hq. injection Hq as <-. rewrite Hb in Hb1. injection Hb1 as ->. split; [lia|]. by split. Qed.

Lemma rp_s1_reachable : reachable 1000 rp_s1.
Proof.
  eapply (reach_step _ _ (OpHeader header_null)); [apply reach_empty| |vm_compute; reflexivity].
  split; [by split; vm_compute|split; [by vm_compute|split; [lia|by intros q bq ?]]].
Qed.

Lemma rp_s2_reachable : reachable 1000 rp_s2.
Proof.
  eapply (reach_step _ _ (OpHeader (blk_header (rp_block 5)))); [exact rp_s1_reachable| |vm_cast_no_check (eq_refl (Ok rp_s2))].
  split; [by split; vm_compute|split; [by vm_compute|split; [lia|]]]. intros q bq Hq Hb.
  eapply (child_allowed _ _ _ q bq Hq Hb); [by vm_compute|vm_compute; reflexivity|by vm_compute..].
Qed.

Lemma rp_s3_reachable : reachable 1000 rp_s3.
Proof.
  eapply (reach_step _ _ (OpHeader (blk_header (rp_block 6)))); [exact rp_s2_reachable| |vm_cast_no_check (eq_refl (Ok rp_s3))].
  split; [by split; vm_compute|split; [by vm_compute|split; [lia|]]]. intros q bq Hq Hb.
  eapply (child_allowed _ _ _ q bq Hq Hb); [by vm_compute|vm_compute; reflexivity|by vm_compute..].
Qed.

Lemma rp_s4_reachable : reachable 1000 rp_s4.
Proof.
  eapply (reach_step _ _ (OpBlock mainnet_pow (rp_block 5) 2%positive (rp_pos 5))); [exact rp_s3_reachable| |vm_cast_no_check (eq_refl (Ok rp_s4))].
  split; [by vm_compute|]. eexists. split; [vm_compute; reflexivity|done].
Qed.

Lemma rp_state_ok : tree_ok rp_state.
Proof.
  eapply (reachable_ok 1000). eapply (reach_step _ _ (OpBlock mainnet_pow (rp_block 6) 3%positive (rp_pos 6))); [exact rp_s4_reachable| |vm_cast_no_check (eq_refl (Ok rp_state))].
  split; [by vm_compute|]. eexists. split; [vm_compute; reflexivity|done].
Qed.

Definition rp_entry (p : ptr) : CBlockIndex := default (default (line_entry 0) (entries rp_state !! 1%positive)) (entries rp_state !! p).

Lemma rp_reads n : n = 5 \/ n = 6 ->
  ReadBlockFromDisk_index (fun _ => true) mainnet_pow rp_store (rp_entry (if n =? 5 then 2%positive else 3%positive)) = Ok (Some (rp_block n)).
Proof. intros [-> | ->]; vm_compute; reflexivity. Qed.

(** The database at the genesis block, and the coins after the block above it *)
Definition rp_hash (p : ptr) : uint256 := default uint256_null (phashBlock (rp_entry p)).
Definition rp_db : CDBWrapper (gmap bytes bytes) := a_db_with [DB_BEST_BLOCK] (rp_hash 1%positive).
Definition rp_out : COutPoint := mkOutPoint (ComputeHash rp_tx) 0.
Definition rp_map : CCoinsMap := <[a_out := mkEntry coinEmpty DIRTY]> {[rp_out := mkEntry (Coin_new (mkTxOut 600 [OP_1]) 1 false false) (Z.lor DIRTY FRESH)]}.

Lemma rp_overlay u o : overlay rp_map u o = apply_blocks 1 1 (fun _ => rp_block 5) u o.
Proof.
  cbn [apply_blocks rp_block vtx fold_left]. unfold apply_tx, plus, overlay.
  assert (Eo : outputs 1 rp_tx = {[rp_out := Coin_new (mkTxOut 600 [OP_1]) 1 false false]}) by (vm_cast_no_check (eq_refl (outputs 1 rp_tx))).
  assert (Ei : inputs rp_tx = [a_out]) by done. rewrite Eo, Ei. unfold rp_map, minus. assert (Hne : a_out <> rp_out) by (intros E; by vm_compute in E).
  clear Eo Ei. destruct (decide (o = a_out)) as [->|Ha].
  - rewrite lookup_insert_eq, lookup_singleton_ne by (intros E; exact (Hne (eq_sym E))). rewrite decide_True by apply list_elem_of_here. reflexivity.
  - rewrite lookup_insert_ne by (intros E; exact (Ha (eq_sym E))). destruct (decide (o = rp_out)) as [->|Hr]; [rewrite !lookup_singleton_eq; reflexivity|].
    rewrite !lookup_singleton_ne by (intros E; exact (Hr (eq_sym E))). rewrite decide_False; [reflexivity|]. intros Hin%list_elem_of_singleton. exact (Ha Hin).
Qed.

Lemma rp_writable : writable rp_map.
Proof.
  unfold writable. apply map_Forall_insert_2.
  - split; [by vm_compute|done].
  - apply map_Forall_singleton. split; [split; [apply Hash_digest|by vm_compute]|intros _ _; by vm_compute].
Qed.

Lemma interrupted_flush_recovers_witness :
  let u o := db_GetCoin seven_decompress o rp_db in
  let un := apply_blocks 1 1 (fun _ => rp_block 5) u in
  (exists l, BatchWrite_batches seven_valid 20 rp_map (rp_hash 2%positive) rp_db = Ok l /\
    forall k, (0 < k < length l)%nat -> recoverable seven_valid seven_decompress (rp_hash 2%positive) (rp_hash 1%positive) u un (write_batches (take k l) rp_db)) /\
  forall d, recoverable seven_valid seven_decompress (rp_hash 2%positive) (rp_hash 1%positive) u un d ->
    exists l, ReplayBlocks (fun _ => true) seven_valid seven_decompress 20 mainnet_pow rp_state rp_store d = Ok (true, write_batches l d) /\
      (forall k, (0 < k < length l)%nat -> recoverable seven_valid seven_decompress (rp_hash 2%positive) (rp_hash 1%positive) u un (write_batches (take k l) d)) /\
      db_ok seven_valid (write_batches l d) /\ (forall o, valid_outpoint o -> db_GetCoin seven_decompress o (write_batches l d) = un o) /\
      db_GetBestBlock (write_batches l d) = rp_hash 2%positive /\ GetHeadBlocks (write_batches l d) = [].
Proof.
  apply (interrupted_flush_recovers (fun _ => true) seven_valid seven_decompress 20 mainnet_pow rp_state rp_store seven_keys 1%positive 2%positive (rp_entry 1%positive) (rp_entry 2%positive)
    (rp_hash 1%positive) (rp_hash 2%positive) rp_state_ok eq_refl eq_refl eq_refl eq_refl eq_refl eq_refl rp_map rp_db (fun _ => rp_block 5)).
  - apply a_db_with_ok; [discriminate|by vm_compute; constructor].
  - vm_compute. reflexivity.
  - exact rp_writable.
  - intros o _. apply rp_overlay.
  - by exists 1%nat.
  - reflexivity.
  - intros k Hk. change (0 < k <= 1) in Hk. replace k with 1 by lia. exists 2%positive, (rp_entry 2%positive).
    split_and!; [vm_compute; reflexivity|reflexivity|reflexivity|exact (rp_reads 5 (or_introl eq_refl))|repeat constructor; by vm_compute].
Defined.

Lemma interrupted_reorganisation_is_fatal_witness :
  let d := a_db_with [DB_HEAD_BLOCKS] (Serialize_vector (fun h => h) [rp_hash 2%positive; rp_hash 3%positive]) in
  ReplayBlocks (fun _ => true) seven_valid seven_decompress 20 mainnet_pow rp_state rp_store d = Fail.
Proof.
  intros d.
  apply (interrupted_reorganisation_is_fatal (fun _ => true) seven_valid seven_decompress 20 mainnet_pow rp_state rp_store 3%positive 2%positive (rp_entry 3%positive) (rp_entry 2%positive)
    (rp_hash 3%positive) (rp_hash 2%positive) rp_state_ok eq_refl eq_refl eq_refl eq_refl eq_refl (fun o => db_GetCoin seven_decompress o d) (fun o => db_GetCoin seven_decompress o d) d (rp_block 6)).
  - split; [apply a_db_with_ok; [discriminate|by vm_compute; repeat constructor]|vm_compute; reflexivity|vm_compute; reflexivity|by left].
  - intros [[|[|n]] Hn]; [done|done|]. by vm_compute in Hn.
  - by vm_compute.
  - exists 1%positive. split; by exists 1%nat.
  - exact (rp_reads 6 (or_intror eq_refl)).
Defined.
