(* ===== verification/BlockTree.v ===== *)
(** * BlockTree: the block index on disk (src/src/chain.h, src/src/txdb.cpp, src/src/validation.cpp)

    [WriteBatchSync] stores the changed entries of the tree of [ChainState] and the
    data of the block files of [BlockStore]; [LoadBlockIndex] rebuilds the tree from
    the database at the next start.  The database is that of [CoinsDB], with
    an iterator over its keys.  A shutdown is not requested while the tree is
    loaded, and the version that is written in front of an entry is an argument. *)

From Stdlib Require Import ZArith List Lia Bool.
From stdpp Require Import base decidable list option gmap sets fin_sets sorting.
From S2P Require Import Prelude Uint256 Primitives Chain Consensus Script Hash Serialize Standard Coins Pow Block ChainState BlockStore CoinsDB.
Import arith_uint256.
Local Open Scope Z_scope.
Local Open Scope outcome_scope.

(** ** Entries *)

Record CDiskBlockIndex := mkDisk { di_index : CBlockIndex; hashPrev : uint256 }.

(** The hash that an entry is stored under *)
Definition disk_GetBlockHash (d : CDiskBlockIndex) : uint256 :=
  let b := di_index d in
  header_GetHash (mkHeader (idx_nVersion b) (hashPrev d) (idx_hashMerkleRoot b) (nTime b) (nBits b) (idx_nNonce b)
    (idx_hashStateRoot b) (idx_hashUTXORoot b) (prevoutStake b) (idx_vchBlockSig b)).

(** [CDiskBlockIndex(pindex)] *)
Definition CDiskBlockIndex_of (st : gmap ptr CBlockIndex) (b : CBlockIndex) : outcome CDiskBlockIndex :=
  match pprev b with
  | None => Ok (mkDisk b uint256_null)
  | Some q => bq <-! deref st q ; h <-! GetBlockHash bq ; Ok (mkDisk b h)
  end.

Definition has_bit (status bit : Z) : bool := negb (Z.land status bit =? 0).

Definition Serialize_CDiskBlockIndex (_nVersion : Z) (d : CDiskBlockIndex) : bytes :=
  let b := di_index d in
  WriteVarInt _nVersion ++ WriteVarInt (Chain.nHeight b) ++ WriteVarInt (nStatus b) ++ WriteVarInt (nTx b) ++
  (if has_bit (nStatus b) (Z.lor BLOCK_HAVE_DATA BLOCK_HAVE_UNDO) then WriteVarInt (nFile b) else []) ++
  (if has_bit (nStatus b) BLOCK_HAVE_DATA then WriteVarInt (nDataPos b) else []) ++
  (if has_bit (nStatus b) BLOCK_HAVE_UNDO then WriteVarInt (nUndoPos b) else []) ++
  WriteVarInt (nMoneySupply b) ++
  Serialize_int32 (idx_nVersion b) ++ Serialize_uint256 (hashPrev d) ++ Serialize_uint256 (idx_hashMerkleRoot b) ++
  Serialize_uint32 (nTime b) ++ Serialize_uint32 (nBits b) ++ Serialize_uint32 (idx_nNonce b) ++
  Serialize_uint256 (idx_hashStateRoot b) ++ Serialize_uint256 (idx_hashUTXORoot b) ++ Serialize_uint256 (nStakeModifier b) ++
  Serialize_COutPoint (prevoutStake b) ++ Serialize_uint256 (hashProof b) ++ Serialize_bytes (idx_vchBlockSig b).

(** A field that is only there with a bit of the status *)
Definition read_if (there : bool) (max : Z) (s : bytes) : option (Z * bytes) := if there then ReadVarInt max s else Some (0, s).

Definition Unserialize_CDiskBlockIndex (s : bytes) : option (CDiskBlockIndex * bytes) :=
  '(_, s) ← ReadVarInt (2 ^ 31 - 1) s ;
  '(height, s) ← ReadVarInt (2 ^ 31 - 1) s ;
  '(status, s) ← ReadVarInt (2 ^ 32 - 1) s ;
  '(tx, s) ← ReadVarInt (2 ^ 32 - 1) s ;
  '(file, s) ← read_if (has_bit status (Z.lor BLOCK_HAVE_DATA BLOCK_HAVE_UNDO)) (2 ^ 31 - 1) s ;
  '(dataPos, s) ← read_if (has_bit status BLOCK_HAVE_DATA) (2 ^ 32 - 1) s ;
  '(undoPos, s) ← read_if (has_bit status BLOCK_HAVE_UNDO) (2 ^ 32 - 1) s ;
  '(supply, s) ← ReadVarInt (2 ^ 64 - 1) s ;
  '(version, s) ← Unserialize_int32 s ;
  '(prev, s) ← Unserialize_uint256 s ;
  '(root, s) ← Unserialize_uint256 s ;
  '(time, s) ← Unserialize_uint32 s ;
  '(bits, s) ← Unserialize_uint32 s ;
  '(nonce, s) ← Unserialize_uint32 s ;
  '(stateRoot, s) ← Unserialize_uint256 s ;
  '(utxoRoot, s) ← Unserialize_uint256 s ;
  '(modifier, s) ← Unserialize_uint256 s ;
  '(stake, s) ← Unserialize_COutPoint s ;
  '(proof, s) ← Unserialize_uint256 s ;
  '(sig, s) ← Unserialize_bytes s ;
  Some (mkDisk (mkBlockIndex None None None None height file dataPos undoPos zero tx 0 status version root time bits nonce
    stateRoot utxoRoot sig modifier stake proof supply 0 0) prev, s).

(** ** Files *)

Definition Serialize_CBlockFileInfo (i : CBlockFileInfo) : bytes :=
  WriteVarInt (nBlocks i) ++ WriteVarInt (nSize i) ++ WriteVarInt (nUndoSize i) ++ WriteVarInt (nHeightFirst i) ++
  WriteVarInt (nHeightLast i) ++ WriteVarInt (nTimeFirst i) ++ WriteVarInt (nTimeLast i).

Definition Unserialize_CBlockFileInfo (s : bytes) : option (CBlockFileInfo * bytes) :=
  '(blocks, s) ← ReadVarInt (2 ^ 32 - 1) s ;
  '(size, s) ← ReadVarInt (2 ^ 32 - 1) s ;
  '(undo, s) ← ReadVarInt (2 ^ 32 - 1) s ;
  '(first, s) ← ReadVarInt (2 ^ 32 - 1) s ;
  '(last, s) ← ReadVarInt (2 ^ 32 - 1) s ;
  '(tfirst, s) ← ReadVarInt (2 ^ 64 - 1) s ;
  '(tlast, s) ← ReadVarInt (2 ^ 64 - 1) s ;
  Some (mkFileInfo blocks size undo first last tfirst tlast, s).

(** ** The database *)

Definition DB_BLOCK_FILES : Z := 102.
Definition DB_BLOCK_INDEX : Z := 98.
Definition DB_LAST_BLOCK : Z := 108.

(** The keys: a character and a file number, or a character and a hash *)
Definition file_key (n : Z) : bytes := DB_BLOCK_FILES :: Serialize_int32 n.
Definition index_key (hash : uint256) : bytes := DB_BLOCK_INDEX :: Serialize_uint256 hash.

Section treedb.
Context `{Ldb : LevelDB D}.

Definition ReadBlockFileInfo (n : Z) (v : CDBWrapper D) : option CBlockFileInfo := db_Read Unserialize_CBlockFileInfo (file_key n) v.

Definition ReadLastBlockFile (v : CDBWrapper D) : option Z := db_Read Unserialize_int32 [DB_LAST_BLOCK] v.

(** The hash and the stored form of some entries *)
Fixpoint disk_entries (st : gmap ptr CBlockIndex) (l : list ptr) : outcome (list (uint256 * CDiskBlockIndex)) :=
  match l with
  | [] => Ok []
  | p :: l =>
    b <-! deref st p ;
    hash <-! GetBlockHash b ;
    d <-! CDiskBlockIndex_of st b ;
    r <-! disk_entries st l ;
    Ok ((hash, d) :: r)
  end.

Definition WriteBatchSync (_nVersion : Z) (fileInfo : list (Z * CBlockFileInfo)) (nLastFile : Z) (st : gmap ptr CBlockIndex) (blockinfo : list ptr)
    (v : CDBWrapper D) : outcome (CDBWrapper D) :=
  let batch := fold_left (fun batch x => batch_Write v (file_key (fst x)) (Serialize_CBlockFileInfo (snd x)) batch) fileInfo CDBBatch_new in
  let batch := batch_Write v [DB_LAST_BLOCK] (Serialize_int32 nLastFile) batch in
  l <-! disk_entries st blockinfo ;
  let batch := fold_left (fun batch x => batch_Write v (index_key (fst x)) (Serialize_CDiskBlockIndex _nVersion (snd x)) batch) l batch in
  Ok (WriteBatch batch v).

End treedb.

(** ** Iteration *)

(** The order of keys *)
Fixpoint bytes_ltb (a b : bytes) : bool :=
  match a, b with
  | _, [] => false
  | [], _ => true
  | x :: a, y :: b => (x <? y) || ((x =? y) && bytes_ltb a b)
  end.

(** All keys with their values, in order *)
Class LevelDBIterator (D : Type) `{LevelDB D} := ldb_entries : D -> list (bytes * bytes).

Class LevelDBIteratorLaws (D : Type) `{LevelDBIterator D} := {
  ldb_entries_Get k x d : (k, x) ∈ ldb_entries d <-> ldb_Get k d = Some x;
  ldb_entries_sorted d : StronglySorted (fun a b => bytes_ltb (fst a) (fst b) = true) (ldb_entries d) }.

Fixpoint Seek (k : bytes) (l : list (bytes * bytes)) : list (bytes * bytes) :=
  match l with
  | [] => []
  | x :: l' => if bytes_ltb (fst x) k then Seek k l' else l
  end.

(** ** Loading *)

Definition InsertBlockIndex (hash : uint256) (s : ChainState) : option ptr * ChainState :=
  if blob_IsNull hash then (None, s)
  else match m_block_index s !! hash with
  | Some p => (Some p, s)
  | None =>
    let p := fresh (dom (entries s)) in
    (Some p, set_entries (insert p (set_phashBlock hash blockindex_null)) (set_indexed hash p None s))
  end.

(** The fields that are copied from the entry that was read *)
Definition set_loaded (prev : option ptr) (d b : CBlockIndex) : CBlockIndex :=
  mkBlockIndex (phashBlock b) prev (pnext b) (pskip b) (Chain.nHeight d) (nFile d) (nDataPos d) (nUndoPos d)
    (nChainWork b) (nTx d) (nChainTx b) (nStatus d) (idx_nVersion d) (idx_hashMerkleRoot d) (nTime d) (nBits d) (idx_nNonce d)
    (idx_hashStateRoot d) (idx_hashUTXORoot d) (idx_vchBlockSig d) (nStakeModifier d) (prevoutStake d) (hashProof b)
    (nMoneySupply d) (nSequenceId b) (nTimeMax b).

Definition set_stake_seen (x : COutPoint * Z) (s : ChainState) : ChainState :=
  mkChainState (entries s) (m_block_index s) (m_failed_blocks s) (m_blocks_unlinked s) (setBlockIndexCandidates s)
    (setDirtyBlockIndex s) ({[x]} ∪ setStakeSeen s) (m_chain s) (pindexBestHeader s) (pindexBestInvalid s) (pindexBestForkTip s)
    (pindexBestForkBase s) (fLargeWorkForkFound s) (fLargeWorkInvalidChainFound s) (nBlockSequenceId s) (nBlockReverseSequenceId s)
    (nLastPreciousChainwork s).

Definition load_entry (params : Params) (d : CDiskBlockIndex) (s : ChainState) : outcome (bool * ChainState) :=
  let '(pindexNew, s) := InsertBlockIndex (disk_GetBlockHash d) s in
  p <-! of_option pindexNew ;
  let '(prev, s) := InsertBlockIndex (hashPrev d) s in
  b <-! deref (entries s) p ;
  let b := set_loaded prev (di_index d) b in
  let s := set_entries (insert p b) s in
  ok <-! CheckIndexProof params b ;
  if negb ok then Ok (false, s)
  else Ok (true, if IsProofOfStake b then set_stake_seen (prevoutStake b, nTime b) s else s).

(** [pcursor->GetKey] *)
Definition GetKey (k : bytes) : option (Z * uint256) :=
  match k with
  | c :: k => '(h, _) ← read 32 k ; Some (c, h)
  | [] => None
  end.

Fixpoint load_entries (params : Params) (obfuscation : bytes) (l : list (bytes * bytes)) (s : ChainState) : outcome (bool * ChainState) :=
  match l with
  | [] => Ok (true, s)
  | (k, x) :: l =>
    match GetKey k with
    | Some (c, _) =>
      if c =? DB_BLOCK_INDEX then
        match Unserialize_CDiskBlockIndex (Xor obfuscation x) with
        | Some (d, _) =>
          r <-! load_entry params d s ;
          match r with
          | (true, s) => load_entries params obfuscation l s
          | (false, s) => Ok (false, s)
          end
        | None => Ok (false, s)
        end
      else Ok (true, s)
    | None => Ok (true, s)
    end
  end.

Definition LoadBlockIndexGuts `{LevelDBIterator D} (params : Params) (v : CDBWrapper D) (s : ChainState) : outcome (bool * ChainState) :=
  load_entries params (obfuscate_key v) (Seek (index_key uint256_null) (ldb_entries (pdb v))) s.

(** ** Rebuilding the tree *)

Definition set_sums (work : base_uint) (timeMax chainTx status : Z) (b : CBlockIndex) : CBlockIndex :=
  mkBlockIndex (phashBlock b) (pprev b) (pnext b) (pskip b) (Chain.nHeight b) (nFile b) (nDataPos b) (nUndoPos b)
    work (nTx b) chainTx status (idx_nVersion b) (idx_hashMerkleRoot b) (nTime b) (nBits b) (idx_nNonce b)
    (idx_hashStateRoot b) (idx_hashUTXORoot b) (idx_vchBlockSig b) (nStakeModifier b) (prevoutStake b) (hashProof b)
    (nMoneySupply b) (nSequenceId b) timeMax.

(** [nChainTx], and whether the entry waits for its parent *)
Definition chain_tx (prev : option CBlockIndex) (b : CBlockIndex) : Z * bool :=
  if 0 <? nTx b then
    match prev with
    | Some bp => if HaveTxsDownloaded bp then (u32 (nChainTx bp + nTx b), false) else (0, true)
    | None => (nTx b, false)
    end
  else (nChainTx b, false).

(** The part of [relink] after the sums: the entry [b] is in place in [s]. *)
Definition relink_rest (p : ptr) (b : CBlockIndex) (s : ChainState) : outcome ChainState :=
  valid <-! IsValid b BLOCK_VALID_TRANSACTIONS ;
  let s := if valid && (HaveTxsDownloaded b || bool_decide (pprev b = None)) then set_candidates (union {[p]}) s else s in
  bi <-! deref_opt (entries s) (pindexBestInvalid s) ;
  let s := if failed b && match bi with None => true | Some bi => gtb (nChainWork b) (nChainWork bi) end then set_best_invalid (Some p) s else s in
  st <-! BuildSkip (entries s) p ;
  let s := set_entries (fun _ => st) s in
  valid <-! IsValid b BLOCK_VALID_TREE ;
  bh <-! deref_opt (entries s) (pindexBestHeader s) ;
  Ok (if valid && match bh, pindexBestHeader s with Some bh, Some ph => work_less ph bh p b | _, _ => true end then set_best_header (Some p) s else s).

(** The entry with its sums, and the sets and best entries after it *)
Definition relink (p : ptr) (s : ChainState) : outcome ChainState :=
  b <-! deref (entries s) p ;
  prev <-! deref_opt (entries s) (pprev b) ;
  proof <-! GetBlockProof b ;
  let work := add (match prev with Some bp => nChainWork bp | None => of_uint64 0 end) proof in
  let timeMax := match prev with Some bp => Z.max (nTimeMax bp) (nTime b) | None => nTime b end in
  let '(chainTx, waits) := chain_tx prev b in
  let s := match pprev b with Some q => if waits then set_unlinked (m_blocks_unlinked s ++ [(q, p)]) s else s | None => s end in
  let child := negb (failed b) && match prev with Some bp => failed bp | None => false end in
  let b := set_sums work timeMax chainTx (if child then Z.lor (nStatus b) BLOCK_FAILED_CHILD else nStatus b) b in
  relink_rest p b (set_entries (insert p b) (if child then set_dirty p s else s)).

Fixpoint relink_all (l : list ptr) (s : ChainState) : outcome ChainState :=
  match l with
  | [] => Ok s
  | p :: l => s <-! relink p s ; relink_all l s
  end.

(** [vSortedByHeight] *)
Definition height_of (st : gmap ptr CBlockIndex) (p : ptr) : Z := from_option Chain.nHeight 0 (st !! p).

Definition height_le (st : gmap ptr CBlockIndex) (p q : ptr) : Prop :=
  height_of st p < height_of st q \/ (height_of st p = height_of st q /\ (p <= q)%positive).

#[export] Instance height_le_dec st p q : Decision (height_le st p q).
Proof. unfold height_le. apply _. Defined.

Definition LoadBlockIndex `{LevelDBIterator D} (params : Params) (v : CDBWrapper D) (s : ChainState) : outcome (bool * ChainState) :=
  r <-! LoadBlockIndexGuts params v s ;
  match r with
  | (false, s) => Ok (false, s)
  | (true, s) =>
    s <-! relink_all (merge_sort (height_le (entries s)) (map snd (map_to_list (m_block_index s)))) s ;
    Ok (true, s)
  end.

(** ** Block files *)

(** [vinfoBlockFile] from file [nFile] on, up to the last one or, further on, while there are more *)
Fixpoint read_infos `{LevelDB D} (n : nat) (nFile : Z) (v : CDBWrapper D) : list CBlockFileInfo :=
  match n with
  | O => []
  | S n => default CBlockFileInfo_null (ReadBlockFileInfo nFile v) :: read_infos n (nFile + 1) v
  end.

Fixpoint read_more `{LevelDB D} (fuel : nat) (nFile : Z) (v : CDBWrapper D) : outcome (list CBlockFileInfo) :=
  match ReadBlockFileInfo nFile v with
  | None => Ok []
  | Some i => match fuel with O => NoFuel | S fuel => l <-! read_more fuel (nFile + 1) v ; Ok (i :: l) end
  end.

Definition DB_FLAG : Z := 70.
Definition DB_REINDEX_FLAG : Z := 82.

Definition flag_key (name : bytes) : bytes := DB_FLAG :: Serialize_bytes name.

Definition WriteFlag `{LevelDB D} (name : bytes) (fValue : bool) (v : CDBWrapper D) : CDBWrapper D :=
  WriteBatch (batch_Write v (flag_key name) [if fValue then 49 else 48] CDBBatch_new) v.

Definition ReadFlag `{LevelDB D} (name : bytes) (v : CDBWrapper D) : option bool :=
  (fun ch => ch =? 49) <$> db_Read ser_readdata8 (flag_key name) v.

Definition ReadReindexing `{LevelDB D} (v : CDBWrapper D) : bool := db_Exists [DB_REINDEX_FLAG] v.

Definition WriteReindexing `{LevelDB D} (fReindexing : bool) (v : CDBWrapper D) : CDBWrapper D :=
  WriteBatch (if fReindexing then batch_Write v [DB_REINDEX_FLAG] [49] CDBBatch_new else batch_Erase [DB_REINDEX_FLAG] CDBBatch_new) v.

(** "prunedblockfiles" *)
Definition pruned_flag : bytes := [112; 114; 117; 110; 101; 100; 98; 108; 111; 99; 107; 102; 105; 108; 101; 115].

(** "logevents" *)
Definition logevents_flag : bytes := [108; 111; 103; 101; 118; 101; 110; 116; 115].

(** The information about the block files; [nLastBlockFile] starts at 0. *)
Definition load_files `{LevelDBIterator D} (v : CDBWrapper D) (st : BlockStore) : outcome BlockStore :=
  let last := default (nLastBlockFile st) (ReadLastBlockFile v) in
  let infos := read_infos (Z.to_nat (last + 1)) 0 v in
  more <-! read_more (length (ldb_entries (pdb v))) (last + 1) v ;
  Ok (set_vinfo (fun _ => infos ++ more) (set_nLastBlockFile last st)).

(** Whether the files with the data of the entries can be opened *)
Fixpoint files_present (fopens : Z -> bool) (l : list ptr) (s : ChainState) (st : BlockStore) : outcome bool :=
  match l with
  | [] => Ok true
  | p :: l =>
    b <-! deref (entries s) p ;
    if has_bit (nStatus b) BLOCK_HAVE_DATA then
      match Open fopens (blk st) (Build_FlatFilePos (nFile b) 0) true with
      | Some _ => files_present fopens l s st
      | None => Ok false
      end
    else files_present fopens l s st
  end.

(** The result, the tree, the files, [fHavePruned], whether a reindex goes on, and [fLogEvents] *)
Definition LoadBlockIndexDB `{LevelDBIterator D} (params : Params) (fopens : Z -> bool) (v : CDBWrapper D) (s : ChainState) (st : BlockStore)
    : outcome (bool * ChainState * BlockStore * bool * bool * bool) :=
  r <-! LoadBlockIndex params v s ;
  match r with
  | (false, s) => Ok (false, s, st, false, false, false)
  | (true, s) =>
    st <-! load_files v st ;
    present <-! files_present fopens (map snd (map_to_list (m_block_index s))) s st ;
    if negb present then Ok (false, s, st, false, false, false)
    else Ok (true, s, st, default false (ReadFlag pruned_flag v), ReadReindexing v, default false (ReadFlag logevents_flag v))
  end.

(** * Correctness *)

(** ** Entries *)

Record valid_disk (d : CDiskBlockIndex) : Prop := {
  disk_height : 0 <= Chain.nHeight (di_index d) <= 2 ^ 31 - 1;
  disk_status : 0 <= nStatus (di_index d) <= 2 ^ 32 - 1;
  disk_nTx : 0 <= nTx (di_index d) <= 2 ^ 32 - 1;
  disk_nFile : 0 <= nFile (di_index d) <= 2 ^ 31 - 1;
  disk_pos : 0 <= nDataPos (di_index d) <= 2 ^ 32 - 1 /\ 0 <= nUndoPos (di_index d) <= 2 ^ 32 - 1;
  disk_supply : 0 <= nMoneySupply (di_index d) <= 2 ^ 64 - 1;
  disk_version : in_s 32 (idx_nVersion (di_index d));
  disk_words : in_u 32 (nTime (di_index d)) /\ in_u 32 (nBits (di_index d)) /\ in_u 32 (idx_nNonce (di_index d));
  disk_hashes : Forall (fun h => length h = 32%nat)
    [hashPrev d; idx_hashMerkleRoot (di_index d); idx_hashStateRoot (di_index d); idx_hashUTXORoot (di_index d); nStakeModifier (di_index d); hashProof (di_index d)];
  disk_stake : valid_outpoint (prevoutStake (di_index d));
  disk_sig : sized (idx_vchBlockSig (di_index d)) }.

(** The fields that are stored; the positions only with the data they point to *)
Definition on_disk (d : CDiskBlockIndex) : CDiskBlockIndex :=
  let b := di_index d in
  mkDisk (mkBlockIndex None None None None (Chain.nHeight b)
    (if has_bit (nStatus b) (Z.lor BLOCK_HAVE_DATA BLOCK_HAVE_UNDO) then nFile b else 0)
    (if has_bit (nStatus b) BLOCK_HAVE_DATA then nDataPos b else 0) (if has_bit (nStatus b) BLOCK_HAVE_UNDO then nUndoPos b else 0)
    zero (nTx b) 0 (nStatus b) (idx_nVersion b) (idx_hashMerkleRoot b) (nTime b) (nBits b) (idx_nNonce b) (idx_hashStateRoot b)
    (idx_hashUTXORoot b) (idx_vchBlockSig b) (nStakeModifier b) (prevoutStake b) (hashProof b) (nMoneySupply b) 0 0) (hashPrev d).

Lemma read_if_app there max n rest : max < 2 ^ 64 -> 0 <= n <= max ->
  read_if there max ((if there : bool then WriteVarInt n else []) ++ rest) = Some (if there then n else 0, rest).
Proof. intros Hm Hn. destruct there; [by apply varint_round_trip_max|done]. Qed.

Lemma disk_reads v d rest :
  0 <= v <= 2 ^ 31 - 1 -> valid_disk d -> Unserialize_CDiskBlockIndex (Serialize_CDiskBlockIndex v d ++ rest) = Some (on_disk d, rest).
Proof.
  intros Hv [Hh Hs Ht Hf [Hd Hu] Hm Hver (Ht' & Hb & Hn) Hhs Hst Hsig]. repeat (apply Forall_cons_iff in Hhs as [? Hhs]).
  unfold Unserialize_CDiskBlockIndex, Serialize_CDiskBlockIndex. rewrite <- !app_assoc.
  do 4 (rewrite varint_round_trip_max by lia; cbn [mbind option_bind]).
  do 3 (rewrite read_if_app by lia; cbn [mbind option_bind]). rewrite varint_round_trip_max by lia. cbn [mbind option_bind].
  rewrite int32_round_trip by done. cbn [mbind option_bind]. unfold Unserialize_uint256, Serialize_uint256. do 2 (rewrite read_app by done; cbn [mbind option_bind]).
  do 3 (rewrite locktime_reads by done; cbn [mbind option_bind]). do 3 (rewrite read_app by done; cbn [mbind option_bind]).
  rewrite outpoint_round_trip by done. cbn [mbind option_bind]. rewrite read_app by done. cbn [mbind option_bind]. rewrite bytes_round_trip by done. done.
Qed.

Lemma disk_hash_on_disk d : disk_GetBlockHash (on_disk d) = disk_GetBlockHash d.
Proof. done. Qed.

Lemma disk_hash_digest d : bytes_ok (disk_GetBlockHash d) /\ length (disk_GetBlockHash d) = 32%nat.
Proof. apply Hash_digest. Qed.

(** ** Iteration *)

Lemma bytes_ltb_irrefl a : bytes_ltb a a = false.
Proof. induction a as [|x a IH]; [done|]. cbn. by rewrite IH, Z.ltb_irrefl, andb_false_r. Qed.

Lemma bytes_ltb_head (a b : bytes) x : head a = Some x -> bytes_ltb a b = true -> exists y, head b = Some y /\ x <= y.
Proof. destruct a as [|x' a], b as [|y b]; [done..|]. cbn. intros [= ->] H. exists y. split; [done|]. lia. Qed.

Lemma bytes_ltb_zero c hash n : Forall (fun x => 0 <= x) hash -> (n <= length hash)%nat -> bytes_ltb (c :: hash) (c :: repeat 0 n) = false.
Proof.
  intros H Hn. cbn. rewrite Z.ltb_irrefl, Z.eqb_refl. cbn. revert n Hn. induction H as [|x hash Hx _ IH]; intros [|n] Hn; cbn in *; [done|lia|done|].
  rewrite IH by lia. rewrite andb_false_r, orb_false_r. apply Z.ltb_ge. lia.
Qed.

Definition starts (c : Z) (x : bytes * bytes) : bool := match head (fst x) with Some y => y =? c | None => false end.

(** Keys that start with [c] and those behind them *)
Lemma sorted_starts c l :
  StronglySorted (fun a b => bytes_ltb (fst a) (fst b) = true) l -> Forall (fun x : bytes * bytes => exists y, head (fst x) = Some y /\ c <= y) l ->
  exists l2, l = List.filter (starts c) l ++ l2 /\ Forall (fun x => starts c x = false) l2.
Proof.
  induction 1 as [|x l Hs IH Hx]; intros Hc; [by exists []|]. apply Forall_cons_iff in Hc as [(y & Hy & Hcy) Hc]. assert (Ex : starts c x = (y =? c)) by (unfold starts; by rewrite Hy).
  cbn [List.filter]. rewrite Ex. destruct (Z.eqb_spec y c) as [->|Hne].
  - destruct (IH Hc) as (l2 & E & Hl2). exists l2. split; [|done]. cbn [app]. by f_equal.
  - assert (Hl : Forall (fun x => starts c x = false) l).
    { eapply Forall_impl; [exact Hx|]. intros z Hz. cbn in Hz. destruct (bytes_ltb_head _ _ _ Hy Hz) as (w & Hw & Hle). unfold starts. rewrite Hw. apply Z.eqb_neq. lia. }
    exists (x :: l). assert (E : List.filter (starts c) l = []) by (clear - Hl; induction Hl as [|z l Hz _ IH]; [done|]; cbn; by rewrite Hz). rewrite E.
    split; [done|]. by constructor.
Qed.

Lemma Seek_starts c t l :
  StronglySorted (fun a b => bytes_ltb (fst a) (fst b) = true) l -> Forall (fun x => starts c x = true -> bytes_ltb (fst x) (c :: t) = false) l ->
  exists l2, Seek (c :: t) l = List.filter (starts c) l ++ l2 /\ Forall (fun x => starts c x = false) l2.
Proof.
  induction 1 as [|x l Hs IH Hx]; intros Hc; [by exists []|]. apply Forall_cons_iff in Hc as [Hcx Hc]. cbn [Seek].
  destruct (bytes_ltb (fst x) (c :: t)) eqn:E.
  - assert (Ex : starts c x = false) by (destruct (starts c x); [by specialize (Hcx eq_refl)|done]). cbn [List.filter]. rewrite Ex. by apply IH.
  - apply sorted_starts; [by constructor|].
    assert (Hh : exists y, head (fst x) = Some y /\ c <= y).
    { destruct (fst x) as [|y k]; [done|]. exists y. split; [done|]. cbn in E. apply orb_false_iff in E as [E _]. lia. }
    constructor; [done|]. destruct Hh as (y & Hy & Hle). eapply Forall_impl; [exact Hx|]. intros z Hz. cbn in Hz.
    destruct (bytes_ltb_head _ _ _ Hy Hz) as (w & Hw & Hw'). exists w. split; [done|lia].
Qed.

Lemma sorted_NoDup (l : list (bytes * bytes)) : StronglySorted (fun a b => bytes_ltb (fst a) (fst b) = true) l -> NoDup l.
Proof.
  induction 1 as [|x l Hs IH Hx]; [constructor|]. constructor; [|done]. intros Hin. rewrite Forall_forall in Hx. specialize (Hx x Hin). cbn in Hx. by rewrite bytes_ltb_irrefl in Hx.
Qed.

(** [x] stores [d], written by some version and with some hash of the proof:
    neither is taken over when it is read. *)
Definition with_proof (proof : uint256) (d : CDiskBlockIndex) : CDiskBlockIndex :=
  let b := di_index d in
  mkDisk (mkBlockIndex (phashBlock b) (pprev b) (pnext b) (pskip b) (Chain.nHeight b) (nFile b) (nDataPos b) (nUndoPos b)
    (nChainWork b) (nTx b) (nChainTx b) (nStatus b) (idx_nVersion b) (idx_hashMerkleRoot b) (nTime b) (nBits b) (idx_nNonce b)
    (idx_hashStateRoot b) (idx_hashUTXORoot b) (idx_vchBlockSig b) (nStakeModifier b) (prevoutStake b) proof
    (nMoneySupply b) (nSequenceId b) (nTimeMax b)) (hashPrev d).

Lemma disk_hash_proof proof d : disk_GetBlockHash (with_proof proof d) = disk_GetBlockHash d.
Proof. unfold disk_GetBlockHash. reflexivity. Qed.

Definition stores (d : CDiskBlockIndex) (x : bytes) : Prop :=
  exists n proof, 0 <= n <= 2 ^ 31 - 1 /\ length proof = 32%nat /\ x = Serialize_CDiskBlockIndex n (with_proof proof d).

Lemma stores_own n d : 0 <= n <= 2 ^ 31 - 1 -> valid_disk d -> stores d (Serialize_CDiskBlockIndex n d).
Proof.
  intros Hn Hd. exists n, (hashProof (di_index d)). split_and!; [lia|lia| |by destruct d as [[]]].
  pose proof (disk_hashes _ Hd) as Hh. repeat (apply Forall_cons_iff in Hh as [? Hh]). done.
Qed.

Lemma stores_reads d x : valid_disk d -> stores d x -> exists proof, Unserialize_CDiskBlockIndex x = Some (on_disk (with_proof proof d), []).
Proof.
  intros [Hh Hs Ht Hf Hp Hm Hver Hw Hhs Hst Hsig] (n & proof & Hn & Hl & ->). exists proof. rewrite <- (app_nil_r (Serialize_CDiskBlockIndex _ _)). apply disk_reads; [done|].
  repeat (apply Forall_cons_iff in Hhs as [? Hhs]). split; try done. by repeat constructor.
Qed.

Section load.
Context `{Iter : LevelDBIteratorLaws D}.
Context (params : Params).

(** The entries that a database holds *)
Record tree_db (v : CDBWrapper D) (m : gmap uint256 CDiskBlockIndex) : Prop := {
  tree_db_entries hash d : m !! hash = Some d -> exists x, value (index_key hash) v = Some x /\ stores d x;
  tree_db_only k x : value k v = Some x -> head k = Some DB_BLOCK_INDEX -> exists hash d, m !! hash = Some d /\ k = index_key hash }.

Definition stored_entry (v : CDBWrapper D) (x : uint256 * CDiskBlockIndex) : bytes * bytes :=
  (index_key (fst x), default [] (ldb_Get (index_key (fst x)) (pdb v))).

Lemma ldb_value k x v : ldb_Get k (pdb v) = Some x <-> value k v = Some (Xor (obfuscate_key v) x).
Proof.
  unfold value. destruct (ldb_Get k (pdb v)) as [y|]; cbn; [|done]. split; [by intros [= ->]|]. intros [= E]. f_equal.
  by rewrite <- (Xor_involutive (obfuscate_key v) y), E, Xor_involutive.
Qed.

Lemma index_entries v m :
  tree_db v m -> (forall hash d, m !! hash = Some d -> bytes_ok hash /\ length hash = 32%nat) ->
  exists hs l2, Seek (index_key uint256_null) (ldb_entries (pdb v)) = map (stored_entry v) hs ++ l2 /\ hs ≡ₚ map_to_list m /\
    Forall (fun x => starts DB_BLOCK_INDEX x = false) l2.
Proof.
  intros Hv Hm. set (l := ldb_entries (pdb v)).
  assert (Hidx : forall k x, (k, x) ∈ l -> starts DB_BLOCK_INDEX (k, x) = true -> exists hash d, m !! hash = Some d /\ (k, x) = stored_entry v (hash, d)).
  { intros k x Hin Hst. apply ldb_entries_Get, ldb_value in Hin. unfold starts in Hst. cbn [fst] in Hst. destruct (head k) as [c|] eqn:Ek; [|done]. apply Z.eqb_eq in Hst as ->.
    destruct (tree_db_only _ _ Hv k _ Hin Ek) as (hash & d & Hd & ->). exists hash, d. split; [done|]. unfold stored_entry. cbn [fst snd]. f_equal.
    apply ldb_value in Hin. by rewrite Hin. }
  destruct (Seek_starts DB_BLOCK_INDEX uint256_null l (ldb_entries_sorted _)) as (l2 & E & Hl2).
  { apply Forall_forall. intros [k x] Hin Hst. destruct (Hidx k x Hin Hst) as (hash & d & Hd & [= -> _]). destruct (Hm hash d Hd) as [Hb Hl].
    apply (bytes_ltb_zero DB_BLOCK_INDEX hash 32); [|rewrite Hl; lia]. eapply Forall_impl; [exact Hb|]. unfold in_u. cbn. lia. }
  assert (HP : List.filter (starts DB_BLOCK_INDEX) l ≡ₚ map (stored_entry v) (map_to_list m)).
  { apply NoDup_Permutation.
    - apply NoDup_ListNoDup, List.NoDup_filter, NoDup_ListNoDup, sorted_NoDup, ldb_entries_sorted.
    - apply (NoDup_fmap_1 fst). change (fst <$> map (stored_entry v) (map_to_list m)) with (map fst (map (stored_entry v) (map_to_list m))). rewrite map_map.
      change (map (fun x => fst (stored_entry v x)) (map_to_list m)) with (map (fun x => index_key (fst x)) (map_to_list m)). rewrite <- (map_map fst index_key).
      apply (NoDup_fmap_2 index_key), NoDup_fst_map_to_list.
    - intros [k x]. rewrite list_elem_of_In, filter_In, <- list_elem_of_In. split.
      + intros [Hin Hst]. destruct (Hidx k x Hin Hst) as (hash & d & Hd & ->). apply list_elem_of_In, in_map, list_elem_of_In. by apply elem_of_map_to_list.
      + intros Hin. apply list_elem_of_In, in_map_iff in Hin as ([hash d] & <- & Hd). apply list_elem_of_In, elem_of_map_to_list in Hd.
        split; [|done]. apply ldb_entries_Get. cbn [fst snd]. destruct (tree_db_entries _ _ Hv hash d Hd) as (x' & Hx & _).
        unfold value in Hx. by destruct (ldb_Get (index_key hash) (pdb v)). }
  apply Permutation_map_inv in HP as (hs & E1 & HP). exists hs, l2. unfold index_key, Serialize_uint256. rewrite E, E1. split_and!; [done|by symmetry|done].
Qed.

(** ** The entries that are read *)

(** A stored tree: every entry has the hash of its header and a stored parent
    one below it, unless it is a genesis block. *)
Record disk_ok (m : gmap uint256 CDiskBlockIndex) (hash : uint256) (d : CDiskBlockIndex) : Prop := {
  dok_valid : valid_disk d;
  dok_hash : disk_GetBlockHash d = hash;
  dok_null : blob_IsNull hash = false;
  dok_prev : if blob_IsNull (hashPrev d) then Chain.nHeight (di_index d) = 0
             else exists dp, m !! hashPrev d = Some dp /\ Chain.nHeight (di_index dp) = Chain.nHeight (di_index d) - 1;
  dok_proof : IsProofOfStake (di_index d) = true \/ CheckProofOfWork hash (nBits (di_index d)) params = true;
  dok_tx : BLOCK_VALID_TRANSACTIONS <= Z.land (nStatus (di_index d)) BLOCK_VALID_MASK -> 0 < nTx (di_index d) }.

Context (m : gmap uint256 CDiskBlockIndex).
Hypothesis Hdisk : map_Forall (disk_ok m) m.

Definition loading (st : gmap ptr CBlockIndex) (idx : gmap uint256 ptr) (seen : gset (COutPoint * Z)) : ChainState :=
  mkChainState st idx ∅ [] ∅ ∅ seen [] None None None None false false 1 (-1) (of_uint64 0).

(** The entry of a hash, before and after it was read *)
Definition blank (h : uint256) : CBlockIndex := set_phashBlock h blockindex_null.

Definition prev_ptr (idx : gmap uint256 ptr) (h : uint256) : option ptr := if blob_IsNull h then None else idx !! h.

Definition entry_of (dm : gmap uint256 CDiskBlockIndex) (idx : gmap uint256 ptr) (h : uint256) : CBlockIndex :=
  match dm !! h with
  | Some d => set_loaded (prev_ptr idx (hashPrev d)) (di_index (on_disk d)) (blank h)
  | None => blank h
  end.

Record load_inv (dm : gmap uint256 CDiskBlockIndex) (st : gmap ptr CBlockIndex) (idx : gmap uint256 ptr) : Prop := {
  li_entry h p : idx !! h = Some p -> st !! p = Some (entry_of dm idx h);
  li_back p b : st !! p = Some b -> exists h, idx !! h = Some p;
  li_prev h d : dm !! h = Some d -> blob_IsNull (hashPrev d) = false -> is_Some (idx !! hashPrev d);
  li_done h : is_Some (dm !! h) -> is_Some (idx !! h);
  li_known h : is_Some (idx !! h) -> is_Some (m !! h);
  li_sub : dm ⊆ m }.

Lemma entry_of_hash dm idx h : phashBlock (entry_of dm idx h) = Some h.
Proof. unfold entry_of. by destruct (dm !! h). Qed.

Lemma load_inj dm st idx (h h' : uint256) p : load_inv dm st idx -> idx !! h = Some p -> idx !! h' = Some p -> h = h'.
Proof.
  intros Hi H1 H2. pose proof (li_entry _ _ _ Hi h p H1) as E1. pose proof (li_entry _ _ _ Hi h' p H2) as E2. rewrite E1 in E2. injection E2 as E2.
  apply (f_equal phashBlock) in E2. rewrite !entry_of_hash in E2. congruence.
Qed.

Lemma InsertBlockIndex_spec dm st idx seen (h : uint256) :
  load_inv dm st idx -> blob_IsNull h = false -> is_Some (m !! h) ->
  exists p st' idx', InsertBlockIndex h (loading st idx seen) = (Some p, loading st' idx' seen) /\ load_inv dm st' idx' /\ idx' !! h = Some p /\ idx ⊆ idx'.
Proof.
  intros Hi Hn Hm. unfold InsertBlockIndex. rewrite Hn. cbn [m_block_index loading entries].
  destruct (idx !! h) as [p|] eqn:Eh; [exists p, st, idx; split_and!; [done|done|done|reflexivity]|]. set (p := fresh (dom st)).
  assert (Hp : st !! p = None) by (apply not_elem_of_dom; exact (fin_sets.is_fresh (dom st))).
  assert (Hnew : forall h' p', idx !! h' = Some p' -> p' <> p) by (intros h' p' H' ->; pose proof (li_entry _ _ _ Hi h' p H'); congruence).
  assert (Hsub : idx ⊆ <[h := p]> idx) by (by apply insert_subseteq).
  exists p, (<[p := blank h]> st), (<[h := p]> idx). split; [done|]. split; [|split; [apply lookup_insert_eq|done]]. split.
  - intros h' p' H'. apply lookup_insert_Some in H' as [[<- <-]|[Hne H']].
    + rewrite lookup_insert_eq. f_equal. unfold entry_of. destruct (dm !! h) eqn:Ed; [|done].
      destruct (li_done _ _ _ Hi h) as [x Hx]; [by eexists|]. congruence.
    + rewrite lookup_insert_ne by (intros <-; by apply (Hnew h' p H')). rewrite (li_entry _ _ _ Hi h' p' H'). f_equal. unfold entry_of.
      destruct (dm !! h') as [d|] eqn:Ed; [|done]. f_equal. unfold prev_ptr. destruct (blob_IsNull (hashPrev d)) eqn:En; [done|].
      destruct (li_prev _ _ _ Hi h' d Ed En) as [x Hx]. rewrite Hx. symmetry. by apply (lookup_weaken _ _ _ _ Hx).
  - intros p' b' H'. apply lookup_insert_Some in H' as [[<- _]|[Hne H']]; [exists h; apply lookup_insert_eq|].
    destruct (li_back _ _ _ Hi p' b' H') as [h' E']. exists h'. by apply (lookup_weaken _ _ _ _ E').
  - intros h' d Hd En. destruct (li_prev _ _ _ Hi h' d Hd En) as [x Hx]. exists x. by apply (lookup_weaken _ _ _ _ Hx).
  - intros h' Hd. destruct (li_done _ _ _ Hi h' Hd) as [x Hx]. exists x. by apply (lookup_weaken _ _ _ _ Hx).
  - intros h' [x Hx]. apply lookup_insert_Some in Hx as [[<- _]|[_ Hx]]; [done|]. apply (li_known _ _ _ Hi). by eexists.
  - apply Hi.
Qed.

Lemma loaded_inv dm st idx (h : uint256) d p :
  load_inv dm st idx -> dm !! h = None -> m !! h = Some d -> idx !! h = Some p ->
  (blob_IsNull (hashPrev d) = false -> is_Some (idx !! hashPrev d)) ->
  load_inv (<[h := d]> dm) (<[p := set_loaded (prev_ptr idx (hashPrev d)) (di_index (on_disk d)) (blank h)]> st) idx.
Proof.
  intros Hi Hdm Hm Hp Hprev. split.
  - intros h' p' H'. unfold entry_of. destruct (decide (h = h')) as [<-|Hne].
    + assert (p' = p) by congruence. subst p'. by rewrite !lookup_insert_eq.
    + rewrite lookup_insert_ne by (intros <-; by apply Hne, (load_inj dm st idx h h' p)). rewrite lookup_insert_ne by done. by apply (li_entry _ _ _ Hi).
  - intros p' b' H'. apply lookup_insert_Some in H' as [[<- _]|[_ H']]; [by exists h|]. by apply (li_back _ _ _ Hi p' b').
  - intros h' d' H' En. apply lookup_insert_Some in H' as [[<- <-]|[_ H']]; [by apply Hprev|]. by apply (li_prev _ _ _ Hi h' d').
  - intros h' [x H']. apply lookup_insert_Some in H' as [[<- _]|[_ H']]; [by exists p|]. apply (li_done _ _ _ Hi). by eexists.
  - apply Hi.
  - by apply insert_subseteq_l; [|apply Hi].
Qed.

Lemma set_loaded_proof prev proof d b : set_loaded prev (di_index (on_disk (with_proof proof d))) b = set_loaded prev (di_index (on_disk d)) b.
Proof. reflexivity. Qed.

Lemma load_entry_proof proof d s : load_entry params (on_disk (with_proof proof d)) s = load_entry params (on_disk d) s.
Proof.
  unfold load_entry. rewrite !disk_hash_on_disk, disk_hash_proof. change (hashPrev (on_disk (with_proof proof d))) with (hashPrev (on_disk d)).
  destruct (InsertBlockIndex (disk_GetBlockHash d) s) as [pindexNew s1]. destruct (InsertBlockIndex (hashPrev (on_disk d)) s1) as [prev s2].
  destruct (of_option pindexNew) as [p| |]; [|reflexivity..]. cbn [obind]. destruct (deref (entries s2) p) as [b| |]; [|reflexivity..]. cbn [obind].
  by rewrite set_loaded_proof.
Qed.

Lemma load_entry_spec dm st idx seen (h : uint256) d :
  load_inv dm st idx -> dm !! h = None -> m !! h = Some d ->
  forall proof, exists st' idx' seen', load_entry params (on_disk (with_proof proof d)) (loading st idx seen) = Ok (true, loading st' idx' seen') /\ load_inv (<[h := d]> dm) st' idx'.
Proof.
  intros Hi Hdm Hm proof. rewrite load_entry_proof.
  destruct (Hdisk h d Hm) as [_ Hh Hn Hprev Hproof _]. unfold load_entry. rewrite disk_hash_on_disk, Hh.
  destruct (InsertBlockIndex_spec dm st idx seen h Hi Hn) as (p & st1 & idx1 & -> & Hi1 & Hp1 & Hsub1); [by eexists|]. cbn [of_option obind hashPrev on_disk].
  assert (H2 : exists st2 idx2, InsertBlockIndex (hashPrev d) (loading st1 idx1 seen) = (prev_ptr idx2 (hashPrev d), loading st2 idx2 seen) /\
    load_inv dm st2 idx2 /\ idx2 !! h = Some p /\ (blob_IsNull (hashPrev d) = false -> is_Some (idx2 !! hashPrev d))).
  { unfold prev_ptr. destruct (blob_IsNull (hashPrev d)) eqn:En.
    - exists st1, idx1. unfold InsertBlockIndex. by rewrite En.
    - destruct Hprev as (dp & Hdp & _). destruct (InsertBlockIndex_spec dm st1 idx1 seen (hashPrev d) Hi1 En) as (q & st2 & idx2 & -> & Hi2 & Hq & Hsub2); [by eexists|].
      exists st2, idx2. rewrite Hq. split_and!; [done|done|by apply (lookup_weaken _ _ _ _ Hp1)|by eexists]. }
  destruct H2 as (st2 & idx2 & -> & Hi2 & Hp2 & Hprev2). unfold deref. cbn [entries loading]. rewrite (li_entry _ _ _ Hi2 h p Hp2). cbn [of_option obind].
  assert (Eb : entry_of dm idx2 h = blank h) by (unfold entry_of; by rewrite Hdm). rewrite Eb.
  set (b := set_loaded _ _ _).
  assert (Hok : CheckIndexProof params b = Ok true).
  { unfold CheckIndexProof. destruct (IsProofOfWork b) eqn:Ew.
    - unfold GetBlockHash. change (phashBlock b) with (Some h). cbn [of_option obind]. destruct (IsProofOfStake b) eqn:Es; [done|].
      destruct Hproof as [Hs|Hw]; [|exact (f_equal Ok Hw)]. change (IsProofOfStake b) with (IsProofOfStake (di_index d)) in Es. congruence.
    - cbn [obind]. unfold IsProofOfWork in Ew. apply negb_false_iff in Ew. by rewrite Ew. }
  rewrite Hok. cbn [obind negb]. pose proof (loaded_inv dm st2 idx2 h d p Hi2 Hdm Hm Hp2 Hprev2) as Hi3. fold b in Hi3.
  destruct (IsProofOfStake b); eexists _, _, _; (split; [reflexivity|exact Hi3]).
Qed.

Lemma load_entries_spec v hs l2 dm st idx seen :
  tree_db v m -> load_inv dm st idx -> Forall (fun x => m !! fst x = Some (snd x)) hs -> NoDup hs.*1 -> (forall h : uint256, h ∈ hs.*1 -> dm !! h = None) ->
  Forall (fun x => starts DB_BLOCK_INDEX x = false) l2 ->
  exists st' idx' seen', load_entries params (obfuscate_key v) (map (stored_entry v) hs ++ l2) (loading st idx seen) = Ok (true, loading st' idx' seen') /\
    load_inv (list_to_map hs ∪ dm) st' idx'.
Proof.
  intros Hv Hi Hhs Hnd Hdm Hl2. revert dm st idx seen Hi Hdm. induction hs as [|[h d] hs IH]; intros dm st idx seen Hi Hdm.
  - cbn [map app list_to_map foldr]. exists st, idx, seen. rewrite (left_id_L ∅ (∪)). split; [|done]. destruct l2 as [|[k x] l2]; [done|].
    apply Forall_cons_iff in Hl2 as [Hx _]. cbn [load_entries]. unfold starts in Hx. cbn [fst] in Hx. destruct k as [|c k]; [done|]. cbn [head GetKey] in *.
    destruct (read 32 k) as [[? ?]|]; [|done]. cbn [mbind option_bind]. cbn in Hx. by rewrite Hx.
  - apply Forall_cons_iff in Hhs as [Hm Hhs]. cbn [fst snd fmap list_fmap] in *. apply NoDup_cons in Hnd as [Hni Hnd]. cbn [map app load_entries].
    destruct (Hdisk h d Hm) as [Hvalid Hh _ _ _ _]. destruct (disk_hash_digest d) as [_ Hlen]. rewrite Hh in Hlen.
    unfold stored_entry at 1. cbn [fst snd]. unfold index_key at 1, Serialize_uint256. cbn [GetKey].
    assert (Er : read 32 h = Some (h, [])) by (rewrite <- (app_nil_r h) at 1; by apply read_app). rewrite Er. cbn [mbind option_bind]. rewrite Z.eqb_refl.
    destruct (tree_db_entries _ _ Hv h d Hm) as (x & Hx & Hst). destruct (stores_reads d x Hvalid Hst) as [proof Ed].
    assert (Ex : Xor (obfuscate_key v) (default [] (ldb_Get (index_key h) (pdb v))) = x).
    { unfold value in Hx. destruct (ldb_Get (index_key h) (pdb v)); [|done]. by injection Hx. }
    rewrite Ex, Ed. destruct (load_entry_spec dm st idx seen h d Hi) with (proof := proof) as (st1 & idx1 & seen1 & -> & Hi1); [apply Hdm, list_elem_of_here|done|]. cbn [obind].
    destruct (IH Hhs Hnd (<[h := d]> dm) st1 idx1 seen1 Hi1) as (st2 & idx2 & seen2 & -> & Hi2).
    { intros h' Hin. rewrite lookup_insert_ne by (intros <-; done). apply Hdm. by apply list_elem_of_further. }
    exists st2, idx2, seen2. split; [done|]. cbn [list_to_map foldr uncurry fst snd]. rewrite <- insert_union_l, insert_union_r; [exact Hi2|].
    by apply not_elem_of_list_to_map.
Qed.

Lemma LoadBlockIndexGuts_spec v :
  tree_db v m ->
  exists st idx seen, LoadBlockIndexGuts params v empty_state = Ok (true, loading st idx seen) /\ load_inv m st idx.
Proof.
  intros Hv. destruct (index_entries v m Hv) as (hs & l2 & E & HP & Hl2).
  { intros hash d Hd. rewrite <- (dok_hash _ _ _ (Hdisk hash d Hd)). apply disk_hash_digest. }
  unfold LoadBlockIndexGuts. rewrite E. change empty_state with (loading ∅ ∅ ∅).
  assert (Hnd : NoDup hs.*1) by (rewrite HP; apply NoDup_fst_map_to_list).
  destruct (load_entries_spec v hs l2 ∅ ∅ ∅ ∅ Hv) as (st & idx & seen & Er & Hi).
  - split; [done|done|done|by intros h [? ?]|by intros h [? ?]|apply map_empty_subseteq].
  - apply Forall_forall. intros [h d] Hin. rewrite HP in Hin. by apply elem_of_map_to_list.
  - done.
  - done.
  - done.
  - exists st, idx, seen. split; [done|]. rewrite (right_id_L ∅ (∪)) in Hi.
    by rewrite (list_to_map_proper hs (map_to_list m) Hnd HP), list_to_map_to_list in Hi.
Qed.

(** ** The tree *)

Lemma loaded_store st idx : load_inv m st idx ->
  wf_store st /\ (forall p b, st !! p = Some b -> exists h d, idx !! h = Some p /\ m !! h = Some d /\ b = entry_of m idx h).
Proof.
  intros Hi.
  assert (Hb : forall p b, st !! p = Some b -> exists h d, idx !! h = Some p /\ m !! h = Some d /\ b = entry_of m idx h).
  { intros p b Hp. destruct (li_back _ _ _ Hi p b Hp) as [h Hh]. destruct (li_known _ _ _ Hi h) as [d Hd]; [by eexists|]. exists h, d. split_and!; [done|done|].
    rewrite (li_entry _ _ _ Hi h p Hh) in Hp. by injection Hp. }
  split; [|done]. intros p b Hp. destruct (Hb p b Hp) as (h & d & Hh & Hd & ->). destruct (Hdisk h d Hd) as [Hv _ _ Hprev _ _].
  assert (E : entry_of m idx h = set_loaded (prev_ptr idx (hashPrev d)) (di_index (on_disk d)) (blank h)) by (unfold entry_of; by rewrite Hd). rewrite E. split; cbn.
  - apply (disk_height _ Hv).
  - by eexists.
  - unfold prev_ptr. destruct (blob_IsNull (hashPrev d)) eqn:En; [done|]. destruct Hprev as (dp & Hdp & Hh').
    destruct (li_prev _ _ _ Hi h d Hd En) as [q Hq]. rewrite Hq. exists (entry_of m idx (hashPrev d)). split; [by apply (li_entry _ _ _ Hi)|].
    unfold entry_of. by rewrite Hdp.
  - done.
Qed.

Section relink.
Context (st0 : gmap ptr CBlockIndex).
Hypothesis Hbits : map_Forall (fun _ b => in_u 32 (nBits b)) st0.

(** What [relink] makes of an entry, from that of its parent *)
Definition chain_work (prev : option CBlockIndex) (b : CBlockIndex) : base_uint :=
  add (match prev with Some bp => nChainWork bp | None => of_uint64 0 end) (match GetBlockProof b with Ok w => w | _ => zero end).

Definition inherits_failure (prev : option CBlockIndex) (b : CBlockIndex) : bool :=
  negb (failed b) && match prev with Some bp => failed bp | None => false end.

Definition summed (prev : option CBlockIndex) (b : CBlockIndex) : CBlockIndex :=
  set_sums (chain_work prev b) (match prev with Some bp => Z.max (nTimeMax bp) (nTime b) | None => nTime b end) (fst (chain_tx prev b))
    (if inherits_failure prev b then Z.lor (nStatus b) BLOCK_FAILED_CHILD else nStatus b) b.

Definition candidate (b : CBlockIndex) : Prop :=
  IsValid b BLOCK_VALID_TRANSACTIONS = Ok true /\ (nChainTx b <> 0 \/ pprev b = None).

Definition waiting (st : gmap ptr CBlockIndex) (b : CBlockIndex) (q : ptr) : Prop :=
  pprev b = Some q /\ 0 < nTx b /\ exists bq, st !! q = Some bq /\ nChainTx bq = 0.

(** After the entries of [done] *)
Record relink_inv (done : list ptr) (s : ChainState) : Prop := {
  ri_wf : wf_store (entries s);
  ri_work : works (entries s);
  ri_todo p : p ∉ done -> entries s !! p = st0 !! p;
  ri_done p : p ∈ done -> exists b0 skip, st0 !! p = Some b0 /\ (forall q, pprev b0 = Some q -> q ∈ done) /\
    entries s !! p = Some (set_pskip (summed (pprev b0 ≫= (fun q => entries s !! q)) b0) skip);
  ri_candidates p : p ∈ setBlockIndexCandidates s <-> p ∈ done /\ exists b, entries s !! p = Some b /\ candidate b;
  ri_unlinked q p : (q, p) ∈ m_blocks_unlinked s <-> p ∈ done /\ exists b, entries s !! p = Some b /\ waiting (entries s) b q;
  ri_dirty p : p ∈ setDirtyBlockIndex s <-> p ∈ done /\ exists b0, st0 !! p = Some b0 /\ inherits_failure (pprev b0 ≫= (fun q => entries s !! q)) b0 = true;
  ri_best : Forall (fun o => forall p, o = Some p -> present s p) [pindexBestHeader s; pindexBestInvalid s] }.

Lemma chain_work_wf prev b : in_u 32 (nBits b) -> (forall bp, prev = Some bp -> wf (nChainWork bp)) ->
  GetBlockProof b = Ok (match GetBlockProof b with Ok w => w | _ => zero end) /\ wf (chain_work prev b).
Proof.
  intros Hb Hp. unfold chain_work. destruct (GetBlockProof_spec b Hb) as (w & -> & Hw & _). split; [done|].
  apply add_spec; [|done]. destruct prev as [bp|]; [by apply Hp|apply of_uint64_wf].
Qed.

Lemma candidate_spec b vt : IsValid b BLOCK_VALID_TRANSACTIONS = Ok vt -> vt && (HaveTxsDownloaded b || bool_decide (pprev b = None)) = true <-> candidate b.
Proof.
  intros Evt. unfold candidate, HaveTxsDownloaded. rewrite Evt, andb_true_iff, orb_true_iff, negb_true_iff, Z.eqb_neq, bool_decide_eq_true.
  split; intros [Hv Hc]; (split; [congruence|done]).
Qed.

Lemma chain_tx_waits st b q : pprev b = Some q -> is_Some (st !! q) -> snd (chain_tx (pprev b ≫= (fun q => st !! q)) b) = true <-> waiting st b q.
Proof.
  intros Hq [bq Hb]. unfold chain_tx, waiting, HaveTxsDownloaded. rewrite Hq. cbn [mbind option_bind]. rewrite Hb.
  destruct (Z.ltb_spec 0 (nTx b)); [|split; [done|lia]]. destruct (Z.eqb_spec (nChainTx bq) 0) as [E|E]; cbn [negb snd].
  - split; [|done]. intros _. split_and!; [done|done|by exists bq].
  - split; [done|]. intros (_ & _ & bq' & Hb' & E'). congruence.
Qed.

(** The changes of one step *)
Record relinked (p : ptr) (s s' : ChainState) (b : CBlockIndex) : Prop := {
  rl_entries : exists skip, entries s' = <[p := set_pskip b skip]> (entries s);
  rl_wf : wf_store (entries s');
  rl_candidates x : x ∈ setBlockIndexCandidates s' <-> x ∈ setBlockIndexCandidates s \/ (x = p /\ candidate b);
  rl_unlinked q x : (q, x) ∈ m_blocks_unlinked s' <-> (q, x) ∈ m_blocks_unlinked s \/ (x = p /\ waiting (entries s) b q);
  rl_best : Forall (fun o => forall x, o = Some x -> present s' x) [pindexBestHeader s'; pindexBestInvalid s'];
  rl_rest : m_block_index s' = m_block_index s /\ m_failed_blocks s' = m_failed_blocks s /\ m_chain s' = m_chain s /\
    pindexBestForkTip s' = pindexBestForkTip s /\ pindexBestForkBase s' = pindexBestForkBase s }.

Lemma relink_rest_spec p b s :
  wf_store (entries s) -> entries s !! p = Some b -> Forall (fun o => forall x, o = Some x -> present s x) [pindexBestHeader s; pindexBestInvalid s] ->
  exists s', relink_rest p b s = Ok s' /\ (exists skip, entries s' = <[p := set_pskip b skip]> (entries s)) /\ wf_store (entries s') /\
    (forall x, x ∈ setBlockIndexCandidates s' <-> x ∈ setBlockIndexCandidates s \/ (x = p /\ candidate b)) /\ m_blocks_unlinked s' = m_blocks_unlinked s /\
    setDirtyBlockIndex s' = setDirtyBlockIndex s /\
    Forall (fun o => forall x, o = Some x -> present s' x) [pindexBestHeader s'; pindexBestInvalid s'] /\
    m_block_index s' = m_block_index s /\ m_failed_blocks s' = m_failed_blocks s /\ m_chain s' = m_chain s /\
    pindexBestForkTip s' = pindexBestForkTip s /\ pindexBestForkBase s' = pindexBestForkBase s.
Proof.
  intros Hwf Hp Hbest. apply Forall_cons_iff in Hbest as [Hbh Hbest]. apply Forall_cons_iff in Hbest as [Hbi _]. unfold relink_rest.
  destruct (IsValid_returns b BLOCK_VALID_TRANSACTIONS eq_refl) as [vt Evt]. rewrite Evt. cbn [obind]. pose proof (candidate_spec b vt Evt) as Hcand.
  set (cand := vt && _) in *. rewrite deref_opt_spec by (destruct cand; exact Hbi). cbn [obind]. set (inv := failed b && _).
  destruct (BuildSkip_preserves_block_tree _ p b Hwf Hp) as (st' & Est & Hwf2 & _ & _).
  replace (entries (if inv then _ else _)) with (entries s) by (by destruct inv, cand). rewrite Est. cbn [obind].
  assert (Hst : exists skip, st' = <[p := set_pskip b skip]> (entries s)).
  { destruct (BuildSkip_eq _ p b Hwf Hp) as [E|(k & E & _)]; rewrite Est in E; injection E as ->; [|by exists k].
    exists (pskip b). rewrite insert_id; [done|]. rewrite Hp. by destruct b. }
  destruct (IsValid_returns b BLOCK_VALID_TREE eq_refl) as [vh Evh]. rewrite Evh. cbn [obind].
  assert (Hpres : forall x, present s x -> is_Some (st' !! x)).
  { intros x Hx. destruct Hst as [skip ->]. apply lookup_insert_is_Some. destruct (decide (p = x)); [by left|by right]. }
  rewrite deref_opt_spec by (destruct inv, cand; intros x Hx; by apply Hpres, Hbh). cbn [obind]. set (header := vh && _). eexists. split; [reflexivity|].
  assert (Hp' : is_Some (st' !! p)) by (apply Hpres; by eexists). split_and!.
  - destruct Hst as [skip E]. exists skip. by destruct header.
  - by destruct header.
  - intros x. transitivity (x ∈ (if cand then {[p]} ∪ setBlockIndexCandidates s else setBlockIndexCandidates s)); [by destruct header, inv, cand|].
    rewrite <- Hcand. destruct cand; [rewrite elem_of_union, elem_of_singleton; tauto|split; [by left|]; by intros [?|[_ ?]]].
  - by destruct header, inv, cand.
  - by destruct header, inv, cand.
  - repeat apply Forall_cons_2; [| |apply Forall_nil_2]; intros x; destruct header, inv, cand; cbn; try (intros [= <-]; exact Hp'); intros Hx; apply Hpres; first [exact (Hbh _ Hx)|exact (Hbi _ Hx)].
  - by destruct header, inv, cand.
  - by destruct header, inv, cand.
  - by destruct header, inv, cand.
  - by destruct header, inv, cand.
  - by destruct header, inv, cand.
Qed.

Lemma relink_spec p s b :
  wf_store (entries s) -> works (entries s) -> entries s !! p = Some b -> in_u 32 (nBits b) ->
  Forall (fun o => forall x, o = Some x -> present s x) [pindexBestHeader s; pindexBestInvalid s] ->
  exists s', relink p s = Ok s' /\ relinked p s s' (summed (pprev b ≫= (fun q => entries s !! q)) b) /\ wf (nChainWork (summed (pprev b ≫= (fun q => entries s !! q)) b)) /\
    setDirtyBlockIndex s' = (if inherits_failure (pprev b ≫= (fun q => entries s !! q)) b then {[p]} ∪ setDirtyBlockIndex s else setDirtyBlockIndex s).
Proof.
  intros Hwf Hw Hp Hbits' Hbest.
  assert (Hprev : forall q, pprev b = Some q -> is_Some (entries s !! q)).
  { intros q Hq. pose proof (wf_pprev _ _ _ (Hwf p b Hp)) as H'. rewrite Hq in H'. destruct H' as (bq & Hq' & _). by eexists. }
  pose proof (chain_tx_waits (entries s) b) as Hwaits. set (prev := pprev b ≫= (fun q => entries s !! q)) in *.
  destruct (chain_work_wf prev b Hbits') as [Eproof Hwork].
  { intros bp E. unfold prev in E. destruct (pprev b) as [q|]; [|done]. cbn in E. by apply (Hw q). }
  unfold relink, deref. rewrite Hp. cbn [of_option obind]. rewrite (deref_opt_spec _ _ Hprev). fold prev. cbn [obind]. rewrite Eproof. cbn [obind].
  change (add _ _) with (chain_work prev b). destruct (chain_tx prev b) as [chainTx waits] eqn:Etx. cbn [snd] in Hwaits.
  change (negb (failed b) && match prev with Some bp => failed bp | None => false end) with (inherits_failure prev b).
  set (s1 := match pprev b with Some q => _ | None => s end).
  assert (Eb1 : set_sums (chain_work prev b) (match prev with Some bp => Z.max (nTimeMax bp) (nTime b) | None => nTime b end) chainTx
    (if inherits_failure prev b then Z.lor (nStatus b) BLOCK_FAILED_CHILD else nStatus b) b = summed prev b) by (unfold summed; by rewrite Etx). rewrite Eb1.
  set (s2 := set_entries (insert p (summed prev b)) _).
  assert (E2 : entries s2 = <[p := summed prev b]> (entries s) /\ pindexBestHeader s2 = pindexBestHeader s /\ pindexBestInvalid s2 = pindexBestInvalid s /\
    setBlockIndexCandidates s2 = setBlockIndexCandidates s /\ m_block_index s2 = m_block_index s /\ m_failed_blocks s2 = m_failed_blocks s /\ m_chain s2 = m_chain s /\
    pindexBestForkTip s2 = pindexBestForkTip s /\ pindexBestForkBase s2 = pindexBestForkBase s /\ m_blocks_unlinked s2 = m_blocks_unlinked s1 /\
    setDirtyBlockIndex s2 = (if inherits_failure prev b then {[p]} ∪ setDirtyBlockIndex s else setDirtyBlockIndex s)).
  { unfold s2, s1. destruct (inherits_failure prev b), (pprev b); try done; by destruct waits. }
  destruct E2 as (Ent & Eh & Ei & Ec & Ex & Ef & Ech & Eft & Efb & Eu & Ed).
  destruct (relink_rest_spec p (summed prev b) s2) as (s' & Er & [skip Hs'] & Hwf' & Hc' & Hu' & Hd' & Hb' & Hrest).
  - rewrite Ent. eapply same_tree_wf; [|exact Hwf]. by apply (same_tree_insert _ p b).
  - rewrite Ent. apply lookup_insert_eq.
  - rewrite Eh, Ei. eapply Forall_impl; [exact Hbest|]. intros o Ho x Hx. unfold present. rewrite Ent. apply lookup_insert_is_Some.
    destruct (decide (p = x)); [by left|right; split; [done|by apply Ho]].
  - exists s'. split; [exact Er|]. split; [|split; [exact Hwork|by rewrite Hd', Ed]]. split.
    + exists skip. rewrite Hs', Ent. by rewrite insert_insert_eq.
    + done.
    + intros x. by rewrite Hc', Ec.
    + intros q x. rewrite Hu', Eu. unfold s1. change (waiting (entries s) (summed prev b) q) with (waiting (entries s) b q). destruct (pprev b) as [q'|] eqn:Eq.
      * specialize (Hwaits q' eq_refl (Hprev q' eq_refl)). destruct waits; [|split; [by left|]; intros [?|(-> & Hq)]; [done|]; assert (q = q') as -> by (destruct Hq as [? _]; congruence); by apply Hwaits in Hq].
        cbn [m_blocks_unlinked set_unlinked]. rewrite elem_of_app, list_elem_of_singleton. split.
        -- intros [?|[= -> ->]]; [by left|right; split; [done|by apply Hwaits]].
        -- intros [?|(-> & Hq)]; [by left|right]. destruct Hq as [? _]. congruence.
      * split; [by left|]. intros [?|(_ & ? & _)]; congruence.
    + done.
    + by rewrite Ex, Ef, Ech, Eft, Efb in Hrest.
Qed.

Lemma relink_step done p s b0 :
  relink_inv done s -> p ∉ done -> st0 !! p = Some b0 -> (forall q, pprev b0 = Some q -> q ∈ done) ->
  exists s', relink p s = Ok s' /\ relink_inv (p :: done) s' /\ m_block_index s' = m_block_index s /\ m_failed_blocks s' = m_failed_blocks s /\ m_chain s' = m_chain s /\
    pindexBestForkTip s' = pindexBestForkTip s /\ pindexBestForkBase s' = pindexBestForkBase s.
Proof.
  intros Hi Hnd Hst0 Hprev. assert (Hp : entries s !! p = Some b0) by (by rewrite (ri_todo _ _ Hi p Hnd)).
  destruct (relink_spec p s b0 (ri_wf _ _ Hi) (ri_work _ _ Hi) Hp (Hbits p b0 Hst0) (ri_best _ _ Hi)) as (s' & Er & [[skip Ent] Hwf Hc Hu Hb Hrest] & Hwork & Hdirty).
  exists s'. split; [done|]. split; [|done].
  assert (Hother : forall x, x <> p -> entries s' !! x = entries s !! x) by (intros x Hx; by rewrite Ent, lookup_insert_ne).
  assert (Hsame : forall q, q ∈ done -> entries s' !! q = entries s !! q) by (intros q Hq; apply Hother; intros ->; done).
  assert (Hnew : entries s' !! p = Some (set_pskip (summed (pprev b0 ≫= (fun q => entries s' !! q)) b0) skip)).
  { rewrite Ent at 1. rewrite lookup_insert_eq. do 3 f_equal. destruct (pprev b0) as [q|]; [|done]. cbn. symmetry. by apply Hsame, Hprev. }
  split; [done| | | | | | |done].
  - rewrite Ent. by apply map_Forall_insert_2; [|apply Hi].
  - intros x Hx. rewrite not_elem_of_cons in Hx. destruct Hx as [Hne Hx]. rewrite Hother by done. by apply (ri_todo _ _ Hi).
  - intros x [->|Hx]%elem_of_cons.
    + exists b0, skip. split_and!; [done|intros q Hq; apply list_elem_of_further; by apply Hprev|done].
    + destruct (ri_done _ _ Hi x Hx) as (b & k & Hb0 & Hq & E). exists b, k. split_and!; [done|intros q Hq'; apply list_elem_of_further; by apply Hq|].
      rewrite Hsame, E by done. do 3 f_equal. destruct (pprev b) as [q|]; [|done]. cbn. symmetry. by apply Hsame, Hq.
  - intros x. rewrite Hc, (ri_candidates _ _ Hi x), elem_of_cons. split.
    + intros [[Hx (b & Eb & Hb')]|[-> Hb']]; [split; [by right|]; exists b; by rewrite Hsame|]. split; [by left|]. exists (set_pskip (summed (pprev b0 ≫= (fun q => entries s !! q)) b0) skip). by rewrite Ent, lookup_insert_eq.
    + intros [[->|Hx] (b & Eb & Hb')]; [right|left; split; [done|]; exists b; by rewrite <- Hsame].
      rewrite Ent, lookup_insert_eq in Eb. injection Eb as <-. by split.
  - intros q x. rewrite Hu, (ri_unlinked _ _ Hi q x), elem_of_cons.
    assert (Hw : forall b, pprev b = Some q -> q ∈ done -> waiting (entries s') b q <-> waiting (entries s) b q).
    { intros b _ Hq. unfold waiting. by rewrite Hsame. }
    split.
    + intros [[Hx (b & Eb & Hb')]|[-> Hb']].
      * split; [by right|]. exists b. rewrite Hsame by done. split; [done|]. apply Hw; [apply Hb'| |done].
        destruct (ri_done _ _ Hi x Hx) as (b1 & k & _ & Hq & E). rewrite E in Eb. injection Eb as <-. apply Hq, Hb'.
      * split; [by left|]. eexists. split; [rewrite Ent; apply lookup_insert_eq|]. destruct Hb' as [Hq Hb']. apply Hw; [done|by apply Hprev|by split].
    + intros [[->|Hx] (b & Eb & Hb')].
      * right. split; [done|]. rewrite Ent, lookup_insert_eq in Eb. injection Eb as <-. pose proof (proj1 Hb') as Hq. apply Hw in Hb'; [done|done|by apply Hprev].
      * left. split; [done|]. exists b. rewrite <- Hsame by done. split; [done|]. apply Hw; [apply Hb'| |done].
        rewrite Hsame in Eb by done. destruct (ri_done _ _ Hi x Hx) as (b1 & k & _ & Hq & E). rewrite E in Eb. injection Eb as <-. apply Hq, Hb'.
  - intros x. rewrite elem_of_cons.
    assert (Hprev' : forall b1, (forall q, pprev b1 = Some q -> q ∈ done) -> pprev b1 ≫= (fun q => entries s' !! q) = pprev b1 ≫= (fun q => entries s !! q)).
    { intros b1 Hq. destruct (pprev b1) as [q|]; [|done]. cbn. by apply Hsame, Hq. }
    assert (Hold : x ∈ setDirtyBlockIndex s <-> x ∈ done /\ exists b1, st0 !! x = Some b1 /\ inherits_failure (pprev b1 ≫= (fun q => entries s' !! q)) b1 = true).
    { rewrite (ri_dirty _ _ Hi x). split; intros [Hx (b1 & Hb1 & Hf)]; (split; [done|]; exists b1; split; [done|]);
        destruct (ri_done _ _ Hi x Hx) as (b2 & k & Hb2 & Hq & _); simplify_eq; by rewrite Hprev' in *. }
    transitivity (x ∈ setDirtyBlockIndex s \/ x = p /\ inherits_failure (pprev b0 ≫= (fun q => entries s !! q)) b0 = true).
    { rewrite Hdirty. destruct (inherits_failure _ _); [rewrite elem_of_union, elem_of_singleton; tauto|]. split; [by left|]. by intros [?|[_ ?]]. }
    rewrite <- (Hprev' b0 Hprev), Hold. split.
    + intros [[Hx He]|[-> Hf]]; [by split; [right|]|]. split; [by left|]. by exists b0.
    + intros [[->|Hx] He]; [right|left; by split]. split; [done|]. destruct He as (b1 & Hb1 & Hf). by simplify_eq.
Qed.

Lemma relink_all_spec l done s :
  relink_inv done s -> NoDup l -> (forall p, p ∈ l -> p ∉ done) -> (forall p, is_Some (st0 !! p) <-> p ∈ done \/ p ∈ l) -> wf_store st0 ->
  StronglySorted (height_le st0) l ->
  exists s', relink_all l s = Ok s' /\ relink_inv (rev l ++ done) s' /\ m_block_index s' = m_block_index s /\ m_failed_blocks s' = m_failed_blocks s /\ m_chain s' = m_chain s /\
    pindexBestForkTip s' = pindexBestForkTip s /\ pindexBestForkBase s' = pindexBestForkBase s.
Proof.
  intros Hi Hnd Hdisj Hall Hwf. revert done s Hi Hdisj Hall. induction l as [|p l IH]; intros done s Hi Hdisj Hall Hs; [by exists s|].
  apply NoDup_cons in Hnd as [Hni Hnd]. apply StronglySorted_inv in Hs as [Hs Hle]. rewrite Forall_forall in Hle. cbn [relink_all rev].
  destruct (proj2 (Hall p) ltac:(right; apply list_elem_of_here)) as [b0 Hst0].
  destruct (relink_step done p s b0 Hi) as (s1 & -> & Hi1 & E1).
  - apply Hdisj, list_elem_of_here.
  - done.
  - intros q Hq. pose proof (wf_pprev _ _ _ (Hwf p b0 Hst0)) as Hw. rewrite Hq in Hw. destruct Hw as (bq & Hbq & Hh).
    destruct (proj1 (Hall q) ltac:(by eexists)) as [Hd|[->|Hin]%elem_of_cons]; [done| |].
    + rewrite Hst0 in Hbq. injection Hbq as <-. lia.
    + specialize (Hle q Hin). unfold height_le, height_of in Hle. rewrite Hst0, Hbq in Hle. cbn in Hle. lia.
  - cbn [obind]. destruct (IH Hnd (p :: done) s1 Hi1) as (s2 & -> & Hi2 & E2); [| |done|].
    + intros x Hx. rewrite not_elem_of_cons. split; [by intros ->|]. apply Hdisj. by apply list_elem_of_further.
    + intros x. rewrite Hall, !elem_of_cons. tauto.
    + exists s2. split; [done|]. rewrite <- app_assoc. cbn [app]. split; [done|]. destruct E2 as (-> & -> & -> & -> & ->). exact E1.
Qed.

End relink.

(** ** Loading the tree *)

(** [b] is the entry of [hash] that was stored as [d]. *)
Record restored (s : ChainState) (hash : uint256) (d : CDiskBlockIndex) (b : CBlockIndex) : Prop := {
  restored_hash : phashBlock b = Some hash;
  restored_prev : pprev b = prev_ptr (m_block_index s) (hashPrev d);
  restored_entry : exists skip, b = set_pskip (summed (pprev b ≫= (fun q => entries s !! q))
    (set_loaded (prev_ptr (m_block_index s) (hashPrev d)) (di_index (on_disk d)) (blank hash))) skip }.

#[local] Instance height_le_total st : Total (height_le st).
Proof. intros p q. unfold height_le. lia. Qed.

#[local] Instance height_le_trans st : Transitive (height_le st).
Proof. intros p q r. unfold height_le. lia. Qed.

Lemma relink_start st idx seen : wf_store st -> works st -> relink_inv st [] (loading st idx seen).
Proof.
  intros Hwf Hw. split; cbn [entries loading setBlockIndexCandidates m_blocks_unlinked pindexBestHeader pindexBestInvalid setDirtyBlockIndex]; [done|done|done| | | | |].
  - by intros p ?%elem_of_nil.
  - intros p. split; [by intros ?%elem_of_empty|by intros [?%elem_of_nil _]].
  - intros q p. split; [by intros ?%elem_of_nil|by intros [?%elem_of_nil _]].
  - intros p. split; [by intros ?%elem_of_empty|by intros [?%elem_of_nil _]].
  - by repeat constructor.
Qed.

Lemma IsValid_true b level : IsValid b level = Ok true -> level <= Z.land (nStatus b) BLOCK_VALID_MASK.
Proof. unfold IsValid. destruct (negb _); [done|]. destruct (negb _); [done|]. intros [= H']. by apply Z.leb_le. Qed.

(** Where the status is not the stored one, the entry is to be written again. *)
Record marks_changes (s : ChainState) : Prop := {
  marks_present p : p ∈ setDirtyBlockIndex s -> is_Some (entries s !! p);
  marks_status h d p b : m !! h = Some d -> m_block_index s !! h = Some p -> entries s !! p = Some b -> p ∉ setDirtyBlockIndex s ->
    nStatus b = nStatus (di_index d) }.

(** The state after all entries were linked *)
Lemma loaded_tree_ok st idx s done :
  load_inv m st idx -> relink_inv st done s -> m_block_index s = idx -> m_failed_blocks s = ∅ -> m_chain s = [] ->
  pindexBestForkTip s = None -> pindexBestForkBase s = None -> (forall p, p ∈ done <-> is_Some (st !! p)) ->
  tree_ok s /\ (forall h : uint256, is_Some (m_block_index s !! h) <-> is_Some (m !! h)) /\
  (forall (h : uint256) d, m !! h = Some d -> exists p b, m_block_index s !! h = Some p /\ entries s !! p = Some b /\ restored s h d b) /\
  (forall p, p ∈ setBlockIndexCandidates s <-> exists b, entries s !! p = Some b /\ candidate b) /\
  (forall q p, (q, p) ∈ m_blocks_unlinked s <-> exists b, entries s !! p = Some b /\ waiting (entries s) b q) /\
  marks_changes s.
Proof.
  intros Hi Hr Ex Ef Ec Eft Efb Hdone. destruct (loaded_store st idx Hi) as [_ Hents].
  assert (Hin : forall p b, entries s !! p = Some b -> p ∈ done).
  { intros p b Hp. destruct (decide (p ∈ done)) as [|Hn]; [done|]. rewrite (ri_todo _ _ _ Hr p Hn) in Hp. apply Hdone. by eexists. }
  assert (Hrest : forall p b, entries s !! p = Some b -> exists h d, idx !! h = Some p /\ m !! h = Some d /\ restored s h d b).
  { intros p b Hp. destruct (ri_done _ _ _ Hr p (Hin p b Hp)) as (b0 & skip & Hb0 & _ & E). rewrite E in Hp. injection Hp as <-.
    destruct (Hents p b0 Hb0) as (h & d & Hh & Hd & ->). exists h, d. split_and!; [done|done|].
    assert (E0 : entry_of m idx h = set_loaded (prev_ptr idx (hashPrev d)) (di_index (on_disk d)) (blank h)) by (unfold entry_of; by rewrite Hd).
    rewrite E0. split; [done|by rewrite Ex|exists skip; by rewrite Ex]. }
  assert (Hfind : forall (h : uint256) p, idx !! h = Some p -> exists b, entries s !! p = Some b /\ phashBlock b = Some h).
  { intros h p Hp. pose proof (li_entry _ _ _ Hi h p Hp) as Hb0. destruct (ri_done _ _ _ Hr p) as (b0 & skip & Hb0' & _ & E); [apply Hdone; by eexists|].
    rewrite Hb0 in Hb0'. injection Hb0' as <-. eexists. split; [exact E|]. apply entry_of_hash. }
  assert (Hidx : forall (h : uint256) p, idx !! h = Some p <-> exists b, entries s !! p = Some b /\ phashBlock b = Some h).
  { intros h p. split; [by apply Hfind|]. intros (b & Hp & Hb). destruct (Hrest p b Hp) as (h' & d & Hh & _ & Hres). rewrite (restored_hash _ _ _ _ Hres) in Hb. congruence. }
  assert (Hc : forall p, p ∈ setBlockIndexCandidates s <-> exists b, entries s !! p = Some b /\ candidate b).
  { intros p. rewrite (ri_candidates _ _ _ Hr p). split; [by intros [_ ?]|]. intros (b & Hp & Hb). split; [by apply (Hin p b)|by exists b]. }
  assert (Hu : forall q p, (q, p) ∈ m_blocks_unlinked s <-> exists b, entries s !! p = Some b /\ waiting (entries s) b q).
  { intros q p. rewrite (ri_unlinked _ _ _ Hr q p). split; [by intros [_ ?]|]. intros (b & Hp & Hb). split; [by apply (Hin p b)|by exists b]. }
  assert (Hmarks : marks_changes s).
  { split.
    - intros p [Hp _]%(ri_dirty _ _ _ Hr). destruct (ri_done _ _ _ Hr p Hp) as (b0 & skip & _ & _ & E). by eexists.
    - intros h d p b Hd Hp Hb Hnd. rewrite Ex in Hp. destruct (ri_done _ _ _ Hr p (Hin p b Hb)) as (b0 & skip & Hb0 & _ & E). rewrite E in Hb. injection Hb as <-.
      assert (Hf : inherits_failure (pprev b0 ≫= (fun q => entries s !! q)) b0 = false).
      { apply not_true_is_false. intros Hf. apply Hnd, (ri_dirty _ _ _ Hr). split; [by apply (Hin p _ E)|by exists b0]. }
      cbn [nStatus set_pskip summed set_sums]. rewrite Hf. rewrite (li_entry _ _ _ Hi h p Hp) in Hb0. injection Hb0 as <-.
      unfold entry_of. by rewrite Hd. }
  split; [|split; [|split; [|done]]].
  - split; [apply Hr|apply Hr|left; done| | | |by rewrite Ex|intros p; by rewrite Ef| ].
    + intros p b q bq Hp Hn Hq Hbq. destruct (Hrest p b Hp) as (h & d & _ & Hd & [_ _ [skip E]]). rewrite Hq in E. cbn [mbind option_bind] in E. rewrite Hbq in E.
      rewrite E in Hn. cbn [nChainTx set_pskip summed set_sums] in Hn. unfold chain_tx, HaveTxsDownloaded in Hn.
      destruct (0 <? _); [|done]. destruct (nChainTx bq =? 0) eqn:E0; [done|]. by apply Z.eqb_neq.
    + intros p (b & Hp & Hv & Hn)%Hc. exists b. split; [done|]. destruct Hn as [|Hn]; [done|]. destruct (Hrest p b Hp) as (h & d & _ & Hd & [_ _ [skip E]]).
      rewrite Hn in E. cbn [mbind option_bind] in E. pose proof (dok_tx _ _ _ (Hdisk h d Hd)) as Htx.
      assert (Hs : nStatus b = nStatus (di_index d)) by (rewrite E; cbn [nStatus set_pskip summed set_sums]; unfold inherits_failure; by rewrite andb_false_r).
      apply IsValid_true in Hv. rewrite Hs in Hv. specialize (Htx Hv).
      rewrite E. cbn [nChainTx set_pskip summed set_sums]. unfold chain_tx. cbn [nTx set_loaded di_index on_disk]. rewrite (proj2 (Z.ltb_lt 0 _)) by done. cbn [fst]. lia.
    + intros q p (b & Hp & Hw & _)%Hu. by exists b.
    + pose proof (ri_best _ _ _ Hr) as Hbest. apply Forall_cons_iff in Hbest as [H1 H2]. apply Forall_cons_iff in H2 as [H2 _]. rewrite Eft, Efb. by repeat apply Forall_cons_2.
  - intros h. rewrite Ex. split; [apply Hi|]. intros Hh. by apply (li_done _ _ _ Hi).
  - intros h d Hd. destruct (li_done _ _ _ Hi h) as [p Hp]; [by eexists|]. destruct (Hfind h p Hp) as (b & Hb & _). exists p, b. rewrite Ex. split_and!; [done|done|].
    destruct (Hrest p b Hb) as (h' & d' & Hh' & Hd' & Hres). rewrite (load_inj m st idx h h' p Hi Hp Hh') in *. rewrite Hd in Hd'. by injection Hd' as <-.
Qed.

(** The tree is rebuilt from the entries that are stored. *)
Lemma LoadBlockIndex_spec v :
  tree_db v m ->
  exists s, LoadBlockIndex params v empty_state = Ok (true, s) /\ tree_ok s /\ (forall h : uint256, is_Some (m_block_index s !! h) <-> is_Some (m !! h)) /\
    (forall (h : uint256) d, m !! h = Some d -> exists p b, m_block_index s !! h = Some p /\ entries s !! p = Some b /\ restored s h d b) /\
    (forall p, p ∈ setBlockIndexCandidates s <-> exists b, entries s !! p = Some b /\ candidate b) /\
    (forall q p, (q, p) ∈ m_blocks_unlinked s <-> exists b, entries s !! p = Some b /\ waiting (entries s) b q) /\
    marks_changes s.
Proof.
  intros Hv. destruct (LoadBlockIndexGuts_spec v Hv) as (st & idx & seen & Eg & Hi). unfold LoadBlockIndex. rewrite Eg. cbn [obind entries loading m_block_index].
  destruct (loaded_store st idx Hi) as [Hwf Hents]. set (l := map snd (map_to_list idx)).
  assert (Hl : forall p, is_Some (st !! p) <-> p ∈ l).
  { intros p. unfold l. rewrite list_elem_of_In, in_map_iff. split.
    - intros [b Hp]. destruct (Hents p b Hp) as (h & d & Hh & _). exists (h, p). split; [done|]. by apply list_elem_of_In, elem_of_map_to_list.
    - intros ([h p'] & <- & Hin). apply list_elem_of_In, elem_of_map_to_list in Hin. exists (entry_of m idx h). by apply (li_entry _ _ _ Hi). }
  assert (Hnd : NoDup l).
  { apply (NoDup_fmap_2_strong snd); [|apply NoDup_map_to_list]. intros [h p] [h' p'] H1 H2 E. apply elem_of_map_to_list in H1, H2. cbn in E. subst p'.
    by rewrite (load_inj m st idx h h' p Hi H1 H2). }
  assert (Hworks : works st).
  { intros p b Hp. destruct (Hents p b Hp) as (h & d & _ & Hd & ->). unfold entry_of. rewrite Hd. apply zero_wf. }
  assert (Hb : map_Forall (fun _ b => in_u 32 (nBits b)) st).
  { intros p b Hp. destruct (Hents p b Hp) as (h & d & _ & Hd & ->). unfold entry_of. rewrite Hd. apply (disk_words _ (dok_valid _ _ _ (Hdisk h d Hd))). }
  assert (HP : merge_sort (height_le st) l ≡ₚ l) by apply merge_sort_Permutation.
  destruct (relink_all_spec st Hb (merge_sort (height_le st) l) [] (loading st idx seen) (relink_start st idx seen Hwf Hworks)) as (s & Er & Hr & Ex & Ef & Ec & Eft & Efb).
  - by rewrite HP.
  - by intros p _ ?%elem_of_nil.
  - intros p. rewrite HP, Hl. split; [by right|]. by intros [?%elem_of_nil|].
  - done.
  - apply StronglySorted_merge_sort; apply _.
  - cbn [m_block_index m_failed_blocks m_chain pindexBestForkTip pindexBestForkBase loading] in *. rewrite Er. cbn [obind]. exists s. split; [done|].
    apply (loaded_tree_ok st idx s (rev (merge_sort (height_le st) l) ++ [])); [done|done|done|done|done|done|done|]. intros p. by rewrite app_nil_r, list_elem_of_In, <- in_rev, <- list_elem_of_In, HP, Hl.
Qed.

End load.

(** ** Writing the tree *)

Lemma Serialize_on_disk n d : Serialize_CDiskBlockIndex n (on_disk d) = Serialize_CDiskBlockIndex n d.
Proof.
  unfold Serialize_CDiskBlockIndex, on_disk. cbn [di_index hashPrev Chain.nHeight nStatus nTx nFile nDataPos nUndoPos nMoneySupply idx_nVersion idx_hashMerkleRoot nTime nBits
    idx_nNonce idx_hashStateRoot idx_hashUTXORoot nStakeModifier prevoutStake hashProof idx_vchBlockSig].
  by destruct (has_bit (nStatus (di_index d)) (Z.lor _ _)), (has_bit _ BLOCK_HAVE_DATA), (has_bit _ BLOCK_HAVE_UNDO).
Qed.

Lemma valid_on_disk d : valid_disk d -> valid_disk (on_disk d).
Proof.
  intros [Hh Hs Ht Hf [Hd Hu] Hm Hver Hw Hhs Hst Hsig]. split; cbn; try done.
  - destruct (has_bit _ _); lia.
  - destruct (has_bit _ BLOCK_HAVE_DATA), (has_bit _ BLOCK_HAVE_UNDO); lia.
Qed.

Section write.
Context `{Laws : LevelDBLaws D}.
Context (_nVersion : Z).

Lemma plain_fold {A} (kf vf : A -> bytes) (v : CDBWrapper D) l batch :
  map (plain (obfuscate_key v)) (batch_ops (fold_left (fun batch x => batch_Write v (kf x) (vf x) batch) l batch)) =
  map (plain (obfuscate_key v)) (batch_ops batch) ++ map (fun x => Put (kf x) (vf x)) l.
Proof. revert batch. induction l as [|x l IH]; intros batch; cbn [fold_left map]; [by rewrite app_nil_r|]. by rewrite IH, plain_Write, <- app_assoc. Qed.

Lemma fold_index_puts (h : uint256) l r :
  NoDup l.*1 -> fold_left (apply_op (index_key h)) (map (fun x => Put (index_key (fst x)) (Serialize_CDiskBlockIndex _nVersion (snd x))) l) r =
  match (list_to_map l : gmap uint256 CDiskBlockIndex) !! h with Some d => Some (Serialize_CDiskBlockIndex _nVersion d) | None => r end.
Proof.
  revert r. induction l as [|[h' d] l IH]; intros r Hnd; [done|]. cbn [fmap list_fmap fst] in Hnd. apply NoDup_cons in Hnd as [Hni Hnd].
  cbn [map fold_left apply_op fst snd]. rewrite IH by done. cbn [list_to_map foldr uncurry fst snd]. destruct (decide (h' = h)) as [->|Hne].
  - rewrite lookup_insert_eq, (proj1 (not_elem_of_list_to_map l h)), bool_decide_eq_true_2 by done. done.
  - rewrite lookup_insert_ne by done. destruct (list_to_map l !! h); [done|]. rewrite bool_decide_eq_false_2; [done|]. unfold index_key, Serialize_uint256. congruence.
Qed.

(** The entries that are written replace those that were stored. *)
Lemma WriteBatchSync_spec files last st blockinfo l (v : CDBWrapper D) :
  disk_entries st blockinfo = Ok l -> NoDup l.*1 ->
  exists v', WriteBatchSync _nVersion files last st blockinfo v = Ok v' /\
    (forall h : uint256, value (index_key h) v' =
      match (list_to_map l : gmap uint256 CDiskBlockIndex) !! h with Some d => Some (Serialize_CDiskBlockIndex _nVersion d) | None => value (index_key h) v end) /\
    (forall k x, value k v' = Some x -> head k = Some DB_BLOCK_INDEX -> value k v = Some x \/ exists h d, (h, d) ∈ l /\ k = index_key h).
Proof.
  intros El Hnd. unfold WriteBatchSync. rewrite El. cbn [obind]. eexists. split; [reflexivity|]. set (b := fold_left _ l _).
  set (puts := map (fun x => Put (file_key (fst x)) (Serialize_CBlockFileInfo (snd x))) files ++ [Put [DB_LAST_BLOCK] (Serialize_int32 last)]).
  set (entry := fun x : uint256 * CDiskBlockIndex => Put (index_key (fst x)) (Serialize_CDiskBlockIndex _nVersion (snd x))).
  assert (Eb : map (plain (obfuscate_key v)) (batch_ops b) = puts ++ map entry l).
  { unfold b, puts. rewrite plain_fold, plain_Write, plain_fold. done. }
  assert (Hputs : Forall (fun op => head (op_key op) <> Some DB_BLOCK_INDEX) puts).
  { unfold puts. apply Forall_app. split; [|by constructor]. apply Forall_map. by apply Forall_forall. }
  split.
  - intros h. rewrite value_WriteBatch, Eb, fold_left_app. rewrite (fold_ops_absent (index_key h) puts), (fold_index_puts h); [done|done|].
    eapply Forall_impl; [exact Hputs|]. intros op Hop E. apply Hop. exact (f_equal (@head Z) E).
  - intros k x Hx Hk. rewrite value_WriteBatch, Eb in Hx. destruct (fold_ops_cases k (puts ++ map entry l) (value k v)) as [E|[E|(y & Hy & E)]]; rewrite E in Hx; [by left|done|].
    right. apply elem_of_app in Hy as [Hy|Hy].
    + rewrite Forall_forall in Hputs. by destruct (Hputs _ Hy).
    + apply list_elem_of_In, in_map_iff in Hy as ([h d] & [= <- _] & Hin). exists h, d. split; [by apply list_elem_of_In|done].
Qed.

End write.

(** ** A restart *)

(** What is stored of the tree *)
Definition disk_entry (s : ChainState) (p : ptr) : option CDiskBlockIndex :=
  b ← entries s !! p ; match CDiskBlockIndex_of (entries s) b with Ok d => Some d | _ => None end.

Definition disk_tree (s : ChainState) : gmap uint256 CDiskBlockIndex := omap (disk_entry s) (m_block_index s).

(** [b] is an entry of [s] that a start can read: it has the hash of its header, and passed the checks of its work. *)
Record storable (params : Params) (s : ChainState) (b : CBlockIndex) (d : CDiskBlockIndex) : Prop := {
  storable_disk : CDiskBlockIndex_of (entries s) b = Ok d;
  storable_valid : valid_disk d;
  storable_hash : phashBlock b = Some (disk_GetBlockHash d);
  storable_null : blob_IsNull (disk_GetBlockHash d) = false;
  storable_proof : IsProofOfStake b = true \/ CheckProofOfWork (disk_GetBlockHash d) (nBits b) params = true;
  storable_tx : BLOCK_VALID_TRANSACTIONS <= Z.land (nStatus b) BLOCK_VALID_MASK -> 0 < nTx b }.

Definition storable_tree (params : Params) (s : ChainState) : Prop := forall p b, entries s !! p = Some b -> exists d, storable params s b d.

(** The sums of [b] are those over its ancestors. *)
Record sums (prev : option CBlockIndex) (b : CBlockIndex) : Prop := {
  sums_work : nChainWork b = chain_work prev b;
  sums_time : nTimeMax b = match prev with Some bp => Z.max (nTimeMax bp) (nTime b) | None => nTime b end;
  sums_tx : nChainTx b = if 0 <? nTx b then fst (chain_tx prev b) else 0 }.

Definition sums_tree (s : ChainState) : Prop := forall p b, entries s !! p = Some b -> sums (pprev b ≫= (fun q => entries s !! q)) b.

Lemma disk_of_index st b d : CDiskBlockIndex_of st b = Ok d -> di_index d = b.
Proof. unfold CDiskBlockIndex_of. destruct (pprev b) as [q|]; [|by intros [= <-]]. destruct (deref st q) as [bq| |]; [|done..]. cbn [obind]. destruct (GetBlockHash bq); [|done..]. by intros [= <-]. Qed.

(** The hash of the parent of a stored entry *)
Lemma disk_of_prev params s b d : storable_tree params s -> CDiskBlockIndex_of (entries s) b = Ok d ->
  match pprev b with
  | None => hashPrev d = uint256_null
  | Some q => exists bq, entries s !! q = Some bq /\ phashBlock bq = Some (hashPrev d) /\ blob_IsNull (hashPrev d) = false
  end.
Proof.
  intros Hs. unfold CDiskBlockIndex_of. destruct (pprev b) as [q|]; [|intros [= <-]; reflexivity]. unfold deref. destruct (entries s !! q) as [bq|] eqn:Eq; [|done]. cbn [of_option obind].
  destruct (Hs q bq Eq) as [dq [_ _ Hh Hn _ _]]. unfold GetBlockHash. rewrite Hh. cbn [of_option obind]. intros [= <-]. exists bq. split; [reflexivity|]. split; [exact Hh|exact Hn].
Qed.

Lemma disk_tree_lookup params s (h : uint256) d : tree_ok s -> storable_tree params s ->
  disk_tree s !! h = Some d <-> exists p b, m_block_index s !! h = Some p /\ entries s !! p = Some b /\ storable params s b d.
Proof.
  intros Hok Hs. unfold disk_tree. rewrite lookup_omap_Some. split.
  - intros (p & Hd & Hp). exists p. apply (tree_index _ Hok) in Hp as Hp'. destruct Hp' as (b & Hb & _). exists b. split_and!; [done|done|].
    unfold disk_entry in Hd. rewrite Hb in Hd. cbn [mbind option_bind] in Hd. destruct (Hs p b Hb) as [d' Hd']. pose proof (storable_disk _ _ _ _ Hd') as E.
    rewrite E in Hd. by injection Hd as <-.
  - intros (p & b & Hp & Hb & Hd). exists p. split; [|done]. unfold disk_entry. rewrite Hb. cbn [mbind option_bind]. by rewrite (storable_disk _ _ _ _ Hd).
Qed.

Lemma disk_tree_ok params s : tree_ok s -> storable_tree params s -> map_Forall (disk_ok params (disk_tree s)) (disk_tree s).
Proof.
  intros Hok Hs h d Hd. apply (disk_tree_lookup params) in Hd as (p & b & Hp & Hb & Hst); [|done..].
  destruct Hst as [Ed Hv Hh Hn Hw Ht]. pose proof (disk_of_index _ _ _ Ed) as Ei.
  assert (E : disk_GetBlockHash d = h) by (apply (tree_index _ Hok) in Hp as (b' & Hb' & Hh'); congruence).
  rewrite E in *. split; [done|done|done| |by rewrite Ei|by rewrite Ei].
  pose proof (disk_of_prev params s b d Hs Ed) as Hprev. pose proof (wf_pprev _ _ _ (tree_wf _ Hok p b Hb)) as Hq. rewrite Ei. destruct (pprev b) as [q|] eqn:Eq.
  - destruct Hprev as (bq & Hbq & Hhq & ->). destruct (Hs q bq Hbq) as [dq Hdq]. exists dq. split.
    + apply (disk_tree_lookup params); [done..|]. exists q, bq. split_and!; [|done|done]. apply (tree_index _ Hok). by exists bq.
    + rewrite (disk_of_index _ _ _ (storable_disk _ _ _ _ Hdq)). destruct Hq as (bq' & Hbq' & E'). congruence.
  - rewrite Hprev. exact Hq.
Qed.

Section restart.
Context (params : Params) (cs s : ChainState).
Hypothesis Hcs : tree_ok cs.
Hypothesis Hstorable : storable_tree params cs.
Hypothesis Hs : tree_ok s.
Hypothesis Hrestored : forall (h : uint256) d, disk_tree cs !! h = Some d -> exists p b, m_block_index s !! h = Some p /\ entries s !! p = Some b /\ restored s h d b.

Definition parent_hash (s : ChainState) (b : CBlockIndex) : option uint256 := q ← pprev b ; bq ← entries s !! q ; phashBlock bq.

(** [b'] in [s] is what a restart makes of the entry [b] of [cs]. *)
Record reloaded (b b' : CBlockIndex) : Prop := {
  reloaded_hash : phashBlock b' = phashBlock b;
  reloaded_parent : parent_hash s b' = parent_hash cs b;
  reloaded_counts : (Chain.nHeight b', nTx b', nMoneySupply b') = (Chain.nHeight b, nTx b, nMoneySupply b);
  reloaded_header : (idx_nVersion b', idx_hashMerkleRoot b', nTime b', nBits b', idx_nNonce b', idx_hashStateRoot b', idx_hashUTXORoot b') =
    (idx_nVersion b, idx_hashMerkleRoot b, nTime b, nBits b, idx_nNonce b, idx_hashStateRoot b, idx_hashUTXORoot b);
  reloaded_stake : (prevoutStake b', idx_vchBlockSig b', nStakeModifier b') = (prevoutStake b, idx_vchBlockSig b, nStakeModifier b);
  reloaded_data : has_bit (nStatus b) BLOCK_HAVE_DATA = true -> nFile b' = nFile b /\ nDataPos b' = nDataPos b;
  reloaded_undo : has_bit (nStatus b) BLOCK_HAVE_UNDO = true -> nFile b' = nFile b /\ nUndoPos b' = nUndoPos b;
  reloaded_status : nStatus b' = if inherits_failure (pprev b' ≫= (fun q => entries s !! q)) b then Z.lor (nStatus b) BLOCK_FAILED_CHILD else nStatus b;
  reloaded_proof : hashProof b' = uint256_null }.

Lemma has_either status a b : has_bit status a = true \/ has_bit status b = true -> has_bit status (Z.lor a b) = true.
Proof.
  unfold has_bit. rewrite !negb_true_iff, !Z.eqb_neq, Z.land_lor_distr_r. intros H E. apply Z.lor_eq_0_iff in E. tauto.
Qed.

(** The parents of an entry and of what is left of it *)
Lemma reloaded_prev (b : CBlockIndex) d : CDiskBlockIndex_of (entries cs) b = Ok d ->
  match pprev b with
  | None => prev_ptr (m_block_index s) (hashPrev d) = None
  | Some q => exists bq q' bq', entries cs !! q = Some bq /\ prev_ptr (m_block_index s) (hashPrev d) = Some q' /\ entries s !! q' = Some bq' /\
      phashBlock bq = Some (hashPrev d) /\ phashBlock bq' = Some (hashPrev d)
  end.
Proof.
  intros Hd. pose proof (disk_of_prev params cs b d Hstorable Hd) as Hp. destruct (pprev b) as [q|]; [|by rewrite Hp].
  destruct Hp as (bq & Hbq & Hh & Hn). destruct (Hstorable q bq Hbq) as [dq Hdq].
  destruct (Hrestored (hashPrev d) dq) as (q' & bq' & Hq' & Hbq' & _).
  - apply (disk_tree_lookup params); [done..|]. exists q, bq. split_and!; [|done|done]. apply (tree_index _ Hcs). by exists bq.
  - exists bq, q', bq'. unfold prev_ptr. rewrite Hn. split_and!; [done|done|done|done|]. apply (tree_index _ Hs) in Hq' as (x & Hx & Hhx). congruence.
Qed.

Lemma reloaded_entry (h : uint256) p b :
  m_block_index cs !! h = Some p -> entries cs !! p = Some b -> exists p' b', m_block_index s !! h = Some p' /\ entries s !! p' = Some b' /\ reloaded b b'.
Proof.
  intros Hp Hb. destruct (Hstorable p b Hb) as [d Hd]. pose proof (storable_disk _ _ _ _ Hd) as Ed. pose proof (disk_of_index _ _ _ Ed) as Ei.
  destruct (Hrestored h d) as (p' & b' & Hp' & Hb' & Hr); [apply (disk_tree_lookup params); [done..|]; by exists p, b|].
  exists p', b'. split_and!; [done|done|]. destruct Hr as [Hh Hprev [skip E]]. subst b.
  assert (Hhb : phashBlock (di_index d) = Some h) by (apply (tree_index _ Hcs) in Hp as (x & Hx & ?); congruence).
  split; [congruence| | | | | | | |].
  - unfold parent_hash. rewrite Hprev. pose proof (reloaded_prev (di_index d) d Ed) as Hq. destruct (pprev (di_index d)) as [q|].
    + destruct Hq as (bq & q' & bq' & Hbq & -> & Hbq' & Hh1 & Hh2). cbn [mbind option_bind]. rewrite Hbq, Hbq'. cbn [mbind option_bind]. congruence.
    + by rewrite Hq.
  - by rewrite E.
  - by rewrite E.
  - by rewrite E.
  - intros Hbit. rewrite E. cbn [nFile nDataPos set_pskip summed set_sums set_loaded di_index on_disk]. by rewrite Hbit, has_either by auto.
  - intros Hbit. rewrite E. cbn [nFile nUndoPos set_pskip summed set_sums set_loaded di_index on_disk]. by rewrite Hbit, has_either by auto.
  - rewrite E at 1. by cbn [nStatus set_pskip summed set_sums set_loaded di_index on_disk].
  - by rewrite E.
Qed.

(** The sums of what was loaded *)
Lemma restored_sums (h : uint256) d b' : restored s h d b' -> sums (pprev b' ≫= (fun q => entries s !! q)) b'.
Proof.
  intros [_ _ [skip E]]. set (prev := pprev b' ≫= _) in *. clearbody prev. subst b'. split; [done|done|].
  set (b0 := set_loaded _ _ _). assert (E0 : nChainTx b0 = 0) by done. clearbody b0. change (fst (chain_tx prev b0) = if 0 <? nTx b0 then fst (chain_tx prev (set_pskip (summed prev b0) skip)) else 0).
  unfold chain_tx. change (nTx (set_pskip (summed prev b0) skip)) with (nTx b0). by destruct (0 <? nTx b0).
Qed.

(** Equal parents give equal sums. *)
Lemma sums_equal prev prev' b b' :
  sums prev b -> sums prev' b' -> reloaded b b' -> (fun x => (nChainWork x, nTimeMax x, nChainTx x)) <$> prev' = (fun x => (nChainWork x, nTimeMax x, nChainTx x)) <$> prev ->
  (nChainWork b', nTimeMax b', nChainTx b') = (nChainWork b, nTimeMax b, nChainTx b).
Proof.
  intros [Hw Ht Hx] [Hw' Ht' Hx'] [_ _ Hc Hh _ _ _ _ _] E. injection Hc as _ Hc _. injection Hh as _ _ Hh Hb _ _ _.
  assert (Ep : GetBlockProof b' = GetBlockProof b) by (unfold GetBlockProof; by rewrite Hb).
  rewrite Hw, Hw', Ht, Ht', Hx, Hx'. unfold chain_work, chain_tx, HaveTxsDownloaded. rewrite Ep, Hc, Hh. destruct (0 <? nTx b);
    (destruct prev as [bp|], prev' as [bp'|]; cbn in E; [injection E as E1 E2 E3; rewrite ?E1, ?E2, ?E3|discriminate E|discriminate E|]; reflexivity).
Qed.

Lemma reloaded_sums (n : nat) (h : uint256) p b p' b' :
  sums_tree cs -> Chain.nHeight b < Z.of_nat n -> m_block_index cs !! h = Some p -> entries cs !! p = Some b -> m_block_index s !! h = Some p' -> entries s !! p' = Some b' ->
  (nChainWork b', nTimeMax b', nChainTx b') = (nChainWork b, nTimeMax b, nChainTx b).
Proof.
  intros Hsums. revert h p b p' b'. induction n as [|n IH]; intros h p b p' b' Hn Hp Hb Hp' Hb'; [pose proof (wf_height _ _ _ (tree_wf _ Hcs p b Hb)); lia|].
  destruct (reloaded_entry h p b Hp Hb) as (p2 & b2 & Hp2 & Hb2 & Hre). assert (p2 = p') as -> by congruence. assert (b2 = b') as -> by congruence.
  destruct (Hstorable p b Hb) as [d Hd]. pose proof (storable_disk _ _ _ _ Hd) as Ed.
  destruct (Hrestored h d) as (p3 & b3 & Hp3 & Hb3 & Hr); [apply (disk_tree_lookup params); [done..|]; by exists p, b|].
  assert (p3 = p') as -> by congruence. assert (b3 = b') as -> by congruence.
  apply (sums_equal _ _ b b' (Hsums p b Hb) (restored_sums h d b' Hr) Hre).
  rewrite (restored_prev _ _ _ _ Hr). pose proof (reloaded_prev b d Ed) as Hq. pose proof (wf_pprev _ _ _ (tree_wf _ Hcs p b Hb)) as Hq0. destruct (pprev b) as [q|].
  - destruct Hq as (bq & q' & bq' & Hbq & -> & Hbq' & Hh1 & Hh2). cbn [mbind option_bind]. rewrite Hbq, Hbq'. cbn [fmap option_fmap option_map]. f_equal.
    destruct Hq0 as (bq0 & Hbq0 & Hh0). assert (bq0 = bq) as -> by congruence.
    apply (IH (hashPrev d) q bq q' bq'); [lia| |done| |done]; [apply (tree_index _ Hcs)|apply (tree_index _ Hs)]; eauto.
  - by rewrite Hq.
Qed.

End restart.

(** The database holds the entries of the tree that did not change since, up to
    the hash of the proof. *)
Record synced `{LevelDB D} (s : ChainState) (v : CDBWrapper D) : Prop := {
  synced_dirty p : p ∈ setDirtyBlockIndex s -> is_Some (entries s !! p);
  synced_stored (h : uint256) p d : m_block_index s !! h = Some p -> p ∉ setDirtyBlockIndex s -> disk_tree s !! h = Some d ->
    exists x, value (index_key h) v = Some x /\ stores d x;
  synced_only k x : value k v = Some x -> head k = Some DB_BLOCK_INDEX -> exists h : uint256, is_Some (m_block_index s !! h) /\ k = index_key h }.

Lemma disk_entries_spec params s l : tree_ok s -> storable_tree params s -> Forall (fun p => is_Some (entries s !! p)) l ->
  exists l', disk_entries (entries s) l = Ok l' /\ Forall2 (fun p (x : uint256 * CDiskBlockIndex) => m_block_index s !! fst x = Some p /\ disk_tree s !! fst x = Some (snd x)) l l'.
Proof.
  intros Hok Hs. induction 1 as [|p l [b Hb] _ (l' & IH & Hl')]; [by exists []|]. destruct (Hs p b Hb) as [d Hd]. exists ((disk_GetBlockHash d, d) :: l').
  cbn [disk_entries]. unfold deref, GetBlockHash. rewrite Hb. cbn [of_option obind]. rewrite (storable_hash _ _ _ _ Hd), (storable_disk _ _ _ _ Hd), IH. cbn [of_option obind].
  split; [reflexivity|]. constructor; [|exact Hl']. cbn [fst snd]. assert (Hp : m_block_index s !! disk_GetBlockHash d = Some p).
  { apply (tree_index _ Hok). exists b. split; [exact Hb|apply Hd]. }
  split; [exact Hp|]. apply (disk_tree_lookup params); [exact Hok|exact Hs|]. exists p, b. split; [exact Hp|]. split; [exact Hb|exact Hd].
Qed.

Lemma Forall2_partner {A B} (P : A -> B -> Prop) l k :
  Forall2 P l k -> (forall x, x ∈ l -> exists y, y ∈ k /\ P x y) /\ (forall y, y ∈ k -> exists x, x ∈ l /\ P x y).
Proof.
  induction 1 as [|x y l k HP _ [IHl IHk]]; [by split; intros ? ?%elem_of_nil|]. split.
  - intros z [->|Hz]%elem_of_cons; [exists y; by split; [apply list_elem_of_here|]|]. destruct (IHl z Hz) as (w & Hw & ?). exists w. by split; [apply list_elem_of_further|].
  - intros z [->|Hz]%elem_of_cons; [exists x; by split; [apply list_elem_of_here|]|]. destruct (IHk z Hz) as (w & Hw & ?). exists w. by split; [apply list_elem_of_further|].
Qed.

Lemma entry_hashes_NoDup s l (l' : list (uint256 * CDiskBlockIndex)) :
  Forall2 (fun p x => m_block_index s !! fst x = Some p /\ disk_tree s !! fst x = Some (snd x)) l l' -> NoDup l -> NoDup l'.*1.
Proof.
  induction 1 as [|p x l l' [Hp _] Hl IH]; [constructor|]. intros [Hni Hnd]%NoDup_cons. cbn [fmap list_fmap]. constructor; [|by apply IH].
  intros (y & E & Hy)%list_elem_of_fmap. apply Hni. destruct (proj2 (Forall2_partner _ _ _ Hl) _ Hy) as (q & Hq & Hq' & _). rewrite <- E, Hp in Hq'. by injection Hq' as ->.
Qed.

(** The database after the changed entries were written *)
Lemma synced_flush `{Laws : LevelDBLaws D} _nVersion params files last blockinfo s (v : CDBWrapper D) :
  0 <= _nVersion <= 2 ^ 31 - 1 -> tree_ok s -> storable_tree params s -> synced s v -> blockinfo ≡ₚ elements (setDirtyBlockIndex s) ->
  exists v', WriteBatchSync _nVersion files last (entries s) blockinfo v = Ok v' /\ tree_db v' (disk_tree s).
Proof.
  intros Hver Hok Hs [Hdirty Hstored Honly] HP.
  assert (Hin : forall p, p ∈ blockinfo <-> p ∈ setDirtyBlockIndex s) by (intros p; by rewrite HP, elem_of_elements).
  destruct (disk_entries_spec params s blockinfo Hok Hs) as (l & El & Hl).
  { apply Forall_forall. intros p Hp. by apply Hdirty, Hin. }
  assert (Hnd : NoDup l.*1) by (apply (entry_hashes_NoDup s blockinfo); [done|]; rewrite HP; apply NoDup_elements).
  destruct (WriteBatchSync_spec _nVersion files last (entries s) blockinfo l v El Hnd) as (v' & Ev & Hval & Hkeys). exists v'. split; [exact Ev|]. split.
  - intros h d Hd. rewrite Hval. destruct ((list_to_map l : gmap uint256 CDiskBlockIndex) !! h) as [d'|] eqn:E.
    + apply elem_of_list_to_map in E; [|done]. destruct (proj2 (Forall2_partner _ _ _ Hl) _ E) as (p & _ & _ & Hd'). cbn [fst snd] in Hd'. eexists. split; [reflexivity|].
      assert (d' = d) as -> by congruence. apply stores_own; [exact Hver|]. apply (disk_tree_lookup params) in Hd as (q & b & _ & _ & Hst); [|done..]. apply Hst.
    + apply (disk_tree_lookup params) in Hd as Hd2; [|done..]. destruct Hd2 as (p & b & Hp & Hb & _). apply (Hstored h p); [done| |done].
      intros Hpd. apply Hin in Hpd. destruct (proj1 (Forall2_partner _ _ _ Hl) _ Hpd) as (x & Hx & Hxp & _).
      apply (tree_index _ Hok) in Hp as (b1 & Hb1 & Hh1), Hxp as (b2 & Hb2 & Hh2). assert (Eh : fst x = h) by congruence.
      apply (not_elem_of_list_to_map l h) in E. apply E. rewrite <- Eh. by apply list_elem_of_fmap_2.
  - intros k x Hx Hk. destruct (Hkeys k x Hx Hk) as [Hx'|(h & d & Hd & ->)].
    + destruct (Honly k x Hx' Hk) as (h & [p Hp] & ->). apply (tree_index _ Hok) in Hp as Hp2. destruct Hp2 as (b & Hb & _). destruct (Hs p b Hb) as [d Hd].
      exists h, d. split; [|done]. apply (disk_tree_lookup params); [done..|]. by exists p, b.
    + exists h, d. split; [|done]. by destruct (proj2 (Forall2_partner _ _ _ Hl) _ Hd) as (p & _ & _ & ?).
Qed.

(** ** The tree after a restart is stored *)

Section reopen.
Context `{Iter : LevelDBIteratorLaws D}.
Context (params : Params) (m : gmap uint256 CDiskBlockIndex) (s : ChainState) (v : CDBWrapper D).
Hypothesis Hdisk : map_Forall (disk_ok params m) m.
Hypothesis Hok : tree_ok s.
Hypothesis Hdom : forall h : uint256, is_Some (m_block_index s !! h) <-> is_Some (m !! h).
Hypothesis Hrest : forall (h : uint256) d, m !! h = Some d -> exists p b, m_block_index s !! h = Some p /\ entries s !! p = Some b /\ restored s h d b.

Lemma blob_null (h : uint256) : length h = 32%nat -> blob_IsNull h = true -> h = uint256_null.
Proof.
  intros Hl Hn. unfold blob_IsNull in Hn. rewrite forallb_forall in Hn. apply list_eq_same_length with (n := 32%nat); [done|done|].
  intros i x y _ Hx Hy. apply list_elem_of_lookup_2, list_elem_of_In, Hn, Z.eqb_eq in Hx. subst x.
  apply list_elem_of_lookup_2 in Hy. symmetry. by apply list_elem_of_In, repeat_spec in Hy.
Qed.

Lemma entry_restored p b : entries s !! p = Some b -> exists h d, m !! h = Some d /\ m_block_index s !! h = Some p /\ restored s h d b.
Proof.
  intros Hb. destruct (wf_hash _ _ _ (tree_wf _ Hok p b Hb)) as [h Hh]. assert (Hp : m_block_index s !! h = Some p) by (apply (tree_index _ Hok); by exists b).
  destruct (proj1 (Hdom h)) as [d Hd]; [by eexists|]. exists h, d. destruct (Hrest h d Hd) as (p' & b' & Hp' & Hb' & Hr). simplify_eq. done.
Qed.

(** The entry as it would be stored again *)
Lemma restored_disk (h : uint256) d b : m !! h = Some d -> restored s h d b -> CDiskBlockIndex_of (entries s) b = Ok (mkDisk b (hashPrev d)).
Proof.
  intros Hd [_ Hprev _]. destruct (Hdisk h d Hd) as [Hv _ _ Hp _ _]. unfold CDiskBlockIndex_of. rewrite Hprev. unfold prev_ptr. destruct (blob_IsNull (hashPrev d)) eqn:En.
  - pose proof (disk_hashes _ Hv) as Hh. apply Forall_cons_iff in Hh as [Hl _]. by rewrite (blob_null _ Hl En).
  - destruct Hp as (dp & Hdp & _). destruct (Hrest _ _ Hdp) as (q & bq & Hq & Hbq & Hrq). rewrite Hq. unfold deref, GetBlockHash. rewrite Hbq. cbn [of_option obind].
    by rewrite (restored_hash _ _ _ _ Hrq).
Qed.

Lemma lor_child z : 0 <= z <= 2 ^ 32 - 1 -> 0 <= Z.lor z BLOCK_FAILED_CHILD <= 2 ^ 32 - 1 /\ Z.land (Z.lor z BLOCK_FAILED_CHILD) BLOCK_VALID_MASK = Z.land z BLOCK_VALID_MASK.
Proof.
  intros Hz. split.
  - assert (0 <= Z.lor z BLOCK_FAILED_CHILD) by (apply Z.lor_nonneg; split; [lia|done]). split; [done|].
    assert (Z.lor z BLOCK_FAILED_CHILD < 2 ^ 32); [|lia]. destruct (Z.eq_dec z 0) as [->|Hne]; [done|].
    apply Z.log2_lt_pow2; [pose proof (Z.lor_eq_0_iff z BLOCK_FAILED_CHILD); lia|]. rewrite Z.log2_lor by (lia || done).
    apply Z.max_lub_lt; [apply Z.log2_lt_pow2; lia|done].
  - rewrite Z.land_lor_distr_l. change (Z.land BLOCK_FAILED_CHILD BLOCK_VALID_MASK) with 0. by rewrite Z.lor_0_r.
Qed.

Lemma restored_status (h : uint256) d b : restored s h d b -> nStatus b = nStatus (di_index d) \/ nStatus b = Z.lor (nStatus (di_index d)) BLOCK_FAILED_CHILD.
Proof. intros [_ _ [skip E]]. rewrite E. cbn [nStatus set_pskip summed set_sums]. destruct (inherits_failure _ _); [by right|by left]. Qed.

Lemma restored_valid (h : uint256) d b : m !! h = Some d -> restored s h d b -> valid_disk (mkDisk b (hashPrev d)).
Proof.
  intros Hd Hr. pose proof (restored_status h d b Hr) as Hst. destruct Hr as [_ _ [skip E]].
  destruct (valid_on_disk d (dok_valid _ _ _ _ (Hdisk h d Hd))) as [Hh Hs Ht Hf Hp Hm Hver Hw Hhs Hstk Hsig].
  set (prev := pprev b ≫= _) in E. clearbody prev. split; cbn [di_index hashPrev].
  2: { destruct Hst as [-> | ->]; [exact Hs|]. by apply lor_child. }
  all: rewrite E; cbn [Chain.nHeight nTx nFile nDataPos nUndoPos nMoneySupply idx_nVersion nTime nBits idx_nNonce idx_hashMerkleRoot idx_hashStateRoot idx_hashUTXORoot
    nStakeModifier hashProof prevoutStake idx_vchBlockSig set_pskip summed set_sums set_loaded]; try assumption.
  repeat (apply Forall_cons_iff in Hhs as [? Hhs]). by repeat constructor.
Qed.

Lemma reopen_storable : storable_tree params s.
Proof.
  intros p b Hb. destruct (entry_restored p b Hb) as (h & d & Hd & Hp & Hr). exists (mkDisk b (hashPrev d)).
  pose proof (restored_status h d b Hr) as Hst. destruct (Hdisk h d Hd) as [Hv Hh Hn _ Hw Ht].
  assert (Ehash : disk_GetBlockHash (mkDisk b (hashPrev d)) = h).
  { rewrite <- Hh, <- disk_hash_on_disk. destruct Hr as [_ _ [skip E]]. set (prev := pprev b ≫= _) in E. clearbody prev. subst b. unfold disk_GetBlockHash. reflexivity. }
  split; rewrite ?Ehash; [by apply (restored_disk h d)|by apply (restored_valid h d)|apply Hr|done| |].
  - assert (E : (prevoutStake b, idx_vchBlockSig b, nBits b) = (prevoutStake (di_index d), idx_vchBlockSig (di_index d), nBits (di_index d))) by (destruct Hr as [_ _ [skip ->]]; reflexivity).
    injection E as E1 E2 E3. unfold IsProofOfStake in *. by rewrite E1, E3.
  - assert (E : nTx b = nTx (di_index d)) by (destruct Hr as [_ _ [skip ->]]; reflexivity). rewrite E.
    destruct Hst as [-> | ->]; [exact Ht|]. rewrite (proj2 (lor_child _ (disk_status _ Hv))). exact Ht.
Qed.

Lemma reopen_sums : sums_tree s.
Proof. intros p b Hb. destruct (entry_restored p b Hb) as (h & d & _ & _ & Hr). by apply (restored_sums s h d). Qed.

Lemma restored_same n proof (h : uint256) d b :
  restored s h d b -> nStatus b = nStatus (di_index d) ->
  Serialize_CDiskBlockIndex n (with_proof proof (mkDisk b (hashPrev d))) = Serialize_CDiskBlockIndex n (with_proof proof d).
Proof.
  intros [_ _ [skip E]] Hst. rewrite <- (Serialize_on_disk n (with_proof proof d)). set (prev := pprev b ≫= _) in E. clearbody prev.
  unfold Serialize_CDiskBlockIndex, on_disk, with_proof.
  cbn [di_index hashPrev Chain.nHeight nStatus nTx nFile nDataPos nUndoPos nMoneySupply idx_nVersion idx_hashMerkleRoot nTime nBits
    idx_nNonce idx_hashStateRoot idx_hashUTXORoot nStakeModifier prevoutStake hashProof idx_vchBlockSig]. rewrite Hst. rewrite E.
  reflexivity.
Qed.

Lemma reopen_synced : tree_db v m -> marks_changes m s -> synced s v.
Proof.
  intros Hv [Hpres Hmarks]. split.
  - exact Hpres.
  - intros h p d2 Hp Hnd Hd2. apply (disk_tree_lookup params) in Hd2 as (p' & b & Hp' & Hb & Hst); [|exact Hok|exact reopen_storable].
    assert (p' = p) as -> by congruence. destruct (entry_restored p b Hb) as (h' & d & Hd & Hp2 & Hr).
    assert (h' = h) as -> by (apply (tree_index _ Hok) in Hp as (b1 & Hb1 & Hh1), Hp2 as (b2 & Hb2 & Hh2); congruence).
    pose proof (storable_disk _ _ _ _ Hst) as Ed. rewrite (restored_disk h d b Hd Hr) in Ed. injection Ed as <-.
    destruct (tree_db_entries _ _ Hv h d Hd) as (x & Hx & n & proof & Hn & Hl & ->). eexists. split; [exact Hx|]. exists n, proof. split; [exact Hn|]. split; [exact Hl|].
    symmetry. apply (restored_same n proof h d b Hr). by apply (Hmarks h d p).
  - intros k x Hx Hk. destruct (tree_db_only _ _ Hv k x Hx Hk) as (h & d & Hd & ->). exists h. split; [apply Hdom; by eexists|done].
Qed.

End reopen.

(** What is loaded from a database that holds the tree *)
Lemma reload_spec `{Laws : LevelDBLaws D} `{!LevelDBIterator D} `{!LevelDBIteratorLaws D} params cs (v : CDBWrapper D) :
  tree_ok cs -> storable_tree params cs -> sums_tree cs -> tree_db v (disk_tree cs) ->
  exists s, LoadBlockIndex params v empty_state = Ok (true, s) /\ tree_ok s /\
    (forall h : uint256, is_Some (m_block_index s !! h) <-> is_Some (m_block_index cs !! h)) /\
    (forall (h : uint256) p b, m_block_index cs !! h = Some p -> entries cs !! p = Some b ->
      exists p' b', m_block_index s !! h = Some p' /\ entries s !! p' = Some b' /\ reloaded cs s b b' /\
        (nChainWork b', nTimeMax b', nChainTx b') = (nChainWork b, nTimeMax b, nChainTx b)) /\
    storable_tree params s /\ sums_tree s /\ synced s v.
Proof.
  intros Hok Hs Hsums Hv. pose proof (disk_tree_ok params cs Hok Hs) as Hdisk.
  destruct (LoadBlockIndex_spec params (disk_tree cs) Hdisk v Hv) as (s & El & Hok' & Hdom & Hrest & _ & _ & Hmarks).
  exists s. split_and!; [done|done| | | | |].
  - intros h. rewrite Hdom. split; [intros (d & (p & b & Hp & _)%(disk_tree_lookup params)); [by eexists|done..]|].
    intros [p Hp]. apply (tree_index _ Hok) in Hp as Hp2. destruct Hp2 as (b & Hb & _). destruct (Hs p b Hb) as [d Hd]. exists d. apply (disk_tree_lookup params); [done..|]. by exists p, b.
  - intros h p b Hp Hb. destruct (reloaded_entry params cs s Hok Hs Hok' Hrest h p b Hp Hb) as (p' & b' & Hp' & Hb' & Hre). exists p', b'. split_and!; [done..|].
    apply (reloaded_sums params cs s Hok Hs Hok' Hrest (S (Z.to_nat (Chain.nHeight b))) h p b p' b'); [done|lia|done..].
  - exact (reopen_storable params (disk_tree cs) s Hdisk Hok' Hdom Hrest).
  - exact (reopen_sums (disk_tree cs) s Hok' Hdom Hrest).
  - exact (reopen_synced params (disk_tree cs) s v Hdisk Hok' Hdom Hrest Hv Hmarks).
Qed.

(** C5: Writing the changed entries of the block tree and starting again brings the tree back.  From a tree that can be stored (fields within their widths, hashes
    of the headers, work checked) with correct sums, and whose unchanged entries are in the database up to the hash of the proof, [WriteBatchSync] of the changed
    ones succeeds, and [LoadBlockIndex] into an empty state returns a well-formed tree with exactly the same blocks: each with its parent, its header, its counts,
    its position in the files where its status says that there is data (or undo data), and the same chain work, greatest time and number of transactions.  The
    status is the stored one, with BLOCK_FAILED_CHILD added where the parent failed and the block had no mark.  The hash of the proof is lost: every entry has a
    null [hashProof] afterwards; the sequence numbers are lost too.  The loaded tree again satisfies what was assumed of the first, so it can be written and
    loaded again. *)
Theorem restart_restores_tree `{Laws : LevelDBLaws D} `{!LevelDBIterator D} `{!LevelDBIteratorLaws D} _nVersion params files last blockinfo cs (v : CDBWrapper D) :
  0 <= _nVersion <= 2 ^ 31 - 1 -> tree_ok cs -> storable_tree params cs -> sums_tree cs -> synced cs v -> blockinfo ≡ₚ elements (setDirtyBlockIndex cs) ->
  exists v' s, WriteBatchSync _nVersion files last (entries cs) blockinfo v = Ok v' /\ LoadBlockIndex params v' empty_state = Ok (true, s) /\ tree_ok s /\
    (forall h : uint256, is_Some (m_block_index s !! h) <-> is_Some (m_block_index cs !! h)) /\
    (forall (h : uint256) p b, m_block_index cs !! h = Some p -> entries cs !! p = Some b ->
      exists p' b', m_block_index s !! h = Some p' /\ entries s !! p' = Some b' /\ reloaded cs s b b' /\
        (nChainWork b', nTimeMax b', nChainTx b') = (nChainWork b, nTimeMax b, nChainTx b)) /\
    storable_tree params s /\ sums_tree s /\ synced s v'.
Proof.
  intros Hver Hok Hs Hsums Hsync HP. destruct (synced_flush _nVersion params files last blockinfo cs v Hver Hok Hs Hsync HP) as (v' & Ev & Hv').
  destruct (reload_spec params cs v' Hok Hs Hsums Hv') as (s & Hload). by exists v', s.
Qed.

(** ** The block files *)

Lemma file_key_inj a b : Z.abs (a - b) < 2 ^ 32 -> file_key a = file_key b -> a = b.
Proof.
  intros Hab E0. assert (E : Serialize_int32 a = Serialize_int32 b) by exact (f_equal tail E0). unfold Serialize_int32 in E. assert (E' : u32 a = u32 b).
  { pose proof (ser32_round_trip (u32 a) [] (wrap_range 32 a ltac:(lia))) as Ha. pose proof (ser32_round_trip (u32 b) [] (wrap_range 32 b ltac:(lia))) as Hb.
    rewrite E, Hb in Ha. by injection Ha as ->. }
  unfold wrap in E'. pose proof (Z.div_mod a (2 ^ 32) ltac:(lia)). pose proof (Z.div_mod b (2 ^ 32) ltac:(lia)). lia.
Qed.

Section files.
Context `{Iter : LevelDBIteratorLaws D}.

Lemma read_more_long (v : CDBWrapper D) fuel n : read_more fuel n v = NoFuel -> forall i, (i <= fuel)%nat -> is_Some (ReadBlockFileInfo (n + Z.of_nat i) v).
Proof.
  revert n. induction fuel as [|fuel IH]; intros n; cbn [read_more]; destruct (ReadBlockFileInfo n v) as [x|] eqn:E; try done.
  - intros _ i Hi. assert (i = 0%nat) as -> by lia. rewrite Z.add_0_r. by eexists.
  - destruct (read_more fuel (n + 1) v) as [l| |] eqn:Er; [done|done|]. intros _ [|i] Hi; [rewrite Z.add_0_r; by eexists|].
    replace (n + Z.of_nat (S i)) with (n + 1 + Z.of_nat i) by lia. apply IH; [done|lia].
Qed.

(** As there are finitely many keys, there is a file that is not known. *)
Lemma read_more_terminates (v : CDBWrapper D) n : Z.of_nat (length (ldb_entries (pdb v))) < 2 ^ 32 -> read_more (length (ldb_entries (pdb v))) n v <> NoFuel.
Proof.
  intros Hlen E. pose proof (read_more_long v _ n E) as Hread. set (l := ldb_entries (pdb v)) in *. set (keys := map (fun i => file_key (n + Z.of_nat i)) (seq 0 (S (length l)))).
  assert (Hnd : NoDup keys).
  { apply (NoDup_fmap_2_strong (fun i => file_key (n + Z.of_nat i))); [|apply NoDup_seq]. intros i j Hi%elem_of_seq Hj%elem_of_seq Eij. apply file_key_inj in Eij; lia. }
  assert (Hsub : keys ⊆ l.*1).
  { intros k Hk. apply list_elem_of_In, in_map_iff in Hk as (i & <- & Hi). apply in_seq in Hi. destruct (Hread i) as [x Hx]; [lia|].
    unfold ReadBlockFileInfo, db_Read in Hx. destruct (ldb_Get (file_key (n + Z.of_nat i)) (pdb v)) as [y|] eqn:Ey; [|done].
    apply ldb_entries_Get in Ey. exact (list_elem_of_fmap_2 fst _ _ Ey). }
  apply NoDup_submseteq in Hsub; [|done]. apply submseteq_length in Hsub. unfold keys in Hsub. rewrite length_map, length_seq, length_fmap in Hsub. lia.
Qed.

Lemma read_more_reads (v : CDBWrapper D) fuel n l : read_more fuel n v = Ok l ->
  (forall i, (i < length l)%nat -> ReadBlockFileInfo (n + Z.of_nat i) v = l !! i) /\ ReadBlockFileInfo (n + Z.of_nat (length l)) v = None.
Proof.
  revert n l. induction fuel as [|fuel IH]; intros n l; cbn [read_more]; destruct (ReadBlockFileInfo n v) as [x|] eqn:E; try done.
  1, 3: (intros [= <-]; rewrite Z.add_0_r; split; [intros i Hi; cbn in Hi; lia|done]).
  destruct (read_more fuel (n + 1) v) as [l'| |] eqn:Er; [|done..]. intros [= <-]. destruct (IH _ _ Er) as [Hl Hend]. cbn [length]. split.
  - intros [|i] Hi; [by rewrite Z.add_0_r|]. replace (n + Z.of_nat (S i)) with (n + 1 + Z.of_nat i) by lia. apply Hl. lia.
  - by replace (n + Z.of_nat (S (length l'))) with (n + 1 + Z.of_nat (length l')) by lia.
Qed.

Lemma read_infos_reads (v : CDBWrapper D) k n : length (read_infos k n v) = k /\
  forall i, (i < k)%nat -> read_infos k n v !! i = Some (default CBlockFileInfo_null (ReadBlockFileInfo (n + Z.of_nat i) v)).
Proof.
  revert n. induction k as [|k IH]; intros n; cbn [read_infos length]; [split; [done|lia]|]. destruct (IH (n + 1)) as [Hlen Hk]. split; [by rewrite Hlen|].
  intros [|i] Hi; [by rewrite Z.add_0_r|]. cbn [lookup list_lookup]. rewrite Hk by lia. by replace (n + Z.of_nat (S i)) with (n + 1 + Z.of_nat i) by lia.
Qed.

Lemma files_present_spec fopens (st : BlockStore) (s : ChainState) l : Forall (fun p => is_Some (entries s !! p)) l ->
  exists r, files_present fopens l s st = Ok r /\
    (r = true <-> forall p b, p ∈ l -> entries s !! p = Some b -> has_bit (nStatus b) BLOCK_HAVE_DATA = true -> is_Some (Open fopens (blk st) (Build_FlatFilePos (nFile b) 0) true)).
Proof.
  induction 1 as [|p l [b Hb] _ (r & IH & Hr)]; [exists true; split; [done|]; split; [by intros _ p b ?%elem_of_nil|done]|]. cbn [files_present]. unfold deref. rewrite Hb. cbn [of_option obind].
  destruct (has_bit (nStatus b) BLOCK_HAVE_DATA) eqn:Ebit; [destruct (Open fopens (blk st) _ true) as [o|] eqn:Eo|].
  - exists r. split; [done|]. rewrite Hr. split; [|intros Hall q bq Hq; apply Hall; by apply list_elem_of_further].
    intros Hall q bq [->|Hq]%elem_of_cons Hbq; [|by apply (Hall q)]. intros _. assert (bq = b) as -> by congruence. rewrite Eo. by eexists.
  - exists false. split; [done|]. split; [done|]. intros Hall. destruct (Hall p b (list_elem_of_here _ _) Hb Ebit) as [o Ho]. congruence.
  - exists r. split; [done|]. rewrite Hr. split; [|intros Hall q bq Hq; apply Hall; by apply list_elem_of_further].
    intros Hall q bq [->|Hq]%elem_of_cons Hbq; [|by apply (Hall q)]. congruence.
Qed.

(** The infos of all files up to the first one behind the last that is not known *)
Record infos_read (v : CDBWrapper D) (last : Z) (infos : list CBlockFileInfo) : Prop := {
  infos_long : last < Z.of_nat (length infos);
  infos_stored (i : nat) : (i < length infos)%nat -> infos !! i = Some (default CBlockFileInfo_null (ReadBlockFileInfo (Z.of_nat i) v));
  infos_known (i : nat) : last < Z.of_nat i -> (i < length infos)%nat -> is_Some (ReadBlockFileInfo (Z.of_nat i) v);
  infos_end : ReadBlockFileInfo (Z.of_nat (length infos)) v = None }.

Lemma load_files_spec (v : CDBWrapper D) (st : BlockStore) :
  Z.of_nat (length (ldb_entries (pdb v))) < 2 ^ 32 ->
  let last := default (nLastBlockFile st) (ReadLastBlockFile v) in -1 <= last ->
  exists infos, load_files v st = Ok (set_vinfo (fun _ => infos) (set_nLastBlockFile last st)) /\ infos_read v last infos.
Proof.
  intros Hlen last Hlast. unfold load_files. fold last. destruct (read_more _ (last + 1) v) as [more| |] eqn:E.
  - destruct (read_more_reads v _ _ more E) as [Hmore Hend]. destruct (read_infos_reads v (Z.to_nat (last + 1)) 0) as [Hl Hi]. cbn [obind]. eexists. split; [reflexivity|].
    assert (Hbehind : forall i, (i < Z.to_nat (last + 1) + length more)%nat -> (Z.to_nat (last + 1) <= i)%nat -> ReadBlockFileInfo (Z.of_nat i) v = more !! (i - Z.to_nat (last + 1))%nat).
    { intros i Hi1 Hi2. rewrite <- Hmore by lia. f_equal. lia. }
    assert (Hsome : forall i, (i < Z.to_nat (last + 1) + length more)%nat -> (Z.to_nat (last + 1) <= i)%nat -> is_Some (more !! (i - Z.to_nat (last + 1))%nat)) by (intros i ? ?; apply lookup_lt_is_Some; lia).
    split; rewrite ?length_app, Hl.
    + lia.
    + intros i Hlt. destruct (Nat.lt_ge_cases i (Z.to_nat (last + 1))) as [H1|H1].
      * rewrite lookup_app_l by (by rewrite Hl). by rewrite Hi.
      * rewrite lookup_app_r, Hl by (by rewrite Hl). rewrite Hbehind by done. by destruct (Hsome i Hlt H1) as [x ->].
    + intros i Hgt Hlt. rewrite Hbehind by lia. apply Hsome; lia.
    + by replace (Z.of_nat (Z.to_nat (last + 1) + length more)) with (last + 1 + Z.of_nat (length more)) by lia.
  - exfalso. clear - E. revert E. generalize (last + 1). induction (length (ldb_entries (pdb v))) as [|k IH]; intros n; cbn [read_more]; destruct (ReadBlockFileInfo n v); try done.
    destruct (read_more k (n + 1) v) eqn:E; [done| |done]. intros _. by apply (IH (n + 1)).
  - by apply read_more_terminates in E.
Qed.

End files.


Lemma data_bit z : has_bit (Z.lor z BLOCK_FAILED_CHILD) BLOCK_HAVE_DATA = has_bit z BLOCK_HAVE_DATA.
Proof. unfold has_bit. rewrite Z.land_lor_distr_l. change (Z.land BLOCK_FAILED_CHILD BLOCK_HAVE_DATA) with 0. by rewrite Z.lor_0_r. Qed.

(** A block has data if it was stored with data, in the file that was stored. *)
Lemma restored_file s (h : uint256) x b : restored s h x b ->
  has_bit (nStatus b) BLOCK_HAVE_DATA = has_bit (nStatus (di_index x)) BLOCK_HAVE_DATA /\ (has_bit (nStatus b) BLOCK_HAVE_DATA = true -> nFile b = nFile (di_index x)).
Proof.
  intros Hr. assert (Hs : has_bit (nStatus b) BLOCK_HAVE_DATA = has_bit (nStatus (di_index x)) BLOCK_HAVE_DATA).
  { destruct (restored_status s h x b Hr) as [-> | ->]; [done|apply data_bit]. }
  split; [done|]. rewrite Hs. intros Hd. destruct Hr as [_ _ [skip E]]. rewrite E. cbn [nFile set_pskip summed set_sums set_loaded di_index on_disk]. by rewrite has_either by auto.
Qed.

(** [fHavePruned], [fReindex] and [fLogEvents], which are read once the files are there *)
Definition flags_read `{LevelDB D} (v : CDBWrapper D) (ok : bool) : bool * bool * bool :=
  if ok then (default false (ReadFlag pruned_flag v), ReadReindexing v, default false (ReadFlag logevents_flag v)) else (false, false, false).

(** [LoadBlockIndexDB] after the tree was loaded *)
Lemma LoadBlockIndexDB_spec `{Iter : LevelDBIteratorLaws D} params fopens (v : CDBWrapper D) (st : BlockStore) s :
  LoadBlockIndex params v empty_state = Ok (true, s) -> tree_ok s -> Z.of_nat (length (ldb_entries (pdb v))) < 2 ^ 32 ->
  let last := default (nLastBlockFile st) (ReadLastBlockFile v) in 0 <= last ->
  exists ok infos pruned reindex logs,
    let st' := set_vinfo (fun _ => infos) (set_nLastBlockFile last st) in
    LoadBlockIndexDB params fopens v empty_state st = Ok (ok, s, st', pruned, reindex, logs) /\ (pruned, reindex, logs) = flags_read v ok /\
    infos_read v last infos /\
    (ok = true <-> forall p b, entries s !! p = Some b -> has_bit (nStatus b) BLOCK_HAVE_DATA = true -> is_Some (Open fopens (blk st) (Build_FlatFilePos (nFile b) 0) true)).
Proof.
  intros El Hok Hlen last Hlast.
  destruct (load_files_spec v st Hlen) as (infos & Ei & Hinfos); [fold last; lia|]. fold last in Ei, Hinfos.
  set (st' := set_vinfo _ _) in Ei. assert (Hpresent : forall p, p ∈ map snd (map_to_list (m_block_index s)) <-> is_Some (entries s !! p)).
  { intros p. rewrite list_elem_of_In, in_map_iff. split.
    - intros ([h q] & <- & Hin). apply list_elem_of_In, elem_of_map_to_list, (tree_index _ Hok) in Hin as (b & Hb & _). by exists b.
    - intros [b Hb]. destruct (wf_hash _ _ _ (tree_wf _ Hok p b Hb)) as [h Hh]. exists (h, p). split; [done|]. apply list_elem_of_In, elem_of_map_to_list, (tree_index _ Hok). by exists b. }
  destruct (files_present_spec fopens st' s (map snd (map_to_list (m_block_index s)))) as (ok & Ef & Hf); [apply Forall_forall; intros p Hp; by apply Hpresent|].
  assert (Hiff : ok = true <-> forall p b, entries s !! p = Some b -> has_bit (nStatus b) BLOCK_HAVE_DATA = true -> is_Some (Open fopens (blk st) (Build_FlatFilePos (nFile b) 0) true)).
  { rewrite Hf. split; intros Hall p b; [intros Hb; apply (Hall p b); [apply Hpresent; by eexists|done]|intros _; apply (Hall p)]. }
  unfold LoadBlockIndexDB. rewrite El. cbn [obind]. rewrite Ei. cbn [obind]. rewrite Ef. cbn [obind].
  destruct ok; eexists _, infos, _, _, _; (split; [reflexivity|]; split; [reflexivity|]; split; [exact Hinfos|exact Hiff]).
Qed.

(** C18: Loading the block index at start-up comes to an end.  For every database with fewer than 2^32 keys and a last file that is not negative, whose entries form a
    tree (each with the hash of its header, a stored parent one below, and work that passes the check), [LoadBlockIndexDB] returns: the loops over the stored entries,
    over the sorted blocks and over the block files (the last of which has no bound in the code) all stop.  The tree is well formed and holds exactly the stored
    blocks, each with the stored fields, except for the hash of the proof, and with the position only where there is data; its status is marked if its parent failed.
    The infos of the files are those stored, or empty where a file up to the last has none, and end before the first file behind the last one that is not known;
    the result is true exactly when the file of every block that is stored with data can be opened, and only then the flags are read. *)
Theorem startup_terminates `{Iter : LevelDBIteratorLaws D} params m fopens (v : CDBWrapper D) (st : BlockStore) :
  map_Forall (disk_ok params m) m -> tree_db v m -> Z.of_nat (length (ldb_entries (pdb v))) < 2 ^ 32 ->
  let last := default (nLastBlockFile st) (ReadLastBlockFile v) in 0 <= last ->
  exists ok s infos pruned reindex logs,
    let st' := set_vinfo (fun _ => infos) (set_nLastBlockFile last st) in
    LoadBlockIndexDB params fopens v empty_state st = Ok (ok, s, st', pruned, reindex, logs) /\ (pruned, reindex, logs) = flags_read v ok /\ tree_ok s /\
    (forall h : uint256, is_Some (m_block_index s !! h) <-> is_Some (m !! h)) /\
    (forall (h : uint256) d, m !! h = Some d -> exists p b, m_block_index s !! h = Some p /\ entries s !! p = Some b /\ restored s h d b) /\
    infos_read v last infos /\
    (ok = true <-> forall (h : uint256) d, m !! h = Some d -> has_bit (nStatus (di_index d)) BLOCK_HAVE_DATA = true ->
      is_Some (Open fopens (blk st) (Build_FlatFilePos (nFile (di_index d)) 0) true)).
Proof.
  intros Hm Hv Hlen last Hlast. destruct (LoadBlockIndex_spec params m Hm v Hv) as (s & El & Hok & Hdom & Hrest & _).
  destruct (LoadBlockIndexDB_spec params fopens v st s El Hok Hlen Hlast) as (ok & infos & pruned & reindex & logs & E & Hflags & Hinfos & Hiff).
  exists ok, s, infos, pruned, reindex, logs. split_and!; [exact E|exact Hflags|done|done|done|done|]. rewrite Hiff. split.
  - intros Hall h d Hd Hbit. destruct (Hrest h d Hd) as (p & b & _ & Hb & Hr). destruct (restored_file s h d b Hr) as [Hs Hf]. rewrite <- Hs in Hbit.
    rewrite <- (Hf Hbit). by apply (Hall p b).
  - intros Hall p b Hb Hbit. destruct (entry_restored m s Hok Hdom Hrest p b Hb) as (h & d & Hd & _ & Hr). destruct (restored_file s h d b Hr) as [Hs Hf].
    rewrite (Hf Hbit). apply (Hall h d Hd). by rewrite <- Hs.
Qed.

(** ** Instances *)

(** The entries of a database in memory *)
Definition key_le (x y : bytes * bytes) : Prop := bytes_ltb (fst y) (fst x) = false.

#[export] Instance key_le_dec x y : Decision (key_le x y).
Proof. unfold key_le. apply _. Defined.

#[export] Instance MemDB_entries : LevelDBIterator (gmap bytes bytes) := fun d => merge_sort key_le (map_to_list d).

Lemma bytes_ltb_trichotomy a b : bytes_ltb a b = false -> bytes_ltb b a = false -> a = b.
Proof.
  revert b. induction a as [|x a IH]; intros [|y b]; cbn; [done..|]. intros H1 H2. apply orb_false_iff in H1 as [H1 H1'], H2 as [H2 H2'].
  assert (x = y) as <- by lia. rewrite Z.eqb_refl in *. f_equal. by apply IH.
Qed.

Lemma bytes_ltb_trans a b c : bytes_ltb a b = true -> bytes_ltb b c = true -> bytes_ltb a c = true.
Proof.
  revert b c. induction a as [|x a IH]; intros [|y b] [|z c]; cbn; try done. intros H1 H2. apply orb_true_iff in H1 as [H1|H1], H2 as [H2|H2].
  - apply orb_true_iff. left. lia.
  - apply andb_true_iff in H2 as [H2 _]. apply orb_true_iff. left. lia.
  - apply andb_true_iff in H1 as [H1 _]. apply orb_true_iff. left. lia.
  - apply andb_true_iff in H1 as [H1 H1'], H2 as [H2 H2']. apply orb_true_iff. right. apply andb_true_iff. split; [lia|by apply (IH b)].
Qed.

#[local] Instance key_le_total : Total key_le.
Proof. intros [a x] [b y]. unfold key_le. cbn. destruct (bytes_ltb b a) eqn:E; [right|by left]. destruct (bytes_ltb a b) eqn:E'; [|done]. pose proof (bytes_ltb_trans _ _ _ E E') as H. by rewrite bytes_ltb_irrefl in H. Qed.

#[local] Instance key_le_trans : Transitive key_le.
Proof.
  intros [a x] [b y] [c z]. unfold key_le. cbn. intros H1 H2. destruct (bytes_ltb c a) eqn:E; [|done]. destruct (bytes_ltb a b) eqn:E1.
  - by rewrite (bytes_ltb_trans _ _ _ E E1) in H2.
  - by rewrite (bytes_ltb_trichotomy a b E1 H1), H2 in E.
Qed.

#[export] Instance MemDB_entries_laws : LevelDBIteratorLaws (gmap bytes bytes).
Proof.
  split.
  - intros k x d. unfold ldb_entries, MemDB_entries. rewrite merge_sort_Permutation. apply elem_of_map_to_list.
  - intros d. unfold ldb_entries, MemDB_entries. pose proof (StronglySorted_merge_sort key_le (map_to_list d)) as Hs.
    assert (Hnd : NoDup (merge_sort key_le (map_to_list d)).*1) by (rewrite merge_sort_Permutation; apply NoDup_fst_map_to_list).
    induction Hs as [|x l Hs IH Hx]; [constructor|]. cbn [fmap list_fmap] in Hnd. apply NoDup_cons in Hnd as [Hni Hnd]. constructor; [by apply IH|].
    apply Forall_forall. intros y Hy. rewrite Forall_forall in Hx. specialize (Hx y Hy). unfold key_le in Hx. destruct (bytes_ltb (fst x) (fst y)) eqn:E; [done|].
    destruct Hni. rewrite (bytes_ltb_trichotomy _ _ E Hx). by apply list_elem_of_fmap_2.
Qed.

(** A tree of two staked blocks, the first of which is stored *)
Definition stake_header (prev : uint256) (n : Z) : CBlockHeader :=
  mkHeader 4 prev (repeat n 32) (1000 + n) 0x207fffff n uint256_null uint256_null (mkOutPoint (repeat 6 32) n) [n].

Definition first_header : CBlockHeader := stake_header uint256_null 1.
Definition first_hash : uint256 := Eval vm_compute in header_GetHash first_header.
Definition second_hash : uint256 := Eval vm_compute in header_GetHash (stake_header first_hash 2).

Definition grown : outcome ChainState :=
  r <-! AddToBlockIndex first_header empty_state ; r <-! AddToBlockIndex (stake_header first_hash 2) (snd r) ; Ok (snd r).

Definition with_dirty (d : gset ptr) (s : ChainState) : ChainState :=
  mkChainState (entries s) (m_block_index s) (m_failed_blocks s) (m_blocks_unlinked s) (setBlockIndexCandidates s)
    d (setStakeSeen s) (m_chain s) (pindexBestHeader s) (pindexBestInvalid s) (pindexBestForkTip s)
    (pindexBestForkBase s) (fLargeWorkForkFound s) (fLargeWorkInvalidChainFound s) (nBlockSequenceId s) (nBlockReverseSequenceId s)
    (nLastPreciousChainwork s).

Definition a_tree : ChainState := Eval vm_compute in match grown with Ok s => with_dirty {[2%positive]} s | _ => empty_state end.
Definition tree_list : list (ptr * CBlockIndex) := Eval vm_compute in map_to_list (entries a_tree).
Definition stored_list : list (uint256 * CDiskBlockIndex) := Eval vm_compute in map_to_list (disk_tree a_tree).

(** The database, with the first entry, the number of the last file and the information about files 0 and 1 *)
Definition a_file : CBlockFileInfo := mkFileInfo 1 300 0 0 0 1001 1001.
Definition a_disk (h : uint256) : bytes := match disk_tree a_tree !! h with Some d => Serialize_CDiskBlockIndex 200000 d | None => [] end.
Definition other_entries : gmap bytes bytes :=
  <[[DB_LAST_BLOCK] := Xor a_key (Serialize_int32 0)]> (<[file_key 0 := Xor a_key (Serialize_CBlockFileInfo a_file)]> {[file_key 1 := Xor a_key (Serialize_CBlockFileInfo a_file)]}).
Definition a_treedb : CDBWrapper (gmap bytes bytes) := Eval vm_compute in mkDB (<[index_key first_hash := Xor a_key (a_disk first_hash)]> other_entries) a_key.

Lemma a_tree_entries p b : entries a_tree !! p = Some b -> (p, b) ∈ tree_list.
Proof. intros Hp. apply elem_of_map_to_list in Hp. exact Hp. Qed.

Lemma a_tree_ok : tree_ok a_tree.
Proof.
  assert (Hr : exists s, grown = Ok s /\ tree_ok s).
  { destruct (reachable_ok 1000 empty_state (reach_empty 1000)) as [H0 _].
    destruct (AddToBlockIndex_spec empty_state first_header H0) as (p & s1 & E1 & H1 & _); [by split; vm_compute|by vm_compute|].
    destruct (AddToBlockIndex_spec s1 (stake_header first_hash 2) H1) as (q & s2 & E2 & H2 & _); [by split; vm_compute|by vm_compute|].
    exists s2. unfold grown. rewrite E1. cbn [obind snd]. rewrite E2. by split. }
  destruct Hr as (s & E & Hs).
  assert (Ea : a_tree = match grown with Ok s => with_dirty {[2%positive]} s | _ => empty_state end) by (vm_cast_no_check (eq_refl a_tree)).
  rewrite Ea, E. destruct Hs. split; assumption.
Qed.

Ltac each_entry H := apply a_tree_entries in H; unfold tree_list in H; repeat (apply elem_of_cons in H as [H|H]); [injection H as -> ->..|by apply elem_of_nil in H].

Lemma a_tree_storable : storable_tree mainnet_pow a_tree.
Proof.
  intros p b Hb. each_entry Hb; (eexists; split; [vm_compute; reflexivity| | | |left; vm_compute; reflexivity|]).
  4, 8: (intros Hle; by vm_compute in Hle).
  1, 4: (split; try (by repeat split; vm_compute); by vm_compute; repeat constructor).
  all: vm_compute; reflexivity.
Qed.

Lemma a_tree_sums : sums_tree a_tree.
Proof. intros p b Hb. each_entry Hb; (split; vm_compute; reflexivity). Qed.

Lemma a_treedb_value k x : value k a_treedb = Some x -> (k, Xor a_key x) ∈ map_to_list (pdb a_treedb).
Proof.
  unfold value. intros (y & E & ->)%fmap_Some. change (obfuscate_key a_treedb) with a_key. rewrite Xor_involutive. by apply elem_of_map_to_list.
Qed.

Lemma a_synced : synced a_tree a_treedb.
Proof.
  split.
  - intros p Hp. assert (Hd : p ∈ elements (setDirtyBlockIndex a_tree)) by by apply elem_of_elements. vm_compute in Hd. apply list_elem_of_singleton in Hd as ->. by eexists.
  - intros h p d Hp Hnd Hd. apply elem_of_map_to_list in Hp. vm_compute in Hp. apply elem_of_cons in Hp as [Hp|Hp]; [|apply list_elem_of_singleton in Hp]; injection Hp as -> ->.
    + destruct Hnd. vm_compute. reflexivity.
    + assert (Ed : disk_tree a_tree !! first_hash = Some d) by exact Hd. clear Hd. vm_compute in Ed. injection Ed as <-.
      eexists. split; [vm_compute; reflexivity|]. exists 200000, uint256_null. split; [lia|]. split; [reflexivity|]. vm_compute. reflexivity.
  - intros k x Hx Hk. apply a_treedb_value in Hx. exists first_hash. split; [eexists; vm_compute; reflexivity|].
    vm_compute in Hx. repeat (apply elem_of_cons in Hx as [Hx|Hx]); try (injection Hx as -> _; (discriminate Hk || reflexivity)). by apply elem_of_nil in Hx.
Qed.

Lemma restart_restores_tree_witness :
  exists v' s, WriteBatchSync 200000 [(0, a_file)] 0 (entries a_tree) [2%positive] a_treedb = Ok v' /\ LoadBlockIndex mainnet_pow v' empty_state = Ok (true, s) /\ tree_ok s /\
    exists p b, m_block_index s !! second_hash = Some p /\ entries s !! p = Some b /\ parent_hash s b = Some first_hash /\ Chain.nHeight b = 1 /\ nChainTx b = 0.
Proof.
  destruct (restart_restores_tree 200000 mainnet_pow [(0, a_file)] 0 [2%positive] a_tree a_treedb) as (v' & s & Ev & El & Hs & _ & Hall & _);
    [lia|exact a_tree_ok|exact a_tree_storable|exact a_tree_sums|exact a_synced|reflexivity|].
  exists v', s. split; [exact Ev|]. split; [exact El|]. split; [exact Hs|].
  destruct (Hall second_hash 2%positive (snd (default (1%positive, blockindex_null) (head tree_list)))) as (p & b & Hp & Hb & Hr & Hsum); [reflexivity|reflexivity|].
  exists p, b. split; [exact Hp|]. split; [exact Hb|]. split; [exact (reloaded_parent _ _ _ _ Hr)|]. pose proof (reloaded_counts _ _ _ _ Hr) as Hc. injection Hc as Hc _ _.
  split; [exact Hc|]. by injection Hsum as _ _ ->.
Defined.

Definition stored_first : gmap uint256 CDiskBlockIndex := Eval vm_compute in omap (fun d => if bytes_eqb (hashPrev d) uint256_null then Some d else None) (disk_tree a_tree).

Lemma stored_first_lookup (h : uint256) d : stored_first !! h = Some d -> h = first_hash /\ disk_tree a_tree !! first_hash = Some d.
Proof.
  intros Hd. apply elem_of_map_to_list in Hd. vm_compute in Hd. apply list_elem_of_singleton in Hd. injection Hd as -> ->. split; [reflexivity|vm_compute; reflexivity].
Qed.

Lemma stored_first_ok : map_Forall (disk_ok mainnet_pow stored_first) stored_first.
Proof.
  intros h d Hd. destruct (stored_first_lookup h d Hd) as [-> Hd']. destruct (disk_tree_ok mainnet_pow a_tree a_tree_ok a_tree_storable _ _ Hd') as [Hv Hh Hn _ Hw Ht].
  split; [exact Hv|exact Hh|exact Hn| |exact Hw|exact Ht]. apply elem_of_map_to_list in Hd. vm_compute in Hd. apply list_elem_of_singleton in Hd. injection Hd as ->. vm_compute. reflexivity.
Qed.

Lemma stored_first_db : tree_db a_treedb stored_first.
Proof.
  split.
  - intros h d Hd. destruct (stored_first_lookup h d Hd) as [-> Hd']. apply (synced_stored _ _ a_synced first_hash 1%positive); [reflexivity| |exact Hd'].
    intros Hin. apply elem_of_elements in Hin. vm_compute in Hin. by apply list_elem_of_singleton in Hin.
  - intros k x Hx Hk. apply a_treedb_value in Hx. exists first_hash. eexists. split; [vm_compute; reflexivity|].
    vm_compute in Hx. repeat (apply elem_of_cons in Hx as [Hx|Hx]); try (injection Hx as -> _; (discriminate Hk || reflexivity)). by apply elem_of_nil in Hx.
Qed.

Lemma startup_terminates_witness :
  exists ok s infos pruned reindex logs,
    LoadBlockIndexDB mainnet_pow (fun _ => true) a_treedb empty_state empty_store = Ok (ok, s, set_vinfo (fun _ => infos) (set_nLastBlockFile 0 empty_store), pruned, reindex, logs) /\
    tree_ok s /\ is_Some (m_block_index s !! first_hash) /\ ReadBlockFileInfo (Z.of_nat (length infos)) a_treedb = None /\ infos = [a_file; a_file].
Proof.
  destruct (startup_terminates mainnet_pow stored_first (fun _ => true) a_treedb empty_store) as (ok & s & infos & pruned & reindex & logs & El & _ & Hs & Hdom & _ & [_ _ _ Hend] & _);
    [exact stored_first_ok|exact stored_first_db|by vm_compute|by vm_compute|].
  exists ok, s, infos, pruned, reindex, logs. split; [exact El|]. split; [exact Hs|]. split; [apply Hdom; eexists; vm_compute; reflexivity|]. split; [exact Hend|].
  assert (Ei : match LoadBlockIndexDB mainnet_pow (fun _ => true) a_treedb empty_state empty_store with Ok (_, _, st, _, _, _) => vinfoBlockFile st | _ => [] end = [a_file; a_file]) by (vm_cast_no_check (eq_refl [a_file; a_file])).
  by rewrite El in Ei.
Defined.
