(* ===== verification/FlushState.v ===== *)
(** * FlushState: writing the state of the node to disk (src/src/validation.cpp)

    [FlushStateToDisk] prunes block files, writes the changed block files and index entries,
    removes the pruned files and writes the cache of coins, in this order.
    The node joins the tree of [ChainState], the files of [BlockStore], the
    databases of [BlockTree] and [CoinsDB].  Besides the new state the function
    returns what is on the disk after each of its writes, so that the states a
    crash can leave are known; a start with [LoadBlockIndexDB] and
    [ReplayBlocks] recovers from each of them.  The clock, the memory that is
    used, the free space on the disk and the options are arguments. *)

From Stdlib Require Import ZArith List Lia Bool String.
From stdpp Require Import base decidable list option gmap sets fin_sets sorting.
From S2P Require Import Prelude Uint256 Primitives Chain Consensus Script Hash Serialize Standard Coins Utxo Pow Block ChainState Compressor BlockStore UndoStore CoinsDB Replay BlockTree.
Local Open Scope Z_scope.
Local Open Scope outcome_scope.

Inductive FlushStateMode := NONE | IF_NEEDED | PERIODIC | ALWAYS.

#[export] Instance FlushStateMode_eq_dec : EqDecision FlushStateMode.
Proof. solve_decision. Defined.

Definition DB_PEAK_USAGE_FACTOR : Z := 2.
Definition MAX_BLOCK_COINSDB_USAGE : Z := 10 * DB_PEAK_USAGE_FACTOR.
Definition DATABASE_WRITE_INTERVAL : Z := 60 * 60.
Definition DATABASE_FLUSH_INTERVAL : Z := 24 * 60 * 60.

(** The arguments of a call, and what it asks the system for *)
Record FlushArgs := mkFlushArgs {
  mode : FlushStateMode;
  nManualPruneHeight : Z;
  nNow : Z;
  cacheUsage : Z;
  nMempoolUsage : Z;
  nMempoolSizeMax : Z;
  nCoinCacheUsage : Z;
  blocks_space : bool;
  coins_space : Z -> bool;
  downloading : bool
}.

(** The node, and what is on its disk; [m_cacheview] says whether the views of
    the coins were set up. *)
Record Node (D : Type) := mkNode {
  m_cacheview : bool;
  n_chain : ChainState;
  n_store : BlockStore;
  n_coins : CCoinsViewCache (CDBWrapper D);
  n_tree : CDBWrapper D;
  fHavePruned : bool;
  nLastWrite : Z;
  nLastFlush : Z
}.
Arguments mkNode {_} _ _ _ _ _ _ _ _.
Arguments m_cacheview {_} _.
Arguments n_chain {_} _.
Arguments n_store {_} _.
Arguments n_coins {_} _.
Arguments n_tree {_} _.
Arguments fHavePruned {_} _.
Arguments nLastWrite {_} _.
Arguments nLastFlush {_} _.

Record Disk (D : Type) := mkDiskState { d_tree : CDBWrapper D; d_blk : files; d_rev : files; d_coins : CDBWrapper D }.
Arguments mkDiskState {_} _ _ _ _.
Arguments d_tree {_} _.
Arguments d_blk {_} _.
Arguments d_rev {_} _.
Arguments d_coins {_} _.

Definition disk_of {D} (n : Node D) : Disk D := mkDiskState (n_tree n) (blk (n_store n)) (rev_ (n_store n)) (base (n_coins n)).

Definition set_store {D} (s : BlockStore) (n : Node D) : Node D := mkNode (m_cacheview n) (n_chain n) s (n_coins n) (n_tree n) (fHavePruned n) (nLastWrite n) (nLastFlush n).
Definition set_coins {D} (c : CCoinsViewCache (CDBWrapper D)) (n : Node D) : Node D := mkNode (m_cacheview n) (n_chain n) (n_store n) c (n_tree n) (fHavePruned n) (nLastWrite n) (nLastFlush n).
Definition set_times {D} (w f : Z) (n : Node D) : Node D := mkNode (m_cacheview n) (n_chain n) (n_store n) (n_coins n) (n_tree n) (fHavePruned n) w f.

Definition clear_dirty_index (s : ChainState) : ChainState :=
  mkChainState (entries s) (m_block_index s) (m_failed_blocks s) (m_blocks_unlinked s) (setBlockIndexCandidates s)
    ∅ (setStakeSeen s) (m_chain s) (pindexBestHeader s) (pindexBestInvalid s) (pindexBestForkTip s)
    (pindexBestForkBase s) (fLargeWorkForkFound s) (fLargeWorkInvalidChainFound s) (nBlockSequenceId s) (nBlockReverseSequenceId s)
    (nLastPreciousChainwork s).

Definition clear_dirty_files (s : BlockStore) : BlockStore := mkBlockStore (vinfoBlockFile s) (nLastBlockFile s) ∅ (fCheckForPruning s) (blk s) (rev_ s).

(** The numbers of the changed files with what is known about them *)
Fixpoint dirty_infos (l : list Z) (s : BlockStore) : outcome (list (Z * CBlockFileInfo)) :=
  match l with
  | [] => Ok []
  | f :: l => i <-! info_at f s ; r <-! dirty_infos l s ; Ok ((f, i) :: r)
  end.

Section flush.
Context `{Ldb : LevelDB D}.
Context (fopens : Z -> bool) (IsFullyValid : CPubKey -> bool) (Decompress : CPubKey -> option CPubKey) (batch_size : Z) (_nVersion : Z).
Context (fPruneMode fReindex : bool) (nPruneTarget nPruneAfterHeight : Z).

#[local] Instance coins_on_disk : CCoinsView (CDBWrapper D) := CCoinsViewDB IsFullyValid Decompress batch_size.

(** The files to prune; their blocks are no longer in the tree. *)
Definition find_prune (a : FlushArgs) (n : Node D) : outcome (gset Z * Node D) :=
  if fPruneMode && (fCheckForPruning (n_store n) || (0 <? nManualPruneHeight a)) && negb fReindex then
    r <-! (if 0 <? nManualPruneHeight a then FindFilesToPruneManual fPruneMode (nManualPruneHeight a) (n_chain n) (n_store n)
           else r <-! FindFilesToPrune nPruneTarget nPruneAfterHeight (downloading a) (n_chain n) (n_store n) ;
                let '(F, cs, s) := r in Ok (F, cs, set_fCheckForPruning false s)) ;
    let '(F, cs, s) := r in
    if decide (F = ∅) then Ok (F, mkNode (m_cacheview n) cs s (n_coins n) (n_tree n) (fHavePruned n) (nLastWrite n) (nLastFlush n))
    else Ok (F, mkNode (m_cacheview n) cs s (n_coins n) (if fHavePruned n then n_tree n else WriteFlag pruned_flag true (n_tree n)) true (nLastWrite n) (nLastFlush n))
  else Ok (∅, n).

(** [fDoFullFlush] and [fPeriodicWrite] *)
Definition full_flush (a : FlushArgs) (fFlushForPrune : bool) (n : Node D) : bool :=
  let cacheSize := s64 (cacheUsage a * DB_PEAK_USAGE_FACTOR) in
  let nTotalSpace := s64 (nCoinCacheUsage a + Z.max (s64 (nMempoolSizeMax a - nMempoolUsage a)) 0) in
  let fCacheLarge := bool_decide (mode a = PERIODIC) &&
    (Z.max (Z.quot (s64 (9 * nTotalSpace)) 10) (s64 (nTotalSpace - MAX_BLOCK_COINSDB_USAGE * 1024 * 1024)) <? cacheSize) in
  let fCacheCritical := bool_decide (mode a = IF_NEEDED) && (nTotalSpace <? cacheSize) in
  let fPeriodicFlush := bool_decide (mode a = PERIODIC) && (s64 (nLastFlush n + DATABASE_FLUSH_INTERVAL * 1000000) <? nNow a) in
  bool_decide (mode a = ALWAYS) || fCacheLarge || fCacheCritical || fPeriodicFlush || fFlushForPrune.

Definition periodic_write (a : FlushArgs) (n : Node D) : bool :=
  bool_decide (mode a = PERIODIC) && (s64 (nLastWrite n + DATABASE_WRITE_INTERVAL * 1000000) <? nNow a).

(** The block index, with the information about the files *)
Definition write_index (n : Node D) : outcome (Node D) :=
  let s := n_store n in
  vFiles <-! dirty_infos (merge_sort Z.le (elements (setDirtyFileInfo s))) s ;
  let vBlocks := merge_sort Pos.le (elements (setDirtyBlockIndex (n_chain n))) in
  tree <-! WriteBatchSync _nVersion vFiles (nLastBlockFile s) (entries (n_chain n)) vBlocks (n_tree n) ;
  Ok (mkNode (m_cacheview n) (clear_dirty_index (n_chain n)) (clear_dirty_files s) (n_coins n) tree (fHavePruned n) (nLastWrite n) (nLastFlush n)).

(** The coins: the message of [AbortNode], the node, and the disk after each batch; the
    space that is asked for is computed in the 32 bits of [GetCacheSize]. *)
Definition write_coins_tip (a : FlushArgs) (n : Node D) : outcome (option string * Node D * list (Disk D)) :=
  let '(best, c) := cache_GetBestBlock (n_coins n) in
  let n := set_coins c n in
  if blob_IsNull best then Ok (None, n, [])
  else if negb (coins_space a (u32 (48 * 2 * 2 * GetCacheSize c))) then Ok (Some "Disk space is too low!"%string, n, [])
  else
    batches <-! BatchWrite_batches IsFullyValid batch_size (cacheCoins c) (hashBlock c) (base c) ;
    let disks := map (fun k => disk_of (set_coins (set_base (write_batches (take k batches) (base c)) c) n)) (seq 1 (length batches)) in
    r <-! Coins.Flush c ;
    match r with
    | (true, c) => Ok (None, set_times (nLastWrite n) (nNow a) (set_coins c n), disks)
    | (false, c) => Ok (Some "Failed to write to coin database"%string, set_coins c n, disks)
    end.

Definition CanFlushToDisk (n : Node D) : bool := m_cacheview n.

Definition FlushStateToDisk (a : FlushArgs) (n : Node D) : outcome (option string * Node D * list (Disk D)) :=
  if negb (CanFlushToDisk n) then Fail else
  r <-! find_prune a n ;
  let '(setFilesToPrune, n) := r in
  let fFlushForPrune := bool_decide (setFilesToPrune <> ∅) in
  let n := set_times (if nLastWrite n =? 0 then nNow a else nLastWrite n) (if nLastFlush n =? 0 then nNow a else nLastFlush n) n in
  let fDoFullFlush := full_flush a fFlushForPrune n in
  let d0 := disk_of n in
  if fDoFullFlush || periodic_write a n then
    if negb (blocks_space a) then Ok (Some "Disk space is too low!"%string, n, [d0])
    else
      s <-! FlushBlockFile fopens false (n_store n) ;
      let n := set_store s n in
      let d1 := disk_of n in
      n <-! write_index n ;
      let d2 := disk_of n in
      let n := if fFlushForPrune then set_store (UnlinkPrunedFiles setFilesToPrune (n_store n)) n else n in
      let d3 := disk_of n in
      let n := set_times (nNow a) (nLastFlush n) n in
      if fDoFullFlush then
        r <-! write_coins_tip a n ;
        let '(r, n, disks) := r in
        Ok (r, n, [d0; d1; d2; d3] ++ disks)
      else Ok (None, n, [d0; d1; d2; d3])
  else Ok (None, n, [d0]).

End flush.

(** * Correctness *)

(** ** A tree that was loaded *)

Lemma reloaded_has_data cs s b b' : reloaded cs s b b' -> has_bit (nStatus b') BLOCK_HAVE_DATA = has_bit (nStatus b) BLOCK_HAVE_DATA.
Proof. intros Hr. rewrite (reloaded_status _ _ _ _ Hr). destruct (inherits_failure _ _); [apply data_bit|done]. Qed.

Lemma reloaded_pos cs s b b' : reloaded cs s b b' -> GetBlockPos b' = GetBlockPos b.
Proof.
  intros Hr. unfold GetBlockPos. pose proof (reloaded_has_data cs s b b' Hr) as E. pose proof (reloaded_data _ _ _ _ Hr) as Hd. unfold has_bit in *. rewrite E.
  destruct (negb (Z.land (nStatus b) BLOCK_HAVE_DATA =? 0)); [|done]. destruct (Hd eq_refl) as [-> ->]. done.
Qed.

Lemma read_reloaded fopens params st cs s b b' : reloaded cs s b b' -> ReadBlockFromDisk_index fopens params st b' = ReadBlockFromDisk_index fopens params st b.
Proof. intros Hr. unfold ReadBlockFromDisk_index, GetBlockHash. by rewrite (reloaded_pos cs s b b' Hr), (reloaded_hash _ _ _ _ Hr). Qed.

(** Reading goes on while files are added, and where a file is not removed. *)
Lemma read_from_mono fopens (fs fs' : files) pos c : fs ⊆ fs' -> read_from fopens fs pos = Some c -> read_from fopens fs' pos = Some c.
Proof.
  intros Hsub. unfold read_from, Open. destruct (pos_IsNull pos); [done|]. destruct (negb _); [done|]. destruct (fs !! pos_nFile pos) as [x|] eqn:E; [|done].
  rewrite (lookup_weaken _ _ _ _ E Hsub), E, (lookup_weaken _ _ _ _ E Hsub). done.
Qed.

Lemma read_mono fopens params s s' b block : blk s ⊆ blk s' ->
  ReadBlockFromDisk_index fopens params s b = Ok (Some block) -> ReadBlockFromDisk_index fopens params s' b = Ok (Some block).
Proof.
  intros Hsub. unfold ReadBlockFromDisk_index, ReadBlockFromDisk_pos. destruct (read_from fopens (blk s) (GetBlockPos b)) as [c|] eqn:E; [|done].
  by rewrite (read_from_mono _ _ _ _ _ Hsub E).
Qed.

Lemma read_has_data fopens params s b block : ReadBlockFromDisk_index fopens params s b = Ok (Some block) -> has_data b = true.
Proof.
  unfold ReadBlockFromDisk_index, ReadBlockFromDisk_pos, GetBlockPos, has_data, missing_data. by destruct (Z.land (nStatus b) BLOCK_HAVE_DATA =? 0).
Qed.

Section transfer.
Context (cs s : ChainState).
Hypothesis Hcs : tree_ok cs.
Hypothesis Hs : tree_ok s.
Hypothesis Hload : forall (h : uint256) p b, m_block_index cs !! h = Some p -> entries cs !! p = Some b ->
  exists p' b', m_block_index s !! h = Some p' /\ entries s !! p' = Some b' /\ reloaded cs s b b'.

Lemma walk_reloaded n (h hq : uint256) p b q bq p' :
  m_block_index cs !! h = Some p -> entries cs !! p = Some b -> walk (entries cs) n p = Some q -> entries cs !! q = Some bq -> phashBlock bq = Some hq ->
  m_block_index s !! h = Some p' -> walk (entries s) n p' = m_block_index s !! hq.
Proof.
  revert h p b p'. induction n as [|n IH]; intros h p b p' Hp Hb Hw Hq Hhq Hp'; cbn [walk] in *.
  - injection Hw as <-. apply (tree_index _ Hcs) in Hp as (b1 & Hb1 & Hh1). rewrite <- Hp'. f_equal. congruence.
  - rewrite Hb in Hw. destruct (pprev b) as [r|] eqn:Er; [|done]. pose proof (wf_pprev _ _ _ (tree_wf _ Hcs p b Hb)) as Hprev. rewrite Er in Hprev. destruct Hprev as (br & Hbr & _).
    destruct (wf_hash _ _ _ (tree_wf _ Hcs r br Hbr)) as [hr Hhr]. destruct (Hload h p b Hp Hb) as (p2 & b' & Hp2 & Hb' & Hre). assert (p2 = p') as -> by congruence.
    pose proof (reloaded_parent _ _ _ _ Hre) as Hpar. unfold parent_hash in Hpar. rewrite Er in Hpar. cbn [mbind option_bind] in Hpar. rewrite Hbr in Hpar. cbn [mbind option_bind] in Hpar.
    rewrite Hhr in Hpar. rewrite Hb'. destruct (pprev b') as [r'|]; [|done]. cbn [mbind option_bind] in Hpar. destruct (entries s !! r') as [br'|] eqn:Ebr'; [|done]. cbn [mbind option_bind] in Hpar.
    apply (IH hr r br r'); [|done|done|done|done|]; apply (tree_index _); eauto.
Qed.

Lemma ancestor_reloaded (h hq : uint256) p b q bq p' q' :
  m_block_index cs !! h = Some p -> entries cs !! p = Some b -> ancestor (entries cs) q p -> entries cs !! q = Some bq -> phashBlock bq = Some hq ->
  m_block_index s !! h = Some p' -> m_block_index s !! hq = Some q' -> ancestor (entries s) q' p'.
Proof. intros Hp Hb [n Hn] Hq Hhq Hp' Hq'. exists n. by rewrite (walk_reloaded n h hq p b q bq p'). Qed.

(** The blocks that could be read for the replay still can. *)
Lemma readable_reloaded fopens params st (h : uint256) pnew bn pnew' blocks k :
  m_block_index cs !! h = Some pnew -> entries cs !! pnew = Some bn -> m_block_index s !! h = Some pnew' ->
  readable_block fopens params cs st pnew blocks k -> readable_block fopens params s st pnew' blocks k.
Proof.
  intros Hp Hb Hp' (q & b & Ea & Hq & Hk & Hrd & Hrep). rewrite (GetAncestor_spec _ _ _ _ (tree_wf _ Hcs) Hb) in Ea. injection Ea as Ea.
  destruct ((Chain.nHeight bn <? k) || (k <? 0)) eqn:Er; [done|]. destruct (wf_hash _ _ _ (tree_wf _ Hcs q b Hq)) as [hq Hhq].
  destruct (Hload hq q b) as (q' & b' & Hq' & Hb' & Hre); [apply (tree_index _ Hcs); eauto|done|].
  destruct (Hload h pnew bn Hp Hb) as (p2 & bn' & Hp2 & Hbn' & Hren). assert (p2 = pnew') as -> by congruence.
  pose proof (reloaded_counts _ _ _ _ Hre) as Ec. injection Ec as Ec _ _. pose proof (reloaded_counts _ _ _ _ Hren) as Ecn. injection Ecn as Ecn _ _.
  exists q', b'. split_and!; [|done|congruence| |done].
  - rewrite (GetAncestor_spec _ _ _ _ (tree_wf _ Hs) Hbn'), Ecn, Er. f_equal. rewrite (walk_reloaded _ h hq pnew bn q b pnew') by done. done.
  - by rewrite (read_reloaded _ _ _ cs s b b' Hre).
Qed.

End transfer.

(** ** A tree that was pruned *)

Lemma unset_data_header b p : disk_GetBlockHash (mkDisk (unset_data b) p) = disk_GetBlockHash (mkDisk b p).
Proof. reflexivity. Qed.

Lemma unset_data_valid d : valid_disk d -> valid_disk (mkDisk (unset_data (di_index d)) (hashPrev d)).
Proof.
  intros [Hh Hs Ht Hf Hp Hm Hv Hw Hhs Hst Hsig]. split; cbn [di_index hashPrev unset_data Chain.nHeight nStatus nTx nFile nDataPos nUndoPos nMoneySupply idx_nVersion nTime nBits idx_nNonce
    idx_hashMerkleRoot idx_hashStateRoot idx_hashUTXORoot nStakeModifier hashProof prevoutStake idx_vchBlockSig]; try done; try lia.
  assert (Hu : in_u 32 (nStatus (unset_data (di_index d)))); [|unfold in_u in Hu; cbn [nStatus unset_data] in Hu; lia].
  cbn [nStatus unset_data]. apply land_in_u, wrap_range; [lia| |lia]. apply land_in_u, wrap_range; [lia| |lia]. unfold in_u. lia.
Qed.

Lemma unset_data_level b : Z.land (nStatus (unset_data b)) BLOCK_VALID_MASK = Z.land (nStatus b) BLOCK_VALID_MASK.
Proof.
  unfold unset_data. cbn [nStatus]. rewrite <- !Z.land_assoc.
  by change (Z.land (u32 (Z.lnot BLOCK_HAVE_DATA)) (Z.land (u32 (Z.lnot BLOCK_HAVE_UNDO)) BLOCK_VALID_MASK)) with BLOCK_VALID_MASK.
Qed.

Section pruned.
Context (params : Params) (F : gset Z) (cs cs' : ChainState).
Hypothesis Hok : tree_ok cs.
Hypothesis Hmaps : index_maps (fun _ => prune_of F) cs cs'.

Lemma pruned_entry p b' : entries cs' !! p = Some b' -> exists b, entries cs !! p = Some b /\ b' = prune_of F b.
Proof. rewrite (maps_entries _ _ _ Hmaps). intros (b & Hb & ->)%fmap_Some. by exists b. Qed.

Lemma pruned_disk b d : CDiskBlockIndex_of (entries cs) b = Ok d -> CDiskBlockIndex_of (entries cs') (prune_of F b) = Ok (mkDisk (prune_of F b) (hashPrev d)).
Proof.
  unfold CDiskBlockIndex_of. destruct (prune_of_fields F b) as (Es & _). injection Es as _ Eq _ _. rewrite Eq. destruct (pprev b) as [q|]; [|by intros [= <-]].
  unfold deref. rewrite (maps_entries _ _ _ Hmaps). destruct (entries cs !! q) as [bq|]; [|done]. cbn [fmap option_fmap option_map of_option obind]. unfold GetBlockHash.
  destruct (prune_of_fields F bq) as (Es' & _). injection Es' as Eh _ _ _. rewrite Eh. destruct (phashBlock bq); [|done]. cbn [of_option obind]. by intros [= <-].
Qed.

Lemma pruned_storable : storable_tree params cs -> storable_tree params cs'.
Proof.
  intros Hs p b' (b & Hb & ->)%pruned_entry. destruct (Hs p b Hb) as [d [Hd Hv Hh Hn Hw Ht]]. pose proof (disk_of_index _ _ _ Hd) as Ei. exists (mkDisk (prune_of F b) (hashPrev d)).
  assert (E : disk_GetBlockHash (mkDisk (prune_of F b) (hashPrev d)) = disk_GetBlockHash d) by (destruct d as [b0 hp]; cbn in Ei; subst b0; unfold prune_of; by destruct (decide _)).
  split; [by apply pruned_disk| | | | |].
  - subst b. unfold prune_of. destruct (decide _); [by apply unset_data_valid|by destruct d].
  - rewrite E. destruct (prune_of_fields F b) as (Es & _). injection Es as Eh _ _ _. by rewrite Eh.
  - by rewrite E.
  - rewrite E. unfold prune_of. by destruct (decide _).
  - intros Hle. unfold prune_of in *. destruct (decide _); [|by apply Ht]. rewrite unset_data_level in Hle. by apply Ht.
Qed.

Lemma pruned_sums : sums_tree cs -> sums_tree cs'.
Proof.
  intros Hs p b' (b & Hb & ->)%pruned_entry. pose proof (Hs p b Hb) as Hb'.
  assert (Eq : (pprev (prune_of F b) ≫= (fun q => entries cs' !! q)) = prune_of F <$> (pprev b ≫= (fun q => entries cs !! q))).
  { destruct (prune_of_fields F b) as (Es & _). injection Es as _ -> _ _. destruct (pprev b) as [q|]; [|done]. cbn [mbind option_bind]. by rewrite (maps_entries _ _ _ Hmaps). }
  rewrite Eq. destruct (pprev b ≫= _) as [bq|]; cbn [fmap option_fmap option_map]; destruct Hb' as [Hw Ht Hx]; (split; [revert Hw|revert Ht|revert Hx]); unfold prune_of;
    destruct (decide (nFile b ∈ F)); try (destruct (decide (nFile bq ∈ F))); intros Hx'; exact Hx'.
Qed.

Lemma pruned_walk n q : walk (entries cs') n q = walk (entries cs) n q.
Proof.
  revert q. induction n as [|n IH]; intros q; [done|]. cbn [walk]. rewrite (maps_entries _ _ _ Hmaps). destruct (entries cs !! q) as [b|]; [|done]. cbn [fmap option_fmap option_map].
  destruct (prune_of_fields F b) as (Es & _). injection Es as _ -> _ _. destruct (pprev b); [apply IH|done].
Qed.

Lemma pruned_ancestors p k : GetAncestor (entries cs') p k = GetAncestor (entries cs) p k.
Proof.
  apply GetAncestor_ext; [apply (tree_wf _ Hok)|apply (tree_wf cs'), (index_pruned_tree F cs); done|apply pruned_walk|].
  intros q. rewrite (maps_entries _ _ _ Hmaps). destruct (entries cs !! q) as [b|]; [|done]. cbn. destruct (prune_of_fields F b) as (Es & _). by injection Es as _ _ _ ->.
Qed.

Lemma pruned_synced `{LevelDB D} (v v' : CDBWrapper D) :
  storable_tree params cs -> synced cs v -> (forall k, head k = Some DB_BLOCK_INDEX -> value k v' = value k v) -> synced cs' v'.
Proof.
  intros Hst [Hd Hs Ho] Hv. pose proof (index_pruned_tree F cs cs' Hok Hmaps) as Hok'. split.
  - intros p [Hp|Hp]%(maps_dirty _ _ _ Hmaps); rewrite (maps_entries _ _ _ Hmaps); [destruct (Hd p Hp) as [b ->]|destruct Hp as [b ->]]; by eexists.
  - intros h p d Hp Hc Hdisk. rewrite (maps_index _ _ _ Hmaps) in Hp. destruct (maps_clean _ _ _ Hmaps p Hc) as [Hc' E]. rewrite Hv by done. apply (Hs h p); [done|done|].
    apply (tree_index _ Hok) in Hp as Hp2. destruct Hp2 as (b & Hb & Hh). destruct (Hst p b Hb) as [d0 Hd0].
    apply (disk_tree_lookup params) in Hdisk as (p1 & b1 & Hp1 & Hb1 & Hd1); [|done|by apply pruned_storable]. rewrite (maps_index _ _ _ Hmaps) in Hp1.
    assert (p1 = p) as -> by congruence. assert (b1 = b) as -> by congruence. apply (disk_tree_lookup params); [done..|]. exists p, b. split_and!; [done|done|].
    assert (Ed : d = d0); [|by subst]. pose proof (storable_disk _ _ _ _ Hd0) as E0. pose proof (storable_disk _ _ _ _ Hd1) as E1.
    rewrite E in Hb1. assert (Epr : prune_of F b = b). { pose proof (maps_entries _ _ _ Hmaps p) as Em. rewrite E, Hb in Em. cbn in Em. congruence. }
    pose proof (pruned_disk b d0 E0) as E2. rewrite Epr in E2. rewrite E1 in E2. injection E2 as ->. pose proof (disk_of_index _ _ _ E0) as Ei. destruct d0. cbn in *. by subst.
  - intros k x Hx Hk. rewrite Hv in Hx by done. destruct (Ho k x Hx Hk) as (h & Hh & ->). exists h. by rewrite (maps_index _ _ _ Hmaps).
Qed.

End pruned.

(** ** Starting from a disk *)

Section start.
Context `{Laws : LevelDBLaws D} `{Keys : !LevelDBIterator D} `{KeyLaws : !LevelDBIteratorLaws D}.
Context (fopens : Z -> bool) (IsFullyValid : CPubKey -> bool) (Decompress : CPubKey -> option CPubKey) (batch_size : Z) (params : Params).
Hypothesis Hkeys : forall x y, length x = 32%nat -> length y = 32%nat -> IsFullyValid (0x04 :: x ++ y) = true ->
  Decompress ((2 + Z.land (nth 31 y 0) 0x01) :: x) = Some (0x04 :: x ++ y).

Definition fresh_store (d : Disk D) : BlockStore := mkBlockStore [] 0 ∅ false (d_blk d) (d_rev d).

Definition openable (fs : files) (f : Z) : Prop := is_Some (Open fopens fs (Build_FlatFilePos f 0) true).

(** The block index on the disk is that of the tree [m], and the files of its blocks are there. *)
Record startable (m : gmap uint256 CDiskBlockIndex) (d : Disk D) : Prop := {
  startable_tree : tree_db (d_tree d) m;
  startable_entries : map_Forall (disk_ok params m) m;
  startable_files (h : uint256) x : m !! h = Some x -> has_bit (nStatus (di_index x)) BLOCK_HAVE_DATA = true -> openable (d_blk d) (nFile (di_index x));
  startable_last : 0 <= default 0 (ReadLastBlockFile (d_tree d));
  startable_keys : Z.of_nat (length (ldb_entries (pdb (d_tree d)))) < 2 ^ 32 }.

(** A start from [d] succeeds: the tree is loaded, the coins are repaired, and their tip
    is in the tree. *)
Definition boots (d : Disk D) (s : ChainState) (db : CDBWrapper D) : Prop :=
  exists st pruned reindex logs, LoadBlockIndexDB params fopens (d_tree d) empty_state (fresh_store d) = Ok (true, s, st, pruned, reindex, logs) /\ tree_ok s /\
    ReplayBlocks fopens IsFullyValid Decompress batch_size params s st (d_coins d) = Ok (true, db) /\ GetHeadBlocks db = [] /\ is_Some (m_block_index s !! db_GetBestBlock db).

Lemma startable_loads m d : startable m d ->
  exists s st pruned reindex logs, LoadBlockIndexDB params fopens (d_tree d) empty_state (fresh_store d) = Ok (true, s, st, pruned, reindex, logs) /\
    LoadBlockIndex params (d_tree d) empty_state = Ok (true, s) /\ tree_ok s /\ (forall h : uint256, is_Some (m_block_index s !! h) <-> is_Some (m !! h)) /\ blk st = d_blk d.
Proof.
  intros [Hv Hm Hf Hl Hk]. destruct (LoadBlockIndex_spec params m Hm (d_tree d) Hv) as (s & El & Hok & Hdom & Hrest & _).
  destruct (LoadBlockIndexDB_spec params fopens (d_tree d) (fresh_store d) s El Hok Hk Hl) as (ok & infos & pruned & reindex & logs & E & _ & _ & Hiff).
  assert (Ht : ok = true).
  { apply Hiff. intros p b Hp Hb. destruct (wf_hash _ _ _ (tree_wf _ Hok p b Hp)) as [h Hh]. assert (Hi : m_block_index s !! h = Some p) by (apply (tree_index _ Hok); eauto).
    destruct (proj1 (Hdom h) (mk_is_Some _ _ Hi)) as [x Hx]. destruct (Hrest h x Hx) as (p' & b' & Hp' & Hb' & Hr). assert (p' = p) as -> by congruence. assert (b' = b) as -> by congruence.
    destruct (restored_file s h x b Hr) as [Hbit Hfile]. rewrite (Hfile Hb). apply (Hf h x); [done|]. by rewrite <- Hbit. }
  subst ok. by eexists s, _, pruned, reindex, logs.
Qed.

(** Before the coins are written *)
Lemma start_unchanged m d :
  startable m d -> GetHeadBlocks (d_coins d) = [] -> is_Some (m !! db_GetBestBlock (d_coins d)) -> exists s, boots d s (d_coins d).
Proof.
  intros Hs Hh Hb. destruct (startable_loads m d Hs) as (s & st & pruned & reindex & logs & E & _ & Hok & Hdom & _). exists s, st, pruned, reindex, logs.
  split_and!; [done|done| |done|by apply Hdom]. unfold ReplayBlocks. by rewrite Hh.
Qed.

(** Between the first and the last batch *)
Lemma start_interrupted cs st0 d (pold pnew : ptr) bo bn (hold hnew : uint256) blocks u :
  let un := apply_blocks (Z.to_nat (Chain.nHeight bn - Chain.nHeight bo)) (Chain.nHeight bo + 1) blocks u in
  startable (disk_tree cs) d -> tree_ok cs -> storable_tree params cs -> sums_tree cs ->
  entries cs !! pold = Some bo -> phashBlock bo = Some hold -> entries cs !! pnew = Some bn -> phashBlock bn = Some hnew -> ancestor (entries cs) pold pnew ->
  blob_IsNull hold = false -> blob_IsNull hnew = false -> length hnew = 32%nat -> blk st0 = d_blk d ->
  (forall k, Chain.nHeight bo < k <= Chain.nHeight bn -> readable_block fopens params cs st0 pnew blocks k) ->
  recoverable IsFullyValid Decompress hnew hold u un (d_coins d) ->
  exists s db, boots d s db /\ db_GetBestBlock db = hnew /\ forall o, valid_outpoint o -> db_GetCoin Decompress o db = un o.
Proof.
  intros un Hst Hcs Hsto Hsum Ho Hho Hn Hhn Ha Hnull Hnulln Hlen Eblk Hread Hd.
  destruct (startable_loads _ d Hst) as (s & st & pruned & reindex & logs & E & El & Hok & _ & Est).
  destruct (reload_spec params cs (d_tree d) Hcs Hsto Hsum (startable_tree _ _ Hst)) as (s' & El' & _ & _ & Hall & _).
  rewrite El in El'. injection El' as <-.
  assert (Hload : forall (h : uint256) p b, m_block_index cs !! h = Some p -> entries cs !! p = Some b ->
    exists p' b', m_block_index s !! h = Some p' /\ entries s !! p' = Some b' /\ reloaded cs s b b').
  { intros h p b Hp Hb. destruct (Hall h p b Hp Hb) as (p' & b' & H1 & H2 & H3 & _). by exists p', b'. }
  assert (Ip : m_block_index cs !! hold = Some pold) by (apply (tree_index _ Hcs); eauto). assert (In : m_block_index cs !! hnew = Some pnew) by (apply (tree_index _ Hcs); eauto).
  destruct (Hload hold pold bo Ip Ho) as (pold' & bo' & Ip' & Ho' & Hro). destruct (Hload hnew pnew bn In Hn) as (pnew' & bn' & In' & Hn' & Hrn).
  pose proof (reloaded_hash _ _ _ _ Hro) as Hho'. rewrite Hho in Hho'. pose proof (reloaded_hash _ _ _ _ Hrn) as Hhn'. rewrite Hhn in Hhn'.
  pose proof (reloaded_counts _ _ _ _ Hro) as Eo. injection Eo as Eo _ _. pose proof (reloaded_counts _ _ _ _ Hrn) as En. injection En as En _ _.
  destruct (replay_recovers fopens IsFullyValid Decompress batch_size params s st Hkeys pold' pnew' bo' bn' hold hnew Hok Ho' Hn' Hhn' Hnulln (d_coins d) blocks u)
    as (l & Er & _ & _ & Hcoins & Hbest & Hheads).
  - apply (ancestor_reloaded cs s Hcs Hok Hload hnew hold pnew bn pold bo); done.
  - done.
  - intros k Hk. rewrite Eo, En in Hk. apply (readable_reloaded cs s Hcs Hok Hload fopens params st hnew pnew bn); [done..|].
    destruct (Hread k Hk) as (q & b & Ea & Hq & Hh & Hr & Hrep). exists q, b. split_and!; [done..| |done]. apply (read_mono _ _ st0); [by rewrite Est, Eblk|done].
  - by rewrite Eo, En.
  - rewrite Eo, En in Hcoins. exists s, (write_batches l (d_coins d)). split_and!; [|done|done]. exists st, pruned, reindex, logs. split_and!; [done|done| |done|rewrite Hbest; by eexists].
    by rewrite (ReplayBlocks_replays _ _ _ _ _ s st pold' pnew' bo' bn' hold hnew Hok Ho' Hho' Hn' Hhn' Hnull (d_coins d) u un Hd).
Qed.

End start.

(** ** The databases after a write *)

Section writes.
Context `{Laws : LevelDBLaws D} `{Keys : !LevelDBIterator D} `{KeyLaws : !LevelDBIteratorLaws D}.

(** A batch adds at most one key per operation. *)
Lemma batch_keys b (v : CDBWrapper D) : (length (ldb_entries (pdb (WriteBatch b v))) <= length (ldb_entries (pdb v)) + length (batch_ops b))%nat.
Proof.
  set (l := ldb_entries (pdb (WriteBatch b v))). assert (Hnd : NoDup l.*1).
  { pose proof (ldb_entries_sorted (pdb (WriteBatch b v))) as Hs. fold l in Hs. induction Hs as [|x l' Hs IH Hx]; [constructor|]. cbn [fmap list_fmap]. constructor; [|exact IH].
    intros (y & E & Hy)%list_elem_of_fmap. rewrite Forall_forall in Hx. specialize (Hx y Hy). cbn in Hx. by rewrite E, bytes_ltb_irrefl in Hx. }
  assert (Hsub : l.*1 ⊆ (ldb_entries (pdb v)).*1 ++ map op_key (batch_ops b)).
  { intros k ((k' & x) & -> & Hx)%list_elem_of_fmap. apply ldb_entries_Get in Hx. cbn [pdb WriteBatch fst] in *. rewrite ldb_Get_Write in Hx. apply elem_of_app.
    destruct (fold_ops_cases k' (batch_ops b) (ldb_Get k' (pdb v))) as [E|[E|(y & Hy & E)]]; rewrite E in Hx; [left|done|right].
    - apply ldb_entries_Get in Hx. exact (list_elem_of_fmap_2 fst _ _ Hx).
    - exact (list_elem_of_fmap_2 op_key _ _ Hy). }
  apply NoDup_submseteq in Hsub; [|done]. apply submseteq_length in Hsub. rewrite length_app, !length_fmap in Hsub. exact Hsub.
Qed.

Lemma fold_batch_length {A} (kf vf : A -> bytes) (v : CDBWrapper D) l batch :
  length (batch_ops (fold_left (fun batch x => batch_Write v (kf x) (vf x) batch) l batch)) = (length (batch_ops batch) + length l)%nat.
Proof. revert batch. induction l as [|x l IH]; intros batch; cbn [fold_left length]; [lia|]. rewrite IH. unfold batch_Write. cbn [batch_ops]. rewrite length_app. cbn. lia. Qed.

Lemma disk_entries_length st l r : disk_entries st l = Ok r -> length r = length l.
Proof.
  revert r. induction l as [|p l IH]; intros r; cbn [disk_entries]; [by intros [= <-]|]. destruct (deref st p) as [b| |]; [|done..]. cbn [obind]. destruct (GetBlockHash b); [|done..]. cbn [obind].
  destruct (CDiskBlockIndex_of st b); [|done..]. cbn [obind]. destruct (disk_entries st l) as [r'| |]; [|done..]. cbn [obind]. intros [= <-]. cbn [length]. by rewrite (IH r').
Qed.

Lemma WriteBatchSync_rest ver files last st blockinfo (v v' : CDBWrapper D) :
  in_s 32 last -> WriteBatchSync ver files last st blockinfo v = Ok v' ->
  ReadLastBlockFile v' = Some last /\ (length (ldb_entries (pdb v')) <= length (ldb_entries (pdb v)) + (length files + 1 + length blockinfo))%nat.
Proof.
  intros Hl. unfold WriteBatchSync. destruct (disk_entries st blockinfo) as [l| |] eqn:El; [|done..]. cbn [obind]. intros [= <-]. split.
  - unfold ReadLastBlockFile. rewrite db_Read_value, value_WriteBatch, plain_fold, plain_Write, plain_fold, !fold_left_app. rewrite fold_ops_absent.
    + cbn [fold_left apply_op]. rewrite bool_decide_eq_true_2 by done. cbn [mbind option_bind]. rewrite <- (app_nil_r (Serialize_int32 last)), int32_round_trip by done. done.
    + apply Forall_map, Forall_forall. intros [h d] _ E. by apply (f_equal (@head Z)) in E.
  - etrans; [apply batch_keys|]. rewrite fold_batch_length. unfold batch_Write at 1. cbn [batch_ops]. rewrite length_app, fold_batch_length, (disk_entries_length _ _ _ El). cbn. lia.
Qed.

(** The flag for pruned files *)
Lemma WriteFlag_rest name x (v : CDBWrapper D) :
  (forall k, head k <> Some DB_FLAG -> value k (WriteFlag name x v) = value k v) /\
  (length (ldb_entries (pdb (WriteFlag name x v))) <= length (ldb_entries (pdb v)) + 1)%nat.
Proof.
  split; [|apply batch_keys]. intros k Hk. unfold WriteFlag. rewrite value_WriteBatch, plain_Write. cbn [map batch_ops CDBBatch_new app fold_left apply_op].
  rewrite bool_decide_eq_false_2; [done|]. intros E. apply Hk. by rewrite E.
Qed.

Lemma dirty_infos_spec l (s : BlockStore) : Forall (fun f => 0 <= f < Z.of_nat (length (vinfoBlockFile s))) l -> exists r, dirty_infos l s = Ok r /\ length r = length l.
Proof.
  induction 1 as [|f l Hf _ (r & IH & Hr)]; [by exists []|]. destruct (lookup_lt_is_Some_2 (vinfoBlockFile s) (Z.to_nat f)) as [i Hi]; [lia|]. exists ((f, i) :: r).
  cbn [dirty_infos length]. rewrite (info_at_lookup f s i) by (done || lia). cbn [obind]. rewrite IH. cbn [obind]. by rewrite Hr.
Qed.

End writes.

(** The flush of the last file without finalizing it may only create it. *)
Lemma Flush_grows fopens (fs : files) pos : fs ⊆ snd (BlockStore.Flush fopens fs pos false).
Proof.
  unfold BlockStore.Flush, Open. destruct (pos_IsNull _); [done|]. destruct (negb _); [done|]. cbn [pos_nFile]. destruct (fs !! pos_nFile pos) eqn:E; [done|]. cbn [snd]. by apply insert_subseteq.
Qed.

Lemma FlushBlockFile_grows fopens (s : BlockStore) i :
  0 <= nLastBlockFile s -> vinfoBlockFile s !! Z.to_nat (nLastBlockFile s) = Some i ->
  exists fs fs', FlushBlockFile fopens false s = Ok (set_rev fs' (set_blk fs s)) /\ blk s ⊆ fs.
Proof. intros Hn Hi. unfold FlushBlockFile. rewrite (info_at_lookup _ s i Hn Hi). cbn [obind]. eexists _, _. split; [reflexivity|]. apply Flush_grows. Qed.

Lemma openable_mono fopens (fs fs' : files) f : fs ⊆ fs' -> openable fopens fs f -> openable fopens fs' f.
Proof.
  intros Hsub. unfold openable, Open. destruct (pos_IsNull _); [done|]. destruct (negb _); [done|]. cbn [pos_nFile]. destruct (fs !! f) as [x|] eqn:E; [|by intros [? ?]].
  intros _. rewrite (lookup_weaken _ _ _ _ E Hsub). by eexists.
Qed.

Lemma openable_unlinked fopens (s : BlockStore) F f : f ∉ F -> openable fopens (blk s) f -> openable fopens (blk (UnlinkPrunedFiles F s)) f.
Proof.
  intros Hf. unfold openable, Open. destruct (pos_IsNull _); [done|]. destruct (negb _); [done|]. cbn [pos_nFile blk UnlinkPrunedFiles set_rev set_blk]. destruct (blk s !! f) as [x|] eqn:E; [|by intros [? ?]].
  intros _. assert (El : (filter (fun x => fst x ∉ F) (blk s) : files) !! f = Some x) by by apply map_lookup_filter_Some. rewrite El. by eexists.
Qed.

(** ** A flush and the crashes during it *)

Section crash.
Context `{Laws : LevelDBLaws D} `{Keys : !LevelDBIterator D} `{KeyLaws : !LevelDBIteratorLaws D}.
Context (fopens : Z -> bool) (IsFullyValid : CPubKey -> bool) (Decompress : CPubKey -> option CPubKey) (batch_size : Z) (_nVersion : Z) (params : Params).
Context (fPruneMode fReindex : bool) (nPruneTarget nPruneAfterHeight : Z).
Hypothesis Hkeys : forall x y, length x = 32%nat -> length y = 32%nat -> IsFullyValid (0x04 :: x ++ y) = true ->
  Decompress ((2 + Z.land (nth 31 y 0) 0x01) :: x) = Some (0x04 :: x ++ y).
Hypothesis Hversion : 0 <= _nVersion <= 2 ^ 31 - 1.

(** The tips of the coins on disk and of the cache, the blocks between them, and the index on disk *)
Context (pold pnew : ptr) (bo bn : CBlockIndex) (hold hnew : uint256) (blocks : Z -> CBlock) (m0 : gmap uint256 CDiskBlockIndex).

Definition old_coins (n : Node D) : coins := fun o => db_GetCoin Decompress o (base (n_coins n)).
Definition new_coins (n : Node D) : coins := apply_blocks (Z.to_nat (Chain.nHeight bn - Chain.nHeight bo)) (Chain.nHeight bo + 1) blocks (old_coins n).

Record node_ok (n : Node D) : Prop := {
  node_cacheview : m_cacheview n = true;
  node_tree : tree_ok (n_chain n);
  node_storable : storable_tree params (n_chain n);
  node_sums : sums_tree (n_chain n);
  node_synced : synced (n_chain n) (n_tree n);
  node_disk : startable fopens params m0 (disk_of n);
  node_old_tip : is_Some (m0 !! hold);
  node_keys : Z.of_nat (length (ldb_entries (pdb (n_tree n))) + size (entries (n_chain n)) + length (vinfoBlockFile (n_store n)) + 2) < 2 ^ 32;
  node_files p b : entries (n_chain n) !! p = Some b -> has_data b = true -> openable fopens (blk (n_store n)) (nFile b);
  node_store : store_ok (n_store n) /\ vinfoBlockFile (n_store n) <> [];
  node_covers : covers (n_chain n) (n_store n);
  node_dirty_files f : f ∈ setDirtyFileInfo (n_store n) -> 0 <= f < Z.of_nat (length (vinfoBlockFile (n_store n)));
  node_tips : Tip (m_chain (n_chain n)) = Some pnew /\ entries (n_chain n) !! pold = Some bo /\ entries (n_chain n) !! pnew = Some bn;
  node_hashes : phashBlock bo = Some hold /\ phashBlock bn = Some hnew /\ blob_IsNull hold = false /\ blob_IsNull hnew = false /\ length hnew = 32%nat;
  node_branch : ancestor (entries (n_chain n)) pold pnew;
  node_blocks k : Chain.nHeight bo < k <= Chain.nHeight bn -> readable_block fopens params (n_chain n) (n_store n) pnew blocks k;
  node_db : db_ok IsFullyValid (base (n_coins n)) /\ GetHeadBlocks (base (n_coins n)) = [] /\ db_GetBestBlock (base (n_coins n)) = hold;
  node_cache : hashBlock (n_coins n) = hnew /\ writable (cacheCoins (n_coins n)) /\ forall o, valid_outpoint o -> overlay (cacheCoins (n_coins n)) (old_coins n) o = new_coins n o;
  node_prune : fPruneMode = true -> MIN_BLOCKS_TO_KEEP <= Chain.nHeight bn < 2 ^ 31 /\ Chain.nHeight bn - MIN_BLOCKS_TO_KEEP <= Chain.nHeight bo /\ in_u 64 nPruneTarget }.

(** What pruning leaves *)
Record pruned_node (F : gset Z) (n n' : Node D) : Prop := {
  pn_maps : index_maps (fun _ => prune_of F) (n_chain n) (n_chain n');
  pn_store : store_pruned F (n_store n) (n_store n');
  pn_coins : n_coins n' = n_coins n;
  pn_values k : head k <> Some DB_FLAG -> value k (n_tree n') = value k (n_tree n);
  pn_keys : (length (ldb_entries (pdb (n_tree n'))) <= length (ldb_entries (pdb (n_tree n))) + 1)%nat;
  pn_range f : f ∈ F -> 0 <= f < nLastBlockFile (n_store n);
  pn_recent p b : entries (n_chain n) !! p = Some b -> has_data b = true -> Chain.nHeight bo < Chain.nHeight b -> nFile b ∉ F }.

Lemma pruned_recent n (F : gset Z) lim : node_ok n -> lim <= Chain.nHeight bo -> (forall f, f ∈ F -> 0 <= f < nLastBlockFile (n_store n) /\ prunable (n_store n) lim f) ->
  forall p b, entries (n_chain n) !! p = Some b -> has_data b = true -> Chain.nHeight bo < Chain.nHeight b -> nFile b ∉ F.
Proof.
  intros Hn Hlim HF p b Hp Hd Hh Hin. destruct (HF _ Hin) as (_ & i & Hi & _ & Hle). destruct (node_covers _ Hn p b Hp Hd) as (_ & j & Hj & Hhj). rewrite Hi in Hj. injection Hj as <-. lia.
Qed.

(** The prune step, whichever of the two searches is used *)
Lemma pruned_node_intro n (F : gset Z) cs s lim w f :
  node_ok n -> pruned_to (n_chain n) (n_store n) F cs s -> lim <= Chain.nHeight bo -> (forall f, f ∈ F -> 0 <= f < nLastBlockFile (n_store n) /\ prunable (n_store n) lim f) ->
  exists n', (if decide (F = ∅) then Ok (F, mkNode (m_cacheview n) cs s (n_coins n) (n_tree n) (fHavePruned n) w f)
    else Ok (F, mkNode (m_cacheview n) cs s (n_coins n) (if fHavePruned n then n_tree n else WriteFlag pruned_flag true (n_tree n)) true w f)) = Ok (F, n') /\ pruned_node F n n'.
Proof.
  intros Hn [Hi Hs] Hlim HF. pose proof (pruned_recent n F lim Hn Hlim HF) as Hrec. destruct (WriteFlag_rest pruned_flag true (n_tree n)) as [Hv Hk].
  destruct (decide (F = ∅)); [|destruct (fHavePruned n)]; eexists; (split; [reflexivity|]); split; cbn [n_chain n_store n_coins n_tree]; try done; try lia; intros x Hx; by apply HF.
Qed.

Lemma find_prune_spec a n : node_ok n -> nManualPruneHeight a < 2 ^ 31 ->
  exists F n', find_prune fPruneMode fReindex nPruneTarget nPruneAfterHeight a n = Ok (F, n') /\ pruned_node F n n'.
Proof.
  intros Hn Ha. unfold find_prune. destruct (fPruneMode && _ && _) eqn:E.
  - apply andb_true_iff in E as [E _]. apply andb_true_iff in E as [Em _]. destruct (node_prune _ Hn Em) as (Hh & Hlim & Ht). destruct (node_tips _ Hn) as (Htip & _ & Hbn).
    pose proof (node_tree _ Hn) as Hok. destruct (node_store _ Hn) as [Hst _]. destruct (Z.ltb_spec 0 (nManualPruneHeight a)).
    + rewrite Em. destruct (FindFilesToPruneManual_spec (nManualPruneHeight a) (n_chain n) (n_store n) pnew bn Hok Hst Htip Hbn Hh ltac:(lia)) as (F & cs & s & -> & Hp & HF & _). cbn [obind].
      destruct (pruned_node_intro n F cs s (Z.min (nManualPruneHeight a) (Chain.nHeight bn - MIN_BLOCKS_TO_KEEP)) (nLastWrite n) (nLastFlush n) Hn Hp ltac:(lia) HF) as (n' & E' & Hn'). by exists F, n'.
    + destruct (FindFilesToPrune_spec nPruneTarget nPruneAfterHeight (downloading a) (n_chain n) (n_store n) pnew bn Hok Hst Htip Hbn Hh Ht) as (F & cs & s & -> & Hp & HF & _). cbn [obind].
      assert (Hp' : pruned_to (n_chain n) (n_store n) F cs (set_fCheckForPruning false s)) by (destruct Hp as [Hi []]; split; [done|by split]).
      destruct (pruned_node_intro n F cs _ _ (nLastWrite n) (nLastFlush n) Hn Hp' Hlim HF) as (n' & E' & Hn'). by exists F, n'.
  - exists ∅, n. split; [done|]. destruct (pruned_to_refl (n_chain n) (n_store n)) as [Hi Hs]. split; try done. lia.
Qed.

(** The disk after pruning has the old index still. *)
Lemma pruned_startable F n n' d : node_ok n -> pruned_node F n n' -> d_tree d = n_tree n' -> blk (n_store n) ⊆ d_blk d -> startable fopens params m0 d.
Proof.
  intros Hn Hp Et Hsub. destruct (node_disk _ Hn) as [Hv Hm Hf Hl Hk]. cbn [disk_of d_tree d_blk] in *. split; [| |intros h x Hx Hb; apply (openable_mono _ _ _ _ Hsub); by apply (Hf h x)| |].
  - rewrite Et. destruct Hv as [H1 H2]. split; [intros h x Hx; rewrite (pn_values _ _ _ Hp) by done; by apply H1|]. intros k x Hx Hh. apply (H2 k x); [|done]. by rewrite (pn_values _ _ _ Hp) in Hx by (by rewrite Hh).
  - exact Hm.
  - rewrite Et. unfold ReadLastBlockFile in *. rewrite db_Read_value, (pn_values _ _ _ Hp), <- db_Read_value by done. exact Hl.
  - rewrite Et. pose proof (pn_keys _ _ _ Hp). pose proof (node_keys _ Hn). lia.
Qed.

Lemma pruned_store_facts F n n' : node_ok n -> pruned_node F n n' ->
  nLastBlockFile (n_store n') = nLastBlockFile (n_store n) /\ length (vinfoBlockFile (n_store n')) = length (vinfoBlockFile (n_store n)) /\ blk (n_store n') = blk (n_store n) /\
  (forall f, f ∈ setDirtyFileInfo (n_store n') -> 0 <= f < Z.of_nat (length (vinfoBlockFile (n_store n)))) /\ 0 <= nLastBlockFile (n_store n) < Z.of_nat (length (vinfoBlockFile (n_store n))).
Proof.
  intros Hn Hp. pose proof (pn_store _ _ _ Hp) as Hs. destruct (node_store _ Hn) as [[Hl _ _] Hne]. assert (Hlen : (0 < length (vinfoBlockFile (n_store n)))%nat) by (by destruct (vinfoBlockFile (n_store n)); [|cbn; lia]).
  split_and!; [apply Hs|by apply (store_pruned_length (n_store n) F)|apply Hs| |lia|lia].
  intros f Hf. rewrite (pruned_dirty _ _ _ Hs) in Hf. apply elem_of_union in Hf as [Hf|Hf]; [|by apply (node_dirty_files _ Hn)]. pose proof (pn_range _ _ _ Hp f Hf). lia.
Qed.

Lemma bounded_size (X : gset Z) k : (forall f, f ∈ X -> 0 <= f < Z.of_nat k) -> (size X <= k)%nat.
Proof.
  intros HX. rewrite <- (length_seq k 0), <- (length_map Z.of_nat). unfold size, set_size. cbn. apply submseteq_length, NoDup_submseteq; [apply NoDup_elements|].
  intros f Hf%elem_of_elements%HX. apply list_elem_of_In, in_map_iff. exists (Z.to_nat f). split; [lia|apply in_seq; lia].
Qed.

(** The index is written: the node has nothing left to write there. *)
Lemma write_index_spec F n n1 s1 : node_ok n -> pruned_node F n n1 ->
  vinfoBlockFile s1 = vinfoBlockFile (n_store n1) -> nLastBlockFile s1 = nLastBlockFile (n_store n1) -> setDirtyFileInfo s1 = setDirtyFileInfo (n_store n1) ->
  exists v, write_index _nVersion (set_store s1 n1) =
      Ok (mkNode (m_cacheview n1) (clear_dirty_index (n_chain n1)) (clear_dirty_files s1) (n_coins n1) v (fHavePruned n1) (nLastWrite n1) (nLastFlush n1)) /\
    tree_db v (disk_tree (n_chain n1)) /\ 0 <= default 0 (ReadLastBlockFile v) /\ Z.of_nat (length (ldb_entries (pdb v))) < 2 ^ 32.
Proof.
  intros Hn Hp Ev El Ed. destruct (pruned_store_facts F n n1 Hn Hp) as (Elast & Elen & _ & Hdirty & Hlast). unfold write_index, set_store. cbn [n_store n_chain n_tree n_coins fHavePruned nLastWrite nLastFlush].
  pose proof (pn_maps _ _ _ Hp) as Hi. pose proof (node_tree _ Hn) as Hok.
  assert (Hsync : synced (n_chain n1) (n_tree n1)).
  { apply (pruned_synced params F (n_chain n) (n_chain n1) Hok Hi (n_tree n)); [apply Hn|apply Hn|]. intros k Hk. apply (pn_values _ _ _ Hp). by rewrite Hk. }
  assert (Hst1 : storable_tree params (n_chain n1)) by (apply (pruned_storable params F (n_chain n)); [done|apply Hn]).
  set (fl := merge_sort Z.le (elements (setDirtyFileInfo s1))). assert (HPf : fl ≡ₚ elements (setDirtyFileInfo s1)) by apply merge_sort_Permutation.
  destruct (dirty_infos_spec fl s1) as (r & Er & Hr).
  { apply Forall_forall. intros f Hf. rewrite HPf, elem_of_elements, Ed in Hf. rewrite Ev, Elen. by apply Hdirty. }
  rewrite Er. cbn [obind]. set (bl := merge_sort Pos.le (elements (setDirtyBlockIndex (n_chain n1)))). assert (HPb : bl ≡ₚ elements (setDirtyBlockIndex (n_chain n1))) by apply merge_sort_Permutation.
  destruct (synced_flush _nVersion params r (nLastBlockFile s1) bl (n_chain n1) (n_tree n1) Hversion (index_pruned_tree _ _ _ Hok Hi) Hst1 Hsync HPb) as (v & Ew & Hv). rewrite Ew. cbn [obind].
  destruct (WriteBatchSync_rest _nVersion r (nLastBlockFile s1) (entries (n_chain n1)) bl (n_tree n1) v) as [Hrd Hsz]; [|exact Ew|].
  { rewrite El, Elast. pose proof (store_count _ (proj1 (node_store _ Hn))). unfold in_s. cbn. lia. }
  exists v. split_and!; [done|done|rewrite Hrd; cbn; lia|].
  assert (Hb : (length bl <= size (entries (n_chain n)))%nat).
  { rewrite HPb, <- size_dom. apply (subseteq_size (setDirtyBlockIndex (n_chain n1)) (dom (entries (n_chain n)))). intros p Hp'. apply elem_of_dom.
    destruct (synced_dirty _ _ Hsync p Hp') as [b Hb]. rewrite (maps_entries _ _ _ Hi) in Hb. apply fmap_Some in Hb as (b' & Hb' & _). by exists b'. }
  assert (Hf : (length r <= length (vinfoBlockFile (n_store n)))%nat).
  { rewrite Hr, HPf, Ed. apply (bounded_size (setDirtyFileInfo (n_store n1))). exact Hdirty. }
  pose proof (pn_keys _ _ _ Hp). pose proof (node_keys _ Hn). lia.
Qed.

(** From then on the disk has the new index, *)
Lemma written_startable F n n1 d : node_ok n -> pruned_node F n n1 ->
  tree_db (d_tree d) (disk_tree (n_chain n1)) -> 0 <= default 0 (ReadLastBlockFile (d_tree d)) -> Z.of_nat (length (ldb_entries (pdb (d_tree d)))) < 2 ^ 32 ->
  (forall f, f ∉ F -> openable fopens (blk (n_store n)) f -> openable fopens (d_blk d) f) -> startable fopens params (disk_tree (n_chain n1)) d.
Proof.
  intros Hn Hp Hv Hl Hk Hf. pose proof (pn_maps _ _ _ Hp) as Hi. pose proof (node_tree _ Hn) as Hok. pose proof (index_pruned_tree _ _ _ Hok Hi) as Hok1.
  assert (Hst1 : storable_tree params (n_chain n1)) by (apply (pruned_storable params F (n_chain n)); [done|apply Hn]).
  split; [done|by apply disk_tree_ok| |done|done]. intros h x Hx Hb. apply (disk_tree_lookup params) in Hx as (p & b & Hp1 & Hb1 & Hs); [|done..].
  rewrite (disk_of_index _ _ _ (storable_disk _ _ _ _ Hs)) in *. destruct (pruned_entry F (n_chain n) (n_chain n1) Hi p b Hb1) as (b0 & Hb0 & ->). change (has_data (prune_of F b0) = true) in Hb.
  unfold prune_of in *. destruct (decide (nFile b0 ∈ F)) as [|HnF]; [by rewrite unset_data_missing in Hb|]. apply Hf; [done|]. by apply (node_files _ Hn p).
Qed.

(** and the blocks for a replay are there. *)
Lemma written_readable F n n1 s k : node_ok n -> pruned_node F n n1 ->
  (forall b block, nFile b ∉ F -> ReadBlockFromDisk_index fopens params (n_store n) b = Ok (Some block) -> ReadBlockFromDisk_index fopens params s b = Ok (Some block)) ->
  Chain.nHeight bo < k <= Chain.nHeight bn -> readable_block fopens params (n_chain n1) s pnew blocks k.
Proof.
  intros Hn Hp Hread Hk. destruct (node_blocks _ Hn k Hk) as (q & b & Ea & Hq & Hh & Hr & Hrep). pose proof (read_has_data _ _ _ _ _ Hr) as Hd.
  assert (HnF : nFile b ∉ F) by (apply (pn_recent _ _ _ Hp q b Hq Hd); lia). exists q, b.
  rewrite (pruned_ancestors F (n_chain n) (n_chain n1) (node_tree _ Hn) (pn_maps _ _ _ Hp)). split_and!; [done| |done|by apply Hread|done].
  rewrite (maps_entries _ _ _ (pn_maps _ _ _ Hp)), Hq. cbn. unfold prune_of. by rewrite decide_False.
Qed.

(** A start from [d] succeeds, with the coins before or after the flush. *)
Definition safe (n : Node D) (d : Disk D) : Prop :=
  exists s db, boots fopens IsFullyValid Decompress batch_size params d s db /\
    ((db_GetBestBlock db = hold /\ forall o, valid_outpoint o -> db_GetCoin Decompress o db = old_coins n o) \/
     (db_GetBestBlock db = hnew /\ forall o, valid_outpoint o -> db_GetCoin Decompress o db = new_coins n o)).

Lemma safe_old m n d : node_ok n -> startable fopens params m d -> is_Some (m !! hold) -> d_coins d = base (n_coins n) -> safe n d.
Proof.
  intros Hn Hs Hm Ec. destruct (node_db _ Hn) as (_ & Hh & Hb). destruct (start_unchanged fopens IsFullyValid Decompress batch_size params m d Hs) as [s Hboot]; [by rewrite Ec|by rewrite Ec, Hb|].
  exists s, (d_coins d). split; [done|]. left. rewrite Ec. by split.
Qed.

Lemma tips_stored F n n1 : node_ok n -> pruned_node F n n1 -> is_Some (disk_tree (n_chain n1) !! hold) /\ is_Some (disk_tree (n_chain n1) !! hnew).
Proof.
  intros Hn Hp. pose proof (pn_maps _ _ _ Hp) as Hi. pose proof (node_tree _ Hn) as Hok. pose proof (index_pruned_tree _ _ _ Hok Hi) as Hok1.
  assert (Hst1 : storable_tree params (n_chain n1)) by (apply (pruned_storable params F (n_chain n)); [done|apply Hn]).
  assert (Hone : forall p b (h : uint256), entries (n_chain n) !! p = Some b -> phashBlock b = Some h -> is_Some (disk_tree (n_chain n1) !! h)).
  { intros p b h Hb Hh. assert (Hb1 : entries (n_chain n1) !! p = Some (prune_of F b)) by (by rewrite (maps_entries _ _ _ Hi), Hb).
    destruct (Hst1 p _ Hb1) as [d Hd]. exists d. apply (disk_tree_lookup params); [done..|]. exists p, (prune_of F b). split_and!; [|done|done].
    rewrite (maps_index _ _ _ Hi). apply (tree_index _ Hok). by exists b. }
  destruct (node_tips _ Hn) as (_ & Ho & Hb). destruct (node_hashes _ Hn) as (Hho & Hhn & _). split; [by apply (Hone pold bo)|by apply (Hone pnew bn)].
Qed.

(** The coins are written batch by batch. *)
Lemma write_coins_tip_spec a F n n1 n3 : node_ok n -> pruned_node F n n1 -> n_coins n3 = n_coins n ->
  (forall c, startable fopens params (disk_tree (n_chain n1)) (disk_of (set_coins c n3))) ->
  (forall k, Chain.nHeight bo < k <= Chain.nHeight bn -> readable_block fopens params (n_chain n1) (n_store n3) pnew blocks k) ->
  exists r n4 disks, write_coins_tip IsFullyValid Decompress batch_size a n3 = Ok (r, n4, disks) /\ Forall (safe n) disks /\
    ((forall x, coins_space a x = true) -> r = None /\ n_chain n4 = n_chain n3 /\ n_tree n4 = n_tree n3 /\
      db_GetBestBlock (base (n_coins n4)) = hnew /\ forall o, valid_outpoint o -> db_GetCoin Decompress o (base (n_coins n4)) = new_coins n o).
Proof.
  intros Hn Hp Ec Hst Hread. destruct (node_cache _ Hn) as (Hbest & Hw & Hov). destruct (node_db _ Hn) as (Hdb & Hheads & Hold'). destruct (node_hashes _ Hn) as (Hho & Hhn & Hnull & Hnulln & Hlen).
  unfold write_coins_tip, cache_GetBestBlock. rewrite Ec, Hbest, Hnulln, Hbest, Hnulln. destruct (coins_space a _) eqn:Esp; cbn [negb]; [|do 3 eexists; split_and!; [done|constructor|intros Hall; by rewrite Hall in Esp]].
  assert (Hfl : flushable hnew (base (n_coins n))) by (split_and!; [done|done|]; rewrite Hold'; congruence).
  destruct (flush_batches_spec IsFullyValid Decompress batch_size Hkeys (cacheCoins (n_coins n)) hnew (base (n_coins n)) Hdb Hfl Hw) as (l & El & Ew & [Hdb1 Hu1 Hb1 Hh1] & Hmid).
  rewrite El. cbn [obind]. unfold Coins.Flush. rewrite Hbest.
  change (BatchWrite (cacheCoins (n_coins n)) hnew (base (n_coins n))) with (db_BatchWrite IsFullyValid batch_size (cacheCoins (n_coins n)) hnew (base (n_coins n))). rewrite Ew. cbn [obind].
  do 3 eexists. split; [reflexivity|]. split; [|intros _; cbn; split_and!; [done..|]; intros o Ho; rewrite Hu1 by done; by apply Hov].
  pose proof (index_pruned_tree _ _ _ (node_tree _ Hn) (pn_maps _ _ _ Hp)) as Hok1. destruct (tips_stored F n n1 Hn Hp) as [_ Hnewin].
  apply Forall_map, Forall_forall. intros k Hk%elem_of_seq. cbn. destruct (decide (k = length l)) as [->|Hne].
  - rewrite firstn_all. destruct (start_unchanged fopens IsFullyValid Decompress batch_size params _ _ (Hst (set_base (write_batches l (base (n_coins n))) (n_coins n)))) as [s Hboot]; [done|cbn; by rewrite Hb1|].
    exists s, (write_batches l (base (n_coins n))). split; [exact Hboot|]. right. split; [done|]. intros o Ho. rewrite Hu1 by done. by apply Hov.
  - destruct (Hmid k ltac:(lia)) as [Hdb2 Hu2 Hb2 Hh2]. destruct (node_tips _ Hn) as (_ & Ho & Hbn). pose proof (pn_maps _ _ _ Hp) as Hi.
    destruct (prune_of_fields F bo) as (Eso & _). injection Eso as Eso1 _ _ Eso2. destruct (prune_of_fields F bn) as (Esn & _). injection Esn as Esn1 _ _ Esn2.
    destruct (start_interrupted fopens IsFullyValid Decompress batch_size params Hkeys (n_chain n1) (n_store n3) _ pold pnew (prune_of F bo) (prune_of F bn) hold hnew blocks (old_coins n)
      (Hst (set_base (write_batches (take k l) (base (n_coins n))) (n_coins n))) Hok1) as (s & db & Hboot & Hbest' & Hcoins); try done.
    + apply (pruned_storable params F (n_chain n)); [done|apply Hn].
    + apply (pruned_sums F (n_chain n)); [done|apply Hn].
    + by rewrite (maps_entries _ _ _ Hi), Ho.
    + congruence.
    + by rewrite (maps_entries _ _ _ Hi), Hbn.
    + congruence.
    + destruct (node_branch _ Hn) as [j Hj]. exists j. by rewrite (pruned_walk F (n_chain n)).
    + rewrite Eso2, Esn2. exact Hread.
    + rewrite Eso2, Esn2. split; cbn; [done|done| |].
      * rewrite Hh2. unfold old_tip. by rewrite Hold', Hnull.
      * intros o Ho'. destruct (Hu2 o Ho') as [E|E]; [by left|right]. rewrite E. by apply Hov.
    + rewrite Eso2, Esn2 in Hcoins. exists s, db. split; [exact Hboot|]. right. by split.
Qed.

(** Reading from the files after the flush of the last one and the removal of the pruned ones *)
Lemma read_after_flush F (s s1 : BlockStore) b block :
  blk s ⊆ blk s1 -> nFile b ∉ F -> ReadBlockFromDisk_index fopens params s b = Ok (Some block) ->
  ReadBlockFromDisk_index fopens params s1 b = Ok (Some block) /\ ReadBlockFromDisk_index fopens params (UnlinkPrunedFiles F s1) b = Ok (Some block).
Proof.
  intros Hsub HnF Hr. pose proof (read_has_data _ _ _ _ _ Hr) as Hd. pose proof (read_mono _ _ _ s1 _ _ Hsub Hr) as Hr1. split; [done|]. rewrite <- Hr1. unfold ReadBlockFromDisk_index, ReadBlockFromDisk_pos.
  rewrite (read_unlinked _ _ s1); [done|done|]. unfold GetBlockPos. unfold has_data, missing_data in Hd. by rewrite Hd.
Qed.

(** The part of [FlushStateToDisk] behind the decision to write, with the files that are to be removed *)
Lemma flushed_disks a F n n1 fs fs' : node_ok n -> pruned_node F n n1 -> blk (n_store n) ⊆ fs ->
  let n1 := set_store (set_rev fs' (set_blk fs (n_store n1))) n1 in
  exists n2, write_index _nVersion n1 = Ok n2 /\ safe n (disk_of n1) /\ safe n (disk_of n2) /\
    let n3 := if bool_decide (F <> ∅) then set_store (UnlinkPrunedFiles F (n_store n2)) n2 else n2 in
    safe n (disk_of n3) /\ setDirtyBlockIndex (n_chain n3) = ∅ /\
    forall w f, exists r n4 disks, write_coins_tip IsFullyValid Decompress batch_size a (set_times w f n3) = Ok (r, n4, disks) /\ Forall (safe n) disks /\
      ((forall x, coins_space a x = true) -> r = None /\ setDirtyBlockIndex (n_chain n4) = ∅ /\
        db_GetBestBlock (base (n_coins n4)) = hnew /\ forall o, valid_outpoint o -> db_GetCoin Decompress o (base (n_coins n4)) = new_coins n o).
Proof.
  intros Hn Hp Hsub n1'. destruct (write_index_spec F n n1 (set_rev fs' (set_blk fs (n_store n1))) Hn Hp) as (v & Ew & Hv & Hl & Hk); [done..|]. destruct (tips_stored F n n1 Hn Hp) as [Holdin _].
  eexists. split; [exact Ew|]. cbv zeta. set (n2 := mkNode _ _ _ _ _ _ _ _). set (n3 := if bool_decide _ then _ else _).
  assert (Hc2 : base (n_coins n2) = base (n_coins n)) by (cbn; by rewrite (pn_coins _ _ _ Hp)).
  assert (Hs2 : startable fopens params (disk_tree (n_chain n1)) (disk_of n2)).
  { apply (written_startable F n n1); [done|done|done|done|done|]. intros g _. by apply openable_mono. }
  assert (Hs3 : forall w f c, startable fopens params (disk_tree (n_chain n1)) (disk_of (set_coins c (set_times w f n3)))).
  { intros w f c. unfold n3. destruct (bool_decide (F <> ∅)); [|destruct Hs2; by split]. apply (written_startable F n n1); [done|done|done|done|done|].
    intros g Hg Ho. apply (openable_unlinked fopens (n_store n2) F g Hg). by apply (openable_mono _ (blk (n_store n))). }
  assert (E3 : n_coins n3 = n_coins n /\ n_chain n3 = clear_dirty_index (n_chain n1)) by (unfold n3; destruct (bool_decide _); cbn; by rewrite (pn_coins _ _ _ Hp)). destruct E3 as [Ec3 Eh3].
  split_and!.
  - apply (safe_old m0); [done|by apply (pruned_startable F n n1)|apply Hn|cbn; by rewrite (pn_coins _ _ _ Hp)].
  - by apply (safe_old (disk_tree (n_chain n1))).
  - apply (safe_old (disk_tree (n_chain n1))); [done|exact (Hs3 0 0 (n_coins n3))|done|cbn; by rewrite Ec3].
  - by rewrite Eh3.
  - intros w f. destruct (write_coins_tip_spec a F n n1 (set_times w f n3) Hn Hp Ec3 (Hs3 w f)) as (r & n4 & disks & E4 & Hd4 & Hall).
    { intros k Hk'. apply (written_readable F n n1); [done|done| |done]. intros b block HnF Hr.
      destruct (read_after_flush F (n_store n) (n_store n2) b block Hsub HnF Hr) as [H1 H2]. unfold n3. by destruct (bool_decide (F <> ∅)). }
    exists r, n4, disks. split_and!; [done|done|]. intros Hsp. destruct (Hall Hsp) as (H1 & H2 & _ & H4 & H5). split_and!; [done|by rewrite H2; cbn; rewrite Eh3|done|done].
Qed.

(** C4 (a flush survives crashes): for a node that satisfies [node_ok], whatever [FlushStateToDisk] decides to write, it returns, and at every moment the disk is
    one that the node can start from: [LoadBlockIndexDB] loads a well-formed tree and finds the block files of all its blocks, and [ReplayBlocks] leaves a database
    with the coins and the tip from before the flush or those of the cache, the tip being in the tree.  This holds for the disk before the call and after each write:
    the flag, the last block file, the index, the removal of pruned files and each batch of coins.  A full flush for which there is room ends with the new coins and
    no entry left to write.  [node_ok] asks that the views of the coins are set up; that the tree is well formed, can be stored, has correct sums, and its unchanged
    entries are in the database; that the files of the blocks with data are there; that the block at which the coins on disk stand is an ancestor of the tip, as long
    as no block of it was disconnected since, and the blocks from there to the tip can be read; that the cache holds what these blocks change; and, if pruning is on,
    that the coins on disk are at most [MIN_BLOCKS_TO_KEEP] blocks behind.  What was written to a block file is taken to be on the disk, and a batch of a database to
    be written as a whole. *)
Theorem flush_is_crash_safe a n :
  node_ok n -> nManualPruneHeight a < 2 ^ 31 ->
  exists r n' disks, FlushStateToDisk fopens IsFullyValid Decompress batch_size _nVersion fPruneMode fReindex nPruneTarget nPruneAfterHeight a n = Ok (r, n', disks) /\
    Forall (safe n) (disk_of n :: disks) /\
    (mode a = ALWAYS -> blocks_space a = true -> (forall x, coins_space a x = true) ->
      r = None /\ setDirtyBlockIndex (n_chain n') = ∅ /\ db_GetBestBlock (base (n_coins n')) = hnew /\
      forall o, valid_outpoint o -> db_GetCoin Decompress o (base (n_coins n')) = new_coins n o).
Proof.
  intros Hn Ha. unfold FlushStateToDisk, CanFlushToDisk. rewrite (node_cacheview _ Hn). cbn [negb]. destruct (find_prune_spec a n Hn Ha) as (F & n1 & -> & Hp). cbn [obind]. set (w := if nLastWrite n1 =? 0 then _ else _). set (f := if nLastFlush n1 =? 0 then _ else _).
  set (n1' := set_times w f n1). assert (Hp' : pruned_node F n n1') by (destruct Hp; by split).
  destruct (pruned_store_facts F n n1' Hn Hp') as (El & Elen & Eblk & _ & Hlast).
  assert (H0 : safe n (disk_of n)) by (apply (safe_old m0); [done|apply Hn|apply Hn|done]).
  assert (H1 : safe n (disk_of n1')) by (apply (safe_old m0); [done|apply (pruned_startable F n n1'); [done|done|done|by rewrite <- Eblk]|apply Hn|cbn; by rewrite (pn_coins _ _ _ Hp)]).
  set (full := full_flush a _ n1'). assert (Hfull : mode a = ALWAYS -> full = true) by (intros E; unfold full, full_flush; by rewrite E).
  destruct (full || periodic_write a n1') eqn:Edo.
  2: { exists None, n1', [disk_of n1']. split_and!; [done|by repeat constructor|]. intros E. rewrite (Hfull E) in Edo. done. }
  destruct (blocks_space a); cbn [negb]; [|do 3 eexists; split_and!; [reflexivity|by repeat constructor|done]].
  destruct (lookup_lt_is_Some_2 (vinfoBlockFile (n_store n1')) (Z.to_nat (nLastBlockFile (n_store n1')))) as [i Hi]; [lia|].
  destruct (FlushBlockFile_grows fopens (n_store n1') i ltac:(lia) Hi) as (fs & fs' & -> & Hgrow). cbn [obind].
  destruct (flushed_disks a F n n1' fs fs' Hn Hp' ltac:(by rewrite <- Eblk)) as (n2 & -> & Hd1 & Hd2 & Hd3 & Hdirty & Hcoins). cbn [obind].
  set (n3 := if bool_decide (F <> ∅) then _ else _) in *.
  destruct (Hcoins (nNow a) (nLastFlush n3)) as (r & n4 & disks & E4 & Hd4 & Hall).
  destruct full.
  - rewrite E4. cbn [obind]. exists r, n4, ([disk_of n1'; disk_of (set_store (set_rev fs' (set_blk fs (n_store n1'))) n1'); disk_of n2; disk_of n3] ++ disks).
    split_and!; [done|by repeat (apply Forall_cons_2; [done|])|]. intros _ _ Hsp. by apply Hall.
  - do 3 eexists. split_and!; [reflexivity|by repeat constructor|]. intros E. by specialize (Hfull E).
Qed.

End crash.

(** ** Instances *)

(** The tree of two blocks after the data of the second arrived, with both on the active chain *)
Definition fl_block : CBlock := mkBlock (stake_header first_hash 2) [rp_tx].

Definition fl_received : ChainState := Eval vm_compute in ran (OpBlock mainnet_pow fl_block 2%positive (Build_FlatFilePos 0 8)) a_tree.
Definition fl_chain : ChainState := Eval vm_compute in set_chain [Some 1%positive; Some 2%positive] fl_received.
Definition fl_list : list (ptr * CBlockIndex) := Eval vm_compute in map_to_list (entries fl_chain).
Definition fl_entry (p : ptr) : CBlockIndex := default (line_entry 0) (entries fl_chain !! p).

Lemma fl_entries p b : entries fl_chain !! p = Some b -> (p, b) ∈ fl_list.
Proof. intros Hp. apply elem_of_map_to_list in Hp. exact Hp. Qed.

Ltac each_fl H := apply fl_entries in H; unfold fl_list in H; repeat (apply elem_of_cons in H as [H|H]); [injection H as -> ->..|by apply elem_of_nil in H].

Lemma a_tree_tallied : tallied 1000 a_tree.
Proof. intros p b Hb. each_entry Hb; split; cbn; done || lia. Qed.

Lemma fl_chain_ok : tree_ok fl_chain.
Proof.
  destruct (ReceivedBlockTransactions_spec 1000 mainnet_pow fl_block 2%positive (Build_FlatFilePos 0 8) a_tree (snd (default (1%positive, line_entry 0) (head tree_list))) a_tree_ok a_tree_tallied)
    as (s & E & Hr); [reflexivity|reflexivity|by vm_compute|].
  assert (Es : s = fl_received).
  { assert (E' : ReceivedBlockTransactions mainnet_pow fl_block 2%positive (Build_FlatFilePos 0 8) a_tree = Ok fl_received) by (vm_cast_no_check (eq_refl (Ok fl_received))). congruence. }
  subst s. pose proof (receives_tree _ _ _ _ _ _ _ Hr) as [Hwf Hw _ Hd Hc Hu Hi Hf Hb]. split; try assumption.
  right. exists 2%positive, (fl_entry 2%positive). split; [reflexivity|]. split; [reflexivity|]. intros [|[|n]] q Hq; [by injection Hq as <-..|]. by vm_compute in Hq.
Qed.

Lemma fl_storable : storable_tree mainnet_pow fl_chain.
Proof.
  intros p b Hb. each_fl Hb; (eexists; split; [vm_compute; reflexivity| | | |left; vm_compute; reflexivity|]).
  4: by vm_compute. 7: (intros Hle; by vm_compute in Hle).
  1, 4: (split; try (by repeat split; vm_compute); by vm_compute; repeat constructor).
  all: vm_compute; reflexivity.
Qed.

Lemma fl_sums : sums_tree fl_chain.
Proof. intros p b Hb. each_fl Hb; (split; vm_compute; reflexivity). Qed.

Lemma fl_synced : synced fl_chain a_treedb.
Proof.
  split.
  - intros p Hp. apply (synced_dirty _ _ a_synced p) in Hp as [b Hb]. each_entry Hb; eexists; reflexivity.
  - intros h p d Hp Hnd Hd. apply elem_of_map_to_list in Hp. vm_compute in Hp. apply elem_of_cons in Hp as [Hp|Hp]; [|apply list_elem_of_singleton in Hp]; injection Hp as -> ->.
    + destruct Hnd. vm_compute. reflexivity.
    + assert (Ed : disk_tree fl_chain !! first_hash = Some d) by exact Hd. clear Hd. vm_compute in Ed. injection Ed as <-.
      eexists. split; [vm_compute; reflexivity|]. exists 200000, uint256_null. split; [lia|]. split; [reflexivity|]. vm_compute. reflexivity.
  - intros k x Hx Hk. destruct (synced_only _ _ a_synced k x Hx Hk) as (h & Hh & ->). by exists h.
Qed.

(** The node: the coins on disk are those at the first block. *)
Definition fl_store : BlockStore := Eval vm_compute in mkBlockStore [mkFileInfo 1 2000 0 1 1 0 0] 0 ∅ false {[0 := disk_record [1; 2; 3; 4] fl_block]} ∅.
Definition fl_db : CDBWrapper (gmap bytes bytes) := a_db_with [DB_BEST_BLOCK] first_hash.
Definition fl_node : Node (gmap bytes bytes) := mkNode true fl_chain fl_store (mkCache fl_db second_hash rp_map) a_treedb false 0 0.
Definition fl_args : FlushArgs := mkFlushArgs ALWAYS 0 1000 0 0 0 0 true (fun _ => true) false.

Lemma fl_startable : startable (fun _ => true) mainnet_pow stored_first (disk_of fl_node).
Proof.
  split; [exact stored_first_db|exact stored_first_ok| |by vm_compute|by vm_compute].
  intros h x Hx Hb. destruct (stored_first_lookup h x Hx) as [-> Hd]. vm_compute in Hd. injection Hd as <-. by vm_compute in Hb.
Qed.

Lemma fl_node_ok : node_ok (fun _ => true) seven_valid seven_decompress mainnet_pow false 0 1%positive 2%positive (fl_entry 1%positive) (fl_entry 2%positive) first_hash second_hash (fun _ => fl_block) stored_first fl_node.
Proof.
  split; [reflexivity|exact fl_chain_ok|exact fl_storable|exact fl_sums|exact fl_synced|exact fl_startable|eexists; vm_compute; reflexivity|by vm_compute| |split; [split; [by vm_compute|by vm_compute|by repeat constructor]|done]| | | | | | | | |done].
  - intros p b Hb Hd. each_fl Hb; [by eexists|by vm_compute in Hd].
  - intros p b Hb Hd. each_fl Hb; [split; [done|]; eexists; by split|by vm_compute in Hd].
  - intros f Hf. apply elem_of_elements in Hf. vm_compute in Hf. by apply elem_of_nil in Hf.
  - split_and!; reflexivity.
  - split_and!; vm_compute; reflexivity.
  - by exists 1%nat.
  - intros k Hk. change (0 < k <= 1) in Hk. replace k with 1 by lia. exists 2%positive, (fl_entry 2%positive).
    split_and!; [vm_compute; reflexivity|reflexivity|reflexivity|vm_compute; reflexivity|repeat constructor; by vm_compute].
  - split_and!; [apply a_db_with_ok; [discriminate|by vm_compute; constructor]|vm_compute; reflexivity|vm_compute; reflexivity].
  - split_and!; [reflexivity|exact rp_writable|]. intros o _. exact (rp_overlay (old_coins seven_decompress fl_node) o).
Qed.

Lemma flush_is_crash_safe_witness :
  exists r n' disks, FlushStateToDisk (fun _ => true) seven_valid seven_decompress 20 200000 false false 0 0 fl_args fl_node = Ok (r, n', disks) /\
    Forall (safe (fun _ => true) seven_valid seven_decompress 20 mainnet_pow (fl_entry 1%positive) (fl_entry 2%positive) first_hash second_hash (fun _ => fl_block) fl_node) (disk_of fl_node :: disks) /\
    r = None /\ db_GetBestBlock (base (n_coins n')) = second_hash.
Proof.
  destruct (flush_is_crash_safe (fun _ => true) seven_valid seven_decompress 20 200000 mainnet_pow false false 0 0 seven_keys ltac:(lia) 1%positive 2%positive (fl_entry 1%positive) (fl_entry 2%positive)
    first_hash second_hash (fun _ => fl_block) stored_first fl_args fl_node fl_node_ok eq_refl) as (r & n' & disks & E & Hd & Hall).
  exists r, n', disks. split; [exact E|]. split; [exact Hd|]. destruct (Hall eq_refl eq_refl (fun _ => eq_refl)) as (H1 & _ & H3 & _). split; [exact H1|exact H3].
Defined.
