(* ===== verification/Accept.v ===== *)
(** * Accept: headers enter the tree (src/src/validation.cpp)

    [AcceptBlockHeader] and [ProcessNewBlockHeaders] join the checks of [Block]
    with the tree of [ChainState].  Whether the node is in its initial
    download, the clock and the checkpoints are arguments; the recovery of keys
    from signatures is a parameter.  The failed blocks are visited in the order
    of their pointers.  [CheckBlockIndex], a debugging check that is off by
    default, and the notification of [NotifyHeaderTip] are left out. *)

From Stdlib Require Import ZArith List Lia Bool String.
From stdpp Require Import base decidable list option gmap sets fin_sets sorting.
From S2P Require Import Prelude Uint256 Primitives Chain Consensus Script Hash Serialize Merkle Standard Coins Utxo SigHash Interpreter TxVerify Pow Pos Block ChainState.
Import arith_uint256.
Local Open Scope Z_scope.
Local Open Scope outcome_scope.

(** ** Block signatures *)

Definition IsDERSignature (vchSig : bytes) (haveHashType : bool) : bool := IsValidSignatureEncoding vchSig haveHashType.

Definition IsCanonicalBlockSignature (CheckLowS : bytes -> bool) (block : CBlockHeader) (checkLowS : bool) : bool :=
  if header_IsProofOfWork block then match vchBlockSig block with [] => true | _ => false end
  else if checkLowS then match IsLowDERSignature CheckLowS (vchBlockSig block) false with None => true | Some _ => false end
  else IsDERSignature (vchBlockSig block) false.

Definition CheckCanonicalBlockSignature (CheckLowS : bytes -> bool) (block : CBlockHeader) : bool :=
  let ret := IsCanonicalBlockSignature CheckLowS block false in
  if ret then IsCanonicalBlockSignature CheckLowS block true else ret.

(** ** Descendants of failed blocks *)

(** [m_failed_blocks] is a [std::set] of pointers. *)
Definition failed_blocks (s : ChainState) : list ptr := merge_sort Pos.le (elements (m_failed_blocks s)).

Fixpoint find_failed (l : list ptr) (pindexPrev : ptr) (s : ChainState) : outcome (option ptr) :=
  match l with
  | [] => Ok None
  | failedit :: l =>
    b <-! deref (entries s) failedit ;
    a <-! GetAncestor (entries s) pindexPrev (Chain.nHeight b) ;
    if bool_decide (a = Some failedit) then if invalid b then Ok (Some failedit) else Fail
    else find_failed l pindexPrev s
  end.

Fixpoint mark_children (fuel : nat) (failedit invalid_walk : ptr) (s : ChainState) : outcome ChainState :=
  if decide (invalid_walk = failedit) then Ok s
  else match fuel with
  | O => NoFuel
  | S fuel =>
    b <-! deref (entries s) invalid_walk ;
    prev <-! of_option (pprev b) ;
    mark_children fuel failedit prev
      (set_dirty invalid_walk (set_entries (insert invalid_walk (set_nStatus b (Z.lor (nStatus b) BLOCK_FAILED_CHILD))) s))
  end.

(** Whether [pindexPrev] descends from a failed block, and the tree with the
    path to it marked *)
Definition mark_descendants (pindexPrev : ptr) (s : ChainState) : outcome (bool * ChainState) :=
  prev <-! deref (entries s) pindexPrev ;
  valid <-! IsValid prev BLOCK_VALID_SCRIPTS ;
  if valid then Ok (false, s)
  else
    r <-! find_failed (failed_blocks s) pindexPrev s ;
    match r with
    | None => Ok (false, s)
    | Some failedit =>
      s <-! mark_children (S (Z.to_nat (Chain.nHeight prev))) failedit pindexPrev s ;
      Ok (true, s)
    end.

Section accept.
Context `{View : CCoinsView V} `{Files : BlockFiles}.
Context (CheckLowS : bytes -> bool) (RecoverLaxDER : uint256 -> bytes -> Z -> bool -> option CPubKey).
Context (params : Params) (fCheckpointsEnabled : bool) (checkpoints : MapCheckpoints).
Context (IsInitialBlockDownload fReindex fImporting : bool) (AdjustedTime : Z).

(** ** Headers *)

(** A header that does not build on the tip and is older than the
    synchronized checkpoint *)
Definition older_than_checkpoint (block : CBlockHeader) (s : ChainState) : outcome bool :=
  match Tip (m_chain s) with
  | None => Ok false
  | Some tip =>
    bt <-! deref (entries s) tip ;
    hash <-! GetBlockHash bt ;
    if bytes_eqb (hashPrevBlock block) hash then Ok false
    else
      p <-! AutoSelectSyncCheckpoint (entries s) (m_chain s) params ;
      b <-! deref (entries s) p ;
      Ok (hdr_nTime block - nTime b <? 0)
  end.

(** The limits on the heights of both kinds of blocks *)
Definition check_kind (block : CBlockHeader) (nHeight : Z) : option string :=
  if header_IsProofOfWork block && (nLastPOWBlock params <? nHeight) then Some "reject-pow"%string
  else if header_IsProofOfStake block then
    if nHeight <? COINBASE_MATURITY then Some "reject-pos"%string
    else if negb (CheckCoinStakeTimestamp (hdr_nTime block)) then Some "timestamp-invalid"%string
    else None
  else None.

(** The checks of a new header against its parent *)
Definition check_on_parent (block : CBlockHeader) (pindexPrev : ptr) (state : CValidationState) (s : ChainState) (view : CCoinsViewCache V)
    : outcome (bool * CValidationState * ChainState * CCoinsViewCache V) :=
  prev <-! deref (entries s) pindexPrev ;
  if failed prev then Ok (reject BLOCK_INVALID_PREV "bad-prevblk" state, s, view)
  else
    r <-! ContextualCheckBlockHeader (entries s) (m_block_index s) (m_chain s) params fCheckpointsEnabled checkpoints
            block state pindexPrev AdjustedTime ;
    let '(ok, state) := r in
    if negb ok then Ok (false, state, s, view)
    else
      r <-! mark_descendants pindexPrev s ;
      let '(descends, s) := r in
      if descends : bool then Ok (reject BLOCK_INVALID_PREV "bad-prevblk" state, s, view)
      else match check_kind block (Chain.nHeight prev + 1) with
      | Some why => Ok (reject BLOCK_INVALID_HEADER why state, s, view)
      | None =>
        r <-! CheckBlockHeader RecoverLaxDER (entries s) (m_block_index s) (m_chain s) params IsInitialBlockDownload
                block state true true view ;
        let '(ok, state, view) := r in
        Ok (ok, state, s, view)
      end.

(** The checks of a header that is not in the tree *)
Definition check_new_header (block : CBlockHeader) (state : CValidationState) (s : ChainState) (view : CCoinsViewCache V)
    : outcome (bool * CValidationState * ChainState * CCoinsViewCache V) :=
  old <-! older_than_checkpoint block s ;
  if old : bool then Ok (reject BLOCK_HEADER_SYNC "older-than-checkpoint" state, s, view)
  else if negb (CheckCanonicalBlockSignature CheckLowS block)
  then Ok (reject BLOCK_INVALID_HEADER "bad-signature-encoding" state, s, view)
  else match m_block_index s !! hashPrevBlock block with
  | None => Ok (false, Invalid BLOCK_MISSING_PREV 0 "prev-blk-not-found" state, s, view)
  | Some pindexPrev => check_on_parent block pindexPrev state s view
  end.

(** The verdict, the state, [ppindex], the tree and the coins *)
Definition AcceptBlockHeader (block : CBlockHeader) (state : CValidationState) (s : ChainState) (view : CCoinsViewCache V)
    : outcome (bool * CValidationState * option ptr * ChainState * CCoinsViewCache V) :=
  let hash := header_GetHash block in
  if bytes_eqb hash (hashGenesisBlock params) then
    r <-! AddToBlockIndex block s ;
    Ok (true, state, Some (fst r), snd r, view)
  else match m_block_index s !! hash with
  | Some pindex =>
    b <-! deref (entries s) pindex ;
    if failed b then Ok (false, Invalid CACHED_INVALID 0 "duplicate" state, Some pindex, s, view)
    else Ok (true, state, Some pindex, s, view)
  | None =>
    r <-! check_new_header block state s view ;
    let '(ok, state, s, view) := r in
    if negb ok then Ok (false, state, None, s, view)
    else
      r <-! AddToBlockIndex block s ;
      Ok (true, state, Some (fst r), snd r, view)
  end.

(** ** Lists of headers *)

(** The stake of a header that is not in the tree was seen before. *)
Definition stake_seen (header : CBlockHeader) (s : ChainState) : bool :=
  negb fReindex && negb fImporting && negb IsInitialBlockDownload && header_IsProofOfStake header &&
  bool_decide ((hdr_prevoutStake header, hdr_nTime header) ∈ setStakeSeen s) &&
  negb (bool_decide (is_Some (m_block_index s !! header_GetHash header))).

(** The verdict, the state, the tree, the coins, [*ppindex], [*pindexFirst] and
    [*first_invalid], for a caller that asks for all three *)
Record HeadersResult := mkHeadersResult {
  hr_ok : bool;
  hr_state : CValidationState;
  hr_tree : ChainState;
  hr_view : CCoinsViewCache V;
  hr_pindex : option ptr;
  hr_first : option ptr;
  hr_first_invalid : CBlockHeader
}.

Fixpoint process_headers (headers : list CBlockHeader) (bFirst fInstantBan : bool) (ppindex pindexFirst : option ptr)
    (state : CValidationState) (s : ChainState) (view : CCoinsViewCache V) : outcome HeadersResult :=
  match headers with
  | [] => Ok (mkHeadersResult true state s view ppindex pindexFirst header_null)
  | header :: headers =>
    let seen := stake_seen header s in
    if seen && bool_decide (headers = []) then
      let '(ok, state) := reject (if fInstantBan then BLOCK_INVALID_HEADER else BLOCK_HEADER_REJECT) "dupe-stake" state in
      Ok (mkHeadersResult ok state s view ppindex pindexFirst header)
    else
      let fInstantBan := if seen then true else fInstantBan in
      r <-! AcceptBlockHeader header state s view ;
      let '(accepted, state, pindex, s, view) := r in
      if negb accepted then
        let state := if fInstantBan then Invalid BLOCK_INVALID_HEADER REJECT_INVALID (strRejectReason state) state else state in
        Ok (mkHeadersResult false state s view ppindex pindexFirst header)
      else process_headers headers false fInstantBan pindex (if bFirst then pindex else pindexFirst) state s view
  end.

(** Outside of the initial download: the last of several headers is a staked
    one from the future. *)
Definition ends_in_future (headers : list CBlockHeader) : bool :=
  negb IsInitialBlockDownload && (1 <? length headers)%nat &&
  match last headers with
  | Some last_header => header_IsProofOfStake last_header && (FutureDrift AdjustedTime <? hdr_nTime last_header)
  | None => false
  end.

Definition ProcessNewBlockHeaders (headers : list CBlockHeader) (state : CValidationState) (s : ChainState) (view : CCoinsViewCache V)
    : outcome HeadersResult :=
  if ends_in_future headers then
    let '(ok, state) := reject BLOCK_TIME_FUTURE "time-too-new" state in
    Ok (mkHeadersResult ok state s view None None header_null)
  else process_headers headers true false None None state s view.

End accept.
Arguments hr_ok {_} _.
Arguments hr_state {_} _.
Arguments hr_tree {_} _.
Arguments hr_view {_} _.
Arguments hr_pindex {_} _.
Arguments hr_first {_} _.
Arguments hr_first_invalid {_} _.

(** * Correctness *)

(** ** Coins that the active chain spent after a fork *)

Section spent.
Context `{Files : BlockFiles} (st : gmap ptr CBlockIndex) (Hst : wf_store st).

(** The entries met on the way from [p] to its ancestor [base], exclusive *)
Definition between (p base x : ptr) (bx : CBlockIndex) (m : nat) : Prop :=
  exists n, walk st n p = Some base /\ (m < n)%nat /\ walk st m p = Some x /\ st !! x = Some bx.

Lemma walk_unique p b n m q : st !! p = Some b -> walk st n p = Some q -> walk st m p = Some q -> n = m.
Proof.
  intros Hp Hn Hm. destruct (walk_inv _ _ _ _ _ Hst Hp Hn) as (_ & bq & Hq & E), (walk_inv _ _ _ _ _ Hst Hp Hm) as (_ & bq' & Hq' & E'). simplify_eq. lia.
Qed.

Lemma between_cons p b q base n x bx m :
  st !! p = Some b -> pprev b = Some q -> walk st n q = Some base ->
  between p base x bx m <-> (m = 0%nat /\ x = p /\ bx = b) \/ exists m', m = S m' /\ between q base x bx m'.
Proof.
  intros Hp Hq Hn. assert (HS : walk st (S n) p = Some base) by (cbn [walk]; by rewrite Hp, Hq). split.
  - intros (n' & Hw & Hlt & Hx & Hbx). destruct m as [|m]; [left; cbn [walk] in Hx; simplify_eq; done|right].
    exists m. split; [done|]. assert (n' = S n) as -> by exact (walk_unique p b n' (S n) base Hp Hw HS). exists n. cbn [walk] in Hx. rewrite Hp, Hq in Hx. split_and!; [done|lia|done|done].
  - intros [(-> & -> & ->)|(m' & -> & n' & Hw & Hlt & Hx & Hbx)].
    + exists (S n). split_and!; [done|lia|done|done].
    + exists (S n'). cbn [walk]. rewrite Hp, Hq. split_and!; [done|lia|done|done].
Qed.

Lemma between_nil p b x bx m : st !! p = Some b -> ~ between p p x bx m.
Proof. intros Hp (n & Hw & Hlt & _). pose proof (walk_unique p b n 0%nat p Hp Hw eq_refl). lia. Qed.

(** The first entry before [base] with a result *)
Definition first_before {A} (f : CBlockIndex -> option A) (p base : ptr) (a : A) : Prop :=
  exists x bx m, between p base x bx m /\ f bx = Some a /\ forall y by_ k, (k < m)%nat -> between p base y by_ k -> f by_ = None.

Lemma first_before_cons {A} (f : CBlockIndex -> option A) p b q base n a :
  st !! p = Some b -> pprev b = Some q -> walk st n q = Some base ->
  first_before f p base a <-> match f b with Some a' => a' = a | None => first_before f q base a end.
Proof.
  intros Hp Hq Hn. assert (Hcons := fun x bx m => between_cons p b q base n x bx m Hp Hq Hn). split.
  - intros (x & bx & m & Hx & Ha & Hbefore). apply Hcons in Hx as [(-> & -> & ->)|(m' & -> & Hx)]; [by rewrite Ha|].
    rewrite (Hbefore p b 0%nat) by (lia || (apply Hcons; auto)). exists x, bx, m'. split_and!; [done|done|].
    intros y by_ k Hk Hy. apply (Hbefore y by_ (S k)); [lia|]. apply Hcons; eauto.
  - destruct (f b) as [a'|] eqn:E.
    + intros ->. exists p, b, 0%nat. split_and!; [apply Hcons; auto|done|lia].
    + intros (x & bx & m & Hx & Ha & Hbefore). exists x, bx, (S m). split_and!; [apply Hcons; eauto|done|].
      intros y by_ k Hk [(-> & -> & ->)|(k' & -> & Hy)]%Hcons; [done|apply (Hbefore y by_ k'); [lia|done]].
Qed.

Lemma walk_parent p b n base :
  st !! p = Some b -> walk st n p = Some base -> p <> base ->
  exists q bq n', pprev b = Some q /\ st !! q = Some bq /\ n = S n' /\ walk st n' q = Some base.
Proof.
  intros Hp Hn Hne. destruct n as [|n]; [cbn in Hn; congruence|]. cbn [walk] in Hn. rewrite Hp in Hn. pose proof (wf_pprev _ _ _ (Hst _ _ Hp)) as Hprev.
  destruct (pprev b) as [q|]; [|done]. destruct Hprev as (bq & Hq & _). by exists q, bq, n.
Qed.

(** Both loops are this search. *)
Fixpoint search {A} (f : CBlockIndex -> option A) (fuel : nat) (base : ptr) (pindex : option ptr) : outcome (option A) :=
  match pindex with
  | None => Ok None
  | Some p =>
    if decide (p = base) then Ok None
    else match fuel with
    | O => NoFuel
    | S fuel => b <-! deref st p ; match f b with Some a => Ok (Some a) | None => search f fuel base (pprev b) end
    end
  end.

Lemma search_spec {A} (f : CBlockIndex -> option A) fuel base p b n :
  st !! p = Some b -> walk st n p = Some base -> (n <= fuel)%nat ->
  exists r, search f fuel base (Some p) = Ok r /\ forall a, r = Some a <-> first_before f p base a.
Proof.
  revert p b n. induction fuel as [|fuel IH]; intros p b n Hp Hn Hf; cbn [search].
  all: destruct (decide (p = base)) as [<-|Hne]; [exists None; split; [done|]; intros a; split; [done|]; intros (x & bx & m & Hx & _); by eapply between_nil in Hx|].
  all: destruct (walk_parent p b n base Hp Hn Hne) as (q & bq & n' & Hq & Hbq & -> & Hn').
  { lia. }
  unfold deref. rewrite Hp. cbn [of_option obind]. setoid_rewrite (first_before_cons f p b q base n' _ Hp Hq Hn'). destruct (f b) as [a|].
  - exists (Some a). split; [done|]. intros a'. split; [by intros [= ->]|by intros ->].
  - rewrite Hq. apply (IH q bq n' Hbq Hn'). lia.
Qed.

Lemma scan_main_chain_search fuel base o p : scan_main_chain fuel st base o p = search (fun b => GetSpentCoinFromBlock b o) fuel base p.
Proof.
  revert p. induction fuel as [|fuel IH]; intros [p|]; try done. cbn [scan_main_chain search]. destruct (decide _); [done|].
  destruct (deref st p) as [b| |]; try done. cbn [obind]. destruct (GetSpentCoinFromBlock b o); [done|]. apply IH.
Qed.

Definition staking (o : COutPoint) (b : CBlockIndex) : option unit := if outpoint_eqb (prevoutStake b) o then Some tt else None.

Lemma staked_in_fork_search fuel base o p : staked_in_fork fuel st base o p = (r <-! search (staking o) fuel base p ; Ok (match r with Some _ => true | None => false end)).
Proof.
  revert p. induction fuel as [|fuel IH]; intros [p|]; try done; cbn [staked_in_fork search]; destruct (decide _); try done.
  destruct (deref st p) as [b| |]; try done. cbn [obind]. unfold staking at 1. destruct (outpoint_eqb (prevoutStake b) o); [done|]. apply IH.
Qed.

Context (chain : CChain) (tip : ptr) (btip : CBlockIndex).
Hypothesis Hchain : wf_chain st chain.
Hypothesis Htip : Tip chain = Some tip.
Hypothesis Hbtip : st !! tip = Some btip.
Hypothesis Hroot : forall p b q bq, st !! p = Some b -> st !! q = Some bq -> pprev b = None -> pprev bq = None -> p = q.

Lemma root_of p b : st !! p = Some b -> exists r br, walk st (Z.to_nat (Chain.nHeight b)) p = Some r /\ st !! r = Some br /\ Chain.nHeight br = 0 /\ pprev br = None.
Proof.
  intros Hp. pose proof (wf_height _ _ _ (Hst _ _ Hp)). destruct (walk_height st p b (Z.to_nat (Chain.nHeight b)) Hst Hp) as (r & br & Hw & Hr & Hh); [lia|].
  exists r, br. split_and!; [done|done|lia|]. pose proof (wf_pprev _ _ _ (Hst _ _ Hr)) as Hprev. destruct (pprev br) as [q|]; [|done].
  destruct Hprev as (bq & Hq & Hhq). pose proof (wf_height _ _ _ (Hst _ _ Hq)). lia.
Qed.

Lemma active_chain : chain_of st chain tip btip.
Proof.
  destruct Hchain as [E|(t & bt & Hc)]; [by rewrite E in Htip|]. pose proof (chain_of_Tip _ _ _ _ Hst Hc) as E. rewrite Htip in E. injection E as <-.
  pose proof Hc as (E & _). rewrite Hbtip in E. by injection E as <-.
Qed.

(** Every branch leaves the active chain somewhere. *)
Lemma FindFork_root p b :
  st !! p = Some b -> exists base bbase n m, FindFork st chain (Some p) = Ok (Some base) /\ st !! base = Some bbase /\
    walk st n p = Some base /\ walk st m tip = Some base /\ Z.of_nat n <= Chain.nHeight b /\ Z.of_nat m <= Chain.nHeight btip.
Proof.
  intros Hp. destruct (FindFork_spec st chain p b Hst Hp) as (f & Hf & Hspec). destruct f as [base|].
  - destruct Hspec as (n & Hn & Hin & _). destruct (walk_inv _ _ _ _ _ Hst Hp Hn) as (Hle & bbase & Hb & Hh). pose proof (wf_height _ _ _ (Hst _ _ Hb)) as H0.
    rewrite (Contains_spec _ _ _ _ Hb) in Hin. injection Hin as Hin%bool_decide_eq_true.
    assert (Hup : Chain.nHeight bbase <= Chain.nHeight btip).
    { destruct (Z.le_gt_cases (Chain.nHeight bbase) (Chain.nHeight btip)); [done|]. pose proof active_chain as (_ & Hl & _). pose proof (wf_height _ _ _ (Hst _ _ Hbtip)).
      rewrite chain_at_above in Hin by (unfold Height; lia). done. }
    rewrite (chain_of_at st chain tip btip _ Hst active_chain) in Hin by lia. exists base, bbase, n, (Z.to_nat (Chain.nHeight btip - Chain.nHeight bbase)). split_and!; (done || lia).
  - exfalso. destruct (root_of p b Hp) as (r & br & Hw & Hr & Hh & Hn), (root_of tip btip Hbtip) as (r' & br' & Hw' & Hr' & Hh' & Hn').
    assert (r = r') as <- by eauto. pose proof (Hspec _ _ Hw) as Hno. rewrite (Contains_spec _ _ _ _ Hr) in Hno. injection Hno as Hno%bool_decide_eq_false.
    apply Hno. pose proof (wf_height _ _ _ (Hst _ _ Hbtip)). rewrite (chain_of_at st chain tip btip _ Hst active_chain) by lia. by rewrite Hh, Z.sub_0_r.
Qed.

(** The coin that a block of the active chain after the fork spent, where the
    fork is recent and no block of the branch staked it *)
Record spent_after_fork (p : ptr) (o : COutPoint) (cn : Coin) : Prop := {
  saf_recent : exists base bbase, FindFork st chain (Some p) = Ok (Some base) /\ st !! base = Some bbase /\
    Chain.nHeight btip - Chain.nHeight bbase <= COINBASE_MATURITY /\
    (forall x bx m, between p base x bx m -> prevoutStake bx <> o) /\
    first_before (fun b => GetSpentCoinFromBlock b o) tip base cn
}.

Lemma staked_spec fuel p b base n o :
  st !! p = Some b -> walk st n p = Some base -> (n <= fuel)%nat ->
  exists r, staked_in_fork fuel st base o (Some p) = Ok r /\ (r = false <-> forall x bx m, between p base x bx m -> prevoutStake bx <> o).
Proof.
  intros Hp Hn Hf. rewrite staked_in_fork_search. destruct (search_spec (staking o) fuel base p b n Hp Hn Hf) as (r & -> & Hr). cbn [obind]. eexists. split; [done|].
  destruct r as [[]|].
  - split; [done|]. destruct (proj1 (Hr tt) eq_refl) as (x & bx & m & Hx & Hs & _). intros Hno. specialize (Hno x bx m Hx). unfold staking in Hs.
    destruct (outpoint_eqb _ _) eqn:E; [by apply outpoint_eqb_eq in E|done].
  - split; [intros _|done]. intros x bx m. revert x bx. induction m as [m IH] using (well_founded_induction lt_wf). intros x bx Hx Ho.
    assert (Hs : None = Some tt); [|done]. apply Hr. exists x, bx, m. split_and!; [done|by unfold staking; rewrite (proj2 (outpoint_eqb_eq _ _) Ho)|].
    intros y by_ k Hk Hy. unfold staking. destruct (outpoint_eqb _ _) eqn:E; [|done]. apply outpoint_eqb_eq in E. by destruct (IH k Hk y by_ Hy).
Qed.

Lemma GetSpentCoinFromMainChain_finds p b o :
  st !! p = Some b ->
  exists r, GetSpentCoinFromMainChain st chain p o = Ok r /\ forall cn, r = Some cn <-> spent_after_fork p o cn.
Proof.
  intros Hp. destruct (FindFork_root p b Hp) as (base & bbase & n & m & Hf & Hb & Hn & Hm & Hnh & Hmh).
  unfold GetSpentCoinFromMainChain, deref. rewrite Hf, Htip. cbn [of_option obind]. rewrite Hbtip, Hb, Hp. cbn [of_option obind].
  assert (Hinv : forall cn, spent_after_fork p o cn -> Chain.nHeight btip - Chain.nHeight bbase <= COINBASE_MATURITY /\
    (forall x bx m, between p base x bx m -> prevoutStake bx <> o) /\ first_before (fun b => GetSpentCoinFromBlock b o) tip base cn).
  { intros cn [(base' & bbase' & Hf' & Hb' & Hr)]. rewrite Hf in Hf'. injection Hf' as <-. rewrite Hb in Hb'. by injection Hb' as <-. }
  destruct (Z.ltb_spec COINBASE_MATURITY (Chain.nHeight btip - Chain.nHeight bbase)).
  { exists None. split; [done|]. intros cn. split; [done|]. intros [Hc _]%Hinv. lia. }
  destruct (staked_spec (Z.to_nat (Chain.nHeight b + 1)) p b base n o Hp Hn) as (r & -> & Hr); [lia|]. cbn [obind]. destruct r.
  { exists None. split; [done|]. intros cn. split; [done|]. intros (_ & Hs%Hr & _)%Hinv. done. }
  rewrite scan_main_chain_search. destruct (search_spec (fun b => GetSpentCoinFromBlock b o) (Z.to_nat (Chain.nHeight btip + 1)) base tip btip m Hbtip Hm) as (r & -> & Hscan); [lia|].
  exists r. split; [done|]. intros cn. rewrite Hscan. split; [|by intros (_ & _ & Hx)%Hinv]. intros Hx. split. exists base, bbase. split_and!; [done|done|done|by apply Hr|done].
Qed.

End spent.

(** ** The stake of a header *)

Section stake.
Context `{Laws : CCoinsViewReads V} `{Files : BlockFiles}.
Context (RecoverLaxDER : uint256 -> bytes -> Z -> bool -> option CPubKey).
Context (st : gmap ptr CBlockIndex) (mapBlockIndex : gmap uint256 ptr) (chain : CChain) (params : Params) (tip : ptr) (btip : CBlockIndex).
Hypothesis Hst : wf_store st.
Hypothesis Hchain : wf_chain st chain.
Hypothesis Htip : Tip chain = Some tip.
Hypothesis Hbtip : st !! tip = Some btip.
Hypothesis Hroot : forall p b q bq, st !! p = Some b -> st !! q = Some bq -> pprev b = None -> pprev bq = None -> p = q.
Hypothesis Hundo : forall b l, UndoReadFromDisk b = Some l -> Forall (Forall (fun cn => 0 <= Coins.nHeight cn)) l.

(** An unspent coin, or one that the active chain spent after the fork *)
Definition found_coin (u : COutPoint -> option Coin) (p : ptr) (o : COutPoint) (cn : Coin) : Prop :=
  u o = Some cn \/ u o = None /\ spent_after_fork st chain tip btip p o cn.

Lemma find_coin_spec p b o view :
  st !! p = Some b -> cache_ok view ->
  exists r view', find_coin st chain p o view = Ok (r, view') /\ cache_ok view' /\ (forall o', cache_utxo view' o' = cache_utxo view o') /\
    forall cn, r = Some cn <-> found_coin (cache_utxo view) p o cn.
Proof.
  intros Hp Hv. unfold find_coin. destruct (cache_GetCoin_spec o view Hv) as (view' & -> & Hv' & Hu & _). unfold found_coin. destruct (cache_utxo view o) as [cn|] eqn:E.
  - exists (Some cn), view'. split_and!; [done|done|done|]. intros cn'. split; [by left|]. by intros [?|[? _]].
  - destruct (GetSpentCoinFromMainChain_finds st Hst chain tip btip Hchain Htip Hbtip Hroot p b o Hp) as (r & -> & Hr). cbn [obind]. exists r, view'. split_and!; [done|done|done|].
    intros cn. rewrite Hr. split; [by right|]. by intros [?|[_ ?]].
Qed.

Lemma found_coin_height u p o cn : coins_typed u -> found_coin u p o cn -> 0 <= Coins.nHeight cn.
Proof.
  intros Ht [Hc|[_ [(base & bbase & _ & _ & _ & _ & x & bx & m & _ & Hs & _)]]]; [apply (Ht o cn Hc)|].
  unfold GetSpentCoinFromBlock in Hs. destruct (ReadBlockFromDisk bx) as [block|]; [|done]. destruct (find_spend _ _ _) as [[[j k] tx]|]; [|done].
  destruct (UndoReadFromDisk bx) as [l|] eqn:E; [|done]. destruct (negb _); [done|]. destruct (l !! (j - 1)%nat) as [v|] eqn:Ev; [|done]. destruct (negb _); [done|].
  specialize (Hundo bx l E). eapply Forall_lookup_1 in Hundo; [|exact Ev]. by eapply Forall_lookup_1 in Hundo.
Qed.

(** The coin exists, is mature on top of [prev] and its kernel meets the target. *)
Record kernel_valid (u : COutPoint -> option Coin) (p : ptr) (prev : CBlockIndex) (nBits nTimeBlock : Z) (o : COutPoint) : Prop := {
  kv_coin : exists cn from w, found_coin u p o cn /\ mature prev cn /\ coin_block st p prev cn from /\ IsSpent cn = false /\
    weighted_value nBits (nValue (out cn)) (op_hash o) = Ok w /\ kernel_ok prev nBits (nTime from) o nTimeBlock w
}.


Lemma CheckKernel_spec p prev nBits nTimeBlock o view :
  st !! p = Some prev -> cache_ok view -> coins_typed (cache_utxo view) -> in_u 32 nBits -> hash_ok (op_hash o) ->
  exists b view', CheckKernel st chain p nBits nTimeBlock o view ∅ = Ok (b, view') /\ cache_ok view' /\
    (forall o', cache_utxo view' o' = cache_utxo view o') /\ (b = true <-> kernel_valid (cache_utxo view) p prev nBits nTimeBlock o).
Proof.
  intros Hp Hv Ht Hn Hh. unfold CheckKernel. rewrite lookup_empty. unfold CheckKernel_coin.
  destruct (find_coin_spec p prev o view Hp Hv) as (r & view' & -> & Hv' & Hu & Hr). cbn [obind].
  assert (Hno : ~ kernel_valid (cache_utxo view) p prev nBits nTimeBlock o -> exists b view'', Ok (false, view') = Ok (b, view'') /\ cache_ok view'' /\
    (forall o', cache_utxo view'' o' = cache_utxo view o') /\ (b = true <-> kernel_valid (cache_utxo view) p prev nBits nTimeBlock o)).
  { intros Hneg. do 2 eexists. split_and!; [done|done|done|]. split; [done|tauto]. }
  destruct r as [cn|]; [|apply Hno; intros [(cn & ? & ? & Hc%Hr & _)]; done]. pose proof (proj1 (Hr cn) eq_refl) as Hc.
  assert (Hinv : kernel_valid (cache_utxo view) p prev nBits nTimeBlock o -> exists from w, mature prev cn /\ coin_block st p prev cn from /\ IsSpent cn = false /\
    weighted_value nBits (nValue (out cn)) (op_hash o) = Ok w /\ kernel_ok prev nBits (nTime from) o nTimeBlock w).
  { intros [(cn' & from & w & Hc'%Hr & Hrest)]. injection Hc' as <-. by exists from, w. }
  unfold deref. rewrite Hp. cbn [of_option obind]. destruct (too_young prev cn) eqn:Ey.
  { apply Hno. intros (? & ? & Hm%too_young_mature & _)%Hinv. congruence. }
  apply too_young_mature in Ey. destruct (GetAncestor_coin_block st Hst p prev cn Hp (found_coin_height _ _ _ _ Ht Hc) Ey) as (q & from & -> & Hq & Hb). cbn [obind].
  destruct (IsSpent cn) eqn:Es; [apply Hno; intros (? & ? & _ & _ & ? & _)%Hinv; congruence|]. rewrite Hq. cbn [of_option obind].
  destruct (weighted_value_total nBits (nValue (out cn)) _ Hh) as [w Hw].
  destruct (CheckStakeKernelHash_spec prev nBits (nTime from) (nValue (out cn)) o nTimeBlock (uint256_null, uint256_null) w Hn Hw) as (b & proofs & -> & Hk). cbn [obind fst].
  exists b, view'. split_and!; [done|done|done|]. rewrite Hk. split.
  - intros Hok. split. exists cn, from, w. exact (conj Hc (conj Ey (conj Hb (conj Es (conj Hw Hok))))).
  - intros (from' & w' & _ & Hb' & _ & Hw' & Hk')%Hinv. rewrite (coin_block_det _ _ _ _ _ _ Hb' Hb) in Hk'. rewrite Hw in Hw'. by injection Hw' as <-.
Qed.

(** The script pays to the key, or to its hash. *)
Definition pays (script : CScript) (key : CPubKey) : Prop :=
  ExtractDestination script = Ok (TX_PUBKEY, Some (PKHash (CPubKey_GetID key))) \/
  ExtractDestination script = Ok (TX_PUBKEYHASH, Some (PKHash (CPubKey_GetID key))).

Lemma pays_to_key_spec script key : exists r, pays_to_key script key = Ok r /\ (r = true <-> pays script key).
Proof.
  unfold pays_to_key, pays. destruct (ExtractDestination_total script) as (t & d & ->). cbn [obind].
  destruct t; try (exists false; split; [done|]; split; [done|]; by intros [[=]|[=]]).
  all: destruct d as [[]|]; try (exists false; split; [done|]; split; [done|]; by intros [[=]|[=]]).
  all: eexists; (split; [reflexivity|]); rewrite bytes_eqb_eq; (split; [intros <-; auto|]); intros [E|E]; congruence.
Qed.

(** One of the recovered keys owns the coin. *)
Definition recovered (hash : uint256) (sig : bytes) (script : CScript) (tries : list (Z * bool)) : Prop :=
  exists recid compressed key, (recid, compressed) ∈ tries /\ RecoverLaxDER hash sig recid compressed = Some key /\ pays script key.

Lemma recovered_cons hash sig script recid compressed tries :
  recovered hash sig script ((recid, compressed) :: tries) <->
  (exists key, RecoverLaxDER hash sig recid compressed = Some key /\ pays script key) \/ recovered hash sig script tries.
Proof.
  unfold recovered. split.
  - intros (i & c & key & [[= -> ->]|Hin]%elem_of_cons & Hr & Hp); [left; eauto|right; eauto 6].
  - intros [(key & Hr & Hp)|(i & c & key & Hin & Hr & Hp)]; [exists recid, compressed, key|exists i, c, key]; rewrite elem_of_cons; auto.
Qed.

Lemma recover_loop_spec hash sig script tries :
  exists r, recover_loop RecoverLaxDER hash sig script tries = Ok r /\ (r = true <-> recovered hash sig script tries).
Proof.
  induction tries as [|[recid compressed] tries (r & E & Hr)]; cbn [recover_loop].
  { exists false. split; [done|]. split; [done|]. intros (i & c & key & Hin & _). by apply elem_of_nil in Hin. }
  setoid_rewrite recovered_cons. destruct (RecoverLaxDER hash sig recid compressed) as [key|].
  - destruct (pays_to_key_spec script key) as ([] & -> & Hp); cbn [obind].
    + exists true. split; [done|]. split; [|done]. intros _. left. exists key. split; [done|by apply Hp].
    + exists r. split; [done|]. rewrite Hr. split; [by right|]. intros [(key' & [= <-] & Hk%Hp)|?]; [discriminate Hk|done].
  - exists r. split; [done|]. rewrite Hr. split; [by right|]. by intros [(? & [=] & _)|?].
Qed.

(** The header is signed by the owner of the staked coin. *)
Definition header_signed (u : COutPoint -> option Coin) (p : ptr) (block : CBlockHeader) : Prop :=
  vchBlockSig block <> [] /\ exists cn, found_coin u p (hdr_prevoutStake block) cn /\
    recovered (header_GetHashWithoutSign block) (vchBlockSig block) (scriptPubKey (out cn)) recovery_ids.

Lemma CheckRecoveredPubKey_spec p prev block view :
  st !! p = Some prev -> cache_ok view ->
  exists b view', CheckRecoveredPubKeyFromBlockSignature RecoverLaxDER st chain p block view = Ok (b, view') /\ cache_ok view' /\
    (forall o', cache_utxo view' o' = cache_utxo view o') /\ (b = true <-> header_signed (cache_utxo view) p block).
Proof.
  intros Hp Hv. unfold CheckRecoveredPubKeyFromBlockSignature.
  destruct (find_coin_spec p prev (hdr_prevoutStake block) view Hp Hv) as (r & view' & -> & Hv' & Hu & Hr). cbn [obind]. unfold header_signed.
  destruct r as [cn|]; [|exists false, view'; split_and!; [done|done|done|]; split; [done|]; intros (_ & cn & Hc%Hr & _); done].
  pose proof (proj1 (Hr cn) eq_refl) as Hc. destruct (vchBlockSig block) as [|z sig] eqn:Es.
  { exists false, view'. split_and!; [done|done|done|]. split; [done|]. by intros [? _]. }
  destruct (recover_loop_spec (header_GetHashWithoutSign block) (z :: sig) (scriptPubKey (out cn)) recovery_ids) as (b & E & Hb). rewrite E. cbn [obind].
  exists b, view'. split_and!; [done|done|done|]. rewrite Hb. split; [intros Hk; split; [done|]; by exists cn|]. intros (_ & cn' & Hc'%Hr & Hk). by injection Hc' as <-.
Qed.

(** What is asked of the stake of a header *)
Record stake_valid (u : COutPoint -> option Coin) (block : CBlockHeader) (p : ptr) (prev : CBlockIndex) : Prop := {
  sv_signed : nEnableHeaderSignatureHeight params <= Chain.nHeight prev -> header_signed u p block;
  sv_kernel : kernel_valid u p prev (hdr_nBits block) (StakeTime block) (hdr_prevoutStake block)
}.

Lemma found_coin_ext u u' p o cn : (forall o, u' o = u o) -> found_coin u p o cn -> found_coin u' p o cn.
Proof. intros Hu. unfold found_coin. by rewrite Hu. Qed.

Lemma kernel_valid_ext u u' p prev nb t o : (forall o, u' o = u o) -> kernel_valid u p prev nb t o <-> kernel_valid u' p prev nb t o.
Proof. intros Hu. split; intros [(cn & from & w & Hc & Hr)]; split; exists cn, from, w; (split; [eapply found_coin_ext; [|exact Hc]; done|exact Hr]). Qed.

Lemma CheckHeaderPoS_spec block p prev view :
  mapBlockIndex !! hashPrevBlock block = Some p -> st !! p = Some prev -> cache_ok view -> coins_typed (cache_utxo view) ->
  in_u 32 (hdr_nBits block) -> hash_ok (op_hash (hdr_prevoutStake block)) ->
  exists b view', CheckHeaderPoS RecoverLaxDER st mapBlockIndex chain params block view = Ok (b, view') /\ cache_ok view' /\
    (forall o, cache_utxo view' o = cache_utxo view o) /\ (b = true <-> stake_valid (cache_utxo view) block p prev).
Proof.
  intros Hm Hp Hv Ht Hn Hh. unfold CheckHeaderPoS. rewrite Hm. unfold deref. rewrite Hp. cbn [of_option obind].
  assert (Hs : exists b view', (if nEnableHeaderSignatureHeight params <=? Chain.nHeight prev then CheckRecoveredPubKeyFromBlockSignature RecoverLaxDER st chain p block view
      else Ok (true, view)) = Ok (b, view') /\ cache_ok view' /\ (forall o, cache_utxo view' o = cache_utxo view o) /\
      (b = true <-> (nEnableHeaderSignatureHeight params <= Chain.nHeight prev -> header_signed (cache_utxo view) p block))).
  { destruct (Z.leb_spec (nEnableHeaderSignatureHeight params) (Chain.nHeight prev)) as [Hle|Hgt].
    - destruct (CheckRecoveredPubKey_spec p prev block view Hp Hv) as (b & view' & E & Hv' & Hu & Hb). exists b, view'. split_and!; [done|done|done|]. rewrite Hb. tauto.
    - exists true, view. split_and!; [done|done|done|]. split; [lia|done]. }
  destruct Hs as (b & v1 & -> & Hv1 & Hu1 & Hb). cbn [obind]. destruct b; cbn [negb].
  - destruct (CheckKernel_spec p prev (hdr_nBits block) (StakeTime block) (hdr_prevoutStake block) v1 Hp Hv1 (coins_typed_ext _ _ Hu1 Ht) Hn Hh) as (b & v2 & -> & Hv2 & Hu2 & Hk).
    exists b, v2. split_and!; [done|done|by intros o; rewrite Hu2, Hu1|]. rewrite Hk, (kernel_valid_ext (cache_utxo v1) (cache_utxo view)) by done.
    split; [intros Hok; split; [by apply Hb|done]|by intros []].
  - exists false, v1. split_and!; [done|done|done|]. split; [done|]. intros [Hsig _]. by apply Hb.
Qed.

End stake.

(** ** Descendants of failed blocks *)

(** A block that descends from a failed one *)
Definition condemned (s : ChainState) (p : ptr) : Prop := exists q, q ∈ m_failed_blocks s /\ ancestor (entries s) q p.

Definition child_of_failed (b : CBlockIndex) : CBlockIndex := set_nStatus b (Z.lor (nStatus b) BLOCK_FAILED_CHILD).

Lemma GetAncestor_is st p b q bq :
  wf_store st -> st !! p = Some b -> st !! q = Some bq -> exists a, GetAncestor st p (Chain.nHeight bq) = Ok a /\ (a = Some q <-> ancestor st q p).
Proof.
  intros Hst Hp Hq. rewrite (GetAncestor_spec _ _ _ _ Hst Hp). eexists. split; [done|]. pose proof (wf_height _ _ _ (Hst _ _ Hq)).
  destruct ((Chain.nHeight b <? Chain.nHeight bq) || (Chain.nHeight bq <? 0)) eqn:E.
  - split; [done|]. intros Ha. destruct (ancestor_height _ _ _ _ Hst Hp Ha) as (bq' & Hq' & Hle). apply orb_true_iff in E. rewrite Hq in Hq'. injection Hq' as <-. lia.
  - split; [by eexists|]. apply (ancestor_distance _ _ _ _ _ Hst Hp Hq).
Qed.

Lemma find_failed_spec l p b s :
  tree_ok s -> entries s !! p = Some b -> (forall q, q ∈ l -> q ∈ m_failed_blocks s) ->
  exists r, find_failed l p s = Ok r /\
    match r with Some q => q ∈ l /\ ancestor (entries s) q p | None => forall q, q ∈ l -> ~ ancestor (entries s) q p end.
Proof.
  intros Hs Hp. induction l as [|q l IH]; intros Hl; cbn [find_failed].
  { exists None. split; [done|]. intros q Hq. by apply elem_of_nil in Hq. }
  destruct (tree_failed s Hs q) as (bq & Hq & Hi); [apply Hl; by left|]. unfold deref. rewrite Hq. cbn [of_option obind].
  destruct (GetAncestor_is (entries s) p b q bq (tree_wf s Hs) Hp Hq) as (a & -> & Ha). cbn [obind]. case_bool_decide as Ea.
  - rewrite Hi. exists (Some q). split; [done|]. split; [by left|by apply Ha].
  - destruct IH as (r & -> & Hr); [intros x Hx; apply Hl; by right|]. exists r. split; [done|]. destruct r as [x|].
    + destruct Hr. split; [by right|done].
    + intros x [->|Hx]%elem_of_cons; [tauto|by apply Hr].
Qed.

(** The blocks [on] the path are marked, the rest of the state is as before. *)
Record marks (on : ptr -> Prop) (s s' : ChainState) : Prop := {
  mk_on : forall x, on x -> exists b, entries s !! x = Some b /\ entries s' !! x = Some (child_of_failed b);
  mk_off : forall x, ~ on x -> entries s' !! x = entries s !! x;
  mk_raised : forall x b, entries s !! x = Some b -> exists z, entries s' !! x = Some (set_nStatus b (Z.lor (nStatus b) z));
  mk_restatus : restatus (entries s) (entries s');
  mk_index : m_block_index s' = m_block_index s;
  mk_chain : m_chain s' = m_chain s;
  mk_failed : m_failed_blocks s' = m_failed_blocks s;
  mk_unlinked : m_blocks_unlinked s' = m_blocks_unlinked s;
  mk_candidates : setBlockIndexCandidates s' = setBlockIndexCandidates s;
  mk_seen : setStakeSeen s' = setStakeSeen s;
  mk_dirty : forall x, on x -> x ∈ setDirtyBlockIndex s';
  mk_clean : setDirtyBlockIndex s ⊆ setDirtyBlockIndex s';
  mk_best : pindexBestHeader s' = pindexBestHeader s /\ pindexBestInvalid s' = pindexBestInvalid s /\
    pindexBestForkTip s' = pindexBestForkTip s /\ pindexBestForkBase s' = pindexBestForkBase s
}.

Lemma marks_refl s on : (forall x, ~ on x) -> marks on s s.
Proof.
  intros Hno. split; try done; try (intros x Hx; by destruct (Hno x Hx)). intros x b Hx. exists 0. rewrite Z.lor_0_r, Hx. by destruct b.
Qed.

Lemma marks_tree on s s' : tree_ok s -> marks on s s' -> tree_ok s'.
Proof.
  intros Hs []. pose proof mk_best0 as (E1 & E2 & E3 & E4). apply (tree_restatus s); try done.
  - intros p. rewrite mk_candidates0. by left.
  - intros q p. rewrite mk_unlinked0. by left.
  - apply (marked_mono s); [apply Hs|by rewrite mk_failed0|]. intros p b _ Hp Hi. destruct (mk_raised0 p b Hp) as [z Hz]. eexists. split; [exact Hz|by apply invalid_lor].
  - rewrite E1, E2, E3, E4. apply Hs.
Qed.


Lemma mark_children_spec fuel q n w b s :
  wf_store (entries s) -> entries s !! w = Some b -> walk (entries s) n w = Some q -> (n <= fuel)%nat ->
  exists s', mark_children fuel q w s = Ok s' /\ marks (fun x => exists m, (m < n)%nat /\ walk (entries s) m w = Some x) s s'.
Proof.
  revert n w b s. induction fuel as [|fuel IH]; intros n w b s Hwf Hw Hn Hf; cbn [mark_children].
  all: destruct (decide (w = q)) as [<-|Hne]; [exists s; split; [done|]; apply marks_refl; intros x (m & Hm & _); pose proof (walk_unique (entries s) Hwf w b n 0%nat w Hw Hn eq_refl); lia|].
  all: destruct (walk_parent (entries s) Hwf w b n q Hw Hn Hne) as (r & br & n' & Hr & Hbr & -> & Hn').
  { lia. }
  unfold deref. rewrite Hw. cbn [of_option obind]. rewrite Hr. cbn [of_option obind]. fold (child_of_failed b). set (s1 := set_dirty w (set_entries (insert w (child_of_failed b)) s)).
  assert (Hres : restatus (entries s) (entries s1)) by by apply restatus_insert.
  assert (Hwf1 : wf_store (entries s1)) by (eapply same_tree_wf; [apply restatus_same_tree; exact Hres|exact Hwf]).
  assert (Hnw : forall m, walk (entries s) m r <> Some w).
  { intros m Hm. assert (walk (entries s) (S m) w = Some w) as E by (cbn [walk]; by rewrite Hw, Hr). pose proof (walk_unique (entries s) Hwf w b (S m) 0%nat w Hw E eq_refl). lia. }
  assert (Hrw : r <> w) by (intros ->; by apply (Hnw 0%nat)).
  destruct (IH n' r br s1) as (s' & -> & Hm); [done|by cbn; rewrite lookup_insert_ne|by rewrite (restatus_walk _ _ _ _ Hres)|lia|]. exists s'. split; [done|].
  assert (Hon : forall x, (exists m, (m < n')%nat /\ walk (entries s1) m r = Some x) <-> exists m, (m < n')%nat /\ walk (entries s) m r = Some x)
    by (intros x; by setoid_rewrite (restatus_walk _ _ _ _ Hres)).
  assert (Hsplit : forall x, (exists m, (m < S n')%nat /\ walk (entries s) m w = Some x) <-> x = w \/ exists m, (m < n')%nat /\ walk (entries s) m r = Some x).
  { intros x. split.
    - intros ([|m] & Hlt & E); cbn [walk] in E; [left; congruence|right]. rewrite Hw, Hr in E. exists m. split; [lia|done].
    - intros [->|(m & Hlt & E)]; [exists 0%nat; split; [lia|done]|]. exists (S m). cbn [walk]. rewrite Hw, Hr. split; [lia|done]. }
  assert (Hwoff : ~ exists m, (m < n')%nat /\ walk (entries s1) m r = Some w) by (intros (m & _ & E)%Hon; by apply (Hnw m)).
  destruct Hm as [Hin Hoff Hup Hres' ? ? ? ? ? ? Hd Hcl ?]. split; try done.
  - intros x [->|Hx]%Hsplit.
    + exists b. split; [done|]. rewrite (Hoff w Hwoff). cbn. by rewrite lookup_insert_eq.
    + destruct (Hin x) as (bx & Hbx & Hbx'); [by apply Hon|]. exists bx. split; [|done]. cbn in Hbx. rewrite lookup_insert_ne in Hbx; [done|].
      intros <-. destruct Hx as (m & _ & E). by apply (Hnw m).
  - intros x Hx. rewrite Hsplit in Hx. rewrite Hoff by (rewrite Hon; tauto). cbn. rewrite lookup_insert_ne; [done|]. intros <-. tauto.
  - intros x bx Hx. destruct (decide (x = w)) as [->|Hxw].
    + rewrite (Hoff w Hwoff). cbn. rewrite lookup_insert_eq. eexists. rewrite Hw in Hx. by injection Hx as <-.
    + apply Hup. cbn. by rewrite lookup_insert_ne.
  - by etrans.
  - intros x [->|Hx]%Hsplit; [apply Hcl, elem_of_union_l, elem_of_singleton; done|apply Hd; by apply Hon].
  - etrans; [|exact Hcl]. apply union_subseteq_r.
Qed.

Lemma failed_blocks_spec s q : q ∈ failed_blocks s <-> q ∈ m_failed_blocks s.
Proof. unfold failed_blocks. by rewrite merge_sort_Permutation, elem_of_elements. Qed.

(** The path from a block to a failed ancestor *)
Definition on_path (s : ChainState) (p q x : ptr) : Prop :=
  exists n m, walk (entries s) n p = Some q /\ (m < n)%nat /\ walk (entries s) m p = Some x.

Lemma mark_descendants_spec p prev s :
  tree_ok s -> entries s !! p = Some prev ->
  exists d s', mark_descendants p s = Ok (d, s') /\ tree_ok s' /\ (d = true <-> IsValid prev BLOCK_VALID_SCRIPTS = Ok false /\ condemned s p) /\
    if d : bool then exists q, q ∈ m_failed_blocks s /\ ancestor (entries s) q p /\ marks (on_path s p q) s s' else s' = s.
Proof.
  intros Hs Hp. pose proof (tree_wf s Hs) as Hwf. unfold mark_descendants, deref. rewrite Hp. cbn [of_option obind].
  destruct (IsValid_returns prev BLOCK_VALID_SCRIPTS eq_refl) as [v ->]. cbn [obind]. destruct v.
  { exists false, s. split_and!; [done|done| |done]. split; [done|]. by intros [[=] _]. }
  destruct (find_failed_spec (failed_blocks s) p prev s Hs Hp) as (r & -> & Hr); [intros q; by apply failed_blocks_spec|]. cbn [obind]. destruct r as [q|].
  - destruct Hr as [Hq%failed_blocks_spec [n Hn]]. pose proof (walk_inv _ _ _ _ _ Hwf Hp Hn) as [Hle _].
    destruct (mark_children_spec (S (Z.to_nat (Chain.nHeight prev))) q n p prev s Hwf Hp Hn) as (s' & -> & Hm); [lia|]. cbn [obind]. exists true, s'.
    split_and!; [done|by eapply marks_tree| |].
    + split; [intros _; split; [done|]; exists q; split; [done|by exists n]|done].
    + exists q. split_and!; [done|by exists n|]. assert (Hon : forall x, on_path s p q x <-> exists m, (m < n)%nat /\ walk (entries s) m p = Some x).
      { intros x. split; [|by intros (m & ?); exists n, m]. intros (n' & m & Hn' & Hlt & Hx). rewrite (walk_unique _ Hwf p prev n' n q Hp Hn' Hn) in Hlt. by exists m. }
      destruct Hm as [H1 H2 H3 H4 H5 H6 H7 H8 H9 H10 H11 H12 H13]. split; try done; intros x Hx; [apply H1|apply H2|apply H11]; by rewrite <- ?Hon.
  - exists false, s. split_and!; [done|done| |done]. split; [done|]. intros [_ (q & Hq%failed_blocks_spec & Ha)]. by destruct (Hr q Hq).
Qed.

(** ** Signatures of blocks *)

Definition signature_canonical (CheckLowS : bytes -> bool) (block : CBlockHeader) : Prop :=
  if header_IsProofOfWork block then vchBlockSig block = []
  else IsValidSignatureEncoding (vchBlockSig block) false = true /\ CheckLowS (vchBlockSig block) = true.

Lemma CheckCanonicalBlockSignature_spec CheckLowS block :
  CheckCanonicalBlockSignature CheckLowS block = true <-> signature_canonical CheckLowS block.
Proof.
  unfold CheckCanonicalBlockSignature, IsCanonicalBlockSignature, signature_canonical, IsDERSignature, IsLowDERSignature. destruct (header_IsProofOfWork block).
  - by destruct (vchBlockSig block).
  - destruct (IsValidSignatureEncoding (vchBlockSig block) false); [|split; [done|by intros [? _]]]. cbn [negb]. rewrite Nat.sub_0_r, firstn_all.
    destruct (CheckLowS (vchBlockSig block)); cbn [negb]; [done|]. split; [done|by intros [_ ?]].
Qed.

(** ** New headers *)

Section headers.
Context `{Laws : CCoinsViewReads V} `{Files : BlockFiles}.
Context (CheckLowS : bytes -> bool) (RecoverLaxDER : uint256 -> bytes -> Z -> bool -> option CPubKey).
Context (params : Params) (fCheckpointsEnabled : bool) (checkpoints : MapCheckpoints).
Context (IsInitialBlockDownload : bool) (AdjustedTime : Z).
Hypothesis Hspan : 0 <= nCheckpointSpan params.
Hypothesis Hpow : pow_params_ok params.
Hypothesis Hmin : fPowAllowMinDifficultyBlocks params = false.
Hypothesis Hundo : forall b l, UndoReadFromDisk b = Some l -> Forall (Forall (fun cn => 0 <= Coins.nHeight cn)) l.

(** A tree whose only root is the genesis block, with an active chain *)
Record header_tree (s : ChainState) : Prop := {
  ht_tree : tree_ok s;
  ht_widths : store_widths (entries s);
  ht_tip : is_Some (Tip (m_chain s));
  ht_root : forall p b, entries s !! p = Some b -> pprev b = None -> phashBlock b = Some (hashGenesisBlock params)
}.

(** Fields within their widths *)
Record header_typed (block : CBlockHeader) : Prop := {
  hty_bits : in_u 32 (hdr_nBits block);
  hty_time : in_u 32 (hdr_nTime block);
  hty_stake : hash_ok (op_hash (hdr_prevoutStake block))
}.

(** A header builds on the tip, or is not older than the synchronized
    checkpoint. *)
Definition recent (s : ChainState) (block : CBlockHeader) : Prop :=
  forall tip btip, Tip (m_chain s) = Some tip -> entries s !! tip = Some btip ->
  phashBlock btip = Some (hashPrevBlock block) \/
  exists q bq, entries s !! q = Some bq /\ ancestor (entries s) q tip /\ Chain.nHeight bq = sync_height params btip /\ nTime bq <= hdr_nTime block.

(** What is asked of a header that is not in the tree, on top of [prev] *)
Record acceptable (u : COutPoint -> option Coin) (s : ChainState) (block : CBlockHeader) (p : ptr) (prev : CBlockIndex) : Prop := {
  ac_parent : m_block_index s !! hashPrevBlock block = Some p /\ entries s !! p = Some prev;
  ac_recent : recent s block;
  ac_signature : signature_canonical CheckLowS block;
  ac_sound : failed prev = false;
  ac_context : forall tip btip, Tip (m_chain s) = Some tip -> entries s !! tip = Some btip ->
    header_ok (entries s) (m_block_index s) params btip fCheckpointsEnabled checkpoints block p prev AdjustedTime;
  ac_branch : IsValid prev BLOCK_VALID_SCRIPTS = Ok true \/ ~ condemned s p;
  ac_work : header_IsProofOfWork block = true -> Chain.nHeight prev + 1 <= nLastPOWBlock params /\ CheckHeaderPoW params block = true;
  ac_stake : header_IsProofOfStake block = true ->
    COINBASE_MATURITY <= Chain.nHeight prev + 1 /\ CheckCoinStakeTimestamp (hdr_nTime block) = true;
  ac_kernel : header_IsProofOfStake block = true -> IsInitialBlockDownload = false ->
    forall tip btip, Tip (m_chain s) = Some tip -> entries s !! tip = Some btip ->
    stake_valid RecoverLaxDER (entries s) (m_chain s) params tip btip u block p prev
}.

Section new_header.
Context (s : ChainState) (Hs : header_tree s) (tip : ptr) (btip : CBlockIndex).
Hypothesis Htip : Tip (m_chain s) = Some tip.
Hypothesis Hbtip : entries s !! tip = Some btip.

Lemma single_root p b q bq : entries s !! p = Some b -> entries s !! q = Some bq -> pprev b = None -> pprev bq = None -> p = q.
Proof.
  intros Hp Hq Np Nq. pose proof (ht_root s Hs p b Hp Np) as Ep. pose proof (ht_root s Hs q bq Hq Nq) as Eq. pose proof (tree_index s (ht_tree s Hs)) as Hi.
  assert (m_block_index s !! hashGenesisBlock params = Some p) by (apply Hi; eauto). assert (m_block_index s !! hashGenesisBlock params = Some q) by (apply Hi; eauto). congruence.
Qed.

Lemma genesis_indexed : is_Some (m_block_index s !! hashGenesisBlock params).
Proof.
  destruct (root_of (entries s) (tree_wf s (ht_tree s Hs)) tip btip Hbtip) as (r & br & _ & Hr & _ & Hn). exists r.
  apply (tree_index s (ht_tree s Hs)). exists br. split; [done|]. by apply (ht_root s Hs r).
Qed.

Lemma older_than_checkpoint_spec block :
  exists old, older_than_checkpoint params block s = Ok old /\ (old = false <-> recent s block).
Proof.
  pose proof (ht_tree s Hs) as Ht. unfold older_than_checkpoint, recent. rewrite Htip. unfold deref. rewrite Hbtip. cbn [of_option obind].
  destruct (wf_hash _ _ _ (tree_wf s Ht _ _ Hbtip)) as [h Hh]. unfold GetBlockHash. rewrite Hh. cbn [of_option obind].
  destruct (bytes_eqb (hashPrevBlock block) h) eqn:E.
  { exists false. split; [done|]. split; [|done]. intros _ t bt [= <-] Hbt. left. apply bytes_eqb_eq in E. congruence. }
  destruct (AutoSelectSyncCheckpoint_spec (entries s) (m_chain s) params tip btip (tree_wf s Ht) Htip Hbtip Hspan) as (q & bq & -> & Hq & Ha & Hqh). cbn [obind]. rewrite Hq.
  cbn [of_option obind]. eexists. split; [done|]. rewrite Z.ltb_ge. split.
  - intros Hle t bt [= <-] Hbt. rewrite Hbtip in Hbt. injection Hbt as <-. right. exists q, bq. split_and!; [done|done|done|lia].
  - intros Hrec. destruct (Hrec tip btip eq_refl Hbtip) as [Eh|(q' & bq' & Hq' & Ha' & Hh' & Hle)].
    + rewrite Hh in Eh. injection Eh as ->. by rewrite (proj2 (bytes_eqb_eq _ _) eq_refl) in E.
    + assert (q' = q) as ->; [|simplify_eq; lia]. pose proof (ancestor_distance _ _ _ _ _ (tree_wf s Ht) Hbtip Hq Ha) as W.
      pose proof (ancestor_distance _ _ _ _ _ (tree_wf s Ht) Hbtip Hq' Ha') as W'. rewrite Hqh in W. rewrite Hh' in W'. congruence.
Qed.

Lemma check_kind_spec block h :
  check_kind params block h = None <->
    (header_IsProofOfWork block = true -> h <= nLastPOWBlock params) /\
    (header_IsProofOfStake block = true -> COINBASE_MATURITY <= h /\ CheckCoinStakeTimestamp (hdr_nTime block) = true).
Proof.
  unfold check_kind, header_IsProofOfWork. destruct (header_IsProofOfStake block); cbn [negb andb].
  - destruct (Z.ltb_spec h COINBASE_MATURITY); [split; [done|]; intros [_ Hk]; destruct (Hk eq_refl); lia|].
    destruct (CheckCoinStakeTimestamp (hdr_nTime block)); cbn [negb]; [split; [|done]; by split|]. split; [done|]. intros [_ Hk]. by destruct (Hk eq_refl).
  - destruct (Z.ltb_spec (nLastPOWBlock params) h); [split; [done|]; intros [Hk _]; specialize (Hk eq_refl); lia|]. split; [|done]. split; [done|discriminate].
Qed.

Lemma CheckBlockHeader_spec block state p prev view :
  header_typed block -> m_block_index s !! hashPrevBlock block = Some p -> entries s !! p = Some prev -> cache_ok view -> coins_typed (cache_utxo view) ->
  exists ok state' view', CheckBlockHeader RecoverLaxDER (entries s) (m_block_index s) (m_chain s) params IsInitialBlockDownload block state true true view = Ok (ok, state', view') /\
    cache_ok view' /\ (forall o, cache_utxo view' o = cache_utxo view o) /\ (ok = true -> state' = state) /\
    (ok = true <-> (header_IsProofOfWork block = true -> CheckHeaderPoW params block = true) /\
      (header_IsProofOfStake block = true -> IsInitialBlockDownload = false ->
        stake_valid RecoverLaxDER (entries s) (m_chain s) params tip btip (cache_utxo view) block p prev)).
Proof.
  intros [Hbits _ Hstake] Hm Hp Hv Ht. pose proof (ht_tree s Hs) as Htree. unfold CheckBlockHeader. cbn [andb].
  destruct (header_IsProofOfWork block) eqn:Ew; unfold header_IsProofOfWork in Ew; destruct (header_IsProofOfStake block) eqn:Es; try discriminate Ew; cbn [andb].
  - rewrite andb_false_r. destruct (CheckHeaderPoW params block); cbn [negb].
    + do 3 eexists. split_and!; [reflexivity|done|done|done|]. split; [|done]. split; [done|discriminate].
    + do 3 eexists. split_and!; [reflexivity|done|done|done|]. split; [done|]. intros [Hk _]. by specialize (Hk eq_refl).
  - rewrite andb_true_r. destruct IsInitialBlockDownload; cbn [negb].
    + do 3 eexists. split_and!; [reflexivity|done|done|done|]. split; [|done]. by split.
    + destruct (CheckHeaderPoS_spec RecoverLaxDER (entries s) (m_block_index s) (m_chain s) params tip btip (tree_wf s Htree) (tree_chain s Htree) Htip Hbtip single_root Hundo
        block p prev view Hm Hp Hv Ht Hbits Hstake) as (b & view' & -> & Hv' & Hu & Hb). cbn [obind]. destruct b; cbn [negb].
      * do 3 eexists. split_and!; [reflexivity|done|done|done|]. split; [|done]. intros _. split; [discriminate|]. intros _ _. by apply Hb.
      * do 3 eexists. split_and!; [reflexivity|done|done|done|]. split; [done|]. intros [_ Hk]. apply Hb. by apply Hk.
Qed.

(** What became of the tree when a header was refused: nothing, or the path to
    a failed ancestor of its parent was marked. *)
Definition refused (block : CBlockHeader) (s' : ChainState) : Prop :=
  s' = s \/ exists p q, m_block_index s !! hashPrevBlock block = Some p /\ q ∈ m_failed_blocks s /\ ancestor (entries s) q p /\ marks (on_path s p q) s s'.

Record checked (block : CBlockHeader) (good : Prop) (state : CValidationState) (view : CCoinsViewCache V)
    (ok : bool) (state' : CValidationState) (s' : ChainState) (view' : CCoinsViewCache V) : Prop := {
  ck_view : cache_ok view' /\ forall o, cache_utxo view' o = cache_utxo view o;
  ck_refused : if ok then s' = s /\ state' = state else refused block s';
  ck_ok : ok = true <-> good
}.

Lemma checked_no block good state view state' s' view' :
  cache_ok view' -> (forall o, cache_utxo view' o = cache_utxo view o) -> refused block s' -> ~ good -> checked block good state view false state' s' view'.
Proof. intros Hv Hu Hr Hno. split; [done|done|]. split; [done|]. by intros Ha%Hno. Qed.

Lemma checked_iff block good good' state view ok state' s' view' :
  (good <-> good') -> checked block good state view ok state' s' view' -> checked block good' state view ok state' s' view'.
Proof. intros E [Hv Hr Hok]. split; [done|done|]. by rewrite <- E. Qed.

(** What the parent asks for *)
Definition fits (u : COutPoint -> option Coin) (block : CBlockHeader) (p : ptr) (prev : CBlockIndex) : Prop :=
  failed prev = false /\ header_ok (entries s) (m_block_index s) params btip fCheckpointsEnabled checkpoints block p prev AdjustedTime /\
  ~ (IsValid prev BLOCK_VALID_SCRIPTS = Ok false /\ condemned s p) /\ check_kind params block (Chain.nHeight prev + 1) = None /\
  (header_IsProofOfWork block = true -> CheckHeaderPoW params block = true) /\
  (header_IsProofOfStake block = true -> IsInitialBlockDownload = false ->
    stake_valid RecoverLaxDER (entries s) (m_chain s) params tip btip u block p prev).

Lemma fits_acceptable u block p prev :
  m_block_index s !! hashPrevBlock block = Some p -> entries s !! p = Some prev -> recent s block -> signature_canonical CheckLowS block ->
  fits u block p prev <-> exists p prev, acceptable u s block p prev.
Proof.
  intros Hm Hp Hr Hsig. split.
  - intros (Hf & Hc & Hd & Hk & Hw & Hst). apply check_kind_spec in Hk as [Kw Ks]. exists p, prev.
    assert (Heq : forall t bt, Tip (m_chain s) = Some t -> entries s !! t = Some bt -> t = tip /\ bt = btip) by (intros; simplify_eq; done).
    split; try done.
    + by intros t bt Et (-> & ->)%(Heq t bt Et).
    + destruct (IsValid_returns prev BLOCK_VALID_SCRIPTS eq_refl) as [[] E]; [by left|right; tauto].
    + intros Ew. split; auto.
    + intros Es Ei t bt Et (-> & ->)%(Heq t bt Et). auto.
  - intros (p' & prev' & [[Hm' Hp'] _ _ Hf Hc Hb Hw Hst Hk]). rewrite Hm in Hm'. injection Hm' as <-. rewrite Hp in Hp'. injection Hp' as <-. split_and!; [done|by apply (Hc tip)| | | |].
    + intros [E Hcon]. destruct Hb as [E'|Hno]; [congruence|done].
    + apply check_kind_spec. split; [|done]. intros Ew. by apply Hw.
    + intros Ew. by apply Hw.
    + intros Es Ei. by apply (Hk Es Ei).
Qed.

Lemma check_on_parent_spec block state view p prev :
  header_typed block -> cache_ok view -> coins_typed (cache_utxo view) -> m_block_index s !! hashPrevBlock block = Some p -> entries s !! p = Some prev ->
  exists ok state' s' view',
    check_on_parent RecoverLaxDER params fCheckpointsEnabled checkpoints IsInitialBlockDownload AdjustedTime block p state s view = Ok (ok, state', s', view') /\
    checked block (fits (cache_utxo view) block p prev) state view ok state' s' view'.
Proof.
  intros Hty Hv Ht Hm Hp. pose proof (ht_tree s Hs) as Htree. unfold check_on_parent, deref. rewrite Hp. cbn [of_option obind].
  assert (Hno : forall state' s', refused block s' -> ~ fits (cache_utxo view) block p prev ->
    exists ok st1 s1 v1, Ok (false, state', s', view) = Ok (ok, st1, s1, v1) /\ checked block (fits (cache_utxo view) block p prev) state view ok st1 s1 v1).
  { intros state' s' Hr Hn. do 4 eexists. split; [reflexivity|]. by apply checked_no. }
  destruct (failed prev) eqn:Ef; [apply Hno; [by left|intros [? _]; congruence]|].
  destruct (ContextualCheckBlockHeader_spec (entries s) (m_block_index s) (m_chain s) params tip btip (tree_wf s Htree)) with (fCheckpointsEnabled := fCheckpointsEnabled)
    (checkpoints := checkpoints) (block := block) (state := state) (p := p) (prev := prev) (nAdjustedTime := AdjustedTime) as (b & state1 & -> & Hst & Hb); try done.
  { intros hash x (bx & Hx & _)%(tree_index s Htree). by exists bx. }
  { apply Hs. }
  cbn [obind]. destruct b; cbn [negb]; [|apply Hno; [by left|intros (_ & Hc%Hb & _); done]].
  specialize (Hst eq_refl) as ->. destruct (mark_descendants_spec p prev s Htree Hp) as (d & s1 & -> & _ & Hd & Hmk). cbn [obind]. destruct d.
  { apply Hno; [right; destruct Hmk as (q & ?); by exists p, q|]. intros (_ & _ & Hc & _). by apply Hc, Hd. }
  subst s1. destruct (check_kind params block (Chain.nHeight prev + 1)) eqn:Ek; [apply Hno; [by left|intros (_ & _ & _ & ? & _); congruence]|].
  destruct (CheckBlockHeader_spec block state p prev view Hty Hm Hp Hv Ht) as (ok & state2 & view2 & -> & Hv2 & Hu2 & Hst2 & Hok). cbn [obind].
  do 4 eexists. split; [reflexivity|]. split; [done|destruct ok; [by rewrite (Hst2 eq_refl)|by left]|]. unfold fits. rewrite Hok, <- Hb, <- Hd, Ek. split; [intros []; by split_and!|tauto].
Qed.

Lemma check_new_header_spec block state view :
  header_typed block -> cache_ok view -> coins_typed (cache_utxo view) ->
  exists ok state' s' view',
    check_new_header CheckLowS RecoverLaxDER params fCheckpointsEnabled checkpoints IsInitialBlockDownload AdjustedTime block state s view = Ok (ok, state', s', view') /\
    checked block (exists p prev, acceptable (cache_utxo view) s block p prev) state view ok state' s' view'.
Proof.
  intros Hty Hv Ht. pose proof (ht_tree s Hs) as Htree. unfold check_new_header.
  assert (Hno : forall state', ~ (exists p prev, acceptable (cache_utxo view) s block p prev) ->
    exists ok st1 s1 v1, Ok (false, state', s, view) = Ok (ok, st1, s1, v1) /\ checked block (exists p prev, acceptable (cache_utxo view) s block p prev) state view ok st1 s1 v1).
  { intros state' Hn. do 4 eexists. split; [reflexivity|]. apply checked_no; [done|done|by left|done]. }
  destruct (older_than_checkpoint_spec block) as (old & -> & Hold). cbn [obind]. destruct old.
  { apply Hno. intros (p & prev & [_ Hr _ _ _ _ _ _ _]). by apply Hold in Hr. }
  destruct (CheckCanonicalBlockSignature CheckLowS block) eqn:Esig; cbn [negb].
  2: { apply Hno. intros (p & prev & [_ _ Hsig _ _ _ _ _ _]). apply CheckCanonicalBlockSignature_spec in Hsig. congruence. }
  apply CheckCanonicalBlockSignature_spec in Esig.
  destruct (m_block_index s !! hashPrevBlock block) as [p|] eqn:Em; [|apply Hno; intros (p & prev & [[? _] _ _ _ _ _ _ _ _]); congruence].
  destruct (proj1 (tree_index s Htree _ p) Em) as (prev & Hp & _).
  destruct (check_on_parent_spec block state view p prev Hty Hv Ht Em Hp) as (ok & state' & s' & view' & -> & Hck). do 4 eexists. split; [reflexivity|].
  eapply checked_iff; [|exact Hck]. apply fits_acceptable; [done|done|by apply Hold|done].
Qed.

End new_header.

Lemma header_tree_marks on s s' : header_tree s -> marks on s s' -> header_tree s'.
Proof.
  intros [Ht Hw Hk Hr] Hm. pose proof (mk_restatus _ _ _ Hm) as Hres. split; [by eapply marks_tree| |by rewrite (mk_chain _ _ _ Hm)|].
  - intros p b (b0 & z & Hb & ->)%(restatus_back _ _ _ _ Hres). exact (Hw p b0 Hb).
  - intros p b (b0 & z & Hb & ->)%(restatus_back _ _ _ _ Hres). exact (Hr p b0 Hb).
Qed.

Lemma header_tree_add s s' block p b :
  header_tree s -> tree_ok s' -> m_chain s' = m_chain s -> entries s' = <[p := b]> (entries s) -> header_typed block -> new_entry s block b ->
  is_Some (m_block_index s !! hashPrevBlock block) -> header_tree s'.
Proof.
  intros [Ht Hw Hk Hr] Hs' Ec E [Hbits Htime _] Hnew Hprev. destruct (new_header _ _ _ Hnew) as (Et & Eb & _). split; [done| |by rewrite Ec|].
  - rewrite E. intros x bx [[<- <-]|[_ Hx]]%lookup_insert_Some; [by rewrite Et, Eb|exact (Hw x bx Hx)].
  - rewrite E. intros x bx [[<- <-]|[_ Hx]]%lookup_insert_Some; [|exact (Hr x bx Hx)]. intros Hn. rewrite (new_pprev _ _ _ Hnew) in Hn. rewrite Hn in Hprev. by destruct Hprev.
Qed.

(** The tree only grows, and its entries only change their status. *)
Record enlarges (s s' : ChainState) : Prop := {
  gr_entries : forall p b, entries s !! p = Some b -> exists z, entries s' !! p = Some (set_nStatus b z);
  gr_index : m_block_index s ⊆ m_block_index s';
  gr_chain : m_chain s' = m_chain s
}.

Lemma enlarges_refl s : enlarges s s.
Proof. split; try done. intros p b Hp. exists (nStatus b). rewrite Hp. by destruct b. Qed.

Lemma enlarges_trans s1 s2 s3 : enlarges s1 s2 -> enlarges s2 s3 -> enlarges s1 s3.
Proof.
  intros [E1 I1 C1] [E2 I2 C2]. split; [|by etrans|congruence]. intros p b Hp. destruct (E1 p b Hp) as [z Hz]. destruct (E2 p _ Hz) as [z' Hz']. by exists z'.
Qed.

Lemma enlarges_refused s block s' : header_tree s -> refused s block s' -> header_tree s' /\ enlarges s s'.
Proof.
  intros Hs [->|(p & q & _ & _ & _ & Hm)]; [split; [done|apply enlarges_refl]|]. split; [by eapply header_tree_marks|].
  split; [|by rewrite (mk_index _ _ _ Hm)|by rewrite (mk_chain _ _ _ Hm)]. intros x b Hx. destruct (mk_raised _ _ _ Hm x b Hx) as [z Hz]. by eexists.
Qed.

Lemma index_enlarges s s' p b : tree_ok s -> tree_ok s' -> entries s !! p = None -> entries s' = <[p := b]> (entries s) -> m_block_index s ⊆ m_block_index s'.
Proof.
  intros Hs Hs' Hp E. apply map_subseteq_spec. intros h x (bx & Hx & Hh)%(tree_index s Hs). apply (tree_index s' Hs'). exists bx. rewrite E, lookup_insert_ne by congruence. done.
Qed.

(** The outcome for a header *)
Record header_result (block : CBlockHeader) (state : CValidationState) (s : ChainState) (view : CCoinsViewCache V)
    (ok : bool) (state' : CValidationState) (ppindex : option ptr) (s' : ChainState) (view' : CCoinsViewCache V) : Prop := {
  res_tree : header_tree s';
  res_grows : enlarges s s';
  res_state : ok = true -> state' = state;
  res_view : cache_ok view' /\ forall o, cache_utxo view' o = cache_utxo view o;
  res_known : forall p, m_block_index s !! header_GetHash block = Some p -> s' = s /\ ppindex = Some p /\
    (ok = true <-> header_GetHash block = hashGenesisBlock params \/ exists b, entries s !! p = Some b /\ failed b = false);
  res_new : m_block_index s !! header_GetHash block = None ->
    (ok = true <-> exists p prev, acceptable (cache_utxo view) s block p prev) /\
    if ok then exists p b, ppindex = Some p /\ entries s !! p = None /\ entries s' = <[p := b]> (entries s) /\ new_entry s block b
    else ppindex = None /\ refused s block s';
  res_indexed : ok = true -> exists p, ppindex = Some p /\ m_block_index s' !! header_GetHash block = Some p
}.

Lemma known_result block state s view p b ok state' :
  header_tree s -> cache_ok view -> m_block_index s !! header_GetHash block = Some p -> entries s !! p = Some b ->
  (ok = true <-> header_GetHash block = hashGenesisBlock params \/ failed b = false) -> (ok = true -> state' = state) ->
  header_result block state s view ok state' (Some p) s view.
Proof.
  intros Hs Hv Em Hp Hok Hst. split; [done|apply enlarges_refl|done|done| | |by intros _; exists p].
  - intros p' Em'. rewrite Em in Em'. injection Em' as <-. split_and!; [done|done|]. rewrite Hok. split; [intros [?|?]; [by left|right; by exists b]|].
    intros [?|(b' & Hb' & ?)]; [by left|right; congruence].
  - intros Hn. congruence.
Qed.

Lemma AcceptBlockHeader_spec block state s view :
  header_tree s -> header_typed block -> cache_ok view -> coins_typed (cache_utxo view) ->
  exists ok state' ppindex s' view',
    AcceptBlockHeader CheckLowS RecoverLaxDER params fCheckpointsEnabled checkpoints IsInitialBlockDownload AdjustedTime block state s view =
      Ok (ok, state', ppindex, s', view') /\ header_result block state s view ok state' ppindex s' view'.
Proof.
  intros Hs Hty Hv Ht. pose proof (ht_tree s Hs) as Htree. destruct (ht_tip s Hs) as [tip Htip]. destruct (chain_tip_present s tip Htree Htip) as [btip Hbtip].
  unfold AcceptBlockHeader. destruct (bytes_eqb _ _) eqn:Eg.
  { apply bytes_eqb_eq in Eg. destruct (genesis_indexed s Hs tip btip Hbtip) as [p Hp]. rewrite <- Eg in Hp. pose proof (proj1 (tree_index s Htree _ p) Hp) as (b & Hb & _).
    unfold AddToBlockIndex. rewrite Hp. cbn [obind fst snd]. do 5 eexists. split; [reflexivity|]. apply (known_result _ _ _ _ p b); try done. split; [by left|done]. }
  assert (Hng : header_GetHash block <> hashGenesisBlock params) by (intros E; by rewrite E, (proj2 (bytes_eqb_eq _ _) eq_refl) in Eg).
  destruct (m_block_index s !! header_GetHash block) as [p|] eqn:Em.
  { pose proof (proj1 (tree_index s Htree _ p) Em) as (b & Hb & _). unfold deref. rewrite Hb. cbn [of_option obind].
    destruct (failed b) eqn:Ef; do 5 eexists; (split; [reflexivity|]); apply (known_result _ _ _ _ p b); try done; rewrite Ef; (split; [by auto|]); by intros [?|?]. }
  destruct (check_new_header_spec s Hs tip btip Htip Hbtip block state view Hty Hv Ht) as (ok & state' & s1 & view' & -> & [Hv' Href Hok]). cbn [obind]. destruct ok; cbn [negb].
  - destruct Href as [-> ->]. destruct (proj1 Hok eq_refl) as (q & prev & Hacc). pose proof (ac_parent _ _ _ _ _ Hacc) as [Hq _].
    destruct (AddToBlockIndex_spec s block Htree (hty_bits _ Hty)) as (p & s' & -> & Hs' & Hi' & Ec & Hnew); [congruence|]. rewrite Em in Hnew. destruct Hnew as (b & Ee & Hfree & Hnew).
    cbn [obind fst snd]. do 5 eexists. split; [reflexivity|]. split; [by eapply header_tree_add|..].
    + split; [|apply (index_enlarges s s' p b); done|done]. intros x bx Hx. exists (nStatus bx). rewrite Ee, lookup_insert_ne by congruence. rewrite Hx. by destruct bx.
    + done.
    + done.
    + intros ? ?. congruence.
    + intros _. split; [done|]. by exists p, b.
    + intros _. by exists p.
  - do 5 eexists. split; [reflexivity|]. destruct (enlarges_refused s block s1 Hs Href) as [Ht1 Hg1]. split; [done|done|done|done|intros ? ?; congruence|by intros _|done].
Qed.

(** ** Lists of headers *)

Context (fReindex fImporting : bool).

Definition indexed (s : ChainState) (h : CBlockHeader) : Prop := is_Some (m_block_index s !! header_GetHash h).

Lemma indexed_enlarges s s' h : enlarges s s' -> indexed s h -> indexed s' h.
Proof. intros Hg [p Hp]. exists p. by eapply lookup_weaken, Hg. Qed.

(** The outcome for a list of headers *)
Record headers_result (headers : list CBlockHeader) (s : ChainState) (view : CCoinsViewCache V) (r : HeadersResult) : Prop := {
  hrs_tree : header_tree (hr_tree r);
  hrs_grows : enlarges s (hr_tree r);
  hrs_view : cache_ok (hr_view r) /\ forall o, cache_utxo (hr_view r) o = cache_utxo view o;
  hrs_ok : hr_ok r = true -> Forall (indexed (hr_tree r)) headers;
  hrs_invalid : hr_ok r = false -> exists l1 l2, headers = l1 ++ hr_first_invalid r :: l2 /\ Forall (indexed (hr_tree r)) l1
}.

Lemma headers_result_cons h l s s1 view view1 r :
  enlarges s s1 -> (forall o, cache_utxo view1 o = cache_utxo view o) -> indexed s1 h ->
  headers_result l s1 view1 r -> headers_result (h :: l) s view r.
Proof.
  intros Hg Hu Hi [Ht Hg' [Hv Hu'] Hok Hno]. split; [done|by eapply enlarges_trans|split; [done|]; intros o; by rewrite Hu'| |].
  - intros E. constructor; [by eapply indexed_enlarges|auto].
  - intros E. destruct (Hno E) as (l1 & l2 & -> & Hl1). exists (h :: l1), l2. split; [done|]. constructor; [by eapply indexed_enlarges|done].
Qed.

(** Where the headers end up *)
Definition index_of (s : ChainState) (o : option CBlockHeader) (d : option ptr) : option ptr :=
  match o with Some h => m_block_index s !! header_GetHash h | None => d end.

Lemma process_headers_spec headers bFirst fInstantBan pp pf state s view :
  header_tree s -> Forall header_typed headers -> cache_ok view -> coins_typed (cache_utxo view) ->
  exists r, process_headers CheckLowS RecoverLaxDER params fCheckpointsEnabled checkpoints IsInitialBlockDownload fReindex fImporting AdjustedTime
      headers bFirst fInstantBan pp pf state s view = Ok r /\ headers_result headers s view r /\
    (hr_ok r = true -> hr_pindex r = index_of (hr_tree r) (last headers) pp /\ hr_first r = if bFirst then index_of (hr_tree r) (head headers) pf else pf) /\
    (hr_ok r = false -> fInstantBan = true \/ (exists h h' l, headers = h :: h' :: l /\ stake_seen IsInitialBlockDownload fReindex fImporting h s = true) -> m_reason (hr_state r) = BLOCK_INVALID_HEADER).
Proof.
  revert bFirst fInstantBan pp pf state s view. induction headers as [|h l IH]; intros bFirst ban pp pf state s view Hs Hty Hv Ht; cbn [process_headers].
  { eexists. split; [reflexivity|]. split; [split; [done|apply enlarges_refl|done|done|done]|]. split; [|done]. intros _. by destruct bFirst. }
  apply Forall_cons in Hty as [Hh Hty]. destruct (stake_seen _ _ _ h s && bool_decide (l = [])) eqn:Edup.
  { apply andb_true_iff in Edup as [_ ->%bool_decide_eq_true]. eexists. split; [reflexivity|]. split; [split; [done|apply enlarges_refl|done|done|]|].
    - intros _. by exists [], [].
    - split; [done|]. by intros _ [->|(? & ? & ? & [=] & _)]. }
  set (ban1 := if stake_seen _ _ _ h s then true else ban).
  destruct (AcceptBlockHeader_spec h state s view Hs Hh Hv Ht) as (ok & state1 & p & s1 & view1 & -> & [Ht1 Hg1 _ [Hv1 Hu1] _ _ Hi1]). cbn [obind]. destruct ok; cbn [negb].
  - destruct (IH false ban1 p (if bFirst then p else pf) state1 s1 view1 Ht1 Hty Hv1 (coins_typed_ext _ _ Hu1 Ht)) as (r & -> & Hr & Hidx & Hban).
    destruct (Hi1 eq_refl) as (q & -> & Hq). assert (Hin : indexed s1 h) by (by exists q). exists r. split; [done|]. split; [by eapply headers_result_cons|]. split.
    + intros E. destruct (Hidx E) as [Hlast Hfirst]. assert (Hq' : m_block_index (hr_tree r) !! header_GetHash h = Some q) by (eapply lookup_weaken; [exact Hq|apply Hr]).
      split.
      { rewrite Hlast, last_cons. destruct (last l) as [h'|]; [done|]. cbn [index_of]. by rewrite Hq'. }
      rewrite Hfirst. destruct bFirst; [|done]. change (Some q = m_block_index (hr_tree r) !! header_GetHash h). by rewrite Hq'.
    + intros E Hb. apply Hban; [done|]. left. unfold ban1. destruct (stake_seen _ _ _ h s) eqn:Es; [done|]. destruct Hb as [->|(? & ? & ? & [= <- _] & ?)]; [done|congruence].
  - eexists. split; [reflexivity|]. split; [split; [done|done|done|done|]|].
    + intros _. by exists [], l.
    + split; [done|]. intros _ Hb. unfold ban1. destruct (stake_seen _ _ _ h s) eqn:Es; [done|]. destruct Hb as [->|(? & ? & ? & [= <- _] & ?)]; [done|congruence].
Qed.

End headers.

(** * Properties *)

(** C22 (headers enter the tree): on a well-formed tree with an active chain,
    whose only root is the genesis block, of a network without
    minimum-difficulty blocks, and if the undo data on disk name no negative
    heights, [AcceptBlockHeader] returns for every header whose fields are
    within their widths.  A header that
    is known changes nothing and is accepted unless its block failed; that of
    the genesis block is always accepted.  A new
    header is accepted exactly when its parent is in the tree, has not failed
    and, unless its scripts were checked, does not descend from a failed
    block; it is not older than the synchronized checkpoint or builds on the
    tip; its signature is canonical; it fits its context; and its proof of
    work or its stake, for a coin that is unspent or was spent after the fork,
    is valid.  Then the tree gets one entry, on top of the parent.  A refused
    header at most marks the path from its parent to a failed block.  The
    tree stays well formed and the coins are not changed. *)
Theorem AcceptBlockHeader_decides `{Laws : CCoinsViewReads V} `{Files : BlockFiles} (CheckLowS : bytes -> bool)
    (RecoverLaxDER : uint256 -> bytes -> Z -> bool -> option CPubKey) (params : Params) (fCheckpointsEnabled : bool)
    (checkpoints : MapCheckpoints) (IsInitialBlockDownload : bool) (AdjustedTime : Z)
    (block : CBlockHeader) (state : CValidationState) (s : ChainState) (view : CCoinsViewCache V) :
  0 <= nCheckpointSpan params -> pow_params_ok params -> fPowAllowMinDifficultyBlocks params = false ->
  (forall b l, UndoReadFromDisk b = Some l -> Forall (Forall (fun cn => 0 <= Coins.nHeight cn)) l) ->
  header_tree params s -> header_typed block -> cache_ok view -> coins_typed (cache_utxo view) ->
  exists ok state' ppindex s' view',
    AcceptBlockHeader CheckLowS RecoverLaxDER params fCheckpointsEnabled checkpoints IsInitialBlockDownload AdjustedTime block state s view =
      Ok (ok, state', ppindex, s', view') /\
    header_result CheckLowS RecoverLaxDER params fCheckpointsEnabled checkpoints IsInitialBlockDownload AdjustedTime
      block state s view ok state' ppindex s' view'.
Proof. intros Hspan Hpow Hmin Hundo. by apply AcceptBlockHeader_spec. Qed.

(** Lists of headers: [ProcessNewBlockHeaders] returns for every list.
    When it succeeds every header is in the tree, the last and the first entry
    are reported, and the tree only grew.  When it fails on a header, that
    header is reported and all the headers before it are in the tree; the
    failure after a header whose stake was seen before is one to ban for. *)
Theorem ProcessNewBlockHeaders_grows_tree `{Laws : CCoinsViewReads V} `{Files : BlockFiles} (CheckLowS : bytes -> bool)
    (RecoverLaxDER : uint256 -> bytes -> Z -> bool -> option CPubKey) (params : Params) (fCheckpointsEnabled : bool)
    (checkpoints : MapCheckpoints) (IsInitialBlockDownload fReindex fImporting : bool) (AdjustedTime : Z)
    (headers : list CBlockHeader) (state : CValidationState) (s : ChainState) (view : CCoinsViewCache V) :
  0 <= nCheckpointSpan params -> pow_params_ok params -> fPowAllowMinDifficultyBlocks params = false ->
  (forall b l, UndoReadFromDisk b = Some l -> Forall (Forall (fun cn => 0 <= Coins.nHeight cn)) l) ->
  header_tree params s -> Forall header_typed headers -> cache_ok view -> coins_typed (cache_utxo view) ->
  exists r, ProcessNewBlockHeaders CheckLowS RecoverLaxDER params fCheckpointsEnabled checkpoints IsInitialBlockDownload fReindex fImporting AdjustedTime
      headers state s view = Ok r /\
    if ends_in_future IsInitialBlockDownload AdjustedTime headers
    then hr_ok r = false /\ m_reason (hr_state r) = BLOCK_TIME_FUTURE /\ hr_tree r = s /\ hr_view r = view
    else headers_result params headers s view r /\
      (hr_ok r = true -> hr_pindex r = index_of (hr_tree r) (last headers) None /\ hr_first r = index_of (hr_tree r) (head headers) None) /\
      (hr_ok r = false -> (exists h h' l, headers = h :: h' :: l /\ stake_seen IsInitialBlockDownload fReindex fImporting h s = true) ->
        m_reason (hr_state r) = BLOCK_INVALID_HEADER).
Proof.
  intros Hspan Hpow Hmin Hundo Hs Hty Hv Ht. unfold ProcessNewBlockHeaders. destruct (ends_in_future _ _ _).
  { eexists. by split; [reflexivity|]. }
  destruct (process_headers_spec CheckLowS RecoverLaxDER params fCheckpointsEnabled checkpoints IsInitialBlockDownload AdjustedTime Hspan Hpow Hmin Hundo fReindex fImporting
    headers true false None None state s view Hs Hty Hv Ht) as (r & E & Hr & Hidx & Hban). exists r. split_and!; [done|done|done|]. intros Hok Hseen. apply Hban; [done|by right].
Qed.

(** ** Witnesses *)

#[local] Existing Instance no_files.

Definition with_genesis (hash : uint256) (params : Params) : Params := {|
  hashGenesisBlock := hash; nSubsidyHalvingInterval := nSubsidyHalvingInterval params;
  BIP16Exception := BIP16Exception params; BIP34Height := BIP34Height params; BIP34Hash := BIP34Hash params;
  BIP65Height := BIP65Height params; BIP66Height := BIP66Height params; CSVHeight := CSVHeight params;
  SegwitHeight := SegwitHeight params; MinBIP9WarningHeight := MinBIP9WarningHeight params;
  QIP5Height := QIP5Height params; QIP6Height := QIP6Height params; QIP7Height := QIP7Height params;
  QIP9Height := QIP9Height params; minMIP1Height := minMIP1Height params; MIP1Height := MIP1Height params;
  minMIP2Height := minMIP2Height params; MIP2Height := MIP2Height params; MIP3StartHeight := MIP3StartHeight params;
  MIP3Height := MIP3Height params; MIP4StartHeight := MIP4StartHeight params; MIP4Height := MIP4Height params;
  MIP5StartHeight := MIP5StartHeight params; MIP5Height := MIP5Height params;
  MIP6StartHeight := MIP6StartHeight params; MIP6Height := MIP6Height params;
  nRuleChangeActivationThreshold := nRuleChangeActivationThreshold params;
  nMinerConfirmationWindow := nMinerConfirmationWindow params; vDeployments := vDeployments params;
  powLimit := powLimit params; posLimit := posLimit params; QIP9PosLimit := QIP9PosLimit params;
  fPowAllowMinDifficultyBlocks := fPowAllowMinDifficultyBlocks params; fPowNoRetargeting := fPowNoRetargeting params;
  fPoSNoRetargeting := fPoSNoRetargeting params; nPowTargetSpacing := nPowTargetSpacing params;
  nPowTargetTimespan := nPowTargetTimespan params; nPowTargetTimespanV2 := nPowTargetTimespanV2 params;
  nPowTargetTimespanV3 := nPowTargetTimespanV3 params; nMinimumChainWork := nMinimumChainWork params;
  defaultAssumeValid := defaultAssumeValid params; nLastPOWBlock := nLastPOWBlock params;
  nFirstMPoSBlock := nFirstMPoSBlock params; nMPoSRewardRecipients := nMPoSRewardRecipients params;
  nFixUTXOCacheHFHeight := nFixUTXOCacheHFHeight params;
  nEnableHeaderSignatureHeight := nEnableHeaderSignatureHeight params; nCheckpointSpan := nCheckpointSpan params |}.

Definition header_params : Params := with_genesis (repeat 1 32) mainnet_pow.

Lemma header_params_ok : pow_params_ok header_params.
Proof. destruct mainnet_pow_ok. by split. Qed.

Lemma tree_state_headers : header_tree header_params tree_state.
Proof.
  split; [exact tree_state_ok| |by eexists|].
  - intros p b H. change (tree_entries !! p = Some b) in H. each_entry H; split; vm_compute; split; congruence.
  - intros p b H. change (tree_entries !! p = Some b) in H. each_entry H; done.
Qed.

(** A header on top of the tip, and one on top of a child of the failed block *)
Definition good_header : CBlockHeader :=
  mkHeader 4 (repeat 2 32) uint256_null 163 0x1f00ffff 60939 uint256_null uint256_null outpoint_null [].
Definition doomed_header : CBlockHeader :=
  mkHeader 4 (repeat 4 32) uint256_null 163 0x1d00ffff 0 uint256_null uint256_null outpoint_null [].

Definition accepts (block : CBlockHeader) :=
  AcceptBlockHeader low_s no_recovery header_params false [] false 163 block CValidationState_new tree_state a_cache.

Definition verdict (block : CBlockHeader) : option (bool * option ptr) :=
  match accepts block with Ok (ok, _, ppindex, _, _) => Some (ok, ppindex) | _ => None end.

Lemma verdict_of block ok state ppindex s view : accepts block = Ok (ok, state, ppindex, s, view) -> verdict block = Some (ok, ppindex).
Proof. unfold verdict. by intros ->. Qed.

Lemma good_verdict : verdict good_header = Some (true, Some 7%positive).
Proof. vm_compute. reflexivity. Qed.

Lemma doomed_verdict : verdict doomed_header = Some (false, None).
Proof. vm_compute. reflexivity. Qed.

Lemma good_header_known : m_block_index tree_state !! header_GetHash good_header = None.
Proof. vm_compute. reflexivity. Qed.

Lemma doomed_header_known : m_block_index tree_state !! header_GetHash doomed_header = None.
Proof. vm_compute. reflexivity. Qed.

Lemma example_header_typed block : block = good_header \/ block = doomed_header -> header_typed block.
Proof. intros [-> | ->]; (split; [vm_compute; split; congruence..|]); (split; [|reflexivity]); apply bytes_ok_small; reflexivity. Qed.

(** The first header is accepted and gets an entry; the second one is refused,
    and if the tree was changed it is the path to a failed block. *)
Lemma AcceptBlockHeader_decides_witness :
  (exists s' view' b, accepts good_header = Ok (true, CValidationState_new, Some 7%positive, s', view') /\
    header_tree header_params s' /\ entries s' = <[7%positive := b]> (entries tree_state) /\ new_entry tree_state good_header b) /\
  (exists state' s' view', accepts doomed_header = Ok (false, state', None, s', view') /\
    header_tree header_params s' /\ refused tree_state doomed_header s').
Proof.
  split.
  - destruct (AcceptBlockHeader_decides low_s no_recovery header_params false [] false 163 good_header CValidationState_new tree_state a_cache
      ltac:(vm_compute; congruence) header_params_ok eq_refl ltac:(done) tree_state_headers (example_header_typed _ (or_introl eq_refl)) a_cache_ok a_cache_typed)
      as (ok & state' & pp & s' & view' & E & [Ht _ Hst _ _ Hn _]). pose proof (verdict_of _ _ _ _ _ _ E) as V. rewrite good_verdict in V. injection V as <- <-. destruct (Hn good_header_known) as [_ (p & b & [= <-] & _ & Ee & Hb)].
    rewrite (Hst eq_refl) in E. exists s', view', b.
    exact (conj E (conj Ht (conj Ee Hb))).
  - destruct (AcceptBlockHeader_decides low_s no_recovery header_params false [] false 163 doomed_header CValidationState_new tree_state a_cache
      ltac:(vm_compute; congruence) header_params_ok eq_refl ltac:(done) tree_state_headers (example_header_typed _ (or_intror eq_refl)) a_cache_ok a_cache_typed)
      as (ok & state' & pp & s' & view' & E & [Ht _ _ _ _ Hn _]). pose proof (verdict_of _ _ _ _ _ _ E) as V. rewrite doomed_verdict in V. injection V as <- <-. destruct (Hn doomed_header_known) as [_ [_ Hr]].
    exists state', s', view'. exact (conj E (conj Ht Hr)).
Defined.
